(* ===== verification/_CoqProject ===== *)
-Q . S2P
Prelude.v
Serialize.v
Common.v
Opcodes.v
ScriptNum.v
Script.v
MDHash.v
Sha256.v
Sha512.v
Sha1.v
Ripemd160.v
Hash.v
SipHash.v
SigEncoding.v
Interpreter.v
EvalProps.v
EvalSpec.v
ContractScript.v
Transaction.v
SigHash.v
Standard.v
StandardProps.v
VerifyScript.v
ArithUint256.v
ArithProps.v
Block.v
Chain.v
ChainProps.v
BlockIndexInv.v
Pow.v
PowProps.v
Merkle.v
MerkleProps.v
MerkleBlock.v
MerkleBlockProps.v
Coins.v
CoinsProps.v
CoinsDB.v
UpdateCoins.v
UpdateCoinsProps.v
TxVerify.v
TxVerifyProps.v
Stake.v
StakeProps.v
SequenceLocks.v
VersionBits.v
VersionBitsProps.v
AcceptHeader.v
AcceptHeaderProps.v
BlockCheck.v
BlockCheckProps.v
Subsidy.v
BestChain.v
BestChainProps.v
ActivateProps.v
CheckQueue.v
NetAddr.v
AddrMan.v
AddrManProps.v
AddrManCheck.v
Compressor.v
CompressorProps.v
Base58.v
Base58Props.v
Bech32.v
Bech32Props.v
Scalar.v
Primality.v
ScalarProps.v
Field.v
FieldProps.v
FieldSpec.v
Group.v
GroupProps.v
