(* ===== verification/Prelude.v ===== *)
(** * UnitedBitcoin: a verification development

    A shallow embedding of the consensus core of UnitedBitcoin, a fork of Bitcoin Core
    0.15 with proof of stake and contract opcodes, and of libraries it stands on: the
    arithmetic of its curve, its text encodings, its table of peers and its queue of script
    checks. The sources are under [src/]; each file below names the ones it translates.

    ** The program and its parts

    A node receives headers and blocks. A header is checked alone and against its parent
    and enters the block index ([CheckBlockHeader], [ContextualCheckBlockHeader],
    [AcceptBlockHeader]); its target comes from [pow.cpp], its deployment states from
    [versionbits.cpp]. A block is checked as a whole ([CheckBlock]: Merkle root, coinbase
    and coinstake, each transaction, sizes, signature operations; [CheckStake] for the
    stake) and in context ([ContextualCheckBlock]). [ActivateBestChain] then moves the tip
    to the best candidate; connecting a block applies its transactions to the set of
    unspent coins, which is a stack of caches ([coins.cpp]) over a database
    ([txdb.cpp]). Each input is verified by the script interpreter ([EvalScript],
    [VerifyScript]), whose signature checks hash the transaction ([SignatureHash]).
    The checks of the scripts of a block are spread over threads by the queue of
    [checkqueue.h]. Coins and undo data are stored in the compressed records of
    [compressor.h]. Everything is identified by double SHA-256 over the serialization of
    [serialize.h]. Signatures are points and scalars of secp256k1 ([src/secp256k1/]); keys
    and addresses are written in base 58 or Bech32; the addresses of peers are kept in the
    tables of [addrman.cpp].

    ** Conventions

    A w-bit integer is a [Z] in its range; casts and wrapping operations are [uint32],
    [int64] and the like, and signed overflow, which is undefined in C++, is [Undef]. A
    byte is a [Z] from 0 to 255 and a byte string a list of bytes. A function that can
    throw, fail an assertion or leave the defined behaviour of C++ returns an [outcome]
    ([Ret], [Throw], [Abort], [Undef]); [let?] binds it. State is passed explicitly: a
    method takes the object and returns the new one. Block index entries live in a heap,
    a list indexed by pointers, so that the aliasing of [pprev] and [pskip] is that of the
    code. Code that is outside the sources or that is not modelled is a class of
    operations: signature verification ([EcdsaVerify], [SignatureChecker]), the low-S test
    and the height of the chain ([NodeEnv]), the view below a cache ([CCoinsView], with its
    laws in [CoinsViewLaws]), memory usage ([CoinUsage]), the parameters of the network
    ([ForkParams], [TxRules], [HeaderRules], [BlockRules], [DbParams], [Deployments]), the
    extraction of contract data ([TxRules]), the addresses that break ties between
    candidates ([BlockAddresses]) and, for the choice of the tip, what connecting and
    disconnecting a block do outside the index ([TipOps], with its laws in [tip_laws]), the
    validation and decompression of public keys ([PubKeyCodec], with its laws in
    [PubKeyLaws]). Random numbers and the time of day are arguments.

    ** Files

    - [Prelude]: integers at their width, byte encodings, outcomes, the tactics
      ([bool_to_prop] and others) and the hint databases [ubtc] and [ubtc_rw].
    - [Serialize], [Common]: [serialize.h] and [crypto/common.h]; the class [RoundTrip] is
      what a decoder promises to the decoders built on it.
    - [Opcodes], [ScriptNum], [Script]: [script/script.h] and [script.cpp].
    - [MDHash] with [Sha256], [Sha512], [Sha1], [Ripemd160]: the hash classes of [crypto/],
      buffered hashing once for all four; [Hash] for [hash.h] and the HMACs, through the
      class [HashStream]; [SipHash].
    - [SigEncoding], [Interpreter], [EvalProps], [EvalSpec], [ContractScript], [SigHash],
      [VerifyScript]: [script/interpreter.cpp], [Transaction] for
      [primitives/transaction.h], [Standard] and [StandardProps] for [script/standard.cpp].
    - [ArithUint256], [ArithProps]: [arith_uint256.cpp].
    - [Block], [Chain], [ChainProps], [BlockIndexInv]: [primitives/block.h], [chain.cpp] and
      the insertion into the block index; [Pow], [PowProps]: [pow.cpp].
    - [Merkle], [MerkleProps], [MerkleBlock], [MerkleBlockProps]: [consensus/merkle.cpp] and
      [merkleblock.cpp].
    - [Coins], [CoinsProps], [CoinsDB], [UpdateCoins], [UpdateCoinsProps]: [coins.cpp],
      [txdb.cpp] and the changes that a block makes to the coins.
    - [TxVerify], [TxVerifyProps], [SequenceLocks]: [consensus/tx_verify.cpp].
    - [VersionBits], [VersionBitsProps]: [versionbits.cpp].
    - [Stake], [StakeProps]: the stake checks of [miner.cpp].
    - [AcceptHeader], [AcceptHeaderProps], [BlockCheck], [BlockCheckProps], [Subsidy]: the
      checks of headers and blocks and the subsidy of [validation.cpp].
    - [BestChain], [BestChainProps], [ActivateProps]: the candidates for the tip and the
      steps of [ActivateBestChain] in [validation.cpp].
    - [CheckQueue]: [checkqueue.h] as a step relation between threads.
    - [NetAddr], [AddrMan], [AddrManProps], [AddrManCheck]: the ranges, groups and subnets of
      [netaddress.cpp] and the address manager of [addrman.cpp].
    - [Compressor], [CompressorProps]: [compressor.h], [undo.h] and the record of a coin.
    - [Base58], [Base58Props], [Bech32], [Bech32Props]: the encodings of [base58.cpp] and
      [bech32.cpp].
    - [Scalar], [ScalarProps], [Field], [FieldProps], [FieldSpec], [Group], [GroupProps]:
      [scalar_4x64_impl.h], [field_5x52_impl.h] and [group_impl.h] of [src/secp256k1/src],
      in their portable form; [Primality] proves that the two moduli are prime.

    ** What the theorems show

    - Scripts: evaluation and verification always end and never fail an assertion, and what
      they do is defined except where an empty signature is asked for its fork id (or, in
      god mode, the stack is too short), with that state exhibited; what a success implies,
      at the end of the script or at a contract opcode; verification of script hashes and of particular scripts; the multisig loop
      finds an order-preserving matching; the legacy digest signs what its flags say.
    - Data: decoding inverts encoding, canonically, for integers, scripts, transactions and
      blocks; equal identifiers mean equal contents, or two different byte strings that the
      code hashes have one hash; addresses and their scripts are in correspondence.
    - Hashes: the buffered and unrolled classes compute the functions of the standards.
    - Arithmetic: 256-bit integers compute modulo a power of two; targets are compressed
      and limited as intended.
    - Merkle trees: the constant-space computation is the tree, branches and partial trees
      prove inclusion, up to a collision between byte strings hashed in the two trees.
    - Block index: every insertion keeps the invariant and changes only its entry, ancestors, forks and tips are the
      ones of the tree; the headers accepted are exactly those of the rules; deployments follow BIP 9.
    - Coins: a cache refines a plain set; a database write survives a crash at any point;
      disconnecting a block undoes connecting it; accepted transactions balance, exactly
      where the contract amounts stay within 64 bits and modulo [2 ^ 64] always; relative
      locks; the issue of coins is bounded.
    - Blocks: what [CheckBlock] and [CheckStake] guarantee of an accepted block, and an
      input on which [CheckBlock] leaves defined behaviour.
    - The tip: [FindMostWorkChain] returns the best usable candidate; [ActivateBestChain]
      ends with the best complete and valid chain, whatever blocks turn out invalid on the
      way, as long as no block is reported as possibly corrupted ([tip_laws]), and does not end when a block is reported as possibly corrupted.
    - The check queue: under every interleaving, [Wait] returns, and returns whether all the
      checks succeed.
    - Peers: every history of the address manager keeps its tables consistent, so that its
      own check reports no error.
    - Text and records: base 58 is a bijection; the Bech32 checksum detects up to three
      wrong characters and any errors within six neighbouring ones; stored coins and undo
      data are read back.
    - The curve: the limbs of scalars and field elements compute modulo the two primes,
      without overflow for the magnitudes the library allows, and the inverses and square
      roots are right; every formula for adding points, including the one without branches,
      is the group law; the conversions between coordinates keep the point.

    ** Fuel

    The loops over a script take its length as fuel: each step consumes a byte; an
    interpreter loop that its fuel does not let end is an aborted run ([out_of_fuel]), which
    the theorems exclude. Walks
    along [pprev] take the height of the start plus one, since heights decrease; the
    division of [base_uint] takes the number of bits; buffered writes take the length of
    the input; a search among the candidates takes their number, since each round removes
    one. The rounds of [ActivateBestChain] are an argument, and [ActivateProps.enough] is a
    number of them that is sufficient. The conversions between bases run for the size that
    the code computes in advance, which is shown to be enough. The theorems show that the
    fuel does not run out: they state that the functions return.

    The magnitude of a field element bounds its limbs by that many times twice their
    normal range; the theorems hold up to the magnitudes that the comments of the library
    allow. The primality certificates are checked by evaluation.

    ** Not modelled

    Of libsecp256k1, the multiples of points, signatures, the assembly and 32-bit variants
    and the endomorphism; key files. The contract engine and its virtual machine, the
    storage engines, the memory pool, mining, the wallet, connections and messages, RPC and
    the graphical interface. Of [validation.cpp], the script checks, fees and contract
    execution of [ConnectBlock], memory pool acceptance and the block files. Threads and
    locks, apart from the check queue: every operation is modelled as one that holds its
    lock. *)

From stdpp Require Export base tactics numbers list list_numbers option.
From Stdlib Require Export ZArith Lia.

Open Scope Z_scope.

(** ** Machine integers

    A [w]-bit integer of the C++ code is a [Z]; the conversions below are the
    wrap-around of the corresponding casts. *)

Definition uint8 (x : Z) : Z := x mod 2 ^ 8.

Definition uint16 (x : Z) : Z := x mod 2 ^ 16.

Definition uint32 (x : Z) : Z := x mod 2 ^ 32.

Definition uint64 (x : Z) : Z := x mod 2 ^ 64.

Definition int32 (x : Z) : Z := (x + 2 ^ 31) mod 2 ^ 32 - 2 ^ 31.

Definition int64 (x : Z) : Z := (x + 2 ^ 63) mod 2 ^ 64 - 2 ^ 63.

Definition INT_MAX : Z := 2 ^ 31 - 1.

Definition INT_MIN : Z := - 2 ^ 31.

Definition INT64_MAX : Z := 2 ^ 63 - 1.

Definition INT64_MIN : Z := - 2 ^ 63.

(** A flag test [x & m] in a condition. *)
Definition flag (x m : Z) : bool := negb (Z.land x m =? 0).

(** The size of a container, as a [size_t]. *)
Definition Zlen {A} (l : list A) : Z := Z.of_nat (length l).

(** ** Bytes

    An [unsigned char] is a [Z] in [0, 256); [bytes_ok] is the typing
    invariant of a byte vector. *)

Definition is_byte (b : Z) : Prop := 0 <= b < 256.

#[export] Instance is_byte_dec (b : Z) : Decision (is_byte b).
Proof. unfold is_byte. apply _. Defined.

Definition bytes_ok (l : list Z) : Prop := Forall is_byte l.

(** Little-endian value and encoding; [le32toh] and friends on the bytes of
    an integer. *)
Fixpoint le_encode (n : nat) (x : Z) : list Z :=
  match n with
  | O => []
  | S n => x mod 256 :: le_encode n (x / 256)
  end.

Fixpoint le_decode (l : list Z) : Z :=
  match l with
  | [] => 0
  | b :: l => b + 256 * le_decode l
  end.

Definition be_encode (n : nat) (x : Z) : list Z := reverse (le_encode n x).

Definition be_decode (l : list Z) : Z := le_decode (reverse l).

(** ** Outcomes of C++ code

    A call returns, throws an exception, stops at a failed [assert], or has no
    defined behaviour (an index past the end of a container). *)

Inductive exn :=
| scriptnum_overflow
| scriptnum_nonminimal
| scriptnum_negative
| out_of_range
| runtime_error
| logic_error
| uint_error.

Inductive outcome (A : Type) :=
| Ret (a : A)
| Throw (e : exn)
| Abort
| Undef.

Arguments Ret {A} a.
Arguments Throw {A} e.
Arguments Abort {A}.
Arguments Undef {A}.

#[export] Instance exn_eq_dec : EqDecision exn.
Proof. solve_decision. Defined.

Definition obind {A B} (m : outcome A) (k : A -> outcome B) : outcome B :=
  match m with
  | Ret a => k a
  | Throw e => Throw e
  | Abort => Abort
  | Undef => Undef
  end.

Lemma Ret_inj {A} (x y : A) : Ret x = Ret y -> x = y.
Proof. by intros [= ->]. Qed.

Declare Scope outcome_scope.
Delimit Scope outcome_scope with outcome.

Notation "'let?' x ':=' m 'in' k" := (obind m (fun x => k))
  (at level 10, x pattern, m at level 100, k at level 200) : outcome_scope.

(** [assert(c)] *)
Definition cassert (c : bool) : outcome unit := if c then Ret tt else Abort.

(** [v[i]] on a vector, with no bounds check. *)
Definition index {A} (v : list A) (i : Z) : outcome A :=
  if (i <? 0) then Undef
  else match v !! Z.to_nat i with Some x => Ret x | None => Undef end.

(** [v[i]] where the code has checked that [i] is in range. *)
Definition byte_at (v : list Z) (i : Z) : Z := default 0 (v !! Z.to_nat i).

(** [v.back()] on a vector the code has checked not to be empty. *)
Definition back (v : list Z) : Z := byte_at v (Zlen v - 1).

(** ** Tactics *)

(** Case analysis on the conditionals of a goal or hypothesis, turning each
    boolean test on [Z] into its proposition. *)
Ltac bool_to_prop :=
  repeat match goal with
  | H : (_ =? _) = true |- _ => apply Z.eqb_eq in H
  | H : (_ =? _) = false |- _ => apply Z.eqb_neq in H
  | H : (_ <? _) = true |- _ => apply Z.ltb_lt in H
  | H : (_ <? _) = false |- _ => apply Z.ltb_ge in H
  | H : (_ <=? _) = true |- _ => apply Z.leb_le in H
  | H : (_ <=? _) = false |- _ => apply Z.leb_gt in H
  | H : (_ >? _) = _ |- _ => rewrite Z.gtb_ltb in H
  | H : (_ >=? _) = _ |- _ => rewrite Z.geb_leb in H
  | H : (_ && _) = true |- _ => apply andb_true_iff in H as [? ?]
  | H : (_ || _) = false |- _ => apply orb_false_iff in H as [? ?]
  | H : negb _ = true |- _ => apply negb_true_iff in H
  | H : negb _ = false |- _ => apply negb_false_iff in H
  end.

(** Equality of two nested sums modulo the same number. *)
Ltac mod_sum :=
  repeat match goal with
  | |- context [(?x mod ?n + ?y) mod ?n] =>
    lazymatch x with context [_ mod n] => fail | _ => rewrite (Zplus_mod_idemp_l x y n) end
  | |- context [(?y + ?x mod ?n) mod ?n] =>
    lazymatch x with context [_ mod n] => fail | _ => rewrite (Zplus_mod_idemp_r x y n) end
  end; f_equal; lia.

(** A literal list of bytes. *)
Ltac bytes_closed := unfold bytes_ok; apply (bool_decide_unpack _); vm_compute; exact I.

(** Unfold the integer conversions. *)
Ltac unfold_ints :=
  unfold uint8, uint16, uint32, uint64, int32, int64,
    INT_MAX, INT_MIN, INT64_MAX, INT64_MIN, is_byte in *.

(** ** Integers *)

Lemma uint8_range x : 0 <= uint8 x < 256.
Proof. apply Z.mod_pos_bound. lia. Qed.

Lemma uint32_range x : 0 <= uint32 x < 2 ^ 32.
Proof. apply Z.mod_pos_bound. lia. Qed.

Lemma uint64_range x : 0 <= uint64 x < 2 ^ 64.
Proof. apply Z.mod_pos_bound. lia. Qed.

Lemma int64_range x : - 2 ^ 63 <= int64 x < 2 ^ 63.
Proof. unfold int64. pose proof (Z.mod_pos_bound (x + 2 ^ 63) (2 ^ 64)). lia. Qed.

Lemma uint8_id x : 0 <= x < 256 -> uint8 x = x.
Proof. intros. apply Z.mod_small. lia. Qed.

Lemma uint16_id x : 0 <= x < 2 ^ 16 -> uint16 x = x.
Proof. intros. apply Z.mod_small. lia. Qed.

Lemma uint32_id x : 0 <= x < 2 ^ 32 -> uint32 x = x.
Proof. intros. apply Z.mod_small. lia. Qed.

Lemma uint64_idem x : uint64 (uint64 x) = uint64 x.
Proof. unfold uint64. by rewrite Z.mod_mod. Qed.

Lemma uint32_idem x : uint32 (uint32 x) = uint32 x.
Proof. unfold uint32. by rewrite Z.mod_mod. Qed.

Lemma uint64_id x : 0 <= x < 2 ^ 64 -> uint64 x = x.
Proof. intros. apply Z.mod_small. lia. Qed.

Lemma int32_id x : - 2 ^ 31 <= x < 2 ^ 31 -> int32 x = x.
Proof. intros. unfold int32. rewrite Z.mod_small by lia. lia. Qed.

Lemma int64_id x : - 2 ^ 63 <= x < 2 ^ 63 -> int64 x = x.
Proof. intros. unfold int64. rewrite Z.mod_small by lia. lia. Qed.

Lemma Zlen_nonneg {A} (l : list A) : 0 <= Zlen l.
Proof. unfold Zlen. lia. Qed.

Lemma Zlen_app {A} (l k : list A) : Zlen (l ++ k) = Zlen l + Zlen k.
Proof. unfold Zlen. rewrite length_app. lia. Qed.

Lemma Zlen_cons {A} (x : A) (l : list A) : Zlen (x :: l) = 1 + Zlen l.
Proof. unfold Zlen. simpl. lia. Qed.

Lemma Zlen_nil {A} : Zlen (@nil A) = 0.
Proof. reflexivity. Qed.

Lemma Zlen_snoc {A} (l : list A) (x : A) : Zlen (l ++ [x]) = Zlen l + 1.
Proof. unfold Zlen. rewrite length_app. simpl. lia. Qed.

Lemma Zlen_0_nil {A} (l : list A) : Zlen l = 0 -> l = [].
Proof. unfold Zlen. destruct l; simpl; [done | lia]. Qed.

(** A property of the integers below a bound, by evaluation. *)
Lemma all_below (P : Z -> bool) n : forallb P (seqZ 0 n) = true -> forall k, 0 <= k < n -> P k = true.
Proof. intros H k Hk. rewrite forallb_forall in H. apply H, list_elem_of_In, elem_of_seqZ. lia. Qed.

(** An or with a value shifted past the bits of the other operand is a sum. *)
Lemma lor_shiftl_add a b n :
  0 <= n -> 0 <= a < 2 ^ n -> Z.lor a (Z.shiftl b n) = a + b * 2 ^ n.
Proof.
  intros Hn Ha.
  assert (Hl : Z.land a (Z.shiftl b n) = 0).
  { apply Z.bits_inj'. intros i Hi. rewrite Z.land_spec, Z.bits_0, Z.shiftl_spec by lia.
    destruct (Z.lt_ge_cases i n) as [Hlt | Hge].
    - rewrite (Z.testbit_neg_r b) by lia. apply andb_false_r.
    - rewrite <- (Z.mod_small a (2 ^ n)) by lia.
      rewrite Z.mod_pow2_bits_high by lia. done. }
  rewrite <- Z.lxor_lor, <- Z.add_nocarry_lxor by done.
  rewrite Z.shiftl_mul_pow2 by lia. done.
Qed.

(** An exclusive or does not grow past the bits of its operands. *)
Lemma lxor_bound a b n : 0 <= n -> 0 <= a < 2 ^ n -> 0 <= b < 2 ^ n -> 0 <= Z.lxor a b < 2 ^ n.
Proof.
  intros Hn Ha Hb. assert (H0 : 0 <= Z.lxor a b) by (apply Z.lxor_nonneg; lia). split; [done |]. destruct (Z.eq_dec (Z.lxor a b) 0) as [-> | Hne]; [lia |].
  apply Z.log2_lt_pow2; [lia |]. eapply Z.le_lt_trans; [apply Z.log2_lxor; lia |].
  assert (Hlog : forall x, 0 <= x < 2 ^ n -> 0 < n -> Z.log2 x < n) by (intros x Hx Hn0; destruct (Z.eq_dec x 0) as [-> | ?]; [cbn; lia | apply Z.log2_lt_pow2; lia]).
  destruct (Z.eq_dec n 0) as [-> | ?]; [| apply Z.max_lub_lt; apply Hlog; lia]. change (2 ^ 0) with 1 in *. replace a with 0 in * by lia. replace b with 0 in * by lia. done.
Qed.

(** Masking with [2^n - 1] is the remainder. *)
Lemma land_mask a n : 0 <= n -> Z.land a (2 ^ n - 1) = a mod 2 ^ n.
Proof. intros. rewrite <- Z.land_ones, Z.ones_equiv by lia. f_equal. Qed.

Lemma flag_pow2 x n : 0 <= n -> flag x (2 ^ n) = Z.testbit x n.
Proof.
  intros Hn. unfold flag.
  assert (Hx : Z.land x (2 ^ n) = if Z.testbit x n then 2 ^ n else 0).
  { apply Z.bits_inj'. intros i Hi. rewrite Z.land_spec, Z.pow2_bits_eqb by lia.
    destruct (Z.eqb_spec n i) as [<- | Hne].
    - destruct (Z.testbit x n) eqn:E; [| by rewrite Z.bits_0].
      rewrite Z.pow2_bits_true by lia. done.
    - rewrite andb_false_r. destruct (Z.testbit x n); [| by rewrite Z.bits_0].
      rewrite Z.pow2_bits_false by lia. done. }
  rewrite Hx. destruct (Z.testbit x n); [| done].
  pose proof (Z.pow_pos_nonneg 2 n). destruct (Z.eqb_spec (2 ^ n) 0); [lia | done].
Qed.

(** ** Byte encodings *)

Lemma length_le_encode n x : length (le_encode n x) = n.
Proof. revert x. induction n; simpl; intros; [done | by rewrite IHn]. Qed.

Lemma le_encode_ok n x : bytes_ok (le_encode n x).
Proof.
  revert x. induction n; simpl; intros; constructor; [| apply IHn].
  apply Z.mod_pos_bound. lia.
Qed.

Lemma pow256_S (n : nat) : 256 ^ Z.of_nat (S n) = 256 * 256 ^ Z.of_nat n.
Proof. rewrite Nat2Z.inj_succ, Z.pow_succ_r by lia. done. Qed.

Lemma le_decode_bound l :
  bytes_ok l -> 0 <= le_decode l < 256 ^ Z.of_nat (length l).
Proof.
  induction 1 as [| b l Hb _ IH]; [simpl; lia |].
  change (length (b :: l)) with (S (length l)). rewrite pow256_S.
  unfold is_byte in Hb. cbn [le_decode]. nia.
Qed.

Lemma le_decode_encode n x : le_decode (le_encode n x) = x mod 256 ^ Z.of_nat n.
Proof.
  revert x. induction n as [| n IH]; intros; [by rewrite Z.mod_1_r |].
  cbn [le_encode le_decode]. rewrite IH, pow256_S.
  rewrite Z.rem_mul_r by (try apply Z.pow_nonzero; lia). done.
Qed.

Lemma le_encode_decode l : bytes_ok l -> le_encode (length l) (le_decode l) = l.
Proof.
  induction 1 as [| b l Hb _ IH]; [done |]. unfold is_byte in Hb.
  cbn [length le_encode le_decode]. f_equal.
  - rewrite Z.mul_comm, Z.mod_add by lia. apply Z.mod_small. lia.
  - rewrite Z.mul_comm, Z.div_add by lia.
    rewrite Z.div_small by lia. rewrite Z.add_0_l. done.
Qed.

Lemma le_decode_app l k :
  le_decode (l ++ k) = le_decode l + 256 ^ Z.of_nat (length l) * le_decode k.
Proof.
  induction l as [| b l IH]; [simpl; lia |].
  change (length (b :: l)) with (S (length l)). rewrite pow256_S.
  cbn [app le_decode]. rewrite IH. lia.
Qed.

Lemma be_decode_encode n x : be_decode (be_encode n x) = x mod 256 ^ Z.of_nat n.
Proof. unfold be_decode, be_encode. rewrite reverse_involutive. apply le_decode_encode. Qed.

Lemma length_be_encode n x : length (be_encode n x) = n.
Proof. unfold be_encode. rewrite length_reverse. apply length_le_encode. Qed.

Lemma le_encode_add n m x : le_encode (n + m) x = le_encode n x ++ le_encode m (x / 256 ^ Z.of_nat n).
Proof.
  revert x. induction n as [| n IH]; intros x; cbn [Nat.add le_encode app].
  - change (256 ^ Z.of_nat 0) with 1. by rewrite Z.div_1_r.
  - rewrite IH, pow256_S, Z.div_div by lia. done.
Qed.

Lemma le_encode_0 n : le_encode n 0 = replicate n 0.
Proof. induction n as [| n IH]; [done |]. cbn [le_encode replicate]. change (0 / 256) with 0. by rewrite IH. Qed.

(** A value that fits in [n] bytes has leading zeros in more of them. *)
Lemma be_encode_zeros n m x :
  0 <= x < 256 ^ Z.of_nat n -> be_encode (n + m) x = replicate m 0 ++ be_encode n x.
Proof.
  intros Hx. unfold be_encode. rewrite le_encode_add, Z.div_small by done.
  rewrite le_encode_0, reverse_app. f_equal. apply reverse_replicate.
Qed.

Lemma be_encode_ok n x : bytes_ok (be_encode n x).
Proof. unfold be_encode, bytes_ok. apply Forall_reverse, le_encode_ok. Qed.

Lemma bytes_ok_app l k : bytes_ok (l ++ k) <-> bytes_ok l /\ bytes_ok k.
Proof. apply Forall_app. Qed.

Lemma bytes_ok_cons b l : bytes_ok (b :: l) <-> is_byte b /\ bytes_ok l.
Proof. apply List.Forall_cons_iff. Qed.

Lemma bytes_ok_1 b : bytes_ok [b] <-> is_byte b.
Proof. apply Forall_singleton. Qed.

Lemma bytes_ok_take n l : bytes_ok l -> bytes_ok (take n l).
Proof. apply Forall_take. Qed.

Lemma bytes_ok_drop n l : bytes_ok l -> bytes_ok (drop n l).
Proof. apply Forall_drop. Qed.

(** ** Automation

    [ubtc] collects the closure facts on integers and byte vectors. *)

Create HintDb ubtc.

Create Rewrite HintDb ubtc_rw.

#[export] Hint Resolve le_encode_ok be_encode_ok bytes_ok_take bytes_ok_drop
  uint8_range uint32_range uint64_range Zlen_nonneg : ubtc.

#[export] Hint Rewrite @Zlen_app @Zlen_cons @Zlen_nil length_le_encode length_be_encode : ubtc_rw.
