(* ===== verification/Serialize.v ===== *)
(** * Serialization primitives

    The stream primitives of [src/serialize.h] and [src/streams.h]: fixed-width
    integers, the compact size prefix, variable-length integers and vectors.
    An output stream is the list of bytes appended to it; an input stream is the
    list of bytes not read yet, and a reader that throws
    [std::ios_base::failure] returns [None]. *)

From S2P Require Import Prelude.

(** ** Input streams *)

Definition reader (A : Type) : Type := list Z -> option (A * list Z).

Definition read_ret {A} (x : A) : reader A := fun s => Some (x, s).

Definition read_bind {A B} (m : reader A) (k : A -> reader B) : reader B :=
  fun s => match m s with Some (x, s') => k x s' | None => None end.

Definition read_fail {A} : reader A := fun _ => None.

Declare Scope reader_scope.
Delimit Scope reader_scope with reader.

Notation "'let!' x ':=' m 'in' k" := (read_bind m (fun x => k))
  (at level 10, x pattern, m at level 100, k at level 200) : reader_scope.

Open Scope reader_scope.

(** [CDataStream::read]: throws when fewer than [nSize] bytes are left. *)
Definition read (nSize : Z) : reader (list Z) := fun s =>
  if nSize =? 0 then Some ([], s)
  else if Zlen s <? nSize then None
  else Some (take (Z.to_nat nSize) s, drop (Z.to_nat nSize) s).

(** ** Fixed-width integers *)

Definition ser_writedata8 (obj : Z) : list Z := [uint8 obj].

Definition ser_writedata16 (obj : Z) : list Z := le_encode 2 (uint16 obj).

Definition ser_writedata32 (obj : Z) : list Z := le_encode 4 (uint32 obj).

Definition ser_writedata64 (obj : Z) : list Z := le_encode 8 (uint64 obj).

Definition ser_readdata8 : reader Z :=
  let! obj := read 1 in read_ret (le_decode obj).

Definition ser_readdata16 : reader Z :=
  let! obj := read 2 in read_ret (le_decode obj).

Definition ser_readdata32 : reader Z :=
  let! obj := read 4 in read_ret (le_decode obj).

Definition ser_readdata64 : reader Z :=
  let! obj := read 8 in read_ret (le_decode obj).

(** ** Compact size *)

Definition MAX_SIZE : Z := 0x02000000.

Definition GetSizeOfCompactSize (nSize : Z) : Z :=
  if nSize <? 253 then 1
  else if nSize <=? 0xffff then 1 + 2
  else if nSize <=? 0xffffffff then 1 + 4
  else 1 + 8.

Definition WriteCompactSize (nSize : Z) : list Z :=
  if nSize <? 253 then ser_writedata8 nSize
  else if nSize <=? 0xffff then ser_writedata8 253 ++ ser_writedata16 nSize
  else if nSize <=? 0xffffffff then ser_writedata8 254 ++ ser_writedata32 nSize
  else ser_writedata8 255 ++ ser_writedata64 nSize.

Definition ReadCompactSize : reader Z :=
  let! chSize := ser_readdata8 in
  let! nSizeRet :=
    if chSize <? 253 then read_ret chSize
    else if chSize =? 253 then
      let! n := ser_readdata16 in if n <? 253 then read_fail else read_ret n
    else if chSize =? 254 then
      let! n := ser_readdata32 in if n <? 0x10000 then read_fail else read_ret n
    else
      let! n := ser_readdata64 in if n <? 0x100000000 then read_fail else read_ret n
  in
  if nSizeRet >? MAX_SIZE then read_fail else read_ret nSizeRet.

(** ** Variable-length integers

    [I] is an unsigned type of [w] bits. [tmp] holds [(w + 6) / 7] bytes; the
    loop that fills it is bounded by that many iterations, and running past the
    buffer would be [None]. *)

Fixpoint WriteVarInt_fill (room : nat) (n : Z) (len : Z) : option (list Z) :=
  match room with
  | O => None
  | S room =>
    let b := Z.lor (Z.land n 0x7F) (if len =? 0 then 0x00 else 0x80) in
    if n <=? 0x7F then Some [b]
    else match WriteVarInt_fill room (Z.shiftr n 7 - 1) (len + 1) with
         | Some tmp => Some (b :: tmp)
         | None => None
         end
  end.

(** The bytes are written from the last one filled to the first. *)
Definition WriteVarInt (w : Z) (n : Z) : option (list Z) :=
  match WriteVarInt_fill (Z.to_nat ((w + 6) / 7)) n 0 with
  | Some tmp => Some (reverse tmp)
  | None => None
  end.

Fixpoint ReadVarInt_loop (w : Z) (n : Z) (s : list Z) : option (Z * list Z) :=
  match s with
  | [] => None
  | chData :: s =>
    if n >? Z.shiftr (2 ^ w - 1) 7 then None
    else
      let n := Z.lor (Z.shiftl n 7) (Z.land chData 0x7F) in
      if flag chData 0x80 then
        if n =? 2 ^ w - 1 then None else ReadVarInt_loop w (n + 1) s
      else Some (n, s)
  end.

Definition ReadVarInt (w : Z) : reader Z := ReadVarInt_loop w 0.

Fixpoint GetSizeOfVarInt_loop (fuel : nat) (n nRet : Z) : Z :=
  match fuel with
  | O => nRet
  | S fuel =>
    if n <=? 0x7F then nRet + 1
    else GetSizeOfVarInt_loop fuel (Z.shiftr n 7 - 1) (nRet + 1)
  end.

Definition GetSizeOfVarInt (w : Z) (n : Z) : Z :=
  GetSizeOfVarInt_loop (Z.to_nat ((w + 6) / 7)) n 0.

(** ** Vectors *)

(** [Serialize_impl] on a vector of [unsigned char] (a [std::vector], a
    [CScript] or a string). *)
Definition Serialize_bytes (v : list Z) : list Z := WriteCompactSize (Zlen v) ++ v.

(** The reading loop takes at most 5,000,000 bytes at a time. *)
Fixpoint Unserialize_blocks (fuel : nat) (nSize i : Z) (v : list Z) : reader (list Z) :=
  match fuel with
  | O => read_ret v
  | S fuel =>
    if i <? nSize then
      let blk := Z.min (nSize - i) (1 + 4999999 / 1) in
      let! b := read blk in
      Unserialize_blocks fuel nSize (i + blk) (v ++ b)
    else read_ret v
  end.

Definition Unserialize_bytes : reader (list Z) :=
  let! nSize := ReadCompactSize in
  Unserialize_blocks (S (Z.to_nat (nSize / 5000000))) nSize 0 [].

(** [Serialize_impl] and [Unserialize_impl] on a vector of another type. *)
Definition Serialize_vector {A} (f : A -> list Z) (v : list A) : list Z :=
  WriteCompactSize (Zlen v) ++ concat (f <$> v).

Fixpoint Unserialize_items {A} (r : reader A) (n : nat) : reader (list A) :=
  match n with
  | O => read_ret []
  | S n => let! x := r in let! l := Unserialize_items r n in read_ret (x :: l)
  end.

Definition Unserialize_vector {A} (r : reader A) : reader (list A) :=
  let! nSize := ReadCompactSize in Unserialize_items r (Z.to_nat nSize).

(** ** Readers *)

Lemma read_app (n : Z) (b s : list Z) : Zlen b = n -> read n (b ++ s) = Some (b, s).
Proof.
  intros <-. unfold read. destruct (Z.eqb_spec (Zlen b) 0) as [E | E].
  - apply Zlen_0_nil in E. by subst.
  - rewrite Zlen_app. pose proof (Zlen_nonneg s).
    destruct (Z.ltb_spec (Zlen b + Zlen s) (Zlen b)); [lia |].
    unfold Zlen. rewrite Nat2Z.id, take_app_length, drop_app_length. done.
Qed.

Lemma read_Some (n : Z) (s b r : list Z) :
  0 <= n -> read n s = Some (b, r) -> s = b ++ r /\ Zlen b = n.
Proof.
  unfold read. intros Hn. destruct (Z.eqb_spec n 0); [naive_solver |].
  destruct (Z.ltb_spec (Zlen s) n); [done |]. intros [= <- <-].
  rewrite take_drop. unfold Zlen in *. rewrite length_take. split; [done | lia].
Qed.

Lemma read_Some_ok (n : Z) (s b r : list Z) :
  0 <= n -> bytes_ok s -> read n s = Some (b, r) -> bytes_ok b /\ bytes_ok r.
Proof. intros Hn Hs [-> _]%read_Some; [| done]. by apply bytes_ok_app. Qed.

Lemma read_bind_Some {A B} (m : reader A) (k : A -> reader B) s r :
  read_bind m k s = Some r <-> exists x s', m s = Some (x, s') /\ k x s' = Some r.
Proof.
  unfold read_bind. destruct (m s) as [[x s'] |]; split.
  - eauto.
  - intros (? & ? & [= -> ->] & ?). done.
  - done.
  - by intros (? & ? & ? & ?).
Qed.

Lemma bind_step {A B} (m : reader A) (k : A -> reader B) s x s' :
  m s = Some (x, s') -> read_bind m k s = k x s'.
Proof. unfold read_bind. by intros ->. Qed.

(** A length-[k] little-endian field reads back its value. *)
Lemma read_le_app (k : nat) (x : Z) (s : list Z) :
  0 <= x < 256 ^ Z.of_nat k ->
  (let! obj := read (Z.of_nat k) in read_ret (le_decode obj)) (le_encode k x ++ s) = Some (x, s).
Proof.
  intros Hx. erewrite bind_step by (apply read_app; unfold Zlen; by rewrite length_le_encode).
  unfold read_ret. rewrite le_decode_encode, Z.mod_small by lia. done.
Qed.

Lemma read_le_Some (k : nat) (x : Z) (s r : list Z) :
  bytes_ok s ->
  (let! obj := read (Z.of_nat k) in read_ret (le_decode obj)) s = Some (x, r) ->
  s = le_encode k x ++ r /\ 0 <= x < 256 ^ Z.of_nat k /\ bytes_ok r.
Proof.
  intros Hs. rewrite read_bind_Some. intros (b & s' & Hb & [= <- <-]).
  pose proof (read_Some_ok _ _ _ _ (Nat2Z.is_nonneg k) Hs Hb) as [Hbo Hro].
  apply read_Some in Hb as [-> Hl]; [| lia]. unfold Zlen in Hl.
  assert (length b = k) as <- by lia.
  rewrite le_encode_decode by done. split; [done |]. split; [by apply le_decode_bound | done].
Qed.

Lemma ser_readdata8_app x s : 0 <= x < 256 -> ser_readdata8 (ser_writedata8 x ++ s) = Some (x, s).
Proof.
  intros. unfold ser_writedata8. rewrite uint8_id by lia.
  pose proof (read_le_app 1 x s ltac:(lia)) as H1. cbn in H1.
  rewrite Z.mod_small in H1 by lia. exact H1.
Qed.

Lemma ser_readdata16_app x s : 0 <= x < 2 ^ 16 -> ser_readdata16 (ser_writedata16 x ++ s) = Some (x, s).
Proof. intros. unfold ser_writedata16. rewrite uint16_id by lia. apply (read_le_app 2). lia. Qed.

Lemma ser_readdata32_app x s : 0 <= x < 2 ^ 32 -> ser_readdata32 (ser_writedata32 x ++ s) = Some (x, s).
Proof. intros. unfold ser_writedata32. rewrite uint32_id by lia. apply (read_le_app 4). lia. Qed.

Lemma ser_readdata64_app x s : 0 <= x < 2 ^ 64 -> ser_readdata64 (ser_writedata64 x ++ s) = Some (x, s).
Proof. intros. unfold ser_writedata64. rewrite uint64_id by lia. apply (read_le_app 8). lia. Qed.

(** ** Compact size *)

Lemma WriteCompactSize_ok n : bytes_ok (WriteCompactSize n).
Proof.
  unfold WriteCompactSize, ser_writedata8, ser_writedata16, ser_writedata32, ser_writedata64.
  repeat case_match; repeat first [apply bytes_ok_app; split | constructor];
    auto with ubtc; apply uint8_range.
Qed.

Lemma ReadCompactSize_Write n s :
  0 <= n <= MAX_SIZE -> ReadCompactSize (WriteCompactSize n ++ s) = Some (n, s).
Proof.
  unfold MAX_SIZE. intros Hn. unfold WriteCompactSize, ReadCompactSize.
  destruct (Z.ltb_spec n 253) as [H1 | H1]; [| destruct (Z.leb_spec n 0xffff) as [H2 | H2];
    [| destruct (Z.leb_spec n 0xffffffff) as [H3 | H3]; [| lia]]];
  rewrite <- ?app_assoc; erewrite bind_step by (apply ser_readdata8_app; lia);
  unfold read_bind at 1; cbn [Z.ltb Z.eqb Z.compare Pos.compare Pos.compare_cont Pos.eqb].
  - destruct (Z.ltb_spec n 253); [| lia]. cbn [read_ret].
    rewrite Z.gtb_ltb. destruct (Z.ltb_spec MAX_SIZE n); [unfold MAX_SIZE in *; lia | done].
  - erewrite bind_step by (apply ser_readdata16_app; lia).
    destruct (Z.ltb_spec n 253); [lia |]. cbn [read_ret].
    rewrite Z.gtb_ltb. destruct (Z.ltb_spec MAX_SIZE n); [unfold MAX_SIZE in *; lia | done].
  - erewrite bind_step by (apply ser_readdata32_app; lia).
    destruct (Z.ltb_spec n 0x10000); [lia |]. cbn [read_ret].
    rewrite Z.gtb_ltb. destruct (Z.ltb_spec MAX_SIZE n); [unfold MAX_SIZE in *; lia | done].
Qed.

Lemma ReadCompactSize_Some n s r :
  bytes_ok s -> ReadCompactSize s = Some (n, r) ->
  s = WriteCompactSize n ++ r /\ 0 <= n <= MAX_SIZE.
Proof.
  intros Hs. unfold ReadCompactSize. rewrite read_bind_Some. intros (ch & s1 & Hch & Hk).
  pose proof (read_le_Some 1 ch s s1 Hs Hch) as (-> & Hc & Hs1).
  change (256 ^ Z.of_nat 1) with 256 in Hc. apply read_bind_Some in Hk as (m & s2 & Hm & Hr).
  rewrite Z.gtb_ltb in Hr. destruct (Z.ltb_spec MAX_SIZE m) as [| Hmax]; [done |].
  injection Hr as -> ->.
  assert (Hch1 : le_encode 1 ch = [ch]) by (cbn; f_equal; apply Z.mod_small; lia).
  rewrite Hch1. unfold WriteCompactSize, ser_writedata8, ser_writedata16, ser_writedata32.
  unfold MAX_SIZE in Hmax.
  destruct (Z.ltb_spec ch 253) as [H0 | H0].
  { injection Hm as -> ->. destruct (Z.ltb_spec n 253); [| lia].
    rewrite uint8_id by lia. split; [done |]. unfold MAX_SIZE; lia. }
  destruct (Z.eqb_spec ch 253) as [-> | H1]; [| destruct (Z.eqb_spec ch 254) as [-> | H2]];
    apply read_bind_Some in Hm as (k & s3 & Hk & Hm).
  - pose proof (read_le_Some 2 k s1 s3 Hs1 Hk) as (-> & Hkb & _).
    change (256 ^ Z.of_nat 2) with 65536 in Hkb.
    destruct (Z.ltb_spec k 253) as [| Hge]; [done |]. injection Hm as -> ->.
    destruct (Z.ltb_spec n 253); [lia |]. destruct (Z.leb_spec n 0xffff); [| lia].
    rewrite uint16_id by lia. split; [done |]. unfold MAX_SIZE; lia.
  - pose proof (read_le_Some 4 k s1 s3 Hs1 Hk) as (-> & Hkb & _).
    change (256 ^ Z.of_nat 4) with 4294967296 in Hkb.
    destruct (Z.ltb_spec k 0x10000) as [| Hge]; [done |]. injection Hm as -> ->.
    destruct (Z.ltb_spec n 253); [lia |]. destruct (Z.leb_spec n 0xffff); [lia |].
    destruct (Z.leb_spec n 0xffffffff); [| lia].
    rewrite uint32_id by lia. split; [done |]. unfold MAX_SIZE; lia.
  - pose proof (read_le_Some 8 k s1 s3 Hs1 Hk) as (-> & Hkb & _).
    destruct (Z.ltb_spec k 0x100000000) as [| Hge]; [done |]. injection Hm as -> ->. lia.
Qed.

Lemma length_WriteCompactSize n :
  0 <= n < 2 ^ 64 -> Zlen (WriteCompactSize n) = GetSizeOfCompactSize n.
Proof.
  intros. unfold WriteCompactSize, GetSizeOfCompactSize, ser_writedata8, ser_writedata16,
    ser_writedata32, ser_writedata64.
  repeat case_match; rewrite ?Zlen_app; unfold Zlen; rewrite ?length_le_encode; done.
Qed.

(** The compact size prefix is a bijection between the sizes up to
    [MAX_SIZE] and the prefixes [ReadCompactSize] accepts: a byte string reads
    as [n] with rest [r] exactly when it is the canonical encoding of [n]
    followed by [r]. *)
Theorem CompactSize_canonical (n : Z) (s r : list Z) (Hs : bytes_ok s) :
  ReadCompactSize s = Some (n, r) <-> s = WriteCompactSize n ++ r /\ 0 <= n <= MAX_SIZE.
Proof.
  split.
  - by apply ReadCompactSize_Some.
  - intros [-> Hn]. by apply ReadCompactSize_Write.
Qed.

Lemma CompactSize_canonical_witness :
  bytes_ok [253; 0; 1; 7] /\
  (ReadCompactSize [253; 0; 1; 7] = Some (256, [7]) <->
   [253; 0; 1; 7] = WriteCompactSize 256 ++ [7] /\ 0 <= 256 <= MAX_SIZE).
Proof.
  assert (H : bytes_ok [253; 0; 1; 7]) by (repeat constructor; lia).
  split; [exact H |]. exact (CompactSize_canonical 256 [253; 0; 1; 7] [7] H).
Defined.

(** ** Variable-length integers *)

Lemma varint_digit n c : 0 <= n -> c = 0 \/ c = 1 ->
  let b := Z.lor (Z.land n 0x7F) (if c =? 0 then 0x00 else 0x80) in
  Z.land b 0x7F = n mod 128 /\ flag b 0x80 = negb (c =? 0) /\ is_byte b.
Proof.
  intros Hn Hc b.
  assert (Hm : Z.land n 0x7F = n mod 128) by (apply (land_mask n 7); lia).
  assert (Hb : b = n mod 128 + c * 128).
  { unfold b. rewrite Hm. pose proof (Z.mod_pos_bound n 128).
    destruct Hc as [-> | ->]; cbn [Z.eqb]; [rewrite Z.lor_0_r; lia |].
    rewrite <- (lor_shiftl_add _ 1 7) by lia. done. }
  pose proof (Z.mod_pos_bound n 128 ltac:(lia)). rewrite Hb. split; [| split].
  - rewrite (land_mask _ 7) by lia. change (2 ^ 7) with 128.
    rewrite Z.mod_add, Z.mod_mod by lia. done.
  - rewrite (flag_pow2 _ 7), Z.testbit_odd, Z.shiftr_div_pow2 by lia. change (2 ^ 7) with 128.
    rewrite Z.div_add, Z.div_small by lia. by destruct Hc as [-> | ->].
  - unfold is_byte. lia.
Qed.

(** The bytes of [n] after position [len], from the most significant one,
    read back as [n]; a non-zero position leaves [n + 1] to be extended. *)
Lemma ReadVarInt_fill w room n len tmp rest :
  7 <= w -> 0 <= n < 2 ^ w - (if len =? 0 then 0 else 1) -> 0 <= len ->
  WriteVarInt_fill room n len = Some tmp ->
  bytes_ok tmp /\
  ReadVarInt_loop w 0 (reverse tmp ++ rest) =
    if len =? 0 then Some (n, rest) else ReadVarInt_loop w (n + 1) rest.
Proof.
  intros Hw. revert n len tmp rest.
  induction room as [| room IH]; intros n len tmp rest Hn Hlen; [done |].
  cbn [WriteVarInt_fill].
  pose proof (varint_digit n (if len =? 0 then 0 else 1) ltac:(lia)
    ltac:(destruct (len =? 0); auto)) as Hd.
  assert (Hz : ((if len =? 0 then 0 else 1) =? 0) = (len =? 0)) by (by destruct (len =? 0)).
  rewrite Hz in Hd. set (b := Z.lor _ _) in *. cbv zeta in Hd.
  destruct Hd as (Hd1 & Hd2 & Hd3).
  assert (Hstep : forall m rest, m = n / 128 ->
    ReadVarInt_loop w m (b :: rest) =
      if len =? 0 then Some (n, rest) else ReadVarInt_loop w (n + 1) rest).
  { intros m rest' ->. cbn [ReadVarInt_loop]. rewrite Z.gtb_ltb, Z.shiftr_div_pow2 by lia.
    change (2 ^ 7) with 128.
    destruct (Z.ltb_spec ((2 ^ w - 1) / 128) (n / 128)) as [Hlt | _].
    { exfalso. assert (n / 128 <= (2 ^ w - 1) / 128); [| lia].
      apply Z.div_le_mono; [lia |]. destruct (len =? 0); lia. }
    rewrite Hd1, Hd2, Z.lor_comm, lor_shiftl_add by (try apply Z.mod_pos_bound; lia).
    change (2 ^ 7) with 128.
    replace (n mod 128 + n / 128 * 128) with n by (rewrite (Z.div_mod n 128) at 1; lia).
    destruct (len =? 0); cbn [negb]; [done |].
    destruct (Z.eqb_spec n (2 ^ w - 1)); [lia | done]. }
  destruct (Z.leb_spec n 0x7F) as [Hs | Hs].
  - intros [= <-]. split; [by apply Forall_singleton |]. rewrite reverse_singleton.
    cbn [app]. apply Hstep. rewrite Z.div_small; lia.
  - destruct (WriteVarInt_fill room (Z.shiftr n 7 - 1) (len + 1)) as [t |] eqn:Et; [| done].
    intros [= <-]. rewrite Z.shiftr_div_pow2 in Et by lia. change (2 ^ 7) with 128 in Et.
    assert (Hdiv : 1 <= n / 128 <= n) by (split; [apply Z.div_le_lower_bound | apply Z.div_le_upper_bound]; lia).
    assert (Hl1 : (len + 1 =? 0) = false) by lia.
    destruct (IH (n / 128 - 1) (len + 1) t (b :: rest)) as [Ht Hr]; [| lia | done |].
    { rewrite Hl1. destruct (len =? 0); lia. }
    split; [by apply Forall_cons |]. rewrite reverse_cons, <- app_assoc. cbn [app].
    rewrite Hr, Hl1, Z.sub_add. by apply Hstep.
Qed.

(** [tmp] is large enough: the loop leaves it before its end. *)
Lemma WriteVarInt_fill_total room n len :
  (0 < room)%nat -> 0 <= n < 128 ^ Z.of_nat room -> is_Some (WriteVarInt_fill room n len).
Proof.
  revert n len. induction room as [| room IH]; intros n len Hroom Hn; [lia |].
  cbn [WriteVarInt_fill]. destruct (Z.leb_spec n 0x7F); [by eexists |].
  rewrite Z.shiftr_div_pow2 by lia. change (2 ^ 7) with 128.
  rewrite Nat2Z.inj_succ, Z.pow_succ_r in Hn by lia.
  assert (n / 128 < 128 ^ Z.of_nat room) by (apply Z.div_lt_upper_bound; lia).
  assert (1 <= n / 128) by (apply Z.div_le_lower_bound; lia).
  destruct (IH (n / 128 - 1) (len + 1)) as [t ->]; [| lia | by eexists].
  destruct room; [| lia]. change (128 ^ Z.of_nat 0) with 1 in *. lia.
Qed.

Lemma VarInt_room w : 7 <= w -> 2 ^ w <= 128 ^ Z.of_nat (Z.to_nat ((w + 6) / 7)).
Proof.
  intros Hw. rewrite Z2Nat.id by (apply Z.div_pos; lia).
  change 128 with (2 ^ 7). rewrite <- Z.pow_mul_r by (try apply Z.div_pos; lia).
  apply Z.pow_le_mono_r; [lia |].
  pose proof (Z.div_mod (w + 6) 7). pose proof (Z.mod_pos_bound (w + 6) 7). lia.
Qed.

(** Variable-length integers: for every width of at least 7 bits and every
    value of that type, [WriteVarInt] stays inside its buffer and
    [ReadVarInt] reads back the value and nothing more. *)
Theorem VarInt_roundtrip (w n : Z) (rest : list Z) (Hw : 7 <= w) (Hn : 0 <= n < 2 ^ w) :
  exists b, WriteVarInt w n = Some b /\ bytes_ok b /\ ReadVarInt w (b ++ rest) = Some (n, rest).
Proof.
  pose proof (VarInt_room w Hw).
  assert (1 <= (w + 6) / 7) by (apply Z.div_le_lower_bound; lia).
  destruct (WriteVarInt_fill_total (Z.to_nat ((w + 6) / 7)) n 0) as [tmp Ht]; [lia | lia |].
  unfold WriteVarInt. rewrite Ht. eexists. split; [done |].
  pose proof (ReadVarInt_fill w _ n 0 tmp rest Hw ltac:(simpl; lia) ltac:(lia) Ht) as [Hok Hr].
  split; [by apply Forall_reverse |]. exact Hr.
Qed.

Lemma VarInt_roundtrip_witness :
  7 <= 64 /\ 0 <= 4294967296 < 2 ^ 64 /\
  exists b, WriteVarInt 64 4294967296 = Some b /\ bytes_ok b /\ ReadVarInt 64 (b ++ [5]) = Some (4294967296, [5]).
Proof.
  split; [lia |]. split; [lia |]. apply (VarInt_roundtrip 64 4294967296 [5]); lia.
Defined.

Example VarInt_2_32 : WriteVarInt 64 4294967296 = Some [0x8E; 0xFE; 0xFE; 0xFF; 0x00].
Proof. reflexivity. Qed.

(** ** Vectors *)

(** What [Serialize] and [Unserialize] of a type promise to the types built
    from it: on the values [wf] describes, the writer emits bytes and the reader
    takes back exactly the value written. *)
Class RoundTrip {A} (wf : A -> Prop) (enc : A -> list Z) (dec : reader A) : Prop := {
  round_trip : forall x s, wf x -> dec (enc x ++ s) = Some (x, s);
  round_trip_ok : forall x, wf x -> bytes_ok (enc x)
}.

(** Signed integers are written as their two's complement. *)
Definition Unserialize_int32 : reader Z := let! x := ser_readdata32 in read_ret (int32 x).

Definition Unserialize_int64 : reader Z := let! x := ser_readdata64 in read_ret (int64 x).

#[export] Instance uint8_RoundTrip : RoundTrip (fun x => 0 <= x < 256) ser_writedata8 ser_readdata8.
Proof.
  split; [intros; by apply ser_readdata8_app |].
  intros. apply Forall_singleton, uint8_range.
Qed.

#[export] Instance uint32_RoundTrip : RoundTrip (fun x => 0 <= x < 2 ^ 32) ser_writedata32 ser_readdata32.
Proof. split; [intros; by apply ser_readdata32_app | intros; apply le_encode_ok]. Qed.

Lemma int_wrap_id w x : 0 < w -> - 2 ^ (w - 1) <= x < 2 ^ (w - 1) ->
  (x mod 2 ^ w + 2 ^ (w - 1)) mod 2 ^ w - 2 ^ (w - 1) = x.
Proof.
  intros Hw Hx. assert (Hp : 2 ^ w = 2 * 2 ^ (w - 1)).
  { replace w with (Z.succ (w - 1)) at 1 by lia. rewrite Z.pow_succ_r by lia. done. }
  rewrite Z.add_mod_idemp_l by lia. rewrite Z.mod_small by lia. lia.
Qed.

#[export] Instance int32_RoundTrip : RoundTrip (fun x => - 2 ^ 31 <= x < 2 ^ 31) ser_writedata32 Unserialize_int32.
Proof.
  split; [| intros; apply le_encode_ok]. intros x s Hx. unfold ser_writedata32.
  pose proof (uint32_range x).
  assert (E : le_encode 4 (uint32 x) = ser_writedata32 (uint32 x))
    by (unfold ser_writedata32; by rewrite (uint32_id (uint32 x))).
  rewrite E. unfold Unserialize_int32. erewrite bind_step by by apply ser_readdata32_app.
  unfold read_ret. do 2 f_equal. apply (int_wrap_id 32); lia.
Qed.

#[export] Instance int64_RoundTrip : RoundTrip (fun x => - 2 ^ 63 <= x < 2 ^ 63) ser_writedata64 Unserialize_int64.
Proof.
  split; [| intros; apply le_encode_ok]. intros x s Hx. unfold ser_writedata64.
  pose proof (uint64_range x).
  assert (E : le_encode 8 (uint64 x) = ser_writedata64 (uint64 x))
    by (unfold ser_writedata64; by rewrite (uint64_id (uint64 x))).
  rewrite E. unfold Unserialize_int64. erewrite bind_step by by apply ser_readdata64_app.
  unfold read_ret. do 2 f_equal. apply (int_wrap_id 64); lia.
Qed.

(** The block-wise loop reads what one read of the whole size reads. *)
Lemma Unserialize_blocks_app fuel b acc s nSize i :
  0 <= i <= nSize -> Zlen b = nSize - i -> nSize - i <= Z.of_nat fuel * 5000000 ->
  Unserialize_blocks fuel nSize i acc (b ++ s) = Some (acc ++ b, s).
Proof.
  revert b acc i. induction fuel as [| fuel IH]; intros b acc i Hi Hb Hf.
  { assert (b = []) as -> by (apply Zlen_0_nil; lia). by rewrite app_nil_r. }
  cbn [Unserialize_blocks]. destruct (Z.ltb_spec i nSize) as [Hlt | Hge].
  - change (1 + 4999999 / 1) with 5000000.
    set (k := Z.to_nat (Z.min (nSize - i) 5000000)).
    assert (Hk : Zlen (take k b) = Z.min (nSize - i) 5000000).
    { unfold Zlen in *. rewrite length_take. unfold k. lia. }
    rewrite <- (take_drop k b) at 1. rewrite <- app_assoc.
    erewrite bind_step by (apply read_app; exact Hk).
    rewrite IH; [by rewrite <- app_assoc, take_drop | lia | | lia].
    unfold Zlen in *. rewrite length_drop, length_take in *. lia.
  - assert (b = []) as -> by (apply Zlen_0_nil; lia). by rewrite app_nil_r.
Qed.

(** Byte vectors, [CScript]s and strings of at most [MAX_SIZE] bytes. *)
Definition wf_bytes (v : list Z) : Prop := bytes_ok v /\ Zlen v <= MAX_SIZE.

#[export] Instance bytes_RoundTrip : RoundTrip wf_bytes Serialize_bytes Unserialize_bytes.
Proof.
  split.
  - intros v s [Hok Hl]. unfold Serialize_bytes, Unserialize_bytes. rewrite <- app_assoc.
    pose proof (Zlen_nonneg v).
    erewrite bind_step by (apply ReadCompactSize_Write; lia).
    pose proof (Z.div_mod (Zlen v) 5000000). pose proof (Z.mod_pos_bound (Zlen v) 5000000).
    assert (0 <= Zlen v / 5000000) by (apply Z.div_pos; lia).
    rewrite Unserialize_blocks_app; [done | lia | lia | lia].
  - intros v [Hok Hl]. apply bytes_ok_app. split; [apply WriteCompactSize_ok | done].
Qed.

Section Vector.
Context {A : Type} {wf : A -> Prop} {enc : A -> list Z} {dec : reader A} `{!RoundTrip wf enc dec}.

Lemma Unserialize_items_app (l : list A) (s : list Z) :
  Forall wf l -> Unserialize_items dec (length l) (concat (enc <$> l) ++ s) = Some (l, s).
Proof.
  induction 1 as [| x l Hx Hl IH]; [done |]. cbn. rewrite <- app_assoc.
  erewrite bind_step by by apply round_trip. by erewrite bind_step by exact IH.
Qed.

Lemma concat_ok (l : list A) : Forall wf l -> bytes_ok (concat (enc <$> l)).
Proof.
  induction 1 as [| x l Hx Hl IH]; cbn; [constructor |].
  apply bytes_ok_app. split; [by apply round_trip_ok | done].
Qed.

#[export] Instance vector_RoundTrip :
  RoundTrip (fun l => Forall wf l /\ Zlen l <= MAX_SIZE) (Serialize_vector enc) (Unserialize_vector dec).
Proof.
  split.
  - intros l s [Hok Hl]. unfold Serialize_vector, Unserialize_vector. rewrite <- app_assoc.
    pose proof (Zlen_nonneg l). erewrite bind_step by (apply ReadCompactSize_Write; lia).
    unfold Zlen. rewrite Nat2Z.id. by apply Unserialize_items_app.
  - intros l [Hok Hl]. apply bytes_ok_app. split; [apply WriteCompactSize_ok | by apply concat_ok].
Qed.
End Vector.
