(* ===== verification/Common.v ===== *)
(** * Integers in byte buffers

    The readers and writers of [src/crypto/common.h]. A pointer is the list of
    bytes from it on; a writer returns the bytes it stores. *)

From S2P Require Import Prelude.

Definition ReadLE16 (ptr : list Z) : Z := le_decode (take 2 ptr).

Definition ReadLE32 (ptr : list Z) : Z := le_decode (take 4 ptr).

Definition ReadLE64 (ptr : list Z) : Z := le_decode (take 8 ptr).

Definition WriteLE16 (x : Z) : list Z := le_encode 2 (uint16 x).

Definition WriteLE32 (x : Z) : list Z := le_encode 4 (uint32 x).

Definition WriteLE64 (x : Z) : list Z := le_encode 8 (uint64 x).

Definition ReadBE32 (ptr : list Z) : Z := be_decode (take 4 ptr).

Definition ReadBE64 (ptr : list Z) : Z := be_decode (take 8 ptr).

Definition WriteBE32 (x : Z) : list Z := be_encode 4 (uint32 x).

Definition WriteBE64 (x : Z) : list Z := be_encode 8 (uint64 x).

(** The portable loop of [CountBits]; a [uint64_t] has 64 bits. *)
Fixpoint CountBits_loop (fuel : nat) (x ret : Z) : Z :=
  match fuel with
  | O => ret
  | S fuel => if x =? 0 then ret else CountBits_loop fuel (Z.shiftr x 1) (ret + 1)
  end.

Definition CountBits (x : Z) : Z := CountBits_loop 64 x 0.

(** ** Round trips *)

Lemma ReadLE16_Write x s : 0 <= x < 2 ^ 16 -> ReadLE16 (WriteLE16 x ++ s) = x.
Proof.
  intros. unfold ReadLE16, WriteLE16. rewrite uint16_id by lia.
  rewrite take_app_le by (rewrite length_le_encode; lia).
  rewrite firstn_all2 by (rewrite length_le_encode; lia).
  rewrite le_decode_encode, Z.mod_small; [done | lia].
Qed.

Lemma ReadLE32_Write x s : 0 <= x < 2 ^ 32 -> ReadLE32 (WriteLE32 x ++ s) = x.
Proof.
  intros. unfold ReadLE32, WriteLE32. rewrite uint32_id by lia.
  rewrite take_app_le by (rewrite length_le_encode; lia).
  rewrite firstn_all2 by (rewrite length_le_encode; lia).
  rewrite le_decode_encode, Z.mod_small; [done | lia].
Qed.

Lemma CountBits_loop_spec fuel x ret :
  0 <= x < 2 ^ Z.of_nat fuel ->
  CountBits_loop fuel x ret = ret + (if x =? 0 then 0 else Z.log2 x + 1).
Proof.
  revert x ret. induction fuel as [| fuel IH]; intros x ret Hx.
  { change (2 ^ Z.of_nat 0) with 1 in Hx. replace x with 0 by lia. cbn. lia. }
  cbn [CountBits_loop]. destruct (Z.eqb_spec x 0) as [-> | Hne]; [cbn; lia |].
  rewrite Nat2Z.inj_succ, Z.pow_succ_r in Hx by lia.
  rewrite Z.shiftr_div_pow2 by lia. change (2 ^ 1) with 2. rewrite IH.
  - destruct (Z.eqb_spec (x / 2) 0) as [E | E].
    + assert (x = 1) as -> by (apply Z.div_small_iff in E; lia). cbn. lia.
    + assert (1 <= x / 2) by (pose proof (Z.div_pos x 2); lia).
      assert (Hl : Z.log2 x = Z.log2 (x / 2) + 1).
      { change (x / 2) with (x / 2 ^ 1). rewrite <- Z.shiftr_div_pow2, Z.log2_shiftr by lia.
        assert (1 <= Z.log2 x); [| lia]. apply Z.log2_le_pow2; [lia |].
        pose proof (Z.div_mod x 2). pose proof (Z.mod_pos_bound x 2). lia. }
      lia.
  - split; [apply Z.div_pos; lia | apply Z.div_lt_upper_bound; lia].
Qed.

(** [CountBits] is the position of the highest set bit, counted from 1. *)
Lemma CountBits_spec x : 0 <= x < 2 ^ 64 -> CountBits x = if x =? 0 then 0 else Z.log2 x + 1.
Proof. intros. unfold CountBits. rewrite CountBits_loop_spec by (change (Z.of_nat 64) with 64; lia). lia. Qed.
