(* ===== verification/Opcodes.v ===== *)
(** * Script opcodes

    The [opcodetype] enumeration of [src/script/script.h]. An opcode is the byte
    it stands for: the code casts any byte of a script to [opcodetype]. *)

From S2P Require Import Prelude.

Definition OP_0 : Z := 0x00.

Definition OP_FALSE : Z := OP_0.

Definition OP_PUSHDATA1 : Z := 0x4c.

Definition OP_PUSHDATA2 : Z := 0x4d.

Definition OP_PUSHDATA4 : Z := 0x4e.

Definition OP_1NEGATE : Z := 0x4f.

Definition OP_RESERVED : Z := 0x50.

Definition OP_1 : Z := 0x51.

Definition OP_TRUE : Z := OP_1.

Definition OP_2 : Z := 0x52.

Definition OP_3 : Z := 0x53.

Definition OP_4 : Z := 0x54.

Definition OP_5 : Z := 0x55.

Definition OP_6 : Z := 0x56.

Definition OP_7 : Z := 0x57.

Definition OP_8 : Z := 0x58.

Definition OP_9 : Z := 0x59.

Definition OP_10 : Z := 0x5a.

Definition OP_11 : Z := 0x5b.

Definition OP_12 : Z := 0x5c.

Definition OP_13 : Z := 0x5d.

Definition OP_14 : Z := 0x5e.

Definition OP_15 : Z := 0x5f.

Definition OP_16 : Z := 0x60.

Definition OP_NOP : Z := 0x61.

Definition OP_VER : Z := 0x62.

Definition OP_IF : Z := 0x63.

Definition OP_NOTIF : Z := 0x64.

Definition OP_VERIF : Z := 0x65.

Definition OP_VERNOTIF : Z := 0x66.

Definition OP_ELSE : Z := 0x67.

Definition OP_ENDIF : Z := 0x68.

Definition OP_VERIFY : Z := 0x69.

Definition OP_RETURN : Z := 0x6a.

Definition OP_TOALTSTACK : Z := 0x6b.

Definition OP_FROMALTSTACK : Z := 0x6c.

Definition OP_2DROP : Z := 0x6d.

Definition OP_2DUP : Z := 0x6e.

Definition OP_3DUP : Z := 0x6f.

Definition OP_2OVER : Z := 0x70.

Definition OP_2ROT : Z := 0x71.

Definition OP_2SWAP : Z := 0x72.

Definition OP_IFDUP : Z := 0x73.

Definition OP_DEPTH : Z := 0x74.

Definition OP_DROP : Z := 0x75.

Definition OP_DUP : Z := 0x76.

Definition OP_NIP : Z := 0x77.

Definition OP_OVER : Z := 0x78.

Definition OP_PICK : Z := 0x79.

Definition OP_ROLL : Z := 0x7a.

Definition OP_ROT : Z := 0x7b.

Definition OP_SWAP : Z := 0x7c.

Definition OP_TUCK : Z := 0x7d.

Definition OP_CAT : Z := 0x7e.

Definition OP_SUBSTR : Z := 0x7f.

Definition OP_LEFT : Z := 0x80.

Definition OP_RIGHT : Z := 0x81.

Definition OP_SIZE : Z := 0x82.

Definition OP_INVERT : Z := 0x83.

Definition OP_AND : Z := 0x84.

Definition OP_OR : Z := 0x85.

Definition OP_XOR : Z := 0x86.

Definition OP_EQUAL : Z := 0x87.

Definition OP_EQUALVERIFY : Z := 0x88.

Definition OP_RESERVED1 : Z := 0x89.

Definition OP_RESERVED2 : Z := 0x8a.

Definition OP_1ADD : Z := 0x8b.

Definition OP_1SUB : Z := 0x8c.

Definition OP_2MUL : Z := 0x8d.

Definition OP_2DIV : Z := 0x8e.

Definition OP_NEGATE : Z := 0x8f.

Definition OP_ABS : Z := 0x90.

Definition OP_NOT : Z := 0x91.

Definition OP_0NOTEQUAL : Z := 0x92.

Definition OP_ADD : Z := 0x93.

Definition OP_SUB : Z := 0x94.

Definition OP_MUL : Z := 0x95.

Definition OP_DIV : Z := 0x96.

Definition OP_MOD : Z := 0x97.

Definition OP_LSHIFT : Z := 0x98.

Definition OP_RSHIFT : Z := 0x99.

Definition OP_BOOLAND : Z := 0x9a.

Definition OP_BOOLOR : Z := 0x9b.

Definition OP_NUMEQUAL : Z := 0x9c.

Definition OP_NUMEQUALVERIFY : Z := 0x9d.

Definition OP_NUMNOTEQUAL : Z := 0x9e.

Definition OP_LESSTHAN : Z := 0x9f.

Definition OP_GREATERTHAN : Z := 0xa0.

Definition OP_LESSTHANOREQUAL : Z := 0xa1.

Definition OP_GREATERTHANOREQUAL : Z := 0xa2.

Definition OP_MIN : Z := 0xa3.

Definition OP_MAX : Z := 0xa4.

Definition OP_WITHIN : Z := 0xa5.

Definition OP_RIPEMD160 : Z := 0xa6.

Definition OP_SHA1 : Z := 0xa7.

Definition OP_SHA256 : Z := 0xa8.

Definition OP_HASH160 : Z := 0xa9.

Definition OP_HASH256 : Z := 0xaa.

Definition OP_CODESEPARATOR : Z := 0xab.

Definition OP_CHECKSIG : Z := 0xac.

Definition OP_CHECKSIGVERIFY : Z := 0xad.

Definition OP_CHECKMULTISIG : Z := 0xae.

Definition OP_CHECKMULTISIGVERIFY : Z := 0xaf.

Definition OP_NOP1 : Z := 0xb0.

Definition OP_CHECKLOCKTIMEVERIFY : Z := 0xb1.

Definition OP_NOP2 : Z := OP_CHECKLOCKTIMEVERIFY.

Definition OP_CHECKSEQUENCEVERIFY : Z := 0xb2.

Definition OP_NOP3 : Z := OP_CHECKSEQUENCEVERIFY.

Definition OP_NOP4 : Z := 0xb3.

Definition OP_NOP5 : Z := 0xb4.

Definition OP_NOP6 : Z := 0xb5.

Definition OP_NOP7 : Z := 0xb6.

Definition OP_NOP8 : Z := 0xb7.

Definition OP_NOP9 : Z := 0xb8.

Definition OP_NOP10 : Z := 0xb9.

Definition OP_CREATE_NATIVE : Z := 0xc0.

Definition OP_CREATE : Z := 0xc1.

Definition OP_UPGRADE : Z := 0xc2.

Definition OP_DESTROY : Z := 0xc3.

Definition OP_CALL : Z := 0xc4.

Definition OP_SPEND : Z := 0xc5.

Definition OP_DEPOSIT_TO_CONTRACT : Z := 0xc6.

Definition OP_GAS_PRICE : Z := 0xf5.

Definition OP_GAS_LIMIT : Z := 0xf6.

Definition OP_DATA : Z := 0xf7.

Definition OP_VERSION : Z := 0xf8.

Definition OP_ROOT_STATE_HASH : Z := 0xf9.

Definition OP_SMALLINTEGER : Z := 0xfa.

Definition OP_PUBKEYS : Z := 0xfb.

Definition OP_PUBKEYHASH : Z := 0xfd.

Definition OP_PUBKEY : Z := 0xfe.

Definition OP_INVALIDOPCODE : Z := 0xff.

Definition MAX_OPCODE : Z := OP_NOP10.
