(* ===== verification/ScriptNum.v ===== *)
(** * Script numbers

    [CScriptNum] of [src/script/script.h]: the variable-length sign-magnitude
    integers of the script language. A [CScriptNum] is its [m_value], an
    [int64_t]; the constructor that parses a byte vector throws
    [scriptnum_error]. *)

From S2P Require Import Prelude.

Open Scope outcome_scope.

(** ** Operations *)

Definition nDefaultMaxNumSize : Z := 4.

(** The loop [result |= static_cast<int64_t>(vch[i]) << 8*i]. *)
Fixpoint set_vch_loop (i : Z) (vch : list Z) (result : Z) : Z :=
  match vch with
  | [] => result
  | b :: vch => set_vch_loop (i + 1) vch (int64 (Z.lor result (Z.shiftl b (8 * i))))
  end.

Definition set_vch (vch : list Z) : Z :=
  match vch with
  | [] => 0
  | _ =>
    let result := set_vch_loop 0 vch 0 in
    if flag (back vch) 0x80 then
      int64 (- int64 (Z.land (uint64 result) (uint64 (Z.lnot (Z.shiftl 0x80 (8 * (Zlen vch - 1)))))))
    else result
  end.

(** The parsing constructor. *)
Definition CScriptNum (vch : list Z) (fRequireMinimal : bool) (nMaxNumSize : Z) : outcome Z :=
  if Zlen vch >? nMaxNumSize then Throw scriptnum_overflow
  else if fRequireMinimal && (Zlen vch >? 0) then
    if Z.land (back vch) 0x7f =? 0 then
      if (Zlen vch <=? 1) || (Z.land (byte_at vch (Zlen vch - 2)) 0x80 =? 0)
      then Throw scriptnum_nonminimal
      else Ret (set_vch vch)
    else Ret (set_vch vch)
  else Ret (set_vch vch).

(** The loop that pushes the bytes of [absvalue]; a [uint64_t] has 8. *)
Fixpoint serialize_loop (fuel : nat) (absvalue : Z) : list Z :=
  match fuel with
  | O => []
  | S fuel =>
    if absvalue =? 0 then []
    else Z.land absvalue 0xff :: serialize_loop fuel (Z.shiftr absvalue 8)
  end.

Definition serialize (value : Z) : list Z :=
  if value =? 0 then []
  else
    let neg := value <? 0 in
    let absvalue := uint64 (if neg then int64 (- value) else value) in
    let result := serialize_loop 8 absvalue in
    if flag (back result) 0x80 then result ++ [if neg then 0x80 else 0]
    else if neg then take (length result - 1) result ++ [Z.lor (back result) 0x80]
    else result.

Definition getvch (m_value : Z) : list Z := serialize m_value.

Definition getint (m_value : Z) : Z :=
  if m_value >? INT_MAX then INT_MAX
  else if m_value <? INT_MIN then INT_MIN
  else m_value.

Fixpoint vch_to_uint64_loop (i : Z) (vch : list Z) (result : Z) : Z :=
  match vch with
  | [] => result
  | b :: vch => vch_to_uint64_loop (i + 1) vch (uint64 (Z.lor result (Z.shiftl b (8 * i))))
  end.

Definition vch_to_uint64 (vch : list Z) : outcome Z :=
  if Zlen vch >? 8 then Throw scriptnum_overflow
  else match vch with
       | [] => Ret 0
       | _ =>
         let result := vch_to_uint64_loop 0 vch 0 in
         if flag (back vch) 0x80 then Throw scriptnum_negative else Ret result
       end.

(** [operator+], [operator-] (binary) and [operator&]. *)
Definition sn_add (a b : Z) : Z := int64 (a + b).

Definition sn_sub (a b : Z) : Z := int64 (a - b).

Definition sn_and (a b : Z) : Z := Z.land a b.

(** Unary minus and the compound assignments, with their assertions. *)
Definition sn_neg (a : Z) : outcome Z :=
  let? _ := cassert (negb (a =? INT64_MIN)) in Ret (int64 (- a)).

Definition sn_add_assign (a rhs : Z) : outcome Z :=
  let? _ := cassert ((rhs =? 0) || ((rhs >? 0) && (a <=? INT64_MAX - rhs)) ||
                     ((rhs <? 0) && (a >=? INT64_MIN - rhs))) in
  Ret (int64 (a + rhs)).

Definition sn_sub_assign (a rhs : Z) : outcome Z :=
  let? _ := cassert ((rhs =? 0) || ((rhs >? 0) && (a >=? INT64_MIN + rhs)) ||
                     ((rhs <? 0) && (a <=? INT64_MAX + rhs))) in
  Ret (int64 (a - rhs)).

(** ** Decoding

    The value of a byte vector: the top bit is the sign of the magnitude in the
    remaining bits. *)

Definition sn_value (vch : list Z) : Z :=
  let m := le_decode vch in
  let s := 2 ^ (8 * Zlen vch - 1) in
  if (Zlen vch =? 0) || (m <? s) then m else s - m.

Lemma back_snoc l b : back (l ++ [b]) = b.
Proof.
  unfold back, byte_at. rewrite Zlen_app. unfold Zlen. cbn [length].
  replace (Z.to_nat (Z.of_nat (length l) + Z.of_nat 1 - 1)) with (length l) by lia.
  by rewrite list_lookup_middle.
Qed.

Lemma second_snoc l a b : byte_at ((l ++ [a]) ++ [b]) (Zlen ((l ++ [a]) ++ [b]) - 2) = a.
Proof.
  rewrite !Zlen_app. unfold byte_at, Zlen. cbn [length].
  replace (Z.to_nat _) with (length l) by lia. rewrite <- app_assoc. cbn [app].
  by rewrite list_lookup_middle.
Qed.

Lemma pow2_8 (n : nat) : 256 ^ Z.of_nat n = 2 ^ (8 * Z.of_nat n).
Proof. rewrite Z.pow_mul_r by lia. done. Qed.

Lemma le_decode_snoc l b : le_decode (l ++ [b]) = le_decode l + 2 ^ (8 * Zlen l) * b.
Proof. rewrite le_decode_app, pow2_8. cbn. unfold Zlen. lia. Qed.

Lemma le_decode_pow2 l : bytes_ok l -> 0 <= le_decode l < 2 ^ (8 * Zlen l).
Proof. intros H%le_decode_bound. by rewrite pow2_8 in H. Qed.

(** Accumulating a byte above the bits already read is an addition, for any
    conversion that keeps the values below [2^56]. *)
Lemma loop_accum (f : Z -> list Z -> Z -> Z) (cast : Z -> Z) :
  (forall i result, f i [] result = result) ->
  (forall i b vch result, f i (b :: vch) result =
     f (i + 1) vch (cast (Z.lor result (Z.shiftl b (8 * i))))) ->
  (forall m, 0 <= m < 2 ^ 56 -> cast m = m) ->
  forall vch pre,
  bytes_ok (pre ++ vch) -> Zlen pre + Zlen vch <= 8 ->
  f (Zlen pre) vch (cast (le_decode pre)) = cast (le_decode (pre ++ vch)).
Proof.
  intros Hnil Hcons Hcast vch. induction vch as [| b vch IH]; intros pre Hok Hlen.
  { by rewrite app_nil_r, Hnil. }
  rewrite Hcons. rewrite Zlen_cons in Hlen. pose proof (Zlen_nonneg vch).
  pose proof (proj1 (bytes_ok_app _ _) Hok) as [Hpre _].
  pose proof (le_decode_pow2 _ Hpre) as Hbd. pose proof (Zlen_nonneg pre).
  assert (2 ^ (8 * Zlen pre) <= 2 ^ 56) by (apply Z.pow_le_mono_r; lia).
  rewrite (Hcast (le_decode pre)), lor_shiftl_add by lia.
  specialize (IH (pre ++ [b])). rewrite <- app_assoc, le_decode_snoc, Zlen_app in IH.
  rewrite Zlen_cons, Zlen_nil, Z.add_0_r in IH. rewrite Z.mul_comm. apply IH; [done | lia].
Qed.

Lemma set_vch_loop_spec vch :
  bytes_ok vch -> Zlen vch <= 8 -> set_vch_loop 0 vch 0 = int64 (le_decode vch).
Proof.
  intros. apply (loop_accum set_vch_loop int64) with (pre := []); try done.
  intros. apply int64_id. lia.
Qed.

Lemma vch_to_uint64_loop_spec vch :
  bytes_ok vch -> Zlen vch <= 8 -> vch_to_uint64_loop 0 vch 0 = uint64 (le_decode vch).
Proof.
  intros. apply (loop_accum vch_to_uint64_loop uint64) with (pre := []); try done.
  intros. apply uint64_id. lia.
Qed.

(** The top bit of the last byte is the top bit of the value. *)
Lemma back_split vch :
  bytes_ok vch -> vch <> [] -> exists l b, vch = l ++ [b] /\ bytes_ok l /\ is_byte b /\ back vch = b.
Proof.
  intros Hok Hne. destruct vch as [| b l _] using rev_ind; [done |].
  apply bytes_ok_app in Hok as [Hl Hb]. apply bytes_ok_1 in Hb. exists l, b.
  split; [done |]. split; [done |]. split; [done | apply back_snoc].
Qed.

Lemma flag_0x80 b : is_byte b -> flag b 0x80 = (128 <=? b).
Proof.
  intros Hb. unfold is_byte in Hb. change 0x80 with (2 ^ 7) at 1. rewrite flag_pow2 by lia.
  rewrite Z.testbit_odd, Z.shiftr_div_pow2 by lia. change (2 ^ 7) with 128.
  destruct (Z.leb_spec 128 b).
  - replace (b / 128) with 1; [done |]. apply Z.div_unique with (b - 128); lia.
  - by rewrite Z.div_small by lia.
Qed.

Lemma land_0x7f b : Z.land b 0x7f = b mod 128.
Proof. apply (land_mask b 7). lia. Qed.

Lemma land_0xff b : Z.land b 0xff = b mod 256.
Proof. apply (land_mask b 8). lia. Qed.

Lemma pow2_top (k : Z) : 0 <= k -> 2 ^ (8 * (k + 1) - 1) = 128 * 2 ^ (8 * k).
Proof. intros. replace (8 * (k + 1) - 1) with (7 + 8 * k) by lia. by rewrite Z.pow_add_r by lia. Qed.

(** Clearing a set bit is a subtraction. *)
Lemma clear_bit m n w :
  0 <= n < w -> 2 ^ n <= m < 2 * 2 ^ n ->
  Z.land m ((Z.lnot (2 ^ n)) mod 2 ^ w) = m - 2 ^ n.
Proof.
  intros Hn Hm. apply Z.bits_inj'. intros i Hi.
  assert (Hd : m = (m - 2 ^ n) + 1 * 2 ^ n) by lia.
  rewrite <- (lor_shiftl_add _ 1 n) in Hd by lia.
  assert (Hlow : forall j, n <= j -> Z.testbit (m - 2 ^ n) j = false).
  { intros j Hj. rewrite <- (Z.mod_small (m - 2 ^ n) (2 ^ n)) by lia.
    by rewrite Z.mod_pow2_bits_high by lia. }
  rewrite Z.land_spec, Z.testbit_mod_pow2 by lia. rewrite Z.lnot_spec, Z.pow2_bits_eqb by lia.
  rewrite Hd at 1. rewrite Z.lor_spec, Z.shiftl_spec by lia.
  destruct (Z.eqb_spec n i) as [<- | Hne].
  - rewrite Hlow by lia. rewrite andb_false_r, andb_false_r. done.
  - destruct (Z.ltb_spec i w); cbn [andb negb].
    + rewrite andb_true_r. replace (Z.testbit 1 (i - n)) with false; [by rewrite orb_false_r |].
      destruct (Z.lt_ge_cases i n); [by rewrite Z.testbit_neg_r by lia |].
      symmetry. apply (Z.pow2_bits_false 0). lia.
    + rewrite andb_false_r, Hlow by lia. done.
Qed.

Lemma set_vch_spec vch : bytes_ok vch -> Zlen vch <= 8 -> set_vch vch = sn_value vch.
Proof.
  intros Hok Hl. unfold set_vch, sn_value. destruct vch as [| b0 r0] eqn:Ev; [done |].
  rewrite <- Ev in *. destruct (back_split vch Hok) as (l & b & Hv & Hokl & Hb & Hback);
    [by rewrite Ev |]. rewrite Hback, flag_0x80, set_vch_loop_spec by done. clear Ev b0 r0 Hback.
  pose proof (le_decode_pow2 _ Hokl) as Hm. pose proof (Zlen_nonneg l).
  assert (Hlen : Zlen vch = Zlen l + 1) by (subst; rewrite Zlen_snoc; lia).
  assert (Hd : le_decode vch = le_decode l + 2 ^ (8 * Zlen l) * b) by (subst; apply le_decode_snoc).
  assert (Hp : 2 ^ (8 * Zlen l) <= 2 ^ 56) by (apply Z.pow_le_mono_r; lia).
  rewrite Hlen, pow2_top, Hd by lia. unfold is_byte in Hb.
  destruct (Z.eqb_spec (Zlen l + 1) 0); [lia |]. cbn [orb].
  set (q := 2 ^ (8 * Zlen l)) in *. set (m := le_decode l) in *.
  destruct (Z.leb_spec 128 b), (Z.ltb_spec (m + q * b) (128 * q)); try nia.
  - replace (8 * (Zlen l + 1 - 1)) with (8 * Zlen l) by lia.
    rewrite Z.shiftl_mul_pow2 by lia. fold q.
    assert (Hu : uint64 (int64 (m + q * b)) = m + q * b).
    { unfold uint64, int64. rewrite Zminus_mod_idemp_l.
      rewrite Z.add_simpl_r. apply Z.mod_small. nia. }
    rewrite Hu. unfold uint64.
    assert (E : 128 * q = 2 ^ (8 * (Zlen l + 1) - 1)) by (rewrite pow2_top by lia; done).
    rewrite E, clear_bit; [| lia | rewrite <- E; nia]. rewrite <- E.
    rewrite (int64_id (_ - _)), int64_id by nia. lia.
  - rewrite int64_id by nia. done.
Qed.

(** ** Encoding *)

Lemma le_encode_snoc k a :
  le_encode (S k) a = le_encode k a ++ [(a / 2 ^ (8 * Z.of_nat k)) mod 256].
Proof.
  revert a. induction k as [| k IH]; intros a.
  { cbn. by rewrite Z.div_1_r. }
  change (le_encode (S (S k)) a) with (a mod 256 :: le_encode (S k) (a / 256)).
  rewrite IH. cbn [le_encode app]. do 3 f_equal. f_equal.
  rewrite Z.div_div by (try apply Z.pow_pos_nonneg; lia). f_equal.
  replace (8 * Z.of_nat (S k)) with (8 + 8 * Z.of_nat k) by lia. by rewrite Z.pow_add_r by lia.
Qed.

Lemma le_encode_carry k a c :
  le_encode k (a + c * 2 ^ (8 * Z.of_nat k)) = le_encode k a.
Proof.
  revert a c. induction k as [| k IH]; intros a c; [done |]. cbn [le_encode].
  replace (2 ^ (8 * Z.of_nat (S k))) with (256 * 2 ^ (8 * Z.of_nat k))
    by (replace (8 * Z.of_nat (S k)) with (8 + 8 * Z.of_nat k) by lia; by rewrite Z.pow_add_r by lia).
  replace (a + c * (256 * 2 ^ (8 * Z.of_nat k))) with (a + (c * 2 ^ (8 * Z.of_nat k)) * 256) by lia.
  rewrite Z.mod_add, Z.div_add, IH by lia. done.
Qed.

(** The number of bytes of a positive magnitude, less one. *)
Definition mag_size (k : nat) (a : Z) : Prop :=
  2 ^ (8 * Z.of_nat k) <= a < 256 * 2 ^ (8 * Z.of_nat k).

Lemma mag_size_ex (n : nat) a : 0 < a < 2 ^ (8 * Z.of_nat n) -> exists k, (k < n)%nat /\ mag_size k a.
Proof.
  induction n as [| n IH]; intros Ha; [change (2 ^ (8 * Z.of_nat 0)) with 1 in Ha; lia |].
  replace (8 * Z.of_nat (S n)) with (8 + 8 * Z.of_nat n) in Ha by lia.
  rewrite Z.pow_add_r in Ha by lia. change (2 ^ 8) with 256 in Ha.
  destruct (Z.lt_ge_cases a (2 ^ (8 * Z.of_nat n))) as [Hlt | Hge].
  - destruct IH as (k & Hk & Hm); [lia |]. exists k. split; [lia | done].
  - exists n. split; [lia |]. split; lia.
Qed.

Lemma serialize_loop_spec fuel k a :
  mag_size k a -> (k < fuel)%nat -> serialize_loop fuel a = le_encode (S k) a.
Proof.
  unfold mag_size. revert fuel a. induction k as [| k IH]; intros [| fuel] a Ha Hf; try lia;
    cbn [serialize_loop].
  - change (2 ^ (8 * Z.of_nat 0)) with 1 in Ha. destruct (Z.eqb_spec a 0); [lia |].
    rewrite land_0xff, Z.shiftr_div_pow2 by lia. cbn [le_encode]. f_equal.
    change (2 ^ 8) with 256. rewrite Z.div_small by lia. by destruct fuel.
  - replace (8 * Z.of_nat (S k)) with (8 + 8 * Z.of_nat k) in Ha by lia.
    rewrite Z.pow_add_r in Ha by lia. change (2 ^ 8) with 256 in Ha.
    destruct (Z.eqb_spec a 0); [lia |].
    rewrite land_0xff, Z.shiftr_div_pow2 by lia. cbn [le_encode]. f_equal.
    change (2 ^ 8) with 256. apply IH; [| lia].
    split; [apply Z.div_le_lower_bound | apply Z.div_lt_upper_bound]; lia.
Qed.

(** The bytes of a non-zero number: its magnitude, with the sign in the top bit
    when that bit is free and in one more byte otherwise. *)
Lemma serialize_spec (v : Z) (k : nat) :
  v <> 0 -> - 2 ^ 63 < v < 2 ^ 63 -> mag_size k (Z.abs v) ->
  let q := 2 ^ (8 * Z.of_nat k) in
  serialize v =
    if 128 * q <=? Z.abs v then le_encode (S k) (Z.abs v) ++ [if v <? 0 then 0x80 else 0]
    else le_encode (S k) (if v <? 0 then Z.abs v + 128 * q else Z.abs v).
Proof.
  intros Hv Hr Hk q. unfold serialize. destruct (Z.eqb_spec v 0); [done |].
  assert (Habs : uint64 (if v <? 0 then int64 (- v) else v) = Z.abs v).
  { destruct (Z.ltb_spec v 0); [rewrite int64_id by lia |]; rewrite uint64_id by lia; lia. }
  rewrite Habs.
  assert (Hk8 : (k < 8)%nat).
  { unfold mag_size in Hk. destruct (decide (k < 8)%nat) as [| Hge]; [done |].
    assert (2 ^ 64 <= 2 ^ (8 * Z.of_nat k)) by (apply Z.pow_le_mono_r; lia). lia. }
  rewrite (serialize_loop_spec 8 k) by done. unfold mag_size in Hk. fold q in Hk.
  rewrite le_encode_snoc, back_snoc. fold q. set (a := Z.abs v) in *.
  assert (Hq : 0 < q) by (apply Z.pow_pos_nonneg; lia).
  assert (Ha : 1 <= a / q < 256)
    by (split; [apply Z.div_le_lower_bound | apply Z.div_lt_upper_bound]; lia).
  rewrite (Z.mod_small (a / q)) by lia. rewrite flag_0x80 by (unfold is_byte; lia).
  pose proof (Z.div_mod a q). pose proof (Z.mod_pos_bound a q).
  destruct (Z.leb_spec 128 (a / q)), (Z.leb_spec (128 * q) a); try nia.
  - done.
  - destruct (v <? 0); [| rewrite le_encode_snoc; fold q; by rewrite Z.mod_small by lia].
    rewrite length_app, length_le_encode. cbn [length]. rewrite Nat.add_sub.
    rewrite <- (length_le_encode k a) at 1. rewrite take_app_length, le_encode_snoc. fold q.
    unfold q at 1. rewrite le_encode_carry. f_equal. f_equal. rewrite Z.div_add by lia.
    rewrite Z.mod_small by lia. fold q. rewrite (lor_shiftl_add _ 1 7) by lia. lia.
Qed.

(** ** Minimal encodings *)

(** The test of the constructor, as one condition. *)
Definition is_minimal (vch : list Z) : bool :=
  negb ((Zlen vch >? 0) && (Z.land (back vch) 0x7f =? 0) &&
        ((Zlen vch <=? 1) || (Z.land (byte_at vch (Zlen vch - 2)) 0x80 =? 0))).

Lemma CScriptNum_spec vch fmin j :
  bytes_ok vch -> j <= 8 ->
  CScriptNum vch fmin j =
    if Zlen vch >? j then Throw scriptnum_overflow
    else if fmin && negb (is_minimal vch) then Throw scriptnum_nonminimal
    else Ret (sn_value vch).
Proof.
  intros Hok Hj. unfold CScriptNum, is_minimal. rewrite Z.gtb_ltb.
  destruct (Z.ltb_spec j (Zlen vch)); [done |]. rewrite set_vch_spec by (done || lia).
  rewrite negb_involutive. destruct fmin; [| done].
  destruct (Zlen vch >? 0), (Z.land (back vch) 0x7f =? 0); cbn [andb]; try done.
Qed.

(** Sign and magnitude of a vector with last byte [b]. *)
Lemma sn_value_snoc l b :
  bytes_ok l -> is_byte b ->
  let a := le_decode l + 2 ^ (8 * Zlen l) * (b mod 128) in
  sn_value (l ++ [b]) = (if 128 <=? b then - a else a).
Proof.
  intros Hl Hb a. unfold sn_value. rewrite Zlen_snoc.
  pose proof (Zlen_nonneg l). pose proof (le_decode_pow2 _ Hl). unfold is_byte in Hb.
  rewrite pow2_top, le_decode_snoc by lia. destruct (Z.eqb_spec (Zlen l + 1) 0); [lia |].
  cbn [orb]. unfold a. set (q := 2 ^ (8 * Zlen l)) in *.
  destruct (Z.leb_spec 128 b).
  - replace (b mod 128) with (b - 128) by (apply Z.mod_unique with 1; lia).
    destruct (Z.ltb_spec (le_decode l + q * b) (128 * q)); [nia | lia].
  - rewrite Z.mod_small by lia. destruct (Z.ltb_spec (le_decode l + q * b) (128 * q)); [lia | nia].
Qed.

Lemma sn_value_bound vch : bytes_ok vch -> 0 < Zlen vch ->
  - 2 ^ (8 * Zlen vch - 1) < sn_value vch < 2 ^ (8 * Zlen vch - 1).
Proof.
  intros Hok Hl. pose proof (le_decode_pow2 _ Hok) as Hd. unfold sn_value.
  replace (8 * Zlen vch) with (Z.succ (8 * Zlen vch - 1)) in Hd by lia.
  rewrite Z.pow_succ_r in Hd by lia. destruct (Z.eqb_spec (Zlen vch) 0); [lia |]. cbn [orb].
  destruct (Z.ltb_spec (le_decode vch) (2 ^ (8 * Zlen vch - 1))); lia.
Qed.

Lemma mag_size_div k a : mag_size k a -> 1 <= a / 2 ^ (8 * Z.of_nat k) < 256.
Proof.
  intros Hk. unfold mag_size in Hk.
  assert (0 < 2 ^ (8 * Z.of_nat k)) by (apply Z.pow_pos_nonneg; lia).
  split; [apply Z.div_le_lower_bound | apply Z.div_lt_upper_bound]; lia.
Qed.

(** The two shapes of the encoding of a non-zero number, by its last byte. *)
Lemma serialize_shape v :
  v <> 0 -> - 2 ^ 63 < v < 2 ^ 63 ->
  exists (k : nat) (l : list Z) (b : Z),
    serialize v = l ++ [b] /\ bytes_ok l /\ is_byte b /\ (128 <=? b) = (v <? 0) /\
    le_decode l + 2 ^ (8 * Zlen l) * (b mod 128) = Z.abs v /\
    (Zlen l = Z.of_nat k /\ 1 <= b mod 128 /\ mag_size k (Z.abs v) \/
     Zlen l = Z.of_nat (S k) /\ b mod 128 = 0 /\ mag_size k (Z.abs v) /\
       128 * 2 ^ (8 * Z.of_nat k) <= Z.abs v /\
       l = le_encode k (Z.abs v) ++ [Z.abs v / 2 ^ (8 * Z.of_nat k)]).
Proof.
  intros Hv Hr. destruct (mag_size_ex 8 (Z.abs v)) as (k & Hk8 & Hk); [lia |].
  pose proof (mag_size_div _ _ Hk) as Hdiv.
  rewrite (serialize_spec v k) by done. set (q := 2 ^ (8 * Z.of_nat k)) in *.
  assert (Hq : 0 < q) by (apply Z.pow_pos_nonneg; lia).
  pose proof (Z.div_mod (Z.abs v) q). pose proof (Z.mod_pos_bound (Z.abs v) q).
  exists k. unfold is_byte. destruct (Z.leb_spec (128 * q) (Z.abs v)) as [Hbig | Hsmall].
  - exists (le_encode (S k) (Z.abs v)), (if v <? 0 then 0x80 else 0).
    rewrite le_decode_encode, pow2_8. unfold mag_size in Hk. fold q in Hk.
    replace (2 ^ (8 * Z.of_nat (S k))) with (256 * q) by
      (unfold q; replace (8 * Z.of_nat (S k)) with (8 + 8 * Z.of_nat k) by lia; by rewrite Z.pow_add_r by lia).
    rewrite (Z.mod_small (Z.abs v)) by lia.
    split; [done |]. split; [apply le_encode_ok |].
    split; [destruct (v <? 0); lia |]. split; [by destruct (v <? 0) |].
    split; [destruct (v <? 0); [change (0x80 mod 128) with 0 | change (0 mod 128) with 0]; lia |]. right. unfold Zlen. rewrite length_le_encode.
    split; [done |]. split; [by destruct (v <? 0) |]. split; [done |]. split; [done |].
    rewrite le_encode_snoc. fold q. by rewrite Z.mod_small by lia.
  - assert (Hd128 : Z.abs v / q < 128) by (apply Z.div_lt_upper_bound; lia).
    exists (le_encode k (Z.abs v)), (Z.abs v / q + if v <? 0 then 128 else 0).
    rewrite le_decode_encode, pow2_8. unfold Zlen. rewrite length_le_encode. fold q.
    assert (Hb : (Z.abs v / q + if v <? 0 then 128 else 0) mod 128 = Z.abs v / q).
    { destruct (v <? 0); [| by rewrite Z.add_0_r, Z.mod_small by lia].
      rewrite <- (Z.mul_1_l 128) at 1. rewrite Z.mod_add, Z.mod_small by lia. done. }
    rewrite Hb. split.
    { rewrite le_encode_snoc. fold q. destruct (v <? 0); [| by rewrite Z.add_0_r, Z.mod_small by lia].
      unfold q at 1. rewrite le_encode_carry. do 2 f_equal. rewrite Z.div_add by lia.
      apply Z.mod_small. lia. }
    split; [apply le_encode_ok |]. split; [destruct (v <? 0); lia |].
    split; [destruct (v <? 0); destruct (Z.leb_spec 128 (Z.abs v / q + 128)), (Z.leb_spec 128 (Z.abs v / q + 0)); try done; lia |].
    split; [lia |]. left. split; [done |]. split; [lia | done].
Qed.

Lemma serialize_ok v : - 2 ^ 63 < v < 2 ^ 63 -> bytes_ok (serialize v).
Proof.
  intros Hr. destruct (decide (v = 0)) as [-> | Hv]; [constructor |].
  destruct (serialize_shape v Hv Hr) as (k & l & b & -> & Hl & Hb & _).
  apply bytes_ok_app. split; [done | by apply bytes_ok_1].
Qed.

Lemma sn_value_serialize v : - 2 ^ 63 < v < 2 ^ 63 -> sn_value (serialize v) = v.
Proof.
  intros Hr. destruct (decide (v = 0)) as [-> | Hv]; [done |].
  destruct (serialize_shape v Hv Hr) as (k & l & b & -> & Hl & Hb & Hs & Ha & _).
  rewrite sn_value_snoc by done. rewrite Ha, Hs. destruct (Z.ltb_spec v 0); lia.
Qed.

Lemma serialize_minimal v : - 2 ^ 63 < v < 2 ^ 63 -> is_minimal (serialize v) = true.
Proof.
  intros Hr. destruct (decide (v = 0)) as [-> | Hv]; [done |].
  destruct (serialize_shape v Hv Hr) as (k & l & b & -> & Hl & Hb & Hs & Ha & Hc).
  unfold is_minimal. rewrite back_snoc, land_0x7f.
  destruct Hc as [(_ & Hb1 & _) | (Hll & -> & Hm & Hbig & ->)].
  - destruct (Z.eqb_spec (b mod 128) 0); [lia |]. by rewrite andb_false_r.
  - rewrite second_snoc. pose proof (mag_size_div _ _ Hm) as Hd.
    pose proof (flag_0x80 (Z.abs v / 2 ^ (8 * Z.of_nat k)) ltac:(unfold is_byte; lia)) as Hf.
    unfold flag in Hf. apply negb_true_iff. rewrite !Zlen_app, !Zlen_cons, !Zlen_nil.
    pose proof (Zlen_nonneg (le_encode k (Z.abs v))).
    destruct (Z.leb_spec (Zlen (le_encode k (Z.abs v)) + (1 + 0) + (1 + 0)) 1); [lia |].
    assert (Hge : 128 <= Z.abs v / 2 ^ (8 * Z.of_nat k))
      by (apply Z.div_le_lower_bound; [apply Z.pow_pos_nonneg |]; lia).
    apply Z.leb_le in Hge. rewrite Hge in Hf. apply negb_true_iff in Hf. rewrite Hf.
    by rewrite orb_false_r, andb_false_r.
Qed.

Lemma serialize_size v j :
  - 2 ^ 63 < v < 2 ^ 63 -> 1 <= j -> Zlen (serialize v) <= j <-> - 2 ^ (8 * j - 1) < v < 2 ^ (8 * j - 1).
Proof.
  intros Hr Hj. destruct (decide (v = 0)) as [-> | Hv].
  { cbn. rewrite Zlen_nil. pose proof (Z.pow_pos_nonneg 2 (8 * j - 1)). lia. }
  split.
  - intros Hl. pose proof (serialize_ok v Hr) as Hok. pose proof (sn_value_serialize v Hr) as Hv'.
    assert (0 < Zlen (serialize v)).
    { destruct (serialize_shape v Hv Hr) as (k & l & b & -> & _).
      rewrite Zlen_snoc. pose proof (Zlen_nonneg l). lia. }
    pose proof (sn_value_bound _ Hok ltac:(done)) as Hb. rewrite Hv' in Hb.
    assert (2 ^ (8 * Zlen (serialize v) - 1) <= 2 ^ (8 * j - 1)) by (apply Z.pow_le_mono_r; lia). lia.
  - intros Hb. destruct (serialize_shape v Hv Hr) as (k & l & b & -> & _ & _ & _ & _ & Hc).
    rewrite Zlen_snoc. unfold mag_size in Hc.
    destruct (Z.le_gt_cases (Zlen l + 1) j) as [| Hgt]; [done | exfalso].
    destruct Hc as [(Hl & _ & Hm & _) | (Hl & _ & _ & Hm & _)].
    + assert (2 ^ (8 * j - 1) <= 2 ^ (8 * Z.of_nat k)) by (apply Z.pow_le_mono_r; lia). lia.
    + rewrite <- pow2_top in Hm by lia.
      assert (2 ^ (8 * j - 1) <= 2 ^ (8 * (Z.of_nat k + 1) - 1)) by (apply Z.pow_le_mono_r; lia). lia.
Qed.

Lemma pow2_len_le (vch l : list Z) (b : Z) : vch = l ++ [b] -> Zlen vch <= 8 -> 2 ^ (8 * Zlen l) <= 2 ^ 56.
Proof.
  intros ->. rewrite Zlen_snoc. intros. apply Z.pow_le_mono_r; lia.
Qed.

(** A minimal vector is the encoding of its value. *)
Lemma serialize_sn_value vch :
  bytes_ok vch -> Zlen vch <= 8 -> is_minimal vch = true -> serialize (sn_value vch) = vch.
Proof.
  intros Hok Hlen Hmin. destruct (decide (vch = [])) as [-> | Hne]; [done |].
  destruct (back_split vch Hok Hne) as (l & b & Hv & Hl & Hb & Hback).
  pose proof (pow2_len_le _ _ _ Hv Hlen) as Hq56. pose proof (Zlen_nonneg l).
  assert (Hvlen : Zlen vch = Zlen l + 1) by (subst vch; rewrite Zlen_snoc; lia).
  unfold is_minimal in Hmin. rewrite Hback, land_0x7f, Hvlen in Hmin. apply negb_true_iff in Hmin.
  destruct (Z.gtb_spec (Zlen l + 1) 0) as [_ |]; [| lia]. cbn [andb] in Hmin.
  pose proof (le_decode_pow2 _ Hl) as Hm. unfold is_byte in Hb.
  pose proof (Z.mod_pos_bound b 128 ltac:(lia)) as Hmod.
  assert (Hbdiv : b = b mod 128 + if 128 <=? b then 128 else 0).
  { destruct (Z.leb_spec 128 b); [| rewrite Z.mod_small; lia].
    replace (b mod 128) with (b - 128) by (apply Z.mod_unique with 1; lia). lia. }
  set (a := le_decode l + 2 ^ (8 * Zlen l) * (b mod 128)).
  assert (Hval : sn_value vch = if 128 <=? b then - a else a) by (subst vch; by apply sn_value_snoc).
  assert (Hpos : 0 < a -> Z.abs (sn_value vch) = a /\ (sn_value vch <? 0) = (128 <=? b)).
  { rewrite Hval. intros. destruct (128 <=? b); split; lia. }
  destruct (Z.eqb_spec (b mod 128) 0) as [E | E]; cbn [andb] in Hmin.
  - apply orb_false_iff in Hmin as [Hl1 Hsec]. apply Z.leb_gt in Hl1.
    destruct (back_split l Hl) as (l' & c & Hl' & Hokl' & Hc & _).
    { intros ->. rewrite Zlen_nil in Hl1. lia. }
    pose proof (Zlen_nonneg l').
    assert (Hllen : Zlen l = Zlen l' + 1) by (subst l; rewrite Zlen_snoc; lia).
    assert (Hc128 : 128 <= c).
    { apply Z.leb_le. rewrite <- (flag_0x80 c) by done. unfold flag. apply negb_true_iff.
      rewrite <- Hsec. rewrite <- Hvlen. subst vch l. by rewrite second_snoc. }
    assert (Ha : a = le_decode l) by (unfold a; rewrite E; lia).
    assert (Hd : le_decode l = le_decode l' + 2 ^ (8 * Zlen l') * c) by (subst l; apply le_decode_snoc).
    pose proof (le_decode_pow2 _ Hokl') as Hm'. unfold is_byte in Hc.
    destruct (Hpos ltac:(nia)) as [Habs Hneg].
    assert (Hmag : mag_size (length l') (Z.abs (sn_value vch))).
    { rewrite Habs, Ha, Hd. unfold mag_size. unfold Zlen in *. nia. }
    rewrite (serialize_spec _ (length l')); [| lia | lia | done]. fold (Zlen l').
    destruct (Z.leb_spec (128 * 2 ^ (8 * Zlen l')) (Z.abs (sn_value vch))); [| nia].
    rewrite Habs, Ha, Hneg, Hv. f_equal.
    + replace (S (length l')) with (length l) by (unfold Zlen in *; lia). by apply le_encode_decode.
    + f_equal. destruct (128 <=? b); lia.
  - assert (Ha : 0 < a < 2 ^ 63) by (unfold a; nia).
    destruct (Hpos ltac:(lia)) as [Habs Hneg].
    assert (Hmag : mag_size (length l) (Z.abs (sn_value vch))).
    { rewrite Habs. unfold mag_size, a. fold (Zlen l). nia. }
    rewrite (serialize_spec _ (length l)); [| lia | lia | done]. fold (Zlen l).
    destruct (Z.leb_spec (128 * 2 ^ (8 * Zlen l)) (Z.abs (sn_value vch))); [unfold a in *; nia |].
    rewrite Habs, Hneg.
    replace (if 128 <=? b then a + 128 * 2 ^ (8 * Zlen l) else a) with (le_decode vch).
    + replace (S (length l)) with (length vch) by (unfold Zlen in *; lia). by apply le_encode_decode.
    + subst vch. rewrite le_decode_snoc. unfold a.
      assert (Hqb : 2 ^ (8 * Zlen l) * b = 2 ^ (8 * Zlen l) * (b mod 128) + 2 ^ (8 * Zlen l) * (if 128 <=? b then 128 else 0))
        by (by rewrite <- Z.mul_add_distr_l, <- Hbdiv).
      rewrite Hqb. destruct (128 <=? b); lia.
Qed.

(** Script numbers have one minimal encoding: with the minimality flag a
    byte vector of at most [j] bytes parses as [n] exactly when it is the
    vector [serialize] produces for [n] and [n] lies strictly between
    [-2^(8j-1)] and [2^(8j-1)]. In particular [CScriptNum(getvch(n)) = n] for
    every number a script operation may consume, and a number out of the 4-byte
    range is refused when it is used again. *)
Theorem ScriptNum_bijection (vch : list Z) (n j : Z)
    (Hok : bytes_ok vch) (Hj : 1 <= j <= 8) (Hn : - 2 ^ 63 < n < 2 ^ 63) :
  CScriptNum vch true j = Ret n <-> vch = getvch n /\ - 2 ^ (8 * j - 1) < n < 2 ^ (8 * j - 1).
Proof.
  unfold getvch. rewrite CScriptNum_spec by (done || lia). rewrite Z.gtb_ltb. split.
  - destruct (Z.ltb_spec j (Zlen vch)) as [| Hl]; [done |]. cbn [andb].
    destruct (is_minimal vch) eqn:Hm; [| done]. intros [= <-].
    assert (Hs : serialize (sn_value vch) = vch) by (apply serialize_sn_value; done || lia).
    split; [done |]. apply serialize_size; [done | lia | by rewrite Hs].
  - intros [-> Hb]. apply serialize_size in Hb; [| done | lia].
    destruct (Z.ltb_spec j (Zlen (serialize n))); [lia |].
    rewrite serialize_minimal, sn_value_serialize by done. done.
Qed.

Lemma ScriptNum_bijection_witness :
  bytes_ok [0xff; 0x80] /\ 1 <= 4 <= 8 /\ - 2 ^ 63 < -255 < 2 ^ 63 /\
  (CScriptNum [0xff; 0x80] true 4 = Ret (-255) <->
   [0xff; 0x80] = getvch (-255) /\ - 2 ^ (8 * 4 - 1) < -255 < 2 ^ (8 * 4 - 1)).
Proof.
  assert (H : bytes_ok [0xff; 0x80]) by (repeat constructor; lia).
  split; [exact H |]. split; [lia |]. split; [lia |].
  exact (ScriptNum_bijection [0xff; 0x80] (-255) 4 H ltac:(lia) ltac:(lia)).
Defined.
