(* ===== verification/Script.v ===== *)
(** * Scripts

    [CScript] of [src/script/script.h] and [src/script/script.cpp]: a byte vector
    read one instruction at a time. An iterator [pc] is the list of bytes from
    [pc] to [end()]; the distance [end() - pc] is its length. *)

From S2P Require Import Prelude Common Opcodes ScriptNum.

Open Scope outcome_scope.

Definition MAX_SCRIPT_ELEMENT_SIZE : Z := 1280000.

Definition MAX_OPS_PER_SCRIPT : Z := 201.

Definition MAX_PUBKEYS_PER_MULTISIG : Z := 20.

Definition MAX_SCRIPT_SIZE : Z := 129000.

Definition MAX_STACK_SIZE : Z := 1000.

Definition LOCKTIME_THRESHOLD : Z := 500000000.

(** ** Building scripts *)

(** [operator<<(opcodetype)] *)
Definition push_opcode (script : list Z) (opcode : Z) : outcome (list Z) :=
  if (opcode <? 0) || (opcode >? 0xff) then Throw runtime_error
  else Ret (script ++ [opcode]).

(** [operator<<(const std::vector<unsigned char>&)] *)
Definition push_data (script b : list Z) : list Z :=
  let script :=
    if Zlen b <? OP_PUSHDATA1 then script ++ [uint8 (Zlen b)]
    else if Zlen b <=? 0xff then script ++ [OP_PUSHDATA1] ++ [uint8 (Zlen b)]
    else if Zlen b <=? 0xffff then script ++ [OP_PUSHDATA2] ++ WriteLE16 (Zlen b)
    else script ++ [OP_PUSHDATA4] ++ WriteLE32 (Zlen b) in
  script ++ b.

(** [push_int64], the [operator<<(int64_t)]. *)
Definition push_int64 (script : list Z) (n : Z) : list Z :=
  if (n =? -1) || ((n >=? 1) && (n <=? 16)) then script ++ [uint8 (n + (OP_1 - 1))]
  else if n =? 0 then script ++ [OP_0]
  else push_data script (serialize n).

(** ** Reading instructions *)

(** What [GetOp2] returns and what it leaves in its reference arguments, also
    when it fails: the position may have moved past the opcode and the length. *)
Record getop := GetOpResult {
  go_ret : bool;
  go_opcode : Z;
  go_vch : list Z;
  go_pc : list Z
}.

(** The length of the immediate operand and the position after it. *)
Definition GetOp2_size (opcode : Z) (pc : list Z) : option (Z * list Z) :=
  if opcode <? OP_PUSHDATA1 then Some (opcode, pc)
  else if opcode =? OP_PUSHDATA1 then
    if Zlen pc <? 1 then None else Some (byte_at pc 0, drop 1 pc)
  else if opcode =? OP_PUSHDATA2 then
    if Zlen pc <? 2 then None else Some (ReadLE16 pc, drop 2 pc)
  else
    if Zlen pc <? 4 then None else Some (ReadLE32 pc, drop 4 pc).

Definition GetOp2 (pc : list Z) : getop :=
  match pc with
  | [] => GetOpResult false OP_INVALIDOPCODE [] pc
  | opcode :: pc =>
    if opcode <=? OP_PUSHDATA4 then
      match GetOp2_size opcode pc with
      | None => GetOpResult false OP_INVALIDOPCODE [] pc
      | Some (nSize, pc) =>
        if uint32 (Zlen pc) <? nSize then GetOpResult false OP_INVALIDOPCODE [] pc
        else GetOpResult true opcode (take (Z.to_nat nSize) pc) (drop (Z.to_nat nSize) pc)
      end
    else GetOpResult true opcode [] pc
  end.

(** [DecodeOP_N] with its assertion; [OP_N_value] is the value it returns. *)
Definition OP_N_value (opcode : Z) : Z := if opcode =? OP_0 then 0 else opcode - (OP_1 - 1).

Definition DecodeOP_N (opcode : Z) : outcome Z :=
  if opcode =? OP_0 then Ret 0
  else let? _ := cassert ((opcode >=? OP_1) && (opcode <=? OP_16)) in Ret (OP_N_value opcode).

Definition EncodeOP_N (n : Z) : outcome Z :=
  let? _ := cassert ((n >=? 0) && (n <=? 16)) in
  if n =? 0 then Ret OP_0 else Ret (OP_1 + n - 1).

(** ** Scanning scripts

    Every iteration of the loops below reads an instruction and so at least one
    byte: as many iterations as the script has bytes are enough. *)

(** The inner loop of [FindAndDelete]: skip the occurrences of [b] at [pc]. *)
Fixpoint skip_matches (fuel : nat) (b pc : list Z) (nFound : Z) : list Z * Z :=
  match fuel with
  | O => (pc, nFound)
  | S fuel =>
    if (Zlen pc >=? Zlen b) && bool_decide (take (length b) pc = b)
    then skip_matches fuel b (drop (length b) pc) (nFound + 1)
    else (pc, nFound)
  end.

Fixpoint FindAndDelete_loop (fuel : nat) (b pc pc2 result : list Z) (nFound : Z) : list Z * list Z * Z :=
  let result := result ++ take (length pc2 - length pc) pc2 in
  let '(pc, nFound) := skip_matches (length pc) b pc nFound in
  match fuel with
  | O => (pc, result, nFound)
  | S fuel =>
    let r := GetOp2 pc in
    if go_ret r then FindAndDelete_loop fuel b (go_pc r) pc result nFound
    else (pc, result, nFound)
  end.

(** The script after the call, and the number of deletions returned. *)
Definition FindAndDelete (script b : list Z) : list Z * Z :=
  match b with
  | [] => (script, 0)
  | _ =>
    let '(pc2, result, nFound) := FindAndDelete_loop (length script) b script script [] 0 in
    if nFound >? 0 then (result ++ pc2, nFound) else (script, nFound)
  end.

Fixpoint Find_loop (fuel : nat) (op : Z) (pc : list Z) (nFound : Z) : Z :=
  match fuel with
  | O => nFound
  | S fuel =>
    match pc with
    | [] => nFound
    | _ =>
      let r := GetOp2 pc in
      if go_ret r then Find_loop fuel op (go_pc r) (if go_opcode r =? op then nFound + 1 else nFound)
      else nFound
    end
  end.

Definition Find (script : list Z) (op : Z) : Z := Find_loop (length script) op script 0.

Fixpoint GetSigOpCount_loop (fuel : nat) (fAccurate : bool) (pc : list Z) (lastOpcode n : Z) : Z :=
  match fuel with
  | O => n
  | S fuel =>
    match pc with
    | [] => n
    | _ =>
      let r := GetOp2 pc in
      if negb (go_ret r) then n
      else
        let opcode := go_opcode r in
        let n :=
          if (opcode =? OP_CHECKSIG) || (opcode =? OP_CHECKSIGVERIFY) then uint32 (n + 1)
          else if (opcode =? OP_CHECKMULTISIG) || (opcode =? OP_CHECKMULTISIGVERIFY) then
            if fAccurate && (lastOpcode >=? OP_1) && (lastOpcode <=? OP_16)
            then uint32 (n + OP_N_value lastOpcode)
            else uint32 (n + MAX_PUBKEYS_PER_MULTISIG)
          else n in
        GetSigOpCount_loop fuel fAccurate (go_pc r) opcode n
    end
  end.

(** [GetSigOpCount(bool fAccurate)] *)
Definition GetSigOpCount (script : list Z) (fAccurate : bool) : Z :=
  GetSigOpCount_loop (length script) fAccurate script OP_INVALIDOPCODE 0.

Definition IsPayToScriptHash (script : list Z) : bool :=
  (Zlen script =? 23) && (byte_at script 0 =? OP_HASH160) &&
  (byte_at script 1 =? 0x14) && (byte_at script 22 =? OP_EQUAL).

Definition IsPayToWitnessScriptHash (script : list Z) : bool :=
  (Zlen script =? 34) && (byte_at script 0 =? OP_0) && (byte_at script 1 =? 0x20).

(** The loop over the pushes of a [scriptSig]: [None] when it returns 0. *)
Fixpoint last_push_loop (fuel : nat) (pc vData : list Z) : option (list Z) :=
  match fuel with
  | O => Some vData
  | S fuel =>
    match pc with
    | [] => Some vData
    | _ =>
      let r := GetOp2 pc in
      if negb (go_ret r) then None
      else if go_opcode r >? OP_16 then None
      else last_push_loop fuel (go_pc r) (go_vch r)
    end
  end.

(** [GetSigOpCount(const CScript& scriptSig)] *)
Definition GetSigOpCount_scriptSig (script scriptSig : list Z) : Z :=
  if negb (IsPayToScriptHash script) then GetSigOpCount script true
  else match last_push_loop (length scriptSig) scriptSig [] with
       | None => 0
       | Some vData => GetSigOpCount vData true
       end.

Definition IsCommitment (script data : list Z) : bool :=
  if (Zlen data >? 64) || negb (Zlen script =? Zlen data + 2) then false
  else if negb (byte_at script 0 =? OP_RETURN) || negb (byte_at script 1 =? Zlen data) then false
  else bool_decide (drop 2 script = data).

(** The witness version and program, when the script is a witness program. *)
Definition IsWitnessProgram (script : list Z) : option (Z * list Z) :=
  if (Zlen script <? 4) || (Zlen script >? 42) then None
  else if negb (byte_at script 0 =? OP_0) &&
          ((byte_at script 0 <? OP_1) || (byte_at script 0 >? OP_16)) then None
  else if byte_at script 1 + 2 =? Zlen script then
    Some (OP_N_value (byte_at script 0), drop 2 script)
  else None.

Fixpoint IsPushOnly_loop (fuel : nat) (pc : list Z) : bool :=
  match fuel with
  | O => true
  | S fuel =>
    match pc with
    | [] => true
    | _ =>
      let r := GetOp2 pc in
      if negb (go_ret r) then false
      else if go_opcode r >? OP_16 then false
      else IsPushOnly_loop fuel (go_pc r)
    end
  end.

Definition IsPushOnly (script : list Z) : bool := IsPushOnly_loop (length script) script.

Fixpoint HasValidOps_loop (fuel : nat) (it : list Z) : bool :=
  match fuel with
  | O => true
  | S fuel =>
    match it with
    | [] => true
    | _ =>
      let r := GetOp2 it in
      if negb (go_ret r) || (Zlen (go_vch r) >? MAX_SCRIPT_ELEMENT_SIZE) then false
      else HasValidOps_loop fuel (go_pc r)
    end
  end.

Definition HasValidOps (script : list Z) : bool := HasValidOps_loop (length script) script.

Definition IsUnspendable (script : list Z) : bool :=
  ((Zlen script >? 0) && (byte_at script 0 =? OP_RETURN)) || (Zlen script >? MAX_SCRIPT_SIZE).

(** ** The shape of [GetOp2] *)

Lemma GetOp2_size_suffix opcode pc nSize pc' :
  GetOp2_size opcode pc = Some (nSize, pc') -> exists k, pc' = drop k pc.
Proof.
  unfold GetOp2_size. intros H.
  repeat case_match; simplify_eq;
    [exists 0%nat; by rewrite drop_0 | by eexists ..].
Qed.

(** The position only moves forward, also when [GetOp2] fails. *)
Lemma GetOp2_suffix pc : exists k, go_pc (GetOp2 pc) = drop k pc.
Proof.
  unfold GetOp2. destruct pc as [| op pc]; [by exists 0%nat |].
  destruct (op <=? OP_PUSHDATA4); [| by exists 1%nat].
  destruct (GetOp2_size op pc) as [[nSize pc'] |] eqn:E; [| by exists 1%nat].
  apply GetOp2_size_suffix in E as [k ->].
  case_match; cbn [go_pc].
  - by exists (S k).
  - exists (S (k + Z.to_nat nSize)). cbn [drop]. by rewrite drop_drop.
Qed.

(** A successful [GetOp2] consumes a non-empty instruction. *)
Lemma GetOp2_consumes pc :
  go_ret (GetOp2 pc) = true ->
  exists ins, ins <> [] /\ pc = ins ++ go_pc (GetOp2 pc).
Proof.
  destruct pc as [| op pc]; [done |]. intros _.
  assert (H : exists k, go_pc (GetOp2 (op :: pc)) = drop k pc).
  { unfold GetOp2. destruct (op <=? OP_PUSHDATA4); [| by exists 0%nat].
    destruct (GetOp2_size op pc) as [[nSize pc'] |] eqn:E; [| by exists 0%nat].
    apply GetOp2_size_suffix in E as [k ->].
    case_match; cbn [go_pc]; [by exists k |].
    exists (k + Z.to_nat nSize)%nat. by rewrite drop_drop. }
  destruct H as [k ->]. exists (op :: take k pc). split; [done |].
  cbn. by rewrite take_drop.
Qed.

Lemma GetOp2_length pc :
  go_ret (GetOp2 pc) = true -> (length (go_pc (GetOp2 pc)) < length pc)%nat.
Proof.
  intros (ins & Hne & Hpc)%GetOp2_consumes. rewrite Hpc at 2.
  rewrite length_app. destruct ins; [done | cbn; lia].
Qed.

Lemma GetOp2_nil_false : go_ret (GetOp2 []) = false.
Proof. done. Qed.

#[export] Hint Resolve GetOp2_length : ubtc.

(** [GetOp2] on bytes gives bytes, and an opcode that is a byte. *)
Lemma GetOp2_bytes pc :
  bytes_ok pc ->
  is_byte (go_opcode (GetOp2 pc)) /\ bytes_ok (go_vch (GetOp2 pc)) /\ bytes_ok (go_pc (GetOp2 pc)).
Proof.
  intros Hpc. assert (Hinv : is_byte OP_INVALIDOPCODE) by (unfold is_byte, OP_INVALIDOPCODE; lia).
  assert (Hnil : bytes_ok []) by apply Forall_nil_2.
  destruct pc as [| op pc]; [done |].
  destruct (proj1 (bytes_ok_cons op pc) Hpc) as [Hop Hpc'].
  unfold GetOp2. destruct (op <=? OP_PUSHDATA4); [| done].
  destruct (GetOp2_size op pc) as [[nSize pc'] |] eqn:E; [| done].
  apply GetOp2_size_suffix in E as [k ->].
  case_match; cbn [go_opcode go_vch go_pc].
  - split; [done |]. split; [done |]. by apply bytes_ok_drop.
  - split; [done |]. split; [apply bytes_ok_take | apply bytes_ok_drop]; by apply bytes_ok_drop.
Qed.

(** A failed [GetOp2] reports the invalid opcode and no data. *)
Lemma GetOp2_fail pc :
  go_ret (GetOp2 pc) = false ->
  go_opcode (GetOp2 pc) = OP_INVALIDOPCODE /\ go_vch (GetOp2 pc) = [].
Proof. unfold GetOp2. repeat case_match; done. Qed.

(** ** Building and reading back *)

(** The opcode with which [operator<<] pushes a vector of [n] bytes. *)
Definition push_op (n : Z) : Z :=
  if n <? OP_PUSHDATA1 then n
  else if n <=? 0xff then OP_PUSHDATA1
  else if n <=? 0xffff then OP_PUSHDATA2 else OP_PUSHDATA4.

Lemma GetOp2_operand op s b rest :
  op <= OP_PUSHDATA4 -> Zlen b + Zlen rest < 2 ^ 32 ->
  GetOp2_size op s = Some (Zlen b, b ++ rest) ->
  GetOp2 (op :: s) = GetOpResult true op b rest.
Proof.
  intros Hop Hlen Hsize. pose proof (Zlen_nonneg b). pose proof (Zlen_nonneg rest).
  unfold GetOp2. rewrite (proj2 (Z.leb_le op _)), Hsize by done.
  rewrite (proj2 (Z.ltb_ge (uint32 _) _)) by (rewrite Zlen_app, uint32_id; lia).
  assert (Z.to_nat (Zlen b) = length b) as -> by (unfold Zlen; lia).
  by rewrite take_app_length, drop_app_length.
Qed.

Lemma GetOp2_size_LE16 n s :
  0 <= n < 2 ^ 16 -> GetOp2_size OP_PUSHDATA2 (WriteLE16 n ++ s) = Some (n, s).
Proof.
  intros Hn. change (GetOp2_size _ ?v) with
    (if Zlen v <? 2 then None else Some (ReadLE16 v, drop 2 v)).
  rewrite (proj2 (Z.ltb_ge _ _)) by (rewrite Zlen_app; pose proof (Zlen_nonneg s);
    unfold Zlen, WriteLE16 in *; rewrite length_le_encode; lia).
  by rewrite ReadLE16_Write.
Qed.

Lemma GetOp2_size_LE32 n s :
  0 <= n < 2 ^ 32 -> GetOp2_size OP_PUSHDATA4 (WriteLE32 n ++ s) = Some (n, s).
Proof.
  intros Hn. change (GetOp2_size _ ?v) with
    (if Zlen v <? 4 then None else Some (ReadLE32 v, drop 4 v)).
  rewrite (proj2 (Z.ltb_ge _ _)) by (rewrite Zlen_app; pose proof (Zlen_nonneg s);
    unfold Zlen, WriteLE32 in *; rewrite length_le_encode; lia).
  by rewrite ReadLE32_Write.
Qed.

(** What [operator<<] appends is read back by one [GetOp2]. *)
Lemma GetOp2_push_data b rest :
  Zlen b + Zlen rest < 2 ^ 32 ->
  GetOp2 (push_data [] b ++ rest) = GetOpResult true (push_op (Zlen b)) b rest.
Proof.
  intros Hlen. pose proof (Zlen_nonneg b). pose proof (Zlen_nonneg rest).
  unfold push_data, push_op.
  destruct (Zlen b <? OP_PUSHDATA1) eqn:H1; [| destruct (Zlen b <=? 0xff) eqn:H2;
    [| destruct (Zlen b <=? 0xffff) eqn:H3]]; bool_to_prop;
    unfold OP_PUSHDATA1 in H1; cbn [app]; rewrite <- ?app_assoc;
    try rewrite uint8_id by lia;
    apply GetOp2_operand; try done; try (unfold OP_PUSHDATA4; lia).
  - unfold GetOp2_size. by rewrite (proj2 (Z.ltb_lt _ _)) by done.
  - unfold GetOp2_size. cbn [app]. rewrite Zlen_cons, Zlen_app.
    by rewrite (proj2 (Z.ltb_ge (1 + _) _)) by lia.
  - apply GetOp2_size_LE16. lia.
  - apply GetOp2_size_LE32. lia.
Qed.

Lemma push_data_app script b : push_data script b = script ++ push_data [] b.
Proof. unfold push_data. repeat case_match; cbn [app]; by rewrite <- ?app_assoc. Qed.

Lemma push_int64_app script n : push_int64 script n = script ++ push_int64 [] n.
Proof. unfold push_int64. repeat case_match; [done .. | apply push_data_app]. Qed.

(** What a script is built from: the three [operator<<]. *)
Inductive item :=
  | IOpcode (opcode : Z)
  | IData (b : list Z)
  | IInt (n : Z).

Definition append_item (script : list Z) (i : item) : outcome (list Z) :=
  match i with
  | IOpcode opcode => push_opcode script opcode
  | IData b => Ret (push_data script b)
  | IInt n => Ret (push_int64 script n)
  end.

Fixpoint build (script : list Z) (l : list item) : outcome (list Z) :=
  match l with
  | [] => Ret script
  | i :: l => let? script := append_item script i in build script l
  end.

(** The instructions a script decodes to: opcode and operand. *)
Fixpoint GetOps (fuel : nat) (pc : list Z) : option (list (Z * list Z)) :=
  match fuel, pc with
  | _, [] => Some []
  | O, _ => None
  | S fuel, _ =>
    let r := GetOp2 pc in
    if go_ret r then (fun l => (go_opcode r, go_vch r) :: l) <$> GetOps fuel (go_pc r) else None
  end.

(** The instruction an item is read back as. *)
Definition item_instr (i : item) : Z * list Z :=
  match i with
  | IOpcode opcode => (opcode, [])
  | IData b => (push_op (Zlen b), b)
  | IInt n =>
    if (n =? -1) || ((n >=? 1) && (n <=? 16)) then (n + (OP_1 - 1), [])
    else (push_op (Zlen (serialize n)), serialize n)
  end.

Definition item_ok (i : item) : Prop :=
  match i with IOpcode opcode => OP_PUSHDATA4 < opcode <= 0xff | _ => True end.

Definition item_bytes (i : item) : list Z :=
  match i with
  | IOpcode opcode => [opcode]
  | IData b => push_data [] b
  | IInt n => push_int64 [] n
  end.

Lemma append_item_bytes script i :
  item_ok i -> append_item script i = Ret (script ++ item_bytes i).
Proof.
  destruct i as [op | b | n]; cbn; intros Hok.
  - unfold push_opcode. unfold OP_PUSHDATA4 in Hok.
    rewrite (proj2 (Z.ltb_ge _ _)) by lia. rewrite Z.gtb_ltb, (proj2 (Z.ltb_ge _ _)) by lia. done.
  - by rewrite push_data_app.
  - by rewrite push_int64_app.
Qed.

Lemma build_bytes script l :
  Forall item_ok l -> build script l = Ret (script ++ concat (map item_bytes l)).
Proof.
  intros Hl. revert script. induction Hl as [| i l Hi _ IH]; intros script; cbn.
  - by rewrite app_nil_r.
  - rewrite append_item_bytes by done. cbn. by rewrite IH, app_assoc.
Qed.

Lemma GetOp2_above op rest : OP_PUSHDATA4 < op -> GetOp2 (op :: rest) = GetOpResult true op [] rest.
Proof. intros H. unfold GetOp2. by rewrite (proj2 (Z.leb_gt _ _)). Qed.

Lemma push_data_length b : Zlen b <= Zlen (push_data [] b).
Proof.
  unfold push_data. cbv zeta. rewrite Zlen_app.
  pose proof (Zlen_nonneg (if Zlen b <? OP_PUSHDATA1 then [] ++ [uint8 (Zlen b)]
    else if Zlen b <=? 0xff then [] ++ [OP_PUSHDATA1] ++ [uint8 (Zlen b)]
    else if Zlen b <=? 0xffff then [] ++ [OP_PUSHDATA2] ++ WriteLE16 (Zlen b)
    else [] ++ [OP_PUSHDATA4] ++ WriteLE32 (Zlen b))). lia.
Qed.

Lemma GetOp2_item i rest :
  item_ok i -> Zlen (item_bytes i ++ rest) < 2 ^ 32 ->
  GetOp2 (item_bytes i ++ rest) =
    GetOpResult true (fst (item_instr i)) (snd (item_instr i)) rest.
Proof.
  rewrite Zlen_app. destruct i as [op | b | n]; cbn [item_ok item_bytes item_instr fst snd]; intros Hok Hlen.
  - apply GetOp2_above. cbn. lia.
  - pose proof (push_data_length b). apply GetOp2_push_data. lia.
  - unfold push_int64 in *. destruct ((n =? -1) || _) eqn:E; cbn [fst snd].
    + assert (-1 <= n <= 16 /\ n <> 0) by (apply orb_true_iff in E as [E | E]; bool_to_prop; lia).
      rewrite uint8_id by (unfold OP_1; lia). apply GetOp2_above. unfold OP_PUSHDATA4, OP_1. lia.
    + destruct (n =? 0) eqn:E0; bool_to_prop.
      * subst n. unfold Zlen in Hlen. cbn in Hlen. apply (GetOp2_push_data []). unfold Zlen. cbn. lia.
      * pose proof (push_data_length (serialize n)). apply GetOp2_push_data. lia.
Qed.

Lemma push_data_nonempty b : push_data [] b <> [].
Proof. unfold push_data. repeat case_match; done. Qed.

Lemma item_bytes_nonempty i : item_bytes i <> [].
Proof.
  destruct i as [op | b | n]; cbn; [done | apply push_data_nonempty |].
  unfold push_int64. repeat case_match; [done .. | apply push_data_nonempty].
Qed.

Lemma GetOps_items l :
  Forall item_ok l -> Zlen (concat (map item_bytes l)) < 2 ^ 32 ->
  forall fuel, (length (concat (map item_bytes l)) <= fuel)%nat ->
  GetOps fuel (concat (map item_bytes l)) = Some (map item_instr l).
Proof.
  induction 1 as [| i l Hi _ IH]; intros Hlen fuel Hfuel; cbn [map concat] in *; [by destruct fuel |].
  pose proof (GetOp2_item i (concat (map item_bytes l)) Hi Hlen) as Hget.
  assert (Hne := item_bytes_nonempty i).
  pose proof (Zlen_nonneg (item_bytes i)). rewrite Zlen_app in Hlen. rewrite length_app in Hfuel.
  destruct (item_bytes i) as [| x xs]; [done |].
  destruct fuel as [| fuel]; [cbn in Hfuel; lia |]. cbn [GetOps app].
  cbn [app] in Hget. rewrite Hget. cbn [go_ret go_opcode go_vch go_pc].
  rewrite IH by (cbn in Hfuel; lia). cbn. by destruct (item_instr i).
Qed.

(** Whatever is written into an empty script with the three [operator<<]
    (opcodes above the push opcodes, byte vectors, integers) is read back by
    repeated [GetOp] as exactly those instructions: the same opcode for an
    opcode, the same bytes for a vector, and for an integer either [OP_1NEGATE]
    or [OP_N], or its [CScriptNum] encoding. *)
Theorem script_build_read l script :
  Forall item_ok l ->
  build [] l = Ret script ->
  Zlen script < 2 ^ 32 ->
  GetOps (length script) script = Some (map item_instr l).
Proof.
  intros Hl Hb Hlen. rewrite build_bytes in Hb by done. cbn in Hb. simplify_eq.
  by apply GetOps_items.
Qed.

Lemma script_build_read_witness :
  exists script, build [] [IInt 1000; IData [7; 8]; IOpcode OP_CHECKSIG; IInt 3] = Ret script /\
  GetOps (length script) script =
    Some [(2, [0xe8; 3]); (2, [7; 8]); (OP_CHECKSIG, []); (OP_3, [])].
Proof.
  eexists. split; [vm_compute; reflexivity |].
  apply (script_build_read [IInt 1000; IData [7; 8]; IOpcode OP_CHECKSIG; IInt 3]).
  - repeat constructor; vm_compute; congruence.
  - vm_compute. reflexivity.
  - vm_compute. reflexivity.
Defined.

(** ** Deleting a subscript *)

(** [starts_with b pc]: the bytes at [pc] begin with [b]. *)
Definition starts_with (b pc : list Z) : Prop := exists s, pc = b ++ s.

(** [deleted b pc out n]: reading instructions from [pc] and dropping every
    occurrence of [b] that starts where an instruction would start leaves [out]
    and drops [n] occurrences. *)
Inductive deleted (b : list Z) : list Z -> list Z -> Z -> Prop :=
  | deleted_match pc out n :
      deleted b pc out n -> deleted b (b ++ pc) out (n + 1)
  | deleted_keep pc ins out n :
      ~ starts_with b pc -> go_ret (GetOp2 pc) = true -> pc = ins ++ go_pc (GetOp2 pc) ->
      deleted b (go_pc (GetOp2 pc)) out n -> deleted b pc (ins ++ out) n
  | deleted_end pc :
      ~ starts_with b pc -> go_ret (GetOp2 pc) = false -> deleted b pc pc 0.

Lemma deleted_length b pc out n :
  deleted b pc out n -> 0 <= n /\ Zlen out + n * Zlen b = Zlen pc.
Proof.
  induction 1 as [pc out n _ IH | pc ins out n _ _ Hpc _ IH | pc _ _]; [| | lia].
  - rewrite Zlen_app. lia.
  - apply (f_equal Zlen) in Hpc. rewrite Zlen_app in Hpc. rewrite Zlen_app. lia.
Qed.

Lemma deleted_0 b pc out : deleted b pc out 0 -> out = pc.
Proof.
  remember 0 as n eqn:Hn. induction 1 as [pc out n Hd _ | pc ins out n _ _ Hpc _ IH | pc _ _]; [| | done].
  - apply deleted_length in Hd as [? _]. lia.
  - by rewrite Hpc, IH at 1.
Qed.

Lemma starts_with_test b pc :
  (Zlen pc >=? Zlen b) && bool_decide (take (length b) pc = b) = true <-> starts_with b pc.
Proof.
  rewrite andb_true_iff, bool_decide_eq_true, Z.geb_le. unfold Zlen. split.
  - intros [_ Ht]. exists (drop (length b) pc). rewrite <- Ht at 1. by rewrite take_drop.
  - intros [s ->]. rewrite length_app, take_app_length. split; [lia | done].
Qed.

Lemma skip_matches_spec b fuel pc n pc' n' :
  b <> [] -> (length pc <= fuel)%nat -> skip_matches fuel b pc n = (pc', n') ->
  ~ starts_with b pc' /\
  forall out k, deleted b pc' out k -> deleted b pc out (k + (n' - n)).
Proof.
  intros Hb. assert (0 < length b)%nat by (destruct b; [done | cbn; lia]).
  revert pc n. induction fuel as [| fuel IH]; intros pc n Hfuel Hskip; cbn in Hskip.
  - simplify_eq. split.
    + intros [s Hs]. apply (f_equal length) in Hs. rewrite length_app in Hs. lia.
    + intros out k Hd. by replace (k + (n' - n')) with k by lia.
  - destruct (_ && _) eqn:E.
    + apply starts_with_test in E as [s ->]. rewrite drop_app_length in Hskip.
      rewrite length_app in Hfuel. apply IH in Hskip as [Hns Hd]; [| lia]. split; [done |].
      intros out k Hk%Hd. replace (k + (n' - n)) with (k + (n' - (n + 1)) + 1) by lia.
      by apply deleted_match.
    + simplify_eq. split; [by rewrite <- starts_with_test, E |].
      intros out k Hd. by replace (k + (n' - n')) with k by lia.
Qed.

Lemma skip_matches_length b fuel pc n :
  (length (skip_matches fuel b pc n).1 <= length pc)%nat.
Proof.
  revert pc n. induction fuel as [| fuel IH]; intros pc n; cbn; [done |].
  case_match; [| done]. etransitivity; [apply IH | rewrite length_drop; lia].
Qed.

Lemma FindAndDelete_loop_spec b fuel pc pc2 result n q res n' :
  b <> [] -> (length pc <= fuel)%nat ->
  FindAndDelete_loop fuel b pc pc2 result n = (q, res, n') ->
  exists out k, deleted b pc out k /\ n' = n + k /\
    res ++ q = result ++ take (length pc2 - length pc) pc2 ++ out.
Proof.
  intros Hb. revert pc pc2 result n.
  induction fuel as [| fuel IH]; intros pc pc2 result n Hfuel Hloop; cbn in Hloop;
    destruct (skip_matches _ b pc n) as [pc' n1] eqn:Hskip;
    pose proof (skip_matches_length b (length pc) pc n) as Hle;
    rewrite Hskip in Hle; cbn in Hle;
    apply skip_matches_spec in Hskip as [Hns Hd]; try done.
  - simplify_eq. destruct q; [| cbn in Hle; lia].
    exists [], (0 + (n' - n)). split; [by apply Hd, deleted_end |].
    split; [lia | by rewrite <- app_assoc].
  - destruct (go_ret (GetOp2 pc')) eqn:Hget.
    + pose proof (GetOp2_length pc' Hget).
      destruct (GetOp2_consumes pc' Hget) as (ins & _ & Hins).
      apply IH in Hloop as (out & k & Hout & -> & Hres); [| lia].
      exists (ins ++ out), (k + (n1 - n)). split; [by apply Hd, deleted_keep |].
      split; [lia |]. rewrite Hres, <- app_assoc. repeat f_equal.
      clear -Hins. revert Hins. generalize (go_pc (GetOp2 pc')). intros r ->.
      rewrite length_app, Nat.add_sub. apply take_app_length.
    + simplify_eq. exists q, (0 + (n' - n)). split; [by apply Hd, deleted_end |].
      split; [lia | by rewrite <- app_assoc].
Qed.

Lemma FindAndDelete_deleted script b :
  b <> [] ->
  let '(script', n) := FindAndDelete script b in
  deleted b script script' n /\ 0 <= n /\
  Zlen script' + n * Zlen b = Zlen script /\ (n = 0 -> script' = script).
Proof.
  intros Hb. unfold FindAndDelete. destruct b as [| x b0] eqn:Eb; [done |]. rewrite <- Eb in *.
  destruct (FindAndDelete_loop _ _ _ _ _ _) as [[pc2 res] n] eqn:E.
  apply FindAndDelete_loop_spec in E as (out & k & Hd & -> & Hres); [| done | done].
  rewrite Nat.sub_diag in Hres. cbn in Hres. rewrite Hres, Z.add_0_l.
  destruct (deleted_length _ _ _ _ Hd) as [Hk Hl].
  destruct (k >? 0) eqn:Ek; bool_to_prop.
  - split; [done |]. split; [lia |]. split; [done | lia].
  - assert (k = 0) as -> by lia. rewrite (deleted_0 _ _ _ Hd) in Hd.
    split; [done |]. split; [lia |]. split; [lia | done].
Qed.

(** [FindAndDelete] with a non-empty subscript computes exactly the script
    with the occurrences at instruction boundaries dropped, and returns their
    number; every byte is accounted for, and nothing changes when it returns 0. *)
Theorem FindAndDelete_spec script b :
  b <> [] ->
  let '(script', n) := FindAndDelete script b in
  deleted b script script' n /\ 0 <= n /\
  Zlen script' + n * Zlen b = Zlen script /\ (n = 0 -> script' = script).
Proof. apply FindAndDelete_deleted. Qed.

Lemma FindAndDelete_spec_witness :
  FindAndDelete [1; 0xac; 0xac; 0x51; 0xac] [0xac] = ([1; 0xac; 0x51], 2) /\
  deleted [0xac] [1; 0xac; 0xac; 0x51; 0xac] [1; 0xac; 0x51] 2.
Proof.
  split; [vm_compute; reflexivity |].
  destruct (FindAndDelete_spec [1; 0xac; 0xac; 0x51; 0xac] [0xac]) as [H _]; [discriminate |].
  exact H.
Defined.

(** ** Counting signature operations *)

(** The instructions before the first one that does not decode. *)
Fixpoint instrs (fuel : nat) (pc : list Z) : list (Z * list Z) :=
  match fuel with
  | O => []
  | S fuel =>
    let r := GetOp2 pc in
    if go_ret r then (go_opcode r, go_vch r) :: instrs fuel (go_pc r) else []
  end.

Lemma length_instrs fuel pc : (length (instrs fuel pc) <= length pc)%nat.
Proof.
  revert pc. induction fuel as [| fuel IH]; intros pc; cbn; [lia |].
  destruct (go_ret (GetOp2 pc)) eqn:E; cbn; [| lia].
  apply GetOp2_length in E. specialize (IH (go_pc (GetOp2 pc))). lia.
Qed.

Lemma instrs_GetOps fuel pc ops : GetOps fuel pc = Some ops -> instrs fuel pc = ops.
Proof.
  revert pc ops. induction fuel as [| fuel IH]; intros pc ops H; destruct pc as [| x pc]; cbn [GetOps] in H;
    simplify_eq; [done .. |].
  cbn [instrs]. destruct (go_ret _); [| done].
  destruct (GetOps fuel _) as [ops' |] eqn:E; cbn in H; simplify_eq.
  by rewrite (IH _ _ E).
Qed.

(** The signature operations of an instruction that follows [last]. *)
Definition sigop_cost (fAccurate : bool) (last op : Z) : Z :=
  if bool_decide (op = OP_CHECKSIG \/ op = OP_CHECKSIGVERIFY) then 1
  else if bool_decide (op = OP_CHECKMULTISIG \/ op = OP_CHECKMULTISIGVERIFY) then
    if fAccurate && bool_decide (OP_1 <= last <= OP_16) then last - OP_1 + 1 else 20
  else 0.

Fixpoint sigops (fAccurate : bool) (last : Z) (ops : list (Z * list Z)) : Z :=
  match ops with
  | [] => 0
  | (op, _) :: ops => sigop_cost fAccurate last op + sigops fAccurate op ops
  end.

Lemma sigop_cost_bounds last op :
  0 <= sigop_cost true last op <= sigop_cost false last op /\ sigop_cost false last op <= 20.
Proof.
  unfold sigop_cost. cbn [andb].
  destruct (bool_decide (op = OP_CHECKSIG \/ _)); [lia |].
  destruct (bool_decide (op = OP_CHECKMULTISIG \/ _)); [| lia].
  case_bool_decide as H; [| lia]. unfold OP_1, OP_16 in *. lia.
Qed.

Lemma sigops_bounds last ops :
  0 <= sigops true last ops <= sigops false last ops /\
  sigops false last ops <= 20 * Zlen ops.
Proof.
  revert last. induction ops as [| [op vch] ops IH]; intros last; cbn [sigops]; [unfold Zlen; cbn; lia |].
  pose proof (sigop_cost_bounds last op). specialize (IH op). rewrite Zlen_cons. lia.
Qed.

Lemma uint32_add_l a b : uint32 (uint32 a + b) = uint32 (a + b).
Proof. unfold uint32. by rewrite Zplus_mod_idemp_l. Qed.

Lemma sigop_cost_step fAccurate last op n :
  uint32 n = n ->
  (if (op =? OP_CHECKSIG) || (op =? OP_CHECKSIGVERIFY) then uint32 (n + 1)
   else if (op =? OP_CHECKMULTISIG) || (op =? OP_CHECKMULTISIGVERIFY) then
     if fAccurate && (last >=? OP_1) && (last <=? OP_16)
     then uint32 (n + OP_N_value last)
     else uint32 (n + MAX_PUBKEYS_PER_MULTISIG)
   else n) = uint32 (n + sigop_cost fAccurate last op).
Proof.
  intros Hn. unfold sigop_cost.
  assert (Hb : forall a b, (op =? a) || (op =? b) = bool_decide (op = a \/ op = b)).
  { intros a b. apply eq_true_iff_eq. by rewrite orb_true_iff, !Z.eqb_eq, bool_decide_eq_true. }
  rewrite !Hb. destruct (bool_decide _); [done |]. destruct (bool_decide _); [| by rewrite Z.add_0_r].
  assert ((last >=? OP_1) && (last <=? OP_16) = bool_decide (OP_1 <= last <= OP_16)) as Hr.
  { apply eq_true_iff_eq. by rewrite andb_true_iff, bool_decide_eq_true, Z.geb_le, Z.leb_le. }
  rewrite <- andb_assoc, Hr. destruct fAccurate; cbn [andb]; [| done].
  case_bool_decide as Hl; [| done]. unfold OP_N_value, OP_0, OP_1, OP_16 in *.
  rewrite (proj2 (Z.eqb_neq _ _)) by lia. f_equal. lia.
Qed.

Lemma GetSigOpCount_loop_sum fuel fAccurate pc last n :
  uint32 n = n ->
  GetSigOpCount_loop fuel fAccurate pc last n =
    uint32 (n + sigops fAccurate last (instrs fuel pc)).
Proof.
  revert pc last n. induction fuel as [| fuel IH]; intros pc last n Hn; cbn [GetSigOpCount_loop instrs].
  { cbn. by rewrite Z.add_0_r. }
  destruct pc as [| x pc]; [cbn; by rewrite Z.add_0_r |].
  destruct (go_ret _) eqn:E; cbn [negb sigops]; [| by rewrite Z.add_0_r].
  rewrite sigop_cost_step by done.
  rewrite IH by (unfold uint32; by rewrite Z.mod_mod).
  rewrite uint32_add_l. f_equal. lia.
Qed.

(** [GetSigOpCount] is the sum over the instructions that decode of one per
    CHECKSIG and, per CHECKMULTISIG, twenty or, in accurate mode after an
    [OP_N], that [N]; on a script that can occur in a block the count does not
    wrap, and the accurate count never exceeds the legacy one. *)
Theorem GetSigOpCount_sum script :
  20 * Zlen script < 2 ^ 32 ->
  (forall fAccurate, GetSigOpCount script fAccurate =
     sigops fAccurate OP_INVALIDOPCODE (instrs (length script) script)) /\
  0 <= GetSigOpCount script true <= GetSigOpCount script false /\
  GetSigOpCount script false <= 20 * Zlen script.
Proof.
  intros Hlen. pose proof (length_instrs (length script) script) as Hi.
  pose proof (sigops_bounds OP_INVALIDOPCODE (instrs (length script) script)) as Hb.
  assert (Hsum : forall acc, GetSigOpCount script acc =
    sigops acc OP_INVALIDOPCODE (instrs (length script) script)).
  { intros acc. unfold GetSigOpCount. rewrite GetSigOpCount_loop_sum by done.
    apply uint32_id. unfold Zlen in *. destruct acc; lia. }
  split; [done |]. rewrite !Hsum. unfold Zlen in *. lia.
Qed.

Lemma GetSigOpCount_sum_witness :
  GetSigOpCount [OP_2; OP_CHECKMULTISIG; OP_CHECKSIG] true = 3 /\
  GetSigOpCount [OP_2; OP_CHECKMULTISIG; OP_CHECKSIG] false <= 60.
Proof.
  destruct (GetSigOpCount_sum [OP_2; OP_CHECKMULTISIG; OP_CHECKSIG]) as (H1 & H2 & H3).
  - vm_compute. reflexivity.
  - split; [| exact H3]. rewrite H1. vm_compute. reflexivity.
Defined.

(** ** Templates *)

Lemma IsPushOnly_loop_spec fuel pc :
  (length pc <= fuel)%nat ->
  IsPushOnly_loop fuel pc = true <->
  exists ops, GetOps fuel pc = Some ops /\ Forall (fun i => i.1 <= OP_16) ops.
Proof.
  revert pc. induction fuel as [| fuel IH]; intros pc Hf; destruct pc as [| x pc]; cbn [IsPushOnly_loop GetOps].
  - split; [by eexists; split | done].
  - cbn in Hf. lia.
  - split; [by eexists; split | done].
  - destruct (go_ret _) eqn:E; cbn [negb]; [| by split; [| intros (? & ? & _)]].
    apply GetOp2_length in E. cbn in Hf, E. rewrite Z.gtb_ltb.
    destruct (OP_16 <? _) eqn:Eop; bool_to_prop.
    + split; [done |]. intros (ops & Hops & Hall).
      destruct (GetOps fuel _); cbn [fmap option_fmap option_map] in Hops; simplify_eq.
      apply List.Forall_cons_iff in Hall as [Hx _]. cbn [fst] in Hx. lia.
    + rewrite IH by (cbn; lia). split.
      * intros (ops & -> & Hall). eexists. split; [done |]. by constructor.
      * intros (ops & Hops & Hall). destruct (GetOps fuel _) as [ops' |]; cbn in Hops; simplify_eq.
        apply List.Forall_cons_iff in Hall as [_ Hx]. by eexists.
Qed.

(** [IsPushOnly]: the script decodes, into instructions up to [OP_16]. *)
Lemma IsPushOnly_spec script :
  IsPushOnly script = true <->
  exists ops, GetOps (length script) script = Some ops /\ Forall (fun i => i.1 <= OP_16) ops.
Proof. by apply IsPushOnly_loop_spec. Qed.

Lemma EncodeOP_N_DecodeOP_N n op :
  EncodeOP_N n = Ret op -> DecodeOP_N op = Ret n /\ OP_N_value op = n.
Proof.
  unfold EncodeOP_N, DecodeOP_N, OP_N_value, cassert, OP_0, OP_1, OP_16.
  destruct (_ && _) eqn:E; cbn; [| done]. bool_to_prop.
  destruct (n =? 0) eqn:En; intros; simplify_eq; bool_to_prop; [subst; done |].
  rewrite (proj2 (Z.eqb_neq _ _)) by lia.
  rewrite Z.geb_leb, !(proj2 (Z.leb_le _ _)) by lia. cbn. split; [f_equal |]; lia.
Qed.

Lemma EncodeOP_N_OP_N_value op :
  op = OP_0 \/ OP_1 <= op <= OP_16 -> 0 <= OP_N_value op <= 16 /\ EncodeOP_N (OP_N_value op) = Ret op.
Proof.
  unfold OP_N_value, EncodeOP_N, OP_0, OP_1, OP_16. intros Hop.
  destruct (op =? 0) eqn:E; bool_to_prop; [by subst |]. split; [lia |].
  rewrite Z.geb_leb, !(proj2 (Z.leb_le _ _)) by lia. cbn.
  rewrite (proj2 (Z.eqb_neq _ _)) by lia. f_equal. lia.
Qed.

(** [IsWitnessProgram] recognises exactly the scripts that consist of the
    opcode of a version 0 to 16 and one direct push of 2 to 40 bytes, and
    returns that version and those bytes. *)
Theorem IsWitnessProgram_spec script v program :
  IsWitnessProgram script = Some (v, program) <->
  2 <= Zlen program <= 40 /\
  exists op, EncodeOP_N v = Ret op /\ script = op :: Zlen program :: program.
Proof.
  split.
  - unfold IsWitnessProgram.
    destruct ((Zlen script <? 4) || _) eqn:Hlen; [done |].
    destruct script as [| op [| n program']]; [done .. |].
    change (byte_at (op :: n :: program') 0) with op. change (byte_at (op :: n :: program') 1) with n.
    rewrite !Zlen_cons in *. bool_to_prop.
    destruct (negb (op =? OP_0) && _) eqn:Hop; [done |].
    destruct (n + 2 =? _) eqn:Hn; [| done]. intros Heq. simplify_eq. bool_to_prop.
    cbn [drop]. rewrite drop_0. split; [lia |]. exists op. split; [| repeat f_equal; lia].
    apply EncodeOP_N_OP_N_value. apply andb_false_iff in Hop as [Hop | Hop]; bool_to_prop; [by left | right; lia].
  - intros (Hlen & op & Hop & ->).
    destruct (EncodeOP_N_DecodeOP_N _ _ Hop) as [_ Hv]. unfold IsWitnessProgram.
    change (byte_at (op :: Zlen program :: program) 0) with op.
    change (byte_at (op :: Zlen program :: program) 1) with (Zlen program).
    rewrite !Zlen_cons, Z.gtb_ltb, !(proj2 (Z.ltb_ge _ _)) by lia. cbn [orb].
    assert (op = OP_0 \/ OP_1 <= op <= OP_16) as Hrange.
    { unfold EncodeOP_N, cassert, OP_0, OP_1, OP_16 in *. destruct (_ && _) eqn:E; [| done].
      bool_to_prop. cbn in Hop. destruct (v =? 0) eqn:Ev; simplify_eq; bool_to_prop; lia. }
    assert (negb (op =? OP_0) && ((op <? OP_1) || (op >? OP_16)) = false) as ->.
    { destruct Hrange as [-> | Hr]; [done |].
      rewrite Z.gtb_ltb, !(proj2 (Z.ltb_ge _ _)) by lia. by rewrite andb_false_r. }
    rewrite (proj2 (Z.eqb_eq _ _)) by lia. cbn [drop]. by rewrite Hv.
Qed.

Lemma IsWitnessProgram_spec_witness :
  IsWitnessProgram [OP_1; 3; 10; 11; 12] = Some (1, [10; 11; 12]).
Proof.
  apply (IsWitnessProgram_spec [OP_1; 3; 10; 11; 12] 1 [10; 11; 12]).
  split; [vm_compute; split; congruence |]. exists OP_1. split; reflexivity.
Defined.
