(* ===== verification/MDHash.v ===== *)
(** * Buffered block hashing

    The part [CSHA256], [CSHA1], [CRIPEMD160] and [CSHA512]
    ([src/crypto/*.cpp]) share: a state, a buffer of one block and a byte count;
    [Write] completes the buffered block, transforms whole blocks straight from
    the input and buffers the rest; [Finalize] pads through [Write]. The four
    classes differ in the block size, in the transformation, and in how the whole
    blocks of the input are processed ([chunks]). *)

From S2P Require Import Prelude.

Record hasher (St : Type) := Hasher {
  h_s : St;
  h_buf : list Z;
  h_bytes : Z
}.
Arguments Hasher {St} _ _ _.
Arguments h_s {St} _.
Arguments h_buf {St} _.
Arguments h_bytes {St} _.

(** [memcpy(buf + off, data, data.size())] *)
Definition memcpy_at (buf : list Z) (off : nat) (data : list Z) : list Z :=
  take off buf ++ data ++ drop (off + length data) buf.

Section Write.
Context {St : Type} (B : nat).

(** What processes the whole blocks of the input: from the state, the input and
    the byte count to the state, the input left and the byte count. *)
Definition chunk_step := St -> list Z -> Z -> St * list Z * Z.

Variable Transform : St -> list Z -> St.

(** The [while] loop of [CSHA1], [CRIPEMD160] and [CSHA512]. *)
Fixpoint loop_chunks_fuel (fuel : nat) (s : St) (data : list Z) (bytes : Z) : St * list Z * Z :=
  match fuel with
  | O => (s, data, bytes)
  | S fuel =>
    if Zlen data >=? Z.of_nat B
    then loop_chunks_fuel fuel (Transform s data) (drop B data) (uint64 (bytes + Z.of_nat B))
    else (s, data, bytes)
  end.

Definition loop_chunks : chunk_step := fun s data bytes => loop_chunks_fuel (length data) s data bytes.

(** [Transform(s, data, blocks)], a transformation of several blocks. *)
Fixpoint Transform_blocks (s : St) (chunk : list Z) (blocks : nat) : St :=
  match blocks with
  | O => s
  | S blocks => Transform_blocks (Transform s chunk) (drop B chunk) blocks
  end.

(** The branch of [CSHA256]. *)
Definition batch_chunks : chunk_step := fun s data bytes =>
  if Zlen data >=? Z.of_nat B then
    let blocks := (length data / B)%nat in
    (Transform_blocks s data blocks, drop (B * blocks) data, uint64 (bytes + Z.of_nat (B * blocks)))
  else (s, data, bytes).

Definition md_write (chunks : chunk_step) (h : hasher St) (data : list Z) : hasher St :=
  let bufsize := Z.to_nat (h_bytes h mod Z.of_nat B) in
  let '(s, buf, bytes, data, bufsize) :=
    if negb (bufsize =? 0)%nat && (B <=? bufsize + length data)%nat then
      let n := (B - bufsize)%nat in
      let buf := memcpy_at (h_buf h) bufsize (take n data) in
      (Transform (h_s h) buf, buf, uint64 (h_bytes h + Z.of_nat n), drop n data, 0%nat)
    else (h_s h, h_buf h, h_bytes h, data, bufsize) in
  let '(s, data, bytes) := chunks s data bytes in
  if Zlen data >? 0 then Hasher s (memcpy_at buf bufsize data) (uint64 (bytes + Zlen data))
  else Hasher s buf bytes.

(** [Finalize] before the state is written out: [padlen bytes] bytes of padding,
    then the size descriptor, both written into the hasher. *)
Definition md_finalize (chunks : chunk_step) (padlen : Z -> Z) (sizedesc : Z -> list Z) (h : hasher St) : hasher St :=
  let pad := 0x80 :: replicate (B - 1) 0 in
  let desc := sizedesc (uint64 (Z.shiftl (h_bytes h) 3)) in
  let h := md_write chunks h (take (Z.to_nat (padlen (h_bytes h))) pad) in
  md_write chunks h desc.

(** ** What the hasher has absorbed *)

(** The reference: [n] blocks of [m] folded into the state. *)
Fixpoint compress (n : nat) (s : St) (m : list Z) : St :=
  match n with
  | O => s
  | S n => compress n (Transform s (take B m)) (drop B m)
  end.

Variable init : St.

(** [absorbed s tail m]: [s] has folded in the whole blocks of [m], and [tail]
    is the rest of [m]. *)
Definition absorbed (s : St) (tail m : list Z) : Prop :=
  exists n, length m = (n * B + length tail)%nat /\ (length tail < B)%nat /\
    s = compress n init m /\ tail = drop (n * B) m.

(** The invariant of a hasher that has been given [m]. *)
Definition has_absorbed (h : hasher St) (m : list Z) : Prop :=
  length (h_buf h) = B /\ h_bytes h = uint64 (Zlen m) /\
  absorbed (h_s h) (take (length m `mod` B) (h_buf h)) m.

(** ** Lemmas *)

Hypothesis B_pos : (0 < B)%nat.
Hypothesis B_64 : (Z.of_nat B | 2 ^ 64).
Hypothesis Transform_take : forall s chunk, Transform s (take B chunk) = Transform s chunk.

Lemma compress_app n s m x :
  (n * B <= length m)%nat -> compress n s (m ++ x) = compress n s m.
Proof.
  revert s m. induction n as [| n IH]; intros s m Hn; cbn; [done |].
  rewrite take_app_le, drop_app_le by lia. apply IH. rewrite length_drop. lia.
Qed.

Lemma compress_S n s m :
  compress (S n) s m = Transform (compress n s m) (take B (drop (n * B) m)).
Proof.
  revert s m. induction n as [| n IH]; intros s m; [cbn; by rewrite drop_0 |].
  change (compress (S (S n)) s m) with (compress (S n) (Transform s (take B m)) (drop B m)).
  rewrite IH, drop_drop. cbn. done.
Qed.

Lemma absorbed_init : absorbed init [] [].
Proof. exists 0%nat. cbn. split; [done |]. split; [lia | done]. Qed.

Lemma absorbed_partial s tail m x :
  absorbed s tail m -> (length (tail ++ x) < B)%nat -> absorbed s (tail ++ x) (m ++ x).
Proof.
  intros (n & Hlen & _ & -> & ->) Hx. exists n. rewrite !length_app in *.
  split; [lia |]. split; [lia |]. split; [by rewrite compress_app by lia |].
  by rewrite drop_app_le by lia.
Qed.

Lemma absorbed_block s tail m x :
  absorbed s tail m -> length (tail ++ x) = B -> absorbed (Transform s (tail ++ x)) [] (m ++ x).
Proof.
  intros (n & Hlen & _ & -> & ->) Hx. exists (S n). rewrite length_app in Hx. rewrite length_app.
  split; [cbn; lia |]. split; [cbn; lia |]. split.
  - rewrite compress_S, drop_app_le by lia. rewrite compress_app by lia. f_equal.
    rewrite firstn_all2 by (rewrite length_app; lia). done.
  - rewrite drop_ge; [done |]. rewrite length_app. cbn. lia.
Qed.

Lemma absorbed_length s tail m : absorbed s tail m -> (length m `mod` B)%nat = length tail.
Proof.
  intros (n & -> & Hlt & _). rewrite Nat.add_comm, Nat.Div0.mod_add. by apply Nat.mod_small.
Qed.

Lemma loop_chunks_absorbed fuel s m data bytes s' data' bytes' :
  absorbed s [] m -> bytes = uint64 (Zlen m) -> (length data <= fuel)%nat ->
  loop_chunks_fuel fuel s data bytes = (s', data', bytes') ->
  exists x, data = x ++ data' /\ (length data' < B)%nat /\
    absorbed s' [] (m ++ x) /\ bytes' = uint64 (Zlen (m ++ x)).
Proof.
  revert s m data bytes. induction fuel as [| fuel IH]; intros s m data bytes Habs -> Hfuel Hl; cbn in Hl.
  { simplify_eq. exists []. rewrite app_nil_r. split; [done |]. split; [lia | done]. }
  rewrite Z.geb_leb in Hl. destruct (_ <=? _) eqn:E; bool_to_prop.
  - unfold Zlen in E. pose proof (take_drop B data) as Hd.
    assert (Hx : length (take B data) = B) by (rewrite length_take; lia).
    apply IH with (m := m ++ take B data) in Hl as (x & Hx' & Hlt & Habs' & ->).
    + exists (take B data ++ x). rewrite <- app_assoc, <- Hx', Hd. by rewrite app_assoc.
    + rewrite <- Transform_take. by apply absorbed_block with (tail := []).
    + unfold uint64. rewrite Zplus_mod_idemp_l, Zlen_app. unfold Zlen. by rewrite Hx.
    + rewrite length_drop. lia.
  - simplify_eq. exists []. rewrite app_nil_r. unfold Zlen in E. split; [done |]. split; [lia | done].
Qed.

(** What [md_write] relies on in the processing of whole blocks. *)
Definition chunks_ok (chunks : chunk_step) : Prop :=
  (forall s data bytes, (length data < B)%nat -> chunks s data bytes = (s, data, bytes)) /\
  (forall s m data bytes, absorbed s [] m -> bytes = uint64 (Zlen m) ->
   let '(s', data', bytes') := chunks s data bytes in
   exists x, data = x ++ data' /\ (length data' < B)%nat /\
     absorbed s' [] (m ++ x) /\ bytes' = uint64 (Zlen (m ++ x))).

Lemma loop_chunks_ok : chunks_ok loop_chunks.
Proof.
  split.
  { intros s data bytes Hlt. unfold loop_chunks. destruct data; cbn [loop_chunks_fuel length]; [done |].
    rewrite Z.geb_leb, (proj2 (Z.leb_gt _ _)); [done |]. unfold Zlen. lia. }
  intros s m data bytes Habs Hb. unfold loop_chunks.
  destruct (loop_chunks_fuel _ _ _ _) as [[s' data'] bytes'] eqn:E.
  by apply loop_chunks_absorbed with (m := m) in E.
Qed.

Lemma Transform_blocks_absorbed blocks s m data :
  absorbed s [] m -> (B * blocks <= length data)%nat ->
  absorbed (Transform_blocks s data blocks) [] (m ++ take (B * blocks) data).
Proof.
  revert s m data. induction blocks as [| n IH]; intros s m data Habs Hlen; cbn [Transform_blocks].
  - rewrite Nat.mul_0_r, take_0, app_nil_r. done.
  - assert (Hx : length (take B data) = B) by (rewrite length_take; lia).
    replace (m ++ take (B * S n) data) with ((m ++ take B data) ++ take (B * n) (drop B data)).
    + apply IH; [| rewrite length_drop; lia].
      rewrite <- Transform_take. by apply absorbed_block with (tail := []).
    + rewrite <- app_assoc. f_equal. rewrite take_take_drop. f_equal. lia.
Qed.

Lemma batch_chunks_ok : chunks_ok batch_chunks.
Proof.
  split.
  { intros s data bytes Hlt. unfold batch_chunks.
    rewrite Z.geb_leb, (proj2 (Z.leb_gt _ _)); [done |]. unfold Zlen. lia. }
  intros s m data bytes Habs ->. unfold batch_chunks. rewrite Z.geb_leb.
  destruct (_ <=? _) eqn:E; bool_to_prop; unfold Zlen in E.
  - set (n := (length data / B)%nat).
    assert (Hle : (B * n <= length data)%nat) by apply Nat.Div0.mul_div_le.
    assert (Hlt : (length data < B * S n)%nat) by (apply Nat.mul_succ_div_gt; lia).
    exists (take (B * n) data). rewrite take_drop. split; [done |]. split; [rewrite length_drop; lia |].
    split; [by apply Transform_blocks_absorbed |].
    unfold uint64. rewrite Zplus_mod_idemp_l, Zlen_app. unfold Zlen. by rewrite length_take, Nat.min_l.
  - exists []. rewrite app_nil_r. split; [done |]. split; [lia | done].
Qed.

Lemma length_memcpy_at buf off data :
  (off + length data <= length buf)%nat -> length (memcpy_at buf off data) = length buf.
Proof. intros H. unfold memcpy_at. rewrite !length_app, length_take, length_drop. lia. Qed.

Lemma take_memcpy_at buf off data :
  (off <= length buf)%nat ->
  take (off + length data) (memcpy_at buf off data) = take off buf ++ data.
Proof.
  intros H. unfold memcpy_at. rewrite app_assoc.
  replace (off + length data)%nat with (length (take off buf ++ data)); [apply take_app_length |].
  rewrite length_app, length_take. lia.
Qed.

Lemma has_absorbed_bufsize h m :
  has_absorbed h m -> Z.to_nat (h_bytes h mod Z.of_nat B) = (length m `mod` B)%nat.
Proof.
  intros (_ & -> & _). unfold uint64.
  destruct B_64 as [k Hk]. rewrite Hk, (Z.mul_comm k), Z.rem_mul_r, (Z.mul_comm (Z.of_nat B)) by lia.
  rewrite Z.mod_add, Z.mod_mod by lia. unfold Zlen. by rewrite <- Nat2Z.inj_mod, Nat2Z.id.
Qed.

(** The second half of [Write]: whole blocks, then the rest into the buffer. *)
Lemma md_write_rest chunks s buf bytes m data off :
  chunks_ok chunks -> length buf = B -> bytes = uint64 (Zlen m) ->
  absorbed s (take off buf) m -> (off < B)%nat -> off = 0%nat \/ (off + length data < B)%nat ->
  has_absorbed (let '(s, data, bytes) := chunks s data bytes in
    if Zlen data >? 0 then Hasher s (memcpy_at buf off data) (uint64 (bytes + Zlen data))
    else Hasher s buf bytes) (m ++ data).
Proof.
  intros [Hsmall Hbig] Hbuf Hbytes Habs Hoff Hcase.
  assert (exists s' x data' bytes', chunks s data bytes = (s', data', bytes') /\ data = x ++ data' /\
    (off + length data' < B)%nat /\ absorbed s' (take off buf) (m ++ x) /\ bytes' = uint64 (Zlen (m ++ x)))
    as (s' & x & data' & bytes' & -> & -> & Hlt & Habs' & ->).
  { destruct Hcase as [-> | Hlt].
    - specialize (Hbig s m data bytes Habs Hbytes). destruct (chunks s data bytes) as [[s' data'] bytes'].
      destruct Hbig as (x & ? & ? & ? & ?). by exists s', x, data', bytes'.
    - exists s, [], data, bytes. rewrite Hsmall by lia. by rewrite app_nil_r. }
  assert (Htail : length (take off buf) = off) by (rewrite length_take; lia).
  assert (Hnew : absorbed s' (take off buf ++ data') ((m ++ x) ++ data'))
    by (apply absorbed_partial; [done | rewrite length_app; lia]).
  pose proof (absorbed_length _ _ _ Hnew) as Hmod. rewrite app_assoc.
  rewrite (length_app (take off buf)), Htail in Hmod. rewrite Z.gtb_ltb. destruct (0 <? _) eqn:E; bool_to_prop.
  - split; [cbn; rewrite length_memcpy_at; lia |]. split.
    + cbn. unfold uint64. by rewrite Zplus_mod_idemp_l, <- Zlen_app.
    + cbn. rewrite Hmod, take_memcpy_at by lia. done.
  - assert (data' = []) as -> by (apply Zlen_0_nil; pose proof (Zlen_nonneg data'); lia).
    rewrite app_nil_r in *. split; [done |]. split; [done |]. cbn. cbn in Hmod. by rewrite Hmod, Nat.add_0_r.
Qed.

(** [Write] absorbs its input. *)
Lemma md_write_absorbed chunks h m data :
  chunks_ok chunks -> has_absorbed h m -> has_absorbed (md_write chunks h data) (m ++ data).
Proof.
  intros Hchunks Hh. unfold md_write. rewrite (has_absorbed_bufsize _ _ Hh).
  destruct Hh as (Hbuf & Hbytes & Habs). set (t := (length m `mod` B)%nat) in *.
  assert (Ht : (t < B)%nat) by (apply Nat.mod_upper_bound; lia).
  destruct (negb (t =? 0)%nat && _) eqn:E.
  - apply andb_true_iff in E as [_ E%Nat.leb_le]. set (n := (B - t)%nat).
    assert (Hn : length (take n data) = n) by (rewrite length_take; lia).
    assert (Hblen : length (memcpy_at (h_buf h) t (take n data)) = B)
      by (rewrite length_memcpy_at; lia).
    pose proof (take_memcpy_at (h_buf h) t (take n data)) as Hcpy.
    rewrite firstn_all2 in Hcpy by lia.
    replace (m ++ data) with ((m ++ take n data) ++ drop n data) by (by rewrite <- app_assoc, take_drop).
    apply md_write_rest; [done | done | | | lia | by left].
    + rewrite Hbytes. unfold uint64. rewrite Zplus_mod_idemp_l, Zlen_app. unfold Zlen. by rewrite Hn.
    + rewrite Hcpy by lia. apply absorbed_block; [done |]. rewrite length_app, length_take. lia.
  - apply md_write_rest; [done .. |]. apply andb_false_iff in E as [E | E%Nat.leb_gt]; [left | right; done].
    by apply negb_false_iff, Nat.eqb_eq in E.
Qed.

(** The padded message of the standards: one 1 bit, the least number of zero
    bytes that makes the length a multiple of the block, and the size. *)
Definition md_pad (sizedesc : Z -> list Z) (m : list Z) : list Z :=
  let desc := sizedesc (uint64 (8 * Zlen m)) in
  m ++ 0x80 :: replicate (Z.to_nat (- (Zlen m + 1 + Zlen desc) mod Z.of_nat B)) 0 ++ desc.

(** The reference hash before output: fold the padded message block by block. *)
Definition md_spec (sizedesc : Z -> list Z) (m : list Z) : St :=
  let p := md_pad sizedesc m in compress (length p / B) init p.

Lemma md_finalize_spec chunks padlen sizedesc h m :
  chunks_ok chunks -> has_absorbed h m ->
  padlen (h_bytes h) = 1 + - (Zlen m + 1 + Zlen (sizedesc (uint64 (8 * Zlen m)))) mod Z.of_nat B ->
  h_s (md_finalize chunks padlen sizedesc h) = md_spec sizedesc m.
Proof.
  intros Hc Hh Hpad. unfold md_finalize, md_spec. rewrite Hpad.
  replace (uint64 (Z.shiftl (h_bytes h) 3)) with (uint64 (8 * Zlen m)).
  2: { destruct Hh as (_ & -> & _). rewrite Z.shiftl_mul_pow2 by lia. change (2 ^ 3) with 8.
       unfold uint64. rewrite Zmult_mod_idemp_l. f_equal. lia. }
  set (desc := sizedesc _). set (k := - _ mod _).
  assert (Hk : 0 <= k < Z.of_nat B) by (apply Z.mod_pos_bound; lia).
  assert (Htake : take (Z.to_nat (1 + k)) (0x80 :: replicate (B - 1) 0) = 0x80 :: replicate (Z.to_nat k) 0).
  { replace (Z.to_nat (1 + k)) with (S (Z.to_nat k)) by lia. cbn [take].
    rewrite take_replicate. do 2 f_equal. lia. }
  rewrite Htake.
  assert (Hfin : has_absorbed (md_write chunks (md_write chunks h (0x80 :: replicate (Z.to_nat k) 0)) desc)
    (md_pad sizedesc m)).
  { unfold md_pad. fold desc. fold k.
    replace (m ++ _) with ((m ++ 0x80 :: replicate (Z.to_nat k) 0) ++ desc) by (by rewrite <- app_assoc).
    by apply md_write_absorbed, md_write_absorbed. }
  destruct Hfin as (_ & _ & (n & Hlen & Hlt & -> & _)).
  f_equal. eapply Nat.div_unique; [exact Hlt | lia].
Qed.

Lemma has_absorbed_init buf : length buf = B -> has_absorbed (Hasher init buf 0) [].
Proof.
  intros Hbuf. split; [done |]. split; [done |]. cbn. rewrite Nat.Div0.mod_0_l, take_0. apply absorbed_init.
Qed.

Lemma md_finalize_length chunks padlen sizedesc h m :
  chunks_ok chunks -> has_absorbed h m -> length (h_buf (md_finalize chunks padlen sizedesc h)) = B.
Proof.
  intros Hc Hh. unfold md_finalize.
  eapply md_write_absorbed, md_write_absorbed in Hh as [Hlen _]; [exact Hlen | done | done].
Qed.
End Write.

Lemma compress_ext {St} B (T T' : St -> list Z -> St) n s m :
  (forall s c, T s c = T' s c) -> compress B T n s m = compress B T' n s m.
Proof. intros HT. revert s m. induction n as [| n IH]; intros s m; cbn; [done |]. by rewrite HT, IH. Qed.

Lemma md_spec_ext {St} B (T T' : St -> list Z -> St) init sz sz' m :
  (forall s c, T s c = T' s c) -> (forall n, sz (uint64 n) = sz' (uint64 n)) ->
  md_spec B T init sz m = md_spec B T' init sz' m.
Proof. intros HT Hsz. unfold md_spec, md_pad. rewrite Hsz. by apply compress_ext. Qed.

(** The padding lengths of [Finalize] for blocks of 64 bytes with an 8-byte size
    and for blocks of 128 bytes with a 16-byte size. *)
Lemma padlen_64 n : 1 + (119 - uint64 n mod 64) mod 64 = 1 + - (n + 1 + 8) mod 64.
Proof. f_equal. unfold uint64. Z.to_euclidean_division_equations. lia. Qed.

Lemma padlen_128 n : 1 + (239 - uint64 n mod 128) mod 128 = 1 + - (n + 1 + 16) mod 128.
Proof. f_equal. unfold uint64. Z.to_euclidean_division_equations. lia. Qed.

(** ** The interface of a hash class

    What the clients of the four classes (double hashing, HMAC, the script
    opcodes) rely on: after the writes [m], [Finalize] outputs [spec m]. *)
Class HashStream {St : Type} (new : hasher St) (write : hasher St -> list Z -> hasher St)
  (finalized : hasher St -> hasher St) (finalize : hasher St -> list Z)
  (reset : hasher St -> hasher St) (spec : list Z -> list Z) := {
  absorbs : hasher St -> list Z -> Prop;
  absorbs_new : absorbs new [];
  absorbs_write h m data : absorbs h m -> absorbs (write h data) (m ++ data);
  absorbs_finalize h m : absorbs h m -> finalize h = spec m;
  absorbs_reset h m : absorbs h m -> absorbs (reset (finalized h)) []
}.

Section HashStream.
Context {St new write finalized finalize reset spec}
  `{!@HashStream St new write finalized finalize reset spec}.

Lemma absorbs_writes ds h m : absorbs h m -> absorbs (foldl write h ds) (m ++ concat ds).
Proof.
  revert h m. induction ds as [| d ds IH]; intros h m Hh; cbn; [by rewrite app_nil_r |].
  rewrite app_assoc. by apply IH, absorbs_write.
Qed.

Lemma hash_stream ds : finalize (foldl write new ds) = spec (concat ds).
Proof. apply absorbs_finalize, (absorbs_writes ds new []), absorbs_new. Qed.
End HashStream.

(** ** Words of the unrolled transformations *)

Definition add32 (x y : Z) : Z := uint32 (x + y).

Definition add64 (x y : Z) : Z := uint64 (x + y).

(** [x >> n | x << (32 - n)] *)
Definition rotr32 (x n : Z) : Z := Z.lor (Z.shiftr x n) (uint32 (Z.shiftl x (32 - n))).

(** [x >> n | x << (64 - n)] *)
Definition rotr64 (x n : Z) : Z := Z.lor (Z.shiftr x n) (uint64 (Z.shiftl x (64 - n))).

(** [(x << i) | (x >> (32 - i))] *)
Definition rol32 (x i : Z) : Z := Z.lor (uint32 (Z.shiftl x i)) (Z.shiftr x (32 - i)).

(** The assignment of a message word: a [let] that does not reduce on its own. *)
Definition with_word {A : Type} (w : Z) (k : Z -> A) : A := k w.

Lemma with_word_eq {A : Type} w (k : Z -> A) : with_word w k = k w.
Proof. done. Qed.

Notation "'word' w := e 'in' k" := (with_word e (fun w => k))
  (at level 10, w name, e at level 200, k at level 200).

(** Consume one assignment, or one round, of the unrolled code on both sides of
    an equation. *)
Ltac word_step :=
  lazymatch goal with |- with_word ?e _ = _ =>
    let y := fresh "w" in generalize e; intro y; rewrite !(with_word_eq y); cbv beta
  end.

Ltac round_step :=
  lazymatch goal with |- (match ?p with pair _ _ => _ end) = _ =>
    let d := fresh "d" in let h := fresh "h" in destruct p as [d h]; cbv iota beta
  end.

(** ** The constants of SHA-2

    Fractional parts of cube roots of the first primes. *)

Definition primes_below (n : Z) : list Z :=
  List.filter (fun p => forallb (fun d => negb (p mod d =? 0)) (seqZ 2 (p - 2))) (seqZ 2 (n - 2)).

(** The integer cube root, one bit at a time. *)
Fixpoint cbrt_bits (n : nat) (x r : Z) : Z :=
  match n with
  | O => r
  | S n =>
    let r' := r + 2 ^ Z.of_nat n in
    cbrt_bits n x (if r' ^ 3 <=? x then r' else r)
  end.

(** The first [w] bits of the fractional part of the cube root of [p]. *)
Definition cbrt_frac (w : nat) (p : Z) : Z :=
  cbrt_bits (w + 3) (p * 2 ^ (3 * Z.of_nat w)) 0 mod 2 ^ Z.of_nat w.

Lemma cbrt_bits_spec n x r :
  0 <= r -> r ^ 3 <= x < (r + 2 ^ Z.of_nat n) ^ 3 ->
  cbrt_bits n x r ^ 3 <= x < (cbrt_bits n x r + 1) ^ 3.
Proof.
  revert r. induction n as [| n IH]; intros r Hr Hx; cbn [cbrt_bits]; [done |].
  rewrite Nat2Z.inj_succ, Z.pow_succ_r in Hx by lia.
  assert (0 < 2 ^ Z.of_nat n) by (apply Z.pow_pos_nonneg; lia).
  destruct (_ <=? x) eqn:E; bool_to_prop; apply IH; lia.
Qed.
