(* ===== verification/Sha256.v ===== *)
(** * SHA-256

    [src/crypto/sha256.cpp]: the unrolled transformation and the class [CSHA256],
    and their equality with the compression function and padding of FIPS 180-4. *)

From S2P Require Import Prelude Common MDHash.

Definition Ch (x y z : Z) : Z := Z.lxor z (Z.land x (Z.lxor y z)).

Definition Maj (x y z : Z) : Z := Z.lor (Z.land x y) (Z.land z (Z.lor x y)).

Definition Sigma0 (x : Z) : Z := Z.lxor (Z.lxor (rotr32 x 2) (rotr32 x 13)) (rotr32 x 22).

Definition Sigma1 (x : Z) : Z := Z.lxor (Z.lxor (rotr32 x 6) (rotr32 x 11)) (rotr32 x 25).

Definition sigma0 (x : Z) : Z := Z.lxor (Z.lxor (rotr32 x 7) (rotr32 x 18)) (Z.shiftr x 3).

Definition sigma1 (x : Z) : Z := Z.lxor (Z.lxor (rotr32 x 17) (rotr32 x 19)) (Z.shiftr x 10).

(** One round: the new values of [d] and [h]. *)
Definition Round (a b c d e f g h k w : Z) : Z * Z :=
  let t1 := add32 (add32 (add32 (add32 h (Sigma1 e)) (Ch e f g)) k) w in
  let t2 := add32 (Sigma0 a) (Maj a b c) in
  (add32 d t1, add32 t1 t2).

(** The array [s[8]]. *)
Definition state : Type := Z * Z * Z * Z * Z * Z * Z * Z.

Definition Initialize : state :=
  (0x6a09e667, 0xbb67ae85, 0x3c6ef372, 0xa54ff53a, 0x510e527f, 0x9b05688c, 0x1f83d9ab, 0x5be0cd19).

(** The body of the loop of [Transform]: one chunk. *)
Definition Transform (s : state) (chunk : list Z) : state :=
  let '(s0, s1, s2, s3, s4, s5, s6, s7) := s in
  let '(a, b, c, d, e, f, g, h) := s in
  word w0 := ReadBE32 (drop 0 chunk) in
  let '(d, h) := Round a b c d e f g h 0x428a2f98 w0 in
  word w1 := ReadBE32 (drop 4 chunk) in
  let '(c, g) := Round h a b c d e f g 0x71374491 w1 in
  word w2 := ReadBE32 (drop 8 chunk) in
  let '(b, f) := Round g h a b c d e f 0xb5c0fbcf w2 in
  word w3 := ReadBE32 (drop 12 chunk) in
  let '(a, e) := Round f g h a b c d e 0xe9b5dba5 w3 in
  word w4 := ReadBE32 (drop 16 chunk) in
  let '(h, d) := Round e f g h a b c d 0x3956c25b w4 in
  word w5 := ReadBE32 (drop 20 chunk) in
  let '(g, c) := Round d e f g h a b c 0x59f111f1 w5 in
  word w6 := ReadBE32 (drop 24 chunk) in
  let '(f, b) := Round c d e f g h a b 0x923f82a4 w6 in
  word w7 := ReadBE32 (drop 28 chunk) in
  let '(e, a) := Round b c d e f g h a 0xab1c5ed5 w7 in
  word w8 := ReadBE32 (drop 32 chunk) in
  let '(d, h) := Round a b c d e f g h 0xd807aa98 w8 in
  word w9 := ReadBE32 (drop 36 chunk) in
  let '(c, g) := Round h a b c d e f g 0x12835b01 w9 in
  word w10 := ReadBE32 (drop 40 chunk) in
  let '(b, f) := Round g h a b c d e f 0x243185be w10 in
  word w11 := ReadBE32 (drop 44 chunk) in
  let '(a, e) := Round f g h a b c d e 0x550c7dc3 w11 in
  word w12 := ReadBE32 (drop 48 chunk) in
  let '(h, d) := Round e f g h a b c d 0x72be5d74 w12 in
  word w13 := ReadBE32 (drop 52 chunk) in
  let '(g, c) := Round d e f g h a b c 0x80deb1fe w13 in
  word w14 := ReadBE32 (drop 56 chunk) in
  let '(f, b) := Round c d e f g h a b 0x9bdc06a7 w14 in
  word w15 := ReadBE32 (drop 60 chunk) in
  let '(e, a) := Round b c d e f g h a 0xc19bf174 w15 in
  word w0 := add32 w0 (add32 (add32 (sigma1 w14) w9) (sigma0 w1)) in
  let '(d, h) := Round a b c d e f g h 0xe49b69c1 w0 in
  word w1 := add32 w1 (add32 (add32 (sigma1 w15) w10) (sigma0 w2)) in
  let '(c, g) := Round h a b c d e f g 0xefbe4786 w1 in
  word w2 := add32 w2 (add32 (add32 (sigma1 w0) w11) (sigma0 w3)) in
  let '(b, f) := Round g h a b c d e f 0x0fc19dc6 w2 in
  word w3 := add32 w3 (add32 (add32 (sigma1 w1) w12) (sigma0 w4)) in
  let '(a, e) := Round f g h a b c d e 0x240ca1cc w3 in
  word w4 := add32 w4 (add32 (add32 (sigma1 w2) w13) (sigma0 w5)) in
  let '(h, d) := Round e f g h a b c d 0x2de92c6f w4 in
  word w5 := add32 w5 (add32 (add32 (sigma1 w3) w14) (sigma0 w6)) in
  let '(g, c) := Round d e f g h a b c 0x4a7484aa w5 in
  word w6 := add32 w6 (add32 (add32 (sigma1 w4) w15) (sigma0 w7)) in
  let '(f, b) := Round c d e f g h a b 0x5cb0a9dc w6 in
  word w7 := add32 w7 (add32 (add32 (sigma1 w5) w0) (sigma0 w8)) in
  let '(e, a) := Round b c d e f g h a 0x76f988da w7 in
  word w8 := add32 w8 (add32 (add32 (sigma1 w6) w1) (sigma0 w9)) in
  let '(d, h) := Round a b c d e f g h 0x983e5152 w8 in
  word w9 := add32 w9 (add32 (add32 (sigma1 w7) w2) (sigma0 w10)) in
  let '(c, g) := Round h a b c d e f g 0xa831c66d w9 in
  word w10 := add32 w10 (add32 (add32 (sigma1 w8) w3) (sigma0 w11)) in
  let '(b, f) := Round g h a b c d e f 0xb00327c8 w10 in
  word w11 := add32 w11 (add32 (add32 (sigma1 w9) w4) (sigma0 w12)) in
  let '(a, e) := Round f g h a b c d e 0xbf597fc7 w11 in
  word w12 := add32 w12 (add32 (add32 (sigma1 w10) w5) (sigma0 w13)) in
  let '(h, d) := Round e f g h a b c d 0xc6e00bf3 w12 in
  word w13 := add32 w13 (add32 (add32 (sigma1 w11) w6) (sigma0 w14)) in
  let '(g, c) := Round d e f g h a b c 0xd5a79147 w13 in
  word w14 := add32 w14 (add32 (add32 (sigma1 w12) w7) (sigma0 w15)) in
  let '(f, b) := Round c d e f g h a b 0x06ca6351 w14 in
  word w15 := add32 w15 (add32 (add32 (sigma1 w13) w8) (sigma0 w0)) in
  let '(e, a) := Round b c d e f g h a 0x14292967 w15 in
  word w0 := add32 w0 (add32 (add32 (sigma1 w14) w9) (sigma0 w1)) in
  let '(d, h) := Round a b c d e f g h 0x27b70a85 w0 in
  word w1 := add32 w1 (add32 (add32 (sigma1 w15) w10) (sigma0 w2)) in
  let '(c, g) := Round h a b c d e f g 0x2e1b2138 w1 in
  word w2 := add32 w2 (add32 (add32 (sigma1 w0) w11) (sigma0 w3)) in
  let '(b, f) := Round g h a b c d e f 0x4d2c6dfc w2 in
  word w3 := add32 w3 (add32 (add32 (sigma1 w1) w12) (sigma0 w4)) in
  let '(a, e) := Round f g h a b c d e 0x53380d13 w3 in
  word w4 := add32 w4 (add32 (add32 (sigma1 w2) w13) (sigma0 w5)) in
  let '(h, d) := Round e f g h a b c d 0x650a7354 w4 in
  word w5 := add32 w5 (add32 (add32 (sigma1 w3) w14) (sigma0 w6)) in
  let '(g, c) := Round d e f g h a b c 0x766a0abb w5 in
  word w6 := add32 w6 (add32 (add32 (sigma1 w4) w15) (sigma0 w7)) in
  let '(f, b) := Round c d e f g h a b 0x81c2c92e w6 in
  word w7 := add32 w7 (add32 (add32 (sigma1 w5) w0) (sigma0 w8)) in
  let '(e, a) := Round b c d e f g h a 0x92722c85 w7 in
  word w8 := add32 w8 (add32 (add32 (sigma1 w6) w1) (sigma0 w9)) in
  let '(d, h) := Round a b c d e f g h 0xa2bfe8a1 w8 in
  word w9 := add32 w9 (add32 (add32 (sigma1 w7) w2) (sigma0 w10)) in
  let '(c, g) := Round h a b c d e f g 0xa81a664b w9 in
  word w10 := add32 w10 (add32 (add32 (sigma1 w8) w3) (sigma0 w11)) in
  let '(b, f) := Round g h a b c d e f 0xc24b8b70 w10 in
  word w11 := add32 w11 (add32 (add32 (sigma1 w9) w4) (sigma0 w12)) in
  let '(a, e) := Round f g h a b c d e 0xc76c51a3 w11 in
  word w12 := add32 w12 (add32 (add32 (sigma1 w10) w5) (sigma0 w13)) in
  let '(h, d) := Round e f g h a b c d 0xd192e819 w12 in
  word w13 := add32 w13 (add32 (add32 (sigma1 w11) w6) (sigma0 w14)) in
  let '(g, c) := Round d e f g h a b c 0xd6990624 w13 in
  word w14 := add32 w14 (add32 (add32 (sigma1 w12) w7) (sigma0 w15)) in
  let '(f, b) := Round c d e f g h a b 0xf40e3585 w14 in
  word w15 := add32 w15 (add32 (add32 (sigma1 w13) w8) (sigma0 w0)) in
  let '(e, a) := Round b c d e f g h a 0x106aa070 w15 in
  word w0 := add32 w0 (add32 (add32 (sigma1 w14) w9) (sigma0 w1)) in
  let '(d, h) := Round a b c d e f g h 0x19a4c116 w0 in
  word w1 := add32 w1 (add32 (add32 (sigma1 w15) w10) (sigma0 w2)) in
  let '(c, g) := Round h a b c d e f g 0x1e376c08 w1 in
  word w2 := add32 w2 (add32 (add32 (sigma1 w0) w11) (sigma0 w3)) in
  let '(b, f) := Round g h a b c d e f 0x2748774c w2 in
  word w3 := add32 w3 (add32 (add32 (sigma1 w1) w12) (sigma0 w4)) in
  let '(a, e) := Round f g h a b c d e 0x34b0bcb5 w3 in
  word w4 := add32 w4 (add32 (add32 (sigma1 w2) w13) (sigma0 w5)) in
  let '(h, d) := Round e f g h a b c d 0x391c0cb3 w4 in
  word w5 := add32 w5 (add32 (add32 (sigma1 w3) w14) (sigma0 w6)) in
  let '(g, c) := Round d e f g h a b c 0x4ed8aa4a w5 in
  word w6 := add32 w6 (add32 (add32 (sigma1 w4) w15) (sigma0 w7)) in
  let '(f, b) := Round c d e f g h a b 0x5b9cca4f w6 in
  word w7 := add32 w7 (add32 (add32 (sigma1 w5) w0) (sigma0 w8)) in
  let '(e, a) := Round b c d e f g h a 0x682e6ff3 w7 in
  word w8 := add32 w8 (add32 (add32 (sigma1 w6) w1) (sigma0 w9)) in
  let '(d, h) := Round a b c d e f g h 0x748f82ee w8 in
  word w9 := add32 w9 (add32 (add32 (sigma1 w7) w2) (sigma0 w10)) in
  let '(c, g) := Round h a b c d e f g 0x78a5636f w9 in
  word w10 := add32 w10 (add32 (add32 (sigma1 w8) w3) (sigma0 w11)) in
  let '(b, f) := Round g h a b c d e f 0x84c87814 w10 in
  word w11 := add32 w11 (add32 (add32 (sigma1 w9) w4) (sigma0 w12)) in
  let '(a, e) := Round f g h a b c d e 0x8cc70208 w11 in
  word w12 := add32 w12 (add32 (add32 (sigma1 w10) w5) (sigma0 w13)) in
  let '(h, d) := Round e f g h a b c d 0x90befffa w12 in
  word w13 := add32 w13 (add32 (add32 (sigma1 w11) w6) (sigma0 w14)) in
  let '(g, c) := Round d e f g h a b c 0xa4506ceb w13 in
  let '(f, b) := Round c d e f g h a b 0xbef9a3f7 (add32 (add32 (add32 w14 (sigma1 w12)) w7) (sigma0 w15)) in
  let '(e, a) := Round b c d e f g h a 0xc67178f2 (add32 (add32 (add32 w15 (sigma1 w13)) w8) (sigma0 w0)) in
  (add32 s0 a, add32 s1 b, add32 s2 c, add32 s3 d, add32 s4 e, add32 s5 f, add32 s6 g, add32 s7 h).

Definition CSHA256 : hasher state := Hasher Initialize (replicate 64 0) 0.

Definition Write : hasher state -> list Z -> hasher state :=
  md_write 64 Transform (batch_chunks 64 Transform).

Definition output (s : state) : list Z :=
  let '(s0, s1, s2, s3, s4, s5, s6, s7) := s in
  WriteBE32 s0 ++ WriteBE32 s1 ++ WriteBE32 s2 ++ WriteBE32 s3 ++
  WriteBE32 s4 ++ WriteBE32 s5 ++ WriteBE32 s6 ++ WriteBE32 s7.

(** The hasher after [Finalize], and what it writes out. *)
Definition Finalized (h : hasher state) : hasher state :=
  md_finalize 64 Transform (batch_chunks 64 Transform)
    (fun bytes => 1 + (119 - bytes mod 64) mod 64) WriteBE64 h.

Definition Finalize (h : hasher state) : list Z := output (h_s (Finalized h)).

Definition Reset (h : hasher state) : hasher state := Hasher Initialize (h_buf h) 0.

Definition init : state := Initialize.

Definition in1 : list Z := 0x80 :: replicate 63 0.

Definition in2 : list Z := replicate 64 32 ++ 0x80 :: replicate 61 0 ++ [2; 0].

Definition out1 : state :=
  (0xe3b0c442, 0x98fc1c14, 0x9afbf4c8, 0x996fb924, 0x27ae41e4, 0x649b934c, 0xa495991b, 0x7852b855).

Definition out2 : state :=
  (0xce4153b0, 0x147c2a86, 0x3ed4298e, 0xe0676bc8, 0x79fc77a1, 0x2abe1f49, 0xb2b055df, 0x1069523e).

(** [SelfTest], given a transformation of several blocks. *)
Definition SelfTest (tr : state -> list Z -> nat -> state) : bool :=
  if bool_decide (tr init [] 0%nat <> init) then false
  else if bool_decide (tr (tr init [] 0%nat) in1 1%nat <> out1) then false
  else if bool_decide (tr init in2 2%nat <> out2) then false
  else true.

(** ** The standard *)

(** The first 32 bits of the fractional parts of the cube roots of the first
    64 primes. *)
Definition K : list Z := map (cbrt_frac 32) (primes_below 312).

#[local] Opaque K.

Definition spec_Ch (x y z : Z) : Z := Z.lxor (Z.land x y) (Z.land (Z.lnot x) z).

Definition spec_Maj (x y z : Z) : Z := Z.lxor (Z.lxor (Z.land x y) (Z.land x z)) (Z.land y z).

Definition spec_round (st : state) (k w : Z) : state :=
  let '(a, b, c, d, e, f, g, h) := st in
  let T1 := (h + Sigma1 e + spec_Ch e f g + k + w) mod 2 ^ 32 in
  let T2 := (Sigma0 a + spec_Maj a b c) mod 2 ^ 32 in
  ((T1 + T2) mod 2 ^ 32, a, b, c, (d + T1) mod 2 ^ 32, e, f, g).

(** [W_t] from the sixteen words before it. *)
Definition spec_word (win : list Z) : Z :=
  (sigma1 (nth 14 win 0) + nth 9 win 0 + sigma0 (nth 1 win 0) + nth 0 win 0) mod 2 ^ 32.

Fixpoint spec_rounds (ks win : list Z) (st : state) : state :=
  match ks with
  | [] => st
  | k :: ks => let w := spec_word win in spec_rounds ks (tail win ++ [w]) (spec_round st k w)
  end.

Definition spec_words (chunk : list Z) : list Z :=
  map (fun i => be_decode (take 4 (drop (4 * i) chunk))) (seq 0 16).

Definition spec_compress (s : state) (chunk : list Z) : state :=
  let ws := spec_words chunk in
  let st := foldl (fun st kw => spec_round st kw.1 kw.2) s (zip (take 16 K) ws) in
  let '(a, b, c, d, e, f, g, h) := spec_rounds (drop 16 K) ws st in
  let '(s0, s1, s2, s3, s4, s5, s6, s7) := s in
  ((s0 + a) mod 2 ^ 32, (s1 + b) mod 2 ^ 32, (s2 + c) mod 2 ^ 32, (s3 + d) mod 2 ^ 32,
   (s4 + e) mod 2 ^ 32, (s5 + f) mod 2 ^ 32, (s6 + g) mod 2 ^ 32, (s7 + h) mod 2 ^ 32).

(** SHA-256 of a message. *)
Definition sha256_spec (m : list Z) : list Z :=
  output (md_spec 64 spec_compress Initialize (be_encode 8) m).

(** ** The unrolled transformation is the standard's *)

Lemma Ch_spec x y z : Ch x y z = spec_Ch x y z.
Proof.
  apply Z.bits_inj'. intros n Hn. unfold Ch, spec_Ch.
  rewrite !Z.lxor_spec, !Z.land_spec, Z.lxor_spec, Z.lnot_spec by done.
  by destruct (Z.testbit x n), (Z.testbit y n), (Z.testbit z n).
Qed.

Lemma Maj_spec x y z : Maj x y z = spec_Maj x y z.
Proof.
  apply Z.bits_inj'. intros n Hn. unfold Maj, spec_Maj.
  rewrite !Z.lxor_spec, !Z.lor_spec, !Z.land_spec, Z.lor_spec.
  by destruct (Z.testbit x n), (Z.testbit y n), (Z.testbit z n).
Qed.

Lemma spec_round_Round a b c d e f g h k w :
  spec_round (a, b, c, d, e, f, g, h) k w =
  let '(d', h') := Round a b c d e f g h k w in (h', a, b, c, d', e, f, g).
Proof.
  unfold spec_round, Round, add32, uint32. rewrite <- Ch_spec, <- Maj_spec.
  repeat apply (f_equal2 pair); try done; mod_sum.
Qed.

Lemma spec_word_step w0 w1 w2 w3 w4 w5 w6 w7 w8 w9 w10 w11 w12 w13 w14 w15 :
  spec_word [w0; w1; w2; w3; w4; w5; w6; w7; w8; w9; w10; w11; w12; w13; w14; w15] =
  add32 w0 (add32 (add32 (sigma1 w14) w9) (sigma0 w1)).
Proof.
  unfold spec_word, add32, uint32. cbn [nth].
  mod_sum.
Qed.

Lemma spec_rounds_step k ks a b c d e f g h w0 w1 w2 w3 w4 w5 w6 w7 w8 w9 w10 w11 w12 w13 w14 w15 :
  spec_rounds (k :: ks) [w0; w1; w2; w3; w4; w5; w6; w7; w8; w9; w10; w11; w12; w13; w14; w15]
    (a, b, c, d, e, f, g, h) =
  with_word (add32 w0 (add32 (add32 (sigma1 w14) w9) (sigma0 w1))) (fun w =>
    let '(d', h') := Round a b c d e f g h k w in
    spec_rounds ks [w1; w2; w3; w4; w5; w6; w7; w8; w9; w10; w11; w12; w13; w14; w15; w]
      (h', a, b, c, d', e, f, g)).
Proof.
  rewrite with_word_eq. cbn [spec_rounds tail app]. rewrite spec_word_step. cbv zeta. rewrite spec_round_Round.
  by destruct (Round _ _ _ _ _ _ _ _ _ _).
Qed.

Lemma spec_first_step st k w kws :
  foldl (fun st kw => spec_round st kw.1 kw.2) st ((k, w) :: kws) =
  foldl (fun st kw => spec_round st kw.1 kw.2) (spec_round st k w) kws.
Proof. done. Qed.

Lemma spec_first_nil st :
  foldl (fun (st : state) kw => spec_round st kw.1 kw.2) st [] = st.
Proof. done. Qed.

Lemma last_word w0 w1 w9 w14 :
  add32 (add32 (add32 w0 (sigma1 w14)) w9) (sigma0 w1) =
  add32 w0 (add32 (add32 (sigma1 w14) w9) (sigma0 w1)).
Proof. unfold add32, uint32. mod_sum. Qed.

Lemma Transform_spec s chunk : Transform s chunk = spec_compress s chunk.
Proof.
  destruct s as [[[[[[[s0 s1] s2] s3] s4] s5] s6] s7].
  unfold spec_compress, spec_words.
  let k := eval vm_compute in K in replace K with k by (vm_compute; reflexivity).
  cbn [take drop seq map zip zip_with Nat.mul Nat.add].
  cbv zeta. cbv beta delta [Transform ReadBE32] iota.
  do 16 (word_step; rewrite spec_first_step, spec_round_Round; round_step).
  rewrite spec_first_nil.
  do 46 (rewrite spec_rounds_step; word_step; round_step).
  rewrite !last_word. do 2 (rewrite spec_rounds_step; rewrite with_word_eq; cbv beta; round_step). done.
Qed.

(** ** The class computes the standard's hash *)

Lemma spec_compress_take s chunk : spec_compress s (take 64 chunk) = spec_compress s chunk.
Proof.
  unfold spec_compress. replace (spec_words (take 64 chunk)) with (spec_words chunk); [done |].
  apply map_ext_in. intros i Hi%in_seq. rewrite skipn_firstn_comm, take_take. do 2 f_equal. lia.
Qed.

Lemma Transform_take s chunk : Transform s (take 64 chunk) = Transform s chunk.
Proof. rewrite !Transform_spec. apply spec_compress_take. Qed.

#[export] Instance sha256_stream : HashStream CSHA256 Write Finalized Finalize Reset sha256_spec.
Proof.
  assert (Hc : chunks_ok 64 Transform Initialize (batch_chunks 64 Transform))
    by (apply batch_chunks_ok; [lia | apply Transform_take]).
  assert (HB : (Z.of_nat 64 | 2 ^ 64)) by (by exists (2 ^ 58)).
  refine {| absorbs := has_absorbed 64 Transform Initialize |}.
  - apply has_absorbed_init; [lia | done].
  - intros h m data Hh. apply md_write_absorbed; [lia | done ..].
  - intros h m Hh. unfold Finalize, Finalized, sha256_spec. f_equal.
    rewrite (md_finalize_spec 64 Transform Initialize) with (m := m); [| lia | done .. |].
    + apply md_spec_ext; [apply Transform_spec | intros n]. unfold WriteBE64. by rewrite uint64_idem.
    + destruct Hh as (_ & -> & _). apply padlen_64.
  - intros h m Hh. apply has_absorbed_init; [lia |].
    apply (md_finalize_length 64 Transform Initialize) with (m := m); [lia | done ..].
Qed.

(** C38. However the message is cut into [Write] calls, [CSHA256] outputs the
    SHA-256 hash of FIPS 180-4 of the whole message: the unrolled transformation
    with its sixteen reused words is the standard's compression function, and the
    buffering and the padding written through [Write] are the standard's padding. *)
Theorem CSHA256_correct ds : Finalize (foldl Write CSHA256 ds) = sha256_spec (concat ds).
Proof. apply hash_stream. Qed.

(** The start-up assertion of [SHA256AutoDetect] on the portable code holds. *)
Lemma SelfTest_Transform : SelfTest (Transform_blocks 64 Transform) = true.
Proof. vm_compute. reflexivity. Qed.

(** FIPS 180-4, example B.1. *)
Example sha256_abc :
  be_decode (Finalize (Write CSHA256 [0x61; 0x62; 0x63])) =
  0xba7816bf8f01cfea414140de5dae2223b00361a396177a9cb410ff61f20015ad.
Proof. vm_compute. reflexivity. Qed.
