(* ===== verification/Sha512.v ===== *)
(** * SHA-512

    [src/crypto/sha512.cpp]: the unrolled transformation on 64-bit words and the
    class [CSHA512] with its 128-byte blocks, and their equality with FIPS 180-4. *)

From S2P Require Import Prelude Common MDHash.

Definition Ch (x y z : Z) : Z := Z.lxor z (Z.land x (Z.lxor y z)).

Definition Maj (x y z : Z) : Z := Z.lor (Z.land x y) (Z.land z (Z.lor x y)).

Definition Sigma0 (x : Z) : Z := Z.lxor (Z.lxor (rotr64 x 28) (rotr64 x 34)) (rotr64 x 39).

Definition Sigma1 (x : Z) : Z := Z.lxor (Z.lxor (rotr64 x 14) (rotr64 x 18)) (rotr64 x 41).

Definition sigma0 (x : Z) : Z := Z.lxor (Z.lxor (rotr64 x 1) (rotr64 x 8)) (Z.shiftr x 7).

Definition sigma1 (x : Z) : Z := Z.lxor (Z.lxor (rotr64 x 19) (rotr64 x 61)) (Z.shiftr x 6).

(** One round: the new values of [d] and [h]. *)
Definition Round (a b c d e f g h k w : Z) : Z * Z :=
  let t1 := add64 (add64 (add64 (add64 h (Sigma1 e)) (Ch e f g)) k) w in
  let t2 := add64 (Sigma0 a) (Maj a b c) in
  (add64 d t1, add64 t1 t2).

(** The array [s[8]]. *)
Definition state : Type := Z * Z * Z * Z * Z * Z * Z * Z.

Definition Initialize : state :=
  (0x6a09e667f3bcc908, 0xbb67ae8584caa73b, 0x3c6ef372fe94f82b, 0xa54ff53a5f1d36f1,
   0x510e527fade682d1, 0x9b05688c2b3e6c1f, 0x1f83d9abfb41bd6b, 0x5be0cd19137e2179).

(** One 128-byte chunk. *)
Definition Transform (s : state) (chunk : list Z) : state :=
  let '(s0, s1, s2, s3, s4, s5, s6, s7) := s in
  let '(a, b, c, d, e, f, g, h) := s in
  word w0 := ReadBE64 (drop 0 chunk) in
  let '(d, h) := Round a b c d e f g h 0x428a2f98d728ae22 w0 in
  word w1 := ReadBE64 (drop 8 chunk) in
  let '(c, g) := Round h a b c d e f g 0x7137449123ef65cd w1 in
  word w2 := ReadBE64 (drop 16 chunk) in
  let '(b, f) := Round g h a b c d e f 0xb5c0fbcfec4d3b2f w2 in
  word w3 := ReadBE64 (drop 24 chunk) in
  let '(a, e) := Round f g h a b c d e 0xe9b5dba58189dbbc w3 in
  word w4 := ReadBE64 (drop 32 chunk) in
  let '(h, d) := Round e f g h a b c d 0x3956c25bf348b538 w4 in
  word w5 := ReadBE64 (drop 40 chunk) in
  let '(g, c) := Round d e f g h a b c 0x59f111f1b605d019 w5 in
  word w6 := ReadBE64 (drop 48 chunk) in
  let '(f, b) := Round c d e f g h a b 0x923f82a4af194f9b w6 in
  word w7 := ReadBE64 (drop 56 chunk) in
  let '(e, a) := Round b c d e f g h a 0xab1c5ed5da6d8118 w7 in
  word w8 := ReadBE64 (drop 64 chunk) in
  let '(d, h) := Round a b c d e f g h 0xd807aa98a3030242 w8 in
  word w9 := ReadBE64 (drop 72 chunk) in
  let '(c, g) := Round h a b c d e f g 0x12835b0145706fbe w9 in
  word w10 := ReadBE64 (drop 80 chunk) in
  let '(b, f) := Round g h a b c d e f 0x243185be4ee4b28c w10 in
  word w11 := ReadBE64 (drop 88 chunk) in
  let '(a, e) := Round f g h a b c d e 0x550c7dc3d5ffb4e2 w11 in
  word w12 := ReadBE64 (drop 96 chunk) in
  let '(h, d) := Round e f g h a b c d 0x72be5d74f27b896f w12 in
  word w13 := ReadBE64 (drop 104 chunk) in
  let '(g, c) := Round d e f g h a b c 0x80deb1fe3b1696b1 w13 in
  word w14 := ReadBE64 (drop 112 chunk) in
  let '(f, b) := Round c d e f g h a b 0x9bdc06a725c71235 w14 in
  word w15 := ReadBE64 (drop 120 chunk) in
  let '(e, a) := Round b c d e f g h a 0xc19bf174cf692694 w15 in
  word w0 := add64 w0 (add64 (add64 (sigma1 w14) w9) (sigma0 w1)) in
  let '(d, h) := Round a b c d e f g h 0xe49b69c19ef14ad2 w0 in
  word w1 := add64 w1 (add64 (add64 (sigma1 w15) w10) (sigma0 w2)) in
  let '(c, g) := Round h a b c d e f g 0xefbe4786384f25e3 w1 in
  word w2 := add64 w2 (add64 (add64 (sigma1 w0) w11) (sigma0 w3)) in
  let '(b, f) := Round g h a b c d e f 0x0fc19dc68b8cd5b5 w2 in
  word w3 := add64 w3 (add64 (add64 (sigma1 w1) w12) (sigma0 w4)) in
  let '(a, e) := Round f g h a b c d e 0x240ca1cc77ac9c65 w3 in
  word w4 := add64 w4 (add64 (add64 (sigma1 w2) w13) (sigma0 w5)) in
  let '(h, d) := Round e f g h a b c d 0x2de92c6f592b0275 w4 in
  word w5 := add64 w5 (add64 (add64 (sigma1 w3) w14) (sigma0 w6)) in
  let '(g, c) := Round d e f g h a b c 0x4a7484aa6ea6e483 w5 in
  word w6 := add64 w6 (add64 (add64 (sigma1 w4) w15) (sigma0 w7)) in
  let '(f, b) := Round c d e f g h a b 0x5cb0a9dcbd41fbd4 w6 in
  word w7 := add64 w7 (add64 (add64 (sigma1 w5) w0) (sigma0 w8)) in
  let '(e, a) := Round b c d e f g h a 0x76f988da831153b5 w7 in
  word w8 := add64 w8 (add64 (add64 (sigma1 w6) w1) (sigma0 w9)) in
  let '(d, h) := Round a b c d e f g h 0x983e5152ee66dfab w8 in
  word w9 := add64 w9 (add64 (add64 (sigma1 w7) w2) (sigma0 w10)) in
  let '(c, g) := Round h a b c d e f g 0xa831c66d2db43210 w9 in
  word w10 := add64 w10 (add64 (add64 (sigma1 w8) w3) (sigma0 w11)) in
  let '(b, f) := Round g h a b c d e f 0xb00327c898fb213f w10 in
  word w11 := add64 w11 (add64 (add64 (sigma1 w9) w4) (sigma0 w12)) in
  let '(a, e) := Round f g h a b c d e 0xbf597fc7beef0ee4 w11 in
  word w12 := add64 w12 (add64 (add64 (sigma1 w10) w5) (sigma0 w13)) in
  let '(h, d) := Round e f g h a b c d 0xc6e00bf33da88fc2 w12 in
  word w13 := add64 w13 (add64 (add64 (sigma1 w11) w6) (sigma0 w14)) in
  let '(g, c) := Round d e f g h a b c 0xd5a79147930aa725 w13 in
  word w14 := add64 w14 (add64 (add64 (sigma1 w12) w7) (sigma0 w15)) in
  let '(f, b) := Round c d e f g h a b 0x06ca6351e003826f w14 in
  word w15 := add64 w15 (add64 (add64 (sigma1 w13) w8) (sigma0 w0)) in
  let '(e, a) := Round b c d e f g h a 0x142929670a0e6e70 w15 in
  word w0 := add64 w0 (add64 (add64 (sigma1 w14) w9) (sigma0 w1)) in
  let '(d, h) := Round a b c d e f g h 0x27b70a8546d22ffc w0 in
  word w1 := add64 w1 (add64 (add64 (sigma1 w15) w10) (sigma0 w2)) in
  let '(c, g) := Round h a b c d e f g 0x2e1b21385c26c926 w1 in
  word w2 := add64 w2 (add64 (add64 (sigma1 w0) w11) (sigma0 w3)) in
  let '(b, f) := Round g h a b c d e f 0x4d2c6dfc5ac42aed w2 in
  word w3 := add64 w3 (add64 (add64 (sigma1 w1) w12) (sigma0 w4)) in
  let '(a, e) := Round f g h a b c d e 0x53380d139d95b3df w3 in
  word w4 := add64 w4 (add64 (add64 (sigma1 w2) w13) (sigma0 w5)) in
  let '(h, d) := Round e f g h a b c d 0x650a73548baf63de w4 in
  word w5 := add64 w5 (add64 (add64 (sigma1 w3) w14) (sigma0 w6)) in
  let '(g, c) := Round d e f g h a b c 0x766a0abb3c77b2a8 w5 in
  word w6 := add64 w6 (add64 (add64 (sigma1 w4) w15) (sigma0 w7)) in
  let '(f, b) := Round c d e f g h a b 0x81c2c92e47edaee6 w6 in
  word w7 := add64 w7 (add64 (add64 (sigma1 w5) w0) (sigma0 w8)) in
  let '(e, a) := Round b c d e f g h a 0x92722c851482353b w7 in
  word w8 := add64 w8 (add64 (add64 (sigma1 w6) w1) (sigma0 w9)) in
  let '(d, h) := Round a b c d e f g h 0xa2bfe8a14cf10364 w8 in
  word w9 := add64 w9 (add64 (add64 (sigma1 w7) w2) (sigma0 w10)) in
  let '(c, g) := Round h a b c d e f g 0xa81a664bbc423001 w9 in
  word w10 := add64 w10 (add64 (add64 (sigma1 w8) w3) (sigma0 w11)) in
  let '(b, f) := Round g h a b c d e f 0xc24b8b70d0f89791 w10 in
  word w11 := add64 w11 (add64 (add64 (sigma1 w9) w4) (sigma0 w12)) in
  let '(a, e) := Round f g h a b c d e 0xc76c51a30654be30 w11 in
  word w12 := add64 w12 (add64 (add64 (sigma1 w10) w5) (sigma0 w13)) in
  let '(h, d) := Round e f g h a b c d 0xd192e819d6ef5218 w12 in
  word w13 := add64 w13 (add64 (add64 (sigma1 w11) w6) (sigma0 w14)) in
  let '(g, c) := Round d e f g h a b c 0xd69906245565a910 w13 in
  word w14 := add64 w14 (add64 (add64 (sigma1 w12) w7) (sigma0 w15)) in
  let '(f, b) := Round c d e f g h a b 0xf40e35855771202a w14 in
  word w15 := add64 w15 (add64 (add64 (sigma1 w13) w8) (sigma0 w0)) in
  let '(e, a) := Round b c d e f g h a 0x106aa07032bbd1b8 w15 in
  word w0 := add64 w0 (add64 (add64 (sigma1 w14) w9) (sigma0 w1)) in
  let '(d, h) := Round a b c d e f g h 0x19a4c116b8d2d0c8 w0 in
  word w1 := add64 w1 (add64 (add64 (sigma1 w15) w10) (sigma0 w2)) in
  let '(c, g) := Round h a b c d e f g 0x1e376c085141ab53 w1 in
  word w2 := add64 w2 (add64 (add64 (sigma1 w0) w11) (sigma0 w3)) in
  let '(b, f) := Round g h a b c d e f 0x2748774cdf8eeb99 w2 in
  word w3 := add64 w3 (add64 (add64 (sigma1 w1) w12) (sigma0 w4)) in
  let '(a, e) := Round f g h a b c d e 0x34b0bcb5e19b48a8 w3 in
  word w4 := add64 w4 (add64 (add64 (sigma1 w2) w13) (sigma0 w5)) in
  let '(h, d) := Round e f g h a b c d 0x391c0cb3c5c95a63 w4 in
  word w5 := add64 w5 (add64 (add64 (sigma1 w3) w14) (sigma0 w6)) in
  let '(g, c) := Round d e f g h a b c 0x4ed8aa4ae3418acb w5 in
  word w6 := add64 w6 (add64 (add64 (sigma1 w4) w15) (sigma0 w7)) in
  let '(f, b) := Round c d e f g h a b 0x5b9cca4f7763e373 w6 in
  word w7 := add64 w7 (add64 (add64 (sigma1 w5) w0) (sigma0 w8)) in
  let '(e, a) := Round b c d e f g h a 0x682e6ff3d6b2b8a3 w7 in
  word w8 := add64 w8 (add64 (add64 (sigma1 w6) w1) (sigma0 w9)) in
  let '(d, h) := Round a b c d e f g h 0x748f82ee5defb2fc w8 in
  word w9 := add64 w9 (add64 (add64 (sigma1 w7) w2) (sigma0 w10)) in
  let '(c, g) := Round h a b c d e f g 0x78a5636f43172f60 w9 in
  word w10 := add64 w10 (add64 (add64 (sigma1 w8) w3) (sigma0 w11)) in
  let '(b, f) := Round g h a b c d e f 0x84c87814a1f0ab72 w10 in
  word w11 := add64 w11 (add64 (add64 (sigma1 w9) w4) (sigma0 w12)) in
  let '(a, e) := Round f g h a b c d e 0x8cc702081a6439ec w11 in
  word w12 := add64 w12 (add64 (add64 (sigma1 w10) w5) (sigma0 w13)) in
  let '(h, d) := Round e f g h a b c d 0x90befffa23631e28 w12 in
  word w13 := add64 w13 (add64 (add64 (sigma1 w11) w6) (sigma0 w14)) in
  let '(g, c) := Round d e f g h a b c 0xa4506cebde82bde9 w13 in
  word w14 := add64 w14 (add64 (add64 (sigma1 w12) w7) (sigma0 w15)) in
  let '(f, b) := Round c d e f g h a b 0xbef9a3f7b2c67915 w14 in
  word w15 := add64 w15 (add64 (add64 (sigma1 w13) w8) (sigma0 w0)) in
  let '(e, a) := Round b c d e f g h a 0xc67178f2e372532b w15 in
  word w0 := add64 w0 (add64 (add64 (sigma1 w14) w9) (sigma0 w1)) in
  let '(d, h) := Round a b c d e f g h 0xca273eceea26619c w0 in
  word w1 := add64 w1 (add64 (add64 (sigma1 w15) w10) (sigma0 w2)) in
  let '(c, g) := Round h a b c d e f g 0xd186b8c721c0c207 w1 in
  word w2 := add64 w2 (add64 (add64 (sigma1 w0) w11) (sigma0 w3)) in
  let '(b, f) := Round g h a b c d e f 0xeada7dd6cde0eb1e w2 in
  word w3 := add64 w3 (add64 (add64 (sigma1 w1) w12) (sigma0 w4)) in
  let '(a, e) := Round f g h a b c d e 0xf57d4f7fee6ed178 w3 in
  word w4 := add64 w4 (add64 (add64 (sigma1 w2) w13) (sigma0 w5)) in
  let '(h, d) := Round e f g h a b c d 0x06f067aa72176fba w4 in
  word w5 := add64 w5 (add64 (add64 (sigma1 w3) w14) (sigma0 w6)) in
  let '(g, c) := Round d e f g h a b c 0x0a637dc5a2c898a6 w5 in
  word w6 := add64 w6 (add64 (add64 (sigma1 w4) w15) (sigma0 w7)) in
  let '(f, b) := Round c d e f g h a b 0x113f9804bef90dae w6 in
  word w7 := add64 w7 (add64 (add64 (sigma1 w5) w0) (sigma0 w8)) in
  let '(e, a) := Round b c d e f g h a 0x1b710b35131c471b w7 in
  word w8 := add64 w8 (add64 (add64 (sigma1 w6) w1) (sigma0 w9)) in
  let '(d, h) := Round a b c d e f g h 0x28db77f523047d84 w8 in
  word w9 := add64 w9 (add64 (add64 (sigma1 w7) w2) (sigma0 w10)) in
  let '(c, g) := Round h a b c d e f g 0x32caab7b40c72493 w9 in
  word w10 := add64 w10 (add64 (add64 (sigma1 w8) w3) (sigma0 w11)) in
  let '(b, f) := Round g h a b c d e f 0x3c9ebe0a15c9bebc w10 in
  word w11 := add64 w11 (add64 (add64 (sigma1 w9) w4) (sigma0 w12)) in
  let '(a, e) := Round f g h a b c d e 0x431d67c49c100d4c w11 in
  word w12 := add64 w12 (add64 (add64 (sigma1 w10) w5) (sigma0 w13)) in
  let '(h, d) := Round e f g h a b c d 0x4cc5d4becb3e42b6 w12 in
  word w13 := add64 w13 (add64 (add64 (sigma1 w11) w6) (sigma0 w14)) in
  let '(g, c) := Round d e f g h a b c 0x597f299cfc657e2a w13 in
  let '(f, b) := Round c d e f g h a b 0x5fcb6fab3ad6faec (add64 (add64 (add64 w14 (sigma1 w12)) w7) (sigma0 w15)) in
  let '(e, a) := Round b c d e f g h a 0x6c44198c4a475817 (add64 (add64 (add64 w15 (sigma1 w13)) w8) (sigma0 w0)) in
  (add64 s0 a, add64 s1 b, add64 s2 c, add64 s3 d, add64 s4 e, add64 s5 f, add64 s6 g, add64 s7 h).

Definition CSHA512 : hasher state := Hasher Initialize (replicate 128 0) 0.

Definition Write : hasher state -> list Z -> hasher state :=
  md_write 128 Transform (loop_chunks 128 Transform).

Definition output (s : state) : list Z :=
  let '(s0, s1, s2, s3, s4, s5, s6, s7) := s in
  WriteBE64 s0 ++ WriteBE64 s1 ++ WriteBE64 s2 ++ WriteBE64 s3 ++
  WriteBE64 s4 ++ WriteBE64 s5 ++ WriteBE64 s6 ++ WriteBE64 s7.

(** The hasher after [Finalize], and what it writes out. *)
Definition Finalized (h : hasher state) : hasher state :=
  md_finalize 128 Transform (loop_chunks 128 Transform)
    (fun bytes => 1 + (239 - bytes mod 128) mod 128) (fun size => replicate 8 0 ++ WriteBE64 size) h.

Definition Finalize (h : hasher state) : list Z := output (h_s (Finalized h)).

Definition Reset (h : hasher state) : hasher state := Hasher Initialize (h_buf h) 0.

(** ** The standard *)

(** The first 64 bits of the fractional parts of the cube roots of the first
    80 primes. *)
Definition K : list Z := map (cbrt_frac 64) (primes_below 410).

#[local] Opaque K.

Definition spec_Ch (x y z : Z) : Z := Z.lxor (Z.land x y) (Z.land (Z.lnot x) z).

Definition spec_Maj (x y z : Z) : Z := Z.lxor (Z.lxor (Z.land x y) (Z.land x z)) (Z.land y z).

Definition spec_round (st : state) (k w : Z) : state :=
  let '(a, b, c, d, e, f, g, h) := st in
  let T1 := (h + Sigma1 e + spec_Ch e f g + k + w) mod 2 ^ 64 in
  let T2 := (Sigma0 a + spec_Maj a b c) mod 2 ^ 64 in
  ((T1 + T2) mod 2 ^ 64, a, b, c, (d + T1) mod 2 ^ 64, e, f, g).

(** [W_t] from the sixteen words before it. *)
Definition spec_word (win : list Z) : Z :=
  (sigma1 (nth 14 win 0) + nth 9 win 0 + sigma0 (nth 1 win 0) + nth 0 win 0) mod 2 ^ 64.

Fixpoint spec_rounds (ks win : list Z) (st : state) : state :=
  match ks with
  | [] => st
  | k :: ks => let w := spec_word win in spec_rounds ks (tail win ++ [w]) (spec_round st k w)
  end.

Definition spec_words (chunk : list Z) : list Z :=
  map (fun i => be_decode (take 8 (drop (8 * i) chunk))) (seq 0 16).

Definition spec_compress (s : state) (chunk : list Z) : state :=
  let ws := spec_words chunk in
  let st := foldl (fun st kw => spec_round st kw.1 kw.2) s (zip (take 16 K) ws) in
  let '(a, b, c, d, e, f, g, h) := spec_rounds (drop 16 K) ws st in
  let '(s0, s1, s2, s3, s4, s5, s6, s7) := s in
  ((s0 + a) mod 2 ^ 64, (s1 + b) mod 2 ^ 64, (s2 + c) mod 2 ^ 64, (s3 + d) mod 2 ^ 64,
   (s4 + e) mod 2 ^ 64, (s5 + f) mod 2 ^ 64, (s6 + g) mod 2 ^ 64, (s7 + h) mod 2 ^ 64).

(** SHA-512 of a message. *)
Definition sha512_spec (m : list Z) : list Z :=
  output (md_spec 128 spec_compress Initialize (be_encode 16) m).

(** ** The unrolled transformation is the standard's *)

Lemma Ch_spec512 x y z : Ch x y z = spec_Ch x y z.
Proof.
  apply Z.bits_inj'. intros n Hn. unfold Ch, spec_Ch.
  rewrite !Z.lxor_spec, !Z.land_spec, Z.lxor_spec, Z.lnot_spec by done.
  by destruct (Z.testbit x n), (Z.testbit y n), (Z.testbit z n).
Qed.

Lemma Maj_spec512 x y z : Maj x y z = spec_Maj x y z.
Proof.
  apply Z.bits_inj'. intros n Hn. unfold Maj, spec_Maj.
  rewrite !Z.lxor_spec, !Z.lor_spec, !Z.land_spec, Z.lor_spec.
  by destruct (Z.testbit x n), (Z.testbit y n), (Z.testbit z n).
Qed.

Lemma spec_round_Round512 a b c d e f g h k w :
  spec_round (a, b, c, d, e, f, g, h) k w =
  let '(d', h') := Round a b c d e f g h k w in (h', a, b, c, d', e, f, g).
Proof.
  unfold spec_round, Round, add64, uint64. rewrite <- Ch_spec512, <- Maj_spec512.
  repeat apply (f_equal2 pair); try done; mod_sum.
Qed.

Lemma spec_word_step512 w0 w1 w2 w3 w4 w5 w6 w7 w8 w9 w10 w11 w12 w13 w14 w15 :
  spec_word [w0; w1; w2; w3; w4; w5; w6; w7; w8; w9; w10; w11; w12; w13; w14; w15] =
  add64 w0 (add64 (add64 (sigma1 w14) w9) (sigma0 w1)).
Proof.
  unfold spec_word, add64, uint64. cbn [nth].
  mod_sum.
Qed.

Lemma spec_rounds_step512 k ks a b c d e f g h w0 w1 w2 w3 w4 w5 w6 w7 w8 w9 w10 w11 w12 w13 w14 w15 :
  spec_rounds (k :: ks) [w0; w1; w2; w3; w4; w5; w6; w7; w8; w9; w10; w11; w12; w13; w14; w15]
    (a, b, c, d, e, f, g, h) =
  with_word (add64 w0 (add64 (add64 (sigma1 w14) w9) (sigma0 w1))) (fun w =>
    let '(d', h') := Round a b c d e f g h k w in
    spec_rounds ks [w1; w2; w3; w4; w5; w6; w7; w8; w9; w10; w11; w12; w13; w14; w15; w]
      (h', a, b, c, d', e, f, g)).
Proof.
  rewrite with_word_eq. cbn [spec_rounds tail app]. rewrite spec_word_step512. cbv zeta. rewrite spec_round_Round512.
  by destruct (Round _ _ _ _ _ _ _ _ _ _).
Qed.

Lemma spec_first_step512 st k w kws :
  foldl (fun st kw => spec_round st kw.1 kw.2) st ((k, w) :: kws) =
  foldl (fun st kw => spec_round st kw.1 kw.2) (spec_round st k w) kws.
Proof. done. Qed.

Lemma spec_first_nil512 st :
  foldl (fun (st : state) kw => spec_round st kw.1 kw.2) st [] = st.
Proof. done. Qed.

Lemma last_word512 w0 w1 w9 w14 :
  add64 (add64 (add64 w0 (sigma1 w14)) w9) (sigma0 w1) =
  add64 w0 (add64 (add64 (sigma1 w14) w9) (sigma0 w1)).
Proof. unfold add64, uint64. mod_sum. Qed.

Lemma Transform_spec512 s chunk : Transform s chunk = spec_compress s chunk.
Proof.
  destruct s as [[[[[[[s0 s1] s2] s3] s4] s5] s6] s7].
  unfold spec_compress, spec_words.
  let k := eval vm_compute in K in replace K with k by (vm_compute; reflexivity).
  cbn [take drop seq map zip zip_with Nat.mul Nat.add].
  cbv zeta. cbv beta delta [Transform ReadBE64] iota.
  do 16 (word_step; rewrite spec_first_step512, spec_round_Round512; round_step).
  rewrite spec_first_nil512.
  do 62 (rewrite spec_rounds_step512; word_step; round_step).
  rewrite !last_word512. do 2 (rewrite spec_rounds_step512; rewrite with_word_eq; cbv beta; round_step). done.
Qed.

(** ** The class computes the standard's hash *)

Lemma spec_compress_take512 s chunk : spec_compress s (take 128 chunk) = spec_compress s chunk.
Proof.
  unfold spec_compress. replace (spec_words (take 128 chunk)) with (spec_words chunk); [done |].
  apply map_ext_in. intros i Hi%in_seq. rewrite skipn_firstn_comm, take_take. do 2 f_equal. lia.
Qed.

Lemma Transform_take512 s chunk : Transform s (take 128 chunk) = Transform s chunk.
Proof. rewrite !Transform_spec512. apply spec_compress_take512. Qed.

#[export] Instance sha512_stream : HashStream CSHA512 Write Finalized Finalize Reset sha512_spec.
Proof.
  assert (Hc : chunks_ok 128 Transform Initialize (loop_chunks 128 Transform))
    by (apply loop_chunks_ok; [lia | apply Transform_take512]).
  assert (HB : (Z.of_nat 128 | 2 ^ 64)) by (by exists (2 ^ 57)).
  refine {| absorbs := has_absorbed 128 Transform Initialize |}.
  - apply has_absorbed_init; [lia | done].
  - intros h m data Hh. apply md_write_absorbed; [lia | done ..].
  - intros h m Hh. unfold Finalize, Finalized, sha512_spec. f_equal.
    rewrite (md_finalize_spec 128 Transform Initialize) with (m := m); [| lia | done .. |].
    + apply md_spec_ext; [apply Transform_spec512 | intros n]. unfold WriteBE64.
      rewrite uint64_idem. symmetry. apply (be_encode_zeros 8 8), uint64_range.
    + destruct Hh as (_ & -> & _). apply padlen_128.
  - intros h m Hh. apply has_absorbed_init; [lia |].
    apply (md_finalize_length 128 Transform Initialize) with (m := m); [lia | done ..].
Qed.

(** However the message is cut into [Write] calls, [CSHA512] outputs the
    SHA-512 hash of FIPS 180-4 of the whole message: the unrolled transformation
    with its sixteen reused words is the standard's compression function, and the
    buffering and the padding written through [Write] are the standard's padding. *)
Theorem CSHA512_correct ds : Finalize (foldl Write CSHA512 ds) = sha512_spec (concat ds).
Proof. apply hash_stream. Qed.

(** FIPS 180-4, example C.1. *)
Example sha512_abc :
  be_decode (Finalize (Write CSHA512 [0x61; 0x62; 0x63])) =
  0xddaf35a193617abacc417349ae20413112e6fa4e89a97ea20a9eeee64b55d39a2192992a274fc1a836ba3c23a3feebbd454d4423643ce80e2a9ac94fa54ca49f.
Proof. vm_compute. reflexivity. Qed.
