(* ===== verification/Sha1.v ===== *)
(** * SHA-1

    [src/crypto/sha1.cpp]: the unrolled transformation and the class [CSHA1], and
    their equality with the compression function and padding of FIPS 180-4. *)

From S2P Require Import Prelude Common MDHash.

(** One round: the new values of [b] and [e]. *)
Definition Round (a b c d e f k w : Z) : Z * Z :=
  (Z.lor (uint32 (Z.shiftl b 30)) (Z.shiftr b 2),
   add32 e (add32 (add32 (add32 (Z.lor (uint32 (Z.shiftl a 5)) (Z.shiftr a 27)) f) k) w)).

Definition f1 (b c d : Z) : Z := Z.lxor d (Z.land b (Z.lxor c d)).

Definition f2 (b c d : Z) : Z := Z.lxor (Z.lxor b c) d.

Definition f3 (b c d : Z) : Z := Z.lor (Z.land b c) (Z.land d (Z.lor b c)).

Definition left (x : Z) : Z := Z.lor (uint32 (Z.shiftl x 1)) (Z.shiftr x 31).

(** The array [s[5]]. *)
Definition state : Type := Z * Z * Z * Z * Z.

Definition Initialize : state := (0x67452301, 0xEFCDAB89, 0x98BADCFE, 0x10325476, 0xC3D2E1F0).

Definition k1 : Z := 0x5A827999.

Definition k2 : Z := 0x6ED9EBA1.

Definition k3 : Z := 0x8F1BBCDC.

Definition k4 : Z := 0xCA62C1D6.

(** One 64-byte chunk. *)
Definition Transform (s : state) (chunk : list Z) : state :=
  let '(s0, s1, s2, s3, s4) := s in
  let '(a, b, c, d, e) := s in
  word w0 := ReadBE32 (drop 0 chunk) in
  let '(b, e) := Round a b c d e (f1 b c d) k1 w0 in
  word w1 := ReadBE32 (drop 4 chunk) in
  let '(a, d) := Round e a b c d (f1 a b c) k1 w1 in
  word w2 := ReadBE32 (drop 8 chunk) in
  let '(e, c) := Round d e a b c (f1 e a b) k1 w2 in
  word w3 := ReadBE32 (drop 12 chunk) in
  let '(d, b) := Round c d e a b (f1 d e a) k1 w3 in
  word w4 := ReadBE32 (drop 16 chunk) in
  let '(c, a) := Round b c d e a (f1 c d e) k1 w4 in
  word w5 := ReadBE32 (drop 20 chunk) in
  let '(b, e) := Round a b c d e (f1 b c d) k1 w5 in
  word w6 := ReadBE32 (drop 24 chunk) in
  let '(a, d) := Round e a b c d (f1 a b c) k1 w6 in
  word w7 := ReadBE32 (drop 28 chunk) in
  let '(e, c) := Round d e a b c (f1 e a b) k1 w7 in
  word w8 := ReadBE32 (drop 32 chunk) in
  let '(d, b) := Round c d e a b (f1 d e a) k1 w8 in
  word w9 := ReadBE32 (drop 36 chunk) in
  let '(c, a) := Round b c d e a (f1 c d e) k1 w9 in
  word w10 := ReadBE32 (drop 40 chunk) in
  let '(b, e) := Round a b c d e (f1 b c d) k1 w10 in
  word w11 := ReadBE32 (drop 44 chunk) in
  let '(a, d) := Round e a b c d (f1 a b c) k1 w11 in
  word w12 := ReadBE32 (drop 48 chunk) in
  let '(e, c) := Round d e a b c (f1 e a b) k1 w12 in
  word w13 := ReadBE32 (drop 52 chunk) in
  let '(d, b) := Round c d e a b (f1 d e a) k1 w13 in
  word w14 := ReadBE32 (drop 56 chunk) in
  let '(c, a) := Round b c d e a (f1 c d e) k1 w14 in
  word w15 := ReadBE32 (drop 60 chunk) in
  let '(b, e) := Round a b c d e (f1 b c d) k1 w15 in
  word w0 := left (Z.lxor (Z.lxor (Z.lxor w0 w13) w8) w2) in
  let '(a, d) := Round e a b c d (f1 a b c) k1 w0 in
  word w1 := left (Z.lxor (Z.lxor (Z.lxor w1 w14) w9) w3) in
  let '(e, c) := Round d e a b c (f1 e a b) k1 w1 in
  word w2 := left (Z.lxor (Z.lxor (Z.lxor w2 w15) w10) w4) in
  let '(d, b) := Round c d e a b (f1 d e a) k1 w2 in
  word w3 := left (Z.lxor (Z.lxor (Z.lxor w3 w0) w11) w5) in
  let '(c, a) := Round b c d e a (f1 c d e) k1 w3 in
  word w4 := left (Z.lxor (Z.lxor (Z.lxor w4 w1) w12) w6) in
  let '(b, e) := Round a b c d e (f2 b c d) k2 w4 in
  word w5 := left (Z.lxor (Z.lxor (Z.lxor w5 w2) w13) w7) in
  let '(a, d) := Round e a b c d (f2 a b c) k2 w5 in
  word w6 := left (Z.lxor (Z.lxor (Z.lxor w6 w3) w14) w8) in
  let '(e, c) := Round d e a b c (f2 e a b) k2 w6 in
  word w7 := left (Z.lxor (Z.lxor (Z.lxor w7 w4) w15) w9) in
  let '(d, b) := Round c d e a b (f2 d e a) k2 w7 in
  word w8 := left (Z.lxor (Z.lxor (Z.lxor w8 w5) w0) w10) in
  let '(c, a) := Round b c d e a (f2 c d e) k2 w8 in
  word w9 := left (Z.lxor (Z.lxor (Z.lxor w9 w6) w1) w11) in
  let '(b, e) := Round a b c d e (f2 b c d) k2 w9 in
  word w10 := left (Z.lxor (Z.lxor (Z.lxor w10 w7) w2) w12) in
  let '(a, d) := Round e a b c d (f2 a b c) k2 w10 in
  word w11 := left (Z.lxor (Z.lxor (Z.lxor w11 w8) w3) w13) in
  let '(e, c) := Round d e a b c (f2 e a b) k2 w11 in
  word w12 := left (Z.lxor (Z.lxor (Z.lxor w12 w9) w4) w14) in
  let '(d, b) := Round c d e a b (f2 d e a) k2 w12 in
  word w13 := left (Z.lxor (Z.lxor (Z.lxor w13 w10) w5) w15) in
  let '(c, a) := Round b c d e a (f2 c d e) k2 w13 in
  word w14 := left (Z.lxor (Z.lxor (Z.lxor w14 w11) w6) w0) in
  let '(b, e) := Round a b c d e (f2 b c d) k2 w14 in
  word w15 := left (Z.lxor (Z.lxor (Z.lxor w15 w12) w7) w1) in
  let '(a, d) := Round e a b c d (f2 a b c) k2 w15 in
  word w0 := left (Z.lxor (Z.lxor (Z.lxor w0 w13) w8) w2) in
  let '(e, c) := Round d e a b c (f2 e a b) k2 w0 in
  word w1 := left (Z.lxor (Z.lxor (Z.lxor w1 w14) w9) w3) in
  let '(d, b) := Round c d e a b (f2 d e a) k2 w1 in
  word w2 := left (Z.lxor (Z.lxor (Z.lxor w2 w15) w10) w4) in
  let '(c, a) := Round b c d e a (f2 c d e) k2 w2 in
  word w3 := left (Z.lxor (Z.lxor (Z.lxor w3 w0) w11) w5) in
  let '(b, e) := Round a b c d e (f2 b c d) k2 w3 in
  word w4 := left (Z.lxor (Z.lxor (Z.lxor w4 w1) w12) w6) in
  let '(a, d) := Round e a b c d (f2 a b c) k2 w4 in
  word w5 := left (Z.lxor (Z.lxor (Z.lxor w5 w2) w13) w7) in
  let '(e, c) := Round d e a b c (f2 e a b) k2 w5 in
  word w6 := left (Z.lxor (Z.lxor (Z.lxor w6 w3) w14) w8) in
  let '(d, b) := Round c d e a b (f2 d e a) k2 w6 in
  word w7 := left (Z.lxor (Z.lxor (Z.lxor w7 w4) w15) w9) in
  let '(c, a) := Round b c d e a (f2 c d e) k2 w7 in
  word w8 := left (Z.lxor (Z.lxor (Z.lxor w8 w5) w0) w10) in
  let '(b, e) := Round a b c d e (f3 b c d) k3 w8 in
  word w9 := left (Z.lxor (Z.lxor (Z.lxor w9 w6) w1) w11) in
  let '(a, d) := Round e a b c d (f3 a b c) k3 w9 in
  word w10 := left (Z.lxor (Z.lxor (Z.lxor w10 w7) w2) w12) in
  let '(e, c) := Round d e a b c (f3 e a b) k3 w10 in
  word w11 := left (Z.lxor (Z.lxor (Z.lxor w11 w8) w3) w13) in
  let '(d, b) := Round c d e a b (f3 d e a) k3 w11 in
  word w12 := left (Z.lxor (Z.lxor (Z.lxor w12 w9) w4) w14) in
  let '(c, a) := Round b c d e a (f3 c d e) k3 w12 in
  word w13 := left (Z.lxor (Z.lxor (Z.lxor w13 w10) w5) w15) in
  let '(b, e) := Round a b c d e (f3 b c d) k3 w13 in
  word w14 := left (Z.lxor (Z.lxor (Z.lxor w14 w11) w6) w0) in
  let '(a, d) := Round e a b c d (f3 a b c) k3 w14 in
  word w15 := left (Z.lxor (Z.lxor (Z.lxor w15 w12) w7) w1) in
  let '(e, c) := Round d e a b c (f3 e a b) k3 w15 in
  word w0 := left (Z.lxor (Z.lxor (Z.lxor w0 w13) w8) w2) in
  let '(d, b) := Round c d e a b (f3 d e a) k3 w0 in
  word w1 := left (Z.lxor (Z.lxor (Z.lxor w1 w14) w9) w3) in
  let '(c, a) := Round b c d e a (f3 c d e) k3 w1 in
  word w2 := left (Z.lxor (Z.lxor (Z.lxor w2 w15) w10) w4) in
  let '(b, e) := Round a b c d e (f3 b c d) k3 w2 in
  word w3 := left (Z.lxor (Z.lxor (Z.lxor w3 w0) w11) w5) in
  let '(a, d) := Round e a b c d (f3 a b c) k3 w3 in
  word w4 := left (Z.lxor (Z.lxor (Z.lxor w4 w1) w12) w6) in
  let '(e, c) := Round d e a b c (f3 e a b) k3 w4 in
  word w5 := left (Z.lxor (Z.lxor (Z.lxor w5 w2) w13) w7) in
  let '(d, b) := Round c d e a b (f3 d e a) k3 w5 in
  word w6 := left (Z.lxor (Z.lxor (Z.lxor w6 w3) w14) w8) in
  let '(c, a) := Round b c d e a (f3 c d e) k3 w6 in
  word w7 := left (Z.lxor (Z.lxor (Z.lxor w7 w4) w15) w9) in
  let '(b, e) := Round a b c d e (f3 b c d) k3 w7 in
  word w8 := left (Z.lxor (Z.lxor (Z.lxor w8 w5) w0) w10) in
  let '(a, d) := Round e a b c d (f3 a b c) k3 w8 in
  word w9 := left (Z.lxor (Z.lxor (Z.lxor w9 w6) w1) w11) in
  let '(e, c) := Round d e a b c (f3 e a b) k3 w9 in
  word w10 := left (Z.lxor (Z.lxor (Z.lxor w10 w7) w2) w12) in
  let '(d, b) := Round c d e a b (f3 d e a) k3 w10 in
  word w11 := left (Z.lxor (Z.lxor (Z.lxor w11 w8) w3) w13) in
  let '(c, a) := Round b c d e a (f3 c d e) k3 w11 in
  word w12 := left (Z.lxor (Z.lxor (Z.lxor w12 w9) w4) w14) in
  let '(b, e) := Round a b c d e (f2 b c d) k4 w12 in
  word w13 := left (Z.lxor (Z.lxor (Z.lxor w13 w10) w5) w15) in
  let '(a, d) := Round e a b c d (f2 a b c) k4 w13 in
  word w14 := left (Z.lxor (Z.lxor (Z.lxor w14 w11) w6) w0) in
  let '(e, c) := Round d e a b c (f2 e a b) k4 w14 in
  word w15 := left (Z.lxor (Z.lxor (Z.lxor w15 w12) w7) w1) in
  let '(d, b) := Round c d e a b (f2 d e a) k4 w15 in
  word w0 := left (Z.lxor (Z.lxor (Z.lxor w0 w13) w8) w2) in
  let '(c, a) := Round b c d e a (f2 c d e) k4 w0 in
  word w1 := left (Z.lxor (Z.lxor (Z.lxor w1 w14) w9) w3) in
  let '(b, e) := Round a b c d e (f2 b c d) k4 w1 in
  word w2 := left (Z.lxor (Z.lxor (Z.lxor w2 w15) w10) w4) in
  let '(a, d) := Round e a b c d (f2 a b c) k4 w2 in
  word w3 := left (Z.lxor (Z.lxor (Z.lxor w3 w0) w11) w5) in
  let '(e, c) := Round d e a b c (f2 e a b) k4 w3 in
  word w4 := left (Z.lxor (Z.lxor (Z.lxor w4 w1) w12) w6) in
  let '(d, b) := Round c d e a b (f2 d e a) k4 w4 in
  word w5 := left (Z.lxor (Z.lxor (Z.lxor w5 w2) w13) w7) in
  let '(c, a) := Round b c d e a (f2 c d e) k4 w5 in
  word w6 := left (Z.lxor (Z.lxor (Z.lxor w6 w3) w14) w8) in
  let '(b, e) := Round a b c d e (f2 b c d) k4 w6 in
  word w7 := left (Z.lxor (Z.lxor (Z.lxor w7 w4) w15) w9) in
  let '(a, d) := Round e a b c d (f2 a b c) k4 w7 in
  word w8 := left (Z.lxor (Z.lxor (Z.lxor w8 w5) w0) w10) in
  let '(e, c) := Round d e a b c (f2 e a b) k4 w8 in
  word w9 := left (Z.lxor (Z.lxor (Z.lxor w9 w6) w1) w11) in
  let '(d, b) := Round c d e a b (f2 d e a) k4 w9 in
  word w10 := left (Z.lxor (Z.lxor (Z.lxor w10 w7) w2) w12) in
  let '(c, a) := Round b c d e a (f2 c d e) k4 w10 in
  word w11 := left (Z.lxor (Z.lxor (Z.lxor w11 w8) w3) w13) in
  let '(b, e) := Round a b c d e (f2 b c d) k4 w11 in
  word w12 := left (Z.lxor (Z.lxor (Z.lxor w12 w9) w4) w14) in
  let '(a, d) := Round e a b c d (f2 a b c) k4 w12 in
  let '(e, c) := Round d e a b c (f2 e a b) k4 (left (Z.lxor (Z.lxor (Z.lxor w13 w10) w5) w15)) in
  let '(d, b) := Round c d e a b (f2 d e a) k4 (left (Z.lxor (Z.lxor (Z.lxor w14 w11) w6) w0)) in
  let '(c, a) := Round b c d e a (f2 c d e) k4 (left (Z.lxor (Z.lxor (Z.lxor w15 w12) w7) w1)) in
  (add32 s0 a, add32 s1 b, add32 s2 c, add32 s3 d, add32 s4 e).

Definition CSHA1 : hasher state := Hasher Initialize (replicate 64 0) 0.

Definition Write : hasher state -> list Z -> hasher state :=
  md_write 64 Transform (loop_chunks 64 Transform).

Definition output (s : state) : list Z :=
  let '(s0, s1, s2, s3, s4) := s in
  WriteBE32 s0 ++ WriteBE32 s1 ++ WriteBE32 s2 ++ WriteBE32 s3 ++ WriteBE32 s4.

(** The hasher after [Finalize], and what it writes out. *)
Definition Finalized (h : hasher state) : hasher state :=
  md_finalize 64 Transform (loop_chunks 64 Transform)
    (fun bytes => 1 + (119 - bytes mod 64) mod 64) WriteBE64 h.

Definition Finalize (h : hasher state) : list Z := output (h_s (Finalized h)).

Definition Reset (h : hasher state) : hasher state := Hasher Initialize (h_buf h) 0.

(** ** The standard *)

(** The function and the constant of round [t]. *)
Definition spec_f (t : nat) (x y z : Z) : Z :=
  if (t <? 20)%nat then Z.lxor (Z.land x y) (Z.land (Z.lnot x) z)
  else if (t <? 40)%nat then Z.lxor (Z.lxor x y) z
  else if (t <? 60)%nat then Z.lxor (Z.lxor (Z.land x y) (Z.land x z)) (Z.land y z)
  else Z.lxor (Z.lxor x y) z.

Definition spec_K (t : nat) : Z :=
  if (t <? 20)%nat then 0x5a827999 else if (t <? 40)%nat then 0x6ed9eba1
  else if (t <? 60)%nat then 0x8f1bbcdc else 0xca62c1d6.

Definition spec_round (t : nat) (st : state) (w : Z) : state :=
  let '(a, b, c, d, e) := st in
  let T := (rol32 a 5 + spec_f t b c d + e + spec_K t + w) mod 2 ^ 32 in
  (T, a, rol32 b 30, c, d).

(** [W_t] from the sixteen words before it. *)
Definition spec_word (win : list Z) : Z :=
  rol32 (Z.lxor (Z.lxor (Z.lxor (nth 13 win 0) (nth 8 win 0)) (nth 2 win 0)) (nth 0 win 0)) 1.

(** The first sixteen rounds, on the words of the chunk. *)
Fixpoint spec_first (t : nat) (ws : list Z) (st : state) : state :=
  match ws with
  | [] => st
  | w :: ws => spec_first (S t) ws (spec_round t st w)
  end.

(** The [n] rounds from round [t] on, with the window of the last sixteen words. *)
Fixpoint spec_rounds (n t : nat) (win : list Z) (st : state) : state :=
  match n with
  | O => st
  | S n => let w := spec_word win in spec_rounds n (S t) (tail win ++ [w]) (spec_round t st w)
  end.

Definition spec_words (chunk : list Z) : list Z :=
  map (fun i => be_decode (take 4 (drop (4 * i) chunk))) (seq 0 16).

Definition spec_compress (s : state) (chunk : list Z) : state :=
  let ws := spec_words chunk in
  let '(a, b, c, d, e) := spec_rounds 64 16 ws (spec_first 0 ws s) in
  let '(s0, s1, s2, s3, s4) := s in
  ((s0 + a) mod 2 ^ 32, (s1 + b) mod 2 ^ 32, (s2 + c) mod 2 ^ 32, (s3 + d) mod 2 ^ 32, (s4 + e) mod 2 ^ 32).

(** SHA-1 of a message. *)
Definition sha1_spec (m : list Z) : list Z :=
  output (md_spec 64 spec_compress Initialize (be_encode 8) m).

(** ** The unrolled transformation is the standard's *)

Lemma f1_choose x y z : f1 x y z = Z.lxor (Z.land x y) (Z.land (Z.lnot x) z).
Proof.
  apply Z.bits_inj'. intros n Hn. unfold f1.
  rewrite !Z.lxor_spec, !Z.land_spec, Z.lxor_spec, Z.lnot_spec by done.
  by destruct (Z.testbit x n), (Z.testbit y n), (Z.testbit z n).
Qed.

Lemma f3_majority x y z : f3 x y z = Z.lxor (Z.lxor (Z.land x y) (Z.land x z)) (Z.land y z).
Proof.
  apply Z.bits_inj'. intros n Hn. unfold f3.
  rewrite !Z.lxor_spec, !Z.lor_spec, !Z.land_spec, Z.lor_spec.
  by destruct (Z.testbit x n), (Z.testbit y n), (Z.testbit z n).
Qed.

(** The code's function of round [t], and its constant. *)
Definition round_f (t : nat) : Z -> Z -> Z -> Z :=
  if (t <? 20)%nat then f1 else if (t <? 40)%nat then f2 else if (t <? 60)%nat then f3 else f2.

Definition round_k (t : nat) : Z :=
  if (t <? 20)%nat then k1 else if (t <? 40)%nat then k2 else if (t <? 60)%nat then k3 else k4.

Lemma sha1_spec_round t a b c d e w :
  spec_round t (a, b, c, d, e) w =
  let '(b', e') := Round a b c d e (round_f t b c d) (round_k t) w in (e', a, b', c, d).
Proof.
  unfold spec_round, Round, round_f, round_k, spec_f, spec_K, add32, rol32.
  change (32 - 5) with 27. generalize (Z.lor (uint32 (Z.shiftl a 5)) (Z.shiftr a 27)) as r. intros r.
  repeat case_match; rewrite ?f1_choose, ?f3_majority;
    repeat apply (f_equal2 pair); try done; unfold f2, uint32, k1, k2, k3, k4; mod_sum.
Qed.

Lemma sha1_spec_rounds n t a b c d e w0 w1 w2 w3 w4 w5 w6 w7 w8 w9 w10 w11 w12 w13 w14 w15 :
  spec_rounds (S n) t [w0; w1; w2; w3; w4; w5; w6; w7; w8; w9; w10; w11; w12; w13; w14; w15]
    (a, b, c, d, e) =
  with_word (left (Z.lxor (Z.lxor (Z.lxor w0 w13) w8) w2)) (fun w =>
    let '(b', e') := Round a b c d e (round_f t b c d) (round_k t) w in
    spec_rounds n (S t) [w1; w2; w3; w4; w5; w6; w7; w8; w9; w10; w11; w12; w13; w14; w15; w]
      (e', a, b', c, d)).
Proof.
  rewrite with_word_eq. cbn [spec_rounds tail app]. unfold spec_word. cbn [nth].
  replace (rol32 _ 1) with (left (Z.lxor (Z.lxor (Z.lxor w0 w13) w8) w2)).
  - cbv zeta. rewrite sha1_spec_round. by destruct (Round _ _ _ _ _ _ _ _).
  - unfold left, rol32. by rewrite (Z.lxor_comm (Z.lxor (Z.lxor w13 w8) w2)), !Z.lxor_assoc.
Qed.

Lemma sha1_spec_first t w ws st : spec_first t (w :: ws) st = spec_first (S t) ws (spec_round t st w).
Proof. done. Qed.

Lemma sha1_spec_first_nil t st : spec_first t [] st = st.
Proof. done. Qed.

(** Evaluate the function and the constant of the round at hand. *)
Ltac round_consts :=
  match goal with |- context [round_f ?t] =>
    let f := eval cbv in (if (t <? 20)%nat then 1 else if (t <? 40)%nat then 2 else if (t <? 60)%nat then 3 else 4)%nat in
    lazymatch f with
    | 1%nat => change (round_f t) with f1; change (round_k t) with k1
    | 2%nat => change (round_f t) with f2; change (round_k t) with k2
    | 3%nat => change (round_f t) with f3; change (round_k t) with k3
    | 4%nat => change (round_f t) with f2; change (round_k t) with k4
    end
  end.

Lemma sha1_Transform_spec s chunk : Transform s chunk = spec_compress s chunk.
Proof.
  destruct s as [[[[s0 s1] s2] s3] s4].
  unfold spec_compress, spec_words. cbn [seq map Nat.mul Nat.add].
  cbv zeta. cbv beta delta [Transform ReadBE32] iota.
  do 16 (word_step; rewrite sha1_spec_first, sha1_spec_round; round_consts; round_step).
  rewrite sha1_spec_first_nil.
  do 61 (rewrite sha1_spec_rounds; round_consts; word_step; round_step).
  do 3 (rewrite sha1_spec_rounds; round_consts; rewrite with_word_eq; cbv beta; round_step). done.
Qed.

(** ** The class computes the standard's hash *)

Lemma sha1_spec_compress_take s chunk : spec_compress s (take 64 chunk) = spec_compress s chunk.
Proof.
  unfold spec_compress. replace (spec_words (take 64 chunk)) with (spec_words chunk); [done |].
  apply map_ext_in. intros i Hi%in_seq. rewrite skipn_firstn_comm, take_take. do 2 f_equal. lia.
Qed.

Lemma sha1_Transform_take s chunk : Transform s (take 64 chunk) = Transform s chunk.
Proof. rewrite !sha1_Transform_spec. apply sha1_spec_compress_take. Qed.

#[export] Instance sha1_stream : HashStream CSHA1 Write Finalized Finalize Reset sha1_spec.
Proof.
  assert (Hc : chunks_ok 64 Transform Initialize (loop_chunks 64 Transform))
    by (apply loop_chunks_ok; [lia | apply sha1_Transform_take]).
  assert (HB : (Z.of_nat 64 | 2 ^ 64)) by (by exists (2 ^ 58)).
  refine {| absorbs := has_absorbed 64 Transform Initialize |}.
  - apply has_absorbed_init; [lia | done].
  - intros h m data Hh. apply md_write_absorbed; [lia | done ..].
  - intros h m Hh. unfold Finalize, Finalized, sha1_spec. f_equal.
    rewrite (md_finalize_spec 64 Transform Initialize) with (m := m); [| lia | done .. |].
    + apply md_spec_ext; [apply sha1_Transform_spec | intros n]. unfold WriteBE64. by rewrite uint64_idem.
    + destruct Hh as (_ & -> & _). apply padlen_64.
  - intros h m Hh. apply has_absorbed_init; [lia |].
    apply (md_finalize_length 64 Transform Initialize) with (m := m); [lia | done ..].
Qed.

(** However the message is cut into [Write] calls, [CSHA1] outputs the SHA-1
    hash of FIPS 180-4 of the whole message. *)
Theorem CSHA1_correct ds : Finalize (foldl Write CSHA1 ds) = sha1_spec (concat ds).
Proof. apply hash_stream. Qed.

(** FIPS 180-4, example A.1. *)
Example sha1_abc :
  be_decode (Finalize (Write CSHA1 [0x61; 0x62; 0x63])) = 0xa9993e364706816aba3e25717850c26c9cd0d89d.
Proof. vm_compute. reflexivity. Qed.
