(* ===== verification/Ripemd160.v ===== *)
(** * RIPEMD-160

    [src/crypto/ripemd160.cpp]: the unrolled transformation, which interleaves the
    two lines, and the class [CRIPEMD160], and their equality with the algorithm
    of Dobbertin, Bosselaers and Preneel given by its tables. *)

From S2P Require Import Prelude Common MDHash.

(** [~x] on [uint32_t]. *)
Definition not32 (x : Z) : Z := uint32 (Z.lnot x).

Definition f1 (x y z : Z) : Z := Z.lxor (Z.lxor x y) z.

Definition f2 (x y z : Z) : Z := Z.lor (Z.land x y) (Z.land (not32 x) z).

Definition f3 (x y z : Z) : Z := Z.lxor (Z.lor x (not32 y)) z.

Definition f4 (x y z : Z) : Z := Z.lor (Z.land x z) (Z.land y (not32 z)).

Definition f5 (x y z : Z) : Z := Z.lxor x (Z.lor y (not32 z)).

(** The array [s[5]]. *)
Definition state : Type := Z * Z * Z * Z * Z.

Definition Initialize : state := (0x67452301, 0xEFCDAB89, 0x98BADCFE, 0x10325476, 0xC3D2E1F0).

Definition rol (x i : Z) : Z := rol32 x i.

(** One round: the new values of [a] and [c]. *)
Definition Round (a b c d e f x k r : Z) : Z * Z :=
  (add32 (rol (add32 (add32 (add32 a f) x) k) r) e, rol c 10).

Definition R11 (a b c d e x r : Z) : Z * Z := Round a b c d e (f1 b c d) x 0 r.

Definition R21 (a b c d e x r : Z) : Z * Z := Round a b c d e (f2 b c d) x 0x5A827999 r.

Definition R31 (a b c d e x r : Z) : Z * Z := Round a b c d e (f3 b c d) x 0x6ED9EBA1 r.

Definition R41 (a b c d e x r : Z) : Z * Z := Round a b c d e (f4 b c d) x 0x8F1BBCDC r.

Definition R51 (a b c d e x r : Z) : Z * Z := Round a b c d e (f5 b c d) x 0xA953FD4E r.

Definition R12 (a b c d e x r : Z) : Z * Z := Round a b c d e (f5 b c d) x 0x50A28BE6 r.

Definition R22 (a b c d e x r : Z) : Z * Z := Round a b c d e (f4 b c d) x 0x5C4DD124 r.

Definition R32 (a b c d e x r : Z) : Z * Z := Round a b c d e (f3 b c d) x 0x6D703EF3 r.

Definition R42 (a b c d e x r : Z) : Z * Z := Round a b c d e (f2 b c d) x 0x7A6D76E9 r.

Definition R52 (a b c d e x r : Z) : Z * Z := Round a b c d e (f1 b c d) x 0 r.

(** One 64-byte chunk. *)
Definition Transform (s : state) (chunk : list Z) : state :=
  let '(s0, s1, s2, s3, s4) := s in
  let '(a1, b1, c1, d1, e1) := s in
  let '(a2, b2, c2, d2, e2) := s in
  word w0 := ReadLE32 (drop 0 chunk) in
  word w1 := ReadLE32 (drop 4 chunk) in
  word w2 := ReadLE32 (drop 8 chunk) in
  word w3 := ReadLE32 (drop 12 chunk) in
  word w4 := ReadLE32 (drop 16 chunk) in
  word w5 := ReadLE32 (drop 20 chunk) in
  word w6 := ReadLE32 (drop 24 chunk) in
  word w7 := ReadLE32 (drop 28 chunk) in
  word w8 := ReadLE32 (drop 32 chunk) in
  word w9 := ReadLE32 (drop 36 chunk) in
  word w10 := ReadLE32 (drop 40 chunk) in
  word w11 := ReadLE32 (drop 44 chunk) in
  word w12 := ReadLE32 (drop 48 chunk) in
  word w13 := ReadLE32 (drop 52 chunk) in
  word w14 := ReadLE32 (drop 56 chunk) in
  word w15 := ReadLE32 (drop 60 chunk) in
  let '(a1, c1) := R11 a1 b1 c1 d1 e1 w0 11 in
  let '(a2, c2) := R12 a2 b2 c2 d2 e2 w5 8 in
  let '(e1, b1) := R11 e1 a1 b1 c1 d1 w1 14 in
  let '(e2, b2) := R12 e2 a2 b2 c2 d2 w14 9 in
  let '(d1, a1) := R11 d1 e1 a1 b1 c1 w2 15 in
  let '(d2, a2) := R12 d2 e2 a2 b2 c2 w7 9 in
  let '(c1, e1) := R11 c1 d1 e1 a1 b1 w3 12 in
  let '(c2, e2) := R12 c2 d2 e2 a2 b2 w0 11 in
  let '(b1, d1) := R11 b1 c1 d1 e1 a1 w4 5 in
  let '(b2, d2) := R12 b2 c2 d2 e2 a2 w9 13 in
  let '(a1, c1) := R11 a1 b1 c1 d1 e1 w5 8 in
  let '(a2, c2) := R12 a2 b2 c2 d2 e2 w2 15 in
  let '(e1, b1) := R11 e1 a1 b1 c1 d1 w6 7 in
  let '(e2, b2) := R12 e2 a2 b2 c2 d2 w11 15 in
  let '(d1, a1) := R11 d1 e1 a1 b1 c1 w7 9 in
  let '(d2, a2) := R12 d2 e2 a2 b2 c2 w4 5 in
  let '(c1, e1) := R11 c1 d1 e1 a1 b1 w8 11 in
  let '(c2, e2) := R12 c2 d2 e2 a2 b2 w13 7 in
  let '(b1, d1) := R11 b1 c1 d1 e1 a1 w9 13 in
  let '(b2, d2) := R12 b2 c2 d2 e2 a2 w6 7 in
  let '(a1, c1) := R11 a1 b1 c1 d1 e1 w10 14 in
  let '(a2, c2) := R12 a2 b2 c2 d2 e2 w15 8 in
  let '(e1, b1) := R11 e1 a1 b1 c1 d1 w11 15 in
  let '(e2, b2) := R12 e2 a2 b2 c2 d2 w8 11 in
  let '(d1, a1) := R11 d1 e1 a1 b1 c1 w12 6 in
  let '(d2, a2) := R12 d2 e2 a2 b2 c2 w1 14 in
  let '(c1, e1) := R11 c1 d1 e1 a1 b1 w13 7 in
  let '(c2, e2) := R12 c2 d2 e2 a2 b2 w10 14 in
  let '(b1, d1) := R11 b1 c1 d1 e1 a1 w14 9 in
  let '(b2, d2) := R12 b2 c2 d2 e2 a2 w3 12 in
  let '(a1, c1) := R11 a1 b1 c1 d1 e1 w15 8 in
  let '(a2, c2) := R12 a2 b2 c2 d2 e2 w12 6 in
  let '(e1, b1) := R21 e1 a1 b1 c1 d1 w7 7 in
  let '(e2, b2) := R22 e2 a2 b2 c2 d2 w6 9 in
  let '(d1, a1) := R21 d1 e1 a1 b1 c1 w4 6 in
  let '(d2, a2) := R22 d2 e2 a2 b2 c2 w11 13 in
  let '(c1, e1) := R21 c1 d1 e1 a1 b1 w13 8 in
  let '(c2, e2) := R22 c2 d2 e2 a2 b2 w3 15 in
  let '(b1, d1) := R21 b1 c1 d1 e1 a1 w1 13 in
  let '(b2, d2) := R22 b2 c2 d2 e2 a2 w7 7 in
  let '(a1, c1) := R21 a1 b1 c1 d1 e1 w10 11 in
  let '(a2, c2) := R22 a2 b2 c2 d2 e2 w0 12 in
  let '(e1, b1) := R21 e1 a1 b1 c1 d1 w6 9 in
  let '(e2, b2) := R22 e2 a2 b2 c2 d2 w13 8 in
  let '(d1, a1) := R21 d1 e1 a1 b1 c1 w15 7 in
  let '(d2, a2) := R22 d2 e2 a2 b2 c2 w5 9 in
  let '(c1, e1) := R21 c1 d1 e1 a1 b1 w3 15 in
  let '(c2, e2) := R22 c2 d2 e2 a2 b2 w10 11 in
  let '(b1, d1) := R21 b1 c1 d1 e1 a1 w12 7 in
  let '(b2, d2) := R22 b2 c2 d2 e2 a2 w14 7 in
  let '(a1, c1) := R21 a1 b1 c1 d1 e1 w0 12 in
  let '(a2, c2) := R22 a2 b2 c2 d2 e2 w15 7 in
  let '(e1, b1) := R21 e1 a1 b1 c1 d1 w9 15 in
  let '(e2, b2) := R22 e2 a2 b2 c2 d2 w8 12 in
  let '(d1, a1) := R21 d1 e1 a1 b1 c1 w5 9 in
  let '(d2, a2) := R22 d2 e2 a2 b2 c2 w12 7 in
  let '(c1, e1) := R21 c1 d1 e1 a1 b1 w2 11 in
  let '(c2, e2) := R22 c2 d2 e2 a2 b2 w4 6 in
  let '(b1, d1) := R21 b1 c1 d1 e1 a1 w14 7 in
  let '(b2, d2) := R22 b2 c2 d2 e2 a2 w9 15 in
  let '(a1, c1) := R21 a1 b1 c1 d1 e1 w11 13 in
  let '(a2, c2) := R22 a2 b2 c2 d2 e2 w1 13 in
  let '(e1, b1) := R21 e1 a1 b1 c1 d1 w8 12 in
  let '(e2, b2) := R22 e2 a2 b2 c2 d2 w2 11 in
  let '(d1, a1) := R31 d1 e1 a1 b1 c1 w3 11 in
  let '(d2, a2) := R32 d2 e2 a2 b2 c2 w15 9 in
  let '(c1, e1) := R31 c1 d1 e1 a1 b1 w10 13 in
  let '(c2, e2) := R32 c2 d2 e2 a2 b2 w5 7 in
  let '(b1, d1) := R31 b1 c1 d1 e1 a1 w14 6 in
  let '(b2, d2) := R32 b2 c2 d2 e2 a2 w1 15 in
  let '(a1, c1) := R31 a1 b1 c1 d1 e1 w4 7 in
  let '(a2, c2) := R32 a2 b2 c2 d2 e2 w3 11 in
  let '(e1, b1) := R31 e1 a1 b1 c1 d1 w9 14 in
  let '(e2, b2) := R32 e2 a2 b2 c2 d2 w7 8 in
  let '(d1, a1) := R31 d1 e1 a1 b1 c1 w15 9 in
  let '(d2, a2) := R32 d2 e2 a2 b2 c2 w14 6 in
  let '(c1, e1) := R31 c1 d1 e1 a1 b1 w8 13 in
  let '(c2, e2) := R32 c2 d2 e2 a2 b2 w6 6 in
  let '(b1, d1) := R31 b1 c1 d1 e1 a1 w1 15 in
  let '(b2, d2) := R32 b2 c2 d2 e2 a2 w9 14 in
  let '(a1, c1) := R31 a1 b1 c1 d1 e1 w2 14 in
  let '(a2, c2) := R32 a2 b2 c2 d2 e2 w11 12 in
  let '(e1, b1) := R31 e1 a1 b1 c1 d1 w7 8 in
  let '(e2, b2) := R32 e2 a2 b2 c2 d2 w8 13 in
  let '(d1, a1) := R31 d1 e1 a1 b1 c1 w0 13 in
  let '(d2, a2) := R32 d2 e2 a2 b2 c2 w12 5 in
  let '(c1, e1) := R31 c1 d1 e1 a1 b1 w6 6 in
  let '(c2, e2) := R32 c2 d2 e2 a2 b2 w2 14 in
  let '(b1, d1) := R31 b1 c1 d1 e1 a1 w13 5 in
  let '(b2, d2) := R32 b2 c2 d2 e2 a2 w10 13 in
  let '(a1, c1) := R31 a1 b1 c1 d1 e1 w11 12 in
  let '(a2, c2) := R32 a2 b2 c2 d2 e2 w0 13 in
  let '(e1, b1) := R31 e1 a1 b1 c1 d1 w5 7 in
  let '(e2, b2) := R32 e2 a2 b2 c2 d2 w4 7 in
  let '(d1, a1) := R31 d1 e1 a1 b1 c1 w12 5 in
  let '(d2, a2) := R32 d2 e2 a2 b2 c2 w13 5 in
  let '(c1, e1) := R41 c1 d1 e1 a1 b1 w1 11 in
  let '(c2, e2) := R42 c2 d2 e2 a2 b2 w8 15 in
  let '(b1, d1) := R41 b1 c1 d1 e1 a1 w9 12 in
  let '(b2, d2) := R42 b2 c2 d2 e2 a2 w6 5 in
  let '(a1, c1) := R41 a1 b1 c1 d1 e1 w11 14 in
  let '(a2, c2) := R42 a2 b2 c2 d2 e2 w4 8 in
  let '(e1, b1) := R41 e1 a1 b1 c1 d1 w10 15 in
  let '(e2, b2) := R42 e2 a2 b2 c2 d2 w1 11 in
  let '(d1, a1) := R41 d1 e1 a1 b1 c1 w0 14 in
  let '(d2, a2) := R42 d2 e2 a2 b2 c2 w3 14 in
  let '(c1, e1) := R41 c1 d1 e1 a1 b1 w8 15 in
  let '(c2, e2) := R42 c2 d2 e2 a2 b2 w11 14 in
  let '(b1, d1) := R41 b1 c1 d1 e1 a1 w12 9 in
  let '(b2, d2) := R42 b2 c2 d2 e2 a2 w15 6 in
  let '(a1, c1) := R41 a1 b1 c1 d1 e1 w4 8 in
  let '(a2, c2) := R42 a2 b2 c2 d2 e2 w0 14 in
  let '(e1, b1) := R41 e1 a1 b1 c1 d1 w13 9 in
  let '(e2, b2) := R42 e2 a2 b2 c2 d2 w5 6 in
  let '(d1, a1) := R41 d1 e1 a1 b1 c1 w3 14 in
  let '(d2, a2) := R42 d2 e2 a2 b2 c2 w12 9 in
  let '(c1, e1) := R41 c1 d1 e1 a1 b1 w7 5 in
  let '(c2, e2) := R42 c2 d2 e2 a2 b2 w2 12 in
  let '(b1, d1) := R41 b1 c1 d1 e1 a1 w15 6 in
  let '(b2, d2) := R42 b2 c2 d2 e2 a2 w13 9 in
  let '(a1, c1) := R41 a1 b1 c1 d1 e1 w14 8 in
  let '(a2, c2) := R42 a2 b2 c2 d2 e2 w9 12 in
  let '(e1, b1) := R41 e1 a1 b1 c1 d1 w5 6 in
  let '(e2, b2) := R42 e2 a2 b2 c2 d2 w7 5 in
  let '(d1, a1) := R41 d1 e1 a1 b1 c1 w6 5 in
  let '(d2, a2) := R42 d2 e2 a2 b2 c2 w10 15 in
  let '(c1, e1) := R41 c1 d1 e1 a1 b1 w2 12 in
  let '(c2, e2) := R42 c2 d2 e2 a2 b2 w14 8 in
  let '(b1, d1) := R51 b1 c1 d1 e1 a1 w4 9 in
  let '(b2, d2) := R52 b2 c2 d2 e2 a2 w12 8 in
  let '(a1, c1) := R51 a1 b1 c1 d1 e1 w0 15 in
  let '(a2, c2) := R52 a2 b2 c2 d2 e2 w15 5 in
  let '(e1, b1) := R51 e1 a1 b1 c1 d1 w5 5 in
  let '(e2, b2) := R52 e2 a2 b2 c2 d2 w10 12 in
  let '(d1, a1) := R51 d1 e1 a1 b1 c1 w9 11 in
  let '(d2, a2) := R52 d2 e2 a2 b2 c2 w4 9 in
  let '(c1, e1) := R51 c1 d1 e1 a1 b1 w7 6 in
  let '(c2, e2) := R52 c2 d2 e2 a2 b2 w1 12 in
  let '(b1, d1) := R51 b1 c1 d1 e1 a1 w12 8 in
  let '(b2, d2) := R52 b2 c2 d2 e2 a2 w5 5 in
  let '(a1, c1) := R51 a1 b1 c1 d1 e1 w2 13 in
  let '(a2, c2) := R52 a2 b2 c2 d2 e2 w8 14 in
  let '(e1, b1) := R51 e1 a1 b1 c1 d1 w10 12 in
  let '(e2, b2) := R52 e2 a2 b2 c2 d2 w7 6 in
  let '(d1, a1) := R51 d1 e1 a1 b1 c1 w14 5 in
  let '(d2, a2) := R52 d2 e2 a2 b2 c2 w6 8 in
  let '(c1, e1) := R51 c1 d1 e1 a1 b1 w1 12 in
  let '(c2, e2) := R52 c2 d2 e2 a2 b2 w2 13 in
  let '(b1, d1) := R51 b1 c1 d1 e1 a1 w3 13 in
  let '(b2, d2) := R52 b2 c2 d2 e2 a2 w13 6 in
  let '(a1, c1) := R51 a1 b1 c1 d1 e1 w8 14 in
  let '(a2, c2) := R52 a2 b2 c2 d2 e2 w14 5 in
  let '(e1, b1) := R51 e1 a1 b1 c1 d1 w11 11 in
  let '(e2, b2) := R52 e2 a2 b2 c2 d2 w0 15 in
  let '(d1, a1) := R51 d1 e1 a1 b1 c1 w6 8 in
  let '(d2, a2) := R52 d2 e2 a2 b2 c2 w3 13 in
  let '(c1, e1) := R51 c1 d1 e1 a1 b1 w15 5 in
  let '(c2, e2) := R52 c2 d2 e2 a2 b2 w9 11 in
  let '(b1, d1) := R51 b1 c1 d1 e1 a1 w13 6 in
  let '(b2, d2) := R52 b2 c2 d2 e2 a2 w11 11 in
  (add32 (add32 s1 c1) d2, add32 (add32 s2 d1) e2, add32 (add32 s3 e1) a2,
   add32 (add32 s4 a1) b2, add32 (add32 s0 b1) c2).

Definition CRIPEMD160 : hasher state := Hasher Initialize (replicate 64 0) 0.

Definition Write : hasher state -> list Z -> hasher state :=
  md_write 64 Transform (loop_chunks 64 Transform).

Definition output (s : state) : list Z :=
  let '(s0, s1, s2, s3, s4) := s in
  WriteLE32 s0 ++ WriteLE32 s1 ++ WriteLE32 s2 ++ WriteLE32 s3 ++ WriteLE32 s4.

(** The hasher after [Finalize], and what it writes out. *)
Definition Finalized (h : hasher state) : hasher state :=
  md_finalize 64 Transform (loop_chunks 64 Transform)
    (fun bytes => 1 + (119 - bytes mod 64) mod 64) WriteLE64 h.

Definition Finalize (h : hasher state) : list Z := output (h_s (Finalized h)).

Definition Reset (h : hasher state) : hasher state := Hasher Initialize (h_buf h) 0.

(** ** The algorithm by its tables *)

(** Message words and rotations of the left and of the right line. *)
Definition r_left : list nat :=
  [0; 1; 2; 3; 4; 5; 6; 7; 8; 9; 10; 11; 12; 13; 14; 15;
   7; 4; 13; 1; 10; 6; 15; 3; 12; 0; 9; 5; 2; 14; 11; 8;
   3; 10; 14; 4; 9; 15; 8; 1; 2; 7; 0; 6; 13; 11; 5; 12;
   1; 9; 11; 10; 0; 8; 12; 4; 13; 3; 7; 15; 14; 5; 6; 2;
   4; 0; 5; 9; 7; 12; 2; 10; 14; 1; 3; 8; 11; 6; 15; 13]%nat.

Definition r_right : list nat :=
  [5; 14; 7; 0; 9; 2; 11; 4; 13; 6; 15; 8; 1; 10; 3; 12;
   6; 11; 3; 7; 0; 13; 5; 10; 14; 15; 8; 12; 4; 9; 1; 2;
   15; 5; 1; 3; 7; 14; 6; 9; 11; 8; 12; 2; 10; 0; 4; 13;
   8; 6; 4; 1; 3; 11; 15; 0; 5; 12; 2; 13; 9; 7; 10; 14;
   12; 15; 10; 4; 1; 5; 8; 7; 6; 2; 13; 14; 0; 3; 9; 11]%nat.

Definition s_left : list Z :=
  [11; 14; 15; 12; 5; 8; 7; 9; 11; 13; 14; 15; 6; 7; 9; 8;
   7; 6; 8; 13; 11; 9; 7; 15; 7; 12; 15; 9; 11; 7; 13; 12;
   11; 13; 6; 7; 14; 9; 13; 15; 14; 8; 13; 6; 5; 12; 7; 5;
   11; 12; 14; 15; 14; 15; 9; 8; 9; 14; 5; 6; 8; 6; 5; 12;
   9; 15; 5; 11; 6; 8; 13; 12; 5; 12; 13; 14; 11; 8; 5; 6].

Definition s_right : list Z :=
  [8; 9; 9; 11; 13; 15; 15; 5; 7; 7; 8; 11; 14; 14; 12; 6;
   9; 13; 15; 7; 12; 8; 9; 11; 7; 7; 12; 7; 6; 15; 13; 11;
   9; 7; 15; 11; 8; 6; 6; 14; 12; 13; 5; 14; 13; 13; 7; 5;
   15; 5; 8; 11; 14; 14; 6; 14; 6; 9; 12; 9; 12; 5; 15; 8;
   8; 5; 12; 9; 12; 5; 14; 6; 8; 13; 6; 5; 15; 13; 11; 11].

(** The functions and the added constants of the left line; the right line takes
    the functions in reverse order. *)
Definition F_left (j : nat) : Z -> Z -> Z -> Z :=
  if (j <? 16)%nat then f1 else if (j <? 32)%nat then f2 else if (j <? 48)%nat then f3
  else if (j <? 64)%nat then f4 else f5.

Definition F_right (j : nat) : Z -> Z -> Z -> Z := F_left (79 - j).

Definition K_left (j : nat) : Z :=
  if (j <? 16)%nat then 0 else if (j <? 32)%nat then 0x5A827999 else if (j <? 48)%nat then 0x6ED9EBA1
  else if (j <? 64)%nat then 0x8F1BBCDC else 0xA953FD4E.

Definition K_right (j : nat) : Z :=
  if (j <? 16)%nat then 0x50A28BE6 else if (j <? 32)%nat then 0x5C4DD124 else if (j <? 48)%nat then 0x6D703EF3
  else if (j <? 64)%nat then 0x7A6D76E9 else 0.

(** One step of a line: all five registers move. *)
Definition spec_step (f : Z -> Z -> Z -> Z) (x k s : Z) (l : state) : state :=
  let '(A, B, C, D, E) := l in
  let T := (rol32 ((A + f B C D + x + k) mod 2 ^ 32) s + E) mod 2 ^ 32 in
  (E, T, B, rol32 C 10, D).

Fixpoint spec_rounds (n j : nat) (X : list Z) (l r : state) : state * state :=
  match n with
  | O => (l, r)
  | S n =>
    spec_rounds n (S j) X
      (spec_step (F_left j) (nth (nth j r_left 0%nat) X 0) (K_left j) (nth j s_left 0) l)
      (spec_step (F_right j) (nth (nth j r_right 0%nat) X 0) (K_right j) (nth j s_right 0) r)
  end.

Definition spec_words (chunk : list Z) : list Z :=
  map (fun i => le_decode (take 4 (drop (4 * i) chunk))) (seq 0 16).

Definition spec_compress (s : state) (chunk : list Z) : state :=
  let '((A, B, C, D, E), (A', B', C', D', E')) := spec_rounds 80 0 (spec_words chunk) s s in
  let '(h0, h1, h2, h3, h4) := s in
  ((h1 + C + D') mod 2 ^ 32, (h2 + D + E') mod 2 ^ 32, (h3 + E + A') mod 2 ^ 32,
   (h4 + A + B') mod 2 ^ 32, (h0 + B + C') mod 2 ^ 32).

(** RIPEMD-160 of a message. *)
Definition ripemd160_spec (m : list Z) : list Z :=
  output (md_spec 64 spec_compress Initialize (le_encode 8) m).

(** ** The unrolled transformation is the algorithm's *)

Lemma rmd_spec_step f x k s A B C D E :
  spec_step f x k s (A, B, C, D, E) =
  let '(a, c) := Round A B C D E (f B C D) x k s in (E, a, B, c, D).
Proof. unfold spec_step, Round, rol, add32, uint32. repeat apply (f_equal2 pair); try done; do 2 f_equal; f_equal; mod_sum. Qed.

(** The parameters of step [j] of the two lines. *)
Definition left_step (j : nat) (X : list Z) := (F_left j, nth (nth j r_left 0%nat) X 0, K_left j, nth j s_left 0).

Definition right_step (j : nat) (X : list Z) := (F_right j, nth (nth j r_right 0%nat) X 0, K_right j, nth j s_right 0).

Lemma rmd_spec_rounds n j X A B C D E A' B' C' D' E' f x k s f' x' k' s' :
  left_step j X = (f, x, k, s) -> right_step j X = (f', x', k', s') ->
  spec_rounds (S n) j X (A, B, C, D, E) (A', B', C', D', E') =
  let '(a, c) := Round A B C D E (f B C D) x k s in
  let '(a', c') := Round A' B' C' D' E' (f' B' C' D') x' k' s' in
  spec_rounds n (S j) X (E, a, B, c, D) (E', a', B', c', D').
Proof.
  unfold left_step, right_step. intros Hl Hr. simplify_eq. cbn [spec_rounds]. rewrite !rmd_spec_step.
  by destruct (Round A _ _ _ _ _ _ _ _), (Round A' _ _ _ _ _ _ _ _).
Qed.

Ltac step_params :=
  cbv [left_step right_step F_left F_right K_left K_right r_left r_right s_left s_right
       nth Nat.ltb Nat.leb Nat.sub]; reflexivity.

Lemma rmd_Transform_spec s chunk : Transform s chunk = spec_compress s chunk.
Proof.
  destruct s as [[[[s0 s1] s2] s3] s4].
  unfold spec_compress, spec_words. cbn [seq map Nat.mul Nat.add].
  cbv zeta. cbv beta delta [Transform ReadLE32 R11 R21 R31 R41 R51 R12 R22 R32 R42 R52] iota.
  do 16 word_step.
  do 80 (erewrite rmd_spec_rounds; [| step_params | step_params]; do 2 round_step).
  cbn [spec_rounds]. unfold add32, uint32. repeat apply (f_equal2 pair); mod_sum.
Qed.

(** ** The class computes the algorithm's hash *)

Lemma rmd_spec_compress_take s chunk : spec_compress s (take 64 chunk) = spec_compress s chunk.
Proof.
  unfold spec_compress. replace (spec_words (take 64 chunk)) with (spec_words chunk); [done |].
  apply map_ext_in. intros i Hi%in_seq. rewrite skipn_firstn_comm, take_take. do 2 f_equal. lia.
Qed.

Lemma rmd_Transform_take s chunk : Transform s (take 64 chunk) = Transform s chunk.
Proof. rewrite !rmd_Transform_spec. apply rmd_spec_compress_take. Qed.

#[export] Instance ripemd160_stream : HashStream CRIPEMD160 Write Finalized Finalize Reset ripemd160_spec.
Proof.
  assert (Hc : chunks_ok 64 Transform Initialize (loop_chunks 64 Transform))
    by (apply loop_chunks_ok; [lia | apply rmd_Transform_take]).
  assert (HB : (Z.of_nat 64 | 2 ^ 64)) by (by exists (2 ^ 58)).
  refine {| absorbs := has_absorbed 64 Transform Initialize |}.
  - apply has_absorbed_init; [lia | done].
  - intros h m data Hh. apply md_write_absorbed; [lia | done ..].
  - intros h m Hh. unfold Finalize, Finalized, ripemd160_spec. f_equal.
    rewrite (md_finalize_spec 64 Transform Initialize) with (m := m); [| lia | done .. |].
    + apply md_spec_ext; [apply rmd_Transform_spec | intros n]. unfold WriteLE64. by rewrite uint64_idem.
    + destruct Hh as (_ & -> & _). apply padlen_64.
  - intros h m Hh. apply has_absorbed_init; [lia |].
    apply (md_finalize_length 64 Transform Initialize) with (m := m); [lia | done ..].
Qed.

(** However the message is cut into [Write] calls, [CRIPEMD160] outputs the
    RIPEMD-160 hash of the whole message. *)
Theorem CRIPEMD160_correct ds : Finalize (foldl Write CRIPEMD160 ds) = ripemd160_spec (concat ds).
Proof. apply hash_stream. Qed.

(** The published test vector of "abc". *)
Example ripemd160_abc :
  be_decode (Finalize (Write CRIPEMD160 [0x61; 0x62; 0x63])) = 0x8eb208f7e05d987a9b044a8e98c6b087f15a0bfc.
Proof. vm_compute. reflexivity. Qed.
