(* ===== verification/Hash.v ===== *)
(** * Hashes built from the hash classes

    HMAC ([src/crypto/hmac_sha256.cpp], [src/crypto/hmac_sha512.cpp]) and the
    double and composed hashes of [src/hash.h] and [src/hash.cpp]. The HMAC classes
    are proved against the [HashStream] interface, for any hash. *)

From S2P Require Import Prelude Common MDHash Sha256 Sha512 Sha1 Ripemd160.

(** ** HMAC *)

Record hmac (St : Type) := Hmac {
  outer : hasher St;
  inner : hasher St
}.
Arguments Hmac {St} _ _.
Arguments outer {St} _.
Arguments inner {St} _.

Section Hmac.
Context {St : Type} {new : hasher St} {write : hasher St -> list Z -> hasher St}
  {finalized : hasher St -> hasher St} {finalize : hasher St -> list Z}
  {reset : hasher St -> hasher St} {spec : list Z -> list Z}
  `{Hash : !HashStream new write finalized finalize reset spec}.

(** The block size and the output size of the hash. *)
Variables B O : nat.

(** The key of block size: the key itself or its hash, filled with zeros. *)
Definition hmac_rkey (key : list Z) : list Z :=
  if (length key <=? B)%nat then key ++ replicate (B - length key) 0
  else finalize (write new key) ++ replicate (B - O) 0.

Definition hmac_new (key : list Z) : hmac St :=
  let rkey := hmac_rkey key in
  let rkey := map (fun x => Z.lxor x 0x5c) rkey in
  let o := write new rkey in
  let rkey := map (fun x => Z.lxor x (Z.lxor 0x5c 0x36)) rkey in
  let i := write new rkey in
  Hmac o i.

Definition hmac_write (h : hmac St) (data : list Z) : hmac St := Hmac (outer h) (write (inner h) data).

Definition hmac_finalize (h : hmac St) : list Z :=
  let temp := finalize (inner h) in finalize (write (outer h) temp).

(** RFC 2104. *)
Definition hmac_spec (key m : list Z) : list Z :=
  let k := (if (length key <=? B)%nat then key else spec key) in
  let k := k ++ replicate (B - length k) 0 in
  spec (map (Z.lxor 0x5c) k ++ spec (map (Z.lxor 0x36) k ++ m)).

Hypothesis spec_length : forall m, length (spec m) = O.

Lemma hash_writes a ds : finalize (foldl write (write new a) ds) = spec (a ++ concat ds).
Proof. apply (hash_stream (a :: ds)). Qed.

Lemma foldl_hmac_write h ds :
  foldl hmac_write h ds = Hmac (outer h) (foldl write (inner h) ds).
Proof. revert h. induction ds as [| d ds IH]; intros h; cbn; [by destruct h |]. by rewrite IH. Qed.

Lemma hmac_correct key ds :
  hmac_finalize (foldl hmac_write (hmac_new key) ds) = hmac_spec key (concat ds).
Proof.
  rewrite foldl_hmac_write. unfold hmac_finalize, hmac_new, hmac_spec. cbn [outer inner].
  assert (Hkey : finalize (write new key) = spec key)
    by (rewrite <- (app_nil_r key) at 2; apply (hash_writes key [])).
  set (k := _ ++ replicate (B - length _) 0).
  assert (hmac_rkey key = k) as ->.
  { unfold hmac_rkey, k. rewrite Hkey. case_match; [done |]. by rewrite spec_length. }
  rewrite hash_writes, map_map.
  change (write (write new ?a) ?b) with (foldl write (write new a) [b]).
  rewrite hash_writes. cbn [concat]. rewrite app_nil_r. f_equal. f_equal.
  - apply map_ext. intros x. apply Z.lxor_comm.
  - do 2 f_equal. apply map_ext. intros x. rewrite Z.lxor_assoc, <- (Z.lxor_assoc 0x5c 0x5c).
    by rewrite Z.lxor_nilpotent, Z.lxor_0_l, Z.lxor_comm.
Qed.
End Hmac.

Lemma length_WriteBE32 x : length (WriteBE32 x) = 4%nat.
Proof. apply length_be_encode. Qed.

Lemma length_sha256_spec m : length (sha256_spec m) = 32%nat.
Proof.
  unfold sha256_spec, Sha256.output. destruct (md_spec _ _ _ _ _) as [[[[[[[? ?] ?] ?] ?] ?] ?] ?].
  by rewrite !length_app, !length_WriteBE32.
Qed.

Lemma length_sha512_spec m : length (sha512_spec m) = 64%nat.
Proof.
  unfold sha512_spec, Sha512.output. destruct (md_spec _ _ _ _ _) as [[[[[[[? ?] ?] ?] ?] ?] ?] ?].
  unfold WriteBE64. by rewrite !length_app, !length_be_encode.
Qed.

Lemma length_ripemd160_spec m : length (ripemd160_spec m) = 20%nat.
Proof.
  unfold ripemd160_spec, Ripemd160.output. destruct (md_spec _ _ _ _ _) as [[[[? ?] ?] ?] ?].
  unfold WriteLE32. by rewrite !length_app, !length_le_encode.
Qed.

#[local] Opaque Sha256.Write Sha256.Finalize Sha256.Finalized Sha256.Reset sha256_spec
  Sha512.Write Sha512.Finalize Sha512.Finalized Sha512.Reset sha512_spec
  Ripemd160.Write Ripemd160.Finalize Ripemd160.Finalized Ripemd160.Reset ripemd160_spec.

Definition CHMAC_SHA256 (key : list Z) : hmac Sha256.state :=
  hmac_new (new := CSHA256) (write := Sha256.Write) (finalize := Sha256.Finalize) 64 32 key.

Definition CHMAC_SHA256_Write : hmac Sha256.state -> list Z -> hmac Sha256.state :=
  hmac_write (write := Sha256.Write).

Definition CHMAC_SHA256_Finalize : hmac Sha256.state -> list Z :=
  hmac_finalize (write := Sha256.Write) (finalize := Sha256.Finalize).

Definition CHMAC_SHA512 (key : list Z) : hmac Sha512.state :=
  hmac_new (new := CSHA512) (write := Sha512.Write) (finalize := Sha512.Finalize) 128 64 key.

Definition CHMAC_SHA512_Write : hmac Sha512.state -> list Z -> hmac Sha512.state :=
  hmac_write (write := Sha512.Write).

Definition CHMAC_SHA512_Finalize : hmac Sha512.state -> list Z :=
  hmac_finalize (write := Sha512.Write) (finalize := Sha512.Finalize).

(** [CHMAC_SHA256] and [CHMAC_SHA512] compute the HMAC of RFC 2104 over the
    hashes of the standard, for keys of every length (those longer than a block
    are hashed first) and however the message is cut into [Write] calls. *)
Theorem CHMAC_correct key ds :
  CHMAC_SHA256_Finalize (foldl CHMAC_SHA256_Write (CHMAC_SHA256 key) ds) =
    hmac_spec (spec := sha256_spec) 64 key (concat ds) /\
  CHMAC_SHA512_Finalize (foldl CHMAC_SHA512_Write (CHMAC_SHA512 key) ds) =
    hmac_spec (spec := sha512_spec) 128 key (concat ds).
Proof.
  split.
  - apply (hmac_correct (Hash := sha256_stream)), length_sha256_spec.
  - apply (hmac_correct (Hash := sha512_stream)), length_sha512_spec.
Qed.

(** ** Double and composed hashes *)

(** [CHash256]: its state is the [CSHA256] it wraps. *)
Definition CHash256_Finalize (sha : hasher Sha256.state) : list Z :=
  let buf := Sha256.Finalize sha in
  Sha256.Finalize (Sha256.Write (Sha256.Reset (Sha256.Finalized sha)) buf).

Definition CHash256_Write : hasher Sha256.state -> list Z -> hasher Sha256.state := Sha256.Write.

Definition CHash160_Finalize (sha : hasher Sha256.state) : list Z :=
  let buf := Sha256.Finalize sha in
  Ripemd160.Finalize (Ripemd160.Write CRIPEMD160 buf).

(** [Hash(pbegin, pend)] and [Hash(p1begin, p1end, p2begin, p2end)] *)
Definition Hash (data : list Z) : list Z := CHash256_Finalize (CHash256_Write CSHA256 data).

Definition Hash_2 (data1 data2 : list Z) : list Z :=
  CHash256_Finalize (CHash256_Write (CHash256_Write CSHA256 data1) data2).

Definition Hash160 (data : list Z) : list Z := CHash160_Finalize (Sha256.Write CSHA256 data).

(** [CHashWriter]: [write] and [GetHash]. *)
Definition CHashWriter_write : hasher Sha256.state -> list Z -> hasher Sha256.state := CHash256_Write.

Definition GetHash : hasher Sha256.state -> list Z := CHash256_Finalize.

(** [SerializeHash] of an object whose serialization makes the writes [ws]. *)
Definition SerializeHash (ws : list (list Z)) : list Z := GetHash (foldl CHashWriter_write CSHA256 ws).

Lemma CHash256_Finalize_spec sha m :
  absorbs (HashStream := sha256_stream) sha m ->
  CHash256_Finalize sha = sha256_spec (sha256_spec m).
Proof.
  intros Hm. unfold CHash256_Finalize.
  rewrite (absorbs_finalize (HashStream := sha256_stream) _ _ Hm).
  apply (absorbs_finalize (HashStream := sha256_stream)).
  apply (absorbs_write (HashStream := sha256_stream) _ []).
  by apply (absorbs_reset (HashStream := sha256_stream) _ m).
Qed.

Lemma SerializeHash_concat ws : SerializeHash ws = sha256_spec (sha256_spec (concat ws)).
Proof.
  apply CHash256_Finalize_spec, (absorbs_writes (H := sha256_stream) ws CSHA256 []).
  apply (absorbs_new (HashStream := sha256_stream)).
Qed.

Lemma Hash_sha256 data : Hash data = sha256_spec (sha256_spec data).
Proof.
  pose proof (SerializeHash_concat [data]) as Hs. cbn [concat] in Hs.
  rewrite app_nil_r in Hs. exact Hs.
Qed.

Lemma Hash_2_sha256 data1 data2 : Hash_2 data1 data2 = sha256_spec (sha256_spec (data1 ++ data2)).
Proof.
  pose proof (SerializeHash_concat [data1; data2]) as Hs. cbn [concat] in Hs.
  rewrite app_nil_r in Hs. exact Hs.
Qed.

Lemma Hash160_spec data : Hash160 data = ripemd160_spec (sha256_spec data).
Proof.
  unfold Hash160, CHash160_Finalize.
  pose proof (hash_writes (Hash := sha256_stream) data []) as Hsha.
  pose proof (hash_writes (Hash := ripemd160_stream) (sha256_spec data) []) as Hrmd.
  cbn [foldl concat] in Hsha, Hrmd. rewrite app_nil_r in Hsha, Hrmd.
  rewrite Hsha. exact Hrmd.
Qed.

(** The double hash and the composed hash: [Hash] of one or of two ranges,
    [SerializeHash] of an object that serializes with any sequence of [write]s,
    and [Hash160] are SHA-256 twice, respectively RIPEMD-160 of SHA-256, of the
    concatenated bytes; [Reset] between the two passes leaves no trace. *)
Theorem composed_hashes data data1 data2 ws :
  Hash data = sha256_spec (sha256_spec data) /\
  Hash_2 data1 data2 = sha256_spec (sha256_spec (data1 ++ data2)) /\
  SerializeHash ws = sha256_spec (sha256_spec (concat ws)) /\
  Hash160 data = ripemd160_spec (sha256_spec data).
Proof.
  split; [apply Hash_sha256 |]. split; [apply Hash_2_sha256 |].
  split; [apply SerializeHash_concat | apply Hash160_spec].
Qed.

Lemma length_Hash data : length (Hash data) = 32%nat.
Proof. rewrite Hash_sha256. apply length_sha256_spec. Qed.

Lemma length_Hash160 data : length (Hash160 data) = 20%nat.
Proof. rewrite Hash160_spec. apply length_ripemd160_spec. Qed.

(** ** MurmurHash3 and BIP32Hash *)

Definition ROTL32 (x r : Z) : Z := Z.lor (uint32 (Z.shiftl x r)) (Z.shiftr x (32 - r)).

Definition murmur_c1 : Z := 0xcc9e2d51.

Definition murmur_c2 : Z := 0x1b873593.

Fixpoint murmur_body (nblocks : nat) (blocks : list Z) (h1 : Z) : Z :=
  match nblocks with
  | O => h1
  | S nblocks =>
    let k1 := ReadLE32 blocks in
    let k1 := uint32 (k1 * murmur_c1) in
    let k1 := ROTL32 k1 15 in
    let k1 := uint32 (k1 * murmur_c2) in
    let h1 := Z.lxor h1 k1 in
    let h1 := ROTL32 h1 13 in
    let h1 := uint32 (h1 * 5 + 0xe6546b64) in
    murmur_body nblocks (drop 4 blocks) h1
  end.

(** The [switch] on the bytes after the last block, with its fall-through. *)
Definition murmur_tail (tail : list Z) (h1 : Z) : Z :=
  let k1 := 0 in
  let k1 := if (3 <=? length tail)%nat then Z.lxor k1 (Z.shiftl (byte_at tail 2) 16) else k1 in
  let k1 := if (2 <=? length tail)%nat then Z.lxor k1 (Z.shiftl (byte_at tail 1) 8) else k1 in
  if (1 <=? length tail)%nat then
    let k1 := Z.lxor k1 (byte_at tail 0) in
    let k1 := uint32 (k1 * murmur_c1) in
    let k1 := ROTL32 k1 15 in
    let k1 := uint32 (k1 * murmur_c2) in
    Z.lxor h1 k1
  else h1.

Definition MurmurHash3 (nHashSeed : Z) (vDataToHash : list Z) : Z :=
  let h1 := nHashSeed in
  let nblocks := (length vDataToHash / 4)%nat in
  let h1 := murmur_body nblocks vDataToHash h1 in
  let h1 := murmur_tail (drop (nblocks * 4) vDataToHash) h1 in
  let h1 := Z.lxor h1 (uint32 (Zlen vDataToHash)) in
  let h1 := Z.lxor h1 (Z.shiftr h1 16) in
  let h1 := uint32 (h1 * 0x85ebca6b) in
  let h1 := Z.lxor h1 (Z.shiftr h1 13) in
  let h1 := uint32 (h1 * 0xc2b2ae35) in
  Z.lxor h1 (Z.shiftr h1 16).

(** Vectors of the reference implementation. *)
Example MurmurHash3_vectors :
  MurmurHash3 0 [] = 0 /\ MurmurHash3 0xFBA4C795 [] = 0x6a396f08 /\
  MurmurHash3 0xffffffff [] = 0x81f16f39 /\ MurmurHash3 0 [0] = 0x514e28b7 /\
  MurmurHash3 0xFBA4C795 [0] = 0xea3f0b17 /\ MurmurHash3 0 [0xff] = 0xfd6cf10d /\
  MurmurHash3 0 [0; 0x11] = 0x16c6b7ab /\ MurmurHash3 0 [0; 0x11; 0x22] = 0x8eb51c3d /\
  MurmurHash3 0 [0; 0x11; 0x22; 0x33] = 0xb4471bf8 /\
  MurmurHash3 0 [0; 0x11; 0x22; 0x33; 0x44; 0x55; 0x66; 0x77; 0x88] = 0xb4698def.
Proof. vm_compute. repeat split. Qed.

Definition BIP32Hash (chainCode : list Z) (nChild header : Z) (data : list Z) : list Z :=
  let num := [Z.land (Z.shiftr nChild 24) 0xff; Z.land (Z.shiftr nChild 16) 0xff;
              Z.land (Z.shiftr nChild 8) 0xff; Z.land (Z.shiftr nChild 0) 0xff] in
  CHMAC_SHA512_Finalize (CHMAC_SHA512_Write (CHMAC_SHA512_Write
    (CHMAC_SHA512_Write (CHMAC_SHA512 chainCode) [header]) data) num).
