(* ===== verification/SipHash.v ===== *)
(** * SipHash-2-4

    [CSipHasher], [SipHashUint256] and [SipHashUint256Extra] of [src/hash.cpp].
    The absorbed message is described with the block folding of [MDHash], for
    blocks of 8 bytes. *)

From S2P Require Import Prelude Common MDHash.

Open Scope outcome_scope.

(** [ROTL(x, b)] on [uint64_t]. *)
Definition ROTL (x b : Z) : Z := Z.lor (uint64 (Z.shiftl x b)) (Z.shiftr x (64 - b)).

(** The variables [v0], [v1], [v2], [v3]. *)
Definition sip_state : Type := Z * Z * Z * Z.

Definition SIPROUND (v : sip_state) : sip_state :=
  let '(v0, v1, v2, v3) := v in
  let v0 := add64 v0 v1 in let v1 := ROTL v1 13 in let v1 := Z.lxor v1 v0 in
  let v0 := ROTL v0 32 in
  let v2 := add64 v2 v3 in let v3 := ROTL v3 16 in let v3 := Z.lxor v3 v2 in
  let v0 := add64 v0 v3 in let v3 := ROTL v3 21 in let v3 := Z.lxor v3 v0 in
  let v2 := add64 v2 v1 in let v1 := ROTL v1 17 in let v1 := Z.lxor v1 v2 in
  let v2 := ROTL v2 32 in
  (v0, v1, v2, v3).

Definition xor_v0 (d : Z) (v : sip_state) : sip_state :=
  let '(v0, v1, v2, v3) := v in (Z.lxor v0 d, v1, v2, v3).

Definition xor_v2 (d : Z) (v : sip_state) : sip_state :=
  let '(v0, v1, v2, v3) := v in (v0, v1, Z.lxor v2 d, v3).

Definition xor_v3 (d : Z) (v : sip_state) : sip_state :=
  let '(v0, v1, v2, v3) := v in (v0, v1, v2, Z.lxor v3 d).

Definition sip_xor (v : sip_state) : Z :=
  let '(v0, v1, v2, v3) := v in Z.lxor (Z.lxor (Z.lxor v0 v1) v2) v3.

Record CSipHasher := SipHasher {
  sip_v : sip_state;
  sip_tmp : Z;
  sip_count : Z
}.

Definition CSipHasher_new (k0 k1 : Z) : CSipHasher :=
  SipHasher (Z.lxor 0x736f6d6570736575 k0, Z.lxor 0x646f72616e646f6d k1,
             Z.lxor 0x6c7967656e657261 k0, Z.lxor 0x7465646279746573 k1) 0 0.

(** [Write(uint64_t data)], with its assertion. *)
Definition sip_write_uint64 (h : CSipHasher) (data : Z) : outcome CSipHasher :=
  let? _ := cassert (sip_count h mod 8 =? 0) in
  let v := xor_v3 data (sip_v h) in
  let v := SIPROUND v in
  let v := SIPROUND v in
  let v := xor_v0 data v in
  Ret (SipHasher v (sip_tmp h) (sip_count h + 8)).

(** [Write(const unsigned char* data, size_t size)] *)
Fixpoint sip_write_loop (data : list Z) (v : sip_state) (t c : Z) : CSipHasher :=
  match data with
  | [] => SipHasher v t c
  | x :: data =>
    let t := Z.lor t (uint64 (Z.shiftl x (8 * (c mod 8)))) in
    let c := c + 1 in
    if Z.land c 7 =? 0 then
      let v := xor_v3 t v in
      let v := SIPROUND v in
      let v := SIPROUND v in
      let v := xor_v0 t v in
      sip_write_loop data v 0 c
    else sip_write_loop data v t c
  end.

Definition sip_write (h : CSipHasher) (data : list Z) : CSipHasher :=
  sip_write_loop data (sip_v h) (sip_tmp h) (sip_count h).

Definition sip_finalize (h : CSipHasher) : Z :=
  let t := Z.lor (sip_tmp h) (uint64 (Z.shiftl (uint64 (sip_count h)) 56)) in
  let v := xor_v3 t (sip_v h) in
  let v := SIPROUND v in
  let v := SIPROUND v in
  let v := xor_v0 t v in
  let v := xor_v2 0xFF v in
  let v := SIPROUND v in
  let v := SIPROUND v in
  let v := SIPROUND v in
  let v := SIPROUND v in
  sip_xor v.

(** [uint256::GetUint64(pos)] *)
Definition GetUint64 (val : list Z) (pos : nat) : Z := ReadLE64 (drop (pos * 8) val).

Definition SipHashUint256 (k0 k1 : Z) (val : list Z) : Z :=
  let d := GetUint64 val 0 in
  let v := (Z.lxor 0x736f6d6570736575 k0, Z.lxor 0x646f72616e646f6d k1,
            Z.lxor 0x6c7967656e657261 k0, Z.lxor (Z.lxor 0x7465646279746573 k1) d) in
  let v := SIPROUND v in
  let v := SIPROUND v in
  let v := xor_v0 d v in
  let d := GetUint64 val 1 in
  let v := xor_v3 d v in
  let v := SIPROUND v in
  let v := SIPROUND v in
  let v := xor_v0 d v in
  let d := GetUint64 val 2 in
  let v := xor_v3 d v in
  let v := SIPROUND v in
  let v := SIPROUND v in
  let v := xor_v0 d v in
  let d := GetUint64 val 3 in
  let v := xor_v3 d v in
  let v := SIPROUND v in
  let v := SIPROUND v in
  let v := xor_v0 d v in
  let v := xor_v3 (uint64 (Z.shiftl 4 59)) v in
  let v := SIPROUND v in
  let v := SIPROUND v in
  let v := xor_v0 (uint64 (Z.shiftl 4 59)) v in
  let v := xor_v2 0xFF v in
  let v := SIPROUND v in
  let v := SIPROUND v in
  let v := SIPROUND v in
  let v := SIPROUND v in
  sip_xor v.

Definition SipHashUint256Extra (k0 k1 : Z) (val : list Z) (extra : Z) : Z :=
  let d := GetUint64 val 0 in
  let v := (Z.lxor 0x736f6d6570736575 k0, Z.lxor 0x646f72616e646f6d k1,
            Z.lxor 0x6c7967656e657261 k0, Z.lxor (Z.lxor 0x7465646279746573 k1) d) in
  let v := SIPROUND v in
  let v := SIPROUND v in
  let v := xor_v0 d v in
  let d := GetUint64 val 1 in
  let v := xor_v3 d v in
  let v := SIPROUND v in
  let v := SIPROUND v in
  let v := xor_v0 d v in
  let d := GetUint64 val 2 in
  let v := xor_v3 d v in
  let v := SIPROUND v in
  let v := SIPROUND v in
  let v := xor_v0 d v in
  let d := GetUint64 val 3 in
  let v := xor_v3 d v in
  let v := SIPROUND v in
  let v := SIPROUND v in
  let v := xor_v0 d v in
  let d := Z.lor (uint64 (Z.shiftl 36 56)) extra in
  let v := xor_v3 d v in
  let v := SIPROUND v in
  let v := SIPROUND v in
  let v := xor_v0 d v in
  let v := xor_v2 0xFF v in
  let v := SIPROUND v in
  let v := SIPROUND v in
  let v := SIPROUND v in
  let v := SIPROUND v in
  sip_xor v.

(** ** The reference *)

(** Two rounds on one word. *)
Definition sip_word (v : sip_state) (w : Z) : sip_state :=
  xor_v0 w (SIPROUND (SIPROUND (xor_v3 w v))).

Definition sip_block (v : sip_state) (chunk : list Z) : sip_state :=
  sip_word v (le_decode (take 8 chunk)).

Definition sip_init (k0 k1 : Z) : sip_state := sip_v (CSipHasher_new k0 k1).

(** SipHash-2-4: the whole words, then the last bytes with the length in the top
    byte, then four rounds. *)
Definition siphash_spec (k0 k1 : Z) (m : list Z) : Z :=
  let n := (length m / 8)%nat in
  let v := compress 8 sip_block n (sip_init k0 k1) m in
  let v := sip_word v (le_decode (drop (n * 8) m) + Zlen m mod 256 * 2 ^ 56) in
  sip_xor (SIPROUND (SIPROUND (SIPROUND (SIPROUND (xor_v2 0xFF v))))).

(** ** Streaming *)

Section Streaming.
Variables k0 k1 : Z.

(** The hasher has been given the bytes [m]. *)
Definition sip_absorbed (h : CSipHasher) (m : list Z) : Prop :=
  bytes_ok m /\ sip_count h = Zlen m /\
  exists tail, absorbed 8 sip_block (sip_init k0 k1) (sip_v h) tail m /\ sip_tmp h = le_decode tail.

Lemma sip_absorbed_new : sip_absorbed (CSipHasher_new k0 k1) [].
Proof.
  split; [apply Forall_nil_2 |]. split; [done |]. exists []. split; [| done].
  apply absorbed_init; lia.
Qed.

(** The tail has fewer than eight bytes, and its length is the count modulo 8. *)
Lemma sip_tail v tail m :
  absorbed 8 sip_block (sip_init k0 k1) v tail m -> bytes_ok m ->
  Zlen m mod 8 = Zlen tail /\ Zlen tail < 8 /\ bytes_ok tail.
Proof.
  intros (n & Hlen & Hlt & _ & Htail) Hm. unfold Zlen. rewrite Hlen. split; [| split; [lia |]].
  - rewrite Nat2Z.inj_add, Nat2Z.inj_mul, Z.add_comm, Z.mod_add by lia. apply Z.mod_small. lia.
  - rewrite Htail. by apply bytes_ok_drop.
Qed.

Lemma sip_tmp_step tail x :
  bytes_ok tail -> is_byte x -> Zlen tail < 8 ->
  Z.lor (le_decode tail) (uint64 (Z.shiftl x (8 * Zlen tail))) = le_decode (tail ++ [x]).
Proof.
  intros Ht Hx Hlen. pose proof (Zlen_nonneg tail). unfold is_byte in Hx.
  pose proof (le_decode_bound tail Ht) as Hb.
  assert (Hp : 256 ^ Z.of_nat (length tail) = 2 ^ (8 * Zlen tail)) by (rewrite Z.pow_mul_r by lia; done).
  rewrite uint64_id.
  2: { rewrite Z.shiftl_mul_pow2 by lia. assert (2 ^ (8 * Zlen tail) <= 2 ^ 56) by (apply Z.pow_le_mono_r; lia).
       assert (0 < 2 ^ (8 * Zlen tail)) by (apply Z.pow_pos_nonneg; lia). nia. }
  rewrite lor_shiftl_add by lia. rewrite le_decode_app, Hp. cbn. lia.
Qed.

Lemma sip_byte v tail m x :
  absorbed 8 sip_block (sip_init k0 k1) v tail m -> bytes_ok m -> is_byte x ->
  sip_absorbed (sip_write_loop [x] v (le_decode tail) (Zlen m)) (m ++ [x]).
Proof.
  intros Habs Hm Hx. destruct (sip_tail _ _ _ Habs Hm) as (Hmod & Hlt & Htok).
  assert (Hok : bytes_ok (m ++ [x])) by (by rewrite bytes_ok_app, bytes_ok_1).
  cbn [sip_write_loop]. rewrite Hmod, sip_tmp_step by done.
  assert (Z.land (Zlen m + 1) 7 = (Zlen m + 1) mod 8) as -> by apply (Z.land_ones _ 3 ltac:(lia)).
  destruct (_ =? 0) eqn:E; bool_to_prop; (split; [done |]); (split; [by rewrite Zlen_app |]).
  - assert (Hlen : length (tail ++ [x]) = 8%nat).
    { rewrite length_app. cbn. unfold Zlen in *. Z.to_euclidean_division_equations. lia. }
    exists []. split; [| done]. cbn [sip_v].
    change (xor_v0 ?w (SIPROUND (SIPROUND (xor_v3 ?w v)))) with (sip_word v w).
    replace (sip_word v _) with (sip_block v (tail ++ [x])); [apply absorbed_block; [lia | done | done] |].
    unfold sip_block. by rewrite firstn_all2 by lia.
  - exists (tail ++ [x]). split; [| done]. cbn [sip_v]. apply absorbed_partial; [lia | done |].
    rewrite length_app. cbn. unfold Zlen in *. Z.to_euclidean_division_equations. lia.
Qed.

Lemma sip_write_loop_cons x data v t c :
  sip_write_loop (x :: data) v t c =
  (fun h => sip_write_loop data (sip_v h) (sip_tmp h) (sip_count h)) (sip_write_loop [x] v t c).
Proof. cbn [sip_write_loop]. by destruct (_ =? 0). Qed.

Lemma sip_write_absorbed h m data :
  bytes_ok data -> sip_absorbed h m -> sip_absorbed (sip_write h data) (m ++ data).
Proof.
  intros Hd. revert h m. induction data as [| x data IH]; intros h m Hh.
  { rewrite app_nil_r. by destruct h. }
  apply bytes_ok_cons in Hd as [Hx Hd]. unfold sip_write. rewrite sip_write_loop_cons.
  destruct Hh as (Hm & -> & tail & Habs & ->).
  replace (m ++ x :: data) with ((m ++ [x]) ++ data) by (by rewrite <- app_assoc).
  apply IH; [done |]. by apply sip_byte.
Qed.

Lemma sip_finalize_spec h m : sip_absorbed h m -> sip_finalize h = siphash_spec k0 k1 m.
Proof.
  intros (Hm & Hc & tail & Habs & Htmp). destruct (sip_tail _ _ _ Habs Hm) as (_ & Hlt & Htok).
  destruct Habs as (n & Hlen & Hlt' & Hv & Htail). unfold siphash_spec, sip_finalize.
  assert ((length m / 8)%nat = n) as -> by (symmetry; eapply Nat.div_unique; [exact Hlt' | lia]).
  rewrite Hv, Htmp, Hc, <- Htail.
  replace (Z.lor (le_decode tail) _) with (le_decode tail + Zlen m mod 256 * 2 ^ 56); [done |].
  assert (uint64 (Z.shiftl (uint64 (Zlen m)) 56) = Z.shiftl (Zlen m mod 256) 56) as ->.
  { unfold uint64. rewrite !Z.shiftl_mul_pow2 by lia.
    change (2 ^ 64) with (2 ^ 8 * 2 ^ 56). rewrite Z.mul_mod_distr_r by lia. f_equal.
    rewrite Z.rem_mul_r by lia. by rewrite Z.mul_comm, Z.mod_add, Z.mod_mod by lia. }
  pose proof (le_decode_bound tail Htok). pose proof (Zlen_nonneg tail).
  assert (256 ^ Z.of_nat (length tail) <= 256 ^ 7) by (apply Z.pow_le_mono_r; unfold Zlen in *; lia).
  rewrite lor_shiftl_add; [done | lia |]. change (2 ^ 56) with (256 ^ 7). lia.
Qed.

(** [Write(uint64_t)] is [Write] of the eight bytes, where its assertion holds. *)
Lemma sip_write_uint64_absorbed h m w :
  sip_absorbed h m -> Zlen m mod 8 = 0 -> 0 <= w < 2 ^ 64 ->
  exists h', sip_write_uint64 h w = Ret h' /\ sip_absorbed h' (m ++ WriteLE64 w).
Proof.
  intros (Hm & Hc & tail & Habs & Htmp) Hmod Hw. destruct (sip_tail _ _ _ Habs Hm) as (Ht & _ & _).
  assert (tail = []) as -> by (apply Zlen_0_nil; lia).
  unfold sip_write_uint64. rewrite Hc, Hmod. cbn [Z.eqb cassert obind]. eexists. split; [done |].
  unfold WriteLE64. rewrite uint64_id by done.
  assert (Hlen : length (le_encode 8 w) = 8%nat) by apply length_le_encode.
  split; [rewrite bytes_ok_app; split; [done | apply le_encode_ok] |].
  split; [cbn [sip_count]; rewrite Zlen_app; unfold Zlen; rewrite Hlen; lia |].
  exists []. split; [| by rewrite Htmp]. cbn [sip_v].
  change (xor_v0 w (SIPROUND (SIPROUND (xor_v3 w (sip_v h))))) with (sip_word (sip_v h) w).
  replace (sip_word (sip_v h) w) with (sip_block (sip_v h) ([] ++ le_encode 8 w)); [apply absorbed_block; [lia | done | done] |].
  unfold sip_block. cbn [app]. rewrite firstn_all2 by lia. rewrite le_decode_encode, Z.mod_small; [done | lia].
Qed.
End Streaming.

(** However a byte string is cut into [Write] calls, [CSipHasher] computes
    SipHash-2-4 of the whole string. *)
Theorem CSipHasher_correct k0 k1 ds :
  Forall bytes_ok ds ->
  sip_finalize (foldl sip_write (CSipHasher_new k0 k1) ds) = siphash_spec k0 k1 (concat ds).
Proof.
  intros Hds. apply sip_finalize_spec. change (concat ds) with ([] ++ concat ds).
  assert (Hnew := sip_absorbed_new k0 k1). revert Hnew.
  generalize (CSipHasher_new k0 k1) (@nil Z).
  induction Hds as [| d ds Hd _ IH]; intros h m Hh; cbn; [by rewrite app_nil_r |].
  rewrite app_assoc. by apply IH, sip_write_absorbed.
Qed.

Lemma CSipHasher_correct_witness :
  sip_finalize (foldl sip_write (CSipHasher_new 0x0706050403020100 0x0F0E0D0C0B0A0908) [[0; 1; 2]; [3; 4; 5; 6]; [7; 8]]) =
    siphash_spec 0x0706050403020100 0x0F0E0D0C0B0A0908 [0; 1; 2; 3; 4; 5; 6; 7; 8].
Proof.
  apply (CSipHasher_correct _ _ [[0; 1; 2]; [3; 4; 5; 6]; [7; 8]]).
  repeat constructor; discriminate.
Defined.

(** The published vector of the 15 bytes 0 to 14. *)
Example siphash_vector :
  siphash_spec 0x0706050403020100 0x0F0E0D0C0B0A0908 [0; 1; 2; 3; 4; 5; 6; 7; 8; 9; 10; 11; 12; 13; 14] =
  0xa129ca6149be45e5.
Proof. vm_compute. reflexivity. Qed.

(** The four words of a [uint256] are the blocks of its 32 bytes. *)
Lemma sip_four_words k0 k1 val rest :
  length val = 32%nat ->
  compress 8 sip_block 4 (sip_init k0 k1) (val ++ rest) =
  sip_word (sip_word (sip_word (sip_word (sip_init k0 k1) (GetUint64 val 0)) (GetUint64 val 1))
    (GetUint64 val 2)) (GetUint64 val 3).
Proof.
  intros Hlen. rewrite compress_app by lia. cbn [compress]. unfold sip_block, GetUint64, ReadLE64.
  rewrite !drop_drop, !take_take, drop_0. done.
Qed.

Lemma sip_first_word k0 k1 d :
  (Z.lxor 0x736f6d6570736575 k0, Z.lxor 0x646f72616e646f6d k1,
   Z.lxor 0x6c7967656e657261 k0, Z.lxor (Z.lxor 0x7465646279746573 k1) d) = xor_v3 d (sip_init k0 k1).
Proof. done. Qed.

Lemma sip_write_uint64_word h w :
  sip_count h mod 8 = 0 ->
  sip_write_uint64 h w = Ret (SipHasher (sip_word (sip_v h) w) (sip_tmp h) (sip_count h + 8)).
Proof. intros Hc. unfold sip_write_uint64. by rewrite Hc. Qed.

#[local] Opaque SIPROUND xor_v0 xor_v2 xor_v3 sip_xor GetUint64 sip_init.

(** The two specialised routines are SipHash-2-4 of the 32 bytes of the
    [uint256], respectively of those bytes followed by the four bytes of [extra];
    the first is the sequence of [Write(uint64_t)] its comment gives. *)
Theorem SipHashUint256_correct k0 k1 val extra :
  length val = 32%nat -> 0 <= extra < 2 ^ 32 ->
  SipHashUint256 k0 k1 val = siphash_spec k0 k1 val /\
  SipHashUint256Extra k0 k1 val extra = siphash_spec k0 k1 (val ++ WriteLE32 extra) /\
  (let? h := sip_write_uint64 (CSipHasher_new k0 k1) (GetUint64 val 0) in
   let? h := sip_write_uint64 h (GetUint64 val 1) in
   let? h := sip_write_uint64 h (GetUint64 val 2) in
   let? h := sip_write_uint64 h (GetUint64 val 3) in
   Ret (sip_finalize h)) = Ret (SipHashUint256 k0 k1 val).
Proof.
  intros Hlen Hextra.
  assert (Hlen' : length (val ++ WriteLE32 extra) = 36%nat)
    by (rewrite length_app, Hlen; unfold WriteLE32; by rewrite length_le_encode).
  unfold SipHashUint256, SipHashUint256Extra. rewrite !sip_first_word.
  split; [| split].
  - unfold siphash_spec. rewrite Hlen. change (32 / 8)%nat with 4%nat.
    pose proof (sip_four_words k0 k1 val [] Hlen) as H4. rewrite app_nil_r in H4. rewrite H4.
    rewrite drop_ge by (rewrite Hlen; done). unfold Zlen. rewrite Hlen. done.
  - unfold siphash_spec. rewrite Hlen'. change (36 / 8)%nat with 4%nat. rewrite sip_four_words by done.
    change (4 * 8)%nat with 32%nat. rewrite <- Hlen at 1. rewrite drop_app_length.
    unfold Zlen. rewrite Hlen'. unfold WriteLE32. rewrite uint32_id, le_decode_encode, Z.mod_small by lia.
    assert (Z.lor (uint64 (Z.shiftl 36 56)) extra = extra + Z.of_nat 36 mod 256 * 2 ^ 56) as ->.
    { rewrite Z.lor_comm. change (uint64 (Z.shiftl 36 56)) with (Z.shiftl 36 56).
      rewrite lor_shiftl_add by lia. done. }
    done.
  - do 4 (rewrite sip_write_uint64_word by done; cbn [obind]). done.
Qed.

Lemma SipHashUint256_correct_witness :
  SipHashUint256 1 2 (replicate 32 7) = siphash_spec 1 2 (replicate 32 7).
Proof.
  apply (SipHashUint256_correct 1 2 (replicate 32 7) 5).
  - reflexivity.
  - split; [discriminate | reflexivity].
Defined.
