(* ===== verification/SigEncoding.v ===== *)
(** * Encodings of signatures, keys and pushes

    The checks of [src/script/interpreter.cpp] that come before the interpreter
    proper, with the error codes of [src/script/script_error.h] and the flags of
    [src/script/interpreter.h]. A function [bool f(..., ScriptError* serror)] is a
    function to [option ScriptError]: [None] for [true], the error it sets for
    [false]. Reads [v[i]] go through [index], which is undefined out of range. *)

From S2P Require Import Prelude Common Opcodes ScriptNum Script.

Open Scope outcome_scope.

Inductive ScriptError :=
  | SCRIPT_ERR_OK
  | SCRIPT_ERR_UNKNOWN_ERROR
  | SCRIPT_ERR_EVAL_FALSE
  | SCRIPT_ERR_OP_RETURN
  | SCRIPT_ERR_SCRIPT_SIZE
  | SCRIPT_ERR_PUSH_SIZE
  | SCRIPT_ERR_OP_COUNT
  | SCRIPT_ERR_STACK_SIZE
  | SCRIPT_ERR_SIG_COUNT
  | SCRIPT_ERR_PUBKEY_COUNT
  | SCRIPT_ERR_VERIFY
  | SCRIPT_ERR_EQUALVERIFY
  | SCRIPT_ERR_CHECKMULTISIGVERIFY
  | SCRIPT_ERR_CHECKSIGVERIFY
  | SCRIPT_ERR_NUMEQUALVERIFY
  | SCRIPT_ERR_BAD_OPCODE
  | SCRIPT_ERR_DISABLED_OPCODE
  | SCRIPT_ERR_INVALID_STACK_OPERATION
  | SCRIPT_ERR_INVALID_ALTSTACK_OPERATION
  | SCRIPT_ERR_UNBALANCED_CONDITIONAL
  | SCRIPT_ERR_NEGATIVE_LOCKTIME
  | SCRIPT_ERR_UNSATISFIED_LOCKTIME
  | SCRIPT_ERR_SIG_HASHTYPE
  | SCRIPT_ERR_SIG_DER
  | SCRIPT_ERR_MINIMALDATA
  | SCRIPT_ERR_SIG_PUSHONLY
  | SCRIPT_ERR_SIG_HIGH_S
  | SCRIPT_ERR_SIG_NULLDUMMY
  | SCRIPT_ERR_PUBKEYTYPE
  | SCRIPT_ERR_CLEANSTACK
  | SCRIPT_ERR_MINIMALIF
  | SCRIPT_ERR_SIG_NULLFAIL
  | SCRIPT_ERR_DISCOURAGE_UPGRADABLE_NOPS
  | SCRIPT_ERR_DISCOURAGE_UPGRADABLE_WITNESS_PROGRAM
  | SCRIPT_ERR_WITNESS_PROGRAM_WRONG_LENGTH
  | SCRIPT_ERR_WITNESS_PROGRAM_WITNESS_EMPTY
  | SCRIPT_ERR_WITNESS_PROGRAM_MISMATCH
  | SCRIPT_ERR_WITNESS_MALLEATED
  | SCRIPT_ERR_WITNESS_MALLEATED_P2SH
  | SCRIPT_ERR_WITNESS_UNEXPECTED
  | SCRIPT_ERR_WITNESS_PUBKEYTYPE
  | SCRIPT_ERR_ILLEGAL_FORKID
  | SCRIPT_ERR_MUST_USE_FORKID.

#[export] Instance ScriptError_eq_dec : EqDecision ScriptError.
Proof. solve_decision. Defined.

(** ** Flags *)

Definition SIGHASH_ALL : Z := 1.

Definition SIGHASH_NONE : Z := 2.

Definition SIGHASH_SINGLE : Z := 3.

Definition SIGHASH_FORKID : Z := 0x8.

Definition SIGHASH_ANYONECANPAY : Z := 0x80.

Definition SCRIPT_VERIFY_NONE : Z := 0.

Definition SCRIPT_VERIFY_P2SH : Z := Z.shiftl 1 0.

Definition SCRIPT_VERIFY_STRICTENC : Z := Z.shiftl 1 1.

Definition SCRIPT_VERIFY_DERSIG : Z := Z.shiftl 1 2.

Definition SCRIPT_VERIFY_LOW_S : Z := Z.shiftl 1 3.

Definition SCRIPT_VERIFY_NULLDUMMY : Z := Z.shiftl 1 4.

Definition SCRIPT_VERIFY_SIGPUSHONLY : Z := Z.shiftl 1 5.

Definition SCRIPT_VERIFY_MINIMALDATA : Z := Z.shiftl 1 6.

Definition SCRIPT_VERIFY_DISCOURAGE_UPGRADABLE_NOPS : Z := Z.shiftl 1 7.

Definition SCRIPT_VERIFY_CLEANSTACK : Z := Z.shiftl 1 8.

Definition SCRIPT_VERIFY_CHECKLOCKTIMEVERIFY : Z := Z.shiftl 1 9.

Definition SCRIPT_VERIFY_CHECKSEQUENCEVERIFY : Z := Z.shiftl 1 10.

Definition SCRIPT_VERIFY_WITNESS : Z := Z.shiftl 1 11.

Definition SCRIPT_VERIFY_DISCOURAGE_UPGRADABLE_WITNESS_PROGRAM : Z := Z.shiftl 1 12.

Definition SCRIPT_VERIFY_MINIMALIF : Z := Z.shiftl 1 13.

Definition SCRIPT_VERIFY_NULLFAIL : Z := Z.shiftl 1 14.

Definition SCRIPT_VERIFY_WITNESS_PUBKEYTYPE : Z := Z.shiftl 1 15.

Definition SCRIPT_ENABLE_SIGHASH_FORKID : Z := Z.shiftl 1 18.

Definition SCRIPT_EXEC_BYTE_CODE : Z := Z.shiftl 1 30.

Inductive SigVersion :=
  | SIGVERSION_BASE
  | SIGVERSION_WITNESS_V0.

#[export] Instance SigVersion_eq_dec : EqDecision SigVersion.
Proof. solve_decision. Defined.

(** ** Booleans on the stack *)

Fixpoint CastToBool (vch : list Z) : bool :=
  match vch with
  | [] => false
  | b :: vch' =>
    if negb (b =? 0) then negb (match vch' with [] => b =? 0x80 | _ => false end)
    else CastToBool vch'
  end.

(** ** Public keys *)

Definition IsCompressedOrUncompressedPubKey (vchPubKey : list Z) : outcome bool :=
  if Zlen vchPubKey <? 33 then Ret false
  else
    let? b := index vchPubKey 0 in
    if b =? 0x04 then Ret (Zlen vchPubKey =? 65)
    else if (b =? 0x02) || (b =? 0x03) then Ret (Zlen vchPubKey =? 33)
    else Ret false.

Definition IsCompressedPubKey (vchPubKey : list Z) : outcome bool :=
  if negb (Zlen vchPubKey =? 33) then Ret false
  else
    let? b := index vchPubKey 0 in
    Ret ((b =? 0x02) || (b =? 0x03)).

(** ** Signatures *)

Definition IsValidSignatureEncoding (sig : list Z) : outcome bool :=
  if Zlen sig <? 9 then Ret false
  else if Zlen sig >? 73 then Ret false
  else
    let? b0 := index sig 0 in
    if negb (b0 =? 0x30) then Ret false
    else
      let? b1 := index sig 1 in
      if negb (b1 =? Zlen sig - 3) then Ret false
      else
        let? lenR := index sig 3 in
        if 5 + lenR >=? Zlen sig then Ret false
        else
          let? lenS := index sig (5 + lenR) in
          if negb (lenR + lenS + 7 =? Zlen sig) then Ret false
          else
            let? b2 := index sig 2 in
            if negb (b2 =? 0x02) then Ret false
            else if lenR =? 0 then Ret false
            else
              let? r0 := index sig 4 in
              if flag r0 0x80 then Ret false
              else
                let? bad := (if (lenR >? 1) && (r0 =? 0x00)
                             then let? r1 := index sig 5 in Ret (negb (flag r1 0x80)) else Ret false) in
                if bad then Ret false
                else
                  let? t := index sig (lenR + 4) in
                  if negb (t =? 0x02) then Ret false
                  else if lenS =? 0 then Ret false
                  else
                    let? s0 := index sig (lenR + 6) in
                    if flag s0 0x80 then Ret false
                    else
                      let? bad := (if (lenS >? 1) && (s0 =? 0x00)
                                   then let? s1 := index sig (lenR + 7) in Ret (negb (flag s1 0x80))
                                   else Ret false) in
                      Ret (negb bad).

Section Checks.
(** [CPubKey::CheckLowS] *)
Variable CheckLowS : list Z -> bool.

Definition IsLowDERSignature (vchSig : list Z) : outcome (option ScriptError) :=
  let? ok := IsValidSignatureEncoding vchSig in
  if negb ok then Ret (Some SCRIPT_ERR_SIG_DER)
  else
    let vchSigCopy := take (length vchSig - 1) vchSig in
    if negb (CheckLowS vchSigCopy) then Ret (Some SCRIPT_ERR_SIG_HIGH_S)
    else Ret None.

Definition IsDefinedHashtypeSignature (vchSig : list Z) : outcome bool :=
  if Zlen vchSig =? 0 then Ret false
  else
    let? b := index vchSig (Zlen vchSig - 1) in
    let nHashType := uint8 (Z.land b (Z.lnot (Z.lor SIGHASH_ANYONECANPAY SIGHASH_FORKID))) in
    Ret (negb ((nHashType <? SIGHASH_ALL) || (nHashType >? SIGHASH_SINGLE))).

(** The branch chain of [CheckSignatureEncoding]; the statements after the
    [return] of its last branch are never reached. *)
Definition CheckSignatureEncoding (vchSig : list Z) (flags : Z) : outcome (option ScriptError) :=
  if Zlen vchSig =? 0 then Ret None
  else
    let? bad_der := (if flag flags (Z.lor (Z.lor SCRIPT_VERIFY_DERSIG SCRIPT_VERIFY_LOW_S) SCRIPT_VERIFY_STRICTENC)
                     then let? ok := IsValidSignatureEncoding vchSig in Ret (negb ok) else Ret false) in
    if bad_der then Ret (Some SCRIPT_ERR_SIG_DER)
    else
      let? low_s := (if flag flags SCRIPT_VERIFY_LOW_S then IsLowDERSignature vchSig else Ret None) in
      match low_s with
      | Some e => Ret (Some e)
      | None =>
        let? bad_type := (if flag flags SCRIPT_VERIFY_STRICTENC
                          then let? ok := IsDefinedHashtypeSignature vchSig in Ret (negb ok) else Ret false) in
        if bad_type then Ret (Some SCRIPT_ERR_SIG_HASHTYPE) else Ret None
      end.
End Checks.

Definition CheckPubKeyEncoding (vchPubKey : list Z) (flags : Z) (sigversion : SigVersion) : outcome (option ScriptError) :=
  let? bad := (if flag flags SCRIPT_VERIFY_STRICTENC
               then let? ok := IsCompressedOrUncompressedPubKey vchPubKey in Ret (negb ok) else Ret false) in
  if bad then Ret (Some SCRIPT_ERR_PUBKEYTYPE)
  else
    let? bad := (if flag flags SCRIPT_VERIFY_WITNESS_PUBKEYTYPE && bool_decide (sigversion = SIGVERSION_WITNESS_V0)
                 then let? ok := IsCompressedPubKey vchPubKey in Ret (negb ok) else Ret false) in
    if bad then Ret (Some SCRIPT_ERR_WITNESS_PUBKEYTYPE) else Ret None.

(** ** Pushes *)

Definition CheckMinimalPush (data : list Z) (opcode : Z) : bool :=
  if Zlen data =? 0 then opcode =? OP_0
  else if (Zlen data =? 1) && (byte_at data 0 >=? 1) && (byte_at data 0 <=? 16) then
    opcode =? OP_1 + (byte_at data 0 - 1)
  else if (Zlen data =? 1) && (byte_at data 0 =? 0x81) then opcode =? OP_1NEGATE
  else if Zlen data <=? 75 then opcode =? Zlen data
  else if Zlen data <=? 255 then opcode =? OP_PUSHDATA1
  else if Zlen data <=? 65535 then opcode =? OP_PUSHDATA2
  else true.

(** ** What the signature check accepts *)

Lemma index_app {A} (l r : list A) x i : i = Zlen l -> index (l ++ x :: r) i = Ret x.
Proof.
  intros ->. unfold index, Zlen. rewrite (proj2 (Z.ltb_ge _ _)), Nat2Z.id by lia.
  by rewrite list_lookup_middle.
Qed.

(** A DER integer: not empty, not negative, no superfluous leading zero. *)
Definition der_int (v : list Z) : bool :=
  match v with
  | [] => false
  | x :: v' => negb (flag x 0x80) && (negb (x =? 0) || match v' with [] => true | y :: _ => flag y 0x80 end)
  end.

(** The fields of a signature, laid out. *)
Definition sig_layout (b0 b1 b2 : Z) (R : list Z) (t : Z) (S : list Z) (h : Z) : list Z :=
  b0 :: b1 :: b2 :: Zlen R :: R ++ t :: Zlen S :: S ++ [h].

Lemma Zlen_sig_layout b0 b1 b2 R t S h :
  Zlen (sig_layout b0 b1 b2 R t S h) = Zlen R + Zlen S + 7.
Proof. unfold sig_layout. rewrite !Zlen_cons, !Zlen_app, !Zlen_cons, Zlen_app. unfold Zlen. cbn. lia. Qed.

(** The tests on an integer [x :: ...] at position [i] of the signature. *)
Definition der_int_test (sig : list Z) (len i : Z) : outcome bool :=
  let? x := index sig i in
  if flag x 0x80 then Ret false
  else let? bad := (if (len >? 1) && (x =? 0x00)
                    then let? y := index sig (i + 1) in Ret (negb (flag y 0x80)) else Ret false) in
  Ret (negb bad).

Lemma der_int_test_spec l v r i :
  i = Zlen l -> v <> [] -> der_int_test (l ++ v ++ r) (Zlen v) i = Ret (der_int v).
Proof.
  intros -> Hv. destruct v as [| x v]; [done |]. unfold der_int_test, der_int.
  cbn [app]. rewrite (index_app l) by done. cbn [obind].
  destruct (flag x 0x80); [done |]. cbn [negb andb].
  rewrite Zlen_cons, Z.gtb_ltb. destruct v as [| y v]; [cbn; by rewrite orb_true_r |].
  pose proof (Zlen_nonneg v). rewrite Zlen_cons, (proj2 (Z.ltb_lt _ _)) by lia. cbn [andb].
  destruct (x =? 0); cbn [obind]; [| done].
  replace (l ++ x :: (y :: v) ++ r) with ((l ++ [x]) ++ y :: v ++ r) by (by rewrite <- app_assoc).
  rewrite index_app by (by rewrite Zlen_app). cbn [obind]. by rewrite negb_involutive.
Qed.

(** The check as the code makes it, with the tests on the integers folded. *)
Lemma IsValidSignatureEncoding_folded sig :
  IsValidSignatureEncoding sig =
  (if Zlen sig <? 9 then Ret false else if Zlen sig >? 73 then Ret false
   else
     let? b0 := index sig 0 in
     if negb (b0 =? 0x30) then Ret false else
     let? b1 := index sig 1 in
     if negb (b1 =? Zlen sig - 3) then Ret false else
     let? lenR := index sig 3 in
     if 5 + lenR >=? Zlen sig then Ret false else
     let? lenS := index sig (5 + lenR) in
     if negb (lenR + lenS + 7 =? Zlen sig) then Ret false else
     let? b2 := index sig 2 in
     if negb (b2 =? 0x02) then Ret false else if lenR =? 0 then Ret false else
     let? okR := der_int_test sig lenR 4 in
     if negb okR then Ret false else
     let? t := index sig (lenR + 4) in
     if negb (t =? 0x02) then Ret false else if lenS =? 0 then Ret false else
     der_int_test sig lenS (lenR + 6)).
Proof.
  unfold IsValidSignatureEncoding, der_int_test. repeat (case_match; [done |]).
  repeat match goal with
  | |- obind ?m _ = obind ?m _ => destruct m as [? | ? | |]; cbn [obind]; [| done ..]
  | |- (if ?c then Ret false else _) = (if ?c then Ret false else _) => destruct c; [done |]
  end.
  change (4 + 1) with 5.
  match goal with |- context [index sig (?a + 6 + 1)] => replace (a + 6 + 1) with (a + 7) by lia end.
  destruct (index sig 4) as [r0 | | |]; cbn [obind]; [| done ..]. destruct (flag r0 0x80); [done |].
  match goal with |- obind ?m _ = _ => destruct m as [bad | | |]; cbn [obind]; [| done ..] end.
  by destruct bad.
Qed.

(** The check on a laid out signature. *)
Lemma IsValidSignatureEncoding_layout b0 b1 b2 R t S h :
  IsValidSignatureEncoding (sig_layout b0 b1 b2 R t S h) =
  Ret ((Zlen R + Zlen S <=? 66) && (b0 =? 0x30) && (b1 =? Zlen R + Zlen S + 4) && (b2 =? 0x02) &&
       der_int R && (t =? 0x02) && der_int S).
Proof.
  rewrite IsValidSignatureEncoding_folded, Zlen_sig_layout.
  pose proof (Zlen_nonneg R). pose proof (Zlen_nonneg S).
  set (sig := sig_layout b0 b1 b2 R t S h).
  assert (H5 : index sig (5 + Zlen R) = Ret (Zlen S)).
  { replace sig with (([b0; b1; b2; Zlen R] ++ R ++ [t]) ++ Zlen S :: S ++ [h])
      by (unfold sig, sig_layout; cbn; by rewrite <- app_assoc).
    apply index_app. rewrite !Zlen_app. unfold Zlen. cbn. lia. }
  assert (H4 : index sig (Zlen R + 4) = Ret t).
  { replace sig with (([b0; b1; b2; Zlen R] ++ R) ++ t :: Zlen S :: S ++ [h]) by done.
    apply index_app. rewrite Zlen_app. unfold Zlen. cbn. lia. }
  assert (HR : R <> [] -> der_int_test sig (Zlen R) 4 = Ret (der_int R)).
  { intros HR. by apply (der_int_test_spec [b0; b1; b2; Zlen R]). }
  assert (HS : S <> [] -> der_int_test sig (Zlen S) (Zlen R + 6) = Ret (der_int S)).
  { intros HS. replace sig with (([b0; b1; b2; Zlen R] ++ R ++ [t; Zlen S]) ++ S ++ [h])
      by (unfold sig, sig_layout; cbn; by rewrite <- app_assoc).
    apply der_int_test_spec; [| done]. rewrite !Zlen_app. unfold Zlen. cbn. lia. }
  change (index sig 0) with (Ret b0). change (index sig 1) with (Ret b1).
  change (index sig 2) with (Ret b2). change (index sig 3) with (Ret (Zlen R)).
  clearbody sig. cbn [obind]. rewrite H5, H4. cbn [obind].
  rewrite Z.geb_leb, (proj2 (Z.leb_gt _ (5 + Zlen R))) by lia.
  rewrite Z.eqb_refl. cbn [negb].
  replace (Zlen R + Zlen S + 7 - 3) with (Zlen R + Zlen S + 4) by lia.
  destruct R as [| x R]; [cbn; rewrite !andb_false_r; repeat case_match; done |].
  destruct S as [| y S].
  { cbn [der_int]. rewrite !andb_false_r. cbn [negb]. rewrite HR by done. cbn [obind].
    repeat case_match; done. }
  rewrite HR, HS by done. cbn [obind]. rewrite !Zlen_cons in *.
  rewrite !(proj2 (Z.eqb_neq (1 + _) 0)) by (pose proof (Zlen_nonneg R); pose proof (Zlen_nonneg S); lia).
  destruct (der_int (x :: R)), (der_int (y :: S)), (b0 =? 0x30), (b1 =? _), (b2 =? 0x02), (t =? 0x02);
    cbn [negb]; rewrite ?andb_false_r, ?andb_true_r; try (repeat case_match; done).
  rewrite Z.gtb_ltb, (proj2 (Z.ltb_ge _ 9)) by (pose proof (Zlen_nonneg R); pose proof (Zlen_nonneg S); lia).
  destruct (Z.ltb_spec 73 (1 + Zlen R + (1 + Zlen S) + 7)), (Z.leb_spec (1 + Zlen R + (1 + Zlen S)) 66); try done; lia.
Qed.

Lemma index_Some {A} (v : list A) i : 0 <= i < Zlen v -> exists x, index v i = Ret x.
Proof.
  intros Hi. unfold index, Zlen in *. rewrite (proj2 (Z.ltb_ge _ _)) by lia.
  destruct (v !! Z.to_nat i) eqn:E; [by eexists |]. apply lookup_ge_None in E. lia.
Qed.

(** Bytes that are not laid out as a signature are rejected. *)
Lemma IsValidSignatureEncoding_shape sig :
  bytes_ok sig ->
  IsValidSignatureEncoding sig = Ret false \/
  exists b0 b1 b2 R t S h, sig = sig_layout b0 b1 b2 R t S h.
Proof.
  intros Hok. rewrite IsValidSignatureEncoding_folded.
  destruct (Zlen sig <? 9) eqn:H9; [by left |]. bool_to_prop.
  destruct (Zlen sig >? 73); [by left |].
  destruct sig as [| b0 [| b1 [| b2 [| lenR rest]]]]; try (unfold Zlen in H9; cbn in H9; lia).
  assert (HlenR : 0 <= lenR) by (unfold bytes_ok in Hok; rewrite !List.Forall_cons_iff in Hok; unfold is_byte in Hok; lia).
  change (index (b0 :: b1 :: b2 :: lenR :: rest) 0) with (Ret b0).
  change (index (b0 :: b1 :: b2 :: lenR :: rest) 1) with (Ret b1).
  change (index (b0 :: b1 :: b2 :: lenR :: rest) 3) with (Ret lenR). cbn [obind].
  do 2 (case_match; [by left |]). rewrite Z.geb_leb. destruct (_ <=? 5 + lenR) eqn:H5; [by left |]. bool_to_prop.
  rewrite !Zlen_cons in *.
  assert (HR : Zlen (take (Z.to_nat lenR) rest) = lenR) by (unfold Zlen in *; rewrite length_take; lia).
  pose proof (take_drop (Z.to_nat lenR) rest) as Hrest.
  assert (Hdrop : 2 <= Zlen (drop (Z.to_nat lenR) rest)) by (unfold Zlen in *; rewrite length_drop; lia).
  destruct (drop (Z.to_nat lenR) rest) as [| t [| lenS rest2]]; try (unfold Zlen in Hdrop; cbn in Hdrop; lia).
  set (R := take (Z.to_nat lenR) rest) in *. rewrite <- Hrest in *.
  replace (index _ (5 + lenR)) with (Ret lenS).
  2: { symmetry. replace (b0 :: _) with (([b0; b1; b2; lenR] ++ R ++ [t]) ++ lenS :: rest2)
         by (cbn; by rewrite <- app_assoc). apply index_app. rewrite !Zlen_app, HR. unfold Zlen. cbn. lia. }
  cbn [obind]. destruct (negb (_ =? _)) eqn:Hsum; [by left |]. bool_to_prop. right.
  rewrite Zlen_app, !Zlen_cons, HR in Hsum.
  assert (HS : rest2 <> []) by (intros ->; unfold Zlen in *; cbn in *;
    unfold bytes_ok in Hok; rewrite !List.Forall_cons_iff, Forall_app, !List.Forall_cons_iff in Hok; unfold is_byte in Hok; lia).
  destruct (exists_last HS) as (S & h & ->). rewrite Zlen_app in Hsum. unfold Zlen in Hsum at 1. 
  exists b0, b1, b2, R, t, S, h. unfold sig_layout. rewrite HR. repeat f_equal.
  unfold Zlen in *. cbn in *. lia.
Qed.

(** On any byte string [IsValidSignatureEncoding] reads only inside it, and it
    accepts exactly the strict DER signatures with a hash type:
    [30 len 02 |R| R 02 |S| S hashtype] with [R] and [S] minimal non-negative
    integers and at most 73 bytes in all. *)
Theorem IsValidSignatureEncoding_strict_der sig :
  bytes_ok sig ->
  exists b, IsValidSignatureEncoding sig = Ret b /\
  (b = true <-> exists R S h, der_int R = true /\ der_int S = true /\ Zlen R + Zlen S <= 66 /\
     sig = 0x30 :: (Zlen R + Zlen S + 4) :: 0x02 :: Zlen R :: R ++ 0x02 :: Zlen S :: S ++ [h]).
Proof.
  intros Hok. destruct (IsValidSignatureEncoding_shape sig Hok) as [Hf | (b0 & b1 & b2 & R & t & S & h & ->)].
  - exists false. split; [done |]. split; [done |]. intros (R & S & h & HR & HS & Hlen & Hsig).
    change (sig = sig_layout 0x30 (Zlen R + Zlen S + 4) 0x02 R 0x02 S h) in Hsig. subst sig.
    rewrite IsValidSignatureEncoding_layout, HR, HS, (proj2 (Z.leb_le (Zlen R + Zlen S) 66)), !Z.eqb_refl in Hf by done. done.
  - rewrite IsValidSignatureEncoding_layout. eexists. split; [done |].
    rewrite !andb_true_iff, !Z.eqb_eq, Z.leb_le. split.
    + intros ((((((? & ->) & ->) & ->) & ?) & ->) & ?). by exists R, S, h.
    + intros (R' & S' & h' & HR & HS & Hlen & Hsig).
      assert (Hv := IsValidSignatureEncoding_layout 0x30 (Zlen R' + Zlen S' + 4) 0x02 R' 0x02 S' h').
      change (sig_layout b0 b1 b2 R t S h = sig_layout 0x30 (Zlen R' + Zlen S' + 4) 0x02 R' 0x02 S' h') in Hsig.
      rewrite <- Hsig, IsValidSignatureEncoding_layout, HR, HS, (proj2 (Z.leb_le (Zlen R' + Zlen S') 66)), !Z.eqb_refl in Hv by done.
      injection Hv. by rewrite !andb_true_iff, !Z.eqb_eq, Z.leb_le.
Qed.

Lemma IsValidSignatureEncoding_strict_der_witness :
  exists b, IsValidSignatureEncoding [0x30; 6; 2; 1; 5; 2; 1; 7; 0x41] = Ret b /\ b = true.
Proof.
  destruct (IsValidSignatureEncoding_strict_der [0x30; 6; 2; 1; 5; 2; 1; 7; 0x41]) as (b & Hb & Hiff).
  - repeat constructor; discriminate.
  - exists b. split; [exact Hb |]. apply Hiff. exists [5], [7], 0x41.
    split; [reflexivity |]. split; [reflexivity |]. split; [discriminate | reflexivity].
Defined.

(** ** Minimal pushes *)

(** The bytes between the opcode and the operand of a push. *)
Definition push_header (op n : Z) : list Z :=
  if op <? OP_PUSHDATA1 then []
  else if op =? OP_PUSHDATA1 then [n]
  else if op =? OP_PUSHDATA2 then le_encode 2 n else le_encode 4 n.

Lemma take_drop_decode n (pc : list Z) :
  bytes_ok pc -> Z.of_nat n <= Zlen pc -> pc = le_encode n (le_decode (take n pc)) ++ drop n pc.
Proof.
  intros Hok Hn. assert (Hlen : length (take n pc) = n) by (unfold Zlen in Hn; rewrite length_take; lia).
  rewrite <- Hlen at 1. rewrite le_encode_decode by (by apply bytes_ok_take). by rewrite take_drop.
Qed.

Lemma GetOp2_size_inv op s n s' :
  bytes_ok s -> 0 <= op -> GetOp2_size op s = Some (n, s') ->
  s = push_header op n ++ s' /\ 0 <= n /\ (op < OP_PUSHDATA1 -> op = n) /\
  (op = OP_PUSHDATA1 -> n < 2 ^ 8) /\ (op = OP_PUSHDATA2 -> n < 2 ^ 16).
Proof.
  intros Hok Hop. unfold GetOp2_size, push_header.
  assert (Hdec : forall k, 0 <= le_decode (take k s) < 256 ^ Z.of_nat (length (take k s)))
    by (intros k; by apply le_decode_bound, bytes_ok_take).
  destruct (op <? OP_PUSHDATA1) eqn:H1; [| destruct (op =? OP_PUSHDATA1) eqn:H2;
    [| destruct (op =? OP_PUSHDATA2) eqn:H3]]; bool_to_prop.
  - intros H. simplify_eq. unfold OP_PUSHDATA1, OP_PUSHDATA2 in *. split; [done |]. lia.
  - destruct (Zlen s <? 1) eqn:Hl; [done |]. bool_to_prop. intros H. simplify_eq.
    destruct s as [| x s]; [unfold Zlen in Hl; cbn in Hl; lia |].
    apply bytes_ok_cons in Hok as [Hx _]. unfold is_byte in Hx. change (byte_at (x :: s) 0) with x.
    unfold OP_PUSHDATA1, OP_PUSHDATA2. cbn [drop]. rewrite drop_0. split; [done |]. lia.
  - destruct (Zlen s <? 2) eqn:Hl; [done |]. bool_to_prop. intros H. simplify_eq.
    specialize (Hdec 2%nat). rewrite length_take, Nat.min_l in Hdec by (unfold Zlen in Hl; lia).
    change (256 ^ Z.of_nat 2) with (2 ^ 16) in Hdec. unfold OP_PUSHDATA1, OP_PUSHDATA2, ReadLE16 in *.
    split; [by apply take_drop_decode |]. lia.
  - destruct (Zlen s <? 4) eqn:Hl; [done |]. bool_to_prop. intros H. simplify_eq.
    specialize (Hdec 4%nat). unfold ReadLE32. split; [by apply take_drop_decode |]. lia.
Qed.

(** A push that decodes is its opcode, its header and its operand. *)
Lemma GetOp2_push_inv pc :
  bytes_ok pc -> Zlen pc < 2 ^ 32 -> go_ret (GetOp2 pc) = true -> go_opcode (GetOp2 pc) <= OP_PUSHDATA4 ->
  let op := go_opcode (GetOp2 pc) in let vch := go_vch (GetOp2 pc) in
  pc = op :: push_header op (Zlen vch) ++ vch ++ go_pc (GetOp2 pc) /\
  (op < OP_PUSHDATA1 -> op = Zlen vch) /\ (op = OP_PUSHDATA1 -> Zlen vch < 2 ^ 8) /\
  (op = OP_PUSHDATA2 -> Zlen vch < 2 ^ 16).
Proof.
  intros Hok Hlen. destruct pc as [| op s]; [done |].
  destruct (proj1 (bytes_ok_cons op s) Hok) as [Hop Hs]. unfold is_byte in Hop.
  unfold GetOp2. destruct (op <=? OP_PUSHDATA4) eqn:H4; bool_to_prop; [| cbn; lia].
  destruct (GetOp2_size op s) as [[n s'] |] eqn:Hsize; [| done].
  apply GetOp2_size_inv in Hsize as (-> & Hn & H1 & H2 & H3); [| done | lia].
  destruct (_ <? n) eqn:Hfit; [done |]. bool_to_prop. intros _ _. cbv zeta. cbn [go_opcode go_vch go_pc].
  rewrite Zlen_cons, Zlen_app in Hlen. pose proof (Zlen_nonneg (push_header op n)). pose proof (Zlen_nonneg s').
  rewrite uint32_id in Hfit by lia.
  assert (Zlen (take (Z.to_nat n) s') = n) as -> by (unfold Zlen in *; rewrite length_take; lia).
  rewrite take_drop. done.
Qed.

(** The vectors with a one-byte instruction of their own. *)
Definition small_int (data : list Z) : bool :=
  (Zlen data =? 1) && (((byte_at data 0 >=? 1) && (byte_at data 0 <=? 16)) || (byte_at data 0 =? 0x81)).

Lemma push_data_header b :
  Zlen b < 2 ^ 32 -> push_data [] b = push_op (Zlen b) :: push_header (push_op (Zlen b)) (Zlen b) ++ b.
Proof.
  intros Hb. pose proof (Zlen_nonneg b). unfold push_data, push_op, push_header.
  destruct (Zlen b <? OP_PUSHDATA1) eqn:E1; [by rewrite E1, uint8_id by (unfold OP_PUSHDATA1 in E1; bool_to_prop; lia) |].
  destruct (Zlen b <=? 0xff) eqn:E2; bool_to_prop; [by rewrite uint8_id by lia |].
  destruct (Zlen b <=? 0xffff) eqn:E3; bool_to_prop; cbn [app].
  - unfold WriteLE16. by rewrite uint16_id by lia.
  - unfold WriteLE32. by rewrite uint32_id by lia.
Qed.

Lemma CheckMinimalPush_push_op data op :
  0 <= op <= OP_PUSHDATA4 -> (op < OP_PUSHDATA1 -> op = Zlen data) ->
  (op = OP_PUSHDATA1 -> Zlen data < 2 ^ 8) -> (op = OP_PUSHDATA2 -> Zlen data < 2 ^ 16) ->
  CheckMinimalPush data op = true <-> small_int data = false /\ op = push_op (Zlen data).
Proof.
  unfold CheckMinimalPush, small_int, push_op, OP_0, OP_1, OP_1NEGATE, OP_PUSHDATA1, OP_PUSHDATA2, OP_PUSHDATA4.
  intros Hop H1 H2 H3. pose proof (Zlen_nonneg data). generalize (byte_at data 0) as x. intros x.
  rewrite !Z.geb_leb.
  destruct (Z.eqb_spec (Zlen data) 0), (Z.eqb_spec (Zlen data) 1), (Z.leb_spec 1 x), (Z.leb_spec x 16),
    (Z.eqb_spec x 0x81); cbn [andb orb]; try lia;
    destruct (Z.leb_spec (Zlen data) 75), (Z.leb_spec (Zlen data) 255), (Z.leb_spec (Zlen data) 65535),
      (Z.ltb_spec (Zlen data) 0x4c); rewrite ?Z.eqb_eq; try lia.
Qed.

(** For a push instruction of a script, [CheckMinimalPush] holds exactly when
    its bytes are those [operator<<] writes for the operand and no one-byte
    instruction ([OP_1NEGATE], [OP_1] to [OP_16]) pushes the same value. *)
Theorem CheckMinimalPush_spec pc :
  bytes_ok pc -> Zlen pc < 2 ^ 32 -> go_ret (GetOp2 pc) = true -> go_opcode (GetOp2 pc) <= OP_PUSHDATA4 ->
  CheckMinimalPush (go_vch (GetOp2 pc)) (go_opcode (GetOp2 pc)) = true <->
  small_int (go_vch (GetOp2 pc)) = false /\ pc = push_data [] (go_vch (GetOp2 pc)) ++ go_pc (GetOp2 pc).
Proof.
  intros Hok Hlen Hret Hop. destruct (GetOp2_push_inv pc Hok Hlen Hret Hop) as (Hpc & H1 & H2 & H3).
  destruct (GetOp2_bytes pc Hok) as [Hb _]. unfold is_byte in Hb.
  set (vch := go_vch (GetOp2 pc)) in *. set (rest := go_pc (GetOp2 pc)) in *.
  assert (Zlen vch + Zlen rest < 2 ^ 32).
  { apply (f_equal Zlen) in Hpc. rewrite Zlen_cons, !Zlen_app in Hpc.
    pose proof (Zlen_nonneg (push_header (go_opcode (GetOp2 pc)) (Zlen vch))). lia. }
  rewrite CheckMinimalPush_push_op by (done || lia). apply and_iff_compat_l. split; intros Heq.
  - rewrite push_data_header by (pose proof (Zlen_nonneg rest); lia).
    rewrite Heq in Hpc at 1 2. cbn [app]. by rewrite <- app_assoc.
  - rewrite Heq. by rewrite GetOp2_push_data.
Qed.

Lemma CheckMinimalPush_spec_witness :
  CheckMinimalPush [7; 8] 2 = true <-> small_int [7; 8] = false /\ [2; 7; 8; OP_DUP] = push_data [] [7; 8] ++ [OP_DUP].
Proof.
  apply (CheckMinimalPush_spec [2; 7; 8; OP_DUP]).
  - repeat constructor; discriminate.
  - reflexivity.
  - reflexivity.
  - vm_compute. discriminate.
Defined.
