(* ===== verification/Interpreter.v ===== *)
(** * The script interpreter

    [EvalScript] of [src/script/interpreter.cpp]: a stack machine over byte
    vectors. The main stack, the alternative stack and the stack of conditionals
    are lists whose head is the top; an iterator is the list of bytes from it to
    the end of the script. One definition per case of the switch, in a state monad
    whose failures keep the state: the caller sees the stack also when [EvalScript]
    returns false. *)

From S2P Require Import Prelude Common Opcodes ScriptNum Script MDHash Sha256 Sha1 Ripemd160 Hash SigEncoding.

(** ** State, results and the monad *)

Record eval_state := EvalState {
  stack : list (list Z);
  altstack : list (list Z);
  vfExec : list bool;
  nOpCount : Z;
  pbegincodehash : list Z;
  pc : list Z
}.

Definition with_stack (l : list (list Z)) (st : eval_state) : eval_state :=
  EvalState l (altstack st) (vfExec st) (nOpCount st) (pbegincodehash st) (pc st).

Definition with_altstack (l : list (list Z)) (st : eval_state) : eval_state :=
  EvalState (stack st) l (vfExec st) (nOpCount st) (pbegincodehash st) (pc st).

Definition with_vfExec (l : list bool) (st : eval_state) : eval_state :=
  EvalState (stack st) (altstack st) l (nOpCount st) (pbegincodehash st) (pc st).

Definition with_nOpCount (n : Z) (st : eval_state) : eval_state :=
  EvalState (stack st) (altstack st) (vfExec st) n (pbegincodehash st) (pc st).

Definition with_pbegincodehash (l : list Z) (st : eval_state) : eval_state :=
  EvalState (stack st) (altstack st) (vfExec st) (nOpCount st) l (pc st).

Definition with_pc (l : list Z) (st : eval_state) : eval_state :=
  EvalState (stack st) (altstack st) (vfExec st) (nOpCount st) (pbegincodehash st) l.

(** How a statement ends: it goes on, it is [return set_error(serror, e)], it is
    [return true] inside the switch, an exception, a failed assertion, or
    undefined behaviour. *)
Inductive verdict (A : Type) :=
  | Next (a : A)
  | Error (e : ScriptError)
  | ReturnTrue
  | Exception (e : exn)
  | Aborted
  | Undefined.
Arguments Next {A} _.
Arguments Error {A} _.
Arguments ReturnTrue {A}.
Arguments Exception {A} _.
Arguments Aborted {A}.
Arguments Undefined {A}.

Definition M (A : Type) : Type := eval_state -> verdict A * eval_state.

Definition mret {A} (a : A) : M A := fun st => (Next a, st).

Definition mbind {A B} (m : M A) (k : A -> M B) : M B := fun st =>
  match m st with
  | (Next a, st) => k a st
  | (Error e, st) => (Error e, st)
  | (ReturnTrue, st) => (ReturnTrue, st)
  | (Exception e, st) => (Exception e, st)
  | (Aborted, st) => (Aborted, st)
  | (Undefined, st) => (Undefined, st)
  end.

Declare Scope eval_scope.
Delimit Scope eval_scope with eval.

Notation "'let*' x ':=' m 'in' k" := (mbind m (fun x => k))
  (at level 10, x pattern, m at level 100, k at level 200) : eval_scope.

Notation "m ';;' k" := (mbind m (fun _ => k)) (at level 100, k at level 200, right associativity) : eval_scope.

Open Scope eval_scope.

Definition set_error {A} (e : ScriptError) : M A := fun st => (Error e, st).

Definition gets {A} (f : eval_state -> A) : M A := fun st => (Next (f st), st).

Definition modify (f : eval_state -> eval_state) : M unit := fun st => (Next tt, f st).

(** A computation of the components the interpreter calls. *)
Definition lift {A} (m : outcome A) : M A := fun st =>
  match m with
  | Ret a => (Next a, st)
  | Throw e => (Exception e, st)
  | Abort => (Aborted, st)
  | Undef => (Undefined, st)
  end.

(** A loop that does not end within its fuel: no return, like a failed assertion. *)
Definition out_of_fuel {A} : M A := fun st => (Aborted, st).

(** [if (c) return set_error(serror, e);] *)
Definition error_if (c : bool) (e : ScriptError) : M unit := if c then set_error e else mret tt.

(** A call that returns [false] with the error set makes the interpreter return. *)
Definition check (m : outcome (option ScriptError)) : M unit :=
  let* r := lift m in
  match r with Some e => set_error e | None => mret tt end.

Definition stack_size : M Z := gets (fun st => Zlen (stack st)).

Definition push (v : list Z) : M unit := modify (fun st => with_stack (v :: stack st) st).

(** [stacktop(-i)], [stack.at(stack.size() - i)] *)
Definition stacktop (i : Z) : M (list Z) := fun st =>
  match (if i <? 1 then None else stack st !! Z.to_nat (i - 1)) with
  | Some v => (Next v, st)
  | None => (Exception out_of_range, st)
  end.

Definition popstack : M unit := fun st =>
  match stack st with
  | [] => (Exception runtime_error, st)
  | _ :: l => (Next tt, with_stack l st)
  end.

(** [if (stack.size() < n) return set_error(serror, SCRIPT_ERR_INVALID_STACK_OPERATION);] *)
Definition need (n : Z) : M unit :=
  let* size := stack_size in error_if (size <? n) SCRIPT_ERR_INVALID_STACK_OPERATION.

(** [swap(stacktop(-i), stacktop(-j))] *)
Definition swap (i j : Z) : M unit :=
  let* a := stacktop i in
  let* b := stacktop j in
  modify (fun st => with_stack (<[Z.to_nat (j - 1) := a]> (<[Z.to_nat (i - 1) := b]> (stack st))) st).

(** [stack.erase(stack.end() - i, stack.end() - j)], within the stack. *)
Definition erase (i j : Z) : M unit :=
  modify (fun st => with_stack (take (Z.to_nat j) (stack st) ++ drop (Z.to_nat i) (stack st)) st).

(** [stack.insert(stack.end() - i, v)], within the stack. *)
Definition insert_at (i : Z) (v : list Z) : M unit :=
  modify (fun st => with_stack (take (Z.to_nat i) (stack st) ++ v :: drop (Z.to_nat i) (stack st)) st).

Definition vchFalse : list Z := [].

Definition vchTrue : list Z := [1].

Definition bool_vch (b : bool) : list Z := if b then vchTrue else vchFalse.

(** The signature checker: [BaseSignatureChecker] and the classes derived from it. *)
Class SignatureChecker := {
  CheckSig : list Z -> list Z -> list Z -> SigVersion -> bool;
  CheckLockTime : Z -> bool;
  CheckSequence : Z -> bool
}.

(** The methods of the base class. *)
Definition BaseSignatureChecker : SignatureChecker := {|
  CheckSig _ _ _ _ := false;
  CheckLockTime _ := false;
  CheckSequence _ := false
|}.

(** What the interpreter reads of the node: the height of the active chain, the
    consensus parameter [UBCHeight], and [CPubKey::CheckLowS]. *)
Class NodeEnv := {
  chain_height : Z;
  UBCHeight : Z;
  CheckLowS : list Z -> bool
}.

Section Eval.
Context `{Env : NodeEnv, Checker : SignatureChecker}.
Variable flags : Z.
Variable sigversion : SigVersion.

Definition fRequireMinimal : bool := flag flags SCRIPT_VERIFY_MINIMALDATA.

(** [CScriptNum(vch, fRequireMinimal)] *)
Definition script_num (vch : list Z) : M Z := lift (CScriptNum vch fRequireMinimal nDefaultMaxNumSize).

(** ** Push value and control *)

Definition op_N (opcode : Z) : M unit :=
  let bn := opcode - (OP_1 - 1) in push (getvch bn).

Definition op_CHECKLOCKTIMEVERIFY : M unit :=
  if negb (flag flags SCRIPT_VERIFY_CHECKLOCKTIMEVERIFY) then
    error_if (flag flags SCRIPT_VERIFY_DISCOURAGE_UPGRADABLE_NOPS) SCRIPT_ERR_DISCOURAGE_UPGRADABLE_NOPS
  else
    need 1 ;;
    let* vch := stacktop 1 in
    let* nLockTime := lift (CScriptNum vch fRequireMinimal 5) in
    error_if (nLockTime <? 0) SCRIPT_ERR_NEGATIVE_LOCKTIME ;;
    error_if (negb (CheckLockTime nLockTime)) SCRIPT_ERR_UNSATISFIED_LOCKTIME.

(** [CTxIn::SEQUENCE_LOCKTIME_DISABLE_FLAG] *)
Definition SEQUENCE_LOCKTIME_DISABLE_FLAG : Z := Z.shiftl 1 31.

Definition op_CHECKSEQUENCEVERIFY : M unit :=
  if negb (flag flags SCRIPT_VERIFY_CHECKSEQUENCEVERIFY) then
    error_if (flag flags SCRIPT_VERIFY_DISCOURAGE_UPGRADABLE_NOPS) SCRIPT_ERR_DISCOURAGE_UPGRADABLE_NOPS
  else
    need 1 ;;
    let* vch := stacktop 1 in
    let* nSequence := lift (CScriptNum vch fRequireMinimal 5) in
    error_if (nSequence <? 0) SCRIPT_ERR_NEGATIVE_LOCKTIME ;;
    if negb (sn_and nSequence SEQUENCE_LOCKTIME_DISABLE_FLAG =? 0) then mret tt
    else error_if (negb (CheckSequence nSequence)) SCRIPT_ERR_UNSATISFIED_LOCKTIME.

(** [OP_NOP1], [OP_NOP4] to [OP_NOP10] *)
Definition op_NOPx : M unit :=
  error_if (flag flags SCRIPT_VERIFY_DISCOURAGE_UPGRADABLE_NOPS) SCRIPT_ERR_DISCOURAGE_UPGRADABLE_NOPS.

(** [OP_IF] and [OP_NOTIF] *)
Definition op_IF (opcode : Z) (fExec : bool) : M unit :=
  let* fValue :=
    (if fExec then
       let* size := stack_size in
       error_if (size <? 1) SCRIPT_ERR_UNBALANCED_CONDITIONAL ;;
       let* vch := stacktop 1 in
       (if bool_decide (sigversion = SIGVERSION_WITNESS_V0) && flag flags SCRIPT_VERIFY_MINIMALIF then
          error_if (Zlen vch >? 1) SCRIPT_ERR_MINIMALIF ;;
          error_if ((Zlen vch =? 1) && negb (byte_at vch 0 =? 1)) SCRIPT_ERR_MINIMALIF
        else mret tt) ;;
       let fValue := CastToBool vch in
       let fValue := if opcode =? OP_NOTIF then negb fValue else fValue in
       popstack ;;
       mret fValue
     else mret false) in
  modify (fun st => with_vfExec (fValue :: vfExec st) st).

Definition op_ELSE : M unit :=
  let* vf := gets vfExec in
  match vf with
  | [] => set_error SCRIPT_ERR_UNBALANCED_CONDITIONAL
  | b :: vf => modify (with_vfExec (negb b :: vf))
  end.

Definition op_ENDIF : M unit :=
  let* vf := gets vfExec in
  match vf with
  | [] => set_error SCRIPT_ERR_UNBALANCED_CONDITIONAL
  | _ :: vf => modify (with_vfExec vf)
  end.

Definition op_VERIFY : M unit :=
  need 1 ;;
  let* vch := stacktop 1 in
  if CastToBool vch then popstack else set_error SCRIPT_ERR_VERIFY.

(** ** Stack operations *)

Definition op_TOALTSTACK : M unit :=
  need 1 ;;
  let* vch := stacktop 1 in
  modify (fun st => with_altstack (vch :: altstack st) st) ;;
  popstack.

(** [altstacktop(-1)] and [popstack(altstack)] follow the test of the size. *)
Definition op_FROMALTSTACK : M unit :=
  let* alt := gets altstack in
  match alt with
  | [] => set_error SCRIPT_ERR_INVALID_ALTSTACK_OPERATION
  | vch :: alt => push vch ;; modify (with_altstack alt)
  end.

Definition op_2DROP : M unit := need 2 ;; popstack ;; popstack.

Definition op_2DUP : M unit :=
  need 2 ;;
  let* vch1 := stacktop 2 in
  let* vch2 := stacktop 1 in
  push vch1 ;; push vch2.

Definition op_3DUP : M unit :=
  need 3 ;;
  let* vch1 := stacktop 3 in
  let* vch2 := stacktop 2 in
  let* vch3 := stacktop 1 in
  push vch1 ;; push vch2 ;; push vch3.

Definition op_2OVER : M unit :=
  need 4 ;;
  let* vch1 := stacktop 4 in
  let* vch2 := stacktop 3 in
  push vch1 ;; push vch2.

Definition op_2ROT : M unit :=
  need 6 ;;
  let* vch1 := stacktop 6 in
  let* vch2 := stacktop 5 in
  erase 6 4 ;;
  push vch1 ;; push vch2.

Definition op_2SWAP : M unit := need 4 ;; swap 4 2 ;; swap 3 1.

Definition op_IFDUP : M unit :=
  need 1 ;;
  let* vch := stacktop 1 in
  if CastToBool vch then push vch else mret tt.

Definition op_DEPTH : M unit :=
  let* size := stack_size in push (getvch size).

Definition op_DROP : M unit := need 1 ;; popstack.

Definition op_DUP : M unit :=
  need 1 ;;
  let* vch := stacktop 1 in push vch.

Definition op_NIP : M unit := need 2 ;; erase 2 1.

Definition op_OVER : M unit :=
  need 2 ;;
  let* vch := stacktop 2 in push vch.

(** [OP_PICK] and [OP_ROLL] *)
Definition op_PICK (opcode : Z) : M unit :=
  need 2 ;;
  let* vchn := stacktop 1 in
  let* bn := script_num vchn in
  let n := getint bn in
  popstack ;;
  let* size := stack_size in
  error_if ((n <? 0) || (n >=? size)) SCRIPT_ERR_INVALID_STACK_OPERATION ;;
  let* vch := stacktop (n + 1) in
  (if opcode =? OP_ROLL then erase (n + 1) n else mret tt) ;;
  push vch.

Definition op_ROT : M unit := need 3 ;; swap 3 2 ;; swap 2 1.

Definition op_SWAP : M unit := need 2 ;; swap 2 1.

Definition op_TUCK : M unit :=
  need 2 ;;
  let* vch := stacktop 1 in insert_at 2 vch.

Definition op_SIZE : M unit :=
  need 1 ;;
  let* vch := stacktop 1 in push (getvch (Zlen vch)).

(** [OP_EQUAL] and [OP_EQUALVERIFY] *)
Definition op_EQUAL (opcode : Z) : M unit :=
  need 2 ;;
  let* vch1 := stacktop 2 in
  let* vch2 := stacktop 1 in
  let fEqual := bool_decide (vch1 = vch2) in
  popstack ;; popstack ;;
  push (bool_vch fEqual) ;;
  if opcode =? OP_EQUALVERIFY then
    if fEqual then popstack else set_error SCRIPT_ERR_EQUALVERIFY
  else mret tt.

(** ** Arithmetic *)

Definition num_of_bool (b : bool) : Z := if b then 1 else 0.

(** The inner switch of the unary operations. *)
Definition unary_op (opcode bn : Z) : outcome Z :=
  if opcode =? OP_1ADD then sn_add_assign bn 1
  else if opcode =? OP_1SUB then sn_sub_assign bn 1
  else if opcode =? OP_NEGATE then sn_neg bn
  else if opcode =? OP_ABS then if bn <? 0 then sn_neg bn else Ret bn
  else if opcode =? OP_NOT then Ret (num_of_bool (bn =? 0))
  else if opcode =? OP_0NOTEQUAL then Ret (num_of_bool (negb (bn =? 0)))
  else Abort.

Definition op_unary (opcode : Z) : M unit :=
  need 1 ;;
  let* vch := stacktop 1 in
  let* bn := script_num vch in
  let* bn := lift (unary_op opcode bn) in
  popstack ;;
  push (getvch bn).

(** The inner switch of the binary operations. *)
Definition binary_op (opcode bn1 bn2 : Z) : outcome Z :=
  if opcode =? OP_ADD then Ret (sn_add bn1 bn2)
  else if opcode =? OP_SUB then Ret (sn_sub bn1 bn2)
  else if opcode =? OP_BOOLAND then Ret (num_of_bool (negb (bn1 =? 0) && negb (bn2 =? 0)))
  else if opcode =? OP_BOOLOR then Ret (num_of_bool (negb (bn1 =? 0) || negb (bn2 =? 0)))
  else if opcode =? OP_NUMEQUAL then Ret (num_of_bool (bn1 =? bn2))
  else if opcode =? OP_NUMEQUALVERIFY then Ret (num_of_bool (bn1 =? bn2))
  else if opcode =? OP_NUMNOTEQUAL then Ret (num_of_bool (negb (bn1 =? bn2)))
  else if opcode =? OP_LESSTHAN then Ret (num_of_bool (bn1 <? bn2))
  else if opcode =? OP_GREATERTHAN then Ret (num_of_bool (bn1 >? bn2))
  else if opcode =? OP_LESSTHANOREQUAL then Ret (num_of_bool (bn1 <=? bn2))
  else if opcode =? OP_GREATERTHANOREQUAL then Ret (num_of_bool (bn1 >=? bn2))
  else if opcode =? OP_MIN then Ret (if bn1 <? bn2 then bn1 else bn2)
  else if opcode =? OP_MAX then Ret (if bn1 >? bn2 then bn1 else bn2)
  else Abort.

Definition op_binary (opcode : Z) : M unit :=
  need 2 ;;
  let* vch1 := stacktop 2 in
  let* bn1 := script_num vch1 in
  let* vch2 := stacktop 1 in
  let* bn2 := script_num vch2 in
  let* bn := lift (binary_op opcode bn1 bn2) in
  popstack ;; popstack ;;
  push (getvch bn) ;;
  if opcode =? OP_NUMEQUALVERIFY then
    let* vch := stacktop 1 in
    if CastToBool vch then popstack else set_error SCRIPT_ERR_NUMEQUALVERIFY
  else mret tt.

Definition op_WITHIN : M unit :=
  need 3 ;;
  let* vch1 := stacktop 3 in
  let* bn1 := script_num vch1 in
  let* vch2 := stacktop 2 in
  let* bn2 := script_num vch2 in
  let* vch3 := stacktop 1 in
  let* bn3 := script_num vch3 in
  let fValue := (bn2 <=? bn1) && (bn1 <? bn3) in
  popstack ;; popstack ;; popstack ;;
  push (bool_vch fValue).

(** ** Crypto *)

(** [OP_RIPEMD160], [OP_SHA1], [OP_SHA256], [OP_HASH160], [OP_HASH256] *)
Definition hash_op (opcode : Z) (vch : list Z) : list Z :=
  if opcode =? OP_RIPEMD160 then Ripemd160.Finalize (Ripemd160.Write CRIPEMD160 vch)
  else if opcode =? OP_SHA1 then Sha1.Finalize (Sha1.Write CSHA1 vch)
  else if opcode =? OP_SHA256 then Sha256.Finalize (Sha256.Write CSHA256 vch)
  else if opcode =? OP_HASH160 then CHash160_Finalize (Sha256.Write CSHA256 vch)
  else CHash256_Finalize (CHash256_Write CSHA256 vch).

Definition op_hash (opcode : Z) : M unit :=
  need 1 ;;
  let* vch := stacktop 1 in
  let vchHash := hash_op opcode vch in
  popstack ;;
  push vchHash.

Definition op_CODESEPARATOR : M unit := modify (fun st => with_pbegincodehash (pc st) st).

(** [vchSig[vchSig.size() - 1] & SIGHASH_FORKID] *)
Definition uses_forkid (vchSig : list Z) : outcome bool :=
  obind (index vchSig (Zlen vchSig - 1)) (fun b => Ret (flag b SIGHASH_FORKID)).

(** From [UBCHeight] on a signature without the fork id is an error. *)
Definition require_forkid (vchSig : list Z) : M unit :=
  if chain_height >=? UBCHeight then
    let* bad := (if negb (flag flags SCRIPT_ENABLE_SIGHASH_FORKID) then mret true
                 else let* f := lift (uses_forkid vchSig) in mret (negb f)) in
    error_if bad SCRIPT_ERR_CHECKSIGVERIFY
  else mret tt.

(** [scriptCode.FindAndDelete(CScript(vchSig))] in scripts before segwit. *)
Definition drop_signature (scriptCode vchSig : list Z) : list Z :=
  if bool_decide (sigversion = SIGVERSION_BASE) then (FindAndDelete scriptCode (push_data [] vchSig)).1
  else scriptCode.

(** [OP_CHECKSIG] and [OP_CHECKSIGVERIFY]. The test below [UBCHeight] has an empty
    body: only its read of the last byte remains. *)
Definition op_CHECKSIG (opcode : Z) : M unit :=
  need 2 ;;
  let* vchSig := stacktop 2 in
  let* vchPubKey := stacktop 1 in
  let* scriptCode := gets pbegincodehash in
  require_forkid vchSig ;;
  (if chain_height <? UBCHeight then lift (uses_forkid vchSig) ;; mret tt else mret tt) ;;
  let scriptCode := drop_signature scriptCode vchSig in
  check (CheckSignatureEncoding CheckLowS vchSig flags) ;;
  check (CheckPubKeyEncoding vchPubKey flags sigversion) ;;
  let fSuccess := CheckSig vchSig vchPubKey scriptCode sigversion in
  error_if (negb fSuccess && flag flags SCRIPT_VERIFY_NULLFAIL && negb (Zlen vchSig =? 0)) SCRIPT_ERR_SIG_NULLFAIL ;;
  popstack ;; popstack ;;
  push (bool_vch fSuccess) ;;
  if opcode =? OP_CHECKSIGVERIFY then
    if fSuccess then popstack else set_error SCRIPT_ERR_CHECKSIGVERIFY
  else mret tt.

(** The loop that drops the signatures at depths [isig], ..., [isig + n - 1]. *)
Fixpoint multisig_drop (n : nat) (isig : Z) (scriptCode : list Z) : M (list Z) :=
  match n with
  | O => mret scriptCode
  | S n =>
    let* vchSig := stacktop isig in
    require_forkid vchSig ;;
    let scriptCode := drop_signature scriptCode vchSig in
    (if chain_height <? UBCHeight then
       let* f := lift (uses_forkid vchSig) in error_if f SCRIPT_ERR_CHECKSIGVERIFY
     else mret tt) ;;
    multisig_drop n (isig + 1) scriptCode
  end.

(** The loop that matches signatures with keys; its value is [fSuccess]. Each
    iteration takes a key, and there are never more signatures than keys, so as
    many iterations as keys are enough. *)
Fixpoint multisig_check (fuel : nat) (scriptCode : list Z) (isig ikey nSigsCount nKeysCount : Z) : M bool :=
  if nSigsCount >? 0 then
    match fuel with
    | O => out_of_fuel
    | S fuel =>
      let* vchSig := stacktop isig in
      let* vchPubKey := stacktop ikey in
      check (CheckSignatureEncoding CheckLowS vchSig flags) ;;
      check (CheckPubKeyEncoding vchPubKey flags sigversion) ;;
      let fOk := CheckSig vchSig vchPubKey scriptCode sigversion in
      let isig := if fOk then isig + 1 else isig in
      let nSigsCount := if fOk then nSigsCount - 1 else nSigsCount in
      let ikey := ikey + 1 in
      let nKeysCount := nKeysCount - 1 in
      if nSigsCount >? nKeysCount then mret false
      else multisig_check fuel scriptCode isig ikey nSigsCount nKeysCount
    end
  else mret true.

(** The loop that pops the arguments. *)
Fixpoint multisig_cleanup (n : nat) (fSuccess : bool) (ikey2 : Z) : M unit :=
  match n with
  | O => mret tt
  | S n =>
    (if negb fSuccess && flag flags SCRIPT_VERIFY_NULLFAIL && (ikey2 =? 0) then
       let* vch := stacktop 1 in error_if (negb (Zlen vch =? 0)) SCRIPT_ERR_SIG_NULLFAIL
     else mret tt) ;;
    let ikey2 := if ikey2 >? 0 then ikey2 - 1 else ikey2 in
    popstack ;;
    multisig_cleanup n fSuccess ikey2
  end.

(** [OP_CHECKMULTISIG] and [OP_CHECKMULTISIGVERIFY] *)
Definition op_CHECKMULTISIG (opcode : Z) : M unit :=
  let i := 1 in
  need i ;;
  let* vch := stacktop i in
  let* bn := script_num vch in
  let nKeysCount := getint bn in
  error_if ((nKeysCount <? 0) || (nKeysCount >? MAX_PUBKEYS_PER_MULTISIG)) SCRIPT_ERR_PUBKEY_COUNT ;;
  modify (fun st => with_nOpCount (nOpCount st + nKeysCount) st) ;;
  let* n := gets nOpCount in
  error_if (n >? MAX_OPS_PER_SCRIPT) SCRIPT_ERR_OP_COUNT ;;
  let i := i + 1 in
  let ikey := i in
  let ikey2 := nKeysCount + 2 in
  let i := i + nKeysCount in
  need i ;;
  let* vch := stacktop i in
  let* bn := script_num vch in
  let nSigsCount := getint bn in
  error_if ((nSigsCount <? 0) || (nSigsCount >? nKeysCount)) SCRIPT_ERR_SIG_COUNT ;;
  let i := i + 1 in
  let isig := i in
  let i := i + nSigsCount in
  need i ;;
  let* scriptCode := gets pbegincodehash in
  let* scriptCode := multisig_drop (Z.to_nat nSigsCount) isig scriptCode in
  let* fSuccess := multisig_check (Z.to_nat nKeysCount) scriptCode isig ikey nSigsCount nKeysCount in
  multisig_cleanup (Z.to_nat (i - 1)) fSuccess ikey2 ;;
  need 1 ;;
  (if flag flags SCRIPT_VERIFY_NULLDUMMY then
     let* vch := stacktop 1 in error_if (negb (Zlen vch =? 0)) SCRIPT_ERR_SIG_NULLDUMMY
   else mret tt) ;;
  popstack ;;
  push (bool_vch fSuccess) ;;
  if opcode =? OP_CHECKMULTISIGVERIFY then
    if fSuccess then popstack else set_error SCRIPT_ERR_CHECKMULTISIGVERIFY
  else mret tt.

Variable script : list Z.

(** The contract opcodes: the script from the opcode on is pushed, and the
    interpreter returns true. *)
Definition op_contract : M unit :=
  let* p := gets pc in
  let scriptRest := drop (length script - length p - 1) script in
  push scriptRest ;;
  (fun st => (ReturnTrue, st)).

(** ** The main loop *)

Definition one_of (opcode : Z) (l : list Z) : bool := existsb (Z.eqb opcode) l.

(** The opcodes rejected also where they are not executed. *)
Definition is_disabled (opcode : Z) : bool :=
  one_of opcode [OP_CAT; OP_SUBSTR; OP_LEFT; OP_RIGHT; OP_INVERT; OP_AND; OP_OR; OP_XOR;
                 OP_2MUL; OP_2DIV; OP_MUL; OP_DIV; OP_MOD; OP_LSHIFT; OP_RSHIFT].

(** The switch. *)
Definition exec_op (opcode : Z) (fExec : bool) : M unit :=
  if (opcode =? OP_1NEGATE) || ((opcode >=? OP_1) && (opcode <=? OP_16)) then op_N opcode
  else if opcode =? OP_NOP then mret tt
  else if opcode =? OP_CHECKLOCKTIMEVERIFY then op_CHECKLOCKTIMEVERIFY
  else if opcode =? OP_CHECKSEQUENCEVERIFY then op_CHECKSEQUENCEVERIFY
  else if one_of opcode [OP_NOP1; OP_NOP4; OP_NOP5; OP_NOP6; OP_NOP7; OP_NOP8; OP_NOP9; OP_NOP10] then op_NOPx
  else if one_of opcode [OP_IF; OP_NOTIF] then op_IF opcode fExec
  else if opcode =? OP_ELSE then op_ELSE
  else if opcode =? OP_ENDIF then op_ENDIF
  else if opcode =? OP_VERIFY then op_VERIFY
  else if opcode =? OP_RETURN then set_error SCRIPT_ERR_OP_RETURN
  else if opcode =? OP_TOALTSTACK then op_TOALTSTACK
  else if opcode =? OP_FROMALTSTACK then op_FROMALTSTACK
  else if opcode =? OP_2DROP then op_2DROP
  else if opcode =? OP_2DUP then op_2DUP
  else if opcode =? OP_3DUP then op_3DUP
  else if opcode =? OP_2OVER then op_2OVER
  else if opcode =? OP_2ROT then op_2ROT
  else if opcode =? OP_2SWAP then op_2SWAP
  else if opcode =? OP_IFDUP then op_IFDUP
  else if opcode =? OP_DEPTH then op_DEPTH
  else if opcode =? OP_DROP then op_DROP
  else if opcode =? OP_DUP then op_DUP
  else if opcode =? OP_NIP then op_NIP
  else if opcode =? OP_OVER then op_OVER
  else if one_of opcode [OP_PICK; OP_ROLL] then op_PICK opcode
  else if opcode =? OP_ROT then op_ROT
  else if opcode =? OP_SWAP then op_SWAP
  else if opcode =? OP_TUCK then op_TUCK
  else if opcode =? OP_SIZE then op_SIZE
  else if one_of opcode [OP_EQUAL; OP_EQUALVERIFY] then op_EQUAL opcode
  else if one_of opcode [OP_1ADD; OP_1SUB; OP_NEGATE; OP_ABS; OP_NOT; OP_0NOTEQUAL] then op_unary opcode
  else if one_of opcode [OP_ADD; OP_SUB; OP_BOOLAND; OP_BOOLOR; OP_NUMEQUAL; OP_NUMEQUALVERIFY;
                         OP_NUMNOTEQUAL; OP_LESSTHAN; OP_GREATERTHAN; OP_LESSTHANOREQUAL;
                         OP_GREATERTHANOREQUAL; OP_MIN; OP_MAX] then op_binary opcode
  else if opcode =? OP_WITHIN then op_WITHIN
  else if one_of opcode [OP_RIPEMD160; OP_SHA1; OP_SHA256; OP_HASH160; OP_HASH256] then op_hash opcode
  else if opcode =? OP_CODESEPARATOR then op_CODESEPARATOR
  else if one_of opcode [OP_CHECKSIG; OP_CHECKSIGVERIFY] then op_CHECKSIG opcode
  else if one_of opcode [OP_CHECKMULTISIG; OP_CHECKMULTISIGVERIFY] then op_CHECKMULTISIG opcode
  else if one_of opcode [OP_CREATE_NATIVE; OP_CREATE; OP_UPGRADE; OP_DESTROY; OP_CALL;
                         OP_DEPOSIT_TO_CONTRACT; OP_SPEND] then op_contract
  else set_error SCRIPT_ERR_BAD_OPCODE.

(** [script.GetOp(pc, opcode, vchPushValue)] *)
Definition read_instr : M (Z * list Z) :=
  let* p := gets pc in
  let r := GetOp2 p in
  modify (with_pc (go_pc r)) ;;
  if go_ret r then mret (go_opcode r, go_vch r) else set_error SCRIPT_ERR_BAD_OPCODE.

(** [++nOpCount > MAX_OPS_PER_SCRIPT] for the opcodes that count. *)
Definition count_op (opcode : Z) : M unit :=
  if opcode >? OP_16 then
    modify (fun st => with_nOpCount (nOpCount st + 1) st) ;;
    let* n := gets nOpCount in error_if (n >? MAX_OPS_PER_SCRIPT) SCRIPT_ERR_OP_COUNT
  else mret tt.

(** One iteration. *)
Definition eval_step : M unit :=
  let* vf := gets vfExec in
  let fExec := forallb id vf in
  let* (opcode, vchPushValue) := read_instr in
  error_if (Zlen vchPushValue >? MAX_SCRIPT_ELEMENT_SIZE) SCRIPT_ERR_PUSH_SIZE ;;
  count_op opcode ;;
  error_if (is_disabled opcode) SCRIPT_ERR_DISABLED_OPCODE ;;
  (if fExec && (0 <=? opcode) && (opcode <=? OP_PUSHDATA4) then
     error_if (fRequireMinimal && negb (CheckMinimalPush vchPushValue opcode)) SCRIPT_ERR_MINIMALDATA ;;
     push vchPushValue
   else if fExec || ((OP_IF <=? opcode) && (opcode <=? OP_ENDIF)) then exec_op opcode fExec
   else mret tt) ;;
  let* size := stack_size in
  let* altsize := gets (fun st => Zlen (altstack st)) in
  error_if (size + altsize >? MAX_STACK_SIZE) SCRIPT_ERR_STACK_SIZE.

(** The [while] loop; an iteration reads at least one byte. *)
Fixpoint eval_loop (fuel : nat) : M unit :=
  let* p := gets pc in
  match p, fuel with
  | [], _ => mret tt
  | _, O => out_of_fuel
  | _, S fuel => eval_step ;; eval_loop fuel
  end.
End Eval.

(** The result: the value returned, the error, and the stack left behind. *)
Record eval_result := EvalResult {
  er_ret : bool;
  er_serror : ScriptError;
  er_stack : list (list Z)
}.

Definition EvalScript `{NodeEnv, SignatureChecker} (stk : list (list Z)) (script : list Z) (flags : Z)
    (sigversion : SigVersion) : outcome eval_result :=
  if Zlen script >? MAX_SCRIPT_SIZE then Ret (EvalResult false SCRIPT_ERR_SCRIPT_SIZE stk)
  else
    match eval_loop flags sigversion script (length script) (EvalState stk [] [] 0 script script) with
    | (Next _, st) =>
      match vfExec st with
      | [] => Ret (EvalResult true SCRIPT_ERR_OK (stack st))
      | _ => Ret (EvalResult false SCRIPT_ERR_UNBALANCED_CONDITIONAL (stack st))
      end
    | (Error e, st) => Ret (EvalResult false e (stack st))
    | (ReturnTrue, st) => Ret (EvalResult true SCRIPT_ERR_UNKNOWN_ERROR (stack st))
    | (Exception _, st) => Ret (EvalResult false SCRIPT_ERR_UNKNOWN_ERROR (stack st))
    | (Aborted, _) => Abort
    | (Undefined, _) => Undef
    end.
