(* ===== verification/EvalProps.v ===== *)
(** * Properties of the interpreter

    A weakest-precondition reading of the interpreter's monad, the specification
    of every case of the switch, and the theorems about [EvalScript] they give. *)

From S2P Require Import Prelude Common Opcodes ScriptNum Script MDHash Sha256 Sha1 Ripemd160 Hash SigEncoding Interpreter.

(** The exceptions the interpreter relies on: those of [CScriptNum]. *)
Definition scriptnum_exn (e : exn) : bool :=
  match e with scriptnum_overflow | scriptnum_nonminimal => true | _ => false end.

(** ** The invariant of the stacks *)

Definition elem_ok (v : list Z) : Prop := bytes_ok v /\ Zlen v <= MAX_SCRIPT_ELEMENT_SIZE.

Definition elems_ok (st : eval_state) : Prop :=
  Forall elem_ok (stack st) /\ Forall elem_ok (altstack st).

(** ** Weakest preconditions *)

(** What undefined behaviour implies, and what holds where the interpreter returns true
    from inside the switch. *)
Record mode := Mode {
  undef_post : Prop;
  true_post : eval_state -> Prop
}.

Section Wp.
Variable md : mode.

Definition wp {A} (m : M A) (Q : A -> eval_state -> Prop) (st : eval_state) : Prop :=
  match m st with
  | (Next a, st) => Q a st
  | (Error _, _) => True
  | (ReturnTrue, st) => true_post md st
  | (Exception e, _) => scriptnum_exn e = true
  | (Aborted, _) => False
  | (Undefined, _) => undef_post md
  end.

Lemma wp_mret {A} (a : A) Q st : Q a st -> wp (mret a) Q st.
Proof. done. Qed.

Lemma wp_mbind {A B} (m : M A) (k : A -> M B) Q st :
  wp m (fun a => wp (k a) Q) st -> wp (mbind m k) Q st.
Proof. unfold wp, mbind. by destruct (m st) as [[] ?]. Qed.

Lemma wp_mono {A} (m : M A) (P Q : A -> eval_state -> Prop) st :
  (forall a st', P a st' -> Q a st') -> wp m P st -> wp m Q st.
Proof. intros HPQ. unfold wp. destruct (m st) as [[] ?]; auto. Qed.

Lemma wp_set_error {A} e (Q : A -> eval_state -> Prop) st : wp (set_error e) Q st.
Proof. done. Qed.

Lemma wp_error_if c e Q st : (c = false -> Q tt st) -> wp (error_if c e) Q st.
Proof. intros H. unfold error_if. destruct c; [done | by apply H]. Qed.

Lemma wp_gets {A} (f : eval_state -> A) Q st : Q (f st) st -> wp (gets f) Q st.
Proof. done. Qed.

Lemma wp_modify f Q st : Q tt (f st) -> wp (modify f) Q st.
Proof. done. Qed.

Lemma wp_push v Q st : Q tt (with_stack (v :: stack st) st) -> wp (push v) Q st.
Proof. done. Qed.

Lemma wp_stack_size Q st : Q (Zlen (stack st)) st -> wp stack_size Q st.
Proof. done. Qed.

Lemma wp_lift_Ret {A} (a : A) Q st : Q a st -> wp (lift (Ret a)) Q st.
Proof. done. Qed.

Lemma wp_lift {A} (m : outcome A) Q st :
  (forall a, m = Ret a -> Q a st) -> (forall e, m = Throw e -> scriptnum_exn e = true) ->
  m <> Abort -> (m = Undef -> undef_post md) -> wp (lift m) Q st.
Proof. unfold wp, lift. destruct m; auto. Qed.

Lemma wp_need n Q st : (n <= Zlen (stack st) -> Q tt st) -> wp (need n) Q st.
Proof.
  intros H. unfold need. apply wp_mbind, wp_stack_size, wp_error_if. intros E. bool_to_prop. by apply H.
Qed.

Lemma wp_stacktop i Q st :
  1 <= i <= Zlen (stack st) ->
  (forall v, stack st !! Z.to_nat (i - 1) = Some v -> Q v st) -> wp (stacktop i) Q st.
Proof.
  intros Hi H. unfold wp, stacktop. rewrite (proj2 (Z.ltb_ge _ _)) by lia.
  destruct (stack st !! Z.to_nat (i - 1)) as [v |] eqn:E; [by apply H |].
  apply lookup_ge_None in E. unfold Zlen in Hi. lia.
Qed.

Lemma wp_popstack Q st :
  1 <= Zlen (stack st) -> Q tt (with_stack (drop 1 (stack st)) st) -> wp popstack Q st.
Proof.
  intros Hl HQ. unfold wp, popstack. destruct (stack st) as [| v l] eqn:E; [unfold Zlen in Hl; cbn in Hl; lia |].
  cbn in HQ. by rewrite drop_0 in HQ.
Qed.

Lemma wp_if {A} (c : bool) (m1 m2 : M A) Q st :
  (c = true -> wp m1 Q st) -> (c = false -> wp m2 Q st) -> wp (if c then m1 else m2) Q st.
Proof. destruct c; auto. Qed.
End Wp.

(** Apply the rule for the statement at hand. *)
Ltac wp_step :=
  lazymatch goal with
  | |- wp _ (mbind _ _) _ _ => apply wp_mbind
  | |- wp _ (mret _) _ _ => apply wp_mret
  | |- wp _ (set_error _) _ _ => apply wp_set_error
  | |- wp _ (error_if _ _) _ _ => apply wp_error_if; intros ?
  | |- wp _ (gets _) _ _ => apply wp_gets
  | |- wp _ (modify _) _ _ => apply wp_modify
  | |- wp _ (push _) _ _ => apply wp_push
  | |- wp _ stack_size _ _ => apply wp_stack_size
  | |- wp _ (need _) _ _ => apply wp_need; intros ?
  | |- wp _ (stacktop _) _ _ => apply wp_stacktop; [| intros ? ?]
  | |- wp _ popstack _ _ => apply wp_popstack
  | |- wp _ (if _ then _ else _) _ _ => apply wp_if; intros ?
  | |- wp _ (let _ := _ in _) _ _ => cbv zeta
  end; cbv beta zeta.

(** ** What an instruction may change *)

(** What a case of the switch other than the conditionals may change. *)
Definition frame (st0 st : eval_state) : Prop :=
  pc st = pc st0 /\ vfExec st = vfExec st0 /\ elems_ok st /\
  nOpCount st0 <= nOpCount st /\ (nOpCount st0 <= MAX_OPS_PER_SCRIPT -> nOpCount st <= MAX_OPS_PER_SCRIPT).

Lemma frame_refl st : elems_ok st -> frame st st.
Proof. unfold frame. intros. split; [done |]. split; [done |]. split; [done |]. lia. Qed.

Lemma frame_intro st0 stk alt n pb :
  Forall elem_ok stk -> Forall elem_ok alt -> nOpCount st0 <= n ->
  (nOpCount st0 <= MAX_OPS_PER_SCRIPT -> n <= MAX_OPS_PER_SCRIPT) ->
  frame st0 (EvalState stk alt (vfExec st0) n pb (pc st0)).
Proof. intros. split; [done |]. split; [done |]. split; [by split |]. done. Qed.

Lemma elem_bytes v : elem_ok v -> bytes_ok v.
Proof. by intros [? _]. Qed.

Lemma elem_ok_small v : bytes_ok v -> Zlen v <= 32 -> elem_ok v.
Proof. intros Hv Hl. split; [done |]. unfold MAX_SCRIPT_ELEMENT_SIZE. lia. Qed.

Lemma elem_ok_bool b : elem_ok (bool_vch b).
Proof. destruct b; (split; [repeat constructor; lia | done]). Qed.

Lemma elem_ok_num n : - 2 ^ 62 <= n <= 2 ^ 62 -> elem_ok (getvch n).
Proof.
  intros Hn. apply elem_ok_small; [apply serialize_ok; lia |].
  assert (Zlen (serialize n) <= 8) by (apply serialize_size; lia). unfold getvch. lia.
Qed.

Lemma Forall_erase {A} (P : A -> Prop) l i j : Forall P l -> Forall P (take i l ++ drop j l).
Proof. intros H. apply Forall_app. split; [by apply Forall_take | by apply Forall_drop]. Qed.

Lemma Forall_insert_at {A} (P : A -> Prop) l i x : Forall P l -> P x -> Forall P (take i l ++ x :: drop i l).
Proof. intros H Hx. apply Forall_app. split; [by apply Forall_take | constructor; [done | by apply Forall_drop]]. Qed.

(** The value of a number read from the stack. *)
Lemma CScriptNum_range vch fmin j bn :
  bytes_ok vch -> 0 <= j <= 8 -> CScriptNum vch fmin j = Ret bn -> - 2 ^ (8 * j) < bn < 2 ^ (8 * j).
Proof.
  intros Hok Hj. rewrite CScriptNum_spec by (done || lia).
  destruct (Zlen vch >? j) eqn:E; [done |]. bool_to_prop. case_match; [done |]. intros H'. simplify_eq.
  pose proof (Zlen_nonneg vch).
  assert (0 < 2 ^ (8 * j)) by (apply Z.pow_pos_nonneg; lia).
  destruct (decide (Zlen vch = 0)) as [Hz | Hz].
  - apply Zlen_0_nil in Hz. subst. change (sn_value []) with 0. lia.
  - pose proof (sn_value_bound vch Hok ltac:(lia)).
    assert (2 ^ (8 * Zlen vch - 1) <= 2 ^ (8 * j)) by (apply Z.pow_le_mono_r; lia). lia.
Qed.

(** ** Arithmetic and hashes *)

Lemma one_of_spec opcode l : one_of opcode l = true <-> opcode ∈ l.
Proof.
  unfold one_of. rewrite existsb_exists. split.
  - intros (x & Hx & ->%Z.eqb_eq). by apply list_elem_of_In.
  - intros Hx%list_elem_of_In. exists opcode. split; [done | apply Z.eqb_refl].
Qed.

Lemma unary_op_ok opcode bn :
  one_of opcode [OP_1ADD; OP_1SUB; OP_NEGATE; OP_ABS; OP_NOT; OP_0NOTEQUAL] = true ->
  - 2 ^ 32 < bn < 2 ^ 32 -> exists n, unary_op opcode bn = Ret n /\ - 2 ^ 33 <= n <= 2 ^ 33.
Proof.
  intros Hop Hbn.
  assert (Hadd : sn_add_assign bn 1 = Ret (bn + 1)).
  { unfold sn_add_assign, cassert. rewrite (proj2 (Z.leb_le _ _)) by (unfold_ints; lia). cbn. by rewrite int64_id by lia. }
  assert (Hsub : sn_sub_assign bn 1 = Ret (bn - 1)).
  { unfold sn_sub_assign, cassert. rewrite Z.geb_leb, (proj2 (Z.leb_le _ _)) by (unfold_ints; lia). cbn. by rewrite int64_id by lia. }
  assert (Hneg : sn_neg bn = Ret (- bn)).
  { unfold sn_neg, cassert. rewrite (proj2 (Z.eqb_neq _ _)) by (unfold_ints; lia). cbn. by rewrite int64_id by lia. }
  unfold unary_op. rewrite Hadd, Hsub, Hneg. cbn [one_of existsb] in Hop.
  unfold num_of_bool.
  repeat (case_match; [repeat case_match; eexists; (split; [done | lia]) |]).
  repeat match goal with Hf : (opcode =? _) = false |- _ => rewrite Hf in Hop; clear Hf end. done.
Qed.

Lemma binary_op_ok opcode bn1 bn2 :
  one_of opcode [OP_ADD; OP_SUB; OP_BOOLAND; OP_BOOLOR; OP_NUMEQUAL; OP_NUMEQUALVERIFY;
    OP_NUMNOTEQUAL; OP_LESSTHAN; OP_GREATERTHAN; OP_LESSTHANOREQUAL;
    OP_GREATERTHANOREQUAL; OP_MIN; OP_MAX] = true ->
  - 2 ^ 32 < bn1 < 2 ^ 32 -> - 2 ^ 32 < bn2 < 2 ^ 32 ->
  exists n, binary_op opcode bn1 bn2 = Ret n /\ - 2 ^ 33 <= n <= 2 ^ 33.
Proof.
  intros Hop H1 H2. unfold binary_op, sn_add, sn_sub. rewrite !int64_id by lia.
  cbn [one_of existsb] in Hop.
  unfold num_of_bool.
  repeat (case_match; [repeat case_match; eexists; (split; [done | lia]) |]).
  repeat match goal with Hf : (opcode =? _) = false |- _ => rewrite Hf in Hop; clear Hf end. done.
Qed.

Lemma bytes_ok_apps l1 l2 : bytes_ok l1 -> bytes_ok l2 -> bytes_ok (l1 ++ l2).
Proof. intros. by rewrite bytes_ok_app. Qed.

Lemma hash_op_ok opcode vch : elem_ok (hash_op opcode vch).
Proof.
  assert (H256 : forall h, elem_ok (Sha256.Finalize h)).
  { intros h. unfold Sha256.Finalize, Sha256.output. destruct (MDHash.h_s _) as [[[[[[[? ?] ?] ?] ?] ?] ?] ?].
    apply elem_ok_small; [repeat apply bytes_ok_apps; apply be_encode_ok |].
    unfold Zlen, WriteBE32. rewrite !length_app, !length_be_encode. lia. }
  assert (H160 : forall h, elem_ok (Ripemd160.Finalize h)).
  { intros h. unfold Ripemd160.Finalize, Ripemd160.output. destruct (MDHash.h_s _) as [[[[? ?] ?] ?] ?].
    apply elem_ok_small; [repeat apply bytes_ok_apps; apply le_encode_ok |].
    unfold Zlen, WriteLE32. rewrite !length_app, !length_le_encode. lia. }
  assert (H1 : forall h, elem_ok (Sha1.Finalize h)).
  { intros h. unfold Sha1.Finalize, Sha1.output. destruct (MDHash.h_s _) as [[[[? ?] ?] ?] ?].
    apply elem_ok_small; [repeat apply bytes_ok_apps; apply be_encode_ok |].
    unfold Zlen, WriteBE32. rewrite !length_app, !length_be_encode. lia. }
  unfold hash_op, CHash160_Finalize, CHash256_Finalize. by repeat case_match.
Qed.

(** ** Signature operations *)

Lemma IsValidSignatureEncoding_total sig : bytes_ok sig -> exists b, IsValidSignatureEncoding sig = Ret b.
Proof.
  intros Hok. destruct (IsValidSignatureEncoding_shape sig Hok) as [H | (? & ? & ? & ? & ? & ? & ? & ->)].
  - by exists false.
  - rewrite IsValidSignatureEncoding_layout. by eexists.
Qed.

Lemma CheckSignatureEncoding_total low vchSig flags :
  bytes_ok vchSig -> exists r, CheckSignatureEncoding low vchSig flags = Ret r.
Proof.
  intros Hok. destruct (IsValidSignatureEncoding_total _ Hok) as [b Hb].
  unfold CheckSignatureEncoding, IsLowDERSignature, IsDefinedHashtypeSignature. rewrite Hb.
  destruct (Zlen vchSig =? 0) eqn:E; [by eexists |]. bool_to_prop. pose proof (Zlen_nonneg vchSig).
  destruct (index_Some vchSig (Zlen vchSig - 1)) as [x Hx]; [lia |]. rewrite Hx. cbn [obind].
  destruct (flag flags (Z.lor _ _)), b, (flag flags SCRIPT_VERIFY_LOW_S),
    (low (take (length vchSig - 1) vchSig)), (flag flags SCRIPT_VERIFY_STRICTENC);
    cbn [obind negb]; try case_match; by eexists.
Qed.

Lemma CheckPubKeyEncoding_total vchPubKey flags sigversion :
  exists r, CheckPubKeyEncoding vchPubKey flags sigversion = Ret r.
Proof.
  assert (Hu : exists b, IsCompressedOrUncompressedPubKey vchPubKey = Ret b).
  { unfold IsCompressedOrUncompressedPubKey. destruct (Zlen vchPubKey <? 33) eqn:E; [by eexists |]. bool_to_prop.
    destruct (index_Some vchPubKey 0) as [x ->]; [lia |]. cbn [obind]. repeat case_match; by eexists. }
  assert (Hc : exists b, IsCompressedPubKey vchPubKey = Ret b).
  { unfold IsCompressedPubKey. destruct (Zlen vchPubKey =? 33) eqn:E; [| by eexists]. bool_to_prop.
    destruct (index_Some vchPubKey 0) as [x ->]; [lia |]. by eexists. }
  destruct Hu as [b1 H1], Hc as [b2 H2]. unfold CheckPubKeyEncoding. rewrite H1, H2.
  destruct (flag _ SCRIPT_VERIFY_STRICTENC), (flag _ SCRIPT_VERIFY_WITNESS_PUBKEYTYPE), (bool_decide _), b1, b2;
    cbn [andb obind negb]; by eexists.
Qed.

Section Rules.
Context `{Env : NodeEnv, Checker : SignatureChecker}.
Variable md : mode.
Variable flags : Z.
Variable sigversion : SigVersion.

Lemma wp_CScriptNum vch fmin j Q st :
  bytes_ok vch -> 0 <= j <= 8 ->
  (forall bn, - 2 ^ (8 * j) < bn < 2 ^ (8 * j) -> CScriptNum vch fmin j = Ret bn -> Q bn st) ->
  wp md (lift (CScriptNum vch fmin j)) Q st.
Proof.
  intros Hok Hj HQ. apply wp_lift; try (rewrite CScriptNum_spec by (done || lia); by repeat case_match).
  - intros bn Hbn. apply HQ; [by eapply CScriptNum_range | done].
  - intros e. rewrite CScriptNum_spec by (done || lia). repeat case_match; intros; by simplify_eq.
Qed.

Lemma wp_script_num vch Q st :
  elem_ok vch -> (forall bn, - 2 ^ 32 < bn < 2 ^ 32 -> CScriptNum vch (fRequireMinimal flags) nDefaultMaxNumSize = Ret bn -> Q bn st) ->
  wp md (script_num flags vch) Q st.
Proof. intros [Hok _] HQ. apply wp_CScriptNum; [done | unfold nDefaultMaxNumSize; lia | done]. Qed.

Lemma wp_check m Q st : (exists r, m = Ret r) -> Q tt st -> wp md (check m) Q st.
Proof. intros [[e |] ->] HQ; done. Qed.

(** The fork id is looked for in the last byte of a signature, except from [UBCHeight] on
    when the flag for it is off. *)
Definition reads_forkid : Prop := chain_height < UBCHeight \/ flag flags SCRIPT_ENABLE_SIGHASH_FORKID = true.

Lemma wp_uses_forkid vchSig Q st :
  (vchSig = [] -> undef_post md) -> (forall b, Q b st) -> wp md (lift (uses_forkid vchSig)) Q st.
Proof.
  intros Hu HQ. unfold uses_forkid. destruct (decide (vchSig = [])) as [-> | Hne].
  - by apply Hu.
  - destruct (index_Some vchSig (Zlen vchSig - 1)) as [x ->]; [| apply HQ].
    destruct vchSig; [done |]. rewrite Zlen_cons. pose proof (Zlen_nonneg vchSig). lia.
Qed.

Lemma wp_require_forkid vchSig Q st :
  (reads_forkid -> vchSig = [] -> undef_post md) -> Q tt st -> wp md (require_forkid flags vchSig) Q st.
Proof.
  intros Hu HQ. unfold require_forkid. rewrite Z.geb_leb. destruct (UBCHeight <=? chain_height) eqn:E; bool_to_prop; [| by wp_step].
  wp_step. destruct (flag flags SCRIPT_ENABLE_SIGHASH_FORKID) eqn:Ef; cbn [negb].
  - wp_step. apply wp_uses_forkid; [apply Hu; by right |]. intros b. wp_step. by wp_step.
  - wp_step. by wp_step.
Qed.

Lemma wp_swap i j Q st :
  1 <= i <= Zlen (stack st) -> 1 <= j <= Zlen (stack st) ->
  (forall a b, stack st !! Z.to_nat (i - 1) = Some a -> stack st !! Z.to_nat (j - 1) = Some b ->
   Q tt (with_stack (<[Z.to_nat (j - 1) := a]> (<[Z.to_nat (i - 1) := b]> (stack st))) st)) ->
  wp md (swap i j) Q st.
Proof. intros Hi Hj HQ. unfold swap. repeat (wp_step; try done). by apply HQ. Qed.

End Rules.

(** Read through the updates of the state. *)
Ltac states :=
  unfold with_stack, with_altstack, with_vfExec, with_nOpCount, with_pbegincodehash, with_pc in *;
  cbn [stack altstack vfExec nOpCount pc pbegincodehash] in *.

(** Sizes of stacks after pushes and pops. *)
Ltac sizes :=
  states; unfold Zlen in *;
  rewrite ?length_cons, ?length_drop, ?length_app, ?length_take, ?length_insert in *; lia.

(** The elements of a stack built from the stacks of the state. *)
Ltac elems :=
  repeat match goal with
  | |- Forall _ (_ :: _) => apply Forall_cons_2
  | |- Forall _ [] => apply Forall_nil_2
  | |- Forall _ (take _ _ ++ _ :: drop _ _) => apply Forall_insert_at
  | |- Forall _ (take _ _ ++ drop _ _) => apply Forall_erase
  | |- Forall _ (drop _ _) => apply Forall_drop
  | |- Forall _ (<[_ := _]> _) => apply Forall_insert
  | |- elem_ok (bool_vch _) => apply elem_ok_bool
  | H : ?l !! _ = Some ?v |- elem_ok ?v => eapply (Forall_lookup_1 elem_ok); [| exact H]
  | |- Forall elem_ok _ => assumption
  end.

Ltac frames :=
  states;
  lazymatch goal with
  | |- frame _ (EvalState _ _ _ _ _ _) => apply frame_intro; try lia; elems
  | |- frame ?st ?st => apply frame_refl; by split
  | _ => elems
  end.

(** The rules that come with obligations about the elements read. *)
Ltac wp_step_num :=
  lazymatch goal with
  | |- wp _ (script_num _ _) _ _ => apply wp_script_num; [solve [states; elems] | intros ? ? ?]
  | |- wp _ (lift (CScriptNum _ _ _)) _ _ => apply wp_CScriptNum; [apply elem_bytes; solve [states; elems] | lia | intros ? ? ?]
  | |- wp _ (swap _ _) _ _ => apply wp_swap; [sizes | sizes | intros ? ? ? ?]
  end; cbv beta zeta.

Ltac wp_run := repeat ((wp_step || wp_step_num); try sizes); frames.

(** The loop that pops the arguments of CHECKMULTISIG. *)
Lemma wp_multisig_cleanup md flags n fSuccess ikey2 Q st :
  Z.of_nat n <= Zlen (stack st) -> Q tt (with_stack (drop n (stack st)) st) ->
  wp md (multisig_cleanup flags n fSuccess ikey2) Q st.
Proof.
  revert ikey2 st. induction n as [| n IH]; intros ikey2 st Hn HQ; cbn [multisig_cleanup].
  { wp_step. rewrite drop_0 in HQ. by destruct st. }
  wp_step. assert (Hnext : wp md (mbind popstack (fun _ =>
    multisig_cleanup flags n fSuccess (if ikey2 >? 0 then ikey2 - 1 else ikey2))) Q st).
  { wp_step. apply wp_popstack; [lia |]. apply IH.
    - cbn. unfold Zlen in *. rewrite length_drop. lia.
    - cbn. rewrite drop_drop. destruct st. done. }
  apply wp_if; intros E; [| by wp_step].
  wp_step. wp_step; [lia |]. by wp_step.
Qed.

Section Multisig.
Context `{Env : NodeEnv, Checker : SignatureChecker}.
Variable md : mode.
Variable flags : Z.
Variable sigversion : SigVersion.

Lemma wp_multisig_drop n isig code Q st :
  1 <= isig -> isig + Z.of_nat n - 1 <= Zlen (stack st) ->
  (reads_forkid flags -> [] ∈ take n (drop (Z.to_nat (isig - 1)) (stack st)) -> undef_post md) ->
  (forall code', Q code' st) -> wp md (multisig_drop flags sigversion n isig code) Q st.
Proof.
  revert isig code. induction n as [| n IH]; intros isig code Hi Hn Hu HQ; cbn [multisig_drop].
  { wp_step. apply HQ. }
  wp_step. apply wp_stacktop; [lia |]. intros v Hv. rewrite (drop_S _ _ _ Hv) in Hu. cbn [take] in Hu.
  assert (Hv0 : reads_forkid flags -> v = [] -> undef_post md) by (intros Hr ->; apply Hu; [done | by left]).
  assert (Hrest : forall code, wp md (multisig_drop flags sigversion n (isig + 1) code) Q st).
  { intros code'. apply IH; [lia | lia | | done]. intros Hr Hin. apply Hu; [done |]. right. replace (S (Z.to_nat (isig - 1))) with (Z.to_nat (isig + 1 - 1)) by lia. done. }
  wp_step. apply wp_require_forkid; [done |]. wp_step. apply wp_if; intros E; bool_to_prop.
  - wp_step. apply wp_uses_forkid; [apply Hv0; by left |]. intros b. wp_step. apply Hrest.
  - wp_step. apply Hrest.
Qed.

Lemma wp_multisig_check fuel code isig ikey nSigs nKeys Q st :
  Forall elem_ok (stack st) ->
  1 <= isig -> 1 <= ikey -> isig + nSigs - 1 <= Zlen (stack st) -> ikey + nKeys - 1 <= Zlen (stack st) ->
  nSigs <= nKeys <= Z.of_nat fuel -> (forall b, Q b st) ->
  wp md (multisig_check flags sigversion fuel code isig ikey nSigs nKeys) Q st.
Proof.
  intros Hst. revert isig ikey nSigs nKeys. induction fuel as [| fuel IH]; intros isig ikey nSigs nKeys Hi Hk Hs Hn Hle HQ;
    cbn [multisig_check]; rewrite Z.gtb_ltb; (apply wp_if; intros E; bool_to_prop; [| wp_step; apply HQ]); [lia |].
  wp_step. wp_step; [lia |]. wp_step. wp_step; [lia |]. assert (elem_ok v) by elems.
  wp_step. apply wp_check; [by apply CheckSignatureEncoding_total, elem_bytes |].
  wp_step. apply wp_check; [apply CheckPubKeyEncoding_total |]. cbv zeta. rewrite Z.gtb_ltb.
  apply wp_if; intros E'; bool_to_prop; [wp_step; apply HQ |].
  apply IH; try done; destruct (CheckSig _ _ _ _); lia.
Qed.
End Multisig.

(** The signatures that an opcode takes from the stack. *)
Definition op_signatures (flags opcode : Z) (stk : list (list Z)) : list (list Z) :=
  let count vch := match CScriptNum vch (fRequireMinimal flags) nDefaultMaxNumSize with Ret bn => Z.to_nat (getint bn) | _ => 0%nat end in
  if one_of opcode [OP_CHECKSIG; OP_CHECKSIGVERIFY] then take 1 (drop 1 stk)
  else if one_of opcode [OP_CHECKMULTISIG; OP_CHECKMULTISIGVERIFY] then
    match stk with
    | [] => []
    | nKeys :: stk => match drop (count nKeys) stk with [] => [] | nSigs :: stk => take (count nSigs) stk end
    end
  else [].

Lemma op_signatures_checksig flags opcode stk v :
  one_of opcode [OP_CHECKSIG; OP_CHECKSIGVERIFY] = true -> stk !! 1%nat = Some v -> op_signatures flags opcode stk = [v].
Proof. intros Hop Hv. unfold op_signatures. by rewrite Hop, (drop_S _ _ _ Hv). Qed.

Lemma op_signatures_multisig flags opcode stk v bn v' bn' :
  one_of opcode [OP_CHECKMULTISIG; OP_CHECKMULTISIGVERIFY] = true ->
  stk !! 0%nat = Some v -> CScriptNum v (fRequireMinimal flags) nDefaultMaxNumSize = Ret bn ->
  stk !! S (Z.to_nat (getint bn)) = Some v' -> CScriptNum v' (fRequireMinimal flags) nDefaultMaxNumSize = Ret bn' ->
  op_signatures flags opcode stk = take (Z.to_nat (getint bn')) (drop (S (S (Z.to_nat (getint bn)))) stk).
Proof.
  intros Hop Hv Hbn Hv' Hbn'. destruct stk as [| v0 stk]; [done |]. injection Hv as ->.
  assert (one_of opcode [OP_CHECKSIG; OP_CHECKSIGVERIFY] = false) as Hn.
  { apply orb_true_iff in Hop as [Hop | Hop]; [| apply orb_true_iff in Hop as [Hop | Hop]; [| done]];
      apply Z.eqb_eq in Hop as ->; reflexivity. }
  unfold op_signatures. rewrite Hn, Hop, Hbn. cbn [lookup list_lookup] in Hv'. cbn [drop]. by rewrite (drop_S _ _ _ Hv'), Hbn'.
Qed.

(** ** Conditionals *)

(** The effect of an instruction on the depth of nested conditionals, executed or
    not; [None] when it is an error at that depth. *)
Definition cond_step (opcode : Z) (depth : nat) : option nat :=
  if one_of opcode [OP_IF; OP_NOTIF] then Some (S depth)
  else if one_of opcode [OP_VERIF; OP_VERNOTIF] then None
  else if opcode =? OP_ELSE then match depth with O => None | S _ => Some depth end
  else if opcode =? OP_ENDIF then match depth with O => None | S d => Some d end
  else Some depth.

Lemma cond_step_other opcode d : ~ (OP_IF <= opcode <= OP_ENDIF) -> cond_step opcode d = Some d.
Proof.
  intros H. unfold cond_step, one_of, OP_IF, OP_NOTIF, OP_VERIF, OP_VERNOTIF, OP_ELSE, OP_ENDIF in *. cbn [existsb].
  by rewrite !(proj2 (Z.eqb_neq opcode _)) by lia.
Qed.

Lemma cond_step_if opcode d : one_of opcode [OP_IF; OP_NOTIF] = true -> cond_step opcode d = Some (S d).
Proof. intros H. unfold cond_step. by rewrite H. Qed.

Section Ops.
Context `{Env : NodeEnv, Checker : SignatureChecker}.
Variable md : mode.
Variable flags : Z.
Variable sigversion : SigVersion.

Variable st : eval_state.
Hypothesis Hst : Forall elem_ok (stack st).
Hypothesis Halt : Forall elem_ok (altstack st).
Hypothesis Hsize : Zlen (stack st) < 2 ^ 62.

#[local] Abbreviation post := (fun (_ : unit) st' => frame st st').

Lemma wp_op_N opcode : 0 <= opcode < 256 -> wp md (op_N opcode) post st.
Proof.
  intros. unfold op_N. wp_run. apply elem_ok_num. unfold OP_1. lia.
Qed.

Lemma wp_op_VERIFY : wp md op_VERIFY post st.
Proof. unfold op_VERIFY. wp_run. Qed.

Lemma wp_op_TOALTSTACK : wp md op_TOALTSTACK post st.
Proof. unfold op_TOALTSTACK. wp_run. Qed.

Lemma wp_op_2DROP : wp md op_2DROP post st.
Proof. unfold op_2DROP. wp_run. Qed.

Lemma wp_op_2DUP : wp md op_2DUP post st.
Proof. unfold op_2DUP. wp_run. Qed.

Lemma wp_op_3DUP : wp md op_3DUP post st.
Proof. unfold op_3DUP. wp_run. Qed.

Lemma wp_op_2OVER : wp md op_2OVER post st.
Proof. unfold op_2OVER. wp_run. Qed.

Lemma wp_op_IFDUP : wp md op_IFDUP post st.
Proof. unfold op_IFDUP. wp_run. Qed.

Lemma wp_op_DROP : wp md op_DROP post st.
Proof. unfold op_DROP. wp_run. Qed.

Lemma wp_op_DUP : wp md op_DUP post st.
Proof. unfold op_DUP. wp_run. Qed.

Lemma wp_op_OVER : wp md op_OVER post st.
Proof. unfold op_OVER. wp_run. Qed.

Lemma wp_op_NIP : wp md op_NIP post st.
Proof. unfold op_NIP, erase. wp_run. Qed.

Lemma wp_op_TUCK : wp md op_TUCK post st.
Proof. unfold op_TUCK, insert_at. wp_run. Qed.

Lemma wp_op_2ROT : wp md op_2ROT post st.
Proof. unfold op_2ROT, erase. wp_run. Qed.

Lemma wp_op_CODESEPARATOR : wp md op_CODESEPARATOR post st.
Proof. unfold op_CODESEPARATOR. wp_run. Qed.

Lemma wp_op_NOPx : wp md (op_NOPx flags) post st.
Proof. unfold op_NOPx. wp_run. Qed.

Lemma wp_op_EQUAL opcode : wp md (op_EQUAL opcode) post st.
Proof. unfold op_EQUAL. wp_run. Qed.

Lemma wp_op_FROMALTSTACK : wp md op_FROMALTSTACK post st.
Proof.
  unfold op_FROMALTSTACK. wp_step. wp_step. destruct (altstack st) as [| v alt] eqn:E; [wp_step |].
  apply List.Forall_cons_iff in Halt as [Hv Halt']. wp_run; done.
Qed.

Lemma wp_op_2SWAP : wp md op_2SWAP post st.
Proof. unfold op_2SWAP. wp_run. Qed.

Lemma wp_op_ROT : wp md op_ROT post st.
Proof. unfold op_ROT. wp_run. Qed.

Lemma wp_op_SWAP : wp md op_SWAP post st.
Proof. unfold op_SWAP. wp_run. Qed.

Lemma wp_op_DEPTH : wp md op_DEPTH post st.
Proof. unfold op_DEPTH. wp_run. apply elem_ok_num. pose proof (Zlen_nonneg (stack st)). lia. Qed.

Lemma wp_op_SIZE : wp md op_SIZE post st.
Proof.
  unfold op_SIZE. wp_run.
  assert (elem_ok v) as [_ Hv] by elems. pose proof (Zlen_nonneg v).
  apply elem_ok_num. unfold MAX_SCRIPT_ELEMENT_SIZE in Hv. lia.
Qed.

Lemma wp_op_PICK opcode : wp md (op_PICK flags opcode) post st.
Proof.
  unfold op_PICK, erase. wp_run; bool_to_prop; sizes.
Qed.

Lemma wp_op_WITHIN : wp md (op_WITHIN flags) post st.
Proof. unfold op_WITHIN. wp_run. Qed.

Lemma wp_op_CHECKLOCKTIMEVERIFY : wp md (op_CHECKLOCKTIMEVERIFY flags) post st.
Proof. unfold op_CHECKLOCKTIMEVERIFY. wp_run. Qed.

Lemma wp_op_CHECKSEQUENCEVERIFY : wp md (op_CHECKSEQUENCEVERIFY flags) post st.
Proof. unfold op_CHECKSEQUENCEVERIFY. wp_run. Qed.

Lemma wp_op_unary opcode :
  one_of opcode [OP_1ADD; OP_1SUB; OP_NEGATE; OP_ABS; OP_NOT; OP_0NOTEQUAL] = true ->
  wp md (op_unary flags opcode) post st.
Proof.
  intros Hop. unfold op_unary. wp_run.
  destruct (unary_op_ok opcode bn Hop ltac:(lia)) as (n & -> & Hn).
  apply wp_lift_Ret. wp_run. apply elem_ok_num. lia.
Qed.

Lemma wp_op_binary opcode :
  one_of opcode [OP_ADD; OP_SUB; OP_BOOLAND; OP_BOOLOR; OP_NUMEQUAL; OP_NUMEQUALVERIFY;
    OP_NUMNOTEQUAL; OP_LESSTHAN; OP_GREATERTHAN; OP_LESSTHANOREQUAL;
    OP_GREATERTHANOREQUAL; OP_MIN; OP_MAX] = true ->
  wp md (op_binary flags opcode) post st.
Proof.
  intros Hop. unfold op_binary. wp_run.
  destruct (binary_op_ok opcode bn bn0 Hop ltac:(lia) ltac:(lia)) as (n & -> & Hn).
  apply wp_lift_Ret. assert (elem_ok (getvch n)) by (apply elem_ok_num; lia). wp_run; done.
Qed.

Lemma wp_op_hash opcode : wp md (op_hash opcode) post st.
Proof. unfold op_hash. wp_run. apply hash_op_ok. Qed.

Lemma wp_op_CHECKSIG opcode :
  one_of opcode [OP_CHECKSIG; OP_CHECKSIGVERIFY] = true ->
  (reads_forkid flags -> [] ∈ op_signatures flags opcode (stack st) -> undef_post md) ->
  wp md (op_CHECKSIG flags sigversion opcode) post st.
Proof.
  intros Hop Hu. unfold op_CHECKSIG. do 7 (wp_step; try sizes). wp_step. wp_step.
  assert (elem_ok v) by elems.
  assert (Hv : reads_forkid flags -> v = [] -> undef_post md).
  { intros Hr ->. apply Hu; [done |]. erewrite op_signatures_checksig by done. by left. }
  apply wp_require_forkid; [done |].
  assert (Hrest : forall Q, Q tt st -> wp md (if chain_height <? UBCHeight
    then mbind (lift (uses_forkid v)) (fun _ => mret tt) else mret tt) Q st).
  { intros Q HQ. destruct (chain_height <? UBCHeight) eqn:E; bool_to_prop; [| by wp_step].
    wp_step. apply wp_uses_forkid; [apply Hv; by left |]. intros _. by wp_step. }
  wp_step. apply Hrest. wp_step. apply wp_check; [by apply CheckSignatureEncoding_total, elem_bytes |].
  wp_step. apply wp_check; [apply CheckPubKeyEncoding_total |]. wp_run.
Qed.

Lemma wp_op_CHECKMULTISIG opcode :
  one_of opcode [OP_CHECKMULTISIG; OP_CHECKMULTISIGVERIFY] = true ->
  (reads_forkid flags -> [] ∈ op_signatures flags opcode (stack st) -> undef_post md) ->
  wp md (op_CHECKMULTISIG flags sigversion opcode) post st.
Proof.
  intros Hop Hu. unfold op_CHECKMULTISIG. cbv zeta.
  do 7 ((wp_step || wp_step_num); try sizes). bool_to_prop. set (nKeys := getint bn) in *.
  unfold MAX_PUBKEYS_PER_MULTISIG in *.
  do 4 wp_step. wp_step. wp_step. bool_to_prop. set (st1 := with_nOpCount _ st) in *.
  assert (Hst1 : Forall elem_ok (stack st1)) by done.
  do 3 (wp_step; try lia). do 2 (wp_step; try lia). wp_step. apply wp_script_num; [by elems |]. intros bn' Hbn' Ebn'.
  do 2 wp_step. bool_to_prop. set (nSigs := getint bn') in *. do 4 wp_step.
  wp_step. apply wp_multisig_drop; [lia | lia | |].
  { intros Hr Hin. apply Hu; [done |]. erewrite op_signatures_multisig; [| done | done | done | | done].
    - fold nKeys nSigs. by replace (S (S (Z.to_nat nKeys))) with (Z.to_nat (1 + 1 + nKeys + 1 - 1)) by lia.
    - fold nKeys. by replace (S (Z.to_nat nKeys)) with (Z.to_nat (1 + 1 + nKeys - 1)) by lia. }
  intros code.
  wp_step. apply wp_multisig_check; [done | lia | lia | lia | lia | lia |]. intros b.
  wp_step. apply wp_multisig_cleanup; [lia |]. unfold MAX_OPS_PER_SCRIPT in *.
  assert (Hn1 : nOpCount st1 = nOpCount st + nKeys) by done. bool_to_prop. subst st1.
  wp_run; unfold MAX_OPS_PER_SCRIPT; lia.
Qed.

(** ** The switch *)

(** What a case of the switch may change, conditionals included. *)
Definition step_frame (opcode : Z) (st0 st : eval_state) : Prop :=
  pc st = pc st0 /\ cond_step opcode (length (vfExec st0)) = Some (length (vfExec st)) /\ elems_ok st /\
  nOpCount st0 <= nOpCount st /\ (nOpCount st0 <= MAX_OPS_PER_SCRIPT -> nOpCount st <= MAX_OPS_PER_SCRIPT).

Lemma frame_step opcode st' :
  ~ (OP_IF <= opcode <= OP_ENDIF) -> frame st st' -> step_frame opcode st st'.
Proof.
  intros Hop (Hpc & Hvf & He & Hn & Hm). split; [done |]. rewrite Hvf.
  split; [by apply cond_step_other |]. done.
Qed.

Lemma wp_op_IF opcode fExec :
  one_of opcode [OP_IF; OP_NOTIF] = true ->
  wp md (op_IF flags sigversion opcode fExec) (fun _ st' => step_frame opcode st st') st.
Proof.
  intros Hop. unfold op_IF. wp_step.
  assert (Hpost : forall stk b, Forall elem_ok stk ->
    step_frame opcode st (with_vfExec (b :: vfExec st) (with_stack stk st))).
  { intros stk b Hstk. split; [done |]. split; [by apply cond_step_if |]. split; [by split |]. cbn. lia. }
  destruct fExec.
  - repeat (wp_step; try (bool_to_prop; sizes)); apply (Hpost (drop 1 (stack st))); by apply Forall_drop.
  - wp_step. wp_step. specialize (Hpost (stack st) false Hst). by destruct st.
Qed.

Lemma wp_op_ELSE : wp md op_ELSE (fun _ st' => step_frame OP_ELSE st st') st.
Proof.
  unfold op_ELSE. do 2 wp_step. destruct (vfExec st) as [| b vf] eqn:E; wp_step.
  split; [done |]. rewrite E. split; [done |]. split; [by split |]. cbn. lia.
Qed.

Lemma wp_op_ENDIF : wp md op_ENDIF (fun _ st' => step_frame OP_ENDIF st st') st.
Proof.
  unfold op_ENDIF. do 2 wp_step. destruct (vfExec st) as [| b vf] eqn:E; wp_step.
  split; [done |]. rewrite E. split; [done |]. split; [by split |]. cbn. lia.
Qed.

Variable script : list Z.

(** The state in which a contract opcode returns: the script from the opcode on is pushed. *)
Definition contract_state : eval_state := with_stack (drop (length script - length (pc st) - 1) script :: stack st) st.

Lemma wp_op_contract Q : true_post md contract_state -> wp md (op_contract script) Q st.
Proof. intros HQ. unfold op_contract. do 3 wp_step. exact HQ. Qed.

(** The opcode is outside the conditionals, by the test that selected it. *)
Ltac not_conditional :=
  unfold one_of in *; cbn [existsb] in *;
  repeat match goal with
  | H : (_ || _) = true |- _ => apply orb_true_iff in H as [H | H]
  end; bool_to_prop; try done;
  subst; unfold OP_IF, OP_ENDIF, OP_1, OP_16, OP_1NEGATE in *; try lia; vm_compute; intros [? ?]; congruence.

Ltac case_frame lem :=
  apply (wp_mono md _ (fun _ st' => frame st st'));
  [intros ? ? ?; apply frame_step; [clear - lem; not_conditional | done] |].

Definition is_sig_op (opcode : Z) : bool :=
  one_of opcode [OP_CHECKSIG; OP_CHECKSIGVERIFY; OP_CHECKMULTISIG; OP_CHECKMULTISIGVERIFY].

Lemma op_signatures_sig_op opcode stk v : v ∈ op_signatures flags opcode stk -> is_sig_op opcode = true.
Proof.
  unfold op_signatures, is_sig_op, one_of. cbn [existsb].
  destruct (opcode =? OP_CHECKSIG); [done |]. destruct (opcode =? OP_CHECKSIGVERIFY); [done |].
  destruct (opcode =? OP_CHECKMULTISIG); [done |]. destruct (opcode =? OP_CHECKMULTISIGVERIFY); [done |].
  cbn. by intros H%elem_of_nil.
Qed.

Definition is_contract_op (opcode : Z) : bool :=
  one_of opcode [OP_CREATE_NATIVE; OP_CREATE; OP_UPGRADE; OP_DESTROY; OP_CALL; OP_DEPOSIT_TO_CONTRACT; OP_SPEND].

(** One case of the switch. *)
Ltac op_case E :=
  lazymatch goal with
  | |- wp _ (set_error _) _ _ => wp_step
  | |- wp _ (op_contract _) _ _ => apply wp_op_contract; auto
  | |- wp _ op_ELSE _ _ => apply Z.eqb_eq in E as ->; by apply wp_op_ELSE
  | |- wp _ op_ENDIF _ _ => apply Z.eqb_eq in E as ->; by apply wp_op_ENDIF
  | |- wp _ (op_IF _ _ _ _) _ _ => by apply wp_op_IF
  | |- _ =>
    case_frame E;
    lazymatch goal with
    | |- wp _ (mret _) _ _ => wp_step; apply frame_refl; by split
    | |- wp _ (op_CHECKSIG _ _ _) _ _ => apply wp_op_CHECKSIG; auto
    | |- wp _ (op_CHECKMULTISIG _ _ _) _ _ => apply wp_op_CHECKMULTISIG; auto
    | |- _ => first [by apply wp_op_N | by apply wp_op_CHECKLOCKTIMEVERIFY | by apply wp_op_CHECKSEQUENCEVERIFY
        | by apply wp_op_NOPx | by apply wp_op_VERIFY | by apply wp_op_TOALTSTACK | by apply wp_op_FROMALTSTACK
        | by apply wp_op_2DROP | by apply wp_op_2DUP | by apply wp_op_3DUP | by apply wp_op_2OVER
        | by apply wp_op_2ROT | by apply wp_op_2SWAP | by apply wp_op_IFDUP | by apply wp_op_DEPTH
        | by apply wp_op_DROP | by apply wp_op_DUP | by apply wp_op_NIP | by apply wp_op_OVER
        | by apply wp_op_PICK | by apply wp_op_ROT | by apply wp_op_SWAP | by apply wp_op_TUCK
        | by apply wp_op_SIZE | by apply wp_op_EQUAL | by apply wp_op_unary | by apply wp_op_binary
        | by apply wp_op_WITHIN | by apply wp_op_hash | by apply wp_op_CODESEPARATOR]
    end
  end.

Lemma wp_exec_op opcode fExec :
  0 <= opcode < 256 ->
  (reads_forkid flags -> is_sig_op opcode = true -> [] ∈ op_signatures flags opcode (stack st) -> undef_post md) ->
  (is_contract_op opcode = true -> true_post md contract_state) ->
  wp md (exec_op flags sigversion script opcode fExec) (fun _ st' => step_frame opcode st st') st.
Proof.
  intros Hop Hu Ht.
  assert (Hsig : reads_forkid flags -> [] ∈ op_signatures flags opcode (stack st) -> undef_post md).
  { intros Hr Hin. apply Hu; [done | | done]. by eapply op_signatures_sig_op. }
  unfold exec_op.
  repeat (apply wp_if; intros E; [solve [op_case E] | clear E]). wp_step.
Qed.
End Ops.

(** ** One iteration, and the loop *)

Section Loop.
Context `{Env : NodeEnv, Checker : SignatureChecker}.
Variable flags : Z.
Variable sigversion : SigVersion.
Variable script : list Z.

Definition counts (opcode : Z) : Z := if opcode >? OP_16 then 1 else 0.

(** What an iteration that ends normally has done with the instruction [r]. *)
Definition step_done (r : getop) (st st' : eval_state) : Prop :=
  go_ret r = true /\ pc st' = go_pc r /\ Zlen (go_vch r) <= MAX_SCRIPT_ELEMENT_SIZE /\
  is_disabled (go_opcode r) = false /\
  cond_step (go_opcode r) (length (vfExec st)) = Some (length (vfExec st')) /\ elems_ok st' /\
  nOpCount st + counts (go_opcode r) <= nOpCount st' /\
  (nOpCount st <= MAX_OPS_PER_SCRIPT -> nOpCount st' <= MAX_OPS_PER_SCRIPT) /\
  Zlen (stack st') + Zlen (altstack st') <= MAX_STACK_SIZE.

Lemma wp_read_instr md st Q :
  (go_ret (GetOp2 (pc st)) = true ->
   Q (go_opcode (GetOp2 (pc st)), go_vch (GetOp2 (pc st))) (with_pc (go_pc (GetOp2 (pc st))) st)) ->
  wp md read_instr Q st.
Proof.
  intros HQ. unfold read_instr. do 4 wp_step. destruct (go_ret _); wp_step. by apply HQ.
Qed.

Lemma wp_count_op md opcode st Q :
  (forall n, n = nOpCount st + counts opcode ->
   (nOpCount st <= MAX_OPS_PER_SCRIPT -> n <= MAX_OPS_PER_SCRIPT) -> Q tt (with_nOpCount n st)) ->
  wp md (count_op opcode) Q st.
Proof.
  intros HQ. unfold count_op, counts in *. destruct (opcode >? OP_16).
  - do 5 wp_step. apply HQ; [done |]. intros _. by bool_to_prop.
  - wp_step. specialize (HQ (nOpCount st) ltac:(lia) ltac:(done)). by destruct st.
Qed.

(** From the switch to the end of the iteration. *)
Lemma wp_size_limit md r st n st2 :
  go_ret r = true -> Zlen (go_vch r) <= MAX_SCRIPT_ELEMENT_SIZE -> is_disabled (go_opcode r) = false ->
  n = nOpCount st + counts (go_opcode r) -> (nOpCount st <= MAX_OPS_PER_SCRIPT -> n <= MAX_OPS_PER_SCRIPT) ->
  step_frame (go_opcode r) (with_nOpCount n (with_pc (go_pc r) st)) st2 ->
  wp md (mbind stack_size (fun size => mbind (gets (fun st => Zlen (altstack st))) (fun altsize =>
    error_if (size + altsize >? MAX_STACK_SIZE) SCRIPT_ERR_STACK_SIZE)))
    (fun _ st' => step_done r st st') st2.
Proof.
  intros Hret Hlen Hdis Hn Hmax (Hp & Hc & He & Hn1 & Hn2).
  cbn [pc vfExec nOpCount with_nOpCount with_pc] in *. do 5 wp_step. bool_to_prop.
  split; [done |]. split; [done |]. split; [lia |]. split; [done |]. split; [done |]. split; [done |].
  split; [lia |]. split; [auto | lia].
Qed.

(** The next instruction checks a signature that is empty, and looks for its fork id. *)
Definition reads_empty_sig (st : eval_state) : Prop :=
  reads_forkid flags /\ exists opcode rest, pc st = opcode :: rest /\ is_sig_op opcode = true /\
    forallb id (vfExec st) = true /\ [] ∈ op_signatures flags opcode (stack st).

(** The next instruction is a contract opcode that is executed, and returns in [st']. *)
Definition contract_returns (st st' : eval_state) : Prop :=
  exists opcode rest, pc st = opcode :: rest /\ is_contract_op opcode = true /\ forallb id (vfExec st) = true /\
    (nOpCount st <= MAX_OPS_PER_SCRIPT -> nOpCount st + 1 <= MAX_OPS_PER_SCRIPT) /\
    stack st' = drop (length script - length rest - 1) script :: stack st.

Lemma GetOp2_opcode p :
  go_ret (GetOp2 p) = true -> OP_PUSHDATA4 < go_opcode (GetOp2 p) ->
  p = go_opcode (GetOp2 p) :: go_pc (GetOp2 p) /\ go_vch (GetOp2 p) = [].
Proof.
  destruct p as [| x p]; [done |]. cbn [GetOp2]. destruct (Z.leb_spec x OP_PUSHDATA4); [| done].
  destruct (GetOp2_size x p) as [[n p'] |]; [| done]. destruct (_ <? _); [done |]. cbn. lia.
Qed.

(** Neither is a push or a conditional, and the contract opcodes count as operations. *)
Lemma special_op opcode :
  is_sig_op opcode = true \/ is_contract_op opcode = true -> OP_ENDIF < opcode /\ counts opcode = 1.
Proof.
  unfold is_sig_op, is_contract_op, one_of. cbn [existsb]. rewrite !orb_true_iff, !Z.eqb_eq.
  intros H. repeat destruct H as [H | H]; try discriminate H; subst opcode; done.
Qed.

Lemma special_executed opcode vf :
  is_sig_op opcode = true \/ is_contract_op opcode = true ->
  (forallb id vf || ((OP_IF <=? opcode) && (opcode <=? OP_ENDIF)))%bool = true -> forallb id vf = true.
Proof.
  intros [H _]%special_op E. destruct (forallb id vf); [done |]. cbn [orb] in E. bool_to_prop. lia.
Qed.

Lemma wp_eval_step st :
  elems_ok st -> bytes_ok (pc st) -> Zlen (stack st) < 2 ^ 62 ->
  wp (Mode (reads_empty_sig st) (contract_returns st)) (eval_step flags sigversion script)
    (fun _ st' => step_done (GetOp2 (pc st)) st st') st.
Proof.
  intros [Hst Halt] Hpc Hsize. destruct (GetOp2_bytes _ Hpc) as (Hop & Hvch & _). unfold is_byte in Hop.
  set (md := Mode _ _). unfold eval_step. do 2 wp_step. wp_step. apply wp_read_instr. intros Hret.
  pose proof (GetOp2_opcode _ Hret) as Hcode. set (r := GetOp2 (pc st)) in *. cbv iota beta.
  do 2 wp_step. wp_step. apply wp_count_op. intros n Hn Hmax. do 2 wp_step. bool_to_prop.
  set (st1 := with_nOpCount n _).
  apply wp_mbind, (wp_mono md _ (fun _ st2 => step_frame (go_opcode r) st1 st2)).
  { intros [] st2 Hst2. by apply (wp_size_limit md r st n st2). }
  assert (Hst1 : Forall elem_ok (stack st1)) by done. assert (Halt1 : Forall elem_ok (altstack st1)) by done.
  assert (Hsize1 : Zlen (stack st1) < 2 ^ 62) by done.
  assert (Es1 : stack st1 = stack st) by done. assert (Ep1 : pc st1 = go_pc r) by done. clearbody st1.
  apply wp_if; intros E; [| apply wp_if; intros E'].
  - do 2 wp_step. wp_step. bool_to_prop. apply frame_step; [unfold OP_PUSHDATA4, OP_IF in *; lia |].
    apply frame_intro; [| done | lia | done]. constructor; [by split | done].
  - apply wp_exec_op; [done .. | lia | |].
    + intros Hr Hs Hin. destruct (special_op _ (or_introl Hs)) as [Hb _].
      destruct (Hcode ltac:(unfold OP_ENDIF, OP_PUSHDATA4 in *; lia)) as [Epc _]. rewrite Es1 in Hin.
      split; [done |]. exists (go_opcode r), (go_pc r). split; [done |]. split; [done |]. split; [| done].
      eapply special_executed; [by left | done].
    + intros Hs. destruct (special_op _ (or_intror Hs)) as [Hb Hc].
      destruct (Hcode ltac:(unfold OP_ENDIF, OP_PUSHDATA4 in *; lia)) as [Epc _]. rewrite Hc in Hn. subst n.
      exists (go_opcode r), (go_pc r). split; [done |]. split; [done |]. split; [eapply special_executed; [by right | done] |].
      split; [done |]. unfold contract_state. cbn [stack with_stack]. by rewrite Es1, Ep1.
  - wp_step. apply orb_false_iff in E' as [_ E']. apply frame_step; [| by apply frame_refl; split].
    intros [H1 H2]. rewrite !(proj2 (Z.leb_le _ _)) in E' by lia. done.
Qed.

(** The depth of conditionals after the instructions [ops]. *)
Fixpoint conds (ops : list (Z * list Z)) (depth : nat) : option nat :=
  match ops with
  | [] => Some depth
  | (op, _) :: ops => match cond_step op depth with Some d => conds ops d | None => None end
  end.

Fixpoint count_ops (ops : list (Z * list Z)) : Z :=
  match ops with
  | [] => 0
  | (op, _) :: ops => counts op + count_ops ops
  end.

(** The iterations that lead from a state to another, with the instructions they read. *)
Inductive reached : eval_state -> list (Z * list Z) -> eval_state -> Prop :=
| reached_here st : reached st [] st
| reached_step st st1 ops st' :
    pc st <> [] -> eval_step flags sigversion script st = (Next tt, st1) -> reached st1 ops st' ->
    reached st ((go_opcode (GetOp2 (pc st)), go_vch (GetOp2 (pc st))) :: ops) st'.

(** [ops] are the first instructions of [p], and [p'] is what follows them. *)
Definition decoded (p : list Z) (ops : list (Z * list Z)) (p' : list Z) : Prop :=
  (exists k, p' = drop k p) /\ forall fuel, (length p <= fuel)%nat ->
    instrs fuel p = ops ++ instrs (fuel - length ops) p' /\ (p' = [] -> GetOps fuel p = Some ops).

Lemma decoded_nil p : decoded p [] p.
Proof.
  split; [by exists 0%nat |]. intros fuel _. cbn [length app]. rewrite Nat.sub_0_r. split; [done |]. intros ->. by destruct fuel.
Qed.

Lemma decoded_cons p ops p' :
  go_ret (GetOp2 p) = true -> decoded (go_pc (GetOp2 p)) ops p' ->
  decoded p ((go_opcode (GetOp2 p), go_vch (GetOp2 p)) :: ops) p'.
Proof.
  intros Hret [[k Hk] Hd]. pose proof (GetOp2_length _ Hret) as Hlen. split.
  { destruct (GetOp2_suffix p) as [j Hj]. exists (j + k)%nat. by rewrite Hk, Hj, drop_drop. }
  intros fuel Hfuel. destruct fuel as [| fuel]; [lia |]. destruct (Hd fuel ltac:(lia)) as [Hi Hg].
  cbn [instrs GetOps length Nat.sub app]. rewrite Hret, Hi. split; [done |]. intros Hp'. rewrite (Hg Hp').
  by destruct p.
Qed.

(** What the iterations have done. *)
Record run_done (st : eval_state) (ops : list (Z * list Z)) (st' : eval_state) : Prop := {
  rd_decoded : decoded (pc st) ops (pc st');
  rd_conds : conds ops (length (vfExec st)) = Some (length (vfExec st'));
  rd_enabled : Forall (fun i => is_disabled i.1 = false) ops;
  rd_elems : elems_ok st';
  rd_count : nOpCount st + count_ops ops <= nOpCount st';
  rd_limit : nOpCount st <= MAX_OPS_PER_SCRIPT -> nOpCount st' <= MAX_OPS_PER_SCRIPT;
  rd_size : Zlen (stack st') + Zlen (altstack st') <= MAX_STACK_SIZE \/ ops = [] /\ st' = st
}.

Lemma run_done_nil st : elems_ok st -> run_done st [] st.
Proof.
  intros He. split; [apply decoded_nil | done | constructor | done | cbn; lia | done | by right].
Qed.

Lemma run_done_cons st st1 ops st' :
  step_done (GetOp2 (pc st)) st st1 -> run_done st1 ops st' ->
  run_done st ((go_opcode (GetOp2 (pc st)), go_vch (GetOp2 (pc st))) :: ops) st'.
Proof.
  intros (Hret & Hp & Hv & Hd & Hc & _ & Hn & Hm & Hs) [Hdec Hc' Hf He Hn' Hm' Hs']. split; try done.
  - apply decoded_cons; [done |]. by rewrite <- Hp.
  - cbn. by rewrite Hc.
  - by constructor.
  - cbn [count_ops]. lia.
  - auto.
  - left. by destruct Hs' as [? | [_ ->]].
Qed.

(** The loop ends, in one of these ways, at a state it reaches. *)
Lemma eval_loop_runs fuel st :
  (length (pc st) <= fuel)%nat -> elems_ok st -> bytes_ok (pc st) -> Zlen (stack st) < 2 ^ 62 ->
  exists ops st1, reached st ops st1 /\ run_done st ops st1 /\
    match eval_loop flags sigversion script fuel st with
    | (Next _, st') => pc st1 = [] /\ st' = st1
    | (ReturnTrue, st') => contract_returns st1 st'
    | (Undefined, _) => reads_empty_sig st1
    | (Error _, _) | (Exception _, _) => True
    | (Aborted, _) => False
    end.
Proof.
  revert st. induction fuel as [| fuel IH]; intros st Hfuel He Hpc Hsize; cbn [eval_loop]; unfold mbind at 1, gets;
    destruct (pc st) as [| x p] eqn:Epc; try (exists [], st; by split; [constructor | split; [apply run_done_nil |]]).
  { cbn in Hfuel. lia. }
  rewrite <- Epc in *. assert (Hne : pc st <> []) by congruence. clear x p Epc.
  pose proof (wp_eval_step st He Hpc Hsize) as Hwp. unfold wp in Hwp. unfold mbind.
  destruct (eval_step flags sigversion script st) as [v st1] eqn:Es.
  destruct v as [[] | | | | |]; try (exists [], st; by split; [constructor | split; [apply run_done_nil |]]).
  assert (Hd := Hwp). destruct Hd as (Hret & Hp & _ & _ & _ & He1 & _ & _ & Hs1).
  destruct (GetOp2_bytes _ Hpc) as (_ & _ & Hpc1). pose proof (GetOp2_length _ Hret). rewrite <- Hp in *.
  pose proof (Zlen_nonneg (altstack st1)). unfold MAX_STACK_SIZE in Hs1.
  destruct (IH st1 ltac:(lia) He1 Hpc1 ltac:(lia)) as (ops & st2 & Hr & Hrun & Hres).
  eexists _, st2. split; [by eapply reached_step |]. split; [by eapply run_done_cons | done].
Qed.
End Loop.

(** ** [EvalScript] *)

Section EvalScript.
Context `{Env : NodeEnv, Checker : SignatureChecker}.

(** A script that reads no signature, or a configuration in which none is read. *)
Definition no_sig_read (script : list Z) (flags : Z) : Prop :=
  (UBCHeight <= chain_height /\ flag flags SCRIPT_ENABLE_SIGHASH_FORKID = false) \/
  Forall (fun i => is_sig_op i.1 = false) (instrs (length script) script).

(** The state before the first iteration. *)
Definition start (stk : list (list Z)) (script : list Z) : eval_state := EvalState stk [] [] 0 script script.

(** The evaluation comes to a signature check that reads the last byte of an empty signature. *)
Definition undefined_read (stk : list (list Z)) (script : list Z) (flags : Z) (sigversion : SigVersion) : Prop :=
  exists ops st, reached flags sigversion script (start stk script) ops st /\ reads_empty_sig flags st.

(** An opcode that is next at a state of the run is an instruction of the script. *)
Lemma decoded_next script ops opcode rest :
  OP_PUSHDATA4 < opcode -> decoded script ops (opcode :: rest) ->
  exists later, instrs (length script) script = ops ++ (opcode, []) :: later.
Proof.
  intros Hop [_ Hd]. destruct (Hd (length script) ltac:(lia)) as [Hi _].
  destruct (Hd (S (length script)) ltac:(lia)) as [Hi' _].
  pose proof (length_instrs (S (length script)) script) as Hlen. rewrite Hi', length_app in Hlen.
  replace (S (length script) - length ops)%nat with (S (length script - length ops)) in Hi', Hlen by lia.
  cbn [instrs] in Hi', Hlen. rewrite GetOp2_above in Hi', Hlen by done. cbn [go_ret go_opcode go_vch go_pc length] in Hlen.
  rewrite Hi. replace (length script - length ops)%nat with (S (length script - length ops - 1)) by lia.
  cbn [instrs]. rewrite GetOp2_above by done. by eexists.
Qed.

(** What a contract opcode pushes is the script from the opcode on. *)
Lemma contract_returns_stack stk script ops st st' :
  bytes_ok script -> Zlen script <= MAX_SCRIPT_SIZE -> run_done (start stk script) ops st ->
  contract_returns script st st' -> stack st' = pc st :: stack st /\ elem_ok (pc st).
Proof.
  intros Hs Hsize Hrun (opcode & rest & Epc & _ & _ & _ & ->).
  destruct (rd_decoded _ _ _ Hrun) as [[k Hk] _]. cbn [pc start] in Hk.
  assert (Hlen : length (pc st) = (length script - k)%nat) by (by rewrite Hk, length_drop).
  replace (length script - length rest - 1)%nat with k by (rewrite Epc in Hlen; cbn [length] in Hlen; lia).
  rewrite <- Hk. split; [done |]. rewrite Hk. split; [by apply bytes_ok_drop |].
  unfold Zlen, MAX_SCRIPT_SIZE, MAX_SCRIPT_ELEMENT_SIZE in *. rewrite length_drop. lia.
Qed.

(** The stack the interpreter leaves when it returns true is well formed and not
    much larger than the limit. *)
Definition stack_ok (n : Z) (r : eval_result) : Prop :=
  er_ret r = true -> Forall elem_ok (er_stack r) /\ Zlen (er_stack r) <= Z.max n MAX_STACK_SIZE + 1.

Lemma EvalScript_returns stk script flags sigversion :
  bytes_ok script -> Forall elem_ok stk -> Zlen stk < 2 ^ 61 ->
  (exists r, EvalScript stk script flags sigversion = Ret r /\ stack_ok (Zlen stk) r) \/
  (EvalScript stk script flags sigversion = Undef /\ undefined_read stk script flags sigversion /\ ~ no_sig_read script flags).
Proof.
  intros Hs Hstk Hlen. unfold EvalScript. destruct (Z.gtb_spec (Zlen script) MAX_SCRIPT_SIZE) as [_ | Hsize].
  { left. eexists. split; [done |]. discriminate. }
  destruct (eval_loop_runs flags sigversion script (length script) (start stk script)) as (ops & st1 & Hr & Hrun & Hres);
    [done | by split | done | cbn [stack start]; lia |].
  fold (start stk script). pose proof (Zlen_nonneg (altstack st1)).
  assert (Hz : Zlen (stack st1) <= Z.max (Zlen stk) MAX_STACK_SIZE).
  { destruct (rd_size _ _ _ Hrun) as [Hz | [_ ->]]; [lia | cbn [stack start]; lia]. }
  destruct (eval_loop _ _ _ _ _) as [[] st]; try done; try (left; eexists; split; [done |]; discriminate).
  - left. destruct Hres as [_ ->]. destruct (vfExec st1); (eexists; split; [done |]); [| discriminate]. intros _.
    split; [apply Hrun | cbn [er_stack]; lia].
  - left. eexists. split; [done |]. intros _. cbn [er_stack].
    destruct (contract_returns_stack stk script ops st1 st Hs Hsize Hrun Hres) as [-> Hpc].
    split; [constructor; [done | apply Hrun] | rewrite Zlen_cons; lia].
  - right. split; [done |]. split; [by exists ops, st1 |]. destruct Hres as (Hread & opcode & rest & Epc & Hop & _).
    pose proof (special_op _ (or_introl Hop)) as [Hb _].
    assert (Hd := rd_decoded _ _ _ Hrun). rewrite Epc in Hd. cbn [pc start] in Hd.
    apply decoded_next in Hd as [later Hin]; [| unfold OP_ENDIF, OP_PUSHDATA4 in *; lia].
    intros [[H1 H2] | Hn]; [destruct Hread; [lia | congruence] |].
    rewrite Hin in Hn. apply Forall_app in Hn as [_ Hn]. apply List.Forall_cons_iff in Hn as [Hn _]. cbn [fst] in Hn. congruence.
Qed.

(** C1. On a stack of byte strings within the element size, [EvalScript] always comes to
    an end, never fails one of its assertions and lets no exception escape. It returns
    normally unless the evaluation comes to an executed signature check that looks for
    the fork id in the last byte of an empty signature, which is undefined. This
    happens to no script without a signature check, and to none from [UBCHeight] on
    when the fork id is not enabled. *)
Theorem EvalScript_total stk script flags sigversion :
  bytes_ok script -> Forall elem_ok stk -> Zlen stk < 2 ^ 61 ->
  (exists r, EvalScript stk script flags sigversion = Ret r) \/
  (EvalScript stk script flags sigversion = Undef /\ undefined_read stk script flags sigversion /\ ~ no_sig_read script flags).
Proof.
  intros Hs Hstk Hlen. destruct (EvalScript_returns stk script flags sigversion Hs Hstk Hlen) as [(r & Hr & _) | H].
  - left. by exists r.
  - by right.
Qed.

(** C2. What an evaluation that returns true guarantees. The script is within the size
    limit, the resulting stack holds byte strings within the element size, and the
    evaluation has run a sequence [ops] of instructions, none of them disabled, with
    correctly nested conditionals, to a stack of at most 1000 elements (or none, and
    the stack is the given one). Either, with [SCRIPT_ERR_OK], these are all the
    instructions of the script, at most 201 of which count as operations, every
    conditional is closed and the stack is the result; or, with
    [SCRIPT_ERR_UNKNOWN_ERROR], the next instruction is a contract opcode in a branch
    that is executed, within the limit of operations too, and the result is the
    stack with the script from that opcode on pushed on it. *)
Theorem EvalScript_success stk script flags sigversion r :
  bytes_ok script -> Forall elem_ok stk -> Zlen stk < 2 ^ 61 ->
  EvalScript stk script flags sigversion = Ret r -> er_ret r = true ->
  Zlen script <= MAX_SCRIPT_SIZE /\ Forall elem_ok (er_stack r) /\
  exists ops st, reached flags sigversion script (start stk script) ops st /\
    Forall (fun i => is_disabled i.1 = false) ops /\ conds ops 0 = Some (length (vfExec st)) /\
    (Zlen (stack st) <= MAX_STACK_SIZE \/ ops = [] /\ stack st = stk) /\
    ((er_serror r = SCRIPT_ERR_OK /\ er_stack r = stack st /\ vfExec st = [] /\
      GetOps (length script) script = Some ops /\ count_ops ops <= MAX_OPS_PER_SCRIPT) \/
     (er_serror r = SCRIPT_ERR_UNKNOWN_ERROR /\ er_stack r = pc st :: stack st /\
      exists opcode rest, pc st = opcode :: rest /\ is_contract_op opcode = true /\ forallb id (vfExec st) = true /\
        (exists later, instrs (length script) script = ops ++ (opcode, []) :: later) /\
        count_ops ops + 1 <= MAX_OPS_PER_SCRIPT)).
Proof.
  intros Hs Hstk Hlen Hev Hret. assert (Hok : stack_ok (Zlen stk) r).
  { destruct (EvalScript_returns stk script flags sigversion Hs Hstk Hlen) as [(r' & Hr & Hok) | [Hu _]]; [| congruence].
    rewrite Hev in Hr. by injection Hr as <-. }
  destruct (Hok Hret) as [He _]. unfold EvalScript in Hev.
  destruct (Z.gtb_spec (Zlen script) MAX_SCRIPT_SIZE) as [_ | Hsize]; [by injection Hev as <- |].
  split; [done |]. split; [done |]. clear Hok He. fold (start stk script) in Hev.
  destruct (eval_loop_runs flags sigversion script (length script) (start stk script)) as (ops & st1 & Hr & Hrun & Hres);
    [done | by split | done | cbn [stack start]; lia |].
  exists ops, st1. split; [done |]. split; [apply Hrun |]. split; [exact (rd_conds _ _ _ Hrun) |].
  pose proof (Zlen_nonneg (altstack st1)). pose proof (rd_count _ _ _ Hrun) as Hn.
  pose proof (rd_limit _ _ _ Hrun ltac:(done)) as Hm. cbn [nOpCount start] in Hn.
  split; [destruct (rd_size _ _ _ Hrun) as [Hz | [-> ->]]; [left; lia | by right] |].
  destruct (eval_loop _ _ _ _ _) as [[] st]; try done; try (by injection Hev as <-).
  - left. destruct Hres as [Hpc ->]. destruct (vfExec st1) eqn:Ev; injection Hev as <-; [| done].
    destruct (rd_decoded _ _ _ Hrun) as [_ Hd]. destruct (Hd (length script) ltac:(done)) as [_ Hops].
    repeat (split; [done || by apply Hops |]). lia.
  - right. injection Hev as <-. cbn [er_stack er_serror]. split; [done |].
    destruct (contract_returns_stack stk script ops st1 st Hs Hsize Hrun Hres) as [-> _]. split; [done |].
    destruct Hres as (opcode & rest & Epc & Hop & Hvf & Hcnt & _). exists opcode, rest. repeat (split; [done |]).
    pose proof (special_op _ (or_intror Hop)) as [Hb _].
    assert (Hd := rd_decoded _ _ _ Hrun). rewrite Epc in Hd. cbn [pc start] in Hd.
    split; [apply decoded_next in Hd; [done | unfold OP_ENDIF, OP_PUSHDATA4 in *; lia] | specialize (Hcnt Hm); lia].
Qed.
End EvalScript.

(** A node before the fork, with a checker that accepts every signature. *)
Definition sample_env : NodeEnv := {| chain_height := 0; UBCHeight := 498777; CheckLowS _ := true |}.

Definition sample_checker : SignatureChecker :=
  {| CheckSig _ _ _ _ := true; CheckLockTime _ := true; CheckSequence _ := true |}.

(** 1 IF 2 ELSE 3 ENDIF 2 ADD *)
Definition sample_script : list Z :=
  [OP_1; OP_IF; OP_2; OP_ELSE; OP_3; OP_ENDIF; OP_2; OP_ADD].

(** 0 1 CHECKSIG: the signature is empty. *)
Definition empty_sig_script : list Z := [OP_0; OP_1; OP_CHECKSIG].

Lemma EvalScript_total_witness :
  (exists r, EvalScript (H := sample_env) (H0 := sample_checker) [] sample_script 0 SIGVERSION_BASE = Ret r) /\
  undefined_read (Env := sample_env) (Checker := sample_checker) [] empty_sig_script 0 SIGVERSION_BASE.
Proof.
  split.
  - destruct (EvalScript_total (Env := sample_env) (Checker := sample_checker) [] sample_script 0 SIGVERSION_BASE)
      as [H | [H _]].
    + repeat constructor; discriminate.
    + constructor.
    + reflexivity.
    + exact H.
    + vm_compute in H. discriminate H.
  - destruct (EvalScript_total (Env := sample_env) (Checker := sample_checker) [] empty_sig_script 0 SIGVERSION_BASE)
      as [[r H] | (_ & H & _)].
    + repeat constructor; discriminate.
    + constructor.
    + reflexivity.
    + vm_compute in H. discriminate H.
    + exact H.
Defined.

(** 1 IF CALL ENDIF *)
Definition sample_contract_script : list Z := [OP_1; OP_IF; OP_CALL; OP_ENDIF].

Lemma EvalScript_success_witness :
  (exists ops, GetOps (length sample_script) sample_script = Some ops /\ count_ops ops <= MAX_OPS_PER_SCRIPT) /\
  (exists ops st, reached (Env := sample_env) (Checker := sample_checker) 0 SIGVERSION_BASE sample_contract_script
     (start [] sample_contract_script) ops st /\ conds ops 0 = Some 1%nat).
Proof.
  split.
  - destruct (EvalScript_success (Env := sample_env) (Checker := sample_checker) [] sample_script 0 SIGVERSION_BASE
      (EvalResult true SCRIPT_ERR_OK [[4]])) as (_ & _ & ops & st & _ & _ & _ & _ & [(_ & _ & _ & H1 & H2) | [H _]]).
    + repeat constructor; discriminate.
    + constructor.
    + reflexivity.
    + vm_compute. reflexivity.
    + reflexivity.
    + exists ops. split; [exact H1 | exact H2].
    + discriminate H.
  - destruct (EvalScript_success (Env := sample_env) (Checker := sample_checker) [] sample_contract_script 0 SIGVERSION_BASE
      (EvalResult true SCRIPT_ERR_UNKNOWN_ERROR [[OP_CALL; OP_ENDIF]]))
      as (_ & _ & ops & st & Hr & _ & _ & _ & [(H & _) | (_ & _ & op & rest & _ & Ho & _ & (later & Hi) & _)]).
    + repeat constructor; discriminate.
    + constructor.
    + reflexivity.
    + vm_compute. reflexivity.
    + reflexivity.
    + discriminate H.
    + exists ops, st. split; [exact Hr |]. vm_compute in Hi.
      destruct ops as [| a [| b [| c [| d ops]]]]; inversion Hi; subst; try discriminate Ho; try reflexivity.
      destruct ops; discriminate.
Defined.
