(* ===== verification/EvalSpec.v ===== *)
(** * What particular scripts compute

    Functional specifications on top of the interpreter: the signature loop of
    [OP_CHECKMULTISIG] decides an order preserving matching, the standard
    pay-to-public-key-hash script, the early return of the contract opcodes, and
    the read before the start of an empty signature. *)

From S2P Require Import Prelude Common Opcodes ScriptNum Script Hash SigEncoding Interpreter EvalProps.

(** ** Signatures and keys *)

Section Matching.
Context {A B : Type} (ok : A -> B -> bool).

(** Take the keys in order; a key is used for the first signature still open. *)
Fixpoint greedy (sigs : list A) (keys : list B) : bool :=
  match sigs, keys with
  | [], _ => true
  | _ :: _, [] => false
  | s :: sigs', k :: keys' => if ok s k then greedy sigs' keys' else greedy sigs keys'
  end.

(** Every signature has a key of its own, in the same order. *)
Definition matching (sigs : list A) (keys : list B) : Prop :=
  exists keys', keys' `sublist_of` keys /\ Forall2 (fun s k => ok s k = true) sigs keys'.

Lemma greedy_matching sigs keys : greedy sigs keys = true -> matching sigs keys.
Proof.
  revert sigs. induction keys as [| k keys IH]; intros [| s sigs]; cbn [greedy]; try done.
  - intros _. by exists [].
  - intros _. exists []. split; [apply sublist_nil_l | constructor].
  - destruct (ok s k) eqn:E; intros (ks & Hsub & Hall)%IH.
    + exists (k :: ks). split; [by constructor | by constructor].
    + exists ks. split; [by constructor | done].
Qed.

Lemma matching_tail s sigs keys : matching (s :: sigs) keys -> matching sigs keys.
Proof.
  intros (ks & Hsub & Hall). inversion Hall as [| ? k ? ks' Hk Hall']; subst.
  exists ks'. split; [| done]. etrans; [| exact Hsub]. by constructor.
Qed.

Lemma matching_greedy sigs keys : matching sigs keys -> greedy sigs keys = true.
Proof.
  revert sigs. induction keys as [| k keys IH]; intros [| s sigs] Hm; try done.
  - destruct Hm as (ks & ->%sublist_nil_r & Hall). inversion Hall.
  - cbn [greedy]. destruct Hm as (ks & Hsub & Hall).
    inversion Hall as [| ? k' ? ks' Hk Hall']; subst. inversion Hsub; subst.
    + rewrite Hk. apply IH. by exists ks'.
    + assert (Hm : matching (s :: sigs) keys) by (by exists (k' :: ks')).
      destruct (ok s k); apply IH; [by apply matching_tail in Hm | done].
Qed.

Lemma greedy_spec sigs keys : greedy sigs keys = true <-> matching sigs keys.
Proof. split; [apply greedy_matching | apply matching_greedy]. Qed.

Lemma greedy_few sigs keys : (length keys < length sigs)%nat -> greedy sigs keys = false.
Proof.
  intros Hlen. destruct (greedy sigs keys) eqn:E; [| done].
  apply greedy_matching in E as (ks & Hsub%sublist_length & Hall%Forall2_length). lia.
Qed.
End Matching.

Section Multisig.
Context `{Env : NodeEnv, Checker : SignatureChecker}.
Variables (flags : Z) (sigversion : SigVersion).

Lemma stacktop_at st i v : stack st !! Z.to_nat (i - 1) = Some v -> 1 <= i -> stacktop i st = (Next v, st).
Proof. intros Hv Hi. unfold stacktop. destruct (Z.ltb_spec i 1); [lia |]. by rewrite Hv. Qed.

Lemma check_pass st : forall m, m = Ret None -> check m st = (Next tt, st).
Proof. by intros m ->. Qed.

Lemma slice_cons {A} n m (l : list A) x xs :
  take (S n) (drop m l) = x :: xs -> l !! m = Some x /\ take n (drop (S m) l) = xs.
Proof.
  intros H. assert (Hx : l !! m = Some x).
  { rewrite <- (Nat.add_0_r m), <- lookup_drop. by rewrite <- (lookup_take_lt _ (S n)), H by lia. }
  split; [done |]. rewrite (drop_S _ x) in H by done. cbn [take] in H. by simplify_eq.
Qed.

(** C21. The signature loop of [OP_CHECKMULTISIG], on signatures and keys that pass
    the encoding checks: run with the signatures [sigs] at depth [isig] and the keys
    [keys] at depth [ikey], it leaves the state alone and returns true exactly when
    every signature can be given a key of its own that accepts it, the keys in
    stack order; the early exit loses no solution. *)
Theorem multisig_check_matching code sigs keys isig ikey st :
  1 <= isig -> 1 <= ikey -> (length sigs <= length keys)%nat ->
  take (length sigs) (drop (Z.to_nat (isig - 1)) (stack st)) = sigs ->
  take (length keys) (drop (Z.to_nat (ikey - 1)) (stack st)) = keys ->
  Forall (fun s => CheckSignatureEncoding CheckLowS s flags = Ret None) sigs ->
  Forall (fun k => CheckPubKeyEncoding k flags sigversion = Ret None) keys ->
  exists b, multisig_check flags sigversion (length keys) code isig ikey (Zlen sigs) (Zlen keys) st = (Next b, st) /\
    (b = true <-> matching (fun s k => CheckSig s k code sigversion) sigs keys).
Proof.
  intros His Hik Hle Hs Hk Hsok Hkok.
  exists (greedy (fun s k => CheckSig s k code sigversion) sigs keys). split; [| apply greedy_spec].
  revert sigs isig ikey His Hik Hle Hs Hk Hsok.
  induction keys as [| k keys IH]; intros [| s sigs] isig ikey His Hik Hle Hs Hk Hsok; try done; [cbn [length] in Hle; lia |].
  - inversion Hsok as [| ? ? Hs1 Hs2]; subst. inversion Hkok as [| ? ? Hk1 Hk2]; subst.
    cbn [length] in Hle, Hs, Hk. apply slice_cons in Hs as [Hs0 Hs]. apply slice_cons in Hk as [Hk0 Hk].
    rewrite <- Z2Nat.inj_succ in Hk by lia.
    cbn [length multisig_check greedy]. rewrite !Zlen_cons.
    destruct (Z.gtb_spec (1 + Zlen sigs) 0) as [_ | Hn]; [| pose proof (Zlen_nonneg sigs); lia].
    unfold mbind at 1 2 3 4. rewrite (stacktop_at _ _ s), (stacktop_at _ _ k), !check_pass by done.
    replace (1 + Zlen keys - 1) with (Zlen keys) by lia.
    destruct (CheckSig s k code sigversion).
    + replace (1 + Zlen sigs - 1) with (Zlen sigs) by lia. rewrite <- Z2Nat.inj_succ in Hs by lia.
      destruct (Z.gtb_spec (Zlen sigs) (Zlen keys)) as [H | _]; [unfold Zlen in H; lia |].
      apply IH; try done; try lia; (etrans; [| eassumption]); do 2 f_equal; lia.
    + destruct (Z.gtb_spec (1 + Zlen sigs) (Zlen keys)) as [H | H]; unfold Zlen in H.
      { rewrite greedy_few; [done | cbn [length]; lia]. }
      rewrite <- Zlen_cons with (x := s).
      apply IH; try done; try lia; [cbn [length]; lia | |].
      * cbn [length]. rewrite (drop_S _ s) by done. cbn [take]. by rewrite Hs.
      * etrans; [| exact Hk]. do 2 f_equal; lia.
Qed.
End Multisig.

(** A checker for which a signature fits the key with the same first byte. *)
Definition first_byte_checker : SignatureChecker :=
  {| CheckSig s k _ _ := byte_at s 0 =? byte_at k 0; CheckLockTime _ := true; CheckSequence _ := true |}.

Lemma multisig_check_matching_witness :
  exists b, multisig_check (Env := sample_env) (Checker := first_byte_checker) 0 SIGVERSION_BASE 3 [] 6 2
      (Zlen [[7; 1]; [9; 1]]) (Zlen [[7]; [8]; [9]])
      (EvalState [[3]; [7]; [8]; [9]; [2]; [7; 1]; [9; 1]; []] [] [] 0 [] []) =
    (Next b, EvalState [[3]; [7]; [8]; [9]; [2]; [7; 1]; [9; 1]; []] [] [] 0 [] []) /\
    (b = true <-> matching (fun s k => CheckSig (SignatureChecker := first_byte_checker) s k [] SIGVERSION_BASE)
                    [[7; 1]; [9; 1]] [[7]; [8]; [9]]).
Proof.
  apply (multisig_check_matching (Env := sample_env) (Checker := first_byte_checker)
           0 SIGVERSION_BASE [] [[7; 1]; [9; 1]] [[7]; [8]; [9]]); try reflexivity; try lia;
    [cbn; lia | ..]; repeat constructor.
Defined.

(** ** Running a script instruction by instruction *)

Lemma mbind_next {A B} (m : M A) (k : A -> M B) st a st' : m st = (Next a, st') -> mbind m k st = k a st'.
Proof. unfold mbind. by intros ->. Qed.

Lemma mbind_seq {A B} (m : M A) (k : M B) st a st' : m st = (Next a, st') -> (m ;; k) st = k st'.
Proof. apply mbind_next. Qed.

(** The first statement of the goal's left side succeeds, by [tac]. *)
Ltac next tac := etrans; [eapply mbind_next; tac | cbn beta iota].

Lemma error_if_pass c e st : c = false -> error_if c e st = (Next tt, st).
Proof. by intros ->. Qed.

Section Steps.
Context `{Env : NodeEnv, Checker : SignatureChecker}.
Variables (flags : Z) (sigversion : SigVersion) (script : list Z).

(** The check at the end of an iteration. *)
Definition size_limit : M unit :=
  let* size := stack_size in
  let* altsize := gets (fun st => Zlen (altstack st)) in
  error_if (size + altsize >? MAX_STACK_SIZE) SCRIPT_ERR_STACK_SIZE.

Lemma size_limit_pass st : Zlen (stack st) + Zlen (altstack st) <= MAX_STACK_SIZE -> size_limit st = (Next tt, st).
Proof.
  intros H. unfold size_limit, mbind, stack_size, gets, error_if.
  by destruct (Z.gtb_spec (Zlen (stack st) + Zlen (altstack st)) MAX_STACK_SIZE); [lia |].
Qed.

Lemma size_limit_fail st :
  MAX_STACK_SIZE < Zlen (stack st) + Zlen (altstack st) -> size_limit st = (Error SCRIPT_ERR_STACK_SIZE, st).
Proof.
  intros H. unfold size_limit, mbind, stack_size, gets, error_if.
  by destruct (Z.gtb_spec (Zlen (stack st) + Zlen (altstack st)) MAX_STACK_SIZE); [| lia].
Qed.

Lemma read_instr_GetOp2 r st :
  GetOp2 (pc st) = r -> go_ret r = true -> read_instr st = (Next (go_opcode r, go_vch r), with_pc (go_pc r) st).
Proof. intros <- Hr. unfold read_instr, mbind, gets, modify. by rewrite Hr. Qed.

(** An iteration on a single byte opcode outside conditionals. *)
Lemma eval_step_opcode opcode rest st :
  OP_16 < opcode -> is_disabled opcode = false -> pc st = opcode :: rest -> vfExec st = [] ->
  nOpCount st < MAX_OPS_PER_SCRIPT ->
  eval_step flags sigversion script st =
    (exec_op flags sigversion script opcode true ;; size_limit) (with_nOpCount (nOpCount st + 1) (with_pc rest st)).
Proof.
  intros Hop Hdis Hpc Hvf Hn. assert (Hop' : OP_PUSHDATA4 < opcode) by (unfold OP_16, OP_PUSHDATA4 in *; lia).
  unfold eval_step. rewrite (mbind_next _ _ _ (vfExec st) st) by done. rewrite Hvf.
  next ltac:(by eapply read_instr_GetOp2; [rewrite Hpc; by apply GetOp2_above |]).
  cbn [go_opcode go_vch go_pc].
  next ltac:(by apply error_if_pass).
  next ltac:(unfold count_op; rewrite (proj2 (Z.gtb_lt opcode OP_16)) by done;
    next done; next done; apply error_if_pass; cbn; bool_to_prop; lia).
  next ltac:(by apply error_if_pass).
  rewrite (proj2 (Z.leb_gt opcode OP_PUSHDATA4)), andb_false_r by done. done.
Qed.

Lemma is_disabled_push opcode : opcode <= OP_PUSHDATA4 -> is_disabled opcode = false.
Proof.
  intros H. destruct (is_disabled opcode) eqn:E; [| done]. apply one_of_spec in E.
  unfold OP_PUSHDATA4 in H. repeat (apply elem_of_cons in E as [-> | E]; [done |]). by apply elem_of_nil in E.
Qed.

(** An iteration on a push outside conditionals. *)
Lemma eval_step_push r st :
  GetOp2 (pc st) = r -> go_ret r = true -> 0 <= go_opcode r <= OP_PUSHDATA4 -> vfExec st = [] ->
  Zlen (go_vch r) <= MAX_SCRIPT_ELEMENT_SIZE ->
  fRequireMinimal flags && negb (CheckMinimalPush (go_vch r) (go_opcode r)) = false ->
  eval_step flags sigversion script st = (push (go_vch r) ;; size_limit) (with_pc (go_pc r) st).
Proof.
  intros Hr Hret Hop Hvf Hlen Hmin. unfold eval_step. rewrite (mbind_next _ _ _ (vfExec st) st) by done. rewrite Hvf.
  next ltac:(by eapply read_instr_GetOp2).
  next ltac:(apply error_if_pass; bool_to_prop; lia).
  next ltac:(unfold count_op; destruct (Z.gtb_spec (go_opcode r) OP_16); [unfold OP_16, OP_PUSHDATA4 in *; lia | done]).
  next ltac:(apply error_if_pass, is_disabled_push; lia).
  rewrite (proj2 (Z.leb_le 0 (go_opcode r))), (proj2 (Z.leb_le (go_opcode r) OP_PUSHDATA4)) by lia. cbn [forallb andb].
  rewrite Hmin. done.
Qed.

Lemma need_pass n st : n <= Zlen (stack st) -> need n st = (Next tt, st).
Proof. intros H. unfold need, mbind, stack_size, gets. apply error_if_pass. bool_to_prop. lia. Qed.

Lemma op_DUP_run v stk alt vf n pb p :
  op_DUP (EvalState (v :: stk) alt vf n pb p) = (Next tt, EvalState (v :: v :: stk) alt vf n pb p).
Proof. unfold op_DUP. next ltac:(apply need_pass; cbn [stack]; rewrite Zlen_cons; pose proof (Zlen_nonneg stk); lia). done. Qed.

Lemma op_hash_run opcode v stk alt vf n pb p :
  op_hash opcode (EvalState (v :: stk) alt vf n pb p) = (Next tt, EvalState (hash_op opcode v :: stk) alt vf n pb p).
Proof. unfold op_hash. next ltac:(apply need_pass; cbn [stack]; rewrite Zlen_cons; pose proof (Zlen_nonneg stk); lia). done. Qed.

Lemma op_EQUALVERIFY_run v1 v2 stk alt vf n pb p :
  op_EQUAL OP_EQUALVERIFY (EvalState (v2 :: v1 :: stk) alt vf n pb p) =
    if bool_decide (v1 = v2) then (Next tt, EvalState stk alt vf n pb p)
    else (Error SCRIPT_ERR_EQUALVERIFY, EvalState (vchFalse :: stk) alt vf n pb p).
Proof.
  unfold op_EQUAL. next ltac:(apply need_pass; cbn [stack]; rewrite !Zlen_cons; pose proof (Zlen_nonneg stk); lia).
  next done. next done. next done. next done. next done. by case_bool_decide.
Qed.

(** A signature that meets the fork's rule at the current height. *)
Definition forkid_rule (sig : list Z) : Prop :=
  exists f, uses_forkid sig = Ret f /\
    (UBCHeight <= chain_height -> flag flags SCRIPT_ENABLE_SIGHASH_FORKID = true /\ f = true).

Lemma require_forkid_pass sig st : forkid_rule sig -> require_forkid flags sig st = (Next tt, st).
Proof.
  intros (f & Hf & H). unfold require_forkid. destruct (Z.geb_spec chain_height UBCHeight) as [Hle | _]; [| done].
  destruct (H Hle) as [-> ->]. cbn [negb]. next ltac:(next ltac:(by rewrite Hf); done). done.
Qed.

Lemma op_CHECKSIG_run sig key stk alt vf n pb p :
  forkid_rule sig -> sig <> [] -> CheckSignatureEncoding CheckLowS sig flags = Ret None ->
  CheckPubKeyEncoding key flags sigversion = Ret None ->
  op_CHECKSIG flags sigversion OP_CHECKSIG (EvalState (key :: sig :: stk) alt vf n pb p) =
    let ok := CheckSig sig key (drop_signature sigversion pb sig) sigversion in
    if negb ok && flag flags SCRIPT_VERIFY_NULLFAIL
    then (Error SCRIPT_ERR_SIG_NULLFAIL, EvalState (key :: sig :: stk) alt vf n pb p)
    else (Next tt, EvalState (bool_vch ok :: stk) alt vf n pb p).
Proof.
  intros Hf Hsig Hs Hk. unfold op_CHECKSIG.
  next ltac:(apply need_pass; cbn [stack]; rewrite !Zlen_cons; pose proof (Zlen_nonneg stk); lia).
  next done. next done. next done. next ltac:(by apply require_forkid_pass).
  next ltac:(destruct Hf as (f & Hf & _); destruct (chain_height <? UBCHeight); [next ltac:(by rewrite Hf) |]; done).
  cbn [pbegincodehash].
  next ltac:(by apply check_pass). next ltac:(by apply check_pass). cbv zeta.
  replace (negb (Zlen sig =? 0)) with true by (by destruct sig).
  rewrite andb_true_r. by destruct (negb _ && _).
Qed.
End Steps.

Lemma hash_op_HASH160 key : hash_op OP_HASH160 key = Hash160 key.
Proof. cbv beta iota delta [hash_op Z.eqb OP_RIPEMD160 OP_SHA1 OP_SHA256 OP_HASH160 Pos.eqb Hash160]. reflexivity. Qed.

#[local] Opaque hash_op Hash160.

Section Scripts.
Context `{Env : NodeEnv, Checker : SignatureChecker}.
Variables (flags : Z) (sigversion : SigVersion).

Lemma eval_loop_done script fuel st : pc st = [] -> eval_loop flags sigversion script fuel st = (Next tt, st).
Proof. intros H. destruct fuel; cbn [eval_loop]; unfold mbind, gets; by rewrite H. Qed.

Lemma eval_loop_step script fuel st x p :
  pc st = x :: p ->
  eval_loop flags sigversion script (S fuel) st =
    (eval_step flags sigversion script ;; eval_loop flags sigversion script fuel) st.
Proof. intros H. cbn [eval_loop]. by rewrite (mbind_next _ _ _ (x :: p) st) by (unfold gets; by rewrite H). Qed.

Lemma mbind_error {A B} (m : M A) (k : A -> M B) st e st' : m st = (Error e, st') -> mbind m k st = (Error e, st').
Proof. unfold mbind. by intros ->. Qed.

(** Iterations on an opcode that succeeds, on one that fails, and on a push, in
    terms of the components of the state. *)
Lemma eval_loop_opcode script fuel opcode stk alt n pb p stk' n' pb' :
  OP_16 < opcode -> is_disabled opcode = false -> n < MAX_OPS_PER_SCRIPT ->
  exec_op flags sigversion script opcode true (EvalState stk alt [] (n + 1) pb p) =
    (Next tt, EvalState stk' alt [] n' pb' p) ->
  Zlen stk' + Zlen alt <= MAX_STACK_SIZE ->
  eval_loop flags sigversion script (S fuel) (EvalState stk alt [] n pb (opcode :: p)) =
    eval_loop flags sigversion script fuel (EvalState stk' alt [] n' pb' p).
Proof.
  intros Hop Hd Hn Hex Hz. erewrite eval_loop_step by done. apply mbind_seq with (a := tt).
  erewrite eval_step_opcode by done. erewrite mbind_next by exact Hex. by rewrite size_limit_pass.
Qed.

Lemma eval_loop_opcode_error script fuel opcode stk alt n pb p e st' :
  OP_16 < opcode -> is_disabled opcode = false -> n < MAX_OPS_PER_SCRIPT ->
  exec_op flags sigversion script opcode true (EvalState stk alt [] (n + 1) pb p) = (Error e, st') ->
  eval_loop flags sigversion script (S fuel) (EvalState stk alt [] n pb (opcode :: p)) = (Error e, st').
Proof.
  intros Hop Hd Hn Hex. erewrite eval_loop_step by done. apply mbind_error.
  erewrite eval_step_opcode by done. by apply mbind_error.
Qed.

Lemma eval_loop_opcode_full script fuel opcode stk alt n pb p stk' n' pb' :
  OP_16 < opcode -> is_disabled opcode = false -> n < MAX_OPS_PER_SCRIPT ->
  exec_op flags sigversion script opcode true (EvalState stk alt [] (n + 1) pb p) =
    (Next tt, EvalState stk' alt [] n' pb' p) ->
  MAX_STACK_SIZE < Zlen stk' + Zlen alt ->
  eval_loop flags sigversion script (S fuel) (EvalState stk alt [] n pb (opcode :: p)) =
    (Error SCRIPT_ERR_STACK_SIZE, EvalState stk' alt [] n' pb' p).
Proof.
  intros Hop Hd Hn Hex Hz. erewrite eval_loop_step by done. apply mbind_error.
  erewrite eval_step_opcode by done. erewrite mbind_next by exact Hex. by apply size_limit_fail.
Qed.

Definition push_ok (v : list Z) : Prop :=
  Zlen v <= MAX_SCRIPT_ELEMENT_SIZE /\ fRequireMinimal flags && negb (CheckMinimalPush v (push_op (Zlen v))) = false.

Lemma eval_step_push_data script v stk alt n pb p :
  push_ok v -> Zlen p < 2 ^ 31 ->
  eval_step flags sigversion script (EvalState stk alt [] n pb (push_data [] v ++ p)) =
    size_limit (EvalState (v :: stk) alt [] n pb p).
Proof.
  intros [Hv Hmin] Hp. pose proof (Zlen_nonneg v). unfold MAX_SCRIPT_ELEMENT_SIZE in Hv.
  pose proof (GetOp2_push_data v p ltac:(lia)) as Hget.
  erewrite eval_step_push; [| exact Hget | done | ..]; cbn [go_opcode go_vch go_pc]; try done.
  unfold push_op, OP_PUSHDATA1, OP_PUSHDATA2, OP_PUSHDATA4. repeat case_match; bool_to_prop; lia.
Qed.

Lemma eval_loop_push_step script fuel v stk alt n pb p :
  push_ok v -> Zlen p < 2 ^ 31 ->
  eval_loop flags sigversion script (S fuel) (EvalState stk alt [] n pb (push_data [] v ++ p)) =
    (size_limit ;; eval_loop flags sigversion script fuel) (EvalState (v :: stk) alt [] n pb p).
Proof.
  intros Hv Hp. destruct (push_data [] v ++ p) as [| x q] eqn:E.
  { apply app_eq_nil in E as [E _]. by apply push_data_nonempty in E. }
  erewrite eval_loop_step by done. unfold mbind. by rewrite <- E, eval_step_push_data.
Qed.

Lemma eval_loop_push script fuel v stk alt n pb p :
  push_ok v -> Zlen p < 2 ^ 31 -> Zlen stk + Zlen alt < MAX_STACK_SIZE ->
  eval_loop flags sigversion script (S fuel) (EvalState stk alt [] n pb (push_data [] v ++ p)) =
    eval_loop flags sigversion script fuel (EvalState (v :: stk) alt [] n pb p).
Proof.
  intros Hv Hp Hz. rewrite eval_loop_push_step by done. apply mbind_seq with (a := tt).
  rewrite size_limit_pass; [done |]. cbn [stack altstack]. rewrite Zlen_cons. lia.
Qed.

Lemma eval_loop_push_full script fuel v stk alt n pb p :
  push_ok v -> Zlen p < 2 ^ 31 -> MAX_STACK_SIZE <= Zlen stk + Zlen alt ->
  eval_loop flags sigversion script (S fuel) (EvalState stk alt [] n pb (push_data [] v ++ p)) =
    (Error SCRIPT_ERR_STACK_SIZE, EvalState (v :: stk) alt [] n pb p).
Proof.
  intros Hv Hp Hz. rewrite eval_loop_push_step by done. apply mbind_error, size_limit_fail.
  cbn [stack altstack]. rewrite Zlen_cons. lia.
Qed.

Lemma push_ok_direct v : 1 < Zlen v <= 75 -> push_ok v.
Proof.
  intros H. split; [unfold MAX_SCRIPT_ELEMENT_SIZE; lia |]. apply andb_false_intro2, negb_false_iff.
  unfold push_op. rewrite (proj2 (Z.ltb_lt (Zlen v) OP_PUSHDATA1)) by (unfold OP_PUSHDATA1; lia).
  unfold CheckMinimalPush. rewrite (proj2 (Z.eqb_neq (Zlen v) 0)), (proj2 (Z.eqb_neq (Zlen v) 1)) by lia.
  rewrite (proj2 (Z.leb_le (Zlen v) 75)) by lia. apply Z.eqb_refl.
Qed.

(** DUP HASH160 h EQUALVERIFY CHECKSIG *)
Definition p2pkh (h : list Z) : list Z :=
  [OP_DUP; OP_HASH160] ++ push_data [] h ++ [OP_EQUALVERIFY; OP_CHECKSIG].

Lemma EvalScript_p2pkh_run sig key h rest :
  Zlen h = 20 -> sig <> [] -> forkid_rule flags sig -> Zlen rest + 4 <= MAX_STACK_SIZE ->
  CheckSignatureEncoding CheckLowS sig flags = Ret None -> CheckPubKeyEncoding key flags sigversion = Ret None ->
  EvalScript (key :: sig :: rest) (p2pkh h) flags sigversion = Ret
    (let ok := CheckSig sig key (drop_signature sigversion (p2pkh h) sig) sigversion in
     if bool_decide (Hash160 key = h) then
       if negb ok && flag flags SCRIPT_VERIFY_NULLFAIL
       then EvalResult false SCRIPT_ERR_SIG_NULLFAIL (key :: sig :: rest)
       else EvalResult true SCRIPT_ERR_OK (bool_vch ok :: rest)
     else EvalResult false SCRIPT_ERR_EQUALVERIFY (vchFalse :: key :: sig :: rest)).
Proof.
  intros Hh Hsig Hfork Hrest Hs Hk. pose proof (Zlen_nonneg rest) as Hr0.
  assert (Hlen : length (p2pkh h) = 25%nat).
  { unfold p2pkh, push_data. rewrite Hh. cbn. rewrite length_app. unfold Zlen in Hh. cbn [length]. lia. }
  unfold EvalScript. replace (Zlen (p2pkh h)) with 25 by (unfold Zlen; lia). cbn [Z.gtb Z.compare MAX_SCRIPT_SIZE].
  rewrite Hlen. unfold p2pkh at 3. cbn [app].
  erewrite eval_loop_opcode; [| done | done | done | apply op_DUP_run |]; [| rewrite !Zlen_cons, Zlen_nil; lia].
  erewrite eval_loop_opcode; [| done | done | done | apply op_hash_run |]; [| rewrite !Zlen_cons, Zlen_nil; lia].
  rewrite eval_loop_push by (first [apply push_ok_direct; lia | rewrite ?Zlen_cons, ?Zlen_nil; unfold MAX_STACK_SIZE in *; lia]).
  rewrite hash_op_HASH160. generalize (Hash160 key) as hk. intros hk.
  pose proof (op_EQUALVERIFY_run hk h (key :: sig :: rest) [] [] (0 + 1 + 1 + 1) (p2pkh h) [OP_CHECKSIG]) as Heq.
  case_bool_decide.
  - erewrite eval_loop_opcode; [| done | done | done | exact Heq |]; [| rewrite !Zlen_cons, Zlen_nil; lia].
    pose proof (op_CHECKSIG_run flags sigversion sig key rest [] [] (0 + 1 + 1 + 1 + 1) (p2pkh h) [] Hfork Hsig Hs Hk) as Hcs.
    cbv zeta in Hcs |- *. destruct (negb _ && _).
    + by erewrite eval_loop_opcode_error; [| done | done | done | exact Hcs].
    + erewrite eval_loop_opcode; [| done | done | done | exact Hcs |]; [| rewrite !Zlen_cons, Zlen_nil; lia].
      by rewrite eval_loop_done.
  - by erewrite eval_loop_opcode_error; [| done | done | done | exact Heq].
Qed.

(** The standard pay-to-public-key-hash script, run on a stack with a public
    key above a signature that pass the encoding checks and the fork id rule of the
    current height. If the key does not hash to [h] the script fails with
    [SCRIPT_ERR_EQUALVERIFY]; otherwise the result is that of the signature check
    against the script without the signature, which becomes an error under the
    null-fail rule and otherwise replaces the two inputs. *)
Theorem EvalScript_P2PKH sig key h rest :
  Zlen h = 20 -> sig <> [] -> forkid_rule flags sig -> Zlen rest + 4 <= MAX_STACK_SIZE ->
  CheckSignatureEncoding CheckLowS sig flags = Ret None -> CheckPubKeyEncoding key flags sigversion = Ret None ->
  EvalScript (key :: sig :: rest) (p2pkh h) flags sigversion = Ret
    (let ok := CheckSig sig key (drop_signature sigversion (p2pkh h) sig) sigversion in
     if bool_decide (Hash160 key = h) then
       if negb ok && flag flags SCRIPT_VERIFY_NULLFAIL
       then EvalResult false SCRIPT_ERR_SIG_NULLFAIL (key :: sig :: rest)
       else EvalResult true SCRIPT_ERR_OK (bool_vch ok :: rest)
     else EvalResult false SCRIPT_ERR_EQUALVERIFY (vchFalse :: key :: sig :: rest)).
Proof. apply EvalScript_p2pkh_run. Qed.

Lemma uses_forkid_empty : uses_forkid [] = Undef.
Proof. reflexivity. Qed.

Lemma op_CHECKSIG_empty key stk alt vf n pb p :
  chain_height < UBCHeight \/ flag flags SCRIPT_ENABLE_SIGHASH_FORKID = true ->
  op_CHECKSIG flags sigversion OP_CHECKSIG (EvalState (key :: [] :: stk) alt vf n pb p) =
    (Undefined, EvalState (key :: [] :: stk) alt vf n pb p).
Proof.
  intros H. unfold op_CHECKSIG.
  next ltac:(apply need_pass; cbn [stack]; rewrite !Zlen_cons; pose proof (Zlen_nonneg stk); lia).
  next done. next done. next done. unfold require_forkid.
  destruct (Z.geb_spec chain_height UBCHeight) as [Hge | Hlt].
  - destruct H as [H | ->]; [lia |]. done.
  - next done. by rewrite (proj2 (Z.ltb_lt _ _) Hlt).
Qed.

(** An empty signature, which the encoding check admits as the way to fail a
    check on purpose, makes [OP_CHECKSIG] read the byte before the start of the
    vector: before the fork height under all flags, and after it under the fork
    id flag. *)
Theorem CHECKSIG_empty_signature key :
  chain_height < UBCHeight \/ flag flags SCRIPT_ENABLE_SIGHASH_FORKID = true ->
  CheckSignatureEncoding CheckLowS [] flags = Ret None /\
  EvalScript [key; []] [OP_CHECKSIG] flags sigversion = Undef.
Proof.
  intros H. split; [done |]. unfold EvalScript. cbn [length Zlen]. unfold MAX_SCRIPT_SIZE. cbn [Z.of_nat Z.gtb Z.compare].
  erewrite eval_loop_step by done. unfold mbind at 1. rewrite (eval_step_opcode _ _ _ OP_CHECKSIG []) by done. unfold mbind at 1.
  replace (exec_op flags sigversion [OP_CHECKSIG] OP_CHECKSIG true) with (op_CHECKSIG flags sigversion OP_CHECKSIG) by reflexivity.
  unfold with_nOpCount, with_pc. cbn [stack altstack vfExec nOpCount pbegincodehash pc].
  by rewrite op_CHECKSIG_empty.
Qed.
End Scripts.

Lemma EvalScript_P2PKH_witness :
  EvalScript (H := sample_env) (H0 := first_byte_checker) [[7]; [7; 1]] (p2pkh (Hash160 [7])) 0 SIGVERSION_BASE =
    Ret (EvalResult true SCRIPT_ERR_OK [vchTrue]).
Proof.
  rewrite (EvalScript_P2PKH (Env := sample_env) (Checker := first_byte_checker) 0 SIGVERSION_BASE [7; 1] [7] (Hash160 [7]) []).
  - rewrite bool_decide_eq_true_2; reflexivity.
  - vm_compute. reflexivity.
  - discriminate.
  - exists false. split; [reflexivity | intros H; exfalso; cbv in H; apply H; reflexivity].
  - discriminate.
  - reflexivity.
  - reflexivity.
Defined.

Lemma CHECKSIG_empty_signature_witness :
  EvalScript (H := sample_env) (H0 := sample_checker) [[2]; []] [OP_CHECKSIG] 0 SIGVERSION_BASE = Undef.
Proof.
  apply (CHECKSIG_empty_signature (Env := sample_env) (Checker := sample_checker) 0 SIGVERSION_BASE [2]).
  left. reflexivity.
Defined.
