(* ===== verification/ContractScript.v ===== *)
(** * Contract scripts

    The queries of [src/script/script.cpp] that look for a contract opcode
    ([HasContractOp], [HasOpDepositToContract], [HasOpSpend]). They run the script
    with the interpreter, whose contract opcodes push the rest of the script and
    stop, and look at the element on top of the stack. *)

From S2P Require Import Prelude Common Opcodes ScriptNum Script Hash SigEncoding Interpreter EvalProps EvalSpec.

Section Queries.
Context `{Env : NodeEnv}.

(** The prefix the three queries share: the single byte on top of the stack, if
    there is one. The result of [EvalScript] is not looked at. *)
Definition last_opcode (script : list Z) : outcome (option Z) :=
  if Zlen script <=? 0 then Ret None
  else
    let? r := EvalScript (H0 := BaseSignatureChecker) [] script SCRIPT_EXEC_BYTE_CODE SIGVERSION_BASE in
    match er_stack r with
    | [op] :: _ => Ret (Some op)
    | _ => Ret None
    end.

Definition HasContractOp (script : list Z) : outcome bool :=
  let? o := last_opcode script in
  Ret match o with
      | Some op => one_of op [OP_CREATE_NATIVE; OP_CREATE; OP_UPGRADE; OP_DESTROY; OP_CALL; OP_DEPOSIT_TO_CONTRACT]
      | None => false
      end.

Definition HasOpDepositToContract (script : list Z) : outcome bool :=
  let? o := last_opcode script in
  Ret match o with Some op => op =? OP_DEPOSIT_TO_CONTRACT | None => false end.

Definition HasOpSpend (script : list Z) : outcome bool :=
  let? o := last_opcode script in
  Ret match o with Some op => op =? OP_SPEND | None => false end.
End Queries.

(** The opcodes that end the interpreter. *)
Definition contract_opcodes : list Z :=
  [OP_CREATE_NATIVE; OP_CREATE; OP_UPGRADE; OP_DESTROY; OP_CALL; OP_DEPOSIT_TO_CONTRACT; OP_SPEND].

(** A script that pushes its arguments and calls a contract opcode. *)
Definition contract_script (args : list (list Z)) (op : Z) (rest : list Z) : list Z :=
  concat (map (push_data []) args) ++ op :: rest.

Section ContractOps.
Context `{Env : NodeEnv, Checker : SignatureChecker}.
Variables (flags : Z) (sigversion : SigVersion).

Lemma exec_op_contract script op st :
  op ∈ contract_opcodes -> exec_op flags sigversion script op true st = op_contract script st.
Proof. intros H. repeat (apply elem_of_cons in H as [-> | H]; [reflexivity |]). by apply elem_of_nil in H. Qed.

Lemma contract_opcode_range op : op ∈ contract_opcodes -> OP_16 < op /\ is_disabled op = false.
Proof. intros H. repeat (apply elem_of_cons in H as [-> | H]; [done |]). by apply elem_of_nil in H. Qed.

Lemma eval_loop_contract script fuel op rest stk n pb :
  op ∈ contract_opcodes -> n < MAX_OPS_PER_SCRIPT -> (length (op :: rest) <= length script)%nat ->
  eval_loop flags sigversion script (S fuel) (EvalState stk [] [] n pb (op :: rest)) =
    (ReturnTrue, EvalState (drop (length script - length (op :: rest)) script :: stk) [] [] (n + 1) pb rest).
Proof.
  intros Hop Hn Hlen. destruct (contract_opcode_range op Hop) as [Hr Hd].
  erewrite eval_loop_step by done. unfold mbind at 1. erewrite eval_step_opcode by done.
  unfold mbind at 1. rewrite exec_op_contract by done. unfold op_contract, mbind, gets, push, modify. cbn.
  by replace (length script - length rest - 1)%nat with (length script - S (length rest))%nat by lia.
Qed.

Lemma concat_pushes_length args : (length args <= length (concat (map (push_data []) args)))%nat.
Proof.
  induction args as [| v args IH]; [done |]. cbn [map concat length]. rewrite length_app.
  pose proof (push_data_nonempty v). destruct (push_data [] v); [done |]. cbn [length]. lia.
Qed.

Lemma eval_loop_args script args fuel stk n pb p :
  Forall (push_ok flags) args -> Zlen (concat (map (push_data []) args) ++ p) < 2 ^ 31 ->
  Zlen args + Zlen stk <= MAX_STACK_SIZE ->
  eval_loop flags sigversion script (length args + fuel) (EvalState stk [] [] n pb (concat (map (push_data []) args) ++ p)) =
    eval_loop flags sigversion script fuel (EvalState (rev args ++ stk) [] [] n pb p).
Proof.
  intros Hargs. revert stk. induction Hargs as [| v args Hv _ IH]; intros stk Hp Hz; [done |].
  cbn [map concat length Nat.add rev] in *. rewrite <- app_assoc in *. rewrite Zlen_cons in Hz. rewrite Zlen_app in Hp.
  pose proof (Zlen_nonneg args). pose proof (Zlen_nonneg (push_data [] v)).
  rewrite eval_loop_push; [| done | lia | rewrite Zlen_nil; lia].
  rewrite IH; [| lia | rewrite Zlen_cons; lia]. by rewrite <- app_assoc.
Qed.

Lemma EvalScript_contract_run args op rest stk :
  op ∈ contract_opcodes -> Forall (push_ok flags) args ->
  Zlen (contract_script args op rest) <= MAX_SCRIPT_SIZE -> Zlen args + Zlen stk <= MAX_STACK_SIZE ->
  EvalScript stk (contract_script args op rest) flags sigversion =
    Ret (EvalResult true SCRIPT_ERR_UNKNOWN_ERROR ((op :: rest) :: rev args ++ stk)).
Proof.
  intros Hop Hargs Hlen Hz. unfold EvalScript.
  destruct (Z.gtb_spec (Zlen (contract_script args op rest)) MAX_SCRIPT_SIZE) as [H | _]; [lia |].
  set (script := contract_script args op rest) in *. pose proof (concat_pushes_length args) as Hn.
  assert (Hl : length script = (length (concat (map (push_data []) args)) + S (length rest))%nat).
  { unfold script, contract_script. by rewrite length_app. }
  replace (length script) with (length args + S (length script - length args - 1))%nat by lia.
  unfold script at 4, contract_script. unfold MAX_SCRIPT_SIZE in Hlen.
  rewrite eval_loop_args by (try done; fold (contract_script args op rest); fold script; lia).
  rewrite eval_loop_contract by (try done; cbn [length]; lia). cbn [stack].
  do 3 f_equal. unfold script at 2, contract_script. rewrite drop_app_length'; [done |]. cbn [length]. lia.
Qed.

(** A script that pushes arguments and then has a contract opcode returns true at
    the opcode, with the error left at [SCRIPT_ERR_UNKNOWN_ERROR] and the script
    from the opcode on pushed on top of the arguments; nothing after the opcode is
    executed, decoded or checked. *)
Theorem EvalScript_contract args op rest stk :
  op ∈ contract_opcodes -> Forall (push_ok flags) args ->
  Zlen (contract_script args op rest) <= MAX_SCRIPT_SIZE -> Zlen args + Zlen stk <= MAX_STACK_SIZE ->
  EvalScript stk (contract_script args op rest) flags sigversion =
    Ret (EvalResult true SCRIPT_ERR_UNKNOWN_ERROR ((op :: rest) :: rev args ++ stk)).
Proof. apply EvalScript_contract_run. Qed.
End ContractOps.

Lemma EvalScript_contract_witness :
  EvalScript (H := sample_env) (H0 := sample_checker) [] (contract_script [[1; 2]] OP_CALL [OP_IF]) 0 SIGVERSION_BASE =
    Ret (EvalResult true SCRIPT_ERR_UNKNOWN_ERROR [[OP_CALL; OP_IF]; [1; 2]]).
Proof.
  apply (EvalScript_contract (Env := sample_env) (Checker := sample_checker) 0 SIGVERSION_BASE [[1; 2]] OP_CALL [OP_IF] []).
  - do 4 right. left.
  - repeat constructor. discriminate.
  - discriminate.
  - discriminate.
Defined.

Section QueryProps.
Context `{Env : NodeEnv}.

(** The three queries on a script that pushes arguments and has a contract
    opcode: [HasOpSpend] recognises [OP_SPEND], [HasOpDepositToContract]
    [OP_DEPOSIT_TO_CONTRACT] and [HasContractOp] every contract opcode but
    [OP_SPEND], provided the opcode is the last byte of the script; with anything
    after it they all return false. *)
Theorem contract_queries args op rest :
  op ∈ contract_opcodes -> Forall (fun v => Zlen v <= MAX_SCRIPT_ELEMENT_SIZE) args ->
  Zlen (contract_script args op rest) <= MAX_SCRIPT_SIZE -> Zlen args <= MAX_STACK_SIZE ->
  let last := bool_decide (rest = []) in
  HasContractOp (contract_script args op rest) = Ret (last && negb (op =? OP_SPEND)) /\
  HasOpDepositToContract (contract_script args op rest) = Ret (last && (op =? OP_DEPOSIT_TO_CONTRACT)) /\
  HasOpSpend (contract_script args op rest) = Ret (last && (op =? OP_SPEND)).
Proof.
  intros Hop Hargs Hlen Hz last.
  assert (Hlast : last_opcode (contract_script args op rest) = Ret (if last then Some op else None)).
  { unfold last_opcode. destruct (Z.leb_spec (Zlen (contract_script args op rest)) 0) as [H | _].
    - unfold contract_script in H. rewrite Zlen_app, Zlen_cons in H.
      pose proof (Zlen_nonneg (concat (map (push_data []) args))). pose proof (Zlen_nonneg rest). lia.
    - rewrite (EvalScript_contract_run _ _ args op rest []); try done.
      2: { eapply Forall_impl; [| exact Hargs]. by intros v Hv; split. }
      2: { rewrite Zlen_nil; lia. }
      cbn [obind er_stack]. unfold last. by destruct rest. }
  unfold HasContractOp, HasOpDepositToContract, HasOpSpend. rewrite Hlast. cbn [obind].
  destruct last; [| done]. split; [| done]. f_equal.
  repeat (apply elem_of_cons in Hop as [-> | Hop]; [done |]). by apply elem_of_nil in Hop.
Qed.

(** A script that only pushes one byte of data whose value is that of a contract
    opcode has no contract opcode, and is reported as having one. *)
Theorem contract_queries_data_push :
  HasContractOp [1; OP_CALL] = Ret true /\ HasOpDepositToContract [1; OP_DEPOSIT_TO_CONTRACT] = Ret true /\
  HasOpSpend [1; OP_SPEND] = Ret true /\
  Forall (fun op => GetOps 2 [1; op] = Some [(1, [op])]) [OP_CALL; OP_DEPOSIT_TO_CONTRACT; OP_SPEND].
Proof. split; [reflexivity |]. split; [reflexivity |]. split; [reflexivity |]. repeat constructor. Qed.
End QueryProps.

Lemma contract_queries_witness :
  HasContractOp (Env := sample_env) (contract_script [[1; 2]] OP_CALL []) = Ret true.
Proof.
  apply (contract_queries (Env := sample_env) [[1; 2]] OP_CALL []).
  - do 4 right. left.
  - repeat constructor. discriminate.
  - discriminate.
  - discriminate.
Defined.
