(* ===== verification/Transaction.v ===== *)
(** * Transactions

    [src/primitives/transaction.h] and [transaction.cpp]: outpoints, inputs,
    outputs and transactions with their two serialization formats, the
    transaction ids, and the amounts of [src/amount.h]. A [uint256] is the list of
    its 32 bytes. [CTransaction] and [CMutableTransaction] have the same fields but
    for the cached [hash], which is a function of the others here. *)

From S2P Require Import Prelude Serialize MDHash Sha256 Hash Interpreter ContractScript.

Open Scope outcome_scope.

(** ** Amounts *)

Definition COIN : Z := 100000000.

Definition MAX_MONEY : Z := 21000000 * COIN.

Definition MoneyRange (nValue : Z) : bool := (nValue >=? 0) && (nValue <=? MAX_MONEY).

(** The sum of two [int64_t]; overflow is undefined. *)
Definition int64_add (a b : Z) : outcome Z :=
  if (INT64_MIN <=? a + b) && (a + b <=? INT64_MAX) then Ret (a + b) else Undef.

(** ** Data *)

Definition uint256_IsNull (h : list Z) : bool := forallb (Z.eqb 0) h.

Record COutPoint := OutPoint {
  outpoint_hash : list Z;
  outpoint_n : Z
}.

Record CTxIn := TxIn {
  prevout : COutPoint;
  scriptSig : list Z;
  nSequence : Z;
  scriptWitness : list (list Z)
}.

Record CTxOut := TxOut {
  nValue : Z;
  scriptPubKey : list Z
}.

Record CTransaction := Transaction {
  nVersion : Z;
  vin : list CTxIn;
  vout : list CTxOut;
  nLockTime : Z
}.

#[export] Instance COutPoint_eq_dec : EqDecision COutPoint.
Proof. solve_decision. Defined.

#[export] Instance CTxIn_eq_dec : EqDecision CTxIn.
Proof. solve_decision. Defined.

#[export] Instance CTxOut_eq_dec : EqDecision CTxOut.
Proof. solve_decision. Defined.

(** ** Operations *)

Definition COutPoint_IsNull (o : COutPoint) : bool :=
  uint256_IsNull (outpoint_hash o) && (outpoint_n o =? uint32 (-1)).

Definition SEQUENCE_FINAL : Z := 0xffffffff.

Definition CTxOut_null : CTxOut := TxOut (-1) [].

Definition CTxOut_IsNull (o : CTxOut) : bool := nValue o =? -1.

Definition CTxOut_IsEmpty (o : CTxOut) : bool := (nValue o =? 0) && (Zlen (scriptPubKey o) =? 0).

Definition HasWitness (tx : CTransaction) : bool :=
  existsb (fun i => negb (bool_decide (scriptWitness i = []))) (vin tx).

Definition IsCoinBase (tx : CTransaction) : bool :=
  match vin tx with [i] => COutPoint_IsNull (prevout i) | _ => false end.

(** The coin stake transaction is marked with the first output empty. *)
Definition IsCoinStake (tx : CTransaction) : bool :=
  match vin tx, vout tx with [_], [o; _] => CTxOut_IsEmpty o | _, _ => false end.

(** The sum is checked after each addition. *)
Fixpoint GetValueOut_loop (l : list CTxOut) (nValueOut : Z) : outcome Z :=
  match l with
  | [] => Ret nValueOut
  | o :: l =>
    let? nValueOut := int64_add nValueOut (nValue o) in
    if negb (MoneyRange (nValue o)) || negb (MoneyRange nValueOut) then Throw runtime_error
    else GetValueOut_loop l nValueOut
  end.

Definition GetValueOut (tx : CTransaction) : outcome Z := GetValueOut_loop (vout tx) 0.

(** ** Serialization *)

Definition Serialize_COutPoint (o : COutPoint) : list Z := outpoint_hash o ++ ser_writedata32 (outpoint_n o).

Definition Unserialize_COutPoint : reader COutPoint :=
  let! h := read 32 in
  let! n := ser_readdata32 in
  read_ret (OutPoint h n).

Definition Serialize_CTxIn (i : CTxIn) : list Z :=
  Serialize_COutPoint (prevout i) ++ Serialize_bytes (scriptSig i) ++ ser_writedata32 (nSequence i).

(** The witness is read by the transaction. *)
Definition Unserialize_CTxIn : reader CTxIn :=
  let! p := Unserialize_COutPoint in
  let! s := Unserialize_bytes in
  let! n := ser_readdata32 in
  read_ret (TxIn p s n []).

Definition Serialize_CTxOut (o : CTxOut) : list Z := ser_writedata64 (nValue o) ++ Serialize_bytes (scriptPubKey o).

Definition Unserialize_CTxOut : reader CTxOut :=
  let! v := Unserialize_int64 in
  let! s := Unserialize_bytes in
  read_ret (TxOut v s).

Definition Serialize_witness (w : list (list Z)) : list Z := Serialize_vector Serialize_bytes w.

Definition Unserialize_witness : reader (list (list Z)) := Unserialize_vector Unserialize_bytes.

Definition SERIALIZE_TRANSACTION_NO_WITNESS : Z := 0x40000000.

(** [fAllowWitness] of a stream with version [nVer] *)
Definition allow_witness (nVer : Z) : bool := negb (flag nVer SERIALIZE_TRANSACTION_NO_WITNESS).

Definition SerializeTransaction (nVer : Z) (tx : CTransaction) : list Z :=
  let flags := if allow_witness nVer && HasWitness tx then 1 else 0 in
  ser_writedata32 (nVersion tx) ++
  (if negb (flags =? 0) then Serialize_vector Serialize_CTxIn [] ++ ser_writedata8 flags else []) ++
  Serialize_vector Serialize_CTxIn (vin tx) ++
  Serialize_vector Serialize_CTxOut (vout tx) ++
  (if flag flags 1 then concat (map (fun i => Serialize_witness (scriptWitness i)) (vin tx)) else []) ++
  ser_writedata32 (nLockTime tx).

Definition with_witness (i : CTxIn) (w : list (list Z)) : CTxIn := TxIn (prevout i) (scriptSig i) (nSequence i) w.

(** The loop that reads the witnesses into the inputs. *)
Fixpoint Unserialize_witnesses (l : list CTxIn) : reader (list CTxIn) :=
  match l with
  | [] => read_ret []
  | i :: l =>
    let! w := Unserialize_witness in
    let! l := Unserialize_witnesses l in
    read_ret (with_witness i w :: l)
  end.

Definition UnserializeTransaction (nVer : Z) : reader CTransaction :=
  let fAllowWitness := allow_witness nVer in
  let! version := Unserialize_int32 in
  let! ins := Unserialize_vector Unserialize_CTxIn in
  let! (flags, ins, outs) :=
    if (Zlen ins =? 0) && fAllowWitness then
      let! flags := ser_readdata8 in
      if negb (flags =? 0) then
        let! ins := Unserialize_vector Unserialize_CTxIn in
        let! outs := Unserialize_vector Unserialize_CTxOut in
        read_ret (flags, ins, outs)
      else read_ret (flags, ins, [])
    else
      let! outs := Unserialize_vector Unserialize_CTxOut in
      read_ret (0, ins, outs)
  in
  let! (flags, ins) :=
    if flag flags 1 && fAllowWitness then
      let! ins := Unserialize_witnesses ins in
      read_ret (Z.lxor flags 1, ins)
    else read_ret (flags, ins)
  in
  if negb (flags =? 0) then read_fail
  else
    let! lockTime := ser_readdata32 in
    read_ret (Transaction version ins outs lockTime).

(** ** Transaction ids *)

Definition ComputeHash (tx : CTransaction) : list Z :=
  SerializeHash [SerializeTransaction SERIALIZE_TRANSACTION_NO_WITNESS tx].

Definition GetWitnessHash (tx : CTransaction) : list Z :=
  if negb (HasWitness tx) then ComputeHash tx else SerializeHash [SerializeTransaction 0 tx].

Definition PROTOCOL_VERSION : Z := 770015.

Definition GetTotalSize (tx : CTransaction) : Z :=
  uint32 (Zlen (SerializeTransaction PROTOCOL_VERSION tx)).

(** ** Contract queries *)

(** [for (o : vout) if (p(o)) return true; return false;] *)
Fixpoint any_output (p : list Z -> outcome bool) (l : list CTxOut) : outcome bool :=
  match l with
  | [] => Ret false
  | o :: l => let? b := p (scriptPubKey o) in if b then Ret true else any_output p l
  end.

Section TxQueries.
Context `{Env : NodeEnv}.

Definition tx_HasOpSpend (tx : CTransaction) : outcome bool := any_output HasOpSpend (vout tx).

Definition tx_HasContractOp (tx : CTransaction) : outcome bool := any_output HasContractOp (vout tx).

Definition tx_HasOpDepositToContract (tx : CTransaction) : outcome bool := any_output HasOpDepositToContract (vout tx).
End TxQueries.

(** ** Round trips *)

Definition wf_hash (h : list Z) : Prop := bytes_ok h /\ Zlen h = 32.

Definition wf_COutPoint (o : COutPoint) : Prop := wf_hash (outpoint_hash o) /\ 0 <= outpoint_n o < 2 ^ 32.

Definition wf_witness (w : list (list Z)) : Prop := Forall wf_bytes w /\ Zlen w <= MAX_SIZE.

Definition wf_CTxIn (i : CTxIn) : Prop :=
  wf_COutPoint (prevout i) /\ wf_bytes (scriptSig i) /\ 0 <= nSequence i < 2 ^ 32 /\ wf_witness (scriptWitness i).

Definition wf_CTxOut (o : CTxOut) : Prop := - 2 ^ 63 <= nValue o < 2 ^ 63 /\ wf_bytes (scriptPubKey o).

(** The values of the type's fields that a vector may hold. *)
Record wf_tx (tx : CTransaction) : Prop := {
  wf_nVersion : - 2 ^ 31 <= nVersion tx < 2 ^ 31;
  wf_vin : Forall wf_CTxIn (vin tx) /\ Zlen (vin tx) <= MAX_SIZE;
  wf_vout : Forall wf_CTxOut (vout tx) /\ Zlen (vout tx) <= MAX_SIZE;
  wf_nLockTime : 0 <= nLockTime tx < 2 ^ 32
}.

#[export] Instance COutPoint_RoundTrip : RoundTrip wf_COutPoint Serialize_COutPoint Unserialize_COutPoint.
Proof.
  split.
  - intros [h n] s [[Hh Hl] Hn]. unfold Serialize_COutPoint, Unserialize_COutPoint.
    cbn [outpoint_hash outpoint_n] in *. rewrite <- app_assoc.
    erewrite bind_step by by apply read_app. by erewrite bind_step by by apply round_trip.
  - intros [h n] [[Hh Hl] Hn]. unfold Serialize_COutPoint. rewrite bytes_ok_app. split; [done | apply le_encode_ok].
Qed.

(** An input without its witness. *)
Definition strip_input (i : CTxIn) : CTxIn := with_witness i [].

Definition strip_witness (tx : CTransaction) : CTransaction :=
  Transaction (nVersion tx) (strip_input <$> vin tx) (vout tx) (nLockTime tx).

#[export] Instance CTxIn_RoundTrip :
  RoundTrip (fun i => wf_CTxIn i /\ scriptWitness i = []) Serialize_CTxIn Unserialize_CTxIn.
Proof.
  split.
  - intros [p sc n w] s [(Hp & Hs & Hn & _) Hw].
    cbn [prevout scriptSig nSequence scriptWitness] in *. subst w. unfold Serialize_CTxIn, Unserialize_CTxIn.
    cbn [prevout scriptSig nSequence].
    rewrite <- !app_assoc. erewrite bind_step by by apply round_trip. erewrite bind_step by by apply round_trip.
    by erewrite bind_step by by apply round_trip.
  - intros i [(Hp & Hs & Hn & _) _]. unfold Serialize_CTxIn. rewrite !bytes_ok_app.
    split; [by apply round_trip_ok |]. split; [by apply round_trip_ok | apply le_encode_ok].
Qed.

#[export] Instance CTxOut_RoundTrip : RoundTrip wf_CTxOut Serialize_CTxOut Unserialize_CTxOut.
Proof.
  split.
  - intros [v sc] s [Hv Hs]. cbn [nValue scriptPubKey] in *. unfold Serialize_CTxOut, Unserialize_CTxOut.
    cbn [nValue scriptPubKey]. rewrite <- app_assoc.
    erewrite bind_step by by apply round_trip. by erewrite bind_step by by apply round_trip.
  - intros o [Hv Hs]. unfold Serialize_CTxOut. rewrite bytes_ok_app. split; [apply le_encode_ok | by apply round_trip_ok].
Qed.

(** The inputs read back without their witnesses. *)
Lemma Unserialize_vin (l : list CTxIn) s :
  Forall wf_CTxIn l -> Zlen l <= MAX_SIZE ->
  Unserialize_vector Unserialize_CTxIn (Serialize_vector Serialize_CTxIn l ++ s) = Some (strip_input <$> l, s).
Proof.
  intros Hl Hlen.
  assert (Hs : Serialize_vector Serialize_CTxIn l = Serialize_vector Serialize_CTxIn (strip_input <$> l)).
  { unfold Serialize_vector, Zlen. rewrite length_fmap, <- list_fmap_compose. done. }
  rewrite Hs. apply round_trip. split.
  - apply Forall_fmap. eapply Forall_impl; [| exact Hl]. intros [p sc n w] (Hp & Hsc & Hn & Hw).
    split; [| done]. split; [done |]. split; [done |]. split; [done |]. split; [constructor | done].
  - unfold Zlen. by rewrite length_fmap.
Qed.

Lemma Unserialize_witnesses_app (l : list CTxIn) s :
  Forall wf_CTxIn l ->
  Unserialize_witnesses (strip_input <$> l) (concat (map (fun i => Serialize_witness (scriptWitness i)) l) ++ s) = Some (l, s).
Proof.
  induction 1 as [| i l (_ & _ & _ & Hw) Hl IH]; [done |].
  cbn [fmap list_fmap map concat Unserialize_witnesses]. rewrite <- app_assoc.
  unfold Serialize_witness, Unserialize_witness.
  erewrite bind_step by (by apply (round_trip (RoundTrip := vector_RoundTrip))).
  erewrite bind_step by exact IH. by destruct i.
Qed.

(** What a stream of version [nVer] carries of a transaction. *)
Definition carried (nVer : Z) (tx : CTransaction) : CTransaction :=
  if allow_witness nVer then tx else strip_witness tx.

Lemma strip_no_witness tx : HasWitness tx = false -> strip_witness tx = tx.
Proof.
  destruct tx as [v ins outs t]. unfold HasWitness, strip_witness. cbn. intros H. f_equal.
  induction ins as [| [p sc n w] ins IH]; [done |]. cbn in *. apply orb_false_iff in H as [Hw H].
  rewrite IH by done. destruct w; [done |]. by case_bool_decide.
Qed.

(** The basic format, read where it is not taken for the extended one. *)
Lemma Unserialize_basic nVer tx s :
  wf_tx tx -> allow_witness nVer && HasWitness tx = false -> (allow_witness nVer = true -> vin tx <> []) ->
  UnserializeTransaction nVer (SerializeTransaction nVer tx ++ s) = Some (strip_witness tx, s).
Proof.
  intros [Hv [Hi Hil] [Ho Hol] Ht] Hf Hne. unfold SerializeTransaction, UnserializeTransaction. rewrite Hf.
  cbn [Z.eqb negb]. change (flag 0 1) with false. cbn [app]. rewrite <- !app_assoc.
  erewrite bind_step by by apply (round_trip (RoundTrip := int32_RoundTrip)).
  erewrite bind_step by by apply Unserialize_vin.
  replace ((Zlen (strip_input <$> vin tx) =? 0) && allow_witness nVer) with false.
  2: { destruct (allow_witness nVer); [| by rewrite andb_false_r]. specialize (Hne eq_refl). by destruct (vin tx). }
  erewrite bind_step; [| erewrite bind_step by (by apply (round_trip (RoundTrip := vector_RoundTrip))); reflexivity].
  cbn beta iota. change (flag 0 1) with false. cbn [andb negb Z.eqb]. erewrite bind_step by done. cbn [negb Z.eqb].
  by erewrite bind_step by by apply (round_trip (RoundTrip := uint32_RoundTrip)).
Qed.

(** The extended format. *)
Lemma Unserialize_extended nVer tx s :
  wf_tx tx -> allow_witness nVer = true -> HasWitness tx = true ->
  UnserializeTransaction nVer (SerializeTransaction nVer tx ++ s) = Some (tx, s).
Proof.
  intros [Hv [Hi Hil] [Ho Hol] Ht] Ha Hw. unfold SerializeTransaction, UnserializeTransaction. rewrite Ha, Hw.
  cbn [andb Z.eqb negb]. change (flag 1 1) with true. cbn iota. rewrite <- !app_assoc.
  erewrite bind_step by by apply (round_trip (RoundTrip := int32_RoundTrip)).
  erewrite bind_step by (apply (Unserialize_vin []); [constructor | done]).
  change (Zlen (strip_input <$> []) =? 0) with true. cbn [andb].
  erewrite bind_step.
  2: { erewrite bind_step by by apply (round_trip (RoundTrip := uint8_RoundTrip)). cbn [Z.eqb negb].
       erewrite bind_step by by apply Unserialize_vin.
       erewrite bind_step by by apply (round_trip (RoundTrip := vector_RoundTrip)). reflexivity. }
  cbn beta iota. change (flag 1 1 && true) with true. cbn iota.
  erewrite bind_step; [| erewrite bind_step by (by apply Unserialize_witnesses_app); reflexivity].
  change (Z.lxor 1 1) with 0. cbn [negb Z.eqb].
  erewrite bind_step by by apply (round_trip (RoundTrip := uint32_RoundTrip)). by destruct tx.
Qed.

(** The transaction without inputs and outputs. *)
Lemma Unserialize_null nVer tx s :
  wf_tx tx -> allow_witness nVer = true -> vin tx = [] -> vout tx = [] ->
  UnserializeTransaction nVer (SerializeTransaction nVer tx ++ s) = Some (tx, s).
Proof.
  intros [Hv _ _ Ht] Ha Hi Ho. unfold SerializeTransaction, UnserializeTransaction, HasWitness. rewrite Ha, Hi, Ho.
  cbn [existsb andb Z.eqb negb]. change (flag 0 1) with false. cbn [app]. rewrite <- !app_assoc.
  erewrite bind_step by by apply (round_trip (RoundTrip := int32_RoundTrip)).
  erewrite bind_step by (apply (Unserialize_vin []); [constructor | done]).
  change (Zlen (strip_input <$> []) =? 0) with true. cbn [andb].
  erewrite bind_step; [| erewrite bind_step by (by apply (ser_readdata8_app 0)); reflexivity].
  cbn beta iota. change (flag 0 1) with false. cbn [andb].
  erewrite bind_step by done. cbn [negb Z.eqb].
  erewrite bind_step by by apply (round_trip (RoundTrip := uint32_RoundTrip)). destruct tx. cbn in *. by subst.
Qed.

Lemma UnserializeTransaction_app nVer tx s :
  wf_tx tx -> (allow_witness nVer = true -> vin tx <> [] \/ vout tx = []) ->
  UnserializeTransaction nVer (SerializeTransaction nVer tx ++ s) = Some (carried nVer tx, s).
Proof.
  intros Hwf Hne. unfold carried. destruct (allow_witness nVer) eqn:Ha.
  - destruct (HasWitness tx) eqn:Hw; [by apply Unserialize_extended |].
    destruct (decide (vin tx = [])) as [Hi | Hi].
    + destruct (Hne eq_refl) as [| Ho]; [done |]. by apply Unserialize_null.
    + rewrite <- (strip_no_witness tx) at 2 by done. apply Unserialize_basic; [done | by rewrite Hw, andb_false_r | done].
  - apply Unserialize_basic; [done | by rewrite Ha | congruence].
Qed.

(** C39. Transactions round trip: what [SerializeTransaction] writes to a stream
    [UnserializeTransaction] reads back from it, with the witnesses if the stream
    carries them and without them otherwise, and leaves the rest of the stream.
    The exception are transactions with outputs and no inputs on a stream with
    witnesses, whose empty input vector is the marker of the extended format. *)
Theorem Transaction_roundtrip nVer tx s :
  wf_tx tx -> (allow_witness nVer = true -> vin tx <> [] \/ vout tx = []) ->
  UnserializeTransaction nVer (SerializeTransaction nVer tx ++ s) = Some (carried nVer tx, s).
Proof. apply UnserializeTransaction_app. Qed.

(** A spend of one output with a witness. *)
Definition sample_tx : CTransaction :=
  Transaction 2 [TxIn (OutPoint (replicate 32 7) 1) [] SEQUENCE_FINAL [[1; 2]; []]] [TxOut 5000 [0x6a]] 0.

Lemma sample_tx_wf : wf_tx sample_tx.
Proof.
  split; cbn; [lia | | | lia].
  - split; [| done]. constructor; [| constructor].
    repeat (split || constructor); cbn; unfold is_byte; try lia; done.
  - split; [| done]. repeat (split || constructor); cbn; unfold is_byte; try lia; done.
Qed.

Lemma Transaction_roundtrip_witness :
  UnserializeTransaction 0 (SerializeTransaction 0 sample_tx ++ [9]) = Some (sample_tx, [9]).
Proof.
  apply (Transaction_roundtrip 0 sample_tx [9]).
  - exact sample_tx_wf.
  - intros _. left. discriminate.
Defined.

(** ** Transaction ids *)

Lemma SerializeTransaction_ok nVer tx : wf_tx tx -> bytes_ok (SerializeTransaction nVer tx).
Proof.
  intros [Hv [Hi Hil] [Ho Hol] Ht]. unfold SerializeTransaction.
  assert (Hin : forall l, Forall wf_CTxIn l -> bytes_ok (Serialize_vector Serialize_CTxIn l)).
  { intros l Hl. apply bytes_ok_app. split; [apply WriteCompactSize_ok |]. induction Hl as [| i l (Hp & Hs & Hn & _) Hl IH]; [constructor |].
    cbn [fmap list_fmap concat]. unfold Serialize_CTxIn at 1. rewrite !bytes_ok_app.
    repeat split; try done; [by apply round_trip_ok | by apply round_trip_ok | apply le_encode_ok]. }
  assert (Hw : bytes_ok (concat (map (fun i => Serialize_witness (scriptWitness i)) (vin tx)))).
  { induction Hi as [| i l (_ & _ & _ & Hw) Hl IH]; [constructor |]. cbn [map concat]. apply bytes_ok_app. split.
    - by apply (round_trip_ok (RoundTrip := vector_RoundTrip)).
    - apply IH. rewrite Zlen_cons in Hil. lia. }
  rewrite !bytes_ok_app. split; [apply le_encode_ok |]. split.
  - case_match; [| constructor]. apply bytes_ok_app. split; [by apply Hin | repeat constructor; apply uint8_range].
  - split; [by apply Hin |]. split; [by apply (round_trip_ok (RoundTrip := vector_RoundTrip)) |].
    split; [case_match; [done | constructor] | apply le_encode_ok].
Qed.

Lemma sha256_spec_wf m : wf_hash (sha256_spec m).
Proof.
  split; [| unfold Zlen; by rewrite length_sha256_spec]. unfold sha256_spec, Sha256.output, Common.WriteBE32. repeat case_match.
  repeat (apply bytes_ok_app; split); apply be_encode_ok.
Qed.

(** Two byte strings with the same double SHA-256. *)
Definition collision (a b : list Z) : Prop :=
  bytes_ok a /\ bytes_ok b /\ a <> b /\ sha256_spec (sha256_spec a) = sha256_spec (sha256_spec b).

Lemma Serialize_strip tx :
  SerializeTransaction SERIALIZE_TRANSACTION_NO_WITNESS (strip_witness tx) =
  SerializeTransaction SERIALIZE_TRANSACTION_NO_WITNESS tx.
Proof.
  unfold SerializeTransaction. change (allow_witness SERIALIZE_TRANSACTION_NO_WITNESS) with false.
  cbn [andb Z.eqb negb]. change (flag 0 1) with false. cbn [strip_witness nVersion vin vout nLockTime].
  do 2 f_equal. f_equal. unfold Serialize_vector, Zlen. by rewrite length_fmap, <- list_fmap_compose.
Qed.

(** The transaction id ignores the witnesses and binds everything else: two
    transactions have the same id exactly when they agree but for their witnesses,
    or their serializations are a collision of double SHA-256. *)
Theorem txid_binding tx1 tx2 :
  wf_tx tx1 -> wf_tx tx2 ->
  ComputeHash tx1 = ComputeHash tx2 <->
  strip_witness tx1 = strip_witness tx2 \/
  collision (SerializeTransaction SERIALIZE_TRANSACTION_NO_WITNESS tx1)
            (SerializeTransaction SERIALIZE_TRANSACTION_NO_WITNESS tx2).
Proof.
  intros H1 H2. unfold ComputeHash. rewrite !SerializeHash_concat. cbn [concat]. rewrite !app_nil_r. split.
  - intros Hh. set (s1 := SerializeTransaction _ tx1) in *. set (s2 := SerializeTransaction _ tx2) in *.
    destruct (decide (s1 = s2)) as [E | E]; [left | right; by repeat split; try apply SerializeTransaction_ok].
    pose proof (UnserializeTransaction_app SERIALIZE_TRANSACTION_NO_WITNESS tx1 [] H1 ltac:(done)) as R1.
    pose proof (UnserializeTransaction_app SERIALIZE_TRANSACTION_NO_WITNESS tx2 [] H2 ltac:(done)) as R2.
    fold s1 in R1. fold s2 in R2. rewrite E, R2 in R1. change (Some (strip_witness tx2, @nil Z) = Some (strip_witness tx1, [])) in R1.
    congruence.
  - intros [E | (_ & _ & _ & E)]; [| done]. rewrite <- (Serialize_strip tx1), <- (Serialize_strip tx2), E. done.
Qed.

Lemma txid_binding_witness : ComputeHash sample_tx = ComputeHash (strip_witness sample_tx).
Proof.
  apply (txid_binding sample_tx (strip_witness sample_tx)).
  - exact sample_tx_wf.
  - split; cbn; [lia | | | lia]; (split; [| done]); repeat (split || constructor); cbn; unfold is_byte; try lia; done.
  - left. reflexivity.
Defined.

(** ** Amounts *)

Fixpoint total_value (l : list CTxOut) : Z :=
  match l with [] => 0 | o :: l => nValue o + total_value l end.

Lemma MoneyRange_true v : MoneyRange v = true <-> 0 <= v <= MAX_MONEY.
Proof. unfold MoneyRange. rewrite andb_true_iff, Z.geb_leb, !Z.leb_le. done. Qed.

Lemma total_value_nonneg l : Forall (fun o => MoneyRange (nValue o) = true) l -> 0 <= total_value l.
Proof. induction 1 as [| o l Ho _ IH]; [done |]. apply MoneyRange_true in Ho. cbn. lia. Qed.

Lemma GetValueOut_loop_spec l acc :
  0 <= acc <= MAX_MONEY -> Forall (fun o => - 2 ^ 63 <= nValue o < 2 ^ 63 - MAX_MONEY) l ->
  GetValueOut_loop l acc =
    if bool_decide (Forall (fun o => MoneyRange (nValue o) = true) l /\ acc + total_value l <= MAX_MONEY)
    then Ret (acc + total_value l) else Throw runtime_error.
Proof.
  assert (Hm : MAX_MONEY = 2100000000000000) by done.
  intros Hacc Hl. revert acc Hacc. induction Hl as [| o l Ho Hl IH]; intros acc Hacc.
  { cbn. rewrite Z.add_0_r, bool_decide_eq_true_2; [done |]. split; [constructor | lia]. }
  cbn [GetValueOut_loop]. unfold int64_add, INT64_MIN, INT64_MAX.
  rewrite (proj2 (Z.leb_le (- 2 ^ 63) (acc + nValue o))), (proj2 (Z.leb_le (acc + nValue o) (2 ^ 63 - 1))) by lia.
  cbn [andb obind total_value].
  destruct (MoneyRange (nValue o)) eqn:E1; cbn [negb orb].
  2: { rewrite bool_decide_eq_false_2; [done |]. intros [Hall _]. apply List.Forall_cons_iff in Hall as [? _]. congruence. }
  destruct (MoneyRange (acc + nValue o)) eqn:E2; cbn [negb].
  - apply MoneyRange_true in E2. rewrite IH by lia. rewrite Z.add_assoc. apply MoneyRange_true in E1 as E1'.
    case_bool_decide as H1; case_bool_decide as H2; try done; exfalso.
    + apply H2. split; [constructor; tauto | lia].
    + apply H1. rewrite List.Forall_cons_iff in H2. split; [tauto | lia].
  - rewrite bool_decide_eq_false_2; [done |]. intros [Hall Ht]. apply List.Forall_cons_iff in Hall as [_ Hall].
    apply total_value_nonneg in Hall. apply MoneyRange_true in E1.
    assert (MoneyRange (acc + nValue o) = true) by (apply MoneyRange_true; lia). congruence.
Qed.

(** [GetValueOut] returns the exact sum of the outputs when every output and the
    sum are valid amounts, and throws otherwise; with values that leave room for a
    valid amount below the largest [int64_t] no addition overflows. *)
Theorem GetValueOut_spec tx :
  Forall (fun o => - 2 ^ 63 <= nValue o < 2 ^ 63 - MAX_MONEY) (vout tx) ->
  GetValueOut tx =
    if bool_decide (Forall (fun o => MoneyRange (nValue o) = true) (vout tx) /\ total_value (vout tx) <= MAX_MONEY)
    then Ret (total_value (vout tx)) else Throw runtime_error.
Proof. intros H. unfold GetValueOut. rewrite GetValueOut_loop_spec; [done | unfold MAX_MONEY, COIN; lia | done]. Qed.

Lemma GetValueOut_spec_witness : GetValueOut sample_tx = Ret 5000.
Proof.
  rewrite (GetValueOut_spec sample_tx).
  - reflexivity.
  - repeat constructor; discriminate.
Defined.
