(* ===== verification/SigHash.v ===== *)
(** * Signature hashes

    The digest a signature commits to and the checker that uses it
    ([src/script/interpreter.cpp]): [CTransactionSignatureSerializer],
    [PrecomputedTransactionData], [SignatureHash], and
    [TransactionSignatureChecker]. The elliptic curve verification of
    [CPubKey::Verify] is a parameter. *)

From S2P Require Import Prelude Serialize Common Opcodes ScriptNum Script MDHash Sha256 Hash SigEncoding Interpreter Transaction.

(** ** Hash types *)

Definition fAnyoneCanPay (nHashType : Z) : bool := flag nHashType SIGHASH_ANYONECANPAY.

Definition fHashSingle (nHashType : Z) : bool := Z.land nHashType 0x1f =? SIGHASH_SINGLE.

Definition fHashNone (nHashType : Z) : bool := Z.land nHashType 0x1f =? SIGHASH_NONE.

(** ** The serializer of the legacy digest *)

(** The first pass over the script: the number of [OP_CODESEPARATOR]s. *)
Fixpoint count_separators (fuel : nat) (it : list Z) : Z :=
  match fuel with
  | O => 0
  | S fuel =>
    let r := GetOp2 it in
    if go_ret r then (if go_opcode r =? OP_CODESEPARATOR then 1 else 0) + count_separators fuel (go_pc r)
    else 0
  end.

(** The second pass: the bytes written from [itBegin], with the iterator at [it];
    each separator ends a piece. *)
Fixpoint write_pieces (fuel : nat) (itBegin it : list Z) : list Z :=
  match fuel with
  | O => []
  | S fuel =>
    let r := GetOp2 it in
    let upto (p : list Z) (n : nat) := take (length itBegin - length p - n) itBegin in
    if go_ret r then
      if go_opcode r =? OP_CODESEPARATOR then upto (go_pc r) 1%nat ++ write_pieces fuel (go_pc r) (go_pc r)
      else write_pieces fuel itBegin (go_pc r)
    else match itBegin with [] => [] | _ => upto (go_pc r) 0%nat end
  end.

Definition SerializeScriptCode (scriptCode : list Z) : list Z :=
  WriteCompactSize (Zlen scriptCode - count_separators (S (length scriptCode)) scriptCode) ++
  write_pieces (S (length scriptCode)) scriptCode scriptCode.

Section Serializer.
Variables (txTo : CTransaction) (scriptCode : list Z) (nIn : nat) (nHashType : Z).

(** [txTo.vin[i]] and [txTo.vout[i]], for an index in range. *)
Definition vin_at (i : nat) : CTxIn := default (TxIn (OutPoint [] 0) [] 0 []) (vin txTo !! i).

Definition vout_at (i : nat) : CTxOut := default CTxOut_null (vout txTo !! i).

Definition SerializeInput (nInput : nat) : list Z :=
  let nInput := if fAnyoneCanPay nHashType then nIn else nInput in
  Serialize_COutPoint (prevout (vin_at nInput)) ++
  (if negb (nInput =? nIn)%nat then Serialize_bytes [] else SerializeScriptCode scriptCode) ++
  (if negb (nInput =? nIn)%nat && (fHashSingle nHashType || fHashNone nHashType) then ser_writedata32 0
   else ser_writedata32 (nSequence (vin_at nInput))).

Definition SerializeOutput (nOutput : nat) : list Z :=
  if fHashSingle nHashType && negb (nOutput =? nIn)%nat then Serialize_CTxOut CTxOut_null
  else Serialize_CTxOut (vout_at nOutput).

(** [CTransactionSignatureSerializer::Serialize] *)
Definition SignatureSerialize : list Z :=
  let nInputs := if fAnyoneCanPay nHashType then 1%nat else length (vin txTo) in
  let nOutputs := if fHashNone nHashType then 0%nat
                  else if fHashSingle nHashType then S nIn else length (vout txTo) in
  ser_writedata32 (nVersion txTo) ++
  WriteCompactSize (Z.of_nat nInputs) ++ concat (map SerializeInput (seq 0 nInputs)) ++
  WriteCompactSize (Z.of_nat nOutputs) ++ concat (map SerializeOutput (seq 0 nOutputs)) ++
  ser_writedata32 (nLockTime txTo).
End Serializer.

(** ** The segregated witness digest *)

Definition GetPrevoutHash (txTo : CTransaction) : list Z :=
  SerializeHash (map (fun i => Serialize_COutPoint (prevout i)) (vin txTo)).

Definition GetSequenceHash (txTo : CTransaction) : list Z :=
  SerializeHash (map (fun i => ser_writedata32 (nSequence i)) (vin txTo)).

Definition GetOutputsHash (txTo : CTransaction) : list Z :=
  SerializeHash (map Serialize_CTxOut (vout txTo)).

(** [uint256()] *)
Definition uint256_zero : list Z := replicate 32 0.

Record PrecomputedTransactionData := Precomputed {
  hashPrevouts : list Z;
  hashSequence : list Z;
  hashOutputs : list Z;
  ready : bool
}.

Definition precompute (txTo : CTransaction) : PrecomputedTransactionData :=
  if HasWitness txTo then Precomputed (GetPrevoutHash txTo) (GetSequenceHash txTo) (GetOutputsHash txTo) true
  else Precomputed uint256_zero uint256_zero uint256_zero false.

(** The field of a cache that is ready, or the value computed now. *)
Definition cached (cache : option PrecomputedTransactionData) (f : PrecomputedTransactionData -> list Z) (v : list Z) : list Z :=
  match cache with
  | Some c => if ready c then f c else v
  | None => v
  end.

(** The string written after the hash type under the fork id. *)
Definition ub_flags : list Z := Serialize_bytes [0x75; 0x62].

Definition fork_suffix (nHashType flags : Z) : list (list Z) :=
  if flag nHashType SIGHASH_FORKID && flag flags SCRIPT_ENABLE_SIGHASH_FORKID then [ub_flags] else [].

Definition uint256_one : list Z := 1 :: replicate 31 0.

Definition WitnessHash (scriptCode : list Z) (txTo : CTransaction) (nIn : nat) (nHashType amount : Z)
    (cache : option PrecomputedTransactionData) (flags : Z) : list Z :=
  let single_or_none := fHashSingle nHashType || fHashNone nHashType in
  let hp := if negb (fAnyoneCanPay nHashType) then cached cache hashPrevouts (GetPrevoutHash txTo) else uint256_zero in
  let hs := if negb (fAnyoneCanPay nHashType) && negb single_or_none
            then cached cache hashSequence (GetSequenceHash txTo) else uint256_zero in
  let ho := if negb single_or_none then cached cache hashOutputs (GetOutputsHash txTo)
            else if fHashSingle nHashType && (nIn <? length (vout txTo))%nat
            then SerializeHash [Serialize_CTxOut (vout_at txTo nIn)] else uint256_zero in
  SerializeHash
    ([ser_writedata32 (nVersion txTo); hp; hs; Serialize_COutPoint (prevout (vin_at txTo nIn));
      Serialize_bytes scriptCode; ser_writedata64 amount; ser_writedata32 (nSequence (vin_at txTo nIn));
      ho; ser_writedata32 (nLockTime txTo); ser_writedata32 nHashType] ++ fork_suffix nHashType flags).

Definition SignatureHash (scriptCode : list Z) (txTo : CTransaction) (nIn : nat) (nHashType amount : Z)
    (sigversion : SigVersion) (cache : option PrecomputedTransactionData) (flags : Z) : outcome (list Z) :=
  let? _ := cassert (nIn <? length (vin txTo))%nat in
  if bool_decide (sigversion = SIGVERSION_WITNESS_V0) then
    Ret (WitnessHash scriptCode txTo nIn nHashType amount cache flags)
  else if fHashSingle nHashType && (length (vout txTo) <=? nIn)%nat then Ret uint256_one
  else Ret (SerializeHash ([SignatureSerialize txTo scriptCode nIn nHashType; ser_writedata32 nHashType] ++
                           fork_suffix nHashType flags)).

(** ** The checker of a transaction input *)

(** [CPubKey::GetLen] *)
Definition pubkey_GetLen (chHeader : Z) : Z :=
  if (chHeader =? 2) || (chHeader =? 3) then 33
  else if (chHeader =? 4) || (chHeader =? 6) || (chHeader =? 7) then 65
  else 0.

(** [CPubKey::Set]: the bytes of the key, or none for an invalid one. *)
Definition CPubKey (vch : list Z) : list Z :=
  match vch with
  | [] => []
  | chHeader :: _ =>
    let len := pubkey_GetLen chHeader in
    if negb (len =? 0) && (len =? Zlen vch) then vch else []
  end.

Definition CPubKey_IsValid (pubkey : list Z) : bool := Zlen pubkey >? 0.

(** [CTxIn::SEQUENCE_LOCKTIME_TYPE_FLAG] and [CTxIn::SEQUENCE_LOCKTIME_MASK] *)
Definition SEQUENCE_LOCKTIME_TYPE_FLAG : Z := Z.shiftl 1 22.

Definition SEQUENCE_LOCKTIME_MASK : Z := 0x0000ffff.

(** [CPubKey::Verify] of a valid key: the key, the digest and the DER signature. *)
Class EcdsaVerify := { Verify : list Z -> list Z -> list Z -> bool }.

Section TransactionSignatureChecker.
Context `{Ecdsa : EcdsaVerify}.
Variables (txTo : CTransaction) (nIn : nat) (amount : Z) (txdata : option PrecomputedTransactionData).

(** [CheckSig]; the default of the [flags] of [SignatureHash] applies. The
    assertion of [SignatureHash] holds for the checker of an input of [txTo]. *)
Definition tx_CheckSig (vchSigIn vchPubKey scriptCode : list Z) (sigversion : SigVersion) : bool :=
  let pubkey := CPubKey vchPubKey in
  if negb (CPubKey_IsValid pubkey) then false
  else if Zlen vchSigIn =? 0 then false
  else
    let nHashType := back vchSigIn in
    let vchSig := take (length vchSigIn - 1) vchSigIn in
    match SignatureHash scriptCode txTo nIn nHashType amount sigversion txdata SCRIPT_ENABLE_SIGHASH_FORKID with
    | Ret sighash => Verify pubkey sighash vchSig
    | _ => false
    end.

Definition tx_CheckLockTime (nLock : Z) : bool :=
  if negb (((nLockTime txTo <? LOCKTIME_THRESHOLD) && (nLock <? LOCKTIME_THRESHOLD)) ||
           ((nLockTime txTo >=? LOCKTIME_THRESHOLD) && (nLock >=? LOCKTIME_THRESHOLD))) then false
  else if nLock >? nLockTime txTo then false
  else if SEQUENCE_FINAL =? nSequence (vin_at txTo nIn) then false
  else true.

Definition tx_CheckSequence (nSeq : Z) : bool :=
  let txToSequence := nSequence (vin_at txTo nIn) in
  if uint32 (nVersion txTo) <? 2 then false
  else if flag txToSequence SEQUENCE_LOCKTIME_DISABLE_FLAG then false
  else
    let nLockTimeMask := Z.lor SEQUENCE_LOCKTIME_TYPE_FLAG SEQUENCE_LOCKTIME_MASK in
    let txToSequenceMasked := Z.land txToSequence nLockTimeMask in
    let nSequenceMasked := sn_and nSeq nLockTimeMask in
    if negb (((txToSequenceMasked <? SEQUENCE_LOCKTIME_TYPE_FLAG) && (nSequenceMasked <? SEQUENCE_LOCKTIME_TYPE_FLAG)) ||
             ((txToSequenceMasked >=? SEQUENCE_LOCKTIME_TYPE_FLAG) && (nSequenceMasked >=? SEQUENCE_LOCKTIME_TYPE_FLAG)))
    then false
    else if nSequenceMasked >? txToSequenceMasked then false
    else true.

Definition TransactionSignatureChecker : SignatureChecker :=
  {| CheckSig := tx_CheckSig; CheckLockTime := tx_CheckLockTime; CheckSequence := tx_CheckSequence |}.
End TransactionSignatureChecker.

(** ** The reference for the legacy digest

    [SignatureHashOld] of [src/test/sighash_tests.cpp]: copy the transaction, blank
    out what the signature does not cover, and hash the copy. *)

Definition set_sequence (n : Z) (i : CTxIn) : CTxIn := TxIn (prevout i) (scriptSig i) n (scriptWitness i).

Definition set_scriptSig (s : list Z) (i : CTxIn) : CTxIn := TxIn (prevout i) s (nSequence i) (scriptWitness i).

Definition blank_inputs (l : list CTxIn) (nIn : nat) (scriptCode : list Z) : list CTxIn :=
  imap (fun i x => set_scriptSig (if (i =? nIn)%nat then scriptCode else []) x) l.

Definition free_sequences (l : list CTxIn) (nIn : nat) : list CTxIn :=
  imap (fun i x => if (i =? nIn)%nat then x else set_sequence 0 x) l.

Definition signature_tx (scriptCode : list Z) (txTo : CTransaction) (nIn : nat) (nHashType : Z) : CTransaction :=
  let scriptCode := (FindAndDelete scriptCode [OP_CODESEPARATOR]).1 in
  let ins := blank_inputs (vin txTo) nIn scriptCode in
  let ins := if fHashNone nHashType || fHashSingle nHashType then free_sequences ins nIn else ins in
  let outs := if fHashNone nHashType then []
              else if fHashSingle nHashType then replicate nIn CTxOut_null ++ take 1 (drop nIn (vout txTo))
              else vout txTo in
  let ins := if fAnyoneCanPay nHashType then take 1 (drop nIn ins) else ins in
  Transaction (nVersion txTo) ins outs (nLockTime txTo).

Definition SignatureHashOld (scriptCode : list Z) (txTo : CTransaction) (nIn : nat) (nHashType : Z) : list Z :=
  if (length (vin txTo) <=? nIn)%nat then uint256_one
  else if fHashSingle nHashType && (length (vout txTo) <=? nIn)%nat then uint256_one
  else SerializeHash [SerializeTransaction SERIALIZE_TRANSACTION_NO_WITNESS (signature_tx scriptCode txTo nIn nHashType);
                      ser_writedata32 nHashType].

(** ** The two passes over the script *)

(** The script decodes to its end. *)
Definition decodes (pc : list Z) : Prop := exists fuel ops, GetOps fuel pc = Some ops.

Lemma decodes_next pc : decodes pc -> go_ret (GetOp2 pc) = true -> decodes (go_pc (GetOp2 pc)).
Proof.
  intros (fuel & ops & H) Hr. destruct pc as [| x pc]; [done |]. destruct fuel as [| fuel]; [done |].
  cbn [GetOps] in H. rewrite Hr in H. destruct (GetOps fuel _) as [ops' |] eqn:E; [| done]. by exists fuel, ops'.
Qed.

Lemma decodes_end pc : decodes pc -> go_ret (GetOp2 pc) = false -> pc = [].
Proof.
  intros (fuel & ops & H) Hr. destruct pc as [| x pc]; [done |]. destruct fuel as [| fuel]; [done |].
  cbn [GetOps] in H. by rewrite Hr in H.
Qed.

Lemma go_opcode_head x pc : go_ret (GetOp2 (x :: pc)) = true -> go_opcode (GetOp2 (x :: pc)) = x.
Proof. unfold GetOp2. repeat case_match; done. Qed.

(** Both passes, from a point reached after the bytes [pre] of the current piece. *)
Lemma separators_deleted pc out n fuel pre :
  deleted [OP_CODESEPARATOR] pc out n -> decodes pc -> (length pc < fuel)%nat ->
  count_separators fuel pc = n /\ write_pieces fuel (pre ++ pc) pc = pre ++ out.
Proof.
  intros Hd. revert fuel pre.
  induction Hd as [pc out n Hd IH | pc ins out n Hns Hret Hpc Hd IH | pc Hns Hret];
    intros [| fuel] pre Hdec Hfuel; try lia.
  - cbn [app] in *. assert (Hget : GetOp2 (OP_CODESEPARATOR :: pc) = GetOpResult true OP_CODESEPARATOR [] pc) by by apply GetOp2_above.
    apply decodes_next in Hdec; [| by rewrite Hget]. rewrite Hget in Hdec.
    cbn [count_separators write_pieces]. rewrite Hget. cbn [go_ret go_opcode go_pc]. rewrite Z.eqb_refl.
    destruct (IH fuel [] Hdec ltac:(cbn in Hfuel; lia)) as [-> Hw]. split; [lia |]. cbn [app] in Hw. rewrite Hw. f_equal.
    rewrite length_app. cbn [length]. replace (_ - _ - 1)%nat with (length pre) by lia. apply take_app_length.
  - pose proof (decodes_next _ Hdec Hret) as Hdec'. pose proof (GetOp2_length _ Hret).
    cbn [count_separators write_pieces]. rewrite Hret.
    assert (Hne : (go_opcode (GetOp2 pc) =? OP_CODESEPARATOR) = false).
    { apply Z.eqb_neq. destruct pc as [| x pc]; [done |]. rewrite go_opcode_head by done. intros ->. apply Hns. by exists pc. }
    rewrite Hne. destruct (IH fuel (pre ++ ins) Hdec' ltac:(lia)) as [-> Hw]. split; [lia |].
    rewrite <- !app_assoc, <- Hpc in Hw. by rewrite Hw, app_assoc.
  - apply decodes_end in Hdec as ->; [| done]. cbn [count_separators write_pieces].
    change (go_ret (GetOp2 [])) with false. split; [done |]. rewrite !app_nil_r. destruct pre as [| x pre]; [done |].
    change (go_pc (GetOp2 [])) with (@nil Z). rewrite !Nat.sub_0_r. apply firstn_all.
Qed.

Lemma SerializeScriptCode_spec scriptCode :
  decodes scriptCode ->
  SerializeScriptCode scriptCode = Serialize_bytes (FindAndDelete scriptCode [OP_CODESEPARATOR]).1.
Proof.
  intros Hdec. pose proof (FindAndDelete_deleted scriptCode [OP_CODESEPARATOR] ltac:(done)) as Hfd.
  destruct (FindAndDelete scriptCode [OP_CODESEPARATOR]) as [out n]. destruct Hfd as (Hd & _ & Hlen & _).
  destruct (separators_deleted _ _ _ (S (length scriptCode)) [] Hd Hdec ltac:(lia)) as [Hc Hw].
  unfold SerializeScriptCode, Serialize_bytes. cbn [app fst] in *. rewrite Hc, Hw. f_equal. f_equal.
  change (Zlen [OP_CODESEPARATOR]) with 1 in Hlen. lia.
Qed.

(** ** The legacy digest *)

Lemma map_seq_imap {A B} (h : nat -> A -> B) (d : A) (l : list A) :
  map (fun i => h i (default d (l !! i))) (seq 0 (length l)) = imap h l.
Proof.
  apply list_eq. intros i. rewrite list_lookup_imap. destruct (decide (i < length l)%nat) as [Hi | Hi].
  - change (map ?f) with (fmap (M := list) f). rewrite list_lookup_fmap, lookup_seq_lt by done. cbn.
    apply lookup_lt_is_Some_2 in Hi as [x ->]. done.
  - rewrite (proj2 (lookup_ge_None l i)) by lia. apply lookup_ge_None. rewrite length_map, length_seq. lia.
Qed.

Section Legacy.
Variables (scriptCode : list Z) (txTo : CTransaction) (nIn : nat) (nHashType : Z).
Hypothesis Hin : (nIn < length (vin txTo))%nat.
Hypothesis Hdec : decodes scriptCode.

Definition signed_input (i : nat) (x : CTxIn) : CTxIn :=
  let x := set_scriptSig (if (i =? nIn)%nat then (FindAndDelete scriptCode [OP_CODESEPARATOR]).1 else []) x in
  if fHashNone nHashType || fHashSingle nHashType then if (i =? nIn)%nat then x else set_sequence 0 x else x.

Lemma SerializeInput_spec i x :
  fAnyoneCanPay nHashType = false \/ i = nIn -> vin txTo !! i = Some x ->
  SerializeInput txTo scriptCode nIn nHashType i = Serialize_CTxIn (signed_input i x).
Proof.
  intros Hi Hx. unfold SerializeInput.
  replace (if fAnyoneCanPay nHashType then nIn else i) with i by (destruct Hi as [-> | ->]; [done | by case_match]).
  unfold vin_at, signed_input, Serialize_CTxIn. rewrite Hx, (orb_comm (fHashSingle _)). cbn [default].
  destruct (Nat.eqb_spec i nIn) as [-> | Hne]; cbn [negb andb].
  - rewrite SerializeScriptCode_spec by done. by case_match.
  - by case_match.
Qed.

Lemma signature_tx_vin :
  vin (signature_tx scriptCode txTo nIn nHashType) =
    (let ins := imap signed_input (vin txTo) in if fAnyoneCanPay nHashType then take 1 (drop nIn ins) else ins).
Proof.
  unfold signature_tx. cbn [vin]. cbv zeta.
  assert (H : (if fHashNone nHashType || fHashSingle nHashType
    then free_sequences (blank_inputs (vin txTo) nIn (FindAndDelete scriptCode [OP_CODESEPARATOR]).1) nIn
    else blank_inputs (vin txTo) nIn (FindAndDelete scriptCode [OP_CODESEPARATOR]).1) = imap signed_input (vin txTo)); [| by rewrite H].
  unfold signed_input, free_sequences, blank_inputs. apply list_eq. intros i.
  destruct (fHashNone nHashType || fHashSingle nHashType); rewrite !list_lookup_imap; by destruct (vin txTo !! i).
Qed.

Lemma signature_vin :
  WriteCompactSize (Z.of_nat (if fAnyoneCanPay nHashType then 1%nat else length (vin txTo))) ++
  concat (map (SerializeInput txTo scriptCode nIn nHashType)
            (seq 0 (if fAnyoneCanPay nHashType then 1%nat else length (vin txTo)))) =
  Serialize_vector Serialize_CTxIn (vin (signature_tx scriptCode txTo nIn nHashType)).
Proof.
  rewrite signature_tx_vin. cbv zeta. unfold Serialize_vector.
  destruct (lookup_lt_is_Some_2 _ _ Hin) as [x Hx].
  destruct (fAnyoneCanPay nHashType) eqn:Ha.
  - assert (Hl : imap signed_input (vin txTo) !! nIn = Some (signed_input nIn x)) by by rewrite list_lookup_imap, Hx.
    rewrite (drop_S _ _ _ Hl). cbn [take]. rewrite take_0. cbn. f_equal. f_equal.
    transitivity (SerializeInput txTo scriptCode nIn nHashType nIn); [unfold SerializeInput; by rewrite Ha |].
    by apply SerializeInput_spec; [right |].
  - unfold Zlen. rewrite length_imap. f_equal. f_equal.
    rewrite <- (map_seq_imap _ (TxIn (OutPoint [] 0) [] 0 [])). change (?f <$> ?l) with (map f l). rewrite map_map.
    apply map_ext_in. intros i Hi%in_seq. destruct (lookup_lt_is_Some_2 (vin txTo) i ltac:(lia)) as [y Hy].
    rewrite Hy. apply SerializeInput_spec; [by left | done].
Qed.
End Legacy.

Lemma signature_vout txTo nIn nHashType :
  fHashSingle nHashType = true -> (nIn < length (vout txTo))%nat ->
  concat (map (SerializeOutput txTo nIn nHashType) (seq 0 (S nIn))) =
  concat (Serialize_CTxOut <$> replicate nIn CTxOut_null ++ take 1 (drop nIn (vout txTo))).
Proof.
  intros Hs Hn. destruct (lookup_lt_is_Some_2 _ _ Hn) as [x Hx].
  rewrite seq_S, map_app, fmap_app, !concat_app. f_equal.
  - f_equal. rewrite fmap_replicate. apply list_eq. intros i. change (map ?f) with (fmap (M := list) f).
    destruct (decide (i < nIn)%nat) as [Hi | Hi].
    + rewrite list_lookup_fmap, lookup_seq_lt, lookup_replicate_2 by done. cbn. unfold SerializeOutput.
      rewrite Hs. destruct (Nat.eqb_spec i nIn); [lia | done].
    + rewrite (proj2 (lookup_ge_None (replicate _ _) i)) by (rewrite length_replicate; lia).
      apply lookup_ge_None. rewrite length_fmap, length_seq. lia.
  - rewrite (drop_S _ _ _ Hx). cbn [take map Nat.add fmap list_fmap]. rewrite take_0. cbn. f_equal.
    unfold SerializeOutput, vout_at. by rewrite Hs, Nat.eqb_refl, Hx.
Qed.

Lemma signature_outputs scriptCode txTo nIn nHashType :
  fHashSingle nHashType && (length (vout txTo) <=? nIn)%nat = false ->
  WriteCompactSize (Z.of_nat (if fHashNone nHashType then 0 else if fHashSingle nHashType then S nIn else length (vout txTo))%nat) ++
  concat (map (SerializeOutput txTo nIn nHashType)
    (seq 0 (if fHashNone nHashType then 0 else if fHashSingle nHashType then S nIn else length (vout txTo)))) =
  Serialize_vector Serialize_CTxOut (vout (signature_tx scriptCode txTo nIn nHashType)).
Proof.
  intros Hs. unfold signature_tx, Serialize_vector. cbn [vout]. destruct (fHashNone nHashType); [done |].
  destruct (fHashSingle nHashType) eqn:Hsingle; cbn [andb] in Hs.
  - apply Nat.leb_gt in Hs. rewrite signature_vout by done. unfold Zlen.
    rewrite length_app, length_replicate, length_take, length_drop. f_equal. f_equal. lia.
  - f_equal. f_equal. rewrite <- (imap_const Serialize_CTxOut), <- (map_seq_imap _ CTxOut_null).
    apply map_ext. intros i. unfold SerializeOutput. by rewrite Hsingle.
Qed.

Lemma SignatureSerialize_spec scriptCode txTo nIn nHashType :
  (nIn < length (vin txTo))%nat -> decodes scriptCode ->
  fHashSingle nHashType && (length (vout txTo) <=? nIn)%nat = false ->
  SignatureSerialize txTo scriptCode nIn nHashType =
  SerializeTransaction SERIALIZE_TRANSACTION_NO_WITNESS (signature_tx scriptCode txTo nIn nHashType).
Proof.
  intros Hin Hdec Hs. unfold SignatureSerialize, SerializeTransaction.
  change (allow_witness SERIALIZE_TRANSACTION_NO_WITNESS) with false. cbn [andb Z.eqb negb].
  change (flag 0 1) with false. cbn [app]. f_equal.
  rewrite <- signature_vin by done. rewrite <- signature_outputs by exact Hs. cbv zeta. by rewrite <- !app_assoc.
Qed.

(** C20. The legacy signature hash: serializing in place, with two passes over the
    script, gives the digest of the copied and blanked out transaction, for every
    hash type, every input in range and every script that decodes. When the hash type
    has the fork id bit and the flags enable it the string ["ub"] follows the hash
    type; for a hash type without the bit the result is that of the original
    implementation kept in the unit tests, which the tests expect of every hash type. *)
Theorem SignatureHash_legacy scriptCode txTo nIn nHashType amount cache flags :
  (nIn < length (vin txTo))%nat -> decodes scriptCode ->
  SignatureHash scriptCode txTo nIn nHashType amount SIGVERSION_BASE cache flags =
    Ret (if fHashSingle nHashType && (length (vout txTo) <=? nIn)%nat then uint256_one
         else SerializeHash ([SerializeTransaction SERIALIZE_TRANSACTION_NO_WITNESS (signature_tx scriptCode txTo nIn nHashType);
                              ser_writedata32 nHashType] ++ fork_suffix nHashType flags)) /\
  (flag nHashType SIGHASH_FORKID = false ->
   SignatureHash scriptCode txTo nIn nHashType amount SIGVERSION_BASE cache flags =
     Ret (SignatureHashOld scriptCode txTo nIn nHashType)).
Proof.
  intros Hin Hdec. unfold SignatureHash, SignatureHashOld. rewrite (proj2 (Nat.ltb_lt _ _) Hin), (proj2 (Nat.leb_gt _ _) Hin).
  cbn [cassert obind]. rewrite bool_decide_eq_false_2 by done.
  destruct (fHashSingle nHashType && (length (vout txTo) <=? nIn)%nat) eqn:Hs; [done |].
  rewrite SignatureSerialize_spec by done. split; [done |]. intros Hf. unfold fork_suffix. by rewrite Hf.
Qed.

Lemma SignatureHash_legacy_witness :
  SignatureHash [OP_DUP; OP_CODESEPARATOR; OP_CHECKSIG] sample_tx 0 SIGHASH_ALL 5000 SIGVERSION_BASE None 0 =
    Ret (SignatureHashOld [OP_DUP; OP_CODESEPARATOR; OP_CHECKSIG] sample_tx 0 SIGHASH_ALL).
Proof.
  apply (SignatureHash_legacy [OP_DUP; OP_CODESEPARATOR; OP_CHECKSIG] sample_tx 0 SIGHASH_ALL 5000 None 0).
  - apply Nat.ltb_lt. reflexivity.
  - exists 3%nat. eexists. reflexivity.
  - reflexivity.
Defined.

(** The digests cached for a transaction are those computed without a cache: a
    signature hash does not depend on whether the precomputed data of the same
    transaction is used. *)
Theorem SignatureHash_cache scriptCode txTo nIn nHashType amount sigversion flags :
  SignatureHash scriptCode txTo nIn nHashType amount sigversion (Some (precompute txTo)) flags =
  SignatureHash scriptCode txTo nIn nHashType amount sigversion None flags.
Proof.
  unfold SignatureHash, WitnessHash, cached, precompute. by destruct (HasWitness txTo).
Qed.

(** The three readings of a hash type decide what is serialized. *)
Lemma SignatureSerialize_ext txTo scriptCode nIn t1 t2 :
  fAnyoneCanPay t1 = fAnyoneCanPay t2 -> fHashSingle t1 = fHashSingle t2 -> fHashNone t1 = fHashNone t2 ->
  SignatureSerialize txTo scriptCode nIn t1 = SignatureSerialize txTo scriptCode nIn t2.
Proof.
  intros Ha Hs Hn. unfold SignatureSerialize. rewrite Ha, Hs, Hn. do 3 f_equal.
  - f_equal. apply map_ext. intros i. unfold SerializeInput. by rewrite Ha, Hs, Hn.
  - do 3 f_equal. apply map_ext. intros i. unfold SerializeOutput. by rewrite Hs.
Qed.

Definition forkid_base (t : Z) : Z := Z.lor SIGHASH_ALL (Z.land t SIGHASH_ANYONECANPAY).

Lemma forkid_types (t : Z) :
  0 <= t < 256 -> flag t SIGHASH_FORKID = true ->
  fHashSingle t = false /\ fHashNone t = false /\ fAnyoneCanPay t = fAnyoneCanPay (forkid_base t) /\
  fHashSingle (forkid_base t) = false /\ fHashNone (forkid_base t) = false.
Proof.
  assert (H : Forall (fun t => negb (flag t SIGHASH_FORKID) ||
    (negb (fHashSingle t) && negb (fHashNone t) && eqb (fAnyoneCanPay t) (fAnyoneCanPay (forkid_base t)) &&
     negb (fHashSingle (forkid_base t)) && negb (fHashNone (forkid_base t))) = true) (seqZ 0 256)).
  { apply List.Forall_forall, List.forallb_forall. vm_compute. reflexivity. }
  intros Ht Hf. rewrite Forall_forall in H. specialize (H t ltac:(apply list_elem_of_In, elem_of_seqZ; lia)). cbv beta in H.
  rewrite Hf in H. cbn [negb orb] in H. bool_to_prop. by repeat (split; [first [done | by apply eqb_prop] |]).
Qed.

(** With the fork id bit in the hash type neither [SIGHASH_SINGLE] nor
    [SIGHASH_NONE] is recognised, because the bit lies inside the mask that selects
    the base type: such a signature covers every output and every sequence number,
    as with [SIGHASH_ALL]. *)
Theorem SignatureHash_forkid_all txTo scriptCode nIn nHashType :
  0 <= nHashType < 256 -> flag nHashType SIGHASH_FORKID = true ->
  fHashSingle nHashType = false /\ fHashNone nHashType = false /\
  SignatureSerialize txTo scriptCode nIn nHashType = SignatureSerialize txTo scriptCode nIn (forkid_base nHashType).
Proof.
  intros Ht Hf. destruct (forkid_types _ Ht Hf) as (Hs & Hn & Ha & Hs' & Hn').
  split; [done |]. split; [done |]. apply SignatureSerialize_ext; congruence.
Qed.

Lemma SignatureHash_forkid_all_witness :
  fHashSingle (Z.lor SIGHASH_SINGLE SIGHASH_FORKID) = false.
Proof.
  apply (SignatureHash_forkid_all sample_tx [] 0 (Z.lor SIGHASH_SINGLE SIGHASH_FORKID)).
  - split; [discriminate | reflexivity].
  - reflexivity.
Defined.
