(* ===== verification/Standard.v ===== *)
(** * Standard scripts and destinations

    [src/script/standard.h] and [standard.cpp]: recognising the standard output scripts,
    the contract templates included, and the scripts of addresses. *)

From Stdlib Require Import ZArith List Bool.
From stdpp Require Import base list.
From S2P Require Import Prelude Common Opcodes ScriptNum Script Sha256 Hash Transaction SigHash.

Open Scope Z_scope.
Open Scope outcome_scope.

Inductive txnouttype :=
  | TX_NONSTANDARD | TX_PUBKEY | TX_PUBKEYHASH | TX_SCRIPTHASH | TX_MULTISIG | TX_NULL_DATA
  | TX_WITNESS_V0_SCRIPTHASH | TX_WITNESS_V0_KEYHASH | TX_WITNESS_UNKNOWN
  | TX_CREATE_NATIVE | TX_CREATE | TX_UPGRADE | TX_CALL | TX_DEPOSIT_TO_CONTRACT | TX_SPEND | TX_ROOT_STATE_HASH.

#[export] Instance txnouttype_eq_dec : EqDecision txnouttype.
Proof. solve_decision. Defined.

Definition CONTRACT_MAJOR_VERSION : Z := 1.

Definition DEFAULT_BLOCK_GAS_LIMIT : Z := 40000000.

(** The map is visited in the order of the types. *)
Definition mTemplates : list (txnouttype * list Z) := [
  (TX_PUBKEY, [OP_PUBKEY; OP_CHECKSIG]);
  (TX_PUBKEYHASH, [OP_DUP; OP_HASH160; OP_PUBKEYHASH; OP_EQUALVERIFY; OP_CHECKSIG]);
  (TX_MULTISIG, [OP_SMALLINTEGER; OP_PUBKEYS; OP_SMALLINTEGER; OP_CHECKMULTISIG]);
  (TX_CREATE_NATIVE, [OP_VERSION; OP_DATA; OP_DATA; OP_GAS_LIMIT; OP_GAS_PRICE; OP_CREATE_NATIVE]);
  (TX_CREATE, [OP_VERSION; OP_DATA; OP_DATA; OP_GAS_LIMIT; OP_GAS_PRICE; OP_CREATE]);
  (TX_UPGRADE, [OP_VERSION; OP_DATA; OP_DATA; OP_DATA; OP_DATA; OP_GAS_LIMIT; OP_GAS_PRICE; OP_UPGRADE]);
  (TX_CALL, [OP_VERSION; OP_DATA; OP_DATA; OP_DATA; OP_DATA; OP_GAS_LIMIT; OP_GAS_PRICE; OP_CALL]);
  (TX_DEPOSIT_TO_CONTRACT, [OP_VERSION; OP_DATA; OP_DATA; OP_DATA; OP_DATA; OP_GAS_LIMIT; OP_GAS_PRICE; OP_DEPOSIT_TO_CONTRACT]);
  (TX_SPEND, [OP_DATA; OP_DATA; OP_SPEND]);
  (TX_ROOT_STATE_HASH, [OP_DATA; OP_ROOT_STATE_HASH])].

Definition is_push_size (n lo hi : Z) : bool := (lo <=? n) && (n <=? hi).

(** The keys from the instruction read as [r] on, and the first instruction that is not
    a key. *)
Fixpoint take_pubkeys (fuel : nat) (r : getop) (vSolutions : list (list Z)) : getop * list (list Z) :=
  if is_push_size (Zlen (go_vch r)) 33 65 then
    let vSolutions := vSolutions ++ [go_vch r] in
    match fuel with
    | O => (r, vSolutions)
    | S fuel =>
      let r := GetOp2 (go_pc r) in
      if go_ret r then take_pubkeys fuel r vSolutions else (r, vSolutions)
    end
  else (r, vSolutions).

(** [CScriptNum(val).getvch()] of an unsigned operand, [None] when it throws. *)
Definition unsigned_operand (vch : list Z) : option Z :=
  match vch_to_uint64 vch with Ret v => Some v | _ => None end.

Definition last_byte (script : list Z) : Z := byte_at script (Zlen script - 1).

Section Solver.
(** The next block of the active chain is at [UBCONTRACT_Height] or above it. *)
Variable allow_contract : bool.

(** One instruction of the script against one of the template: the contract version and
    the solutions, or [None] where the loop is left. *)
Definition match_op (script1 script2 : list Z) (opcode1 : Z) (vch1 : list Z) (opcode2 : Z) (vch2 : list Z) (version : Z) (vSolutions : list (list Z)) :
    option (Z * list (list Z)) :=
  if opcode2 =? OP_PUBKEY then
    if (Zlen vch1 <? 33) || (Zlen vch1 >? 65) then None else Some (version, vSolutions ++ [vch1])
  else if opcode2 =? OP_PUBKEYHASH then
    if negb (Zlen vch1 =? 20) then None else Some (version, vSolutions ++ [vch1])
  else if opcode2 =? OP_SMALLINTEGER then
    if (opcode1 =? OP_0) || ((opcode1 >=? OP_1) && (opcode1 <=? OP_16)) then Some (version, vSolutions ++ [[OP_N_value opcode1]]) else None
  else if allow_contract then
    if opcode2 =? OP_VERSION then
      if (Zlen vch1 =? 0) || (Zlen vch1 >? 4) then None
      else match unsigned_operand vch1 with
           | None => None
           | Some v =>
             if negb (uint32 v =? CONTRACT_MAJOR_VERSION) then None else Some (uint32 v, vSolutions ++ [getvch (int64 (uint32 v))])
           end
    else if opcode2 =? OP_GAS_LIMIT then
      match unsigned_operand vch1 with
      | None => None
      | Some val =>
        if val >? DEFAULT_BLOCK_GAS_LIMIT then None
        else if negb (version =? CONTRACT_MAJOR_VERSION) then None else Some (version, vSolutions ++ [getvch (int64 val)])
      end
    else if opcode2 =? OP_GAS_PRICE then
      match unsigned_operand vch1 with
      | None => None
      | Some val => if negb (version =? CONTRACT_MAJOR_VERSION) then None else Some (version, vSolutions ++ [getvch (int64 val)])
      end
    else if opcode2 =? OP_DATA then
      if (Zlen script2 =? 2) && (byte_at script2 1 =? OP_ROOT_STATE_HASH) && (Zlen script1 >=? 2) && (last_byte script1 =? OP_ROOT_STATE_HASH) then
        Some (version, vSolutions ++ [vch1])
      else if (0 <=? opcode1) && (opcode1 <=? OP_PUSHDATA4) then
        if Zlen vch1 =? 0 then None else Some (version, vSolutions ++ [vch1])
      else Some (version, vSolutions)
    else if negb (opcode1 =? opcode2) || negb (bool_decide (vch1 = vch2)) then None else Some (version, vSolutions)
  else if negb (opcode1 =? opcode2) || negb (bool_decide (vch1 = vch2)) then None else Some (version, vSolutions).

(** The comparison with one template; every round reads an instruction of it. *)
Fixpoint match_template (fuel : nat) (script1 script2 pc1 pc2 : list Z) (version : Z) (vSolutions : list (list Z)) : option (list (list Z)) :=
  match pc1, pc2, fuel with
  | [], [], _ => Some vSolutions
  | _, _, O => None
  | _, _, S fuel =>
    let r1 := GetOp2 pc1 in
    if negb (go_ret r1) then None
    else
      let r2 := GetOp2 pc2 in
      if negb (go_ret r2) then None
      else
        let '(r1, vSolutions) := if go_opcode r2 =? OP_PUBKEYS then take_pubkeys (length script1) r1 vSolutions else (r1, vSolutions) in
        let r2' := if go_opcode r2 =? OP_PUBKEYS then GetOp2 (go_pc r2) else r2 in
        if negb (go_ret r2') then None
        else
          match match_op script1 script2 (go_opcode r1) (go_vch r1) (go_opcode r2') (go_vch r2') version vSolutions with
          | None => None
          | Some (version, vSolutions) => match_template fuel script1 script2 (go_pc r1) (go_pc r2') version vSolutions
          end
  end.

(** The first template that matches. *)
Fixpoint scan_templates (script1 : list Z) (l : list (txnouttype * list Z)) : bool * option txnouttype * list (list Z) :=
  match l with
  | [] => (false, Some TX_NONSTANDARD, [])
  | (t, script2) :: l =>
    match match_template (length script2 + 1) script1 script2 script1 script2 0 [] with
    | None => scan_templates script1 l
    | Some vSolutions =>
      if bool_decide (t = TX_MULTISIG) then
        let m := byte_at (default [] (head vSolutions)) 0 in
        let n := byte_at (default [] (list.last vSolutions)) 0 in
        if (m <? 1) || (n <? 1) || (m >? n) || negb (Zlen vSolutions - 2 =? n) then (false, Some t, vSolutions) else (true, Some t, vSolutions)
      else (true, Some t, vSolutions)
    end
  end.

(** The result, the type, [None] when it is left as it was, and the solutions. *)
Definition Solver (scriptPubKey : list Z) : bool * option txnouttype * list (list Z) :=
  if IsPayToScriptHash scriptPubKey then (true, Some TX_SCRIPTHASH, [take 20 (drop 2 scriptPubKey)])
  else
    match IsWitnessProgram scriptPubKey with
    | Some (witnessversion, witnessprogram) =>
      if (witnessversion =? 0) && (Zlen witnessprogram =? 20) then (true, Some TX_WITNESS_V0_KEYHASH, [witnessprogram])
      else if (witnessversion =? 0) && (Zlen witnessprogram =? 32) then (true, Some TX_WITNESS_V0_SCRIPTHASH, [witnessprogram])
      else if negb (witnessversion =? 0) then (true, Some TX_WITNESS_UNKNOWN, [[uint8 witnessversion]; witnessprogram])
      else (false, None, [])
    | None =>
      if (Zlen scriptPubKey >=? 1) && (byte_at scriptPubKey 0 =? OP_RETURN) && IsPushOnly (drop 1 scriptPubKey) then (true, Some TX_NULL_DATA, [])
      else if allow_contract && (Zlen scriptPubKey >=? 2) && (last_byte scriptPubKey =? OP_ROOT_STATE_HASH) && go_ret (GetOp2 scriptPubKey) then
        (true, Some TX_ROOT_STATE_HASH, [go_vch (GetOp2 scriptPubKey)])
      else scan_templates scriptPubKey mTemplates
    end.

(** ** Destinations *)

Inductive CTxDestination :=
  | CNoDestination
  | CKeyID (hash : list Z)
  | CScriptID (hash : list Z)
  | WitnessV0ScriptHash (hash : list Z)
  | WitnessV0KeyHash (hash : list Z)
  | WitnessUnknown (version : Z) (program : list Z).

Definition IsValidDestination (d : CTxDestination) : bool := match d with CNoDestination => false | _ => true end.

Definition pubkey_GetID (pubkey : list Z) : list Z := Hash160 pubkey.

(** [None] when it returns false. *)
Definition ExtractDestination (scriptPubKey : list Z) : option CTxDestination :=
  match Solver scriptPubKey with
  | (true, Some t, vSolutions) =>
    let first := default [] (head vSolutions) in
    match t with
    | TX_PUBKEY => if negb (CPubKey_IsValid (CPubKey first)) then None else Some (CKeyID (pubkey_GetID (CPubKey first)))
    | TX_PUBKEYHASH => Some (CKeyID first)
    | TX_SCRIPTHASH => Some (CScriptID first)
    | TX_WITNESS_V0_KEYHASH => Some (WitnessV0KeyHash first)
    | TX_WITNESS_V0_SCRIPTHASH => Some (WitnessV0ScriptHash first)
    | TX_WITNESS_UNKNOWN => Some (WitnessUnknown (byte_at first 0) (default [] (vSolutions !! 1%nat)))
    | _ => None
    end
  | _ => None
  end.

(** The addresses of the keys of a multisignature script. *)
Definition key_addresses (keys : list (list Z)) : list CTxDestination :=
  omap (fun k => if CPubKey_IsValid (CPubKey k) then Some (CKeyID (pubkey_GetID (CPubKey k))) else None) keys.

(** The type, the addresses and the number of signatures, or [None]. *)
Definition ExtractDestinations (scriptPubKey : list Z) : option (txnouttype * list CTxDestination * Z) :=
  match Solver scriptPubKey with
  | (true, Some t, vSolutions) =>
    match t with
    | TX_NULL_DATA => None
    | TX_MULTISIG =>
      let addresses := key_addresses (take (length vSolutions - 2) (drop 1 vSolutions)) in
      if bool_decide (addresses = []) then None else Some (t, addresses, byte_at (default [] (head vSolutions)) 0)
    | _ => match ExtractDestination scriptPubKey with Some address => Some (t, [address], 1) | None => None end
    end
  | _ => None
  end.

Definition GetScriptForDestination (d : CTxDestination) : outcome (list Z) :=
  match d with
  | CNoDestination => Ret []
  | CKeyID h => build [] [IOpcode OP_DUP; IOpcode OP_HASH160; IData h; IOpcode OP_EQUALVERIFY; IOpcode OP_CHECKSIG]
  | CScriptID h => build [] [IOpcode OP_HASH160; IData h; IOpcode OP_EQUAL]
  | WitnessV0KeyHash h => build [] [IOpcode OP_0; IData h]
  | WitnessV0ScriptHash h => build [] [IOpcode OP_0; IData h]
  | WitnessUnknown version program => let? op := EncodeOP_N version in build [] [IOpcode op; IData program]
  end.

Definition GetScriptForRawPubKey (pubkey : list Z) : outcome (list Z) := build [] [IData pubkey; IOpcode OP_CHECKSIG].

Definition GetScriptForMultisig (nRequired : Z) (keys : list (list Z)) : outcome (list Z) :=
  let? m := EncodeOP_N nRequired in
  let? n := EncodeOP_N (Zlen keys) in
  build [] ([IOpcode m] ++ map IData keys ++ [IOpcode n; IOpcode OP_CHECKMULTISIG]).

Definition GetScriptForWitness (redeemscript : list Z) : outcome (list Z) :=
  match Solver redeemscript with
  | (true, Some TX_PUBKEY, vSolutions) => GetScriptForDestination (WitnessV0KeyHash (Hash160 (default [] (head vSolutions))))
  | (true, Some TX_PUBKEYHASH, vSolutions) => GetScriptForDestination (WitnessV0KeyHash (default [] (head vSolutions)))
  | _ => GetScriptForDestination (WitnessV0ScriptHash (Sha256.Finalize (Sha256.Write CSHA256 redeemscript)))
  end.
End Solver.
