(* ===== verification/StandardProps.v ===== *)
(** * Addresses and their scripts

    The scripts of [GetScriptForDestination] and [GetScriptForMultisig] are recognised as
    what they are, and a script recognised as paying a key has the instructions that make
    that key necessary. *)

From Stdlib Require Import ZArith List Bool Lia.
From stdpp Require Import base list.
From S2P Require Import Prelude Common Opcodes ScriptNum Script Sha256 Hash Transaction SigHash Standard.

Open Scope Z_scope.
Open Scope outcome_scope.

(** ** Reading a script *)

Inductive reads : list Z -> list (Z * list Z) -> Prop :=
  | reads_nil : reads [] []
  | reads_cons pc o v rest ops : GetOp2 pc = GetOpResult true o v rest -> reads rest ops -> reads pc ((o, v) :: ops).

Lemma reads_GetOps pc ops : reads pc ops -> forall fuel, (length pc <= fuel)%nat -> GetOps fuel pc = Some ops.
Proof.
  induction 1 as [| pc o v rest ops Hop _ IH]; intros fuel Hf; [by destruct fuel |].
  destruct pc as [| x pc]; [done |]. destruct fuel as [| fuel]; [cbn in Hf; lia |]. cbn [GetOps]. rewrite Hop. cbn [go_ret go_opcode go_vch go_pc].
  pose proof (GetOp2_length (x :: pc)) as Hlen. rewrite Hop in Hlen. cbn [go_ret go_pc length] in Hlen, Hf. specialize (Hlen eq_refl). by rewrite IH by lia.
Qed.

Lemma push_small b : Zlen b < OP_PUSHDATA1 -> push_data [] b = Zlen b :: b.
Proof. intros Hb. unfold push_data. rewrite (proj2 (Z.ltb_lt _ _) Hb). unfold OP_PUSHDATA1 in Hb. pose proof (Zlen_nonneg b). cbn. by rewrite uint8_id by lia. Qed.

Lemma GetOp2_small b rest : Zlen b < OP_PUSHDATA1 -> Zlen b + Zlen rest < 2 ^ 32 -> GetOp2 (Zlen b :: b ++ rest) = GetOpResult true (Zlen b) b rest.
Proof.
  intros Hb Hl. change (Zlen b :: b ++ rest) with ((Zlen b :: b) ++ rest). rewrite <- push_small by done. rewrite GetOp2_push_data by lia.
  unfold push_op. by rewrite (proj2 (Z.ltb_lt _ _) Hb).
Qed.

(** ** Matching a template *)

(** Side conditions on a given opcode. *)
Ltac concrete_opcode := first [split; [reflexivity | discriminate] | apply (bool_decide_unpack _); vm_compute; exact I].

Section Match.
Variable allow_contract : bool.
Abbreviation match_op := (match_op allow_contract).
Abbreviation match_template := (match_template allow_contract).

Definition plain (op : Z) : Prop := OP_PUSHDATA4 < op /\ op <> OP_PUBKEYS.

Lemma match_step fuel s1 s2 pc1 op rest version sols o v rest1 : plain op -> GetOp2 pc1 = GetOpResult true o v rest1 ->
  match_template (S fuel) s1 s2 pc1 (op :: rest) version sols =
  match match_op s1 s2 o v op [] version sols with None => None | Some (version, sols) => match_template fuel s1 s2 rest1 rest version sols end.
Proof.
  intros [Hop Hne] H1. cbn [Standard.match_template]. rewrite H1, (GetOp2_above op rest Hop). cbn [go_ret go_opcode go_vch go_pc negb].
  rewrite (proj2 (Z.eqb_neq _ _) Hne). cbn [go_ret go_opcode go_vch go_pc negb]. by destruct pc1.
Qed.

Lemma match_pubkeys fuel s1 s2 pc1 op rest version sols r1 o v rest1 sols' : OP_PUSHDATA4 < op -> GetOp2 pc1 = r1 -> go_ret r1 = true ->
  take_pubkeys (length s1) r1 sols = (GetOpResult true o v rest1, sols') ->
  match_template (S fuel) s1 s2 pc1 (OP_PUBKEYS :: op :: rest) version sols =
  match match_op s1 s2 o v op [] version sols' with None => None | Some (version, sols) => match_template fuel s1 s2 rest1 rest version sols end.
Proof.
  intros Hop H1 Hr Ht. cbn [Standard.match_template]. rewrite H1, Hr, (GetOp2_above OP_PUBKEYS) by done. cbn [go_ret go_opcode go_vch go_pc negb].
  rewrite Z.eqb_refl, Ht, (GetOp2_above op rest Hop). cbn [go_ret go_opcode go_vch go_pc negb]. by destruct pc1.
Qed.

Lemma match_step_inv fuel s1 s2 pc1 op rest version sols r : plain op ->
  match_template (S fuel) s1 s2 pc1 (op :: rest) version sols = Some r ->
  exists o v rest1 version' sols', GetOp2 pc1 = GetOpResult true o v rest1 /\ match_op s1 s2 o v op [] version sols = Some (version', sols') /\
    match_template fuel s1 s2 rest1 rest version' sols' = Some r.
Proof.
  intros Hop. destruct (go_ret (GetOp2 pc1)) eqn:E.
  - destruct (GetOp2 pc1) as [b o v rest1] eqn:E1. cbn in E. subst b. rewrite (match_step fuel s1 s2 pc1 op rest version sols o v rest1 Hop E1).
    destruct (match_op _ _ _ _ _ _ _ _) as [[version' sols'] |] eqn:Em; [| done]. intros Hr. by exists o, v, rest1, version', sols'.
  - cbn [Standard.match_template]. rewrite E. by destruct pc1.
Qed.

Lemma match_end_inv fuel s1 s2 pc1 version sols r : match_template fuel s1 s2 pc1 [] version sols = Some r -> pc1 = [] /\ r = sols.
Proof.
  destruct pc1 as [| x pc1]; [destruct fuel; by intros [= <-] |]. destruct fuel as [| fuel]; [done |]. cbn [Standard.match_template].
  destruct (negb (go_ret (GetOp2 (x :: pc1)))); done.
Qed.

Lemma match_op_exact s1 s2 o v op version sols : plain op -> op ∉ [OP_PUBKEY; OP_PUBKEYHASH; OP_SMALLINTEGER; OP_VERSION; OP_GAS_LIMIT; OP_GAS_PRICE; OP_DATA] ->
  match_op s1 s2 o v op [] version sols = if bool_decide (o = op /\ v = []) then Some (version, sols) else None.
Proof.
  intros _ Hop. repeat (apply not_elem_of_cons in Hop as [? Hop]). unfold Standard.match_op.
  repeat rewrite (proj2 (Z.eqb_neq op _)) by done.
  destruct allow_contract, (o =? op) eqn:E; bool_to_prop; cbn [negb orb]; repeat case_bool_decide; cbn [negb]; tauto.
Qed.

(** What the two templates of a key say of a script. *)
Lemma template_pubkey_sound s sols : match_template 3 s [OP_PUBKEY; OP_CHECKSIG] s [OP_PUBKEY; OP_CHECKSIG] 0 [] = Some sols ->
  exists o key, reads s [(o, key); (OP_CHECKSIG, [])] /\ 33 <= Zlen key <= 65 /\ sols = [key].
Proof.
  intros (o & key & r1 & ver & l1 & G1 & M1 & H)%match_step_inv; [| concrete_opcode].
  apply match_step_inv in H as (o2 & v2 & r2 & ver2 & l2 & G2 & M2 & [-> ->]%match_end_inv); [| concrete_opcode].
  rewrite match_op_exact in M2 by concrete_opcode. case_bool_decide as E2; [| done]. destruct E2 as [-> ->]. simplify_eq.
  cbn [Standard.match_op Z.eqb OP_PUBKEY Pos.eqb] in M1. destruct (_ || _) eqn:El; [done |]. simplify_eq. apply orb_false_iff in El as [L1 L2]. bool_to_prop.
  exists o, key. split; [| split; [lia | done]]. eapply reads_cons; [done |]. eapply reads_cons; [done | constructor].
Qed.

Definition p2pkh_template : list Z := [OP_DUP; OP_HASH160; OP_PUBKEYHASH; OP_EQUALVERIFY; OP_CHECKSIG].

Lemma template_pubkeyhash_sound s sols : match_template 6 s p2pkh_template s p2pkh_template 0 [] = Some sols ->
  exists o h, reads s [(OP_DUP, []); (OP_HASH160, []); (o, h); (OP_EQUALVERIFY, []); (OP_CHECKSIG, [])] /\ Zlen h = 20 /\ sols = [h].
Proof.
  intros (o1 & v1 & r1 & ver1 & l1 & G1 & M1 & H)%match_step_inv; [| concrete_opcode].
  apply match_step_inv in H as (o2 & v2 & r2 & ver2 & l2 & G2 & M2 & H); [| concrete_opcode].
  apply match_step_inv in H as (o & h & r3 & ver3 & l3 & G3 & M3 & H); [| concrete_opcode].
  apply match_step_inv in H as (o4 & v4 & r4 & ver4 & l4 & G4 & M4 & H); [| concrete_opcode].
  apply match_step_inv in H as (o5 & v5 & r5 & ver5 & l5 & G5 & M5 & [-> ->]%match_end_inv); [| concrete_opcode].
  rewrite match_op_exact in M1, M2, M4, M5 by concrete_opcode. repeat (case_bool_decide; [| done]). destruct_and!. simplify_eq.
  cbn [Standard.match_op Z.eqb OP_PUBKEYHASH OP_PUBKEY Pos.eqb] in M3. destruct (Zlen h =? 20) eqn:El; [| done]. bool_to_prop. cbn in M3. simplify_eq.
  exists o, h. split; [| by split]. repeat (eapply reads_cons; [done |]). constructor.
Qed.

Lemma scan_templates_sound s l t sols : scan_templates allow_contract s l = (true, Some t, sols) ->
  exists script2, In (t, script2) l /\ match_template (length script2 + 1) s script2 s script2 0 [] = Some sols.
Proof.
  induction l as [| [t' script2] l IH]; cbn [scan_templates]; [done |]. destruct (match_template _ _ _ _ _ _ _) as [sols' |] eqn:E.
  - intros H. exists script2. destruct (bool_decide _); [destruct (_ || _) in H; [done |] |]; simplify_eq; (split; [by left | done]).
  - intros H. destruct (IH H) as (s2 & Hin & Hm). exists s2. split; [by right | done].
Qed.
End Match.

Lemma Solver_template allow s t sols : Solver allow s = (true, Some t, sols) -> t = TX_PUBKEY \/ t = TX_PUBKEYHASH ->
  scan_templates allow s mTemplates = (true, Some t, sols).
Proof. unfold Solver. intros H Ht. repeat case_match; simplify_eq; by destruct Ht. Qed.

(** ** The scripts of destinations *)

Definition destination_ok (d : CTxDestination) : Prop :=
  match d with
  | CNoDestination => False
  | CKeyID h | CScriptID h | WitnessV0KeyHash h => Zlen h = 20
  | WitnessV0ScriptHash h => Zlen h = 32
  | WitnessUnknown version program => 1 <= version <= 16 /\ 2 <= Zlen program <= 40
  end.

Lemma last_byte_snoc l x : last_byte (l ++ [x]) = x.
Proof.
  unfold last_byte, byte_at. rewrite Zlen_app. unfold Zlen. cbn [length]. rewrite lookup_app_r by lia.
  by replace (Z.to_nat (Z.of_nat (length l) + Z.of_nat 1 - 1) - length l)%nat with 0%nat by lia.
Qed.

Section Roundtrip.
Variable allow_contract : bool.

Lemma Solver_pubkeyhash h : Zlen h = 20 -> let s := OP_DUP :: OP_HASH160 :: 20 :: h ++ [OP_EQUALVERIFY; OP_CHECKSIG] in
  Solver allow_contract s = (true, Some TX_PUBKEYHASH, [h]).
Proof.
  intros Hh s. assert (Hs : Zlen s = 25) by (unfold s; rewrite !Zlen_cons, Zlen_app, Hh; done).
  assert (Hl : last_byte s = OP_CHECKSIG).
  { unfold s. change (OP_DUP :: OP_HASH160 :: 20 :: h ++ [OP_EQUALVERIFY; OP_CHECKSIG]) with ([OP_DUP; OP_HASH160; 20] ++ h ++ [OP_EQUALVERIFY; OP_CHECKSIG]).
    change [OP_EQUALVERIFY; OP_CHECKSIG] with ([OP_EQUALVERIFY] ++ [OP_CHECKSIG]). rewrite !app_assoc. apply last_byte_snoc. }
  assert (G : GetOp2 (20 :: h ++ [OP_EQUALVERIFY; OP_CHECKSIG]) = GetOpResult true 20 h [OP_EQUALVERIFY; OP_CHECKSIG]).
  { rewrite <- Hh. apply GetOp2_small; rewrite Hh; done. }
  unfold Solver. replace (IsPayToScriptHash s) with false by (unfold IsPayToScriptHash; by rewrite Hs). replace (IsWitnessProgram s) with (@None (Z * list Z)) by (unfold IsWitnessProgram; by rewrite Hs).
  rewrite Hl, Hs. change (byte_at s 0 =? OP_RETURN) with false. rewrite andb_false_r. cbn [andb]. change (OP_CHECKSIG =? OP_ROOT_STATE_HASH) with false. rewrite andb_false_r. cbn [andb].
  change mTemplates with ((TX_PUBKEY, [OP_PUBKEY; OP_CHECKSIG]) :: (TX_PUBKEYHASH, p2pkh_template) :: drop 2 mTemplates). cbn [scan_templates length Nat.add].
  rewrite (match_step allow_contract _ s _ s _ _ _ _ OP_DUP [] (drop 1 s)) by (reflexivity || concrete_opcode). cbn [match_op Z.eqb OP_PUBKEY Pos.eqb]. change ((Zlen (@nil Z) <? 33) || _) with true. cbv iota.
  unfold p2pkh_template. cbn [length Nat.add].
  rewrite (match_step allow_contract _ s _ s _ _ _ _ OP_DUP [] (drop 1 s)) by (reflexivity || concrete_opcode). rewrite match_op_exact by concrete_opcode. rewrite bool_decide_eq_true_2 by done.
  rewrite (match_step allow_contract _ s _ (drop 1 s) _ _ _ _ OP_HASH160 [] (drop 2 s)) by (reflexivity || concrete_opcode). rewrite match_op_exact by concrete_opcode. rewrite bool_decide_eq_true_2 by done.
  rewrite (match_step allow_contract _ s _ (drop 2 s) _ _ _ _ 20 h [OP_EQUALVERIFY; OP_CHECKSIG]) by (exact G || concrete_opcode).
  cbn [match_op Z.eqb OP_PUBKEYHASH OP_PUBKEY Pos.eqb]. rewrite Hh. cbn [Z.eqb Pos.eqb negb app].
  rewrite (match_step allow_contract _ s _ _ _ _ _ _ OP_EQUALVERIFY [] [OP_CHECKSIG]) by (reflexivity || concrete_opcode). rewrite match_op_exact by concrete_opcode. rewrite bool_decide_eq_true_2 by done.
  rewrite (match_step allow_contract _ s _ _ _ _ _ _ OP_CHECKSIG [] []) by (reflexivity || concrete_opcode). rewrite match_op_exact by concrete_opcode. rewrite bool_decide_eq_true_2 by done. done.
Qed.
(** A witness program as it is written by a destination. *)
Lemma Solver_witness op p : 2 <= Zlen p <= 40 -> op = OP_0 \/ OP_1 <= op <= OP_16 ->
  Solver allow_contract (op :: Zlen p :: p) =
    if (OP_N_value op =? 0) && (Zlen p =? 20) then (true, Some TX_WITNESS_V0_KEYHASH, [p])
    else if (OP_N_value op =? 0) && (Zlen p =? 32) then (true, Some TX_WITNESS_V0_SCRIPTHASH, [p])
    else if negb (OP_N_value op =? 0) then (true, Some TX_WITNESS_UNKNOWN, [[uint8 (OP_N_value op)]; p])
    else (false, None, []).
Proof.
  intros Hp Hop. set (s := op :: Zlen p :: p). assert (Hs : Zlen s = Zlen p + 2) by (unfold s; rewrite !Zlen_cons; lia).
  assert (H0 : byte_at s 0 = op) by done. unfold Solver.
  replace (IsPayToScriptHash s) with false.
  - replace (IsWitnessProgram s) with (Some (OP_N_value op, p)); [done |]. unfold IsWitnessProgram. rewrite Hs, H0. change (byte_at s 1) with (Zlen p). change (drop 2 s) with p.
    rewrite (proj2 (Z.ltb_ge _ _)), Z.gtb_ltb, (proj2 (Z.ltb_ge _ _)), Z.eqb_refl by lia. cbn [orb].
    replace (negb (op =? OP_0) && _) with false; [done |]. unfold OP_0, OP_1, OP_16 in *. lia.
  - symmetry. unfold IsPayToScriptHash. rewrite H0. replace (op =? OP_HASH160) with false; [by rewrite andb_false_r |].
    unfold OP_0, OP_1, OP_16, OP_HASH160 in *. lia.
Qed.

Lemma ExtractDestination_script d : destination_ok d -> exists s, GetScriptForDestination d = Ret s /\ ExtractDestination allow_contract s = Some d.
Proof.
  assert (Hsmall : forall l : list Z, Zlen l <= 40 -> Zlen l < OP_PUSHDATA1) by (unfold OP_PUSHDATA1; lia).
  destruct d as [| h | h | h | h | v p]; cbn [destination_ok]; [done | intros Hd .. |].
  - exists (OP_DUP :: OP_HASH160 :: 20 :: h ++ [OP_EQUALVERIFY; OP_CHECKSIG]). split.
    + cbn [GetScriptForDestination]. rewrite build_bytes by (repeat constructor; done). cbn [map concat item_bytes app]. rewrite push_small by (apply Hsmall; lia). rewrite Hd. done.
    + unfold ExtractDestination. by rewrite Solver_pubkeyhash.
  - exists (OP_HASH160 :: 20 :: h ++ [OP_EQUAL]). split.
    + cbn [GetScriptForDestination]. rewrite build_bytes by (repeat constructor; done). cbn [map concat item_bytes app]. rewrite push_small by (apply Hsmall; lia). rewrite Hd. done.
    + unfold ExtractDestination, Solver. set (s := OP_HASH160 :: _). assert (Hp : IsPayToScriptHash s = true).
      { assert (Hlen : Zlen s = 23) by (unfold s; rewrite !Zlen_cons, Zlen_app, Hd; done).
        assert (Hlast : byte_at s 22 = OP_EQUAL).
        { unfold byte_at. change (s !! Z.to_nat 22) with ((h ++ [OP_EQUAL]) !! 20%nat). unfold Zlen in Hd. rewrite lookup_app_r by lia. by replace (20 - length h)%nat with 0%nat by lia. }
        unfold IsPayToScriptHash. by rewrite Hlen, Hlast. }
      rewrite Hp. change (drop 2 s) with (h ++ [OP_EQUAL]). unfold Zlen in Hd. rewrite take_app_le, take_ge by lia. done.
  - exists (OP_0 :: Zlen h :: h). split; [cbn [GetScriptForDestination build append_item push_opcode]; cbn; rewrite push_data_app, push_small by (apply Hsmall; lia); done |].
    unfold ExtractDestination. rewrite Solver_witness by (lia || by left). by rewrite Hd.
  - exists (OP_0 :: Zlen h :: h). split; [cbn [GetScriptForDestination build append_item push_opcode]; cbn; rewrite push_data_app, push_small by (apply Hsmall; lia); done |].
    unfold ExtractDestination. rewrite Solver_witness by (lia || by left). by rewrite Hd.
  - intros [Hv Hp]. exists ((80 + v) :: Zlen p :: p). split.
    + unfold GetScriptForDestination, EncodeOP_N. rewrite Z.geb_leb, !(proj2 (Z.leb_le _ _)), (proj2 (Z.eqb_neq _ _)) by lia. cbn [andb cassert obind].
      rewrite build_bytes by (constructor; [unfold item_ok, OP_PUSHDATA4, OP_1; lia | by repeat constructor]). cbn [map concat item_bytes app]. rewrite push_small by (apply Hsmall; lia).
      rewrite app_nil_r. unfold OP_1. do 2 f_equal. lia.
    + unfold ExtractDestination. rewrite Solver_witness by (unfold OP_1, OP_16; lia).
      assert (Hn : OP_N_value (80 + v) = v) by (unfold OP_N_value, OP_0, OP_1; rewrite (proj2 (Z.eqb_neq _ _)) by lia; lia).
      rewrite Hn, (proj2 (Z.eqb_neq _ _)) by lia. cbn [andb negb list.head default]. unfold byte_at. cbn. by rewrite uint8_id by lia.
Qed.
(** ** Multisignature scripts *)

Definition key_ok (k : list Z) : Prop := 33 <= Zlen k <= 65.

Definition pushes (keys : list (list Z)) : list Z := concat (map (push_data []) keys).

Lemma pushes_cons k keys rest : key_ok k -> Zlen (pushes (k :: keys) ++ rest) < 2 ^ 32 ->
  GetOp2 (pushes (k :: keys) ++ rest) = GetOpResult true (Zlen k) k (pushes keys ++ rest).
Proof.
  intros Hk Hlen. unfold pushes, key_ok in *. cbn [map concat] in *. rewrite push_small in * by (unfold OP_PUSHDATA1; lia). rewrite <- app_assoc in *. cbn [app] in *.
  rewrite !Zlen_cons, Zlen_app in Hlen. pose proof (Zlen_nonneg k). apply GetOp2_small; [unfold OP_PUSHDATA1; lia | lia].
Qed.

Lemma take_pubkeys_run keys : forall fuel k sols rest o v rest', Forall key_ok (k :: keys) -> (length keys < fuel)%nat ->
  Zlen (pushes keys ++ rest) < 2 ^ 32 -> GetOp2 rest = GetOpResult true o v rest' -> Zlen v < 33 ->
  take_pubkeys fuel (GetOpResult true (Zlen k) k (pushes keys ++ rest)) sols = (GetOpResult true o v rest', sols ++ k :: keys).
Proof.
  induction keys as [| k2 keys IH]; intros fuel k sols rest o v rest' Hk Hf Hlen Hrest Hv; apply list.Forall_cons in Hk as [Hk Hks].
  all: assert (Hin : is_push_size (Zlen k) 33 65 = true) by (unfold is_push_size, key_ok in *; lia).
  all: destruct fuel as [| fuel]; [cbn in Hf; lia |]; cbn [take_pubkeys go_vch go_pc]; rewrite Hin.
  - cbn [pushes map concat app]. rewrite Hrest. cbn [go_ret]. destruct fuel; cbn [take_pubkeys go_vch]; (replace (is_push_size (Zlen v) 33 65) with false; [done |]; unfold is_push_size; lia).
  - assert (Hk2 : key_ok k2) by (by inversion Hks). rewrite (pushes_cons k2 keys rest Hk2 Hlen). cbn [go_ret].
    assert (Hlen2 : Zlen (pushes keys ++ rest) < 2 ^ 32).
    { unfold pushes in *. cbn [map concat] in Hlen. rewrite <- app_assoc, Zlen_app in Hlen. pose proof (Zlen_nonneg (push_data [] k2)). lia. }
    rewrite (IH fuel k2 (sols ++ [k]) rest o v rest') by (done || (cbn in Hf; lia)).
    by rewrite <- app_assoc.
Qed.

Lemma small_integer s1 s2 n version sols : 1 <= n <= 16 -> match_op allow_contract s1 s2 (OP_1 + n - 1) [] OP_SMALLINTEGER [] version sols = Some (version, sols ++ [[n]]).
Proof.
  intros Hn. unfold match_op. change (OP_SMALLINTEGER =? OP_PUBKEY) with false. change (OP_SMALLINTEGER =? OP_PUBKEYHASH) with false. rewrite Z.eqb_refl.
  replace ((OP_1 + n - 1 =? OP_0) || _) with true by (unfold OP_0, OP_1, OP_16; lia).
  assert (E : OP_N_value (OP_1 + n - 1) = n) by (unfold OP_N_value, OP_1, OP_0; rewrite (proj2 (Z.eqb_neq _ _)) by lia; lia). by rewrite E.
Qed.

Definition multisig_template : list Z := [OP_SMALLINTEGER; OP_PUBKEYS; OP_SMALLINTEGER; OP_CHECKMULTISIG].

Lemma match_multisig m k keys n : Forall key_ok (k :: keys) -> 1 <= m <= 16 -> 1 <= n <= 16 ->
  let s := (OP_1 + m - 1) :: pushes (k :: keys) ++ [OP_1 + n - 1; OP_CHECKMULTISIG] in Zlen s < 2 ^ 32 ->
  match_template allow_contract 5 s multisig_template s multisig_template 0 [] = Some ([m] :: (k :: keys) ++ [[n]]).
Proof.
  intros Hk Hm Hn s Hs. unfold multisig_template at 2.
  rewrite (match_step allow_contract _ s _ s _ _ _ _ (OP_1 + m - 1) [] (pushes (k :: keys) ++ [OP_1 + n - 1; OP_CHECKMULTISIG]))
    by (concrete_opcode || (apply GetOp2_above; unfold OP_1, OP_PUSHDATA4; lia)).
  rewrite small_integer by done. cbn [app]. unfold s in Hs. rewrite Zlen_cons in Hs. assert (Hk1 : key_ok k) by (by inversion Hk).
  assert (Hlen : Zlen (pushes keys ++ [OP_1 + n - 1; OP_CHECKMULTISIG]) < 2 ^ 32).
  { unfold pushes in *. cbn [map concat] in Hs. rewrite <- app_assoc, Zlen_app in Hs. pose proof (Zlen_nonneg (push_data [] k)). lia. }
  assert (Hop : OP_PUSHDATA4 < OP_SMALLINTEGER) by done.
  assert (Hget := pushes_cons k keys [OP_1 + n - 1; OP_CHECKMULTISIG] Hk1 ltac:(lia)).
  rewrite (match_pubkeys allow_contract _ s _ _ _ _ _ _ _ (OP_1 + n - 1) [] [OP_CHECKMULTISIG] ([[m]] ++ k :: keys) Hop Hget eq_refl).
  - rewrite small_integer by done. rewrite (match_step allow_contract _ s _ _ _ _ _ _ OP_CHECKMULTISIG [] []) by (reflexivity || concrete_opcode).
    rewrite match_op_exact by concrete_opcode. rewrite bool_decide_eq_true_2 by done. done.
  - apply (take_pubkeys_run keys (length s) k [[m]] [OP_1 + n - 1; OP_CHECKMULTISIG] (OP_1 + n - 1) [] [OP_CHECKMULTISIG] Hk); [| done | apply GetOp2_above; unfold OP_1, OP_PUSHDATA4; lia | done].
    unfold s, pushes. cbn [length]. rewrite length_app. apply Nat.lt_succ_r. transitivity (length (concat (map (push_data []) (k :: keys)))); [| lia]. clear. cbn [map concat]. rewrite length_app.
    induction keys as [| x l IH]; cbn [map concat length]; [lia |]. rewrite length_app. pose proof (push_data_nonempty x). destruct (push_data [] x); [done |]. cbn [length]. lia.
Qed.
Lemma Solver_multisig m k keys : Forall key_ok (k :: keys) -> 1 <= m <= Zlen (k :: keys) -> Zlen (k :: keys) <= 16 ->
  let s := (OP_1 + m - 1) :: pushes (k :: keys) ++ [OP_1 + Zlen (k :: keys) - 1; OP_CHECKMULTISIG] in Zlen s < 2 ^ 32 ->
  Solver allow_contract s = (true, Some TX_MULTISIG, [m] :: (k :: keys) ++ [[Zlen (k :: keys)]]).
Proof.
  intros Hk Hm Hn s Hs. assert (Hk1 : key_ok k) by (by inversion Hk). set (n := Zlen (k :: keys)) in *. unfold key_ok in Hk1.
  assert (H0 : byte_at s 0 = OP_1 + m - 1) by done.
  assert (H1 : byte_at s 1 = Zlen k) by (unfold s, pushes; cbn [map concat]; rewrite push_small by (unfold OP_PUSHDATA1; lia); done).
  assert (Hlen : Zlen k + 4 <= Zlen s).
  { unfold s, pushes. cbn [map concat]. rewrite push_small by (unfold OP_PUSHDATA1; lia). rewrite Zlen_cons, !Zlen_app, !Zlen_cons, Zlen_nil.
    pose proof (Zlen_nonneg (concat (map (push_data []) keys))). lia. }
  assert (Hl : last_byte s = OP_CHECKMULTISIG).
  { unfold s. change [OP_1 + n - 1; OP_CHECKMULTISIG] with ([OP_1 + n - 1] ++ [OP_CHECKMULTISIG]). rewrite app_assoc. change (?x :: ?l ++ ?r) with ((x :: l) ++ r). apply last_byte_snoc. }
  assert (Hget : GetOp2 s = GetOpResult true (OP_1 + m - 1) [] (drop 1 s)) by (apply GetOp2_above; unfold OP_1, OP_PUSHDATA4; lia).
  unfold Solver. replace (IsPayToScriptHash s) with false by (unfold IsPayToScriptHash; rewrite H0; unfold OP_1, OP_HASH160; lia).
  replace (IsWitnessProgram s) with (@None (Z * list Z)).
  2: { unfold IsWitnessProgram. rewrite H1, (proj2 (Z.eqb_neq (Zlen k + 2) (Zlen s))) by lia. by repeat case_match. }
  rewrite H0, Hl. replace (OP_1 + m - 1 =? OP_RETURN) with false by (unfold OP_1, OP_RETURN; lia). rewrite andb_false_r. cbn [andb].
  change (OP_CHECKMULTISIG =? OP_ROOT_STATE_HASH) with false. rewrite andb_false_r. cbn [andb].
  change mTemplates with ((TX_PUBKEY, [OP_PUBKEY; OP_CHECKSIG]) :: (TX_PUBKEYHASH, p2pkh_template) :: (TX_MULTISIG, multisig_template) :: drop 3 mTemplates). cbn [scan_templates length Nat.add].
  rewrite (match_step allow_contract _ s _ s _ _ _ _ (OP_1 + m - 1) [] (drop 1 s)) by (exact Hget || concrete_opcode). cbn [match_op Z.eqb OP_PUBKEY Pos.eqb]. change ((Zlen (@nil Z) <? 33) || _) with true. cbv iota.
  change (length p2pkh_template + 1)%nat with 6%nat. unfold p2pkh_template at 2.
  rewrite (match_step allow_contract _ s _ s _ _ _ _ (OP_1 + m - 1) [] (drop 1 s)) by (exact Hget || concrete_opcode). rewrite match_op_exact by concrete_opcode.
  rewrite bool_decide_eq_false_2 by (unfold OP_1, OP_DUP; lia). change (length multisig_template + 1)%nat with 5%nat.
  unfold s in Hs |- *. rewrite match_multisig by (done || lia). rewrite bool_decide_eq_true_2 by done. change ([m] :: (k :: keys) ++ [[n]]) with (([m] :: k :: keys) ++ [[n]]). rewrite last_snoc. cbn [list.head default byte_at app].
  change (byte_at (id [m]) 0) with m. change (byte_at (id [n]) 0) with n.
  replace (Zlen ([m] :: k :: keys ++ [[n]]) - 2) with n by (rewrite !Zlen_cons, Zlen_app; change (Zlen [[n]]) with 1; unfold n; rewrite Zlen_cons; lia).
  replace (_ || _) with false by lia. done.
Qed.
End Roundtrip.

(** ** Theorems *)

(** Every well-formed address comes back from its script: [ExtractDestination] of the
    script that [GetScriptForDestination] writes is the destination, for key hashes,
    script hashes, both version 0 witness programs and unknown witness programs, and
    whether or not contracts are allowed. *)
Theorem destination_roundtrip (allow_contract : bool) d : destination_ok d ->
  exists s, GetScriptForDestination d = Ret s /\ ExtractDestination allow_contract s = Some d.
Proof. apply ExtractDestination_script. Qed.

Lemma destination_roundtrip_witness :
  exists s, GetScriptForDestination (WitnessUnknown 3 [7; 8; 9]) = Ret s /\ ExtractDestination true s = Some (WitnessUnknown 3 [7; 8; 9]).
Proof. apply (destination_roundtrip true). split; split; vm_compute; discriminate. Defined.

(** A script from which a key hash is extracted can only be spent with that key: its
    instructions are those of pay-to-public-key-hash with the hash, or it pays to a valid
    key that has the hash. *)
Theorem ExtractDestination_key_sound (allow_contract : bool) s h : ExtractDestination allow_contract s = Some (CKeyID h) ->
  (Zlen h = 20 /\ exists o, GetOps (length s) s = Some [(OP_DUP, []); (OP_HASH160, []); (o, h); (OP_EQUALVERIFY, []); (OP_CHECKSIG, [])]) \/
  (exists o key, GetOps (length s) s = Some [(o, key); (OP_CHECKSIG, [])] /\ 33 <= Zlen key <= 65 /\ CPubKey_IsValid (CPubKey key) = true /\ h = Hash160 (CPubKey key)).
Proof.
  unfold ExtractDestination. destruct (Solver allow_contract s) as [[ok [t |]] sols] eqn:Es; [| by destruct ok]. destruct ok; [| done].
  destruct t; try done; intros Hd.
  - apply Solver_template in Es; [| by left]. apply scan_templates_sound in Es as (s2 & Hin & Hm).
    assert (s2 = [OP_PUBKEY; OP_CHECKSIG]) as -> by (cbn in Hin; intuition congruence).
    apply template_pubkey_sound in Hm as (o & key & Hr & Hlen & ->). right. exists o, key. split; [by apply (reads_GetOps s) |]. split; [done |].
    cbn [list.head default] in Hd. unfold id in Hd. destruct (CPubKey_IsValid (CPubKey key)) eqn:Ev; [| done]. cbn [negb] in Hd. apply (inj Some) in Hd. by simplify_eq.
  - apply Solver_template in Es; [| by right]. apply scan_templates_sound in Es as (s2 & Hin & Hm).
    assert (s2 = p2pkh_template) as -> by (cbn in Hin; unfold p2pkh_template; intuition congruence).
    apply template_pubkeyhash_sound in Hm as (o & h' & Hr & Hlen & ->). cbn in Hd. simplify_eq. left. split; [done |]. exists o. by apply (reads_GetOps s).
Qed.

Definition sample_p2pkh : list Z := [OP_DUP; OP_HASH160; 20] ++ replicate 20 7 ++ [OP_EQUALVERIFY; OP_CHECKSIG].

Lemma ExtractDestination_key_sound_witness :
  ExtractDestination true sample_p2pkh = Some (CKeyID (replicate 20 7)) /\ (Zlen (replicate 20 7) = 20 \/ exists key, replicate 20 7 = Hash160 (CPubKey key)).
Proof.
  assert (H : ExtractDestination true sample_p2pkh = Some (CKeyID (replicate 20 7))) by (vm_compute; reflexivity).
  split; [exact H |]. destruct (ExtractDestination_key_sound true sample_p2pkh (replicate 20 7) H) as [[Hl _] | (o & key & _ & _ & _ & E)]; [left; exact Hl | right; exists key; exact E].
Defined.

(** The script of [GetScriptForMultisig] for [m] of [n] keys, [n] at most 16, is recognised
    as such: [Solver] returns [m], the keys in order, and [n]. *)
Theorem multisig_roundtrip (allow_contract : bool) m keys : Forall key_ok keys -> 1 <= m <= Zlen keys -> Zlen keys <= 16 ->
  exists s, GetScriptForMultisig m keys = Ret s /\ Solver allow_contract s = (true, Some TX_MULTISIG, [m] :: keys ++ [[Zlen keys]]).
Proof.
  intros Hk Hm Hn. destruct keys as [| k keys]; [rewrite Zlen_nil in Hm; lia |]. set (n := Zlen (k :: keys)) in *.
  exists ((OP_1 + m - 1) :: pushes (k :: keys) ++ [OP_1 + n - 1; OP_CHECKMULTISIG]).
  assert (Hlen : forall l, Forall key_ok l -> Zlen (pushes l) <= 66 * Zlen l).
  { intros l. induction 1 as [| x l Hx _ IH]; [done |]. unfold pushes in *. unfold key_ok in Hx. cbn [map concat]. rewrite push_small by (unfold OP_PUSHDATA1; lia).
    rewrite Zlen_app, !Zlen_cons. lia. }
  split.
  - assert (Hm0 : (m =? 0) = false) by lia. assert (Hn0 : (n =? 0) = false) by lia. unfold GetScriptForMultisig, EncodeOP_N. fold n. rewrite !Z.geb_leb, !(proj2 (Z.leb_le _ _)) by lia. cbn [andb cassert obind].
    rewrite Hm0, Hn0. cbn [obind]. rewrite build_bytes.
    + f_equal. rewrite !map_app, !concat_app, map_map. done.
    + unfold OP_1, OP_PUSHDATA4. constructor; [cbn; unfold OP_PUSHDATA4; lia |]. apply Forall_app. split; [by apply list.Forall_forall; intros i (x & -> & _)%list_elem_of_fmap |].
      repeat constructor; cbn; unfold OP_PUSHDATA4, OP_CHECKMULTISIG; lia.
  - apply Solver_multisig; [done | done | done |]. specialize (Hlen _ Hk). rewrite Zlen_cons, Zlen_app, !Zlen_cons, Zlen_nil. fold n in Hlen. lia.
Qed.

Lemma multisig_roundtrip_witness :
  exists s, GetScriptForMultisig 1 [replicate 33 2; replicate 65 4] = Ret s /\
    Solver false s = (true, Some TX_MULTISIG, [[1]; replicate 33 2; replicate 65 4; [2]]).
Proof.
  apply (multisig_roundtrip false 1 [replicate 33 2; replicate 65 4]).
  - repeat constructor; vm_compute; discriminate.
  - split; vm_compute; discriminate.
  - vm_compute. discriminate.
Defined.
