(* ===== verification/VerifyScript.v ===== *)
(** * Script verification

    [VerifyScript], [VerifyWitnessProgram] and [CountWitnessSigOps] of
    [src/script/interpreter.cpp]. A function that returns a [bool] and sets
    [*serror] returns the pair. The vector of a witness has its top element last;
    the interpreter's stack has it first. *)

From S2P Require Import Prelude Serialize Common Opcodes ScriptNum Script MDHash Sha256 Hash SigEncoding Interpreter EvalProps EvalSpec.

(** The consensus parameters of the fork [VerifyScript] reads, with
    [ParseHex(UBCForkGeneratorPubkey)] as the bytes. *)
Class ForkParams := {
  UBCInitBlockCount : Z;
  ForkV4Height : Z;
  UBCForkGeneratorPubkey : list Z
}.

Definition result : Type := bool * ScriptError.

Definition fail_with (e : ScriptError) : outcome result := Ret (false, e).

Definition set_success : outcome result := Ret (true, SCRIPT_ERR_OK).

(** [if (!EvalScript(...)) return false;] and otherwise go on with the stack. *)
Definition eval_or_fail (r : outcome eval_result) (k : eval_result -> outcome result) : outcome result :=
  let? r := r in if er_ret r then k r else fail_with (er_serror r).

Open Scope outcome_scope.

Section Verify.
Context `{Env : NodeEnv, Fork : ForkParams, Checker : SignatureChecker}.

(** [stack.empty()] or a top element that is false. *)
Definition top_is_true (stk : list (list Z)) : bool :=
  match stk with [] => false | top :: _ => CastToBool top end.

(** The tail of [VerifyWitnessProgram], once the script and the stack are known. *)
Definition run_witness (stk : list (list Z)) (scriptPubKey : list Z) (flags : Z) : outcome result :=
  if existsb (fun v => Zlen v >? MAX_SCRIPT_ELEMENT_SIZE) stk then fail_with SCRIPT_ERR_PUSH_SIZE
  else
    eval_or_fail (EvalScript stk scriptPubKey flags SIGVERSION_WITNESS_V0) (fun r =>
      if negb (Zlen (er_stack r) =? 1) then fail_with SCRIPT_ERR_EVAL_FALSE
      else if negb (top_is_true (er_stack r)) then fail_with SCRIPT_ERR_EVAL_FALSE
      else Ret (true, er_serror r)).

(** [scriptPubKey << OP_DUP << OP_HASH160 << program << OP_EQUALVERIFY << OP_CHECKSIG] *)
Definition p2wpkh_script (program : list Z) : list Z :=
  push_data [OP_DUP; OP_HASH160] program ++ [OP_EQUALVERIFY; OP_CHECKSIG].

Definition VerifyWitnessProgram (witness : list (list Z)) (witversion : Z) (program : list Z) (flags : Z) : outcome result :=
  if witversion =? 0 then
    if Zlen program =? 32 then
      match reverse witness with
      | [] => fail_with SCRIPT_ERR_WITNESS_PROGRAM_WITNESS_EMPTY
      | scriptPubKey :: stk =>
        if negb (bool_decide (Sha256.Finalize (Sha256.Write CSHA256 scriptPubKey) = program))
        then fail_with SCRIPT_ERR_WITNESS_PROGRAM_MISMATCH
        else run_witness stk scriptPubKey flags
      end
    else if Zlen program =? 20 then
      if negb (Zlen witness =? 2) then fail_with SCRIPT_ERR_WITNESS_PROGRAM_MISMATCH
      else run_witness (reverse witness) (p2wpkh_script program) flags
    else fail_with SCRIPT_ERR_WITNESS_PROGRAM_WRONG_LENGTH
  else if flag flags SCRIPT_VERIFY_DISCOURAGE_UPGRADABLE_WITNESS_PROGRAM then
    fail_with SCRIPT_ERR_DISCOURAGE_UPGRADABLE_WITNESS_PROGRAM
  else set_success.

(** The first blocks after the fork. *)
Definition godMode : bool :=
  (chain_height >=? UBCHeight - 1) && (chain_height <? UBCHeight + UBCInitBlockCount - 1).

(** In god mode the second element of the stack is a signature of the holder of the
    fork's key; [stack[stack.size()-2]] has no bounds check. *)
Definition verify_god_mode (scriptSig scriptPubKey : list Z) (flags : Z) : outcome result :=
  eval_or_fail (EvalScript [] scriptSig flags SIGVERSION_BASE) (fun r =>
    match er_stack r with
    | top :: vchSig :: _ =>
      if negb (CheckSig vchSig UBCForkGeneratorPubkey scriptPubKey SIGVERSION_BASE) then fail_with SCRIPT_ERR_EVAL_FALSE
      else if negb (CastToBool top) then fail_with SCRIPT_ERR_EVAL_FALSE
      else set_success
    | _ => Undef
    end).

(** [stack.resize(1)] on a stack that is not empty keeps the bottom. *)
Definition resize_1 (stk : list (list Z)) : list (list Z) := drop (length stk - 1) stk.

(** The checks after the evaluation: clean stack and unexpected witness. *)
Definition verify_end (stk : list (list Z)) (witness : list (list Z)) (hadWitness : bool) (flags : Z) : outcome result :=
  let? clean :=
    if flag flags SCRIPT_VERIFY_CLEANSTACK then
      let? _ := cassert (flag flags SCRIPT_VERIFY_P2SH) in
      let? _ := cassert (flag flags SCRIPT_VERIFY_WITNESS) in
      Ret (Zlen stk =? 1)
    else Ret true in
  if negb clean then fail_with SCRIPT_ERR_CLEANSTACK
  else if flag flags SCRIPT_VERIFY_WITNESS then
    let? _ := cassert (flag flags SCRIPT_VERIFY_P2SH) in
    if negb hadWitness && negb (bool_decide (witness = [])) then fail_with SCRIPT_ERR_WITNESS_UNEXPECTED
    else set_success
  else set_success.

(** A witness program, bare or inside P2SH: with [scriptSig_ok] and the error for
    when it does not hold. The continuation gets the stack and [hadWitness]. *)
Definition verify_witness (script : list Z) (scriptSig_ok : bool) (e : ScriptError) (witness : list (list Z)) (flags : Z)
    (stk : list (list Z)) (hadWitness : bool) (k : list (list Z) -> bool -> outcome result) : outcome result :=
  if flag flags SCRIPT_VERIFY_WITNESS then
    match IsWitnessProgram script with
    | Some (witnessversion, witnessprogram) =>
      if negb scriptSig_ok then fail_with e
      else
        let? r := VerifyWitnessProgram witness witnessversion witnessprogram flags in
        if negb r.1 then Ret r else k (resize_1 stk) true
    | None => k stk hadWitness
    end
  else k stk hadWitness.

(** The additional validation of a script hash; [stackCopy] is the stack after
    [scriptSig]. *)
Definition verify_p2sh (scriptSig : list Z) (stackCopy : list (list Z)) (witness : list (list Z)) (flags : Z)
    (hadWitness : bool) (k : list (list Z) -> bool -> outcome result) : outcome result :=
  if negb (IsPushOnly scriptSig) then fail_with SCRIPT_ERR_SIG_PUSHONLY
  else
    match stackCopy with
    | [] => Abort
    | pubKey2 :: stk =>
      eval_or_fail (EvalScript stk pubKey2 flags SIGVERSION_BASE) (fun r =>
        if negb (top_is_true (er_stack r)) then fail_with SCRIPT_ERR_EVAL_FALSE
        else verify_witness pubKey2 (bool_decide (scriptSig = push_data [] pubKey2)) SCRIPT_ERR_WITNESS_MALLEATED_P2SH
               witness flags (er_stack r) hadWitness k)
    end.

(** If the fork id is enabled strict encoding is too. *)
Definition effective_flags (flags : Z) : Z :=
  if flag flags SCRIPT_ENABLE_SIGHASH_FORKID then Z.lor flags SCRIPT_VERIFY_STRICTENC else flags.

Definition VerifyScript (scriptSig scriptPubKey : list Z) (witness : list (list Z)) (flags : Z) : outcome result :=
  let flags := effective_flags flags in
  if godMode then verify_god_mode scriptSig scriptPubKey flags
  else if chain_height =? ForkV4Height - 1 then set_success
  else if flag flags SCRIPT_VERIFY_SIGPUSHONLY && negb (IsPushOnly scriptSig) then fail_with SCRIPT_ERR_SIG_PUSHONLY
  else
    eval_or_fail (EvalScript [] scriptSig flags SIGVERSION_BASE) (fun r1 =>
    eval_or_fail (EvalScript (er_stack r1) scriptPubKey flags SIGVERSION_BASE) (fun r2 =>
      if negb (top_is_true (er_stack r2)) then fail_with SCRIPT_ERR_EVAL_FALSE
      else
        verify_witness scriptPubKey (Zlen scriptSig =? 0) SCRIPT_ERR_WITNESS_MALLEATED witness flags (er_stack r2) false
          (fun stk hadWitness =>
             if flag flags SCRIPT_VERIFY_P2SH && IsPayToScriptHash scriptPubKey then
               verify_p2sh scriptSig (er_stack r1) witness flags hadWitness (fun stk hadWitness =>
                 verify_end stk witness hadWitness flags)
             else verify_end stk witness hadWitness flags))).
End Verify.

(** ** Signature operations in witnesses *)

Definition WitnessSigOps (witversion : Z) (witprogram : list Z) (witness : list (list Z)) : Z :=
  if witversion =? 0 then
    if Zlen witprogram =? 20 then 1
    else if Zlen witprogram =? 32 then
      match reverse witness with
      | [] => 0
      | subscript :: _ => GetSigOpCount subscript true
      end
    else 0
  else 0.

(** The loop over [scriptSig]; its last operand is the redeem script. The result of
    [GetOp] is not looked at. *)
Fixpoint last_operand (fuel : nat) (pc data : list Z) : list Z :=
  match fuel, pc with
  | O, _ | _, [] => data
  | S fuel, _ => let r := GetOp2 pc in last_operand fuel (go_pc r) (go_vch r)
  end.

Definition CountWitnessSigOps (scriptSig scriptPubKey : list Z) (witness : list (list Z)) (flags : Z) : outcome Z :=
  if negb (flag flags SCRIPT_VERIFY_WITNESS) then Ret 0
  else
    let? _ := cassert (flag flags SCRIPT_VERIFY_P2SH) in
    match IsWitnessProgram scriptPubKey with
    | Some (witnessversion, witnessprogram) => Ret (WitnessSigOps witnessversion witnessprogram witness)
    | None =>
      if IsPayToScriptHash scriptPubKey && IsPushOnly scriptSig then
        match IsWitnessProgram (last_operand (length scriptSig) scriptSig []) with
        | Some (witnessversion, witnessprogram) => Ret (WitnessSigOps witnessversion witnessprogram witness)
        | None => Ret 0
        end
      else Ret 0
    end.

(** ** The pay-to-script-hash script *)

Definition p2sh (h : list Z) : list Z := OP_HASH160 :: push_data [] h ++ [OP_EQUAL].

(** The 20 bytes in a P2SH script. *)
Definition p2sh_hash (script : list Z) : list Z := take 20 (drop 2 script).

Lemma IsPayToScriptHash_shape script :
  IsPayToScriptHash script = true -> Zlen (p2sh_hash script) = 20 /\ script = p2sh (p2sh_hash script).
Proof.
  unfold IsPayToScriptHash, p2sh, p2sh_hash, byte_at. intros H. bool_to_prop.
  unfold Zlen in *. assert (Hlen : length script = 23%nat) by lia.
  assert (Hl : length (take 20 (drop 2 script)) = 20%nat) by (rewrite length_take, length_drop; lia).
  split; [lia |].
  assert (Hp : push_data [] (take 20 (drop 2 script)) = 20 :: take 20 (drop 2 script)).
  { unfold push_data, Zlen. by rewrite Hl. }
  rewrite Hp. do 23 (destruct script as [| ? script]; [done |]). destruct script; [| done].
  repeat match goal with H : default 0 _ = _ |- _ => vm_compute in H; subst end. reflexivity.
Qed.

Section P2SH.
Context `{Env : NodeEnv, Checker : SignatureChecker}.
Variables (flags : Z) (sigversion : SigVersion).

Lemma op_EQUAL_run v1 v2 stk alt vf n pb p :
  op_EQUAL OP_EQUAL (EvalState (v2 :: v1 :: stk) alt vf n pb p) =
    (Next tt, EvalState (bool_vch (bool_decide (v1 = v2)) :: stk) alt vf n pb p).
Proof.
  unfold op_EQUAL. next ltac:(apply need_pass; cbn [stack]; rewrite !Zlen_cons; pose proof (Zlen_nonneg stk); lia). done.
Qed.

Lemma length_p2sh h : Zlen h = 20 -> length (p2sh h) = 23%nat.
Proof. intros Hh. unfold p2sh, push_data. rewrite Hh. cbn. rewrite length_app. unfold Zlen in Hh. cbn [length]. lia. Qed.

#[local] Opaque hash_op Hash160.

(** What the script computes on a stack with [s] on top: an error if there is no
    room for the hash, and otherwise the comparison. *)
Lemma EvalScript_p2sh s rest h :
  Zlen h = 20 ->
  (exists stk, EvalScript (s :: rest) (p2sh h) flags sigversion = Ret (EvalResult false SCRIPT_ERR_STACK_SIZE stk)) \/
  EvalScript (s :: rest) (p2sh h) flags sigversion =
    Ret (EvalResult true SCRIPT_ERR_OK (bool_vch (bool_decide (Hash160 s = h)) :: rest)).
Proof.
  intros Hh. pose proof (Zlen_nonneg rest) as Hr0. pose proof (length_p2sh h Hh) as Hlen.
  unfold EvalScript. replace (Zlen (p2sh h)) with 23 by (unfold Zlen; lia). cbn [Z.gtb Z.compare MAX_SCRIPT_SIZE].
  rewrite Hlen. unfold p2sh at 3 6. assert (Hpush : push_ok flags h) by (apply push_ok_direct; lia).
  destruct (Z.le_gt_cases (Zlen (s :: rest)) MAX_STACK_SIZE) as [H1 | H1].
  2: { left. eexists. erewrite eval_loop_opcode_full; [| done | done | done | apply op_hash_run |]; [done |].
       rewrite Zlen_cons, Zlen_nil in *. lia. }
  rewrite Zlen_cons in H1.
  erewrite eval_loop_opcode; [| done | done | done | apply op_hash_run |]; [| rewrite Zlen_cons, Zlen_nil; lia].
  rewrite hash_op_HASH160. generalize (Hash160 s) as hs. intros hs.
  destruct (Z.le_gt_cases (Zlen rest + 2) MAX_STACK_SIZE) as [H2 | H2].
  2: { left. eexists. rewrite eval_loop_push_full; [done | done | done |]. rewrite Zlen_cons, Zlen_nil. lia. }
  right. rewrite eval_loop_push; [| done | done | rewrite Zlen_cons, Zlen_nil; lia].
  erewrite eval_loop_opcode; [| done | done | done | apply op_EQUAL_run |]; [| rewrite Zlen_cons, Zlen_nil; lia].
  by rewrite eval_loop_done.
Qed.

Lemma EvalScript_p2sh_empty h :
  Zlen h = 20 ->
  EvalScript [] (p2sh h) flags sigversion = Ret (EvalResult false SCRIPT_ERR_INVALID_STACK_OPERATION []).
Proof.
  intros Hh. pose proof (length_p2sh h Hh) as Hlen.
  unfold EvalScript. replace (Zlen (p2sh h)) with 23 by (unfold Zlen; lia). cbn [Z.gtb Z.compare MAX_SCRIPT_SIZE].
  rewrite Hlen. unfold p2sh at 3. by erewrite eval_loop_opcode_error; [| done | done | done | reflexivity].
Qed.
End P2SH.

(** ** What a successful verification means *)

Section VerifyProps.
Context `{Env : NodeEnv, Fork : ForkParams, Checker : SignatureChecker}.

Lemma eval_or_fail_true r k e :
  eval_or_fail r k = Ret (true, e) -> exists x, r = Ret x /\ er_ret x = true /\ k x = Ret (true, e).
Proof. unfold eval_or_fail. destruct r as [x | | |]; cbn; try done. destruct (er_ret x) eqn:E; [| done]. by exists x. Qed.

Lemma verify_witness_true script ok err witness flags stk had k e :
  verify_witness script ok err witness flags stk had k = Ret (true, e) -> exists stk' had', k stk' had' = Ret (true, e).
Proof.
  unfold verify_witness. destruct (flag _ _); [| by eauto].
  destruct (IsWitnessProgram script) as [[v prog] |]; [| by eauto]. destruct (negb ok); [done |].
  destruct (VerifyWitnessProgram witness v prog flags) as [[[] e'] | | |]; cbn; try done. by eauto.
Qed.

Lemma flag_lor_false x y m : flag y m = false -> flag (Z.lor x y) m = flag x m.
Proof.
  unfold flag. rewrite negb_false_iff, Z.eqb_eq. intros H. by rewrite Z.land_lor_distr_l, H, Z.lor_0_r.
Qed.

Lemma effective_flags_P2SH flags : flag (effective_flags flags) SCRIPT_VERIFY_P2SH = flag flags SCRIPT_VERIFY_P2SH.
Proof. unfold effective_flags. destruct (flag flags SCRIPT_ENABLE_SIGHASH_FORKID); [| done]. by apply flag_lor_false. Qed.

#[local] Opaque Hash160.

(** C3. Soundness of pay-to-script-hash: outside god mode and the fork height, a
    P2SH output is spent only with a push-only [scriptSig] whose last element, the
    redeem script, has the hash in the output, and evaluates to true on the rest of
    the stack. *)
Theorem VerifyScript_P2SH_sound scriptSig scriptPubKey witness flags e :
  godMode = false -> chain_height <> ForkV4Height - 1 -> flag flags SCRIPT_VERIFY_P2SH = true ->
  IsPayToScriptHash scriptPubKey = true ->
  VerifyScript scriptSig scriptPubKey witness flags = Ret (true, e) ->
  IsPushOnly scriptSig = true /\
  exists r1 redeem rest r2,
    EvalScript [] scriptSig (effective_flags flags) SIGVERSION_BASE = Ret r1 /\ er_ret r1 = true /\
    er_stack r1 = redeem :: rest /\ Hash160 redeem = p2sh_hash scriptPubKey /\
    EvalScript rest redeem (effective_flags flags) SIGVERSION_BASE = Ret r2 /\ er_ret r2 = true /\
    top_is_true (er_stack r2) = true.
Proof.
  intros Hgod Hfork Hflag Hp2sh. unfold VerifyScript. rewrite Hgod, (proj2 (Z.eqb_neq _ _) Hfork).
  destruct (_ && _); [done |]. intros (r1 & E1 & T1 & H)%eval_or_fail_true. apply eval_or_fail_true in H as (r & E & T & H).
  destruct (top_is_true (er_stack r)) eqn:Etop; [| done]. cbn [negb] in H.
  apply verify_witness_true in H as (stk' & had' & H). rewrite effective_flags_P2SH, Hflag, Hp2sh in H. cbn [andb] in H.
  unfold verify_p2sh in H. destruct (IsPushOnly scriptSig) eqn:Epush; [| done]. cbn [negb] in H. split; [done |].
  destruct (er_stack r1) as [| redeem rest] eqn:Estk; [done |].
  apply eval_or_fail_true in H as (r2 & E2 & T2 & H). destruct (top_is_true (er_stack r2)) eqn:Etop2; [| done].
  exists r1, redeem, rest, r2. repeat (split; [done |]). split; [| done].
  destruct (IsPayToScriptHash_shape _ Hp2sh) as [Hh Hs]. rewrite Hs in E at 1.
  destruct (EvalScript_p2sh (effective_flags flags) SIGVERSION_BASE redeem rest _ Hh) as [[stk Hev] | Hev];
    rewrite Hev in E; injection E as <-; [done |].
  cbn [er_stack top_is_true] in Etop. by case_bool_decide.
Qed.

(** At the height before [ForkV4Height] every script verifies, whatever it is. *)
Theorem VerifyScript_ForkV4 scriptSig scriptPubKey witness flags :
  godMode = false -> chain_height = ForkV4Height - 1 ->
  VerifyScript scriptSig scriptPubKey witness flags = Ret (true, SCRIPT_ERR_OK).
Proof. intros Hgod Hh. unfold VerifyScript. by rewrite Hgod, Hh, Z.eqb_refl. Qed.

(** ** Every verification ends *)

(** The evaluation that a witness program leads to: of [script] on the stack [stk]. *)
Definition witness_run (witness : list (list Z)) (program : list Z) (stk : list (list Z)) (script : list Z) : Prop :=
  (Zlen program = 32 /\ reverse witness = script :: stk /\ Sha256.Finalize (Sha256.Write CSHA256 script) = program) \/
  (Zlen program = 20 /\ Zlen witness = 2 /\ stk = reverse witness /\ script = p2wpkh_script program).

(** The evaluations of a verification: of [scriptSig]; of the output's script, and of the
    redeem script of a script hash, on the stack it leaves; and of a witness, where one
    of the two is a witness program. *)
Inductive evaluated (scriptSig scriptPubKey : list Z) (witness : list (list Z)) (flags : Z) :
    list (list Z) -> list Z -> SigVersion -> Prop :=
| evaluated_scriptSig : evaluated scriptSig scriptPubKey witness flags [] scriptSig SIGVERSION_BASE
| evaluated_scriptPubKey r :
    godMode = false -> EvalScript [] scriptSig flags SIGVERSION_BASE = Ret r -> er_ret r = true ->
    evaluated scriptSig scriptPubKey witness flags (er_stack r) scriptPubKey SIGVERSION_BASE
| evaluated_redeem r redeem stk :
    godMode = false -> flag flags SCRIPT_VERIFY_P2SH = true -> IsPayToScriptHash scriptPubKey = true ->
    EvalScript [] scriptSig flags SIGVERSION_BASE = Ret r -> er_ret r = true -> er_stack r = redeem :: stk ->
    evaluated scriptSig scriptPubKey witness flags stk redeem SIGVERSION_BASE
| evaluated_witness stk0 script0 program stk script :
    flag flags SCRIPT_VERIFY_WITNESS = true ->
    script0 = scriptPubKey \/ (exists r, EvalScript [] scriptSig flags SIGVERSION_BASE = Ret r /\ er_stack r = script0 :: stk0) ->
    evaluated scriptSig scriptPubKey witness flags stk0 script0 SIGVERSION_BASE ->
    IsWitnessProgram script0 = Some (0, program) -> witness_run witness program stk script ->
    evaluated scriptSig scriptPubKey witness flags stk script SIGVERSION_WITNESS_V0.

(** What makes a verification undefined: one of its evaluations reads the last byte of
    an empty signature, or in god mode [scriptSig] leaves less than two elements. *)
Definition undefined_verify (scriptSig scriptPubKey : list Z) (witness : list (list Z)) (flags : Z) : Prop :=
  (exists stk script sigversion, evaluated scriptSig scriptPubKey witness flags stk script sigversion /\
     undefined_read stk script flags sigversion) \/
  (godMode = true /\ exists r, EvalScript [] scriptSig flags SIGVERSION_BASE = Ret r /\ er_ret r = true /\
     Zlen (er_stack r) < 2).

(** The result of a verification: success comes with [SCRIPT_ERR_OK]. *)
Definition result_ok (r : result) : Prop := r.1 = true -> r.2 = SCRIPT_ERR_OK.

Definition wf_stack (stk : list (list Z)) : Prop := Forall elem_ok stk /\ Zlen stk < 2 ^ 60.

Section Safe.
(** What undefined behaviour implies. *)
Variable U : Prop.

(** The call returns a value with [P], or is undefined; it neither throws nor fails an
    assertion. *)
Definition returns {A} (o : outcome A) (P : A -> Prop) : Prop :=
  match o with Ret a => P a | Undef => U | Throw _ | Abort => False end.

Lemma EvalScript_safe stk script flags sigversion :
  bytes_ok script -> wf_stack stk -> (undefined_read stk script flags sigversion -> U) ->
  returns (EvalScript stk script flags sigversion) (fun r => er_ret r = true ->
    Forall elem_ok (er_stack r) /\ Zlen (er_stack r) <= Z.max (Zlen stk) MAX_STACK_SIZE + 1).
Proof.
  intros Hs [Hstk Hl] HU. destruct (EvalScript_returns stk script flags sigversion Hs Hstk ltac:(lia)) as [(r & -> & Hr) | (-> & Hu & _)];
    [done | by apply HU].
Qed.

Lemma eval_or_fail_safe r k (P : eval_result -> Prop) :
  returns r (fun x => er_ret x = true -> P x) ->
  (forall x, r = Ret x -> er_ret x = true -> P x -> returns (k x) result_ok) -> returns (eval_or_fail r k) result_ok.
Proof.
  unfold eval_or_fail. destruct r as [x | | |]; cbn; try done. destruct (er_ret x) eqn:E; [by auto | done].
Qed.

(** The assertions on the flags of [VerifyScript]. *)
Definition flags_ok (flags : Z) : Prop :=
  (flag flags SCRIPT_VERIFY_CLEANSTACK = true -> flag flags SCRIPT_VERIFY_WITNESS = true) /\
  (flag flags SCRIPT_VERIFY_WITNESS = true -> flag flags SCRIPT_VERIFY_P2SH = true).

Lemma effective_flags_ok flags : flags_ok flags -> flags_ok (effective_flags flags).
Proof.
  unfold flags_ok, effective_flags. destruct (flag flags SCRIPT_ENABLE_SIGHASH_FORKID); [| done].
  by rewrite !flag_lor_false.
Qed.

Lemma verify_end_safe stk witness had flags : flags_ok flags -> returns (verify_end stk witness had flags) result_ok.
Proof.
  intros [H1 H2]. unfold verify_end. destruct (flag flags SCRIPT_VERIFY_CLEANSTACK).
  - rewrite H2, H1 by auto. cbn. repeat case_match; done.
  - cbn. destruct (flag flags SCRIPT_VERIFY_WITNESS); [| done]. rewrite H2 by done. cbn. by case_match.
Qed.

Lemma run_witness_safe stk script flags :
  bytes_ok script -> Forall bytes_ok stk -> Zlen stk < 2 ^ 60 ->
  (undefined_read stk script flags SIGVERSION_WITNESS_V0 -> U) -> returns (run_witness stk script flags) (fun _ => True).
Proof.
  intros Hs Hstk Hl HU. unfold run_witness. destruct (existsb _ _) eqn:E; [done |].
  assert (Hok : Forall elem_ok stk).
  { apply Forall_forall. intros v Hv. rewrite Forall_forall in Hstk. split; [by apply Hstk |].
    apply Z.nlt_ge. intros Hlt. assert (H : existsb (fun v => Zlen v >? MAX_SCRIPT_ELEMENT_SIZE) stk = true).
    { apply List.existsb_exists. exists v. split; [done |]. rewrite Z.gtb_ltb. by apply Z.ltb_lt. }
    congruence. }
  pose proof (EvalScript_safe stk script flags SIGVERSION_WITNESS_V0 Hs (conj Hok Hl) HU) as He.
  unfold eval_or_fail. destruct (EvalScript _ _ _ _) as [r | | |]; cbn; try done.
  destruct (er_ret r); [| done]. repeat case_match; done.
Qed.

Lemma push_data_ok l b : bytes_ok l -> bytes_ok b -> bytes_ok (push_data l b).
Proof.
  intros Hl Hb. unfold push_data, WriteLE16, WriteLE32. repeat case_match; rewrite !bytes_ok_app; repeat split; try done;
    first [apply le_encode_ok | apply bytes_ok_1; unfold is_byte, OP_PUSHDATA1, OP_PUSHDATA2, OP_PUSHDATA4;
      first [apply uint8_range | lia]].
Qed.

Lemma VerifyWitnessProgram_safe witness v prog flags :
  Forall bytes_ok witness -> Zlen witness < 2 ^ 60 -> bytes_ok prog ->
  (forall stk script, v = 0 -> witness_run witness prog stk script ->
     undefined_read stk script flags SIGVERSION_WITNESS_V0 -> U) ->
  returns (VerifyWitnessProgram witness v prog flags) (fun _ => True).
Proof.
  intros Hw Hl Hp HU. unfold VerifyWitnessProgram. destruct (Z.eqb_spec v 0) as [Hv | Hv]; [| by case_match].
  assert (Hr : Forall bytes_ok (reverse witness)) by by apply Forall_reverse.
  assert (Hrl : Zlen (reverse witness) = Zlen witness) by (unfold Zlen; by rewrite length_reverse).
  unfold witness_run in HU. destruct (Z.eqb_spec (Zlen prog) 32) as [H32 | _].
  - destruct (reverse witness) as [| s stk]; [done |]. case_bool_decide as Hsha; [| done]. cbn [negb].
    apply List.Forall_cons_iff in Hr as [Hs Hstk]. rewrite Zlen_cons in Hrl. apply run_witness_safe; [done | done | lia |].
    apply HU; [done |]. by left.
  - destruct (Z.eqb_spec (Zlen prog) 20) as [H20 | _]; [| done].
    destruct (Z.eqb_spec (Zlen witness) 2) as [H2 | _]; [| done]. cbn [negb].
    apply run_witness_safe; [| done | lia | apply HU; [done | by right]].
    unfold p2wpkh_script. rewrite bytes_ok_app. split; [apply push_data_ok; [bytes_closed | done] | bytes_closed].
Qed.

Lemma IsWitnessProgram_bytes script v prog : bytes_ok script -> IsWitnessProgram script = Some (v, prog) -> bytes_ok prog.
Proof. unfold IsWitnessProgram. intros Hs H. repeat case_match; simplify_eq. by apply bytes_ok_drop. Qed.

Lemma verify_witness_safe script ok err witness flags stk had k :
  Forall bytes_ok witness -> Zlen witness < 2 ^ 60 -> bytes_ok script ->
  (forall program stk' script', flag flags SCRIPT_VERIFY_WITNESS = true -> IsWitnessProgram script = Some (0, program) ->
     witness_run witness program stk' script' -> undefined_read stk' script' flags SIGVERSION_WITNESS_V0 -> U) ->
  (forall stk had, returns (k stk had) result_ok) ->
  returns (verify_witness script ok err witness flags stk had k) result_ok.
Proof.
  intros Hw Hl Hs HU Hk. unfold verify_witness. destruct (flag _ _); [| done].
  destruct (IsWitnessProgram script) as [[v prog] |] eqn:E; [| done]. destruct (negb ok); [done |].
  assert (Hv : returns (VerifyWitnessProgram witness v prog flags) (fun _ => True)).
  { apply VerifyWitnessProgram_safe; [done | done | by eapply IsWitnessProgram_bytes |]. intros stk' script' ->. by apply HU. }
  destruct (VerifyWitnessProgram witness v prog flags) as [[[] e'] | | |]; cbn in *; done.
Qed.

Lemma verify_p2sh_safe scriptSig redeem stk witness flags had k :
  Forall bytes_ok witness -> Zlen witness < 2 ^ 60 -> wf_stack (redeem :: stk) ->
  (undefined_read stk redeem flags SIGVERSION_BASE -> U) ->
  (forall program stk' script', flag flags SCRIPT_VERIFY_WITNESS = true -> IsWitnessProgram redeem = Some (0, program) ->
     witness_run witness program stk' script' -> undefined_read stk' script' flags SIGVERSION_WITNESS_V0 -> U) ->
  (forall stk had, returns (k stk had) result_ok) ->
  returns (verify_p2sh scriptSig (redeem :: stk) witness flags had k) result_ok.
Proof.
  intros Hw Hl [Hstk Hz] HU1 HU2 Hk. unfold verify_p2sh. destruct (negb (IsPushOnly scriptSig)); [done |].
  apply List.Forall_cons_iff in Hstk as [[Hs _] Hstk]. rewrite Zlen_cons in Hz.
  eapply eval_or_fail_safe; [apply EvalScript_safe; [done | split; [done | lia] | done] |].
  intros r _ _ _. destruct (negb _); [done | by apply verify_witness_safe].
Qed.
End Safe.

(** A P2SH script does not evaluate to true on the empty stack. *)
Lemma p2sh_stack_nonempty stk script flags r :
  IsPayToScriptHash script = true -> EvalScript stk script flags SIGVERSION_BASE = Ret r -> er_ret r = true -> stk <> [].
Proof.
  intros [Hh Hs]%IsPayToScriptHash_shape E T ->. rewrite Hs, EvalScript_p2sh_empty in E by done. by injection E as <-.
Qed.

Lemma returns_cases {A} U (o : outcome A) P : returns U o P -> (exists a, o = Ret a /\ P a) \/ (o = Undef /\ U).
Proof. destruct o; cbn; [by eauto | done | done | by right]. Qed.

Lemma undefined_evaluated scriptSig scriptPubKey witness flags stk script sigversion :
  evaluated scriptSig scriptPubKey witness flags stk script sigversion ->
  undefined_read stk script flags sigversion -> undefined_verify scriptSig scriptPubKey witness flags.
Proof. intros H Hu. left. by exists stk, script, sigversion. Qed.

Lemma verify_god_mode_safe scriptSig scriptPubKey witness flags (P : eval_result -> Prop) :
  let U := undefined_verify scriptSig scriptPubKey witness flags in
  godMode = true -> returns U (EvalScript [] scriptSig flags SIGVERSION_BASE) (fun r => er_ret r = true -> P r) ->
  returns U (verify_god_mode scriptSig scriptPubKey flags) result_ok.
Proof.
  intros U Hgod H. unfold verify_god_mode. eapply eval_or_fail_safe; [exact H |]. intros r E T _.
  destruct (er_stack r) as [| top [| sig rest]] eqn:Es.
  1, 2: right; split; [done |]; exists r; by rewrite Es.
  by repeat (destruct (negb _); [done |]).
Qed.

(** C19. Under flags that meet its assertions [VerifyScript] comes to an end on every
    [scriptSig], script and witness: it returns, with [SCRIPT_ERR_OK] when the
    result is true, unless one of the evaluations it performs looks for the fork id in
    the last byte of an empty signature or, in god mode, [scriptSig] leaves less than
    the two elements that are read, which is undefined. No exception
    escapes and no assertion fails, among them the one that the stack is not empty
    when the redeem script is taken from it. *)
Theorem VerifyScript_total scriptSig scriptPubKey witness flags :
  bytes_ok scriptSig -> bytes_ok scriptPubKey -> Forall bytes_ok witness -> Zlen witness < 2 ^ 60 -> flags_ok flags ->
  (exists r, VerifyScript scriptSig scriptPubKey witness flags = Ret r /\ result_ok r) \/
  (VerifyScript scriptSig scriptPubKey witness flags = Undef /\
   undefined_verify scriptSig scriptPubKey witness (effective_flags flags)).
Proof.
  intros Hs Hp Hw Hl Hf%effective_flags_ok. apply returns_cases. unfold VerifyScript. set (fl := effective_flags flags) in *.
  set (U := undefined_verify _ _ _ _). pose proof (undefined_evaluated scriptSig scriptPubKey witness fl) as HU. fold U in HU.
  assert (H1 := EvalScript_safe U [] scriptSig fl SIGVERSION_BASE Hs ltac:(split; [constructor | done])
    ltac:(apply HU; constructor)).
  destruct godMode eqn:Hgod; [exact (verify_god_mode_safe _ _ witness _ _ Hgod H1) |].
  destruct (_ =? _); [done |]. destruct (_ && _); [done |].
  eapply eval_or_fail_safe; [exact H1 |]. intros r1 E1 T1 [Hok1 Hz1].
  change (Z.max (Zlen []) MAX_STACK_SIZE + 1) with 1001 in Hz1.
  assert (Hwf : wf_stack (er_stack r1)) by (split; [done | lia]).
  assert (Hv2 : evaluated scriptSig scriptPubKey witness fl (er_stack r1) scriptPubKey SIGVERSION_BASE) by by constructor.
  eapply eval_or_fail_safe; [apply EvalScript_safe; [done | done | by apply HU] |]. intros r2 E2 T2 _.
  destruct (negb _); [done |]. apply verify_witness_safe; [done .. | |].
  { intros program stk' script' Hfl Hi Hr. apply HU. eapply evaluated_witness; [done | by left | exact Hv2 | done | done]. }
  intros stk had. destruct (flag fl SCRIPT_VERIFY_P2SH && _) eqn:Ep; [| by apply verify_end_safe].
  apply andb_true_iff in Ep as [Ef Ep]. destruct (er_stack r1) as [| redeem rest] eqn:Estk.
  { by destruct (p2sh_stack_nonempty _ _ _ _ Ep E2 T2). }
  assert (Hv3 : evaluated scriptSig scriptPubKey witness fl rest redeem SIGVERSION_BASE) by by eapply evaluated_redeem.
  apply verify_p2sh_safe; [done | done | done | by apply HU | | intros; by apply verify_end_safe].
  intros program stk' script' Hfl Hi Hr. apply HU. eapply evaluated_witness; [done | right; by exists r1 | exact Hv3 | done | done].
Qed.

(** ** Pay to witness public key hash *)

(** [OP_0] and a push of the key hash. *)
Definition p2wpkh (h : list Z) : list Z := push_data [] [] ++ push_data [] h.

Lemma push_ok_empty flags : push_ok flags [].
Proof. split; [done |]. apply andb_false_r. Qed.

Lemma p2wpkh_bytes h : Zlen h = 20 -> p2wpkh h = 0 :: 20 :: h.
Proof. intros Hh. unfold p2wpkh, push_data. by rewrite Hh. Qed.

Lemma EvalScript_p2wpkh h flags :
  Zlen h = 20 -> EvalScript [] (p2wpkh h) flags SIGVERSION_BASE = Ret (EvalResult true SCRIPT_ERR_OK [h; []]).
Proof.
  intros Hh. assert (Hlen : length (p2wpkh h) = 22%nat).
  { rewrite p2wpkh_bytes by done. unfold Zlen in Hh. cbn [length]. lia. }
  unfold EvalScript. replace (Zlen (p2wpkh h)) with 22 by (unfold Zlen; lia). cbn [Z.gtb Z.compare MAX_SCRIPT_SIZE].
  rewrite Hlen. unfold p2wpkh at 3.
  rewrite eval_loop_push; [| apply push_ok_empty | | done].
  2: { unfold p2wpkh in Hlen. rewrite length_app in Hlen. unfold Zlen. lia. }
  rewrite <- (app_nil_r (push_data [] h)).
  rewrite eval_loop_push; [| apply push_ok_direct; lia | done | done]. by rewrite eval_loop_done.
Qed.

Lemma IsWitnessProgram_p2wpkh h : Zlen h = 20 -> IsWitnessProgram (p2wpkh h) = Some (0, h).
Proof.
  intros Hh. rewrite p2wpkh_bytes by done. unfold IsWitnessProgram. rewrite !Zlen_cons, Hh. cbn. by rewrite drop_0.
Qed.

Lemma p2wpkh_script_p2pkh h : p2wpkh_script h = p2pkh h.
Proof. unfold p2wpkh_script, p2pkh. by rewrite push_data_app, <- app_assoc. Qed.

(** The evaluation inside the witness. *)
Lemma run_witness_P2WPKH sig key h flags :
  Zlen h = 20 -> sig <> [] -> forkid_rule flags sig -> elem_ok sig -> elem_ok key ->
  CheckSignatureEncoding CheckLowS sig flags = Ret None -> CheckPubKeyEncoding key flags SIGVERSION_WITNESS_V0 = Ret None ->
  run_witness [key; sig] (p2wpkh_script h) flags =
    Ret (let ok := CheckSig sig key (p2pkh h) SIGVERSION_WITNESS_V0 in
         if bool_decide (Hash160 key = h) then
           if ok then (true, SCRIPT_ERR_OK)
           else (false, if flag flags SCRIPT_VERIFY_NULLFAIL then SCRIPT_ERR_SIG_NULLFAIL else SCRIPT_ERR_EVAL_FALSE)
         else (false, SCRIPT_ERR_EQUALVERIFY)).
Proof.
  intros Hh Hsig Hf [_ Hs] [_ Hk] Hes Hek. unfold run_witness. cbn [existsb].
  destruct (Z.gtb_spec (Zlen key) MAX_SCRIPT_ELEMENT_SIZE), (Z.gtb_spec (Zlen sig) MAX_SCRIPT_ELEMENT_SIZE); try lia.
  cbn [orb]. rewrite p2wpkh_script_p2pkh.
  rewrite (EvalScript_p2pkh_run flags SIGVERSION_WITNESS_V0 sig key h []) by done. unfold drop_signature.
  rewrite (bool_decide_eq_false_2 (SIGVERSION_WITNESS_V0 = SIGVERSION_BASE)) by done. cbv zeta. destruct (bool_decide _); [| done].
  destruct (CheckSig _ _ _ _); [done |]. cbn [negb andb]. by destruct (flag flags SCRIPT_VERIFY_NULLFAIL).
Qed.

(** The pay-to-witness-public-key-hash output, verified end to end with an empty
    [scriptSig] and a witness of a signature and a key that pass the encoding
    checks and the fork id rule: the verification succeeds exactly when the key has
    the hash in the output and the checker accepts the signature against the
    implied pay-to-public-key-hash script, and the error tells which failed. *)
Theorem VerifyScript_P2WPKH sig key h flags :
  let fl := effective_flags flags in
  godMode = false -> chain_height <> ForkV4Height - 1 -> flags_ok fl -> flag fl SCRIPT_VERIFY_WITNESS = true ->
  Zlen h = 20 -> CastToBool h = true -> sig <> [] -> forkid_rule fl sig -> elem_ok sig -> elem_ok key ->
  CheckSignatureEncoding CheckLowS sig fl = Ret None -> CheckPubKeyEncoding key fl SIGVERSION_WITNESS_V0 = Ret None ->
  VerifyScript [] (p2wpkh h) [sig; key] flags =
    Ret (if bool_decide (Hash160 key = h) then
           if CheckSig sig key (p2pkh h) SIGVERSION_WITNESS_V0 then (true, SCRIPT_ERR_OK)
           else (false, if flag fl SCRIPT_VERIFY_NULLFAIL then SCRIPT_ERR_SIG_NULLFAIL else SCRIPT_ERR_EVAL_FALSE)
         else (false, SCRIPT_ERR_EQUALVERIFY)).
Proof.
  intros fl Hgod Hfork Hok Hwit Hh Hcast Hsig Hf Hs Hk Hes Hek. unfold VerifyScript. fold fl.
  rewrite Hgod, (proj2 (Z.eqb_neq _ _) Hfork). change (IsPushOnly []) with true. rewrite andb_false_r.
  change (EvalScript [] [] fl SIGVERSION_BASE) with (Ret (EvalResult true SCRIPT_ERR_OK [])).
  unfold eval_or_fail at 1. cbn [obind er_ret er_stack]. rewrite EvalScript_p2wpkh by done.
  unfold eval_or_fail. cbn [obind er_ret er_stack top_is_true]. rewrite Hcast. cbn [negb].
  unfold verify_witness at 1. rewrite Hwit, IsWitnessProgram_p2wpkh by done. change (Zlen [] =? 0) with true. cbn [negb].
  unfold VerifyWitnessProgram. rewrite Hh. cbn [Z.eqb Pos.eqb]. change (negb (Zlen [sig; key] =? 2)) with false. cbn iota.
  change (reverse [sig; key]) with [key; sig]. rewrite run_witness_P2WPKH by done. cbv zeta. cbn [obind].
  destruct (bool_decide _); [| done]. destruct (CheckSig _ _ _ _); [| done]. cbn [negb fst].
  replace (IsPayToScriptHash (p2wpkh h)) with false by (unfold IsPayToScriptHash; by rewrite p2wpkh_bytes, !Zlen_cons, Hh by done). rewrite andb_false_r.
  destruct Hok as [H1 H2]. unfold verify_end, resize_1. cbn [length Nat.sub drop].
  rewrite Hwit, H2 by done. by destruct (flag fl SCRIPT_VERIFY_CLEANSTACK).
Qed.
End VerifyProps.

(** ** Examples *)

Definition sample_fork : ForkParams :=
  {| UBCInitBlockCount := 800; ForkV4Height := 1000000; UBCForkGeneratorPubkey := [2] |}.

Definition sample_flags : Z := Z.lor SCRIPT_VERIFY_P2SH SCRIPT_VERIFY_WITNESS.

Lemma VerifyScript_P2SH_sound_witness :
  IsPushOnly (push_data [] [OP_1]) = true /\
  exists r1 redeem rest r2,
    EvalScript (H := sample_env) (H0 := sample_checker) [] (push_data [] [OP_1]) SCRIPT_VERIFY_P2SH SIGVERSION_BASE = Ret r1 /\
    er_ret r1 = true /\ er_stack r1 = redeem :: rest /\ Hash160 redeem = p2sh_hash (p2sh (Hash160 [OP_1])) /\
    EvalScript (H := sample_env) (H0 := sample_checker) rest redeem SCRIPT_VERIFY_P2SH SIGVERSION_BASE = Ret r2 /\
    er_ret r2 = true /\ top_is_true (er_stack r2) = true.
Proof.
  apply (VerifyScript_P2SH_sound (Env := sample_env) (Fork := sample_fork) (Checker := sample_checker)
    (push_data [] [OP_1]) (p2sh (Hash160 [OP_1])) [] SCRIPT_VERIFY_P2SH SCRIPT_ERR_OK).
  - reflexivity.
  - discriminate.
  - reflexivity.
  - vm_compute. reflexivity.
  - vm_compute. reflexivity.
Defined.

Lemma VerifyScript_ForkV4_witness :
  VerifyScript (Env := {| chain_height := 99; UBCHeight := 1000; CheckLowS _ := true |})
    (Fork := {| UBCInitBlockCount := 10; ForkV4Height := 100; UBCForkGeneratorPubkey := [2] |})
    (Checker := BaseSignatureChecker) [] [OP_RETURN] [] 0 = Ret (true, SCRIPT_ERR_OK).
Proof.
  apply (VerifyScript_ForkV4 (Env := {| chain_height := 99; UBCHeight := 1000; CheckLowS _ := true |})
    (Fork := {| UBCInitBlockCount := 10; ForkV4Height := 100; UBCForkGeneratorPubkey := [2] |})
    (Checker := BaseSignatureChecker) [] [OP_RETURN] [] 0).
  - reflexivity.
  - reflexivity.
Defined.

Lemma VerifyScript_total_witness :
  (exists r, VerifyScript (Env := sample_env) (Fork := sample_fork) (Checker := sample_checker)
    [OP_1] [OP_DUP] [[1]] sample_flags = Ret r /\ result_ok r) /\
  undefined_verify (Env := sample_env) (Fork := sample_fork) (Checker := sample_checker)
    [OP_0; OP_1] [OP_CHECKSIG] [] sample_flags.
Proof.
  split.
  - destruct (VerifyScript_total (Env := sample_env) (Fork := sample_fork) (Checker := sample_checker)
      [OP_1] [OP_DUP] [[1]] sample_flags) as [H | [H _]].
    + bytes_closed.
    + bytes_closed.
    + constructor; [bytes_closed | constructor].
    + reflexivity.
    + split; reflexivity.
    + exact H.
    + vm_compute in H. discriminate H.
  - destruct (VerifyScript_total (Env := sample_env) (Fork := sample_fork) (Checker := sample_checker)
      [OP_0; OP_1] [OP_CHECKSIG] [] sample_flags) as [(r & H & _) | [_ H]].
    + bytes_closed.
    + bytes_closed.
    + constructor.
    + reflexivity.
    + split; reflexivity.
    + vm_compute in H. discriminate H.
    + exact H.
Defined.

Lemma VerifyScript_P2WPKH_witness :
  VerifyScript (Env := sample_env) (Fork := sample_fork) (Checker := first_byte_checker)
    [] (p2wpkh (Hash160 [7])) [[7; 1]; [7]] sample_flags = Ret (true, SCRIPT_ERR_OK).
Proof.
  rewrite (VerifyScript_P2WPKH (Env := sample_env) (Fork := sample_fork) (Checker := first_byte_checker)
    [7; 1] [7] (Hash160 [7]) sample_flags).
  - rewrite bool_decide_eq_true_2; reflexivity.
  - reflexivity.
  - discriminate.
  - split; reflexivity.
  - reflexivity.
  - vm_compute. reflexivity.
  - vm_compute. reflexivity.
  - discriminate.
  - exists false. split; [reflexivity | intros H; exfalso; cbv in H; apply H; reflexivity].
  - split; [bytes_closed | discriminate].
  - split; [bytes_closed | discriminate].
  - reflexivity.
  - reflexivity.
Defined.
