(* ===== verification/ArithUint256.v ===== *)
(** * Big unsigned integers

    [base_uint] and [arith_uint256] of [src/arith_uint256.h] and
    [arith_uint256.cpp]. The array [pn] is the list of its 32-bit limbs, the least
    significant first; [WIDTH] is its length, 8 for [arith_uint256]. *)

From S2P Require Import Prelude Common.

Open Scope outcome_scope.

(** ** Construction *)

Definition WIDTH : nat := 8.

(** [base_uint(uint64_t)] *)
Definition of_uint64 (w : nat) (b : Z) : list Z :=
  take w (uint32 b :: uint32 (Z.shiftr b 32) :: replicate (w - 2) 0).

Definition zeros (w : nat) : list Z := replicate w 0.

(** ** Operations limb by limb *)

Definition is_zero (a : list Z) : bool := forallb (Z.eqb 0) a.

Definition bnot (a : list Z) : list Z := map (fun x => uint32 (Z.lnot x)) a.

Definition bxor (a b : list Z) : list Z := zip_with Z.lxor a b.

Definition band (a b : list Z) : list Z := zip_with Z.land a b.

Definition bor (a b : list Z) : list Z := zip_with Z.lor a b.

(** ** Addition and subtraction *)

Fixpoint add_loop (carry : Z) (a b : list Z) : list Z :=
  match a, b with
  | x :: a, y :: b =>
    let n := uint64 (carry + x + y) in
    Z.land n 0xffffffff :: add_loop (Z.shiftr n 32) a b
  | _, _ => []
  end.

Definition badd (a b : list Z) : list Z := add_loop 0 a b.

(** [operator++]: the loop stops at the first limb that does not wrap. *)
Fixpoint bincr (a : list Z) : list Z :=
  match a with
  | [] => []
  | x :: a => let x := uint32 (x + 1) in if x =? 0 then x :: bincr a else x :: a
  end.

Fixpoint bdecr (a : list Z) : list Z :=
  match a with
  | [] => []
  | x :: a => let x := uint32 (x - 1) in if x =? uint32 (-1) then x :: bdecr a else x :: a
  end.

Definition bneg (a : list Z) : list Z := bincr (bnot a).

Definition bsub (a b : list Z) : list Z := badd a (bneg b).

(** ** Shifts *)

(** [pn[i] |= x] *)
Definition or_at (i : nat) (x : Z) (pn : list Z) : list Z := alter (fun p => Z.lor p x) i pn.

Definition limb (a : list Z) (i : nat) : Z := default 0 (a !! i).

Definition shl_step (w k : nat) (shift : Z) (a pn : list Z) (i : nat) : list Z :=
  let pn := if (i + k + 1 <? w)%nat && negb (shift =? 0) then or_at (i + k + 1) (Z.shiftr (limb a i) (32 - shift)) pn else pn in
  if (i + k <? w)%nat then or_at (i + k) (uint32 (Z.shiftl (limb a i) shift)) pn else pn.

Definition bshl (a : list Z) (shift : Z) : list Z :=
  let w := length a in
  foldl (shl_step w (Z.to_nat (shift / 32)) (shift mod 32) a) (zeros w) (seq 0 w).

Definition shr_step (k : nat) (shift : Z) (a pn : list Z) (i : nat) : list Z :=
  let pn := if (k + 1 <=? i)%nat && negb (shift =? 0) then or_at (i - k - 1) (uint32 (Z.shiftl (limb a i) (32 - shift))) pn else pn in
  if (k <=? i)%nat then or_at (i - k) (Z.shiftr (limb a i) shift) pn else pn.

Definition bshr (a : list Z) (shift : Z) : list Z :=
  let w := length a in
  foldl (shr_step (Z.to_nat (shift / 32)) (shift mod 32) a) (zeros w) (seq 0 w).

(** ** Multiplication *)

(** [operator*=(uint32_t)] *)
Fixpoint mul32_loop (b32 carry : Z) (a : list Z) : list Z :=
  match a with
  | [] => []
  | x :: a =>
    let n := uint64 (carry + b32 * x) in
    Z.land n 0xffffffff :: mul32_loop b32 (Z.shiftr n 32) a
  end.

Definition bmul32 (a : list Z) (b32 : Z) : list Z := mul32_loop b32 0 a.

(** The inner loop, on the limbs of the product from [j] on. *)
Fixpoint mul_row (aj carry : Z) (pn b : list Z) : list Z :=
  match pn, b with
  | p :: pn, y :: b =>
    let n := uint64 (carry + p + aj * y) in
    Z.land n 0xffffffff :: mul_row aj (Z.shiftr n 32) pn b
  | _, _ => pn
  end.

(** The outer loop: after iteration [j] the limb [j] is final. *)
Fixpoint mul_loop (a pn b : list Z) : list Z :=
  match a with
  | [] => pn
  | aj :: a =>
    match mul_row aj 0 pn b with
    | [] => []
    | p :: pn => p :: mul_loop a pn b
    end
  end.

Definition bmul (a b : list Z) : list Z := mul_loop a (zeros (length a)) b.

(** ** Comparison and size *)

(** From the most significant limb, [-1], [0] or [1]. *)
Fixpoint CompareTo_rev (a b : list Z) : Z :=
  match a, b with
  | x :: a, y :: b => if x <? y then -1 else if x >? y then 1 else CompareTo_rev a b
  | _, _ => 0
  end.

Definition CompareTo (a b : list Z) : Z := CompareTo_rev (reverse a) (reverse b).

Definition EqualTo (a : list Z) (b : Z) : bool :=
  forallb (Z.eqb 0) (drop 2 a) && (limb a 1 =? Z.shiftr b 32) && (limb a 0 =? Z.land b 0xffffffff).

Definition bge (a b : list Z) : bool := CompareTo a b >=? 0.

Definition bgt (a b : list Z) : bool := CompareTo a b >? 0.

(** The highest of the bits [nbits], ..., [1] that is set. *)
Fixpoint limb_bits (nbits : nat) (x : Z) : Z :=
  match nbits with
  | O => 1
  | S n => if flag x (Z.shiftl 1 (Z.of_nat nbits)) then Z.of_nat nbits + 1 else limb_bits n x
  end.

(** [rev] is the list of the limbs from [pos] down. *)
Fixpoint bits_rev (rev : list Z) : Z :=
  match rev with
  | [] => 0
  | x :: rev => if negb (x =? 0) then 32 * Zlen rev + limb_bits 31 x else bits_rev rev
  end.

Definition bits (a : list Z) : Z := bits_rev (reverse a).

Definition GetLow64 (a : list Z) : Z := Z.lor (limb a 0) (Z.shiftl (limb a 1) 32).

(** ** Division *)

(** [while (shift >= 0)]: the quotient is built in [pn]. *)
Fixpoint div_loop (fuel : nat) (shift : Z) (num div pn : list Z) : list Z :=
  match fuel with
  | O => pn
  | S fuel =>
    if shift >=? 0 then
      let hit := bge num div in
      let num := if hit then bsub num div else num in
      let pn := if hit then or_at (Z.to_nat (shift / 32)) (uint32 (Z.shiftl 1 (Z.land shift 31))) pn else pn in
      div_loop fuel (shift - 1) num (bshr div 1) pn
    else pn
  end.

Definition bdiv (a b : list Z) : outcome (list Z) :=
  let num_bits := bits a in
  let div_bits := bits b in
  if div_bits =? 0 then Throw uint_error
  else if div_bits >? num_bits then Ret (zeros (length a))
  else
    let shift := num_bits - div_bits in
    Ret (div_loop (Z.to_nat (shift + 1)) shift a (bshl b shift) (zeros (length a))).

(** ** The compact format and the conversions *)

Record compact := Compact {
  compact_value : list Z;
  pfNegative : bool;
  pfOverflow : bool
}.

Definition SetCompact (nCompact : Z) : compact :=
  let nSize := Z.shiftr nCompact 24 in
  let nWord := Z.land nCompact 0x007fffff in
  let nWord := if nSize <=? 3 then Z.shiftr nWord (8 * (3 - nSize)) else nWord in
  Compact
    (if nSize <=? 3 then of_uint64 WIDTH nWord else bshl (of_uint64 WIDTH nWord) (8 * (nSize - 3)))
    (negb (nWord =? 0) && flag nCompact 0x00800000)
    (negb (nWord =? 0) && ((nSize >? 34) || ((nWord >? 0xff) && (nSize >? 33)) || ((nWord >? 0xffff) && (nSize >? 32)))).

Definition GetCompact (a : list Z) (fNegative : bool) : outcome Z :=
  let nSize := (bits a + 7) / 8 in
  let nCompact := if nSize <=? 3 then uint32 (uint64 (Z.shiftl (GetLow64 a) (8 * (3 - nSize))))
                  else uint32 (GetLow64 (bshr a (8 * (nSize - 3)))) in
  let carry := flag nCompact 0x00800000 in
  let nCompact := if carry then Z.shiftr nCompact 8 else nCompact in
  let nSize := if carry then nSize + 1 else nSize in
  let? _ := cassert (Z.land nCompact (uint32 (Z.lnot 0x007fffff)) =? 0) in
  let? _ := cassert (nSize <? 256) in
  let nCompact := Z.lor nCompact (Z.shiftl nSize 24) in
  Ret (Z.lor nCompact (if fNegative && flag nCompact 0x007fffff then 0x00800000 else 0)).

Definition ArithToUint256 (a : list Z) : list Z := concat (map WriteLE32 a).

Fixpoint UintToArith_loop (n : nat) (b : list Z) : list Z :=
  match n with
  | O => []
  | S n => ReadLE32 b :: UintToArith_loop n (drop 4 b)
  end.

Definition UintToArith256 (b : list Z) : list Z := UintToArith_loop WIDTH b.
