(* ===== verification/ArithProps.v ===== *)
(** * Big unsigned integers compute modulo a power of two

    The value of a list of limbs, and the arithmetic of [ArithUint256] in terms of
    it. *)

From Stdlib Require Import ZifyBool.
From S2P Require Import Prelude Common ArithUint256.

(** ** Values *)

Definition limb_ok (x : Z) : Prop := 0 <= x < 2 ^ 32.

Fixpoint uval (a : list Z) : Z :=
  match a with
  | [] => 0
  | x :: a => x + 2 ^ 32 * uval a
  end.

(** The number of values of a list of [w] limbs. *)
Definition base (w : nat) : Z := 2 ^ (32 * Z.of_nat w).

Definition wf_uint (w : nat) (a : list Z) : Prop := length a = w /\ Forall limb_ok a.

Lemma base_S w : base (S w) = 2 ^ 32 * base w.
Proof. unfold base. rewrite <- Z.pow_add_r by lia. f_equal. lia. Qed.

Lemma base_pos w : 0 < base w.
Proof. unfold base. lia. Qed.

Lemma wf_cons w x a : wf_uint (S w) (x :: a) <-> limb_ok x /\ wf_uint w a.
Proof. unfold wf_uint. rewrite List.Forall_cons_iff. cbn [length]. split; intros; [intuition lia | intuition congruence]. Qed.

Lemma wf_nil a : wf_uint 0 a -> a = [].
Proof. intros [H _]. by destruct a. Qed.

(** Case analysis on well-formed numbers. *)
Lemma wf_S w a : wf_uint (S w) a -> exists x b, a = x :: b /\ limb_ok x /\ wf_uint w b.
Proof. destruct a as [| x b]; [by intros [? _] |]. intros H%wf_cons. by exists x, b. Qed.

Lemma uval_range w a : wf_uint w a -> 0 <= uval a < base w.
Proof.
  revert a. induction w as [| w IH]; intros a.
  - intros ->%wf_nil. unfold base. cbn. lia.
  - intros (x & b & -> & Hx & Hb)%wf_S. apply IH in Hb. rewrite base_S. unfold limb_ok in Hx. cbn [uval]. nia.
Qed.

Lemma uval_inj w a b : wf_uint w a -> wf_uint w b -> uval a = uval b -> a = b.
Proof.
  revert a b. induction w as [| w IH]; intros a b.
  - by intros ->%wf_nil ->%wf_nil.
  - intros (x & a' & -> & Hx & Ha)%wf_S (y & b' & -> & Hy & Hb)%wf_S. unfold limb_ok in *. cbn [uval]. intros E.
    assert (x = y) as -> by (apply (f_equal (fun z => z mod 2 ^ 32)) in E; rewrite !(Z.mul_comm (2 ^ 32)), !Z_mod_plus_full, !Z.mod_small in E; lia).
    f_equal. apply IH; [done | done | lia].
Qed.

Lemma low_limb n : Z.land n 0xffffffff = n mod 2 ^ 32.
Proof. apply (land_mask n 32). lia. Qed.

Lemma low_limb_ok n : limb_ok (Z.land n 0xffffffff).
Proof. rewrite low_limb. apply Z.mod_pos_bound. lia. Qed.

(** A limb and the carry out of it. *)
Lemma limb_carry n r w :
  0 <= n -> (Z.land n 0xffffffff + 2 ^ 32 * ((Z.shiftr n 32 + r) mod base w)) = (n + 2 ^ 32 * r) mod base (S w).
Proof.
  intros Hn. rewrite low_limb, Z.shiftr_div_pow2, base_S by lia. pose proof (base_pos w).
  rewrite Z.rem_mul_r by lia. f_equal.
  - rewrite Z.mul_comm, Z_mod_plus_full. done.
  - f_equal. f_equal. rewrite Z.mul_comm, Z.div_add by lia. done.
Qed.

(** ** Addition, negation and multiplication *)

Lemma add_loop_spec w carry a b :
  wf_uint w a -> wf_uint w b -> 0 <= carry <= 1 ->
  wf_uint w (add_loop carry a b) /\ uval (add_loop carry a b) = (carry + (uval a + uval b)) mod base w.
Proof.
  revert carry a b. induction w as [| w IH]; intros carry a b Ha Hb Hc.
  { apply wf_nil in Ha as ->. by rewrite Z.mod_1_r. }
  apply wf_S in Ha as (x & a' & -> & Hx & Ha). apply wf_S in Hb as (y & b' & -> & Hy & Hb). unfold limb_ok in *.
  cbn [add_loop uval]. rewrite uint64_id by lia.
  destruct (IH (Z.shiftr (carry + x + y) 32) a' b' Ha Hb) as [Hwf Hv].
  { rewrite Z.shiftr_div_pow2 by lia. split; [apply Z.div_pos; lia |]. apply Z.lt_succ_r, Z.div_lt_upper_bound; lia. }
  split; [apply wf_cons; split; [apply low_limb_ok | done] |].
  rewrite Hv, limb_carry by lia. f_equal. lia.
Qed.

Lemma badd_spec w a b :
  wf_uint w a -> wf_uint w b -> wf_uint w (badd a b) /\ uval (badd a b) = (uval a + uval b) mod base w.
Proof. intros Ha Hb. apply (add_loop_spec w 0 a b Ha Hb). lia. Qed.

Lemma bnot_spec w a : wf_uint w a -> wf_uint w (bnot a) /\ uval (bnot a) = base w - 1 - uval a.
Proof.
  revert a. induction w as [| w IH]; intros a.
  { intros ->%wf_nil. split; [by split |]. done. }
  intros (x & b & -> & Hx & Hb)%wf_S. apply IH in Hb as [Hwf Hv]. unfold limb_ok in Hx.
  assert (Hn : uint32 (Z.lnot x) = 2 ^ 32 - 1 - x).
  { unfold uint32, Z.lnot. rewrite <- (Z.mod_small (2 ^ 32 - 1 - x) (2 ^ 32)) by lia.
    rewrite <- (Z_mod_plus_full (Z.pred (- x)) 1). f_equal. lia. }
  cbn [bnot map uval]. fold (bnot b). rewrite Hn, Hv, base_S. split; [| lia].
  apply wf_cons. split; [unfold limb_ok; lia | done].
Qed.

Lemma bincr_spec w a : wf_uint w a -> wf_uint w (bincr a) /\ uval (bincr a) = (uval a + 1) mod base w.
Proof.
  revert a. induction w as [| w IH]; intros a.
  { intros ->%wf_nil. split; [by split |]. cbn. by rewrite Z.mod_1_r. }
  intros (x & b & -> & Hx & Hb)%wf_S. pose proof (uval_range _ _ Hb) as Hr. unfold limb_ok in Hx.
  cbn [bincr]. unfold uint32. destruct (Z.eq_dec x (2 ^ 32 - 1)) as [-> | Hne].
  - change ((2 ^ 32 - 1 + 1) mod 2 ^ 32 =? 0) with true. cbn iota. apply IH in Hb as [Hwf Hv].
    split; [apply wf_cons; split; [by split | done] |]. cbn [uval]. rewrite Hv, base_S.
    change ((2 ^ 32 - 1 + 1) mod 2 ^ 32) with 0. rewrite Z.add_0_l, <- Z.mul_mod_distr_l by (pose proof (base_pos w); lia).
    f_equal. lia.
  - rewrite Z.mod_small by lia. destruct (Z.eqb_spec (x + 1) 0); [lia |].
    split; [apply wf_cons; split; [unfold limb_ok; lia | done] |]. cbn [uval]. rewrite base_S, Z.mod_small; nia.
Qed.

Lemma bneg_spec w a : wf_uint w a -> wf_uint w (bneg a) /\ uval (bneg a) = (- uval a) mod base w.
Proof.
  intros Ha. destruct (bnot_spec w a Ha) as [Hn Hv]. destruct (bincr_spec w _ Hn) as [Hi Hw].
  split; [done |]. unfold bneg. rewrite Hw, Hv. rewrite <- (Z_mod_plus_full (- uval a) 1). f_equal. lia.
Qed.

Lemma bsub_spec w a b :
  wf_uint w a -> wf_uint w b -> wf_uint w (bsub a b) /\ uval (bsub a b) = (uval a - uval b) mod base w.
Proof.
  intros Ha Hb. destruct (bneg_spec w b Hb) as [Hn Hv]. destruct (badd_spec w a _ Ha Hn) as [Hs Hw].
  split; [done |]. unfold bsub. rewrite Hw, Hv, Zplus_mod_idemp_r. done.
Qed.

Lemma bdecr_spec w a : wf_uint w a -> wf_uint w (bdecr a) /\ uval (bdecr a) = (uval a - 1) mod base w.
Proof.
  revert a. induction w as [| w IH]; intros a.
  { intros ->%wf_nil. split; [by split |]. cbn. by rewrite Z.mod_1_r. }
  intros (x & b & -> & Hx & Hb)%wf_S. pose proof (uval_range _ _ Hb) as Hr. unfold limb_ok in Hx.
  cbn [bdecr]. unfold uint32. destruct (Z.eq_dec x 0) as [-> | Hne].
  - change ((0 - 1) mod 2 ^ 32 =? -1 mod 2 ^ 32) with true. cbn iota. apply IH in Hb as [Hwf Hv].
    split; [apply wf_cons; split; [by split | done] |]. cbn [uval]. rewrite Hv, base_S.
    change ((0 - 1) mod 2 ^ 32) with (2 ^ 32 - 1). rewrite <- Z.mul_mod_distr_l by (pose proof (base_pos w); lia).
    rewrite <- base_S.
    assert (H : (2 ^ 32 - 1 + (2 ^ 32 * (uval b - 1)) mod base (S w)) mod base (S w) = (0 + 2 ^ 32 * uval b - 1) mod base (S w)).
    { rewrite Zplus_mod_idemp_r. f_equal. lia. }
    rewrite <- H, (Z.mod_small (2 ^ 32 - 1 + _)); [done |]. rewrite base_S, Z.mul_mod_distr_l by (pose proof (base_pos w); lia).
    pose proof (Z.mod_pos_bound (uval b - 1) (base w) (base_pos w)). lia.
  - rewrite Z.mod_small by lia. change (-1 mod 2 ^ 32) with (2 ^ 32 - 1). destruct (Z.eqb_spec (x - 1) (2 ^ 32 - 1)); [lia |].
    split; [apply wf_cons; split; [unfold limb_ok; lia | done] |]. cbn [uval]. rewrite base_S, Z.mod_small; nia.
Qed.

Lemma mul_high_ok n : 0 <= n < 2 ^ 64 -> limb_ok (Z.shiftr n 32).
Proof.
  intros Hn. rewrite Z.shiftr_div_pow2 by lia. split; [apply Z.div_pos; lia |]. apply Z.div_lt_upper_bound; lia.
Qed.

Lemma mul32_loop_spec w b32 carry a :
  wf_uint w a -> limb_ok b32 -> limb_ok carry ->
  wf_uint w (mul32_loop b32 carry a) /\ uval (mul32_loop b32 carry a) = (carry + b32 * uval a) mod base w.
Proof.
  intros Ha Hb. revert carry a Ha. induction w as [| w IH]; intros carry a Ha Hc.
  { apply wf_nil in Ha as ->. by rewrite Z.mod_1_r. }
  apply wf_S in Ha as (x & a' & -> & Hx & Ha). unfold limb_ok in *. cbn [mul32_loop uval].
  assert (Hn : 0 <= carry + b32 * x < 2 ^ 64) by nia. rewrite uint64_id by lia.
  destruct (IH _ _ Ha (mul_high_ok _ Hn)) as [Hwf Hv].
  split; [apply wf_cons; split; [apply low_limb_ok | done] |]. rewrite Hv, limb_carry by lia. f_equal. lia.
Qed.

Lemma mul_row_spec m aj carry pn b :
  wf_uint m pn -> Forall limb_ok b -> (m <= length b)%nat -> limb_ok aj -> limb_ok carry ->
  wf_uint m (mul_row aj carry pn b) /\
  uval (mul_row aj carry pn b) = (carry + (uval pn + aj * uval b)) mod base m.
Proof.
  revert carry pn b. induction m as [| m IH]; intros carry pn b Hp Hb Hlen Haj Hc.
  { apply wf_nil in Hp as ->. by rewrite Z.mod_1_r. }
  apply wf_S in Hp as (x & pn' & -> & Hx & Hp). destruct b as [| y b]; [cbn in Hlen; lia |].
  apply List.Forall_cons_iff in Hb as [Hy Hb]. cbn [length] in Hlen. unfold limb_ok in *. cbn [mul_row uval].
  assert (Hn : 0 <= carry + x + aj * y < 2 ^ 64) by nia. rewrite uint64_id by lia.
  destruct (IH _ _ b Hp Hb ltac:(lia) Haj (mul_high_ok _ Hn)) as [Hwf Hv].
  split; [apply wf_cons; split; [apply low_limb_ok | done] |]. rewrite Hv, limb_carry by lia. f_equal. lia.
Qed.

Lemma mul_loop_spec m a pn b :
  wf_uint m a -> wf_uint m pn -> Forall limb_ok b -> (m <= length b)%nat ->
  wf_uint m (mul_loop a pn b) /\ uval (mul_loop a pn b) = (uval pn + uval a * uval b) mod base m.
Proof.
  revert a pn. induction m as [| m IH]; intros a pn Ha Hp Hb Hlen.
  { apply wf_nil in Ha as ->. apply wf_nil in Hp as ->. by rewrite Z.mod_1_r. }
  apply wf_S in Ha as (aj & a' & -> & Haj & Ha).
  destruct (mul_row_spec _ aj 0 pn b Hp Hb Hlen Haj ltac:(done)) as [Hr Hv]. cbn [mul_loop].
  apply wf_S in Hr as (p & pn' & Er & Hpo & Hp'). rewrite Er in Hv |- *. cbn [uval] in Hv |- *.
  destruct (IH a' pn' Ha Hp' Hb ltac:(lia)) as [Hwf Hv']. split; [by apply wf_cons |].
  rewrite Hv', base_S in *. pose proof (base_pos m). unfold limb_ok in Hpo.
  assert (Hdiv : forall r, 0 <= p < 2 ^ 32 -> p + 2 ^ 32 * (r mod base m) = (p + 2 ^ 32 * r) mod (2 ^ 32 * base m)).
  { intros r Hp0. rewrite Z.rem_mul_r by lia.
    assert (E1 : (p + 2 ^ 32 * r) mod 2 ^ 32 = p) by (rewrite Z.mul_comm, Z_mod_plus_full; by apply Z.mod_small).
    assert (E2 : (p + 2 ^ 32 * r) / 2 ^ 32 = r) by (rewrite Z.mul_comm, Z.div_add, Z.div_small by lia; lia).
    by rewrite E1, E2. }
  rewrite Hdiv by done.
  replace (p + 2 ^ 32 * (uval pn' + uval a' * uval b)) with (p + 2 ^ 32 * uval pn' + 2 ^ 32 * uval a' * uval b) by lia.
  rewrite Hv, Zplus_mod_idemp_l. f_equal. lia.
Qed.

Lemma wf_zeros w : wf_uint w (zeros w) /\ uval (zeros w) = 0.
Proof.
  unfold zeros. split; [split; [apply length_replicate | apply Forall_replicate; unfold limb_ok; lia] |].
  induction w as [| w IH]; [done |]. cbn [replicate uval]. rewrite IH. done.
Qed.

Lemma bmul_spec w a b :
  wf_uint w a -> wf_uint w b -> wf_uint w (bmul a b) /\ uval (bmul a b) = (uval a * uval b) mod base w.
Proof.
  intros Ha [Hl Hb]. unfold bmul. rewrite (proj1 Ha). destruct (wf_zeros w) as [Hz Hv].
  destruct (mul_loop_spec w a (zeros w) b Ha Hz Hb ltac:(lia)) as [Hwf Hm]. split; [done |]. rewrite Hm, Hv. f_equal.
Qed.

(** ** Bits *)

(** A bit of the value is a bit of a limb. *)
Lemma uval_testbit a i r :
  Forall limb_ok a -> 0 <= r < 32 -> Z.testbit (uval a) (32 * Z.of_nat i + r) = Z.testbit (limb a i) r.
Proof.
  intros Ha Hr. revert i. induction Ha as [| x a Hx _ IH]; intros i; [unfold limb; by rewrite lookup_nil, !Z.testbit_0_l |].
  unfold limb_ok in Hx. cbn [uval]. destruct i as [| i].
  - change (limb (x :: a) 0) with x. replace (32 * Z.of_nat 0 + r) with r by lia.
    rewrite <- (Z.mod_pow2_bits_low (x + _) 32) by lia. rewrite Z.mul_comm, Z_mod_plus_full, Z.mod_small by lia. done.
  - change (limb (x :: a) (S i)) with (limb a i). rewrite <- IH.
    replace (32 * Z.of_nat (S i) + r) with (32 * Z.of_nat i + r + 32) by lia.
    rewrite <- Z.div_pow2_bits by lia. f_equal. rewrite Z.mul_comm, Z.div_add, Z.div_small by lia. lia.
Qed.

Lemma limb_range a i : Forall limb_ok a -> limb_ok (limb a i).
Proof. intros H. unfold limb. destruct (a !! i) as [x |] eqn:E; [by eapply Forall_lookup_1 | done]. Qed.

(** Bits that agree limb by limb are equal values. *)
Lemma uval_bits w a z :
  wf_uint w a -> 0 <= z < base w ->
  (forall i r, (i < w)%nat -> 0 <= r < 32 -> Z.testbit (limb a i) r = Z.testbit z (32 * Z.of_nat i + r)) -> uval a = z.
Proof.
  intros Ha Hz H. pose proof (uval_range _ _ Ha). apply Z.bits_inj'. intros n Hn.
  destruct (Z.lt_ge_cases n (32 * Z.of_nat w)) as [Hlt | Hge].
  - pose proof (Z.div_mod n 32). pose proof (Z.mod_pos_bound n 32).
    assert (0 <= n / 32) by (apply Z.div_pos; lia).
    replace n with (32 * Z.of_nat (Z.to_nat (n / 32)) + n mod 32) by lia.
    rewrite uval_testbit by (try apply Ha; lia). apply H; lia.
  - unfold base in *. rewrite <- (Z.mod_small (uval a) (2 ^ (32 * Z.of_nat w))), <- (Z.mod_small z (2 ^ (32 * Z.of_nat w))) by lia.
    rewrite !Z.mod_pow2_bits_high by lia. done.
Qed.

(** ** Shifts *)

Lemma length_or_at i x pn : length (or_at i x pn) = length pn.
Proof. apply length_alter. Qed.

Lemma limb_or_at i x pn j :
  (i < length pn)%nat -> limb (or_at i x pn) j = if (j =? i)%nat then Z.lor (limb pn j) x else limb pn j.
Proof.
  intros Hi. unfold limb, or_at. destruct (Nat.eqb_spec j i) as [-> | Hne].
  - rewrite list_lookup_alter_eq. by apply lookup_lt_is_Some_2 in Hi as [y ->].
  - by rewrite list_lookup_alter_ne.
Qed.

Lemma limb_zeros w j : limb (zeros w) j = 0.
Proof.
  unfold limb, zeros. destruct (replicate w 0 !! j) as [x |] eqn:E; [| done]. by apply lookup_replicate in E as [-> _].
Qed.

(** A bit shifted into a limb from the limb below or from the limb itself. *)
Lemma testbit_hi x s r :
  limb_ok x -> 0 < s < 32 -> 0 <= r < 32 -> Z.testbit (Z.shiftr x (32 - s)) r = (r <? s) && Z.testbit x (32 + r - s).
Proof.
  intros Hx Hs Hr. rewrite Z.shiftr_spec by lia. replace (r + (32 - s)) with (32 + r - s) by lia.
  destruct (Z.ltb_spec r s); [done |]. unfold limb_ok in Hx. rewrite <- (Z.mod_small x (2 ^ 32)) by lia.
  apply Z.mod_pow2_bits_high. lia.
Qed.

Lemma testbit_lo x s r :
  0 <= s < 32 -> 0 <= r < 32 -> Z.testbit (uint32 (Z.shiftl x s)) r = (s <=? r) && Z.testbit x (r - s).
Proof.
  intros Hs Hr. unfold uint32. rewrite Z.mod_pow2_bits_low, Z.shiftl_spec by lia.
  destruct (Z.leb_spec s r); [done |]. apply Z.testbit_neg_r. lia.
Qed.

Lemma uint32_ok x : limb_ok (uint32 x).
Proof. apply uint32_range. Qed.

Lemma shiftr_ok x n : limb_ok x -> 0 <= n -> limb_ok (Z.shiftr x n).
Proof.
  intros Hx Hn. unfold limb_ok in *. rewrite Z.shiftr_div_pow2 by lia. split; [apply Z.div_pos; lia |].
  apply Z.div_lt_upper_bound; [lia |]. assert (1 <= 2 ^ n) by lia. nia.
Qed.

Lemma lor_ok x y : limb_ok x -> limb_ok y -> limb_ok (Z.lor x y).
Proof.
  unfold limb_ok. intros Hx Hy. split; [apply Z.lor_nonneg; lia |].
  destruct (Z.eq_dec (Z.lor x y) 0) as [-> | Hne]; [lia |].
  assert (0 <= Z.lor x y) by (apply Z.lor_nonneg; lia).
  apply Z.log2_lt_pow2; [lia |]. rewrite Z.log2_lor by lia.
  assert (Hlog : forall z, 0 <= z < 2 ^ 32 -> Z.log2 z < 32).
  { intros z Hz. destruct (Z.eq_dec z 0) as [-> | ?]; [done |]. apply Z.log2_lt_pow2; lia. }
  apply Z.max_lub_lt; by apply Hlog.
Qed.

Lemma or_at_ok i x pn : Forall limb_ok pn -> limb_ok x -> Forall limb_ok (or_at i x pn).
Proof.
  intros Hp Hx. apply Forall_alter; [done |]. intros y _ Hy. by apply lor_ok.
Qed.

Section Shl.
Variables (a : list Z) (k : nat) (s : Z).
Hypothesis Ha : Forall limb_ok a.
Hypothesis Hs : 0 <= s < 32.

Definition shl_state (m : nat) : list Z := foldl (shl_step (length a) k s a) (zeros (length a)) (seq 0 m).

Lemma shl_state_S m : shl_state (S m) = shl_step (length a) k s a (shl_state m) m.
Proof. unfold shl_state. by rewrite seq_S, foldl_app. Qed.

Lemma shl_step_ok pn i :
  length pn = length a -> Forall limb_ok pn ->
  length (shl_step (length a) k s a pn i) = length a /\ Forall limb_ok (shl_step (length a) k s a pn i).
Proof.
  intros Hl Hp. unfold shl_step.
  repeat case_match; rewrite ?length_or_at; (split; [done |]); repeat apply or_at_ok; try done;
    first [apply uint32_ok | apply shiftr_ok; [by apply limb_range | lia]].
Qed.

Lemma shl_state_ok m : length (shl_state m) = length a /\ Forall limb_ok (shl_state m).
Proof.
  induction m as [| m [IH1 IH2]].
  - destruct (wf_zeros (length a)) as [[H1 H2] _]. done.
  - rewrite shl_state_S. by apply shl_step_ok.
Qed.

(** The bits of a limb after [m] iterations. *)
Definition shl_bit (m j : nat) (r : Z) : bool :=
  if r <? s then (k + 1 <=? j)%nat && (j - k - 1 <? m)%nat && Z.testbit (limb a (j - k - 1)) (32 + r - s)
  else (k <=? j)%nat && (j - k <? m)%nat && Z.testbit (limb a (j - k)) (r - s).

Lemma shl_step_bit pn i j r :
  length pn = length a -> (j < length a)%nat -> 0 <= r < 32 ->
  Z.testbit (limb (shl_step (length a) k s a pn i) j) r =
    Z.testbit (limb pn j) r || ((j =? i + k + 1)%nat && (r <? s) && Z.testbit (limb a i) (32 + r - s))
      || ((j =? i + k)%nat && (s <=? r) && Z.testbit (limb a i) (r - s)).
Proof.
  intros Hl Hj Hr. unfold shl_step. pose proof (limb_range a i Ha).
  set (pn1 := if (i + k + 1 <? length a)%nat && negb (s =? 0) then or_at (i + k + 1) (Z.shiftr (limb a i) (32 - s)) pn else pn).
  assert (Hl1 : length pn1 = length pn) by (unfold pn1; case_match; [apply length_or_at | done]).
  assert (H1 : Z.testbit (limb pn1 j) r =
    Z.testbit (limb pn j) r || ((j =? i + k + 1)%nat && (r <? s) && Z.testbit (limb a i) (32 + r - s))).
  { unfold pn1. destruct (Z.eqb_spec s 0) as [-> | Hs0]; cbn [negb].
    - rewrite andb_false_r, (proj2 (Z.ltb_ge r 0)), andb_false_r, orb_false_r by lia. done.
    - rewrite andb_true_r. destruct (Nat.ltb_spec (i + k + 1) (length a)) as [Hlt | Hge].
      + rewrite limb_or_at by lia. destruct (Nat.eqb_spec j (i + k + 1)); [| by rewrite orb_false_r].
        by rewrite Z.lor_spec, testbit_hi by (done || lia).
      + destruct (Nat.eqb_spec j (i + k + 1)); [lia | by rewrite orb_false_r]. }
  rewrite <- H1. destruct (Nat.ltb_spec (i + k) (length a)) as [Hlt | Hge].
  - rewrite limb_or_at by lia. destruct (Nat.eqb_spec j (i + k)); [| by rewrite orb_false_r].
    by rewrite Z.lor_spec, testbit_lo by lia.
  - destruct (Nat.eqb_spec j (i + k)); [lia | by rewrite orb_false_r].
Qed.

Lemma shl_state_bit m j r :
  (j < length a)%nat -> 0 <= r < 32 -> Z.testbit (limb (shl_state m) j) r = shl_bit m j r.
Proof.
  intros Hj Hr. unfold shl_bit. induction m as [| m IH].
  { change (shl_state 0) with (zeros (length a)). rewrite limb_zeros, Z.testbit_0_l.
    by destruct (r <? s); (destruct (_ <? 0)%nat eqn:E; [apply Nat.ltb_lt in E; lia |]); rewrite andb_false_r. }
  rewrite shl_state_S, shl_step_bit, IH by (done || apply shl_state_ok).
  destruct (Z.ltb_spec r s), (Z.leb_spec s r); try lia; rewrite ?andb_true_r, ?andb_false_r, ?orb_false_r, ?andb_false_l, ?orb_false_r.
  - destruct (Nat.leb_spec (k + 1) j); cbn [andb].
    + destruct (Nat.eqb_spec j (m + k + 1)) as [-> | Hne].
      * replace (m + k + 1 - k - 1)%nat with m by lia. rewrite Nat.ltb_irrefl, (proj2 (Nat.ltb_lt m (S m))) by lia. done.
      * cbn [andb]. rewrite orb_false_r. f_equal. apply Bool.eq_iff_eq_true. rewrite !Nat.ltb_lt. lia.
    + destruct (Nat.eqb_spec j (m + k + 1)); [lia | done].
  - destruct (Nat.leb_spec k j); cbn [andb].
    + destruct (Nat.eqb_spec j (m + k)) as [-> | Hne].
      * replace (m + k - k)%nat with m by lia. rewrite Nat.ltb_irrefl, (proj2 (Nat.ltb_lt m (S m))) by lia. done.
      * cbn [andb]. rewrite orb_false_r. f_equal. apply Bool.eq_iff_eq_true. rewrite !Nat.ltb_lt. lia.
    + destruct (Nat.eqb_spec j (m + k)); [lia | done].
Qed.
End Shl.

Lemma bshl_spec w a shift :
  wf_uint w a -> 0 <= shift -> wf_uint w (bshl a shift) /\ uval (bshl a shift) = (uval a * 2 ^ shift) mod base w.
Proof.
  intros [Hl Ha] Hsh. pose proof (Z.mod_pos_bound shift 32 ltac:(lia)) as Hs. pose proof (Z.div_mod shift 32 ltac:(lia)) as Hdm.
  assert (Hk : 0 <= shift / 32) by (apply Z.div_pos; lia).
  change (bshl a shift) with (shl_state a (Z.to_nat (shift / 32)) (shift mod 32) (length a)).
  set (k := Z.to_nat (shift / 32)) in *. set (s := shift mod 32) in *.
  destruct (shl_state_ok a k s Ha Hs (length a)) as [Hl' Hok]. assert (Hwf : wf_uint w (shl_state a k s (length a))) by (split; [lia | done]).
  split; [done |]. apply (uval_bits w); [done | apply Z.mod_pos_bound, base_pos |].
  intros j r Hj Hr. rewrite shl_state_bit by (done || lia). unfold base, shl_bit.
  rewrite Z.mod_pow2_bits_low, Z.mul_pow2_bits by lia.
  replace shift with (32 * Z.of_nat k + s) by lia.
  destruct (Z.ltb_spec r s); [destruct (Nat.leb_spec (k + 1) j) | destruct (Nat.leb_spec k j)]; cbn [andb];
    try (symmetry; apply Z.testbit_neg_r; lia).
  - rewrite (proj2 (Nat.ltb_lt (j - k - 1) (length a))), <- uval_testbit by (done || lia). cbn [andb]. f_equal. lia.
  - rewrite (proj2 (Nat.ltb_lt (j - k) (length a))), <- uval_testbit by (done || lia). cbn [andb]. f_equal. lia.
Qed.

Section Shr.
Variables (a : list Z) (k : nat) (s : Z).
Hypothesis Ha : Forall limb_ok a.
Hypothesis Hs : 0 <= s < 32.

Definition shr_state (m : nat) : list Z := foldl (shr_step k s a) (zeros (length a)) (seq 0 m).

Lemma shr_state_S m : shr_state (S m) = shr_step k s a (shr_state m) m.
Proof. unfold shr_state. by rewrite seq_S, foldl_app. Qed.

Lemma shr_step_ok pn i :
  length pn = length a -> Forall limb_ok pn ->
  length (shr_step k s a pn i) = length a /\ Forall limb_ok (shr_step k s a pn i).
Proof.
  intros Hl Hp. unfold shr_step.
  repeat case_match; rewrite ?length_or_at; (split; [done |]); repeat apply or_at_ok; try done;
    first [apply uint32_ok | apply shiftr_ok; [by apply limb_range | lia]].
Qed.

Lemma shr_state_ok m : length (shr_state m) = length a /\ Forall limb_ok (shr_state m).
Proof.
  induction m as [| m [IH1 IH2]].
  - destruct (wf_zeros (length a)) as [[H1 H2] _]. done.
  - rewrite shr_state_S. by apply shr_step_ok.
Qed.

(** The bits of a limb after [m] iterations. *)
Definition shr_bit (m j : nat) (r : Z) : bool :=
  if r <? 32 - s then (j + k <? m)%nat && Z.testbit (limb a (j + k)) (r + s)
  else (j + k + 1 <? m)%nat && Z.testbit (limb a (j + k + 1)) (r + s - 32).

Lemma testbit_shr x r :
  limb_ok x -> 0 <= r < 32 -> Z.testbit (Z.shiftr x s) r = (r <? 32 - s) && Z.testbit x (r + s).
Proof.
  intros Hx Hr. rewrite Z.shiftr_spec by lia. destruct (Z.ltb_spec r (32 - s)); [done |].
  unfold limb_ok in Hx. rewrite <- (Z.mod_small x (2 ^ 32)) by lia. apply Z.mod_pow2_bits_high. lia.
Qed.

Lemma shr_step_bit pn i j r :
  length pn = length a -> (i < length a)%nat -> (j < length a)%nat -> 0 <= r < 32 ->
  Z.testbit (limb (shr_step k s a pn i) j) r =
    Z.testbit (limb pn j) r || ((i =? j + k + 1)%nat && (32 - s <=? r) && Z.testbit (limb a i) (r + s - 32))
      || ((i =? j + k)%nat && (r <? 32 - s) && Z.testbit (limb a i) (r + s)).
Proof.
  intros Hl Hi Hj Hr. unfold shr_step. pose proof (limb_range a i Ha).
  set (pn1 := if (k + 1 <=? i)%nat && negb (s =? 0) then or_at (i - k - 1) (uint32 (Z.shiftl (limb a i) (32 - s))) pn else pn).
  assert (Hl1 : length pn1 = length pn) by (unfold pn1; case_match; [apply length_or_at | done]).
  assert (H1 : Z.testbit (limb pn1 j) r =
    Z.testbit (limb pn j) r || ((i =? j + k + 1)%nat && (32 - s <=? r) && Z.testbit (limb a i) (r + s - 32))).
  { unfold pn1. destruct (Z.eqb_spec s 0) as [-> | Hs0]; cbn [negb].
    - rewrite andb_false_r, (proj2 (Z.leb_gt (32 - 0) r)), andb_false_r, orb_false_r by lia. done.
    - rewrite andb_true_r. destruct (Nat.leb_spec (k + 1) i) as [Hlt | Hge].
      + rewrite limb_or_at by lia.
        destruct (Nat.eqb_spec j (i - k - 1)), (Nat.eqb_spec i (j + k + 1)); try (exfalso; lia); [| by rewrite orb_false_r].
        rewrite Z.lor_spec, testbit_lo by lia. cbn [andb]. do 3 f_equal. lia.
      + destruct (Nat.eqb_spec i (j + k + 1)); [lia | by rewrite orb_false_r]. }
  rewrite <- H1. destruct (Nat.leb_spec k i) as [Hlt | Hge].
  - rewrite limb_or_at by lia.
    destruct (Nat.eqb_spec j (i - k)), (Nat.eqb_spec i (j + k)); try (exfalso; lia); [| by rewrite orb_false_r].
    by rewrite Z.lor_spec, testbit_shr by (done || lia).
  - destruct (Nat.eqb_spec i (j + k)); [lia | by rewrite orb_false_r].
Qed.

Lemma shr_state_bit m j r :
  (m <= length a)%nat -> (j < length a)%nat -> 0 <= r < 32 -> Z.testbit (limb (shr_state m) j) r = shr_bit m j r.
Proof.
  intros Hm Hj Hr. unfold shr_bit. induction m as [| m IH].
  { change (shr_state 0) with (zeros (length a)). rewrite limb_zeros, Z.testbit_0_l.
    by destruct (r <? _); (destruct (_ <? 0)%nat eqn:E; [apply Nat.ltb_lt in E; lia |]). }
  rewrite shr_state_S, shr_step_bit, IH by (lia || apply shr_state_ok).
  destruct (Z.ltb_spec r (32 - s)), (Z.leb_spec (32 - s) r); try lia; rewrite ?andb_true_r, ?andb_false_r, ?orb_false_r, ?andb_false_l, ?orb_false_r.
  - destruct (Nat.eqb_spec m (j + k)) as [-> | Hne].
    + rewrite Nat.ltb_irrefl, (proj2 (Nat.ltb_lt (j + k) (S (j + k)))) by lia. done.
    + cbn [andb]. rewrite orb_false_r. f_equal. apply Bool.eq_iff_eq_true. rewrite !Nat.ltb_lt. lia.
  - destruct (Nat.eqb_spec m (j + k + 1)) as [-> | Hne].
    + rewrite Nat.ltb_irrefl, (proj2 (Nat.ltb_lt (j + k + 1) (S (j + k + 1)))) by lia. done.
    + cbn [andb]. rewrite orb_false_r. f_equal. apply Bool.eq_iff_eq_true. rewrite !Nat.ltb_lt. lia.
Qed.
End Shr.

Lemma limb_beyond a i : (length a <= i)%nat -> limb a i = 0.
Proof. intros H. unfold limb. by rewrite (proj2 (lookup_ge_None a i)). Qed.

Lemma bshr_spec w a shift :
  wf_uint w a -> 0 <= shift -> wf_uint w (bshr a shift) /\ uval (bshr a shift) = uval a / 2 ^ shift.
Proof.
  intros [Hl Ha] Hsh. pose proof (Z.mod_pos_bound shift 32 ltac:(lia)) as Hs. pose proof (Z.div_mod shift 32 ltac:(lia)) as Hdm.
  assert (Hk : 0 <= shift / 32) by (apply Z.div_pos; lia).
  change (bshr a shift) with (shr_state a (Z.to_nat (shift / 32)) (shift mod 32) (length a)).
  set (k := Z.to_nat (shift / 32)) in *. set (s := shift mod 32) in *.
  destruct (shr_state_ok a k s Ha Hs (length a)) as [Hl' Hok]. assert (Hwf : wf_uint w (shr_state a k s (length a))) by (split; [lia | done]).
  pose proof (uval_range w a (conj Hl Ha)) as Hr.
  split; [done |]. apply (uval_bits w); [done | |].
  { split; [apply Z.div_pos; lia |]. apply Z.div_lt_upper_bound; [lia |]. assert (1 <= 2 ^ shift) by lia. nia. }
  intros j r Hj Hr0. rewrite shr_state_bit by (done || lia). unfold shr_bit.
  rewrite Z.div_pow2_bits by lia. replace shift with (32 * Z.of_nat k + s) by lia.
  destruct (Z.ltb_spec r (32 - s)).
  - replace (32 * Z.of_nat j + r + (32 * Z.of_nat k + s)) with (32 * Z.of_nat (j + k) + (r + s)) by lia.
    rewrite uval_testbit by (done || lia). destruct (Nat.ltb_spec (j + k) (length a)); [done |].
    by rewrite limb_beyond, Z.testbit_0_l.
  - replace (32 * Z.of_nat j + r + (32 * Z.of_nat k + s)) with (32 * Z.of_nat (j + k + 1) + (r + s - 32)) by lia.
    rewrite uval_testbit by (done || lia). destruct (Nat.ltb_spec (j + k + 1) (length a)); [done |].
    by rewrite limb_beyond, Z.testbit_0_l.
Qed.

(** ** Comparison and size *)

Lemma uval_snoc a x : uval (a ++ [x]) = uval a + base (length a) * x.
Proof.
  induction a as [| y a IH]; [unfold base; cbn; lia |]. cbn [app uval length]. rewrite IH, base_S. lia.
Qed.

Lemma wf_snoc w a : wf_uint (S w) a -> exists b x, a = b ++ [x] /\ wf_uint w b /\ limb_ok x.
Proof.
  intros [Hl Ha]. destruct a as [| x b] using rev_ind; [done |]. exists b, x. rewrite length_app in Hl. cbn in Hl.
  apply Forall_app in Ha as [Hb Hx]. apply List.Forall_cons_iff in Hx as [Hx _]. split; [done |]. split; [split; [lia | done] | done].
Qed.

Lemma CompareTo_spec w a b :
  wf_uint w a -> wf_uint w b ->
  CompareTo a b = if uval a <? uval b then -1 else if uval a >? uval b then 1 else 0.
Proof.
  revert a b. induction w as [| w IH]; intros a b Ha Hb.
  { by apply wf_nil in Ha as ->; apply wf_nil in Hb as ->. }
  apply wf_snoc in Ha as (a' & x & -> & Ha & Hx). apply wf_snoc in Hb as (b' & y & -> & Hb & Hy).
  unfold CompareTo. rewrite !reverse_snoc. cbn [CompareTo_rev]. fold (CompareTo a' b'). rewrite IH by done.
  rewrite !uval_snoc, (proj1 Ha), (proj1 Hb).
  pose proof (uval_range _ _ Ha). pose proof (uval_range _ _ Hb). pose proof (base_pos w). rewrite !Z.gtb_ltb.
  destruct (Z.ltb_spec x y), (Z.ltb_spec y x); try lia; [rewrite (proj2 (Z.ltb_lt _ _)) by nia; done | |].
  - rewrite (proj2 (Z.ltb_ge _ _)), (proj2 (Z.ltb_lt _ _)) by nia. done.
  - assert (x = y) as -> by lia. repeat case_match; bool_to_prop; lia.
Qed.

Lemma bge_spec w a b : wf_uint w a -> wf_uint w b -> bge a b = (uval b <=? uval a).
Proof. intros Ha Hb. unfold bge. rewrite (CompareTo_spec w) by done. repeat case_match; bool_to_prop; cbn; lia. Qed.

Lemma bgt_spec w a b : wf_uint w a -> wf_uint w b -> bgt a b = (uval b <? uval a).
Proof. intros Ha Hb. unfold bgt. rewrite (CompareTo_spec w) by done. repeat case_match; bool_to_prop; cbn; lia. Qed.

Lemma limb_bits_spec n x : 0 < x < 2 ^ Z.of_nat (S n) -> limb_bits n x = Z.log2 x + 1.
Proof.
  induction n as [| n IH]; intros Hx.
  { change (2 ^ Z.of_nat 1) with 2 in Hx. assert (x = 1) as -> by lia. done. }
  cbn [limb_bits]. rewrite Z.shiftl_1_l, flag_pow2 by lia. destruct (Z.testbit x (Z.of_nat (S n))) eqn:E.
  - rewrite (Z.log2_unique x (Z.of_nat (S n))); [lia | lia |]. rewrite <- Nat2Z.inj_succ. split; [| lia].
    destruct (Z.le_gt_cases (2 ^ Z.of_nat (S n)) x) as [| Hlt]; [done |].
    exfalso. assert (H : Z.testbit x (Z.of_nat (S n)) = false); [| congruence].
    rewrite <- (Z.mod_small x (2 ^ Z.of_nat (S n))) by lia. apply Z.mod_pow2_bits_high. lia.
  - apply IH. split; [lia |]. destruct (Z.lt_ge_cases x (2 ^ Z.of_nat (S n))) as [| Hge]; [done |]. exfalso.
    assert (Hlog : Z.log2 x = Z.of_nat (S n)) by (apply Z.log2_unique; [lia |]; rewrite <- Nat2Z.inj_succ; lia).
    rewrite <- Hlog, Z.bit_log2 in E by lia. done.
Qed.

Lemma bits_spec w a : wf_uint w a -> bits a = if uval a =? 0 then 0 else Z.log2 (uval a) + 1.
Proof.
  revert a. induction w as [| w IH]; intros a Ha.
  { by apply wf_nil in Ha as ->. }
  apply wf_snoc in Ha as (a' & x & -> & Ha & Hx). unfold bits. rewrite reverse_snoc. cbn [bits_rev]. fold (bits a').
  rewrite uval_snoc, (proj1 Ha). pose proof (uval_range _ _ Ha). unfold limb_ok in Hx.
  destruct (Z.eqb_spec x 0) as [-> | Hx0]; cbn [negb].
  - by rewrite Z.mul_0_r, Z.add_0_r, IH.
  - pose proof (base_pos w). assert (0 < base w * x) by (apply Z.mul_pos_pos; lia).
    destruct (Z.eqb_spec (uval a' + base w * x) 0); [lia |].
    rewrite (limb_bits_spec 31) by lia. unfold Zlen. rewrite length_reverse, (proj1 Ha).
    rewrite (Z.log2_unique (uval a' + base w * x) (32 * Z.of_nat w + Z.log2 x)); [lia | pose proof (Z.log2_nonneg x); lia |].
    destruct (Z.log2_spec x ltac:(lia)) as [Hlo Hhi]. unfold base in *. pose proof (Z.log2_nonneg x).
    rewrite Z.pow_succ_r, !Z.pow_add_r in * by lia. nia.
Qed.

Lemma bits_bound w a n : wf_uint w a -> 0 <= n -> bits a <= n <-> uval a < 2 ^ n.
Proof.
  intros Ha Hn. rewrite (bits_spec w a Ha). pose proof (uval_range _ _ Ha). destruct (Z.eqb_spec (uval a) 0) as [-> | Hne].
  - split; [intros _; lia | lia].
  - rewrite (Z.log2_lt_pow2 (uval a) n) by lia. lia.
Qed.

(** ** Division *)

Lemma uval_or_at w pn i x :
  wf_uint w pn -> (i < w)%nat -> limb_ok x -> uval (or_at i x pn) = Z.lor (uval pn) (Z.shiftl x (32 * Z.of_nat i)).
Proof.
  intros [Hl Hp] Hi Hx. assert (Hwf : wf_uint w (or_at i x pn)) by (split; [by rewrite length_or_at | by apply or_at_ok]).
  pose proof (uval_range w pn (conj Hl Hp)) as Hr. unfold limb_ok in Hx.
  assert (Hbits : forall j r, 0 <= r < 32 -> (j < w)%nat ->
    Z.testbit (Z.shiftl x (32 * Z.of_nat i)) (32 * Z.of_nat j + r) = (j =? i)%nat && Z.testbit x r).
  { intros j r Hr0 Hj. rewrite Z.shiftl_spec by lia. destruct (Nat.eqb_spec j i) as [-> | Hne]; cbn [andb].
    - f_equal. lia.
    - destruct (Nat.lt_ge_cases j i); [apply Z.testbit_neg_r; lia |]. rewrite <- (Z.mod_small x (2 ^ 32)) by lia.
      apply Z.mod_pow2_bits_high. lia. }
  apply (uval_bits w); [done | |].
  - split; [apply Z.lor_nonneg; split; [lia | apply Z.shiftl_nonneg; lia] |].
    assert (Hs : 0 <= Z.shiftl x (32 * Z.of_nat i) < base w).
    { rewrite Z.shiftl_mul_pow2 by lia. unfold base. replace (32 * Z.of_nat w) with (32 + (32 * Z.of_nat i + 32 * (Z.of_nat w - 1 - Z.of_nat i))) by lia.
      rewrite !Z.pow_add_r by lia. assert (1 <= 2 ^ (32 * (Z.of_nat w - 1 - Z.of_nat i))) by lia. assert (0 < 2 ^ (32 * Z.of_nat i)) by lia. nia. }
    unfold base in *. set (y := Z.shiftl _ _) in *. clearbody y.
    destruct (Z.eq_dec (Z.lor (uval pn) y) 0) as [-> | Hne]; [lia |].
    assert (0 <= Z.lor (uval pn) y) by (apply Z.lor_nonneg; lia). apply Z.log2_lt_pow2; [lia |]. rewrite Z.log2_lor by lia.
    assert (Hlog : forall z, 0 <= z < 2 ^ (32 * Z.of_nat w) -> Z.log2 z < 32 * Z.of_nat w).
    { intros z Hz. destruct (Z.eq_dec z 0) as [-> | ?]; [cbn; lia |]. apply Z.log2_lt_pow2; lia. }
    apply Z.max_lub_lt; by apply Hlog.
  - intros j r Hj Hr0. rewrite limb_or_at, Z.lor_spec, uval_testbit, Hbits by (done || lia).
    destruct (Nat.eqb_spec j i); [by rewrite Z.lor_spec | by rewrite orb_false_r].
Qed.

(** Setting the bit [s] of a multiple of [2^(s+1)]. *)
Lemma set_bit_spec w pn s q :
  wf_uint w pn -> 0 <= s < 32 * Z.of_nat w -> uval pn = 2 ^ (s + 1) * q ->
  let pn' := or_at (Z.to_nat (s / 32)) (uint32 (Z.shiftl 1 (Z.land s 31))) pn in
  wf_uint w pn' /\ uval pn' = uval pn + 2 ^ s.
Proof.
  intros Hp Hs Hq pn'. pose proof (Z.mod_pos_bound s 32). pose proof (Z.div_mod s 32).
  assert (0 <= s / 32) by (apply Z.div_pos; lia).
  assert (Hx : uint32 (Z.shiftl 1 (Z.land s 31)) = 2 ^ (s mod 32)).
  { change 31 with (2 ^ 5 - 1). rewrite (land_mask s 5), Z.shiftl_1_l by lia. change (2 ^ 5) with 32. apply uint32_id.
    split; [lia |]. apply Z.pow_lt_mono_r; lia. }
  assert (Hok : limb_ok (2 ^ (s mod 32))) by (rewrite <- Hx; apply uint32_ok).
  unfold pn'. rewrite Hx. split.
  { split; [rewrite length_or_at; apply Hp | apply or_at_ok; [apply Hp | done]]. }
  rewrite (uval_or_at w) by (done || lia). rewrite Z.shiftl_mul_pow2, <- Z.pow_add_r by lia.
  replace (s mod 32 + 32 * Z.of_nat (Z.to_nat (s / 32))) with s by lia.
  rewrite Hq, Z.lor_comm. replace (2 ^ (s + 1) * q) with (Z.shiftl q (s + 1)) by (rewrite Z.shiftl_mul_pow2 by lia; lia).
  rewrite lor_shiftl_add, Z.shiftl_mul_pow2 by (try split; try apply Z.pow_lt_mono_r; lia). lia.
Qed.

Lemma div_loop_spec w B fuel s num div pn q :
  wf_uint w num -> wf_uint w div -> wf_uint w pn -> 0 < B -> Z.of_nat fuel = s + 1 -> s < 32 * Z.of_nat w ->
  (0 <= s -> uval div = B * 2 ^ s) -> uval num < B * 2 ^ (s + 1) -> uval pn = 2 ^ (s + 1) * q ->
  wf_uint w (div_loop fuel s num div pn) /\ uval (div_loop fuel s num div pn) = uval pn + uval num / B.
Proof.
  revert s num div pn q. induction fuel as [| fuel IH]; intros s num div pn q Hn Hd Hp HB Hf Hs Hdiv Hnum Hq.
  { assert (s = -1) as -> by lia. cbn [div_loop]. change (2 ^ (-1 + 1)) with 1 in Hnum.
    pose proof (uval_range _ _ Hn). rewrite (Z.div_small (uval num)) by lia. split; [done | lia]. }
  cbn [div_loop]. destruct (Z.geb_spec s 0) as [Hs0 | ?]; [| lia]. specialize (Hdiv Hs0).
  rewrite (bge_spec w) by done. destruct (bshr_spec w div 1 Hd ltac:(lia)) as [Hd' Hdv'].
  pose proof (uval_range _ _ Hn) as Hnr. pose proof (uval_range _ _ Hd) as Hdr.
  rewrite Z.pow_add_r in Hnum by lia. change (2 ^ 1) with 2 in *.
  assert (Hnext : 0 <= s - 1 -> uval (bshr div 1) = B * 2 ^ (s - 1)).
  { intros H1. rewrite Hdv', Hdiv. replace s with (s - 1 + 1) at 1 by lia. rewrite Z.pow_add_r by lia. change (2 ^ 1) with 2.
    rewrite Z.mul_assoc, Z.div_mul by lia. done. }
  destruct (Z.leb_spec (uval div) (uval num)) as [Hle | Hlt].
  - destruct (bsub_spec w num div Hn Hd) as [Hsb Hsv]. rewrite Z.mod_small in Hsv by lia.
    destruct (set_bit_spec w pn s q Hp ltac:(lia) Hq) as [Hp' Hpv].
    destruct (IH (s - 1) (bsub num div) (bshr div 1) _ (2 * q + 1) Hsb Hd' Hp' HB) as [Hwf Hv]; try lia.
    + rewrite Hsv. replace (s - 1 + 1) with s by lia. lia.
    + rewrite Hpv, Hq. replace (s - 1 + 1) with s by lia. rewrite Z.pow_add_r by lia. change (2 ^ 1) with 2. lia.
    + split; [done |]. rewrite Hv, Hpv, Hsv.
      replace (uval num) with (uval num - uval div + 2 ^ s * B) at 2 by lia. rewrite Z.div_add by lia. lia.
  - destruct (IH (s - 1) num (bshr div 1) pn (2 * q) Hn Hd' Hp HB) as [Hwf Hv]; try lia.
    + replace (s - 1 + 1) with s by lia. lia.
    + rewrite Hq. replace (s - 1 + 1) with s by lia. rewrite Z.pow_add_r by lia. change (2 ^ 1) with 2. lia.
    + by split.
Qed.

Lemma bdiv_spec w a b :
  wf_uint w a -> wf_uint w b ->
  if uval b =? 0 then bdiv a b = Throw uint_error
  else exists q, bdiv a b = Ret q /\ wf_uint w q /\ uval q = uval a / uval b.
Proof.
  intros Ha Hb. unfold bdiv. pose proof (uval_range _ _ Ha). pose proof (uval_range _ _ Hb).
  rewrite (proj1 Ha). destruct (wf_zeros w) as [Hz Hzv]. pose proof (bits_spec w b Hb) as Hbb.
  destruct (Z.eqb_spec (uval b) 0) as [E | Hne]; [by rewrite Hbb |].
  pose proof (Z.log2_nonneg (uval b)). destruct (Z.eqb_spec (bits b) 0); [lia |]. rewrite Z.gtb_ltb.
  destruct (Z.ltb_spec (bits a) (bits b)) as [Hlt | Hge].
  - exists (zeros w). split; [done |]. split; [done |]. rewrite Hzv, Z.div_small; [done |]. split; [lia |].
    destruct (Z.lt_ge_cases (uval a) (uval b)) as [| Hge]; [done |]. exfalso. pose proof (bits_spec w a Ha) as Hba.
    destruct (Z.eqb_spec (uval a) 0); [lia |]. pose proof (Z.log2_le_mono (uval b) (uval a) Hge). lia.
  - set (shift := bits a - bits b). assert (Hab : bits a <= 32 * Z.of_nat w) by (apply (bits_bound w); [done | lia | unfold base in *; lia]).
    destruct (Z.log2_spec (uval b) ltac:(lia)) as [Hlo Hhi].
    assert (Hsl : uval b * 2 ^ shift < base w).
    { unfold base. apply Z.lt_le_trans with (2 ^ (bits b) * 2 ^ shift).
      - apply Z.mul_lt_mono_pos_r; [lia |]. rewrite Hbb. by rewrite Z.add_1_r.
      - rewrite <- Z.pow_add_r by lia. apply Z.pow_le_mono_r; lia. }
    destruct (bshl_spec w b shift Hb ltac:(lia)) as [Hs Hsv]. rewrite Z.mod_small in Hsv by lia.
    assert (Hna : uval a < uval b * 2 ^ (shift + 1)).
    { apply Z.lt_le_trans with (2 ^ bits a); [apply (bits_bound w); [done | lia | lia] |].
      replace (bits a) with (Z.log2 (uval b) + (shift + 1)) by lia. rewrite Z.pow_add_r by lia.
      apply Z.mul_le_mono_nonneg_r; lia. }
    destruct (div_loop_spec w (uval b) (Z.to_nat (shift + 1)) shift a (bshl b shift) (zeros w) 0) as [Hwf Hv]; try done; try lia.
    eexists. split; [done |]. split; [done |]. rewrite Hv, Hzv. lia.
Qed.

(** ** Theorems *)

(** The arithmetic of [base_uint] is arithmetic modulo [2^BITS]: addition,
    subtraction, negation, increment, decrement, both multiplications and the left
    shift, whose loops carry between limbs, compute the value modulo the size of
    the type, the right shift divides, and every result is well formed. *)
Theorem base_uint_ring w a b b32 shift :
  wf_uint w a -> wf_uint w b -> limb_ok b32 -> 0 <= shift ->
  (wf_uint w (badd a b) /\ uval (badd a b) = (uval a + uval b) mod base w) /\
  (wf_uint w (bsub a b) /\ uval (bsub a b) = (uval a - uval b) mod base w) /\
  (wf_uint w (bneg a) /\ uval (bneg a) = (- uval a) mod base w) /\
  (wf_uint w (bincr a) /\ uval (bincr a) = (uval a + 1) mod base w) /\
  (wf_uint w (bdecr a) /\ uval (bdecr a) = (uval a - 1) mod base w) /\
  (wf_uint w (bmul a b) /\ uval (bmul a b) = (uval a * uval b) mod base w) /\
  (wf_uint w (bmul32 a b32) /\ uval (bmul32 a b32) = (b32 * uval a) mod base w) /\
  (wf_uint w (bshl a shift) /\ uval (bshl a shift) = (uval a * 2 ^ shift) mod base w) /\
  (wf_uint w (bshr a shift) /\ uval (bshr a shift) = uval a / 2 ^ shift).
Proof.
  intros Ha Hb H32 Hs.
  exact (conj (badd_spec w a b Ha Hb) (conj (bsub_spec w a b Ha Hb) (conj (bneg_spec w a Ha)
    (conj (bincr_spec w a Ha) (conj (bdecr_spec w a Ha) (conj (bmul_spec w a b Ha Hb)
    (conj (mul32_loop_spec w b32 0 a Ha H32 ltac:(by split)) (conj (bshl_spec w a shift Ha Hs) (bshr_spec w a shift Ha Hs))))))))).
Qed.

Lemma base_uint_ring_witness :
  uval (badd [0xffffffff; 0] [1; 0]) = (uval [0xffffffff; 0] + uval [1; 0]) mod base 2.
Proof.
  apply (base_uint_ring 2 [0xffffffff; 0] [1; 0] 7 3).
  - split; [reflexivity | repeat constructor; discriminate].
  - split; [reflexivity | repeat constructor; discriminate].
  - split; [discriminate | reflexivity].
  - discriminate.
Defined.

(** The shift-and-subtract division of [base_uint] throws on a zero divisor and
    otherwise ends with the quotient rounded down. *)
Theorem base_uint_division w a b :
  wf_uint w a -> wf_uint w b ->
  if uval b =? 0 then bdiv a b = Throw uint_error
  else exists q, bdiv a b = Ret q /\ wf_uint w q /\ uval q = uval a / uval b.
Proof. apply bdiv_spec. Qed.

Lemma base_uint_division_witness :
  exists q, bdiv [5; 9] [7; 0] = Ret q /\ wf_uint 2 q /\ uval q = uval [5; 9] / uval [7; 0].
Proof.
  apply (base_uint_division 2 [5; 9] [7; 0]).
  - split; [reflexivity | repeat constructor; discriminate].
  - split; [reflexivity | repeat constructor; discriminate].
Defined.

(** [CompareTo] decides the order of the values and [bits] is the position of
    the highest bit set plus one. *)
Theorem base_uint_order w a b :
  wf_uint w a -> wf_uint w b ->
  (CompareTo a b <? 0) = (uval a <? uval b) /\ (CompareTo a b =? 0) = bool_decide (a = b) /\
  bge a b = (uval b <=? uval a) /\ bgt a b = (uval b <? uval a) /\
  bits a = if uval a =? 0 then 0 else Z.log2 (uval a) + 1.
Proof.
  intros Ha Hb. split; [| split; [| split; [by apply (bge_spec w) | split; [by apply (bgt_spec w) | by apply (bits_spec w)]]]];
    rewrite (CompareTo_spec w) by done.
  - repeat case_match; bool_to_prop; cbn; lia.
  - case_bool_decide as E; [subst b; by rewrite Z.ltb_irrefl, Z.gtb_ltb, Z.ltb_irrefl |].
    assert (uval a <> uval b) by (intros Hv; by apply E, (uval_inj w)). repeat case_match; bool_to_prop; cbn; lia.
Qed.

Lemma base_uint_order_witness : (CompareTo [5; 9] [7; 0] <? 0) = (uval [5; 9] <? uval [7; 0]).
Proof.
  apply (base_uint_order 2 [5; 9] [7; 0]).
  - split; [reflexivity | repeat constructor; discriminate].
  - split; [reflexivity | repeat constructor; discriminate].
Defined.

(** ** The compact format *)

Lemma of_uint64_spec b : 0 <= b < 2 ^ 64 -> wf_uint WIDTH (of_uint64 WIDTH b) /\ uval (of_uint64 WIDTH b) = b.
Proof.
  intros Hb. unfold of_uint64, WIDTH. cbn [take replicate Nat.sub].
  pose proof (uint32_range b). pose proof (uint32_range (Z.shiftr b 32)). split.
  - split; [done |]. repeat constructor; unfold limb_ok; lia.
  - cbn [uval]. rewrite Z.shiftr_div_pow2 in * by lia. rewrite (uint32_id (b / 2 ^ 32)).
    + unfold uint32. pose proof (Z.div_mod b (2 ^ 32)). lia.
    + split; [apply Z.div_pos; lia | apply Z.div_lt_upper_bound; lia].
Qed.

Lemma GetLow64_spec w a : wf_uint (S (S w)) a -> GetLow64 a = uval a mod 2 ^ 64.
Proof.
  intros (x & a1 & -> & Hx & (y & a2 & -> & Hy & Ha)%wf_S)%wf_S. unfold limb_ok in *.
  unfold GetLow64. change (limb (x :: y :: a2) 0) with x. change (limb (x :: y :: a2) 1) with y. cbn [uval].
  rewrite (lor_shiftl_add x y 32) by lia. replace (x + 2 ^ 32 * (y + 2 ^ 32 * uval a2)) with (x + y * 2 ^ 32 + uval a2 * 2 ^ 64) by lia.
  rewrite Z_mod_plus_full, Z.mod_small by lia. done.
Qed.

Lemma pow256 n : 0 <= n -> 2 ^ (8 * n) = 256 ^ n.
Proof. intros H. rewrite Z.pow_mul_r by lia. done. Qed.

Lemma is_zero_spec w a : wf_uint w a -> is_zero a = (uval a =? 0).
Proof.
  revert a. induction w as [| w IH]; intros a.
  { by intros ->%wf_nil. }
  intros (x & b & -> & Hx & Hb)%wf_S. cbn [is_zero forallb uval]. fold (is_zero b). rewrite (IH b Hb).
  pose proof (uval_range _ _ Hb). unfold limb_ok in Hx. lia.
Qed.

(** The fields of a compact number. *)
Lemma compact_fields m sgn size :
  0 <= m < 2 ^ 23 -> 0 <= size < 256 ->
  let n := m + (if sgn : bool then 2 ^ 23 else 0) + size * 2 ^ 24 in
  Z.shiftr n 24 = size /\ Z.land n 0x007fffff = m /\ flag n 0x00800000 = sgn.
Proof.
  intros Hm Hsize n. assert (Hlow : 0 <= m + (if sgn then 2 ^ 23 else 0) < 2 ^ 24) by (destruct sgn; lia).
  split; [| split].
  - rewrite Z.shiftr_div_pow2 by lia. unfold n. rewrite Z.div_add, Z.div_small by lia. lia.
  - change 0x007fffff with (2 ^ 23 - 1). rewrite (land_mask n 23) by lia. unfold n.
    replace (m + (if sgn then 2 ^ 23 else 0) + size * 2 ^ 24) with (m + ((if sgn then 1 else 0) + size * 2) * 2 ^ 23) by (destruct sgn; lia).
    rewrite Z_mod_plus_full. apply Z.mod_small. lia.
  - change 0x00800000 with (2 ^ 23). rewrite (flag_pow2 n 23), Z.testbit_odd, Z.shiftr_div_pow2 by lia. unfold n.
    replace (m + (if sgn then 2 ^ 23 else 0) + size * 2 ^ 24) with (m + ((if sgn then 1 else 0) + 2 * size) * 2 ^ 23) by (destruct sgn; lia).
    rewrite Z.div_add, Z.div_small, Z.add_0_l, Z.odd_add_mul_2 by lia. by destruct sgn.
Qed.

Lemma compact_overflow m size :
  0 <= m < 2 ^ 23 -> 3 < size ->
  (negb (m =? 0) && ((size >? 34) || ((m >? 0xff) && (size >? 33)) || ((m >? 0xffff) && (size >? 32))))
  = (2 ^ 256 <=? m * 256 ^ (size - 3)).
Proof.
  intros Hm Hs. destruct (Z.eqb_spec m 0) as [-> | Hm0]; [done |].
  destruct (Z.lt_ge_cases 34 size) as [H34 | H34].
  { pose proof (Z.pow_le_mono_r 256 32 (size - 3) ltac:(lia) ltac:(lia)). nia. }
  destruct (Z.eq_dec size 34) as [-> | ?]; [cbn; lia |].
  destruct (Z.eq_dec size 33) as [-> | ?]; [cbn; lia |].
  pose proof (Z.pow_le_mono_r 256 (size - 3) 29 ltac:(lia) ltac:(lia)).
  pose proof (Z.pow_pos_nonneg 256 (size - 3) ltac:(lia) ltac:(lia)). nia.
Qed.

(** What [SetCompact] computes from the sign, the size and the mantissa. *)
Lemma SetCompact_spec m sgn size :
  0 <= m < 2 ^ 23 -> 0 <= size < 256 ->
  let c := SetCompact (m + (if sgn : bool then 2 ^ 23 else 0) + size * 2 ^ 24) in
  let v := if size <=? 3 then m / 256 ^ (3 - size) else m * 256 ^ (size - 3) in
  wf_uint WIDTH (compact_value c) /\
  uval (compact_value c) = v mod 2 ^ 256 /\
  pfNegative c = (sgn && negb (v =? 0)) /\
  pfOverflow c = (2 ^ 256 <=? v).
Proof.
  intros Hm Hsize. destruct (compact_fields m sgn size Hm Hsize) as (Es & Em & Ef).
  cbv zeta. unfold SetCompact. rewrite Es, Em, Ef. destruct (Z.leb_spec size 3) as [Hs | Hs].
  - rewrite Z.shiftr_div_pow2, pow256 by lia. pose proof (Z.pow_pos_nonneg 256 (3 - size) ltac:(lia) ltac:(lia)).
    assert (Hv : 0 <= m / 256 ^ (3 - size) < 2 ^ 23) by (split; [apply Z.div_pos; lia | apply Z.div_lt_upper_bound; nia]).
    destruct (of_uint64_spec (m / 256 ^ (3 - size))) as [Hwf Hu]; [lia |]. cbn [compact_value pfNegative pfOverflow].
    split; [done |]. split; [rewrite Hu, Z.mod_small by lia; done |]. split; [apply andb_comm |].
    lia.
  - destruct (of_uint64_spec m) as [Hwf Hu]; [lia |]. cbn [compact_value pfNegative pfOverflow].
    destruct (bshl_spec _ _ (8 * (size - 3)) Hwf ltac:(lia)) as [Hwf' Hu'].
    split; [done |]. split; [rewrite Hu', Hu, pow256 by lia; done |].
    pose proof (Z.pow_pos_nonneg 256 (size - 3) ltac:(lia) ltac:(lia)).
    split; [rewrite andb_comm; do 2 f_equal; nia |].
    by apply compact_overflow.
Qed.

Lemma compact_split n :
  0 <= n < 2 ^ 32 ->
  exists m (sgn : bool) size, 0 <= m < 2 ^ 23 /\ 0 <= size < 256 /\ n = m + (if sgn then 2 ^ 23 else 0) + size * 2 ^ 24.
Proof.
  intros Hn. exists (n mod 2 ^ 23), (Z.odd (n / 2 ^ 23)), (n / 2 ^ 24).
  pose proof (Z.mod_pos_bound n (2 ^ 23)). pose proof (Z.div_mod n (2 ^ 23)). pose proof (Z.div_mod (n / 2 ^ 23) 2) as H2.
  change (2 ^ 24) with (2 ^ 23 * 2). rewrite <- Z.div_div by lia. pose proof (Zmod_odd (n / 2 ^ 23)).
  split; [lia |]. split; [| destruct (Z.odd (n / 2 ^ 23)); lia].
  split; [apply Z.div_pos; [apply Z.div_pos |]; lia | apply Z.div_lt_upper_bound; [lia |]; apply Z.div_lt_upper_bound; lia].
Qed.

Lemma SetCompact_wf n : 0 <= n < 2 ^ 32 -> wf_uint WIDTH (compact_value (SetCompact n)).
Proof. intros (m & sgn & size & Hm & Hs & ->)%compact_split. by apply SetCompact_spec. Qed.

(** [SetCompact] decodes every compact target: the value is the mantissa scaled
    by a power of 256, reduced to 256 bits, the negative flag is the sign bit of a
    nonzero number, and the overflow flag tells exactly when the scaled mantissa
    does not fit. *)
Theorem SetCompact_value m sgn size :
  0 <= m < 2 ^ 23 -> 0 <= size < 256 ->
  let c := SetCompact (m + (if sgn : bool then 2 ^ 23 else 0) + size * 2 ^ 24) in
  let v := if size <=? 3 then m / 256 ^ (3 - size) else m * 256 ^ (size - 3) in
  wf_uint WIDTH (compact_value c) /\
  uval (compact_value c) = v mod 2 ^ 256 /\
  pfNegative c = (sgn && negb (v =? 0)) /\
  pfOverflow c = (2 ^ 256 <=? v).
Proof. apply SetCompact_spec. Qed.

Lemma SetCompact_value_witness : uval (compact_value (SetCompact 0x1d00ffff)) = 0xffff * 256 ^ 26.
Proof.
  destruct (SetCompact_value 0xffff false 0x1d) as (_ & H & _); [by split | by split |].
  exact H.
Defined.

#[local] Ltac Zify.zify_post_hook ::= Z.div_mod_to_equations.

(** The size in bytes of a number, as the compact format takes it. *)
Lemma byte_size w a :
  wf_uint w a ->
  let n := (bits a + 7) / 8 in
  0 <= n <= 4 * Z.of_nat w /\ uval a < 256 ^ n /\ (0 < n -> 256 ^ (n - 1) <= uval a).
Proof.
  intros Ha n. pose proof (uval_range _ _ Ha) as Hr. assert (0 <= bits a).
  { rewrite (bits_spec w a Ha). case_match; [lia |]. pose proof (Z.log2_nonneg (uval a)). lia. }
  pose proof (Z.div_mod (bits a + 7) 8 ltac:(lia)) as Hd. pose proof (Z.mod_pos_bound (bits a + 7) 8 ltac:(lia)).
  assert (0 <= n) by (apply Z.div_pos; lia). fold n in Hd.
  assert (bits a <= 32 * Z.of_nat w) by (apply (bits_bound w a); [done | lia | apply Hr]).
  assert (Hn : 8 * n - 7 <= bits a <= 8 * n) by lia.
  split; [lia |]. split.
  - rewrite <- pow256 by lia. apply (bits_bound w a); [done | lia | lia].
  - intros Hp. rewrite <- pow256 by lia. apply Z.nlt_ge. intros Hlt. apply (bits_bound w a) in Hlt; [lia | done | lia].
Qed.

(** The mantissa with its sign bit freed. *)
Definition norm (m size : Z) : Z * Z := if m <? 2 ^ 23 then (m, size) else (m / 256, size + 1).

Lemma flag_bit23 m : 0 <= m < 2 ^ 24 -> flag m 0x00800000 = negb (m <? 2 ^ 23).
Proof.
  intros Hm. change 0x00800000 with (2 ^ 23). rewrite flag_pow2, Z.testbit_odd, Z.shiftr_div_pow2 by lia.
  destruct (Z.ltb_spec m (2 ^ 23)); cbn [negb].
  - rewrite Z.div_small by lia. done.
  - by replace (m / 2 ^ 23) with 1 by lia.
Qed.

Lemma GetCompact_norm a m :
  let n := (bits a + 7) / 8 in
  0 <= n < 255 -> 0 <= m < 2 ^ 24 ->
  m = (if n <=? 3 then uint32 (uint64 (Z.shiftl (GetLow64 a) (8 * (3 - n)))) else uint32 (GetLow64 (bshr a (8 * (n - 3))))) ->
  GetCompact a false = let '(m, size) := norm m n in Ret (m + size * 2 ^ 24).
Proof.
  intros n Hn Hm E. unfold GetCompact. fold n. rewrite <- E, flag_bit23 by done. unfold norm.
  assert (Hok : forall m' size, 0 <= m' < 2 ^ 23 -> 0 <= size < 256 ->
    (let? _ := cassert (Z.land m' (uint32 (Z.lnot 0x007fffff)) =? 0) in let? _ := cassert (size <? 256) in
     Ret (Z.lor (Z.lor m' (Z.shiftl size 24)) (if false && flag (Z.lor m' (Z.shiftl size 24)) 0x007fffff then 0x00800000 else 0)))%outcome
    = Ret (m' + size * 2 ^ 24)).
  { intros m' size Hm' Hsize. replace (Z.land m' _) with 0.
    - cbn [Z.eqb cassert andb]. rewrite (proj2 (Z.ltb_lt size 256)) by lia. cbn. rewrite Z.lor_0_r, lor_shiftl_add by lia. done.
    - symmetry. change (uint32 (Z.lnot 0x007fffff)) with (Z.shiftl (2 ^ 9 - 1) 23). apply Z.bits_inj'. intros i Hi.
      rewrite Z.land_spec, Z.bits_0, Z.shiftl_spec by lia. destruct (Z.lt_ge_cases i 23).
      + rewrite (Z.testbit_neg_r _ (i - 23)) by lia. apply andb_false_r.
      + rewrite <- (Z.mod_small m' (2 ^ 23)), Z.mod_pow2_bits_high by lia. done. }
  destruct (Z.ltb_spec m (2 ^ 23)); cbn [negb]; [apply Hok; lia |].
  rewrite Z.shiftr_div_pow2 by lia. apply Hok; lia.
Qed.

(** The three leading bytes of a number. *)
Definition leading (a : list Z) : Z :=
  let n := (bits a + 7) / 8 in
  if n <=? 3 then uval a * 256 ^ (3 - n) else uval a / 256 ^ (n - 3).

Lemma leading_range a :
  wf_uint WIDTH a ->
  0 <= leading a < 2 ^ 24 /\ (3 < (bits a + 7) / 8 -> 2 ^ 16 <= leading a).
Proof.
  intros Ha. pose proof (byte_size _ _ Ha) as (Hn & Hlt & Hge). cbv zeta in *. unfold leading.
  set (n := (bits a + 7) / 8) in *. pose proof (uval_range _ _ Ha) as Hr.
  destruct (Z.leb_spec n 3) as [H3 | H3].
  - pose proof (Z.pow_pos_nonneg 256 (3 - n) ltac:(lia) ltac:(lia)). split; [| lia].
    split; [nia |]. change (2 ^ 24) with (256 ^ 3). replace (256 ^ 3) with (256 ^ n * 256 ^ (3 - n)); [nia |].
    rewrite <- Z.pow_add_r by lia. f_equal. lia.
  - pose proof (Z.pow_pos_nonneg 256 (n - 3) ltac:(lia) ltac:(lia)) as Hp.
    assert (En : 256 ^ n = 256 ^ (n - 3) * 2 ^ 24) by (change (2 ^ 24) with (256 ^ 3); rewrite <- Z.pow_add_r by lia; f_equal; lia).
    assert (En1 : 256 ^ (n - 1) = 256 ^ (n - 3) * 2 ^ 16) by (change (2 ^ 16) with (256 ^ 2); rewrite <- Z.pow_add_r by lia; f_equal; lia).
    split; [split; [apply Z.div_pos; lia | apply Z.div_lt_upper_bound; lia] |].
    intros _. apply Z.div_le_lower_bound; lia.
Qed.

Lemma GetCompact_run a :
  wf_uint WIDTH a -> GetCompact a false = let '(m, size) := norm (leading a) ((bits a + 7) / 8) in Ret (m + size * 2 ^ 24).
Proof.
  intros Ha. pose proof (byte_size _ _ Ha) as (Hn & Hlt & _). cbv zeta in *. pose proof (leading_range a Ha) as [Hm _].
  pose proof (uval_range _ _ Ha) as Hr. apply GetCompact_norm; [unfold WIDTH in Hn; lia | done |].
  unfold leading in *. set (n := (bits a + 7) / 8) in *. destruct (Z.leb_spec n 3) as [H3 | H3].
  - pose proof (Z.pow_pos_nonneg 256 (3 - n) ltac:(lia) ltac:(lia)). rewrite (GetLow64_spec 6 a Ha), Z.mod_small by nia.
    rewrite Z.shiftl_mul_pow2, pow256, uint64_id, uint32_id by lia. done.
  - destruct (bshr_spec _ _ (8 * (n - 3)) Ha ltac:(lia)) as [Hwf Hv]. rewrite pow256 in Hv by lia.
    rewrite (GetLow64_spec 6 _ Hwf), Hv, Z.mod_small, uint32_id by lia. done.
Qed.

(** A number of at most three bytes is kept whole, unless its top bit is the sign bit
    of the format. *)
Lemma norm_value_small a :
  wf_uint WIDTH a -> (bits a + 7) / 8 <= 3 ->
  exists m size e, norm (leading a) ((bits a + 7) / 8) = (m, size) /\ 0 <= m < 2 ^ 23 /\ 0 <= size < 256 /\ 0 <= e /\
    (if size <=? 3 then m / 256 ^ (3 - size) else m * 256 ^ (size - 3)) = uval a / 256 ^ e * 256 ^ e /\
    uval a / 256 ^ e < 2 ^ 23 /\ (e = 0 \/ 2 ^ 15 <= uval a / 256 ^ e).
Proof.
  intros Ha H3. pose proof (leading_range a Ha) as [Hm _]. pose proof (byte_size _ _ Ha) as (Hn & _). cbv zeta in *.
  unfold leading, norm in *. pose proof (uval_range _ _ Ha) as Hr. set (n := (bits a + 7) / 8) in *.
  rewrite (proj2 (Z.leb_le n 3) H3) in *. pose proof (Z.pow_pos_nonneg 256 (3 - n) ltac:(lia) ltac:(lia)).
  destruct (Z.ltb_spec (uval a * 256 ^ (3 - n)) (2 ^ 23)) as [Hlt | Hge].
  - exists (uval a * 256 ^ (3 - n)), n, 0. rewrite (proj2 (Z.leb_le n 3) H3), Z.div_mul, Z.pow_0_r, Z.div_1_r by lia.
    repeat split; try lia; nia.
  - destruct (Z.eq_dec n 3) as [En | Hn3].
    + exists (uval a * 256 ^ (3 - n) / 256), (n + 1), 1. rewrite En in *. change (256 ^ (3 - 3)) with 1 in *.
      rewrite Z.mul_1_r in *. cbn [Z.leb Z.compare Z.add Pos.add Pos.compare Pos.compare_cont Pos.succ].
      change (256 ^ 1) with 256. change (256 ^ (4 - 3)) with 256. repeat split; try lia.
    + exists (uval a * 256 ^ (3 - n) / 256), (n + 1), 0. rewrite (proj2 (Z.leb_le (n + 1) 3)), Z.pow_0_r, Z.div_1_r by lia.
      assert (E : 256 ^ (3 - n) = 256 * 256 ^ (3 - (n + 1))) by (rewrite <- Z.pow_succ_r by lia; f_equal; lia).
      pose proof (Z.pow_pos_nonneg 256 (3 - (n + 1)) ltac:(lia) ltac:(lia)).
      rewrite Z.div_div, <- E, Z.div_mul by lia. repeat split; try lia.
Qed.

Lemma norm_value a :
  wf_uint WIDTH a ->
  exists m size e, norm (leading a) ((bits a + 7) / 8) = (m, size) /\ 0 <= m < 2 ^ 23 /\ 0 <= size < 256 /\ 0 <= e /\
    (if size <=? 3 then m / 256 ^ (3 - size) else m * 256 ^ (size - 3)) = uval a / 256 ^ e * 256 ^ e /\
    uval a / 256 ^ e < 2 ^ 23 /\ (e = 0 \/ 2 ^ 15 <= uval a / 256 ^ e).
Proof.
  intros Ha. destruct (Z.le_gt_cases ((bits a + 7) / 8) 3) as [H3 | H3]; [by apply norm_value_small |].
  pose proof (leading_range a Ha) as [Hm Hm16]. pose proof (byte_size _ _ Ha) as (Hn & _). cbv zeta in *.
  unfold leading, norm in *. pose proof (uval_range _ _ Ha) as Hr. set (n := (bits a + 7) / 8) in *. unfold WIDTH in Hn.
  rewrite (proj2 (Z.leb_gt n 3) H3) in *. pose proof (Z.pow_pos_nonneg 256 (n - 3) ltac:(lia) ltac:(lia)).
  destruct (Z.ltb_spec (uval a / 256 ^ (n - 3)) (2 ^ 23)) as [Hlt | Hge].
  - exists (uval a / 256 ^ (n - 3)), n, (n - 3). rewrite (proj2 (Z.leb_gt n 3) H3). repeat split; try lia.
  - exists (uval a / 256 ^ (n - 3) / 256), (n + 1), (n + 1 - 3). rewrite (proj2 (Z.leb_gt (n + 1) 3)) by lia.
    assert (E : 256 ^ (n + 1 - 3) = 256 ^ (n - 3) * 256) by (rewrite Z.mul_comm, <- Z.pow_succ_r by lia; f_equal; lia).
    rewrite E, <- Z.div_div by lia. set (q := uval a / 256 ^ (n - 3)) in *. clearbody q. repeat split; try lia.
Qed.

(** [n] is the compact encoding of the number [v]: decoding it gives back the number
    truncated to its leading bytes, at least 15 significant bits of it, with
    exactly the low [e] bytes cleared and neither flag raised. *)
Definition encodes (n v : Z) : Prop :=
  0 <= n < 2 ^ 32 /\
  exists e, 0 <= e /\
    uval (compact_value (SetCompact n)) = v / 256 ^ e * 256 ^ e /\
    v / 256 ^ e < 2 ^ 23 /\ (e = 0 \/ 2 ^ 15 <= v / 256 ^ e) /\
    pfNegative (SetCompact n) = false /\ pfOverflow (SetCompact n) = false.

Lemma GetCompact_encodes a : wf_uint WIDTH a -> exists n, GetCompact a false = Ret n /\ encodes n (uval a).
Proof.
  intros Ha. rewrite (GetCompact_run a Ha). pose proof (leading_range a Ha) as [Hm Hm16].
  pose proof (byte_size _ _ Ha) as (Hn & _). pose proof (uval_range _ _ Ha) as Hr.
  destruct (norm_value a Ha) as (m & size & e & -> & Hm' & Hsize & He & Hv & Ev & He0).
  exists (m + size * 2 ^ 24). split; [done |]. split; [lia |]. exists e.
  destruct (SetCompact_spec m false size) as (_ & Hval & Hneg & Hov); [lia | lia |]. cbn [andb] in *.
  rewrite Z.add_0_r in *. rewrite Hval, Hneg, Hov, Hv.
  pose proof (Z.pow_pos_nonneg 256 e ltac:(lia) He) as Hp. pose proof (Z.mul_div_le (uval a) (256 ^ e) Hp) as Hle.
  pose proof (Z.div_pos (uval a) (256 ^ e) ltac:(lia) Hp) as Hq. rewrite Z.mul_comm in Hle. change (base WIDTH) with (2 ^ 256) in Hr.
  set (q := uval a / 256 ^ e) in *. clearbody q. assert (0 <= q * 256 ^ e) by nia.
  rewrite (Z.mod_small (q * 256 ^ e)) by lia. repeat split; try lia.
Qed.

(** Encoding rounds down. *)
Lemma encodes_le n v : 0 <= v -> encodes n v -> 0 <= uval (compact_value (SetCompact n)) <= v.
Proof.
  intros Hv (_ & e & He & -> & _). pose proof (Z.pow_pos_nonneg 256 e ltac:(lia) He) as Hp.
  pose proof (Z.mul_div_le v (256 ^ e) Hp). pose proof (Z.div_pos v (256 ^ e) Hv Hp). nia.
Qed.

(** [GetCompact] never trips its assertions, and decoding its result with
    [SetCompact] gives back the number truncated to its leading bytes: at least 15
    significant bits are kept, exactly the low [e] bytes are cleared, and neither
    flag is raised. *)
Theorem GetCompact_roundtrip a :
  wf_uint WIDTH a ->
  exists n, GetCompact a false = Ret n /\ 0 <= n < 2 ^ 32 /\
    exists e, 0 <= e /\
      uval (compact_value (SetCompact n)) = uval a / 256 ^ e * 256 ^ e /\
      uval a / 256 ^ e < 2 ^ 23 /\ (e = 0 \/ 2 ^ 15 <= uval a / 256 ^ e) /\
      pfNegative (SetCompact n) = false /\ pfOverflow (SetCompact n) = false.
Proof. apply GetCompact_encodes. Qed.

Lemma GetCompact_roundtrip_witness :
  exists n, GetCompact [0x12345678; 0x9abcdef0; 0; 0; 0; 0; 0; 0] false = Ret n /\ 0 <= n < 2 ^ 32.
Proof.
  destruct (GetCompact_roundtrip [0x12345678; 0x9abcdef0; 0; 0; 0; 0; 0; 0]) as (n & H1 & H2 & _).
  - split; [reflexivity | repeat constructor; discriminate].
  - exists n. split; [exact H1 | exact H2].
Defined.

(** ** Conversions *)

Lemma UintToArith_loop_spec n b :
  bytes_ok b -> length b = (4 * n)%nat -> wf_uint n (UintToArith_loop n b) /\ uval (UintToArith_loop n b) = le_decode b.
Proof.
  revert b. induction n as [| n IH]; intros b Hb Hl.
  { destruct b; [| done]. split; [by split |]. done. }
  cbn [UintToArith_loop uval]. destruct (IH (drop 4 b)) as [Hwf Hv]; [auto with ubtc | rewrite length_drop; lia |].
  assert (Hr : limb_ok (ReadLE32 b)).
  { unfold ReadLE32, limb_ok. pose proof (le_decode_bound (take 4 b) ltac:(auto with ubtc)) as H. rewrite length_take in H.
    replace (4 `min` length b)%nat with 4%nat in H by lia. exact H. }
  split; [by apply wf_cons |]. rewrite Hv. rewrite <- (take_drop 4 b) at 3. rewrite le_decode_app, length_take.
  replace (4 `min` length b)%nat with 4%nat by lia. done.
Qed.

Lemma UintToArith256_spec b :
  bytes_ok b -> Zlen b = 32 -> wf_uint WIDTH (UintToArith256 b) /\ uval (UintToArith256 b) = le_decode b.
Proof. intros Hb Hl. apply UintToArith_loop_spec; [done | unfold Zlen, WIDTH in *; lia]. Qed.

Lemma ArithToUint256_spec w a :
  wf_uint w a -> bytes_ok (ArithToUint256 a) /\ length (ArithToUint256 a) = (4 * w)%nat /\ le_decode (ArithToUint256 a) = uval a.
Proof.
  unfold ArithToUint256. revert a. induction w as [| w IH]; intros a.
  { intros ->%wf_nil. split; [constructor | done]. }
  intros (x & b & -> & Hx & Hb)%wf_S. destruct (IH b Hb) as (H1 & H2 & H3). cbn [map concat uval]. unfold limb_ok in Hx.
  rewrite bytes_ok_app, length_app, H2, le_decode_app, H3. unfold WriteLE32. rewrite uint32_id, length_le_encode, le_decode_encode by lia.
  split; [split; [apply le_encode_ok | done] |]. split; [lia |]. rewrite Z.mod_small by (cbn; lia). done.
Qed.
