(* ===== verification/Block.v ===== *)
(** * Blocks

    [src/primitives/block.h] and [block.cpp]: the block header with its hash and
    its serialization, and the block. [fChecked], which caches the result of a
    check, is not a field here. *)

From S2P Require Import Prelude Serialize Hash Transaction.

Definition MINING_TYPE_POW : Z := 0x02000000.

Definition MINING_TYPE_POS : Z := 0x01000000.

Record CBlockHeader := BlockHeader {
  hdr_nVersion : Z;
  hdr_hashPrevBlock : list Z;
  hdr_hashMerkleRoot : list Z;
  hdr_nTime : Z;
  hdr_nBits : Z;
  hdr_nNonce : Z
}.

Record CBlock := Block {
  block_header : CBlockHeader;
  vtx : list CTransaction
}.

Definition CBlockHeader_null : CBlockHeader := BlockHeader 0 (replicate 32 0) (replicate 32 0) 0 0 0.

Definition CBlockHeader_IsNull (b : CBlockHeader) : bool := hdr_nBits b =? 0.

Definition hdr_IsProofOfStake (b : CBlockHeader) : bool := flag (hdr_nVersion b) MINING_TYPE_POS.

Definition hdr_IsProofOfWork (b : CBlockHeader) : bool := flag (hdr_nVersion b) MINING_TYPE_POW.

Definition hdr_GetBlockTime (b : CBlockHeader) : Z := hdr_nTime b.

Definition Serialize_CBlockHeader (b : CBlockHeader) : list Z :=
  ser_writedata32 (hdr_nVersion b) ++ hdr_hashPrevBlock b ++ hdr_hashMerkleRoot b ++
  ser_writedata32 (hdr_nTime b) ++ ser_writedata32 (hdr_nBits b) ++ ser_writedata32 (hdr_nNonce b).

Definition Unserialize_CBlockHeader : reader CBlockHeader :=
  let! version := Unserialize_int32 in
  let! prev := read 32 in
  let! root := read 32 in
  let! time := ser_readdata32 in
  let! bits := ser_readdata32 in
  let! nonce := ser_readdata32 in
  read_ret (BlockHeader version prev root time bits nonce).

Definition Serialize_CBlock (nVer : Z) (b : CBlock) : list Z :=
  Serialize_CBlockHeader (block_header b) ++ Serialize_vector (SerializeTransaction nVer) (vtx b).

Definition Unserialize_CBlock (nVer : Z) : reader CBlock :=
  let! h := Unserialize_CBlockHeader in
  let! l := Unserialize_vector (UnserializeTransaction nVer) in
  read_ret (Block h l).

Definition block_GetHash (b : CBlockHeader) : list Z := SerializeHash [Serialize_CBlockHeader b].

(** ** Round trip *)

Record wf_header (b : CBlockHeader) : Prop := {
  wf_hdr_nVersion : - 2 ^ 31 <= hdr_nVersion b < 2 ^ 31;
  wf_hdr_hashPrevBlock : wf_hash (hdr_hashPrevBlock b);
  wf_hdr_hashMerkleRoot : wf_hash (hdr_hashMerkleRoot b);
  wf_hdr_nTime : 0 <= hdr_nTime b < 2 ^ 32;
  wf_hdr_nBits : 0 <= hdr_nBits b < 2 ^ 32;
  wf_hdr_nNonce : 0 <= hdr_nNonce b < 2 ^ 32
}.

#[export] Instance CBlockHeader_RoundTrip : RoundTrip wf_header Serialize_CBlockHeader Unserialize_CBlockHeader.
Proof.
  split.
  - intros b s [Hv [_ Hp] [_ Hr] Ht Hb Hn]. unfold Serialize_CBlockHeader, Unserialize_CBlockHeader. rewrite <- !app_assoc.
    erewrite bind_step by (by apply (round_trip (RoundTrip := int32_RoundTrip))).
    erewrite bind_step by (by apply read_app). erewrite bind_step by (by apply read_app).
    do 3 erewrite bind_step by (by apply (round_trip (RoundTrip := uint32_RoundTrip))). by destruct b.
  - intros b [Hv [Hp _] [Hr _] Ht Hb Hn]. unfold Serialize_CBlockHeader. rewrite !bytes_ok_app.
    repeat split; try done; apply le_encode_ok.
Qed.

Lemma length_header b : wf_header b -> Zlen (Serialize_CBlockHeader b) = 80.
Proof.
  intros [_ [_ Hp] [_ Hr] _ _ _]. unfold Serialize_CBlockHeader, ser_writedata32. autorewrite with ubtc_rw.
  unfold Zlen in *. rewrite !length_le_encode. lia.
Qed.

(** Transactions that the extended format can carry. *)
Definition wf_vtx (tx : CTransaction) : Prop := wf_tx tx /\ (vin tx <> [] \/ vout tx = []).

Lemma tx_RoundTrip nVer : allow_witness nVer = true -> RoundTrip wf_vtx (SerializeTransaction nVer) (UnserializeTransaction nVer).
Proof.
  intros Ha. split.
  - intros tx s [Hwf Hne]. rewrite UnserializeTransaction_app by done. unfold carried. by rewrite Ha.
  - intros tx [Hwf _]. by apply SerializeTransaction_ok.
Qed.

(** Blocks round trip: a block is read back, header and transactions with their
    witnesses, from what is written of it to a stream that carries witnesses, and
    the header takes 80 bytes of it. *)
Theorem Block_roundtrip nVer b s :
  allow_witness nVer = true -> wf_header (block_header b) -> Forall wf_vtx (vtx b) -> Zlen (vtx b) <= MAX_SIZE ->
  Unserialize_CBlock nVer (Serialize_CBlock nVer b ++ s) = Some (b, s) /\
  Zlen (Serialize_CBlockHeader (block_header b)) = 80.
Proof.
  intros Ha Hh Hl Hlen. split; [| by apply length_header]. pose proof (tx_RoundTrip nVer Ha) as Htx.
  unfold Serialize_CBlock, Unserialize_CBlock. rewrite <- app_assoc. erewrite bind_step by (by apply round_trip).
  erewrite bind_step by (by apply (round_trip (RoundTrip := vector_RoundTrip))). by destruct b.
Qed.

(** A block with one transaction. *)
Definition sample_header : CBlockHeader := BlockHeader 0x22000000 (replicate 32 1) (replicate 32 2) 1500000000 0x1d00ffff 7.

Lemma sample_header_wf : wf_header sample_header.
Proof. split; try (split; [bytes_closed | reflexivity]); cbn; lia. Qed.

Lemma Block_roundtrip_witness :
  Unserialize_CBlock 0 (Serialize_CBlock 0 (Block sample_header [sample_tx]) ++ [1]) = Some (Block sample_header [sample_tx], [1]).
Proof.
  apply (Block_roundtrip 0 (Block sample_header [sample_tx]) [1]).
  - reflexivity.
  - exact sample_header_wf.
  - constructor; [split; [exact sample_tx_wf | left; discriminate] | constructor].
  - discriminate.
Defined.
