(* ===== verification/Chain.v ===== *)
(** * The block index and the active chain

    [src/chain.h] and [chain.cpp], and the functions of [src/validation.cpp] that
    grow the index. The [CBlockIndex] objects live in a heap, a list that only
    grows, and a pointer is a position in it; [nullptr] is [None]. Reading through
    a null or dangling pointer is undefined. *)

From stdpp Require Import gmap sorting.
From S2P Require Import Prelude Common Serialize Hash Transaction Block ArithUint256 ArithProps.

Open Scope outcome_scope.

(** ** Data *)

Abbreviation ptr := nat (only parsing).

Record CBlockIndex := BlockIndex {
  phashBlock : option (list Z);
  pprev : option ptr;
  pskip : option ptr;
  nHeight : Z;
  nFile : Z;
  nDataPos : Z;
  nUndoPos : Z;
  nChainWork : list Z;
  nTx : Z;
  nChainTx : Z;
  nStatus : Z;
  bi_nVersion : Z;
  bi_hashMerkleRoot : list Z;
  bi_nTime : Z;
  bi_nBits : Z;
  bi_nNonce : Z;
  nSequenceId : Z;
  nTimeMax : Z
}.

Abbreviation heap := (list CBlockIndex) (only parsing).

(** [p->field] *)
Definition deref (h : heap) (p : option ptr) : outcome CBlockIndex :=
  match p with
  | Some p => match h !! p with Some n => Ret n | None => Undef end
  | None => Undef
  end.

(** [CBlockIndex(const CBlockHeader&)] *)
Definition CBlockIndex_of (b : CBlockHeader) : CBlockIndex :=
  BlockIndex None None None 0 0 0 0 (zeros WIDTH) 0 0 0
    (hdr_nVersion b) (hdr_hashMerkleRoot b) (hdr_nTime b) (hdr_nBits b) (hdr_nNonce b) 0 0.

Definition BLOCK_VALID_TREE : Z := 2.

Definition BLOCK_VALID_MASK : Z := Z.lor 1 (Z.lor 2 (Z.lor 3 (Z.lor 4 5))).

Definition BLOCK_HAVE_DATA : Z := 8.

Definition BLOCK_HAVE_UNDO : Z := 16.

Definition BLOCK_FAILED_MASK : Z := Z.lor 32 64.

Definition bi_IsProofOfStake (n : CBlockIndex) : bool := flag (bi_nVersion n) MINING_TYPE_POS.

Definition bi_IsProofOfWork (n : CBlockIndex) : bool := flag (bi_nVersion n) MINING_TYPE_POW.

Definition GetBlockTime (n : CBlockIndex) : Z := bi_nTime n.

Definition GetBlockTimeMax (n : CBlockIndex) : Z := nTimeMax n.

Definition GetBlockHash (n : CBlockIndex) : outcome (list Z) :=
  match phashBlock n with Some hash => Ret hash | None => Undef end.

Definition GetBlockHeader (h : heap) (n : CBlockIndex) : outcome CBlockHeader :=
  let? prev := match pprev n with
               | Some p => let? m := deref h (Some p) in GetBlockHash m
               | None => Ret (replicate 32 0)
               end in
  Ret (BlockHeader (bi_nVersion n) prev (bi_hashMerkleRoot n) (bi_nTime n) (bi_nBits n) (bi_nNonce n)).

Definition IsValid (n : CBlockIndex) (nUpTo : Z) : outcome bool :=
  let? _ := cassert (Z.land nUpTo (Z.lnot BLOCK_VALID_MASK) =? 0) in
  if flag (nStatus n) BLOCK_FAILED_MASK then Ret false
  else Ret (Z.land (nStatus n) BLOCK_VALID_MASK >=? nUpTo).

Definition set_nStatus (n : CBlockIndex) (s : Z) : CBlockIndex :=
  BlockIndex (phashBlock n) (pprev n) (pskip n) (nHeight n) (nFile n) (nDataPos n) (nUndoPos n) (nChainWork n)
    (nTx n) (nChainTx n) s (bi_nVersion n) (bi_hashMerkleRoot n) (bi_nTime n) (bi_nBits n) (bi_nNonce n)
    (nSequenceId n) (nTimeMax n).

(** The new object and whether the validity changed. *)
Definition RaiseValidity (n : CBlockIndex) (nUpTo : Z) : outcome (CBlockIndex * bool) :=
  let? _ := cassert (Z.land nUpTo (Z.lnot BLOCK_VALID_MASK) =? 0) in
  if flag (nStatus n) BLOCK_FAILED_MASK then Ret (n, false)
  else if Z.land (nStatus n) BLOCK_VALID_MASK <? nUpTo then
    Ret (set_nStatus n (Z.lor (Z.land (nStatus n) (uint32 (Z.lnot BLOCK_VALID_MASK))) nUpTo), true)
  else Ret (n, false).

(** ** Median time *)

Definition nMedianTimeSpan : nat := 11.

(** The times of the last [k] blocks from [p] on. *)
Fixpoint last_times (k : nat) (h : heap) (p : option ptr) : outcome (list Z) :=
  match k, p with
  | S k, Some p =>
    let? n := deref h (Some p) in
    let? l := last_times k h (pprev n) in
    Ret (GetBlockTime n :: l)
  | _, _ => Ret []
  end.

Definition GetMedianTimePast (h : heap) (p : ptr) : outcome Z :=
  let? l := last_times nMedianTimeSpan h (Some p) in
  index (merge_sort Z.le l) (Zlen l / 2).

(** ** The skip list *)

Definition InvertLowestOne (n : Z) : Z := Z.land n (n - 1).

Definition GetSkipHeight (height : Z) : Z :=
  if height <? 2 then 0
  else if flag height 1 then InvertLowestOne (InvertLowestOne (height - 1)) + 1
  else InvertLowestOne height.

(** [heightWalk] decreases in every round. *)
Fixpoint GetAncestor_loop (fuel : nat) (h : heap) (height : Z) (pindexWalk : ptr) (heightWalk : Z) : outcome ptr :=
  if heightWalk >? height then
    match fuel with
    | O => Undef
    | S fuel =>
      let? n := deref h (Some pindexWalk) in
      let heightSkip := GetSkipHeight heightWalk in
      let heightSkipPrev := GetSkipHeight (heightWalk - 1) in
      let follow := (heightSkip =? height) ||
        ((heightSkip >? height) && negb ((heightSkipPrev <? heightSkip - 2) && (heightSkipPrev >=? height))) in
      match pskip n, follow with
      | Some s, true => GetAncestor_loop fuel h height s heightSkip
      | _, _ =>
        match pprev n with
        | Some q => GetAncestor_loop fuel h height q (heightWalk - 1)
        | None => Abort
        end
      end
    end
  else Ret pindexWalk.

Definition GetAncestor (h : heap) (p : ptr) (height : Z) : outcome (option ptr) :=
  let? n := deref h (Some p) in
  if (height >? nHeight n) || (height <? 0) then Ret None
  else
    let? q := GetAncestor_loop (Z.to_nat (nHeight n - height)) h height p (nHeight n) in
    Ret (Some q).

(** ** Work *)

Definition GetBlockProof (n : CBlockIndex) : outcome (list Z) :=
  let c := SetCompact (bi_nBits n) in
  let bnTarget := compact_value c in
  if pfNegative c || pfOverflow c || is_zero bnTarget then Ret (of_uint64 WIDTH 0)
  else
    let? q := bdiv (bnot bnTarget) (badd bnTarget (of_uint64 WIDTH 1)) in
    Ret (badd q (of_uint64 WIDTH 1)).

Definition GetBlockProofEquivalentTime (to from tip : CBlockIndex) (nPowTargetSpacing : Z) : outcome Z :=
  let gt := bgt (nChainWork to) (nChainWork from) in
  let r := if gt then bsub (nChainWork to) (nChainWork from) else bsub (nChainWork from) (nChainWork to) in
  let sign := if gt then 1 else -1 in
  let? proof := GetBlockProof tip in
  let? r := bdiv (bmul r (of_uint64 WIDTH (uint64 nPowTargetSpacing))) proof in
  if bits r >? 63 then Ret (sign * INT64_MAX) else Ret (int64 (uint64 sign * GetLow64 r)).

(** ** Common ancestors *)

Fixpoint LastCommonAncestor_loop (fuel : nat) (h : heap) (pa pb : option ptr) : outcome (option ptr) :=
  match pa, pb with
  | Some a, Some b =>
    if (a =? b)%nat then Ret pa
    else match fuel with
         | O => Undef
         | S fuel =>
           let? na := deref h pa in
           let? nb := deref h pb in
           LastCommonAncestor_loop fuel h (pprev na) (pprev nb)
         end
  | _, _ => let? _ := cassert (bool_decide (pa = pb)) in Ret pa
  end.

Definition LastCommonAncestor (h : heap) (pa pb : ptr) : outcome (option ptr) :=
  let? na := deref h (Some pa) in
  let? nb := deref h (Some pb) in
  let? qa := if nHeight na >? nHeight nb then GetAncestor h pa (nHeight nb) else Ret (Some pa) in
  let? qb := if nHeight na >? nHeight nb then Ret (Some pb)
             else if nHeight nb >? nHeight na then GetAncestor h pb (nHeight na) else Ret (Some pb) in
  LastCommonAncestor_loop (Z.to_nat (Z.min (nHeight na) (nHeight nb)) + 1) h qa qb.

(** ** The active chain *)

(** A [CChain] is its [vChain]. *)
Abbreviation CChain := (list (option ptr)) (only parsing).

Definition chain_Genesis (c : CChain) : option ptr := default None (c !! 0%nat).

Definition chain_Tip (c : CChain) : option ptr := default None (c !! (length c - 1)%nat).

(** [operator[]] *)
Definition chain_at (c : CChain) (height : Z) : option ptr :=
  if (height <? 0) || (height >=? Zlen c) then None else default None (c !! Z.to_nat height).

Definition chain_Contains (h : heap) (c : CChain) (p : ptr) : outcome bool :=
  let? n := deref h (Some p) in Ret (bool_decide (chain_at c (nHeight n) = Some p)).

Definition chain_Next (h : heap) (c : CChain) (p : ptr) : outcome (option ptr) :=
  let? b := chain_Contains h c p in
  let? n := deref h (Some p) in
  if b then Ret (chain_at c (nHeight n + 1)) else Ret None.

Definition chain_Height (c : CChain) : Z := Zlen c - 1.

(** The loop stops at the first block that is already in its place. *)
Fixpoint SetTip_loop (fuel : nat) (h : heap) (c : CChain) (pindex : option ptr) : outcome CChain :=
  match pindex with
  | None => Ret c
  | Some p =>
    let? n := deref h (Some p) in
    let? q := index c (nHeight n) in
    if bool_decide (q = Some p) then Ret c
    else match fuel with
         | O => Undef
         | S fuel => SetTip_loop fuel h (<[Z.to_nat (nHeight n) := Some p]> c) (pprev n)
         end
  end.

Definition SetTip (h : heap) (c : CChain) (pindex : option ptr) : outcome CChain :=
  match pindex with
  | None => Ret []
  | Some p =>
    let? n := deref h (Some p) in
    SetTip_loop (Z.to_nat (nHeight n + 1)) h (resize (Z.to_nat (nHeight n + 1)) None c) (Some p)
  end.

Fixpoint FindFork_loop (fuel : nat) (h : heap) (c : CChain) (pindex : option ptr) : outcome (option ptr) :=
  match pindex with
  | None => Ret None
  | Some p =>
    let? b := chain_Contains h c p in
    if b then Ret (Some p)
    else match fuel with
         | O => Undef
         | S fuel => let? n := deref h (Some p) in FindFork_loop fuel h c (pprev n)
         end
  end.

Definition FindFork (h : heap) (c : CChain) (pindex : option ptr) : outcome (option ptr) :=
  match pindex with
  | None => Ret None
  | Some p =>
    let? n := deref h (Some p) in
    let? q := if nHeight n >? chain_Height c then GetAncestor h p (chain_Height c) else Ret (Some p) in
    FindFork_loop (Z.to_nat (nHeight n + 1)) h c q
  end.

(** The product of two [int]s; overflow is undefined. *)
Definition int_mul (a b : Z) : outcome Z :=
  if (INT_MIN <=? a * b) && (a * b <=? INT_MAX) then Ret (a * b) else Undef.

(** The heights drop by [nStep], which doubles once ten hashes are in. *)
Fixpoint GetLocator_loop (fuel : nat) (h : heap) (c : CChain) (nStep : Z) (vHave : list (list Z)) (pindex : option ptr)
  : outcome (list (list Z)) :=
  match pindex with
  | None => Ret vHave
  | Some p =>
    match fuel with
    | O => Undef
    | S fuel =>
      let? n := deref h (Some p) in
      let? hash := GetBlockHash n in
      let vHave := vHave ++ [hash] in
      if nHeight n =? 0 then Ret vHave
      else
        let height := Z.max (nHeight n - nStep) 0 in
        let? b := chain_Contains h c p in
        let? q := if b then Ret (chain_at c height) else GetAncestor h p height in
        let? nStep := if Zlen vHave >? 10 then int_mul nStep 2 else Ret nStep in
        GetLocator_loop fuel h c nStep vHave q
    end
  end.

Definition GetLocator (h : heap) (c : CChain) (pindex : option ptr) : outcome (list (list Z)) :=
  let pindex := match pindex with None => chain_Tip c | Some p => Some p end in
  match pindex with
  | None => Ret []
  | Some p => let? n := deref h (Some p) in GetLocator_loop (Z.to_nat (nHeight n + 1)) h c 1 [] (Some p)
  end.

(** [std::lower_bound] over the chain: the range is halved. *)
Fixpoint lower_bound (fuel : nat) (h : heap) (c : CChain) (nTime : Z) (first len : Z) : outcome Z :=
  if len >? 0 then
    match fuel with
    | O => Undef
    | S fuel =>
      let half := len / 2 in
      let middle := first + half in
      let? p := index c middle in
      let? n := deref h p in
      if GetBlockTimeMax n <? nTime then lower_bound fuel h c nTime (middle + 1) (len - half - 1)
      else lower_bound fuel h c nTime first half
    end
  else Ret first.

Definition FindEarliestAtLeast (h : heap) (c : CChain) (nTime : Z) : outcome (option ptr) :=
  let? lower := lower_bound (length c) h c nTime 0 (Zlen c) in
  if lower =? Zlen c then Ret None else index c lower.

(** ** Growing the index *)

Record BlockManager := Manager {
  blocks : heap;
  mapBlockIndex : gmap (list Z) ptr;
  pindexBestHeader : option ptr;
  setDirtyBlockIndex : gset ptr
}.

(** The sum of two [int]s; overflow is undefined. *)
Definition int_add (a b : Z) : outcome Z :=
  if (INT_MIN <=? a + b) && (a + b <=? INT_MAX) then Ret (a + b) else Undef.

(** The fields that [AddToBlockIndex] sets. *)
Definition set_links (n : CBlockIndex) (prev skip : option ptr) (height : Z) : CBlockIndex :=
  BlockIndex (phashBlock n) prev skip height (nFile n) (nDataPos n) (nUndoPos n) (nChainWork n)
    (nTx n) (nChainTx n) (nStatus n) (bi_nVersion n) (bi_hashMerkleRoot n) (bi_nTime n) (bi_nBits n) (bi_nNonce n)
    (nSequenceId n) (nTimeMax n).

Definition set_work (n : CBlockIndex) (timeMax : Z) (work : list Z) : CBlockIndex :=
  BlockIndex (phashBlock n) (pprev n) (pskip n) (nHeight n) (nFile n) (nDataPos n) (nUndoPos n) work
    (nTx n) (nChainTx n) (nStatus n) (bi_nVersion n) (bi_hashMerkleRoot n) (bi_nTime n) (bi_nBits n) (bi_nNonce n)
    (nSequenceId n) timeMax.

Definition set_hash (n : CBlockIndex) (hash : list Z) : CBlockIndex :=
  BlockIndex (Some hash) (pprev n) (pskip n) (nHeight n) (nFile n) (nDataPos n) (nUndoPos n) (nChainWork n)
    (nTx n) (nChainTx n) (nStatus n) (bi_nVersion n) (bi_hashMerkleRoot n) (bi_nTime n) (bi_nBits n) (bi_nNonce n)
    (nSequenceId n) (nTimeMax n).

Definition BuildSkip (h : heap) (p : ptr) : outcome heap :=
  let? n := deref h (Some p) in
  match pprev n with
  | None => Ret h
  | Some q =>
    let? s := GetAncestor h q (GetSkipHeight (nHeight n)) in
    Ret (<[p := set_links n (pprev n) s (nHeight n)]> h)
  end.

(** The links of the new entry [p], when the previous block is known. *)
Definition link_prev (h : heap) (p : ptr) (prev : option ptr) : outcome heap :=
  match prev with
  | None => Ret h
  | Some q =>
    let? m := deref h (Some q) in
    let? height := int_add (nHeight m) 1 in
    let? n := deref h (Some p) in
    BuildSkip (<[p := set_links n (Some q) (pskip n) height]> h) p
  end.

Definition AddToBlockIndex (st : BlockManager) (block : CBlockHeader) : outcome (BlockManager * ptr) :=
  let hash := block_GetHash block in
  match mapBlockIndex st !! hash with
  | Some p => Ret (st, p)
  | None =>
    let p := length (blocks st) in
    let map := <[hash := p]> (mapBlockIndex st) in
    let h := blocks st ++ [set_hash (CBlockIndex_of block) hash] in
    let? h := link_prev h p (map !! hdr_hashPrevBlock block) in
    let? n := deref h (Some p) in
    let? (timeMax, work) := match pprev n with
                            | Some q => let? m := deref h (Some q) in Ret (Z.max (nTimeMax m) (bi_nTime n), nChainWork m)
                            | None => Ret (bi_nTime n, zeros WIDTH)
                            end in
    let? proof := GetBlockProof n in
    let n := set_work n timeMax (badd work proof) in
    let? (n, _) := RaiseValidity n BLOCK_VALID_TREE in
    let h := <[p := n]> h in
    let? better := match pindexBestHeader st with
                   | None => Ret true
                   | Some b => let? m := deref h (Some b) in Ret (CompareTo (nChainWork m) (nChainWork n) <? 0)
                   end in
    Ret (Manager h map (if better : bool then Some p else pindexBestHeader st) ({[p]} ∪ setDirtyBlockIndex st), p)
  end.
