(* ===== verification/ChainProps.v ===== *)
(** * The skip list, the active chain and the growth of the index

    A reference walk over the [pprev] links, the invariant of the block index and
    of the active chain, and the operations of [Chain] in terms of them. *)

From stdpp Require Import gmap sorting.
From S2P Require Import Prelude Common Serialize Hash Transaction Block ArithUint256 ArithProps Chain.

Open Scope outcome_scope.

(** ** Ancestors *)

Lemma land_le a b : 0 <= b -> Z.land a b <= b.
Proof.
  intros Hb. assert (E : b - Z.land a b = Z.ldiff b (Z.land a b)).
  { apply Z.sub_nocarry_ldiff, Z.bits_inj'. intros i _. rewrite Z.ldiff_spec, Z.land_spec, Z.bits_0.
    by destruct (Z.testbit a i), (Z.testbit b i). }
  assert (0 <= Z.ldiff b (Z.land a b)) by (apply Z.ldiff_nonneg; lia). lia.
Qed.

(** [k] steps back along [pprev]. *)
Fixpoint back (h : heap) (k : nat) (p : ptr) : option ptr :=
  match k with
  | O => Some p
  | S k => match h !! p with
           | Some n => match pprev n with Some q => back h k q | None => None end
           | None => None
           end
  end.

(** The links of an entry: the previous block was entered before and is one
    lower, and the skip pointer, if set, is the ancestor at the skip height. *)
Definition node_ok (h : heap) (p : ptr) (n : CBlockIndex) : Prop :=
  match pprev n with
  | None => nHeight n = 0 /\ pskip n = None
  | Some q =>
    (q < p)%nat /\ (exists m, h !! q = Some m /\ nHeight n = nHeight m + 1 /\ 0 <= nHeight m) /\
    (pskip n = None \/ pskip n = back h (Z.to_nat (nHeight n - GetSkipHeight (nHeight n))) p)
  end.

Definition heap_ok (h : heap) : Prop := forall p n, h !! p = Some n -> node_ok h p n.

Lemma node_height h p n : node_ok h p n -> 0 <= nHeight n.
Proof. unfold node_ok. destruct (pprev n); [intros (_ & (m & _ & -> & ?) & _); lia | intros [-> _]; lia]. Qed.

Lemma back_add h k j p : back h (k + j) p = match back h k p with Some q => back h j q | None => None end.
Proof.
  revert p. induction k as [| k IH]; intros p; [done |]. cbn [Nat.add back].
  destruct (h !! p) as [n |]; [| done]. destruct (pprev n) as [q |]; [apply IH | done].
Qed.

Section Walk.
Context (h : heap) (Hok : heap_ok h).

(** The walk reaches every height down to 0 and no further. *)
Lemma back_some k p n :
  h !! p = Some n -> Z.of_nat k <= nHeight n ->
  exists q m, back h k p = Some q /\ h !! q = Some m /\ nHeight m = nHeight n - Z.of_nat k.
Proof.
  revert p n. induction k as [| k IH]; intros p n Hp Hk; [exists p, n; cbn; split; [done | split; [done | lia]] |].
  cbn [back]. rewrite Hp. pose proof (Hok p n Hp) as Hn. unfold node_ok in Hn. destruct (pprev n) as [q |]; [| lia].
  destruct Hn as (_ & (m & Hm & Hh & _) & _). destruct (IH q m Hm) as (r & l & Hr & Hl & E); [lia |].
  exists r, l. split; [done |]. split; [done | lia].
Qed.

Lemma back_none k p n : h !! p = Some n -> nHeight n < Z.of_nat k -> back h k p = None.
Proof.
  revert p n. induction k as [| k IH]; intros p n Hp Hk.
  { pose proof (node_height _ _ _ (Hok p n Hp)). lia. }
  cbn [back]. rewrite Hp. pose proof (Hok p n Hp) as Hn. unfold node_ok in Hn. destruct (pprev n) as [q |]; [| done].
  destruct Hn as (_ & (m & Hm & Hh & _) & _). apply (IH q m); [done | lia].
Qed.

Lemma back_step k p n q : h !! p = Some n -> pprev n = Some q -> back h (S k) p = back h k q.
Proof. intros Hp Hq. cbn [back]. by rewrite Hp, Hq. Qed.

(** ** The skip list *)

Lemma InvertLowestOne_bound n : 1 <= n -> 0 <= InvertLowestOne n < n.
Proof.
  intros Hn. unfold InvertLowestOne. split; [apply Z.land_nonneg; lia |].
  pose proof (land_le n (n - 1)). lia.
Qed.

Lemma GetSkipHeight_bound height : 1 <= height -> 0 <= GetSkipHeight height < height.
Proof.
  intros Hh. unfold GetSkipHeight. destruct (Z.ltb_spec height 2); [lia |].
  destruct (flag height 1); [| apply InvertLowestOne_bound; lia].
  pose proof (InvertLowestOne_bound (height - 1)) as H1.
  destruct (Z.eq_dec (InvertLowestOne (height - 1)) 0) as [-> | Hne]; [change (InvertLowestOne 0) with 0; lia |].
  pose proof (InvertLowestOne_bound (InvertLowestOne (height - 1))). lia.
Qed.

Lemma GetAncestor_loop_spec fuel height p n :
  h !! p = Some n -> 0 <= height <= nHeight n -> nHeight n - height <= Z.of_nat fuel ->
  exists q, GetAncestor_loop fuel h height p (nHeight n) = Ret q /\ back h (Z.to_nat (nHeight n - height)) p = Some q.
Proof.
  revert p n. induction fuel as [| fuel IH]; intros p n Hp Hh Hf; cbn [GetAncestor_loop]; rewrite Z.gtb_ltb;
    destruct (Z.ltb_spec height (nHeight n)) as [Hlt | Hge]; try lia;
    try (exists p; replace (nHeight n - height) with 0 by lia; done).
  cbn [deref]. rewrite Hp. cbn [obind]. pose proof (Hok p n Hp) as Hn. unfold node_ok in Hn.
  pose proof (GetSkipHeight_bound (nHeight n) ltac:(lia)) as Hs.
  destruct (pprev n) as [q |] eqn:Hq; [| lia]. destruct Hn as (_ & (m & Hm & Hhm & Hm0) & Hskip).
  assert (Hprev : exists r, GetAncestor_loop fuel h height q (nHeight n - 1) = Ret r /\
                            back h (Z.to_nat (nHeight n - height)) p = Some r).
  { replace (nHeight n - 1) with (nHeight m) by lia. destruct (IH q m Hm ltac:(lia) ltac:(lia)) as (r & Hr & Hb).
    exists r. split; [done |]. replace (Z.to_nat (nHeight n - height)) with (S (Z.to_nat (nHeight m - height))) by lia.
    by rewrite (back_step _ p n q). }
  destruct (pskip n) as [s |]; [| done]. destruct (_ || _) eqn:Hf'; [| done].
  destruct Hskip as [? | Hskip]; [done |].
  destruct (back_some (Z.to_nat (nHeight n - GetSkipHeight (nHeight n))) p n Hp ltac:(lia)) as (s' & l & Hs' & Hl & El).
  rewrite Hs' in Hskip. injection Hskip as ->.
  replace (GetSkipHeight (nHeight n)) with (nHeight l) in * by lia.
  assert (height <= nHeight l) by (apply orb_true_iff in Hf' as [? | ?]; bool_to_prop; lia).
  destruct (IH s' l Hl ltac:(lia) ltac:(lia)) as (r & Hr & Hb). exists r. split; [done |].
  replace (Z.to_nat (nHeight n - height)) with (Z.to_nat (nHeight n - nHeight l) + Z.to_nat (nHeight l - height))%nat by lia.
  by rewrite back_add, Hs'.
Qed.

(** [GetAncestor] is the walk along [pprev]. *)
Lemma GetAncestor_run p n height :
  h !! p = Some n ->
  GetAncestor h p height =
    Ret (if (height >? nHeight n) || (height <? 0) then None else back h (Z.to_nat (nHeight n - height)) p).
Proof.
  intros Hp. unfold GetAncestor. cbn [deref]. rewrite Hp. cbn [obind].
  destruct (_ || _) eqn:E; [done |]. apply orb_false_iff in E as [E1 E2]. bool_to_prop.
  destruct (GetAncestor_loop_spec (Z.to_nat (nHeight n - height)) height p n Hp ltac:(lia) ltac:(lia)) as (q & -> & ->). done.
Qed.

(** ** Branches *)

(** The blocks from genesis to [p], by height. *)
Definition branch (p : ptr) : CChain :=
  match h !! p with
  | Some n => (fun i => back h (Z.to_nat (nHeight n) - i) p) <$> seq 0 (S (Z.to_nat (nHeight n)))
  | None => []
  end.

Lemma branch_length p n : h !! p = Some n -> length (branch p) = S (Z.to_nat (nHeight n)).
Proof. intros Hp. unfold branch. rewrite Hp, length_fmap, length_seq. done. Qed.

Lemma branch_lookup p n i :
  h !! p = Some n -> (i <= Z.to_nat (nHeight n))%nat -> branch p !! i = Some (back h (Z.to_nat (nHeight n) - i) p).
Proof.
  intros Hp Hi. unfold branch. rewrite Hp. cbv iota. rewrite list_lookup_fmap, lookup_seq_lt by lia. done.
Qed.

(** The chains that the operations maintain. *)
Definition chain_ok (c : CChain) : Prop := c = [] \/ exists t, is_Some (h !! t) /\ c = branch t.

(** An entry of such a chain fixes the entries below it. *)
Lemma chain_ok_low c i q :
  chain_ok c -> c !! i = Some (Some q) -> forall j, (j <= i)%nat -> c !! j = Some (back h (i - j) q).
Proof.
  intros [-> | (t & [n Ht] & ->)] Hi j Hj; [done |].
  assert (Hlt : (i < S (Z.to_nat (nHeight n)))%nat) by (rewrite <- (branch_length t n Ht); by eapply lookup_lt_Some).
  rewrite (branch_lookup t n) in Hi by (done || lia). injection Hi as Hi.
  rewrite (branch_lookup t n) by (done || lia). f_equal.
  replace (Z.to_nat (nHeight n) - j)%nat with ((Z.to_nat (nHeight n) - i) + (i - j))%nat by lia. by rewrite back_add, Hi.
Qed.

Lemma SetTip_loop_spec c0 p n fuel k c :
  h !! p = Some n -> chain_ok c0 ->
  let H := Z.to_nat (nHeight n) in
  (k <= S H)%nat -> length c = S H ->
  (forall i, (H < i + k)%nat -> (i <= H)%nat -> c !! i = Some (back h (H - i) p)) ->
  (forall i, (i + k <= H)%nat -> c !! i = Some (default None (c0 !! i))) ->
  (S H - k <= fuel)%nat ->
  SetTip_loop fuel h c (back h k p) = Ret (branch p).
Proof.
  intros Hp Hc0 H. pose proof (node_height _ _ _ (Hok p n Hp)) as Hn0.
  assert (Hdone : forall c, length c = S H -> (forall i, (i <= H)%nat -> c !! i = Some (back h (H - i) p)) -> c = branch p).
  { intros c' Hl He. apply list_eq. intros i. destruct (le_lt_dec i H).
    - rewrite He, (branch_lookup p n) by done. done.
    - rewrite !lookup_ge_None_2; [done | rewrite (branch_length p n) by done; fold H; lia | lia]. }
  revert k c. induction fuel as [| fuel IH]; intros k c Hk Hl Hhi Hlo Hf.
  { replace (back h k p) with (@None ptr) by (symmetry; apply (back_none k p n Hp); lia).
    cbn. f_equal. apply Hdone; [done |]. intros i Hi. apply Hhi; lia. }
  destruct (decide (k = S H)) as [-> | Hne].
  { rewrite (back_none _ p n Hp) by lia. cbn. f_equal. apply Hdone; [done |]. intros i Hi. apply Hhi; lia. }
  destruct (back_some k p n Hp ltac:(lia)) as (q & m & Hq & Hm & Em). rewrite Hq. cbn [SetTip_loop deref]. rewrite Hm. cbn [obind].
  unfold index. rewrite (proj2 (Z.ltb_ge (nHeight m) 0)) by lia. replace (Z.to_nat (nHeight m)) with (H - k)%nat by lia.
  destruct (lookup_lt_is_Some_2 c (H - k)) as [x Hx]; [lia |]. rewrite Hx. cbn [obind]. case_bool_decide as E.
  - subst x. f_equal. apply Hdone; [done |]. intros i Hi. destruct (le_lt_dec i (H - k)) as [Hle | Hgt]; [| apply Hhi; lia].
    rewrite Hlo in Hx by lia. destruct (c0 !! (H - k)%nat) as [y |] eqn:Ey; [| done]. cbn in Hx. injection Hx as ->.
    rewrite Hlo, (chain_ok_low c0 (H - k) q Hc0 Ey i Hle) by lia. cbn. f_equal.
    replace (H - i)%nat with (k + (H - k - i))%nat by lia. by rewrite back_add, Hq.
  - replace (pprev m) with (back h (S k) p).
    2: { replace (S k) with (k + 1)%nat by lia. rewrite back_add, Hq. cbn. rewrite Hm. by destruct (pprev m). }
    apply IH; [lia | by rewrite length_insert | | | lia].
    + intros i Hi1 Hi2. destruct (decide (i = (H - k)%nat)) as [-> | Hi3].
      * rewrite list_lookup_insert_eq by lia. replace (H - (H - k))%nat with k by lia. by rewrite Hq.
      * rewrite list_lookup_insert_ne by lia. apply Hhi; lia.
    + intros i Hi. rewrite list_lookup_insert_ne by lia. apply Hlo. lia.
Qed.

Lemma SetTip_run c p n : h !! p = Some n -> chain_ok c -> SetTip h c (Some p) = Ret (branch p).
Proof.
  intros Hp Hc. unfold SetTip. cbn [deref]. rewrite Hp. cbn [obind]. pose proof (node_height _ _ _ (Hok p n Hp)).
  replace (Z.to_nat (nHeight n + 1)) with (S (Z.to_nat (nHeight n))) by lia.
  apply (SetTip_loop_spec c p n _ 0); [done | done | lia | by rewrite length_resize | intros; lia | | lia].
  intros i Hi. rewrite Nat.add_0_r in Hi. destruct (lookup_lt_is_Some_2 (resize (S (Z.to_nat (nHeight n))) None c) i) as [x Hx].
  { rewrite length_resize. lia. }
  rewrite Hx. destruct (le_lt_dec (length c) i) as [Hge | Hlt].
  - rewrite (lookup_ge_None_2 c) by done. rewrite lookup_resize_new in Hx by lia. by rewrite <- Hx.
  - rewrite lookup_resize in Hx by lia. by rewrite Hx.
Qed.

(** ** Common ancestors *)

Definition anc (q p : ptr) : Prop := exists k, back h k p = Some q.

(** The highest block that [p] and [t] descend from, or none. *)
Definition fork_point (p t : ptr) (r : option ptr) : Prop :=
  match r with
  | Some q => anc q p /\ anc q t /\ forall c, anc c p -> anc c t -> anc c q
  | None => forall c, anc c p -> ~ anc c t
  end.

Lemma anc_refl p : anc p p.
Proof. by exists 0%nat. Qed.

Lemma anc_trans a b c : anc a b -> anc b c -> anc a c.
Proof. intros [i Hi] [j Hj]. exists (j + i)%nat. by rewrite back_add, Hj. Qed.

Lemma anc_prev p n q : h !! p = Some n -> pprev n = Some q -> anc q p.
Proof. intros Hp Hq. exists 1%nat. by rewrite (back_step 0 p n q). Qed.

(** A proper ancestor is an ancestor of the previous block. *)
Lemma anc_cases c p n :
  h !! p = Some n -> anc c p -> c = p \/ exists q, pprev n = Some q /\ anc c q.
Proof.
  intros Hp [[| k] Hk]; [left; cbn in Hk; congruence |]. right. cbn [back] in Hk. rewrite Hp in Hk.
  destruct (pprev n) as [q |]; [| done]. exists q. split; [done | by exists k].
Qed.

Lemma anc_height c p n :
  h !! p = Some n -> anc c p ->
  exists m, h !! c = Some m /\ 0 <= nHeight m <= nHeight n /\ back h (Z.to_nat (nHeight n - nHeight m)) p = Some c.
Proof.
  intros Hp [k Hk]. destruct (Z.le_gt_cases (Z.of_nat k) (nHeight n)) as [Hle | Hgt].
  - destruct (back_some k p n Hp Hle) as (c' & m & Hc & Hm & E). rewrite Hk in Hc. injection Hc as ->. exists m.
    pose proof (node_height _ _ _ (Hok _ _ Hm)). split; [done |]. split; [lia |].
    by replace (Z.to_nat (nHeight n - nHeight m)) with k by lia.
  - by rewrite (back_none k p n) in Hk.
Qed.

Lemma anc_same_height a b na nb : h !! a = Some na -> h !! b = Some nb -> nHeight na = nHeight nb -> anc a b -> a = b.
Proof.
  intros Ha Hb E Hab. destruct (anc_height a b nb Hb Hab) as (m & Hm & _ & Hk). rewrite Ha in Hm. injection Hm as <-.
  rewrite E, Z.sub_diag in Hk. injection Hk as ->. done.
Qed.

(** An ancestor of [p] no higher than [q], itself an ancestor of [p], is one of [q]. *)
Lemma anc_linear c q p n mc mq :
  h !! p = Some n -> anc c p -> anc q p -> h !! c = Some mc -> h !! q = Some mq -> nHeight mc <= nHeight mq -> anc c q.
Proof.
  intros Hp Hc Hq Hmc Hmq Hle.
  destruct (anc_height c p n Hp Hc) as (m1 & H1 & B1 & K1). rewrite Hmc in H1. injection H1 as <-.
  destruct (anc_height q p n Hp Hq) as (m2 & H2 & B2 & K2). rewrite Hmq in H2. injection H2 as <-.
  exists (Z.to_nat (nHeight mq - nHeight mc)).
  replace (Z.to_nat (nHeight n - nHeight mc)) with (Z.to_nat (nHeight n - nHeight mq) + Z.to_nat (nHeight mq - nHeight mc))%nat in K1 by lia.
  by rewrite back_add, K2 in K1.
Qed.

Lemma chain_Contains_branch q m t n :
  h !! q = Some m -> h !! t = Some n ->
  exists b, chain_Contains h (branch t) q = Ret b /\ (b = true <-> anc q t).
Proof.
  intros Hq Ht. unfold chain_Contains. cbn [deref]. rewrite Hq. cbn [obind]. eexists. split; [done |].
  rewrite bool_decide_eq_true. unfold chain_at. pose proof (node_height _ _ _ (Hok _ _ Hq)).
  rewrite (proj2 (Z.ltb_ge (nHeight m) 0)) by lia. unfold Zlen. rewrite (branch_length t n Ht). cbn [orb].
  pose proof (node_height _ _ _ (Hok _ _ Ht)). rewrite Z.geb_leb.
  destruct (Z.leb_spec (Z.of_nat (S (Z.to_nat (nHeight n)))) (nHeight m)) as [Hge | Hlt].
  - split; [done |]. intros Ha. destruct (anc_height q t n Ht Ha) as (m' & Hm' & ? & _). rewrite Hq in Hm'. injection Hm' as <-. lia.
  - rewrite (branch_lookup t n) by (done || lia). cbn [default].
    replace (Z.to_nat (nHeight n) - Z.to_nat (nHeight m))%nat with (Z.to_nat (nHeight n - nHeight m)) by lia. split; [by eexists |].
    intros Ha. destruct (anc_height q t n Ht Ha) as (m' & Hm' & _ & Hk). rewrite Hq in Hm'. by injection Hm' as <-.
Qed.

Lemma fork_point_self q t : anc q t -> fork_point q t (Some q).
Proof. intros H. split; [apply anc_refl |]. split; [done |]. by intros c Hc _. Qed.

(** The search for the fork moves to a block that has all the common ancestors. *)
Lemma fork_point_move p q t r :
  anc q p -> (forall c, anc c p -> anc c t -> anc c q) -> fork_point q t r -> fork_point p t r.
Proof.
  intros Hqp Hall. destruct r as [x |]; cbn.
  - intros (H1 & H2 & H3). split; [by apply (anc_trans _ q) |]. split; [done |]. intros c Hc Ht. apply H3; [by apply Hall | done].
  - intros H c Hc Ht. by apply (H c); [apply Hall |].
Qed.

Lemma FindFork_loop_spec fuel q m t n :
  h !! q = Some m -> h !! t = Some n -> nHeight m < Z.of_nat fuel ->
  exists r, FindFork_loop fuel h (branch t) (Some q) = Ret r /\ fork_point q t r.
Proof.
  intros Hq Ht. revert q m Hq. induction fuel as [| fuel IH]; intros q m Hq Hf.
  { pose proof (node_height _ _ _ (Hok _ _ Hq)). lia. }
  cbn [FindFork_loop]. destruct (chain_Contains_branch q m t n Hq Ht) as (b & -> & Hb). cbn [obind].
  destruct b; [eexists; split; [done |]; by apply fork_point_self, Hb |].
  assert (Hn : ~ anc q t) by (intros ?%Hb; done). cbn [deref]. rewrite Hq. cbn [obind].
  pose proof (Hok q m Hq) as Hnode. unfold node_ok in Hnode. destruct (pprev m) as [q' |] eqn:Hp.
  - destruct Hnode as (_ & (m' & Hm' & Hh & _) & _). destruct (IH q' m' Hm' ltac:(lia)) as (r & Hr & Hfp).
    exists r. split; [done |]. apply (fork_point_move q q'); [by eapply anc_prev | | done].
    intros c Hc Hct. destruct (anc_cases c q m Hq Hc) as [-> | (x & Hx & ?)]; [done |]. congruence.
  - exists None. split; [by destruct fuel |]. intros c Hc Hct. destruct (anc_cases c q m Hq Hc) as [-> | (x & Hx & ?)]; [done | congruence].
Qed.

Lemma FindFork_run p m t n :
  h !! p = Some m -> h !! t = Some n -> exists r, FindFork h (branch t) (Some p) = Ret r /\ fork_point p t r.
Proof.
  intros Hp Ht. unfold FindFork. cbn [deref]. rewrite Hp. cbn [obind]. unfold chain_Height, Zlen.
  rewrite (branch_length t n Ht), Z.gtb_ltb. pose proof (node_height _ _ _ (Hok _ _ Hp)). pose proof (node_height _ _ _ (Hok _ _ Ht)).
  replace (Z.of_nat (S (Z.to_nat (nHeight n))) - 1) with (nHeight n) by lia.
  destruct (Z.ltb_spec (nHeight n) (nHeight m)) as [Hlt | Hge].
  - rewrite (GetAncestor_run p m _ Hp), (proj2 (Z.ltb_ge (nHeight n) 0)), Z.gtb_ltb, (proj2 (Z.ltb_ge (nHeight m) (nHeight n))) by lia.
    cbn [orb obind]. destruct (back_some (Z.to_nat (nHeight m - nHeight n)) p m Hp ltac:(lia)) as (q & mq & Hq & Hmq & E). rewrite Hq.
    destruct (FindFork_loop_spec (Z.to_nat (nHeight m + 1)) q mq t n Hmq Ht ltac:(lia)) as (r & Hr & Hf). exists r. split; [done |].
    apply (fork_point_move p q); [by eexists | | done]. intros c Hc Hct.
    destruct (anc_height c t n Ht Hct) as (mc & Hmc & Hb & _). eapply (anc_linear c q p m mc mq); [done.. | by eexists | done | done | lia].
  - cbn [obind]. apply (FindFork_loop_spec _ p m t n); [done | done | lia].
Qed.

Lemma LastCommonAncestor_loop_spec fuel a b na nb :
  h !! a = Some na -> h !! b = Some nb -> nHeight na = nHeight nb -> nHeight na < Z.of_nat fuel ->
  exists r, LastCommonAncestor_loop fuel h (Some a) (Some b) = Ret r /\ fork_point a b r.
Proof.
  revert a b na nb. induction fuel as [| fuel IH]; intros a b na nb Ha Hb E Hf.
  { pose proof (node_height _ _ _ (Hok _ _ Ha)). lia. }
  cbn [LastCommonAncestor_loop]. destruct (Nat.eqb_spec a b) as [-> | Hne].
  { eexists. split; [done |]. apply fork_point_self, anc_refl. }
  cbn [deref]. rewrite Ha, Hb. cbn [obind]. pose proof (Hok _ _ Ha) as Na. pose proof (Hok _ _ Hb) as Nb. unfold node_ok in Na, Nb.
  assert (Hc : forall c, anc c a -> anc c b -> exists pa pb, pprev na = Some pa /\ pprev nb = Some pb /\ anc c pa /\ anc c pb).
  { intros c Hca Hcb. destruct (anc_cases c a na Ha Hca) as [-> | (pa & Hpa & Hca')].
    { destruct Hne. by eapply anc_same_height. }
    destruct (anc_cases c b nb Hb Hcb) as [-> | (pb & Hpb & Hcb')].
    { destruct Hne. symmetry. by eapply anc_same_height. }
    exists pa, pb. done. }
  destruct (pprev na) as [pa |] eqn:Epa, (pprev nb) as [pb |] eqn:Epb.
  - destruct Na as (_ & (ma & Hma & Hha & _) & _), Nb as (_ & (mb & Hmb & Hhb & _) & _).
    destruct (IH pa pb ma mb Hma Hmb ltac:(lia) ltac:(lia)) as (r & Hr & Hf'). exists r. split; [done |]. destruct r as [x |]; cbn in *.
    + destruct Hf' as (H1 & H2 & H3). split; [eapply anc_trans; [exact H1 | by eapply anc_prev] |].
      split; [eapply anc_trans; [exact H2 | by eapply anc_prev] |].
      intros c Hca Hcb. destruct (Hc c Hca Hcb) as (? & ? & [= <-] & [= <-] & ? & ?). by apply H3.
    + intros c Hca Hcb. destruct (Hc c Hca Hcb) as (? & ? & [= <-] & [= <-] & ? & ?). by apply (Hf' c).
  - destruct Na as (_ & (ma & _ & ? & ?) & _), Nb. lia.
  - destruct Nb as (_ & (mb & _ & ? & ?) & _), Na. lia.
  - exists None. split; [by destruct fuel |]. intros c Hca Hcb. by destruct (Hc c Hca Hcb) as (? & ? & [=] & _).
Qed.

Lemma fork_point_sym p t r : fork_point p t r -> fork_point t p r.
Proof. destruct r as [q |]; cbn; [intros (H1 & H2 & H3); split_and!; auto | intros H c Hc Hp; by apply (H c)]. Qed.

(** Both blocks are brought to the same height first. *)
Lemma fork_point_level p m t n :
  h !! p = Some m -> h !! t = Some n -> nHeight n <= nHeight m ->
  exists q mq, back h (Z.to_nat (nHeight m - nHeight n)) p = Some q /\ h !! q = Some mq /\ nHeight mq = nHeight n /\
    forall r, fork_point q t r -> fork_point p t r.
Proof.
  intros Hp Ht Hle. pose proof (node_height _ _ _ (Hok _ _ Ht)).
  destruct (back_some (Z.to_nat (nHeight m - nHeight n)) p m Hp ltac:(lia)) as (q & mq & Hq & Hmq & E).
  exists q, mq. split; [done |]. split; [done |]. split; [lia |]. intros r. apply fork_point_move; [by eexists |].
  intros c Hc Hct. destruct (anc_height c t n Ht Hct) as (mc & Hmc & Hb & _).
  eapply (anc_linear c q p m mc mq); [done.. | by eexists | done | done | lia].
Qed.

Lemma LastCommonAncestor_run a b na nb :
  h !! a = Some na -> h !! b = Some nb -> exists r, LastCommonAncestor h a b = Ret r /\ fork_point a b r.
Proof.
  intros Ha Hb. unfold LastCommonAncestor. cbn [deref]. rewrite Ha, Hb. cbn [obind]. rewrite !Z.gtb_ltb.
  pose proof (node_height _ _ _ (Hok _ _ Ha)). pose proof (node_height _ _ _ (Hok _ _ Hb)).
  destruct (Z.ltb_spec (nHeight nb) (nHeight na)) as [H1 | H1]; [| destruct (Z.ltb_spec (nHeight na) (nHeight nb)) as [H2 | H2]].
  - rewrite (GetAncestor_run a na _ Ha), (proj2 (Z.ltb_ge (nHeight nb) 0)), Z.gtb_ltb, (proj2 (Z.ltb_ge (nHeight na) (nHeight nb))) by lia.
    destruct (fork_point_level a na b nb Ha Hb ltac:(lia)) as (q & mq & -> & Hmq & E & Hm). cbn [orb obind].
    edestruct (LastCommonAncestor_loop_spec (Z.to_nat (Z.min (nHeight na) (nHeight nb)) + 1) q b) as (r & Hr & Hf); [done | done | lia | lia |]. exists r. auto.
  - rewrite (GetAncestor_run b nb _ Hb), (proj2 (Z.ltb_ge (nHeight na) 0)), Z.gtb_ltb, (proj2 (Z.ltb_ge (nHeight nb) (nHeight na))) by lia.
    destruct (fork_point_level b nb a na Hb Ha ltac:(lia)) as (q & mq & -> & Hmq & E & Hm). cbn [orb obind].
    edestruct (LastCommonAncestor_loop_spec (Z.to_nat (Z.min (nHeight na) (nHeight nb)) + 1) a q) as (r & Hr & Hf); [done | done | lia | lia |].
    exists r. auto using fork_point_sym.
  - cbn [obind]. eapply LastCommonAncestor_loop_spec; [done | done | lia | lia].
Qed.
End Walk.

Lemma fork_point_unique h p t r r' : heap_ok h -> is_Some (h !! p) -> fork_point h p t r -> fork_point h p t r' -> r = r'.
Proof.
  intros Hok [n Hp] H1 H2. destruct r as [q |], r' as [q' |]; cbn in *.
  - destruct H1 as (A1 & B1 & M1), H2 as (A2 & B2 & M2). f_equal.
    destruct (anc_height h Hok q p n Hp A1) as (m & Hm & Hb & _), (anc_height h Hok q' p n Hp A2) as (m' & Hm' & Hb' & _).
    destruct (anc_height h Hok q q' m' Hm' ltac:(auto)) as (x & Hx & ? & _). rewrite Hm in Hx. injection Hx as <-.
    destruct (anc_height h Hok q' q m Hm ltac:(auto)) as (x & Hx & ? & _). rewrite Hm' in Hx. injection Hx as <-.
    eapply (anc_same_height h Hok q q'); [done | done | lia | auto].
  - destruct H1 as (A1 & B1 & _). by destruct (H2 q A1).
  - destruct H2 as (A2 & B2 & _). by destruct (H1 q' A2).
  - done.
Qed.

(** ** Work *)

(** The work of a target: the expected number of hashes to meet it. *)
Definition work (nBits : Z) : Z :=
  let c := SetCompact nBits in
  if pfNegative c || pfOverflow c || (uval (compact_value c) =? 0) then 0
  else 2 ^ 256 / (uval (compact_value c) + 1).

(** The largest number is not a target: targets above 23 bits are even. *)
Lemma SetCompact_not_max n :
  0 <= n < 2 ^ 32 -> pfOverflow (SetCompact n) = false -> uval (compact_value (SetCompact n)) <> 2 ^ 256 - 1.
Proof.
  intros (m & sgn & size & Hm & Hs & ->)%compact_split. destruct (SetCompact_spec m sgn size Hm Hs) as (_ & -> & _ & ->).
  intros Ho E. apply Z.leb_gt in Ho. destruct (Z.leb_spec size 3) as [H3 | H3].
  - pose proof (Z.pow_pos_nonneg 256 (3 - size) ltac:(lia) ltac:(lia)).
    assert (0 <= m / 256 ^ (3 - size) < 2 ^ 23) by (split; [apply Z.div_pos; lia | apply Z.div_lt_upper_bound; nia]).
    rewrite Z.mod_small in E; lia.
  - assert (E2 : 256 ^ (size - 3) = 2 * (128 * 256 ^ (size - 4))).
    { replace (size - 3) with (Z.succ (size - 4)) by lia. rewrite Z.pow_succ_r by lia. lia. }
    pose proof (Z.pow_pos_nonneg 256 (size - 4) ltac:(lia) ltac:(lia)). rewrite E2 in *. rewrite Z.mod_small in E by lia. lia.
Qed.

Lemma GetBlockProof_run n :
  0 <= bi_nBits n < 2 ^ 32 ->
  exists w, GetBlockProof n = Ret w /\ wf_uint WIDTH w /\ uval w = work (bi_nBits n).
Proof.
  intros Hb. unfold GetBlockProof, work. pose proof (SetCompact_wf _ Hb) as Hwf. rewrite (is_zero_spec _ _ Hwf).
  destruct (of_uint64_spec 1 ltac:(lia)) as [H1 E1]. destruct (_ || _ || _) eqn:E.
  { eexists. split; [done |]. apply of_uint64_spec. lia. }
  apply orb_false_iff in E as [[_ Eo]%orb_false_iff E]. bool_to_prop. set (t := compact_value _) in *.
  pose proof (uval_range _ _ Hwf) as Hr. change (base WIDTH) with (2 ^ 256) in Hr.
  destruct (bnot_spec _ _ Hwf) as [Hn En]. destruct (badd_spec _ _ _ Hwf H1) as [Ha Ea]. rewrite E1 in Ea.
  change (base WIDTH) with (2 ^ 256) in *.
  pose proof (bdiv_spec _ _ _ Hn Ha) as Hd. rewrite En, Ea in Hd.
  destruct (Z.eq_dec (uval t) (2 ^ 256 - 1)) as [Hmax | Hmax].
  { by destruct (SetCompact_not_max (bi_nBits n) Hb Eo). }
  rewrite Z.mod_small in Hd by lia. rewrite (proj2 (Z.eqb_neq (uval t + 1) 0)) in Hd by lia.
  destruct Hd as (q & -> & Hq & Eq). cbn [obind]. destruct (badd_spec _ _ _ Hq H1) as [Hs Es].
  eexists. split; [done |]. split; [done |]. rewrite Es, E1, Eq. change (base WIDTH) with (2 ^ 256).
  assert (Hq1 : 2 ^ 256 / (uval t + 1) = (2 ^ 256 - 1 - uval t) / (uval t + 1) + 1).
  { rewrite <- Z.div_add by lia. f_equal. lia. }
  rewrite Hq1. apply Z.mod_small. pose proof (Z.div_pos (2 ^ 256 - 1 - uval t) (uval t + 1) ltac:(lia) ltac:(lia)).
  assert ((2 ^ 256 - 1 - uval t) / (uval t + 1) <= 2 ^ 256 - 1 - uval t) by (apply Z.div_le_upper_bound; nia). lia.
Qed.

(** ** Locators *)

(** Every entry knows its hash. *)
Definition hashed (h : heap) : Prop := forall p n, h !! p = Some n -> is_Some (phashBlock n).

(** The hashes [l] of blocks on the branch of [p], from [p] down to genesis. *)
Inductive locator (h : heap) (p : ptr) : list (list Z) -> Prop :=
| locator_genesis n hash :
    h !! p = Some n -> phashBlock n = Some hash -> nHeight n = 0 -> locator h p [hash]
| locator_step n hash q k l :
    h !! p = Some n -> phashBlock n = Some hash -> back h (S k) p = Some q -> locator h q l -> locator h p (hash :: l).

Section Locator.
Context (h : heap) (Hok : heap_ok h) (Hhash : hashed h).

(** The next block of the locator, from the chain or from the skip list. *)
Lemma locator_next c p n height :
  chain_ok h c -> h !! p = Some n -> 0 <= height <= nHeight n ->
  (let? b := chain_Contains h c p in if b then Ret (chain_at c height) else GetAncestor h p height)
  = Ret (back h (Z.to_nat (nHeight n - height)) p).
Proof.
  intros Hc Hp Hh. unfold chain_Contains. cbn [deref]. rewrite Hp. cbn [obind]. case_bool_decide as E.
  - unfold chain_at in *. destruct ((nHeight n <? 0) || (nHeight n >=? Zlen c)) eqn:E1; [done |].
    apply orb_false_iff in E1 as [E1 E2]. bool_to_prop.
    rewrite (proj2 (Z.ltb_ge height 0)), Z.geb_leb, (proj2 (Z.leb_gt (Zlen c) height)) by lia. cbn [orb].
    destruct (c !! Z.to_nat (nHeight n)) as [[q |] |] eqn:Eq; [| done | done]. cbn in E. injection E as ->.
    rewrite (chain_ok_low h c (Z.to_nat (nHeight n)) p Hc Eq (Z.to_nat height)) by lia. cbn. do 3 f_equal. lia.
  - rewrite (GetAncestor_run h Hok p n height Hp), Z.gtb_ltb, (proj2 (Z.ltb_ge (nHeight n) height)), (proj2 (Z.ltb_ge height 0)) by lia.
    done.
Qed.

Lemma GetLocator_loop_spec c top fuel nStep vHave p n :
  chain_ok h c -> h !! p = Some n -> 0 < top < 2 ^ 30 -> nHeight n <= top -> nHeight n < Z.of_nat fuel ->
  nStep = 2 ^ Z.max 0 (Zlen vHave - 10) -> (nHeight n = 0 \/ nStep <= top - nHeight n + 1) -> Zlen vHave <= 11 + Z.log2 top ->
  exists l, GetLocator_loop fuel h c nStep vHave (Some p) = Ret (vHave ++ l) /\ locator h p l /\
    Zlen (vHave ++ l) <= 12 + Z.log2 top.
Proof.
  intros Hc. revert nStep vHave p n. induction fuel as [| fuel IH]; intros nStep vHave p n Hp Htop Hle Hf Hstep Hbound Hlen.
  { pose proof (node_height _ _ _ (Hok _ _ Hp)). lia. }
  pose proof (node_height _ _ _ (Hok _ _ Hp)) as H0. destruct (Hhash p n Hp) as [hash Hh].
  cbn [GetLocator_loop deref]. rewrite Hp. cbn [obind]. unfold GetBlockHash at 1. rewrite Hh. cbn [obind].
  destruct (Z.eqb_spec (nHeight n) 0) as [Hz | Hz].
  { exists [hash]. split; [done |]. split; [by eapply locator_genesis |]. rewrite Zlen_app, Zlen_cons, Zlen_nil. lia. }
  assert (Hpow : 1 <= nStep) by (subst nStep; pose proof (Z.pow_pos_nonneg 2 (Z.max 0 (Zlen vHave - 10))); lia).
  set (height := Z.max (nHeight n - nStep) 0).
  pose proof (locator_next c p n height Hc Hp ltac:(lia)) as Hnext. unfold chain_Contains in *. cbn [deref] in *. rewrite Hp in *. cbn [obind] in *.
  rewrite Hnext. cbn [obind].
  destruct (back_some h Hok (Z.to_nat (nHeight n - height)) p n Hp ltac:(lia)) as (q & m & Hq & Hm & Em). rewrite Hq.
  assert (Hlog : Zlen vHave - 10 <= Z.log2 top).
  { destruct (Z.le_gt_cases (Zlen vHave) 10); [pose proof (Z.log2_nonneg top); lia |].
    apply Z.log2_le_pow2; [lia |]. rewrite Z.max_r in Hstep by lia. lia. }
  assert (Hs' : (if Zlen (vHave ++ [hash]) >? 10 then int_mul nStep 2 else Ret nStep) =
                Ret (2 ^ Z.max 0 (Zlen (vHave ++ [hash]) - 10))).
  { rewrite Zlen_app, Zlen_cons, Zlen_nil, Z.gtb_ltb. pose proof (Zlen_nonneg vHave). destruct (Z.ltb_spec 10 (Zlen vHave + (1 + 0))) as [Hgt | Hgt].
    - unfold int_mul, INT_MIN, INT_MAX. rewrite (proj2 (Z.leb_le _ (nStep * 2))), (proj2 (Z.leb_le (nStep * 2) _)) by lia. cbn [andb].
      rewrite (Z.max_r 0 (Zlen vHave - 10)) in Hstep by lia. rewrite (Z.max_r 0 (_ - 10)) by lia.
      replace (Zlen vHave + (1 + 0) - 10) with (Z.succ (Zlen vHave - 10)) by lia.
      rewrite (Z.pow_succ_r 2 (Zlen vHave - 10)) by lia. f_equal. lia.
    - rewrite Hstep, !Z.max_l by lia. done. }
  rewrite Hs'. cbn [obind]. assert (Hd : 2 ^ Z.max 0 (Zlen (vHave ++ [hash]) - 10) <= 2 * nStep).
  { destruct (Zlen (vHave ++ [hash]) >? 10) eqn:E; [| injection Hs' as <-; lia].
    unfold int_mul in Hs'. destruct (_ && _) in Hs'; [| done]. injection Hs' as <-. lia. }
  destruct (IH (2 ^ Z.max 0 (Zlen (vHave ++ [hash]) - 10)) (vHave ++ [hash]) q m) as (l & Hr & Hl & Hb);
    [done | lia | lia | lia | done | lia | rewrite Zlen_app, Zlen_cons, Zlen_nil; lia |].
  exists (hash :: l). rewrite Hr, <- app_assoc. split; [done |]. split; [| by rewrite <- app_assoc in Hb].
  replace (Z.to_nat (nHeight n - height)) with (S (Z.to_nat (nHeight n - height - 1))) in Hq by lia. by eapply locator_step.
Qed.
End Locator.

(** ** Search by time *)

Definition times_ok (h : heap) : Prop :=
  forall p n q m, h !! p = Some n -> pprev n = Some q -> h !! q = Some m -> nTimeMax m <= nTimeMax n.

(** The block at height [i] of a chain. *)
Definition entry (h : heap) (c : CChain) (i : Z) (p : ptr) (n : CBlockIndex) : Prop :=
  0 <= i /\ c !! Z.to_nat i = Some (Some p) /\ h !! p = Some n.

Section Times.
Context (h : heap) (Hok : heap_ok h) (Ht : times_ok h).

Lemma back_times k p n q m : h !! p = Some n -> back h k p = Some q -> h !! q = Some m -> nTimeMax m <= nTimeMax n.
Proof.
  revert p n. induction k as [| k IH]; intros p n Hp Hk Hq; cbn [back] in Hk.
  - injection Hk as ->. rewrite Hp in Hq. injection Hq as ->. lia.
  - rewrite Hp in Hk. destruct (pprev n) as [r |] eqn:Er; [| done]. pose proof (Hok p n Hp) as Hn. unfold node_ok in Hn.
    rewrite Er in Hn. destruct Hn as (_ & (l & Hl & _) & _). pose proof (Ht p n r l Hp Er Hl). pose proof (IH r l Hl Hk Hq). lia.
Qed.

Lemma branch_entry t n i : h !! t = Some n -> 0 <= i < Zlen (branch h t) -> exists p m, entry h (branch h t) i p m.
Proof.
  intros Hn Hi. unfold Zlen in Hi. rewrite (branch_length h t n Hn) in Hi. pose proof (node_height _ _ _ (Hok _ _ Hn)).
  destruct (back_some h Hok (Z.to_nat (nHeight n) - Z.to_nat i) t n Hn ltac:(lia)) as (q & m & Hq & Hm & _).
  exists q, m. split; [lia |]. split; [| done]. rewrite (branch_lookup h t n) by (done || lia). by rewrite Hq.
Qed.

Lemma branch_monotone t i j p n q m :
  is_Some (h !! t) -> entry h (branch h t) i p n -> entry h (branch h t) j q m -> i <= j -> nTimeMax n <= nTimeMax m.
Proof.
  intros Hs (Hi & Ei & Hp) (Hj & Ej & Hq) Hij.
  pose proof (chain_ok_low h (branch h t) (Z.to_nat j) q ltac:(right; eauto) Ej (Z.to_nat i) ltac:(lia)) as E.
  rewrite Ei in E. injection E as E. by eapply back_times.
Qed.

Lemma lower_bound_spec t n nTime fuel first len :
  h !! t = Some n -> let c := branch h t in
  0 <= first -> 0 <= len <= Z.of_nat fuel -> first + len <= Zlen c ->
  (forall i p m, entry h c i p m -> i < first -> nTimeMax m < nTime) ->
  (forall i p m, entry h c i p m -> first + len <= i -> nTime <= nTimeMax m) ->
  exists r, lower_bound fuel h c nTime first len = Ret r /\ 0 <= r <= Zlen c /\
    (forall i p m, entry h c i p m -> i < r -> nTimeMax m < nTime) /\
    (forall i p m, entry h c i p m -> r <= i -> nTime <= nTimeMax m).
Proof.
  intros Hn c. revert first len. induction fuel as [| fuel IH]; intros first len Hf Hl Hlen Hlo Hhi.
  { exists first. replace len with 0 in * by lia. split; [done |]. split; [lia |]. split; [done |]. intros i p m He Hi. apply (Hhi i p m He). lia. }
  cbn [lower_bound]. rewrite Z.gtb_ltb. destruct (Z.ltb_spec 0 len) as [Hp | Hz].
  2: { exists first. split; [done |]. split; [lia |]. split; [done |]. intros i p m He Hi. apply (Hhi i p m He). lia. }
  pose proof (Z.div_lt len 2 ltac:(lia) ltac:(lia)). pose proof (Z.div_pos len 2 ltac:(lia) ltac:(lia)).
  destruct (branch_entry t n (first + len / 2) Hn) as (p & m & He); [fold c; lia |].
  destruct He as (Hm0 & Ec & Hm) eqn:He'. clear He'. unfold index. rewrite (proj2 (Z.ltb_ge (first + len / 2) 0)) by lia.
  fold c in Ec. rewrite Ec. cbn [obind deref]. rewrite Hm. cbn [obind]. unfold GetBlockTimeMax.
  destruct (Z.ltb_spec (nTimeMax m) nTime) as [Hlt | Hge]; apply IH; try lia; try done.
  - intros i p' m' He' Hi. assert (nTimeMax m' <= nTimeMax m); [| lia].
    eapply (branch_monotone t i (first + len / 2)); [by eexists | exact He' | exact He | lia].
  - intros i p' m' He' Hi. apply (Hhi i p' m' He'). lia.
  - intros i p' m' He' Hi. assert (nTimeMax m <= nTimeMax m'); [| lia].
    eapply (branch_monotone t (first + len / 2) i); [by eexists | exact He | exact He' | lia].
Qed.
End Times.

(** ** Samples *)

(** An entry at a height, with its links. *)
Definition sample_entry (prev skip : option ptr) (height : Z) : CBlockIndex :=
  BlockIndex (Some (replicate 32 height)) prev skip height 0 0 0 (zeros WIDTH) 0 0 0 0x22000000 (replicate 32 2)
    (1500000000 + height) 0x1d00ffff height 0 (1500000000 + height).

(** Four blocks in a row and a fork off the second. *)
Definition sample_heap : heap :=
  [sample_entry None None 0; sample_entry (Some 0%nat) (Some 0%nat) 1; sample_entry (Some 1%nat) (Some 0%nat) 2;
   sample_entry (Some 2%nat) (Some 1%nat) 3; sample_entry (Some 1%nat) (Some 0%nat) 2].

Lemma sample_heap_cases (P : ptr -> CBlockIndex -> Prop) :
  (forall p, (p < 5)%nat -> exists n, sample_heap !! p = Some n /\ P p n) -> forall p n, sample_heap !! p = Some n -> P p n.
Proof.
  intros H p n Hp. apply lookup_lt_Some in Hp as Hlt. destruct (H p Hlt) as (m & Hm & HP). rewrite Hp in Hm. by injection Hm as <-.
Qed.

Lemma sample_heap_ok : heap_ok sample_heap.
Proof.
  refine (sample_heap_cases (node_ok sample_heap) _). intros p Hp.
  destruct p as [| [| [| [| [| p]]]]]; [eexists; split; [reflexivity | done] | .. | lia];
    (eexists; split; [reflexivity |]; cbn; split; [lia |]; split; [eexists; split; [reflexivity | cbn; lia] | right; reflexivity]).
Qed.

Lemma sample_heap_times : times_ok sample_heap.
Proof.
  intros p n q m Hp. revert p n Hp q m.
  refine (sample_heap_cases (fun p n => forall q m, pprev n = Some q -> sample_heap !! q = Some m -> nTimeMax m <= nTimeMax n) _).
  intros p Hp. destruct p as [| [| [| [| [| p]]]]]; [eexists; split; [reflexivity | done] | .. | lia];
    (eexists; split; [reflexivity |]; intros q m [= <-] [= <-]; cbn; lia).
Qed.

Lemma sample_heap_hashed : hashed sample_heap.
Proof.
  refine (sample_heap_cases (fun _ n => is_Some (phashBlock n)) _).
  intros p Hp. destruct p as [| [| [| [| [| p]]]]]; [.. | lia]; (eexists; split; [reflexivity | by eexists]).
Qed.

(** ** Theorems *)

(** C29. [GetAncestor] terminates and, through the skip list, returns the block that
    the walk along [pprev] reaches at the height, and nothing at a height above the
    block or below 0. *)
Theorem GetAncestor_spec h p n height :
  heap_ok h -> h !! p = Some n ->
  if (height >? nHeight n) || (height <? 0) then GetAncestor h p height = Ret None
  else exists q m, GetAncestor h p height = Ret (Some q) /\ back h (Z.to_nat (nHeight n - height)) p = Some q /\
         h !! q = Some m /\ nHeight m = height.
Proof.
  intros Hok Hp. rewrite (GetAncestor_run h Hok p n height Hp). destruct (_ || _) eqn:E; [done |]. apply orb_false_iff in E as [E1 E2]. bool_to_prop.
  destruct (back_some h Hok (Z.to_nat (nHeight n - height)) p n Hp ltac:(lia)) as (q & m & Hq & Hm & Eh).
  exists q, m. rewrite Hq. split_and!; try done. lia.
Qed.

Lemma GetAncestor_spec_witness :
  exists q m, GetAncestor sample_heap 3%nat 1 = Ret (Some q) /\ back sample_heap 2 3%nat = Some q /\ sample_heap !! q = Some m /\ nHeight m = 1.
Proof. exact (GetAncestor_spec sample_heap 3%nat _ 1 sample_heap_ok eq_refl). Defined.

(** [SetTip] makes the chain the branch of its tip, entry by entry, whichever
    branch it held before, although it stops at the first entry that it finds in
    place. *)
Theorem SetTip_spec h c p n :
  heap_ok h -> chain_ok h c -> h !! p = Some n ->
  exists c', SetTip h c (Some p) = Ret c' /\ Zlen c' = nHeight n + 1 /\ chain_Tip c' = Some p /\ chain_ok h c' /\
    forall height, 0 <= height <= nHeight n -> chain_at c' height = back h (Z.to_nat (nHeight n - height)) p.
Proof.
  intros Hok Hc Hp. exists (branch h p). rewrite (SetTip_run h Hok c p n Hp Hc). pose proof (node_height _ _ _ (Hok p n Hp)).
  assert (Hl : Zlen (branch h p) = nHeight n + 1) by (unfold Zlen; rewrite (branch_length h p n Hp); lia).
  split; [done |]. split; [done |]. split; [| split; [right; eauto |]].
  - unfold chain_Tip. rewrite (branch_length h p n Hp). rewrite (branch_lookup h p n) by (done || lia). cbn [Nat.sub default].
    replace (Z.to_nat (nHeight n) - (Z.to_nat (nHeight n) - 0))%nat with 0%nat by lia. done.
  - intros height Hh. unfold chain_at. rewrite (proj2 (Z.ltb_ge height 0)), Z.geb_leb, Hl, (proj2 (Z.leb_gt _ height)) by lia.
    rewrite (branch_lookup h p n) by (done || lia). cbn. f_equal. lia.
Qed.

Lemma SetTip_spec_witness :
  exists c', SetTip sample_heap (branch sample_heap 4%nat) (Some 3%nat) = Ret c' /\ chain_Tip c' = Some 3%nat.
Proof.
  destruct (SetTip_spec sample_heap (branch sample_heap 4%nat) 3%nat (sample_entry (Some 2%nat) (Some 1%nat) 3)) as (c' & H1 & _ & H2 & _).
  - exact sample_heap_ok.
  - right. exists 4%nat. split; [eexists; reflexivity | reflexivity].
  - reflexivity.
  - exists c'. split; [exact H1 | exact H2].
Defined.

(** [FindFork] on the chain of a tip and [LastCommonAncestor] with the tip find
    the same block, the highest one that both blocks descend from, or none when
    they have no common ancestor. *)
Theorem fork_search h p t :
  heap_ok h -> is_Some (h !! p) -> is_Some (h !! t) ->
  exists r, FindFork h (branch h t) (Some p) = Ret r /\ LastCommonAncestor h p t = Ret r /\ fork_point h p t r.
Proof.
  intros Hok [m Hp] [n Ht]. destruct (FindFork_run h Hok p m t n Hp Ht) as (r & Hr & Hf).
  destruct (LastCommonAncestor_run h Hok p t m n Hp Ht) as (r' & Hr' & Hf').
  assert (r = r') as <- by (apply (fork_point_unique h p t); [done | by eexists | done | done]). by exists r.
Qed.

Lemma fork_search_witness :
  exists r, FindFork sample_heap (branch sample_heap 3%nat) (Some 4%nat) = Ret r /\
    LastCommonAncestor sample_heap 4%nat 3%nat = Ret r /\ fork_point sample_heap 4%nat 3%nat r.
Proof. apply (fork_search sample_heap 4%nat 3%nat); [exact sample_heap_ok | eexists; reflexivity | eexists; reflexivity]. Defined.

(** [GetLocator] returns, without overflow of the step below a height of [2^30],
    the hashes of a descending selection of the block's ancestors that starts with
    the block and ends with genesis, at most [12 + log2] of the height of them. *)
Theorem GetLocator_spec h c p n :
  heap_ok h -> hashed h -> chain_ok h c -> h !! p = Some n -> 0 < nHeight n < 2 ^ 30 ->
  exists l, GetLocator h c (Some p) = Ret l /\ locator h p l /\ Zlen l <= 12 + Z.log2 (nHeight n).
Proof.
  intros Hok Hh Hc Hp Hn. unfold GetLocator. cbn [deref]. rewrite Hp. cbn [obind].
  pose proof (Z.log2_nonneg (nHeight n)).
  apply (GetLocator_loop_spec h Hok Hh c (nHeight n) _ 1 [] p n); try done; try lia. rewrite Zlen_nil. lia.
Qed.

Lemma GetLocator_spec_witness :
  exists l, GetLocator sample_heap (branch sample_heap 4%nat) (Some 3%nat) = Ret l /\ locator sample_heap 3%nat l /\ Zlen l <= 13.
Proof.
  apply (GetLocator_spec sample_heap (branch sample_heap 4%nat) 3%nat (sample_entry (Some 2%nat) (Some 1%nat) 3)).
  - exact sample_heap_ok.
  - exact sample_heap_hashed.
  - right. exists 4%nat. split; [eexists; reflexivity | reflexivity].
  - reflexivity.
  - split; reflexivity.
Defined.

(** [FindEarliestAtLeast] finds, by binary search on the maximal times, the lowest
    block of the chain whose maximal time is at least the given one, and nothing
    when there is none. *)
Theorem FindEarliestAtLeast_spec h t n nTime :
  heap_ok h -> times_ok h -> h !! t = Some n -> let c := branch h t in
  exists r, FindEarliestAtLeast h c nTime = Ret r /\
    match r with
    | Some p => exists i m, entry h c i p m /\ nTime <= nTimeMax m /\ forall j q k, entry h c j q k -> j < i -> nTimeMax k < nTime
    | None => forall j q k, entry h c j q k -> nTimeMax k < nTime
    end.
Proof.
  intros Hok Ht Hn c. pose proof (Zlen_nonneg c).
  destruct (lower_bound_spec h Hok Ht t n nTime (length c) 0 (Zlen c) Hn) as (r & Hr & Hb & Hlo & Hhi); fold c; try lia.
  { unfold Zlen. lia. }
  { intros i p m (? & _) ?. lia. }
  { intros i p m (? & Hi & _) ?. apply lookup_lt_Some in Hi. unfold Zlen in *. lia. }
  fold c in Hr, Hb, Hlo, Hhi. unfold FindEarliestAtLeast. rewrite Hr. cbn [obind].
  destruct (Z.eqb_spec r (Zlen c)) as [-> | Hne].
  - exists None. split; [done |]. intros j q k He. apply (Hlo j q k He). destruct He as (? & Hj & _). apply lookup_lt_Some in Hj. unfold Zlen. lia.
  - destruct (branch_entry h Hok t n r Hn) as (p & m & He); [fold c; lia |]. fold c in He. exists (Some p). split.
    + destruct He as (H0 & Hc & _). unfold index. rewrite (proj2 (Z.ltb_ge r 0)), Hc by lia. done.
    + exists r, m. split; [done |]. split; [apply (Hhi r p m He); lia |]. done.
Qed.

Lemma FindEarliestAtLeast_spec_witness :
  exists r, FindEarliestAtLeast sample_heap (branch sample_heap 3%nat) 1500000002 = Ret r.
Proof.
  destruct (FindEarliestAtLeast_spec sample_heap 3%nat (sample_entry (Some 2%nat) (Some 1%nat) 3) 1500000002
    sample_heap_ok sample_heap_times eq_refl) as (r & H & _).
  exists r. exact H.
Defined.

(** [GetBlockProof] is the number of hashes expected for the block's target,
    [2^256 / (target + 1)], although it computes in 256 bits, and 0 for a target
    that is negative, zero or too large. *)
Theorem GetBlockProof_spec n :
  0 <= bi_nBits n < 2 ^ 32 ->
  exists w, GetBlockProof n = Ret w /\ wf_uint WIDTH w /\
    let c := SetCompact (bi_nBits n) in
    uval w = if pfNegative c || pfOverflow c || (uval (compact_value c) =? 0) then 0 else 2 ^ 256 / (uval (compact_value c) + 1).
Proof. apply GetBlockProof_run. Qed.

Lemma GetBlockProof_spec_witness :
  exists w, GetBlockProof (sample_entry None None 0) = Ret w /\ uval w = 0x100010001.
Proof.
  destruct (GetBlockProof_spec (sample_entry None None 0)) as (w & H1 & _ & H2).
  - split; [discriminate | reflexivity].
  - exists w. split; [exact H1 |]. rewrite H2. vm_compute. reflexivity.
Defined.
