(* ===== verification/BlockIndexInv.v ===== *)
(** * The invariant of the block index

    What [AddToBlockIndex] maintains: the links, the skip pointers, the chain
    work, the maximal time, the hash map and the best header. *)

From stdpp Require Import gmap sorting.
From S2P Require Import Prelude Common Serialize Hash Transaction Block ArithUint256 ArithProps Chain ChainProps.

Open Scope outcome_scope.

(** ** The invariant *)

(** A field of the previous block, [d] for the first. *)
Definition prev_field (h : heap) (n : CBlockIndex) (f : CBlockIndex -> Z) (d : Z) : Z :=
  match pprev n with
  | Some q => match h !! q with Some m => f m | None => d end
  | None => d
  end.

Record node_data (h : heap) (n : CBlockIndex) : Prop := {
  nd_bits : 0 <= bi_nBits n < 2 ^ 32;
  nd_wf : wf_uint WIDTH (nChainWork n);
  nd_work : uval (nChainWork n) = (prev_field h n (fun m => uval (nChainWork m)) 0 + work (bi_nBits n)) mod 2 ^ 256;
  nd_time : nTimeMax n = Z.max (prev_field h n nTimeMax (bi_nTime n)) (bi_nTime n);
  nd_hash : is_Some (phashBlock n)
}.

Record index_ok (st : BlockManager) : Prop := {
  io_heap : heap_ok (blocks st);
  io_data : forall p n, blocks st !! p = Some n -> node_data (blocks st) n;
  io_map : forall hash p, mapBlockIndex st !! hash = Some p <-> exists n, blocks st !! p = Some n /\ phashBlock n = Some hash;
  io_best : match pindexBestHeader st with
            | None => blocks st = []
            | Some b => exists nb, blocks st !! b = Some nb /\
                forall p n, blocks st !! p = Some n -> uval (nChainWork n) <= uval (nChainWork nb)
            end
}.

Definition empty_index : BlockManager := Manager [] ∅ None ∅.

Lemma empty_index_ok : index_ok empty_index.
Proof.
  split; cbn.
  - intros p n Hp. by rewrite lookup_nil in Hp.
  - intros p n Hp. by rewrite lookup_nil in Hp.
  - intros hash p. rewrite lookup_empty. split; [done |]. intros (n & Hn & _). by rewrite lookup_nil in Hn.
  - done.
Qed.

(** ** Growing the heap *)

Lemma insert_last {A} (l : list A) x y : <[length l := x]> (l ++ [y]) = l ++ [x].
Proof. rewrite insert_app_r_alt, Nat.sub_diag by lia. done. Qed.

Lemma lookup_last {A} (l : list A) x : (l ++ [x]) !! length l = Some x.
Proof. rewrite lookup_app_r, Nat.sub_diag by lia. done. Qed.

Lemma back_app h l k p n : heap_ok h -> h !! p = Some n -> back (h ++ l) k p = back h k p.
Proof.
  intros Hok. revert p n. induction k as [| k IH]; intros p n Hp; [done |]. cbn [back].
  rewrite (lookup_app_l_Some _ _ _ _ Hp), Hp. pose proof (Hok p n Hp) as Hn. unfold node_ok in Hn.
  destruct (pprev n) as [q |]; [| done]. destruct Hn as (_ & (m & Hm & _) & _). by apply (IH q m).
Qed.

Lemma node_ok_app h l p n : heap_ok h -> h !! p = Some n -> node_ok (h ++ l) p n.
Proof.
  intros Hok Hp. pose proof (Hok p n Hp) as Hn. unfold node_ok in *. destruct (pprev n) as [q |]; [| done].
  destruct Hn as (Hq & (m & Hm & Hh) & Hs). split; [done |]. split; [exists m; split; [by apply lookup_app_l_Some | done] |].
  destruct Hs as [? | Hs]; [by left | right]. by rewrite (back_app h l _ p n).
Qed.

Lemma heap_ok_snoc h n : heap_ok h -> node_ok (h ++ [n]) (length h) n -> heap_ok (h ++ [n]).
Proof.
  intros Hok Hn p m Hp. destruct (le_lt_dec (length h) p) as [Hge | Hlt].
  - assert (p = length h) as -> by (apply lookup_lt_Some in Hp; rewrite length_app in Hp; cbn in Hp; lia).
    rewrite lookup_last in Hp. by injection Hp as <-.
  - rewrite lookup_app_l in Hp by done. by apply node_ok_app.
Qed.

Lemma node_ok_snoc h p n q m x :
  heap_ok h -> h !! q = Some m -> p = length h -> pprev n = Some q -> nHeight n = nHeight m + 1 ->
  pskip n = None \/ pskip n = back h (Z.to_nat (nHeight m - GetSkipHeight (nHeight n))) q ->
  (x = n) -> node_ok (h ++ [x]) p n.
Proof.
  intros Hok Hq -> Hp Hh Hs ->. unfold node_ok. rewrite Hp. pose proof (node_height _ _ _ (Hok _ _ Hq)).
  split; [by eapply lookup_lt_Some |]. split; [exists m; split; [by apply lookup_app_l_Some | lia] |].
  destruct Hs as [? | ->]; [by left | right]. pose proof (GetSkipHeight_bound (nHeight n) ltac:(lia)).
  replace (Z.to_nat (nHeight n - GetSkipHeight (nHeight n))) with (S (Z.to_nat (nHeight m - GetSkipHeight (nHeight n)))) by lia.
  cbn [back]. rewrite lookup_last, Hp. by rewrite (back_app h [n] _ q m).
Qed.

(** Heights stay below the number of blocks. *)
Lemma height_bound h p n : heap_ok h -> h !! p = Some n -> nHeight n <= Z.of_nat p.
Proof.
  intros Hok. revert n. induction p as [p IH] using lt_wf_ind. intros n Hp. pose proof (Hok p n Hp) as Hn. unfold node_ok in Hn.
  destruct (pprev n) as [q |]; [| lia]. destruct Hn as (Hq & (m & Hm & Hh & _) & _). pose proof (IH q Hq m Hm). lia.
Qed.

(** ** Adding a header *)

(** The entry made for a header. *)
Definition new_entry (b : CBlockHeader) (prev skip : option ptr) (height : Z) : CBlockIndex :=
  BlockIndex (Some (block_GetHash b)) prev skip height 0 0 0 (zeros WIDTH) 0 0 0
    (hdr_nVersion b) (hdr_hashMerkleRoot b) (hdr_nTime b) (hdr_nBits b) (hdr_nNonce b) 0 0.

Lemma link_prev_run h b prev :
  heap_ok h -> Z.of_nat (length h) < INT_MAX -> (forall q, prev = Some q -> is_Some (h !! q)) ->
  exists skip height, let n := new_entry b prev skip height in
    link_prev (h ++ [new_entry b None None 0]) (length h) prev = Ret (h ++ [n]) /\ node_ok (h ++ [n]) (length h) n.
Proof.
  intros Hok Hlen Hprev. destruct prev as [q |].
  2: { exists None, 0. split; [done |]. unfold node_ok. done. }
  destruct (Hprev q eq_refl) as [m Hm]. pose proof (height_bound h q m Hok Hm). apply lookup_lt_Some in Hm as Hlt.
  pose proof (node_height _ _ _ (Hok _ _ Hm)). pose proof (GetSkipHeight_bound (nHeight m + 1) ltac:(lia)) as Hsk.
  exists (back h (Z.to_nat (nHeight m - GetSkipHeight (nHeight m + 1))) q), (nHeight m + 1). cbv zeta. split.
  - unfold link_prev. cbn [deref]. rewrite (lookup_app_l_Some _ _ _ _ Hm). cbn [obind]. unfold int_add, INT_MIN, INT_MAX in *.
    rewrite (proj2 (Z.leb_le _ (nHeight m + 1))), (proj2 (Z.leb_le (nHeight m + 1) _)) by lia. cbn [andb obind].
    rewrite lookup_last. cbn [obind]. rewrite insert_last. unfold BuildSkip. cbn [deref]. rewrite lookup_last. cbn [obind].
    cbn [pprev set_links new_entry]. set (n1 := set_links _ _ _ _).
    assert (Hn1 : heap_ok (h ++ [n1])).
    { apply heap_ok_snoc; [done |]. eapply (node_ok_snoc h _ n1 q m); try done. by left. }
    rewrite (GetAncestor_run _ Hn1 q m) by (by apply lookup_app_l_Some). cbn [nHeight n1 set_links].
    rewrite (proj2 (Z.ltb_ge (GetSkipHeight (nHeight m + 1)) 0)), Z.gtb_ltb, (proj2 (Z.ltb_ge (nHeight m) _)) by lia.
    cbn [orb obind]. rewrite insert_last, (back_app h [n1] _ q m) by done. done.
  - eapply (node_ok_snoc h _ _ q m); try done. by right.
Qed.

(** The links do not depend on the other fields. *)
Lemma back_same h n n' k p : pprev n = pprev n' -> back (h ++ [n]) k p = back (h ++ [n']) k p.
Proof.
  intros E. revert p. induction k as [| k IH]; intros p; [done |]. cbn [back].
  destruct (le_lt_dec (length h) p) as [Hge | Hlt].
  - rewrite !lookup_app_r by lia. destruct (p - length h)%nat; cbn; [rewrite E; by destruct (pprev n') | done].
  - rewrite !lookup_app_l by lia. destruct (h !! p) as [m |]; [by destruct (pprev m) | done].
Qed.

Lemma node_ok_same h n n' :
  pprev n = pprev n' -> pskip n = pskip n' -> nHeight n = nHeight n' ->
  node_ok (h ++ [n]) (length h) n -> node_ok (h ++ [n']) (length h) n'.
Proof.
  intros E1 E2 E3 Hn. unfold node_ok in *. rewrite <- E1, <- E2, <- E3. destruct (pprev n) as [q |] eqn:Eq; [| done].
  destruct Hn as (Hq & (m & Hm & Hh) & Hs). split; [done |]. rewrite lookup_app_l in * by done. split; [by exists m |].
  destruct Hs as [? | Hs]; [by left | right]. rewrite Hs. apply back_same. congruence.
Qed.

(** The result for a new header. *)
Lemma AddToBlockIndex_run st b :
  index_ok st -> 0 <= hdr_nBits b < 2 ^ 32 -> hdr_hashPrevBlock b <> block_GetHash b ->
  Z.of_nat (length (blocks st)) < INT_MAX -> mapBlockIndex st !! block_GetHash b = None ->
  exists skip height w,
    let prev := mapBlockIndex st !! hdr_hashPrevBlock b in
    let n0 := new_entry b prev skip height in
    let timeMax := Z.max (prev_field (blocks st) n0 nTimeMax (hdr_nTime b)) (hdr_nTime b) in
    let n := set_nStatus (set_work n0 timeMax w) 2 in
    let p := length (blocks st) in
    node_ok (blocks st ++ [n]) p n /\ wf_uint WIDTH w /\
    uval w = (prev_field (blocks st) n0 (fun m => uval (nChainWork m)) 0 + work (hdr_nBits b)) mod 2 ^ 256 /\
    exists best, AddToBlockIndex st b =
      Ret (Manager (blocks st ++ [n]) (<[block_GetHash b := p]> (mapBlockIndex st)) best ({[p]} ∪ setDirtyBlockIndex st), p) /\
    match pindexBestHeader st with
    | None => best = Some p
    | Some i => exists m, blocks st !! i = Some m /\ best = if uval (nChainWork m) <? uval w then Some p else Some i
    end.
Proof.
  intros Hio Hbits Hne Hlen Hnew. set (prev := mapBlockIndex st !! hdr_hashPrevBlock b).
  assert (Hprev : forall q, prev = Some q -> is_Some (blocks st !! q)).
  { intros q Hq. apply (io_map st Hio) in Hq as (n & Hn & _). by eexists. }
  destruct (link_prev_run (blocks st) b prev (io_heap st Hio) Hlen Hprev) as (skip & height & Hlink & Hnode).
  set (n0 := new_entry b prev skip height) in *.
  destruct (GetBlockProof_run n0 Hbits) as (proof & Hproof & Hpwf & Hpv).
  set (h1 := blocks st ++ [n0]) in *.
  assert (Hdata : exists wprev, wf_uint WIDTH wprev /\ uval wprev = prev_field (blocks st) n0 (fun m => uval (nChainWork m)) 0 /\
    match prev with
    | Some q => let? m := deref h1 (Some q) in Ret (Z.max (nTimeMax m) (hdr_nTime b), nChainWork m)
    | None => Ret (hdr_nTime b, zeros WIDTH)
    end = Ret (Z.max (prev_field (blocks st) n0 nTimeMax (hdr_nTime b)) (hdr_nTime b), wprev)).
  { unfold prev_field. cbn [pprev n0 new_entry]. destruct prev as [q |].
    - destruct (Hprev q eq_refl) as [m Hm]. exists (nChainWork m). cbn [deref]. unfold h1.
      rewrite (lookup_app_l_Some _ _ _ _ Hm), Hm. split; [by apply (io_data st Hio q m Hm) | done].
    - exists (zeros WIDTH). destruct (wf_zeros WIDTH). rewrite Z.max_id. done. }
  destruct Hdata as (wprev & Hwp & Hwv & Hdata). exists skip, height, (badd wprev proof). cbv zeta. fold n0.
  set (n := set_nStatus _ 2). destruct (badd_spec _ _ _ Hwp Hpwf) as [Hw Ev]. rewrite Hwv, Hpv in Ev.
  split; [by apply (node_ok_same _ n0) |]. split; [done |]. split; [done |].
  unfold AddToBlockIndex. rewrite Hnew, lookup_insert_ne by done. fold prev.
  change (set_hash (CBlockIndex_of b) (block_GetHash b)) with (new_entry b None None 0). rewrite Hlink. cbn [obind].
  fold h1. assert (Hd : deref h1 (Some (length (blocks st))) = Ret n0) by (unfold deref, h1; by rewrite lookup_last).
  rewrite Hd. cbn [obind]. change (pprev n0) with prev. change (bi_nTime n0) with (hdr_nTime b). rewrite Hdata. cbn [obind].
  rewrite Hproof. cbn [obind]. change (RaiseValidity _ BLOCK_VALID_TREE) with (Ret (n, true)). cbn [obind].
  unfold h1. rewrite insert_last. pose proof (io_best st Hio) as Hbest. destruct (pindexBestHeader st) as [i |].
  - destruct Hbest as (m & Hm & _). cbn [deref]. rewrite (lookup_app_l_Some _ _ _ _ Hm). cbn [obind]. eexists. split; [done |].
    exists m. split; [done |]. change (nChainWork n) with (badd wprev proof).
    rewrite (CompareTo_spec WIDTH) by (done || apply (io_data st Hio i m Hm)). repeat case_match; bool_to_prop; cbn in *; done || lia.
  - cbn [obind]. eexists. done.
Qed.

Lemma prev_field_app h l p n f d : node_ok h p n -> prev_field (h ++ l) n f d = prev_field h n f d.
Proof.
  unfold node_ok, prev_field. destruct (pprev n) as [q |]; [| done]. intros (_ & (m & Hm & _) & _).
  by rewrite (lookup_app_l_Some _ _ _ _ Hm), Hm.
Qed.

Lemma prev_field_snoc h n f d : node_ok (h ++ [n]) (length h) n -> prev_field (h ++ [n]) n f d = prev_field h n f d.
Proof.
  unfold node_ok, prev_field. destruct (pprev n) as [q |]; [| done]. intros (Hq & _ & _). by rewrite lookup_app_l.
Qed.

(** The entries of an extended heap. *)
Lemma lookup_snoc_cases {A} (l : list A) x p y : (l ++ [x]) !! p = Some y -> l !! p = Some y \/ p = length l /\ y = x.
Proof.
  intros Hp. destruct (le_lt_dec (length l) p) as [Hge | Hlt]; [right | left; by rewrite lookup_app_l in Hp].
  assert (p = length l) as -> by (apply lookup_lt_Some in Hp; rewrite length_app in Hp; cbn in Hp; lia).
  rewrite lookup_last in Hp. injection Hp as <-. done.
Qed.

Lemma AddToBlockIndex_inv st b :
  index_ok st -> 0 <= hdr_nBits b < 2 ^ 32 -> hdr_hashPrevBlock b <> block_GetHash b ->
  Z.of_nat (length (blocks st)) < INT_MAX ->
  exists st' p, AddToBlockIndex st b = Ret (st', p) /\ index_ok st' /\
    mapBlockIndex st' !! block_GetHash b = Some p /\ blocks st `prefix_of` blocks st' /\
    (length (blocks st') <= S (length (blocks st)))%nat.
Proof.
  intros Hio Hbits Hne Hlen. destruct (mapBlockIndex st !! block_GetHash b) as [p |] eqn:Hnew.
  { exists st, p. unfold AddToBlockIndex. rewrite Hnew. split_and!; try done. lia. }
  destruct (AddToBlockIndex_run st b Hio Hbits Hne Hlen Hnew) as (skip & height & w & Hnode & Hw & Hv & best & Hadd & Hbest).
  cbv zeta in *. set (n := set_nStatus _ 2) in *.
  exists (Manager (blocks st ++ [n]) (<[block_GetHash b := length (blocks st)]> (mapBlockIndex st)) best ({[length (blocks st)]} ∪ setDirtyBlockIndex st)), (length (blocks st)).
  split; [done |]. split; [| split; [apply lookup_insert_eq | split; [by eexists | cbn; rewrite length_app; cbn; lia]]]. split; cbn [blocks mapBlockIndex pindexBestHeader].
  - apply heap_ok_snoc; [apply Hio | done].
  - intros p m [Hp | [-> ->]]%lookup_snoc_cases.
    + destruct (io_data st Hio p m Hp). split; try done; by rewrite (prev_field_app _ _ p) by (by apply (io_heap st Hio)).
    + split; try done; [rewrite (prev_field_snoc _ _ _ _ Hnode); done | rewrite (prev_field_snoc _ _ _ _ Hnode); done].
  - intros hash p. destruct (decide (hash = block_GetHash b)) as [-> | Hh].
    + rewrite lookup_insert_eq. split.
      * intros [= <-]. exists n. split; [apply lookup_last | done].
      * intros (m & [Hm | [-> ->]]%lookup_snoc_cases & Hmh); [| done].
        assert (mapBlockIndex st !! block_GetHash b = Some p) by (apply (io_map st Hio); by exists m). congruence.
    + rewrite lookup_insert_ne by done. rewrite (io_map st Hio). split.
      * intros (m & Hm & Hmh). exists m. split; [by apply lookup_app_l_Some | done].
      * intros (m & [Hm | [-> ->]]%lookup_snoc_cases & Hmh); [by exists m |]. cbn in Hmh. congruence.
  - pose proof (io_best st Hio) as Hold. destruct (pindexBestHeader st) as [i |].
    + destruct Hold as (nb & Hnb & Hmax), Hbest as (m & Hm & ->). rewrite Hnb in Hm. injection Hm as <-.
      destruct (Z.ltb_spec (uval (nChainWork nb)) (uval w)) as [Hlt | Hge].
      * exists n. split; [apply lookup_last |]. intros p m [Hp | [-> ->]]%lookup_snoc_cases; [| done].
        pose proof (Hmax p m Hp). change (nChainWork n) with w. lia.
      * exists nb. split; [by apply lookup_app_l_Some |]. intros p m [Hp | [-> ->]]%lookup_snoc_cases; [by apply (Hmax p) | done].
    + subst best. exists n. split; [apply lookup_last |]. rewrite Hold. intros p m [Hp | [-> ->]]%lookup_snoc_cases; [by rewrite lookup_nil in Hp | done].
Qed.

(** ** What the invariant gives *)

Lemma index_times st : index_ok st -> times_ok (blocks st).
Proof.
  intros Hio p n q m Hp Hq Hm. pose proof (nd_time _ _ (io_data st Hio p n Hp)) as E. unfold prev_field in E. rewrite Hq, Hm in E. lia.
Qed.

Lemma index_hashed st : index_ok st -> hashed (blocks st).
Proof. intros Hio p n Hp. apply (io_data st Hio p n Hp). Qed.

Lemma sample_header_acyclic : hdr_hashPrevBlock sample_header <> block_GetHash sample_header.
Proof. apply (bool_decide_unpack _). vm_compute. exact I. Qed.

(** ** Theorems *)

(** The entry of a header that is new: the header itself, its hash, its parent in the index
    and the validity level of a header that is linked to a tree. *)
Record entered (b : CBlockHeader) (prev : option ptr) (n : CBlockIndex) : Prop := {
  en_hash : phashBlock n = Some (block_GetHash b);
  en_prev : pprev n = prev;
  en_version : bi_nVersion n = hdr_nVersion b;
  en_root : bi_hashMerkleRoot n = hdr_hashMerkleRoot b;
  en_time : bi_nTime n = hdr_nTime b;
  en_bits : bi_nBits n = hdr_nBits b;
  en_nonce : bi_nNonce n = hdr_nNonce b;
  en_status : nStatus n = BLOCK_VALID_TREE
}.

(** What [AddToBlockIndex] changes. *)
Definition index_step (st : BlockManager) (b : CBlockHeader) (st' : BlockManager) (p : ptr) : Prop :=
  match mapBlockIndex st !! block_GetHash b with
  | Some q => st' = st /\ p = q
  | None => exists n best, entered b (mapBlockIndex st !! hdr_hashPrevBlock b) n /\ p = length (blocks st) /\
      st' = Manager (blocks st ++ [n]) (<[block_GetHash b := p]> (mapBlockIndex st)) best ({[p]} ∪ setDirtyBlockIndex st)
  end.

Lemma AddToBlockIndex_step st b st' p :
  index_ok st -> 0 <= hdr_nBits b < 2 ^ 32 -> hdr_hashPrevBlock b <> block_GetHash b ->
  Z.of_nat (length (blocks st)) < INT_MAX -> AddToBlockIndex st b = Ret (st', p) -> index_step st b st' p.
Proof.
  intros Hio Hbits Hne Hlen E. unfold index_step. destruct (mapBlockIndex st !! block_GetHash b) as [q |] eqn:Hnew.
  { unfold AddToBlockIndex in E. rewrite Hnew in E. by apply Ret_inj, pair_equal_spec in E as [<- <-]. }
  destruct (AddToBlockIndex_run st b Hio Hbits Hne Hlen Hnew) as (skip & height & w & _ & _ & _ & best & E' & _). cbv zeta in E'.
  rewrite E in E'. apply Ret_inj, pair_equal_spec in E' as [-> ->]. eexists _, best. split; [| by split]. split; reflexivity.
Qed.

(** C22. The invariant of the block index is kept by [AddToBlockIndex], which neither
    aborts nor is undefined on an index with fewer than [INT_MAX] entries: heights
    count the blocks below, skip pointers are ancestors at the skip height, the
    chain work and the maximal time accumulate along the branch, the map is exactly
    the hashes of the entries, and the best header has the most work of all. For a
    header that is known nothing changes at all; for a new one exactly its entry, with the
    fields of the header, is added, to the map and to the entries to be written. *)
Theorem AddToBlockIndex_invariant st b :
  index_ok st -> 0 <= hdr_nBits b < 2 ^ 32 -> hdr_hashPrevBlock b <> block_GetHash b ->
  Z.of_nat (length (blocks st)) < INT_MAX ->
  exists st' p, AddToBlockIndex st b = Ret (st', p) /\ index_ok st' /\
    mapBlockIndex st' !! block_GetHash b = Some p /\ blocks st `prefix_of` blocks st' /\
    (length (blocks st') <= S (length (blocks st)))%nat /\ index_step st b st' p.
Proof.
  intros Hio Hbits Hne Hlen. destruct (AddToBlockIndex_inv st b Hio Hbits Hne Hlen) as (st' & p & E & H1 & H2 & H3 & H4).
  exists st', p. pose proof (AddToBlockIndex_step st b st' p Hio Hbits Hne Hlen E). split_and!; assumption.
Qed.

Lemma AddToBlockIndex_invariant_witness :
  exists st' p, AddToBlockIndex empty_index sample_header = Ret (st', p) /\ index_ok st'.
Proof.
  destruct (AddToBlockIndex_invariant empty_index sample_header) as (st' & p & H1 & H2 & _).
  - exact empty_index_ok.
  - split; [discriminate | reflexivity].
  - exact sample_header_acyclic.
  - reflexivity.
  - exists st', p. split; [exact H1 | exact H2].
Defined.
