(* ===== verification/Pow.v ===== *)
(** * Proof of work and proof of stake targets

    [src/pow.cpp] and the parameters of [src/consensus/params.h] that it reads. The
    consensus parameters that the functions are given are those of [Params()], as
    in every call; [GetNextWorkRequired] writes to them, so it returns them. *)

From stdpp Require Import gmap.
From S2P Require Import Prelude Common Serialize Transaction Block ArithUint256 Chain.

Open Scope outcome_scope.

Record ConsensusParams := Consensus {
  UBCHeight : Z;
  UBCInitBlockCount : Z;
  ForkV1Height : Z;
  ForkV2Height : Z;
  ForkV4Height : Z;
  UBCONTRACT_Height : Z;
  is_regtest_net : bool;
  nRuleChangeActivationThreshold : Z;
  nMinerConfirmationWindow : Z;
  powLimit : list Z;
  fPowAllowMinDifficultyBlocks : bool;
  fPowNoRetargeting : bool;
  nPowTargetSpacing : Z;
  nPowTargetTimespan : Z;
  posLimit : list Z
}.

(** The quotient of two [int64_t]. *)
Definition int64_quot (a b : Z) : outcome Z :=
  if (b =? 0) || ((a =? INT64_MIN) && (b =? -1)) then Undef else Ret (Z.quot a b).

Definition DifficultyAdjustmentInterval (p : ConsensusParams) : outcome Z := int64_quot (nPowTargetTimespan p) (nPowTargetSpacing p).

Definition update_interval (p : ConsensusParams) (timespan spacing threshold window : Z) : ConsensusParams :=
  Consensus (UBCHeight p) (UBCInitBlockCount p) (ForkV1Height p) (ForkV2Height p) (ForkV4Height p) (UBCONTRACT_Height p)
    (is_regtest_net p) threshold window (powLimit p) (fPowAllowMinDifficultyBlocks p) (fPowNoRetargeting p)
    spacing timespan (posLimit p).

Definition UpdateDifficultyAdjustmentIntervalForkV1 (p : ConsensusParams) : ConsensusParams :=
  update_interval p (10 * 1 * 60) (1 * 60) 190 200.

Definition UpdateDifficultyAdjustmentIntervalForkV2 (p : ConsensusParams) : ConsensusParams :=
  update_interval p (10 * 2 * 60) (2 * 60) 190 200.

Definition UpdateDifficultyAdjustmentInterval (p : ConsensusParams) : ConsensusParams :=
  update_interval p (200 * 10 * 60) (nPowTargetSpacing p) 190 200.

Definition UpdateOldDifficultyAdjustmentInterval (p : ConsensusParams) : ConsensusParams :=
  update_interval p (14 * 24 * 60 * 60) (nPowTargetSpacing p) 1916 2016.

(** The main network ([CMainParams]). *)
Definition main_params : ConsensusParams :=
  Consensus 498777 500 506400 572000 813500 551111 false 1916 2016
    (replicate 28 0xff ++ replicate 4 0) false false (10 * 60) (14 * 24 * 60 * 60) (replicate 26 0xff ++ replicate 6 0).

(** ** Searching back *)

Fixpoint GetLastBlockIndex_loop (fuel : nat) (h : heap) (fProofOfStake : bool) (p : ConsensusParams) (pindex : option ptr)
  : outcome (option ptr) :=
  match pindex with
  | None => Ret None
  | Some i =>
    let? n := deref h (Some i) in
    if bool_decide (is_Some (pprev n)) && negb (eqb (bi_IsProofOfStake n) fProofOfStake) then
      if fProofOfStake && (nHeight n <=? UBCONTRACT_Height p) then Ret None
      else match fuel with
           | O => Undef
           | S fuel => GetLastBlockIndex_loop fuel h fProofOfStake p (pprev n)
           end
    else Ret (Some i)
  end.

(** A walk from [pindex] to genesis takes [nHeight] steps. *)
Definition steps (h : heap) (pindex : option ptr) : nat :=
  match pindex with
  | Some i => match h !! i with Some n => Z.to_nat (nHeight n) | None => 0 end
  | None => 0
  end.

Definition GetLastBlockIndex (h : heap) (pindex : option ptr) (fProofOfStake : bool) (p : ConsensusParams) : outcome (option ptr) :=
  GetLastBlockIndex_loop (steps h pindex) h fProofOfStake p pindex.

(** ** Retargeting *)

(** The clamped time span of the last period. *)
Definition limit_timespan (nActualTimespan nPowTargetTimespan : Z) : Z :=
  let t := if nActualTimespan <? Z.quot nPowTargetTimespan 4 then Z.quot nPowTargetTimespan 4 else nActualTimespan in
  if t >? nPowTargetTimespan * 4 then nPowTargetTimespan * 4 else t.

(** [if (bnNew > limit) bnNew = limit; return bnNew.GetCompact();] *)
Definition limit_target (bnNew limit : list Z) : outcome Z :=
  GetCompact (if bgt bnNew limit then limit else bnNew) false.

Definition CalculateNextWorkRequired (last : CBlockIndex) (nFirstBlockTime : Z) (p : ConsensusParams) : outcome Z :=
  if fPowNoRetargeting p then Ret (bi_nBits last)
  else
    let nActualTimespan := limit_timespan (GetBlockTime last - nFirstBlockTime) (nPowTargetTimespan p) in
    let bnNew := bmul32 (compact_value (SetCompact (bi_nBits last))) (uint32 nActualTimespan) in
    let? bnNew := bdiv bnNew (of_uint64 WIDTH (uint64 (nPowTargetTimespan p))) in
    limit_target bnNew (UintToArith256 (powLimit p)).

(** The bits of the last [count] blocks that satisfy [want], newest first, and the
    time of the oldest of them. The walk stops at genesis, and where [stop] says. *)
Fixpoint collect_bits (fuel : nat) (h : heap) (want : CBlockIndex -> bool) (stop : CBlockIndex -> bool) (count : Z)
  (tNbits : list Z) (nFirstBlockTime : Z) (pindex : option ptr) : outcome (list Z * Z) :=
  match pindex with
  | None => Ret (tNbits, nFirstBlockTime)
  | Some i =>
    let? n := deref h (Some i) in
    match pprev n with
    | None => Ret (tNbits, nFirstBlockTime)
    | Some q =>
      if (Zlen tNbits =? count) || stop n then Ret (tNbits, nFirstBlockTime)
      else match fuel with
           | O => Undef
           | S fuel =>
             if want n then collect_bits fuel h want stop count (tNbits ++ [bi_nBits n]) (GetBlockTime n) (Some q)
             else collect_bits fuel h want stop count tNbits nFirstBlockTime (Some q)
           end
    end
  end.

(** [std::set] of the collected bits has one element. *)
Definition all_equal (l : list Z) : bool := Zlen (remove_dups l) =? 1.

Definition PosGetNextTargetRequired (h : heap) (mapBlockIndex : gmap (list Z) ptr) (pindexLast : option ptr)
  (pblock : CBlockHeader) (p : ConsensusParams) : outcome Z :=
  let? _ := cassert (hdr_IsProofOfStake pblock) in
  let? bnTargetLimitnBits := GetCompact (UintToArith256 (posLimit p)) false in
  match pindexLast with
  | None => Ret bnTargetLimitnBits
  | Some _ =>
    let? pindexPrev := GetLastBlockIndex h pindexLast true p in
    match pindexPrev with
    | None => Ret bnTargetLimitnBits
    | Some _ =>
      let? prev := deref h pindexPrev in
      let nLastPosBits := bi_nBits prev in
      let nLastPosTime := GetBlockTime prev in
      let? restart :=
        if (nHeight prev >=? UBCONTRACT_Height p) && (nHeight prev <? ForkV2Height p)
           && negb (bool_decide (hdr_hashPrevBlock pblock = replicate 32 0)) then
          match mapBlockIndex !! hdr_hashPrevBlock pblock with
          | Some i => let? n := deref h (Some i) in Ret (nHeight n >=? ForkV2Height p - 1)
          | None => Ret false
          end
        else Ret false in
      if restart : bool then Ret bnTargetLimitnBits
      else if bool_decide (pprev prev = None) then Ret bnTargetLimitnBits
      else
        let? pindexPrevPrev := GetLastBlockIndex h (pprev prev) true p in
        match pindexPrevPrev with
        | None => Ret bnTargetLimitnBits
        | Some _ =>
          let? prevprev := deref h pindexPrevPrev in
          if bool_decide (pprev prevprev = None) then Ret bnTargetLimitnBits
          else
            let? count := DifficultyAdjustmentInterval p in
            let? (tNbits, nFirstBlockTime) :=
              collect_bits (steps h pindexLast) h bi_IsProofOfStake (fun n => nHeight n <=? UBCONTRACT_Height p) (uint64 count) [] 0 pindexLast in
            if Zlen tNbits <? uint64 count then Ret bnTargetLimitnBits
            else if all_equal tNbits then
              let nActualTimespan := limit_timespan (nLastPosTime - nFirstBlockTime) (nPowTargetTimespan p) in
              let? bnNew := bdiv (compact_value (SetCompact nLastPosBits)) (of_uint64 WIDTH (uint64 (nPowTargetTimespan p))) in
              let bnNew := bmul32 bnNew (uint32 nActualTimespan) in
              limit_target bnNew (UintToArith256 (posLimit p))
            else Ret nLastPosBits
        end
    end
  end.

Definition PowGetNextTargetRequired (h : heap) (pindexLast : option ptr) (pblock : CBlockHeader) (p : ConsensusParams) : outcome Z :=
  let? _ := cassert (hdr_IsProofOfWork pblock) in
  let? bnTargetLimitnBits := GetCompact (UintToArith256 (powLimit p)) false in
  match pindexLast with
  | None => Ret bnTargetLimitnBits
  | Some _ =>
    let? pindexPrev := GetLastBlockIndex h pindexLast false p in
    match pindexPrev with
    | None => Ret bnTargetLimitnBits
    | Some _ =>
      let? prev := deref h pindexPrev in
      let nLastPowBits := bi_nBits prev in
      let nLastPowTime := GetBlockTime prev in
      if bool_decide (pprev prev = None) then Ret bnTargetLimitnBits
      else
        let? pindexPrevPrev := GetLastBlockIndex h (pprev prev) false p in
        match pindexPrevPrev with
        | None => Ret bnTargetLimitnBits
        | Some _ =>
          let? prevprev := deref h pindexPrevPrev in
          if bool_decide (pprev prevprev = None) then Ret bnTargetLimitnBits
          else
            let? count := DifficultyAdjustmentInterval p in
            let? (tNbits, nFirstBlockTime) :=
              collect_bits (steps h pindexLast) h bi_IsProofOfWork (fun _ => false) (uint64 count) [] 0 pindexLast in
            if Zlen tNbits <? uint64 count then Ret bnTargetLimitnBits
            else if all_equal tNbits then
              let nActualTimespan := limit_timespan (nLastPowTime - nFirstBlockTime) (nPowTargetTimespan p) in
              let bnNew := bmul32 (compact_value (SetCompact nLastPowBits)) (uint32 nActualTimespan) in
              let? bnNew := bdiv bnNew (of_uint64 WIDTH (uint64 (nPowTargetTimespan p))) in
              limit_target bnNew (UintToArith256 (powLimit p))
            else Ret nLastPowBits
        end
    end
  end.

(** The last block that was not mined under the minimum difficulty rule. *)
Fixpoint last_regular_bits (fuel : nat) (h : heap) (interval limit : Z) (pindex : ptr) : outcome Z :=
  let? n := deref h (Some pindex) in
  match pprev n with
  | Some q =>
    if negb (Z.rem (nHeight n) interval =? 0) && (bi_nBits n =? limit) then
      match fuel with
      | O => Undef
      | S fuel => last_regular_bits fuel h interval limit q
      end
    else Ret (bi_nBits n)
  | None => Ret (bi_nBits n)
  end.

(** The easier target of the first block after a fork. *)
Definition fork_target (last : CBlockIndex) (p : ConsensusParams) : outcome Z :=
  limit_target (bmul32 (compact_value (SetCompact (bi_nBits last))) 100) (UintToArith256 (powLimit p)).

(** The parameters of the era of a height. *)
Definition update_params (height : Z) (p : ConsensusParams) : ConsensusParams :=
  if negb (is_regtest_net p) then
    if height >=? UBCONTRACT_Height p then UpdateDifficultyAdjustmentIntervalForkV2 p
    else if height >=? ForkV1Height p then UpdateDifficultyAdjustmentIntervalForkV1 p
    else if height >=? UBCHeight p + UBCInitBlockCount p then UpdateDifficultyAdjustmentInterval p
    else UpdateOldDifficultyAdjustmentInterval p
  else p.

Definition GetNextWorkRequired (h : heap) (mapBlockIndex : gmap (list Z) ptr) (pindexLast : option ptr)
  (pblock : CBlockHeader) (p : ConsensusParams) : outcome (Z * ConsensusParams) :=
  let? _ := cassert (bool_decide (is_Some pindexLast)) in
  let? nProofOfWorkLimit := GetCompact (UintToArith256 (powLimit p)) false in
  let? last := deref h pindexLast in
  let? height := int_add (nHeight last) 1 in
  if (height =? UBCHeight p) || (height =? ForkV1Height p) then
    let? bits := fork_target last p in Ret (bits, p)
  else
    let p := update_params height p in
    let? interval := DifficultyAdjustmentInterval p in
    if interval =? 0 then Undef
    else if negb (Z.rem height interval =? 0) && (height <? UBCONTRACT_Height p) then
      if fPowAllowMinDifficultyBlocks p then
        if hdr_GetBlockTime pblock >? GetBlockTime last + nPowTargetSpacing p * 2 then Ret (nProofOfWorkLimit, p)
        else let? bits := last_regular_bits (steps h pindexLast) h interval nProofOfWorkLimit (default 0%nat pindexLast) in Ret (bits, p)
      else Ret (bi_nBits last, p)
    else if hdr_IsProofOfStake pblock && (height >=? UBCONTRACT_Height p) then
      let? bits := PosGetNextTargetRequired h mapBlockIndex pindexLast pblock p in Ret (bits, p)
    else if hdr_IsProofOfWork pblock && (height >=? UBCONTRACT_Height p) then
      let? bits := PowGetNextTargetRequired h pindexLast pblock p in Ret (bits, p)
    else
      let nHeightFirst := int32 (nHeight last - (interval - 1)) in
      let? _ := cassert (nHeightFirst >=? 0) in
      let? pindexFirst := GetAncestor h (default 0%nat pindexLast) nHeightFirst in
      let? _ := cassert (bool_decide (is_Some pindexFirst)) in
      let? first := deref h pindexFirst in
      let? bits := CalculateNextWorkRequired last (GetBlockTime first) p in Ret (bits, p).

(** ** The check of a proof of work *)

Definition CheckProofOfWork (h : heap) (mapBlockIndex : gmap (list Z) ptr) (hash prevHash : list Z) (nBits : Z)
  (p : ConsensusParams) (blockHeight : Z) : outcome bool :=
  if negb (blockHeight =? -1) && (blockHeight >=? UBCHeight p) && (blockHeight <? UBCHeight p + UBCInitBlockCount p) then Ret true
  else
    let? exempt := match mapBlockIndex !! prevHash with
                   | Some i =>
                     let? n := deref h (Some i) in
                     Ret ((nHeight n =? ForkV4Height p - 1) ||
                          ((nHeight n >=? UBCHeight p - 1) && (nHeight n <? UBCHeight p + UBCInitBlockCount p - 1)))
                   | None => Ret false
                   end in
    if exempt : bool then Ret true
    else
      let c := SetCompact nBits in
      let bnTarget := compact_value c in
      if pfNegative c || EqualTo bnTarget 0 || pfOverflow c || bgt bnTarget (UintToArith256 (powLimit p)) then Ret false
      else if bgt (UintToArith256 hash) bnTarget then Ret false
      else Ret true.
