(* ===== verification/PowProps.v ===== *)
(** * Targets are within their limits

    The retargeting functions of [Pow] return on every well-formed chain, and the
    targets they require are those of an ancestor or within the limit; the check of
    a proof of work compares the hash with the target as numbers. *)

From Stdlib Require Import ZifyBool.
From stdpp Require Import gmap.
From S2P Require Import Prelude Common Serialize Transaction Block ArithUint256 ArithProps Chain ChainProps Pow.

Open Scope outcome_scope.

(** ** Parameters *)

Record params_ok (p : ConsensusParams) : Prop := {
  po_spacing : 0 < nPowTargetSpacing p <= nPowTargetTimespan p;
  po_timespan : 4 * nPowTargetTimespan p < 2 ^ 32;
  po_powLimit : bytes_ok (powLimit p) /\ Zlen (powLimit p) = 32;
  po_posLimit : bytes_ok (posLimit p) /\ Zlen (posLimit p) = 32
}.

(** ** Retargeting *)

Definition clamp (actual timespan : Z) : Z := Z.min (4 * timespan) (Z.max (timespan / 4) actual).

Lemma limit_timespan_clamp actual timespan : 0 < timespan -> limit_timespan actual timespan = clamp actual timespan.
Proof.
  intros Hs. unfold limit_timespan, clamp. rewrite Z.quot_div_nonneg by lia.
  pose proof (Z.div_le_upper_bound timespan 4 timespan ltac:(lia) ltac:(lia)).
  repeat case_match; lia.
Qed.

Lemma clamp_range actual timespan : 0 < timespan -> timespan / 4 <= clamp actual timespan <= 4 * timespan /\ 0 <= clamp actual timespan.
Proof.
  intros Hs. unfold clamp. pose proof (Z.div_le_upper_bound timespan 4 timespan ltac:(lia) ltac:(lia)).
  pose proof (Z.div_pos timespan 4 ltac:(lia) ltac:(lia)). lia.
Qed.

Lemma limit_target_run a limit :
  wf_uint WIDTH a -> bytes_ok limit -> Zlen limit = 32 ->
  exists n, limit_target a (UintToArith256 limit) = Ret n /\ encodes n (Z.min (uval a) (le_decode limit)).
Proof.
  intros Ha Hb Hl. destruct (UintToArith256_spec limit Hb Hl) as [Hwf Hv]. unfold limit_target. rewrite (bgt_spec WIDTH), Hv by done.
  destruct (Z.ltb_spec (le_decode limit) (uval a)).
  - destruct (GetCompact_encodes _ Hwf) as (n & Hn & He). exists n. split; [done |]. rewrite Z.min_r by lia. by rewrite <- Hv.
  - destruct (GetCompact_encodes _ Ha) as (n & Hn & He). exists n. split; [done |]. by rewrite Z.min_l by lia.
Qed.

(** The division by the time span never throws. *)
Lemma div_timespan a p :
  wf_uint WIDTH a -> params_ok p ->
  exists q, bdiv a (of_uint64 WIDTH (uint64 (nPowTargetTimespan p))) = Ret q /\ wf_uint WIDTH q /\ uval q = uval a / nPowTargetTimespan p.
Proof.
  intros Ha [Hs Ht _ _]. rewrite uint64_id by lia. destruct (of_uint64_spec (nPowTargetTimespan p) ltac:(lia)) as [Hwf Hv].
  pose proof (bdiv_spec _ _ _ Ha Hwf) as Hd. rewrite Hv in Hd. destruct (Z.eqb_spec (nPowTargetTimespan p) 0); [lia | done].
Qed.

Lemma mul_timespan a actual p :
  wf_uint WIDTH a -> params_ok p ->
  let span := clamp actual (nPowTargetTimespan p) in
  wf_uint WIDTH (bmul32 a (uint32 (limit_timespan actual (nPowTargetTimespan p)))) /\
  uval (bmul32 a (uint32 (limit_timespan actual (nPowTargetTimespan p)))) = (uval a * span) mod 2 ^ 256.
Proof.
  intros Ha [Hs Ht _ _]. cbv zeta. rewrite limit_timespan_clamp by lia. pose proof (clamp_range actual (nPowTargetTimespan p) ltac:(lia)).
  rewrite uint32_id by lia. unfold bmul32.
  destruct (mul32_loop_spec WIDTH (clamp actual (nPowTargetTimespan p)) 0 a Ha) as [Hwf Hv]; [unfold limb_ok; lia | by split |].
  split; [done |]. rewrite Hv. change (base WIDTH) with (2 ^ 256). f_equal. lia.
Qed.

Lemma CalculateNextWorkRequired_run last first p :
  params_ok p -> 0 <= bi_nBits last < 2 ^ 32 -> fPowNoRetargeting p = false ->
  exists n, CalculateNextWorkRequired last first p = Ret n /\
    encodes n (Z.min ((uval (compact_value (SetCompact (bi_nBits last))) * clamp (GetBlockTime last - first) (nPowTargetTimespan p))
                      mod 2 ^ 256 / nPowTargetTimespan p) (le_decode (powLimit p))).
Proof.
  intros Hp Hb Hr. unfold CalculateNextWorkRequired. rewrite Hr. pose proof (SetCompact_wf _ Hb) as Ht.
  destruct (mul_timespan _ (GetBlockTime last - first) p Ht Hp) as [Hm Hv].
  destruct (div_timespan _ p Hm Hp) as (q & -> & Hq & Eq). cbn [obind]. rewrite Hv in Eq. rewrite <- Eq.
  apply limit_target_run; [done | apply Hp | apply Hp].
Qed.

(** ** Walks *)

Section Chain.
Context (h : heap) (Hok : heap_ok h) (Hbits : forall i n, h !! i = Some n -> 0 <= bi_nBits n < 2 ^ 32).

(** The previous block of an entry. *)
Lemma prev_entry i n q : h !! i = Some n -> pprev n = Some q -> exists m, h !! q = Some m /\ nHeight n = nHeight m + 1 /\ 0 <= nHeight m.
Proof. intros Hi Hq. pose proof (Hok i n Hi) as Hn. unfold node_ok in Hn. rewrite Hq in Hn. by destruct Hn as (_ & Hm & _). Qed.

Lemma GetLastBlockIndex_loop_run fuel f p i n :
  h !! i = Some n -> nHeight n <= Z.of_nat fuel ->
  exists r, GetLastBlockIndex_loop fuel h f p (Some i) = Ret r /\
    match r with Some j => anc h j i /\ is_Some (h !! j) | None => f = true end.
Proof.
  revert i n. induction fuel as [| fuel IH]; intros i n Hi Hf; cbn [GetLastBlockIndex_loop deref]; rewrite Hi; cbn [obind];
    (destruct (_ && _) eqn:E; [| eexists; split; [done |]; split; [apply anc_refl | by eexists]]);
    (destruct f; [cbn [andb]; destruct (nHeight n <=? UBCONTRACT_Height p); [by eexists |] | cbn [andb]]);
    apply andb_true_iff in E as [E _]; apply bool_decide_eq_true in E as [q Hq];
    destruct (prev_entry i n q Hi Hq) as (m & Hm & Hh & Hm0); try lia;
    rewrite Hq; destruct (IH q m Hm ltac:(lia)) as (r & Hr & Hs); exists r; (split; [done |]);
    (destruct r as [j |]; [| done]); destruct Hs as [Ha Hj]; (split; [| done]);
    (eapply anc_trans; [done | by eapply anc_prev]).
Qed.

Lemma GetLastBlockIndex_run f p i n :
  h !! i = Some n ->
  exists r, GetLastBlockIndex h (Some i) f p = Ret r /\ match r with Some j => anc h j i /\ is_Some (h !! j) | None => f = true end.
Proof.
  intros Hi. pose proof (node_height _ _ _ (Hok i n Hi)). unfold GetLastBlockIndex, steps. rewrite Hi.
  apply (GetLastBlockIndex_loop_run _ f p i n Hi). lia.
Qed.

Lemma collect_bits_run fuel want stop count l t i n :
  h !! i = Some n -> nHeight n <= Z.of_nat fuel -> exists l' t', collect_bits fuel h want stop count l t (Some i) = Ret (l', t').
Proof.
  revert l t i n. induction fuel as [| fuel IH]; intros l t i n Hi Hf; cbn [collect_bits deref]; rewrite Hi; cbn [obind];
    destruct (pprev n) as [q |] eqn:Hq; eauto; destruct (prev_entry i n q Hi Hq) as (m & Hm & Hh & Hm0); destruct (_ || _); eauto; try lia.
  destruct (want n); apply (IH _ _ q m Hm); lia.
Qed.

Lemma last_regular_bits_run fuel interval limit i n :
  h !! i = Some n -> nHeight n <= Z.of_nat fuel ->
  exists j m, last_regular_bits fuel h interval limit i = Ret (bi_nBits m) /\ anc h j i /\ h !! j = Some m.
Proof.
  revert i n. induction fuel as [| fuel IH]; intros i n Hi Hf; cbn [last_regular_bits deref]; rewrite Hi; cbn [obind];
    (destruct (pprev n) as [q |] eqn:Hq; [| exists i, n; split; [done |]; split; [apply anc_refl | done]]);
    (destruct (_ && _); [| exists i, n; split; [done |]; split; [apply anc_refl | done]]);
    destruct (prev_entry i n q Hi Hq) as (m & Hm & Hh & Hm0); try lia.
  destruct (IH q m Hm ltac:(lia)) as (j & k & Hr & Ha & Hk). exists j, k. split; [done |].
  split; [| done]. eapply anc_trans; [done | by eapply anc_prev].
Qed.

(** ** Required targets *)

(** The target [n] is one within the limit [lim]. *)
Definition within (lim : list Z) (n : Z) : Prop :=
  pfNegative (SetCompact n) = false /\ pfOverflow (SetCompact n) = false /\
  uval (compact_value (SetCompact n)) <= le_decode lim.

(** The target [n] required after block [i] is that of an ancestor or within the
    limit of its kind of block. *)
Definition regular (p : ConsensusParams) (i : ptr) (n : Z) : Prop :=
  (exists j m, anc h j i /\ h !! j = Some m /\ n = bi_nBits m) \/ within (powLimit p) n \/ within (posLimit p) n.

Lemma encodes_within n v lim : bytes_ok lim -> 0 <= v -> encodes n (Z.min v (le_decode lim)) -> within lim n.
Proof.
  intros Hb Hv He. pose proof (le_decode_bound lim Hb). pose proof (encodes_le n (Z.min v (le_decode lim)) ltac:(lia) He).
  destruct He as (_ & e & _ & _ & _ & _ & Hn & Ho). split; [done |]. split; [done | lia].
Qed.

Lemma limit_bits lim :
  bytes_ok lim -> Zlen lim = 32 -> exists n, GetCompact (UintToArith256 lim) false = Ret n /\ within lim n.
Proof.
  intros Hb Hl. destruct (UintToArith256_spec lim Hb Hl) as [Hwf Hv]. destruct (GetCompact_encodes _ Hwf) as (n & Hn & He).
  exists n. split; [done |]. pose proof (le_decode_bound lim Hb). apply (encodes_within n (le_decode lim)); [done | lia |].
  rewrite Z.min_id. by rewrite <- Hv.
Qed.

Lemma limit_target_within a lim :
  wf_uint WIDTH a -> bytes_ok lim -> Zlen lim = 32 -> exists n, limit_target a (UintToArith256 lim) = Ret n /\ within lim n.
Proof.
  intros Ha Hb Hl. destruct (limit_target_run a lim Ha Hb Hl) as (n & Hn & He). exists n. split; [done |].
  pose proof (uval_range _ _ Ha). apply (encodes_within n (uval a)); [done | lia | done].
Qed.

Lemma interval_run p : params_ok p -> exists c, DifficultyAdjustmentInterval p = Ret c /\ c = nPowTargetTimespan p / nPowTargetSpacing p /\ 1 <= c.
Proof.
  intros [Hs Ht _ _]. unfold DifficultyAdjustmentInterval, int64_quot. rewrite (proj2 (Z.eqb_neq (nPowTargetSpacing p) 0)) by lia.
  rewrite (proj2 (Z.eqb_neq (nPowTargetSpacing p) (-1))), andb_false_r by lia. cbn [orb]. eexists. split; [done |].
  rewrite Z.quot_div_nonneg by lia. split; [done |]. apply Z.div_le_lower_bound; lia.
Qed.

Lemma PowGetNextTargetRequired_run p i n b :
  params_ok p -> h !! i = Some n -> hdr_IsProofOfWork b = true ->
  exists r, PowGetNextTargetRequired h (Some i) b p = Ret r /\ regular p i r.
Proof.
  intros Hp Hi Hw. unfold PowGetNextTargetRequired. rewrite Hw. cbn [cassert obind].
  destruct (limit_bits (powLimit p)) as (lb & -> & Hlb); [apply Hp | apply Hp |]. cbn [obind].
  assert (Hlim : regular p i lb) by (right; by left).
  destruct (GetLastBlockIndex_run false p i n Hi) as (r1 & -> & Hr1). cbn [obind]. destruct r1 as [j |]; [| done].
  destruct Hr1 as [Haj [m Hm]]. cbn [deref]. rewrite Hm. cbn [obind]. case_bool_decide; [by eexists |].
  destruct (pprev m) as [q |] eqn:Hq; [| done]. destruct (prev_entry j m q Hm Hq) as (mq & Hmq & _).
  destruct (GetLastBlockIndex_run false p q mq Hmq) as (r2 & -> & Hr2). cbn [obind]. destruct r2 as [k |]; [| done].
  destruct Hr2 as [_ [mk Hmk]]. cbn [deref]. rewrite Hmk. cbn [obind]. case_bool_decide; [by eexists |].
  destruct (interval_run p Hp) as (c & -> & _). cbn [obind]. unfold steps. rewrite Hi.
  pose proof (node_height _ _ _ (Hok i n Hi)).
  destruct (collect_bits_run (Z.to_nat (nHeight n)) bi_IsProofOfWork (fun _ => false) (uint64 c) [] 0 i n Hi ltac:(lia)) as (l & t & ->).
  cbn [obind]. destruct (_ <? _); [by eexists |].
  destruct (all_equal l); [| eexists; split; [done |]; left; by exists j, m].
  destruct (mul_timespan _ (GetBlockTime m - t) p (SetCompact_wf _ (Hbits j m Hm)) Hp) as [Hwf _].
  destruct (div_timespan _ p Hwf Hp) as (x & -> & Hx & _). cbn [obind].
  destruct (limit_target_within x (powLimit p) Hx) as (r & Hr & Hwi); [apply Hp | apply Hp |]. exists r. split; [done |]. right. by left.
Qed.

(** The restart of the stake target at the second fork. *)
Lemma restart_run (map : gmap (list Z) ptr) b c (p : ConsensusParams) :
  (forall hash j, map !! hash = Some j -> is_Some (h !! j)) ->
  exists r : bool,
    (if c : bool then
       match map !! hdr_hashPrevBlock b with
       | Some j => let? m := deref h (Some j) in Ret (nHeight m >=? ForkV2Height p - 1)
       | None => Ret false
       end
     else Ret false) = Ret r.
Proof.
  intros Hmap. destruct c; [| by eexists]. destruct (map !! hdr_hashPrevBlock b) as [j |] eqn:E; [| by eexists].
  destruct (Hmap _ _ E) as [m Hm]. cbn [deref]. rewrite Hm. by eexists.
Qed.

Lemma PosGetNextTargetRequired_run (map : gmap (list Z) ptr) p i n b :
  (forall hash j, map !! hash = Some j -> is_Some (h !! j)) ->
  params_ok p -> h !! i = Some n -> hdr_IsProofOfStake b = true ->
  exists r, PosGetNextTargetRequired h map (Some i) b p = Ret r /\ regular p i r.
Proof.
  intros Hmap Hp Hi Hw. unfold PosGetNextTargetRequired. rewrite Hw. cbn [cassert obind].
  destruct (limit_bits (posLimit p)) as (lb & -> & Hlb); [apply Hp | apply Hp |]. cbn [obind].
  assert (Hlim : regular p i lb) by (right; by right).
  destruct (GetLastBlockIndex_run true p i n Hi) as (r1 & -> & Hr1). cbn [obind]. destruct r1 as [j |]; [| by eexists].
  destruct Hr1 as [Haj [m Hm]]. unfold deref at 1. rewrite Hm. cbn [obind].
  destruct (restart_run map b ((nHeight m >=? UBCONTRACT_Height p) && (nHeight m <? ForkV2Height p)
           && negb (bool_decide (hdr_hashPrevBlock b = replicate 32 0))) p Hmap) as (r0 & ->). cbn [obind].
  destruct r0; [by eexists |]. case_bool_decide; [by eexists |].
  destruct (pprev m) as [q |] eqn:Hq; [| done]. destruct (prev_entry j m q Hm Hq) as (mq & Hmq & _).
  destruct (GetLastBlockIndex_run true p q mq Hmq) as (r2 & -> & Hr2). cbn [obind]. destruct r2 as [k |]; [| by eexists].
  destruct Hr2 as [_ [mk Hmk]]. cbn [deref]. rewrite Hmk. cbn [obind]. case_bool_decide; [by eexists |].
  destruct (interval_run p Hp) as (c & -> & _). cbn [obind]. unfold steps. rewrite Hi.
  pose proof (node_height _ _ _ (Hok i n Hi)).
  destruct (collect_bits_run (Z.to_nat (nHeight n)) bi_IsProofOfStake (fun n => nHeight n <=? UBCONTRACT_Height p) (uint64 c) [] 0 i n Hi ltac:(lia)) as (l & t & ->).
  cbn [obind]. destruct (_ <? _); [by eexists |].
  destruct (all_equal l); [| eexists; split; [done |]; left; by exists j, m].
  destruct (div_timespan _ p (SetCompact_wf _ (Hbits j m Hm)) Hp) as (x & -> & Hx & _). cbn [obind].
  destruct (mul_timespan x (GetBlockTime m - t) p Hx Hp) as [Hwf _].
  destruct (limit_target_within _ (posLimit p) Hwf) as (r & Hr & Hwi); [apply Hp | apply Hp |]. exists r. split; [done |]. right. by right.
Qed.

Lemma update_params_ok height p : params_ok p -> nPowTargetSpacing p <= 120000 -> params_ok (update_params height p).
Proof.
  intros [Hs Ht Hw Hst] Hsp. unfold update_params. repeat case_match; split; cbn; try done; lia.
Qed.

(** The limits are those of the parameters of any era. *)
Lemma regular_update height p i r : regular (update_params height p) i r -> regular p i r.
Proof. unfold regular, update_params. by repeat case_match. Qed.

Lemma update_params_contract height p : UBCONTRACT_Height (update_params height p) = UBCONTRACT_Height p.
Proof. unfold update_params. by repeat case_match. Qed.

(** The interval is at most [UBCONTRACT_Height] where the height reaches it. *)
Definition interval_ok (p : ConsensusParams) : Prop :=
  10 <= UBCONTRACT_Height p /\ nPowTargetTimespan p / nPowTargetSpacing p <= UBCONTRACT_Height p /\ nPowTargetSpacing p <= 120000.

Lemma update_interval_ok height p c :
  interval_ok p -> UBCONTRACT_Height p <= height ->
  c = nPowTargetTimespan (update_params height p) / nPowTargetSpacing (update_params height p) -> c <= UBCONTRACT_Height p.
Proof.
  intros (H10 & Hi & _) Hh ->. unfold update_params. destruct (is_regtest_net p); cbn [negb]; [done |].
  rewrite (proj2 (Z.geb_le height (UBCONTRACT_Height p))) by lia. cbn. exact H10.
Qed.

(** The last branch of [GetNextWorkRequired]. *)
Lemma calculate_regular p i n first :
  params_ok p -> h !! i = Some n -> exists r, CalculateNextWorkRequired n first p = Ret r /\ regular p i r.
Proof.
  intros Hp Hi. destruct (fPowNoRetargeting p) eqn:E.
  - exists (bi_nBits n). unfold CalculateNextWorkRequired. rewrite E. split; [done |]. left. exists i, n. split; [apply anc_refl | done].
  - destruct (CalculateNextWorkRequired_run n first p Hp (Hbits i n Hi) E) as (r & Hr & He). exists r. split; [done |]. right. left.
    eapply encodes_within; [apply Hp | | exact He]. pose proof (po_spacing p Hp).
    apply Z.div_pos; [apply Z.mod_pos_bound; lia | lia].
Qed.

Lemma GetNextWorkRequired_run (map : gmap (list Z) ptr) p i n b :
  (forall hash j, map !! hash = Some j -> is_Some (h !! j)) ->
  params_ok p -> interval_ok p -> h !! i = Some n -> nHeight n < INT_MAX ->
  exists r p', GetNextWorkRequired h map (Some i) b p = Ret (r, p') /\ regular p i r /\ (p' = p \/ p' = update_params (nHeight n + 1) p).
Proof.
  intros Hmap Hp Hint Hi Hmax. pose proof (node_height _ _ _ (Hok i n Hi)) as Hn0. unfold INT_MAX in Hmax. unfold GetNextWorkRequired.
  rewrite bool_decide_eq_true_2 by (by eexists). cbn [cassert obind].
  destruct (limit_bits (powLimit p)) as (lb & -> & Hlb); [apply Hp | apply Hp |]. cbn [obind]. unfold deref at 1. rewrite Hi. cbn [obind].
  unfold int_add, INT_MIN, INT_MAX. rewrite (proj2 (Z.leb_le _ (nHeight n + 1))), (proj2 (Z.leb_le (nHeight n + 1) _)) by lia. cbn [andb obind].
  destruct (_ || _).
  { destruct (mul32_loop_spec WIDTH 100 0 _ (SetCompact_wf _ (Hbits i n Hi))) as [Hm _]; [by split | by split |].
    destruct (limit_target_within _ (powLimit p) Hm) as (r & Hr & Hw); [apply Hp | apply Hp |].
    unfold fork_target, bmul32. rewrite Hr. exists r, p. split; [done |]. split; [right; by left | by left]. }
  pose proof (update_params_ok (nHeight n + 1) p Hp ltac:(apply Hint)) as Hp'. pose proof (update_params_contract (nHeight n + 1) p) as Hct.
  pose proof (update_interval_ok (nHeight n + 1) p) as Hui. set (p' := update_params (nHeight n + 1) p) in *.
  assert (Hreg : forall o : outcome Z, (exists r, o = Ret r /\ regular p' i r) ->
    exists r q, (let? bits := o in Ret (bits, p')) = Ret (r, q) /\ regular p i r /\ (q = p \/ q = p')).
  { intros o (r & -> & Hr). exists r, p'. split; [done |]. split; [by eapply regular_update | by right]. }
  destruct (interval_run p' Hp') as (c & -> & Ec & Hc). cbn [obind]. rewrite (proj2 (Z.eqb_neq c 0)) by lia. rewrite Hct in *.
  destruct (negb (Z.rem (nHeight n + 1) c =? 0) && (nHeight n + 1 <? UBCONTRACT_Height p)) eqn:E1.
  { destruct (fPowAllowMinDifficultyBlocks p'); [| exists (bi_nBits n), p'; split; [done |]; split; [left; exists i, n; split; [apply anc_refl | done] | by right]].
    destruct (_ >? _); [exists lb, p'; split; [done |]; split; [right; by left | by right] |].
    apply Hreg. unfold steps. rewrite Hi. cbn [default].
    destruct (last_regular_bits_run (Z.to_nat (nHeight n)) c lb i n Hi ltac:(lia)) as (j & m & Hr & Ha & Hm).
    exists (bi_nBits m). split; [done |]. left. by exists j, m. }
  destruct (hdr_IsProofOfStake b && _) eqn:E2; [apply andb_true_iff in E2 as [E2 _]; apply Hreg; by eapply PosGetNextTargetRequired_run |].
  destruct (hdr_IsProofOfWork b && _) eqn:E3; [apply andb_true_iff in E3 as [E3 _]; apply Hreg; by eapply PowGetNextTargetRequired_run |].
  assert (Hfirst : 0 <= nHeight n - (c - 1) <= nHeight n).
  { destruct (Z.lt_ge_cases (nHeight n + 1) (UBCONTRACT_Height p)) as [Hlt | Hge]; [| specialize (Hui c Hint Hge Ec); lia].
    rewrite (proj2 (Z.ltb_lt _ _) Hlt), andb_true_r in E1. apply negb_false_iff, Z.eqb_eq in E1. apply (Z.rem_divide (nHeight n + 1) c ltac:(lia)) in E1 as [k Hk].
    assert (1 <= k) by nia. nia. }
  unfold int32. rewrite Z.mod_small by lia. replace (nHeight n - (c - 1) + 2 ^ 31 - 2 ^ 31) with (nHeight n - (c - 1)) by lia.
  rewrite (proj2 (Z.geb_le (nHeight n - (c - 1)) 0)) by lia. cbn [cassert obind default].
  rewrite (GetAncestor_run h Hok i n _ Hi), (proj2 (Z.ltb_ge (nHeight n - (c - 1)) 0)), Z.gtb_ltb, (proj2 (Z.ltb_ge (nHeight n) (nHeight n - (c - 1)))) by lia.
  cbn [orb obind]. destruct (back_some h Hok (Z.to_nat (nHeight n - (nHeight n - (c - 1)))) i n Hi ltac:(lia)) as (f & m & -> & Hm & _).
  rewrite bool_decide_eq_true_2 by (by eexists). cbn [cassert obind deref]. rewrite Hm. cbn [obind]. apply Hreg. by apply calculate_regular.
Qed.
End Chain.

(** ** Theorems *)

(** C37. [GetNextWorkRequired] returns on every block of a well-formed index: its
    assertions hold, its walks end and its divisions are defined. The target it
    requires is that of an ancestor of the block, or at most the limit for work or
    for stake, so that targets never leave the limits. *)
Theorem GetNextWorkRequired_bounded (h : heap) (map : gmap (list Z) ptr) p i n b :
  heap_ok h -> (forall j m, h !! j = Some m -> 0 <= bi_nBits m < 2 ^ 32) ->
  (forall hash j, map !! hash = Some j -> is_Some (h !! j)) ->
  params_ok p -> interval_ok p -> h !! i = Some n -> nHeight n < INT_MAX ->
  exists r p', GetNextWorkRequired h map (Some i) b p = Ret (r, p') /\ regular h p i r /\ (p' = p \/ p' = update_params (nHeight n + 1) p).
Proof. intros Hok Hbits. by apply GetNextWorkRequired_run. Qed.

Lemma main_params_ok : params_ok main_params /\ interval_ok main_params.
Proof. repeat split; try bytes_closed; vm_compute; first [reflexivity | discriminate]. Qed.

Lemma GetNextWorkRequired_bounded_witness :
  exists r p', GetNextWorkRequired sample_heap ∅ (Some 3%nat) CBlockHeader_null main_params = Ret (r, p') /\
    regular sample_heap main_params 3%nat r.
Proof.
  destruct (GetNextWorkRequired_bounded sample_heap ∅ main_params 3%nat (sample_entry (Some 2%nat) (Some 1%nat) 3) CBlockHeader_null)
    as (r & p' & H1 & H2 & _).
  - exact sample_heap_ok.
  - refine (sample_heap_cases (fun _ m => 0 <= bi_nBits m < 2 ^ 32) _). intros p Hp.
    destruct p as [| [| [| [| [| p]]]]]; [.. | lia]; (eexists; split; [reflexivity | cbn; lia]).
  - intros hash j Hj. rewrite lookup_empty in Hj. discriminate.
  - apply main_params_ok.
  - apply main_params_ok.
  - reflexivity.
  - reflexivity.
  - exists r, p'. split; [exact H1 | exact H2].
Defined.

(** [CalculateNextWorkRequired] scales the target by the actual time span of the
    period over the intended one, the former limited to a quarter and to four times
    the latter, rounds down, and caps the result at the limit. *)
Theorem CalculateNextWorkRequired_spec last first p :
  params_ok p -> 0 <= bi_nBits last < 2 ^ 32 -> fPowNoRetargeting p = false ->
  let target := uval (compact_value (SetCompact (bi_nBits last))) in
  let span := Z.min (4 * nPowTargetTimespan p) (Z.max (nPowTargetTimespan p / 4) (GetBlockTime last - first)) in
  target * span < 2 ^ 256 ->
  exists n, CalculateNextWorkRequired last first p = Ret n /\
    encodes n (Z.min (target * span / nPowTargetTimespan p) (le_decode (powLimit p))).
Proof.
  intros Hp Hb Hr target span Hfit. destruct (CalculateNextWorkRequired_run last first p Hp Hb Hr) as (n & Hn & He).
  exists n. split; [done |]. change (clamp (GetBlockTime last - first) (nPowTargetTimespan p)) with span in He.
  change (uval (compact_value (SetCompact (bi_nBits last)))) with target in He. rewrite Z.mod_small in He; [done |].
  pose proof (po_spacing p Hp). pose proof (clamp_range (GetBlockTime last - first) (nPowTargetTimespan p) ltac:(lia)) as [_ Hc].
  pose proof (uval_range _ _ (SetCompact_wf _ Hb)) as [Ht _]. change (0 <= span) in Hc. change (0 <= target) in Ht. nia.
Qed.

Lemma CalculateNextWorkRequired_spec_witness :
  exists n, CalculateNextWorkRequired (sample_entry None None 3) 1499000003 main_params = Ret n /\
    encodes n (Z.min (0xffff * 256 ^ 26 * 1000000 / 1209600) (le_decode (powLimit main_params))).
Proof.
  apply (CalculateNextWorkRequired_spec (sample_entry None None 3) 1499000003 main_params).
  - apply main_params_ok.
  - split; [discriminate | reflexivity].
  - reflexivity.
  - reflexivity.
Defined.

(** The blocks whose work is not checked: those of the initial period after the
    fork, by their own height or by that of the previous block, and the block of
    the fourth fork. *)
Definition exempt (h : heap) (map : gmap (list Z) ptr) (prevHash : list Z) (p : ConsensusParams) (blockHeight : Z) : Prop :=
  (blockHeight <> -1 /\ UBCHeight p <= blockHeight < UBCHeight p + UBCInitBlockCount p) \/
  exists i n, map !! prevHash = Some i /\ h !! i = Some n /\
    (nHeight n + 1 = ForkV4Height p \/ UBCHeight p <= nHeight n + 1 < UBCHeight p + UBCInitBlockCount p).

Lemma EqualTo_0 a : wf_uint WIDTH a -> EqualTo a 0 = (uval a =? 0).
Proof.
  intros Ha. rewrite <- (is_zero_spec _ _ Ha). destruct Ha as [Hl _].
  do 8 (destruct a as [| ? a]; [done |]). destruct a; [| done]. unfold EqualTo, is_zero, limb.
  cbn [drop lookup list_lookup default from_option id forallb]. change (Z.shiftr 0 32) with 0. change (Z.land 0 0xffffffff) with 0. lia.
Qed.

(** [CheckProofOfWork] accepts exactly the exempt blocks and the hashes that, read
    as little-endian numbers, do not exceed a valid target: not negative, not zero,
    without overflow and at most the limit. *)
Theorem CheckProofOfWork_spec (h : heap) (map : gmap (list Z) ptr) hash prevHash nBits p blockHeight :
  (forall k j, map !! k = Some j -> is_Some (h !! j)) ->
  bytes_ok hash -> Zlen hash = 32 -> bytes_ok (powLimit p) -> Zlen (powLimit p) = 32 -> 0 <= nBits < 2 ^ 32 ->
  exists b, CheckProofOfWork h map hash prevHash nBits p blockHeight = Ret b /\
    let c := SetCompact nBits in
    let target := uval (compact_value c) in
    (b = true <-> exempt h map prevHash p blockHeight \/
       (pfNegative c = false /\ pfOverflow c = false /\ 0 < target <= le_decode (powLimit p) /\ le_decode hash <= target)).
Proof.
  intros Hmap Hh Hhl Hp Hpl Hb. unfold CheckProofOfWork, exempt.
  destruct (negb (blockHeight =? -1) && _ && _) eqn:E1; [exists true; split; [done |]; cbv zeta; split; [intros _; left; left; lia | done] |].
  destruct (UintToArith256_spec hash Hh Hhl) as [Hwh Hvh]. destruct (UintToArith256_spec (powLimit p) Hp Hpl) as [Hwl Hvl].
  pose proof (SetCompact_wf _ Hb) as Hwt. pose proof (uval_range _ _ Hwt) as Hr.
  rewrite (EqualTo_0 _ Hwt), !(bgt_spec WIDTH), Hvh, Hvl by done. cbv zeta. set (c := SetCompact nBits) in *.
  assert (Hrest : exists b, (if pfNegative c || (uval (compact_value c) =? 0) || pfOverflow c || (le_decode (powLimit p) <? uval (compact_value c))
      then Ret false else if uval (compact_value c) <? le_decode hash then Ret false else Ret true) = Ret b /\
      (b = true <-> pfNegative c = false /\ pfOverflow c = false /\ 0 < uval (compact_value c) <= le_decode (powLimit p) /\ le_decode hash <= uval (compact_value c))).
  { destruct (pfNegative c), (pfOverflow c); cbn [orb]; rewrite ?orb_true_r; cbn [orb]; try (eexists; split; [done |]; split; [done | by intros (? & ? & _)]).
    repeat case_match; (eexists; split; [done |]; lia). }
  destruct Hrest as (b & Hrb & Hb').
  destruct (map !! prevHash) as [j |] eqn:Em.
  - destruct (Hmap _ _ Em) as [n Hn]. cbn [deref]. rewrite Hn. cbn [obind]. destruct ((nHeight n =? _) || _) eqn:E2.
    + exists true. split; [done |]. split; [| done]. intros _. left. right. exists j, n. split; [done |]. split; [done |]. lia.
    + exists b. split; [exact Hrb |]. rewrite Hb'. split; [by right |]. intros [[H | (j' & n' & [= <-] & Hn' & H)] | H]; [lia | | done].
      rewrite Hn in Hn'. injection Hn' as <-. lia.
  - cbn [obind]. exists b. split; [exact Hrb |]. rewrite Hb'. split; [by right |]. intros [[H | (j' & n' & [=] & _)] | H]; [lia | done].
Qed.

Lemma CheckProofOfWork_spec_witness :
  exists b, CheckProofOfWork sample_heap ∅ (replicate 32 0) (replicate 32 1) 0x1d00ffff main_params (-1) = Ret b.
Proof.
  destruct (CheckProofOfWork_spec sample_heap ∅ (replicate 32 0) (replicate 32 1) 0x1d00ffff main_params (-1)) as (b & H & _).
  - intros k j Hj. rewrite lookup_empty in Hj. discriminate.
  - bytes_closed.
  - reflexivity.
  - apply main_params_ok.
  - apply main_params_ok.
  - split; [discriminate | reflexivity].
  - exists b. exact H.
Defined.

(** The difficulty adjustment interval of a height depends on the heights asked
    for before: the parameters of the period between the first two forks set the
    time span but leave the block spacing, so after a height of the contract period
    the interval of an earlier height is 1000 blocks where it was the time span over
    the original spacing, 200 blocks on the main network. *)
Theorem interval_depends_on_history p h1 h2 :
  is_regtest_net p = false -> UBCONTRACT_Height p <= h1 ->
  UBCHeight p + UBCInitBlockCount p <= h2 -> h2 < ForkV1Height p -> h2 < UBCONTRACT_Height p ->
  DifficultyAdjustmentInterval (update_params h2 (update_params h1 p)) = Ret 1000 /\
  DifficultyAdjustmentInterval (update_params h2 p) = int64_quot 120000 (nPowTargetSpacing p).
Proof.
  intros Hr H1 H2 H3 H4. unfold update_params at 2. rewrite Hr. cbn [negb]. rewrite (proj2 (Z.geb_le h1 (UBCONTRACT_Height p))) by lia.
  unfold update_params. cbn [is_regtest_net UpdateDifficultyAdjustmentIntervalForkV2 update_interval UBCONTRACT_Height ForkV1Height UBCHeight UBCInitBlockCount].
  rewrite Hr. cbn [negb]. rewrite !Z.geb_leb, (proj2 (Z.leb_gt (UBCONTRACT_Height p) h2)), (proj2 (Z.leb_gt (ForkV1Height p) h2)), (proj2 (Z.leb_le _ h2)) by lia.
  split; reflexivity.
Qed.

Lemma interval_depends_on_history_witness :
  DifficultyAdjustmentInterval (update_params 500000 (update_params 600000 main_params)) = Ret 1000 /\
  DifficultyAdjustmentInterval (update_params 500000 main_params) = Ret 200.
Proof.
  apply (interval_depends_on_history main_params 600000 500000).
  - reflexivity.
  - discriminate.
  - discriminate.
  - reflexivity.
  - reflexivity.
Defined.
