(* ===== verification/Merkle.v ===== *)
(** * Merkle trees

    [src/consensus/merkle.cpp]: the constant-space computation of a Merkle root and
    of a branch, and the root from a branch. A [uint256] is the list of its 32
    bytes. A null output pointer is [None]. *)

From S2P Require Import Prelude Serialize Hash Transaction Block.

Open Scope outcome_scope.

(** ** The computation *)

(** [uint256()] *)
Definition uint256_null : list Z := replicate 32 0.

(** What a round of the loops works on: the level, the hash [h], [matchh], the flag
    [mutated] and [*pbranch]. *)
Record round := Round {
  r_level : nat;
  r_h : list Z;
  r_matchh : bool;
  r_mutated : bool;
  r_branch : option (list (list Z))
}.

(** What a merge at the level appends to the branch, and the new [matchh]. *)
Definition push_branch (inner : list (list Z)) (matchlevel : Z) (r : round) (node : list Z) : option (list (list Z)) * bool :=
  match r_branch r with
  | None => (None, r_matchh r)
  | Some b =>
    if r_matchh r then (Some (b ++ [node]), true)
    else if matchlevel =? Z.of_nat (r_level r) then (Some (b ++ [r_h r]), true)
    else (Some b, false)
  end.

(** One iteration of the loops that merge with [inner[level]]; the final sweep does
    not update [mutated]. *)
Definition merge_inner (detect : bool) (inner : list (list Z)) (matchlevel : Z) (r : round) : outcome round :=
  let? node := index inner (Z.of_nat (r_level r)) in
  let (b, matchh) := push_branch inner matchlevel r node in
  Ret (Round (S (r_level r)) (Hash_2 node (r_h r)) matchh (r_mutated r || (detect && bool_decide (node = r_h r))) b).

(** [while (!(count & (1 << level)))]; a shift by 32 is undefined. *)
Fixpoint merge_loop (fuel : nat) (detect : bool) (inner : list (list Z)) (matchlevel count : Z) (r : round) : outcome round :=
  match fuel with
  | O => Undef
  | S fuel =>
    if negb (Z.testbit count (Z.of_nat (r_level r))) then
      let? r := merge_inner detect inner matchlevel r in merge_loop fuel detect inner matchlevel count r
    else Ret r
  end.

(** The state between the leaves. *)
Record mstate := MState {
  m_inner : list (list Z);
  m_mutated : bool;
  m_branch : option (list (list Z));
  m_matchlevel : Z
}.

(** One iteration over the leaves: leaf [h] is number [count]. *)
Definition absorb_leaf (branchpos : Z) (count : Z) (s : mstate) (h : list Z) : outcome mstate :=
  let matchh := count =? branchpos in
  let count := uint32 (count + 1) in
  let? r := merge_loop 32 true (m_inner s) (m_matchlevel s) count (Round 0 h matchh (m_mutated s) (m_branch s)) in
  Ret (MState (<[r_level r := r_h r]> (m_inner s)) (r_mutated r) (r_branch r)
         (if r_matchh r then Z.of_nat (r_level r) else m_matchlevel s)).

Fixpoint absorb_leaves (branchpos : Z) (count : Z) (s : mstate) (leaves : list (list Z)) : outcome (mstate * Z) :=
  match leaves with
  | [] => Ret (s, count)
  | h :: leaves =>
    let? s := absorb_leaf branchpos count s h in
    absorb_leaves branchpos (uint32 (count + 1)) s leaves
  end.

(** The lowest level with an inner hash. *)
Fixpoint skip_levels (fuel : nat) (count : Z) (level : nat) : outcome nat :=
  match fuel with
  | O => Undef
  | S fuel => if negb (Z.testbit count (Z.of_nat level)) then skip_levels fuel count (S level) else Ret level
  end.

(** The final sweep over the rightmost branch. *)
Fixpoint sweep (fuel : nat) (inner : list (list Z)) (matchlevel count : Z) (r : round) : outcome round :=
  if negb (count =? Z.shiftl 1 (Z.of_nat (r_level r))) then
    match fuel with
    | O => Undef
    | S fuel =>
      let b := match r_branch r with
               | Some b => if r_matchh r then Some (b ++ [r_h r]) else Some b
               | None => None
               end in
      let count := uint32 (count + uint32 (Z.shiftl 1 (Z.of_nat (r_level r)))) in
      let r := Round (S (r_level r)) (Hash_2 (r_h r) (r_h r)) (r_matchh r) (r_mutated r) b in
      let? r := merge_loop (32 - r_level r) false inner matchlevel count r in
      sweep fuel inner matchlevel count r
    end
  else Ret r.

(** The root, the flag and the branch. *)
Definition MerkleComputation (leaves : list (list Z)) (branchpos : Z) (pbranch : bool)
  : outcome (list Z * bool * option (list (list Z))) :=
  let b := if pbranch then Some [] else None in
  if Zlen leaves =? 0 then Ret (uint256_null, false, b)
  else
    let? (s, count) := absorb_leaves branchpos 0 (MState (replicate 32 uint256_null) false b (-1)) leaves in
    let? level := skip_levels 32 count 0 in
    let? h := index (m_inner s) (Z.of_nat level) in
    let? r := sweep 32 (m_inner s) (m_matchlevel s) count
                (Round level h (m_matchlevel s =? Z.of_nat level) (m_mutated s) (m_branch s)) in
    Ret (r_h r, r_mutated r, r_branch r).

(** ** The interface *)

(** The root and whether the leaves were mutated. *)
Definition ComputeMerkleRoot (leaves : list (list Z)) : outcome (list Z * bool) :=
  let? (hash, mutated, _) := MerkleComputation leaves (uint32 (-1)) false in Ret (hash, mutated).

Definition ComputeMerkleBranch (leaves : list (list Z)) (position : Z) : outcome (list (list Z)) :=
  let? (_, _, ret) := MerkleComputation leaves position true in Ret (default [] ret).

(** The hash of a node and its sibling, which is on the left when the index is odd. *)
Definition branch_node (nIndex : Z) (hash sibling : list Z) : list Z :=
  if flag nIndex 1 then Hash_2 sibling hash else Hash_2 hash sibling.

Definition ComputeMerkleRootFromBranch (leaf : list Z) (vMerkleBranch : list (list Z)) (nIndex : Z) : list Z :=
  fst (foldl (fun '(hash, nIndex) sibling => (branch_node nIndex hash sibling, Z.shiftr nIndex 1)) (leaf, nIndex) vMerkleBranch).

Definition BlockMerkleRoot (block : CBlock) : outcome (list Z * bool) := ComputeMerkleRoot (map ComputeHash (vtx block)).

(** The witness hash of the coinbase is null; [leaves[0]] of an empty vector is
    undefined. *)
Definition BlockWitnessMerkleRoot (block : CBlock) : outcome (list Z * bool) :=
  match vtx block with
  | [] => Undef
  | _ :: txs => ComputeMerkleRoot (uint256_null :: map GetWitnessHash txs)
  end.

Definition BlockMerkleBranch (block : CBlock) (position : Z) : outcome (list (list Z)) :=
  ComputeMerkleBranch (map ComputeHash (vtx block)) position.
