(* ===== verification/MerkleProps.v ===== *)
(** * Merkle roots and branches

    The tree that [MerkleComputation] computes, by recursion on its height, and what
    the root and the branches say about the leaves. *)

From stdpp Require Import sets.
From S2P Require Import Prelude Serialize Hash Transaction Block Merkle.

Open Scope outcome_scope.

#[local] Opaque Hash_2.

(** ** The reference tree *)

(** The root of the tree of height [k] over 1 to [2^k] leaves: a missing right
    subtree repeats the left one. *)
Fixpoint tree_root (k : nat) (l : list (list Z)) : list Z :=
  match k with
  | O => default [] (head l)
  | S k =>
    if (length l <=? 2 ^ k)%nat then Hash_2 (tree_root k l) (tree_root k l)
    else Hash_2 (tree_root k (take (2 ^ k) l)) (tree_root k (drop (2 ^ k) l))
  end.

(** The strings that are hashed on the way to the root. *)
Fixpoint tree_inputs (k : nat) (l : list (list Z)) : list (list Z) :=
  match k with
  | O => []
  | S k =>
    if (length l <=? 2 ^ k)%nat then (tree_root k l ++ tree_root k l) :: tree_inputs k l
    else (tree_root k (take (2 ^ k) l) ++ tree_root k (drop (2 ^ k) l)) :: tree_inputs k (take (2 ^ k) l) ++ tree_inputs k (drop (2 ^ k) l)
  end.

(** Two complete sibling subtrees have the same root. *)
Fixpoint tree_mutated (k : nat) (l : list (list Z)) : bool :=
  match k with
  | O => false
  | S k =>
    if (length l <=? 2 ^ k)%nat then tree_mutated k l
    else tree_mutated k (take (2 ^ k) l) || tree_mutated k (drop (2 ^ k) l)
         || ((length l =? 2 * 2 ^ k)%nat && bool_decide (tree_root k (take (2 ^ k) l) = tree_root k (drop (2 ^ k) l)))
  end.

(** The siblings on the path from the leaf at a position to the root. *)
Fixpoint tree_branch (k : nat) (l : list (list Z)) (pos : nat) : list (list Z) :=
  match k with
  | O => []
  | S k =>
    if (length l <=? 2 ^ k)%nat then tree_branch k l pos ++ [tree_root k l]
    else if (pos <? 2 ^ k)%nat then tree_branch k (take (2 ^ k) l) pos ++ [tree_root k (drop (2 ^ k) l)]
    else tree_branch k (drop (2 ^ k) l) (pos - 2 ^ k) ++ [tree_root k (take (2 ^ k) l)]
  end.

(** The height of the tree of [n] leaves. *)
Definition tree_height (n : nat) : nat := Nat.log2_up n.

(** ** What the loops keep *)

(** [inner] holds the roots of the complete subtrees of the leaves [P], of which
    there are fewer than [2^k]. *)
Fixpoint inner_ok (k : nat) (inner : list (list Z)) (P : list (list Z)) : Prop :=
  match k with
  | O => True
  | S k =>
    if (2 ^ k <=? length P)%nat
    then inner !! k = Some (tree_root k (take (2 ^ k) P)) /\ inner_ok k inner (drop (2 ^ k) P)
    else inner_ok k inner P
  end.

(** The level and the branch of the matched leaf at [rel] in [P]. *)
Fixpoint placed (k : nat) (P : list (list Z)) (rel : nat) (ml : Z) (br : list (list Z)) : Prop :=
  match k with
  | O => True
  | S k =>
    if (2 ^ k <=? length P)%nat
    then if (rel <? 2 ^ k)%nat then ml = Z.of_nat k /\ br = tree_branch k (take (2 ^ k) P) rel
         else placed k (drop (2 ^ k) P) (rel - 2 ^ k) ml br
    else placed k P rel ml br
  end.

Lemma pow2_pos k : (0 < 2 ^ k)%nat.
Proof. induction k; cbn; lia. Qed.

Lemma pow2_S k : (2 ^ S k = 2 ^ k + 2 ^ k)%nat.
Proof. cbn. lia. Qed.

Lemma inner_ok_nil k inner : inner_ok k inner [].
Proof. induction k as [| k IH]; [done |]. cbn [inner_ok length]. pose proof (pow2_pos k). by destruct (Nat.leb_spec (2 ^ k) 0); [lia |]. Qed.

(** Only the levels below [k] matter. *)
Lemma inner_ok_ext k inner inner' P :
  (forall j, (j < k)%nat -> inner !! j = inner' !! j) -> inner_ok k inner P -> inner_ok k inner' P.
Proof.
  revert P. induction k as [| k IH]; intros P E; [done |]. cbn [inner_ok]. destruct (2 ^ k <=? length P)%nat.
  - intros [H1 H2]. split; [rewrite <- E; [done | lia] |]. apply IH; [intros; apply E; lia | done].
  - apply IH. intros; apply E; lia.
Qed.

(** A full tree splits into its halves. *)
Lemma tree_root_halves k P Q :
  length P = (2 ^ k)%nat -> (0 < length Q)%nat -> tree_root (S k) (P ++ Q) = Hash_2 (tree_root k P) (tree_root k Q).
Proof.
  intros HP HQ. cbn [tree_root]. rewrite length_app. destruct (Nat.leb_spec (length P + length Q) (2 ^ k)); [lia |].
  rewrite take_app_length', drop_app_length' by done. done.
Qed.

Lemma tree_root_short k P : (length P <= 2 ^ k)%nat -> tree_root (S k) P = Hash_2 (tree_root k P) (tree_root k P).
Proof. intros H. cbn [tree_root]. by destruct (Nat.leb_spec (length P) (2 ^ k)); [| lia]. Qed.

Lemma tree_mutated_halves k P Q :
  length P = (2 ^ k)%nat -> (0 < length Q)%nat ->
  tree_mutated (S k) (P ++ Q) = tree_mutated k P || tree_mutated k Q
    || ((length Q =? 2 ^ k)%nat && bool_decide (tree_root k P = tree_root k Q)).
Proof.
  intros HP HQ. cbn [tree_mutated]. rewrite length_app. destruct (Nat.leb_spec (length P + length Q) (2 ^ k)); [lia |].
  rewrite take_app_length', drop_app_length' by done. do 2 f_equal.
  destruct (Nat.eqb_spec (length P + length Q) (2 * 2 ^ k)), (Nat.eqb_spec (length Q) (2 ^ k)); lia || done.
Qed.

Lemma tree_mutated_short k P : (length P <= 2 ^ k)%nat -> tree_mutated (S k) P = tree_mutated k P.
Proof. intros H. cbn [tree_mutated]. by destruct (Nat.leb_spec (length P) (2 ^ k)); [| lia]. Qed.

Lemma tree_branch_left k P Q pos :
  length P = (2 ^ k)%nat -> (0 < length Q)%nat -> (pos < 2 ^ k)%nat ->
  tree_branch (S k) (P ++ Q) pos = tree_branch k P pos ++ [tree_root k Q].
Proof.
  intros HP HQ Hp. cbn [tree_branch]. rewrite length_app. destruct (Nat.leb_spec (length P + length Q) (2 ^ k)); [lia |].
  destruct (Nat.ltb_spec pos (2 ^ k)); [| lia]. rewrite take_app_length', drop_app_length' by done. done.
Qed.

Lemma tree_branch_right k P Q pos :
  length P = (2 ^ k)%nat -> (0 < length Q)%nat -> (2 ^ k <= pos)%nat ->
  tree_branch (S k) (P ++ Q) pos = tree_branch k Q (pos - 2 ^ k) ++ [tree_root k P].
Proof.
  intros HP HQ Hp. cbn [tree_branch]. rewrite length_app. destruct (Nat.leb_spec (length P + length Q) (2 ^ k)); [lia |].
  destruct (Nat.ltb_spec pos (2 ^ k)); [lia |]. rewrite take_app_length', drop_app_length' by done. done.
Qed.

Lemma tree_branch_short k P pos : (length P <= 2 ^ k)%nat -> tree_branch (S k) P pos = tree_branch k P pos ++ [tree_root k P].
Proof. intros H. cbn [tree_branch]. by destruct (Nat.leb_spec (length P) (2 ^ k)); [| lia]. Qed.

Lemma split_at {A} n (l : list A) : (n <= length l)%nat -> exists l0 l1, l = l0 ++ l1 /\ length l0 = n.
Proof. intros H. exists (take n l), (drop n l). rewrite take_drop, length_take. split; [done | lia]. Qed.

(** ** Absorbing a leaf *)

Definition hit (rel : Z) (P : list (list Z)) : Prop := 0 <= rel < Zlen P.

#[export] Instance hit_dec rel P : Decision (hit rel P).
Proof. unfold hit. apply _. Defined.

(** Before leaf number [|P|] of the subtree: the matched leaf, at [rel], is in [P],
    is this leaf, or is elsewhere. *)
Definition before (k : nat) (P : list (list Z)) (rel ml : Z) (mh : bool) (br : option (list (list Z))) : Prop :=
  match br with
  | None => mh = false
  | Some b =>
    if decide (hit rel P) then placed k P (Z.to_nat rel) ml b /\ mh = false
    else (ml < 0 \/ Z.of_nat k <= ml) /\ if decide (rel = Zlen P) then mh = true /\ b = [] else mh = false
  end.

(** After the subtree of [P] is complete. *)
Definition complete (k : nat) (P : list (list Z)) (rel : Z) (br : option (list (list Z))) (r : round) : Prop :=
  match br with
  | None => r_branch r = None /\ r_matchh r = false
  | Some b =>
    if decide (hit rel P) then r_matchh r = true /\ r_branch r = Some (tree_branch k P (Z.to_nat rel))
    else r_matchh r = false /\ r_branch r = Some b
  end.

(** After the leaf was stored below the top of the subtree. *)
Definition stored (k : nat) (P : list (list Z)) (rel ml : Z) (br : option (list (list Z))) (r : round) : Prop :=
  match br with
  | None => r_branch r = None /\ r_matchh r = false
  | Some b =>
    if decide (hit rel P)
    then exists b', r_branch r = Some b' /\ placed k P (Z.to_nat rel) (if r_matchh r then Z.of_nat (r_level r) else ml) b'
    else r_matchh r = false /\ r_branch r = Some b
  end.

Lemma tree_mutated_nil k : tree_mutated k [] = false.
Proof. induction k as [| k IH]; [done |]. rewrite tree_mutated_short; [done | cbn; lia]. Qed.

Lemma placed_level k P rel ml b : placed k P rel ml b -> (rel < length P < 2 ^ k)%nat -> 0 <= ml < Z.of_nat k.
Proof.
  revert P rel. induction k as [| k IH]; intros P rel Hp Hr; [cbn in Hr; lia |]. rewrite pow2_S in Hr. cbn [placed] in Hp.
  destruct (Nat.leb_spec (2 ^ k) (length P)).
  - destruct (Nat.ltb_spec rel (2 ^ k)); [lia |].
    pose proof (IH _ _ Hp ltac:(rewrite length_drop; lia)). lia.
  - pose proof (IH _ _ Hp ltac:(lia)). lia.
Qed.

Lemma placed_app k P0 P1 rel ml b :
  length P0 = (2 ^ k)%nat ->
  placed (S k) (P0 ++ P1) rel ml b <->
  if (rel <? 2 ^ k)%nat then ml = Z.of_nat k /\ b = tree_branch k P0 rel else placed k P1 (rel - 2 ^ k) ml b.
Proof.
  intros H0. cbn [placed]. rewrite length_app, H0, (proj2 (Nat.leb_le (2 ^ k) (2 ^ k + length P1))) by lia.
  rewrite take_app_length', drop_app_length' by done. done.
Qed.

Lemma placed_short k P rel ml b : (length P < 2 ^ k)%nat -> placed (S k) P rel ml b <-> placed k P rel ml b.
Proof. intros H0. cbn [placed]. by rewrite (proj2 (Nat.leb_gt (2 ^ k) (length P))). Qed.

(** The subtree of height [S k] splits at its first complete half. *)
Lemma before_split k P0 P1 rel ml mh br :
  length P0 = (2 ^ k)%nat -> (length P1 < 2 ^ k)%nat -> before (S k) (P0 ++ P1) rel ml mh br ->
  before k P1 (rel - Zlen P0) ml mh br /\
  (forall b, br = Some b -> (ml = Z.of_nat k <-> hit rel P0) /\ (hit rel P0 -> b = tree_branch k P0 (Z.to_nat rel))).
Proof.
  intros H0 H1 Hb. unfold before in *. destruct br as [b |]; [| done].
  assert (HZ : Zlen P0 = Z.of_nat (2 ^ k)) by (unfold Zlen; by rewrite H0).
  pose proof (Zlen_nonneg P1). pose proof (Zlen_app P0 P1) as HA.
  destruct (decide (hit rel (P0 ++ P1))) as [Hh | Hh]; unfold hit in Hh.
  - destruct Hb as [Hp ->]. apply placed_app in Hp; [| done]. destruct (Nat.ltb_spec (Z.to_nat rel) (2 ^ k)).
    + destruct Hp as [-> ->]. destruct (decide (hit (rel - Zlen P0) P1)); [unfold hit in *; lia |]. destruct (decide (rel - Zlen P0 = Zlen P1)); [lia |].
      split; [split; [lia | done] |]. intros b' [= <-]. unfold hit. split; [split; [lia | done] | done].
    + destruct (decide (hit (rel - Zlen P0) P1)); [| unfold hit in *; lia]. rewrite HZ. replace (Z.to_nat (rel - Z.of_nat (2 ^ k))) with (Z.to_nat rel - 2 ^ k)%nat by lia.
      split; [done |]. intros b' [= <-]. apply placed_level in Hp; [| unfold Zlen in *; lia]. unfold hit. split; [split; lia | lia].
  - destruct Hb as [Hl Hm]. destruct (decide (hit (rel - Zlen P0) P1)); [unfold hit in *; lia |]. split.
    + split; [lia |]. destruct (decide (rel = Zlen (P0 ++ P1))), (decide (rel - Zlen P0 = Zlen P1)); try lia; done.
    + intros b' [= <-]. unfold hit. split; [split; lia | lia].
Qed.

Lemma before_short k P rel ml mh br : (length P < 2 ^ k)%nat -> before (S k) P rel ml mh br -> before k P rel ml mh br.
Proof.
  intros H0 Hb. unfold before in *. destruct br as [b |]; [| done]. destruct (decide (hit rel P)); [by rewrite placed_short in Hb |].
  destruct Hb as [Hl Hm]. split; [lia | done].
Qed.

(** One merge of the loop, below level 32. *)
Lemma merge_step k detect inner ml c r node :
  inner !! r_level r = Some node -> (r_level r < 32)%nat -> Z.testbit c (Z.of_nat (r_level r)) = false ->
  r_level r = k ->
  merge_loop (32 - k) detect inner ml c r =
  let (b, matchh) := push_branch inner ml r node in
  merge_loop (32 - S k) detect inner ml c
    (Round (S k) (Hash_2 node (r_h r)) matchh (r_mutated r || (detect && bool_decide (node = r_h r))) b).
Proof.
  intros Hn Hl Hc Hk. replace (32 - k)%nat with (S (32 - S k)) by lia. cbn [merge_loop]. rewrite Hc. cbn [negb].
  unfold merge_inner, index. rewrite (proj2 (Z.ltb_ge _ 0)), Nat2Z.id, Hn by lia. cbn [obind].
  destruct (push_branch inner ml r node). cbn [obind]. by rewrite Hk.
Qed.

Lemma merge_stop k detect inner ml c r :
  (r_level r < 32)%nat -> r_level r = k -> Z.testbit c (Z.of_nat k) = true -> merge_loop (32 - k) detect inner ml c r = Ret r.
Proof. intros Hl Hk Hc. replace (32 - k)%nat with (S (32 - S k)) by lia. cbn [merge_loop]. by rewrite Hk, Hc. Qed.

(** Bit [k] of a count above a multiple of [2^(k+1)]. *)
Lemma bit_top k (q : Z) : Z.testbit (q * 2 ^ Z.of_nat (S k) + 2 ^ Z.of_nat k) (Z.of_nat k) = true.
Proof.
  rewrite Nat2Z.inj_succ, Z.pow_succ_r by lia. replace (q * (2 * 2 ^ Z.of_nat k) + 2 ^ Z.of_nat k) with ((2 * q + 1) * 2 ^ Z.of_nat k) by lia.
  rewrite Z.mul_pow2_bits, Z.sub_diag by lia. apply Z.testbit_odd_0.
Qed.

Lemma bit_none k (q : Z) : Z.testbit (q * 2 ^ Z.of_nat (S k)) (Z.of_nat k) = false.
Proof.
  rewrite Nat2Z.inj_succ, Z.pow_succ_r by lia. replace (q * (2 * 2 ^ Z.of_nat k)) with ((2 * q) * 2 ^ Z.of_nat k) by lia.
  rewrite Z.mul_pow2_bits, Z.sub_diag by lia. apply Z.testbit_even_0.
Qed.

(** The branch when a complete subtree [Q] is merged with its left sibling [P]. *)
Lemma complete_merge k P Q rel ml br r inner :
  length P = (2 ^ k)%nat -> (0 < length Q)%nat -> r_level r = k -> r_h r = tree_root k Q ->
  complete k Q (rel - Zlen P) br r ->
  (forall b, br = Some b -> (ml = Z.of_nat k <-> hit rel P) /\ (hit rel P -> b = tree_branch k P (Z.to_nat rel))) ->
  forall lvl h mut, let (b, matchh) := push_branch inner ml r (tree_root k P) in
  complete (S k) (P ++ Q) rel br (Round lvl h matchh mut b).
Proof.
  intros HP HQ Hl Hh Hc Hbr lvl h mut. unfold complete, push_branch in *. pose proof (pow2_pos k).
  assert (HZ : Zlen P = Z.of_nat (2 ^ k)) by (unfold Zlen; by rewrite HP). pose proof (Zlen_app P Q) as HA. pose proof (Zlen_nonneg Q).
  destruct br as [b |]; [| by destruct Hc as [-> ->]]. destruct (Hbr b eq_refl) as [Hml Hb]. rewrite Hl, Hh.
  destruct (decide (hit (rel - Zlen P) Q)) as [HhQ | HhQ].
  - destruct Hc as [-> ->]. cbn [r_branch r_matchh]. destruct (decide (hit rel (P ++ Q))) as [Ht | Ht]; unfold hit in *; [| lia].
    split; [done |]. rewrite (tree_branch_right k P Q) by (done || lia).
    replace (Z.to_nat (rel - Zlen P)) with (Z.to_nat rel - 2 ^ k)%nat by lia. done.
  - destruct Hc as [-> ->]. cbn [r_branch r_matchh]. destruct (Z.eqb_spec ml (Z.of_nat k)) as [E | E].
    + apply Hml in E as HhP. rewrite (Hb HhP). cbn [r_branch r_matchh].
      destruct (decide (hit rel (P ++ Q))) as [Ht | Ht]; unfold hit in *; [| lia]. split; [done |].
      rewrite (tree_branch_left k P Q) by (done || lia). done.
    + destruct (decide (hit rel (P ++ Q))) as [Ht | Ht]; [| done]. destruct E. apply Hml. unfold hit in *. lia.
Qed.

(** The branch when the leaf completes the left half. *)
Lemma complete_stored k Q rel ml br r :
  length Q = (2 ^ k)%nat -> r_level r = k -> complete k Q rel br r -> stored (S k) Q rel ml br r.
Proof.
  intros HQ Hl Hc. unfold complete, stored in *. destruct br as [b |]; [| done]. destruct (decide (hit rel Q)) as [Hh | Hh]; [| done].
  destruct Hc as [-> ->]. eexists. split; [done |]. rewrite <- (app_nil_r Q). apply placed_app; [done |]. rewrite Hl.
  rewrite app_nil_r. unfold hit, Zlen in Hh. rewrite (proj2 (Nat.ltb_lt (Z.to_nat rel) (2 ^ k))) by lia. done.
Qed.

(** The leaf is stored in the right part. *)
Lemma stored_right k P Q rel ml br r :
  length P = (2 ^ k)%nat -> (forall b, br = Some b -> (ml = Z.of_nat k <-> hit rel P) /\ (hit rel P -> b = tree_branch k P (Z.to_nat rel))) ->
  stored k Q (rel - Zlen P) ml br r -> stored (S k) (P ++ Q) rel ml br r.
Proof.
  intros HP Hbr Hs. unfold stored in *. destruct br as [b |]; [| done]. destruct (Hbr b eq_refl) as [Hml Hb].
  assert (HZ : Zlen P = Z.of_nat (2 ^ k)) by (unfold Zlen; by rewrite HP). pose proof (Zlen_app P Q) as HA. pose proof (Zlen_nonneg Q).
  destruct (decide (hit (rel - Zlen P) Q)) as [HhQ | HhQ].
  - destruct Hs as (b' & Hb' & Hp). destruct (decide (hit rel (P ++ Q))) as [Ht | Ht]; unfold hit in *; [| lia].
    exists b'. split; [done |]. apply placed_app; [done |]. rewrite (proj2 (Nat.ltb_ge (Z.to_nat rel) (2 ^ k))) by lia.
    by replace (Z.to_nat rel - 2 ^ k)%nat with (Z.to_nat (rel - Zlen P)) by lia.
  - destruct Hs as [Hm Hb']. destruct (decide (hit rel (P ++ Q))) as [Ht | Ht]; [| done].
    assert (HhP : hit rel P) by (unfold hit in *; lia). exists b. split; [done |]. rewrite Hm. apply placed_app; [done |].
    unfold hit in HhP. rewrite (proj2 (Nat.ltb_lt (Z.to_nat rel) (2 ^ k))) by lia. split; [by apply Hml | by apply Hb].
Qed.

Lemma stored_short k P rel ml br r : (length P < 2 ^ k)%nat -> stored k P rel ml br r -> stored (S k) P rel ml br r.
Proof.
  intros HP Hs. unfold stored in *. destruct br as [b |]; [| done]. destruct (decide (hit rel P)); [| done].
  destruct Hs as (b' & Hb' & Hp). exists b'. split; [done |]. by apply placed_short.
Qed.

Section Carry.
Context (x : list Z) (inner : list (list Z)) (ml c : Z) (mut mh : bool) (br : option (list (list Z))) (Hin : length inner = 32%nat).

(** What absorbing leaf [x] after the leaves [P] of a subtree of height [k] does: it
    is stored within the subtree, or it completes it. *)
Definition absorbed (k : nat) (P : list (list Z)) (rel : Z) : Prop :=
  let r0 := Round 0 x mh mut br in
  ((S (length P) < 2 ^ k)%nat /\ exists r, merge_loop 32 true inner ml c r0 = Ret r /\ (r_level r < k)%nat /\
     inner_ok k (<[r_level r := r_h r]> inner) (P ++ [x]) /\
     r_mutated r = mut || tree_mutated k (P ++ [x]) /\ stored k (P ++ [x]) rel ml br r) \/
  (S (length P) = (2 ^ k)%nat /\ exists r, merge_loop 32 true inner ml c r0 = merge_loop (32 - k) true inner ml c r /\
     r_level r = k /\ r_h r = tree_root k (P ++ [x]) /\
     r_mutated r = mut || tree_mutated k (P ++ [x]) /\ complete k (P ++ [x]) rel br r).

Lemma carry_0 rel : before 0 [] rel ml mh br -> absorbed 0 [] rel.
Proof.
  intros Hb. right. split; [done |]. eexists. split; [done |]. split; [done |]. split; [done |]. split; [cbn; by rewrite orb_false_r |].
  assert (Z0 : Zlen (@nil (list Z)) = 0) by done. assert (Z1 : Zlen [x] = 1) by done.
  unfold before, complete in *. destruct br as [b |]; [| by subst mh]. destruct (decide (hit rel [])); [unfold hit in *; lia |].
  destruct Hb as [_ Hb]. cbn [app r_matchh r_branch]. destruct (decide (rel = Zlen [])) as [-> | Hne].
  - destruct Hb as [-> ->]. by rewrite decide_True by (unfold hit; lia).
  - rewrite decide_False by (unfold hit; lia). by subst mh.
Qed.

Lemma length_snoc (P : list (list Z)) : length (P ++ [x]) = S (length P).
Proof. rewrite length_app. cbn. lia. Qed.

(** The half before the leaf is complete. *)
Lemma carry_right k P0 P1 rel q :
  (S k <= 31)%nat -> length P0 = (2 ^ k)%nat -> (length P1 < 2 ^ k)%nat ->
  inner !! k = Some (tree_root k P0) ->
  (tree_mutated (S k) (P0 ++ P1) = true -> mut = true) -> before (S k) (P0 ++ P1) rel ml mh br ->
  c = q * 2 ^ Z.of_nat (S k) + Zlen (P0 ++ P1) + 1 ->
  absorbed k P1 (rel - Zlen P0) -> absorbed (S k) (P0 ++ P1) rel.
Proof.
  intros Hk H0 H1 Hi Hm Hb Hc Habs. destruct (before_split k P0 P1 rel ml mh br H0 H1 Hb) as [_ Hbr].
  assert (Hm0 : tree_mutated k P0 = true -> mut = true).
  { intros E. apply Hm. destruct P1 as [| y P1]; [rewrite app_nil_r, tree_mutated_short by lia; done |].
    rewrite tree_mutated_halves by (done || (cbn; lia)). by rewrite E. }
  unfold absorbed in *. rewrite <- app_assoc, length_app, H0, pow2_S. pose proof (length_snoc P1) as HP1.
  assert (HZ : Z.of_nat (2 ^ k) = 2 ^ Z.of_nat k) by (rewrite Nat2Z.inj_pow; done).
  destruct Habs as [(Hlt & r & Hr & Hl & Hio & Hmu & Hst) | (Heq & r & Hr & Hl & Hh & Hmu & Hco)].
  - left. split; [lia |]. exists r. split; [done |]. split; [lia |]. split; [| split; [| by apply stored_right]].
    + cbn [inner_ok]. rewrite length_app, H0, (proj2 (Nat.leb_le (2 ^ k) _)) by lia. rewrite take_app_length', drop_app_length' by done.
      split; [| done]. by rewrite list_lookup_insert_ne by lia.
    + rewrite Hmu, tree_mutated_halves by (done || lia). destruct (Nat.eqb_spec (length (P1 ++ [x])) (2 ^ k)); [lia |].
      cbn [andb]. rewrite orb_false_r. destruct (tree_mutated k P0); [by rewrite Hm0 | done].
  - right. split; [lia |].
    assert (Hbit : Z.testbit c (Z.of_nat k) = false).
    { replace c with ((q + 1) * 2 ^ Z.of_nat (S k)); [apply bit_none |]. rewrite Hc, Zlen_app. unfold Zlen. rewrite H0.
      rewrite Nat2Z.inj_succ, Z.pow_succ_r by lia. lia. }
    pose proof (complete_merge k P0 (P1 ++ [x]) rel ml br r inner H0 ltac:(lia) Hl Hh Hco Hbr) as Hcm.
    rewrite Hr. rewrite (merge_step k true inner ml c r (tree_root k P0)) by (rewrite ?Hl; done || lia).
    destruct (push_branch inner ml r (tree_root k P0)) as [b matchh]. eexists. split; [done |]. split; [done |].
    cbn [r_h r_mutated]. rewrite tree_root_halves, tree_mutated_halves by (done || lia). rewrite Hh, Hmu, HP1, Heq, Nat.eqb_refl.
    split; [done |]. split; [| apply Hcm]. destruct (tree_mutated k P0); [by rewrite Hm0 | by rewrite orb_assoc].
Qed.

(** The leaf is in the first half. *)
Lemma carry_left k P rel q :
  (S k <= 31)%nat -> (length P < 2 ^ k)%nat -> c = q * 2 ^ Z.of_nat (S k) + Zlen P + 1 ->
  absorbed k P rel -> absorbed (S k) P rel.
Proof.
  intros Hk HP Hc Habs. unfold absorbed in *. rewrite pow2_S. pose proof (length_snoc P) as HPx. pose proof (pow2_pos k).
  assert (HZ : Z.of_nat (2 ^ k) = 2 ^ Z.of_nat k) by (rewrite Nat2Z.inj_pow; done). left. split; [lia |].
  destruct Habs as [(Hlt & r & Hr & Hl & Hio & Hmu & Hst) | (Heq & r & Hr & Hl & Hh & Hmu & Hco)].
  - exists r. split; [done |]. split; [lia |]. rewrite tree_mutated_short by lia. split; [| split; [done | apply stored_short; [lia | done]]].
    cbn [inner_ok]. by rewrite (proj2 (Nat.leb_gt (2 ^ k) _)) by lia.
  - exists r. rewrite Hr. split; [| split; [lia |]].
    + apply merge_stop; [lia | done |]. replace c with (q * 2 ^ Z.of_nat (S k) + 2 ^ Z.of_nat k); [apply bit_top |]. unfold Zlen in Hc. lia.
    + rewrite tree_mutated_short by lia. split; [| split; [done | apply complete_stored; [lia | done | done]]].
      cbn [inner_ok]. rewrite (proj2 (Nat.leb_le (2 ^ k) _)) by lia. rewrite take_ge, drop_ge by lia. split; [| apply inner_ok_nil].
      rewrite Hl, list_lookup_insert_eq by lia. by rewrite Hh.
Qed.

Lemma carry k P rel q :
  (k <= 31)%nat -> (length P < 2 ^ k)%nat -> inner_ok k inner P -> (tree_mutated k P = true -> mut = true) ->
  before k P rel ml mh br -> c = q * 2 ^ Z.of_nat k + Zlen P + 1 -> absorbed k P rel.
Proof.
  revert P rel q. induction k as [| k IH]; intros P rel q Hk HP Hio Hm Hb Hc.
  { destruct P; [by apply carry_0 | cbn in HP; lia]. }
  rewrite pow2_S in HP. assert (HZ : Z.of_nat (2 ^ k) = 2 ^ Z.of_nat k) by (rewrite Nat2Z.inj_pow; done).
  assert (HS : 2 ^ Z.of_nat (S k) = 2 * 2 ^ Z.of_nat k) by (rewrite Nat2Z.inj_succ, Z.pow_succ_r by lia; done).
  destruct (le_lt_dec (2 ^ k) (length P)) as [Hge | Hlt].
  - destruct (split_at (2 ^ k) P Hge) as (P0 & P1 & -> & H0). rewrite length_app in HP. assert (H1 : (length P1 < 2 ^ k)%nat) by lia.
    cbn [inner_ok] in Hio. rewrite length_app, H0, (proj2 (Nat.leb_le (2 ^ k) _)), take_app_length', drop_app_length' in Hio by (done || lia).
    destruct Hio as [Hi Hio]. apply (carry_right k P0 P1 rel q); try done.
    destruct (before_split k P0 P1 rel ml mh br H0 H1 Hb) as [Hb1 _].
    apply (IH P1 _ (2 * q + 1)); [lia | done | done | | done |].
    + intros E. apply Hm. destruct P1 as [| y P1]; [by rewrite tree_mutated_nil in E |].
      rewrite tree_mutated_halves by (done || (cbn; lia)). rewrite E, orb_true_r. done.
    + rewrite Hc, Zlen_app. unfold Zlen. lia.
  - apply (carry_left k P rel q); try done. apply (IH P rel (2 * q)); try done; [lia | | | | lia].
    + cbn [inner_ok] in Hio. by rewrite (proj2 (Nat.leb_gt (2 ^ k) _)) in Hio.
    + intros E. apply Hm. by rewrite tree_mutated_short by lia.
    + by apply before_short.
Qed.
End Carry.

(** ** The final sweep *)

(** Where the matched leaf is, between the leaves. *)
Definition settled (k : nat) (P : list (list Z)) (rel ml : Z) (br : option (list (list Z))) : Prop :=
  match br with
  | None => ml = -1
  | Some b => if decide (hit rel P) then placed k P (Z.to_nat rel) ml b else ml < 0 \/ Z.of_nat k <= ml
  end.

Lemma settled_split k P0 P1 rel ml br :
  length P0 = (2 ^ k)%nat -> (length P1 < 2 ^ k)%nat -> settled (S k) (P0 ++ P1) rel ml br ->
  settled k P1 (rel - Zlen P0) ml br /\
  (forall b, br = Some b -> (ml = Z.of_nat k <-> hit rel P0) /\ (hit rel P0 -> b = tree_branch k P0 (Z.to_nat rel))).
Proof.
  intros H0 H1 Hb. unfold settled in *. destruct br as [b |]; [| done].
  assert (HZ : Zlen P0 = Z.of_nat (2 ^ k)) by (unfold Zlen; by rewrite H0).
  pose proof (Zlen_nonneg P1). pose proof (Zlen_app P0 P1) as HA.
  destruct (decide (hit rel (P0 ++ P1))) as [Hh | Hh]; unfold hit in Hh.
  - apply placed_app in Hb; [| done]. destruct (Nat.ltb_spec (Z.to_nat rel) (2 ^ k)).
    + destruct Hb as [-> ->]. rewrite decide_False by (unfold hit; lia). unfold hit. split; [lia |]. intros b' [= <-]. split; [split; [lia | done] | done].
    + rewrite decide_True by (unfold hit; lia). rewrite HZ. replace (Z.to_nat (rel - Z.of_nat (2 ^ k))) with (Z.to_nat rel - 2 ^ k)%nat by lia.
      split; [done |]. intros b' [= <-]. apply placed_level in Hb; [| unfold Zlen in *; lia]. unfold hit. split; [split; lia | lia].
  - rewrite decide_False by (unfold hit; lia). split; [lia |]. intros b' [= <-]. unfold hit. split; [split; lia | lia].
Qed.

Lemma settled_short k P rel ml br : (length P < 2 ^ k)%nat -> settled (S k) P rel ml br -> settled k P rel ml br.
Proof.
  intros H0 Hb. unfold settled in *. destruct br as [b |]; [| done]. destruct (decide (hit rel P)); [by rewrite placed_short in Hb | lia].
Qed.

(** The branch when a subtree without a sibling is repeated. *)
Lemma complete_repeat k P rel br r lvl h mut :
  (length P <= 2 ^ k)%nat -> r_h r = tree_root k P -> complete k P rel br r ->
  complete (S k) P rel br (Round lvl h (r_matchh r) mut
    (match r_branch r with Some b => if r_matchh r then Some (b ++ [r_h r]) else Some b | None => None end)).
Proof.
  intros HP Hh Hc. unfold complete in *. destruct br as [b |]; [| by destruct Hc as [-> ->]].
  destruct (decide (hit rel P)); destruct Hc as [-> ->]; cbn [r_matchh r_branch]; [| done]. by rewrite tree_branch_short, Hh.
Qed.

Lemma skip_levels_spec k q lvl :
  (k < 32)%nat -> (lvl <= k)%nat -> skip_levels (32 - lvl) ((2 * q + 1) * 2 ^ Z.of_nat k) lvl = Ret k.
Proof.
  intros Hk Hl. remember (k - lvl)%nat as d eqn:Ed. revert lvl Hl Ed. induction d as [| d IH]; intros lvl Hl Ed; replace (32 - lvl)%nat with (S (32 - S lvl)) by lia; cbn [skip_levels].
  - replace lvl with k by lia. rewrite Z.mul_pow2_bits, Z.sub_diag by lia. by rewrite Z.testbit_odd_0.
  - rewrite Z.mul_pow2_bits_low by lia. cbn [negb]. apply IH; lia.
Qed.

(** The branch of a complete subtree. *)
Lemma settled_complete ml mut br k P rel h :
  length P = (2 ^ k)%nat -> settled (S k) P rel ml br -> complete k P rel br (Round k h (ml =? Z.of_nat k) mut br).
Proof.
  intros HP Hs. pose proof (pow2_pos k).
  destruct (settled_split k P [] rel ml br HP ltac:(cbn; lia)) as [Hs1 Hbr]; [by rewrite app_nil_r |].
  unfold complete, settled in *. cbn [r_matchh r_branch]. destruct br as [b |]; [| subst ml; split; [done |]; apply Z.eqb_neq; lia].
  destruct (Hbr b eq_refl) as [Hml Hb]. destruct (decide (hit rel P)) as [Hh | Hh].
  - split; [by apply Z.eqb_eq, Hml |]. by rewrite (Hb Hh).
  - split; [| done]. apply Z.eqb_neq. by intros ?%Hml.
Qed.

Section Sweep.
Context (inner : list (list Z)) (ml : Z) (mut : bool) (br : option (list (list Z))) (Hin : length inner = 32%nat).

(** The sweep from the start, and from level [k] on. *)
Definition sweep_start (count : Z) : outcome round :=
  let? level := skip_levels 32 count 0 in
  let? h := index inner (Z.of_nat level) in
  sweep 32 inner ml count (Round level h (ml =? Z.of_nat level) mut br).

Definition sweep_from (f k : nat) (count : Z) (r : round) : outcome round :=
  let? r := merge_loop (32 - k) false inner ml count r in sweep f inner ml count r.

(** The sweep has reached level [k] with the root of [P]. *)
Definition reached (k : nat) (P : list (list Z)) (rel q count : Z) : Prop :=
  exists f r, sweep_start count = sweep_from f k ((q + 1) * 2 ^ Z.of_nat k) r /\ (32 <= f + k)%nat /\
    r_level r = k /\ r_h r = tree_root k P /\ r_mutated r = mut /\ complete k P rel br r.

(** One round of the sweep at a level that is not the top. *)
Lemma sweep_step f k q r :
  (k < 31)%nat -> 1 <= q -> (2 * q + 1) * 2 ^ Z.of_nat k + 2 ^ Z.of_nat k < 2 ^ 32 -> r_level r = k ->
  sweep (S f) inner ml ((2 * q + 1) * 2 ^ Z.of_nat k) r =
  sweep_from f (S k) ((q + 1) * 2 ^ Z.of_nat (S k)) (Round (S k) (Hash_2 (r_h r) (r_h r)) (r_matchh r) (r_mutated r)
    (match r_branch r with Some b => if r_matchh r then Some (b ++ [r_h r]) else Some b | None => None end)).
Proof.
  intros Hk Hq Hlt Hl. pose proof (Z.pow_pos_nonneg 2 (Z.of_nat k) ltac:(lia) ltac:(lia)). cbn [sweep]. rewrite Hl, Z.shiftl_1_l.
  destruct (Z.eqb_spec ((2 * q + 1) * 2 ^ Z.of_nat k) (2 ^ Z.of_nat k)); [nia |]. cbn [negb r_level].
  assert (E : uint32 ((2 * q + 1) * 2 ^ Z.of_nat k + uint32 (2 ^ Z.of_nat k)) = (q + 1) * 2 ^ Z.of_nat (S k)).
  { rewrite (uint32_id (2 ^ Z.of_nat k)) by nia. rewrite uint32_id by nia. rewrite Nat2Z.inj_succ, Z.pow_succ_r by lia. lia. }
  rewrite E. done.
Qed.

(** A complete subtree at the bottom of the sweep. *)
Lemma reached_full k P rel q :
  (k < 31)%nat -> 1 <= q -> (2 * q + 2) * 2 ^ Z.of_nat k < 2 ^ 32 -> length P = (2 ^ k)%nat ->
  inner !! k = Some (tree_root k P) -> settled (S k) P rel ml br ->
  reached (S k) P rel q ((2 * q + 1) * 2 ^ Z.of_nat k).
Proof.
  intros Hk Hq Hlt HP Hi Hs. pose proof (pow2_pos k). unfold reached, sweep_start.
  pose proof (skip_levels_spec k q 0 ltac:(lia) ltac:(lia)) as Hsk. cbn [Nat.sub] in Hsk. rewrite Hsk. cbn [obind].
  unfold index. rewrite (proj2 (Z.ltb_ge _ 0)), Nat2Z.id, Hi by lia. cbn [obind]. exists 31%nat. eexists.
  rewrite (sweep_step 31 k q) by (done || lia). split; [done |]. split; [lia |]. split; [done |].
  cbn [r_h r_mutated]. rewrite tree_root_short by lia. split; [done |]. split; [done |].
  apply (complete_repeat k P rel br (Round k (tree_root k P) (ml =? Z.of_nat k) mut br)); [lia | done | by apply settled_complete].
Qed.

Lemma reached_run k P rel q :
  (k <= 31)%nat -> 1 <= q -> (q + 1) * 2 ^ Z.of_nat k < 2 ^ 32 -> (0 < length P < 2 ^ k)%nat ->
  inner_ok k inner P -> settled k P rel ml br -> reached k P rel q (q * 2 ^ Z.of_nat k + Zlen P).
Proof.
  revert P rel q. induction k as [| k IH]; intros P rel q Hk Hq Hlt HP Hio Hs; [cbn in HP; lia |].
  assert (HZ : Z.of_nat (2 ^ k) = 2 ^ Z.of_nat k) by (rewrite Nat2Z.inj_pow; done).
  assert (HS : 2 ^ Z.of_nat (S k) = 2 * 2 ^ Z.of_nat k) by (rewrite Nat2Z.inj_succ, Z.pow_succ_r by lia; done).
  rewrite pow2_S in HP. rewrite HS in Hlt. pose proof (Z.pow_pos_nonneg 2 (Z.of_nat k) ltac:(lia) ltac:(lia)).
  destruct (le_lt_dec (2 ^ k) (length P)) as [Hge | Hlt'].
  - destruct (split_at (2 ^ k) P Hge) as (P0 & P1 & -> & H0). rewrite length_app in HP.
    cbn [inner_ok] in Hio. rewrite length_app, H0, (proj2 (Nat.leb_le (2 ^ k) _)), take_app_length', drop_app_length' in Hio by (done || lia).
    destruct Hio as [Hi Hio]. destruct P1 as [| y P1'].
    + rewrite app_nil_r in *. replace (q * 2 ^ Z.of_nat (S k) + Zlen P0) with ((2 * q + 1) * 2 ^ Z.of_nat k) by (unfold Zlen; lia).
      by apply reached_full; try lia.
    + set (P1 := y :: P1') in *. assert (H1 : (0 < length P1 < 2 ^ k)%nat) by (split; [cbn; lia | lia]). clearbody P1.
      destruct (settled_split k P0 P1 rel ml br H0 ltac:(lia) Hs) as [Hs1 Hbr].
      destruct (IH P1 (rel - Zlen P0) (2 * q + 1)) as (f & r & Hr & Hf & Hl & Hh & Hmu & Hco); [lia | lia | lia | done | done | done |].
      pose proof (complete_merge k P0 P1 rel ml br r inner H0 ltac:(lia) Hl Hh Hco Hbr) as Hcm.
      unfold reached. exists f. rewrite Zlen_app. replace (q * 2 ^ Z.of_nat (S k) + (Zlen P0 + Zlen P1)) with ((2 * q + 1) * 2 ^ Z.of_nat k + Zlen P1) by (unfold Zlen; lia).
      rewrite Hr. unfold sweep_from. replace ((2 * q + 1 + 1) * 2 ^ Z.of_nat k) with ((q + 1) * 2 ^ Z.of_nat (S k)) by lia.
      rewrite (merge_step k false inner ml _ r (tree_root k P0)) by (rewrite ?Hl; done || lia || apply bit_none).
      destruct (push_branch inner ml r (tree_root k P0)) as [b matchh]. eexists. split; [done |]. split; [lia |]. split; [done |].
      cbn [r_h r_mutated andb]. rewrite tree_root_halves, Hh, Hmu, orb_false_r by (done || lia). split; [done |]. split; [done | apply Hcm].
  - destruct (IH P rel (2 * q)) as (f & r & Hr & Hf & Hl & Hh & Hmu & Hco); [lia | lia | lia | lia | | by apply settled_short |].
    { cbn [inner_ok] in Hio. by rewrite (proj2 (Nat.leb_gt (2 ^ k) _)) in Hio. }
    unfold reached. replace (q * 2 ^ Z.of_nat (S k) + Zlen P) with (2 * q * 2 ^ Z.of_nat k + Zlen P) by lia. rewrite Hr. unfold sweep_from.
    rewrite merge_stop; [| lia | done | replace ((2 * q + 1) * 2 ^ Z.of_nat k) with (q * 2 ^ Z.of_nat (S k) + 2 ^ Z.of_nat k) by lia; apply bit_top].
    cbn [obind]. destruct f as [| f]; [lia |]. exists f. eexists. rewrite (sweep_step f k q) by (done || lia). split; [done |].
    split; [lia |]. split; [done |]. split; [rewrite tree_root_short by lia; cbn [r_h]; by rewrite Hh |]. split; [exact Hmu |].
    apply complete_repeat; [lia | done | done].
Qed.
End Sweep.

(** ** The whole computation *)

Lemma tree_mutated_mono k P Q : (length (P ++ Q) <= 2 ^ k)%nat -> tree_mutated k P = true -> tree_mutated k (P ++ Q) = true.
Proof.
  revert P Q. induction k as [| k IH]; intros P Q HL Hm; [done |]. rewrite pow2_S, length_app in HL. destruct (le_lt_dec (length P) (2 ^ k)) as [Hle | Hlt].
  - rewrite tree_mutated_short in Hm by done. destruct (le_lt_dec (length (P ++ Q)) (2 ^ k)) as [Hle' | Hlt'].
    + rewrite tree_mutated_short by done. by apply IH.
    + destruct (split_at (2 ^ k) (P ++ Q) ltac:(lia)) as (A & B & E & HA). rewrite E. rewrite length_app in Hlt'. apply (f_equal length) in E as EL. rewrite !length_app in EL.
      rewrite tree_mutated_halves by (done || lia). replace A with (P ++ drop (length P) A); [rewrite IH; [done | rewrite length_app, length_drop; lia | done] |].
      rewrite <- (take_drop (length P) A) at 2. f_equal. apply (f_equal (take (length P))) in E. rewrite take_app_length, take_app_le in E by lia. done.
  - destruct (split_at (2 ^ k) P ltac:(lia)) as (P0 & P1 & -> & H0). rewrite length_app in *. rewrite <- app_assoc.
    rewrite tree_mutated_halves in * by (done || rewrite ?length_app; lia). destruct (tree_mutated k P0); [done |]. cbn [orb] in *.
    destruct (tree_mutated k P1) eqn:E1; [rewrite IH; [done | rewrite length_app; lia | done] |]. cbn [orb] in Hm.
    destruct (Nat.eqb_spec (length P1) (2 ^ k)) as [E | E]; [| done]. assert (Q = []) as -> by (destruct Q; [done | cbn in HL; lia]).
    rewrite app_nil_r, E1. cbn [orb]. by rewrite (proj2 (Nat.eqb_eq _ _) E).
Qed.

Lemma tree_mutated_up k j P : (length P <= 2 ^ k)%nat -> tree_mutated (j + k) P = tree_mutated k P.
Proof.
  intros HP. induction j as [| j IH]; [done |]. cbn [Nat.add]. rewrite tree_mutated_short, IH; [done |].
  pose proof (Nat.pow_le_mono_r 2 k (j + k) ltac:(lia) ltac:(lia)). lia.
Qed.

Lemma inner_ok_down k j inner P : (length P < 2 ^ k)%nat -> inner_ok (j + k) inner P -> inner_ok k inner P.
Proof.
  intros HP. induction j as [| j IH]; [done |]. cbn [Nat.add inner_ok]. pose proof (Nat.pow_le_mono_r 2 k (j + k) ltac:(lia) ltac:(lia)).
  rewrite (proj2 (Nat.leb_gt (2 ^ (j + k)) (length P))) by lia. done.
Qed.

Lemma settled_down k j P rel ml br : (length P < 2 ^ k)%nat -> settled (j + k) P rel ml br -> settled k P rel ml br.
Proof.
  intros HP. induction j as [| j IH]; [done |]. intros Hs. apply IH. cbn [Nat.add] in Hs.
  pose proof (Nat.pow_le_mono_r 2 k (j + k) ltac:(lia) ltac:(lia)). apply settled_short; [lia | done].
Qed.

Section Leaves.
Context (K : nat) (HK : (K <= 31)%nat).

(** The state between the leaves, after [P], fewer than [2^K]. *)
Record mst_ok (pos : Z) (P : list (list Z)) (s : mstate) : Prop := {
  mo_length : length (m_inner s) = 32%nat;
  mo_inner : inner_ok K (m_inner s) P;
  mo_mutated : m_mutated s = tree_mutated K P;
  mo_branch : match m_branch s with
              | None => m_matchlevel s = -1 /\ 2 ^ Z.of_nat K <= pos
              | Some b => if decide (hit pos P) then placed K P (Z.to_nat pos) (m_matchlevel s) b
                          else m_matchlevel s = -1 /\ b = []
              end
}.

Lemma absorb_leaf_run pos P s x :
  mst_ok pos P s -> (S (length P) < 2 ^ K)%nat ->
  exists s', absorb_leaf pos (Zlen P) s x = Ret s' /\ mst_ok pos (P ++ [x]) s' /\ (m_branch s = None <-> m_branch s' = None).
Proof.
  intros [Hl Hi Hm Hb] HP. assert (HKZ : Z.of_nat (2 ^ K) = 2 ^ Z.of_nat K) by (rewrite Nat2Z.inj_pow; done).
  pose proof (Z.pow_le_mono_r 2 (Z.of_nat K) 31 ltac:(lia) ltac:(lia)).
  assert (HZ : 0 <= Zlen P + 1 < 2 ^ Z.of_nat K) by (unfold Zlen; lia). unfold absorb_leaf. rewrite uint32_id by lia.
  set (mh := Zlen P =? pos).
  assert (Hbef : before K P pos (m_matchlevel s) mh (m_branch s)).
  { unfold before, mh. destruct (m_branch s) as [b |]; [| apply Z.eqb_neq; lia]. destruct (decide (hit pos P)) as [Hh | Hh].
    - split; [done |]. apply Z.eqb_neq. unfold hit in Hh. lia.
    - destruct Hb as [-> ->]. split; [lia |]. destruct (decide (pos = Zlen P)) as [-> | Hne]; [split; [apply Z.eqb_refl | done] | apply Z.eqb_neq; lia]. }
  destruct (carry x (m_inner s) (m_matchlevel s) (Zlen P + 1) (m_mutated s) mh (m_branch s) Hl K P pos 0) as [Habs | (Heq & _)];
    [lia | lia | done | by rewrite Hm | done | lia | | lia].
  destruct Habs as (_ & r & -> & Hlv & Hio & Hmu & Hst). cbn [obind]. eexists. split; [done |]. split.
  - split; cbn [m_inner m_mutated m_branch m_matchlevel]; [by rewrite length_insert | done | |].
    + rewrite Hmu, Hm. destruct (tree_mutated K P) eqn:E; [symmetry; apply tree_mutated_mono; [rewrite length_app; cbn [length]; lia | done] | done].
    + unfold stored in Hst. destruct (m_branch s) as [b |] eqn:Eb; [| destruct Hst as [-> ->]; done].
      destruct (decide (hit pos (P ++ [x]))) as [Hh | Hh]; [by destruct Hst as (b' & -> & Hp) |].
      destruct Hst as [-> ->]. rewrite decide_False in Hb; [done |]. unfold hit in *. rewrite Zlen_app in Hh. pose proof (Zlen_nonneg [x]). lia.
  - cbn [m_branch]. unfold stored in Hst. destruct (m_branch s) as [b |]; [| by destruct Hst as [-> _]].
    split; [done |]. destruct (decide (hit pos (P ++ [x]))); [by destruct Hst as (? & -> & _) | by destruct Hst as [_ ->]].
Qed.

Lemma absorb_leaves_run pos l : forall P s,
  mst_ok pos P s -> (length P + length l < 2 ^ K)%nat ->
  exists s', absorb_leaves pos (Zlen P) s l = Ret (s', Zlen (P ++ l)) /\ mst_ok pos (P ++ l) s' /\ (m_branch s = None <-> m_branch s' = None).
Proof.
  assert (HKZ : Z.of_nat (2 ^ K) = 2 ^ Z.of_nat K) by (rewrite Nat2Z.inj_pow; done).
  pose proof (Z.pow_le_mono_r 2 (Z.of_nat K) 31 ltac:(lia) ltac:(lia)).
  induction l as [| x l IH]; intros P s Hs HL; [rewrite app_nil_r; by exists s |]. cbn [length] in HL.
  destruct (absorb_leaf_run pos P s x Hs ltac:(lia)) as (s1 & H1 & Hs1 & Hb1). cbn [absorb_leaves]. rewrite H1. cbn [obind].
  rewrite uint32_id by (unfold Zlen; lia). replace (Zlen P + 1) with (Zlen (P ++ [x])) by (rewrite Zlen_app; done).
  destruct (IH (P ++ [x]) s1 Hs1) as (s2 & H2 & Hs2 & Hb2); [rewrite length_app; cbn [length]; lia |].
  rewrite <- app_assoc in *. exists s2. split; [done |]. split; [done |]. by rewrite Hb1.
Qed.

Lemma mst_settled pos P s : mst_ok pos P s -> settled K P pos (m_matchlevel s) (m_branch s).
Proof.
  intros [_ _ _ Hb]. unfold settled. destruct (m_branch s) as [b |]; [| by destruct Hb].
  destruct (decide (hit pos P)); [done |]. destruct Hb as [-> _]. lia.
Qed.

(** A level below [K]. *)
Lemma level_le k n : (2 ^ k <= n)%nat -> (n < 2 ^ K)%nat -> (k < K)%nat.
Proof. intros H1 H2. apply (Nat.pow_lt_mono_r_iff 2); lia. Qed.

(** The whole tree, from its state after all the leaves. *)
Lemma sweep_full pos P s k :
  mst_ok pos P s -> (length P < 2 ^ K)%nat -> length P = (2 ^ k)%nat ->
  exists r, sweep_start (m_inner s) (m_matchlevel s) (m_mutated s) (m_branch s) (Zlen P) = Ret r /\
    r_h r = tree_root k P /\ r_mutated r = m_mutated s /\ complete k P pos (m_branch s) r.
Proof.
  intros Hs HP HPk. pose proof (level_le k (length P) ltac:(lia) HP) as Hk. pose proof (pow2_pos k).
  assert (HZ : Z.of_nat (2 ^ k) = 2 ^ Z.of_nat k) by (rewrite Nat2Z.inj_pow; done).
  assert (HPS : (length P < 2 ^ S k)%nat) by (rewrite pow2_S; lia).
  pose proof (mst_settled pos P s Hs) as Hst. destruct Hs as [Hl Hi Hm _]. replace K with ((K - S k) + S k)%nat in Hi, Hst by lia.
  apply inner_ok_down in Hi; [| done]. apply settled_down in Hst; [| done].
  cbn [inner_ok] in Hi. rewrite (proj2 (Nat.leb_le (2 ^ k) _)), take_ge in Hi by lia. destruct Hi as [Hi _].
  unfold sweep_start. pose proof (skip_levels_spec k 0 0 ltac:(lia) ltac:(lia)) as Hsk. cbn [Nat.sub] in Hsk.
  replace ((2 * 0 + 1) * 2 ^ Z.of_nat k) with (Zlen P) in Hsk by (unfold Zlen; lia). rewrite Hsk. cbn [obind].
  unfold index. rewrite (proj2 (Z.ltb_ge _ 0)), Nat2Z.id, Hi by lia. cbn [obind]. eexists. split.
  - cbn [sweep r_level]. rewrite Z.shiftl_1_l, <- HZ. unfold Zlen. rewrite HPk, Z.eqb_refl. done.
  - split; [done |]. split; [done |]. by apply settled_complete.
Qed.

Lemma sweep_partial pos P s k :
  mst_ok pos P s -> (length P < 2 ^ K)%nat -> (2 ^ k < length P < 2 ^ S k)%nat ->
  exists r, sweep_start (m_inner s) (m_matchlevel s) (m_mutated s) (m_branch s) (Zlen P) = Ret r /\
    r_h r = tree_root (S k) P /\ r_mutated r = m_mutated s /\ complete (S k) P pos (m_branch s) r.
Proof.
  intros Hs HP HPk. pose proof (level_le k (length P) ltac:(lia) HP) as Hk. pose proof (pow2_pos k).
  assert (HZ : Z.of_nat (2 ^ k) = 2 ^ Z.of_nat k) by (rewrite Nat2Z.inj_pow; done).
  assert (HS : 2 ^ Z.of_nat (S k) = 2 * 2 ^ Z.of_nat k) by (rewrite Nat2Z.inj_succ, Z.pow_succ_r by lia; done).
  pose proof (Z.pow_le_mono_r 2 (Z.of_nat k) 30 ltac:(lia) ltac:(lia)) as H30.
  pose proof (mst_settled pos P s Hs) as Hst. destruct Hs as [Hl Hi Hm _]. replace K with ((K - S k) + S k)%nat in Hi, Hst by lia.
  apply inner_ok_down in Hi; [| lia]. apply settled_down in Hst; [| lia]. rewrite pow2_S in HPk.
  destruct (split_at (2 ^ k) P ltac:(lia)) as (P0 & P1 & -> & H0). rewrite length_app in HPk.
  cbn [inner_ok] in Hi. rewrite length_app, H0, (proj2 (Nat.leb_le (2 ^ k) _)), take_app_length', drop_app_length' in Hi by (done || lia).
  destruct Hi as [Hi Hio]. destruct (settled_split k P0 P1 pos _ _ H0 ltac:(lia) Hst) as [Hs1 Hbr].
  destruct (reached_run (m_inner s) (m_matchlevel s) (m_mutated s) (m_branch s) Hl k P1 (pos - Zlen P0) 1) as (f & r & Hr & Hf & Hlv & Hh & Hmu & Hco);
    [lia | lia | lia | lia | done | done |].
  pose proof (complete_merge k P0 P1 pos _ _ r (m_inner s) H0 ltac:(lia) Hlv Hh Hco Hbr) as Hcm.
  replace (1 * 2 ^ Z.of_nat k + Zlen P1) with (Zlen (P0 ++ P1)) in Hr by (rewrite Zlen_app; unfold Zlen; lia).
  rewrite Hr. unfold sweep_from. replace ((1 + 1) * 2 ^ Z.of_nat k) with (1 * 2 ^ Z.of_nat (S k)) by lia.
  rewrite (merge_step k false (m_inner s) _ _ r (tree_root k P0)) by (rewrite ?Hlv; done || lia || apply bit_none).
  destruct (push_branch (m_inner s) (m_matchlevel s) r (tree_root k P0)) as [b matchh]. rewrite Z.mul_1_l.
  rewrite merge_stop; [| cbn; lia | done | apply Z.pow2_bits_true; lia]. cbn [obind]. eexists. split.
  - destruct f; cbn [sweep r_level]; by rewrite Z.shiftl_1_l, Z.eqb_refl.
  - cbn [r_h r_mutated andb]. rewrite tree_root_halves, Hh, Hmu, orb_false_r by (done || lia). split; [done |]. split; [done | apply Hcm].
Qed.
End Leaves.

(** The tree of height [tree_height] is the smallest that holds the leaves. *)
Lemma tree_height_cases n :
  (0 < n)%nat -> n = (2 ^ tree_height n)%nat \/ exists k, tree_height n = S k /\ (2 ^ k < n < 2 ^ S k)%nat.
Proof.
  intros Hn. destruct (decide (n = 1)%nat) as [-> | Hne]; [by left |]. unfold tree_height.
  pose proof (Nat.log2_up_spec n ltac:(lia)) as [H1 H2]. pose proof (Nat.log2_up_pos n ltac:(lia)).
  destruct (decide (n = 2 ^ Nat.log2_up n)%nat); [by left | right]. exists (pred (Nat.log2_up n)).
  replace (S (pred (Nat.log2_up n))) with (Nat.log2_up n) by lia. split; [done | lia].
Qed.

Lemma MerkleComputation_run l pos (pb : bool) :
  0 < Zlen l < 2 ^ 31 -> (if pb then 0 <= pos else pos = uint32 (-1)) ->
  let k := tree_height (length l) in
  MerkleComputation l pos pb =
    Ret (tree_root k l, tree_mutated k l,
         if pb then Some (if decide (pos < Zlen l) then tree_branch k l (Z.to_nat pos) else []) else None).
Proof.
  intros Hl Hpos k. unfold MerkleComputation. rewrite (proj2 (Z.eqb_neq (Zlen l) 0)) by lia.
  assert (exists K, K = 31%nat) as (K & EK) by (by eexists). assert (HK : (K <= 31)%nat) by lia.
  assert (HKZ : Z.of_nat (2 ^ K) = 2 ^ 31) by (rewrite Nat2Z.inj_pow, EK; done).
  assert (Hln : (0 < length l < 2 ^ K)%nat) by (unfold Zlen in Hl; lia).
  set (s0 := MState (replicate 32 uint256_null) false (if pb then Some [] else None) (-1)).
  assert (Hs0 : mst_ok K pos [] s0).
  { split; cbn [m_inner m_mutated m_branch m_matchlevel s0]; [done | apply inner_ok_nil | by rewrite tree_mutated_nil |].
    destruct pb; [| rewrite Hpos, EK; done]. assert (Z0 : Zlen (@nil (list Z)) = 0) by done. rewrite decide_False by (unfold hit; lia). done. }
  destruct (absorb_leaves_run K HK pos l [] s0 Hs0 ltac:(cbn; lia)) as (s & Ha & Hs & Hbr). change (Zlen []) with 0 in Ha. cbn [app] in *.
  rewrite Ha. cbn [obind].
  assert (Hrun : exists r, sweep_start (m_inner s) (m_matchlevel s) (m_mutated s) (m_branch s) (Zlen l) = Ret r /\
    r_h r = tree_root k l /\ r_mutated r = m_mutated s /\ complete k l pos (m_branch s) r).
  { destruct (tree_height_cases (length l)) as [E | (j & E & Hj)]; [lia | apply (sweep_full K HK pos l s k Hs); [lia | done] |].
    unfold k. rewrite E. apply (sweep_partial K HK pos l s j Hs); [lia | done]. }
  destruct Hrun as (r & Hr & Hh & Hmu & Hco). unfold sweep_start in Hr.
  destruct (skip_levels 32 (Zlen l) 0) as [lv | | |]; cbn [obind] in *; try done.
  destruct (index (m_inner s) (Z.of_nat lv)) as [h | | |]; cbn [obind] in *; try done. rewrite Hr. cbn [obind]. rewrite Hh, Hmu.
  assert (Hk : (length l <= 2 ^ k)%nat /\ (k <= K)%nat).
  { destruct (tree_height_cases (length l)) as [E | (j & E & Hj)]; [lia | |].
    - fold k in E. split; [lia |]. pose proof (level_le K HK k (length l)). lia.
    - unfold k. rewrite E. split; [lia |]. pose proof (level_le K HK j (length l)). lia. }
  rewrite (mo_mutated K pos l s Hs). replace K with ((K - k) + k)%nat at 1 by lia. rewrite tree_mutated_up by lia. do 2 f_equal.
  pose proof (mo_branch K pos l s Hs) as Hb. unfold complete in Hco. destruct pb.
  - destruct (m_branch s) as [b |]; [| by pose proof (proj2 Hbr eq_refl)]. unfold hit in *. destruct (decide (0 <= pos < Zlen l)).
    + destruct Hco as [_ ->]. by rewrite decide_True by lia.
    + destruct Hco as [_ ->], Hb as [_ ->]. by rewrite decide_False by lia.
  - rewrite (proj1 Hbr eq_refl) in Hco. by destruct Hco as [-> _].
Qed.

(** ** Branches *)

(** The position of a leaf relative to a subtree selects its side by one bit. *)
Lemma RootFromBranch_app leaf b s i :
  ComputeMerkleRootFromBranch leaf (b ++ [s]) i =
  branch_node (Z.shiftr i (Zlen b)) (ComputeMerkleRootFromBranch leaf b i) s.
Proof.
  unfold ComputeMerkleRootFromBranch. rewrite foldl_app. cbn [foldl].
  assert (H : forall b h j, foldl (fun '(hash, nIndex) sibling => (branch_node nIndex hash sibling, Z.shiftr nIndex 1)) (h, j) b
    = (fst (foldl (fun '(hash, nIndex) sibling => (branch_node nIndex hash sibling, Z.shiftr nIndex 1)) (h, j) b), Z.shiftr j (Zlen b))).
  { clear. induction b as [| y b IH]; intros h j; [by rewrite Zlen_nil, Z.shiftr_0_r |]. cbn [foldl]. rewrite IH. f_equal.
    rewrite Zlen_cons, Z.shiftr_shiftr by apply Zlen_nonneg. done. }
  rewrite H. done.
Qed.

Lemma length_tree_branch k l pos : length (tree_branch k l pos) = k.
Proof. revert l pos. induction k as [| k IH]; intros l pos; [done |]. cbn [tree_branch]. repeat case_match; rewrite length_app, IH; cbn; lia. Qed.

Lemma odd_flag i : flag i 1 = Z.odd i.
Proof. change 1 with (2 ^ 0) at 1. rewrite flag_pow2, Z.bit0_odd by lia. done. Qed.

(** Folding the branch of a leaf into it gives the root. *)
Lemma tree_branch_sound k l pos leaf (hi : Z) :
  (length l <= 2 ^ k)%nat -> l !! pos = Some leaf -> 0 <= hi ->
  ComputeMerkleRootFromBranch leaf (tree_branch k l pos) (Z.of_nat pos + hi * 2 ^ Z.of_nat k) = tree_root k l.
Proof.
  revert l pos hi. induction k as [| k IH]; intros l pos hi Hl Hp Hhi.
  { cbn in Hl. destruct l as [| y l]; [done |]. destruct l; [| cbn in Hl; lia]. destruct pos; [| done]. cbn in Hp |- *. by injection Hp as ->. }
  apply lookup_lt_Some in Hp as Hlt. assert (HZ : Z.of_nat (2 ^ k) = 2 ^ Z.of_nat k) by (rewrite Nat2Z.inj_pow; done).
  assert (HS : 2 ^ Z.of_nat (S k) = 2 * 2 ^ Z.of_nat k) by (rewrite Nat2Z.inj_succ, Z.pow_succ_r by lia; done). rewrite pow2_S in Hl.
  pose proof (Z.pow_pos_nonneg 2 (Z.of_nat k) ltac:(lia) ltac:(lia)).
  assert (Hbit : forall j p, (p < 2 ^ k)%nat -> Z.shiftr (Z.of_nat p + j * 2 ^ Z.of_nat k) (Z.of_nat k) = j).
  { intros j p Hpk. rewrite Z.shiftr_div_pow2, Z.div_add, Z.div_small by lia. lia. }
  assert (Heven : forall a b, branch_node (2 * hi) a b = Hash_2 a b).
  { intros a b. unfold branch_node. rewrite odd_flag, Z.odd_mul. done. }
  assert (Hodd : forall a b, branch_node (2 * hi + 1) a b = Hash_2 b a).
  { intros a b. unfold branch_node. rewrite odd_flag, Z.odd_add, Z.odd_mul. done. }
  destruct (le_lt_dec (length l) (2 ^ k)) as [Hle | Hgt].
  - rewrite tree_branch_short, tree_root_short, RootFromBranch_app by done. unfold Zlen. rewrite length_tree_branch.
    replace (Z.of_nat pos + hi * 2 ^ Z.of_nat (S k)) with (Z.of_nat pos + (2 * hi) * 2 ^ Z.of_nat k) by lia.
    rewrite IH, Hbit by (done || lia). apply Heven.
  - destruct (split_at (2 ^ k) l ltac:(lia)) as (l0 & l1 & -> & H0). rewrite length_app in *. rewrite tree_root_halves by (done || lia).
    destruct (le_lt_dec (2 ^ k) pos) as [Hge | Hlt'].
    + rewrite lookup_app_r in Hp by lia. rewrite H0 in Hp. rewrite tree_branch_right, RootFromBranch_app by (done || lia). unfold Zlen. rewrite length_tree_branch.
      replace (Z.of_nat pos + hi * 2 ^ Z.of_nat (S k)) with (Z.of_nat (pos - 2 ^ k) + (2 * hi + 1) * 2 ^ Z.of_nat k) by lia.
      rewrite IH, Hbit by (done || lia). apply Hodd.
    + rewrite lookup_app_l in Hp by lia. rewrite tree_branch_left, RootFromBranch_app by (done || lia). unfold Zlen. rewrite length_tree_branch.
      replace (Z.of_nat pos + hi * 2 ^ Z.of_nat (S k)) with (Z.of_nat pos + (2 * hi) * 2 ^ Z.of_nat k) by lia.
      rewrite IH, Hbit by (done || lia). apply Heven.
Qed.

(** ** The root binds the leaves *)

(** The leaves with the missing ones repeated. *)
Fixpoint pad (k : nat) (l : list (list Z)) : list (list Z) :=
  match k with
  | O => l
  | S k => if (length l <=? 2 ^ k)%nat then pad k l ++ pad k l else take (2 ^ k) l ++ pad k (drop (2 ^ k) l)
  end.

Lemma pad_short k l : (length l <= 2 ^ k)%nat -> pad (S k) l = pad k l ++ pad k l.
Proof. intros H. cbn [pad]. by rewrite (proj2 (Nat.leb_le _ _) H). Qed.

Lemma pad_halves k l0 l1 : length l0 = (2 ^ k)%nat -> (0 < length l1)%nat -> pad (S k) (l0 ++ l1) = l0 ++ pad k l1.
Proof.
  intros H0 H1. cbn [pad]. rewrite length_app, (proj2 (Nat.leb_gt (length l0 + length l1) (2 ^ k))) by lia. by rewrite take_app_length', drop_app_length'.
Qed.

Lemma length_pad k l : (0 < length l <= 2 ^ k)%nat -> length (pad k l) = (2 ^ k)%nat.
Proof.
  revert l. induction k as [| k IH]; intros l Hl; [cbn in *; lia |]. rewrite pow2_S in *. destruct (le_lt_dec (length l) (2 ^ k)) as [Hle | Hgt].
  - rewrite pad_short, length_app, IH by lia. done.
  - destruct (split_at (2 ^ k) l ltac:(lia)) as (l0 & l1 & -> & H0). rewrite length_app in *. rewrite pad_halves, length_app, IH by lia. lia.
Qed.

Lemma pad_full k l : length l = (2 ^ k)%nat -> pad k l = l.
Proof.
  revert l. induction k as [| k IH]; intros l Hl; [done |]. rewrite pow2_S in *. pose proof (pow2_pos k).
  destruct (split_at (2 ^ k) l ltac:(lia)) as (l0 & l1 & -> & H0). rewrite length_app in *. rewrite pad_halves, IH by lia. done.
Qed.

Lemma take_pad k l : (0 < length l <= 2 ^ k)%nat -> take (length l) (pad k l) = l.
Proof.
  revert l. induction k as [| k IH]; intros l Hl; [by apply take_ge |]. rewrite pow2_S in *. destruct (le_lt_dec (length l) (2 ^ k)) as [Hle | Hgt].
  - rewrite pad_short, take_app_le by (try rewrite length_pad; lia). apply IH. lia.
  - destruct (split_at (2 ^ k) l ltac:(lia)) as (l0 & l1 & -> & H0). rewrite length_app in *. rewrite pad_halves, take_app_ge by lia.
    replace (length l0 + length l1 - length l0)%nat with (length l1) by lia. rewrite IH by lia. done.
Qed.

Lemma tree_root_pad k l : (0 < length l <= 2 ^ k)%nat -> tree_root k (pad k l) = tree_root k l.
Proof.
  revert l. induction k as [| k IH]; intros l Hl; [done |]. rewrite pow2_S in *. pose proof (pow2_pos k). destruct (le_lt_dec (length l) (2 ^ k)) as [Hle | Hgt].
  - rewrite pad_short by lia. rewrite tree_root_halves, tree_root_short, IH by (try rewrite length_pad; lia). done.
  - destruct (split_at (2 ^ k) l ltac:(lia)) as (l0 & l1 & -> & H0). rewrite length_app in *.
    rewrite pad_halves, !tree_root_halves, IH by (try rewrite length_pad; lia). done.
Qed.

(** A shorter list with the same padding betrays the longer one. *)
Lemma pad_mutated k l1 l2 :
  (0 < length l1 < length l2)%nat -> (length l2 <= 2 ^ k)%nat -> pad k l1 = pad k l2 -> tree_mutated k l2 = true.
Proof.
  revert l1 l2. induction k as [| k IH]; intros l1 l2 Hl Hl2 Hp; [cbn in Hl2; lia |]. rewrite pow2_S in *. pose proof (pow2_pos k).
  destruct (le_lt_dec (length l2) (2 ^ k)) as [H2 | H2].
  - rewrite !pad_short in Hp by lia. apply app_inj_1 in Hp as [Hp _]; [| rewrite !length_pad; lia]. rewrite tree_mutated_short by done. by apply (IH l1).
  - destruct (split_at (2 ^ k) l2 ltac:(lia)) as (A & B & -> & HA). rewrite length_app in *. rewrite (pad_halves k A B), tree_mutated_halves in * by lia.
    destruct (le_lt_dec (length l1) (2 ^ k)) as [H1 | H1].
    + rewrite pad_short in Hp by lia. apply app_inj_1 in Hp as [Hq Hp]; [| rewrite length_pad; lia]. rewrite Hq in Hp.
      destruct (decide (length B = 2 ^ k)%nat) as [HB | HB].
      * rewrite pad_full in Hp by done. subst B. rewrite (proj2 (Nat.eqb_eq _ _) HA), bool_decide_eq_true_2 by done. by rewrite orb_true_r.
      * rewrite (IH B A); [done | lia | lia |]. rewrite (pad_full k A) by done. done.
    + destruct (split_at (2 ^ k) l1 ltac:(lia)) as (A1 & B1 & -> & HA1). rewrite length_app in *. rewrite pad_halves in Hp by lia.
      apply app_inj_1 in Hp as [-> Hp]; [| lia]. rewrite (IH B1 B); [by rewrite orb_true_r | lia | lia | done].
Qed.

(** ** The strings hashed *)

Lemma tree_inputs_short k P : (length P <= 2 ^ k)%nat -> tree_inputs (S k) P = (tree_root k P ++ tree_root k P) :: tree_inputs k P.
Proof. intros H. cbn [tree_inputs]. by rewrite (proj2 (Nat.leb_le _ _) H). Qed.

Lemma tree_inputs_halves k P Q : length P = (2 ^ k)%nat -> (0 < length Q)%nat ->
  tree_inputs (S k) (P ++ Q) = (tree_root k P ++ tree_root k Q) :: tree_inputs k P ++ tree_inputs k Q.
Proof.
  intros HP HQ. cbn [tree_inputs]. rewrite length_app, (proj2 (Nat.leb_gt (length P + length Q) (2 ^ k))) by lia.
  by rewrite take_app_length', drop_app_length'.
Qed.

(** Padding hashes nothing new. *)
Lemma tree_inputs_pad k l : (0 < length l <= 2 ^ k)%nat -> tree_inputs k (pad k l) ⊆ tree_inputs k l.
Proof.
  revert l. induction k as [| k IH]; intros l Hl; [done |]. rewrite pow2_S in *. destruct (le_lt_dec (length l) (2 ^ k)) as [Hle | Hgt].
  - rewrite pad_short, tree_inputs_halves, tree_inputs_short, tree_root_pad by (try rewrite length_pad; lia). specialize (IH l ltac:(lia)). set_solver.
  - destruct (split_at (2 ^ k) l ltac:(lia)) as (l0 & l1 & -> & H0). rewrite length_app in *.
    rewrite pad_halves, !tree_inputs_halves, tree_root_pad by (try rewrite length_pad; lia). specialize (IH l1 ltac:(lia)). set_solver.
Qed.

Lemma Hash_2_wf a b : wf_hash (Hash_2 a b).
Proof. rewrite Hash_2_sha256. apply sha256_spec_wf. Qed.

Lemma tree_root_wf k P : (0 < length P <= 2 ^ k)%nat -> Forall wf_hash P -> wf_hash (tree_root k P).
Proof.
  intros HP HF. destruct k; cbn [tree_root]; [| case_match; apply Hash_2_wf].
  destruct HF; [cbn in HP; lia | done].
Qed.

(** Two nodes with the same hash have the same children, or their strings collide. *)
Lemma Hash_2_inj a b c d : wf_hash a -> wf_hash b -> wf_hash c -> wf_hash d -> Hash_2 a b = Hash_2 c d ->
  (a = c /\ b = d) \/ collision (a ++ b) (c ++ d).
Proof.
  intros [Ha La] [Hb _] [Hc Lc] [Hd _] E. rewrite !Hash_2_sha256 in E. destruct (decide (a ++ b = c ++ d)) as [Eq | Ne].
  - left. apply app_inj_1 in Eq; [done |]. unfold Zlen in *. lia.
  - right. unfold collision. by rewrite !bytes_ok_app.
Qed.

(** Among the strings that two trees hash there are two that collide. *)
Definition trees_collide (k : nat) (l1 l2 : list (list Z)) : Prop :=
  exists a b, a ∈ tree_inputs k l1 /\ b ∈ tree_inputs k l2 /\ collision a b.

(** Full trees with the same root have the same leaves, unless they hash two strings that
    collide. *)
Lemma tree_root_inj k P Q :
  length P = (2 ^ k)%nat -> length Q = (2 ^ k)%nat -> Forall wf_hash P -> Forall wf_hash Q ->
  tree_root k P = tree_root k Q -> P = Q \/ trees_collide k P Q.
Proof.
  revert P Q. induction k as [| k IH]; intros P Q HP HQ FP FQ E.
  { cbn in HP, HQ. destruct P as [| p [| ? ?]], Q as [| q [| ? ?]]; try done. cbn in E. left. congruence. }
  rewrite pow2_S in *. pose proof (pow2_pos k).
  destruct (split_at (2 ^ k) P ltac:(lia)) as (P0 & P1 & -> & HP0), (split_at (2 ^ k) Q ltac:(lia)) as (Q0 & Q1 & -> & HQ0).
  rewrite length_app in *. apply Forall_app in FP as [FP0 FP1]. apply Forall_app in FQ as [FQ0 FQ1]. unfold trees_collide in *.
  rewrite !tree_inputs_halves by lia. rewrite !tree_root_halves in E by lia.
  destruct (Hash_2_inj _ _ _ _ (tree_root_wf k P0 ltac:(lia) FP0) (tree_root_wf k P1 ltac:(lia) FP1) (tree_root_wf k Q0 ltac:(lia) FQ0)
    (tree_root_wf k Q1 ltac:(lia) FQ1) E) as [[E0 E1] | Hc]; [| right; set_solver].
  destruct (IH P0 Q0 HP0 HQ0 FP0 FQ0 E0) as [-> | ?]; [| right; set_solver].
  destruct (IH P1 Q1 ltac:(lia) ltac:(lia) FP1 FQ1 E1) as [-> | ?]; [by left | right; set_solver].
Qed.

Lemma Forall_pad k l : (0 < length l)%nat -> Forall wf_hash l -> Forall wf_hash (pad k l).
Proof.
  revert l. induction k as [| k IH]; intros l Hl Hf; [done |]. cbn [pad]. case_match eqn:E.
  - apply Forall_app. split; by apply IH.
  - apply Nat.leb_gt in E. apply Forall_app. split; [by apply Forall_take |]. apply IH; [rewrite length_drop; lia | by apply Forall_drop].
Qed.

Lemma tree_height_bound n : (0 < n)%nat -> (n <= 2 ^ tree_height n)%nat.
Proof. intros Hn. destruct (tree_height_cases n Hn) as [E | (k & E & Hk)]; [lia | rewrite E; lia]. Qed.

(** ** Theorems *)

(** C27. The constant-space computation of the Merkle root ends with the root of the
    tree in which an odd last node is paired with itself, and flags exactly the
    lists in which two complete sibling subtrees have the same root. *)
Theorem ComputeMerkleRoot_spec l :
  0 < Zlen l < 2 ^ 31 ->
  ComputeMerkleRoot l = Ret (tree_root (tree_height (length l)) l, tree_mutated (tree_height (length l)) l).
Proof. intros Hl. unfold ComputeMerkleRoot. by rewrite MerkleComputation_run. Qed.

Lemma ComputeMerkleRoot_spec_witness :
  ComputeMerkleRoot [[1]; [2]; [3]] = Ret (Hash_2 (Hash_2 [1] [2]) (Hash_2 [3] [3]), false).
Proof. exact (ComputeMerkleRoot_spec [[1]; [2]; [3]] (conj eq_refl eq_refl)). Defined.

(** Branches are sound: folding the branch computed for a position into the leaf
    at that position gives the Merkle root of the list. *)
Theorem ComputeMerkleBranch_sound l pos leaf :
  0 <= pos -> l !! Z.to_nat pos = Some leaf -> Zlen l < 2 ^ 31 ->
  exists branch root mutated, ComputeMerkleBranch l pos = Ret branch /\ ComputeMerkleRoot l = Ret (root, mutated) /\
    ComputeMerkleRootFromBranch leaf branch pos = root.
Proof.
  intros Hpos Hleaf Hl. apply lookup_lt_Some in Hleaf as Hlt. assert (Hp : 0 < Zlen l) by (unfold Zlen; lia).
  eexists _, _, _. unfold ComputeMerkleBranch, ComputeMerkleRoot. rewrite !MerkleComputation_run by done. cbn [obind default].
  rewrite decide_True by (unfold Zlen; lia). split; [done |]. split; [done |].
  pose proof (tree_branch_sound (tree_height (length l)) l (Z.to_nat pos) leaf 0 ltac:(apply tree_height_bound; lia) Hleaf ltac:(lia)) as H.
  rewrite Z2Nat.id, Z.mul_0_l, Z.add_0_r in H by lia. exact H.
Qed.

Lemma ComputeMerkleBranch_sound_witness :
  exists branch root mutated, ComputeMerkleBranch [[1]; [2]; [3]] 1 = Ret branch /\ ComputeMerkleRoot [[1]; [2]; [3]] = Ret (root, mutated) /\
    ComputeMerkleRootFromBranch [2] branch 1 = root.
Proof.
  apply (ComputeMerkleBranch_sound [[1]; [2]; [3]] 1 [2]).
  - discriminate.
  - reflexivity.
  - reflexivity.
Defined.

(** C28. The Merkle root binds the leaves: two lists of hashes whose trees have the
    same height and the same root, and of which neither is flagged as mutated, are
    equal, unless there is a collision of double SHA-256 between a string hashed for the
    first tree and one hashed for the second. Repeating trailing leaves is the only other
    way to keep the root, and the flag catches all of it. *)
Theorem ComputeMerkleRoot_binding l1 l2 root :
  0 < Zlen l1 < 2 ^ 31 -> 0 < Zlen l2 < 2 ^ 31 -> Forall wf_hash l1 -> Forall wf_hash l2 ->
  tree_height (length l1) = tree_height (length l2) ->
  ComputeMerkleRoot l1 = Ret (root, false) -> ComputeMerkleRoot l2 = Ret (root, false) ->
  l1 = l2 \/ trees_collide (tree_height (length l1)) l1 l2.
Proof.
  intros H1 H2 F1 F2 Hh R1 R2. unfold ComputeMerkleRoot in *. rewrite MerkleComputation_run in * by done. cbn [obind] in *.
  assert (L1 : (0 < length l1)%nat) by (unfold Zlen in *; lia). assert (L2 : (0 < length l2)%nat) by (unfold Zlen in *; lia).
  pose proof (tree_height_bound _ L1). pose proof (tree_height_bound _ L2). rewrite <- Hh in *.
  set (k := tree_height (length l1)) in *. injection R1 as E1 M1. injection R2 as E2 M2.
  destruct (tree_root_inj k (pad k l1) (pad k l2)) as [Hp | (a & b & Ha & Hb & Hc)];
    [by apply length_pad | by apply length_pad | by apply Forall_pad | by apply Forall_pad | | left | right].
  { rewrite !tree_root_pad by lia. congruence. }
  2: { exists a, b. split; [by apply (tree_inputs_pad k l1 ltac:(lia)) |]. by split; [apply (tree_inputs_pad k l2 ltac:(lia)) |]. }
  destruct (lt_eq_lt_dec (length l1) (length l2)) as [[Hlt | Heq] | Hgt].
  - rewrite (pad_mutated k l1 l2) in M2 by (done || lia). done.
  - rewrite <- (take_pad k l1), <- (take_pad k l2), Heq, Hp by lia. done.
  - rewrite (pad_mutated k l2 l1) in M1 by (done || lia). done.
Qed.

Lemma ComputeMerkleRoot_binding_witness :
  [replicate 32 1; replicate 32 2] = [replicate 32 1; replicate 32 2] \/
  trees_collide 1 [replicate 32 1; replicate 32 2] [replicate 32 1; replicate 32 2].
Proof.
  apply (ComputeMerkleRoot_binding [replicate 32 1; replicate 32 2] [replicate 32 1; replicate 32 2] (Hash_2 (replicate 32 1) (replicate 32 2))).
  - split; reflexivity.
  - split; reflexivity.
  - repeat constructor; discriminate.
  - repeat constructor; discriminate.
  - reflexivity.
  - reflexivity.
  - reflexivity.
Defined.
