(* ===== verification/MerkleBlock.v ===== *)
(** * Partial Merkle trees

    [src/merkleblock.h] and [merkleblock.cpp]: the proof that transactions are in a
    block, and the limits of [src/consensus/consensus.h] that it uses. *)

From S2P Require Import Prelude Serialize Hash Transaction Block Merkle.

Open Scope outcome_scope.

(** ** Limits *)

(** [MaxBlockSize]; [UB_FORK_BLOCK_NUM] is a parameter of the network. *)
Definition MaxBlockSize (UB_FORK_BLOCK_NUM nblock : Z) : Z :=
  if nblock <? UB_FORK_BLOCK_NUM then 4000 * 1000 else 32 * 1000 * 1000.

Definition WITNESS_SCALE_FACTOR : Z := 4.

Definition MIN_TRANSACTION_WEIGHT : Z := WITNESS_SCALE_FACTOR * 60.

(** ** The tree *)

Record CPartialMerkleTree := PartialMerkleTree {
  nTransactions : Z;
  vBits : list bool;
  vHash : list (list Z);
  fBad : bool
}.

Definition CalcTreeWidth (nTransactions : Z) (height : nat) : Z :=
  Z.shiftr (uint32 (nTransactions + uint32 (Z.shiftl 1 (Z.of_nat height)) - 1)) (Z.of_nat height).

Fixpoint CalcHash (nTransactions : Z) (height : nat) (pos : Z) (vTxid : list (list Z)) : outcome (list Z) :=
  let? _ := cassert (negb (Zlen vTxid =? 0)) in
  match height with
  | O => index vTxid pos
  | S height =>
    let? hleft := CalcHash nTransactions height (uint32 (pos * 2)) vTxid in
    let? hright := if uint32 (pos * 2 + 1) <? CalcTreeWidth nTransactions height
                  then CalcHash nTransactions height (uint32 (pos * 2 + 1)) vTxid else Ret hleft in
    Ret (Hash_2 hleft hright)
  end.

(** The loop over the leaves [p] up to [last] below a node. *)
Fixpoint parent_of_match (fuel : nat) (vMatch : list bool) (p last : Z) (fParentOfMatch : bool) : outcome bool :=
  if p <? last then
    match fuel with
    | O => Undef
    | S fuel => let? m := index vMatch p in parent_of_match fuel vMatch (p + 1) last (fParentOfMatch || m)
    end
  else Ret fParentOfMatch.

Fixpoint TraverseAndBuild (nTransactions : Z) (height : nat) (pos : Z) (vTxid : list (list Z)) (vMatch : list bool)
  (vBits : list bool) (vHash : list (list Z)) : outcome (list bool * list (list Z)) :=
  let first := uint32 (Z.shiftl pos (Z.of_nat height)) in
  let last := Z.min (uint32 (Z.shiftl (pos + 1) (Z.of_nat height))) nTransactions in
  let? fParentOfMatch := parent_of_match (Z.to_nat (last - first)) vMatch first last false in
  let vBits := vBits ++ [fParentOfMatch] in
  match height, fParentOfMatch with
  | S height, true =>
    let? (vBits, vHash) := TraverseAndBuild nTransactions height (uint32 (pos * 2)) vTxid vMatch vBits vHash in
    if uint32 (pos * 2 + 1) <? CalcTreeWidth nTransactions height
    then TraverseAndBuild nTransactions height (uint32 (pos * 2 + 1)) vTxid vMatch vBits vHash
    else Ret (vBits, vHash)
  | _, _ => let? h := CalcHash nTransactions height pos vTxid in Ret (vBits, vHash ++ [h])
  end.

(** [while (CalcTreeWidth(nHeight) > 1) nHeight++]; a shift by 31 or more of the
    [int] is undefined. *)
Fixpoint calc_height (fuel : nat) (nTransactions : Z) (nHeight : nat) : outcome nat :=
  match fuel with
  | O => Undef
  | S fuel => if CalcTreeWidth nTransactions nHeight >? 1 then calc_height fuel nTransactions (S nHeight) else Ret nHeight
  end.

(** [CPartialMerkleTree(vTxid, vMatch)] *)
Definition CPartialMerkleTree_of (vTxid : list (list Z)) (vMatch : list bool) : outcome CPartialMerkleTree :=
  let n := uint32 (Zlen vTxid) in
  let? nHeight := calc_height 31 n 0 in
  let? (bits, hashes) := TraverseAndBuild n nHeight 0 vTxid vMatch [] [] in
  Ret (PartialMerkleTree n bits hashes false).

(** What the extraction updates. *)
Record extraction := Extraction {
  nBitsUsed : Z;
  nHashUsed : Z;
  e_vMatch : list (list Z);
  e_vnIndex : list Z;
  e_fBad : bool
}.

Definition set_bad (e : extraction) : extraction := Extraction (nBitsUsed e) (nHashUsed e) (e_vMatch e) (e_vnIndex e) true.

Fixpoint TraverseAndExtract (t : CPartialMerkleTree) (height : nat) (pos : Z) (e : extraction) : outcome (list Z * extraction) :=
  if nBitsUsed e >=? Zlen (vBits t) then Ret (uint256_null, set_bad e)
  else
    let? fParentOfMatch := index (vBits t) (nBitsUsed e) in
    let e := Extraction (uint32 (nBitsUsed e + 1)) (nHashUsed e) (e_vMatch e) (e_vnIndex e) (e_fBad e) in
    match height, fParentOfMatch with
    | S height, true =>
      let? (hleft, e) := TraverseAndExtract t height (uint32 (pos * 2)) e in
      if uint32 (pos * 2 + 1) <? CalcTreeWidth (nTransactions t) height then
        let? (hright, e) := TraverseAndExtract t height (uint32 (pos * 2 + 1)) e in
        Ret (Hash_2 hleft hright, if bool_decide (hright = hleft) then set_bad e else e)
      else Ret (Hash_2 hleft hleft, e)
    | _, _ =>
      if nHashUsed e >=? Zlen (vHash t) then Ret (uint256_null, set_bad e)
      else
        let? hash := index (vHash t) (nHashUsed e) in
        let matched := fParentOfMatch && bool_decide (height = 0%nat) in
        Ret (hash, Extraction (nBitsUsed e) (uint32 (nHashUsed e + 1))
                     (if matched then e_vMatch e ++ [hash] else e_vMatch e)
                     (if matched then e_vnIndex e ++ [pos] else e_vnIndex e) (e_fBad e))
    end.

(** The root, or a null hash for a bad tree, the matches and their indices, and the
    tree with its flag. *)
Definition ExtractMatches (UB_FORK_BLOCK_NUM : Z) (t : CPartialMerkleTree) (vnIndex : list Z)
  : outcome (list Z * list (list Z) * list Z * CPartialMerkleTree) :=
  let bad := Ret (uint256_null, [], vnIndex, t) in
  if nTransactions t =? 0 then bad
  else if nTransactions t >? MaxBlockSize UB_FORK_BLOCK_NUM (2 ^ 64 - 1) / MIN_TRANSACTION_WEIGHT then bad
  else if Zlen (vHash t) >? nTransactions t then bad
  else if Zlen (vBits t) <? Zlen (vHash t) then bad
  else
    let? nHeight := calc_height 31 (nTransactions t) 0 in
    let? (hashMerkleRoot, e) := TraverseAndExtract t nHeight 0 (Extraction 0 0 [] vnIndex (fBad t)) in
    let t := PartialMerkleTree (nTransactions t) (vBits t) (vHash t) (e_fBad e) in
    let failed := Ret (uint256_null, e_vMatch e, e_vnIndex e, t) in
    if e_fBad e then failed
    else if negb (uint32 (nBitsUsed e + 7) / 8 =? (Zlen (vBits t) + 7) / 8) then failed
    else if negb (nHashUsed e =? Zlen (vHash t)) then failed
    else Ret (hashMerkleRoot, e_vMatch e, e_vnIndex e, t).
