(* ===== verification/MerkleBlockProps.v ===== *)
(** * Partial Merkle trees prove inclusion

    A partial tree that yields the Merkle root of a block yields only transactions
    of the block, and the partial tree built for a selection yields the root and
    the selection. *)

From stdpp Require Import sets.
From S2P Require Import Prelude Serialize Hash Transaction Block Merkle MerkleProps MerkleBlock.

Open Scope outcome_scope.

#[local] Opaque Hash_2.

(** ** Widths and blocks *)

Lemma pow2_Z k : Z.of_nat (2 ^ k) = 2 ^ Z.of_nat k.
Proof. by rewrite Nat2Z.inj_pow. Qed.

Lemma pow2_bound k : (k <= 31)%nat -> 1 <= 2 ^ Z.of_nat k <= 2 ^ 31.
Proof. intros Hk. split; [pose proof (Z.pow_pos_nonneg 2 (Z.of_nat k)); lia | apply Z.pow_le_mono_r; lia]. Qed.

(** Node [pos] of a level exists when its first leaf does. *)
Lemma width_spec n k pos : 0 < n <= 2 ^ 31 -> (k <= 31)%nat -> 0 <= pos -> (pos <? CalcTreeWidth n k) = (pos * 2 ^ Z.of_nat k <? n).
Proof.
  intros Hn Hk Hpos. pose proof (pow2_bound k Hk) as Hp. unfold CalcTreeWidth. rewrite Z.shiftl_1_l, Z.shiftr_div_pow2 by lia.
  rewrite (uint32_id (2 ^ Z.of_nat k)), uint32_id by lia. set (w := 2 ^ Z.of_nat k) in *.
  pose proof (Z.div_mod (n + w - 1) w ltac:(lia)). pose proof (Z.mod_pos_bound (n + w - 1) w ltac:(lia)).
  destruct (Z.ltb_spec pos ((n + w - 1) / w)), (Z.ltb_spec (pos * w) n); nia.
Qed.

Lemma calc_height_run n fuel k :
  (0 < n)%nat -> Z.of_nat n <= 2 ^ 30 -> (k <= tree_height n)%nat -> (tree_height n < k + fuel)%nat -> (k + fuel <= 31)%nat ->
  calc_height fuel (Z.of_nat n) k = Ret (tree_height n).
Proof.
  intros Hn Hn30. revert k. induction fuel as [| fuel IH]; intros k Hk Hf H31; [lia |]. cbn [calc_height].
  rewrite Z.gtb_ltb, (width_spec (Z.of_nat n) k 1) by lia. rewrite Z.mul_1_l, <- pow2_Z.
  destruct (tree_height_cases n Hn) as [E | (j & E & Hj)].
  - destruct (Z.ltb_spec (Z.of_nat (2 ^ k)) (Z.of_nat n)) as [Hlt | Hge].
    + apply IH; [| lia | lia]. assert (2 ^ k < 2 ^ tree_height n)%nat as Hlt' by lia. apply Nat.pow_lt_mono_r_iff in Hlt'; lia.
    + f_equal. assert (2 ^ tree_height n <= 2 ^ k)%nat as Hle by lia. apply Nat.pow_le_mono_r_iff in Hle; lia.
  - destruct (Z.ltb_spec (Z.of_nat (2 ^ k)) (Z.of_nat n)) as [Hlt | Hge].
    + apply IH; [| lia | lia]. rewrite E. assert (2 ^ k < 2 ^ S j)%nat as Hlt' by lia. apply Nat.pow_lt_mono_r_iff in Hlt'; lia.
    + rewrite E in *. f_equal. assert (2 ^ j < 2 ^ k)%nat as Hle by lia. apply Nat.pow_lt_mono_r_iff in Hle; lia.
Qed.

Section Tree.
Context (l : list (list Z)) (Hl : 0 < Zlen l <= 2 ^ 30).

(** The leaves below node [pos] at height [k]. *)
Definition block (k pos : nat) : list (list Z) := take (2 ^ k) (drop (pos * 2 ^ k) l).

Lemma block_0 pos x : l !! pos = Some x -> block 0 pos = [x].
Proof.
  intros Hx. unfold block. cbn [Nat.pow]. rewrite Nat.mul_1_r. apply take_drop_middle in Hx as E. apply lookup_lt_Some in Hx as Hlt.
  rewrite <- E at 1. rewrite drop_app_ge by (rewrite length_take; lia). rewrite length_take. replace (pos - pos `min` length l)%nat with 0%nat by lia. done.
Qed.

Lemma block_length k pos : (pos * 2 ^ k < length l)%nat -> (0 < length (block k pos) <= 2 ^ k)%nat.
Proof. intros H. unfold block. rewrite length_take, length_drop. pose proof (pow2_pos k). lia. Qed.

(** The children of a node. *)
Lemma block_both k pos :
  ((2 * pos + 1) * 2 ^ k < length l)%nat ->
  block (S k) pos = block k (2 * pos) ++ block k (2 * pos + 1) /\ length (block k (2 * pos)) = (2 ^ k)%nat /\ (0 < length (block k (2 * pos + 1)))%nat.
Proof.
  intros H. pose proof (pow2_pos k). unfold block. rewrite pow2_S, !length_take, !length_drop. generalize dependent (2 ^ k)%nat. intros w H Hw.
  split; [| split; nia]. replace (pos * (w + w))%nat with (2 * pos * w)%nat by nia. replace ((2 * pos + 1) * w)%nat with (2 * pos * w + w)%nat by nia.
  rewrite <- drop_drop. set (d := drop (2 * pos * w) l). rewrite <- (take_drop w (take (w + w) d)).
  rewrite take_take, take_drop_commute. do 2 f_equal; lia.
Qed.

Lemma block_left k pos : (length l <= (2 * pos + 1) * 2 ^ k)%nat -> block (S k) pos = block k (2 * pos).
Proof.
  intros H. unfold block. rewrite pow2_S. generalize dependent (2 ^ k)%nat. intros w H.
  replace (pos * (w + w))%nat with (2 * pos * w)%nat by nia. rewrite !take_ge by (rewrite length_drop; nia). done.
Qed.

Lemma root_both k pos :
  ((2 * pos + 1) * 2 ^ k < length l)%nat ->
  tree_root (S k) (block (S k) pos) = Hash_2 (tree_root k (block k (2 * pos))) (tree_root k (block k (2 * pos + 1))).
Proof. intros H. destruct (block_both k pos H) as (-> & H1 & H2). by apply tree_root_halves. Qed.

Lemma root_left k pos :
  (pos * 2 ^ S k < length l)%nat -> (length l <= (2 * pos + 1) * 2 ^ k)%nat ->
  tree_root (S k) (block (S k) pos) = Hash_2 (tree_root k (block k (2 * pos))) (tree_root k (block k (2 * pos))).
Proof.
  intros H1 H2. rewrite (block_left k pos H2). apply tree_root_short. rewrite pow2_S in H1. pose proof (block_length k (2 * pos)). lia.
Qed.

(** The test for a right child, and the positions of the children. *)
Lemma right_child k pos :
  (k < 31)%nat -> (pos * 2 ^ S k < length l)%nat ->
  uint32 (Z.of_nat pos * 2) = Z.of_nat (2 * pos) /\ uint32 (Z.of_nat pos * 2 + 1) = Z.of_nat (2 * pos + 1) /\
  (uint32 (Z.of_nat pos * 2 + 1) <? CalcTreeWidth (Zlen l) k) = ((2 * pos + 1) * 2 ^ k <? length l)%nat.
Proof.
  intros Hk Hp. rewrite pow2_S in Hp. pose proof (pow2_pos k). unfold Zlen in Hl.
  rewrite !uint32_id by nia. split; [lia |]. split; [lia |]. rewrite width_spec by (unfold Zlen; lia). unfold Zlen. rewrite <- pow2_Z.
  destruct (Z.ltb_spec ((Z.of_nat pos * 2 + 1) * Z.of_nat (2 ^ k)) (Z.of_nat (length l))), (Nat.ltb_spec ((2 * pos + 1) * 2 ^ k) (length l)); nia.
Qed.

Lemma CalcHash_run k pos :
  (k <= 31)%nat -> (pos * 2 ^ k < length l)%nat -> CalcHash (Zlen l) k (Z.of_nat pos) l = Ret (tree_root k (block k pos)).
Proof.
  revert pos. induction k as [| k IH]; intros pos Hk Hp; cbn [CalcHash]; rewrite (proj2 (Z.eqb_neq (Zlen l) 0)) by lia; cbn [negb cassert obind].
  - cbn in Hp. destruct (lookup_lt_is_Some_2 l pos ltac:(lia)) as [x Hx]. rewrite (block_0 pos x Hx). unfold index.
    rewrite (proj2 (Z.ltb_ge _ 0)), Nat2Z.id, Hx by lia. done.
  - destruct (right_child k pos ltac:(lia) Hp) as (E1 & E2 & E3). rewrite E3, E1, E2. rewrite pow2_S in Hp. rewrite IH by lia. cbn [obind].
    destruct (Nat.ltb_spec ((2 * pos + 1) * 2 ^ k) (length l)) as [Hlt | Hge].
    + rewrite IH by lia. cbn [obind]. by rewrite root_both.
    + cbn [obind]. rewrite root_left; [done | rewrite pow2_S; lia | lia].
Qed.

(** ** Soundness *)

Lemma block_ok k pos : Forall wf_hash l -> Forall wf_hash (block k pos).
Proof. intros H. by apply Forall_take, Forall_drop. Qed.

(** The matches [ms] at the indices [js] are leaves. *)
Definition leaves_at (ms : list (list Z)) (js : list Z) : Prop := Forall2 (fun h i => 0 <= i /\ l !! Z.to_nat i = Some h) ms js.

(** The flag stays set. *)
Lemma Extract_bad t k pos e r e' : TraverseAndExtract t k pos e = Ret (r, e') -> e_fBad e = true -> e_fBad e' = true.
Proof.
  revert pos e r e'. induction k as [| k IH]; intros pos e r e'; cbn [TraverseAndExtract]; (destruct (_ >=? _); [by intros [= <- <-] |]);
    (destruct (index (vBits t) _) as [b | | |]; [| done..]); cbn [obind nBitsUsed nHashUsed e_vMatch e_vnIndex e_fBad].
  - destruct (_ >=? _); [by intros [= <- <-] |]. destruct (index _ _); [| done..]. cbn [obind]. by intros [= <- <-].
  - destruct b.
    + destruct (TraverseAndExtract t k _ _) as [[h1 e1] | | |] eqn:E1; [| done..]. cbn [obind]. intros H Hb. apply IH in E1; [| done].
      destruct (_ <? _); [| by injection H as <- <-]. destruct (TraverseAndExtract t k _ e1) as [[h2 e2] | | |] eqn:E2; [| done..]. cbn [obind] in H.
      apply IH in E2; [| done]. injection H as <- <-. by case_bool_decide.
    + destruct (_ >=? _); [by intros [= <- <-] |]. destruct (index _ _); [| done..]. cbn [obind]. by intros [= <- <-].
Qed.

(** The strings that the extraction hashes. *)
Fixpoint extract_inputs (t : CPartialMerkleTree) (height : nat) (pos : Z) (e : extraction) : list (list Z) :=
  match height with
  | O => []
  | S height =>
    match (if nBitsUsed e >=? Zlen (vBits t) then Ret false else index (vBits t) (nBitsUsed e)) with
    | Ret true =>
      let e := Extraction (uint32 (nBitsUsed e + 1)) (nHashUsed e) (e_vMatch e) (e_vnIndex e) (e_fBad e) in
      extract_inputs t height (uint32 (pos * 2)) e ++
      match TraverseAndExtract t height (uint32 (pos * 2)) e with
      | Ret (hleft, e) =>
        if uint32 (pos * 2 + 1) <? CalcTreeWidth (nTransactions t) height then
          extract_inputs t height (uint32 (pos * 2 + 1)) e ++
          match TraverseAndExtract t height (uint32 (pos * 2 + 1)) e with Ret (hright, _) => [hleft ++ hright] | _ => [] end
        else [hleft ++ hleft]
      | _ => []
      end
    | _ => []
    end
  end.

Lemma null_wf : wf_hash uint256_null.
Proof. split; [bytes_closed | done]. Qed.

#[local] Hint Resolve null_wf : core.

(** Extracted values are hashes. *)
Lemma Extract_wf t k pos e r e' :
  Forall wf_hash (vHash t) -> TraverseAndExtract t k pos e = Ret (r, e') -> wf_hash r.
Proof.
  intros Ht. assert (Hi : forall j h, index (vHash t) j = Ret h -> wf_hash h).
  { intros j h. unfold index. case_match; [done |]. case_match eqn:E; [| done]. intros [= <-]. by eapply Forall_lookup_1. }
  destruct k as [| k]; cbn [TraverseAndExtract]; (destruct (_ >=? _); [by intros [= <- <-] |]);
    (destruct (index (vBits t) _) as [b | | |]; [| done..]); cbn [obind nBitsUsed nHashUsed e_vMatch e_vnIndex e_fBad].
  - destruct (_ >=? _); [by intros [= <- <-] |]. destruct (index (vHash t) _) eqn:E; [| done..]. cbn [obind]. intros [= <- <-]. by eapply Hi.
  - destruct b.
    + destruct (TraverseAndExtract t k _ _) as [[h1 e1] | | |]; [| done..]. cbn [obind]. destruct (_ <? _); [| intros [= <- <-]; apply Hash_2_wf].
      destruct (TraverseAndExtract t k _ e1) as [[h2 e2] | | |]; [| done..]. cbn [obind]. intros [= <- <-]. apply Hash_2_wf.
    + destruct (_ >=? _); [by intros [= <- <-] |]. destruct (index (vHash t) _) eqn:E; [| done..]. cbn [obind]. intros [= <- <-]. by eapply Hi.
Qed.

Lemma Extract_sound t k pos e r e' :
  Forall wf_hash l -> Forall wf_hash (vHash t) -> nTransactions t = Zlen l -> (k <= 31)%nat -> (pos * 2 ^ k < length l)%nat ->
  TraverseAndExtract t k (Z.of_nat pos) e = Ret (r, e') -> e_fBad e' = false -> r = tree_root k (block k pos) ->
  (exists ms js, e_vMatch e' = e_vMatch e ++ ms /\ e_vnIndex e' = e_vnIndex e ++ js /\ leaves_at ms js) \/
  exists x y, x ∈ extract_inputs t k (Z.of_nat pos) e /\ y ∈ tree_inputs k (block k pos) /\ collision x y.
Proof.
  intros Hlo Ht Hn. revert pos e r e'. induction k as [| k IH]; intros pos e r e' Hk Hp HE Hb Hr.
  - cbn [TraverseAndExtract] in HE. destruct (_ >=? _); [by injection HE as <- <- |].
    destruct (index (vBits t) _) as [b | | |]; [| done..]. cbn [obind nBitsUsed nHashUsed e_vMatch e_vnIndex e_fBad] in HE.
    destruct (_ >=? _); [by injection HE as <- <- |]. destruct (index (vHash t) _) as [h | | |]; [| done..]. cbn [obind] in HE.
    rewrite (bool_decide_eq_true_2 (0%nat = 0%nat)), andb_true_r in HE by done. injection HE as -> <-. left. cbn [e_vMatch e_vnIndex]. destruct b.
    + exists [r], [Z.of_nat pos]. split; [done |]. split; [done |]. constructor; [| constructor]. split; [lia |]. rewrite Nat2Z.id. cbn in Hp.
      destruct (lookup_lt_is_Some_2 l pos ltac:(lia)) as [x Hx]. rewrite (block_0 pos x Hx) in Hr. cbn in Hr. by subst r.
    + exists [], []. rewrite !app_nil_r. split; [done |]. split; [done | constructor].
  - cbn [TraverseAndExtract] in HE. cbn [extract_inputs]. destruct (_ >=? _); [by injection HE as <- <- |].
    destruct (index (vBits t) _) as [b | | |]; [| done..]. cbn [obind nBitsUsed nHashUsed e_vMatch e_vnIndex e_fBad] in HE. destruct b.
    2: { destruct (_ >=? _); [by injection HE as <- <- |]. destruct (index (vHash t) _) as [h | | |]; [| done..]. cbn [obind andb] in HE.
         injection HE as -> <-. left. exists [], []. cbn. rewrite !app_nil_r. split; [done |]. split; [done | constructor]. }
    destruct (right_child k pos ltac:(lia) Hp) as (E1 & E2 & E3). rewrite Hn, E3, E1, E2 in HE |- *. pose proof Hp as Hp'. rewrite pow2_S in Hp'.
    cbv iota zeta. destruct (TraverseAndExtract t k (Z.of_nat (2 * pos)) _) as [[h1 e1] | | |] eqn:X1; [| done..]. cbn [obind] in HE.
    pose proof (Extract_wf _ _ _ _ _ _ Ht X1) as L1.
    assert (B0 : wf_hash (tree_root k (block k (2 * pos)))) by (apply tree_root_wf; [apply block_length; lia | by apply block_ok]).
    destruct (Nat.ltb_spec ((2 * pos + 1) * 2 ^ k) (length l)) as [Hlt | Hge].
    + destruct (TraverseAndExtract t k (Z.of_nat (2 * pos + 1)) e1) as [[h2 e2] | | |] eqn:X2; [| done..]. cbn [obind] in HE. injection HE as <- <-.
      rewrite root_both in Hr by done. case_bool_decide; [done |]. pose proof (Extract_wf _ _ _ _ _ _ Ht X2) as L2.
      assert (B1 : wf_hash (tree_root k (block k (2 * pos + 1)))) by (apply tree_root_wf; [apply block_length; lia | by apply block_ok]).
      assert (Hb1 : e_fBad e1 = false) by (destruct (e_fBad e1) eqn:Eb; [by rewrite (Extract_bad _ _ _ _ _ _ X2 Eb) in Hb | done]).
      destruct (block_both k pos Hlt) as (-> & W1 & W2). rewrite tree_inputs_halves by lia.
      destruct (Hash_2_inj h1 h2 _ _ L1 L2 B0 B1 Hr) as [[Q1 Q2] | ?]; [| right; eexists _, _; split; [| split; [| eassumption]]; set_solver].
      destruct (IH (2 * pos)%nat _ h1 e1 ltac:(lia) ltac:(lia) X1 Hb1 Q1) as [(ms1 & js1 & M1 & J1 & F1) | (x & y & ?)]; [| right; exists x, y; set_solver].
      destruct (IH (2 * pos + 1)%nat _ h2 e2 ltac:(lia) ltac:(lia) X2 Hb Q2) as [(ms2 & js2 & M2 & J2 & F2) | (x & y & ?)]; [| right; exists x, y; set_solver].
      left. exists (ms1 ++ ms2), (js1 ++ js2). cbn [e_vMatch e_vnIndex] in *. rewrite M2, M1, J2, J1, <- !app_assoc. split; [done |]. split; [done | by apply Forall2_app].
    + cbn [obind] in HE. injection HE as <- <-. rewrite root_left in Hr by done. pose proof (block_length k (2 * pos) ltac:(lia)).
      rewrite (block_left k pos Hge), tree_inputs_short by lia. destruct (Hash_2_inj h1 h1 _ _ L1 L1 B0 B0 Hr) as [[Q1 _] | ?]; [| right; eexists _, _; split; [| split; [| eassumption]]; set_solver].
      destruct (IH (2 * pos)%nat _ h1 e1 ltac:(lia) ltac:(lia) X1 Hb Q1) as [? | (x & y & ?)]; [by left | right; exists x, y; set_solver].
Qed.

(** ** Completeness *)

(** No two siblings have the same hash. *)
Definition no_twins : Prop :=
  forall k pos, ((2 * pos + 1) * 2 ^ k < length l)%nat -> tree_root k (block k (2 * pos)) <> tree_root k (block k (2 * pos + 1)).

Context (m : list bool) (Hm : length m = length l) (Htw : no_twins).

(** The selected leaves among [len] from [first] on. *)
Definition sel (first len : nat) : list nat := filter (fun i => m !! i = Some true) (seq first len).

Definition sel_hashes (first len : nat) : list (list Z) := (fun i => default [] (l !! i)) <$> sel first len.

Definition sel_indices (first len : nat) : list Z := Z.of_nat <$> sel first len.

Lemma sel_app first a b : sel first (a + b) = sel first a ++ sel (first + a) b.
Proof. unfold sel. by rewrite seq_app, list.filter_app. Qed.

Lemma sel_1 p : sel p 1 = if decide (m !! p = Some true) then [p] else [].
Proof. unfold sel. cbn [seq]. by destruct (decide (m !! p = Some true)) eqn:E; cbn; rewrite E. Qed.

Lemma parent_of_match_run fuel p len acc :
  (p + len <= length m)%nat -> (len <= fuel)%nat ->
  parent_of_match fuel m (Z.of_nat p) (Z.of_nat (p + len)) acc = Ret (acc || negb (bool_decide (sel p len = []))).
Proof.
  revert p len acc. induction fuel as [| fuel IH]; intros p len acc Hp Hf.
  { replace len with 0%nat in * by lia. cbn [parent_of_match]. rewrite Nat.add_0_r, Z.ltb_irrefl. cbn. by rewrite orb_false_r. }
  destruct len as [| len]; cbn [parent_of_match].
  { rewrite Nat.add_0_r, Z.ltb_irrefl. cbn. by rewrite orb_false_r. }
  rewrite (proj2 (Z.ltb_lt _ _)) by lia. destruct (lookup_lt_is_Some_2 m p ltac:(lia)) as [b Hb]. unfold index.
  rewrite (proj2 (Z.ltb_ge _ 0)), Nat2Z.id, Hb by lia. cbn [obind]. replace (Z.of_nat p + 1) with (Z.of_nat (S p)) by lia.
  replace (p + S len)%nat with (S p + len)%nat by lia. rewrite IH by lia. f_equal. rewrite <- orb_assoc. f_equal.
  replace (S len) with (1 + len)%nat by lia. rewrite sel_app, sel_1. replace (p + 1)%nat with (S p) by lia. destruct b.
  - rewrite decide_True by done. done.
  - rewrite decide_False by congruence. done.
Qed.

(** The end of the leaves below a node. *)
Lemma block_end k pos :
  (k <= 31)%nat -> (pos * 2 ^ k < length l)%nat ->
  uint32 (Z.shiftl (Z.of_nat pos) (Z.of_nat k)) = Z.of_nat (pos * 2 ^ k) /\
  Z.min (uint32 (Z.shiftl (Z.of_nat pos + 1) (Z.of_nat k))) (Zlen l) = Z.of_nat (pos * 2 ^ k + length (block k pos)).
Proof.
  intros Hk Hp. unfold block. rewrite length_take, length_drop, !Z.shiftl_mul_pow2, <- pow2_Z by lia. unfold Zlen in *.
  pose proof (pow2_bound k Hk) as Hb. rewrite <- pow2_Z in Hb. split; [rewrite uint32_id; nia |].
  rewrite uint32_id by nia. nia.
Qed.

(** A flag read at its place. *)
Lemma index_middle {A} (pre post : list A) x : index (pre ++ x :: post) (Zlen pre) = Ret x.
Proof.
  unfold index, Zlen. rewrite (proj2 (Z.ltb_ge _ 0)), Nat2Z.id by lia. rewrite lookup_app_r, Nat.sub_diag by lia. done.
Qed.

Lemma Zlen_middle {A} (pre post : list A) x : (Zlen pre >=? Zlen (pre ++ x :: post)) = false.
Proof. rewrite Zlen_app, Zlen_cons. pose proof (Zlen_nonneg post). rewrite Z.geb_leb. apply Z.leb_gt. lia. Qed.

(** The bits and hashes of a node, wherever they are in a partial tree, yield the
    node's hash and its selected leaves. *)
Definition proves (k pos : nat) (bits : list bool) (hs : list (list Z)) : Prop :=
  forall t e pre post hpre hpost,
  nTransactions t = Zlen l -> vBits t = pre ++ bits ++ post -> vHash t = hpre ++ hs ++ hpost ->
  Zlen (vBits t) < 2 ^ 32 -> Zlen (vHash t) < 2 ^ 32 -> nBitsUsed e = Zlen pre -> nHashUsed e = Zlen hpre ->
  TraverseAndExtract t k (Z.of_nat pos) e =
    Ret (tree_root k (block k pos),
         Extraction (Zlen pre + Zlen bits) (Zlen hpre + Zlen hs)
           (e_vMatch e ++ sel_hashes (pos * 2 ^ k) (length (block k pos)))
           (e_vnIndex e ++ sel_indices (pos * 2 ^ k) (length (block k pos))) (e_fBad e)).

Lemma proves_leaf k pos b :
  (pos * 2 ^ k < length l)%nat -> (k = 0%nat \/ b = false) ->
  b = negb (bool_decide (sel (pos * 2 ^ k) (length (block k pos)) = [])) ->
  proves k pos [b] [tree_root k (block k pos)].
Proof.
  intros Hp Hkb Eb t e pre post hpre hpost Hn Hvb Hvh Lb Lh Nb Nh. cbn [app] in Hvb, Hvh.
  assert (Zb : 0 <= Zlen pre + 1 < 2 ^ 32) by (rewrite Hvb, Zlen_app, Zlen_cons in Lb; pose proof (Zlen_nonneg post); pose proof (Zlen_nonneg pre); lia).
  assert (Zh : 0 <= Zlen hpre + 1 < 2 ^ 32) by (rewrite Hvh, Zlen_app, Zlen_cons in Lh; pose proof (Zlen_nonneg hpost); pose proof (Zlen_nonneg hpre); lia).
  assert (Z1 : forall A (x : A), Zlen [x] = 1) by done.
  assert (Hsel : forall (matched : bool), matched = b && bool_decide (k = 0%nat) ->
    sel_hashes (pos * 2 ^ k) (length (block k pos)) = (if matched then [tree_root k (block k pos)] else []) /\
    sel_indices (pos * 2 ^ k) (length (block k pos)) = (if matched then [Z.of_nat pos] else [])).
  { intros matched ->. unfold sel_hashes, sel_indices. destruct b.
    - destruct Hkb as [-> | ?]; [| done]. cbn in Hp. rewrite Nat.mul_1_r in Hp. destruct (lookup_lt_is_Some_2 l pos Hp) as [x Hx].
      rewrite (block_0 pos x Hx) in *. cbn [length Nat.pow] in *. rewrite Nat.mul_1_r, sel_1 in *. destruct (decide (m !! pos = Some true)); [| done].
      cbn. by rewrite Hx.
    - symmetry in Eb. apply negb_false_iff, bool_decide_eq_true in Eb. rewrite Eb. done. }
  destruct (Hsel _ eq_refl) as [-> ->].
  destruct k as [| k]; cbn [TraverseAndExtract]; rewrite Nb, Hvb, Zlen_middle, index_middle; cbn [obind nBitsUsed nHashUsed e_vMatch e_vnIndex e_fBad];
    rewrite Nh, Hvh, Zlen_middle, index_middle; cbn [obind]; rewrite ?uint32_id by lia; rewrite !Z1.
  - rewrite bool_decide_eq_true_2, andb_true_r by done. by destruct b; rewrite ?app_nil_r.
  - destruct Hkb as [? | ->]; [done |]. cbn [andb]. cbv iota. rewrite !app_nil_r, !uint32_id by lia. done.
Qed.

Lemma proves_node k pos b1 b2 h1 h2 :
  (k < 31)%nat -> ((2 * pos + 1) * 2 ^ k < length l)%nat ->
  proves k (2 * pos) b1 h1 -> proves k (2 * pos + 1) b2 h2 -> proves (S k) pos (true :: b1 ++ b2) (h1 ++ h2).
Proof.
  intros Hk Hlt P1 P2 t e pre post hpre hpost Hn Hvb Hvh Lb Lh Nb Nh.
  assert (Hp : (pos * 2 ^ S k < length l)%nat) by (rewrite pow2_S; nia).
  destruct (right_child k pos Hk Hp) as (E1 & E2 & E3). destruct (block_both k pos Hlt) as (EB & LB & _).
  cbn [TraverseAndExtract]. assert (Zb : 0 <= Zlen pre + 1 < 2 ^ 32).
  { rewrite Hvb, Zlen_app in Lb. cbn [app] in Lb. rewrite Zlen_cons, Zlen_app in Lb. pose proof (Zlen_nonneg (b1 ++ b2)). pose proof (Zlen_nonneg post). pose proof (Zlen_nonneg pre). lia. }
  rewrite Nb. cbn [app] in Hvb. rewrite Hvb, Zlen_middle, index_middle. cbn [obind]. rewrite Hn, E3, E1, E2, uint32_id by lia.
  rewrite (P1 t _ (pre ++ [true]) (b2 ++ post) hpre (h2 ++ hpost)); try done;
    [| by rewrite Hvb, <- !app_assoc | by rewrite Hvh, <- !app_assoc | by rewrite Zlen_app].
  cbn [obind nBitsUsed nHashUsed e_vMatch e_vnIndex e_fBad]. rewrite (proj2 (Nat.ltb_lt _ _) Hlt).
  rewrite (P2 t _ (pre ++ true :: b1) post (hpre ++ h1) hpost); try done.
  - cbn [obind nBitsUsed nHashUsed e_vMatch e_vnIndex e_fBad].
    rewrite bool_decide_eq_false_2 by (intros E; by destruct (Htw k pos Hlt)). rewrite root_both by done. do 2 f_equal.
    rewrite EB, length_app, LB. unfold sel_hashes, sel_indices. rewrite sel_app, !fmap_app, <- !app_assoc, pow2_S.
    replace (pos * (2 ^ k + 2 ^ k))%nat with (2 * pos * 2 ^ k)%nat by lia. replace ((2 * pos + 1) * 2 ^ k)%nat with (2 * pos * 2 ^ k + 2 ^ k)%nat by lia.
    f_equal; rewrite ?Zlen_app, ?Zlen_cons, ?Zlen_app; lia.
  - rewrite Hvb, <- !app_assoc. done.
  - by rewrite Hvh, <- !app_assoc.
  - cbn. rewrite !Zlen_app, !Zlen_cons, Zlen_nil. lia.
  - cbn. by rewrite Zlen_app.
Qed.

Lemma proves_half k pos b h :
  (k < 31)%nat -> (pos * 2 ^ S k < length l)%nat -> (length l <= (2 * pos + 1) * 2 ^ k)%nat ->
  proves k (2 * pos) b h -> proves (S k) pos (true :: b) h.
Proof.
  intros Hk Hp Hge P1 t e pre post hpre hpost Hn Hvb Hvh Lb Lh Nb Nh.
  destruct (right_child k pos Hk Hp) as (E1 & E2 & E3).
  cbn [TraverseAndExtract]. assert (Zb : 0 <= Zlen pre + 1 < 2 ^ 32).
  { rewrite Hvb, Zlen_app in Lb. cbn [app] in Lb. rewrite Zlen_cons, Zlen_app in Lb. pose proof (Zlen_nonneg b). pose proof (Zlen_nonneg post). pose proof (Zlen_nonneg pre). lia. }
  rewrite Nb. cbn [app] in Hvb. rewrite Hvb, Zlen_middle, index_middle. cbn [obind]. rewrite Hn, E3, E1, uint32_id by lia.
  rewrite (P1 t _ (pre ++ [true]) post hpre hpost); try done; [| by rewrite Hvb, <- !app_assoc | by rewrite Zlen_app].
  cbn [obind nBitsUsed nHashUsed e_vMatch e_vnIndex e_fBad]. rewrite (proj2 (Nat.ltb_ge _ _) Hge), root_left by done. do 2 f_equal.
  rewrite (block_left k pos Hge), pow2_S. replace (pos * (2 ^ k + 2 ^ k))%nat with (2 * pos * 2 ^ k)%nat by lia.
  f_equal. rewrite Zlen_app, !Zlen_cons, Zlen_nil. lia.
Qed.

Lemma Build_run k pos vb vh :
  (k <= 31)%nat -> (pos * 2 ^ k < length l)%nat ->
  exists bits hs, TraverseAndBuild (Zlen l) k (Z.of_nat pos) l m vb vh = Ret (vb ++ bits, vh ++ hs) /\ proves k pos bits hs /\
    (0 < length hs <= length (block k pos))%nat /\ (length hs <= length bits)%nat /\ (length bits < 2 ^ S k)%nat.
Proof.
  revert pos vb vh. induction k as [| k IH]; intros pos vb vh Hk Hp; destruct (block_end _ pos Hk Hp) as [E1 E2];
    pose proof (block_length _ pos Hp) as HB; cbn [TraverseAndBuild]; rewrite E1, E2;
    (rewrite parent_of_match_run; [| rewrite Hm; unfold block; rewrite length_take, length_drop; lia | lia]); cbn [obind orb].
  - eexists [_], [_]. rewrite (CalcHash_run 0 pos) by lia. cbn [obind]. split; [done |].
    split; [apply proves_leaf; [done | by left | done] |]. cbn in *. lia.
  - destruct (negb (bool_decide (sel (pos * 2 ^ S k) (length (block (S k) pos)) = []))) eqn:Eb.
    2: { eexists [_], [_]. rewrite (CalcHash_run (S k) pos) by lia. cbn [obind]. split; [done |].
         split; [apply proves_leaf; [done | by right | done] |]. cbn [length]. rewrite !pow2_S. pose proof (pow2_pos k). lia. }
    destruct (right_child k pos ltac:(lia) Hp) as (F1 & F2 & F3). rewrite F3, F1, F2. pose proof Hp as Hp'. rewrite pow2_S in Hp'.
    destruct (IH (2 * pos)%nat (vb ++ [true]) vh) as (b1 & h1 & -> & P1 & L1 & B1 & M1); [lia | lia |]. cbn [obind].
    destruct (Nat.ltb_spec ((2 * pos + 1) * 2 ^ k) (length l)) as [Hlt | Hge].
    + destruct (IH (2 * pos + 1)%nat ((vb ++ [true]) ++ b1) (vh ++ h1)) as (b2 & h2 & -> & P2 & L2 & B2 & M2); [lia | lia |].
      destruct (block_both k pos Hlt) as (-> & _ & _). exists (true :: b1 ++ b2), (h1 ++ h2). rewrite <- !app_assoc. split; [done |].
      split; [by apply proves_node; try lia |]. rewrite (pow2_S (S k)). cbn [length]. rewrite !length_app. lia.
    + rewrite (block_left k pos Hge). exists (true :: b1), h1. rewrite <- !app_assoc. split; [done |].
      split; [by apply proves_half; try lia |]. rewrite (pow2_S (S k)). cbn [length]. pose proof (pow2_pos (S k)). lia.
Qed.
End Tree.

(** The largest number of transactions of a block. *)
Lemma max_transactions fork : fork < 2 ^ 64 -> MaxBlockSize fork (2 ^ 64 - 1) / MIN_TRANSACTION_WEIGHT = 133333.
Proof. intros H. unfold MaxBlockSize. rewrite (proj2 (Z.ltb_ge _ _)) by lia. done. Qed.

Lemma tree_height_le n : (0 < n)%nat -> Z.of_nat n <= 133333 -> (tree_height n <= 18)%nat.
Proof.
  intros Hn H. destruct (le_lt_dec (tree_height n) 18) as [Hle | Hgt]; [done |]. destruct (tree_height_cases n Hn) as [E | (k & E & Hk)].
  - pose proof (Nat.pow_le_mono_r 2 18 (tree_height n) ltac:(lia) ltac:(lia)) as Hp. apply Nat2Z.inj_le in Hp. rewrite pow2_Z in Hp.
    change (2 ^ Z.of_nat 18) with 262144 in Hp. lia.
  - pose proof (Nat.pow_le_mono_r 2 18 k ltac:(lia) ltac:(lia)) as Hp. apply Nat2Z.inj_le in Hp. rewrite pow2_Z in Hp.
    change (2 ^ Z.of_nat 18) with 262144 in Hp. lia.
Qed.

Lemma block_whole l : block l (tree_height (length l)) 0 = l.
Proof.
  unfold block. destruct l as [| x l]; [done |]. rewrite Nat.mul_0_l, drop_0. apply take_ge, tree_height_bound. cbn. lia.
Qed.

(** ** Theorems *)

(** C40. A partial tree is a sound proof of inclusion: if [ExtractMatches] yields the
    Merkle root of a list of transaction ids of the claimed length, and not the null
    hash that stands for a failure, then every match is the id at its index, unless
    there is a collision of double SHA-256 between a string that the extraction hashes and
    one that is hashed for the root of the list. *)
Theorem ExtractMatches_sound fork t l root vMatch vnIndex t' mutated :
  fork < 2 ^ 64 -> 0 < Zlen l <= 133333 -> Forall wf_hash l -> Forall wf_hash (vHash t) -> nTransactions t = Zlen l ->
  ComputeMerkleRoot l = Ret (root, mutated) -> root <> uint256_null ->
  ExtractMatches fork t [] = Ret (root, vMatch, vnIndex, t') ->
  leaves_at l vMatch vnIndex \/
  exists x y, x ∈ extract_inputs t (tree_height (length l)) 0 (Extraction 0 0 [] [] (fBad t)) /\ y ∈ tree_inputs (tree_height (length l)) l /\ collision x y.
Proof.
  intros Hf Hl Hlo Ht Hn HR Hnull HE. unfold ComputeMerkleRoot in HR. rewrite MerkleComputation_run in HR by (done || lia). cbn [obind] in HR. injection HR as HR _.
  assert (Hlen : (0 < length l)%nat) by (unfold Zlen in Hl; lia). pose proof (tree_height_le (length l) Hlen ltac:(unfold Zlen in Hl; lia)) as H18.
  unfold ExtractMatches in HE. rewrite (max_transactions fork Hf) in HE.
  do 4 (case_match; [congruence |]). rewrite Hn in HE. unfold Zlen in HE at 1.
  rewrite (calc_height_run (length l) 31 0) in HE by (unfold Zlen in Hl; lia). cbn [obind] in HE.
  destruct (TraverseAndExtract t _ 0 _) as [[r e] | | |] eqn:X; [| done..]. cbn [obind] in HE.
  destruct (e_fBad e) eqn:Eb; [congruence |]. do 2 (case_match; [congruence |]). injection HE as -> <- <- _.
  destruct (Extract_sound l ltac:(lia) t (tree_height (length l)) 0 _ root e Hlo Ht Hn ltac:(lia) ltac:(lia) X Eb) as [(ms & js & -> & -> & F) | ?];
    [by rewrite block_whole | by left | right; by rewrite block_whole in *].
Qed.

(** Partial trees are complete: for a selection of transaction ids whose tree has
    no equal siblings, the tree built by the constructor is accepted by
    [ExtractMatches], which returns the Merkle root, the selected ids in order and
    their indices. *)
Theorem PartialMerkleTree_roundtrip fork l m :
  fork < 2 ^ 64 -> 0 < Zlen l <= 133333 -> length m = length l -> no_twins l ->
  exists t root mutated, CPartialMerkleTree_of l m = Ret t /\ ComputeMerkleRoot l = Ret (root, mutated) /\
    ExtractMatches fork t [] = Ret (root, sel_hashes l m 0 (length l), sel_indices m 0 (length l), t).
Proof.
  intros Hf Hl Hm Htw. assert (Hlen : (0 < length l)%nat) by (unfold Zlen in Hl; lia).
  pose proof (tree_height_le (length l) Hlen ltac:(unfold Zlen in Hl; lia)) as H18. set (k := tree_height (length l)) in *.
  destruct (Build_run l ltac:(lia) m Hm Htw k 0 [] []) as (bits & hs & HB & HP & Lh & Lb & Mb); [lia | lia |].
  exists (PartialMerkleTree (Zlen l) bits hs false). eexists _, _. unfold CPartialMerkleTree_of, ComputeMerkleRoot.
  rewrite uint32_id, MerkleComputation_run by (done || lia). cbn [obind].
  assert (HH : calc_height 31 (Zlen l) 0 = Ret k) by (apply calc_height_run; unfold Zlen in Hl; lia). rewrite HH. cbn [obind].
  cbn [app] in HB. unfold proves in HP. change (Z.of_nat 0) with 0 in HB, HP. rewrite HB. cbn [obind]. split; [done |]. split; [done |]. fold k.
  unfold k in Lh at 1. rewrite block_whole in Lh. assert (Hb : Zlen bits < 2 ^ 20).
  { pose proof (Nat.pow_le_mono_r 2 (S k) 19 ltac:(lia) ltac:(lia)) as Hp. apply Nat2Z.inj_le in Hp. rewrite !pow2_Z in Hp.
    change (2 ^ Z.of_nat 19) with 524288 in Hp. apply Nat2Z.inj_lt in Mb. rewrite pow2_Z in Mb. unfold Zlen. lia. }
  unfold ExtractMatches. cbn [nTransactions vBits vHash fBad]. rewrite (max_transactions fork Hf), (proj2 (Z.eqb_neq (Zlen l) 0)) by lia.
  rewrite !Z.gtb_ltb, (proj2 (Z.ltb_ge 133333 (Zlen l))), (proj2 (Z.ltb_ge (Zlen l) (Zlen hs))), (proj2 (Z.ltb_ge (Zlen bits) (Zlen hs))) by (unfold Zlen in *; lia).
  rewrite HH. cbn [obind].
  rewrite (HP _ _ [] [] [] []); try done; [| by rewrite app_nil_r | by rewrite app_nil_r | cbn; lia | cbn; unfold Zlen in *; lia].
  cbn [obind nBitsUsed nHashUsed e_vMatch e_vnIndex e_fBad app]. rewrite !Zlen_nil, !Z.add_0_l, uint32_id by (pose proof (Zlen_nonneg bits); lia).
  rewrite !Z.eqb_refl. cbn [negb]. unfold k. rewrite block_whole. done.
Qed.

Lemma ExtractMatches_sound_witness :
  leaves_at [replicate 32 1] [replicate 32 1] [0].
Proof.
  destruct (ExtractMatches_sound 498777 (PartialMerkleTree 1 [true] [replicate 32 1] false) [replicate 32 1] (replicate 32 1)
    [replicate 32 1] [0] (PartialMerkleTree 1 [true] [replicate 32 1] false) false) as [H | (x & y & Hx & _)].
  - reflexivity.
  - split; [reflexivity | discriminate].
  - repeat constructor; discriminate.
  - repeat constructor; discriminate.
  - reflexivity.
  - reflexivity.
  - discriminate.
  - reflexivity.
  - exact H.
  - inversion Hx.
Defined.

Lemma PartialMerkleTree_roundtrip_witness :
  exists t root mutated, CPartialMerkleTree_of [replicate 32 1; replicate 32 2] [false; true] = Ret t /\
    ComputeMerkleRoot [replicate 32 1; replicate 32 2] = Ret (root, mutated) /\
    ExtractMatches 498777 t [] = Ret (root, [replicate 32 2], [1], t).
Proof.
  apply (PartialMerkleTree_roundtrip 498777 [replicate 32 1; replicate 32 2] [false; true]).
  - reflexivity.
  - split; [reflexivity | discriminate].
  - reflexivity.
  - intros k pos H. cbn [length] in H. destruct k as [| k]; [destruct pos as [| pos]; [discriminate | cbn in H; lia] |].
    pose proof (pow2_pos k). rewrite pow2_S in H. nia.
Defined.
