(* ===== verification/Coins.v ===== *)
(** * The set of unspent outputs

    [src/coins.h] and [coins.cpp]: coins, the interface [CCoinsView] that a view of
    the unspent outputs implements, and the write-back cache [CCoinsViewCache] over
    any other view. A method that the source declares [const] but that fills the
    cache returns the new state like any other; the base of a cache is part of its
    state, since reading through it can fill the base's own cache. *)

From stdpp Require Import gmap.
From S2P Require Import Prelude Serialize Script Hash Transaction Block Merkle MerkleBlock.

Open Scope outcome_scope.

(** ** Coins *)

#[export] Instance COutPoint_countable : Countable COutPoint.
Proof.
  refine (inj_countable' (fun o => (outpoint_hash o, outpoint_n o)) (fun p => OutPoint p.1 p.2) _). by intros [].
Defined.

Record Coin := mkCoin {
  coin_out : CTxOut;
  fCoinBase : bool;
  coin_nHeight : Z
}.

#[export] Instance Coin_eq_dec : EqDecision Coin.
Proof. solve_decision. Defined.

(** [Coin(outIn, nHeightIn, fCoinBaseIn)]; the height is a field of 31 bits. *)
Definition Coin_of (outIn : CTxOut) (nHeightIn : Z) (fCoinBaseIn : bool) : Coin :=
  mkCoin outIn fCoinBaseIn (nHeightIn mod 2 ^ 31).

(** [Coin()], and a coin after [Clear]. *)
Definition coinEmpty : Coin := mkCoin CTxOut_null false 0.

Definition IsSpent (c : Coin) : bool := CTxOut_IsNull (coin_out c).

(** ** Cache entries *)

Definition DIRTY : Z := Z.shiftl 1 0.

Definition FRESH : Z := Z.shiftl 1 1.

Record CCoinsCacheEntry := CacheEntry {
  entry_coin : Coin;
  entry_flags : Z
}.

Abbreviation CCoinsMap := (gmap COutPoint CCoinsCacheEntry).

(** ** The interface of a view

    [GetCoin] returns the coin when it returns true. *)
Class CCoinsView (S : Type) := {
  view_GetCoin : S -> COutPoint -> option Coin * S;
  view_GetBestBlock : S -> list Z * S;
  view_BatchWrite : S -> CCoinsMap -> list Z -> outcome (bool * S)
}.

(** ** The cache *)

Record CCoinsViewCache (S : Type) := Cache {
  cache_base : S;
  cache_hashBlock : list Z;
  cacheCoins : CCoinsMap;
  cachedCoinsUsage : Z
}.

Arguments Cache {S}.
Arguments cache_base {S}.
Arguments cache_hashBlock {S}.
Arguments cacheCoins {S}.
Arguments cachedCoinsUsage {S}.

(** [Coin::DynamicMemoryUsage]: the memory allocated for the script of a coin,
    which depends on the allocator and on how the vector grew; clearing a script
    releases it. *)
Class CoinUsage := {
  DynamicMemoryUsage : Coin -> Z;
  usage_empty : DynamicMemoryUsage coinEmpty = 0
}.

Section CCoinsViewCache.
Context {S : Type} `{V : CCoinsView S, U : CoinUsage}.
Implicit Types c : CCoinsViewCache S.

Definition set_coins c (m : CCoinsMap) (usage : Z) : CCoinsViewCache S :=
  Cache (cache_base c) (cache_hashBlock c) m (uint64 usage).

Definition set_base c (b : S) : CCoinsViewCache S := Cache b (cache_hashBlock c) (cacheCoins c) (cachedCoinsUsage c).

Definition CCoinsViewCache_new (baseIn : S) : CCoinsViewCache S := Cache baseIn uint256_null ∅ 0.

Definition FetchCoin c (outpoint : COutPoint) : option CCoinsCacheEntry * CCoinsViewCache S :=
  match cacheCoins c !! outpoint with
  | Some e => (Some e, c)
  | None =>
    let '(r, b) := view_GetCoin (cache_base c) outpoint in
    match r with
    | None => (None, set_base c b)
    | Some tmp =>
      let e := CacheEntry tmp (if IsSpent tmp then FRESH else 0) in
      (Some e, set_coins (set_base c b) (<[outpoint := e]> (cacheCoins c)) (cachedCoinsUsage c + DynamicMemoryUsage tmp))
    end
  end.

Definition GetCoin c (outpoint : COutPoint) : option Coin * CCoinsViewCache S :=
  let '(it, c) := FetchCoin c outpoint in
  match it with
  | Some e => (if negb (IsSpent (entry_coin e)) then Some (entry_coin e) else None, c)
  | None => (None, c)
  end.

Definition AddCoin c (outpoint : COutPoint) (coin : Coin) (possible_overwrite : bool) : outcome (CCoinsViewCache S) :=
  let? _ := cassert (negb (IsSpent coin)) in
  if IsUnspendable (scriptPubKey (coin_out coin)) then Ret c
  else
    let it := cacheCoins c !! outpoint in
    let e := default (CacheEntry coinEmpty 0) it in
    let usage := match it with None => cachedCoinsUsage c | Some e => uint64 (cachedCoinsUsage c - DynamicMemoryUsage (entry_coin e)) end in
    let? fresh :=
      if negb possible_overwrite then
        if negb (IsSpent (entry_coin e)) then Throw logic_error else Ret (negb (flag (entry_flags e) DIRTY))
      else Ret false in
    let e' := CacheEntry coin (Z.lor (entry_flags e) (Z.lor DIRTY (if fresh then FRESH else 0))) in
    Ret (set_coins c (<[outpoint := e']> (cacheCoins c)) (usage + DynamicMemoryUsage coin)).

(** [SpendCoin]: the coin moved out, when it returns true. *)
Definition SpendCoin c (outpoint : COutPoint) : option Coin * CCoinsViewCache S :=
  let '(it, c) := FetchCoin c outpoint in
  match it with
  | None => (None, c)
  | Some e =>
    let usage := cachedCoinsUsage c - DynamicMemoryUsage (entry_coin e) in
    (Some (entry_coin e),
     if flag (entry_flags e) FRESH then set_coins c (delete outpoint (cacheCoins c)) usage
     else set_coins c (<[outpoint := CacheEntry coinEmpty (Z.lor (entry_flags e) DIRTY)]> (cacheCoins c)) usage)
  end.

Definition AccessCoin c (outpoint : COutPoint) : Coin * CCoinsViewCache S :=
  let '(it, c) := FetchCoin c outpoint in
  match it with None => (coinEmpty, c) | Some e => (entry_coin e, c) end.

Definition HaveCoin c (outpoint : COutPoint) : bool * CCoinsViewCache S :=
  let '(it, c) := FetchCoin c outpoint in
  (match it with None => false | Some e => negb (IsSpent (entry_coin e)) end, c).

Definition HaveCoinInCache c (outpoint : COutPoint) : bool :=
  match cacheCoins c !! outpoint with None => false | Some e => negb (IsSpent (entry_coin e)) end.

Definition set_hashBlock c (h : list Z) : CCoinsViewCache S := Cache (cache_base c) h (cacheCoins c) (cachedCoinsUsage c).

Definition GetBestBlock c : list Z * CCoinsViewCache S :=
  if uint256_IsNull (cache_hashBlock c) then
    let '(h, b) := view_GetBestBlock (cache_base c) in (h, set_hashBlock (set_base c b) h)
  else (cache_hashBlock c, c).

Definition SetBestBlock c (hashBlockIn : list Z) : CCoinsViewCache S := set_hashBlock c hashBlockIn.

(** One entry of a child's map. *)
Definition BatchWrite_entry c (outpoint : COutPoint) (it : CCoinsCacheEntry) : outcome (CCoinsViewCache S) :=
  if negb (flag (entry_flags it) DIRTY) then Ret c
  else
    match cacheCoins c !! outpoint with
    | None =>
      if negb (flag (entry_flags it) FRESH && IsSpent (entry_coin it)) then
        let flags := if flag (entry_flags it) FRESH then Z.lor DIRTY FRESH else DIRTY in
        Ret (set_coins c (<[outpoint := CacheEntry (entry_coin it) flags]> (cacheCoins c))
               (cachedCoinsUsage c + DynamicMemoryUsage (entry_coin it)))
      else Ret c
    | Some itUs =>
      if flag (entry_flags it) FRESH && negb (IsSpent (entry_coin itUs)) then Throw logic_error
      else
        let usage := cachedCoinsUsage c - DynamicMemoryUsage (entry_coin itUs) in
        if flag (entry_flags itUs) FRESH && IsSpent (entry_coin it) then
          Ret (set_coins c (delete outpoint (cacheCoins c)) usage)
        else
          Ret (set_coins c (<[outpoint := CacheEntry (entry_coin it) (Z.lor (entry_flags itUs) DIRTY)]> (cacheCoins c))
                 (usage + DynamicMemoryUsage (entry_coin it)))
    end.

(** The loop over the entries, in the order of the iteration. *)
Fixpoint BatchWrite_loop c (l : list (COutPoint * CCoinsCacheEntry)) : outcome (CCoinsViewCache S) :=
  match l with
  | [] => Ret c
  | (outpoint, it) :: l => let? c := BatchWrite_entry c outpoint it in BatchWrite_loop c l
  end.

Definition BatchWrite c (mapCoins : CCoinsMap) (hashBlockIn : list Z) : outcome (bool * CCoinsViewCache S) :=
  let? c := BatchWrite_loop c (map_to_list mapCoins) in Ret (true, set_hashBlock c hashBlockIn).

Definition Flush c : outcome (bool * CCoinsViewCache S) :=
  let? r := view_BatchWrite (cache_base c) (cacheCoins c) (cache_hashBlock c) in
  Ret (r.1, set_coins (set_base c r.2) ∅ 0).

Definition Uncache c (outpoint : COutPoint) : CCoinsViewCache S :=
  match cacheCoins c !! outpoint with
  | Some e =>
    if entry_flags e =? 0 then
      set_coins c (delete outpoint (cacheCoins c)) (cachedCoinsUsage c - DynamicMemoryUsage (entry_coin e))
    else c
  | None => c
  end.

Definition GetCacheSize c : Z := uint32 (Z.of_nat (size (cacheCoins c))).

(** [AddCoins], from the output with index [i] on. *)
Fixpoint AddCoins_loop c (txid : list Z) (fCoinbase check : bool) (nHeight : Z) (i : Z) (l : list CTxOut) : outcome (CCoinsViewCache S) :=
  match l with
  | [] => Ret c
  | out :: l =>
    let '(overwrite, c) := if check then HaveCoin c (OutPoint txid (uint32 i)) else (fCoinbase, c) in
    let? c := AddCoin c (OutPoint txid (uint32 i)) (Coin_of out nHeight fCoinbase) overwrite in
    AddCoins_loop c txid fCoinbase check nHeight (i + 1) l
  end.

Definition AddCoins c (tx : CTransaction) (nHeight : Z) (check : bool) : outcome (CCoinsViewCache S) :=
  AddCoins_loop c (ComputeHash tx) (IsCoinBase tx || IsCoinStake tx) check nHeight 0 (vout tx).

(** [GetValueIn] and its loop. *)
Fixpoint GetValueIn_loop c (l : list CTxIn) (nResult : Z) : outcome (Z * CCoinsViewCache S) :=
  match l with
  | [] => Ret (nResult, c)
  | i :: l =>
    let '(coin, c) := AccessCoin c (prevout i) in
    let? nResult := int64_add nResult (nValue (coin_out coin)) in
    GetValueIn_loop c l nResult
  end.

Definition GetValueIn c (tx : CTransaction) : outcome (Z * CCoinsViewCache S) :=
  if IsCoinBase tx then Ret (0, c) else GetValueIn_loop c (vin tx) 0.

Fixpoint HaveInputs_loop c (l : list CTxIn) : bool * CCoinsViewCache S :=
  match l with
  | [] => (true, c)
  | i :: l => let '(have, c) := HaveCoin c (prevout i) in if negb have then (false, c) else HaveInputs_loop c l
  end.

Definition HaveInputs c (tx : CTransaction) : bool * CCoinsViewCache S :=
  if negb (IsCoinBase tx) then HaveInputs_loop c (vin tx) else (true, c).

(** [AccessByTxid]: the first unspent output of a transaction. *)
Fixpoint AccessByTxid_loop (fuel : nat) c (txid : list Z) (n : Z) : Coin * CCoinsViewCache S :=
  match fuel with
  | O => (coinEmpty, c)
  | Datatypes.S fuel =>
    let '(alternate, c) := AccessCoin c (OutPoint txid n) in
    if negb (IsSpent alternate) then (alternate, c) else AccessByTxid_loop fuel c txid (n + 1)
  end.

Definition MIN_TRANSACTION_OUTPUT_WEIGHT : Z := WITNESS_SCALE_FACTOR * Zlen (Serialize_CTxOut CTxOut_null).

(** No fork height is above the largest [uint64_t], so the limit is that after the fork. *)
Definition MAX_OUTPUTS_PER_BLOCK : Z := MaxBlockSize 0 (2 ^ 64 - 1) / MIN_TRANSACTION_OUTPUT_WEIGHT.

Definition AccessByTxid c (txid : list Z) : Coin * CCoinsViewCache S :=
  AccessByTxid_loop (Z.to_nat MAX_OUTPUTS_PER_BLOCK) c txid 0.
End CCoinsViewCache.

(** A cache is itself a view, so caches stack. *)
#[export] Instance CCoinsViewCache_view {S} `{CCoinsView S, CoinUsage} : CCoinsView (CCoinsViewCache S) := {
  view_GetCoin := GetCoin;
  view_GetBestBlock := GetBestBlock;
  view_BatchWrite := BatchWrite
}.
