(* ===== verification/CoinsProps.v ===== *)
(** * The coins cache implements a set of coins

    What a view of the unspent outputs promises ([CoinsViewLaws]: it stands for a
    finite map from outpoints to unspent coins, which reading does not change and a
    batch of writes updates), the proof that a cache over any such view is again
    one, and the refinement of an abstract map by every sequence of operations. *)

From stdpp Require Import gmap.
From S2P Require Import Prelude Serialize Script Hash Transaction Block Merkle MerkleBlock Coins.

Open Scope outcome_scope.

(** ** What a view promises *)

(** The unspent coin of an entry. *)
Definition live (e : CCoinsCacheEntry) : option Coin := if IsSpent (entry_coin e) then None else Some (entry_coin e).

Abbreviation coin_set := (COutPoint -> option Coin).

(** A coin set after the modified entries of a map are written to it. *)
Definition written (m : CCoinsMap) (P : coin_set) : coin_set := fun o =>
  match m !! o with Some e => if flag (entry_flags e) DIRTY then live e else P o | None => P o end.

(** [FRESH] entries are of coins that the set does not have. *)
Definition fresh_ok (m : CCoinsMap) (P : coin_set) : Prop :=
  forall o e, m !! o = Some e -> flag (entry_flags e) FRESH = true -> P o = None.

Class CoinsViewLaws (S : Type) `{V : CCoinsView S} := {
  view_ok : S -> Prop;
  coins_at : S -> coin_set;
  best_block : S -> list Z;
  coins_unspent : forall s o coin, view_ok s -> coins_at s o = Some coin -> IsSpent coin = false;
  GetCoin_law : forall s o, view_ok s -> exists s', view_GetCoin s o = (coins_at s o, s') /\ view_ok s' /\
    (forall o', coins_at s' o' = coins_at s o') /\ best_block s' = best_block s;
  GetBestBlock_law : forall s, view_ok s -> exists s', view_GetBestBlock s = (best_block s, s') /\ view_ok s' /\
    (forall o', coins_at s' o' = coins_at s o') /\ best_block s' = best_block s;
  BatchWrite_law : forall s m h, view_ok s -> fresh_ok m (coins_at s) -> uint256_IsNull h = false ->
    exists s', view_BatchWrite s m h = Ret (true, s') /\ view_ok s' /\
      (forall o, coins_at s' o = written m (coins_at s) o) /\ best_block s' = h
}.

(** ** Flags *)

Lemma flag_lor x y m : flag (Z.lor x y) m = flag x m || flag y m.
Proof.
  unfold flag. rewrite Z.land_lor_distr_l, <- negb_andb. f_equal. apply eq_bool_prop_intro.
  rewrite andb_True, !Is_true_true, !Z.eqb_eq. apply Z.lor_eq_0_iff.
Qed.

Lemma flags_const :
  flag DIRTY DIRTY = true /\ flag DIRTY FRESH = false /\ flag FRESH DIRTY = false /\ flag FRESH FRESH = true /\
  (forall m, flag 0 m = false).
Proof. by repeat split. Qed.

Ltac simpl_flags :=
  repeat (rewrite flag_lor || rewrite (proj1 flags_const) || rewrite (proj1 (proj2 flags_const)) ||
          rewrite (proj1 (proj2 (proj2 flags_const))) || rewrite (proj1 (proj2 (proj2 (proj2 flags_const)))) ||
          rewrite (proj2 (proj2 (proj2 (proj2 flags_const)))) || rewrite orb_true_r || rewrite orb_false_r).

(** ** The invariant of a cache *)

Lemma sub_add_mod x y z n : (x mod n - y + z) mod n = (x - y + z) mod n.
Proof. rewrite <- !Z.add_sub_swap, Zminus_mod, Zplus_mod_idemp_l, <- Zminus_mod. done. Qed.

Section Usage.
Context `{U : CoinUsage}.

(** The memory of all cached coins. *)
Definition usage_sum (m : CCoinsMap) : Z := map_fold (fun _ e acc => DynamicMemoryUsage (entry_coin e) + acc) 0 m.

Lemma usage_insert m o e : m !! o = None -> usage_sum (<[o := e]> m) = DynamicMemoryUsage (entry_coin e) + usage_sum m.
Proof. intros H. unfold usage_sum. rewrite map_fold_insert_L; [done | intros; lia | done]. Qed.

Lemma usage_delete m o e : m !! o = Some e -> usage_sum (delete o m) = usage_sum m - DynamicMemoryUsage (entry_coin e).
Proof. intros H. unfold usage_sum. rewrite (map_fold_delete_L _ _ o e m); [lia | intros; lia | done]. Qed.

Lemma usage_overwrite m o e e' : m !! o = Some e ->
  usage_sum (<[o := e']> m) = usage_sum m - DynamicMemoryUsage (entry_coin e) + DynamicMemoryUsage (entry_coin e').
Proof.
  intros H. rewrite <- insert_delete_eq. rewrite usage_insert by apply lookup_delete_eq. rewrite (usage_delete m o e H). lia.
Qed.
End Usage.

Section Cache.
Context {S : Type} `{L : CoinsViewLaws S, U : CoinUsage}.
Implicit Types c : CCoinsViewCache S.

(** The coins that a cache stands for. *)
Definition cache_coins c : coin_set := fun o =>
  match cacheCoins c !! o with Some e => live e | None => coins_at (cache_base c) o end.

Definition cache_best c : list Z :=
  if uint256_IsNull (cache_hashBlock c) then best_block (cache_base c) else cache_hashBlock c.

(** What the flags of an entry mean for the coins of the base. *)
Definition entry_ok (P : coin_set) (o : COutPoint) (e : CCoinsCacheEntry) : Prop :=
  (flag (entry_flags e) FRESH = true -> P o = None) /\ (flag (entry_flags e) DIRTY = false -> live e = P o).

Record cache_ok c : Prop := {
  cache_base_ok : view_ok (cache_base c);
  cache_entries_ok : forall o e, cacheCoins c !! o = Some e -> entry_ok (coins_at (cache_base c)) o e;
  cache_usage_ok : cachedCoinsUsage c = uint64 (usage_sum (cacheCoins c))
}.

(** The base of a cache may change as long as it stands for the same coins. *)
Lemma cache_ok_base c b : cache_ok c -> view_ok b -> (forall o, coins_at b o = coins_at (cache_base c) o) -> cache_ok (set_base c b).
Proof.
  intros [Hb He Hu] Hb' Heq. split; cbn; [done | | done].
  intros o e H. destruct (He o e H) as [H1 H2]. split; rewrite Heq; done.
Qed.

Lemma cache_coins_base c b o : (forall o, coins_at b o = coins_at (cache_base c) o) -> cache_coins (set_base c b) o = cache_coins c o.
Proof. intros Heq. unfold cache_coins; cbn. by rewrite Heq. Qed.

(** An entry that agrees with the base may be added or replaced. *)
Lemma cache_ok_insert c o e u : cache_ok c -> entry_ok (coins_at (cache_base c)) o e ->
  uint64 u = uint64 (usage_sum (<[o := e]> (cacheCoins c))) -> cache_ok (set_coins c (<[o := e]> (cacheCoins c)) u).
Proof.
  intros [Hb He Hu] Ho Hu'. split; cbn; [done | | done].
  intros o' e'. rewrite lookup_insert_Some. intros [[<- <-] | [_ H]]; eauto.
Qed.

Lemma cache_ok_delete c o u : cache_ok c -> uint64 u = uint64 (usage_sum (delete o (cacheCoins c))) ->
  cache_ok (set_coins c (delete o (cacheCoins c)) u).
Proof.
  intros [Hb He Hu] Hu'. split; cbn; [done | | done].
  intros o' e'. rewrite lookup_delete_Some. intros [_ H]; eauto.
Qed.

Lemma cache_coins_insert c o e u o' :
  cache_coins (set_coins c (<[o := e]> (cacheCoins c)) u) o' = if decide (o' = o) then live e else cache_coins c o'.
Proof.
  unfold cache_coins; cbn. case_decide as H; [by subst; rewrite lookup_insert_eq | by rewrite lookup_insert_ne].
Qed.

Lemma cache_coins_delete c o u o' :
  cache_coins (set_coins c (delete o (cacheCoins c)) u) o' = if decide (o' = o) then coins_at (cache_base c) o else cache_coins c o'.
Proof.
  unfold cache_coins; cbn. case_decide as H; [by subst; rewrite lookup_delete_eq | by rewrite lookup_delete_ne].
Qed.

Lemma cache_coins_unspent c o coin : cache_ok c -> cache_coins c o = Some coin -> IsSpent coin = false.
Proof.
  intros Hc. unfold cache_coins. destruct (cacheCoins c !! o) as [e |]; [| apply coins_unspent, Hc].
  unfold live. destruct (IsSpent (entry_coin e)) eqn:E; [done |]. by intros [= <-].
Qed.

(** ** Reading *)

(** Two caches that stand for the same coins. *)
Definition same_view c c' : Prop := (forall o, cache_coins c' o = cache_coins c o) /\ cache_best c' = cache_best c.

Lemma FetchCoin_run c o : cache_ok c -> exists it c', FetchCoin c o = (it, c') /\ cache_ok c' /\ same_view c c' /\
  cacheCoins c' !! o = it /\ cache_coins c o = it ≫= live.
Proof.
  intros Hc. unfold FetchCoin. destruct (cacheCoins c !! o) as [e |] eqn:E.
  { exists (Some e), c. split_and!; try done. unfold cache_coins. by rewrite E. }
  destruct (GetCoin_law (cache_base c) o (cache_base_ok c Hc)) as (b & Eg & Hb & Hcoins & Hbest). rewrite Eg.
  pose proof (cache_ok_base c b Hc Hb Hcoins) as Hc'.
  assert (Eb : cache_best (set_base c b) = cache_best c) by (unfold cache_best; cbn; by rewrite Hbest).
  destruct (coins_at (cache_base c) o) as [tmp |] eqn:Ec.
  - pose proof (coins_unspent _ _ _ (cache_base_ok c Hc) Ec) as Hs. rewrite Hs.
    eexists _, _. split; [reflexivity |]. split_and!.
    + apply (cache_ok_insert (set_base c b)); [done | |].
      * split; [by intros | intros _]. cbn. unfold live; cbn. by rewrite Hs, Hcoins, Ec.
      * cbn. rewrite (cache_usage_ok c Hc), usage_insert by done. unfold uint64. cbn. rewrite Zplus_mod_idemp_l. f_equal. lia.
    + split; [| done]. intros o'. rewrite (cache_coins_insert (set_base c b)). case_decide as D.
      * subst o'. unfold cache_coins. rewrite E, Ec. unfold live; cbn. by rewrite Hs.
      * by apply cache_coins_base.
    + cbn. by rewrite lookup_insert_eq.
    + unfold cache_coins. rewrite E, Ec. cbn. unfold live; cbn. by rewrite Hs.
  - eexists _, _. split; [reflexivity |]. split_and!; [done | | done |].
    + split; [intros o'; by apply cache_coins_base | done].
    + unfold cache_coins. by rewrite E.
Qed.

Lemma GetCoin_run c o : cache_ok c -> exists c', GetCoin c o = (cache_coins c o, c') /\ cache_ok c' /\ same_view c c'.
Proof.
  intros Hc. destruct (FetchCoin_run c o Hc) as (it & c' & E & Hc' & Hs & _ & Ho). exists c'. split; [| done].
  unfold GetCoin. rewrite E, Ho. destruct it as [e |]; [| done]. cbn. unfold live. by destruct (IsSpent (entry_coin e)).
Qed.

Lemma HaveCoin_run c o : cache_ok c -> exists c', HaveCoin c o = (bool_decide (is_Some (cache_coins c o)), c') /\ cache_ok c' /\ same_view c c'.
Proof.
  intros Hc. destruct (FetchCoin_run c o Hc) as (it & c' & E & Hc' & Hs & _ & Ho). exists c'. split; [| done].
  unfold HaveCoin. rewrite E, Ho. f_equal. destruct it as [e |]; [| done]. cbn. unfold live. by destruct (IsSpent (entry_coin e)).
Qed.

(** [AccessCoin] returns the coin, and a spent one where there is none. *)
Lemma AccessCoin_run c o : cache_ok c -> exists coin c', AccessCoin c o = (coin, c') /\ cache_ok c' /\ same_view c c' /\
  cache_coins c o = if IsSpent coin then None else Some coin.
Proof.
  intros Hc. destruct (FetchCoin_run c o Hc) as (it & c' & E & Hc' & Hs & _ & Ho). unfold AccessCoin. rewrite E, Ho.
  destruct it as [e |]; eexists _, _; (split; [reflexivity | done]).
Qed.

(** ** Writing *)

(** A coin set with the coin of one outpoint replaced. *)
Definition upd (P : coin_set) (o : COutPoint) (x : option Coin) : coin_set := fun o' => if decide (o' = o) then x else P o'.

(** The bookkeeping of the memory used. *)
Ltac usage Hc :=
  rewrite ?(cache_usage_ok _ Hc);
  first [rewrite usage_insert by done | erewrite usage_overwrite by eassumption | erewrite usage_delete by eassumption];
  unfold uint64; cbn [entry_coin]; rewrite ?Zminus_mod_idemp_l, ?sub_add_mod, ?Zplus_mod_idemp_l; f_equal; rewrite ?usage_empty; lia.

(** A coin that is added must not be there, unless an overwrite is announced; coins
    that can never be spent are left out. *)
Lemma AddCoin_run c o coin overwrite : cache_ok c -> IsSpent coin = false -> (overwrite = false -> cache_coins c o = None) ->
  exists c', AddCoin c o coin overwrite = Ret c' /\ cache_ok c' /\ cache_best c' = cache_best c /\
    forall o', cache_coins c' o' = (if IsUnspendable (scriptPubKey (coin_out coin)) then cache_coins c else upd (cache_coins c) o (Some coin)) o'.
Proof.
  intros Hc Hs Hov. unfold AddCoin. rewrite Hs. cbn [negb cassert obind].
  destruct (IsUnspendable _); [by exists c |].
  assert (Hfresh : cacheCoins c !! o = None -> overwrite = false -> coins_at (cache_base c) o = None).
  { intros E Ho. specialize (Hov Ho). unfold cache_coins in Hov. by rewrite E in Hov. }
  assert (Hcoins : forall fl u o', cache_coins (set_coins c (<[o := CacheEntry coin fl]> (cacheCoins c)) u) o' = upd (cache_coins c) o (Some coin) o').
  { intros. rewrite cache_coins_insert. unfold upd, live. cbn. by rewrite Hs. }
  destruct (cacheCoins c !! o) as [e |] eqn:E; cbn [from_option id].
  - destruct (cache_entries_ok c Hc o e E) as [He1 He2]. destruct overwrite; cbn [negb obind].
    + eexists. split; [reflexivity |]. split_and!; [| done | apply Hcoins]. apply cache_ok_insert; [done | | usage Hc].
      split; cbn [entry_flags]; simpl_flags; [done | by intros].
    + specialize (Hov eq_refl). unfold cache_coins in Hov. rewrite E in Hov. unfold live in *.
      destruct (IsSpent (entry_coin e)) eqn:Es; [| done]. cbn [negb obind].
      eexists. split; [reflexivity |]. split_and!; [| done | apply Hcoins]. apply cache_ok_insert; [done | | usage Hc].
      split; cbn [entry_flags]; simpl_flags; [| by intros].
      destruct (flag (entry_flags e) DIRTY) eqn:Ed; cbn [negb]; simpl_flags; [done |]. intros _. symmetry. by apply He2.
  - destruct overwrite; cbn [negb obind entry_flags entry_coin]; (eexists; split; [reflexivity |]; split_and!; [| done | apply Hcoins]);
      (apply cache_ok_insert; [done | | usage Hc]); (split; cbn [entry_flags]; simpl_flags; [| by intros]); [done |].
    intros _. by apply Hfresh.
Qed.

(** Spending takes the coin away; what it returns for a coin that is not there is
    either failure or a spent coin. *)
Lemma SpendCoin_run c o : cache_ok c -> exists r c', SpendCoin c o = (r, c') /\ cache_ok c' /\ cache_best c' = cache_best c /\
  (forall o', cache_coins c' o' = upd (cache_coins c) o None o') /\
  cache_coins c o = (match r with Some coin => if IsSpent coin then None else Some coin | None => None end).
Proof.
  intros Hc. destruct (FetchCoin_run c o Hc) as (it & c1 & E & Hc1 & [Hs Hbest] & Hlook & Ho). unfold SpendCoin. rewrite E, Ho.
  destruct it as [e |].
  - destruct (cache_entries_ok c1 Hc1 o e Hlook) as [He1 He2]. eexists _, _. split; [reflexivity |].
    destruct (flag (entry_flags e) FRESH) eqn:Ef.
    + split_and!; [apply cache_ok_delete; [done | usage Hc1] | done | | done].
      intros o'. rewrite cache_coins_delete. unfold upd. rewrite He1 by done. by case_decide.
    + split_and!; [apply cache_ok_insert; [done | | ] | done | | done].
      * split; cbn [entry_flags]; simpl_flags; [by rewrite Ef | done].
      * usage Hc1.
      * intros o'. rewrite cache_coins_insert. unfold upd. by case_decide.
  - eexists _, _. split; [reflexivity |]. split_and!; [done | done | | done].
    intros o'. rewrite Hs. unfold upd. case_decide; [by subst | done].
Qed.

Lemma Uncache_run c o : cache_ok c -> cache_ok (Uncache c o) /\ same_view c (Uncache c o).
Proof.
  intros Hc. unfold Uncache. destruct (cacheCoins c !! o) as [e |] eqn:E; [| done]. destruct (entry_flags e =? 0) eqn:Ef; [| done].
  bool_to_prop. destruct (cache_entries_ok c Hc o e E) as [_ He2]. split; [apply cache_ok_delete; [done | usage Hc] |].
  split; [| done]. intros o'. rewrite cache_coins_delete. case_decide; [| done]. subst o'. unfold cache_coins. rewrite E.
  symmetry. apply He2. by rewrite Ef.
Qed.

Lemma GetBestBlock_run c : cache_ok c -> exists c', GetBestBlock c = (cache_best c, c') /\ cache_ok c' /\ same_view c c'.
Proof.
  intros Hc. unfold GetBestBlock. destruct (uint256_IsNull (cache_hashBlock c)) eqn:E.
  - destruct (GetBestBlock_law (cache_base c) (cache_base_ok c Hc)) as (b & Eg & Hb & Hcoins & Hbest). rewrite Eg.
    pose proof (cache_ok_base c b Hc Hb Hcoins) as Hc'. eexists. split; [unfold cache_best; by rewrite E |].
    split; [by destruct Hc' |]. split; [intros o; apply (cache_coins_base c b o Hcoins) |].
    unfold cache_best; cbn. rewrite E, Hbest. by case_match.
  - exists c. split; [unfold cache_best; by rewrite E | done].
Qed.

(** ** Batches of writes *)

Lemma BatchWrite_entry_run c o e : cache_ok c -> (flag (entry_flags e) FRESH = true -> cache_coins c o = None) ->
  exists c', BatchWrite_entry c o e = Ret c' /\ cache_ok c' /\ cache_best c' = cache_best c /\
    forall o', cache_coins c' o' = (if flag (entry_flags e) DIRTY then upd (cache_coins c) o (live e) else cache_coins c) o'.
Proof.
  intros Hc Hfresh. unfold BatchWrite_entry. destruct (flag (entry_flags e) DIRTY) eqn:Ed; cbn [negb]; [| by exists c].
  destruct (cacheCoins c !! o) as [us |] eqn:E.
  - destruct (cache_entries_ok c Hc o us E) as [Hu1 _].
    assert (Hus : flag (entry_flags e) FRESH && negb (IsSpent (entry_coin us)) = false).
    { destruct (flag (entry_flags e) FRESH); [| done]. specialize (Hfresh eq_refl). unfold cache_coins in Hfresh. rewrite E in Hfresh.
      unfold live in Hfresh. by destruct (IsSpent (entry_coin us)). }
    rewrite Hus. destruct (flag (entry_flags us) FRESH && IsSpent (entry_coin e)) eqn:Ef.
    + bool_to_prop. eexists. split; [reflexivity |]. split_and!; [apply cache_ok_delete; [done | usage Hc] | done |].
      intros o'. rewrite cache_coins_delete, Hu1 by done. unfold upd, live. case_decide; [| done]. by rewrite H0.
    + eexists. split; [reflexivity |]. split_and!; [apply cache_ok_insert; [done | | usage Hc] | done |].
      * split; cbn [entry_flags]; simpl_flags; [done | by intros].
      * intros o'. rewrite cache_coins_insert. unfold upd. by case_decide.
  - assert (Hbase : cache_coins c o = coins_at (cache_base c) o) by (unfold cache_coins; by rewrite E). rewrite Hbase in Hfresh.
    destruct (flag (entry_flags e) FRESH && IsSpent (entry_coin e)) eqn:Ef; cbn [negb].
    + bool_to_prop. eexists. split; [reflexivity |]. split_and!; [done | done |]. intros o'. unfold upd, live. case_decide; [| done].
      subst o'. rewrite Hbase, H0. by apply Hfresh.
    + eexists. split; [reflexivity |]. split_and!; [apply cache_ok_insert; [done | | usage Hc] | done |].
      * destruct (flag (entry_flags e) FRESH) eqn:Efr; split; cbn [entry_flags]; simpl_flags; auto; done.
      * intros o'. rewrite cache_coins_insert. unfold upd. by case_decide.
Qed.

(** The entries are written in any order of the iteration. *)
Lemma BatchWrite_loop_run l : forall c m, cache_ok c -> NoDup l.*1 -> m = list_to_map l -> fresh_ok m (cache_coins c) ->
  exists c', BatchWrite_loop c l = Ret c' /\ cache_ok c' /\ cache_best c' = cache_best c /\
    forall o, cache_coins c' o = written m (cache_coins c) o.
Proof.
  induction l as [| [o e] l IH]; intros c m Hc Hnd -> Hfr; cbn [BatchWrite_loop].
  { exists c. by split_and!. }
  cbn in Hnd. apply list.NoDup_cons in Hnd as [Hni Hnd]. assert (Hnone : (list_to_map l : CCoinsMap) !! o = None) by by apply not_elem_of_list_to_map_1.
  destruct (BatchWrite_entry_run c o e Hc) as (c1 & -> & Hc1 & Hb1 & Hcoins1).
  { intros Hf. apply (Hfr o e); [| done]. cbn. apply lookup_insert_eq. }
  cbn [obind]. destruct (IH c1 (list_to_map l) Hc1 Hnd eq_refl) as (c2 & -> & Hc2 & Hb2 & Hcoins2).
  { intros o' e' He' Hf. rewrite Hcoins1. assert (o' <> o) by congruence.
    assert (Hp : cache_coins c o' = None) by (apply (Hfr o' e'); [cbn; by rewrite lookup_insert_ne | done]).
    unfold upd. case_match; [by rewrite decide_False | done]. }
  exists c2. split_and!; [done | done | congruence |]. intros o'. rewrite Hcoins2. unfold written. cbn.
  destruct (decide (o' = o)) as [-> | Hne].
  - rewrite Hnone, lookup_insert_eq, Hcoins1. unfold upd. case_match; [by rewrite decide_True | done].
  - rewrite lookup_insert_ne by done. assert (Hone : cache_coins c1 o' = cache_coins c o').
    { rewrite Hcoins1. unfold upd. case_match; [by rewrite decide_False | done]. }
    by rewrite Hone.
Qed.

Lemma BatchWrite_run c m h : cache_ok c -> fresh_ok m (cache_coins c) -> uint256_IsNull h = false ->
  exists c', BatchWrite c m h = Ret (true, c') /\ cache_ok c' /\
    (forall o, cache_coins c' o = written m (cache_coins c) o) /\ cache_best c' = h.
Proof.
  intros Hc Hf Hh. unfold BatchWrite.
  destruct (BatchWrite_loop_run (map_to_list m) c m Hc (NoDup_fst_map_to_list m)) as (c' & -> & Hc' & _ & Hcoins); [by rewrite list_to_map_to_list | done |].
  cbn [obind]. eexists. split; [reflexivity |]. split_and!; [by destruct Hc' | exact Hcoins |].
  unfold cache_best; cbn [set_hashBlock cache_hashBlock]. by rewrite Hh.
Qed.

(** A flush hands every change to the base. *)
Lemma Flush_run c : cache_ok c -> uint256_IsNull (cache_hashBlock c) = false ->
  exists c', Flush c = Ret (true, c') /\ cache_ok c' /\ cacheCoins c' = ∅ /\ same_view c c' /\
    cache_hashBlock c' = cache_hashBlock c /\
    (forall o, coins_at (cache_base c') o = cache_coins c o) /\ best_block (cache_base c') = cache_best c.
Proof.
  intros Hc Hh. unfold Flush.
  destruct (BatchWrite_law (cache_base c) (cacheCoins c) (cache_hashBlock c) (cache_base_ok c Hc)) as (b & -> & Hb & Hcoins & Hbest); [| done |].
  { intros o e H. by apply (cache_entries_ok c Hc o e H). }
  cbn [obind fst snd]. assert (Hall : forall o, coins_at b o = cache_coins c o).
  { intros o. rewrite Hcoins. unfold written, cache_coins. destruct (cacheCoins c !! o) as [e |] eqn:E; [| done].
    destruct (flag (entry_flags e) DIRTY) eqn:Ed; [done |]. symmetry. by apply (cache_entries_ok c Hc o e E). }
  eexists. split; [reflexivity |]. split_and!; try done.
  - split; [exact Hall |]. unfold cache_best; cbn [set_coins set_base cache_hashBlock]. by rewrite Hh.
  - change (best_block b = cache_best c). rewrite Hbest. unfold cache_best. by rewrite Hh.
Qed.
End Cache.

(** A cache over a view that keeps its promises keeps them too. *)
#[export] Instance cache_laws {S} `{L : CoinsViewLaws S, U : CoinUsage} : CoinsViewLaws (CCoinsViewCache S) := {
  view_ok := cache_ok;
  coins_at := cache_coins;
  best_block := cache_best;
  coins_unspent := cache_coins_unspent;
  GetCoin_law := GetCoin_run;
  GetBestBlock_law := GetBestBlock_run;
  BatchWrite_law := BatchWrite_run
}.

(** ** Refinement of an abstract set

    Sequences of operations on a cache, and the same on a plain set of coins with
    the hash of the best block. *)

Inductive coin_op :=
| op_GetCoin (o : COutPoint)
| op_HaveCoin (o : COutPoint)
| op_AccessCoin (o : COutPoint)
| op_AddCoin (o : COutPoint) (coin : Coin) (possible_overwrite : bool)
| op_SpendCoin (o : COutPoint)
| op_Uncache (o : COutPoint)
| op_GetBestBlock
| op_SetBestBlock (h : list Z)
| op_Flush.

Inductive observation :=
| saw_coin (r : option Coin)
| saw_bool (b : bool)
| saw_hash (h : list Z)
| saw_nothing.

(** A coin as an observer sees it: spent ones are not there. *)
Definition unspent (coin : Coin) : option Coin := if IsSpent coin then None else Some coin.

Section Refinement.
Context {S : Type} `{L : CoinsViewLaws S, U : CoinUsage}.
Implicit Types c : CCoinsViewCache S.

Definition run_op c (op : coin_op) : outcome (observation * CCoinsViewCache S) :=
  match op with
  | op_GetCoin o => let '(r, c) := GetCoin c o in Ret (saw_coin r, c)
  | op_HaveCoin o => let '(b, c) := HaveCoin c o in Ret (saw_bool b, c)
  | op_AccessCoin o => let '(coin, c) := AccessCoin c o in Ret (saw_coin (unspent coin), c)
  | op_AddCoin o coin overwrite => let? c := AddCoin c o coin overwrite in Ret (saw_nothing, c)
  | op_SpendCoin o => let '(r, c) := SpendCoin c o in Ret (saw_coin (r ≫= unspent), c)
  | op_Uncache o => Ret (saw_nothing, Uncache c o)
  | op_GetBestBlock => let '(h, c) := GetBestBlock c in Ret (saw_hash h, c)
  | op_SetBestBlock h => Ret (saw_nothing, SetBestBlock c h)
  | op_Flush => let? r := Flush c in Ret (saw_bool r.1, r.2)
  end.

Fixpoint run_ops c (ops : list coin_op) : outcome (list observation * CCoinsViewCache S) :=
  match ops with
  | [] => Ret ([], c)
  | op :: ops => let? r := run_op c op in let? rs := run_ops r.2 ops in Ret (r.1 :: rs.1, rs.2)
  end.

(** The abstract state: the coins, the best block, and whether the best block was
    set, which the base of a cache needs to accept a batch. *)
Record abstract := Abstract { abs_coins : coin_set; abs_best : list Z; abs_set : bool }.

Definition spec_op (a : abstract) (op : coin_op) : observation * abstract :=
  match op with
  | op_GetCoin o | op_AccessCoin o => (saw_coin (abs_coins a o), a)
  | op_HaveCoin o => (saw_bool (bool_decide (is_Some (abs_coins a o))), a)
  | op_AddCoin o coin _ =>
    (saw_nothing, if IsUnspendable (scriptPubKey (coin_out coin)) then a else Abstract (upd (abs_coins a) o (Some coin)) (abs_best a) (abs_set a))
  | op_SpendCoin o => (saw_coin (abs_coins a o), Abstract (upd (abs_coins a) o None) (abs_best a) (abs_set a))
  | op_Uncache _ => (saw_nothing, a)
  | op_GetBestBlock => (saw_hash (abs_best a), a)
  | op_SetBestBlock h => (saw_nothing, Abstract (abs_coins a) h true)
  | op_Flush => (saw_bool true, a)
  end.

Fixpoint spec_ops (a : abstract) (ops : list coin_op) : list observation * abstract :=
  match ops with
  | [] => ([], a)
  | op :: ops => let '(s, a) := spec_op a op in let '(ss, a) := spec_ops a ops in (s :: ss, a)
  end.

(** The documented obligations of the callers. *)
Definition allowed (a : abstract) (op : coin_op) : Prop :=
  match op with
  | op_AddCoin o coin overwrite => IsSpent coin = false /\ (overwrite = false -> abs_coins a o = None)
  | op_SetBestBlock h => uint256_IsNull h = false
  | op_Flush => abs_set a = true
  | _ => True
  end.

Fixpoint all_allowed (a : abstract) (ops : list coin_op) : Prop :=
  match ops with [] => True | op :: ops => allowed a op /\ all_allowed (spec_op a op).2 ops end.

Record represents c (a : abstract) : Prop := {
  rep_ok : cache_ok c;
  rep_coins : forall o, cache_coins c o = abs_coins a o;
  rep_best : cache_best c = abs_best a;
  rep_set : abs_set a = true -> uint256_IsNull (cache_hashBlock c) = false
}.

Lemma represents_same c c' a : represents c a -> cache_ok c' -> same_view c c' ->
  (abs_set a = true -> uint256_IsNull (cache_hashBlock c') = false) -> represents c' a.
Proof. intros [H1 H2 H3 H4] Hc' [Hs Hb] Hset. split; [done | | congruence | done]. intros o. by rewrite Hs. Qed.

(** Reading changes at most the cached best block, and not once it is set. *)
Lemma FetchCoin_hashBlock c o : cache_hashBlock (FetchCoin c o).2 = cache_hashBlock c.
Proof. unfold FetchCoin. destruct (cacheCoins c !! o); [done |]. by destruct (view_GetCoin (cache_base c) o) as [[] ?]. Qed.

Lemma AddCoin_hashBlock c o coin overwrite c' : AddCoin c o coin overwrite = Ret c' -> cache_hashBlock c' = cache_hashBlock c.
Proof.
  unfold AddCoin. destruct (cassert _); try done. cbn [obind]. destruct (IsUnspendable _); [by intros [= <-] |].
  destruct overwrite; cbn [negb obind]; [by intros [= <-] |]. destruct (negb _); [done |]. cbn [obind]. by intros [= <-].
Qed.

Lemma run_op_spec c a op : represents c a -> allowed a op ->
  exists c', run_op c op = Ret ((spec_op a op).1, c') /\ represents c' (spec_op a op).2.
Proof.
  intros R Hall. pose proof (rep_ok c a R) as Hc. pose proof (FetchCoin_hashBlock c) as Hfetch. destruct op; cbn [run_op spec_op fst snd]; cbn in Hall.
  - specialize (Hfetch o). destruct (GetCoin_run c o Hc) as (c' & E & Hc' & Hs). rewrite E, (rep_coins c a R). exists c'. split; [done |].
    apply (represents_same c); [done.. |]. unfold GetCoin in E. destruct (FetchCoin c o) as [it c1]. cbn in Hfetch.
    replace c' with c1 by (by destruct it; injection E). rewrite Hfetch. apply R.
  - specialize (Hfetch o). destruct (HaveCoin_run c o Hc) as (c' & E & Hc' & Hs). rewrite E, (rep_coins c a R). exists c'. split; [done |].
    apply (represents_same c); [done.. |]. unfold HaveCoin in E. destruct (FetchCoin c o) as [it c1]. cbn in Hfetch.
    injection E as _ <-. rewrite Hfetch. apply R.
  - specialize (Hfetch o). destruct (AccessCoin_run c o Hc) as (coin & c' & E & Hc' & Hs & Ho). rewrite E, <- (rep_coins c a R), Ho. exists c'. split; [done |].
    apply (represents_same c); [done.. |]. unfold AccessCoin in E. destruct (FetchCoin c o) as [it c1]. cbn in Hfetch.
    replace c' with c1 by (by destruct it; injection E). rewrite Hfetch. apply R.
  - destruct Hall as [Hs Hov]. rewrite <- (rep_coins c a R) in Hov. destruct (AddCoin_run c o coin possible_overwrite Hc Hs Hov) as (c' & E & Hc' & Hb & Hcoins).
    pose proof (AddCoin_hashBlock _ _ _ _ _ E) as Hh. rewrite E. cbn [obind]. exists c'. split; [done |].
    destruct (IsUnspendable _); split; cbn [abs_coins abs_best abs_set]; try done.
    + intros o'. rewrite Hcoins. apply R.
    + rewrite Hb. apply R.
    + rewrite Hh. apply R.
    + intros o'. rewrite Hcoins. unfold upd. case_decide; [done | apply R].
    + rewrite Hb. apply R.
    + rewrite Hh. apply R.
  - specialize (Hfetch o). destruct (SpendCoin_run c o Hc) as (r & c' & E & Hc' & Hb & Hcoins & Ho). rewrite E, <- (rep_coins c a R), Ho.
    exists c'. split; [by destruct r |]. split; cbn [abs_coins abs_best abs_set]; [done | | rewrite Hb; apply R |].
    + intros o'. rewrite Hcoins. unfold upd. case_decide; [done | apply R].
    + unfold SpendCoin in E. destruct (FetchCoin c o) as [[e |] c1]; cbn in Hfetch; injection E as _ <-; [| rewrite Hfetch; apply R].
      destruct (flag _ _); cbn [set_coins cache_hashBlock]; rewrite Hfetch; apply R.
  - destruct (Uncache_run c o Hc) as [Hc' Hs]. eexists. split; [done |]. apply (represents_same c); [done.. |].
    unfold Uncache. destruct (cacheCoins c !! o); [| apply R]. destruct (_ =? 0); apply R.
  - destruct (GetBestBlock_run c Hc) as (c' & E & Hc' & Hs). rewrite E, (rep_best c a R). exists c'. split; [done |].
    apply (represents_same c); [done.. |]. intros Hset. pose proof (rep_set c a R Hset) as Hn. unfold GetBestBlock in E. rewrite Hn in E. by injection E as _ <-.
  - eexists. split; [done |]. destruct Hc as [H1 H2 H3]. split; cbn [abs_coins abs_best abs_set SetBestBlock set_hashBlock cache_hashBlock]; [by split | apply R | | done].
    unfold cache_best; cbn [set_hashBlock cache_hashBlock SetBestBlock]. by rewrite Hall.
  - destruct (Flush_run c Hc (rep_set c a R Hall)) as (c' & -> & Hc' & _ & Hs & Hh & _). cbn [obind fst snd]. exists c'. split; [done |].
    apply (represents_same c); [done.. |]. rewrite Hh. apply R.
Qed.

Lemma run_ops_spec ops : forall c a, represents c a -> all_allowed a ops ->
  exists c', run_ops c ops = Ret ((spec_ops a ops).1, c') /\ represents c' (spec_ops a ops).2.
Proof.
  induction ops as [| op ops IH]; intros c a R; cbn [run_ops spec_ops all_allowed]; [by exists c |]. intros [Hop Hops].
  destruct (run_op_spec c a op R Hop) as (c1 & -> & R1). cbn [obind fst snd].
  destruct (spec_op a op) as [s a1]. cbn [fst snd] in *. destruct (IH c1 a1 R1 Hops) as (c2 & -> & R2). cbn [obind fst snd].
  destruct (spec_ops a1 ops) as [ss a2]. by exists c2.
Qed.
End Refinement.
