(* ===== verification/CoinsDB.v ===== *)
(** * The coin database

    [CCoinsViewDB] of [src/txdb.cpp]: the view at the bottom of the caches, over a
    key-value store whose batches are atomic. A large set of changes is written in
    several batches, and a crash between two of them leaves the store in a
    transition that records the old and the new best block. The store holds coins
    by outpoint and the two special keys; [CDBBatch::SizeEstimate] and the size
    from which a batch is written are parameters. *)

From stdpp Require Import gmap.
From S2P Require Import Prelude Serialize Script Hash Transaction Block Merkle MerkleBlock Coins CoinsProps.

Open Scope outcome_scope.

(** ** The store *)

Record CCoinsViewDB := CoinsDB {
  db_coins : gmap COutPoint Coin;
  db_best_block : option (list Z);
  db_head_blocks : option (list (list Z))
}.

Inductive batch_op :=
| EraseCoin (o : COutPoint)
| WriteCoin (o : COutPoint) (coin : Coin)
| EraseBestBlock
| WriteBestBlock (h : list Z)
| EraseHeadBlocks
| WriteHeadBlocks (l : list (list Z)).

Class DbParams := {
  SizeEstimate : list batch_op -> Z;
  batch_size : Z
}.

Definition apply_op (db : CCoinsViewDB) (op : batch_op) : CCoinsViewDB :=
  match op with
  | EraseCoin o => CoinsDB (delete o (db_coins db)) (db_best_block db) (db_head_blocks db)
  | WriteCoin o coin => CoinsDB (<[o := coin]> (db_coins db)) (db_best_block db) (db_head_blocks db)
  | EraseBestBlock => CoinsDB (db_coins db) None (db_head_blocks db)
  | WriteBestBlock h => CoinsDB (db_coins db) (Some h) (db_head_blocks db)
  | EraseHeadBlocks => CoinsDB (db_coins db) (db_best_block db) None
  | WriteHeadBlocks l => CoinsDB (db_coins db) (db_best_block db) (Some l)
  end.

(** [CDBWrapper::WriteBatch], all or nothing. *)
Definition WriteBatch (db : CCoinsViewDB) (batch : list batch_op) : CCoinsViewDB := foldl apply_op db batch.

(** ** The view *)

Definition db_GetCoin (db : CCoinsViewDB) (outpoint : COutPoint) : option Coin := db_coins db !! outpoint.

Definition db_GetBestBlock (db : CCoinsViewDB) : list Z := default uint256_null (db_best_block db).

Definition db_GetHeadBlocks (db : CCoinsViewDB) : list (list Z) := default [] (db_head_blocks db).

Definition entry_op (o : COutPoint) (e : CCoinsCacheEntry) : batch_op :=
  if IsSpent (entry_coin e) then EraseCoin o else WriteCoin o (entry_coin e).

(** The loop over the entries: the batches it writes and the one it ends with. *)
Fixpoint db_batches `{DbParams} (l : list (COutPoint * CCoinsCacheEntry)) (batch : list batch_op) : list (list batch_op) * list batch_op :=
  match l with
  | [] => ([], batch)
  | (o, e) :: l =>
    let batch := if flag (entry_flags e) DIRTY then batch ++ [entry_op o e] else batch in
    if SizeEstimate batch >? batch_size then let '(bs, b) := db_batches l [] in (batch :: bs, b)
    else db_batches l batch
  end.

(** The tip that the store is leaving; in the middle of a replay, that of the
    transition. *)
Definition db_old_tip (db : CCoinsViewDB) (hashBlock : list Z) : outcome (list Z) :=
  let old_tip := db_GetBestBlock db in
  if uint256_IsNull old_tip then
    match db_GetHeadBlocks db with
    | [h0; h1] => let? _ := cassert (bool_decide (h0 = hashBlock)) in Ret h1
    | _ => Ret old_tip
    end
  else Ret old_tip.

(** The batches that [BatchWrite] writes, in order. *)
Definition db_BatchWrite_batches `{DbParams} (db : CCoinsViewDB) (mapCoins : CCoinsMap) (hashBlock : list Z) : outcome (list (list batch_op)) :=
  let? _ := cassert (negb (uint256_IsNull hashBlock)) in
  let? old_tip := db_old_tip db hashBlock in
  let '(bs, b) := db_batches (map_to_list mapCoins) [EraseBestBlock; WriteHeadBlocks [hashBlock; old_tip]] in
  Ret (bs ++ [b ++ [EraseHeadBlocks; WriteBestBlock hashBlock]]).

Definition db_BatchWrite `{DbParams} (db : CCoinsViewDB) (mapCoins : CCoinsMap) (hashBlock : list Z) : outcome (bool * CCoinsViewDB) :=
  let? bs := db_BatchWrite_batches db mapCoins hashBlock in Ret (true, foldl WriteBatch db bs).

#[export] Instance CCoinsViewDB_view `{DbParams} : CCoinsView CCoinsViewDB := {
  view_GetCoin db o := (db_GetCoin db o, db);
  view_GetBestBlock db := (db_GetBestBlock db, db);
  view_BatchWrite := db_BatchWrite
}.

(** ** What the batches do *)

Section Batches.
Context `{P : DbParams}.

(** The operations for the entries of a map. *)
Definition entry_ops (l : list (COutPoint * CCoinsCacheEntry)) : list batch_op :=
  flat_map (fun p => if flag (entry_flags p.2) DIRTY then [entry_op p.1 p.2] else []) l.

Lemma db_batches_ops l : forall batch bs b, db_batches l batch = (bs, b) -> concat bs ++ b = batch ++ entry_ops l /\ (exists t, hd b bs = batch ++ t).
Proof.
  induction l as [| [o e] l IH]; intros batch bs b; cbn [db_batches entry_ops flat_map fst snd].
  { intros [= <- <-]. cbn. rewrite app_nil_r. split; [done | exists []; by rewrite app_nil_r]. }
  set (batch' := if flag (entry_flags e) DIRTY then batch ++ [entry_op o e] else batch).
  assert (Hb : batch' = batch ++ (if flag (entry_flags e) DIRTY then [entry_op o e] else [])) by (subst batch'; case_match; [done | by rewrite app_nil_r]).
  fold (entry_ops l). destruct (SizeEstimate batch' >? batch_size).
  - destruct (db_batches l []) as [bs' b'] eqn:E. intros [= <- <-]. destruct (IH _ _ _ E) as [H _]. cbn. split; [| rewrite Hb; eauto].
    rewrite <- app_assoc, H, Hb. cbn. by rewrite <- app_assoc.
  - intros E. destruct (IH _ _ _ E) as [H [t Ht]]. rewrite H, Ht, Hb, <- !app_assoc. split; [done | eauto].
Qed.

Lemma WriteBatch_concat bs : forall db, foldl WriteBatch db bs = foldl apply_op db (concat bs).
Proof. induction bs as [| b bs IH]; intros db; cbn; [done |]. by rewrite IH, foldl_app. Qed.

(** Operations on coins that come from the entries of a map. *)
Definition from_map (m : CCoinsMap) (op : batch_op) : Prop :=
  exists o e, m !! o = Some e /\ flag (entry_flags e) DIRTY = true /\ op = entry_op o e.

Lemma entry_ops_from_map m l : l ⊆+ map_to_list m -> Forall (from_map m) (entry_ops l).
Proof.
  intros Hl. apply list.Forall_forall. intros op Hop. unfold entry_ops in Hop. apply list_elem_of_In, in_flat_map in Hop as ([o e] & Hin & Hop).
  apply list_elem_of_In, (elem_of_submseteq _ _ _), elem_of_map_to_list in Hin; [| done]. cbn in Hop.
  destruct (flag (entry_flags e) DIRTY) eqn:Ed; [| done]. destruct Hop as [<- | []]. by exists o, e.
Qed.

Lemma apply_entry_op db o e : exists coins, apply_op db (entry_op o e) = CoinsDB coins (db_best_block db) (db_head_blocks db) /\
  forall o', coins !! o' = if decide (o' = o) then live e else db_coins db !! o'.
Proof.
  unfold entry_op, live. destruct (IsSpent (entry_coin e)); cbn [apply_op]; eexists; (split; [reflexivity |]); intros o'; case_decide; subst;
    rewrite ?lookup_delete_eq, ?lookup_insert_eq, ?lookup_delete_ne, ?lookup_insert_ne by done; done.
Qed.

(** The keys of a coin after some of the operations: as before, or as written. *)
Lemma from_map_apply m ops : forall db, Forall (from_map m) ops ->
  exists coins, foldl apply_op db ops = CoinsDB coins (db_best_block db) (db_head_blocks db) /\
    (forall o x, db_coins db !! o = x \/ db_coins db !! o = written m (fun _ => x) o -> coins !! o = x \/ coins !! o = written m (fun _ => x) o) /\
    (forall o e, m !! o = Some e -> flag (entry_flags e) DIRTY = true -> db_coins db !! o = live e \/ entry_op o e ∈ ops -> coins !! o = live e).
Proof.
  induction ops as [| op ops IH]; intros db Hops; cbn [foldl].
  { exists (db_coins db). split; [by destruct db |]. split; [done |]. intros o e _ _ [H | H]; [done | by apply not_elem_of_nil in H]. }
  apply list.Forall_cons in Hops as [(o1 & e1 & Hm1 & Hd1 & ->) Hops]. destruct (apply_entry_op db o1 e1) as (coins1 & -> & H1).
  destruct (IH (CoinsDB coins1 (db_best_block db) (db_head_blocks db)) Hops) as (coins & -> & H2 & H3). cbn in H2, H3. exists coins. split; [done |]. split.
  - intros o x Hx. apply H2. rewrite H1. case_decide; [| done]. subst o1. right. unfold written. by rewrite Hm1, Hd1.
  - intros o e Hm Hd Hx. apply (H3 o e Hm Hd). rewrite H1. destruct (decide (o = o1)) as [-> | Hne].
    + left. congruence.
    + destruct Hx as [Hx | Hx]; [by left |]. apply elem_of_cons in Hx as [Hx | Hx]; [| by right].
      exfalso. unfold entry_op in Hx. destruct (IsSpent (entry_coin e)), (IsSpent (entry_coin e1)); congruence.
Qed.

Lemma entry_ops_elem m o e : m !! o = Some e -> flag (entry_flags e) DIRTY = true -> entry_op o e ∈ entry_ops (map_to_list m).
Proof.
  intros Hm Hd. unfold entry_ops. apply list_elem_of_In, in_flat_map. exists (o, e). split.
  - by apply list_elem_of_In, elem_of_map_to_list.
  - cbn. rewrite Hd. by left.
Qed.

(** The store after a batch write of a map. *)
Definition db_written (m : CCoinsMap) (h : list Z) (db db' : CCoinsViewDB) : Prop :=
  (forall o, db_coins db' !! o = written m (fun o => db_coins db !! o) o) /\ db_best_block db' = Some h /\ db_head_blocks db' = None.

(** The store in the transition from [old_tip] to [h]: every coin is as before or
    as written. *)
Definition db_between (m : CCoinsMap) (h old_tip : list Z) (db db' : CCoinsViewDB) : Prop :=
  (forall o, db_coins db' !! o = db_coins db !! o \/ db_coins db' !! o = written m (fun o => db_coins db !! o) o) /\
  db_best_block db' = None /\ db_head_blocks db' = Some [h; old_tip].

Lemma db_written_unique m h db db1 db2 : db_written m h db db1 -> db_written m h db db2 -> db1 = db2.
Proof.
  destruct db1, db2. intros (H1 & H2 & H3) (G1 & G2 & G3). cbn in *. f_equal; [| congruence..]. apply map_eq. intros o. by rewrite H1, G1.
Qed.

(** The batches of a write, and the store after each of them. *)
Lemma db_BatchWrite_prefix db m h bs old_tip : db_old_tip db h = Ret old_tip -> db_BatchWrite_batches db m h = Ret bs ->
  forall k, let db' := foldl WriteBatch db (take k bs) in
    (k = 0%nat /\ db' = db) \/ ((0 < k < length bs)%nat /\ db_between m h old_tip db db') \/ ((length bs <= k)%nat /\ db_written m h db db').
Proof.
  intros Ht. unfold db_BatchWrite_batches. destruct (cassert _); [cbn [obind] | done..]. rewrite Ht. cbn [obind].
  destruct (db_batches _ _) as [bs0 b] eqn:E. intros [= <-] k. cbn zeta. destruct (db_batches_ops _ _ _ _ E) as [Hops [t Ht']].
  set (start := [EraseBestBlock; WriteHeadBlocks [h; old_tip]]) in *. set (all := entry_ops (map_to_list m)) in *.
  pose proof (entry_ops_from_map m (map_to_list m) ltac:(done)) as Hfrom. fold all in Hfrom. rewrite WriteBatch_concat.
  destruct (le_lt_dec (length (bs0 ++ [b ++ [EraseHeadBlocks; WriteBestBlock h]])) k) as [Hk | Hk].
  { right; right. split; [done |]. rewrite take_ge by done. rewrite concat_app. cbn [concat]. rewrite app_nil_r, app_assoc, Hops, <- app_assoc.
    unfold start. cbn [app foldl apply_op db_coins db_best_block db_head_blocks]. rewrite foldl_app.
    destruct (from_map_apply m all (CoinsDB (db_coins db) None (Some [h; old_tip])) Hfrom) as (coins & -> & Hk1 & Hk2). cbn in *.
    split; [| done]. intros o. cbn. unfold written. destruct (m !! o) as [e |] eqn:Em.
    - destruct (flag (entry_flags e) DIRTY) eqn:Ed; [by apply (Hk2 o e); [| | right; apply entry_ops_elem] |].
      destruct (Hk1 o (db_coins db !! o) (or_introl eq_refl)) as [H | H]; [done |]. rewrite H. unfold written. by rewrite Em, Ed.
    - destruct (Hk1 o (db_coins db !! o) (or_introl eq_refl)) as [H | H]; [done |]. rewrite H. unfold written. by rewrite Em. }
  rewrite length_app in Hk. cbn in Hk. rewrite take_app_le by lia.
  destruct k as [| k]; [by left |]. right; left. split; [rewrite length_app; cbn; lia |].
  destruct bs0 as [| b0 bs0]; [cbn in Hk; lia |]. cbn [hd] in Ht'. cbn [take concat]. rewrite Ht', <- app_assoc.
  cbn [concat] in Hops. rewrite Ht', <- !app_assoc in Hops. apply app_inv_head in Hops.
  assert (Hpre : Forall (from_map m) (t ++ concat (take k bs0))).
  { rewrite <- Hops in Hfrom. apply Forall_app in Hfrom as [F1 F2]. apply Forall_app in F2 as [F2 _]. apply Forall_app. split; [done |].
    rewrite <- (take_drop k bs0), concat_app in F2. by apply Forall_app in F2 as [F2 _]. }
  unfold start. cbn [app foldl apply_op db_coins db_best_block db_head_blocks].
  destruct (from_map_apply m _ (CoinsDB (db_coins db) None (Some [h; old_tip])) Hpre) as (coins & -> & Hk1 & _). cbn in *.
  split; [| done]. intros o. apply (Hk1 o (db_coins db !! o)). by left.
Qed.

Lemma db_batches_nonempty db m h bs : db_BatchWrite_batches db m h = Ret bs -> bs <> [].
Proof.
  unfold db_BatchWrite_batches. destruct (cassert _); try done. cbn [obind]. destruct (db_old_tip db h); try done. cbn [obind].
  destruct (db_batches _ _) as [[] ?]; by intros [= <-].
Qed.

Lemma db_BatchWrite_from db m h old_tip : uint256_IsNull h = false -> db_old_tip db h = Ret old_tip ->
  exists bs db', db_BatchWrite_batches db m h = Ret bs /\ (0 < length bs)%nat /\ db_BatchWrite db m h = Ret (true, db') /\ db_written m h db db'.
Proof.
  intros Hh Ht. destruct (db_BatchWrite_batches db m h) as [bs | | |] eqn:E;
    try (unfold db_BatchWrite_batches in E; rewrite Hh, Ht in E; cbn [negb cassert obind] in E; by destruct (db_batches _ _)).
  assert (Hlen : (0 < length bs)%nat) by (pose proof (db_batches_nonempty db m h bs E); destruct bs; [done | cbn; lia]).
  exists bs, (foldl WriteBatch db bs). unfold db_BatchWrite. rewrite E. split_and!; [done | done | done |].
  destruct (db_BatchWrite_prefix db m h bs old_tip Ht E (length bs)) as [[Hk _] | [[Hk _] | [_ H]]]; [lia | lia | by rewrite firstn_all in H].
Qed.

Definition db_ok (db : CCoinsViewDB) : Prop :=
  (forall o coin, db_coins db !! o = Some coin -> IsSpent coin = false) /\ db_head_blocks db = None.

Lemma db_old_tip_ok db h : db_head_blocks db = None -> db_old_tip db h = Ret (db_GetBestBlock db).
Proof. intros H. unfold db_old_tip, db_GetHeadBlocks. rewrite H. by destruct (uint256_IsNull _). Qed.

Lemma written_unspent m Q o coin : (forall coin, Q o = Some coin -> IsSpent coin = false) -> written m Q o = Some coin -> IsSpent coin = false.
Proof.
  intros HQ. unfold written. destruct (m !! o) as [e |]; [| apply HQ]. destruct (flag _ _); [| apply HQ].
  unfold live. destruct (IsSpent (entry_coin e)) eqn:E; [done |]. by intros [= <-].
Qed.

Lemma db_BatchWrite_run db m h : db_ok db -> fresh_ok m (fun o => db_coins db !! o) -> uint256_IsNull h = false ->
  exists db', db_BatchWrite db m h = Ret (true, db') /\ db_ok db' /\
    (forall o, db_coins db' !! o = written m (fun o => db_coins db !! o) o) /\ db_GetBestBlock db' = h.
Proof.
  intros [Hs Hheads] _ Hh. destruct (db_BatchWrite_from db m h _ Hh (db_old_tip_ok db h Hheads)) as (bs & db' & _ & _ & E & Hw & Hb & Hh').
  exists db'. split_and!; [done | split; [| done] | done | unfold db_GetBestBlock; by rewrite Hb].
  intros o coin. rewrite Hw. apply written_unspent. intros. by apply (Hs o).
Qed.

(** Writing a map to a store that holds part of it already. *)
Lemma db_written_again m h db db1 db2 :
  (forall o, db_coins db1 !! o = db_coins db !! o \/ db_coins db1 !! o = written m (fun o => db_coins db !! o) o) ->
  db_written m h db1 db2 -> db_written m h db db2.
Proof.
  intros Hpart (H1 & H2). split; [| done]. intros o. rewrite H1. specialize (Hpart o). unfold written in *.
  destruct (m !! o) as [e |]; [destruct (flag _ _); [done |] |]; by destruct Hpart.
Qed.

(** The store after a crash between two batches accepts the same write again. *)
Lemma db_old_tip_crash db db' m h old_tip : uint256_IsNull h = false -> db_between m h old_tip db db' -> db_old_tip db' h = Ret old_tip.
Proof.
  intros Hh (_ & Hb & Hheads). unfold db_old_tip, db_GetBestBlock, db_GetHeadBlocks. rewrite Hb, Hheads. cbn. by rewrite bool_decide_eq_true_2.
Qed.
End Batches.

#[export] Instance db_laws `{DbParams} : CoinsViewLaws CCoinsViewDB.
Proof.
  refine {| view_ok := db_ok; coins_at := fun db o => db_coins db !! o; best_block := db_GetBestBlock; BatchWrite_law := db_BatchWrite_run |}.
  - intros db o coin [Hs _]. apply Hs.
  - intros db o Hdb. by exists db.
  - intros db Hdb. by exists db.
Defined.

(** ** Theorems *)

(** C9. A write to the coin database survives a crash: it is a sequence of atomic
    batches, after each of which the store is as before, or in a transition that
    names the new and the old tip and in which every coin is as before or as
    written, or completely written; and repeating the write from any of these
    states ends in the state that an uninterrupted write ends in. *)
Theorem db_BatchWrite_crash_safe `{DbParams} db m h : db_head_blocks db = None -> uint256_IsNull h = false ->
  exists bs final, db_BatchWrite_batches db m h = Ret bs /\ db_BatchWrite db m h = Ret (true, final) /\ db_written m h db final /\
    forall k, let crashed := foldl WriteBatch db (take k bs) in
      (k = 0%nat -> crashed = db) /\
      ((0 < k < length bs)%nat -> db_between m h (db_GetBestBlock db) db crashed) /\
      ((length bs <= k)%nat -> crashed = final) /\
      db_BatchWrite crashed m h = Ret (true, final).
Proof.
  intros Hheads Hh. pose proof (db_old_tip_ok db h Hheads) as Ht.
  destruct (db_BatchWrite_from db m h _ Hh Ht) as (bs & final & Ebs & Hlen & E & Hw). exists bs, final. split_and!; [done.. |]. intros k. cbn zeta.
  destruct (db_BatchWrite_prefix db m h bs _ Ht Ebs k) as [[-> ->] | [[Hk Hbet] | [Hk Hdone]]].
  - split_and!; [done | lia | lia | done].
  - pose proof (db_old_tip_crash db _ m h _ Hh Hbet) as Ht'.
    destruct (db_BatchWrite_from _ m h _ Hh Ht') as (_ & final' & _ & _ & -> & Hw'). destruct Hbet as [Hcoins ?].
    split_and!; [lia | done | lia |]. do 2 f_equal. apply (db_written_unique m h db); [| done]. by apply (db_written_again m h db _ final' Hcoins).
  - assert (foldl WriteBatch db (take k bs) = final) as -> by by apply (db_written_unique m h db).
    destruct (db_BatchWrite_from final m h h Hh) as (_ & final' & _ & _ & -> & Hw').
    { unfold db_old_tip, db_GetBestBlock. destruct Hw as (_ & -> & _). cbn [default from_option id]. by rewrite Hh. }
    split_and!; [lia | lia | done |]. do 2 f_equal. apply (db_written_unique m h db); [| done].
    apply (db_written_again m h db final final'); [| done]. intros o. right. apply Hw.
Qed.

Definition sample_db_params : DbParams := {| SizeEstimate := Zlen; batch_size := 2 |}.

Definition sample_usage : CoinUsage := {| DynamicMemoryUsage coin := Zlen (scriptPubKey (coin_out coin)); usage_empty := eq_refl |}.

Definition empty_db : CCoinsViewDB := CoinsDB ∅ None None.

Definition sample_outpoint (n : Z) : COutPoint := OutPoint (replicate 32 7) n.

Definition sample_coin (v : Z) : Coin := Coin_of (TxOut v [81]) 100 false.

(** Three entries, written in two batches. *)
Definition sample_map : CCoinsMap :=
  <[sample_outpoint 0 := CacheEntry (sample_coin 5) DIRTY]> (<[sample_outpoint 1 := CacheEntry coinEmpty DIRTY]> (<[sample_outpoint 2 := CacheEntry (sample_coin 6) 0]> ∅)).

Lemma db_BatchWrite_crash_safe_witness :
  let H := sample_db_params in
  exists bs final, db_BatchWrite_batches empty_db sample_map (replicate 32 1) = Ret bs /\ (1 < length bs)%nat /\
    db_BatchWrite (foldl WriteBatch empty_db (take 1 bs)) sample_map (replicate 32 1) = Ret (true, final).
Proof.
  intros H. destruct (db_BatchWrite_crash_safe empty_db sample_map (replicate 32 1)) as (bs & final & E & _ & _ & Hk); [reflexivity | reflexivity |].
  exists bs, final. split; [exact E |]. split; [| apply (Hk 1%nat)]. vm_compute in E. injection E as <-. vm_compute. lia.
Defined.

(** C5. A cache over any view refines a plain set of coins: every allowed sequence of
    operations runs without an exception or a failed assertion, shows what the set
    shows and leaves the cache standing for the set; and a flush at the end makes
    the base view stand for it, with the best block of the set. *)
Theorem cache_refines_set {S} `{L : CoinsViewLaws S, U : CoinUsage} (c : CCoinsViewCache S) a ops :
  represents c a -> all_allowed a ops -> abs_set (spec_ops a ops).2 = true ->
  exists c' c'', run_ops c ops = Ret ((spec_ops a ops).1, c') /\ represents c' (spec_ops a ops).2 /\
    Flush c' = Ret (true, c'') /\ (forall o, coins_at (cache_base c'') o = abs_coins (spec_ops a ops).2 o) /\
    best_block (cache_base c'') = abs_best (spec_ops a ops).2.
Proof.
  intros R Hall Hset. destruct (run_ops_spec ops c a R Hall) as (c' & E & R').
  destruct (Flush_run c' (rep_ok _ _ R') (rep_set _ _ R' Hset)) as (c'' & EF & _ & _ & _ & _ & Hcoins & Hbest).
  exists c', c''. split_and!; [done | done | done | | rewrite Hbest; apply R']. intros o. rewrite Hcoins. apply R'.
Qed.

(** A new cache over a consistent view stands for the coins of the view. *)
Lemma new_represents {S} `{L : CoinsViewLaws S, U : CoinUsage} (s : S) :
  view_ok s -> represents (CCoinsViewCache_new s) (Abstract (coins_at s) (best_block s) false).
Proof. intros Hs. split; [split; [done | | done] | done | done | done]. intros o e. cbn. by rewrite lookup_empty. Qed.

Lemma empty_db_ok : db_ok empty_db.
Proof. split; [| done]. intros o coin. cbn. by rewrite lookup_empty. Qed.

Definition sample_ops : list coin_op :=
  [op_SetBestBlock (replicate 32 1); op_AddCoin (sample_outpoint 0) (sample_coin 5) false; op_HaveCoin (sample_outpoint 0);
   op_Flush; op_SpendCoin (sample_outpoint 0); op_GetCoin (sample_outpoint 0); op_AddCoin (sample_outpoint 0) (sample_coin 6) false].

Lemma cache_refines_set_witness :
  let H := sample_db_params in let U := sample_usage in
  let c := CCoinsViewCache_new (CCoinsViewCache_new empty_db) in
  exists c' c'', run_ops c sample_ops = Ret ([saw_nothing; saw_nothing; saw_bool true; saw_bool true; saw_coin (Some (sample_coin 5));
    saw_coin None; saw_nothing], c') /\ Flush c' = Ret (true, c'') /\ coins_at (cache_base c'') (sample_outpoint 0) = Some (sample_coin 6).
Proof.
  intros H U c.
  assert (R : represents c (Abstract (coins_at (CCoinsViewCache_new empty_db)) (best_block (CCoinsViewCache_new empty_db)) false)).
  { apply new_represents. exact (rep_ok _ _ (new_represents empty_db empty_db_ok)). }
  destruct (cache_refines_set c _ sample_ops R) as (c' & c'' & E & _ & EF & Hcoins & _).
  - repeat split.
  - reflexivity.
  - exists c', c''. split; [exact E |]. split; [exact EF |]. rewrite Hcoins. vm_compute. reflexivity.
Defined.
