(* ===== verification/UpdateCoins.v ===== *)
(** * Connecting and disconnecting blocks, on the coins

    The parts of [src/validation.cpp] that change the set of unspent outputs when a
    block is connected ([UpdateCoins]) or disconnected ([ApplyTxInUndo] and the loop
    of [DisconnectBlock]), with the undo data of [src/undo.h]. Reading the undo data
    from disk and the rollback of the contract storage are left out. *)

From stdpp Require Import gmap.
From S2P Require Import Prelude Serialize Script Hash Transaction Block Merkle MerkleBlock Coins.

Open Scope outcome_scope.

Inductive DisconnectResult := DISCONNECT_OK | DISCONNECT_UNCLEAN | DISCONNECT_FAILED.

(** [CTxUndo::vprevout] *)
Abbreviation CTxUndo := (list Coin).

Section UpdateCoins.
Context {S : Type} `{V : CCoinsView S, U : CoinUsage}.
Implicit Types c : CCoinsViewCache S.

(** ** Connecting *)

Fixpoint spend_inputs c (l : list CTxIn) : outcome (CTxUndo * CCoinsViewCache S) :=
  match l with
  | [] => Ret ([], c)
  | txin :: l =>
    let '(spent, c) := SpendCoin c (prevout txin) in
    match spent with
    | None => Abort
    | Some coin => let? r := spend_inputs c l in Ret (coin :: r.1, r.2)
    end
  end.

Definition UpdateCoins c (tx : CTransaction) (nHeight : Z) : outcome (CTxUndo * CCoinsViewCache S) :=
  let? r := if negb (IsCoinBase tx) then spend_inputs c (vin tx) else Ret ([], c) in
  let? c := AddCoins r.2 tx nHeight false in
  Ret (r.1, c).

(** The loop of [ConnectBlock] over the transactions: the undo data of all but the
    first. *)
Fixpoint connect_transactions c (first : bool) (l : list CTransaction) (nHeight : Z) : outcome (list CTxUndo * CCoinsViewCache S) :=
  match l with
  | [] => Ret ([], c)
  | tx :: l =>
    let? r := UpdateCoins c tx nHeight in
    let? rs := connect_transactions r.2 false l nHeight in
    Ret (if first then rs.1 else r.1 :: rs.1, rs.2)
  end.

(** ** Disconnecting *)

Definition ApplyTxInUndo c (undo : Coin) (out : COutPoint) : outcome (DisconnectResult * CCoinsViewCache S) :=
  let '(have, c) := HaveCoin c out in
  let fClean := negb have in
  let '(undo, c) :=
    if coin_nHeight undo =? 0 then
      let '(alternate, c) := AccessByTxid c (outpoint_hash out) in
      if negb (IsSpent alternate) then (Some (mkCoin (coin_out undo) (fCoinBase alternate) (coin_nHeight alternate)), c) else (None, c)
    else (Some undo, c) in
  match undo with
  | None => Ret (DISCONNECT_FAILED, c)
  | Some undo =>
    let? c := AddCoin c out undo (negb fClean) in
    Ret (if fClean then DISCONNECT_OK else DISCONNECT_UNCLEAN, c)
  end.

(** The check and removal of the outputs of a transaction, from the index [o] on. *)
Fixpoint disconnect_outputs c (hash : list Z) (is_coinbase is_coinstake : bool) (nHeight : Z) (o : Z) (l : list CTxOut) (fClean : bool) :
    bool * CCoinsViewCache S :=
  match l with
  | [] => (fClean, c)
  | out :: l =>
    if negb (IsUnspendable (scriptPubKey out)) then
      let '(spent, c) := SpendCoin c (OutPoint hash (uint32 o)) in
      let fClean :=
        if is_coinstake && CTxOut_IsEmpty out then fClean
        else
          match spent with
          | None => false
          | Some coin =>
            if negb (bool_decide (out = coin_out coin)) || negb (nHeight =? coin_nHeight coin) || negb (eqb is_coinbase (fCoinBase coin))
            then false else fClean
          end in
      disconnect_outputs c hash is_coinbase is_coinstake nHeight (o + 1) l fClean
    else disconnect_outputs c hash is_coinbase is_coinstake nHeight (o + 1) l fClean
  end.

(** The inputs, from the last to the first; [None] is a failure. *)
Fixpoint restore_inputs c (l : list CTxIn) (vprevout : CTxUndo) (fClean : bool) : outcome (option bool * CCoinsViewCache S) :=
  match l, vprevout with
  | txin :: l, undo :: vprevout =>
    let? r := restore_inputs c l vprevout fClean in
    match r.1 with
    | None => Ret r
    | Some fClean =>
      let? r := ApplyTxInUndo r.2 undo (prevout txin) in
      Ret (match r.1 with DISCONNECT_FAILED => None | DISCONNECT_UNCLEAN => Some false | DISCONNECT_OK => Some fClean end, r.2)
    end
  | _, _ => Ret (Some fClean, c)
  end.

(** One transaction; there is no undo data for the first one. *)
Definition disconnect_transaction c (tx : CTransaction) (undo : option CTxUndo) (nHeight : Z) (fClean : bool) :
    outcome (option bool * CCoinsViewCache S) :=
  let is_coinstake := IsCoinStake tx in
  let is_coinbase := if is_coinstake then is_coinstake else IsCoinBase tx in
  let '(fClean, c) := disconnect_outputs c (ComputeHash tx) is_coinbase is_coinstake nHeight 0 (vout tx) fClean in
  match undo with
  | None => Ret (Some fClean, c)
  | Some vprevout =>
    if negb (Zlen vprevout =? Zlen (vin tx)) then Ret (None, c) else restore_inputs c (vin tx) vprevout fClean
  end.

(** The loop over the transactions, in reverse order. *)
Fixpoint disconnect_transactions c (first : bool) (l : list CTransaction) (vtxundo : list CTxUndo) (nHeight : Z) :
    outcome (option bool * CCoinsViewCache S) :=
  match l with
  | [] => Ret (Some true, c)
  | tx :: l =>
    let '(undo, vtxundo) := if first then (None, vtxundo) else (Some (default [] (vtxundo !! 0%nat)), tail vtxundo) in
    let? r := disconnect_transactions c false l vtxundo nHeight in
    match r.1 with
    | None => Ret r
    | Some fClean => disconnect_transaction r.2 tx undo nHeight fClean
    end
  end.

(** [DisconnectBlock] on the coins: the undo data as read from disk, the block, its
    height and the hash of the block before it. *)
Definition DisconnectBlock c (blockUndo : option (list CTxUndo)) (vtx : list CTransaction) (nHeight : Z) (hashPrev : list Z) :
    outcome (DisconnectResult * CCoinsViewCache S) :=
  match blockUndo with
  | None => Ret (DISCONNECT_FAILED, c)
  | Some vtxundo =>
    if negb (Zlen vtxundo + 1 =? Zlen vtx) then Ret (DISCONNECT_FAILED, c)
    else
      let? r := disconnect_transactions c true vtx vtxundo nHeight in
      match r.1 with
      | None => Ret (DISCONNECT_FAILED, r.2)
      | Some fClean => Ret (if fClean then DISCONNECT_OK else DISCONNECT_UNCLEAN, SetBestBlock r.2 hashPrev)
      end
  end.
End UpdateCoins.
