(* ===== verification/UpdateCoinsProps.v ===== *)
(** * Disconnecting a block undoes connecting it

    The effect of a block on the set of coins, and the proof that
    [DisconnectBlock] with the undo data of [UpdateCoins] restores the set. *)

From stdpp Require Import gmap.
From S2P Require Import Prelude Serialize Script Hash Transaction Block Merkle MerkleBlock Coins CoinsProps CoinsDB UpdateCoins.

Open Scope outcome_scope.

(** ** The effect of a block on a set of coins *)

(** The coins that outputs create, from the index [i] on. *)
Fixpoint created (txid : list Z) (fCoinbase : bool) (nHeight i : Z) (l : list CTxOut) (o : COutPoint) : option Coin :=
  match l with
  | [] => None
  | out :: l =>
    if decide (o = OutPoint txid i) then if IsUnspendable (scriptPubKey out) then None else Some (Coin_of out nHeight fCoinbase)
    else created txid fCoinbase nHeight (i + 1) l o
  end.

(** A set with the created coins added. *)
Definition plus (P : coin_set) (new : coin_set) : coin_set := fun o => match new o with Some coin => Some coin | None => P o end.

Definition spent_by (P : coin_set) (l : list CTxIn) : coin_set := foldl (fun P i => upd P (prevout i) None) P l.

Definition tx_spent (P : coin_set) (tx : CTransaction) : coin_set := if IsCoinBase tx then P else spent_by P (vin tx).

Definition tx_created (tx : CTransaction) (nHeight : Z) : coin_set :=
  created (ComputeHash tx) (IsCoinBase tx || IsCoinStake tx) nHeight 0 (vout tx).

Definition tx_effect (P : coin_set) (tx : CTransaction) (nHeight : Z) : coin_set := plus (tx_spent P tx) (tx_created tx nHeight).

Definition block_effect (P : coin_set) (vtx : list CTransaction) (nHeight : Z) : coin_set := foldl (fun P tx => tx_effect P tx nHeight) P vtx.

(** Every input is there when its turn comes. *)
Fixpoint inputs_there (P : coin_set) (l : list CTxIn) : Prop :=
  match l with [] => True | i :: l => is_Some (P (prevout i)) /\ inputs_there (upd P (prevout i) None) l end.

(** A transaction that can be connected: the first of a block is its coinbase, the
    others find their inputs, and no output replaces a coin. *)
Record tx_connects (P : coin_set) (first : bool) (tx : CTransaction) : Prop := {
  tc_coinbase : IsCoinBase tx = first;
  tc_inputs : first = false -> inputs_there P (vin tx);
  tc_values : Forall (fun out => nValue out <> -1) (vout tx);
  tc_count : Zlen (vout tx) < 2 ^ 32;
  tc_new : forall j, 0 <= j < Zlen (vout tx) -> tx_spent P tx (OutPoint (ComputeHash tx) j) = None
}.

Fixpoint block_connects (P : coin_set) (first : bool) (l : list CTransaction) (nHeight : Z) : Prop :=
  match l with [] => True | tx :: l => tx_connects P first tx /\ block_connects (tx_effect P tx nHeight) false l nHeight end.

(** The coins of a set can be spent and carry their height. *)
Definition coins_regular (P : coin_set) : Prop :=
  forall o coin, P o = Some coin -> IsUnspendable (scriptPubKey (coin_out coin)) = false /\ coin_nHeight coin <> 0.

Section Disconnect.
Context {S : Type} `{L : CoinsViewLaws S, U : CoinUsage}.
Implicit Types c : CCoinsViewCache S.

(** A cache that stands for a set. *)
Definition holds c (P : coin_set) : Prop := cache_ok c /\ forall o, cache_coins c o = P o.

Lemma holds_ext c (P Q : coin_set) : (forall o, P o = Q o) -> holds c P -> holds c Q.
Proof. intros H [Hc HP]. split; [done |]. intros o. by rewrite HP. Qed.

Lemma holds_unspent c P o coin : holds c P -> P o = Some coin -> IsSpent coin = false.
Proof. intros [Hc HP] Ho. apply (cache_coins_unspent c o); [done | by rewrite HP]. Qed.

Lemma spend_holds c P o coin : holds c P -> P o = Some coin -> exists c', SpendCoin c o = (Some coin, c') /\ holds c' (upd P o None).
Proof.
  intros [Hc HP] Ho. destruct (SpendCoin_run c o Hc) as (r & c' & E & Hc' & _ & Hcoins & Hr). exists c'. rewrite HP, Ho in Hr.
  destruct r as [coin' |]; [| done]. destruct (IsSpent coin'); [done |]. injection Hr as <-. split; [done |]. split; [done |].
  intros o'. rewrite Hcoins. unfold upd. case_decide; [done | apply HP].
Qed.

Lemma add_holds c P o coin overwrite : holds c P -> IsSpent coin = false -> P o = None ->
  exists c', AddCoin c o coin overwrite = Ret c' /\
    holds c' (if IsUnspendable (scriptPubKey (coin_out coin)) then P else upd P o (Some coin)).
Proof.
  intros [Hc HP] Hs Ho. destruct (AddCoin_run c o coin overwrite Hc Hs) as (c' & E & Hc' & _ & Hcoins); [intros _; by rewrite HP |].
  exists c'. split; [done |]. split; [done |]. intros o'. rewrite Hcoins. destruct (IsUnspendable _); [apply HP |].
  unfold upd. case_decide; [done | apply HP].
Qed.

(** ** Outputs *)

Lemma created_before txid cb h l : forall i j, j < i -> created txid cb h i l (OutPoint txid j) = None.
Proof.
  induction l as [| out l IH]; intros i j Hij; cbn [created]; [done |].
  rewrite decide_False by (injection 1; lia). apply IH. lia.
Qed.

Lemma AddCoins_holds txid cb h l : forall c P i, holds c P -> 0 <= i -> i + Zlen l <= 2 ^ 32 -> Forall (fun out => nValue out <> -1) l ->
  (forall j, i <= j < i + Zlen l -> P (OutPoint txid j) = None) ->
  exists c', AddCoins_loop c txid cb false h i l = Ret c' /\ holds c' (plus P (created txid cb h i l)).
Proof.
  induction l as [| out l IH]; intros c P i HP Hi Hlen Hv Hnew; cbn [AddCoins_loop].
  { exists c. split; [done |]. by apply (holds_ext c P). }
  rewrite Zlen_cons in Hlen, Hnew. pose proof (Zlen_nonneg l) as Hl. apply list.Forall_cons in Hv as [Hv1 Hv].
  rewrite uint32_id by lia. destruct (add_holds c P (OutPoint txid i) (Coin_of out h cb) cb HP) as (c1 & -> & H1).
  { unfold IsSpent, CTxOut_IsNull. cbn. by apply Z.eqb_neq. }
  { apply Hnew. lia. }
  cbn [obind coin_out Coin_of] in *. set (P1 := if IsUnspendable (scriptPubKey out) then P else _) in H1.
  assert (Hother : forall o, o <> OutPoint txid i -> P1 o = P o).
  { intros o Ho. subst P1. destruct (IsUnspendable _); [done |]. unfold upd. by rewrite decide_False. }
  destruct (IH c1 P1 (i + 1) H1) as (c2 & -> & H2); [lia | lia | done | |].
  { intros j Hj. rewrite Hother by (injection 1; lia). apply Hnew. lia. }
  exists c2. split; [done |]. eapply holds_ext; [| exact H2]. intros o. unfold plus. cbn [created]. case_decide as D.
  - subst o. rewrite created_before by lia. subst P1. destruct (IsUnspendable _); [done |]. unfold upd. by rewrite decide_True.
  - by rewrite Hother.
Qed.

Lemma disconnect_outputs_holds txid cb stake h l : 0 <= h < 2 ^ 31 -> forall c P i clean, 0 <= i -> i + Zlen l <= 2 ^ 32 ->
  (forall j, i <= j < i + Zlen l -> P (OutPoint txid j) = None) -> holds c (plus P (created txid cb h i l)) ->
  exists c', disconnect_outputs c txid cb stake h i l clean = (clean, c') /\ holds c' P.
Proof.
  intros Hh. induction l as [| out l IH]; intros c P i clean Hi Hlen Hnew HQ; cbn [disconnect_outputs].
  { exists c. split; [done |]. by apply (holds_ext c (plus P (created txid cb h i []))). }
  rewrite Zlen_cons in Hlen, Hnew. pose proof (Zlen_nonneg l) as Hl. rewrite uint32_id by lia.
  assert (Hrest : forall Q, (forall o, Q o = if decide (o = OutPoint txid i) then None else plus P (created txid cb h i (out :: l)) o) ->
    forall o, Q o = plus P (created txid cb h (i + 1) l) o).
  { intros Q HQ' o. rewrite HQ'. unfold plus. cbn [created]. case_decide; [| done]. subst o. rewrite created_before by lia. symmetry. apply Hnew. lia. }
  destruct (IsUnspendable (scriptPubKey out)) eqn:Eu; cbn [negb].
  - apply IH; [lia | lia | intros j Hj; apply Hnew; lia |]. eapply holds_ext; [| exact HQ]. apply Hrest. intros o. case_decide; [| done].
    subst o. unfold plus. cbn [created]. rewrite decide_True, Eu by done. apply Hnew. lia.
  - destruct (spend_holds c _ (OutPoint txid i) (Coin_of out h cb) HQ) as (c1 & -> & H1).
    { unfold plus. cbn [created]. by rewrite decide_True, Eu. }
    cbn [Coin_of coin_out fCoinBase coin_nHeight]. rewrite bool_decide_eq_true_2, Z.mod_small, Z.eqb_refl, eqb_reflx by done. cbn [negb orb].
    assert (Hc : (if stake && CTxOut_IsEmpty out then clean else clean) = clean) by by case_match. rewrite Hc.
    apply IH; [lia | lia | intros j Hj; apply Hnew; lia |]. eapply holds_ext; [| exact H1]. apply Hrest. intros o. unfold upd. by case_decide.
Qed.

(** ** Inputs *)

(** The coins that inputs take, in order. *)
Fixpoint taken (P : coin_set) (l : list CTxIn) (us : CTxUndo) : Prop :=
  match l, us with
  | [], [] => True
  | i :: l, u :: us => P (prevout i) = Some u /\ taken (upd P (prevout i) None) l us
  | _, _ => False
  end.

(** Coins that an undo can put back. *)
Definition restorable (P : coin_set) : Prop := coins_regular P /\ forall o coin, P o = Some coin -> IsSpent coin = false.

Lemma restorable_spend P o : restorable P -> restorable (upd P o None).
Proof. intros [H1 H2]. split; intros o' coin; unfold upd; (case_decide; [done |]); [apply H1 | apply H2]. Qed.

Lemma spend_inputs_holds l : forall c P, holds c P -> inputs_there P l ->
  exists us c', spend_inputs c l = Ret (us, c') /\ holds c' (spent_by P l) /\ taken P l us.
Proof.
  induction l as [| i l IH]; intros c P HP; cbn [inputs_there spend_inputs]; [by exists [], c |]. intros [[coin Ho] Hl].
  destruct (spend_holds c P _ _ HP Ho) as (c1 & -> & H1). destruct (IH c1 _ H1 Hl) as (us & c2 & -> & H2 & H3). cbn [obind fst snd].
  by exists (coin :: us), c2.
Qed.

Lemma taken_length l : forall P us, taken P l us -> length us = length l.
Proof. induction l as [| i l IH]; intros P [| u us]; cbn; try done. intros [_ H]. by rewrite (IH _ _ H). Qed.

Lemma ApplyTxInUndo_holds c P o coin : holds c (upd P o None) -> restorable P -> P o = Some coin ->
  exists c', ApplyTxInUndo c coin o = Ret (DISCONNECT_OK, c') /\ holds c' P.
Proof.
  intros [Hc HP] [Hreg Hsp] Ho. destruct (Hreg o coin Ho) as [Hu Hh]. unfold ApplyTxInUndo.
  destruct (HaveCoin_run c o Hc) as (c1 & -> & Hc1 & [Hs _]).
  assert (Hnone : cache_coins c o = None) by (rewrite HP; unfold upd; by rewrite decide_True).
  rewrite Hnone, bool_decide_eq_false_2 by (by intros [? ?]). cbn [negb]. rewrite (proj2 (Z.eqb_neq _ _) Hh).
  destruct (add_holds c1 (upd P o None) o coin false) as (c2 & -> & H2).
  { split; [done |]. intros o'. by rewrite Hs. }
  { by apply (Hsp o). }
  { unfold upd. by rewrite decide_True. }
  cbn [obind]. exists c2. split; [done |]. rewrite Hu in H2. eapply holds_ext; [| exact H2]. intros o'. unfold upd. case_decide; [by subst | done].
Qed.

Lemma restore_inputs_holds l : forall c P us clean, holds c (spent_by P l) -> restorable P -> taken P l us ->
  exists c', restore_inputs c l us clean = Ret (Some clean, c') /\ holds c' P.
Proof.
  induction l as [| i l IH]; intros c P us clean Hc Hr; destruct us as [| u us]; cbn [taken restore_inputs]; try done; [by exists c |].
  intros [Ho Ht]. destruct (IH c (upd P (prevout i) None) us clean Hc (restorable_spend _ _ Hr) Ht) as (c1 & -> & H1). cbn [obind fst snd].
  destruct (ApplyTxInUndo_holds c1 P (prevout i) u H1 Hr Ho) as (c2 & -> & H2). cbn [obind fst snd]. by exists c2.
Qed.

(** ** Transactions and blocks *)

Lemma UpdateCoins_holds c P first tx h : holds c P -> tx_connects P first tx ->
  exists undo c', UpdateCoins c tx h = Ret (undo, c') /\ holds c' (tx_effect P tx h) /\ (first = false -> taken P (vin tx) undo).
Proof.
  intros HP [Hcb Hin Hv Hn Hnew]. unfold UpdateCoins.
  assert (Hs : exists us c1, (if negb (IsCoinBase tx) then spend_inputs c (vin tx) else Ret ([], c)) = Ret (us, c1) /\ holds c1 (tx_spent P tx) /\
    (first = false -> taken P (vin tx) us)).
  { unfold tx_spent. rewrite Hcb. destruct first; cbn [negb]; [by exists [], c |].
    destruct (spend_inputs_holds (vin tx) c P HP (Hin eq_refl)) as (us & c1 & E & H1 & H2). by exists us, c1. }
  destruct Hs as (us & c1 & -> & H1 & Ht). cbn [obind fst snd]. unfold AddCoins.
  destruct (AddCoins_holds (ComputeHash tx) (IsCoinBase tx || IsCoinStake tx) h (vout tx) c1 _ 0 H1) as (c2 & -> & H2); [lia | lia | done | done |].
  cbn [obind]. by exists us, c2.
Qed.

Lemma created_regular txid cb h l : h mod 2 ^ 31 <> 0 -> Forall (fun out => nValue out <> -1) l -> forall i o coin,
  created txid cb h i l o = Some coin -> IsUnspendable (scriptPubKey (coin_out coin)) = false /\ coin_nHeight coin <> 0 /\ IsSpent coin = false.
Proof.
  intros Hh. induction l as [| out l IH]; intros Hv i o coin; cbn [created]; [done |]. apply list.Forall_cons in Hv as [Hv1 Hv].
  case_decide; [| by apply IH]. destruct (IsUnspendable (scriptPubKey out)) eqn:E; [done |]. intros [= <-]. cbn. split_and!; [done | done |].
  unfold IsSpent, CTxOut_IsNull. cbn. by apply Z.eqb_neq.
Qed.

Lemma restorable_spent P l : restorable P -> restorable (spent_by P l).
Proof. revert P. induction l as [| i l IH]; intros P H; [done |]. cbn. apply IH. by apply restorable_spend. Qed.

Lemma restorable_effect P first tx h : 0 < h < 2 ^ 31 -> restorable P -> tx_connects P first tx -> restorable (tx_effect P tx h).
Proof.
  intros Hh HP HT. assert (Hm : h mod 2 ^ 31 <> 0) by (rewrite Z.mod_small; lia).
  assert (Hs : restorable (tx_spent P tx)) by (unfold tx_spent; case_match; [done | by apply restorable_spent]).
  pose proof (created_regular (ComputeHash tx) (IsCoinBase tx || IsCoinStake tx) h (vout tx) Hm (tc_values _ _ _ HT) 0) as Hc.
  split; intros o coin; unfold tx_effect, plus, tx_created; (destruct (created _ _ _ _ _ o) as [coin' |] eqn:E; [intros [= <-] | apply Hs]).
  - by destruct (Hc o coin' E) as (? & ? & ?).
  - by destruct (Hc o coin' E) as (? & ? & ?).
Qed.

Lemma disconnect_transaction_holds c P first tx h undo clean : 0 < h < 2 ^ 31 -> restorable P -> tx_connects P first tx ->
  holds c (tx_effect P tx h) -> (first = false -> taken P (vin tx) undo) ->
  exists c', disconnect_transaction c tx (if first then None else Some undo) h clean = Ret (Some clean, c') /\ holds c' P.
Proof.
  intros Hh HP [Hcb Hin Hv Hn Hnew] Hc Ht. unfold disconnect_transaction.
  assert (Ecb : (if IsCoinStake tx then IsCoinStake tx else IsCoinBase tx) = IsCoinBase tx || IsCoinStake tx) by (by destruct (IsCoinBase tx), (IsCoinStake tx)).
  rewrite Ecb.
  destruct (disconnect_outputs_holds (ComputeHash tx) (IsCoinBase tx || IsCoinStake tx) (IsCoinStake tx) h (vout tx) ltac:(lia) c (tx_spent P tx) 0 clean)
    as (c1 & -> & H1); [lia | lia | done | done |].
  unfold tx_spent in H1. rewrite Hcb in H1. destruct first; [by exists c1 |]. specialize (Ht eq_refl).
  unfold Zlen. rewrite (taken_length _ _ _ Ht), Z.eqb_refl. cbn [negb]. by apply restore_inputs_holds.
Qed.

Lemma block_undo l h : 0 < h < 2 ^ 31 -> forall c P first, holds c P -> restorable P -> block_connects P first l h ->
  exists undos c', connect_transactions c first l h = Ret (undos, c') /\ holds c' (block_effect P l h) /\
    length undos = length (if first then tail l else l) /\
    forall c1, holds c1 (block_effect P l h) -> exists c2, disconnect_transactions c1 first l undos h = Ret (Some true, c2) /\ holds c2 P.
Proof.
  intros Hh. induction l as [| tx l IH]; intros c P first HP Hr; cbn [connect_transactions disconnect_transactions block_connects].
  { intros _. exists [], c. split_and!; [done | done | by destruct first |]. intros c1 H1. by exists c1. }
  intros [HT HB]. destruct (UpdateCoins_holds c P first tx h HP HT) as (undo & c1 & -> & H1 & Ht). cbn [obind fst snd].
  destruct (IH c1 (tx_effect P tx h) false H1 (restorable_effect _ _ _ _ Hh Hr HT) HB) as (undos & c2 & -> & H2 & Hlen & Hback). cbn [obind fst snd].
  eexists _, c2. split; [reflexivity |]. split_and!; [done | destruct first; cbn; by rewrite Hlen |]. intros c3 H3.
  destruct (Hback c3 H3) as (c4 & E4 & H4). destruct (disconnect_transaction_holds c4 P first tx h undo true Hh Hr HT H4 Ht) as (c5 & E5 & H5).
  exists c5. split; [| done]. destruct first; cbn [tail]; rewrite E4; cbn [obind fst snd]; exact E5.
Qed.
End Disconnect.

(** ** Theorem *)

(** C8. Disconnecting a block undoes connecting it: for a block whose first
    transaction is its coinbase, whose other transactions find their inputs unspent
    and none of whose outputs replaces a coin, connecting it on a cache over any
    view runs without a failed assertion or an exception and has exactly the effect
    of the transactions on the set of coins, and [DisconnectBlock] with the undo data
    that connecting gave is clean and brings back the set and the best block. *)
Theorem connect_disconnect {S} `{L : CoinsViewLaws S, U : CoinUsage} (c : CCoinsViewCache S) vtx nHeight hashPrev :
  cache_ok c -> coins_regular (cache_coins c) -> 0 < nHeight < 2 ^ 31 -> vtx <> [] -> block_connects (cache_coins c) true vtx nHeight ->
  uint256_IsNull hashPrev = false ->
  exists undo c1 c2, connect_transactions c true vtx nHeight = Ret (undo, c1) /\ cache_ok c1 /\
    (forall o, cache_coins c1 o = block_effect (cache_coins c) vtx nHeight o) /\
    DisconnectBlock c1 (Some undo) vtx nHeight hashPrev = Ret (DISCONNECT_OK, c2) /\ cache_ok c2 /\
    (forall o, cache_coins c2 o = cache_coins c o) /\ cache_best c2 = hashPrev.
Proof.
  intros Hc Hreg Hh Hne HB Hp.
  destruct (block_undo vtx nHeight Hh c (cache_coins c) true) as (undo & c1 & E1 & [Hc1 H1] & Hlen & Hback); [by split | | done |].
  { split; [done |]. intros o coin. by apply cache_coins_unspent. }
  destruct (Hback c1 (conj Hc1 H1)) as (c2 & E2 & [Hc2 H2]).
  exists undo, c1, (SetBestBlock c2 hashPrev). split_and!; [done | done | done | | by destruct Hc2 | done |].
  - unfold DisconnectBlock. rewrite E2. cbn [obind fst snd].
    assert (Hl : (Zlen undo + 1 =? Zlen vtx) = true) by (apply Z.eqb_eq; destruct vtx; [done |]; unfold Zlen; cbn in *; lia). by rewrite Hl.
  - unfold cache_best; cbn [SetBestBlock set_hashBlock cache_hashBlock]. by rewrite Hp.
Qed.

(** A block with a coinbase that pays nobody and a payment. *)
Definition sample_coinbase : CTransaction := Transaction 1 [TxIn (OutPoint uint256_null (uint32 (-1))) [81; 81] SEQUENCE_FINAL []] [] 0.

Definition sample_payment : CTransaction := Transaction 1 [TxIn (sample_outpoint 0) [81] SEQUENCE_FINAL []] [TxOut 4 [81]] 0.

Lemma connect_disconnect_witness :
  let H := sample_db_params in let U := sample_usage in
  exists c undo c1 c2 : _, cache_coins c (sample_outpoint 0) = Some (sample_coin 5) /\
    connect_transactions c true [sample_coinbase; sample_payment] 200 = Ret (undo, c1) /\
    DisconnectBlock (S := CCoinsViewDB) c1 (Some undo) [sample_coinbase; sample_payment] 200 (replicate 32 1) = Ret (DISCONNECT_OK, c2) /\
    cache_coins c2 (sample_outpoint 0) = Some (sample_coin 5).
Proof.
  intros H U. pose proof (rep_ok _ _ (new_represents empty_db empty_db_ok)) as Hnew.
  destruct (AddCoin_run (CCoinsViewCache_new empty_db) (sample_outpoint 0) (sample_coin 5) true Hnew) as (c & _ & Hc & _ & Hcoins); [reflexivity | discriminate |].
  assert (Hone : forall o, cache_coins c o = if decide (o = sample_outpoint 0) then Some (sample_coin 5) else None).
  { intros o. rewrite Hcoins. change (IsUnspendable _) with false. cbv iota. unfold upd. case_decide; [done |]. unfold cache_coins. cbn. by rewrite !lookup_empty. }
  destruct (connect_disconnect c [sample_coinbase; sample_payment] 200 (replicate 32 1)) as (undo & c1 & c2 & E1 & _ & _ & E2 & _ & H2 & _).
  - exact Hc.
  - intros o coin. rewrite Hone. case_decide; [| discriminate]. intros [= <-]. split; [reflexivity | discriminate].
  - lia.
  - discriminate.
  - split; [split | split; [split | exact I]].
    + reflexivity.
    + discriminate.
    + constructor.
    + reflexivity.
    + intros j Hj. exfalso. vm_compute in Hj. destruct Hj as [H1 H2]. destruct j; congruence.
    + reflexivity.
    + intros _. split; [| exact I]. unfold tx_effect, plus, tx_created, tx_spent. cbn. rewrite Hone, decide_True by done. by eexists.
    + repeat constructor. discriminate.
    + reflexivity.
    + intros j Hj. unfold tx_spent, spent_by. cbn. unfold upd, tx_effect, plus, tx_created, tx_spent. cbn. case_decide as D; [done |]. rewrite Hone. by rewrite decide_False.
  - reflexivity.
  - exists c, undo, c1, c2. split; [rewrite Hone; by rewrite decide_True |]. split; [exact E1 |]. split; [exact E2 |]. rewrite H2, Hone. by rewrite decide_True.
Defined.
