(* ===== verification/TxVerify.v ===== *)
(** * Checks of transactions

    [src/consensus/tx_verify.cpp], with the validation state of
    [src/consensus/validation.h] and the maturity rules of
    [src/consensus/consensus.h]. The coins are a cache over any view; reading the
    contract data out of a transaction ([ContractTxConverter], which runs the
    interpreter of the contract parameters) is a parameter. *)

From stdpp Require Import gmap strings.
From S2P Require Import Prelude Serialize Opcodes Script SigEncoding Interpreter ContractScript Hash Transaction SigHash VerifyScript Block.
From S2P Require Import ArithUint256 Chain Merkle MerkleBlock Coins.

Open Scope Z_scope.
Open Scope outcome_scope.

(** ** The validation state *)

Inductive mode_state := MODE_VALID | MODE_INVALID | MODE_ERROR.

(** The debug message, which is only printed, is left out. *)
Record CValidationState := ValidationState {
  vs_mode : mode_state;
  vs_nDoS : Z;
  vs_strRejectReason : string;
  vs_chRejectCode : Z;
  vs_corruptionPossible : bool
}.

Definition CValidationState_new : CValidationState := ValidationState MODE_VALID 0 "" 0 false.

Definition REJECT_INVALID : Z := 0x10.

Definition REJECT_OBSOLETE : Z := 0x11.

Definition REJECT_CHECKPOINT : Z := 0x43.

(** [CValidationState::DoS] *)
Definition DoS (st : CValidationState) (level : Z) (code : Z) (reason : string) (corruption : bool) : CValidationState :=
  match vs_mode st with
  | MODE_ERROR => ValidationState MODE_ERROR (vs_nDoS st) reason code corruption
  | _ => ValidationState MODE_INVALID (vs_nDoS st + level) reason code corruption
  end.

(** [CValidationState::Invalid] *)
Definition Invalid (st : CValidationState) (code : Z) (reason : string) : CValidationState := DoS st 0 code reason false.

(** ** Lock times *)

Definition IsFinalTx (tx : CTransaction) (nBlockHeight nBlockTime : Z) : bool :=
  if nLockTime tx =? 0 then true
  else if nLockTime tx <? (if nLockTime tx <? LOCKTIME_THRESHOLD then nBlockHeight else nBlockTime) then true
  else forallb (fun i => nSequence i =? SEQUENCE_FINAL) (vin tx).

Definition LOCKTIME_VERIFY_SEQUENCE : Z := Z.shiftl 1 0.

Definition SEQUENCE_LOCKTIME_GRANULARITY : Z := 9.

(** The loop over the inputs: the two minima and the heights, with those of the
    inputs that have no lock zeroed. *)
Fixpoint sequence_locks (h : heap) (block : ptr) (l : list CTxIn) (prevHeights : list Z) (nMinHeight nMinTime : Z) : outcome (Z * Z * list Z) :=
  match l, prevHeights with
  | txin :: l, nCoinHeight :: prevHeights =>
    if flag (nSequence txin) SEQUENCE_LOCKTIME_DISABLE_FLAG then
      let? r := sequence_locks h block l prevHeights nMinHeight nMinTime in Ret (r.1, 0 :: r.2)
    else if flag (nSequence txin) SEQUENCE_LOCKTIME_TYPE_FLAG then
      let? prev := int_add nCoinHeight (-1) in
      let? p := GetAncestor h block (Z.max prev 0) in
      match p with
      | None => Undef
      | Some p =>
        let? nCoinTime := GetMedianTimePast h p in
        let? t := int64_add nCoinTime (uint32 (Z.shiftl (Z.land (nSequence txin) SEQUENCE_LOCKTIME_MASK) SEQUENCE_LOCKTIME_GRANULARITY)) in
        let? t := int64_add t (-1) in
        let? r := sequence_locks h block l prevHeights nMinHeight (Z.max nMinTime t) in Ret (r.1, nCoinHeight :: r.2)
      end
    else
      let? n := int_add nCoinHeight (Z.land (nSequence txin) SEQUENCE_LOCKTIME_MASK) in
      let? n := int_add n (-1) in
      let? r := sequence_locks h block l prevHeights (Z.max nMinHeight n) nMinTime in Ret (r.1, nCoinHeight :: r.2)
  | _, _ => Ret (nMinHeight, nMinTime, prevHeights)
  end.

Definition CalculateSequenceLocks (h : heap) (tx : CTransaction) (flags : Z) (prevHeights : list Z) (block : ptr) : outcome (Z * Z * list Z) :=
  let? _ := cassert (Zlen prevHeights =? Zlen (vin tx)) in
  if negb ((uint32 (nVersion tx) >=? 2) && flag flags LOCKTIME_VERIFY_SEQUENCE) then Ret (-1, -1, prevHeights)
  else sequence_locks h block (vin tx) prevHeights (-1) (-1).

Definition EvaluateSequenceLocks (h : heap) (block : ptr) (lockPair : Z * Z) : outcome bool :=
  let? n := deref h (Some block) in
  match pprev n with
  | None => Abort
  | Some prev =>
    let? nBlockTime := GetMedianTimePast h prev in
    if (lockPair.1 >=? nHeight n) || (lockPair.2 >=? nBlockTime) then Ret false else Ret true
  end.

Definition SequenceLocks (h : heap) (tx : CTransaction) (flags : Z) (prevHeights : list Z) (block : ptr) : outcome (bool * list Z) :=
  let? r := CalculateSequenceLocks h tx flags prevHeights block in
  let? b := EvaluateSequenceLocks h block r.1 in
  Ret (b, r.2).

(** ** Signature operations *)

Definition GetLegacySigOpCount (tx : CTransaction) : Z :=
  let n := foldl (fun n i => uint32 (n + GetSigOpCount (scriptSig i) false)) 0 (vin tx) in
  foldl (fun n o => uint32 (n + GetSigOpCount (scriptPubKey o) false)) n (vout tx).

(** ** Coinbase maturity *)

(** The parameters of the network that the checks read. *)
Class TxRules := {
  UBCONTRACT_Height : Z;
  UB_FORK1_BLOCK_NUM : Z;
  UB_FORK2_BLOCK_NUM : Z;
  UB_FORK4_BLOCK_NUM : Z;
  COINBASE_MATURITY_FORKV1 : Z;
  COINBASE_MATURITY_FORKV2 : Z;
  (** [extractionContractTransactions]: an error, or the amounts deposited to and
      withdrawn from contracts *)
  extractContract : CTransaction -> string + (list Z * list Z)
}.

Definition COINBASE_MATURITY : Z := 100.

Definition COINBASE_MATURITY_INVALID : Z := 999999.

Definition getCoinBaseMaturity `{TxRules} (coinBaseHeight : Z) : Z :=
  if coinBaseHeight <? 0 then COINBASE_MATURITY_INVALID
  else if coinBaseHeight <? UB_FORK1_BLOCK_NUM then COINBASE_MATURITY
  else if (coinBaseHeight >=? UB_FORK1_BLOCK_NUM) && (coinBaseHeight <? UB_FORK2_BLOCK_NUM) then COINBASE_MATURITY_FORKV1
  else COINBASE_MATURITY_FORKV2.

(** ** Checks that need no context *)

Section CheckTransaction.
Context `{Env : NodeEnv, Rules : TxRules}.

(** The loop over the outputs: a rejection or the sum. *)
Fixpoint check_outputs (tx : CTransaction) (l : list CTxOut) (nValueOut : Z) : outcome (option string) :=
  match l with
  | [] => Ret None
  | txout :: l =>
    if (CTxOut_IsEmpty txout && negb (IsCoinBase tx) && negb (IsCoinStake tx)) && (chain_height + 1 >=? UBCONTRACT_Height)
    then Ret (Some "txout empty for user transaction")
    else if nValue txout <? 0 then Ret (Some "bad-txns-vout-negative")
    else if nValue txout >? MAX_MONEY then Ret (Some "bad-txns-vout-toolarge")
    else
      let? nValueOut := int64_add nValueOut (nValue txout) in
      if negb (MoneyRange nValueOut) then Ret (Some "bad-txns-txouttotal-toolarge")
      else check_outputs tx l nValueOut
  end.

(** The loop that fills the set of outpoints. *)
Fixpoint has_duplicates (seen : gset COutPoint) (l : list CTxIn) : bool :=
  match l with
  | [] => false
  | txin :: l => if bool_decide (prevout txin ∈ seen) then true else has_duplicates ({[prevout txin]} ∪ seen) l
  end.

Definition CheckTransaction (tx : CTransaction) (st : CValidationState) (fCheckDuplicateInputs : bool) : outcome (bool * CValidationState) :=
  let fail level reason := Ret (false, DoS st level REJECT_INVALID reason false) in
  if bool_decide (vin tx = []) then fail 10 "bad-txns-vin-empty"
  else if bool_decide (vout tx = []) then fail 10 "bad-txns-vout-empty"
  else if uint64 (Zlen (SerializeTransaction (Z.lor PROTOCOL_VERSION SERIALIZE_TRANSACTION_NO_WITNESS) tx) * WITNESS_SCALE_FACTOR) >?
          MaxBlockSize 0 (2 ^ 64 - 1) then fail 100 "bad-txns-oversize"
  else
    let? r := check_outputs tx (vout tx) 0 in
    match r with
    | Some reason => fail 100 reason
    | None =>
      if fCheckDuplicateInputs && has_duplicates ∅ (vin tx) then fail 100 "bad-txns-inputs-duplicate"
      else if IsCoinBase tx then
        match vin tx with
        | i :: _ => if (Zlen (scriptSig i) <? 2) || (Zlen (scriptSig i) >? 100) then fail 100 "bad-cb-length" else Ret (true, st)
        | [] => Undef
        end
      else if IsCoinStake tx then Ret (true, st)
      else if existsb (fun i => COutPoint_IsNull (prevout i)) (vin tx) then fail 10 "bad-txns-prevout-null"
      else Ret (true, st)
    end.
End CheckTransaction.

(** ** Checks against the coins *)

Section CheckTxInputs.
Context {S : Type} `{V : CCoinsView S, U : CoinUsage, Env : NodeEnv, Rules : TxRules}.
Implicit Types c : CCoinsViewCache S.

Fixpoint p2sh_sigops c (l : list CTxIn) (nSigOps : Z) : outcome (Z * CCoinsViewCache S) :=
  match l with
  | [] => Ret (nSigOps, c)
  | i :: l =>
    let '(coin, c) := AccessCoin c (prevout i) in
    let? _ := cassert (negb (IsSpent coin)) in
    let spk := scriptPubKey (coin_out coin) in
    p2sh_sigops c l (if IsPayToScriptHash spk then uint32 (nSigOps + GetSigOpCount_scriptSig spk (scriptSig i)) else nSigOps)
  end.

Definition GetP2SHSigOpCount (tx : CTransaction) c : outcome (Z * CCoinsViewCache S) :=
  if IsCoinBase tx then Ret (0, c) else p2sh_sigops c (vin tx) 0.

Fixpoint witness_sigops c (flags : Z) (l : list CTxIn) (nSigOps : Z) : outcome (Z * CCoinsViewCache S) :=
  match l with
  | [] => Ret (nSigOps, c)
  | i :: l =>
    let '(coin, c) := AccessCoin c (prevout i) in
    let? _ := cassert (negb (IsSpent coin)) in
    let? n := CountWitnessSigOps (scriptSig i) (scriptPubKey (coin_out coin)) (scriptWitness i) flags in
    witness_sigops c flags l (int64 (nSigOps + n))
  end.

Definition GetTransactionSigOpCost (tx : CTransaction) c (flags : Z) : outcome (Z * CCoinsViewCache S) :=
  let nSigOps := uint32 (GetLegacySigOpCount tx * WITNESS_SCALE_FACTOR) in
  if IsCoinBase tx then Ret (nSigOps, c)
  else if IsCoinStake tx then Ret (nSigOps, c)
  else
    let? r := if flag flags SCRIPT_VERIFY_P2SH then
                let? r := GetP2SHSigOpCount tx c in Ret (nSigOps + uint32 (r.1 * WITNESS_SCALE_FACTOR), r.2)
              else Ret (nSigOps, c) in
    witness_sigops r.2 flags (vin tx) r.1.

(** The loop over the inputs: a rejection (with its DoS level) or the sum. *)
Fixpoint check_inputs c (nSpendHeight : Z) (l : list CTxIn) (nValueIn : Z) : outcome ((Z * string + Z) * CCoinsViewCache S) :=
  match l with
  | [] => Ret (inr nValueIn, c)
  | i :: l =>
    let '(coin, c) := AccessCoin c (prevout i) in
    let? _ := cassert (negb (IsSpent coin)) in
    let? premature :=
      if negb (uint64 nSpendHeight =? UB_FORK4_BLOCK_NUM) && fCoinBase coin then
        let? depth := int_add nSpendHeight (- coin_nHeight coin) in Ret (depth <? getCoinBaseMaturity (coin_nHeight coin))
      else Ret false in
    if premature then
      Ret (inl (0, "bad-txns-premature-spend-of-coinbase"), c)
    else
      let? nValueIn := int64_add nValueIn (nValue (coin_out coin)) in
      if negb (MoneyRange (nValue (coin_out coin))) || negb (MoneyRange nValueIn) then Ret (inl (100, "bad-txns-inputvalues-outofrange"), c)
      else check_inputs c nSpendHeight l nValueIn
  end.

(** [CAmount += uint64_t] *)
Definition add_amounts (l : list Z) : Z := foldl (fun a x => int64 (a + x)) 0 l.

(** The amounts that go to and come from contracts. *)
Definition contract_amounts (tx : CTransaction) : outcome (string + (Z * Z)) :=
  let? deposit := tx_HasOpDepositToContract tx in
  let? spend := if deposit then Ret true else tx_HasOpSpend tx in
  if spend then
    match extractContract tx with
    | inl error_ret => Ret (inl error_ret)
    | inr (deposits, withdrawals) => Ret (inr (add_amounts deposits, add_amounts withdrawals))
    end
  else Ret (inr (0, 0)).

(** [Consensus::CheckTxInputs]: the verdict, the state, the fee when it is set, and
    the cache. *)
Definition CheckTxInputs (tx : CTransaction) (st : CValidationState) c (nSpendHeight : Z) : outcome (bool * CValidationState * option Z * CCoinsViewCache S) :=
  let fail c level reason := Ret (false, DoS st level REJECT_INVALID reason false, None, c) in
  let '(have, c) := HaveInputs c tx in
  if negb have then fail c 100 "bad-txns-inputs-missingorspent"
  else
    let? r := check_inputs c nSpendHeight (vin tx) 0 in
    match r with
    | (inl (level, reason), c) => fail c level reason
    | (inr nValueIn, c) =>
      let? a := contract_amounts tx in
      match a with
      | inl error_ret => fail c 0 (String.append "bad-tx-bad-contract-format " error_ret)
      | inr (allTxDepositToContract, allTxWithdrawFromContract) =>
        let? value_out := GetValueOut tx in
        let? total_in := int64_add nValueIn allTxWithdrawFromContract in
        let? total_out := int64_add value_out allTxDepositToContract in
        if total_in <? total_out then fail c 100 "bad-txns-in-belowout"
        else
          let? fee := int64_add total_in (- value_out) in
          let? txfee_aux := int64_add fee (- allTxDepositToContract) in
          if negb (MoneyRange txfee_aux) then fail c 100 "bad-txns-fee-outofrange"
          else Ret (true, st, Some txfee_aux, c)
      end
    end.
End CheckTxInputs.
