(* ===== verification/TxVerifyProps.v ===== *)
(** * Properties of the transaction checks *)

From stdpp Require Import gmap strings.
From S2P Require Import Prelude Serialize Opcodes Script SigEncoding Interpreter ContractScript Hash Transaction SigHash VerifyScript Block.
From S2P Require Import ArithUint256 Chain ChainProps Merkle MerkleBlock Coins CoinsProps CoinsDB UpdateCoins UpdateCoinsProps TxVerify.

Open Scope Z_scope.
Open Scope outcome_scope.

(** ** Checks that need no context *)

Section CheckTransaction.
Context `{Env : NodeEnv, Rules : TxRules}.

(** An output without value and script is for coinbases and coinstakes only, from
    the contract fork on. *)
Definition empty_allowed (tx : CTransaction) (out : CTxOut) : Prop :=
  CTxOut_IsEmpty out = true -> IsCoinBase tx = true \/ IsCoinStake tx = true \/ chain_height + 1 < UBCONTRACT_Height.

(** What a transaction must be to pass [CheckTransaction]. *)
Record valid_transaction (tx : CTransaction) (fCheckDuplicateInputs : bool) : Prop := {
  vt_vin : vin tx <> [];
  vt_vout : vout tx <> [];
  vt_size : uint64 (Zlen (SerializeTransaction (Z.lor PROTOCOL_VERSION SERIALIZE_TRANSACTION_NO_WITNESS) tx) * 4) <= 32000000;
  vt_values : Forall (fun out => 0 <= nValue out <= MAX_MONEY /\ empty_allowed tx out) (vout tx);
  vt_total : total_value (vout tx) <= MAX_MONEY;
  vt_distinct : fCheckDuplicateInputs = true -> NoDup (map prevout (vin tx));
  vt_coinbase : IsCoinBase tx = true -> exists i, vin tx = [i] /\ 2 <= Zlen (scriptSig i) <= 100;
  vt_prevouts : IsCoinBase tx = false -> IsCoinStake tx = false -> Forall (fun i => COutPoint_IsNull (prevout i) = false) (vin tx)
}.

Lemma check_outputs_run tx l : forall acc, 0 <= acc <= MAX_MONEY ->
  exists r, check_outputs tx l acc = Ret r /\
    (r = None <-> Forall (fun out => 0 <= nValue out <= MAX_MONEY /\ empty_allowed tx out) l /\ acc + total_value l <= MAX_MONEY).
Proof.
  induction l as [| out l IH]; intros acc Hacc; cbn [check_outputs total_value].
  { exists None. split; [done |]. split; [intros _; split; [done | lia] | done]. }
  assert (Hmax : 2 * MAX_MONEY < INT64_MAX) by (vm_compute; done).
  setoid_rewrite list.Forall_cons. destruct ((CTxOut_IsEmpty out && _ && _) && _) eqn:Ee.
  { exists (Some "txout empty for user transaction"). split; [done |]. split; [done |]. intros [[[_ He] _] _]. bool_to_prop.
    destruct He as [He | [He | He]]; [done | congruence | congruence | lia]. }
  assert (Hallow : empty_allowed tx out).
  { intros Hempty. rewrite Hempty in Ee. cbn [andb] in Ee. destruct (IsCoinBase tx); [by left |]. destruct (IsCoinStake tx); [by right; left |].
    cbn [negb andb] in Ee. bool_to_prop. right; right. lia. }
  destruct (nValue out <? 0) eqn:E0; [eexists; split; [done |]; split; [done |]; intros [[[? _] _] _]; bool_to_prop; lia |].
  destruct (nValue out >? MAX_MONEY) eqn:E1; [eexists; split; [done |]; split; [done |]; intros [[[? _] _] _]; bool_to_prop; lia |]. bool_to_prop.
  unfold int64_add. rewrite (proj2 (Z.leb_le _ _)), (proj2 (Z.leb_le _ _)) by (unfold INT64_MIN; lia). cbn [andb obind].
  unfold MoneyRange. destruct ((acc + nValue out >=? 0) && (acc + nValue out <=? MAX_MONEY)) eqn:Em; cbn [negb].
  - bool_to_prop. destruct (IH (acc + nValue out)) as (r & -> & Hr); [lia |]. exists r. split; [done |]. rewrite Hr, <- Z.add_assoc. naive_solver lia.
  - eexists. split; [done |]. split; [done |]. intros [[_ Hl] Ht].
    assert (0 <= total_value l) by (apply total_value_nonneg; eapply Forall_impl; [| exact Hl]; intros ? [? _]; by apply MoneyRange_true).
    apply andb_false_iff in Em as [Em | Em]; bool_to_prop; lia.
Qed.

Lemma has_duplicates_spec l : forall seen, has_duplicates seen l = false <-> NoDup (map prevout l) /\ Forall (fun i => prevout i ∉ seen) l.
Proof.
  induction l as [| i l IH]; intros seen; cbn [has_duplicates map]; [split; [by repeat constructor | done] |].
  rewrite list.NoDup_cons, list.Forall_cons. case_bool_decide as Hin; [naive_solver |]. rewrite IH.
  assert (Hi : prevout i ∉ map prevout l <-> Forall (fun j => prevout j <> prevout i) l).
  { rewrite list.Forall_forall. setoid_rewrite list_elem_of_In. rewrite in_map_iff. naive_solver. }
  rewrite Hi, !list.Forall_forall. set_solver.
Qed.

(** A rejection: the state turns invalid with the level and reason of the rule. *)
Definition rejected (st st' : CValidationState) : Prop :=
  exists level reason, (level = 10 \/ level = 100) /\ st' = DoS st level REJECT_INVALID reason false.

Lemma IsCoinBase_vin tx : IsCoinBase tx = true -> exists i, vin tx = [i].
Proof. unfold IsCoinBase. destruct (vin tx) as [| i []]; try done. by exists i. Qed.

Lemma existsb_null l : existsb (fun i => COutPoint_IsNull (prevout i)) l = false <-> Forall (fun i => COutPoint_IsNull (prevout i) = false) l.
Proof. induction l as [| i l IH]; cbn; [by split |]. rewrite orb_false_iff, list.Forall_cons, IH. done. Qed.

Lemma CheckTransaction_run tx st dup : exists b st', CheckTransaction tx st dup = Ret (b, st') /\ (b = true <-> valid_transaction tx dup) /\
  (if b then st' = st else rejected st st').
Proof.
  assert (Hfail : forall level reason, level = 10 \/ level = 100 -> ~ valid_transaction tx dup ->
    exists b st', Ret (false, DoS st level REJECT_INVALID reason false) = Ret (b, st') /\ (b = true <-> valid_transaction tx dup) /\
      (if b then st' = st else rejected st st')).
  { intros level reason Hl Hn. eexists _, _. split; [reflexivity |]. split; [split; [done | by intros] | by exists level, reason]. }
  unfold CheckTransaction. case_bool_decide as Hvin; [apply Hfail; [by left | by intros []] |].
  case_bool_decide as Hvout; [apply Hfail; [by left | by intros []] |].
  destruct (_ >? _) eqn:Es; [apply Hfail; [by right |]; intros []; rewrite Z.gtb_ltb in Es; apply Z.ltb_lt in Es; unfold WITNESS_SCALE_FACTOR in Es; vm_compute (MaxBlockSize _ _) in Es; lia |].
  destruct (check_outputs_run tx (vout tx) 0) as (r & -> & Hr); [vm_compute; done |]. cbn [obind].
  destruct r as [reason |]; [apply Hfail; [by right |]; intros []; cut (Some reason = None); [done | by apply Hr] |].
  destruct (proj1 Hr eq_refl) as [Hvalues Htotal].
  destruct (dup && has_duplicates ∅ (vin tx)) eqn:Ed.
  { apply Hfail; [by right |]. intros [_ _ _ _ _ Hdis _ _]. apply andb_true_iff in Ed as [-> Ed]. specialize (Hdis eq_refl).
    assert (has_duplicates ∅ (vin tx) = false); [| congruence]. apply has_duplicates_spec. split; [done |]. apply list.Forall_forall. set_solver. }
  assert (Hdis : dup = true -> NoDup (map prevout (vin tx))) by (intros ->; by apply has_duplicates_spec in Ed as [? _]).
  assert (Hsize : uint64 (Zlen (SerializeTransaction (Z.lor PROTOCOL_VERSION SERIALIZE_TRANSACTION_NO_WITNESS) tx) * 4) <= 32000000)
    by (rewrite Z.gtb_ltb in Es; by apply Z.ltb_ge in Es).
  assert (Hok : forall b st', b = true -> st' = st -> valid_transaction tx dup -> exists b0 st0, Ret (b, st') = Ret (b0, st0) /\
    (b0 = true <-> valid_transaction tx dup) /\ (if b0 then st0 = st else rejected st st0)) by (intros ? ? -> -> ?; by eexists _, _).
  destruct (IsCoinBase tx) eqn:Ecb.
  - destruct (IsCoinBase_vin tx Ecb) as [i Ei]. rewrite Ei. destruct (_ || _) eqn:El.
    + apply Hfail; [by right |]. intros [_ _ _ _ _ _ Hcb _]. destruct (Hcb Ecb) as (j & Ej & Hj). rewrite Ei in Ej. injection Ej as <-.
      apply orb_true_iff in El as [El | El]; bool_to_prop; lia.
    + bool_to_prop. apply Hok; [done | done |]. split; try done; [| by rewrite Ecb]. intros _. exists i. split; [done | lia].
  - destruct (IsCoinStake tx) eqn:Ecs.
    + apply Hok; [done | done |]. split; try done; by rewrite ?Ecb, ?Ecs.
    + destruct (existsb _ _) eqn:Ex.
      * apply Hfail; [by left |]. intros [_ _ _ _ _ _ _ Hp]. specialize (Hp Ecb Ecs). apply existsb_null in Hp. congruence.
      * apply Hok; [done | done |]. split; try done; [by rewrite Ecb | by intros _ _; apply existsb_null].
Qed.
End CheckTransaction.

(** C17. [CheckTransaction] always returns, accepts exactly the valid transactions
    (inputs and outputs present, size in bounds, every output and the total in the
    money range, no empty output of a user after the contract fork, no outpoint
    spent twice, coinbase script of 2 to 100 bytes, no null outpoint elsewhere),
    leaves the state alone when it accepts, and otherwise makes it invalid with a
    level of 10 or 100. *)
Theorem CheckTransaction_spec `{NodeEnv, TxRules} tx st fCheckDuplicateInputs :
  exists b st', CheckTransaction tx st fCheckDuplicateInputs = Ret (b, st') /\ (b = true <-> valid_transaction tx fCheckDuplicateInputs) /\
    (if b then st' = st else rejected st st').
Proof. apply CheckTransaction_run. Qed.

(** ** Checks against the coins *)

Section CheckTxInputs.
Context {S : Type} `{L : CoinsViewLaws S, U : CoinUsage, Env : NodeEnv, Rules : TxRules}.
Implicit Types c : CCoinsViewCache S.

(** A coin of a coinbase or coinstake is spent only when it is old enough, except at
    the fourth fork. *)
Definition mature (nSpendHeight : Z) (coin : Coin) : Prop :=
  fCoinBase coin = true -> uint64 nSpendHeight <> UB_FORK4_BLOCK_NUM -> getCoinBaseMaturity (coin_nHeight coin) <= nSpendHeight - coin_nHeight coin.

Fixpoint coins_value (l : list Coin) : Z := match l with [] => 0 | coin :: l => nValue (coin_out coin) + coins_value l end.

Lemma same_view_refl c : same_view c c.
Proof. done. Qed.

Lemma same_view_trans c1 c2 c3 : same_view c1 c2 -> same_view c2 c3 -> same_view c1 c3.
Proof. intros [H1 G1] [H2 G2]. split; [intros o; by rewrite H2 | congruence]. Qed.

Lemma HaveInputs_loop_run l : forall c, cache_ok c -> exists c', HaveInputs_loop c l = (forallb (fun i => bool_decide (is_Some (cache_coins c (prevout i)))) l, c') /\
  cache_ok c' /\ same_view c c'.
Proof.
  induction l as [| i l IH]; intros c Hc; cbn [HaveInputs_loop forallb]; [by exists c |].
  destruct (HaveCoin_run c (prevout i) Hc) as (c1 & -> & Hc1 & Hs1). destruct (bool_decide _); cbn [negb andb]; [| by exists c1].
  destruct (IH c1 Hc1) as (c2 & -> & Hc2 & Hs2). exists c2. split; [| split; [done | by apply (same_view_trans _ c1)]].
  destruct Hs1 as [Hs1 _]. f_equal. clear -Hs1. induction l as [| j l IHl]; cbn; [done |]. by rewrite Hs1, IHl.
Qed.

Lemma HaveInputs_run c tx : cache_ok c -> exists b c', HaveInputs c tx = (b, c') /\ cache_ok c' /\ same_view c c'.
Proof.
  intros Hc. unfold HaveInputs. destruct (negb _); [| by exists true, c]. destruct (HaveInputs_loop_run (vin tx) c Hc) as (c' & E & H). by eexists _, c'.
Qed.

Lemma int64_add_Ret a b r : int64_add a b = Ret r -> r = a + b.
Proof. unfold int64_add. destruct (_ && _); congruence. Qed.

Lemma GetValueOut_loop_Ret l : forall acc v, GetValueOut_loop l acc = Ret v -> v = acc + total_value l /\ (0 <= acc <= MAX_MONEY -> 0 <= v <= MAX_MONEY).
Proof.
  induction l as [| o l IH]; intros acc v; cbn [GetValueOut_loop total_value]; [intros [= ->]; lia |].
  destruct (int64_add acc (nValue o)) as [a | | |] eqn:E; [cbn [obind] | done..]. apply int64_add_Ret in E as ->.
  destruct (_ || _) eqn:Em; [done |]. intros H. destruct (IH _ _ H) as [-> Hr]. bool_to_prop. apply MoneyRange_true in H1. split; [lia | auto].
Qed.

Lemma check_inputs_sound h l : forall c acc v c', cache_ok c -> check_inputs c h l acc = Ret (inr v, c') ->
  exists coins, Forall2 (fun i coin => cache_coins c (prevout i) = Some coin) l coins /\ Forall (mature h) coins /\
    Forall (fun coin => 0 <= nValue (coin_out coin) <= MAX_MONEY) coins /\ v = acc + coins_value coins /\
    (0 <= acc <= MAX_MONEY -> 0 <= v <= MAX_MONEY) /\ cache_ok c' /\ same_view c c'.
Proof.
  induction l as [| i l IH]; intros c acc v c' Hc; cbn [check_inputs].
  { intros [= -> ->]. exists []. split_and!; try done. cbn. lia. }
  destruct (AccessCoin_run c (prevout i) Hc) as (coin & c1 & -> & Hc1 & Hs1 & Ho). destruct (IsSpent coin) eqn:Es; [done |]. cbn [negb cassert obind].
  destruct (if _ && _ then _ else Ret false) as [premature | | |] eqn:Ep; [cbn [obind] | done..]. destruct premature; [done |].
  destruct (int64_add acc _) as [acc' | | |] eqn:Ea; [cbn [obind] | done..]. apply int64_add_Ret in Ea as ->.
  destruct (_ || _) eqn:Em; [done |]. intros E. bool_to_prop. apply MoneyRange_true in H, H0.
  destruct (IH c1 _ _ _ Hc1 E) as (coins & H1 & H2 & H3 & H4 & H5 & H6 & H7). exists (coin :: coins).
  split_and!; [| | | cbn; lia | auto | done | by apply (same_view_trans _ c1)].
  - constructor; [done |]. eapply Forall2_impl; [| exact H1]. intros j k Hjk. cbn in Hjk. rewrite <- Hjk. symmetry. apply Hs1.
  - constructor; [| done]. intros Hcb Hf. rewrite Hcb in Ep. rewrite (proj2 (Z.eqb_neq _ _) Hf) in Ep. cbn [negb andb] in Ep.
    unfold int_add in Ep. destruct (_ && _); [| done]. cbn [obind] in Ep. injection Ep as Ep. apply Z.ltb_ge in Ep. lia.
  - constructor; [done | done].
Qed.

(** The amounts that the contract calls of a transaction deposit and withdraw. *)
Definition contract_flows (tx : CTransaction) (deposits withdrawals : list Z) : Prop :=
  (tx_HasOpDepositToContract tx = Ret true \/ tx_HasOpSpend tx = Ret true) /\ extractContract tx = inr (deposits, withdrawals) \/
  tx_HasOpDepositToContract tx = Ret false /\ tx_HasOpSpend tx = Ret false /\ deposits = [] /\ withdrawals = [].

Definition amounts_sum (l : list Z) : Z := foldr Z.add 0 l.

Lemma contract_amounts_flows tx deposit withdraw : contract_amounts tx = Ret (inr (deposit, withdraw)) ->
  exists deposits withdrawals, contract_flows tx deposits withdrawals /\ deposit = add_amounts deposits /\ withdraw = add_amounts withdrawals.
Proof.
  unfold contract_amounts, contract_flows. destruct (tx_HasOpDepositToContract tx) as [[] | | |]; try done; cbn [obind].
  - destruct (extractContract tx) as [e | [d w]]; [done |]. intros [= <- <-]. exists d, w. split; [left; split; [by left | done] | done].
  - destruct (tx_HasOpSpend tx) as [[] | | |]; try done; cbn [obind].
    + destruct (extractContract tx) as [e | [d w]]; [done |]. intros [= <- <-]. exists d, w. split; [left; split; [by right | done] | done].
    + intros [= <- <-]. exists [], []. split; [right; done | done].
Qed.

(** The sums wrap around: they are right modulo 2^64, and right when they fit. *)
Lemma int64_mod x : int64 x mod 2 ^ 64 = x mod 2 ^ 64.
Proof. unfold int64. rewrite Zminus_mod_idemp_l. f_equal. lia. Qed.

Lemma add_amounts_mod l : add_amounts l mod 2 ^ 64 = amounts_sum l mod 2 ^ 64.
Proof.
  unfold add_amounts, amounts_sum.
  assert (H : forall a, foldl (fun a x => int64 (a + x)) a l mod 2 ^ 64 = (a + foldr Z.add 0 l) mod 2 ^ 64); [| apply H].
  induction l as [| x l IH]; intros a; cbn [foldl foldr]; [f_equal; lia |].
  rewrite IH, <- Zplus_mod_idemp_l, int64_mod, Zplus_mod_idemp_l. f_equal. lia.
Qed.

Lemma add_amounts_range l : INT64_MIN <= add_amounts l <= INT64_MAX.
Proof.
  unfold add_amounts. assert (H : forall a, INT64_MIN <= a <= INT64_MAX -> INT64_MIN <= foldl (fun a x => int64 (a + x)) a l <= INT64_MAX); [| apply H; done].
  induction l as [| x l IH]; intros a Ha; [done |]. cbn [foldl]. apply IH. pose proof (int64_range (a + x)). unfold INT64_MIN, INT64_MAX. lia.
Qed.

Lemma add_amounts_exact l : 0 <= amounts_sum l <= INT64_MAX -> add_amounts l = amounts_sum l.
Proof.
  intros H. pose proof (add_amounts_mod l) as Hm. pose proof (add_amounts_range l). unfold INT64_MIN, INT64_MAX in *.
  rewrite (Z.mod_small (amounts_sum l)) in Hm by lia. destruct (Z.lt_ge_cases (add_amounts l) 0).
  - replace (add_amounts l) with (add_amounts l + 2 ^ 64 + -1 * 2 ^ 64) in Hm by lia. rewrite Z.mod_add, Z.mod_small in Hm by lia. lia.
  - rewrite Z.mod_small in Hm by lia. done.
Qed.

(** What an accepted transaction does with the coins. *)
Lemma CheckTxInputs_accepts tx st c h st' fee c' : cache_ok c -> CheckTxInputs tx st c h = Ret (true, st', fee, c') ->
  exists coins deposit withdraw f, fee = Some f /\ st' = st /\
    Forall2 (fun i coin => cache_coins c (prevout i) = Some coin) (vin tx) coins /\ Forall (mature h) coins /\
    0 <= coins_value coins <= MAX_MONEY /\ 0 <= total_value (vout tx) <= MAX_MONEY /\
    contract_amounts tx = Ret (inr (deposit, withdraw)) /\
    coins_value coins + withdraw = total_value (vout tx) + deposit + f /\ 0 <= f <= MAX_MONEY /\ cache_ok c' /\ same_view c c'.
Proof.
  intros Hc. unfold CheckTxInputs. destruct (HaveInputs_run c tx Hc) as (b & c1 & -> & Hc1 & Hs1). destruct b; [cbn [negb] | done].
  destruct (check_inputs c1 h (vin tx) 0) as [[[[lv rs] | v] c2] | | |] eqn:Ei; try done. cbn [obind].
  destruct (check_inputs_sound h (vin tx) c1 0 v c2 Hc1 Ei) as (coins & H1 & H2 & H3 & H4 & H5 & H6 & H7).
  destruct (contract_amounts tx) as [[er | [deposit withdraw]] | | |]; try done. cbn [obind].
  destruct (GetValueOut tx) as [vo | | |] eqn:Eo; [cbn [obind] | done..].
  destruct (int64_add v withdraw) as [tin | | |] eqn:E1; [cbn [obind] | done..]. apply int64_add_Ret in E1.
  destruct (int64_add vo deposit) as [tout | | |] eqn:E2; [cbn [obind] | done..]. apply int64_add_Ret in E2.
  destruct (tin <? tout); [done |].
  destruct (int64_add tin (- vo)) as [fe | | |] eqn:E3; [cbn [obind] | done..]. apply int64_add_Ret in E3.
  destruct (int64_add fe (- deposit)) as [fa | | |] eqn:E4; [cbn [obind] | done..]. apply int64_add_Ret in E4.
  destruct (negb (MoneyRange fa)) eqn:Em; [done |]. intros [= <- <- <-]. bool_to_prop. apply MoneyRange_true in Em.
  assert (Hout : vo = total_value (vout tx) /\ 0 <= vo <= MAX_MONEY).
  { unfold GetValueOut in Eo. apply GetValueOut_loop_Ret in Eo as [-> Hr]. split; [done |]. apply Hr. vm_compute. done. }
  exists coins, deposit, withdraw, fa. split_and!; try done; try lia; [| by apply (same_view_trans _ c1)].
  eapply Forall2_impl; [| exact H1]. intros j k Hjk. cbn in Hjk. rewrite <- Hjk. symmetry. apply Hs1.
Qed.
End CheckTxInputs.

(** C16. A transaction that [CheckTxInputs] accepts balances: each of its inputs is an unspent coin, mature if it is of a coinbase or coinstake, the values of
    the coins and of the outputs and the fee are in the money range, and the coins with what
    its contract calls withdraw are exactly the outputs with what they deposit and the fee.
    The equation is one of integers when the sum of the deposits and the sum of the
    withdrawals are below 2^63, in particular for a transaction with no contract call;
    the code adds up the amounts in 64 bits without a test, so that for larger sums it holds
    modulo 2^64 only. The check does not change what the cache stands for. *)
Theorem CheckTxInputs_conserves {S} `{L : CoinsViewLaws S, U : CoinUsage, NodeEnv, TxRules} tx st (c : CCoinsViewCache S) nSpendHeight st' fee c' :
  cache_ok c -> CheckTxInputs tx st c nSpendHeight = Ret (true, st', fee, c') ->
  exists coins deposits withdrawals f, fee = Some f /\ st' = st /\
    Forall2 (fun i coin => cache_coins c (prevout i) = Some coin) (vin tx) coins /\ Forall (mature nSpendHeight) coins /\
    0 <= coins_value coins <= MAX_MONEY /\ 0 <= total_value (vout tx) <= MAX_MONEY /\ 0 <= f <= MAX_MONEY /\
    contract_flows tx deposits withdrawals /\
    (0 <= amounts_sum deposits <= INT64_MAX -> 0 <= amounts_sum withdrawals <= INT64_MAX ->
     coins_value coins + amounts_sum withdrawals = total_value (vout tx) + amounts_sum deposits + f) /\
    (coins_value coins + amounts_sum withdrawals) mod 2 ^ 64 = (total_value (vout tx) + amounts_sum deposits + f) mod 2 ^ 64 /\
    cache_ok c' /\ same_view c c'.
Proof.
  intros Hc E. destruct (CheckTxInputs_accepts tx st c nSpendHeight st' fee c' Hc E) as (coins & d & w & f & H1 & H2 & H3 & H4 & H5 & H6 & H7 & H8 & H9 & H10 & H11).
  destruct (contract_amounts_flows tx d w H7) as (ds & ws & Hf & -> & ->). exists coins, ds, ws, f. repeat (split; [assumption |]). split; [| split; [| by split]].
  - intros Hd Hw. by rewrite !add_amounts_exact in H8.
  - rewrite <- Zplus_mod_idemp_r, <- add_amounts_mod, Zplus_mod_idemp_r, H8.
    replace (total_value (vout tx) + add_amounts ds + f) with (total_value (vout tx) + f + add_amounts ds) by lia.
    rewrite <- Zplus_mod_idemp_r, add_amounts_mod, Zplus_mod_idemp_r. f_equal. lia.
Qed.

(** The parameters of the main network, with no contract data. *)
Definition sample_rules : TxRules := {|
  UBCONTRACT_Height := 551111; UB_FORK1_BLOCK_NUM := 506400; UB_FORK2_BLOCK_NUM := 572000; UB_FORK4_BLOCK_NUM := 813500;
  COINBASE_MATURITY_FORKV1 := 7200; COINBASE_MATURITY_FORKV2 := 1440; extractContract _ := inl "no contract"%string |}.

Definition sample_node : NodeEnv := {| chain_height := 600000; UBCHeight := 498777; CheckLowS _ := true |}.

(** The cache with one coin, as [AddCoin] leaves it. *)
Definition sample_cache : CCoinsViewCache CCoinsViewDB :=
  Cache empty_db uint256_null {[sample_outpoint 0 := CacheEntry (sample_coin 5) (Z.lor DIRTY FRESH)]} 1.

Lemma sample_cache_ok : let H := sample_db_params in let U := sample_usage in cache_ok sample_cache.
Proof.
  intros H U. split; [exact empty_db_ok | | reflexivity].
  intros o e. unfold sample_cache; cbn [cacheCoins]. rewrite lookup_singleton_Some. intros [<- <-]. by split.
Qed.

Lemma CheckTxInputs_conserves_witness :
  let H := sample_db_params in let U := sample_usage in let N := sample_node in let R := sample_rules in
  exists coins c', CheckTxInputs sample_payment CValidationState_new sample_cache 600000 = Ret (true, CValidationState_new, Some 1, c') /\ cache_ok c' /\
    coins_value coins = total_value (vout sample_payment) + 1.
Proof.
  intros H U N R.
  assert (E : CheckTxInputs sample_payment CValidationState_new sample_cache 600000 = Ret (true, CValidationState_new, Some 1, sample_cache)) by (vm_compute; reflexivity).
  destruct (CheckTxInputs_conserves sample_payment CValidationState_new sample_cache 600000 CValidationState_new (Some 1) sample_cache)
    as (coins & ds & ws & f & Ef & _ & _ & _ & _ & _ & _ & Hflow & Heq & _ & Hc & _).
  - exact sample_cache_ok.
  - exact E.
  - exists coins, sample_cache. split; [exact E |]. split; [exact Hc |]. injection Ef as <-.
    destruct Hflow as [[_ Hx] | (_ & _ & -> & ->)]; [discriminate Hx |]. cbn [amounts_sum foldr] in Heq.
    rewrite !Z.add_0_r in Heq. apply Heq; split; discriminate.
Defined.
