(* ===== verification/Stake.v ===== *)
(** * Proof of stake

    [CheckProofOfStake] and [CheckStake] of [src/miner.cpp]: the kernel of a coin against
    the target, and the coin that a stake block must spend and return. *)

From stdpp Require Import gmap.
From S2P Require Import Prelude Common Serialize Opcodes Script Hash Transaction SigEncoding Interpreter SigHash Standard ArithUint256 Block.
From S2P Require Import Chain Pow Coins TxVerify.

Open Scope Z_scope.
Open Scope outcome_scope.

(** The parameters of the network that the checks of blocks read. *)
Class BlockRules := {
  ForkV3Height : Z;
  nStakeMinConfirmations : Z;
  UB_FORK_BLOCK_NUM : Z;
  antiReplayOpReturnSunsetHeight : Z;
  antiReplayOpReturnCommitment : list Z;
  (** the script hash that [UBCfoundationAddress] decodes to *)
  UBCfoundation : option (list Z)
}.

(** The walk to the block at a height: its hash, or [hash] when there is none. *)
Fixpoint hash_at_height (fuel : nat) (h : heap) (height : Z) (hash : list Z) (p : option ptr) : outcome (list Z) :=
  match p with
  | None => Ret hash
  | Some i =>
    let? n := deref h (Some i) in
    if nHeight n =? height then GetBlockHash n
    else match fuel with
         | O => Undef
         | S fuel => hash_at_height fuel h height hash (pprev n)
         end
  end.

(** The bytes that are hashed for the coin [prevout]. The map is read with [operator[]],
    which gives the null pointer for a hash it does not have. *)
Definition kernel `{BlockRules} (m : BlockManager) (block : CBlockHeader) (prevout : COutPoint) : outcome (list Z) :=
  let prev := mapBlockIndex m !! hdr_hashPrevBlock block in
  let? height := if bool_decide (hdr_hashPrevBlock block = replicate 32 0) then Ret 0
                 else let? n := deref (blocks m) prev in Ret (nHeight n) in
  let base := ser_writedata32 (hdr_nTime block) ++ outpoint_hash prevout ++ ser_writedata32 (outpoint_n prevout) in
  if height + 1 <? ForkV3Height then Ret base
  else
    let? hash := hash_at_height (steps (blocks m) prev) (blocks m) (Z.quot height 10 * 10) (hdr_hashPrevBlock block) prev in
    Ret (base ++ hash).

Definition CheckProofOfStake `{BlockRules} (m : BlockManager) (block : CBlockHeader) (prevout : COutPoint) (amount : Z) : outcome bool :=
  let bnTarget := compact_value (SetCompact (hdr_nBits block)) in
  let? ss := kernel m block prevout in
  let? bnHashPos := bdiv (UintToArith256 (Hash ss)) (of_uint64 WIDTH (uint64 amount)) in
  Ret (negb (bgt bnHashPos bnTarget)).

(** The script types that may stake. *)
Definition may_stake (t : txnouttype) : bool :=
  match t with
  | TX_SCRIPTHASH | TX_MULTISIG | TX_PUBKEYHASH | TX_PUBKEY | TX_WITNESS_V0_SCRIPTHASH | TX_WITNESS_V0_KEYHASH => true
  | _ => false
  end.

Section Stake.
Context {S : Type} `{V : CCoinsView S, U : CoinUsage, Env : NodeEnv, Rules : TxRules, BR : BlockRules}.
Implicit Types c : CCoinsViewCache S.

Definition contracts_allowed : bool := chain_height + 1 >=? UBCONTRACT_Height.

(** The coins are those of [pcoinsTip]. *)
Definition CheckStake (m : BlockManager) (block : CBlock) c : outcome (bool * CCoinsViewCache S) :=
  let header := block_header block in
  if negb (hdr_IsProofOfStake header) then Ret (false, c)
  else if negb contracts_allowed then Ret (false, c)
  else
    let? stake := index (vtx block) 1 in
    if negb (IsCoinStake stake) then Ret (false, c)
    else
      let? txin := index (vin stake) 0 in
      match GetCoin c (prevout txin) with
      | (None, c) => Ret (false, c)
      | (Some coinStake, c) =>
        if coin_nHeight coinStake >? chain_height + 1 - nStakeMinConfirmations then Ret (false, c)
        else
          let? ok := CheckProofOfStake m header (prevout txin) (nValue (coin_out coinStake)) in
          if negb ok then Ret (false, c)
          else
            let? out := index (vout stake) 1 in
            match ExtractDestinations contracts_allowed (scriptPubKey (coin_out coinStake)), ExtractDestinations contracts_allowed (scriptPubKey out) with
            | Some (whichTypeFrom, _, _), Some (whichTypeTo, _, _) =>
              if negb (may_stake whichTypeFrom) then Ret (false, c)
              else if negb (may_stake whichTypeTo) then Ret (false, c)
              else if negb (bool_decide (scriptPubKey (coin_out coinStake) = scriptPubKey out)) then Ret (false, c)
              else if negb (nValue (coin_out coinStake) =? nValue out) then Ret (false, c)
              else Ret (true, c)
            | _, _ => Ret (false, c)
            end
      end.
End Stake.
