(* ===== verification/StakeProps.v ===== *)
(** * What a stake block proves

    The kernel test of [Stake] as arithmetic, and what an accepted stake block spends and
    returns. *)

From stdpp Require Import gmap sorting.
From S2P Require Import Prelude Common Serialize Opcodes Script Sha256 Hash Transaction SigEncoding Interpreter SigHash Standard ArithUint256.
From S2P Require Import ArithProps Block Chain ChainProps BlockIndexInv Pow PowProps Coins CoinsProps CoinsDB UpdateCoins UpdateCoinsProps.
From S2P Require Import TxVerify TxVerifyProps Stake.

Open Scope Z_scope.
Open Scope outcome_scope.

Lemma sha256_Finalize_wf h : wf_hash (Sha256.Finalize h).
Proof.
  unfold Sha256.Finalize, Sha256.output, wf_hash, Zlen, WriteBE32. destruct (MDHash.h_s _) as [[[[[[[? ?] ?] ?] ?] ?] ?] ?].
  rewrite !bytes_ok_app, !length_app, !length_be_encode. split; [| done]. repeat (split; [apply be_encode_ok |]). apply be_encode_ok.
Qed.

Lemma Hash_wf m : wf_hash (Hash m).
Proof. apply sha256_Finalize_wf. Qed.

(** ** The kernel *)

Section Kernel.
Context `{BR : BlockRules} (m : BlockManager) (Hio : index_ok m).

Lemma hash_at_height_run fuel : forall p n height hash, blocks m !! p = Some n -> 0 <= height <= nHeight n -> (Z.to_nat (nHeight n - height) <= fuel)%nat ->
  exists q nq r, hash_at_height fuel (blocks m) height hash (Some p) = Ret r /\ back (blocks m) (Z.to_nat (nHeight n - height)) p = Some q /\ blocks m !! q = Some nq /\
    nHeight nq = height /\ phashBlock nq = Some r.
Proof.
  induction fuel as [| fuel IH]; intros p n height hash Hp Hh Hf; cbn [hash_at_height deref]; rewrite Hp; cbn [obind].
  all: destruct (nHeight n =? height) eqn:E; bool_to_prop; [destruct (nd_hash _ _ (io_data m Hio p n Hp)) as [r Hr]; exists p, n, r; unfold GetBlockHash; rewrite Hr, E, Z.sub_diag; done |].
  { lia. }
  pose proof (io_heap m Hio p n Hp) as Hn. unfold node_ok in Hn. destruct (pprev n) as [q |] eqn:Eq; [| lia]. destruct Hn as (_ & (x & Hx & Hhx & _) & _).
  destruct (IH q x height hash Hx) as (r & nr & h & E1 & E2 & E3); [lia | lia |]. exists r, nr, h. split; [done |]. split; [| done].
  replace (Z.to_nat (nHeight n - height)) with (S (Z.to_nat (nHeight x - height))) by lia. by rewrite (back_step _ _ p n q).
Qed.

(** From the third fork on the bytes end with the hash of the ancestor at the last
    multiple of ten. *)
Definition kernel_bytes (b : CBlockHeader) (o : COutPoint) (q : ptr) (n : CBlockIndex) (ss : list Z) : Prop :=
  let base := ser_writedata32 (hdr_nTime b) ++ outpoint_hash o ++ ser_writedata32 (outpoint_n o) in
  if nHeight n + 1 <? ForkV3Height then ss = base
  else exists a na hash, back (blocks m) (Z.to_nat (nHeight n mod 10)) q = Some a /\ blocks m !! a = Some na /\ phashBlock na = Some hash /\ ss = base ++ hash.

Lemma kernel_run b o q n : hdr_hashPrevBlock b <> replicate 32 0 -> mapBlockIndex m !! hdr_hashPrevBlock b = Some q -> blocks m !! q = Some n ->
  exists ss, kernel m b o = Ret ss /\ kernel_bytes b o q n ss.
Proof.
  intros Hne Hq Hn. pose proof (node_height _ _ _ (io_heap m Hio q n Hn)) as Hh. unfold kernel, kernel_bytes. rewrite bool_decide_eq_false_2, Hq by done. cbn [deref]. rewrite Hn. cbn [obind].
  destruct (_ <? _); [by eexists |]. pose proof (Z.div_mod (nHeight n) 10 ltac:(lia)) as Hdm. pose proof (Z.mod_pos_bound (nHeight n) 10 ltac:(lia)) as Hmod.
  rewrite Z.quot_div_nonneg by lia. destruct (hash_at_height_run (steps (blocks m) (Some q)) q n (nHeight n / 10 * 10) (hdr_hashPrevBlock b) Hn) as (a & na & r & -> & Hb & Ha & _ & Hr).
  - lia.
  - cbn [steps]. rewrite Hn. lia.
  - cbn [obind]. eexists. split; [done |]. exists a, na, r. replace (Z.to_nat (nHeight n mod 10)) with (Z.to_nat (nHeight n - nHeight n / 10 * 10)) by lia. done.
Qed.

Lemma CheckProofOfStake_run b o amount q n : hdr_hashPrevBlock b <> replicate 32 0 -> mapBlockIndex m !! hdr_hashPrevBlock b = Some q -> blocks m !! q = Some n ->
  0 <= hdr_nBits b < 2 ^ 32 ->
  exists ss, kernel_bytes b o q n ss /\
    if uint64 amount =? 0 then CheckProofOfStake m b o amount = Throw uint_error
    else CheckProofOfStake m b o amount = Ret (le_decode (Hash ss) / uint64 amount <=? uval (compact_value (SetCompact (hdr_nBits b)))).
Proof.
  intros Hne Hq Hn Hbits. destruct (kernel_run b o q n Hne Hq Hn) as (ss & Hk & Hss). exists ss. split; [done |]. unfold CheckProofOfStake. rewrite Hk. cbn [obind].
  destruct (Hash_wf ss) as [Hb Hl]. destruct (UintToArith256_spec (Hash ss) Hb Hl) as [Hw Hv]. destruct (of_uint64_spec (uint64 amount)) as [Hwa Hva]; [apply uint64_range |].
  pose proof (bdiv_spec WIDTH _ _ Hw Hwa) as Hd. rewrite Hva, Hv in Hd. destruct (uint64 amount =? 0); [by rewrite Hd |]. destruct Hd as (x & -> & Hx & Hxv). cbn [obind].
  rewrite (bgt_spec WIDTH), Hxv by (done || by apply SetCompact_wf). f_equal. destruct (_ <? _) eqn:E; bool_to_prop; cbn [negb]; symmetry; [apply Z.leb_gt | apply Z.leb_le]; lia.
Qed.

Lemma wf_hash_value l : wf_hash l -> 0 <= le_decode l < 256 ^ Z.of_nat 32.
Proof. intros [Hb Hl]. change 32 with (Z.of_nat 32) in Hl. apply Nat2Z.inj in Hl. rewrite <- Hl. exact (le_decode_bound _ Hb). Qed.

Lemma easy_quotient h t a : 0 <= h < 256 ^ Z.of_nat 32 -> 2 ^ 254 <= t -> 4 <= a -> h / a <= t.
Proof.
  replace (256 ^ Z.of_nat 32) with (4 * 2 ^ 254) by reflexivity. generalize (2 ^ 254). intros P Hh Ht Ha.
  apply Z.div_le_upper_bound; [lia |]. pose proof (Z.mul_le_mono_nonneg_r 4 a t ltac:(lia) Ha). lia.
Qed.

(** Under a target of at least 2^254 every coin of four units stakes. *)
Lemma easy_stake b o amount q n : hdr_hashPrevBlock b <> replicate 32 0 -> mapBlockIndex m !! hdr_hashPrevBlock b = Some q -> blocks m !! q = Some n -> 0 <= hdr_nBits b < 2 ^ 32 ->
  2 ^ 254 <= uval (compact_value (SetCompact (hdr_nBits b))) -> 4 <= uint64 amount -> CheckProofOfStake m b o amount = Ret true.
Proof.
  intros H1 H2 H3 H4 Ht Ha. destruct (CheckProofOfStake_run b o amount q n H1 H2 H3 H4) as (ss & _ & Hv). destruct (uint64 amount =? 0) eqn:E; [bool_to_prop; lia |].
  rewrite Hv. apply (f_equal Ret), Z.leb_le. exact (easy_quotient _ _ _ (wf_hash_value _ (Hash_wf ss)) Ht Ha).
Qed.
End Kernel.

(** ** An accepted stake *)

(** The coinstake returns the coin it spends: one input, an empty output and an output
    with the script and the value of the coin, which is old enough and of a type that may
    stake. *)
Definition stakes_coin `{NodeEnv, BlockRules} (stake : CTransaction) (txin : CTxIn) (coin : Coin) : Prop :=
  vin stake = [txin] /\ (exists e out, vout stake = [e; out] /\ CTxOut_IsEmpty e = true /\
    scriptPubKey out = scriptPubKey (coin_out coin) /\ nValue out = nValue (coin_out coin)) /\
  coin_nHeight coin + nStakeMinConfirmations <= chain_height + 1.

Lemma IsCoinStake_shape tx : IsCoinStake tx = true -> exists i e out, vin tx = [i] /\ vout tx = [e; out] /\ CTxOut_IsEmpty e = true.
Proof.
  unfold IsCoinStake. intros H. destruct (vin tx) as [| i [| ? ?]]; [done | | done]. destruct (vout tx) as [| e [| out [| ? ?]]]; try done. by exists i, e, out.
Qed.

Section Sound.
Context {S : Type} `{V : CCoinsView S, U : CoinUsage, Env : NodeEnv, Rules : TxRules, BR : BlockRules}.

Lemma CheckStake_inv (m : BlockManager) block (c c' : CCoinsViewCache S) : CheckStake m block c = Ret (true, c') ->
  exists stake txin coin, vtx block !! 1%nat = Some stake /\ stakes_coin stake txin coin /\ GetCoin c (prevout txin) = (Some coin, c') /\
    CheckProofOfStake m (block_header block) (prevout txin) (nValue (coin_out coin)) = Ret true.
Proof.
  unfold CheckStake. destruct (hdr_IsProofOfStake _); [| done]. destruct contracts_allowed; [| done]. cbn [negb]. unfold index at 1. cbn [Z.ltb Z.compare].
  change (Z.to_nat 1) with 1%nat. destruct (vtx block !! 1%nat) as [stake |]; [| done]. cbn [obind]. destruct (IsCoinStake stake) eqn:Es; [| done]. cbn [negb].
  destruct (IsCoinStake_shape stake Es) as (i & e & out & Hi & Ho & He). rewrite Hi, Ho. change (index [i] 0) with (Ret i). change (index [e; out] 1) with (Ret out). cbn [obind].
  destruct (GetCoin c (prevout i)) as [[coin |] c1] eqn:Ec; [| done]. destruct (_ >? _) eqn:Eh; [done |].
  destruct (CheckProofOfStake m _ _ _) as [ok | | |] eqn:Ep; try done. cbn [obind]. destruct ok; [| done]. cbn [negb].
  destruct (ExtractDestinations _ (scriptPubKey (coin_out coin))) as [[[t1 ?] ?] |]; [| done]. destruct (ExtractDestinations _ (scriptPubKey out)) as [[[t2 ?] ?] |]; [| done].
  destruct (may_stake t1); [| done]. destruct (may_stake t2); [| done]. cbn [negb]. case_bool_decide as Esc; [| done]. cbn [negb]. destruct (_ =? _) eqn:Ev; [| done]. cbn [negb].
  intros [= <-]. bool_to_prop. exists stake, i, coin. split; [done |]. split; [| done]. split; [done |]. split; [| lia]. by exists e, out.
Qed.
(** A stake that meets every condition is accepted. *)
Lemma CheckStake_accept (m : BlockManager) block (c c' : CCoinsViewCache S) stake i e out coin t dests req :
  hdr_IsProofOfStake (block_header block) = true -> contracts_allowed = true -> vtx block !! 1%nat = Some stake -> IsCoinStake stake = true ->
  vin stake = [i] -> vout stake = [e; out] -> GetCoin c (prevout i) = (Some coin, c') -> (coin_nHeight coin >? chain_height + 1 - nStakeMinConfirmations) = false ->
  ExtractDestinations contracts_allowed (scriptPubKey out) = Some (t, dests, req) -> may_stake t = true ->
  scriptPubKey (coin_out coin) = scriptPubKey out -> nValue (coin_out coin) = nValue out ->
  CheckProofOfStake m (block_header block) (prevout i) (nValue (coin_out coin)) = Ret true -> CheckStake m block c = Ret (true, c').
Proof.
  intros H1 H2 H3 H4 H5 H6 H7 H8 H9 H10 H11 H12 H13. unfold CheckStake. rewrite H1, H2. cbn [negb]. unfold index at 1. cbn [Z.ltb Z.compare].
  change (Z.to_nat 1) with 1%nat. rewrite H3. cbn [obind]. rewrite H4, H5, H6. change (index [i] 0) with (Ret i). change (index [e; out] 1) with (Ret out). cbn [obind negb].
  rewrite H7, H8, H13. cbn [obind negb]. rewrite H2 in H9. rewrite H11, H9, H10, H12, Z.eqb_refl, bool_decide_true by done. reflexivity.
Qed.
End Sound.

(** ** Theorems *)

(** C30. The test of a stake is the comparison of the hash of its kernel, divided by the
    amount, with the target. The kernel is the time, the coin and, from the third fork on,
    the hash of the ancestor at the last multiple of ten. An amount of zero, which the
    block may claim, throws an arithmetic exception instead of failing the test. *)
Theorem CheckProofOfStake_spec `{BlockRules} m b o amount q n : index_ok m ->
  hdr_hashPrevBlock b <> replicate 32 0 -> mapBlockIndex m !! hdr_hashPrevBlock b = Some q -> blocks m !! q = Some n -> 0 <= hdr_nBits b < 2 ^ 32 ->
  exists ss, kernel_bytes m b o q n ss /\
    if uint64 amount =? 0 then CheckProofOfStake m b o amount = Throw uint_error
    else CheckProofOfStake m b o amount = Ret (le_decode (Hash ss) / uint64 amount <=? uval (compact_value (SetCompact (hdr_nBits b)))).
Proof. intros Hio. by apply CheckProofOfStake_run. Qed.

Definition sample_block_rules : BlockRules := {|
  ForkV3Height := 783300;
  nStakeMinConfirmations := 4800;
  UB_FORK_BLOCK_NUM := 498777;
  antiReplayOpReturnSunsetHeight := 530000;
  antiReplayOpReturnCommitment := [];
  UBCfoundation := Some (replicate 20 5)
|}.

(** A stake header on the block with the given hash. *)
Definition stake_header (prev : list Z) : CBlockHeader := BlockHeader 0x21000000 prev (replicate 32 3) 1600000000 0x1d00ffff 5.

Lemma sample_index : exists m p n, index_ok m /\ mapBlockIndex m !! block_GetHash sample_header = Some p /\ blocks m !! p = Some n.
Proof.
  assert (Hbits : 0 <= hdr_nBits sample_header < 2 ^ 32) by (by vm_compute).
  destruct (AddToBlockIndex_inv empty_index sample_header empty_index_ok Hbits sample_header_acyclic ltac:(done)) as (m & p & _ & Hio & Hmap & _ & _).
  exists m, p. pose proof Hmap as (n & Hn & _)%(io_map m Hio). by exists n.
Qed.

Lemma sample_hash_nonzero : block_GetHash sample_header <> replicate 32 0.
Proof. apply (bool_decide_unpack _). vm_compute. exact I. Qed.

Lemma CheckProofOfStake_spec_witness :
  exists m, index_ok m /\ CheckProofOfStake (H := sample_block_rules) m (stake_header (block_GetHash sample_header)) (OutPoint (replicate 32 7) 0) 0 = Throw uint_error.
Proof.
  destruct sample_index as (m & p & n & Hio & Hmap & Hn). exists m. split; [exact Hio |].
  destruct (CheckProofOfStake_spec (H := sample_block_rules) m (stake_header (block_GetHash sample_header)) (OutPoint (replicate 32 7) 0) 0 p n Hio) as (ss & _ & H).
  - exact sample_hash_nonzero.
  - exact Hmap.
  - exact Hn.
  - unfold stake_header. cbn [hdr_nBits]. lia.
  - exact H.
Defined.

(** C31. A block that passes [CheckStake] spends a coin of the coin set that is old enough,
    gives it back unchanged, script and value, and the hash of its kernel, divided by the
    value of that coin, does not exceed the target. *)
Theorem CheckStake_sound {S : Type} `{V : CCoinsView S, U : CoinUsage, Env : NodeEnv, Rules : TxRules, BR : BlockRules} m block (c c' : CCoinsViewCache S) q n :
  index_ok m -> CheckStake m block c = Ret (true, c') ->
  hdr_hashPrevBlock (block_header block) <> replicate 32 0 -> mapBlockIndex m !! hdr_hashPrevBlock (block_header block) = Some q -> blocks m !! q = Some n ->
  0 <= hdr_nBits (block_header block) < 2 ^ 32 ->
  exists stake txin coin ss, vtx block !! 1%nat = Some stake /\ stakes_coin stake txin coin /\ GetCoin c (prevout txin) = (Some coin, c') /\
    kernel_bytes m (block_header block) (prevout txin) q n ss /\ uint64 (nValue (coin_out coin)) <> 0 /\
    le_decode (Hash ss) / uint64 (nValue (coin_out coin)) <= uval (compact_value (SetCompact (hdr_nBits (block_header block)))).
Proof.
  intros Hio Hc Hne Hq Hn Hbits. destruct (CheckStake_inv m block c c' Hc) as (stake & txin & coin & H1 & H2 & H3 & H4).
  destruct (CheckProofOfStake_run m Hio (block_header block) (prevout txin) (nValue (coin_out coin)) q n Hne Hq Hn Hbits) as (ss & Hss & Hv).
  exists stake, txin, coin, ss. do 4 (split; [done |]). rewrite H4 in Hv. destruct (uint64 _ =? 0) eqn:E0; [done |]. bool_to_prop. split; [done |].
  apply Ret_inj in Hv. symmetry in Hv. by apply Z.leb_le.
Qed.

(** A stake of one coin under the easiest target: the coin with a standard script. *)
Definition stake_script : list Z := [OP_DUP; OP_HASH160; 20] ++ replicate 20 7 ++ [OP_EQUALVERIFY; OP_CHECKSIG].

Definition stake_coin : Coin := Coin_of (TxOut COIN stake_script) 100 false.

Definition stake_cache : CCoinsViewCache CCoinsViewDB := Cache empty_db (replicate 32 0) {[sample_outpoint 0 := CacheEntry stake_coin (Z.lor DIRTY FRESH)]} 1.

Definition stake_tx : CTransaction := Transaction 2 [TxIn (sample_outpoint 0) [] SEQUENCE_FINAL []] [TxOut 0 []; TxOut COIN stake_script] 0.

Definition stake_block : CBlock :=
  Block (BlockHeader 0x21000000 (block_GetHash sample_header) (replicate 32 3) 1600000000 0x207fffff 5) [sample_coinbase; stake_tx].

Lemma stake_block_accepted (m : BlockManager) p n : index_ok m -> mapBlockIndex m !! block_GetHash sample_header = Some p -> blocks m !! p = Some n ->
  let H := sample_db_params in let U := sample_usage in let N := sample_node in let R := sample_rules in let B := sample_block_rules in
  CheckStake m stake_block stake_cache = Ret (true, stake_cache).
Proof.
  intros Hio Hmap Hn H U N R B.
  refine (CheckStake_accept m stake_block stake_cache stake_cache stake_tx (TxIn (sample_outpoint 0) [] SEQUENCE_FINAL []) (TxOut 0 []) (TxOut COIN stake_script) stake_coin
    TX_PUBKEYHASH [CKeyID (replicate 20 7)] 1 _ _ _ _ _ _ _ _ _ _ _ _ _).
  13: apply (easy_stake m Hio (block_header stake_block) (sample_outpoint 0) COIN p n sample_hash_nonzero Hmap Hn); [unfold stake_block; cbn [block_header hdr_nBits]; lia | vm_compute; discriminate | vm_compute; discriminate].
  all: vm_compute; reflexivity.
Qed.

Lemma CheckStake_sound_witness :
  let H := sample_db_params in let U := sample_usage in let N := sample_node in let R := sample_rules in let B := sample_block_rules in
  exists m, CheckStake m stake_block stake_cache = Ret (true, stake_cache) /\ exists stake txin coin, vtx stake_block !! 1%nat = Some stake /\ stakes_coin stake txin coin.
Proof.
  intros H U N R B. destruct sample_index as (m & p & n & Hio & Hmap & Hn). exists m. split; [exact (stake_block_accepted m p n Hio Hmap Hn) |].
  destruct (CheckStake_sound m stake_block stake_cache stake_cache p n Hio (stake_block_accepted m p n Hio Hmap Hn)) as (stake & txin & coin & ss & H1 & H2 & _).
  - exact sample_hash_nonzero.
  - exact Hmap.
  - exact Hn.
  - unfold stake_block. cbn [block_header hdr_nBits]. lia.
  - exists stake, txin, coin. split; [exact H1 | exact H2].
Defined.
