(* ===== verification/SequenceLocks.v ===== *)
(** * Relative lock times

    The meaning of the sequence locks of [TxVerify] (BIP 68): the two minima that
    [CalculateSequenceLocks] accumulates and [EvaluateSequenceLocks] compares decide
    whether every input is unlocked. *)

From stdpp Require Import gmap sorting.
From S2P Require Import Prelude Serialize Opcodes Script SigEncoding Interpreter ContractScript Hash Transaction SigHash VerifyScript Block.
From S2P Require Import ArithUint256 Chain ChainProps Merkle MerkleBlock Coins TxVerify.

Open Scope Z_scope.
Open Scope outcome_scope.

Section MedianTime.
Context (h : heap) (Hok : heap_ok h) (Htimes : forall p n, h !! p = Some n -> 0 <= bi_nTime n < 2 ^ 32).

Lemma last_times_run k : forall p n, h !! p = Some n -> exists l, last_times k h (Some p) = Ret l /\
  Forall (fun t => 0 <= t < 2 ^ 32) l /\ (k <> 0%nat -> l <> []).
Proof.
  induction k as [| k IH]; intros p n Hp; cbn [last_times]; [by exists [] |]. cbn [deref]. rewrite Hp. cbn [obind].
  assert (Hrest : exists l, last_times k h (pprev n) = Ret l /\ Forall (fun t => 0 <= t < 2 ^ 32) l).
  { pose proof (Hok p n Hp) as Hn. unfold node_ok in Hn. destruct (pprev n) as [q |]; [| exists []; by destruct k].
    destruct Hn as (_ & (m & Hm & _) & _). destruct (IH q m Hm) as (l & El & Hl & _). by exists l. }
  destruct Hrest as (l & -> & Hl). cbn [obind]. exists (GetBlockTime n :: l). split; [done |]. split; [| done]. constructor; [by apply (Htimes p) | done].
Qed.

(** The median time past of a block is a time of one of its last ancestors. *)
Lemma GetMedianTimePast_run p n : h !! p = Some n -> exists t, GetMedianTimePast h p = Ret t /\ 0 <= t < 2 ^ 32.
Proof.
  intros Hp. unfold GetMedianTimePast. destruct (last_times_run nMedianTimeSpan p n Hp) as (l & -> & Hl & Hne). cbn [obind].
  specialize (Hne ltac:(done)). pose proof (merge_sort_Permutation Z.le l) as Hperm.
  assert (Hlen : (Z.to_nat (Zlen l / 2) < length (merge_sort Z.le l))%nat).
  { rewrite Hperm. unfold Zlen. destruct l; [done |]. cbn [length]. apply Nat2Z.inj_lt. rewrite Z2Nat.id by (apply Z.div_pos; lia).
    apply Z.div_lt_upper_bound; lia. }
  apply lookup_lt_is_Some in Hlen as [t Ht]. exists t. unfold index. rewrite (proj2 (Z.ltb_ge _ _)), Ht by (apply Z.div_pos; [apply Zlen_nonneg | lia]).
  split; [done |]. apply list_elem_of_lookup_2 in Ht. rewrite Hperm in Ht. rewrite list.Forall_forall in Hl. by apply Hl.
Qed.
End MedianTime.

(** An input is unlocked in the block [block] at height [nHeight], the median time
    past of the block before being [prevTime]. *)
Definition unlocked (h : heap) (block : ptr) (height prevTime : Z) (txin : CTxIn) (nCoinHeight : Z) : Prop :=
  if flag (nSequence txin) SEQUENCE_LOCKTIME_DISABLE_FLAG then True
  else
    let lock := Z.land (nSequence txin) SEQUENCE_LOCKTIME_MASK in
    if flag (nSequence txin) SEQUENCE_LOCKTIME_TYPE_FLAG then
      exists p t, GetAncestor h block (Z.max (nCoinHeight - 1) 0) = Ret (Some p) /\ GetMedianTimePast h p = Ret t /\ t + 512 * lock <= prevTime
    else nCoinHeight + lock <= height.

Section SequenceLocks.
Context (h : heap) (Hok : heap_ok h) (Htimes : forall p n, h !! p = Some n -> 0 <= bi_nTime n < 2 ^ 32).
Context (block : ptr) (n : CBlockIndex) (Hblock : h !! block = Some n) (Hheight : nHeight n + 65535 <= INT_MAX).

Lemma int_add_run a b : INT_MIN <= a + b <= INT_MAX -> int_add a b = Ret (a + b).
Proof. intros H. unfold int_add. by rewrite (proj2 (Z.leb_le _ _)), (proj2 (Z.leb_le _ _)) by lia. Qed.

Lemma int64_add_run a b : - 2 ^ 62 <= a <= 2 ^ 62 -> - 2 ^ 62 <= b < 2 ^ 62 -> int64_add a b = Ret (a + b).
Proof.
  intros Ha Hb. unfold int64_add, INT64_MIN, INT64_MAX.
  by rewrite (proj2 (Z.leb_le (- 2 ^ 63) (a + b))), (proj2 (Z.leb_le (a + b) (2 ^ 63 - 1))) by lia.
Qed.

Lemma lock_range x : 0 <= Z.land x SEQUENCE_LOCKTIME_MASK <= 65535.
Proof.
  change SEQUENCE_LOCKTIME_MASK with (Z.ones 16). rewrite Z.land_ones by lia. pose proof (Z.mod_pos_bound x (2 ^ 16) ltac:(lia)). lia.
Qed.

Lemma sequence_locks_run prevTime l : forall hs a b, length hs = length l -> Forall (fun ch => 0 <= ch <= nHeight n) hs ->
  exists mh mt hs', sequence_locks h block l hs a b = Ret (mh, mt, hs') /\
    ((mh < nHeight n /\ mt < prevTime) <-> (a < nHeight n /\ b < prevTime) /\ Forall2 (unlocked h block (nHeight n) prevTime) l hs).
Proof.
  induction l as [| i l IH]; intros [| ch hs] a b Hlen Hhs; try done; cbn [sequence_locks].
  { exists a, b, []. split; [done |]. split; [intros [? ?]; split; [done | constructor] | tauto]. }
  cbn in Hlen. apply list.Forall_cons in Hhs as [Hch Hhs]. pose proof (lock_range (nSequence i)) as Hm. set (lock := Z.land _ SEQUENCE_LOCKTIME_MASK) in *.
  setoid_rewrite list.Forall2_cons. unfold unlocked at 1. unfold INT_MAX in Hheight. destruct (flag _ SEQUENCE_LOCKTIME_DISABLE_FLAG) eqn:Ed.
  - destruct (IH hs a b ltac:(lia) Hhs) as (mh & mt & hs' & -> & Hiff). cbn [obind fst snd]. eexists _, _, _. split; [reflexivity |]. rewrite Hiff. tauto.
  - destruct (flag _ SEQUENCE_LOCKTIME_TYPE_FLAG) eqn:Et.
    + rewrite int_add_run by (unfold INT_MIN, INT_MAX; lia). cbn [obind]. replace (ch + -1) with (ch - 1) by lia.
      pose proof (GetAncestor_run h Hok block n (Z.max (ch - 1) 0) Hblock) as Ea. rewrite (proj2 (Z.ltb_ge (Z.max (ch - 1) 0) 0)), Z.gtb_ltb, (proj2 (Z.ltb_ge (nHeight n) (Z.max (ch - 1) 0))) in Ea by lia.
      cbn [orb] in Ea. destruct (back_some h Hok (Z.to_nat (nHeight n - Z.max (ch - 1) 0)) block n Hblock ltac:(lia)) as (q & m & Hq & Hqm & _).
      rewrite Hq in Ea. rewrite Ea. cbn [obind]. destruct (GetMedianTimePast_run h Hok Htimes q m Hqm) as (t & Em & Ht). rewrite Em. cbn [obind].
      assert (Hs : uint32 (Z.shiftl lock SEQUENCE_LOCKTIME_GRANULARITY) = 512 * lock).
      { unfold SEQUENCE_LOCKTIME_GRANULARITY. rewrite Z.shiftl_mul_pow2 by lia. rewrite uint32_id by lia. lia. }
      rewrite Hs, int64_add_run by lia. cbn [obind]. rewrite int64_add_run by lia. cbn [obind].
      destruct (IH hs a (Z.max b (t + 512 * lock + -1)) ltac:(lia) Hhs) as (mh & mt & hs' & -> & Hiff). cbn [obind fst snd].
      eexists _, _, _. split; [reflexivity |]. rewrite Hiff. split.
      * intros [[H1 H2] H3]. split; [lia |]. split; [| done]. exists q, t. split_and!; [done | done | lia].
      * intros [[H1 H2] [(q' & t' & E1 & E2 & E3) H3]]. assert (q' = q) as -> by congruence. assert (t' = t) as -> by congruence. split; [lia | done].
    + rewrite int_add_run by (unfold INT_MIN, INT_MAX; lia). cbn [obind]. rewrite int_add_run by (unfold INT_MIN, INT_MAX; lia). cbn [obind].
      destruct (IH hs (Z.max a (ch + lock + -1)) b ltac:(lia) Hhs) as (mh & mt & hs' & -> & Hiff). cbn [obind fst snd].
      eexists _, _, _. split; [reflexivity |]. rewrite Hiff. split; [intros [[H1 H2] H3] | intros [[H1 H2] [H3 H4]]]; (split; [lia |]); [split; [lia | done] | done].
Qed.
End SequenceLocks.

(** C33. Relative lock times: on a well-formed index [SequenceLocks] of a block with a
    predecessor returns, and it holds exactly when the rule is not in force for the
    transaction or every input without the disable flag is unlocked, by height (the
    coin is at least the lock number of blocks old) or by time (the median time past
    of the previous block is at least 512 seconds per unit after that of the coin). *)
Theorem SequenceLocks_spec (h : heap) tx flags prevHeights block n prev prevTime :
  heap_ok h -> (forall p m, h !! p = Some m -> 0 <= bi_nTime m < 2 ^ 32) ->
  h !! block = Some n -> nHeight n + 65535 <= INT_MAX -> pprev n = Some prev -> GetMedianTimePast h prev = Ret prevTime ->
  length prevHeights = length (vin tx) -> Forall (fun ch => 0 <= ch <= nHeight n) prevHeights ->
  exists b hs, SequenceLocks h tx flags prevHeights block = Ret (b, hs) /\
    (b = true <-> (uint32 (nVersion tx) < 2 \/ flag flags LOCKTIME_VERIFY_SEQUENCE = false) \/
                  Forall2 (unlocked h block (nHeight n) prevTime) (vin tx) prevHeights).
Proof.
  intros Hok Htimes Hblock Hheight Hprev Hmtp Hlen Hhs. unfold SequenceLocks, CalculateSequenceLocks.
  assert (El : (Zlen prevHeights =? Zlen (vin tx)) = true) by (apply Z.eqb_eq; unfold Zlen; lia). rewrite El. cbn [cassert obind].
  assert (Htip : 0 <= prevTime).
  { pose proof (Hok block n Hblock) as Hn. unfold node_ok in Hn. rewrite Hprev in Hn. destruct Hn as (_ & (m & Hm & _) & _).
    destruct (GetMedianTimePast_run h Hok Htimes prev m Hm) as (t & E & ?). assert (t = prevTime) by congruence. lia. }
  pose proof (node_height _ _ _ (Hok block n Hblock)) as Hn0.
  assert (Heval : forall mh mt, EvaluateSequenceLocks h block (mh, mt) = Ret (bool_decide (mh < nHeight n /\ mt < prevTime))).
  { intros mh mt. unfold EvaluateSequenceLocks. cbn [deref]. rewrite Hblock. cbn [obind fst snd]. rewrite Hprev, Hmtp. cbn [obind].
    destruct (_ || _) eqn:E; f_equal; symmetry; [apply bool_decide_eq_false_2 | apply bool_decide_eq_true_2].
    - apply orb_true_iff in E as [E | E]; bool_to_prop; lia.
    - bool_to_prop. lia. }
  destruct ((uint32 (nVersion tx) >=? 2) && flag flags LOCKTIME_VERIFY_SEQUENCE) eqn:Ef; cbn [negb].
  - destruct (sequence_locks_run h Hok Htimes block n Hblock Hheight prevTime (vin tx) prevHeights (-1) (-1) Hlen Hhs) as (mh & mt & hs & -> & Hiff).
    cbn [obind fst snd]. rewrite Heval. cbn [obind]. eexists _, _. split; [reflexivity |]. rewrite bool_decide_eq_true, Hiff. bool_to_prop.
    split; [tauto |]. intros [[? | ?] | ?]; [lia | congruence | split; [lia | done]].
  - cbn [obind fst snd]. rewrite Heval. cbn [obind]. eexists _, _. split; [reflexivity |]. rewrite bool_decide_eq_true.
    split; [intros _; left | intros _; lia]. apply andb_false_iff in Ef as [Ef | Ef]; bool_to_prop; [by left | by right].
Qed.

(** An input with a lock of two blocks on a coin of height 1. *)
Definition locked_tx : CTransaction := Transaction 2 [TxIn (OutPoint (replicate 32 7) 0) [] 2 []] [] 0.

Lemma SequenceLocks_spec_witness :
  exists b hs, SequenceLocks sample_heap locked_tx LOCKTIME_VERIFY_SEQUENCE [1] 3%nat = Ret (b, hs) /\ b = true.
Proof.
  destruct (SequenceLocks_spec sample_heap locked_tx LOCKTIME_VERIFY_SEQUENCE [1] 3%nat (sample_entry (Some 2%nat) (Some 1%nat) 3) 2%nat 1500000001)
    as (b & hs & E & Hb).
  - exact sample_heap_ok.
  - refine (sample_heap_cases (fun _ m => 0 <= bi_nTime m < 2 ^ 32) _). intros p Hp.
    destruct p as [| [| [| [| [| p]]]]]; [.. | lia]; (eexists; split; [reflexivity | cbn; lia]).
  - reflexivity.
  - vm_compute. discriminate.
  - reflexivity.
  - vm_compute. reflexivity.
  - reflexivity.
  - repeat constructor; cbn; lia.
  - exists b, hs. split; [exact E |]. apply Hb. right. repeat constructor. vm_compute. discriminate.
Defined.
