(* ===== verification/VersionBits.v ===== *)
(** * Version bits

    [src/versionbits.h] and [versionbits.cpp]: the state of a soft fork deployment
    (BIP 9), computed period by period along the block index with a cache of the
    states at the period boundaries. *)

From stdpp Require Import gmap.
From S2P Require Import Prelude Common Serialize Transaction Block ArithUint256 Chain Pow.

Open Scope Z_scope.
Open Scope outcome_scope.

Inductive ThresholdState := THRESHOLD_DEFINED | THRESHOLD_STARTED | THRESHOLD_LOCKED_IN | THRESHOLD_ACTIVE | THRESHOLD_FAILED.

#[export] Instance ThresholdState_eq_dec : EqDecision ThresholdState.
Proof. solve_decision. Defined.

(** The map is indexed by the parent of the first block of a period. *)
Abbreviation ThresholdConditionCache := (gmap (option nat) ThresholdState).

(** [AbstractThresholdConditionChecker] for given consensus parameters. *)
Class ThresholdChecker := {
  Condition : CBlockIndex -> bool;
  BeginTime : Z;
  EndTime : Z;
  Period : Z;
  Threshold : Z
}.

Definition ALWAYS_ACTIVE : Z := -1.

(** [%] of two [int]. *)
Definition int_rem (a b : Z) : outcome Z := if b =? 0 then Undef else Ret (Z.rem a b).

Section Checker.
Context `{Checker : ThresholdChecker}.
Variable h : heap.

(** [p->GetAncestor(p->nHeight - ((p->nHeight + 1) % nPeriod))] *)
Definition period_start (p : ptr) (nPeriod : Z) : outcome (option ptr) :=
  let? n := deref h (Some p) in
  let? next := int_add (nHeight n) 1 in
  let? r := int_rem next nPeriod in
  GetAncestor h p (nHeight n - r).

(** The walk back to a block whose state is known: the cache, that block and the
    blocks to compute, the last one first. *)
Fixpoint walk_back (fuel : nat) (cache : ThresholdConditionCache) (pindexPrev : option ptr) (vToCompute : list ptr) :
    outcome (ThresholdConditionCache * option ptr * list ptr) :=
  match cache !! pindexPrev with
  | Some _ => Ret (cache, pindexPrev, vToCompute)
  | None =>
    match pindexPrev with
    | None => Ret (<[None := THRESHOLD_DEFINED]> cache, None, vToCompute)
    | Some p =>
      let? t := GetMedianTimePast h p in
      if t <? BeginTime then Ret (<[Some p := THRESHOLD_DEFINED]> cache, Some p, vToCompute)
      else
        let? n := deref h (Some p) in
        let? prev := GetAncestor h p (nHeight n - Period) in
        match fuel with
        | O => Undef
        | S fuel => walk_back fuel cache prev (p :: vToCompute)
        end
    end
  end.

(** The blocks of a period that satisfy the condition. *)
Fixpoint count_condition (k : nat) (pindexCount : option ptr) (count : Z) : outcome Z :=
  match k with
  | O => Ret count
  | S k =>
    let? n := deref h pindexCount in
    count_condition k (pprev n) (if Condition n then count + 1 else count)
  end.

(** The state of the period after the block [p]. *)
Definition next_state (state : ThresholdState) (p : ptr) : outcome ThresholdState :=
  match state with
  | THRESHOLD_DEFINED =>
    let? t := GetMedianTimePast h p in
    Ret (if t >=? EndTime then THRESHOLD_FAILED else if t >=? BeginTime then THRESHOLD_STARTED else THRESHOLD_DEFINED)
  | THRESHOLD_STARTED =>
    let? t := GetMedianTimePast h p in
    if t >=? EndTime then Ret THRESHOLD_FAILED
    else
      let? count := count_condition (Z.to_nat Period) (Some p) 0 in
      Ret (if count >=? Threshold then THRESHOLD_LOCKED_IN else THRESHOLD_STARTED)
  | THRESHOLD_LOCKED_IN => Ret THRESHOLD_ACTIVE
  | THRESHOLD_FAILED => Ret THRESHOLD_FAILED
  | THRESHOLD_ACTIVE => Ret THRESHOLD_ACTIVE
  end.

Fixpoint walk_forward (cache : ThresholdConditionCache) (state : ThresholdState) (vToCompute : list ptr) :
    outcome (ThresholdState * ThresholdConditionCache) :=
  match vToCompute with
  | [] => Ret (state, cache)
  | p :: vToCompute =>
    let? stateNext := next_state state p in
    walk_forward (<[Some p := stateNext]> cache) stateNext vToCompute
  end.

Definition GetStateFor (pindexPrev : option ptr) (cache : ThresholdConditionCache) : outcome (ThresholdState * ThresholdConditionCache) :=
  if BeginTime =? ALWAYS_ACTIVE then Ret (THRESHOLD_ACTIVE, cache)
  else
    let? start := match pindexPrev with Some p => period_start p Period | None => Ret None end in
    let? r := walk_back (steps h start + 1) cache start [] in
    let '(cache, known, vToCompute) := r in
    match cache !! known with
    | None => Abort
    | Some state => walk_forward cache state vToCompute
    end.

(** ** Statistics of the current period *)

Record BIP9Stats := Stats { period : Z; threshold : Z; elapsed : Z; count : Z; possible : bool }.

Fixpoint count_until (fuel : nat) (end_height : Z) (p : option ptr) (n : Z) : outcome Z :=
  let? m := deref h p in
  if negb (end_height =? nHeight m) then
    match fuel with
    | O => Undef
    | S fuel => count_until fuel end_height (pprev m) (if Condition m then n + 1 else n)
    end
  else Ret n.

Definition GetStateStatisticsFor (pindex : option ptr) : outcome BIP9Stats :=
  match pindex with
  | None => Ret (Stats Period Threshold 0 0 false)
  | Some p =>
    let? n := deref h (Some p) in
    let? e := period_start p Period in
    let? m := deref h e in
    let? c := count_until (Z.to_nat (nHeight n)) (nHeight m) (Some p) 0 in
    Ret (Stats Period Threshold (nHeight n - nHeight m) c (Period - Threshold >=? (nHeight n - nHeight m) - c))
  end.

(** ** The height from which the state holds *)

Fixpoint since_loop (fuel : nat) (initialState : ThresholdState) (pindexPrev : ptr) (previousPeriodParent : option ptr)
    (cache : ThresholdConditionCache) : outcome (ptr * ThresholdConditionCache) :=
  match previousPeriodParent with
  | None => Ret (pindexPrev, cache)
  | Some q =>
    let? r := GetStateFor (Some q) cache in
    if bool_decide (r.1 = initialState) then
      let? n := deref h (Some q) in
      let? prev := GetAncestor h q (nHeight n - Period) in
      match fuel with
      | O => Undef
      | S fuel => since_loop fuel initialState q prev r.2
      end
    else Ret (pindexPrev, r.2)
  end.

Definition GetStateSinceHeightFor (pindexPrev : option ptr) (cache : ThresholdConditionCache) : outcome (Z * ThresholdConditionCache) :=
  if BeginTime =? ALWAYS_ACTIVE then Ret (0, cache)
  else
    let? r := GetStateFor pindexPrev cache in
    if bool_decide (r.1 = THRESHOLD_DEFINED) then Ret (0, r.2)
    else
      match pindexPrev with
      | None => Undef
      | Some p =>
        let? start := period_start p Period in
        match start with
        | None => Undef
        | Some s =>
          let? n := deref h (Some s) in
          let? prev := GetAncestor h s (nHeight n - Period) in
          let? res := since_loop (steps h (Some s)) r.1 s prev r.2 in
          let? m := deref h (Some res.1) in
          let? height := int_add (nHeight m) 1 in
          Ret (height, res.2)
        end
      end.
End Checker.

(** ** Deployments *)

Definition VERSIONBITS_TOP_BITS : Z := 0x20000000.

Definition VERSIONBITS_TOP_MASK : Z := 0xE0000000.

Record BIP9Deployment := Deployment { deployment_bit : Z; nStartTime : Z; nTimeout : Z }.

Definition VersionBitsMask (d : BIP9Deployment) : Z := uint32 (Z.shiftl 1 (deployment_bit d)).

(** The versions are compared as their bits. *)
Definition VersionBitsCondition (d : BIP9Deployment) (n : CBlockIndex) : bool :=
  (Z.land (uint32 (bi_nVersion n)) VERSIONBITS_TOP_MASK =? VERSIONBITS_TOP_BITS) &&
  negb (Z.land (uint32 (bi_nVersion n)) (VersionBitsMask d) =? 0).

Definition VersionBitsConditionChecker (p : ConsensusParams) (d : BIP9Deployment) : ThresholdChecker := {|
  Condition := VersionBitsCondition d;
  BeginTime := nStartTime d;
  EndTime := nTimeout d;
  Period := int32 (nMinerConfirmationWindow p);
  Threshold := int32 (nRuleChangeActivationThreshold p)
|}.

Definition VersionBitsState (h : heap) (pindexPrev : option ptr) (p : ConsensusParams) (d : BIP9Deployment) (cache : ThresholdConditionCache) :
    outcome (ThresholdState * ThresholdConditionCache) :=
  GetStateFor (Checker := VersionBitsConditionChecker p d) h pindexPrev cache.

Definition VersionBitsStatistics (h : heap) (pindexPrev : option ptr) (p : ConsensusParams) (d : BIP9Deployment) : outcome BIP9Stats :=
  GetStateStatisticsFor (Checker := VersionBitsConditionChecker p d) h pindexPrev.

Definition VersionBitsStateSinceHeight (h : heap) (pindexPrev : option ptr) (p : ConsensusParams) (d : BIP9Deployment)
    (cache : ThresholdConditionCache) : outcome (Z * ThresholdConditionCache) :=
  GetStateSinceHeightFor (Checker := VersionBitsConditionChecker p d) h pindexPrev cache.
