(* ===== verification/VersionBitsProps.v ===== *)
(** * The states of a deployment

    [VersionBits] computes the BIP 9 state machine: a definition of the states without
    cache and without shortcut, from the genesis block on, and the proof that
    [GetStateFor] returns them. *)

From stdpp Require Import gmap sorting.
From S2P Require Import Prelude Common Serialize Transaction Block ArithUint256 Chain ChainProps Pow SequenceLocks VersionBits.

Open Scope Z_scope.
Open Scope outcome_scope.

(** ** The median of a window of times *)

(** The number of times below [m]. *)
Definition below (m : Z) (l : list Z) : nat := length (filter (fun x => x < m) l).

Lemma sorted_count (l : list Z) (m : Z) : StronglySorted Z.le l ->
  (forall i v, l !! i = Some v -> (below v l <= i)%nat) /\
  (forall i v, l !! i = Some v -> v < m -> (i < below m l)%nat).
Proof.
  induction 1 as [| x l Hl [IH1 IH2] Hx]; [by split |]. unfold below in *. split; intros [| i] v Hv; cbn in Hv.
  - injection Hv as ->. rewrite filter_cons_False by lia. rewrite list.Forall_forall in Hx.
    destruct (filter (fun y => y < v) l) as [| y r] eqn:E; [done |].
    assert (Hy : y ∈ filter (fun y => y < v) l) by (rewrite E; constructor). apply list_elem_of_filter in Hy as [Hy Hin]. specialize (Hx y Hin). lia.
  - specialize (IH1 i v Hv). rewrite filter_cons. destruct (decide (x < v)); cbn [length]; lia.
  - intros Hm. injection Hv as ->. rewrite filter_cons_True by lia. cbn [length]. lia.
  - intros Hm. specialize (IH2 i v Hv Hm). rewrite list.Forall_forall in Hx. apply list_elem_of_lookup_2 in Hv. specialize (Hx v Hv).
    rewrite filter_cons_True by lia. cbn [length]. lia.
Qed.

(** A median is at least [m] when no more than half of the times are below [m]. *)
Lemma median_count l v : index (merge_sort Z.le l) (Zlen l / 2) = Ret v ->
  Z.of_nat (below v l) <= Zlen l / 2 /\
  (forall m, Z.of_nat (below m l) <= Zlen l / 2 -> m <= v).
Proof.
  unfold index, below. rewrite (proj2 (Z.ltb_ge _ _)) by (apply Z.div_pos; [apply Zlen_nonneg | lia]).
  destruct (merge_sort Z.le l !! _) as [v' |] eqn:Ev; [| done]. intros [= ->].
  assert (Hs : StronglySorted Z.le (merge_sort Z.le l)) by (apply StronglySorted_merge_sort; apply _).
  pose proof (merge_sort_Permutation Z.le l) as Hp. pose proof (Z.div_pos (Zlen l) 2 (Zlen_nonneg _) ltac:(lia)). split.
  - destruct (sorted_count _ 0 Hs) as [H1 _]. specialize (H1 _ _ Ev). unfold below in H1. rewrite (filter_Permutation _ _ _ Hp) in H1. lia.
  - intros m Hm. destruct (sorted_count _ m Hs) as [_ H2]. apply Z.nlt_ge. intros Hv. specialize (H2 _ _ Ev Hv).
    unfold below in H2. rewrite (filter_Permutation _ _ _ Hp) in H2. lia.
Qed.

(** A window of times that gains a time above its median and loses at most one. *)
Lemma median_slide l r t v v' :
  (length r <= 1)%nat -> v <= t ->
  index (merge_sort Z.le (l ++ r)) (Zlen (l ++ r) / 2) = Ret v ->
  index (merge_sort Z.le (t :: l)) (Zlen (t :: l) / 2) = Ret v' -> v <= v'.
Proof.
  intros Hr Ht Hv Hv'. destruct (median_count _ _ Hv) as [Hc _]. destruct (median_count _ _ Hv') as [_ Hlow]. apply Hlow.
  unfold below in *. rewrite filter_cons_False by lia. rewrite list.filter_app, length_app in Hc. unfold Zlen in *. rewrite length_app in Hc. cbn [length].
  assert (Z.of_nat (length l + length r) / 2 <= Z.of_nat (S (length l)) / 2) by (apply Z.div_le_mono; lia). lia.
Qed.

Lemma last_times_S h k p n : h !! p = Some n ->
  last_times (S k) h (Some p) = let? l := last_times k h (pprev n) in Ret (GetBlockTime n :: l).
Proof. intros Hp. cbn [last_times deref]. by rewrite Hp. Qed.

Lemma last_times_snoc h k : forall p l', last_times (S k) h p = Ret l' -> exists l r, last_times k h p = Ret l /\ l' = l ++ r /\ (length r <= 1)%nat.
Proof.
  induction k as [| k IH]; intros p l' H.
  { exists [], l'. split; [by destruct p |]. split; [done |]. cbn in H. destruct p as [p |]; [| injection H as <-; cbn; lia].
    destruct (h !! p); [| done]. cbn in H. injection H as <-. cbn. lia. }
  destruct p as [p |]; [| exists [], []; cbn in H |- *; split; [done |]; split; [by injection H as <- | cbn; lia]].
  cbn [last_times] in H |- *. destruct (deref h (Some p)) as [n | | |]; try done. cbn [obind] in H |- *.
  destruct (last_times (S k) h (pprev n)) as [l1 | | |] eqn:E; cbn [last_times] in E; rewrite E in H; try done. cbn [obind] in H. injection H as <-.
  destruct (IH _ _ E) as (l & r & -> & -> & Hr). exists (GetBlockTime n :: l), r. done.
Qed.

(** ** The states, from the genesis block on *)

Section States.
Context `{Checker : ThresholdChecker} (h : heap).

Definition mtp (p : ptr) : Z := match GetMedianTimePast h p with Ret t => t | _ => 0 end.

(** The number of blocks among the last [k] from [p] on that satisfy the condition. *)
Fixpoint signals (k : nat) (p : option ptr) : Z :=
  match k, p with
  | S k, Some p => match h !! p with Some n => (if Condition n then 1 else 0) + signals k (pprev n) | None => 0 end
  | _, _ => 0
  end.

(** One period of the BIP 9 state machine, [p] being its last block. *)
Definition bip9_step (s : ThresholdState) (p : ptr) : ThresholdState :=
  match s with
  | THRESHOLD_DEFINED =>
    if EndTime <=? mtp p then THRESHOLD_FAILED else if BeginTime <=? mtp p then THRESHOLD_STARTED else THRESHOLD_DEFINED
  | THRESHOLD_STARTED =>
    if EndTime <=? mtp p then THRESHOLD_FAILED
    else if Threshold <=? signals (Z.to_nat Period) (Some p) then THRESHOLD_LOCKED_IN else THRESHOLD_STARTED
  | THRESHOLD_LOCKED_IN => THRESHOLD_ACTIVE
  | THRESHOLD_ACTIVE => THRESHOLD_ACTIVE
  | THRESHOLD_FAILED => THRESHOLD_FAILED
  end.

(** The state for a child of [p], [k] blocks above genesis: it changes after the last
    block of a period only. *)
Fixpoint chain_state (k : nat) (p : option ptr) : ThresholdState :=
  match k, p with
  | S k, Some p =>
    match h !! p with
    | Some n => if (nHeight n + 1) mod Period =? 0 then bip9_step (chain_state k (pprev n)) p else chain_state k (pprev n)
    | None => THRESHOLD_DEFINED
    end
  | _, _ => THRESHOLD_DEFINED
  end.

Definition bip9_state (p : option ptr) : ThresholdState :=
  if BeginTime =? ALWAYS_ACTIVE then THRESHOLD_ACTIVE else chain_state (S (steps h p)) p.

(** ** The states by period *)

(** The state after [k] periods, [p] being the last block of the last one. *)
Fixpoint bip9_after (k : nat) (p : option ptr) : ThresholdState :=
  match k, p with
  | S k, Some p => bip9_step (bip9_after k (back h (Z.to_nat Period) p)) p
  | _, _ => THRESHOLD_DEFINED
  end.

(** The last block of a period. *)
Definition boundary (p : option ptr) : Prop :=
  match p with
  | None => True
  | Some p => exists n, h !! p = Some n /\ (nHeight n + 1) mod Period = 0
  end.

Definition periods (p : option ptr) : nat :=
  match p with
  | None => 0
  | Some p => match h !! p with Some n => Z.to_nat ((nHeight n + 1) / Period) | None => 0 end
  end.

(** The state that holds for the blocks of the period after the boundary [p]. *)
Definition state_after (p : option ptr) : ThresholdState := bip9_after (periods p) p.

(** The last block of the period before the one of the child of [p]. *)
Definition last_boundary (p : option ptr) : option ptr :=
  match p with
  | None => None
  | Some p => match h !! p with Some n => back h (Z.to_nat ((nHeight n + 1) mod Period)) p | None => None end
  end.

(** Every entry of the cache is the state after a boundary. *)
Definition cache_sound (cache : ThresholdConditionCache) : Prop :=
  forall p s, cache !! p = Some s -> boundary p /\ state_after p = s.
End States.

(** The rule of [ContextualCheckBlockHeader] that a block is later than the median
    time past of its parent. *)
Definition times_increase (h : heap) : Prop :=
  forall p n q, h !! p = Some n -> pprev n = Some q -> mtp h q < GetBlockTime n.

Section StatesRun.
Context `{Checker : ThresholdChecker} (h : heap) (Hok : heap_ok h) (Hinc : times_increase h).
Context (Htimes : forall p n, h !! p = Some n -> 0 <= bi_nTime n < 2 ^ 32) (Hperiod : 0 < Period) (Hheights : forall p n, h !! p = Some n -> nHeight n < INT_MAX).

Lemma Period_nonzero : Period <> 0.
Proof. lia. Qed.

Lemma GetAncestor_back p n k : h !! p = Some n -> 0 <= k -> GetAncestor h p (nHeight n - k) = Ret (back h (Z.to_nat k) p).
Proof.
  intros Hp Hk. rewrite (GetAncestor_run h Hok p n) by done. f_equal. destruct (_ || _) eqn:E; [| f_equal; lia].
  symmetry. apply (back_none h Hok _ p n); [done |]. apply orb_true_iff in E as [E | E]; bool_to_prop; lia.
Qed.

Lemma mtp_run p n : h !! p = Some n -> GetMedianTimePast h p = Ret (mtp h p).
Proof. intros Hp. unfold mtp. by destruct (GetMedianTimePast_run h Hok Htimes p n Hp) as (t & -> & _). Qed.

Lemma mtp_prev p n q : h !! p = Some n -> pprev n = Some q -> mtp h q <= mtp h p.
Proof.
  intros Hp Hq. pose proof (Hok p n Hp) as Hn. unfold node_ok in Hn. rewrite Hq in Hn. destruct Hn as (_ & (m & Hm & _) & _).
  pose proof (mtp_run p n Hp) as Ep. pose proof (mtp_run q m Hm) as Eq. specialize (Hinc p n q Hp Hq). unfold GetMedianTimePast in Ep, Eq.
  destruct (last_times nMedianTimeSpan h (Some q)) as [w | | |] eqn:Ew; try done. cbn [obind] in Eq.
  destruct (last_times_snoc h _ _ _ Ew) as (l & r & El & -> & Hr).
  change nMedianTimeSpan with (S 10) in Ep. rewrite (last_times_S h 10 p n Hp), Hq, El in Ep. cbn [obind] in Ep. apply (median_slide l r (GetBlockTime n)); [done | lia | done | done].
Qed.

Lemma mtp_back k : forall p n q, h !! p = Some n -> back h k p = Some q -> mtp h q <= mtp h p.
Proof.
  induction k as [| k IH]; intros p n q Hp Hq; [by injection Hq as -> |]. cbn [back] in Hq. rewrite Hp in Hq.
  destruct (pprev n) as [r |] eqn:Er; [| done]. pose proof (mtp_prev p n r Hp Er). pose proof (Hok p n Hp) as Hn. unfold node_ok in Hn.
  rewrite Er in Hn. destruct Hn as (_ & (m & Hm & _) & _). specialize (IH r m q Hm Hq). lia.
Qed.

(** ** Boundaries *)

Lemma boundary_back p : boundary h (Some p) ->
  boundary h (back h (Z.to_nat Period) p) /\ periods h (Some p) = S (periods h (back h (Z.to_nat Period) p)).
Proof.
  intros (n & Hp & Hmod). pose proof (node_height _ _ _ (Hok p n Hp)) as Hn. cbn [periods]. rewrite Hp.
  pose proof (Z.div_mod (nHeight n + 1) Period Period_nonzero) as Hdm. rewrite Hmod in Hdm. set (k := (nHeight n + 1) / Period) in *.
  assert (Hk : 1 <= k) by nia. destruct (Z.eq_dec k 1) as [E1 | E1].
  - rewrite (back_none h Hok _ p n) by (done || lia). rewrite E1. by split.
  - destruct (back_some h Hok (Z.to_nat Period) p n Hp) as (q & m & -> & Hm & Eh); [nia |]. rewrite Z2Nat.id in Eh by lia.
    cbn [boundary periods]. rewrite Hm, Eh. replace (nHeight n - Period + 1) with ((k - 1) * Period) by lia. split; [| rewrite Z.div_mul by lia; lia].
    exists m. split; [done |]. rewrite Eh. replace (nHeight n - Period + 1) with ((k - 1) * Period) by lia. by apply Z.mod_mul; lia.
Qed.

Lemma last_boundary_boundary p : is_Some (h !! p) -> boundary h (last_boundary h (Some p)).
Proof.
  intros [n Hp]. cbn [last_boundary]. rewrite Hp. pose proof (node_height _ _ _ (Hok p n Hp)) as Hn.
  pose proof (Z.mod_pos_bound (nHeight n + 1) Period Hperiod) as Hr. pose proof (Z.div_mod (nHeight n + 1) Period Period_nonzero) as Hdm.
  set (r := _ mod _) in *. destruct (Z_le_gt_dec r (nHeight n)) as [Hle | Hgt]; [| by rewrite (back_none h Hok _ p n) by (done || lia)].
  destruct (back_some h Hok (Z.to_nat r) p n Hp) as (q & m & -> & Hm & Eh); [lia |]. exists m. split; [done |]. rewrite Eh, Z2Nat.id by lia.
  replace (nHeight n - r + 1) with (((nHeight n + 1) / Period) * Period) by lia. apply Z.mod_mul. lia.
Qed.

Lemma period_start_run p n : h !! p = Some n -> period_start h p Period = Ret (last_boundary h (Some p)).
Proof.
  intros Hp. unfold period_start. cbn [deref last_boundary]. rewrite Hp. cbn [obind]. pose proof (node_height _ _ _ (Hok p n Hp)). specialize (Hheights p n Hp).
  rewrite int_add_run by (unfold INT_MIN, INT_MAX in *; lia). cbn [obind]. unfold int_rem. rewrite (proj2 (Z.eqb_neq _ _)) by lia. cbn [obind].
  rewrite Z.rem_mod_nonneg by lia. apply GetAncestor_back; [done |]. by apply Z.mod_pos_bound.
Qed.

Lemma state_after_step p : boundary h (Some p) -> state_after h (Some p) = bip9_step h (state_after h (back h (Z.to_nat Period) p)) p.
Proof. intros Hb. unfold state_after. destruct (boundary_back p Hb) as [_ ->]. done. Qed.

Lemma before_start k : BeginTime <= EndTime -> forall p, (forall q, p = Some q -> is_Some (h !! q) /\ mtp h q < BeginTime) -> bip9_after h k p = THRESHOLD_DEFINED.
Proof.
  intros Hle. induction k as [| k IH]; intros [p |] Hp; try done. destruct (Hp p eq_refl) as [[n Hn] Hlt]. cbn [bip9_after]. rewrite IH.
  - cbn [bip9_step]. by rewrite (proj2 (Z.leb_gt _ _)), (proj2 (Z.leb_gt _ _)) by lia.
  - intros q Hq. pose proof (mtp_back _ _ _ _ Hn Hq). split; [| lia]. destruct (Z_le_gt_dec Period (nHeight n)).
    + destruct (back_some h Hok (Z.to_nat Period) p n Hn) as (q' & m & E & Hm & _); [lia |]. replace q with q' by congruence. by exists m.
    + rewrite (back_none h Hok _ p n) in Hq by (done || lia). done.
Qed.

(** ** The walks *)

Lemma signals_range k : forall p, 0 <= signals h k p <= Z.of_nat k.
Proof.
  induction k as [| k IH]; intros [p |]; cbn [signals]; try lia. destruct (h !! p) as [n |]; [| lia]. specialize (IH (pprev n)). destruct (Condition n); lia.
Qed.

Lemma count_condition_run k : forall p n c, h !! p = Some n -> Z.of_nat k <= nHeight n + 1 ->
  count_condition h k (Some p) c = Ret (c + signals h k (Some p)).
Proof.
  induction k as [| k IH]; intros p n c Hp Hk; cbn [count_condition signals]; [f_equal; lia |].
  cbn [deref]. rewrite Hp. cbn [obind]. pose proof (Hok p n Hp) as Hn. unfold node_ok in Hn. destruct (pprev n) as [q |].
  - destruct Hn as (_ & (m & Hm & Hh & _) & _). rewrite (IH q m) by (done || lia). f_equal. destruct (Condition n); lia.
  - assert (k = 0%nat) as -> by lia. cbn. f_equal. destruct (Condition n); lia.
Qed.

Lemma next_state_run s p : boundary h (Some p) -> next_state h s p = Ret (bip9_step h s p).
Proof.
  intros (n & Hp & Hmod). unfold next_state, bip9_step. rewrite (mtp_run p n Hp). destruct s; try done; cbn [obind]; rewrite !Z.geb_leb; [done |].
  destruct (EndTime <=? mtp h p); [done |]. rewrite (count_condition_run _ p n); [cbn [obind]; by rewrite Z.geb_leb | done |].
  pose proof (node_height _ _ _ (Hok p n Hp)). apply Z.mod_divide in Hmod as [k Hk]; [| lia]. rewrite Z2Nat.id by lia. assert (1 <= k) by nia. nia.
Qed.

(** The boundaries to compute, from the one after [known] to [target]. *)
Fixpoint linked (known : option ptr) (l : list ptr) (target : option ptr) : Prop :=
  match l with
  | [] => known = target
  | p :: l => boundary h (Some p) /\ back h (Z.to_nat Period) p = known /\ linked (Some p) l target
  end.

Lemma cache_sound_insert cache p s : cache_sound h cache -> boundary h p -> state_after h p = s -> cache_sound h (<[p := s]> cache).
Proof. intros Hc Hb Hs q s' Hq. apply lookup_insert_Some in Hq as [[<- <-] | [_ Hq]]; [by split | by apply Hc]. Qed.

Lemma walk_back_stop cache p v target :
  cache_sound h cache -> boundary h p -> state_after h p = THRESHOLD_DEFINED -> linked p v target ->
  exists cache' known v', Ret (<[p := THRESHOLD_DEFINED]> cache, p, v) = Ret (cache', known, v') /\
    cache_sound h cache' /\ linked known v' target /\ is_Some (cache' !! known).
Proof.
  intros Hc Hb Hs Hl. exists (<[p := THRESHOLD_DEFINED]> cache), p, v. rewrite lookup_insert_eq. split; [done |].
  split; [by apply cache_sound_insert | done].
Qed.

Lemma walk_back_run fuel : BeginTime <= EndTime -> forall cache p v target,
  cache_sound h cache -> boundary h p -> linked p v target -> (periods h p <= fuel)%nat ->
  exists cache' known v', walk_back h fuel cache p v = Ret (cache', known, v') /\
    cache_sound h cache' /\ linked known v' target /\ is_Some (cache' !! known).
Proof.
  intros Hle. induction fuel as [| fuel IH]; intros cache p v target Hc Hb Hl Hf; cbn [walk_back].
  all: destruct (cache !! p) as [s |] eqn:E; [by exists cache, p, v; rewrite E |].
  all: destruct p as [p |]; [| by apply walk_back_stop].
  all: pose proof Hb as (n & Hp & _); rewrite (mtp_run p n Hp); cbn [obind].
  all: destruct (_ <? _) eqn:Et; [bool_to_prop; apply walk_back_stop; [done | done | | done]; apply before_start; [done |]; intros q [= <-]; by split |].
  all: destruct (boundary_back p Hb) as [Hb' Hpp].
  { lia. }
  cbn [deref]. rewrite Hp. cbn [obind]. rewrite (GetAncestor_back p n) by (done || lia). cbn [obind]. apply IH; [done | done | by cbn | lia].
Qed.

Lemma walk_forward_run v : forall cache known target, cache_sound h cache -> linked known v target ->
  exists cache', walk_forward h cache (state_after h known) v = Ret (state_after h target, cache') /\ cache_sound h cache'.
Proof.
  induction v as [| p v IH]; intros cache known target Hc; cbn [linked walk_forward]; [intros <-; by exists cache |].
  intros (Hb & Hk & Hl). rewrite (next_state_run _ p Hb). cbn [obind]. rewrite <- Hk, <- (state_after_step p Hb).
  by apply IH; [apply cache_sound_insert |].
Qed.

Lemma periods_steps p : boundary h p -> (periods h p <= steps h p + 1)%nat.
Proof.
  destruct p as [p |]; [| cbn; lia]. intros (n & Hp & _). cbn [periods steps]. rewrite Hp. pose proof (node_height _ _ _ (Hok p n Hp)).
  assert ((nHeight n + 1) / Period <= nHeight n + 1) by (apply Z.div_le_upper_bound; nia). lia.
Qed.

Lemma last_boundary_child p n : h !! p = Some n ->
  if (nHeight n + 1) mod Period =? 0 then last_boundary h (Some p) = Some p /\ last_boundary h (pprev n) = back h (Z.to_nat Period) p
  else last_boundary h (Some p) = last_boundary h (pprev n).
Proof.
  intros Hp. cbn [last_boundary]. rewrite Hp. pose proof (Hok p n Hp) as Hn. unfold node_ok in Hn. pose proof (node_height _ _ _ (Hok p n Hp)) as Hh.
  pose proof (Z.mod_pos_bound (nHeight n) Period Hperiod) as Hr. pose proof (Z.div_mod (nHeight n) Period Period_nonzero) as Hdm.
  set (r := nHeight n mod Period) in *. set (k := nHeight n / Period) in *.
  assert (Hmod : (nHeight n + 1) mod Period = if r + 1 =? Period then 0 else r + 1).
  { destruct (r + 1 =? Period) eqn:E; bool_to_prop; symmetry; [apply (Z.mod_unique_pos _ _ (k + 1)) | apply (Z.mod_unique_pos _ _ k)]; lia. }
  assert (Hq : last_boundary h (pprev n) = back h (S (Z.to_nat r)) p).
  { cbn [back]. rewrite Hp. destruct (pprev n) as [q |]; [| done]. destruct Hn as (_ & (m & Hm & Em & _) & _). cbn [last_boundary]. rewrite Hm.
    replace (nHeight m + 1) with (nHeight n) by lia. done. }
  rewrite Hmod. destruct (r + 1 =? Period) eqn:E; bool_to_prop; cbn [Z.eqb].
  - split; [done |]. rewrite Hq. f_equal. lia.
  - rewrite (proj2 (Z.eqb_neq _ _)) by lia. rewrite Hq. f_equal. lia.
Qed.

Lemma chain_state_periods k : forall p n, h !! p = Some n -> nHeight n = Z.of_nat k -> chain_state h (S k) (Some p) = state_after h (last_boundary h (Some p)).
Proof.
  induction k as [| k IH]; intros p n Hp Hk; cbn [chain_state]; rewrite Hp; pose proof (last_boundary_child p n Hp) as Hl; pose proof (Hok p n Hp) as Hn; unfold node_ok in Hn.
  - destruct (pprev n) as [q |]; [destruct Hn as (_ & (m & _ & Em & ?) & _); lia |]. destruct (_ =? 0) eqn:E; [| by rewrite Hl]. bool_to_prop.
    destruct Hl as [-> Hl]. rewrite state_after_step by (by exists n). rewrite <- Hl. done.
  - destruct (pprev n) as [q |]; [| lia]. destruct Hn as (_ & (m & Hm & Em & _) & _). cbn [chain_state] in IH. rewrite (IH q m) by (done || lia).
    destruct (_ =? 0) eqn:E; [| by rewrite Hl]. bool_to_prop. destruct Hl as [-> Hl]. rewrite state_after_step by (by exists n). by rewrite <- Hl.
Qed.

Lemma bip9_state_periods p : (forall q, p = Some q -> is_Some (h !! q)) ->
  bip9_state h p = if BeginTime =? ALWAYS_ACTIVE then THRESHOLD_ACTIVE else state_after h (last_boundary h p).
Proof.
  intros Hp. unfold bip9_state. destruct (_ =? _); [done |]. destruct p as [p |]; [| done]. destruct (Hp p eq_refl) as [n Hn]. cbn [steps]. rewrite Hn.
  apply (chain_state_periods _ p n Hn). pose proof (node_height _ _ _ (Hok p n Hn)). lia.
Qed.

Lemma GetStateFor_run p cache : BeginTime <= EndTime -> cache_sound h cache -> (forall q, p = Some q -> is_Some (h !! q)) ->
  exists cache', GetStateFor h p cache = Ret (bip9_state h p, cache') /\ cache_sound h cache'.
Proof.
  intros Hle Hc Hp. rewrite bip9_state_periods by done. unfold GetStateFor. destruct (_ =? _); [by exists cache |].
  assert (Hstart : match p with Some p => period_start h p Period | None => Ret None end = Ret (last_boundary h p) /\ boundary h (last_boundary h p)).
  { destruct p as [p |]; [| done]. destruct (Hp p eq_refl) as [n Hn]. rewrite (period_start_run p n Hn). split; [done |]. by apply last_boundary_boundary. }
  destruct Hstart as [-> Hb]. cbn [obind]. pose proof (periods_steps _ Hb).
  destruct (walk_back_run (steps h (last_boundary h p) + 1) Hle cache (last_boundary h p) [] (last_boundary h p)) as (c & known & v & -> & Hc' & Hl & [s Hs]); try done.
  cbn [obind]. rewrite Hs. destruct (Hc' _ _ Hs) as [_ <-]. by apply walk_forward_run.
Qed.
(** ** Along a branch *)

Lemma bip9_state_child p n : h !! p = Some n ->
  bip9_state h (Some p) = if (nHeight n + 1) mod Period =? 0 then bip9_step h (bip9_state h (pprev n)) p else bip9_state h (pprev n).
Proof.
  intros Hp. pose proof (Hok p n Hp) as Hn. unfold node_ok in Hn. unfold bip9_state. destruct (BeginTime =? ALWAYS_ACTIVE); [by destruct (_ =? 0) |].
  cbn [steps]. rewrite Hp. replace (chain_state h (S (steps h (pprev n))) (pprev n)) with (chain_state h (Z.to_nat (nHeight n)) (pprev n));
    [cbn [chain_state]; by rewrite Hp |].
  destruct (pprev n) as [q |]; [| by destruct (Z.to_nat _)]. destruct Hn as (_ & (m & Hm & Em & ?) & _). cbn [steps]. rewrite Hm. f_equal. lia.
Qed.

(** The states are passed in this order. *)
Definition rank (s : ThresholdState) : Z :=
  match s with THRESHOLD_DEFINED => 0 | THRESHOLD_STARTED => 1 | THRESHOLD_LOCKED_IN => 2 | THRESHOLD_ACTIVE => 3 | THRESHOLD_FAILED => 4 end.

Lemma rank_inj s s' : rank s = rank s' -> s = s'.
Proof. by destruct s, s'. Qed.

Lemma bip9_step_rank s p : rank s <= rank (bip9_step h s p).
Proof. destruct s; cbn; try lia; repeat destruct (_ <=? _); cbn; lia. Qed.

Lemma rank_back k : forall p q, is_Some (h !! p) -> back h k p = Some q -> rank (bip9_state h (Some q)) <= rank (bip9_state h (Some p)).
Proof.
  induction k as [| k IH]; intros p q [n Hp] Hq; [injection Hq as ->; lia |]. cbn [back] in Hq. rewrite Hp in Hq. rewrite (bip9_state_child p n Hp).
  pose proof (Hok p n Hp) as Hn. unfold node_ok in Hn. destruct (pprev n) as [r |]; [| done]. destruct Hn as (_ & (m & Hm & _) & _).
  specialize (IH r q (ex_intro _ m Hm) Hq). pose proof (bip9_step_rank (bip9_state h (Some r)) p). destruct (_ =? 0); lia.
Qed.

Lemma boundary_state p n : h !! p = Some n -> boundary h (Some p) -> BeginTime <> ALWAYS_ACTIVE ->
  bip9_state h (Some p) = state_after h (Some p) /\ bip9_state h (pprev n) = state_after h (back h (Z.to_nat Period) p).
Proof.
  intros Hp (n' & Hp' & Hmod) Hb. replace n' with n in * by congruence. pose proof (last_boundary_child p n Hp) as Hl. rewrite Hmod in Hl. cbn in Hl. destruct Hl as [Hl Hq].
  pose proof (Hok p n Hp) as Hn. unfold node_ok in Hn.
  rewrite !bip9_state_periods, (proj2 (Z.eqb_neq _ _)) by (done || (intros q E; destruct (pprev n); [destruct Hn as (_ & (m & ? & _) & _); exists m; congruence | done])
    || (intros q [= <-]; by exists n)).
  rewrite Hq. cbn [last_boundary] in Hl |- *. by rewrite Hl.
Qed.

(** After a period that reaches the threshold the deployment is locked in for a
    period and active from then on. *)
Lemma locked_in_active p k : bip9_state h (Some p) = THRESHOLD_LOCKED_IN -> boundary h (Some p) -> forall q, is_Some (h !! q) -> back h k q = Some p ->
  bip9_state h (Some q) = if Z.of_nat k <? Period then THRESHOLD_LOCKED_IN else THRESHOLD_ACTIVE.
Proof.
  intros Hs (np & Hp & Hmod). induction k as [| k IH]; intros q [n Hq] Hb.
  { injection Hb as ->. by rewrite (proj2 (Z.ltb_lt _ _)) by lia. }
  assert (Hh : nHeight n = nHeight np + Z.of_nat (S k)).
  { destruct (Z_le_gt_dec (Z.of_nat (S k)) (nHeight n)); [| by rewrite (back_none h Hok _ q n) in Hb by (done || lia)].
    destruct (back_some h Hok (S k) q n Hq) as (p' & m & E & Hm & Eh); [done |]. assert (p' = p) as -> by congruence. assert (m = np) as -> by congruence. lia. }
  cbn [back] in Hb. rewrite Hq in Hb. rewrite (bip9_state_child q n Hq). pose proof (Hok q n Hq) as Hn. unfold node_ok in Hn.
  destruct (pprev n) as [r |]; [| done]. destruct Hn as (_ & (m & Hm & _) & _). rewrite (IH r (ex_intro _ m Hm) Hb).
  apply Z.mod_divide in Hmod as [c Hc]; [| lia].
  assert (Hr : (nHeight n + 1) mod Period = Z.of_nat (S k) mod Period).
  { rewrite Hh. replace (nHeight np + Z.of_nat (S k) + 1) with (Z.of_nat (S k) + c * Period) by lia. apply Z.mod_add. lia. }
  rewrite Hr. destruct (Z.lt_trichotomy (Z.of_nat (S k)) Period) as [Hlt | [Heq | Hgt]].
  - rewrite Z.mod_small, (proj2 (Z.eqb_neq _ _)), !(proj2 (Z.ltb_lt _ _)) by lia. done.
  - rewrite Heq, Z.mod_same, (proj2 (Z.ltb_lt _ _)), Z.ltb_irrefl by lia. done.
  - rewrite !(proj2 (Z.ltb_ge _ _)) by lia. by destruct (_ =? 0).
Qed.
(** ** The first period of a state *)

Lemma back_boundary_some p q : boundary h (Some p) -> back h (Z.to_nat Period) p = Some q -> is_Some (h !! q) /\ last_boundary h (Some q) = Some q.
Proof.
  intros Hb Hq. destruct (boundary_back p Hb) as [Hb' _]. rewrite Hq in Hb'. destruct Hb' as (m & Hm & Hmod). split; [by exists m |].
  cbn [last_boundary]. rewrite Hm, Hmod. done.
Qed.

Lemma since_loop_run fuel : BeginTime <= EndTime -> BeginTime <> ALWAYS_ACTIVE -> forall s p cache,
  cache_sound h cache -> s <> THRESHOLD_DEFINED -> boundary h (Some p) -> state_after h (Some p) = s -> (periods h (Some p) <= S fuel)%nat ->
  exists b k cache', since_loop h fuel s p (back h (Z.to_nat Period) p) cache = Ret (b, cache') /\ cache_sound h cache' /\
    boundary h (Some b) /\ back h k p = Some b /\ state_after h (Some b) = s /\ state_after h (back h (Z.to_nat Period) b) <> s.
Proof.
  intros Hle Ha. induction fuel as [| fuel IH]; intros s p cache Hc Hs Hb Hst Hf; destruct (boundary_back p Hb) as [Hb' Hpp]; cbn [since_loop].
  all: destruct (back h (Z.to_nat Period) p) as [q |] eqn:Eq; [| exists p, 0%nat, cache; rewrite Eq; by repeat (split; [done |])].
  all: destruct (back_boundary_some p q Hb Eq) as [Hq Hl]; destruct Hq as [m Hm].
  all: destruct (GetStateFor_run (Some q) cache Hle Hc) as (c1 & -> & Hc1); [intros ? [= <-]; by exists m |]; cbn [obind fst snd].
  all: destruct (boundary_state q m Hm Hb' Ha) as [Hbs _]; rewrite Hbs.
  all: case_bool_decide as Ed; [| exists p, 0%nat, c1; rewrite Eq; by repeat (split; [done |])].
  - destruct (boundary_back q Hb') as [_ Hpq]. lia.
  - cbn [deref]. rewrite Hm. cbn [obind]. rewrite (GetAncestor_back q m) by (done || lia). cbn [obind].
    destruct (IH s q c1 Hc1 Hs Hb' Ed) as (b & k & c2 & E & Hc2 & H1 & H2 & H3 & H4); [lia |].
    exists b, (Z.to_nat Period + k)%nat, c2. rewrite back_add, Eq. by repeat (split; [done |]).
Qed.

(** [b] is the first boundary whose state is the state after [p]. *)
Lemma first_boundary p n b nb j : h !! p = Some n -> h !! b = Some nb -> boundary h (Some b) -> back h j p = Some b -> BeginTime <> ALWAYS_ACTIVE ->
  state_after h (Some b) = bip9_state h (Some p) -> state_after h (back h (Z.to_nat Period) b) <> bip9_state h (Some p) ->
  forall i q m, h !! q = Some m -> back h i p = Some q -> (bip9_state h (Some q) = bip9_state h (Some p) <-> nHeight nb <= nHeight m).
Proof.
  intros Hp Hb Hbb Hj Ha Hs Hne i q m Hq Hi.
  assert (Hheight : forall k r mr, h !! r = Some mr -> back h k p = Some r -> nHeight mr = nHeight n - Z.of_nat k).
  { intros k r mr Hr Hk. destruct (Z_le_gt_dec (Z.of_nat k) (nHeight n)); [| by rewrite (back_none h Hok _ p n) in Hk by (done || lia)].
    destruct (back_some h Hok k p n Hp) as (r' & mr' & E & Hm & Eh); [done |]. assert (r' = r) as -> by congruence. assert (mr' = mr) as -> by congruence. lia. }
  pose proof (Hheight _ _ _ Hq Hi) as Hhq. pose proof (Hheight _ _ _ Hb Hj) as Hhb. destruct (boundary_state b nb Hb Hbb Ha) as [Eb Eprev].
  pose proof (rank_back _ _ _ (ex_intro _ n Hp) Hi) as Hrank. destruct (le_lt_dec i j) as [Hij | Hij].
  - split; [intros _; lia | intros _]. replace j with (i + (j - i))%nat in Hj by lia. rewrite back_add, Hi in Hj.
    pose proof (rank_back _ _ _ (ex_intro _ m Hq) Hj) as Hr. rewrite Eb, Hs in Hr. apply rank_inj. lia.
  - split; [intros E | lia]. replace i with (j + S (i - j - 1))%nat in Hi by lia. rewrite back_add, Hj in Hi. cbn [back] in Hi. rewrite Hb in Hi.
    pose proof (Hok b nb Hb) as Hn. unfold node_ok in Hn. pose proof (bip9_state_child b nb Hb) as Hch.
    destruct (pprev nb) as [r |]; [| done]. destruct Hn as (_ & (mr & Hmr & _) & _).
    pose proof (rank_back _ _ _ (ex_intro _ mr Hmr) Hi) as Hr. rewrite E in Hr. destruct Hne. rewrite <- Eprev. apply rank_inj.
    rewrite <- Hs, <- Eb in Hr |- *. rewrite Hch in Hr |- *. pose proof (bip9_step_rank (bip9_state h (Some r)) b). destruct (_ =? 0); lia.
Qed.
End StatesRun.

Section Since.
Context `{Checker : ThresholdChecker} (h : heap) (Hok : heap_ok h) (Hinc : times_increase h).
Context (Htimes : forall p n, h !! p = Some n -> 0 <= bi_nTime n < 2 ^ 32) (Hperiod : 0 < Period) (Hheights : forall p n, h !! p = Some n -> nHeight n < INT_MAX).

Lemma no_boundary_defined p n : h !! p = Some n -> last_boundary h (Some p) = None -> BeginTime <> ALWAYS_ACTIVE -> bip9_state h (Some p) = THRESHOLD_DEFINED.
Proof.
  intros Hp Hl Ha. rewrite bip9_state_periods by (done || (intros q [= <-]; by exists n)). rewrite (proj2 (Z.eqb_neq _ _)) by done. by rewrite Hl.
Qed.

Lemma GetStateSinceHeightFor_run p n cache : BeginTime <= EndTime -> cache_sound h cache -> h !! p = Some n ->
  exists height cache', GetStateSinceHeightFor h (Some p) cache = Ret (height, cache') /\ cache_sound h cache' /\
    forall k q m, h !! q = Some m -> back h k p = Some q -> (bip9_state h (Some q) = bip9_state h (Some p) <-> height <= nHeight m + 1).
Proof.
  intros Hle Hc Hp. unfold GetStateSinceHeightFor. assert (Hvalid : forall q, Some p = Some q -> is_Some (h !! q)) by (intros q [= <-]; by exists n).
  destruct (BeginTime =? ALWAYS_ACTIVE) eqn:Ea.
  { exists 0, cache. split; [done |]. split; [done |]. intros k q m Hq _. pose proof (node_height _ _ _ (Hok q m Hq)). unfold bip9_state. rewrite Ea. split; [lia | done]. }
  bool_to_prop. destruct (GetStateFor_run h Hok Hinc Htimes Hperiod Hheights (Some p) cache Hle Hc Hvalid) as (c1 & -> & Hc1). cbn [obind fst snd]. case_bool_decide as Ed.
  { exists 0, c1. split; [done |]. split; [done |]. intros k q m Hq Hk. pose proof (node_height _ _ _ (Hok q m Hq)). split; [lia | intros _].
    pose proof (rank_back h Hok _ _ _ (ex_intro _ n Hp) Hk) as Hr. rewrite Ed in Hr |- *. by destruct (bip9_state h (Some q)). }
  rewrite (period_start_run h Hok Hperiod Hheights p n Hp). cbn [obind]. pose proof (last_boundary_boundary h Hok Hperiod p (ex_intro _ n Hp)) as Hbound.
  destruct (last_boundary h (Some p)) as [b0 |] eqn:El; [| destruct Ed; by apply (no_boundary_defined p n)]. pose proof Hbound as (n0 & Hn0 & _).
  cbn [deref]. rewrite Hn0. cbn [obind]. rewrite (GetAncestor_back h Hok b0 n0) by (done || lia). cbn [obind].
  assert (Hst : state_after h (Some b0) = bip9_state h (Some p)) by (rewrite (bip9_state_periods h Hok Hperiod (Some p) Hvalid), El; by rewrite (proj2 (Z.eqb_neq _ _))).
  pose proof (periods_steps h Hok Hperiod (Some b0) Hbound).
  destruct (since_loop_run h Hok Hinc Htimes Hperiod Hheights (steps h (Some b0)) Hle Ea (bip9_state h (Some p)) b0 c1) as (b & k & c2 & -> & Hc2 & Hb & Hk & Hs & Hne);
    [done | done | done | done | lia |]. cbn [obind fst snd]. pose proof Hb as (nb & Hnb & _). rewrite Hnb. cbn [obind].
  pose proof (node_height _ _ _ (Hok b nb Hnb)). specialize (Hheights b nb Hnb). rewrite int_add_run by (unfold INT_MIN, INT_MAX in *; lia). cbn [obind].
  exists (nHeight nb + 1), c2. split; [done |]. split; [done |]. intros i q m Hq Hi.
  assert (Hj : exists j, back h j p = Some b).
  { cbn [last_boundary] in El. rewrite Hp in El. exists (Z.to_nat ((nHeight n + 1) mod Period) + k)%nat. by rewrite back_add, El. }
  destruct Hj as [j Hj]. rewrite (first_boundary h Hok Hperiod p n b nb j Hp Hnb Hb Hj Ea Hs Hne i q m Hq Hi). lia.
Qed.
End Since.

(** ** Theorems *)

(** The block index a node has built from headers that passed the contextual checks. *)
Record headers_ok (h : heap) : Prop := {
  headers_links : heap_ok h;
  headers_increase : times_increase h;
  headers_times : forall p n, h !! p = Some n -> 0 <= bi_nTime n < 2 ^ 32;
  headers_heights : forall p n, h !! p = Some n -> nHeight n < INT_MAX
}.

Record checker_ok (Checker : ThresholdChecker) : Prop := {
  checker_period : 0 < Period;
  checker_times : BeginTime <= EndTime
}.

Lemma sample_heap_headers : headers_ok sample_heap.
Proof.
  split; [exact sample_heap_ok | | |].
  - intros p n q Hp. revert p n Hp q. refine (sample_heap_cases (fun p n => forall q, pprev n = Some q -> mtp sample_heap q < GetBlockTime n) _).
    intros p Hp. destruct p as [| [| [| [| [| p]]]]]; [.. | lia]; (eexists; split; [reflexivity |]; first [done | intros q [= <-]; vm_compute; reflexivity]).
  - refine (sample_heap_cases (fun _ m => 0 <= bi_nTime m < 2 ^ 32) _). intros p Hp.
    destruct p as [| [| [| [| [| p]]]]]; [.. | lia]; (eexists; split; [reflexivity | cbn; lia]).
  - refine (sample_heap_cases (fun _ m => nHeight m < INT_MAX) _). intros p Hp.
    destruct p as [| [| [| [| [| p]]]]]; [.. | lia]; (eexists; split; reflexivity).
Qed.

(** A deployment that counts single blocks. *)
Definition sample_checker : ThresholdChecker := {|
  Condition := VersionBitsCondition (Deployment 25 1400000000 1600000000);
  BeginTime := 1400000000;
  EndTime := 1600000000;
  Period := 1;
  Threshold := 1
|}.

Lemma sample_checker_ok : checker_ok sample_checker.
Proof. split; cbn; lia. Qed.

(** C18. [GetStateFor], with any cache whose entries are right, ends with the state of the
    BIP 9 state machine run block by block from genesis, and with a cache whose entries
    are right. In particular stopping the walk at a boundary before the start time is
    sound, because the median time past never decreases along a branch. *)
Theorem GetStateFor_bip9 (Checker : ThresholdChecker) (h : heap) p cache :
  headers_ok h -> checker_ok Checker -> cache_sound h cache -> (forall q, p = Some q -> is_Some (h !! q)) ->
  exists cache', GetStateFor h p cache = Ret (bip9_state h p, cache') /\ cache_sound h cache'.
Proof. intros [Hl Hi Ht Hh] [Hp Hle] Hc Hv. by apply GetStateFor_run. Qed.

Lemma GetStateFor_bip9_witness :
  exists cache', GetStateFor (Checker := sample_checker) sample_heap (Some 2%nat) ∅ = Ret (THRESHOLD_ACTIVE, cache') /\
    cache_sound (Checker := sample_checker) sample_heap cache'.
Proof.
  refine (GetStateFor_bip9 sample_checker sample_heap (Some 2%nat) ∅ sample_heap_headers sample_checker_ok _ _).
  - intros p s Hs. rewrite lookup_empty in Hs. discriminate.
  - intros q [= <-]. eexists. reflexivity.
Defined.

(** A deployment that is started after the boundary [b], and whose next period, ending in
    [p] before the timeout, has as many signalling blocks as the threshold, is locked in
    for the blocks of the following period and active for every later descendant. *)
Theorem deployment_activates (Checker : ThresholdChecker) (h : heap) b p k q cache :
  headers_ok h -> checker_ok Checker -> cache_sound h cache ->
  boundary h (Some p) -> back h (Z.to_nat Period) p = Some b -> bip9_state h (Some b) = THRESHOLD_STARTED ->
  mtp h p < EndTime -> Threshold <= signals h (Z.to_nat Period) (Some p) ->
  is_Some (h !! q) -> back h k q = Some p ->
  exists cache', GetStateFor h (Some q) cache = Ret (if Z.of_nat k <? Period then THRESHOLD_LOCKED_IN else THRESHOLD_ACTIVE, cache') /\
    cache_sound h cache'.
Proof.
  intros [Hl Hi Ht Hh] [Hper Hle] Hc Hb Hbp Hs Hend Hthr Hq Hk.
  assert (Ha : BeginTime <> ALWAYS_ACTIVE) by (intros E; unfold bip9_state in Hs; by rewrite (proj2 (Z.eqb_eq _ _) E) in Hs).
  assert (Hp : bip9_state h (Some p) = THRESHOLD_LOCKED_IN).
  { pose proof Hb as (n & Hn & _). destruct (boundary_state h Hl Hper p n Hn Hb Ha) as [-> _]. rewrite (state_after_step h Hl Hper p Hb), Hbp.
    destruct (boundary_back h Hl Hper p Hb) as [Hbb _]. rewrite Hbp in Hbb. pose proof Hbb as (m & Hm & _).
    destruct (boundary_state h Hl Hper b m Hm Hbb Ha) as [<- _]. rewrite Hs. cbn [bip9_step]. by rewrite (proj2 (Z.leb_gt _ _)), (proj2 (Z.leb_le _ _)) by lia. }
  rewrite <- (locked_in_active h Hl Hper p k Hp Hb q Hq Hk). apply GetStateFor_run; try done. by intros ? [= <-].
Qed.

Lemma deployment_activates_witness :
  exists cache', GetStateFor (Checker := sample_checker) sample_heap (Some 3%nat) ∅ = Ret (THRESHOLD_ACTIVE, cache') /\
    cache_sound (Checker := sample_checker) sample_heap cache'.
Proof.
  apply (deployment_activates sample_checker sample_heap 0%nat 1%nat 2 3%nat ∅ sample_heap_headers sample_checker_ok).
  - intros p s Hs. rewrite lookup_empty in Hs. discriminate.
  - eexists. split; reflexivity.
  - reflexivity.
  - vm_compute. reflexivity.
  - vm_compute. reflexivity.
  - vm_compute. discriminate.
  - eexists. reflexivity.
  - reflexivity.
Defined.

(** [GetStateSinceHeightFor] returns the height of the first block of the current state:
    an ancestor of [p], or [p] itself, has a child in that state exactly when that child
    is at the returned height or above it. *)
Theorem GetStateSinceHeightFor_spec (Checker : ThresholdChecker) (h : heap) p n cache :
  headers_ok h -> checker_ok Checker -> cache_sound h cache -> h !! p = Some n ->
  exists height cache', GetStateSinceHeightFor h (Some p) cache = Ret (height, cache') /\ cache_sound h cache' /\
    forall k q m, h !! q = Some m -> back h k p = Some q -> (bip9_state h (Some q) = bip9_state h (Some p) <-> height <= nHeight m + 1).
Proof. intros [Hl Hi Ht Hh] [Hp Hle] Hc Hv. by eapply GetStateSinceHeightFor_run. Qed.

Lemma GetStateSinceHeightFor_spec_witness :
  exists height cache', GetStateSinceHeightFor (Checker := sample_checker) sample_heap (Some 3%nat) ∅ = Ret (height, cache') /\ height = 3 /\
    cache_sound (Checker := sample_checker) sample_heap cache'.
Proof.
  destruct (GetStateSinceHeightFor_spec sample_checker sample_heap 3%nat (sample_entry (Some 2%nat) (Some 1%nat) 3) ∅ sample_heap_headers sample_checker_ok)
    as (height & cache' & E & Hc & _).
  - intros p s Hs. rewrite lookup_empty in Hs. discriminate.
  - reflexivity.
  - exists height, cache'. split; [exact E |]. split; [| exact Hc].
    vm_compute in E. injection E. intros _ E'. symmetry. exact E'.
Defined.
