(* ===== verification/AcceptHeader.v ===== *)
(** * Accepting block headers

    The header part of [src/validation.cpp]: the checks of a header alone and in the
    context of its parent, and the functions that enter accepted headers into the
    block index; [src/checkpoints.cpp]. *)

From Stdlib Require Import String Ascii.
From stdpp Require Import gmap.
From S2P Require Import Prelude Common Serialize Script Transaction Block ArithUint256 Chain Pow TxVerify.

Open Scope Z_scope.
Open Scope outcome_scope.

(** The consensus parameters that these functions read and never change, the option
    [-checkpoints] and the network-adjusted time. *)
Class HeaderRules := {
  hashGenesisBlock : list Z;
  BIP34Height : Z;
  BIP65Height : Z;
  BIP66Height : Z;
  mapCheckpoints : list (Z * list Z);
  fCheckpointsEnabled : bool;
  GetAdjustedTime : Z
}.

(** The parts of [CChainState] and the globals that the functions change: the block
    index, the consensus parameters and [g_failed_blocks], which is visited in the order
    of its pointers. *)
Record ChainState := MkChainState {
  cs_index : BlockManager;
  cs_params : ConsensusParams;
  g_failed_blocks : gset nat
}.

Definition set_params (cs : ChainState) (p : ConsensusParams) : ChainState := MkChainState (cs_index cs) p (g_failed_blocks cs).

Definition set_index (cs : ChainState) (m : BlockManager) : ChainState := MkChainState m (cs_params cs) (g_failed_blocks cs).

Definition MAX_FUTURE_BLOCK_TIME : Z := 2 * 60 * 60.

Definition BLOCK_VALID_SCRIPTS : Z := 5.

Definition BLOCK_FAILED_VALID : Z := 32.

Definition BLOCK_FAILED_CHILD : Z := 64.

(** [strprintf("bad-version(0x%08x)", nVersion)] *)
Definition hex_digit (d : Z) : ascii := ascii_of_nat (Z.to_nat (if d <? 10 then 48 + d else 87 + d)).

Fixpoint hex_digits (k : nat) (n : Z) (acc : string) : string :=
  match k with
  | O => acc
  | S k => hex_digits k (Z.shiftr n 4) (String (hex_digit (Z.land n 15)) acc)
  end.

Definition bad_version (nVersion : Z) : string := ("bad-version(0x" ++ hex_digits 8 (uint32 nVersion) ")")%string.

(** The first of the checkpoints that the index knows. *)
Fixpoint known_checkpoint (checkpoints : list (Z * list Z)) (mapBlockIndex : gmap (list Z) nat) : option nat :=
  match checkpoints with
  | [] => None
  | (_, hash) :: checkpoints => match mapBlockIndex !! hash with Some p => Some p | None => known_checkpoint checkpoints mapBlockIndex end
  end.

(** The map, in the order of the heights, is visited from its end. *)
Definition GetLastCheckpoint (checkpoints : list (Z * list Z)) (mapBlockIndex : gmap (list Z) nat) : option nat :=
  known_checkpoint (reverse checkpoints) mapBlockIndex.

Section Headers.
Context `{Rules : HeaderRules}.

Definition CheckBlockHeader (cs : ChainState) (block : CBlockHeader) (state : CValidationState) (fCheckPOW : bool) :
    outcome (bool * CValidationState * ChainState) :=
  if fCheckPOW then
    if negb (hdr_IsProofOfStake block) then
      let? ok := CheckProofOfWork (blocks (cs_index cs)) (mapBlockIndex (cs_index cs)) (block_GetHash block) (hdr_hashPrevBlock block)
                   (hdr_nBits block) (cs_params cs) (-1) in
      if negb ok then Ret (false, DoS state 50 REJECT_INVALID "high-hash" false, cs) else Ret (true, state, cs)
    else
      match mapBlockIndex (cs_index cs) !! hdr_hashPrevBlock block with
      | None => Ret (false, DoS state 50 REJECT_INVALID "high-hash" false, cs)
      | Some pblockPrev =>
        let? r := GetNextWorkRequired (blocks (cs_index cs)) (mapBlockIndex (cs_index cs)) (Some pblockPrev) block (cs_params cs) in
        let cs := set_params cs r.2 in
        if negb (r.1 =? hdr_nBits block) then Ret (false, DoS state 50 REJECT_INVALID "high-hash" false, cs) else Ret (true, state, cs)
      end
  else Ret (true, state, cs).

Definition ContextualCheckBlockHeader (cs : ChainState) (block : CBlockHeader) (state : CValidationState) (pindexPrev : option nat) (nAdjustedTime : Z) :
    outcome (bool * CValidationState * ChainState) :=
  match pindexPrev with
  | None => Abort
  | Some p =>
    let h := blocks (cs_index cs) in
    let? prev := deref h (Some p) in
    let? height := int_add (nHeight prev) 1 in
    let? r := GetNextWorkRequired h (mapBlockIndex (cs_index cs)) (Some p) block (cs_params cs) in
    let cs := set_params cs r.2 in
    if negb (hdr_nBits block =? r.1) then Ret (false, DoS state 100 REJECT_INVALID "bad-diffbits" false, cs)
    else
      let? forked := if fCheckpointsEnabled then
                       match GetLastCheckpoint mapCheckpoints (mapBlockIndex (cs_index cs)) with
                       | Some c => let? pcheckpoint := deref h (Some c) in Ret (height <? nHeight pcheckpoint)
                       | None => Ret false
                       end
                     else Ret false in
      if forked : bool then Ret (false, DoS state 100 REJECT_CHECKPOINT "bad-fork-prior-to-checkpoint" false, cs)
      else
        let? mtp := GetMedianTimePast h p in
        if hdr_GetBlockTime block <=? mtp then Ret (false, Invalid state REJECT_INVALID "time-too-old", cs)
        else if hdr_GetBlockTime block >? nAdjustedTime + MAX_FUTURE_BLOCK_TIME then Ret (false, Invalid state REJECT_INVALID "time-too-new", cs)
        else if ((hdr_nVersion block <? 2) && (height >=? BIP34Height)) || ((hdr_nVersion block <? 3) && (height >=? BIP66Height)) ||
                ((hdr_nVersion block <? 4) && (height >=? BIP65Height)) then
          Ret (false, Invalid state REJECT_OBSOLETE (bad_version (hdr_nVersion block)), cs)
        else Ret (true, state, cs)
  end.

(** The entries from [invalid_walk] down to the child of [failedit] are marked. *)
Fixpoint mark_failed_child (fuel : nat) (m : BlockManager) (invalid_walk : option nat) (failedit : nat) : outcome BlockManager :=
  if bool_decide (invalid_walk = Some failedit) then Ret m
  else
    match invalid_walk, fuel with
    | Some p, S fuel =>
      let? n := deref (blocks m) (Some p) in
      let n := set_nStatus n (Z.lor (nStatus n) BLOCK_FAILED_CHILD) in
      let m := Manager (<[p := n]> (blocks m)) (mapBlockIndex m) (pindexBestHeader m) ({[p]} ∪ setDirtyBlockIndex m) in
      mark_failed_child fuel m (pprev n) failedit
    | _, _ => Undef
    end.

(** The search for a failed ancestor of [pindexPrev]: the index with the marks, if there
    is one. *)
Fixpoint find_failed (m : BlockManager) (pindexPrev : nat) (failed : list nat) : outcome (option BlockManager) :=
  match failed with
  | [] => Ret None
  | failedit :: failed =>
    let? f := deref (blocks m) (Some failedit) in
    let? a := GetAncestor (blocks m) pindexPrev (nHeight f) in
    if bool_decide (a = Some failedit) then
      let? _ := cassert (flag (nStatus f) BLOCK_FAILED_VALID) in
      let? m := mark_failed_child (steps (blocks m) (Some pindexPrev)) m (Some pindexPrev) failedit in
      Ret (Some m)
    else find_failed m pindexPrev failed
  end.

(** The result, the validation state, [*ppindex] and the chain state. The debugging walk
    [CheckBlockIndex] changes nothing and is left out. *)
Definition AcceptBlockHeader (cs : ChainState) (block : CBlockHeader) (state : CValidationState) :
    outcome (bool * CValidationState * option nat * ChainState) :=
  let hash := block_GetHash block in
  let add (cs : ChainState) (state : CValidationState) :=
    let? r := AddToBlockIndex (cs_index cs) block in Ret (true, state, Some r.2, set_index cs r.1) in
  if bool_decide (hash = hashGenesisBlock) then add cs state
  else
    match mapBlockIndex (cs_index cs) !! hash with
    | Some pindex =>
      let? n := deref (blocks (cs_index cs)) (Some pindex) in
      if flag (nStatus n) BLOCK_FAILED_MASK then Ret (false, Invalid state 0 "duplicate", Some pindex, cs)
      else Ret (true, state, Some pindex, cs)
    | None =>
      let? r := CheckBlockHeader cs block state true in
      let '(ok, state, cs) := r in
      if negb ok then Ret (false, state, None, cs)
      else
        match mapBlockIndex (cs_index cs) !! hdr_hashPrevBlock block with
        | None => Ret (false, DoS state 10 0 "prev-blk-not-found" false, None, cs)
        | Some pindexPrev =>
          let? prev := deref (blocks (cs_index cs)) (Some pindexPrev) in
          if flag (nStatus prev) BLOCK_FAILED_MASK then Ret (false, DoS state 100 REJECT_INVALID "bad-prevblk" false, None, cs)
          else
            let? r := ContextualCheckBlockHeader cs block state (Some pindexPrev) GetAdjustedTime in
            let '(ok, state, cs) := r in
            if negb ok then Ret (false, state, None, cs)
            else
              let? valid := IsValid prev BLOCK_VALID_SCRIPTS in
              if negb valid then
                let? failed := find_failed (cs_index cs) pindexPrev (elements (g_failed_blocks cs)) in
                match failed with
                | Some m => Ret (false, DoS state 100 REJECT_INVALID "bad-prevblk" false, None, set_index cs m)
                | None => add cs state
                end
              else add cs state
        end
    end.

(** The result, the validation state, [*ppindex], the first invalid header and the chain
    state. *)
Fixpoint ProcessNewBlockHeaders (cs : ChainState) (headers : list CBlockHeader) (state : CValidationState) (ppindex : option nat) :
    outcome (bool * CValidationState * option nat * option CBlockHeader * ChainState) :=
  match headers with
  | [] => Ret (true, state, ppindex, None, cs)
  | header :: headers =>
    let? r := AcceptBlockHeader cs header state in
    let '(ok, state, pindex, cs) := r in
    if negb ok then Ret (false, state, ppindex, Some header, cs) else ProcessNewBlockHeaders cs headers state pindex
  end.

(** [TryAcceptBlockHeader] looks at no failed blocks. *)
Definition TryAcceptBlockHeader (cs : ChainState) (block : CBlockHeader) (state : CValidationState) :
    outcome (bool * CValidationState * ChainState) :=
  let hash := block_GetHash block in
  let add (cs : ChainState) (state : CValidationState) :=
    let? r := AddToBlockIndex (cs_index cs) block in Ret (true, state, set_index cs r.1) in
  if bool_decide (hash = hashGenesisBlock) then add cs state
  else
    match mapBlockIndex (cs_index cs) !! hash with
    | Some pindex =>
      let? n := deref (blocks (cs_index cs)) (Some pindex) in
      if flag (nStatus n) BLOCK_FAILED_MASK then Ret (false, Invalid state 0 "duplicate", cs) else Ret (true, state, cs)
    | None =>
      let? r := CheckBlockHeader cs block state true in
      let '(ok, state, cs) := r in
      if negb ok then Ret (false, state, cs)
      else
        match mapBlockIndex (cs_index cs) !! hdr_hashPrevBlock block with
        | None => Ret (false, DoS state 10 0 "prev-blk-not-found" false, cs)
        | Some pindexPrev =>
          let? prev := deref (blocks (cs_index cs)) (Some pindexPrev) in
          if flag (nStatus prev) BLOCK_FAILED_MASK then Ret (false, DoS state 100 REJECT_INVALID "bad-prevblk" false, cs)
          else
            let? r := ContextualCheckBlockHeader cs block state (Some pindexPrev) GetAdjustedTime in
            let '(ok, state, cs) := r in
            if negb ok then Ret (false, state, cs) else add cs state
        end
    end.

(** The number of headers before the first that is not accepted. *)
Fixpoint GetRightBestHeader (cs : ChainState) (headers : list CBlockHeader) (state : CValidationState) (i : Z) :
    outcome (Z * CValidationState * ChainState) :=
  match headers with
  | [] => Ret (i, state, cs)
  | header :: headers =>
    let? r := TryAcceptBlockHeader cs header state in
    let '(ok, state, cs) := r in
    if negb ok then Ret (i, state, cs) else GetRightBestHeader cs headers state (i + 1)
  end.
End Headers.
