(* ===== verification/AcceptHeaderProps.v ===== *)
(** * The headers a node accepts

    The invariant of the chain state that [AcceptHeader] maintains: the invariant of the
    block index, block times above the median time past, parameters of a known era, and
    failed blocks that are marked. *)

From stdpp Require Import gmap sorting.
From S2P Require Import Prelude Common Serialize Hash Transaction Block ArithUint256 ArithProps Chain ChainProps BlockIndexInv Pow PowProps.
From S2P Require Import TxVerify SequenceLocks VersionBits VersionBitsProps AcceptHeader.

Open Scope Z_scope.
Open Scope outcome_scope.

(** ** Parameters *)

(** The bounds that the parameters keep through every era. *)
Record era_ok (p : ConsensusParams) : Prop := {
  era_params : params_ok p;
  era_spacing : 60 <= nPowTargetSpacing p <= 120000;
  era_timespan : nPowTargetTimespan p <= 1209600;
  era_contract : 20160 <= Pow.UBCONTRACT_Height p
}.

Lemma era_interval p : era_ok p -> interval_ok p.
Proof.
  intros [[Hs _ _ _] Hsp Ht Hc]. split; [lia |]. split; [| lia].
  apply Z.le_trans with 20160; [| lia]. apply Z.div_le_upper_bound; nia.
Qed.

Lemma era_update height p : era_ok p -> era_ok (update_params height p).
Proof.
  intros [Hp Hsp Ht Hc]. split; [apply update_params_ok; [done | lia] | | |]; unfold update_params; repeat case_match; cbn; lia.
Qed.

(** Asking for the target again, with the parameters that the first call has left behind,
    gives the same answer. *)
Lemma update_params_again height p : update_params height (update_params height p) = update_params height p.
Proof.
  unfold update_params. destruct (is_regtest_net p) eqn:Er; cbn [negb]; [by rewrite Er |].
  destruct (height >=? Pow.UBCONTRACT_Height p) eqn:E1; [cbn; by rewrite Er, E1 |]. destruct (height >=? ForkV1Height p) eqn:E2; [cbn; by rewrite Er, E1, E2 |].
  destruct (height >=? UBCHeight p + UBCInitBlockCount p) eqn:E3; cbn; by rewrite Er, E1, E2, E3.
Qed.

Lemma update_params_fixed height p : powLimit (update_params height p) = powLimit p /\ UBCHeight (update_params height p) = UBCHeight p /\
  ForkV1Height (update_params height p) = ForkV1Height p.
Proof. unfold update_params. by repeat case_match. Qed.

(** Follow a computation that returns. *)
Ltac run_through E :=
  repeat (cbn [obind] in E; lazymatch type of E with
    | (if ?c then _ else _) = _ => destruct c
    | obind ?m _ = _ => destruct m; [| discriminate E..]
    | match ?o with Some _ => _ | None => _ end = _ => destruct o
    end); try discriminate E.

Lemma GetNextWorkRequired_params h m p b params r params' : GetNextWorkRequired h m p b params = Ret (r, params') ->
  params' = params \/ exists height, (let? last := deref h p in int_add (nHeight last) 1) = Ret height /\ params' = update_params height params.
Proof.
  unfold GetNextWorkRequired. intros E. destruct (cassert _); [| discriminate E..]. cbn [obind] in E. destruct (GetCompact _ _); [| discriminate E..]. cbn [obind] in E.
  destruct (deref h p) as [last | | |]; [| discriminate E..]. cbn [obind] in *. destruct (int_add _ _) as [height | | |]; [| discriminate E..]. cbn [obind] in E.
  destruct (_ || _); [left; run_through E; by apply Ret_inj, pair_equal_spec in E as [_ ->] |]. right. exists height. split; [reflexivity |].
  set (p' := update_params height params) in *. run_through E; by apply Ret_inj, pair_equal_spec in E as [_ ->].
Qed.

Lemma GetNextWorkRequired_again h m p b params r params' : GetNextWorkRequired h m p b params = Ret (r, params') -> GetNextWorkRequired h m p b params' = Ret (r, params').
Proof.
  intros E. destruct (GetNextWorkRequired_params _ _ _ _ _ _ _ E) as [-> | (height & Eh & ->)]; [exact E |]. unfold GetNextWorkRequired in *.
  destruct (cassert _); [| discriminate E..]. cbn [obind] in *.
  destruct (update_params_fixed height params) as (F1 & F2 & F3). rewrite F1, F2, F3. destruct (GetCompact _ _); [| discriminate E..]. cbn [obind] in *.
  destruct (deref h p) as [last | | |]; [| discriminate E..]. cbn [obind] in *. rewrite Eh in *. cbn [obind] in *. rewrite update_params_again.
  destruct (_ || _); [| exact E]. unfold fork_target in *. rewrite F1. destruct (limit_target _ _); [| discriminate E..]. cbn [obind] in *.
  by apply Ret_inj, pair_equal_spec in E as [-> _].
Qed.

(** ** Changes of the status *)

Definition strip (n : CBlockIndex) : CBlockIndex := set_nStatus n 0.

(** The heaps differ in the status of their entries only. *)
Definition same_blocks (h h' : heap) : Prop := strip <$> h = strip <$> h'.

Lemma same_blocks_lookup h h' p n' : same_blocks h h' -> h' !! p = Some n' -> exists n, h !! p = Some n /\ strip n = strip n'.
Proof.
  intros Hs Hp. assert (E : (strip <$> h) !! p = Some (strip n')) by (rewrite Hs, list_lookup_fmap, Hp; done).
  rewrite list_lookup_fmap in E. destruct (h !! p) as [n |]; [| done]. apply (inj Some) in E. by exists n.
Qed.

Lemma same_blocks_sym h h' : same_blocks h h' -> same_blocks h' h.
Proof. unfold same_blocks. done. Qed.

Lemma same_blocks_length h h' : same_blocks h h' -> length h = length h'.
Proof. intros Hs. pose proof (f_equal length Hs) as E. by rewrite !length_fmap in E. Qed.

Ltac same_field E := first [exact (f_equal pprev E) | exact (f_equal pskip E) | exact (f_equal nHeight E) | exact (f_equal phashBlock E) |
  exact (f_equal bi_nTime E) | exact (f_equal nChainWork E) | exact (f_equal nTimeMax E) | exact (f_equal bi_nBits E)].

Lemma same_blocks_none h h' p : same_blocks h h' -> h !! p = None -> h' !! p = None.
Proof. intros Hs Hp. apply lookup_ge_None. rewrite <- (same_blocks_length _ _ Hs). by apply lookup_ge_None. Qed.

Lemma same_back h h' k : same_blocks h h' -> forall p, back h k p = back h' k p.
Proof.
  intros Hs. induction k as [| k IH]; intros p; [done |]. cbn [back]. destruct (h' !! p) as [n' |] eqn:Ep.
  - destruct (same_blocks_lookup _ _ _ _ Hs Ep) as (n & -> & E). assert (pprev n = pprev n') as -> by same_field E. destruct (pprev n'); [apply IH | done].
  - by rewrite (same_blocks_none h' h p (same_blocks_sym _ _ Hs) Ep).
Qed.

Lemma same_last_times h h' k : same_blocks h h' -> forall p, last_times k h p = last_times k h' p.
Proof.
  intros Hs. induction k as [| k IH]; intros [p |]; try done. cbn [last_times deref]. destruct (h' !! p) as [n' |] eqn:Ep.
  - destruct (same_blocks_lookup _ _ _ _ Hs Ep) as (n & -> & E). cbn [obind]. assert (pprev n = pprev n') as -> by same_field E.
    rewrite IH. unfold GetBlockTime. assert (bi_nTime n = bi_nTime n') as -> by same_field E. done.
  - by rewrite (same_blocks_none h' h p (same_blocks_sym _ _ Hs) Ep).
Qed.

Lemma same_mtp h h' p : same_blocks h h' -> mtp h p = mtp h' p.
Proof. intros Hs. unfold mtp, GetMedianTimePast. by rewrite (same_last_times h h' _ Hs). Qed.

Lemma same_heap_ok h h' : same_blocks h h' -> heap_ok h -> heap_ok h'.
Proof.
  intros Hs Hok p n' Hp. destruct (same_blocks_lookup _ _ _ _ Hs Hp) as (n & Hn & E). specialize (Hok p n Hn). unfold node_ok in *.
  assert (pprev n = pprev n') as Epr by same_field E. assert (nHeight n = nHeight n') as Eh by same_field E. assert (pskip n = pskip n') as Esk by same_field E.
  rewrite <- Epr, <- Eh, <- Esk. destruct (pprev n) as [q |]; [| done]. destruct Hok as (Hq & (m & Hm & Hh) & Hsk).
  destruct (same_blocks_lookup _ _ _ _ (same_blocks_sym _ _ Hs) Hm) as (m' & Hm' & Em). assert (nHeight m' = nHeight m) as Ehm by same_field Em.
  split; [done |]. split; [exists m'; rewrite Ehm; done |]. by rewrite <- (same_back h h' _ Hs).
Qed.

Lemma same_prev_field h h' n n' f d : same_blocks h h' -> strip n = strip n' -> (forall a b, strip a = strip b -> f a = f b) ->
  prev_field h n f d = prev_field h' n' f d.
Proof.
  intros Hs E Hf. unfold prev_field. assert (pprev n = pprev n') as -> by same_field E. destruct (pprev n') as [q |]; [| done].
  destruct (h' !! q) as [m' |] eqn:Eq; [| by rewrite (same_blocks_none h' h q (same_blocks_sym _ _ Hs) Eq)].
  destruct (same_blocks_lookup _ _ _ _ Hs Eq) as (m & -> & Em). by apply Hf.
Qed.

Lemma same_index_ok st st' : same_blocks (blocks st) (blocks st') -> mapBlockIndex st' = mapBlockIndex st -> pindexBestHeader st' = pindexBestHeader st ->
  index_ok st -> index_ok st'.
Proof.
  intros Hs Hmap Hbest [Hok Hdata Hio Hb]. split.
  - by apply (same_heap_ok (blocks st)).
  - intros p n' Hp. destruct (same_blocks_lookup _ _ _ _ Hs Hp) as (n & Hn & E). destruct (Hdata p n Hn) as [D1 D2 D3 D4 D5].
    assert (bi_nBits n = bi_nBits n') as Eb by same_field E. assert (nChainWork n = nChainWork n') as Ew by same_field E.
    assert (nTimeMax n = nTimeMax n') as Et by same_field E. assert (bi_nTime n = bi_nTime n') as Ei by same_field E.
    assert (phashBlock n = phashBlock n') as Eh by same_field E.
    rewrite Eb in D1, D3. rewrite Ew in D2, D3. rewrite Et, Ei in D4. rewrite Eh in D5.
    rewrite (same_prev_field _ (blocks st') n n' _ _ Hs E) in D3 by (intros a b Eab; f_equal; same_field Eab).
    rewrite (same_prev_field _ (blocks st') n n' _ _ Hs E) in D4 by (intros a b Eab; same_field Eab). by split.
  - intros hash p. rewrite Hmap, Hio. split; intros (n & Hn & Hh).
    + destruct (same_blocks_lookup _ _ _ _ (same_blocks_sym _ _ Hs) Hn) as (n' & Hn' & E). exists n'. split; [done |]. rewrite <- Hh. same_field E.
    + destruct (same_blocks_lookup _ _ _ _ Hs Hn) as (n' & Hn' & E). exists n'. split; [done |]. rewrite <- Hh. same_field E.
  - rewrite Hbest. destruct (pindexBestHeader st) as [b |].
    + destruct Hb as (nb & Hnb & Hmax). destruct (same_blocks_lookup _ _ _ _ (same_blocks_sym _ _ Hs) Hnb) as (nb' & Hnb' & E).
      exists nb'. split; [done |]. intros p n' Hp. destruct (same_blocks_lookup _ _ _ _ Hs Hp) as (n & Hn & En). specialize (Hmax p n Hn).
      assert (nChainWork nb' = nChainWork nb) as -> by same_field E. assert (nChainWork n = nChainWork n') as <- by same_field En. done.
    + rewrite Hb in Hs. apply (f_equal length) in Hs. rewrite !length_fmap in Hs. symmetry in Hs. by apply nil_length_inv in Hs.
Qed.

(** ** The invariant of the chain state *)

Record chainstate_ok `{HeaderRules} (cs : ChainState) : Prop := {
  cso_index : index_ok (cs_index cs);
  cso_increase : times_increase (blocks (cs_index cs));
  cso_times : forall p n, blocks (cs_index cs) !! p = Some n -> 0 <= bi_nTime n < 2 ^ 32;
  cso_params : era_ok (cs_params cs);
  cso_failed : forall p, p ∈ g_failed_blocks cs -> exists n, blocks (cs_index cs) !! p = Some n /\ flag (nStatus n) BLOCK_FAILED_VALID = true;
  cso_genesis : is_Some (mapBlockIndex (cs_index cs) !! hashGenesisBlock)
}.

(** A header as it is read from the network. *)
Definition header_ok (b : CBlockHeader) : Prop := 0 <= hdr_nBits b < 2 ^ 32 /\ 0 <= hdr_nTime b < 2 ^ 32.

Lemma chainstate_headers `{HeaderRules} cs : chainstate_ok cs -> Z.of_nat (length (blocks (cs_index cs))) < INT_MAX -> headers_ok (blocks (cs_index cs)).
Proof.
  intros [Hio Hinc Ht _ _ _] Hlen. split; [apply Hio | done | done |]. intros p n Hp. pose proof (height_bound _ _ _ (io_heap _ Hio) Hp).
  apply lookup_lt_Some in Hp. lia.
Qed.

(** ** Marking failed blocks *)

Lemma flag_failed_child s : flag (Z.lor s BLOCK_FAILED_CHILD) BLOCK_FAILED_VALID = flag s BLOCK_FAILED_VALID.
Proof. unfold flag. rewrite Z.land_lor_distr_l. change (Z.land BLOCK_FAILED_CHILD BLOCK_FAILED_VALID) with 0. by rewrite Z.lor_0_r. Qed.

(** Nothing but marks was added. *)
Record marked (m m' : BlockManager) : Prop := {
  marked_blocks : same_blocks (blocks m) (blocks m');
  marked_map : mapBlockIndex m' = mapBlockIndex m;
  marked_best : pindexBestHeader m' = pindexBestHeader m;
  marked_flags : forall p n, blocks m !! p = Some n -> flag (nStatus n) BLOCK_FAILED_VALID = true ->
    exists n', blocks m' !! p = Some n' /\ flag (nStatus n') BLOCK_FAILED_VALID = true
}.

Lemma marked_refl m : marked m m.
Proof. split; [done | done | done |]. intros p n Hp Hf. by exists n. Qed.

Lemma marked_trans m1 m2 m3 : marked m1 m2 -> marked m2 m3 -> marked m1 m3.
Proof.
  intros [A1 A2 A3 A4] [B1 B2 B3 B4]. split; [unfold same_blocks in *; congruence | congruence | congruence |].
  intros p n Hp Hf. destruct (A4 p n Hp Hf) as (n' & Hp' & Hf'). by apply (B4 p n').
Qed.

Lemma mark_one m p n : blocks m !! p = Some n ->
  marked m (Manager (<[p := set_nStatus n (Z.lor (nStatus n) BLOCK_FAILED_CHILD)]> (blocks m)) (mapBlockIndex m) (pindexBestHeader m) ({[p]} ∪ setDirtyBlockIndex m)).
Proof.
  intros Hp. split; cbn [blocks mapBlockIndex pindexBestHeader]; [| done | done |].
  - unfold same_blocks. rewrite list_fmap_insert. change (strip (set_nStatus n _)) with (strip n).
    symmetry. apply list_insert_id. by rewrite list_lookup_fmap, Hp.
  - intros q m' Hq Hf. destruct (decide (q = p)) as [-> | Hne]; [| exists m'; by rewrite list_lookup_insert_ne].
    eexists. rewrite list_lookup_insert_eq by (by eapply lookup_lt_Some). split; [done |]. assert (m' = n) as -> by congruence. cbn [nStatus set_nStatus].
    by rewrite flag_failed_child.
Qed.

Lemma mark_failed_child_run fuel : forall m k p f, is_Some (blocks m !! p) -> heap_ok (blocks m) -> back (blocks m) k p = Some f -> (k <= fuel)%nat ->
  exists m', mark_failed_child fuel m (Some p) f = Ret m' /\ marked m m'.
Proof.
  induction fuel as [| fuel IH]; intros m k p f Hp Hok Hk Hf; cbn [mark_failed_child]; case_bool_decide as E; try (exists m; split; [done | apply marked_refl]).
  { assert (k = 0%nat) as -> by lia. destruct E. by cbn in Hk. }
  destruct k as [| k]; [destruct E; by cbn in Hk |]. destruct Hp as [n Hp]. cbn [back] in Hk. rewrite Hp in Hk. cbn [deref]. rewrite Hp. cbn [obind].
  set (m1 := Manager _ _ _ _). pose proof (mark_one m p n Hp) as Hm1. fold m1 in Hm1. cbn [pprev set_nStatus].
  destruct (pprev n) as [q |] eqn:Eq; [| done]. pose proof (Hok p n Hp) as Hn. unfold node_ok in Hn. rewrite Eq in Hn. destruct Hn as (_ & (mq & Hq & _) & _).
  destruct (IH m1 k q f) as (m' & E' & Hm').
  - destruct (same_blocks_lookup _ _ _ _ (same_blocks_sym _ _ (marked_blocks _ _ Hm1)) Hq) as (x & Hx & _). by exists x.
  - by apply (same_heap_ok (blocks m)); [apply Hm1 |].
  - by rewrite <- (same_back _ _ k (marked_blocks _ _ Hm1)).
  - lia.
  - exists m'. split; [done |]. by apply (marked_trans m m1).
Qed.

(** The block [f] is on the branch of [p]. *)
Definition failed_below (m : BlockManager) (p f : nat) : Prop :=
  exists n, blocks m !! f = Some n /\ GetAncestor (blocks m) p (nHeight n) = Ret (Some f).

Lemma find_failed_run m p l : index_ok m -> is_Some (blocks m !! p) ->
  Forall (fun f => exists n, blocks m !! f = Some n /\ flag (nStatus n) BLOCK_FAILED_VALID = true) l ->
  exists r, find_failed m p l = Ret r /\
    match r with Some m' => marked m m' /\ Exists (failed_below m p) l | None => ~ Exists (failed_below m p) l end.
Proof.
  intros Hio Hp. pose proof (io_heap m Hio) as Hok. destruct Hp as [n Hn].
  induction l as [| f l IH]; intros Hl; cbn [find_failed]; [exists None; split; [done |]; by intros ?%Exists_nil |]. apply list.Forall_cons in Hl as [(nf & Hf & Hflag) Hl].
  cbn [deref]. rewrite Hf. cbn [obind]. pose proof (GetAncestor_run _ Hok p n (nHeight nf) Hn) as Eg. rewrite Eg. cbn [obind]. case_bool_decide as E.
  2: { destruct (IH Hl) as (r & -> & Hr). exists r. split; [done |]. destruct r as [m' |]; [split; [apply Hr | right; apply Hr] |].
       intros [(x & Hx & Ex) | ?]%Exists_cons; [| done]. assert (x = nf) as -> by congruence. rewrite Eg in Ex. by apply Ret_inj in Ex. }
  assert (Hbelow : failed_below m p f) by (exists nf; split; [done |]; by rewrite Eg, E).
  rewrite Hflag. cbn [cassert obind]. destruct (_ || _) eqn:Eo; [done |]. apply orb_false_iff in Eo as [E1 E2]. bool_to_prop.
  destruct (mark_failed_child_run (steps (blocks m) (Some p)) m (Z.to_nat (nHeight n - nHeight nf)) p f) as (m' & -> & Hm'); [by exists n | done | done | |].
  - cbn [steps]. rewrite Hn. lia.
  - cbn [obind]. exists (Some m'). split; [done |]. split; [done | by left].
Qed.

(** ** The checks *)

(** A check of [P] that passes leaves the validation state alone; one that fails reports
    it. *)
Definition verdict (ok : bool) (state state' : CValidationState) (P : Prop) : Prop :=
  if ok then state' = state /\ P else vs_mode state' <> MODE_VALID /\ ~ P.

Lemma DoS_reported state level code reason corruption : vs_mode (DoS state level code reason corruption) <> MODE_VALID.
Proof. unfold DoS. by destruct (vs_mode state). Qed.

#[local] Hint Resolve DoS_reported : core.

(** A check that fails, with the new parameters [params]. *)
Ltac refuted params := eexists false, _, params; split; [done |]; split; [done |]; split; [by apply DoS_reported |].

Section Checks.
Context `{Rules : HeaderRules} (cs : ChainState) (Hcs : chainstate_ok cs) (Hlen : Z.of_nat (length (blocks (cs_index cs))) < INT_MAX).

Lemma map_valid hash p : mapBlockIndex (cs_index cs) !! hash = Some p -> is_Some (blocks (cs_index cs) !! p).
Proof. intros Hp. apply (io_map _ (cso_index cs Hcs)) in Hp as (n & Hn & _). by exists n. Qed.

Lemma GetNextWorkRequired_era p params b : is_Some (blocks (cs_index cs) !! p) -> era_ok params ->
  exists r params', GetNextWorkRequired (blocks (cs_index cs)) (mapBlockIndex (cs_index cs)) (Some p) b params = Ret (r, params') /\ era_ok params'.
Proof.
  intros [n Hn] He. pose proof (cso_index cs Hcs) as Hio.
  destruct (GetNextWorkRequired_run (blocks (cs_index cs)) (io_heap _ Hio) (fun j m Hm => nd_bits _ _ (io_data _ Hio j m Hm)) (mapBlockIndex (cs_index cs)) params p n b)
    as (r & p' & E & _ & Hp'); [apply map_valid | apply He | by apply era_interval | done | by eapply (headers_heights _ (chainstate_headers cs Hcs Hlen)) |].
  exists r, p'. split; [done |]. destruct Hp' as [-> | ->]; [done | by apply era_update].
Qed.

Lemma CheckProofOfWork_returns hash prev bits p height :
  exists b, CheckProofOfWork (blocks (cs_index cs)) (mapBlockIndex (cs_index cs)) hash prev bits p height = Ret b.
Proof.
  unfold CheckProofOfWork. destruct (_ && _); [by eexists |]. destruct (mapBlockIndex (cs_index cs) !! prev) as [i |] eqn:Ei.
  - destruct (map_valid _ _ Ei) as [n Hn]. cbn [deref]. rewrite Hn. cbn [obind]. repeat (case_match; try by eexists).
  - cbn [obind]. repeat (case_match; try by eexists).
Qed.

(** What [CheckBlockHeader] accepts. *)
Definition header_work (params : ConsensusParams) (b : CBlockHeader) : Prop :=
  if hdr_IsProofOfStake b then
    exists q params', mapBlockIndex (cs_index cs) !! hdr_hashPrevBlock b = Some q /\
      GetNextWorkRequired (blocks (cs_index cs)) (mapBlockIndex (cs_index cs)) (Some q) b params = Ret (hdr_nBits b, params')
  else CheckProofOfWork (blocks (cs_index cs)) (mapBlockIndex (cs_index cs)) (block_GetHash b) (hdr_hashPrevBlock b) (hdr_nBits b) params (-1) = Ret true.

(** The parameters that [CheckBlockHeader] leaves behind when it accepts. *)
Definition params_after (b : CBlockHeader) (params : ConsensusParams) : Prop :=
  if hdr_IsProofOfStake b then
    exists q, mapBlockIndex (cs_index cs) !! hdr_hashPrevBlock b = Some q /\
      GetNextWorkRequired (blocks (cs_index cs)) (mapBlockIndex (cs_index cs)) (Some q) b (cs_params cs) = Ret (hdr_nBits b, params)
  else params = cs_params cs.

Lemma CheckBlockHeader_run b state : exists ok state' params,
  CheckBlockHeader cs b state true = Ret (ok, state', set_params cs params) /\ era_ok params /\
  verdict ok state state' (header_work (cs_params cs) b) /\ (ok = true -> params_after b params).
Proof.
  unfold CheckBlockHeader, header_work, params_after. assert (Hself : cs = set_params cs (cs_params cs)) by (by destruct cs). pose proof (cso_params cs Hcs) as He.
  destruct (hdr_IsProofOfStake b); cbn [negb].
  - destruct (mapBlockIndex (cs_index cs) !! hdr_hashPrevBlock b) as [q |] eqn:Eq.
    2: { eexists false, _, (cs_params cs). rewrite <- Hself. split; [done |]. split; [done |]. split; [| done]. split; [by apply DoS_reported |]. by intros (q & ? & ? & _). }
    destruct (GetNextWorkRequired_era q (cs_params cs) b (map_valid _ _ Eq) He) as (r & p' & Eg & Hp'). rewrite Eg. cbn [obind fst snd].
    destruct (r =? hdr_nBits b) eqn:Er; cbn [negb]; bool_to_prop.
    + subst r. exists true, state, p'. split; [done |]. split; [done |]. split; [split; [done |]; by exists q, p' | intros _; by exists q].
    + eexists false, _, p'. split; [done |]. split; [done |]. split; [| done]. split; [by apply DoS_reported |]. intros (q' & p2 & [= <-] & E2). congruence.
  - destruct (CheckProofOfWork_returns (block_GetHash b) (hdr_hashPrevBlock b) (hdr_nBits b) (cs_params cs) (-1)) as [ok ->]. cbn [obind].
    destruct ok; cbn [negb]; [exists true, state, (cs_params cs) | eexists false, _, (cs_params cs)]; rewrite <- Hself; split_and!; try done; by apply DoS_reported.
Qed.

(** What [ContextualCheckBlockHeader] accepts: the required target, no fork below the last
    checkpoint, a time in the allowed window and a version that is not obsolete. *)
Record header_context (b : CBlockHeader) (q : nat) (n : CBlockIndex) : Prop := {
  hc_bits : exists params', GetNextWorkRequired (blocks (cs_index cs)) (mapBlockIndex (cs_index cs)) (Some q) b (cs_params cs) = Ret (hdr_nBits b, params');
  hc_checkpoint : fCheckpointsEnabled = true -> forall c nc, GetLastCheckpoint mapCheckpoints (mapBlockIndex (cs_index cs)) = Some c ->
    blocks (cs_index cs) !! c = Some nc -> nHeight nc <= nHeight n + 1;
  hc_time : mtp (blocks (cs_index cs)) q < hdr_nTime b <= GetAdjustedTime + MAX_FUTURE_BLOCK_TIME;
  hc_version : (BIP34Height <= nHeight n + 1 -> 2 <= hdr_nVersion b) /\ (BIP66Height <= nHeight n + 1 -> 3 <= hdr_nVersion b) /\
    (BIP65Height <= nHeight n + 1 -> 4 <= hdr_nVersion b)
}.

Lemma GetLastCheckpoint_valid c : GetLastCheckpoint mapCheckpoints (mapBlockIndex (cs_index cs)) = Some c -> is_Some (blocks (cs_index cs) !! c).
Proof.
  unfold GetLastCheckpoint. induction (reverse mapCheckpoints) as [| [k hash] l IH]; cbn [known_checkpoint]; [done |].
  destruct (mapBlockIndex (cs_index cs) !! hash) as [q |] eqn:Eq; [| done]. intros [= <-]. by apply (map_valid hash).
Qed.
Lemma ContextualCheckBlockHeader_run b state q n : blocks (cs_index cs) !! q = Some n -> exists ok state' params,
  ContextualCheckBlockHeader cs b state (Some q) GetAdjustedTime = Ret (ok, state', set_params cs params) /\ era_ok params /\
  verdict ok state state' (header_context b q n).
Proof.
  intros Hq. pose proof (chainstate_headers cs Hcs Hlen) as [Hok _ Ht Hh]. unfold ContextualCheckBlockHeader, Invalid. cbn [deref]. rewrite Hq. cbn [obind].
  pose proof (node_height _ _ _ (Hok q n Hq)). specialize (Hh q n Hq). rewrite int_add_run by (unfold INT_MIN, INT_MAX in *; lia). cbn [obind].
  destruct (GetNextWorkRequired_era q (cs_params cs) b (ex_intro _ n Hq) (cso_params cs Hcs)) as (r & p' & Eg & Hp'). rewrite Eg. cbn [obind fst snd].
  destruct (hdr_nBits b =? r) eqn:Er; cbn [negb]; bool_to_prop; [subst r | refuted p'; intros [[p2 E2] _ _ _]; congruence].
  set (forked := if fCheckpointsEnabled then _ else _).
  assert (Hf : exists f, forked = Ret f /\ (f = false <-> (fCheckpointsEnabled = true -> forall c nc, GetLastCheckpoint mapCheckpoints (mapBlockIndex (cs_index cs)) = Some c ->
    blocks (cs_index cs) !! c = Some nc -> nHeight nc <= nHeight n + 1))).
  { unfold forked. destruct fCheckpointsEnabled; [| by exists false]. change (cs_index (set_params cs p')) with (cs_index cs).
    destruct (GetLastCheckpoint _ _) as [c |] eqn:Ec; [| by exists false]. destruct (GetLastCheckpoint_valid c Ec) as [nc Hnc]. rewrite Hnc. cbn [obind].
    eexists. split; [done |]. rewrite Z.ltb_ge. split; [intros Hb _ c' nc' [= <-] Hnc'; congruence | intros Hb; by apply (Hb eq_refl c nc)]. }
  destruct Hf as (f & -> & Hf). cbn [obind]. destruct f; [refuted p'; intros [_ Hc _ _]; by apply Hf in Hc |]. rewrite (mtp_run _ Hok Ht q n Hq). cbn [obind]. unfold hdr_GetBlockTime.
  destruct (_ <=? _) eqn:E1; bool_to_prop; [refuted p'; intros [_ _ ? _]; lia |]. destruct (_ >? _) eqn:E2; bool_to_prop; [refuted p'; intros [_ _ ? _]; lia |].
  destruct (_ || _) eqn:E3; [refuted p'; intros [_ _ _ ?]; lia |].
  exists true, state, p'. split; [done |]. split; [done |]. split; [done |]. bool_to_prop.
  split; [by exists p' | by apply Hf | lia | lia].
Qed.
End Checks.

(** ** Entering a header *)

Lemma last_times_app h l k : heap_ok h -> forall p, (forall q, p = Some q -> is_Some (h !! q)) -> last_times k (h ++ l) p = last_times k h p.
Proof.
  intros Hok. induction k as [| k IH]; intros [p |] Hp; try done. destruct (Hp p eq_refl) as [n Hn]. cbn [last_times deref].
  rewrite (lookup_app_l_Some _ _ _ _ Hn), Hn. cbn [obind]. rewrite IH; [done |]. intros q Hq. pose proof (Hok p n Hn) as Hno. unfold node_ok in Hno. rewrite Hq in Hno.
  destruct Hno as (_ & (m & Hm & _) & _). by exists m.
Qed.

Lemma mtp_app h l p : heap_ok h -> is_Some (h !! p) -> mtp (h ++ l) p = mtp h p.
Proof. intros Hok Hp. unfold mtp, GetMedianTimePast. rewrite last_times_app; [done | done |]. by intros q [= <-]. Qed.

Lemma times_increase_snoc h n : heap_ok h -> times_increase h ->
  (forall q, pprev n = Some q -> is_Some (h !! q) /\ mtp h q < GetBlockTime n) -> times_increase (h ++ [n]).
Proof.
  intros Hok Hinc Hn p m q [Hp | [-> ->]]%lookup_snoc_cases Hq.
  - rewrite mtp_app; [by apply (Hinc p) | done |]. pose proof (Hok p m Hp) as Hm. unfold node_ok in Hm. rewrite Hq in Hm.
    destruct Hm as (_ & (x & Hx & _) & _). by exists x.
  - destruct (Hn q Hq) as [Hs Hlt]. by rewrite mtp_app.
Qed.

Section Accept.
Context `{Rules : HeaderRules}.

Lemma set_params_ok cs params : chainstate_ok cs -> era_ok params -> chainstate_ok (set_params cs params).
Proof. intros [H1 H2 H3 H4 H5 H6] He. by split. Qed.

Lemma marked_ok cs m : chainstate_ok cs -> marked (cs_index cs) m -> chainstate_ok (set_index cs m).
Proof.
  intros [H1 H2 H3 H4 H5 H6] [M1 M2 M3 M4]. split; cbn [cs_index cs_params g_failed_blocks set_index].
  - by apply (same_index_ok (cs_index cs)).
  - intros p n' q Hp Hq. destruct (same_blocks_lookup _ _ _ _ M1 Hp) as (n & Hn & E). rewrite <- (same_mtp _ _ q M1). unfold GetBlockTime.
    assert (bi_nTime n = bi_nTime n') as <- by same_field E. apply (H2 p n q Hn). rewrite <- Hq. same_field E.
  - intros p n' Hp. destruct (same_blocks_lookup _ _ _ _ M1 Hp) as (n & Hn & E). assert (bi_nTime n = bi_nTime n') as <- by same_field E. by apply (H3 p).
  - done.
  - intros p Hp. destruct (H5 p Hp) as (n & Hn & Hf). by apply (M4 p n).
  - by rewrite M2.
Qed.

(** An index that has grown by at most one block. *)
Record grown (m m' : BlockManager) : Prop := {
  grown_map : forall hash p, mapBlockIndex m !! hash = Some p -> mapBlockIndex m' !! hash = Some p;
  grown_length : (length (blocks m') <= S (length (blocks m)))%nat
}.

Lemma grown_refl m : grown m m.
Proof. split; [done | lia]. Qed.

Lemma add_header cs b q : chainstate_ok cs -> header_ok b -> Z.of_nat (length (blocks (cs_index cs))) < INT_MAX ->
  mapBlockIndex (cs_index cs) !! block_GetHash b = None -> mapBlockIndex (cs_index cs) !! hdr_hashPrevBlock b = Some q ->
  mtp (blocks (cs_index cs)) q < hdr_nTime b ->
  exists m p, AddToBlockIndex (cs_index cs) b = Ret (m, p) /\ chainstate_ok (set_index cs m) /\ mapBlockIndex m !! block_GetHash b = Some p /\ grown (cs_index cs) m.
Proof.
  intros Hcs [Hbits Htime] Hlen Hnew Hq Hmtp. pose proof Hcs as [H1 H2 H3 H4 H5 H6].
  assert (Hne : hdr_hashPrevBlock b <> block_GetHash b) by congruence.
  destruct (AddToBlockIndex_inv (cs_index cs) b H1 Hbits Hne Hlen) as (m & p & E & Hok & Hmap & Hpre & Hle). exists m, p. split; [done |].
  destruct (AddToBlockIndex_run (cs_index cs) b H1 Hbits Hne Hlen Hnew) as (skip & height & w & Hnode & _ & _ & best & E' & _). cbv zeta in E'. rewrite Hq in E'.
  rewrite E in E'. apply Ret_inj, pair_equal_spec in E' as [-> ->]. set (n := set_nStatus _ 2) in *. cbn [blocks mapBlockIndex] in Hpre, Hle.
  assert (Hg : grown (cs_index cs) (Manager (blocks (cs_index cs) ++ [n]) (<[block_GetHash b := length (blocks (cs_index cs))]> (mapBlockIndex (cs_index cs))) best
    ({[length (blocks (cs_index cs))]} ∪ setDirtyBlockIndex (cs_index cs)))).
  { split; cbn [mapBlockIndex blocks]; [| done]. intros hash p Hp. rewrite lookup_insert_ne; [done |]. congruence. }
  split; [| by split]. split; cbn [cs_index cs_params g_failed_blocks set_index blocks].
  - done.
  - apply times_increase_snoc; [apply H1 | done |]. intros q' [= <-]. split; [by apply (map_valid cs Hcs (hdr_hashPrevBlock b)) | done].
  - intros p m [Hp | [-> ->]]%lookup_snoc_cases; [by apply (H3 p) | done].
  - done.
  - intros p Hp. destruct (H5 p Hp) as (x & Hx & Hf). exists x. split; [by apply lookup_app_l_Some | done].
  - destruct H6 as [g Hgen]. exists g. by apply Hg.
Qed.
(** The rules for a new header: they say exactly which are entered. *)
Definition header_accepted (cs : ChainState) (b : CBlockHeader) : Prop :=
  exists q n, mapBlockIndex (cs_index cs) !! hdr_hashPrevBlock b = Some q /\ blocks (cs_index cs) !! q = Some n /\
    flag (nStatus n) BLOCK_FAILED_MASK = false /\ header_work cs (cs_params cs) b /\ header_context cs b q n /\
    (IsValid n BLOCK_VALID_SCRIPTS = Ret true \/ forall f, f ∈ g_failed_blocks cs -> ~ failed_below (cs_index cs) q f).

(** A header that is known is accepted again unless its block has failed. *)
Definition header_known (cs : ChainState) (p : nat) (b : CBlockHeader) : Prop :=
  block_GetHash b = hashGenesisBlock \/ exists n, blocks (cs_index cs) !! p = Some n /\ flag (nStatus n) BLOCK_FAILED_MASK = false.

Definition acceptable (cs : ChainState) (b : CBlockHeader) : Prop :=
  match mapBlockIndex (cs_index cs) !! block_GetHash b with Some p => header_known cs p b | None => header_accepted cs b end.

Definition accept_result (cs : ChainState) (b : CBlockHeader) (state : CValidationState) (r : outcome (bool * CValidationState * option nat * ChainState)) : Prop :=
  exists ok state' pindex cs', r = Ret (ok, state', pindex, cs') /\ chainstate_ok cs' /\ grown (cs_index cs) (cs_index cs') /\
    verdict ok state state' (acceptable cs b) /\
    (ok = true -> is_Some pindex /\ pindex = mapBlockIndex (cs_index cs') !! block_GetHash b).

Lemma accept_reject cs b state state' pindex cs' : chainstate_ok cs' -> grown (cs_index cs) (cs_index cs') -> vs_mode state' <> MODE_VALID -> ~ acceptable cs b ->
  accept_result cs b state (Ret (false, state', pindex, cs')).
Proof. intros Hok Hg Hv. exists false, state', pindex, cs'. by repeat (split; [done |]). Qed.

Lemma accept_known cs b state p : chainstate_ok cs -> mapBlockIndex (cs_index cs) !! block_GetHash b = Some p -> accept_result cs b state (AcceptBlockHeader cs b state).
Proof.
  intros Hcs Eknown. unfold AcceptBlockHeader. rewrite Eknown. destruct (map_valid cs Hcs _ _ Eknown) as [n Hn].
  assert (Hself : set_index cs (cs_index cs) = cs) by (by destruct cs).
  assert (Hadd : AddToBlockIndex (cs_index cs) b = Ret (cs_index cs, p)) by (unfold AddToBlockIndex; by rewrite Eknown). rewrite Hadd. cbn [obind fst snd deref]. rewrite Hself, Hn.
  assert (Hok : acceptable cs b -> accept_result cs b state (Ret (true, state, Some p, cs))).
  { intros Ha. exists true, state, (Some p), cs. split; [done |]. split; [done |]. split; [apply grown_refl |]. split; [done |]. intros _. by rewrite Eknown. }
  unfold acceptable, header_known in Hok. rewrite Eknown in Hok. cbn [obind]. case_bool_decide as Eg; [apply Hok; by left |].
  destruct (flag _ _) eqn:Ef; [| apply Hok; right; by exists n]. apply accept_reject; [done | apply grown_refl | apply DoS_reported |].
  unfold acceptable, header_known. rewrite Eknown. intros [? | (n' & Hn' & ?)]; congruence.
Qed.

(** The parameters after the first check require the same target as those before it. *)
Lemma header_context_params cs params b q n : mapBlockIndex (cs_index cs) !! hdr_hashPrevBlock b = Some q -> params_after cs b params ->
  header_context (set_params cs params) b q n <-> header_context cs b q n.
Proof.
  intros Hq Hp. assert (Hbits : (exists p', GetNextWorkRequired (blocks (cs_index cs)) (mapBlockIndex (cs_index cs)) (Some q) b params = Ret (hdr_nBits b, p')) <->
    exists p', GetNextWorkRequired (blocks (cs_index cs)) (mapBlockIndex (cs_index cs)) (Some q) b (cs_params cs) = Ret (hdr_nBits b, p')).
  { unfold params_after in Hp. destruct (hdr_IsProofOfStake b); [| by rewrite Hp]. destruct Hp as (q' & Hq' & Hg). assert (q' = q) as -> by congruence.
    split; intros _; exists params; [done |]. by apply (GetNextWorkRequired_again _ _ _ _ (cs_params cs)). }
  split; intros [H1 H2 H3 H4]; (split; [by apply Hbits | done..]).
Qed.

Lemma accept_marked cs params b state state' m : chainstate_ok (set_params cs params) -> marked (cs_index cs) m -> vs_mode state' <> MODE_VALID -> ~ acceptable cs b ->
  accept_result cs b state (Ret (false, state', None, set_index (set_params cs params) m)).
Proof.
  intros Hok Hm Hv. apply accept_reject; [by apply marked_ok | | done]. cbn [cs_index set_index]. split; [by rewrite (marked_map _ _ Hm) |].
  rewrite (same_blocks_length _ _ (marked_blocks _ _ Hm)). lia.
Qed.

Lemma IsValid_scripts n : flag (nStatus n) BLOCK_FAILED_MASK = false ->
  exists valid, IsValid n BLOCK_VALID_SCRIPTS = Ret valid.
Proof.
  intros Ef. unfold IsValid. change (Z.land BLOCK_VALID_SCRIPTS (Z.lnot BLOCK_VALID_MASK) =? 0) with true. cbn [cassert obind]. rewrite Ef. by eexists.
Qed.

(** The last step for a header that has passed the checks. *)
Lemma accept_checked cs params b state bad q n : vs_mode bad <> MODE_VALID -> chainstate_ok (set_params cs params) -> header_ok b -> Z.of_nat (length (blocks (cs_index cs))) < INT_MAX ->
  mapBlockIndex (cs_index cs) !! block_GetHash b = None -> mapBlockIndex (cs_index cs) !! hdr_hashPrevBlock b = Some q -> blocks (cs_index cs) !! q = Some n ->
  flag (nStatus n) BLOCK_FAILED_MASK = false -> header_work cs (cs_params cs) b -> header_context cs b q n ->
  let cs' := set_params cs params in
  let add := let? r := AddToBlockIndex (cs_index cs') b in Ret (true, state, Some r.2, set_index cs' r.1) in
  accept_result cs b state (let? valid := IsValid n BLOCK_VALID_SCRIPTS in
    if negb valid then
      let? failed := find_failed (cs_index cs') q (elements (g_failed_blocks cs')) in
      match failed with
      | Some m => Ret (false, bad, None, set_index cs' m)
      | None => add
      end
    else add).
Proof.
  intros Hbad Hcs Hb Hlen Eknown Eq Hn Ef Hwork Hctx cs' add.
  destruct (add_header cs' b q Hcs Hb Hlen Eknown Eq) as (m & p & Hadd & Hcs3 & Hmap & Hg); [apply Hctx |].
  assert (Hres : acceptable cs b -> accept_result cs b state add).
  { intros Ha. unfold add. rewrite Hadd. cbn [obind fst snd]. exists true, state, (Some p), (set_index cs' m). split; [done |]. split; [done |]. split; [done |]. cbn [cs_index set_index].
    split; [done |]. intros _. by rewrite Hmap. }
  unfold acceptable, header_accepted in Hres. rewrite Eknown in Hres. destruct (IsValid_scripts n Ef) as [valid Ev]. rewrite Ev. cbn [obind].
  destruct valid; cbn [negb]; [apply Hres; exists q, n; by repeat (split; [done |]); left |].
  destruct (find_failed_run (cs_index cs) q (elements (g_failed_blocks cs))) as (r & Er & Hr); [apply Hcs | by exists n | |].
  { apply list.Forall_forall. intros f Hf. by apply (cso_failed cs' Hcs), elem_of_elements. }
  change (g_failed_blocks cs') with (g_failed_blocks cs). change (cs_index cs') with (cs_index cs). rewrite Er. cbn [obind]. destruct r as [m' |].
  - destruct Hr as [Hm (f & Hf & Hbelow)%list.Exists_exists]. apply accept_marked; [done | done | done |]. unfold acceptable, header_accepted. rewrite Eknown.
    intros (q' & n' & Eq' & Hn' & _ & _ & _ & [Hv | Hno]); assert (q' = q) as -> by congruence; [congruence |]. by apply (Hno f); [apply elem_of_elements |].
  - apply Hres. exists q, n. repeat (split; [done |]). right. intros f Hf Hbelow. apply Hr, list.Exists_exists. exists f. by split; [apply elem_of_elements |].
Qed.

Lemma AcceptBlockHeader_run cs b state : chainstate_ok cs -> header_ok b -> Z.of_nat (length (blocks (cs_index cs))) < INT_MAX ->
  accept_result cs b state (AcceptBlockHeader cs b state).
Proof.
  intros Hcs Hb Hlen. destruct (mapBlockIndex (cs_index cs) !! block_GetHash b) as [p |] eqn:Eknown; [by apply (accept_known _ _ _ p) |].
  unfold AcceptBlockHeader. rewrite Eknown. case_bool_decide as Egen; [rewrite Egen in Eknown; destruct (cso_genesis cs Hcs) as [g Hg]; congruence |].
  assert (Hnot : ~ header_accepted cs b -> ~ acceptable cs b) by (unfold acceptable; by rewrite Eknown).
  destruct (CheckBlockHeader_run cs Hcs Hlen b state) as (ok & st1 & p1 & -> & He1 & Hv1 & Hparams). cbn [obind]. pose proof (set_params_ok cs p1 Hcs He1) as Hcs1.
  destruct ok; cbn [negb]; [| destruct Hv1 as [? Hv1]; apply accept_reject; [done | apply grown_refl | done | apply Hnot; by intros (? & ? & _ & _ & _ & ? & _)]].
  destruct Hv1 as [-> Hwork]. specialize (Hparams eq_refl). change (cs_index (set_params cs p1)) with (cs_index cs).
  destruct (mapBlockIndex (cs_index cs) !! hdr_hashPrevBlock b) as [q |] eqn:Eq;
    [| apply accept_reject; [done | apply grown_refl | apply DoS_reported | apply Hnot; intros (? & ? & ? & _); congruence]].
  destruct (map_valid cs Hcs _ _ Eq) as [n Hn]. cbn [deref]. rewrite Hn. cbn [obind].
  destruct (flag (nStatus n) BLOCK_FAILED_MASK) eqn:Ef;
    [apply accept_reject; [done | apply grown_refl | apply DoS_reported | apply Hnot; intros (? & ? & ? & ? & ? & _); congruence] |].
  destruct (ContextualCheckBlockHeader_run (set_params cs p1) Hcs1 Hlen b state q n Hn) as (ok & st2 & p2 & -> & He2 & Hv2). cbn [obind].
  pose proof (set_params_ok cs p2 Hcs He2) as Hcs2. change (set_params (set_params cs p1) p2) with (set_params cs p2).
  destruct ok; cbn [negb].
  - destruct Hv2 as [-> Hctx%(header_context_params cs p1 b q n Eq Hparams)]. apply accept_checked; [apply DoS_reported | done..].
  - destruct Hv2 as [? Hv2]. apply accept_reject; [done | apply grown_refl | done |]. apply Hnot. intros (q' & n' & Eq' & Hn' & _ & _ & Hctx & _).
    assert (q' = q) as -> by congruence. assert (n' = n) as -> by congruence. by apply Hv2, (header_context_params cs p1 b q n Eq Hparams).
Qed.
End Accept.

(** ** Genesis *)

(** The chain state of a node that has just entered its genesis block. *)
Lemma genesis_state_ok `{HeaderRules} (b : CBlockHeader) p :
  header_ok b -> hdr_hashPrevBlock b <> block_GetHash b -> hashGenesisBlock = block_GetHash b -> era_ok p ->
  exists m, AddToBlockIndex empty_index b = Ret (m, 0%nat) /\ chainstate_ok (MkChainState m p ∅) /\ length (blocks m) = 1%nat.
Proof.
  intros [Hbits Htime] Hne Hgen He. pose proof empty_index_ok as H1.
  destruct (AddToBlockIndex_inv empty_index b H1 Hbits Hne eq_refl) as (m & i & E & Hok & Hmap & _ & _).
  destruct (AddToBlockIndex_run empty_index b H1 Hbits Hne eq_refl (lookup_empty _)) as (skip & height & w & _ & _ & _ & best & E' & _). cbv zeta in E'.
  change (mapBlockIndex empty_index) with (∅ : gmap (list Z) nat) in E'. rewrite lookup_empty in E'.
  rewrite E in E'. apply Ret_inj, pair_equal_spec in E' as [-> ->]. set (n := set_nStatus _ 2) in *. eexists. split; [exact E |]. split; [| done].
  split; cbn [cs_index cs_params g_failed_blocks blocks]; [done | | | done | by intros q Hq%elem_of_empty |].
  - intros q x r Hq Hr. change (blocks empty_index ++ [n]) with [n] in Hq. apply list_lookup_singleton_Some in Hq as [-> <-]. done.
  - intros q x Hq. change (blocks empty_index ++ [n]) with [n] in Hq. apply list_lookup_singleton_Some in Hq as [-> <-]. done.
  - rewrite Hgen. by eexists.
Qed.

(** ** Theorems *)

(** C7. On a chain state that satisfies the invariant, [AcceptBlockHeader] returns: no
    assertion fails, no walk runs out. The invariant still holds, no known header is
    lost, and a rejection is reported in the validation state. A header that is known is
    accepted unless its block has failed. A new header is accepted exactly when its parent
    is in the index and neither it nor a block below it has failed, its hash meets its
    target, its target is the one that [GetNextWorkRequired] gives under the parameters of
    the chain state, its branch does not leave the chain below the last checkpoint, its
    time lies between the median time past and the allowed future, and its version is not
    obsolete; it is in the index afterwards. *)
Theorem AcceptBlockHeader_sound `{HeaderRules} cs b state :
  chainstate_ok cs -> header_ok b -> Z.of_nat (length (blocks (cs_index cs))) < INT_MAX ->
  exists ok state' pindex cs', AcceptBlockHeader cs b state = Ret (ok, state', pindex, cs') /\ chainstate_ok cs' /\ grown (cs_index cs) (cs_index cs') /\
    verdict ok state state' (acceptable cs b) /\ (ok = true -> is_Some pindex /\ pindex = mapBlockIndex (cs_index cs') !! block_GetHash b).
Proof. apply AcceptBlockHeader_run. Qed.

Definition sample_header_rules : HeaderRules := {|
  hashGenesisBlock := block_GetHash sample_header;
  BIP34Height := 227931;
  BIP65Height := 388381;
  BIP66Height := 363725;
  mapCheckpoints := [];
  fCheckpointsEnabled := true;
  GetAdjustedTime := 1700000000
|}.

Lemma main_era_ok : era_ok main_params.
Proof. split; [apply main_params_ok | | |]; vm_compute; try split; discriminate. Qed.

(** A header on top of the sample header. *)
Definition next_header : CBlockHeader := BlockHeader 0x22000000 (block_GetHash sample_header) (replicate 32 3) 1600000000 0x1d00ffff 5.

Lemma next_header_ok : header_ok next_header.
Proof. unfold header_ok, next_header. cbn [hdr_nBits hdr_nTime]. lia. Qed.

Lemma sample_header_ok : header_ok sample_header.
Proof. unfold header_ok, sample_header. cbn [hdr_nBits hdr_nTime]. lia. Qed.

Lemma AcceptBlockHeader_sound_witness :
  exists m, AddToBlockIndex empty_index sample_header = Ret (m, 0%nat) /\
    exists ok state' pindex cs', AcceptBlockHeader (Rules := sample_header_rules) (MkChainState m main_params ∅) next_header CValidationState_new = Ret (ok, state', pindex, cs') /\
      chainstate_ok (H := sample_header_rules) cs'.
Proof.
  destruct (genesis_state_ok (H := sample_header_rules) sample_header main_params) as (m & E & Hcs & Hlen).
  - exact sample_header_ok.
  - exact sample_header_acyclic.
  - reflexivity.
  - exact main_era_ok.
  - exists m. split; [exact E |].
    destruct (AcceptBlockHeader_sound (H := sample_header_rules) (MkChainState m main_params ∅) next_header CValidationState_new) as (ok & st' & pi & cs' & E' & Hcs' & _).
    + exact Hcs.
    + exact next_header_ok.
    + cbn [cs_index]. rewrite Hlen. reflexivity.
    + exists ok, st', pi, cs'. split; [exact E' | exact Hcs'].
Defined.

Lemma ProcessNewBlockHeaders_run `{HeaderRules} headers : forall cs state ppindex,
  chainstate_ok cs -> Forall header_ok headers -> Z.of_nat (length (blocks (cs_index cs)) + length headers) < INT_MAX ->
  exists ok state' ppindex' first cs', ProcessNewBlockHeaders cs headers state ppindex = Ret (ok, state', ppindex', first, cs') /\ chainstate_ok cs' /\
    (forall hash p, mapBlockIndex (cs_index cs) !! hash = Some p -> mapBlockIndex (cs_index cs') !! hash = Some p) /\
    Z.of_nat (length (blocks (cs_index cs'))) < INT_MAX /\
    exists l rest, headers = l ++ rest /\ Forall (fun b => is_Some (mapBlockIndex (cs_index cs') !! block_GetHash b)) l /\
      if ok then rest = [] /\ first = None /\ state' = state else head rest = first /\ is_Some first /\ vs_mode state' <> MODE_VALID.
Proof.
  induction headers as [| b headers IH]; intros cs state ppindex Hcs Hall Hlen; cbn [ProcessNewBlockHeaders].
  { exists true, state, ppindex, None, cs. split; [done |]. split; [done |]. split; [done |]. split; [cbn [length] in Hlen; lia |]. by exists [], []. }
  apply list.Forall_cons in Hall as [Hb Hall]. cbn [length] in Hlen. destruct (AcceptBlockHeader_run cs b state Hcs Hb) as (ok & st1 & p1 & cs1 & -> & Hcs1 & [Hg Hl] & Hv & Hpi); [lia |].
  cbn [obind]. destruct ok; cbn [negb].
  - destruct Hv as [-> _]. destruct (Hpi eq_refl) as [[i Hi] Ei]. rewrite Hi in Ei. symmetry in Ei. clear Hi. destruct (IH cs1 state p1 Hcs1 Hall) as (ok & st' & pp & first & cs' & -> & Hcs' & Hg' & Hl' & l & rest & -> & Hin & Hr); [lia |].
    exists ok, st', pp, first, cs'. split; [done |]. split; [done |]. split; [intros hash p Hp; by apply Hg', Hg |]. split; [done |].
    exists (b :: l), rest. split; [done |]. split; [| done]. constructor; [exists i; by apply Hg' | done].
  - exists false, st1, ppindex, (Some b), cs1. destruct Hv as [Hv _]. split; [done |]. split; [done |]. split; [done |]. split; [lia |]. exists [], (b :: headers). done.
Qed.

(** C32. Whatever headers a peer sends, [ProcessNewBlockHeaders] keeps the invariant of the
    chain state and returns: the headers before the first invalid one are in the index,
    that one is handed back and reported, and no known header is lost. The headers of the
    index then satisfy what the version bits computation relies on. *)
Theorem ProcessNewBlockHeaders_invariant `{HeaderRules} cs headers state ppindex :
  chainstate_ok cs -> Forall header_ok headers -> Z.of_nat (length (blocks (cs_index cs)) + length headers) < INT_MAX ->
  exists ok state' ppindex' first cs', ProcessNewBlockHeaders cs headers state ppindex = Ret (ok, state', ppindex', first, cs') /\
    chainstate_ok cs' /\ headers_ok (blocks (cs_index cs')) /\
    (forall hash p, mapBlockIndex (cs_index cs) !! hash = Some p -> mapBlockIndex (cs_index cs') !! hash = Some p) /\
    exists l rest, headers = l ++ rest /\ Forall (fun b => is_Some (mapBlockIndex (cs_index cs') !! block_GetHash b)) l /\
      if ok then rest = [] /\ first = None /\ state' = state else head rest = first /\ is_Some first /\ vs_mode state' <> MODE_VALID.
Proof.
  intros Hcs Hall Hlen. destruct (ProcessNewBlockHeaders_run headers cs state ppindex Hcs Hall Hlen) as (ok & st' & pp & first & cs' & E & Hcs' & Hg & Hl & Hr).
  exists ok, st', pp, first, cs'. split; [done |]. split; [done |]. split; [by apply chainstate_headers | by split].
Qed.

Lemma ProcessNewBlockHeaders_invariant_witness :
  exists m, AddToBlockIndex empty_index sample_header = Ret (m, 0%nat) /\
    exists ok state' pp first cs', ProcessNewBlockHeaders (Rules := sample_header_rules) (MkChainState m main_params ∅) [next_header; sample_header] CValidationState_new None =
      Ret (ok, state', pp, first, cs') /\ headers_ok (blocks (cs_index cs')).
Proof.
  destruct (genesis_state_ok (H := sample_header_rules) sample_header main_params) as (m & E & Hcs & Hlen).
  - exact sample_header_ok.
  - exact sample_header_acyclic.
  - reflexivity.
  - exact main_era_ok.
  - exists m. split; [exact E |].
    destruct (ProcessNewBlockHeaders_invariant (H := sample_header_rules) (MkChainState m main_params ∅) [next_header; sample_header] CValidationState_new None)
      as (ok & st' & pp & first & cs' & E' & _ & Hh & _).
    + exact Hcs.
    + repeat constructor; first [apply next_header_ok | apply sample_header_ok].
    + cbn [cs_index]. rewrite Hlen. reflexivity.
    + exists ok, st', pp, first, cs'. split; [exact E' | exact Hh].
Defined.
