(* ===== verification/BlockCheck.v ===== *)
(** * Checks of whole blocks

    [CheckBlock], [ContextualCheckBlock] and their helpers of [src/validation.cpp], the
    witness commitment and the block subsidy. *)

From Stdlib Require Import String.
From stdpp Require Import gmap.
From S2P Require Import Prelude Common Serialize Opcodes ScriptNum Script Sha256 Hash Transaction SigEncoding Interpreter ContractScript.
From S2P Require Import SigHash Standard ArithUint256 Block Chain Pow Merkle MerkleBlock Coins TxVerify Stake VersionBits AcceptHeader.

Open Scope Z_scope.
Open Scope outcome_scope.

Definition MaxBlockSigops (UB_FORK_BLOCK_NUM nblock : Z) : Z := MaxBlockSize UB_FORK_BLOCK_NUM nblock / 50.

Definition NO_WITNESS : Z := Z.lor PROTOCOL_VERSION SERIALIZE_TRANSACTION_NO_WITNESS.

Definition GetBlockWeight (block : CBlock) : Z :=
  Zlen (Serialize_CBlock NO_WITNESS block) * (WITNESS_SCALE_FACTOR - 1) + Zlen (Serialize_CBlock PROTOCOL_VERSION block).

Definition GetTransactionWeight (tx : CTransaction) : Z :=
  Zlen (SerializeTransaction NO_WITNESS tx) * (WITNESS_SCALE_FACTOR - 1) + Zlen (SerializeTransaction PROTOCOL_VERSION tx).

Section CheckBlock.
Context {S : Type} `{V : CCoinsView S, U : CoinUsage, Env : NodeEnv, Rules : TxRules, BR : BlockRules, HR : HeaderRules}.

(** The loop over the transactions. *)
Fixpoint check_transactions (l : list CTransaction) (state : CValidationState) : outcome (bool * CValidationState) :=
  match l with
  | [] => Ret (true, state)
  | tx :: l =>
    let? r := CheckTransaction tx state true in
    if r.1 then check_transactions l r.2 else Ret (false, Invalid r.2 (vs_chRejectCode r.2) (vs_strRejectReason r.2))
  end.

(** The coinbase of a block of the initial period pays the foundation; the destination of
    a script hash is a [CScriptID]. *)
Definition check_foundation (coinbase : CTransaction) : option string :=
  match vout coinbase with
  | [] => Some "coinbase-vout-missing"%string
  | out :: _ =>
    match ExtractDestinations contracts_allowed (scriptPubKey out) with
    | Some (TX_SCRIPTHASH, [CScriptID hash], _) =>
      match UBCfoundation with
      | None => Some "invalid-ubc-foundation-address"%string
      | Some keyID => if bool_decide (hash = keyID) then None else Some "coinbase-not-ub-foundation-script"%string
      end
    | _ => Some "coinbase-invalid-script"%string
    end
  end.

(** The checks against the previous block: [None] when they pass, otherwise the reason, if
    the validation state is given one. *)
Definition check_prev (m : BlockManager) (p : ConsensusParams) (block : CBlock) (c : CCoinsViewCache S) : outcome (option (option string) * CCoinsViewCache S) :=
  let header := block_header block in
  if bool_decide (hdr_hashPrevBlock header = replicate 32 0) then Ret (None, c)
  else
    match mapBlockIndex m !! hdr_hashPrevBlock header with
    | None => Ret (Some (Some "can-not-get-prev-blockheader"%string), c)
    | Some i =>
      let? prev := deref (blocks m) (Some i) in
      let pos := hdr_IsProofOfStake header in
      let? kernel_ok :=
        if pos && (nHeight prev >=? ForkV2Height p - 1) then
          let? stake := index (vtx block) 1 in
          let? txin := index (vin stake) 0 in
          let? out := index (vout stake) 1 in
          CheckProofOfStake m header (prevout txin) (nValue out)
        else Ret true in
      if negb kernel_ok then Ret (Some None, c)
      else
        let? r := if pos && (nHeight prev >? ForkV4Height p) then CheckStake m block c else Ret (true, c) in
        if negb r.1 then Ret (Some (Some "bad-txns-CheckStake-failed"%string), r.2)
        else if (nHeight prev >=? Pow.UBCHeight p - 1) && (nHeight prev <? Pow.UBCHeight p + UBCInitBlockCount p - 1) then
          let? coinbase := index (vtx block) 0 in
          match check_foundation coinbase with Some reason => Ret (Some (Some reason), r.2) | None => Ret (None, r.2) end
        else Ret (None, r.2)
    end.

(** The coinbase of a stake block and its coinstake pay the same script: the rejection,
    if any. *)
Definition check_coinstake (block : CBlock) (coinbase : CTransaction) : outcome bool :=
  if hdr_IsProofOfStake (block_header block) then
    let? stake := index (vtx block) 1 in
    if negb (IsCoinStake stake) then Ret false
    else
      let? o0 := index (vout coinbase) 0 in
      let? o1 := index (vout stake) 1 in
      Ret (bool_decide (scriptPubKey o0 = scriptPubKey o1))
  else Ret true.

(** The result, the validation state, [fChecked], the chain state and the coins. *)
Definition CheckBlock (cs : ChainState) (c : CCoinsViewCache S) (block : CBlock) (fChecked : bool) (state : CValidationState) (fCheckPOW fCheckMerkleRoot : bool) :
    outcome (bool * CValidationState * bool * ChainState * CCoinsViewCache S) :=
  if fChecked then Ret (true, state, true, cs, c)
  else
    let? r := CheckBlockHeader cs (block_header block) state fCheckPOW in
    let '(ok, state, cs) := r in
    let fail c reason corruption := Ret (false, DoS state 100 REJECT_INVALID reason corruption, false, cs, c) in
    if negb ok then Ret (false, state, false, cs, c)
    else
      let? bad := if fCheckMerkleRoot then
                    let? root := BlockMerkleRoot block in
                    if negb (bool_decide (hdr_hashMerkleRoot (block_header block) = root.1)) then Ret (Some "bad-txnmrklroot"%string)
                    else if root.2 then Ret (Some "bad-txns-duplicate"%string) else Ret None
                  else Ret None in
      match bad with
      | Some reason => fail c reason true
      | None =>
        let maxsize := MaxBlockSize UB_FORK_BLOCK_NUM (uint64 (chain_height + 1)) in
        match vtx block with
        | [] => fail c "bad-blk-length"%string false
        | coinbase :: rest =>
          if (Zlen (vtx block) * WITNESS_SCALE_FACTOR >? maxsize) || (Zlen (Serialize_CBlock NO_WITNESS block) * WITNESS_SCALE_FACTOR >? maxsize) then
            fail c "bad-blk-length"%string false
          else if negb (IsCoinBase coinbase) then fail c "bad-cb-missing"%string false
          else
            let? ok := check_coinstake block coinbase in
            if negb ok then fail c "bad-cb-missing"%string false
            else
              let? contract := tx_HasContractOp coinbase in
              if contract : bool then fail c "coinbase-with-contract-op-not-allowed"%string false
              else
                let? prev := check_prev (cs_index cs) (cs_params cs) block c in
                match prev with
                | (Some (Some reason), c) => fail c reason false
                | (Some None, c) => Ret (false, state, false, cs, c)
                | (None, c) =>
                  if existsb IsCoinBase rest then fail c "bad-cb-multiple"%string false
                  else if existsb IsCoinStake (drop 1 rest) then fail c "bad-cb-multiple"%string false
                  else
                    let? r := check_transactions (vtx block) state in
                    if negb r.1 then Ret (false, r.2, false, cs, c)
                    else
                      let nSigOps := foldl (fun n tx => uint32 (n + GetLegacySigOpCount tx)) 0 (vtx block) in
                      if uint32 (nSigOps * WITNESS_SCALE_FACTOR) >? MaxBlockSigops UB_FORK_BLOCK_NUM (2 ^ 64 - 1) then fail c "bad-blk-sigops"%string false
                      else Ret (true, r.2, fCheckMerkleRoot, cs, c)
                end
        end
      end.
End CheckBlock.

(** ** Checks in the context of the previous block *)

Class Deployments := {
  DEPLOYMENT_CSV : BIP9Deployment;
  DEPLOYMENT_SEGWIT : BIP9Deployment;
}.

(** The caches of the two deployments. *)
Record VersionBitsCache := VBCache { csv_cache : ThresholdConditionCache; segwit_cache : ThresholdConditionCache }.

Definition VersionBitsCache_Clear : VersionBitsCache := VBCache ∅ ∅.

Definition is_commitment (s : list Z) : bool :=
  (Zlen s >=? 38) && (byte_at s 0 =? OP_RETURN) && (byte_at s 1 =? 0x24) && (byte_at s 2 =? 0xaa) && (byte_at s 3 =? 0x21) &&
  (byte_at s 4 =? 0xa9) && (byte_at s 5 =? 0xed).

(** The position of the last output that commits, -1 if there is none. *)
Fixpoint commitment_position (o : Z) (l : list CTxOut) (commitpos : Z) : Z :=
  match l with
  | [] => commitpos
  | out :: l => commitment_position (o + 1) l (if is_commitment (scriptPubKey out) then o else commitpos)
  end.

Definition GetWitnessCommitmentIndex (vtx : list CTransaction) : Z :=
  match vtx with [] => -1 | coinbase :: _ => commitment_position 0 (vout coinbase) (-1) end.

Definition LOCKTIME_MEDIAN_TIME_PAST : Z := Z.shiftl 1 1.

Section Contextual.
Context `{BR : BlockRules, HR : HeaderRules, D : Deployments}.

Definition csv_state (h : heap) (p : ConsensusParams) (prev : option ptr) (vb : VersionBitsCache) : outcome (ThresholdState * VersionBitsCache) :=
  let? r := VersionBitsState h prev p DEPLOYMENT_CSV (csv_cache vb) in Ret (r.1, VBCache r.2 (segwit_cache vb)).

Definition segwit_state (h : heap) (p : ConsensusParams) (prev : option ptr) (vb : VersionBitsCache) : outcome (ThresholdState * VersionBitsCache) :=
  let? r := VersionBitsState h prev p DEPLOYMENT_SEGWIT (segwit_cache vb) in Ret (r.1, VBCache (csv_cache vb) r.2).

Definition IsWitnessEnabled (h : heap) (p : ConsensusParams) (prev : option ptr) (vb : VersionBitsCache) : outcome (bool * VersionBitsCache) :=
  let? r := segwit_state h p prev vb in Ret (bool_decide (r.1 = THRESHOLD_ACTIVE), r.2).

(** A coinbase that commits and has no witness is given the nonce of zeros. *)
Definition UpdateUncommittedBlockStructures (h : heap) (p : ConsensusParams) (prev : option ptr) (vb : VersionBitsCache) (vtx : list CTransaction) :
    outcome (list CTransaction * VersionBitsCache) :=
  if GetWitnessCommitmentIndex vtx =? -1 then Ret (vtx, vb)
  else
    let? r := IsWitnessEnabled h p prev vb in
    match vtx with
    | coinbase :: rest =>
      if r.1 && negb (HasWitness coinbase) then
        match vin coinbase with
        | i :: l => Ret (Transaction (nVersion coinbase) (with_witness i [replicate 32 0] :: l) (vout coinbase) (nLockTime coinbase) :: rest, r.2)
        | [] => Undef
        end
      else Ret (vtx, r.2)
    | [] => Undef
    end.

(** The output script that commits to a root. *)
Definition commitment_script (hash : list Z) : list Z := [OP_RETURN; 0x24; 0xaa; 0x21; 0xa9; 0xed] ++ hash.

(** The commitment, the transactions and the caches. *)
Definition GenerateCoinbaseCommitment (h : heap) (p : ConsensusParams) (prev : option ptr) (vb : VersionBitsCache) (block : CBlock) :
    outcome (list Z * list CTransaction * VersionBitsCache) :=
  let? r :=
    if negb (nTimeout DEPLOYMENT_SEGWIT =? 0) && (GetWitnessCommitmentIndex (vtx block) =? -1) then
      let? root := BlockWitnessMerkleRoot block in
      let witnessroot := CHash256_Finalize (CHash256_Write (CHash256_Write CSHA256 root.1) (replicate 32 0)) in
      let commitment := commitment_script witnessroot in
      match vtx block with
      | coinbase :: rest =>
        Ret (commitment, Transaction (nVersion coinbase) (vin coinbase) (vout coinbase ++ [TxOut 0 commitment]) (nLockTime coinbase) :: rest)
      | [] => Undef
      end
    else Ret ([], vtx block) in
  let? u := UpdateUncommittedBlockStructures h p prev vb r.2 in
  Ret (r.1, u.1, u.2).

Definition IsUAHFenabled (p : ConsensusParams) (height : Z) : bool := height >=? Pow.UBCHeight p.

Definition ContextualCheckTransaction (p : ConsensusParams) (tx : CTransaction) (state : CValidationState) (height nLockTimeCutoff : Z) : bool * CValidationState :=
  if negb (IsFinalTx tx height nLockTimeCutoff) then (false, DoS state 10 REJECT_INVALID "bad-txns-nonfinal" false)
  else if IsUAHFenabled p height && (height <=? antiReplayOpReturnSunsetHeight) && existsb (fun o => IsCommitment (scriptPubKey o) antiReplayOpReturnCommitment) (vout tx) then
    (false, DoS state 10 REJECT_INVALID "bad-txn-replay" false)
  else (true, state).

Fixpoint contextual_transactions (p : ConsensusParams) (l : list CTransaction) (state : CValidationState) (height nLockTimeCutoff : Z) : bool * CValidationState :=
  match l with
  | [] => (true, state)
  | tx :: l =>
    let r := ContextualCheckTransaction p tx state height nLockTimeCutoff in
    if r.1 then contextual_transactions p l r.2 height nLockTimeCutoff else (false, DoS r.2 10 REJECT_INVALID "bad-txns-nonfinal" false)
  end.

(** The coinbase starts with the height. *)
Definition coinbase_height (vtx : list CTransaction) (height : Z) : outcome bool :=
  let expect := push_int64 [] height in
  let? coinbase := index vtx 0 in
  let? i := index (vin coinbase) 0 in
  Ret (negb ((Zlen (scriptSig i) <? Zlen expect) || negb (bool_decide (take (length expect) (scriptSig i) = expect)))).

Definition ContextualCheckBlock (h : heap) (p : ConsensusParams) (vb : VersionBitsCache) (block : CBlock) (state : CValidationState) (pindexPrev : option ptr) :
    outcome (bool * CValidationState * VersionBitsCache) :=
  let? height := match pindexPrev with
                 | None => Ret 0
                 | Some _ => let? prev := deref h pindexPrev in int_add (nHeight prev) 1
                 end in
  let? csv := csv_state h p pindexPrev vb in
  let vb := csv.2 in
  let? nLockTimeCutoff := if bool_decide (csv.1 = THRESHOLD_ACTIVE) then
                            match pindexPrev with Some i => GetMedianTimePast h i | None => Undef end
                          else Ret (hdr_GetBlockTime (block_header block)) in
  let r := contextual_transactions p (vtx block) state height nLockTimeCutoff in
  let state := r.2 in
  let fail reason corruption vb := Ret (false, DoS state 100 REJECT_INVALID reason corruption, vb) in
  if negb r.1 then Ret (false, state, vb)
  else
    let? height_ok := if height >=? BIP34Height then coinbase_height (vtx block) height else Ret true in
    if negb height_ok then fail "bad-cb-height"%string false vb
    else
      let? segwit := segwit_state h p pindexPrev vb in
      let vb := segwit.2 in
      let fHaveWitness := bool_decide (segwit.1 = THRESHOLD_ACTIVE) && negb (GetWitnessCommitmentIndex (vtx block) =? -1) in
      if negb fHaveWitness && existsb HasWitness (vtx block) then fail "unexpected-witness"%string true vb
      else if GetBlockWeight block >? MaxBlockSize UB_FORK_BLOCK_NUM (2 ^ 64 - 1) then fail "bad-blk-weight"%string false vb
      else Ret (true, state, vb).
End Contextual.

(** ** The subsidy *)

(** A non-negative product rounded to the 53 significant bits of a [double], ties to
    even. *)
Definition round53 (n : Z) : Z :=
  let s := Z.log2 n + 1 - 53 in
  if s <=? 0 then n
  else
    let q := n / 2 ^ s in
    let r := n mod 2 ^ s in
    (if 2 * r <? 2 ^ s then q else if 2 * r >? 2 ^ s then q + 1 else if Z.even q then q else q + 1) * 2 ^ s.

(** [x * d] converted back to [int64_t], for the [double] [d] of value [m / 2 ^ e] and
    an integer [x] that a [double] represents. *)
Definition times_double (x m e : Z) : Z := round53 (x * m) / 2 ^ e.

(** The mantissa of the literals [0.8] and [0.4]. *)
Definition mantissa_8 : Z := 7205759403792794.

Definition halved (halvings : Z) : Z := if halvings >=? 64 then 0 else Z.shiftr (50 * COIN) halvings.

Definition later_halvings (height ForkV1Height nSubsidyHalvingInterval : Z) : Z :=
  let halfPeriodLeft := ForkV1Height - 1 - nSubsidyHalvingInterval * 2 in
  let PeriodEndHeight := ForkV1Height - 1 + (nSubsidyHalvingInterval - halfPeriodLeft) * 10 in
  if height <=? PeriodEndHeight then 2 else 3 + Z.quot (height - PeriodEndHeight - 1) (nSubsidyHalvingInterval * 10).

Definition GetBlockSubsidy (height : Z) (p : ConsensusParams) (nSubsidyHalvingInterval : Z) : Z :=
  if height <? ForkV1Height p then halved (Z.quot height nSubsidyHalvingInterval)
  else
    let halvings := later_halvings height (ForkV1Height p) nSubsidyHalvingInterval in
    if halvings >=? 64 then 0
    else if (height >=? ForkV1Height p) && (height <? ForkV4Height p) then times_double (Z.quot (halved halvings) 10) mantissa_8 53
    else times_double (Z.quot (halved halvings) 10) mantissa_8 54.
