(* ===== verification/BlockCheckProps.v ===== *)
(** * What an accepted block satisfies

    [CheckBlock] of [BlockCheck]: its signature operations counted without wrap-around,
    the facts that hold of every block it accepts, and the stake block on which it reads
    past the end of the transactions. *)

From Stdlib Require Import String.
From stdpp Require Import gmap.
From S2P Require Import Prelude Common Serialize Opcodes Script Hash Transaction SigEncoding Interpreter ContractScript SigHash Standard.
From S2P Require Import ArithUint256 Block Chain Pow PowProps Merkle MerkleBlock MerkleBlockProps Coins CoinsProps CoinsDB TxVerify TxVerifyProps.
From S2P Require Import Stake StakeProps VersionBits AcceptHeader AcceptHeaderProps BlockIndexInv BlockCheck.

Open Scope Z_scope.
Open Scope outcome_scope.

(** ** Signature operations *)

Fixpoint sumZ {A} (f : A -> Z) (l : list A) : Z := match l with [] => 0 | x :: l => f x + sumZ f l end.

(** The legacy count of a script, of a transaction and of a block, as plain sums. *)
Definition script_sigops (s : list Z) : Z := sigops false OP_INVALIDOPCODE (instrs (length s) s).

Definition tx_sigops (tx : CTransaction) : Z := sumZ (fun i => script_sigops (scriptSig i)) (vin tx) + sumZ (fun o => script_sigops (scriptPubKey o)) (vout tx).

Definition block_sigops (l : list CTransaction) : Z := sumZ tx_sigops l.

Lemma sumZ_bound {A} (f g : A -> Z) k l : (forall x, 0 <= f x <= k * g x) -> 0 <= sumZ f l <= k * sumZ g l.
Proof. intros H. induction l as [| x l IH]; cbn [sumZ]; [lia |]. specialize (H x). lia. Qed.

Lemma foldl_uint32 {A} (f g : A -> Z) l : (forall x, f x = uint32 (g x)) -> forall n, foldl (fun n x => uint32 (n + f x)) (uint32 n) l = uint32 (n + sumZ g l).
Proof.
  intros H. induction l as [| x l IH]; intros n; cbn [foldl sumZ]; [by rewrite Z.add_0_r |]. rewrite uint32_add_l, H, Z.add_comm, uint32_add_l, IH. f_equal. lia.
Qed.

Lemma GetSigOpCount_exact s : GetSigOpCount s false = uint32 (script_sigops s).
Proof. unfold GetSigOpCount. by rewrite GetSigOpCount_loop_sum. Qed.

Lemma GetLegacySigOpCount_exact tx : GetLegacySigOpCount tx = uint32 (tx_sigops tx).
Proof.
  unfold GetLegacySigOpCount. change 0 with (uint32 0). rewrite (foldl_uint32 _ (fun i => script_sigops (scriptSig i))) by (intros; apply GetSigOpCount_exact).
  by rewrite (foldl_uint32 _ (fun o => script_sigops (scriptPubKey o))) by (intros; apply GetSigOpCount_exact).
Qed.

Lemma script_sigops_bound s : 0 <= script_sigops s <= 20 * Zlen s.
Proof.
  unfold script_sigops. pose proof (sigops_bounds OP_INVALIDOPCODE (instrs (length s) s)). pose proof (length_instrs (length s) s). unfold Zlen in *. lia.
Qed.

(** The scripts are part of the serialization. *)
Lemma Zlen_Serialize_vector {A} (f : A -> list Z) l : sumZ (fun x => Zlen (f x)) l <= Zlen (Serialize_vector f l).
Proof.
  unfold Serialize_vector. rewrite Zlen_app. assert (H : Zlen (concat (f <$> l)) = sumZ (fun x => Zlen (f x)) l); [| unfold Zlen in *; lia].
  induction l as [| x l IH]; [done |]. change (concat (f <$> x :: l)) with (f x ++ concat (f <$> l)). rewrite Zlen_app, IH. done.
Qed.

Lemma Zlen_Serialize_bytes s : Zlen s <= Zlen (Serialize_bytes s).
Proof. unfold Serialize_bytes. rewrite Zlen_app. unfold Zlen. lia. Qed.

Lemma tx_sigops_bound nVer tx : 0 <= tx_sigops tx <= 20 * Zlen (SerializeTransaction nVer tx).
Proof.
  assert (Hin : 0 <= sumZ (fun i => script_sigops (scriptSig i)) (vin tx) <= 20 * sumZ (fun i => Zlen (Serialize_CTxIn i)) (vin tx)).
  { apply sumZ_bound. intros i. pose proof (script_sigops_bound (scriptSig i)). pose proof (Zlen_Serialize_bytes (scriptSig i)). unfold Serialize_CTxIn. rewrite !Zlen_app. unfold Zlen in *. lia. }
  assert (Hout : 0 <= sumZ (fun o => script_sigops (scriptPubKey o)) (vout tx) <= 20 * sumZ (fun o => Zlen (Serialize_CTxOut o)) (vout tx)).
  { apply sumZ_bound. intros o. pose proof (script_sigops_bound (scriptPubKey o)). pose proof (Zlen_Serialize_bytes (scriptPubKey o)). unfold Serialize_CTxOut. rewrite !Zlen_app. unfold Zlen in *. lia. }
  pose proof (Zlen_Serialize_vector Serialize_CTxIn (vin tx)). pose proof (Zlen_Serialize_vector Serialize_CTxOut (vout tx)).
  unfold tx_sigops, SerializeTransaction. rewrite !Zlen_app. unfold Zlen in *. lia.
Qed.

Lemma block_sigops_bound nVer block : 0 <= block_sigops (vtx block) <= 20 * Zlen (Serialize_CBlock nVer block).
Proof.
  pose proof (sumZ_bound tx_sigops (fun tx => Zlen (SerializeTransaction nVer tx)) 20 (vtx block) (tx_sigops_bound nVer)).
  pose proof (Zlen_Serialize_vector (SerializeTransaction nVer) (vtx block)). unfold block_sigops, Serialize_CBlock. rewrite Zlen_app. unfold Zlen in *. lia.
Qed.

Lemma MaxBlockSize_bound fork n : 0 < MaxBlockSize fork n <= 32000000.
Proof. unfold MaxBlockSize. destruct (_ <? _); lia. Qed.

(** In a block of an accepted size the count that the code computes is the sum. *)
Lemma sigops_exact block fork n : Zlen (Serialize_CBlock NO_WITNESS block) * WITNESS_SCALE_FACTOR <= MaxBlockSize fork n ->
  uint32 (foldl (fun n tx => uint32 (n + GetLegacySigOpCount tx)) 0 (vtx block) * WITNESS_SCALE_FACTOR) = block_sigops (vtx block) * WITNESS_SCALE_FACTOR.
Proof.
  intros Hs. pose proof (MaxBlockSize_bound fork n). pose proof (block_sigops_bound NO_WITNESS block). change 0 with (uint32 0) at 1.
  rewrite (foldl_uint32 _ tx_sigops) by (intros; apply GetLegacySigOpCount_exact). unfold WITNESS_SCALE_FACTOR in *. fold (block_sigops (vtx block)).
  rewrite (uint32_id (0 + block_sigops (vtx block))) by lia. rewrite uint32_id; lia.
Qed.

(** ** The checks of a block *)

Section Sound.
Context {S : Type} `{V : CCoinsView S, U : CoinUsage, Env : NodeEnv, Rules : TxRules, BR : BlockRules, HR : HeaderRules}.

Lemma check_transactions_sound l : forall state state', check_transactions l state = Ret (true, state') -> state' = state /\ Forall (fun tx => valid_transaction tx true) l.
Proof.
  induction l as [| tx l IH]; intros state state' H; cbn [check_transactions] in H; [by apply Ret_inj, pair_equal_spec in H as [_ <-] |].
  destruct (CheckTransaction_run tx state true) as (b & st & E & Hb & Hst). rewrite E in H. cbn [obind fst snd] in H. destruct b; [| done]. subst st.
  destruct (IH _ _ H) as [-> Hl]. split; [done |]. constructor; [by apply Hb | done].
Qed.

(** The coinbase and the coinstake of a stake block pay the same script. *)
Definition coinstake_pays (block : CBlock) (coinbase : CTransaction) : Prop :=
  exists stake o0 o1, vtx block !! 1%nat = Some stake /\ IsCoinStake stake = true /\ vout coinbase !! 0%nat = Some o0 /\ vout stake !! 1%nat = Some o1 /\
    scriptPubKey o0 = scriptPubKey o1.

Lemma index_Ret {A} (l : list A) i x : 0 <= i -> index l i = Ret x -> l !! Z.to_nat i = Some x.
Proof. unfold index. intros Hi. rewrite (proj2 (Z.ltb_ge _ _)) by lia. destruct (l !! Z.to_nat i); [by intros [= ->] | done]. Qed.

Lemma check_coinstake_sound block coinbase : check_coinstake block coinbase = Ret true -> hdr_IsProofOfStake (block_header block) = true -> coinstake_pays block coinbase.
Proof.
  unfold check_coinstake. intros H Hp. rewrite Hp in H. destruct (index (vtx block) 1) as [stake | | |] eqn:E1; try done. cbn [obind] in H.
  destruct (IsCoinStake stake) eqn:Es; [| done]. cbn [negb] in H. destruct (index (vout coinbase) 0) as [o0 | | |] eqn:E2; try done. cbn [obind] in H.
  destruct (index (vout stake) 1) as [o1 | | |] eqn:E3; try done. cbn [obind] in H. apply Ret_inj, bool_decide_eq_true in H.
  apply index_Ret in E1, E2, E3; [| lia ..]. by exists stake, o0, o1.
Qed.

Lemma deref_lookup h p n : deref h (Some p) = Ret n -> h !! p = Some n.
Proof. cbn [deref]. destruct (h !! p); [by intros [= ->] | done]. Qed.

(** What the parent of the block requires of it: from the fourth fork on a stake block
    passes [CheckStake], and the coinbases of the initial period pay the foundation. *)
Definition parent_rules (cs : ChainState) (block : CBlock) (coinbase : CTransaction) (c c' : CCoinsViewCache S) : Prop :=
  exists i n, mapBlockIndex (cs_index cs) !! hdr_hashPrevBlock (block_header block) = Some i /\ blocks (cs_index cs) !! i = Some n /\
    (hdr_IsProofOfStake (block_header block) = true -> ForkV4Height (cs_params cs) < nHeight n -> CheckStake (cs_index cs) block c = Ret (true, c')) /\
    (Pow.UBCHeight (cs_params cs) - 1 <= nHeight n < Pow.UBCHeight (cs_params cs) + UBCInitBlockCount (cs_params cs) - 1 -> check_foundation coinbase = None).

Lemma check_prev_sound cs block coinbase rest c c' : vtx block = coinbase :: rest -> check_prev (cs_index cs) (cs_params cs) block c = Ret (None, c') ->
  hdr_hashPrevBlock (block_header block) <> replicate 32 0 -> parent_rules cs block coinbase c c'.
Proof.
  intros Hv H Hne. unfold check_prev in H. cbv zeta in H. rewrite bool_decide_false in H by done. unfold parent_rules.
  destruct (mapBlockIndex (cs_index cs) !! _) as [i |]; [| done]. destruct (deref (blocks (cs_index cs)) (Some i)) as [n | | |] eqn:En; try done.
  apply deref_lookup in En. cbn [obind] in H. exists i, n. split; [done |]. split; [done |].
  match goal with H : obind ?k _ = _ |- _ => destruct k as [[] | | |] end; try done. cbn [obind negb] in H.
  assert (Hix : index (vtx block) 0 = Ret coinbase) by (by rewrite Hv). rewrite Hix in H. cbn [obind] in H.
  match goal with H : obind (if ?b then CheckStake _ _ _ else _) _ = _ |- _ => destruct b eqn:Es end.
  - destruct (CheckStake (cs_index cs) block c) as [[[] c1] | | |]; try done. cbn [obind negb fst snd] in H. apply andb_prop in Es as [Ep Eh].
    assert (c1 = c' /\ (Pow.UBCHeight (cs_params cs) - 1 <= nHeight n < Pow.UBCHeight (cs_params cs) + UBCInitBlockCount (cs_params cs) - 1 -> check_foundation coinbase = None)) as [-> Hf]; [| done].
    destruct (_ && _) eqn:Ef in H; [destruct (check_foundation coinbase); [done |] |]; apply Ret_inj, pair_equal_spec in H as [_ ->]; (split; [done |]); intros Hh; [done |].
    apply andb_false_iff in Ef. bool_to_prop. lia.
  - cbn [obind negb fst snd] in H. split; [intros Hp Hh; rewrite Hp in Es; cbn [andb] in Es; bool_to_prop; lia |].
    intros Hh. rewrite (proj2 (Z.geb_le _ _)), (proj2 (Z.ltb_lt _ _)) in H by lia. cbn [andb] in H. by destruct (check_foundation coinbase).
Qed.
(** The facts about an accepted block: [cs] is the chain state after the header check. *)
Record accepted_block (cs : ChainState) (block : CBlock) (c c' : CCoinsViewCache S) (coinbase : CTransaction) (rest : list CTransaction) : Prop := {
  ab_vtx : vtx block = coinbase :: rest;
  ab_coinbase : IsCoinBase coinbase = true;
  ab_single : Forall (fun tx => IsCoinBase tx = false) rest;
  ab_coinstake : Forall (fun tx => IsCoinStake tx = false) (drop 1 rest);
  ab_stake : hdr_IsProofOfStake (block_header block) = true -> coinstake_pays block coinbase;
  ab_contract : tx_HasContractOp coinbase = Ret false;
  ab_parent : hdr_hashPrevBlock (block_header block) <> replicate 32 0 -> parent_rules cs block coinbase c c';
  ab_transactions : Forall (fun tx => valid_transaction tx true) (vtx block);
  ab_size : Zlen (Serialize_CBlock NO_WITNESS block) * WITNESS_SCALE_FACTOR <= MaxBlockSize UB_FORK_BLOCK_NUM (uint64 (chain_height + 1));
  ab_sigops : block_sigops (vtx block) * WITNESS_SCALE_FACTOR <= MaxBlockSigops UB_FORK_BLOCK_NUM (2 ^ 64 - 1)
}.

Lemma existsb_Forall {A} (f : A -> bool) l : existsb f l = false -> Forall (fun x => f x = false) l.
Proof. induction l as [| x l IH]; cbn [existsb]; [done |]. intros [H1 H2]%orb_false_iff. constructor; auto. Qed.

Lemma CheckBlock_inv cs c block state fCheckPOW fCheckMerkleRoot state' checked cs' c' :
  CheckBlock cs c block false state fCheckPOW fCheckMerkleRoot = Ret (true, state', checked, cs', c') ->
  checked = fCheckMerkleRoot /\ CheckBlockHeader cs (block_header block) state fCheckPOW = Ret (true, state', cs') /\
  (fCheckMerkleRoot = true -> BlockMerkleRoot block = Ret (hdr_hashMerkleRoot (block_header block), false)) /\
  exists coinbase rest, accepted_block cs' block c c' coinbase rest.
Proof.
  unfold CheckBlock. destruct (CheckBlockHeader cs _ _ _) as [[[[] st] cs1] | | |]; try done. cbn [obind negb]. cbv zeta.
  destruct (if fCheckMerkleRoot then _ else _) as [[bad |] | | |] eqn:Em; try done. cbn [obind].
  destruct (vtx block) as [| coinbase rest] eqn:Ev; [done |]. destruct (_ || _) eqn:Es; [done |]. apply orb_false_iff in Es as [_ Es].
  destruct (IsCoinBase coinbase) eqn:Ecb; [| done]. cbn [negb]. destruct (check_coinstake block coinbase) as [[] | | |] eqn:Ecs; try done. cbn [obind negb].
  destruct (tx_HasContractOp coinbase) as [[] | | |] eqn:Eco; try done. cbn [obind].
  destruct (check_prev _ _ block c) as [[[[reason |] |] c1] | | |] eqn:Ep; try done. cbn [obind].
  destruct (existsb IsCoinBase rest) eqn:E1; [done |]. destruct (existsb IsCoinStake (drop 1 rest)) eqn:E2; [done |].
  destruct (check_transactions _ st) as [[[] st1] | | |] eqn:Et; try done. cbn [obind negb fst snd]. destruct (uint32 _ >? _) eqn:Eg; [done |].
  intros H. apply Ret_inj in H. repeat (apply pair_equal_spec in H as [H ?]; subst). destruct (check_transactions_sound _ _ _ Et) as [-> Htx].
  split; [done |]. split; [done |]. split.
  { intros ->. destruct (BlockMerkleRoot block) as [[root mutated] | | |]; try done. cbn [obind fst snd] in Em. case_bool_decide as Hr; [| done]. cbn [negb] in Em.
    destruct mutated; [done |]. by rewrite Hr. }
  exists coinbase, rest. bool_to_prop. split; try done; rewrite ?Ev; try done; try (by apply existsb_Forall); [by apply check_coinstake_sound | | ].
  - intros Hne. by apply (check_prev_sound cs' block coinbase rest).
  - rewrite <- Ev in *. erewrite sigops_exact in Eg by done. lia.
Qed.
End Sound.

(** ** Theorems *)

(** C6. A block that [CheckBlock] accepts has a header that [CheckBlockHeader] accepts and,
    unless the caller turns it off, the Merkle root of its transactions with no duplicated
    subtree. Its first transaction is its only coinbase and runs no contract; only the
    second may be a coinstake, and in a stake block it is one and pays the script of the
    coinbase. Every transaction passes [CheckTransaction], the size is within the limit
    and so are the signature operations, whose 32-bit count never wraps. The rules that
    depend on the parent hold. *)
Theorem CheckBlock_sound {S : Type} `{V : CCoinsView S, U : CoinUsage, Env : NodeEnv, Rules : TxRules, BR : BlockRules, HR : HeaderRules}
    cs (c : CCoinsViewCache S) block state fCheckPOW fCheckMerkleRoot state' checked cs' c' :
  CheckBlock cs c block false state fCheckPOW fCheckMerkleRoot = Ret (true, state', checked, cs', c') ->
  checked = fCheckMerkleRoot /\ CheckBlockHeader cs (block_header block) state fCheckPOW = Ret (true, state', cs') /\
  (fCheckMerkleRoot = true -> BlockMerkleRoot block = Ret (hdr_hashMerkleRoot (block_header block), false)) /\
  exists coinbase rest, accepted_block cs' block c c' coinbase rest.
Proof. apply CheckBlock_inv. Qed.

Lemma single_root x : ComputeMerkleRoot [x] = Ret (x, false).
Proof. reflexivity. Qed.

(** A coinbase alone in a block without a parent. *)
Definition first_coinbase : CTransaction := Transaction 1 [TxIn (OutPoint uint256_null (uint32 (-1))) [81; 81] SEQUENCE_FINAL []] [TxOut (50 * COIN) [81]] 0.

Definition single_block (nVersion : Z) (root : list Z) : CBlock :=
  Block (BlockHeader nVersion (replicate 32 0) root 1231006505 0x1d00ffff 5) [first_coinbase].

Lemma single_block_size nVersion root : Zlen root = 32 -> Zlen (Serialize_CBlock NO_WITNESS (single_block nVersion root)) = 144.
Proof.
  intros H. unfold Serialize_CBlock, Serialize_CBlockHeader, single_block. cbn [block_header hdr_nVersion hdr_hashPrevBlock hdr_hashMerkleRoot hdr_nTime hdr_nBits hdr_nNonce vtx].
  rewrite !Zlen_app, H. reflexivity.
Qed.

Lemma ComputeHash_length tx : Zlen (ComputeHash tx) = 32.
Proof. unfold ComputeHash, SerializeHash, GetHash, CHash256_Finalize. exact (proj2 (sha256_Finalize_wf _)). Qed.

Lemma first_coinbase_valid : let N := sample_node in let R := sample_rules in valid_transaction first_coinbase true.
Proof.
  intros N R. constructor.
  - discriminate.
  - discriminate.
  - vm_compute. discriminate.
  - constructor; [| constructor]. split; [vm_compute; split; discriminate | discriminate].
  - vm_compute. discriminate.
  - intros _. apply NoDup_singleton.
  - intros _. exists (TxIn (OutPoint uint256_null (uint32 (-1))) [81; 81] SEQUENCE_FINAL []). split; [reflexivity |]. vm_compute. split; discriminate.
  - discriminate.
Qed.

Lemma single_block_accepted cs (c : CCoinsViewCache CCoinsViewDB) state root : ComputeHash first_coinbase = root -> Zlen root = 32 ->
  let H := sample_db_params in let U := sample_usage in let N := sample_node in let R := sample_rules in let B := sample_block_rules in let HR := sample_header_rules in
  CheckBlock cs c (single_block 1 root) false state false true = Ret (true, state, true, cs, c).
Proof.
  intros Hr Hl H U N R B HR. pose proof (single_block_size 1 root Hl) as Hs. unfold CheckBlock, CheckBlockHeader. cbv iota. cbn [obind negb]. cbv zeta.
  unfold BlockMerkleRoot. change (map ComputeHash (vtx (single_block 1 root))) with [ComputeHash first_coinbase]. rewrite Hr, single_root, Hs.
  cbn [obind fst snd]. change (hdr_hashMerkleRoot (block_header (single_block 1 root))) with root. rewrite bool_decide_true by done. cbn [negb obind]. clear Hs Hr.
  change (vtx (single_block 1 root)) with [first_coinbase].
  destruct (CheckTransaction_run first_coinbase state true) as (b & st & E & Hb & Hst). cbn [check_transactions]. rewrite E.
  pose proof (proj2 Hb first_coinbase_valid) as Hv. subst b st. vm_compute. reflexivity.
Qed.

Lemma CheckBlock_sound_witness :
  let H := sample_db_params in let U := sample_usage in let N := sample_node in let R := sample_rules in let B := sample_block_rules in let HR := sample_header_rules in
  exists (cs : ChainState) (c : CCoinsViewCache CCoinsViewDB), let block := single_block 1 (ComputeHash first_coinbase) in
    CheckBlock cs c block false CValidationState_new false true = Ret (true, CValidationState_new, true, cs, c) /\
    exists coinbase rest, accepted_block cs block c c coinbase rest.
Proof.
  intros H U N R B HR. exists (MkChainState empty_index main_params ∅), stake_cache. cbv zeta.
  pose proof (single_block_accepted (MkChainState empty_index main_params ∅) stake_cache CValidationState_new _ eq_refl (ComputeHash_length first_coinbase)) as E.
  split; [exact E |]. exact (proj2 (proj2 (proj2 (CheckBlock_sound _ _ _ _ _ _ _ _ _ _ E)))).
Defined.

(** C36. On a stake block whose coinbase is its only transaction, and that is in order
    otherwise, [CheckBlock] reads past the end of the vector of transactions: the code
    tests that there is a first transaction, not that there is a second. *)
Theorem CheckBlock_lone_coinbase_undefined {S : Type} `{V : CCoinsView S, U : CoinUsage, Env : NodeEnv, Rules : TxRules, BR : BlockRules, HR : HeaderRules}
    cs (c : CCoinsViewCache S) block coinbase state fCheckPOW fCheckMerkleRoot state' cs' :
  CheckBlockHeader cs (block_header block) state fCheckPOW = Ret (true, state', cs') ->
  (fCheckMerkleRoot = true -> BlockMerkleRoot block = Ret (hdr_hashMerkleRoot (block_header block), false)) ->
  hdr_IsProofOfStake (block_header block) = true -> vtx block = [coinbase] -> IsCoinBase coinbase = true ->
  Zlen (Serialize_CBlock NO_WITNESS block) * WITNESS_SCALE_FACTOR <= MaxBlockSize UB_FORK_BLOCK_NUM (uint64 (chain_height + 1)) ->
  CheckBlock cs c block false state fCheckPOW fCheckMerkleRoot = Undef.
Proof.
  intros Hh Hm Hp Hv Hc Hs. unfold CheckBlock. rewrite Hh. cbn [obind negb]. cbv zeta.
  assert (Hok : (if fCheckMerkleRoot then let? root := BlockMerkleRoot block in
    if negb (bool_decide (hdr_hashMerkleRoot (block_header block) = root.1)) then Ret (Some "bad-txnmrklroot"%string)
    else if root.2 then Ret (Some "bad-txns-duplicate"%string) else Ret None else Ret None) = Ret None).
  { destruct fCheckMerkleRoot; [| done]. rewrite Hm by done. cbn [obind fst snd]. by rewrite bool_decide_true. }
  rewrite Hok. cbn [obind]. rewrite Hv. rewrite Z.gtb_ltb, (Z.gtb_ltb (Zlen (Serialize_CBlock _ _) * _)).
  rewrite (proj2 (Z.ltb_ge _ (Zlen (Serialize_CBlock _ _) * _))) by done. rewrite (proj2 (Z.ltb_ge _ (Zlen [coinbase] * _))).
  - cbn [orb]. rewrite Hc. cbn [negb]. unfold check_coinstake. by rewrite Hp, Hv.
  - unfold MaxBlockSize. destruct (_ <? _); vm_compute; discriminate.
Qed.

Lemma CheckBlock_lone_coinbase_undefined_witness :
  let H := sample_db_params in let U := sample_usage in let N := sample_node in let R := sample_rules in let B := sample_block_rules in let HR := sample_header_rules in
  exists (cs : ChainState) (c : CCoinsViewCache CCoinsViewDB) block, length (vtx block) = 1%nat /\ CheckBlock cs c block false CValidationState_new false true = Undef.
Proof.
  intros H U N R B HR. exists (MkChainState empty_index main_params ∅), stake_cache, (single_block 0x21000000 (ComputeHash first_coinbase)). split; [reflexivity |].
  apply (CheckBlock_lone_coinbase_undefined _ _ _ first_coinbase _ _ _ CValidationState_new (MkChainState empty_index main_params ∅)).
  - reflexivity.
  - intros _. unfold BlockMerkleRoot. cbn [single_block vtx map block_header hdr_hashMerkleRoot]. apply single_root.
  - reflexivity.
  - reflexivity.
  - reflexivity.
  - rewrite (single_block_size _ _ (ComputeHash_length first_coinbase)). vm_compute. discriminate.
Defined.
