(* ===== verification/Subsidy.v ===== *)
(** * The money supply

    [GetBlockSubsidy] of [BlockCheck] on the main network: its floating-point product is
    exact, and the sum of the subsidies of any number of blocks stays below the limit of
    amounts. *)

From Stdlib Require Import ZArith Lia.
From stdpp Require Import gmap.
From S2P Require Import Prelude Transaction Chain Pow BlockCheck.

Open Scope Z_scope.

(** ** The products with 0.8 and 0.4 *)

(** Rounding goes to one of the neighbouring multiples, so it does not cross one. *)
Lemma round53_bounds n a b k : 0 <= n -> 0 <= k -> Z.log2 n + 1 - 53 <= k -> a * 2 ^ k <= n -> n + 2 ^ k <= b * 2 ^ k ->
  a * 2 ^ k <= round53 n < b * 2 ^ k \/ n = round53 n.
Proof.
  intros Hn Hk Hlog Ha Hb. unfold round53. set (s := Z.log2 n + 1 - 53) in *. destruct (s <=? 0) eqn:Es; [by right |]. bool_to_prop. left.
  pose proof (Z.pow_pos_nonneg 2 s ltac:(lia) ltac:(lia)) as Hs. pose proof (Z.div_mod n (2 ^ s) ltac:(lia)) as Hdm. pose proof (Z.mod_pos_bound n (2 ^ s) Hs) as Hr.
  assert (Ek : 2 ^ k = 2 ^ (k - s) * 2 ^ s) by (rewrite <- Z.pow_add_r by lia; f_equal; lia).
  pose proof (Z.pow_pos_nonneg 2 (k - s) ltac:(lia) ltac:(lia)) as Hks. set (q := n / 2 ^ s) in *. set (r := n mod 2 ^ s) in *. rewrite Ek in *. set (u := 2 ^ s) in *. set (w := 2 ^ (k - s)) in *.
  assert (Hq : a * w <= q) by nia. assert (Hup : q + 1 < b * w \/ q + 1 = b * w /\ r = 0) by nia.
  destruct (2 * r <? u) eqn:E1; [bool_to_prop; nia |]. bool_to_prop.
  assert (q + 1 < b * w) by (destruct Hup as [? | [? ?]]; lia). repeat case_match; nia.
Qed.

Lemma log2_product x : 0 <= x < 2 ^ 29 -> Z.log2 (x * mantissa_8) + 1 - 53 <= 29.
Proof.
  intros Hx. assert (Z.log2 (x * mantissa_8) <= Z.log2 (2 ^ 82 - 1)); [| change (Z.log2 (2 ^ 82 - 1)) with 81 in *; lia].
  apply Z.log2_le_mono. unfold mantissa_8. lia.
Qed.

(** Below [2 ^ 29], which every subsidy is, the results are the integer parts. *)
Lemma times_08 x : 0 <= x < 2 ^ 29 -> times_double x mantissa_8 53 = 4 * x / 5.
Proof.
  intros Hx. unfold times_double. pose proof (log2_product x Hx) as Hlog.
  pose proof (Z.div_mod (4 * x) 5 ltac:(lia)) as Hdm. pose proof (Z.mod_pos_bound (4 * x) 5 ltac:(lia)) as Hr. set (q := 4 * x / 5) in *. set (r := (4 * x) mod 5) in *.
  assert (E : 5 * (x * mantissa_8) = 2 ^ 53 * (4 * x) + 2 * x) by (unfold mantissa_8; lia).
  destruct (round53_bounds (x * mantissa_8) (q * 2 ^ 24) ((q + 1) * 2 ^ 24) 29) as [H | H]; try (unfold mantissa_8; lia); try lia.
  - symmetry. apply (Z.div_unique_pos _ _ _ (round53 (x * mantissa_8) - 2 ^ 53 * q)); lia.
  - rewrite <- H. symmetry. apply (Z.div_unique_pos _ _ _ (x * mantissa_8 - 2 ^ 53 * q)); lia.
Qed.

Lemma times_04 x : 0 <= x < 2 ^ 29 -> times_double x mantissa_8 54 = 2 * x / 5.
Proof.
  intros Hx. unfold times_double. pose proof (log2_product x Hx) as Hlog.
  pose proof (Z.div_mod (2 * x) 5 ltac:(lia)) as Hdm. pose proof (Z.mod_pos_bound (2 * x) 5 ltac:(lia)) as Hr. set (q := 2 * x / 5) in *. set (r := (2 * x) mod 5) in *.
  assert (E : 5 * (x * mantissa_8) = 2 ^ 54 * (2 * x) + 2 * x) by (unfold mantissa_8; lia).
  destruct (round53_bounds (x * mantissa_8) (q * 2 ^ 25) ((q + 1) * 2 ^ 25) 29) as [H | H]; try (unfold mantissa_8; lia); try lia.
  - symmetry. apply (Z.div_unique_pos _ _ _ (round53 (x * mantissa_8) - 2 ^ 54 * q)); lia.
  - rewrite <- H. symmetry. apply (Z.div_unique_pos _ _ _ (x * mantissa_8 - 2 ^ 54 * q)); lia.
Qed.

(** ** The eras of the main network *)

Definition subsidy (height : Z) : Z := GetBlockSubsidy height main_params 210000.

(** The last height of the period of the second halving, and the length of later periods. *)
Definition period_end : Z := 1742409.

Definition later_period : Z := 2100000.

Lemma subsidy_early height : 0 <= height < 506400 -> subsidy height = halved (height / 210000).
Proof.
  intros Hh. unfold subsidy, GetBlockSubsidy. cbn [ForkV1Height main_params]. rewrite (proj2 (Z.ltb_lt _ _)) by lia. by rewrite Z.quot_div_nonneg by lia.
Qed.

Lemma later_halvings_main height : 506400 <= height ->
  later_halvings height 506400 210000 = if height <=? period_end then 2 else 3 + (height - period_end - 1) / later_period.
Proof.
  intros Hh. unfold later_halvings, period_end, later_period. change (506400 - 1 + (210000 - (506400 - 1 - 210000 * 2)) * 10) with 1742409.
  destruct (height <=? 1742409) eqn:E; [done |]. bool_to_prop. by rewrite Z.quot_div_nonneg by lia.
Qed.

Lemma halved_range k : 2 <= k -> 0 <= Z.quot (halved k) 10 < 2 ^ 29.
Proof.
  intros Hk. assert (Hh : 0 <= halved k <= 50 * COIN).
  { unfold halved, COIN. destruct (_ >=? _); [lia |]. rewrite Z.shiftr_div_pow2 by lia. pose proof (Z.pow_pos_nonneg 2 k ltac:(lia) ltac:(lia)).
    split; [apply Z.div_pos; lia | apply Z.div_le_upper_bound; nia]. }
  unfold COIN in Hh. rewrite Z.quot_div_nonneg by lia. split; [apply Z.div_pos; lia | apply Z.div_lt_upper_bound; lia].
Qed.

(** From the first fork on: the tenth part of the halved reward, four fifths of it before
    the fourth fork and two fifths after it. *)
Lemma subsidy_later height : 506400 <= height ->
  let halvings := later_halvings height 506400 210000 in
  subsidy height = if halvings >=? 64 then 0 else (if height <? 813500 then 4 else 2) * (halved halvings / 10) / 5.
Proof.
  intros Hh halvings. unfold subsidy, GetBlockSubsidy. cbn [ForkV1Height ForkV4Height main_params]. rewrite (proj2 (Z.ltb_ge _ _)), (Z.geb_leb height), (proj2 (Z.leb_le _ height)) by lia.
  fold halvings. assert (H2 : 2 <= halvings).
  { unfold halvings. rewrite later_halvings_main by done. destruct (_ <=? _) eqn:E; [lia |]. bool_to_prop. pose proof (Z.div_pos (height - period_end - 1) later_period ltac:(lia) ltac:(done)). lia. }
  destruct (halvings >=? 64) eqn:E; [done |]. pose proof (halved_range halvings H2) as Hr. assert (Hq : Z.quot (halved halvings) 10 = halved halvings / 10).
  { apply Z.quot_div_nonneg; [| lia]. unfold halved, COIN. rewrite E. apply Z.shiftr_nonneg. lia. }
  cbn [andb]. rewrite Hq in *. destruct (_ <? _); [by rewrite times_08 | by rewrite times_04].
Qed.

(** ** The sum *)

(** The coins issued by the blocks below a height. *)
Fixpoint issued (n : nat) : Z := match n with O => 0 | S n => issued n + subsidy (Z.of_nat n) end.

Lemma issued_const a b c : 0 <= a <= b -> (forall height, a <= height < b -> subsidy height = c) ->
  issued (Z.to_nat b) = issued (Z.to_nat a) + c * (b - a).
Proof.
  intros Hab. replace (Z.to_nat b) with (Z.to_nat (b - a) + Z.to_nat a)%nat by lia. replace (b - a) with (Z.of_nat (Z.to_nat (b - a))) at 2 by lia.
  assert (Hle : Z.of_nat (Z.to_nat (b - a)) <= b - a) by lia. revert Hle. generalize (Z.to_nat (b - a)) as k. induction k as [| k IH]; intros Hk Hc; [cbn [Nat.add]; lia |].
  cbn [Nat.add issued]. rewrite IH, Hc by (done || lia). lia.
Qed.

Lemma subsidy_nonneg height : 0 <= height -> 0 <= subsidy height.
Proof.
  intros Hh. assert (Hhalved : forall k, 0 <= halved k) by (intros k; unfold halved, COIN; destruct (_ >=? _); [lia | apply Z.shiftr_nonneg; lia]).
  destruct (Z.lt_ge_cases height 506400) as [Hlt | Hge]; [rewrite subsidy_early by lia; apply Hhalved |]. rewrite subsidy_later by done. cbv zeta.
  destruct (_ >=? _); [lia |]. specialize (Hhalved (later_halvings height 506400 210000)). apply Z.div_pos; [| lia]. pose proof (Z.div_pos _ 10 Hhalved ltac:(lia)). destruct (_ <? _); lia.
Qed.

Lemma issued_mono a b : (a <= b)%nat -> issued a <= issued b.
Proof. induction 1 as [| b _ IH]; [lia |]. cbn [issued]. pose proof (subsidy_nonneg (Z.of_nat b) ltac:(lia)). lia. Qed.

(** The reward of the [i]-th later period. *)
Definition later_reward (i : Z) : Z := 2 * (halved (3 + i) / 10) / 5.

Fixpoint later_rewards (k : nat) : Z := match k with O => 0 | S k => later_rewards k + later_reward (Z.of_nat k) * later_period end.

Lemma issued_later k : (k <= 61)%nat -> issued (Z.to_nat (period_end + 1 + Z.of_nat k * later_period)) = issued (Z.to_nat (period_end + 1)) + later_rewards k.
Proof.
  induction k as [| k IH]; intros Hk; [replace (period_end + 1 + Z.of_nat 0 * later_period) with (period_end + 1) by lia; cbn [later_rewards]; lia |].
  rewrite (issued_const (period_end + 1 + Z.of_nat k * later_period) _ (later_reward (Z.of_nat k))).
  - rewrite IH by lia. cbn [later_rewards]. unfold later_period. lia.
  - unfold period_end, later_period. lia.
  - intros height Hh. unfold period_end, later_period in Hh. rewrite subsidy_later by lia. cbv zeta.
    assert (Eh : later_halvings height 506400 210000 = 3 + Z.of_nat k).
    { rewrite later_halvings_main by lia. unfold period_end, later_period. rewrite (proj2 (Z.leb_gt _ _)) by lia. f_equal. symmetry.
      apply (Z.div_unique_pos _ _ _ (height - 1742409 - 1 - 2100000 * Z.of_nat k)); lia. }
    rewrite Eh, Z.geb_leb, (proj2 (Z.leb_gt _ _)), (proj2 (Z.ltb_ge _ _)) by lia. done.
Qed.

Lemma issued_period_end : issued (Z.to_nat (period_end + 1)) = 1760155500000000.
Proof.
  assert (E0 : issued (Z.to_nat 0) = 0) by reflexivity.
  assert (E1 : issued (Z.to_nat 210000) = issued (Z.to_nat 0) + 5000000000 * (210000 - 0)).
  { apply issued_const; [lia |]. intros height Hh. rewrite subsidy_early, Z.div_small by lia. reflexivity. }
  assert (E2 : issued (Z.to_nat 420000) = issued (Z.to_nat 210000) + 2500000000 * (420000 - 210000)).
  { apply issued_const; [lia |]. intros height Hh. rewrite subsidy_early by lia. replace (height / 210000) with 1 by (apply (Z.div_unique_pos _ _ _ (height - 210000)); lia). reflexivity. }
  assert (E3 : issued (Z.to_nat 506400) = issued (Z.to_nat 420000) + 1250000000 * (506400 - 420000)).
  { apply issued_const; [lia |]. intros height Hh. rewrite subsidy_early by lia. replace (height / 210000) with 2 by (apply (Z.div_unique_pos _ _ _ (height - 420000)); lia). reflexivity. }
  assert (E4 : issued (Z.to_nat 813500) = issued (Z.to_nat 506400) + 100000000 * (813500 - 506400)).
  { apply issued_const; [lia |]. intros height Hh. rewrite subsidy_later, later_halvings_main by lia. unfold period_end. rewrite (proj2 (Z.leb_le height _)), (proj2 (Z.ltb_lt height _)) by lia. reflexivity. }
  rewrite (issued_const 813500 (period_end + 1) 50000000) by (try (unfold period_end; lia); intros height Hh; unfold period_end in Hh; rewrite subsidy_later, later_halvings_main by lia;
    unfold period_end; rewrite (proj2 (Z.leb_le height _)), (proj2 (Z.ltb_ge height _)) by lia; reflexivity).
  rewrite E4, E3, E2, E1, E0. reflexivity.
Qed.

Lemma issued_total n : issued n <= 1865155470600000.
Proof.
  set (stop := period_end + 1 + Z.of_nat 61 * later_period).
  assert (Hstop : issued (Z.to_nat stop) = 1865155470600000) by (unfold stop; rewrite issued_later, issued_period_end by lia; vm_compute; reflexivity).
  destruct (le_lt_dec n (Z.to_nat stop)) as [Hle | Hgt]; [pose proof (issued_mono _ _ Hle); lia |].
  rewrite <- (Nat2Z.id n), (issued_const stop (Z.of_nat n) 0); [lia | unfold stop, period_end, later_period in *; lia |].
  intros height Hh. unfold stop, period_end, later_period in Hh. rewrite subsidy_later by lia. cbv zeta.
  replace (later_halvings height 506400 210000 >=? 64) with true; [done |]. symmetry. rewrite later_halvings_main by lia. unfold period_end, later_period.
  rewrite (proj2 (Z.leb_gt _ _)), Z.geb_le by lia. assert (61 <= (height - 1742409 - 1) / 2100000) by (apply Z.div_le_lower_bound; lia). lia.
Qed.

(** ** Theorem *)

(** C34. On the main network the subsidies of the first [n] blocks sum to at most
    18651554.706 coins, whatever [n] is, and reach that sum: the reward schedule of all
    forks together stays below the limit [MAX_MONEY]. In particular every single
    subsidy, floating-point products included, is an amount. (The unit tests still
    expect plain halvings, with the sum 20999999.9769.) *)
Theorem issuance_bounded :
  (forall n, 0 <= issued n <= 1865155470600000) /\ (exists n, issued n = 1865155470600000) /\ 1865155470600000 < MAX_MONEY /\
  (forall height, 0 <= height -> MoneyRange (GetBlockSubsidy height main_params 210000) = true).
Proof.
  split; [intros n; split; [apply (issued_mono 0); lia | apply issued_total] |]. split; [| split; [done |]].
  - exists (Z.to_nat (period_end + 1 + Z.of_nat 61 * later_period)). rewrite issued_later, issued_period_end by lia. vm_compute. reflexivity.
  - intros height Hh. fold (subsidy height). pose proof (subsidy_nonneg height Hh). pose proof (issued_total (S (Z.to_nat height))) as Ht. cbn [issued] in Ht. rewrite Z2Nat.id in Ht by lia.
    pose proof (issued_mono 0 (Z.to_nat height) ltac:(lia)) as H0. change (issued 0) with 0 in H0. unfold MoneyRange, MAX_MONEY, COIN. lia.
Qed.
