(* ===== verification/BestChain.v ===== *)
(** * Choosing the best chain

    The part of [CChainState] in [src/validation.cpp] that decides which block is the tip:
    the candidates in the order of [CBlockIndexWorkComparator], [FindMostWorkChain],
    [PruneBlockIndexCandidates], [ActivateBestChain] and its steps, [PreciousBlock],
    [InvalidateBlock], [ResetBlockFailureFlags] and [ReceivedBlockTransactions].

    What connecting and disconnecting a block does to the coins, the block files and the
    memory pool is the class [TipOps]; warnings, notifications and requests to shut down
    are left out. *)

From stdpp Require Import gmap.
From S2P Require Import Prelude Common Serialize Transaction Block ArithUint256 Chain Pow TxVerify AcceptHeader.

Open Scope Z_scope.
Open Scope outcome_scope.

(** The addresses of the entries, which break ties. *)
Class BlockAddresses := { address : nat -> Z }.

(** The result of [ConnectBlock] and of reading and writing around it: success, a block
    that violates the rules, with [CorruptionPossible], or an error of the system. *)
Inductive connect_result := CONNECT_OK | CONNECT_INVALID (corruption : bool) | CONNECT_ERROR.

(** The state of coins, files and memory pool, and the operations on it; connecting
    may complete the entry of the block (the position of the undo data and its validity). *)
Class TipOps (E : Type) := {
  connect_block : E -> nat -> CBlockIndex -> connect_result * option CBlockIndex * E;
  disconnect_block : E -> nat -> CBlockIndex -> bool * E
}.

Record CChainState (E : Type) := MkCChainState {
  cc_index : BlockManager;
  cc_failed_blocks : gset nat;
  chainActive : list (option nat);
  setBlockIndexCandidates : gset nat;
  mapBlocksUnlinked : list (option nat * nat);
  pindexBestInvalid : option nat;
  nBlockSequenceId : Z;
  nBlockReverseSequenceId : Z;
  nLastPreciousChainwork : list Z;
  cc_env : E
}.
Arguments MkCChainState {E}.
Arguments cc_index {E}.
Arguments cc_failed_blocks {E}.
Arguments chainActive {E}.
Arguments setBlockIndexCandidates {E}.
Arguments mapBlocksUnlinked {E}.
Arguments pindexBestInvalid {E}.
Arguments nBlockSequenceId {E}.
Arguments nBlockReverseSequenceId {E}.
Arguments nLastPreciousChainwork {E}.
Arguments cc_env {E}.

Definition BLOCK_VALID_TRANSACTIONS : Z := 3.

Definition BLOCK_OPT_WITNESS : Z := 128.

(** ** The order of the candidates *)

Section Order.
Context `{A : BlockAddresses}.

(** [CBlockIndexWorkComparator] *)
Definition work_less (h : list CBlockIndex) (pa pb : nat) : outcome bool :=
  let? na := deref h (Some pa) in
  let? nb := deref h (Some pb) in
  Ret (if CompareTo (nChainWork na) (nChainWork nb) >? 0 then false
       else if CompareTo (nChainWork na) (nChainWork nb) <? 0 then true
       else if nSequenceId na <? nSequenceId nb then false
       else if nSequenceId na >? nSequenceId nb then true
       else if address pa <? address pb then false
       else if address pa >? address pb then true
       else false).

(** The last element of the set, in its order. *)
Fixpoint last_candidate (h : list CBlockIndex) (l : list nat) : outcome (option nat) :=
  match l with
  | [] => Ret None
  | p :: l =>
    let? b := last_candidate h l in
    match b with
    | None => Ret (Some p)
    | Some q => let? less := work_less h q p in Ret (Some (if less : bool then p else q))
    end
  end.

(** The first element. *)
Fixpoint first_candidate (h : list CBlockIndex) (l : list nat) : outcome (option nat) :=
  match l with
  | [] => Ret None
  | p :: l =>
    let? b := first_candidate h l in
    match b with
    | None => Ret (Some p)
    | Some q => let? less := work_less h p q in Ret (Some (if less : bool then p else q))
    end
  end.
End Order.

(** ** Updates of the state *)

Section Updates.
Context {E : Type}.
Implicit Types st : CChainState E.

Definition with_index st (m : BlockManager) : CChainState E :=
  MkCChainState m (cc_failed_blocks st) (chainActive st) (setBlockIndexCandidates st) (mapBlocksUnlinked st) (pindexBestInvalid st)
    (nBlockSequenceId st) (nBlockReverseSequenceId st) (nLastPreciousChainwork st) (cc_env st).

Definition with_failed st (s : gset nat) : CChainState E :=
  MkCChainState (cc_index st) s (chainActive st) (setBlockIndexCandidates st) (mapBlocksUnlinked st) (pindexBestInvalid st)
    (nBlockSequenceId st) (nBlockReverseSequenceId st) (nLastPreciousChainwork st) (cc_env st).

Definition with_chain st (c : list (option nat)) : CChainState E :=
  MkCChainState (cc_index st) (cc_failed_blocks st) c (setBlockIndexCandidates st) (mapBlocksUnlinked st) (pindexBestInvalid st)
    (nBlockSequenceId st) (nBlockReverseSequenceId st) (nLastPreciousChainwork st) (cc_env st).

Definition with_candidates st (s : gset nat) : CChainState E :=
  MkCChainState (cc_index st) (cc_failed_blocks st) (chainActive st) s (mapBlocksUnlinked st) (pindexBestInvalid st)
    (nBlockSequenceId st) (nBlockReverseSequenceId st) (nLastPreciousChainwork st) (cc_env st).

Definition with_unlinked st (l : list (option nat * nat)) : CChainState E :=
  MkCChainState (cc_index st) (cc_failed_blocks st) (chainActive st) (setBlockIndexCandidates st) l (pindexBestInvalid st)
    (nBlockSequenceId st) (nBlockReverseSequenceId st) (nLastPreciousChainwork st) (cc_env st).

Definition with_best_invalid st (p : option nat) : CChainState E :=
  MkCChainState (cc_index st) (cc_failed_blocks st) (chainActive st) (setBlockIndexCandidates st) (mapBlocksUnlinked st) p
    (nBlockSequenceId st) (nBlockReverseSequenceId st) (nLastPreciousChainwork st) (cc_env st).

Definition with_sequence st (id reverse : Z) (work : list Z) : CChainState E :=
  MkCChainState (cc_index st) (cc_failed_blocks st) (chainActive st) (setBlockIndexCandidates st) (mapBlocksUnlinked st) (pindexBestInvalid st)
    id reverse work (cc_env st).

Definition with_env st (e : E) : CChainState E :=
  MkCChainState (cc_index st) (cc_failed_blocks st) (chainActive st) (setBlockIndexCandidates st) (mapBlocksUnlinked st) (pindexBestInvalid st)
    (nBlockSequenceId st) (nBlockReverseSequenceId st) (nLastPreciousChainwork st) e.

Definition cc_blocks st : list CBlockIndex := blocks (cc_index st).

(** [*p = n] *)
Definition with_node st (p : nat) (n : CBlockIndex) : CChainState E :=
  let m := cc_index st in
  with_index st (Manager (<[p := n]> (blocks m)) (mapBlockIndex m) (pindexBestHeader m) (setDirtyBlockIndex m)).

Definition mark_dirty st (p : nat) : CChainState E :=
  let m := cc_index st in
  with_index st (Manager (blocks m) (mapBlockIndex m) (pindexBestHeader m) ({[p]} ∪ setDirtyBlockIndex m)).

Definition erase st (p : nat) : CChainState E := with_candidates st (setBlockIndexCandidates st ∖ {[p]}).

Definition insert_candidate st (p : nat) : CChainState E := with_candidates st ({[p]} ∪ setBlockIndexCandidates st).
End Updates.

(** ** The best candidate *)

Section BestChain.
Context {E : Type} `{A : BlockAddresses, T : TipOps E}.
Implicit Types st : CChainState E.

(** [pindexBestInvalid] moves to a block with more work. *)
Definition note_invalid st (p : nat) : outcome (CChainState E) :=
  match pindexBestInvalid st with
  | None => Ret (with_best_invalid st (Some p))
  | Some b =>
    let? n := deref (cc_blocks st) (Some p) in
    let? nb := deref (cc_blocks st) (Some b) in
    Ret (if CompareTo (nChainWork n) (nChainWork nb) >? 0 then with_best_invalid st (Some p) else st)
  end.

(** The first block from [pindexTest] down to the active chain that has failed or has no
    data, and whether it has failed. *)
Fixpoint scan_path (fuel : nat) (h : list CBlockIndex) (c : list (option nat)) (pindexTest : option nat) : outcome (option (nat * bool)) :=
  match pindexTest with
  | None => Ret None
  | Some p =>
    let? b := chain_Contains h c p in
    if b : bool then Ret None
    else match fuel with
         | O => Undef
         | S fuel =>
           let? n := deref h (Some p) in
           let? _ := cassert (negb (nChainTx n =? 0) || (nHeight n =? 0)) in
           let fFailedChain := flag (nStatus n) BLOCK_FAILED_MASK in
           let fMissingData := negb (flag (nStatus n) BLOCK_HAVE_DATA) in
           if fFailedChain || fMissingData then Ret (Some (p, fFailedChain)) else scan_path fuel h c (pprev n)
         end
  end.

(** The blocks from [pindexFailed] down to [pindexTest], not included, are no candidates
    any more. *)
Fixpoint remove_path (fuel : nat) st (pindexTest : nat) (fFailedChain : bool) (pindexFailed : option nat) : outcome (CChainState E) :=
  if bool_decide (pindexFailed = Some pindexTest) then Ret st
  else
    match pindexFailed, fuel with
    | Some p, S fuel =>
      let? n := deref (cc_blocks st) (Some p) in
      let st := if fFailedChain then with_node st p (set_nStatus n (Z.lor (nStatus n) BLOCK_FAILED_CHILD))
                else with_unlinked st (mapBlocksUnlinked st ++ [(pprev n, p)]) in
      remove_path fuel (erase st p) pindexTest fFailedChain (pprev n)
    | _, _ => Undef
    end.

Fixpoint FindMostWorkChain_loop (fuel : nat) st : outcome (option nat * CChainState E) :=
  let? best := last_candidate (cc_blocks st) (elements (setBlockIndexCandidates st)) in
  match best with
  | None => Ret (None, st)
  | Some pindexNew =>
    let? bad := scan_path (S (steps (cc_blocks st) (Some pindexNew))) (cc_blocks st) (chainActive st) (Some pindexNew) in
    match bad, fuel with
    | None, _ => Ret (Some pindexNew, st)
    | Some (pindexTest, fFailedChain), S fuel =>
      let? st := if fFailedChain then note_invalid st pindexNew else Ret st in
      let? st := remove_path (steps (cc_blocks st) (Some pindexNew)) st pindexTest fFailedChain (Some pindexNew) in
      FindMostWorkChain_loop fuel (erase st pindexTest)
    | Some _, O => Undef
    end
  end.

(** Each round removes a candidate. *)
Definition FindMostWorkChain st : outcome (option nat * CChainState E) := FindMostWorkChain_loop (size (setBlockIndexCandidates st)) st.

Fixpoint prune_loop (fuel : nat) st : outcome (CChainState E) :=
  let? first := first_candidate (cc_blocks st) (elements (setBlockIndexCandidates st)) in
  match first with
  | None => Ret st
  | Some p =>
    match chain_Tip (chainActive st) with
    | None => Undef
    | Some tip =>
      let? less := work_less (cc_blocks st) p tip in
      match less, fuel with
      | true, S fuel => prune_loop fuel (erase st p)
      | true, O => Undef
      | false, _ => Ret st
      end
    end
  end.

Definition PruneBlockIndexCandidates st : outcome (CChainState E) :=
  let? st := prune_loop (size (setBlockIndexCandidates st)) st in
  let? _ := cassert (negb (bool_decide (setBlockIndexCandidates st = ∅))) in Ret st.

(** ** Steps of the active chain *)

Definition InvalidChainFound st (pindexNew : nat) : outcome (CChainState E) :=
  let? st := note_invalid st pindexNew in
  let? _ := cassert (bool_decide (is_Some (chain_Tip (chainActive st)))) in Ret st.

Definition InvalidBlockFound st (pindex : nat) (corruption : bool) : outcome (CChainState E) :=
  if corruption then Ret st
  else
    let? n := deref (cc_blocks st) (Some pindex) in
    let st := with_node st pindex (set_nStatus n (Z.lor (nStatus n) BLOCK_FAILED_VALID)) in
    let st := with_failed st ({[pindex]} ∪ cc_failed_blocks st) in
    InvalidChainFound (erase (mark_dirty st pindex) pindex) pindex.

Definition DisconnectTip st : outcome (bool * CChainState E) :=
  match chain_Tip (chainActive st) with
  | None => Abort
  | Some pindexDelete =>
    let? n := deref (cc_blocks st) (Some pindexDelete) in
    let '(ok, e) := disconnect_block (cc_env st) pindexDelete n in
    let st := with_env st e in
    if negb ok then Ret (false, st)
    else let? c := SetTip (cc_blocks st) (chainActive st) (pprev n) in Ret (true, with_chain st c)
  end.

Definition ConnectTip st (pindexNew : nat) : outcome (connect_result * CChainState E) :=
  let? n := deref (cc_blocks st) (Some pindexNew) in
  let? _ := cassert (bool_decide (pprev n = chain_Tip (chainActive st))) in
  let '(r, update, e) := connect_block (cc_env st) pindexNew n in
  let st := with_env st e in
  let st := match update with Some n => mark_dirty (with_node st pindexNew n) pindexNew | None => st end in
  match r with
  | CONNECT_OK =>
    let? c := SetTip (cc_blocks st) (chainActive st) (Some pindexNew) in Ret (CONNECT_OK, with_chain st c)
  | CONNECT_INVALID corruption => let? st := InvalidBlockFound st pindexNew corruption in Ret (r, st)
  | CONNECT_ERROR => Ret (r, st)
  end.

(** The active blocks that are not in the best chain are disconnected. *)
Fixpoint disconnect_to (fuel : nat) st (pindexFork : option nat) : outcome (bool * CChainState E) :=
  match chain_Tip (chainActive st) with
  | None => Ret (true, st)
  | Some tip =>
    if bool_decide (Some tip = pindexFork) then Ret (true, st)
    else
      match fuel with
      | O => Undef
      | S fuel =>
        let? r := DisconnectTip st in
        if r.1 : bool then disconnect_to fuel r.2 pindexFork else Ret (false, r.2)
      end
  end.

(** The blocks from [pindexIter] down to the height [nHeight], not included. *)
Fixpoint path_down (fuel : nat) (h : list CBlockIndex) (height : Z) (pindexIter : option nat) : outcome (list nat) :=
  match pindexIter with
  | None => Ret []
  | Some p =>
    let? n := deref h (Some p) in
    if nHeight n =? height then Ret []
    else match fuel with
         | O => Undef
         | S fuel => let? l := path_down fuel h height (pprev n) in Ret (p :: l)
         end
  end.

(** Why the connecting of a list of blocks ends. *)
Inductive connect_end := END_OF_LIST | BETTER_TIP | INVALID_FOUND | SYSTEM_ERROR.

(** [l] is in the order in which the blocks are connected and [back] is the last entry of
    the vector, the first of them. *)
Fixpoint connect_list st (pindexOldTip : option nat) (back : nat) (l : list nat) : outcome (connect_end * CChainState E) :=
  match l with
  | [] => Ret (END_OF_LIST, st)
  | p :: l =>
    let? r := ConnectTip st p in
    match r with
    | (CONNECT_INVALID corruption, st) =>
      let? st := if corruption then Ret st else InvalidChainFound st back in Ret (INVALID_FOUND, st)
    | (CONNECT_ERROR, st) => Ret (SYSTEM_ERROR, st)
    | (CONNECT_OK, st) =>
      let? st := PruneBlockIndexCandidates st in
      let? better := match pindexOldTip with
                     | None => Ret true
                     | Some old =>
                       let? n := deref (cc_blocks st) (chain_Tip (chainActive st)) in
                       let? m := deref (cc_blocks st) (Some old) in
                       Ret (CompareTo (nChainWork n) (nChainWork m) >? 0)
                     end in
      if better : bool then Ret (BETTER_TIP, st) else connect_list st pindexOldTip back l
    end
  end.

(** Rounds of 32 blocks. *)
Fixpoint connect_rounds (fuel : nat) st (pindexOldTip : option nat) (pindexMostWork : nat) (height : Z) : outcome (connect_end * CChainState E) :=
  let? n := deref (cc_blocks st) (Some pindexMostWork) in
  if height =? nHeight n then Ret (END_OF_LIST, st)
  else
    match fuel with
    | O => Undef
    | S fuel =>
      let? next := int_add height 32 in
      let nTargetHeight := Z.min next (nHeight n) in
      let? top := GetAncestor (cc_blocks st) pindexMostWork nTargetHeight in
      let? vpindexToConnect := path_down (S (steps (cc_blocks st) top)) (cc_blocks st) height top in
      let? r := connect_list st pindexOldTip (default 0%nat (list.last vpindexToConnect)) (reverse vpindexToConnect) in
      match r.1 with
      | END_OF_LIST => connect_rounds fuel r.2 pindexOldTip pindexMostWork nTargetHeight
      | _ => Ret r
      end
    end.

(** The result, [fInvalidFound] and the state. *)
Definition ActivateBestChainStep st (pindexMostWork : nat) : outcome (bool * bool * CChainState E) :=
  let pindexOldTip := chain_Tip (chainActive st) in
  let? pindexFork := FindFork (cc_blocks st) (chainActive st) (Some pindexMostWork) in
  let? r := disconnect_to (length (chainActive st)) st pindexFork in
  if negb r.1 then Ret (false, false, r.2)
  else
    let st := r.2 in
    let? height := match pindexFork with Some f => let? n := deref (cc_blocks st) (Some f) in Ret (nHeight n) | None => Ret (-1) end in
    let? r := connect_rounds (S (steps (cc_blocks st) (Some pindexMostWork))) st pindexOldTip pindexMostWork height in
    match r.1 with
    | SYSTEM_ERROR => Ret (false, false, r.2)
    | INVALID_FOUND => Ret (true, true, r.2)
    | _ => Ret (true, false, r.2)
    end.

(** The loop goes on until the tip is the chosen block, which is looked for again after an
    invalid block. *)
Fixpoint ActivateBestChain (fuel : nat) st (pindexMostWork : option nat) : outcome (bool * CChainState E) :=
  let? r := match pindexMostWork with Some p => Ret (Some p, st) | None => FindMostWorkChain st end in
  let st := r.2 in
  match r.1 with
  | None => Ret (true, st)
  | Some p =>
    if bool_decide (chain_Tip (chainActive st) = Some p) then Ret (true, st)
    else
      let? r := ActivateBestChainStep st p in
      let '(ok, fInvalidFound, st) := r in
      if negb ok then Ret (false, st)
      else
        let pindexMostWork := if fInvalidFound : bool then None else Some p in
        if bool_decide (chain_Tip (chainActive st) = pindexMostWork) then Ret (true, st)
        else match fuel with O => Undef | S fuel => ActivateBestChain fuel st pindexMostWork end
  end.

(** ** Interventions *)

Definition set_nSequenceId (n : CBlockIndex) (id : Z) : CBlockIndex :=
  BlockIndex (phashBlock n) (pprev n) (pskip n) (nHeight n) (nFile n) (nDataPos n) (nUndoPos n) (nChainWork n)
    (nTx n) (nChainTx n) (nStatus n) (bi_nVersion n) (bi_hashMerkleRoot n) (bi_nTime n) (bi_nBits n) (bi_nNonce n) id (nTimeMax n).

(** [IsValid(BLOCK_VALID_TRANSACTIONS) && nChainTx] *)
Definition has_transactions (n : CBlockIndex) : outcome bool :=
  let? valid := IsValid n BLOCK_VALID_TRANSACTIONS in Ret (valid && negb (nChainTx n =? 0)).

Definition PreciousBlock (fuel : nat) st (pindex : nat) : outcome (bool * CChainState E) :=
  let? n := deref (cc_blocks st) (Some pindex) in
  let? tip := deref (cc_blocks st) (chain_Tip (chainActive st)) in
  if CompareTo (nChainWork n) (nChainWork tip) <? 0 then Ret (true, st)
  else
    let reverse_id := if CompareTo (nChainWork tip) (nLastPreciousChainwork st) >? 0 then -1 else nBlockReverseSequenceId st in
    let n := set_nSequenceId n reverse_id in
    let st := with_node (erase st pindex) pindex n in
    let st := with_sequence st (nBlockSequenceId st) (if reverse_id >? INT_MIN then reverse_id - 1 else reverse_id) (nChainWork tip) in
    let? valid := has_transactions n in
    let? st := if valid then PruneBlockIndexCandidates (insert_candidate st pindex) else Ret st in
    ActivateBestChain fuel st None.

(** The tip is disconnected as long as the block is in the active chain. *)
Fixpoint disconnect_below (fuel : nat) st (pindex : nat) : outcome (bool * CChainState E) :=
  let? b := chain_Contains (cc_blocks st) (chainActive st) pindex in
  if negb b then Ret (true, st)
  else
    match fuel with
    | O => Undef
    | S fuel =>
      let? r := DisconnectTip st in
      if r.1 : bool then disconnect_below fuel r.2 pindex else Ret (false, r.2)
    end.

(** The blocks from [walk] down to the child of [pindex] are marked. *)
Fixpoint mark_descendants (fuel : nat) st (pindex : nat) (walk : option nat) : outcome (CChainState E) :=
  if bool_decide (walk = Some pindex) then Ret st
  else
    match walk, fuel with
    | Some p, S fuel =>
      let? n := deref (cc_blocks st) (Some p) in
      let st := with_node st p (set_nStatus n (Z.lor (nStatus n) BLOCK_FAILED_CHILD)) in
      mark_descendants fuel (erase (mark_dirty st p) p) pindex (pprev n)
    | _, _ => Undef
    end.

(** The valid blocks that are not worse than the tip are candidates again. *)
Fixpoint restore_candidates st (l : list nat) : outcome (CChainState E) :=
  match l with
  | [] => Ret st
  | p :: l =>
    let? n := deref (cc_blocks st) (Some p) in
    let? valid := has_transactions n in
    let? less := if valid then match chain_Tip (chainActive st) with Some tip => work_less (cc_blocks st) p tip | None => Undef end else Ret true in
    restore_candidates (if less : bool then st else insert_candidate st p) l
  end.

Definition InvalidateBlock st (pindex : nat) : outcome (bool * CChainState E) :=
  let invalid_walk_tip := chain_Tip (chainActive st) in
  let? pindex_was_in_chain := chain_Contains (cc_blocks st) (chainActive st) pindex in
  let? r := disconnect_below (length (chainActive st)) st pindex in
  if negb r.1 then Ret (false, r.2)
  else
    let st := r.2 in
    let? st := if pindex_was_in_chain : bool then mark_descendants (steps (cc_blocks st) invalid_walk_tip) st pindex invalid_walk_tip else Ret st in
    let? n := deref (cc_blocks st) (Some pindex) in
    let st := with_node st pindex (set_nStatus n (Z.lor (nStatus n) BLOCK_FAILED_VALID)) in
    let st := erase (mark_dirty st pindex) pindex in
    let st := with_failed st ({[pindex]} ∪ cc_failed_blocks st) in
    let? st := restore_candidates st (map_to_list (mapBlockIndex (cc_index st))).*2 in
    let? st := InvalidChainFound st pindex in
    Ret (true, st).

Definition clear_failure (n : CBlockIndex) : CBlockIndex := set_nStatus n (Z.land (nStatus n) (uint32 (Z.lnot BLOCK_FAILED_MASK))).

Fixpoint reset_descendants st (pindex : nat) (height : Z) (l : list nat) : outcome (CChainState E) :=
  match l with
  | [] => Ret st
  | p :: l =>
    let? n := deref (cc_blocks st) (Some p) in
    let? valid := IsValid n BLOCK_VALID_TRANSACTIONS in
    let? a := if valid : bool then Ret None else GetAncestor (cc_blocks st) p height in
    if bool_decide (a = Some pindex) then
      let n := clear_failure n in
      let st := mark_dirty (with_node st p n) p in
      let? valid := has_transactions n in
      let? better := if valid then match chain_Tip (chainActive st) with Some tip => work_less (cc_blocks st) tip p | None => Undef end else Ret false in
      let st := if better : bool then insert_candidate st p else st in
      let st := if bool_decide (pindexBestInvalid st = Some p) then with_best_invalid st None else st in
      reset_descendants (with_failed st (cc_failed_blocks st ∖ {[p]})) pindex height l
    else reset_descendants st pindex height l
  end.

Fixpoint reset_ancestors (fuel : nat) st (pindex : option nat) : outcome (CChainState E) :=
  match pindex with
  | None => Ret st
  | Some p =>
    let? n := deref (cc_blocks st) (Some p) in
    let st := if flag (nStatus n) BLOCK_FAILED_MASK then mark_dirty (with_node st p (clear_failure n)) p else st in
    match fuel with O => Undef | S fuel => reset_ancestors fuel st (pprev n) end
  end.

Definition ResetBlockFailureFlags st (pindex : nat) : outcome (CChainState E) :=
  let? n := deref (cc_blocks st) (Some pindex) in
  let? st := reset_descendants st pindex (nHeight n) (map_to_list (mapBlockIndex (cc_index st))).*2 in
  reset_ancestors (S (steps (cc_blocks st) (Some pindex))) st (Some pindex).

(** ** The data of a block *)

Definition set_data (n : CBlockIndex) (nTx nFile nPos status : Z) : CBlockIndex :=
  BlockIndex (phashBlock n) (pprev n) (pskip n) (nHeight n) nFile nPos 0 (nChainWork n)
    nTx 0 status (bi_nVersion n) (bi_hashMerkleRoot n) (bi_nTime n) (bi_nBits n) (bi_nNonce n) (nSequenceId n) (nTimeMax n).

Definition set_chain_tx (n : CBlockIndex) (chainTx id : Z) : CBlockIndex :=
  BlockIndex (phashBlock n) (pprev n) (pskip n) (nHeight n) (nFile n) (nDataPos n) (nUndoPos n) (nChainWork n)
    (nTx n) chainTx (nStatus n) (bi_nVersion n) (bi_hashMerkleRoot n) (bi_nTime n) (bi_nBits n) (bi_nNonce n) id (nTimeMax n).

(** The blocks whose transactions are now all known, breadth first. [nChainTx] is an
    [unsigned int]; the sequence number is an [int32_t]. *)
Fixpoint link_queue (fuel : nat) st (queue : list nat) : outcome (CChainState E) :=
  match queue with
  | [] => Ret st
  | p :: queue =>
    match fuel with
    | O => Undef
    | S fuel =>
      let? n := deref (cc_blocks st) (Some p) in
      let? prev := match pprev n with Some q => let? m := deref (cc_blocks st) (Some q) in Ret (nChainTx m) | None => Ret 0 end in
      let st := with_node st p (set_chain_tx n (uint32 (prev + nTx n)) (nBlockSequenceId st)) in
      let? next := int_add (nBlockSequenceId st) 1 in
      let st := with_sequence st next (nBlockReverseSequenceId st) (nLastPreciousChainwork st) in
      let? less := match chain_Tip (chainActive st) with Some tip => work_less (cc_blocks st) p tip | None => Ret false end in
      let st := if less : bool then st else insert_candidate st p in
      let children := filter (fun e => e.1 = Some p) (mapBlocksUnlinked st) in
      link_queue fuel (with_unlinked st (filter (fun e => e.1 <> Some p) (mapBlocksUnlinked st))) (queue ++ children.*2)
    end
  end.

(** [witness] is [IsWitnessEnabled] at the previous block. *)
Definition ReceivedBlockTransactions st (pindexNew : nat) (block : CBlock) (nFile nPos : Z) (witness : bool) : outcome (CChainState E) :=
  let? n := deref (cc_blocks st) (Some pindexNew) in
  let status := Z.lor (nStatus n) BLOCK_HAVE_DATA in
  let status := if witness then Z.lor status BLOCK_OPT_WITNESS else status in
  let? r := RaiseValidity (set_data n (uint32 (Zlen (vtx block))) nFile nPos status) BLOCK_VALID_TRANSACTIONS in
  let st := mark_dirty (with_node st pindexNew r.1) pindexNew in
  match pprev n with
  | None => link_queue (S (length (mapBlocksUnlinked st))) st [pindexNew]
  | Some q =>
    let? m := deref (cc_blocks st) (Some q) in
    if negb (nChainTx m =? 0) then link_queue (S (length (mapBlocksUnlinked st))) st [pindexNew]
    else
      let? valid := IsValid m BLOCK_VALID_TREE in
      Ret (if valid : bool then with_unlinked st (mapBlocksUnlinked st ++ [(Some q, pindexNew)]) else st)
  end.
End BestChain.
