(* ===== verification/BestChainProps.v ===== *)
(** * The chosen chain is the best one

    The order of the candidates is total; [FindMostWorkChain] finds the best candidate whose
    blocks are all there and none of which has failed; and [ActivateBestChain] ends with
    that block as the tip. *)

From stdpp Require Import gmap.
From S2P Require Import Prelude Common Serialize Transaction Block ArithUint256 ArithProps Chain ChainProps BlockIndexInv Pow TxVerify AcceptHeader.
From S2P Require Import BestChain.

Open Scope Z_scope.
Open Scope outcome_scope.

(** ** Entries that differ in their status and files *)

Record same_node (n n' : CBlockIndex) : Prop := {
  sn_prev : pprev n' = pprev n;
  sn_skip : pskip n' = pskip n;
  sn_height : nHeight n' = nHeight n;
  sn_work : nChainWork n' = nChainWork n;
  sn_tx : nChainTx n' = nChainTx n;
  sn_id : nSequenceId n' = nSequenceId n
}.

Definition same_core : list CBlockIndex -> list CBlockIndex -> Prop := Forall2 same_node.

#[export] Instance same_node_equivalence : Equivalence same_node.
Proof. split; [done | intros ?? []; by split | intros ??? [] []; split; congruence]. Qed.

#[export] Instance same_core_equivalence : Equivalence same_core.
Proof. unfold same_core. split; [intros h; reflexivity | intros h h' H; by symmetry | intros h1 h2 h3 H1 H2; by transitivity h2]. Qed.

Lemma same_lookup h h' p n : same_core h h' -> h !! p = Some n -> exists n', h' !! p = Some n' /\ same_node n n'.
Proof. intros H Hp. destruct (Forall2_lookup_l _ _ _ _ _ H Hp) as (n' & ? & ?). by exists n'. Qed.

Lemma same_lookup_r h h' p n' : same_core h h' -> h' !! p = Some n' -> exists n, h !! p = Some n /\ same_node n n'.
Proof. intros H Hp. destruct (Forall2_lookup_r _ _ _ _ _ H Hp) as (n & ? & ?). by exists n. Qed.

Lemma same_insert h p n n' : h !! p = Some n -> same_node n n' -> same_core h (<[p := n']> h).
Proof. intros Hp Hs. rewrite <- (list_insert_id h p n Hp) at 1. apply Forall2_insert; [reflexivity | done]. Qed.

Lemma same_core_none h h' p : same_core h h' -> h !! p = None -> h' !! p = None.
Proof. intros H Hp. destruct (h' !! p) as [n' |] eqn:E; [| done]. destruct (same_lookup_r h h' p n' H E) as (? & ? & _). congruence. Qed.

Section Same.
Context (h h' : list CBlockIndex) (H : same_core h h').

Lemma core_back k : forall p, back h' k p = back h k p.
Proof.
  induction k as [| k IH]; intros p; [done |]. cbn [back]. destruct (h !! p) as [n |] eqn:Ep.
  - destruct (same_lookup h h' p n H Ep) as (n' & -> & Hs). rewrite (sn_prev _ _ Hs). destruct (pprev n); [apply IH | done].
  - by rewrite (same_core_none h h' p H Ep).
Qed.

Lemma core_anc q p : anc h' q p <-> anc h q p.
Proof. unfold anc. split; intros [k Hk]; exists k; [rewrite <- core_back | rewrite core_back]; done. Qed.

Lemma core_heap_ok : heap_ok h -> heap_ok h'.
Proof.
  intros Hok p n' Hp. destruct (same_lookup_r h h' p n' H Hp) as (n & Hn & Hs). specialize (Hok p n Hn). unfold node_ok in *.
  rewrite (sn_prev _ _ Hs), (sn_height _ _ Hs), (sn_skip _ _ Hs), core_back. destruct (pprev n) as [q |]; [| done]. destruct Hok as (Hq & (m & Hm & Hh) & Hsk).
  destruct (same_lookup h h' q m H Hm) as (m' & Hm' & Hsm). split; [done |]. split; [| done]. exists m'. by rewrite (sn_height _ _ Hsm).
Qed.

Lemma core_branch p : branch h' p = branch h p.
Proof.
  unfold branch. destruct (h !! p) as [n |] eqn:Ep.
  - destruct (same_lookup h h' p n H Ep) as (n' & -> & Hs). rewrite (sn_height _ _ Hs). apply list_fmap_ext. intros ? ? _. apply core_back.
  - by rewrite (same_core_none h h' p H Ep).
Qed.

Lemma core_is_Some p : is_Some (h !! p) -> is_Some (h' !! p).
Proof. intros [n Hn]. destruct (same_lookup h h' p n H Hn) as (n' & -> & _). done. Qed.

Lemma core_chain_ok c : chain_ok h c -> chain_ok h' c.
Proof. intros [-> | (t & Ht & ->)]; [by left |]. right. exists t. split; [by apply core_is_Some | by rewrite core_branch]. Qed.

Lemma core_Contains c p : chain_Contains h' c p = chain_Contains h c p.
Proof.
  unfold chain_Contains. cbn [deref]. destruct (h !! p) as [n |] eqn:Ep.
  - destruct (same_lookup h h' p n H Ep) as (n' & -> & Hs). cbn [obind]. by rewrite (sn_height _ _ Hs).
  - by rewrite (same_core_none h h' p H Ep).
Qed.

Lemma core_work_less `{BlockAddresses} p q : work_less h' p q = work_less h p q.
Proof.
  unfold work_less. cbn [deref]. destruct (h !! p) as [n |] eqn:Ep; [| by rewrite (same_core_none h h' p H Ep)].
  destruct (same_lookup h h' p n H Ep) as (n' & -> & Hs). cbn [obind].
  destruct (h !! q) as [m |] eqn:Eq; [| by rewrite (same_core_none h h' q H Eq)]. destruct (same_lookup h h' q m H Eq) as (m' & -> & Hm). cbn [obind].
  by rewrite (sn_work _ _ Hs), (sn_work _ _ Hm), (sn_id _ _ Hs), (sn_id _ _ Hm).
Qed.
End Same.

(** ** The order *)

Definition works_wf (h : list CBlockIndex) : Prop := forall p n, h !! p = Some n -> wf_uint WIDTH (nChainWork n).

Section Order.
Context `{A : BlockAddresses} `{Hinj : !Inj (=) (=) address} (h : list CBlockIndex) (Hwf : works_wf h).

Definition worse (p q : nat) : Prop := work_less h p q = Ret true.

(** The comparison as one of three numbers. *)
Lemma work_less_run p q n m : h !! p = Some n -> h !! q = Some m -> exists b, work_less h p q = Ret b /\
  (b = true <-> uval (nChainWork n) < uval (nChainWork m) \/ uval (nChainWork n) = uval (nChainWork m) /\
     (nSequenceId m < nSequenceId n \/ nSequenceId m = nSequenceId n /\ address q < address p)).
Proof.
  intros Hp Hq. unfold work_less. cbn [deref]. rewrite Hp, Hq. cbn [obind]. eexists. split; [done |].
  rewrite !(CompareTo_spec WIDTH) by eauto. repeat (case_match; bool_to_prop); split; intros; try done; try lia.
Qed.

Lemma worse_irrefl p : is_Some (h !! p) -> ~ worse p p.
Proof. intros [n Hn] H. destruct (work_less_run p p n n Hn Hn) as (b & E & Hb). unfold worse in H. rewrite E in H. injection H as ->. apply proj1 in Hb. specialize (Hb eq_refl). lia. Qed.

Lemma worse_valid p q : worse p q -> is_Some (h !! p) /\ is_Some (h !! q).
Proof. unfold worse, work_less. cbn [deref]. destruct (h !! p); [| done]. cbn [obind]. destruct (h !! q); done. Qed.

Lemma worse_trans p q r : worse p q -> worse q r -> worse p r.
Proof.
  intros H1 H2. destruct (worse_valid p q H1) as [[n Hn] [m Hm]]. destruct (worse_valid q r H2) as [_ [k Hk]]. unfold worse in *.
  destruct (work_less_run p q n m Hn Hm) as (b1 & E1 & B1). destruct (work_less_run q r m k Hm Hk) as (b2 & E2 & B2). destruct (work_less_run p r n k Hn Hk) as (b3 & E3 & B3).
  rewrite E1 in H1. rewrite E2 in H2. rewrite E3. injection H1 as ->. injection H2 as ->. f_equal. apply B3. apply proj1 in B1, B2. specialize (B1 eq_refl). specialize (B2 eq_refl). lia.
Qed.

Lemma worse_total p q : is_Some (h !! p) -> is_Some (h !! q) -> p = q \/ worse p q \/ worse q p.
Proof.
  intros [n Hn] [m Hm]. unfold worse. destruct (work_less_run p q n m Hn Hm) as (b1 & -> & B1). destruct (work_less_run q p m n Hm Hn) as (b2 & -> & B2).
  destruct (decide (address p = address q)) as [E | E]; [left; by apply Hinj |]. right.
  destruct b1; [by left |]. destruct b2; [by right |]. exfalso. destruct B1 as [_ B1], B2 as [_ B2].
  destruct (Z.lt_trichotomy (uval (nChainWork n)) (uval (nChainWork m))) as [? | [? | ?]]; [enough (false = true) by done; apply B1; lia | | enough (false = true) by done; apply B2; lia].
  destruct (Z.lt_trichotomy (nSequenceId n) (nSequenceId m)) as [? | [? | ?]]; [enough (false = true) by done; apply B2; lia | | enough (false = true) by done; apply B1; lia].
  destruct (Z.lt_trichotomy (address p) (address q)) as [? | [? | ?]]; [enough (false = true) by done; apply B2; lia | done | enough (false = true) by done; apply B1; lia].
Qed.

Lemma work_less_false p q : is_Some (h !! p) -> is_Some (h !! q) -> work_less h p q = Ret false <-> ~ worse p q.
Proof.
  intros [n Hn] [m Hm]. destruct (work_less_run p q n m Hn Hm) as (b & E & _). unfold worse. rewrite E. destruct b; split; congruence.
Qed.

(** At least as good. *)
Definition atmost (p q : nat) : Prop := p = q \/ worse p q.

Lemma atmost_trans p q r : atmost p q -> atmost q r -> atmost p r.
Proof. intros [-> | H1] [-> | H2]; unfold atmost; eauto using worse_trans. Qed.

Lemma not_worse_atmost p q : is_Some (h !! p) -> is_Some (h !! q) -> ~ worse p q -> atmost q p.
Proof. intros Hp Hq H. destruct (worse_total p q Hp Hq) as [-> | [? | ?]]; [by left | done | by right]. Qed.

Lemma last_candidate_run l : Forall (fun p => is_Some (h !! p)) l -> exists r, last_candidate h l = Ret r /\
  match r with None => l = [] | Some p => p ∈ l /\ forall q, q ∈ l -> atmost q p end.
Proof.
  induction 1 as [| p l Hp Hl IH]; [by exists None |]. destruct IH as (r & E & Hr). cbn [last_candidate]. rewrite E. cbn [obind]. destruct r as [q |].
  - destruct Hr as [Hin Hmax]. assert (Hq : is_Some (h !! q)) by exact (proj1 (list.Forall_forall _ l) Hl q Hin). destruct Hp as [n Hn], Hq as [m Hm].
    destruct (work_less_run q p m n Hm Hn) as (b & Eb & _). rewrite Eb. cbn [obind]. eexists. split; [done |]. cbv iota. destruct b.
    + split; [by left |]. intros x [-> | Hx]%elem_of_cons; [by left |]. apply (atmost_trans x q); [auto | by right].
    + split; [by right |]. intros x [-> | Hx]%elem_of_cons; [| auto]. apply not_worse_atmost; [done.. |]. by apply work_less_false.
  - subst l. eexists. split; [done |]. split; [by left |]. intros x Hx%list_elem_of_singleton. by left.
Qed.

Lemma first_candidate_run l : Forall (fun p => is_Some (h !! p)) l -> exists r, first_candidate h l = Ret r /\
  match r with None => l = [] | Some p => p ∈ l /\ forall q, q ∈ l -> atmost p q end.
Proof.
  induction 1 as [| p l Hp Hl IH]; [by exists None |]. destruct IH as (r & E & Hr). cbn [first_candidate]. rewrite E. cbn [obind]. destruct r as [q |].
  - destruct Hr as [Hin Hmin]. assert (Hq : is_Some (h !! q)) by exact (proj1 (list.Forall_forall _ l) Hl q Hin). destruct Hp as [n Hn], Hq as [m Hm].
    destruct (work_less_run p q n m Hn Hm) as (b & Eb & _). rewrite Eb. cbn [obind]. eexists. split; [done |]. cbv iota. destruct b.
    + split; [by left |]. intros x [-> | Hx]%elem_of_cons; [by left |]. apply (atmost_trans p q); [by right | auto].
    + split; [by right |]. intros x [-> | Hx]%elem_of_cons; [| auto]. apply not_worse_atmost; [done.. |]. by apply work_less_false.
  - subst l. eexists. split; [done |]. split; [by left |]. intros x Hx%list_elem_of_singleton. by left.
Qed.
End Order.

(** ** Paths to the active chain *)

Definition in_chain (h : list CBlockIndex) (c : list (option nat)) (q : nat) : Prop := chain_Contains h c q = Ret true.

Definition failed_at (h : list CBlockIndex) (q : nat) : Prop := exists n, h !! q = Some n /\ flag (nStatus n) BLOCK_FAILED_MASK = true.

Definition data_at (h : list CBlockIndex) (q : nat) : Prop := exists n, h !! q = Some n /\ flag (nStatus n) BLOCK_HAVE_DATA = true.

(** Every block of the branch that is not active yet has its data and has not failed. *)
Definition usable (h : list CBlockIndex) (c : list (option nat)) (p : nat) : Prop :=
  forall q, anc h q p -> ~ in_chain h c q -> ~ failed_at h q /\ data_at h q.

(** The transactions of the whole branch have been received. *)
Definition linked (h : list CBlockIndex) (p : nat) : Prop := forall q m, anc h q p -> h !! q = Some m -> nChainTx m <> 0 \/ nHeight m = 0.

Section Paths.
Context (h : list CBlockIndex) (Hok : heap_ok h).

Lemma anc_valid q p : is_Some (h !! p) -> anc h q p -> is_Some (h !! q).
Proof. intros [n Hn] Ha. destruct (anc_height h Hok q p n Hn Ha) as (m & Hm & _). by exists m. Qed.

Lemma Contains_run c q : chain_ok h c -> is_Some (h !! q) -> exists b, chain_Contains h c q = Ret b /\
  (b = true <-> exists t, is_Some (h !! t) /\ c = branch h t /\ anc h q t).
Proof.
  intros [-> | (t & [n Ht] & ->)] [m Hm].
  - exists false. split; [| split; [done |]].
    + unfold chain_Contains. cbn [deref]. rewrite Hm. cbn [obind]. unfold chain_at, Zlen. cbn [length]. pose proof (node_height _ _ _ (Hok _ _ Hm)).
      rewrite (proj2 (Z.ltb_ge (nHeight m) 0)) by lia. rewrite Z.geb_leb, (proj2 (Z.leb_le _ _)) by lia. done.
    + intros (t & [n Hn] & E & _). apply (f_equal length) in E. by rewrite (branch_length h t n Hn) in E.
  - destruct (chain_Contains_branch h Hok q m t n Hm Ht) as (b & E & Hb). exists b. split; [done |]. rewrite Hb. split; [intros Ha; by exists t |].
    intros (t' & [n' Ht'] & E' & Ha).
    assert (El : nHeight n = nHeight n').
    { apply (f_equal length) in E'. rewrite (branch_length h t n Ht), (branch_length h t' n' Ht') in E'.
      pose proof (node_height _ _ _ (Hok _ _ Ht)). pose proof (node_height _ _ _ (Hok _ _ Ht')). lia. }
    assert (t = t') as ->; [| done]. apply (f_equal (.!! Z.to_nat (nHeight n))) in E'. rewrite (branch_lookup h t n), (branch_lookup h t' n') in E' by (done || lia).
    rewrite El, Nat.sub_diag in E'. cbn [back] in E'. congruence.
Qed.

Lemma in_chain_dec c q : chain_ok h c -> is_Some (h !! q) -> in_chain h c q \/ chain_Contains h c q = Ret false /\ ~ in_chain h c q.
Proof. intros Hc Hq. unfold in_chain. destruct (Contains_run c q Hc Hq) as (b & -> & _). destruct b; [by left | by right]. Qed.

Lemma in_chain_down c q x : chain_ok h c -> is_Some (h !! q) -> in_chain h c q -> anc h x q -> in_chain h c x.
Proof.
  intros Hc Hq Hin Ha. unfold in_chain in *. destruct (Contains_run c q Hc Hq) as (b & E & Hb). rewrite E in Hin. injection Hin as ->.
  destruct (proj1 Hb eq_refl) as (t & Ht & Ec & Hqt). destruct (Contains_run c x Hc (anc_valid x q Hq Ha)) as (b' & -> & Hb'). f_equal. apply Hb'.
  exists t. split; [done |]. split; [done |]. by apply (anc_trans h x q t).
Qed.

Lemma linked_down p q : linked h p -> anc h q p -> linked h q.
Proof. intros Hl Ha x m Hx. apply Hl. by apply (anc_trans h x q p). Qed.

Lemma usable_down c p q : usable h c p -> anc h q p -> usable h c q.
Proof. intros Hu Ha x Hx. apply Hu. by apply (anc_trans h x q p). Qed.

Lemma scan_path_run c fuel : chain_ok h c -> forall p n, h !! p = Some n -> linked h p -> nHeight n < Z.of_nat fuel ->
  exists r, scan_path fuel h c (Some p) = Ret r /\
    match r with
    | None => usable h c p
    | Some (t, f) => anc h t p /\ ~ in_chain h c t /\ if f : bool then failed_at h t else ~ data_at h t
    end.
Proof.
  intros Hc. induction fuel as [| fuel IH]; intros p n Hp Hl Hf; [pose proof (node_height _ _ _ (Hok _ _ Hp)); lia |].
  cbn [scan_path]. destruct (in_chain_dec c p Hc ltac:(by exists n)) as [Hin | [E Hin]].
  { unfold in_chain in Hin. rewrite Hin. cbn [obind]. exists None. split; [done |]. intros q Hq Hn. exfalso. apply Hn. by apply (in_chain_down c p q Hc). }
  rewrite E. cbn [obind deref]. rewrite Hp. cbn [obind].
  replace (negb (nChainTx n =? 0) || (nHeight n =? 0)) with true by (destruct (Hl p n (anc_refl h p) Hp); repeat case_match; bool_to_prop; cbn; try done; lia).
  cbn [cassert obind]. destruct (flag (nStatus n) BLOCK_FAILED_MASK) eqn:Ef; cbn [orb].
  { eexists. split; [done |]. split; [apply anc_refl |]. split; [done |]. by exists n. }
  destruct (flag (nStatus n) BLOCK_HAVE_DATA) eqn:Ed; cbn [negb].
  2: { eexists. split; [done |]. split; [apply anc_refl |]. split; [done |]. intros (n' & Hn' & ?). congruence. }
  assert (Hgood : ~ failed_at h p /\ data_at h p) by (split; [intros (n' & Hn' & ?); congruence | by exists n]).
  pose proof (Hok p n Hp) as Hnode. unfold node_ok in Hnode. destruct (pprev n) as [q |] eqn:Epr.
  - destruct Hnode as (_ & (m & Hm & Hh & _) & _). pose proof (anc_prev h p n q Hp Epr) as Hqp.
    destruct (IH q m Hm (linked_down p q Hl Hqp) ltac:(lia)) as (r & Er & Hr). exists r. split; [done |]. destruct r as [[t f] |].
    + destruct Hr as (H1 & H2). split; [by apply (anc_trans h t q p) | done].
    + intros x Hx. destruct (anc_cases h x p n Hp Hx) as [-> | (y & Hy & Hxy)]; [done |]. assert (y = q) as -> by congruence. by apply Hr.
  - exists None. split; [by destruct fuel |]. intros x Hx. destruct (anc_cases h x p n Hp Hx) as [-> | (y & Hy & _)]; [done | congruence].
Qed.

Lemma bad_path c t x (f : bool) : anc h t x -> ~ in_chain h c t -> (if f then failed_at h t else ~ data_at h t) -> ~ usable h c x.
Proof. intros Ha Hin Hbad Hu. destruct (Hu t Ha Hin) as [? ?]. by destruct f. Qed.
End Paths.

(** ** Marks on descendants of failed blocks *)

(** [h'] is [h] with more blocks marked as failed, each of which has an ancestor off the
    chain that had failed. *)
Record marks (h : list CBlockIndex) (c : list (option nat)) (h' : list CBlockIndex) : Prop := {
  mk_core : same_core h h';
  mk_data : forall x, data_at h' x <-> data_at h x;
  mk_keep : forall x, failed_at h x -> failed_at h' x;
  mk_new : forall x, failed_at h' x -> failed_at h x \/ exists t, anc h t x /\ ~ in_chain h c t /\ failed_at h t
}.

Lemma marks_refl h c : marks h c h.
Proof. split; [reflexivity | done | done | by left]. Qed.

Lemma marks_trans h1 h2 h3 c : marks h1 c h2 -> marks h2 c h3 -> marks h1 c h3.
Proof.
  intros [C1 D1 K1 N1] [C2 D2 K2 N2]. split; [by transitivity h2 | intros x; by rewrite D2 | auto |].
  intros x [Hx | (t & Ht & Hin & Hf)]%N2; [auto |]. rewrite (core_anc h1 h2 C1) in Ht. unfold in_chain in Hin. rewrite (core_Contains h1 h2 C1) in Hin.
  destruct (N1 t Hf) as [? | (s & Hs & Hs2 & Hs3)]; [right; by exists t |]. right. exists s. split; [by apply (anc_trans h1 s t x) | done].
Qed.

Lemma marks_usable h c h' p : marks h c h' -> usable h' c p <-> usable h c p.
Proof.
  intros [C D K N]. unfold usable. split; intros Hu q Hq Hin.
  - rewrite <- (core_anc h h' C) in Hq. unfold in_chain in Hin. rewrite <- (core_Contains h h' C) in Hin. destruct (Hu q Hq Hin) as [H1 H2]. split; [auto | by apply D].
  - rewrite (core_anc h h' C) in Hq. unfold in_chain in Hin. rewrite (core_Contains h h' C) in Hin. destruct (Hu q Hq Hin) as [H1 H2]. split; [| by apply D].
    intros [? | (t & Ht & Htin & Hf)]%N; [done |]. by apply (Hu t (anc_trans h t q p Ht Hq) Htin).
Qed.

Lemma flag_lor_other s a m : Z.land a m = 0 -> flag (Z.lor s a) m = flag s m.
Proof. intros H. unfold flag. by rewrite Z.land_lor_distr_l, H, Z.lor_0_r. Qed.

Lemma flag_lor_mask s a m : Z.land a m <> 0 -> flag (Z.lor s a) m = true.
Proof. intros H. unfold flag. apply negb_true_iff, Z.eqb_neq. rewrite Z.land_lor_distr_l. intros [_ E]%Z.lor_eq_0_iff. done. Qed.

Lemma failed_insert h p n n' x : h !! p = Some n -> failed_at (<[p := n']> h) x <-> if decide (x = p) then flag (nStatus n') BLOCK_FAILED_MASK = true else failed_at h x.
Proof.
  intros Hp. unfold failed_at. destruct (decide (x = p)) as [-> | Hne].
  - rewrite list_lookup_insert_eq by (by eapply lookup_lt_Some). split; [intros (m & [= <-] & ?); done | intros ?; by exists n'].
  - by rewrite list_lookup_insert_ne by done.
Qed.

Lemma data_insert h p n n' x : h !! p = Some n -> data_at (<[p := n']> h) x <-> if decide (x = p) then flag (nStatus n') BLOCK_HAVE_DATA = true else data_at h x.
Proof.
  intros Hp. unfold data_at. destruct (decide (x = p)) as [-> | Hne].
  - rewrite list_lookup_insert_eq by (by eapply lookup_lt_Some). split; [intros (m & [= <-] & ?); done | intros ?; by exists n'].
  - by rewrite list_lookup_insert_ne by done.
Qed.

Lemma data_lookup h p n : h !! p = Some n -> data_at h p <-> flag (nStatus n) BLOCK_HAVE_DATA = true.
Proof. intros Hp. unfold data_at. split; [intros (m & Hm & ?); congruence | intros ?; by exists n]. Qed.

Lemma failed_lookup h p n : h !! p = Some n -> failed_at h p <-> flag (nStatus n) BLOCK_FAILED_MASK = true.
Proof. intros Hp. unfold failed_at. split; [intros (m & Hm & ?); congruence | intros ?; by exists n]. Qed.

(** One more mark. *)
Lemma mark_child h c p n t : h !! p = Some n -> anc h t p -> ~ in_chain h c t -> failed_at h t ->
  marks h c (<[p := set_nStatus n (Z.lor (nStatus n) BLOCK_FAILED_CHILD)]> h).
Proof.
  intros Hp Ha Hin Hf. split.
  - by apply (same_insert h p n).
  - intros x. rewrite (data_insert h p n) by done. destruct (decide (x = p)) as [-> |]; [| done]. rewrite (data_lookup h p n Hp). cbn [set_nStatus nStatus]. by rewrite flag_lor_other.
  - intros x Hx. rewrite (failed_insert h p n) by done. destruct (decide (x = p)) as [-> |]; [| done]. cbn [set_nStatus nStatus]. by apply flag_lor_mask.
  - intros x. rewrite (failed_insert h p n) by done. destruct (decide (x = p)) as [-> |]; [| by left]. intros _. right. by exists t.
Qed.

Section Find.
Context {E : Type} `{A : BlockAddresses}.
Implicit Types st : CChainState E.

(** The candidates that disappear are of no use. *)
Record trimmed st st' : Prop := {
  tr_marks : marks (cc_blocks st) (chainActive st) (cc_blocks st');
  tr_chain : chainActive st' = chainActive st;
  tr_sub : setBlockIndexCandidates st' ⊆ setBlockIndexCandidates st;
  tr_gone : forall x, x ∈ setBlockIndexCandidates st -> x ∉ setBlockIndexCandidates st' -> ~ usable (cc_blocks st) (chainActive st) x;
  tr_env : cc_env st' = cc_env st
}.

Lemma trimmed_refl st : trimmed st st.
Proof. split; [apply marks_refl | done | done | done | done]. Qed.

Lemma trimmed_trans st1 st2 st3 : trimmed st1 st2 -> trimmed st2 st3 -> trimmed st1 st3.
Proof.
  intros [M1 C1 S1 G1 E1] [M2 C2 S2 G2 E2]. rewrite C1 in M2, G2. split; [by apply (marks_trans _ (cc_blocks st2)) | congruence | set_solver | | congruence].
  intros x Hx Hn. destruct (decide (x ∈ setBlockIndexCandidates st2)) as [H2 |]; [| by apply G1]. rewrite <- (marks_usable _ _ _ x M1). by apply G2.
Qed.

Lemma erase_trimmed st p : ~ usable (cc_blocks st) (chainActive st) p -> trimmed st (erase st p).
Proof.
  intros Hu. split; [apply marks_refl | done | | | done]; cbn [erase with_candidates setBlockIndexCandidates]; [set_solver |].
  intros x Hx Hn. destruct (decide (x = p)) as [-> | Hne]; [done |]. exfalso. apply Hn. set_solver.
Qed.

Lemma remove_path_run (h : list CBlockIndex) c t (f : bool) fuel : heap_ok h -> ~ in_chain h c t -> (if f then failed_at h t else ~ data_at h t) ->
  forall st p n, marks h c (cc_blocks st) -> chainActive st = c -> h !! p = Some n -> anc h t p -> (exists m, h !! t = Some m /\ nHeight n - nHeight m <= Z.of_nat fuel) ->
  exists st', remove_path fuel st t f (Some p) = Ret st' /\ trimmed st st' /\ (p <> t -> p ∉ setBlockIndexCandidates st').
Proof.
  intros Hok Hin Hbad. induction fuel as [| fuel IH]; intros st p n Hm Hc Hp Ha (m & Ht & Hf); cbn [remove_path]; case_bool_decide as Ept.
  1, 3: exists st; split; [done |]; split; [apply trimmed_refl | congruence].
  - exfalso. destruct (anc_height h Hok t p n Hp Ha) as (m' & Hm' & Hb & Hk). rewrite Ht in Hm'. injection Hm' as <-.
    apply Ept. f_equal. symmetry. apply (anc_same_height h Hok t p m n); [done | done | lia | done].
  - pose proof (mk_core _ _ _ Hm) as Hcore. destruct (same_lookup _ _ p n Hcore Hp) as (n' & Hn' & Hs). cbn [deref]. rewrite Hn'. cbn [obind]. rewrite (sn_prev _ _ Hs).
    destruct (anc_cases h t p n Hp Ha) as [-> | (q & Eq & Hq)]; [done |]. rewrite Eq.
    pose proof (Hok p n Hp) as Hnode. unfold node_ok in Hnode. rewrite Eq in Hnode. destruct Hnode as (_ & (mq & Hmq & Hh & _) & _).
    set (st1 := if f then with_node st p (set_nStatus n' (Z.lor (nStatus n') BLOCK_FAILED_CHILD)) else with_unlinked st (mapBlocksUnlinked st ++ [(Some q, p)])).
    assert (Hu : ~ usable (cc_blocks st) c p) by (rewrite (marks_usable h c _ p Hm); by apply (bad_path h c t p f)).
    assert (T1 : trimmed st st1).
    { subst st1. destruct f; [| by split; [apply marks_refl | ..]]. split; [| done | done | done | done]. rewrite Hc. apply (mark_child _ _ p n' t); [done | by apply (core_anc h) | | by apply Hm].
      unfold in_chain. by rewrite (core_Contains h _ Hcore). }
    assert (T2 : trimmed st (erase st1 p)).
    { apply (trimmed_trans _ st1); [done |]. apply erase_trimmed. rewrite (tr_chain _ _ T1), Hc, (marks_usable (cc_blocks st)); [done |]. rewrite <- Hc. by apply T1. }
    destruct (IH (erase st1 p) q mq) as (st' & Er & Htr & _).
    + apply (marks_trans _ (cc_blocks st)); [done |]. rewrite <- Hc. by apply T2.
    + by rewrite (tr_chain _ _ T2).
    + done.
    + done.
    + exists m. split; [done | lia].
    + exists st'. split; [done |]. split; [by apply (trimmed_trans _ (erase st1 p)) |]. intros _ Hx. apply (tr_sub _ _ Htr) in Hx. cbn [erase with_candidates setBlockIndexCandidates] in Hx. set_solver.
Qed.
(** What the search relies on. *)
Record sel_ok st : Prop := {
  so_heap : heap_ok (cc_blocks st);
  so_wf : works_wf (cc_blocks st);
  so_chain : chain_ok (cc_blocks st) (chainActive st);
  so_cands : forall p, p ∈ setBlockIndexCandidates st -> is_Some (cc_blocks st !! p) /\ linked (cc_blocks st) p;
  so_invalid : forall p, pindexBestInvalid st = Some p -> is_Some (cc_blocks st !! p)
}.

Lemma core_linked h h' p : same_core h h' -> linked h p -> linked h' p.
Proof.
  intros Hs Hl q m' Hq Hm'. destruct (same_lookup_r h h' q m' Hs Hm') as (m & Hm & Hsn). rewrite (sn_tx _ _ Hsn), (sn_height _ _ Hsn).
  apply (Hl q m); [by apply (core_anc h h' Hs) | done].
Qed.

Lemma core_works_wf h h' : same_core h h' -> works_wf h -> works_wf h'.
Proof. intros Hs Hw p n' Hp. destruct (same_lookup_r h h' p n' Hs Hp) as (n & Hn & Hsn). rewrite (sn_work _ _ Hsn). by apply (Hw p). Qed.

(** The invariant survives changes of the status. *)
Lemma sel_ok_core st st' : sel_ok st -> same_core (cc_blocks st) (cc_blocks st') -> chain_ok (cc_blocks st) (chainActive st') ->
  setBlockIndexCandidates st' ⊆ setBlockIndexCandidates st -> (forall p, pindexBestInvalid st' = Some p -> is_Some (cc_blocks st !! p)) -> sel_ok st'.
Proof.
  intros [H1 H2 H3 H4 H5] Hs Hc Hsub Hi. split.
  - by apply (core_heap_ok (cc_blocks st)).
  - by apply (core_works_wf (cc_blocks st)).
  - by apply (core_chain_ok (cc_blocks st)).
  - intros p Hp. apply Hsub in Hp. destruct (H4 p Hp). split; [by apply (core_is_Some (cc_blocks st)) | by apply (core_linked (cc_blocks st))].
  - intros p Hp. by apply (core_is_Some (cc_blocks st)), Hi.
Qed.

Lemma note_invalid_run st p : sel_ok st -> is_Some (cc_blocks st !! p) ->
  exists b, note_invalid st p = Ret (with_best_invalid st (Some b)) /\ is_Some (cc_blocks st !! b).
Proof.
  intros Hok [n Hn]. unfold note_invalid. destruct (pindexBestInvalid st) as [b |] eqn:Eb; [| by exists p].
  destruct (so_invalid st Hok b Eb) as [nb Hnb]. cbn [deref]. rewrite Hn, Hnb. cbn [obind]. destruct (_ >? _); [by exists p |]. exists b. split; [| done].
  f_equal. destruct st. cbn in *. by subst.
Qed.

Lemma steps_lookup h p n : h !! p = Some n -> steps h (Some p) = Z.to_nat (nHeight n).
Proof. intros Hp. cbn [steps]. by rewrite Hp. Qed.

Lemma remove_path_invalid fuel : forall st t f p st', remove_path fuel st t f p = Ret st' -> pindexBestInvalid st' = pindexBestInvalid st.
Proof.
  induction fuel as [| fuel IH]; intros st t f p st' H; cbn [remove_path] in H; case_bool_decide; try (by injection H as <-); destruct p as [p |]; try done.
  destruct (deref _ _) as [n | | |]; try done. cbn [obind] in H. apply IH in H. rewrite H. by destruct f.
Qed.

(** The result of the search, [st] before and [st'] after it. *)
Definition most_work st (r : option nat) st' : Prop :=
  trimmed st st' /\ sel_ok st' /\
  match r with
  | Some p => p ∈ setBlockIndexCandidates st' /\ usable (cc_blocks st) (chainActive st) p /\
      forall q, q ∈ setBlockIndexCandidates st -> usable (cc_blocks st) (chainActive st) q -> atmost (cc_blocks st) q p
  | None => setBlockIndexCandidates st' = ∅
  end.

(** The best candidate and the scan of its path. *)
Lemma best_candidate `{Hinj : !Inj (=) (=) address} st : sel_ok st -> exists r, last_candidate (cc_blocks st) (elements (setBlockIndexCandidates st)) = Ret r /\
  match r with
  | None => setBlockIndexCandidates st = ∅
  | Some p => p ∈ setBlockIndexCandidates st /\ (forall q, q ∈ setBlockIndexCandidates st -> atmost (cc_blocks st) q p) /\
      exists bad, scan_path (S (steps (cc_blocks st) (Some p))) (cc_blocks st) (chainActive st) (Some p) = Ret bad /\
        match bad with
        | None => usable (cc_blocks st) (chainActive st) p
        | Some (t, f) => anc (cc_blocks st) t p /\ ~ in_chain (cc_blocks st) (chainActive st) t /\ if f : bool then failed_at (cc_blocks st) t else ~ data_at (cc_blocks st) t
        end
  end.
Proof.
  intros Hok. destruct (last_candidate_run (cc_blocks st) (so_wf st Hok) (elements (setBlockIndexCandidates st))) as (r & Er & Hr).
  { apply list.Forall_forall. intros p Hp%elem_of_elements. by apply Hok. }
  exists r. split; [done |]. destruct r as [p |]; [| by apply leibniz_equiv, elements_empty_iff].
  destruct Hr as [Hp%elem_of_elements Hmax]. split; [done |]. split; [intros q Hq; by apply Hmax, elem_of_elements |].
  destruct (so_cands st Hok p Hp) as [[n Hn] Hl]. apply (scan_path_run (cc_blocks st) (so_heap st Hok) _ _ (so_chain st Hok) p n Hn Hl).
  rewrite (steps_lookup _ p n Hn). pose proof (node_height _ _ _ (so_heap st Hok p n Hn)). lia.
Qed.

(** A bad path costs its candidates. *)
Lemma drop_path st p t (f : bool) : sel_ok st -> p ∈ setBlockIndexCandidates st -> anc (cc_blocks st) t p -> ~ in_chain (cc_blocks st) (chainActive st) t ->
  (if f then failed_at (cc_blocks st) t else ~ data_at (cc_blocks st) t) ->
  exists st1 st2, (if f then note_invalid st p else Ret st) = Ret st1 /\ remove_path (steps (cc_blocks st1) (Some p)) st1 t f (Some p) = Ret st2 /\
    trimmed st (erase st2 t) /\ sel_ok (erase st2 t) /\ (size (setBlockIndexCandidates (erase st2 t)) < size (setBlockIndexCandidates st))%nat.
Proof.
  intros Hok Hp Ha Hin Hbad. destruct (so_cands st Hok p Hp) as [[n Hn] Hl].
  assert (H1 : exists b, (if f then note_invalid st p else Ret st) = Ret (with_best_invalid st b) /\ forall x, b = Some x -> is_Some (cc_blocks st !! x)).
  { destruct f; [destruct (note_invalid_run st p Hok ltac:(by exists n)) as (b & -> & Hb); exists (Some b); split; [done | by intros ? [= <-]] |].
    exists (pindexBestInvalid st). split; [by destruct st | apply Hok]. }
  destruct H1 as (b & E1 & Hb). set (st1 := with_best_invalid st b) in *. destruct (anc_valid _ (so_heap st Hok) t p ltac:(by exists n) Ha) as [m Hm].
  destruct (remove_path_run (cc_blocks st) (chainActive st) t f (steps (cc_blocks st1) (Some p)) (so_heap st Hok) Hin Hbad st1 p n) as (st2 & E2 & Htr & Hgone);
    [apply marks_refl | done | done | done | |].
  { exists m. split; [done |]. change (cc_blocks st1) with (cc_blocks st). rewrite (steps_lookup _ p n Hn).
    pose proof (node_height _ _ _ (so_heap st Hok p n Hn)). pose proof (node_height _ _ _ (so_heap st Hok t m Hm)). lia. }
  assert (T2 : trimmed st st2) by (destruct Htr; by split).
  assert (T3 : trimmed st (erase st2 t)).
  { apply (trimmed_trans _ st2); [done |]. apply erase_trimmed. rewrite (tr_chain _ _ T2), (marks_usable (cc_blocks st)) by apply T2.
    apply (bad_path _ _ t t f); [apply anc_refl | done | done]. }
  exists st1, st2. split; [done |]. split; [done |]. split; [done |]. split.
  - apply (sel_ok_core st); [done | apply T3 | rewrite (tr_chain _ _ T3); apply Hok | apply T3 |]. intros x Hx. apply remove_path_invalid in E2.
    change (pindexBestInvalid (erase st2 t)) with (pindexBestInvalid st2) in Hx. rewrite E2 in Hx. by apply Hb.
  - apply subset_size. split; [apply T3 |]. intros Hsub. specialize (Hsub p Hp). cbn [erase with_candidates setBlockIndexCandidates] in Hsub.
    destruct (decide (p = t)) as [-> | Hne]; [set_solver |]. apply (Hgone Hne). set_solver.
Qed.

Lemma most_work_trimmed st st1 r st' : trimmed st st1 -> most_work st1 r st' -> most_work st r st'.
Proof.
  intros T1 (T2 & Hok & Hr). split; [by apply (trimmed_trans _ st1) |]. split; [done |]. destruct r as [p |]; [| done]. destruct Hr as (Hp & Hu & Hmax).
  pose proof (tr_marks _ _ T1) as Hm. rewrite (tr_chain _ _ T1) in Hu, Hmax. rewrite (marks_usable (cc_blocks st)) in Hu by done. split; [done |]. split; [done |].
  intros q Hq Hqu. destruct (decide (q ∈ setBlockIndexCandidates st1)) as [Hq1 | Hq1]; [| by destruct (tr_gone _ _ T1 q Hq Hq1)].
  destruct (Hmax q Hq1) as [-> | Hw]; [by rewrite (marks_usable (cc_blocks st)) | by left |]. right. unfold worse in *. by rewrite <- (core_work_less _ _ (mk_core _ _ _ Hm)).
Qed.

Lemma FindMostWorkChain_loop_run `{Hinj : !Inj (=) (=) address} fuel : forall st, sel_ok st -> (size (setBlockIndexCandidates st) <= fuel)%nat ->
  exists r st', FindMostWorkChain_loop fuel st = Ret (r, st') /\ most_work st r st'.
Proof.
  assert (Hdone : forall st p, sel_ok st -> p ∈ setBlockIndexCandidates st -> (forall q, q ∈ setBlockIndexCandidates st -> atmost (cc_blocks st) q p) ->
    usable (cc_blocks st) (chainActive st) p -> most_work st (Some p) st) by (intros st p H1 H2 H3 H4; split; [apply trimmed_refl | by auto]).
  induction fuel as [| fuel IH]; intros st Hok Hf; destruct (best_candidate st Hok) as (r & Er & Hr); cbn [FindMostWorkChain_loop]; rewrite Er; cbn [obind];
    (destruct r as [p |]; [destruct Hr as (Hp & Hmax & bad & Es & Hbad) | exists None, st; split; [done |]; split; [apply trimmed_refl | done]]).
  - assert (size (setBlockIndexCandidates st) <> 0%nat) by (intros E0%size_empty_inv; by apply E0 in Hp). lia.
  - rewrite Es. cbn [obind]. destruct bad as [[t f] |]; [| exists (Some p), st; split; [done | by apply Hdone]]. destruct Hbad as (Ha & Hin & Hbad).
    destruct (drop_path st p t f Hok Hp Ha Hin Hbad) as (st1 & st2 & -> & E2 & T3 & Hok3 & Hsize). cbn [obind]. rewrite E2. cbn [obind].
    destruct (IH (erase st2 t) Hok3 ltac:(lia)) as (r & st' & -> & Hmw). exists r, st'. split; [done |]. by apply (most_work_trimmed st (erase st2 t)).
Qed.
(** ** Pruning *)

Lemma with_candidates_id st : with_candidates st (setBlockIndexCandidates st) = st.
Proof. by destruct st. Qed.

Lemma prune_loop_run `{Hinj : !Inj (=) (=) address} fuel t : forall st, sel_ok st -> chain_Tip (chainActive st) = Some t -> is_Some (cc_blocks st !! t) ->
  (size (setBlockIndexCandidates st) <= fuel)%nat ->
  exists s, prune_loop fuel st = Ret (with_candidates st s) /\ forall x, x ∈ s <-> x ∈ setBlockIndexCandidates st /\ ~ worse (cc_blocks st) x t.
Proof.
  induction fuel as [| fuel IH]; intros st Hok Ht [nt Hnt] Hf;
    destruct (first_candidate_run (cc_blocks st) (so_wf st Hok) (elements (setBlockIndexCandidates st))) as (r & Er & Hr);
    try (apply list.Forall_forall; intros p Hp%elem_of_elements; by apply Hok); cbn [prune_loop]; rewrite Er; cbn [obind];
    (destruct r as [p |]; [destruct Hr as [Hp%elem_of_elements Hmin] | exists (setBlockIndexCandidates st); rewrite with_candidates_id; split; [done |];
      apply elements_empty_iff in Hr; set_solver]).
  - assert (size (setBlockIndexCandidates st) <> 0%nat) by (intros E0%size_empty_inv; by apply E0 in Hp). lia.
  - rewrite Ht. destruct (so_cands st Hok p Hp) as [[n Hn] _]. destruct (work_less_run (cc_blocks st) (so_wf st Hok) p t n nt Hn Hnt) as (b & Eb & _). rewrite Eb. cbn [obind].
    destruct b.
    + destruct (IH (erase st p)) as (s & Es & Hs); [| done | by exists nt | |].
      * apply (sel_ok_core st); [done | reflexivity | apply Hok | cbn [erase with_candidates setBlockIndexCandidates]; set_solver | apply Hok].
      * cbn [erase with_candidates setBlockIndexCandidates]. rewrite size_difference, size_singleton by set_solver. lia.
      * exists s. split; [done |]. intros x. rewrite Hs. cbn [erase with_candidates setBlockIndexCandidates]. rewrite elem_of_difference, not_elem_of_singleton.
        split; [intros [[? ?] ?]; done |]. intros [Hx Hw]. split; [split; [done |] | done]. intros ->. by apply Hw.
    + exists (setBlockIndexCandidates st). rewrite with_candidates_id. split; [done |]. intros x. split; [| by intros [? _]]. intros Hx. split; [done |]. intros Hw.
      destruct (Hmin x) as [-> | Hpx]; [by apply elem_of_elements | unfold worse in Hw; congruence |].
      pose proof (worse_trans (cc_blocks st) (so_wf st Hok) p x t Hpx Hw) as Hpt. unfold worse in Hpt. congruence.
Qed.

Lemma prune_run `{Hinj : !Inj (=) (=) address} st t p : sel_ok st -> chain_Tip (chainActive st) = Some t -> is_Some (cc_blocks st !! t) ->
  p ∈ setBlockIndexCandidates st -> ~ worse (cc_blocks st) p t ->
  exists s, PruneBlockIndexCandidates st = Ret (with_candidates st s) /\ forall x, x ∈ s <-> x ∈ setBlockIndexCandidates st /\ ~ worse (cc_blocks st) x t.
Proof.
  intros Hok Ht Htv Hp Hw. destruct (prune_loop_run (size (setBlockIndexCandidates st)) t st Hok Ht Htv ltac:(done)) as (s & Es & Hs). exists s. split; [| done].
  unfold PruneBlockIndexCandidates. rewrite Es. cbn [obind]. rewrite bool_decide_false; [done |]. cbn [with_candidates setBlockIndexCandidates]. intros ->.
  assert (p ∈ (∅ : gset nat)) by (by apply Hs). set_solver.
Qed.
End Find.

(** ** Theorems *)

(** A block with its data, received with its whole branch. *)
Definition sample_block_entry (prev : option nat) (height work status : Z) : CBlockIndex :=
  BlockIndex (Some [height]) prev None height 0 0 0 (of_uint64 WIDTH work) 1 (height + 1) status 0x20000000 [] 0 0x1d00ffff 0 height 0.

(** A genesis block with two children; the second has more work, and a failed child. *)
Definition sample_tree : list CBlockIndex :=
  [sample_block_entry None 0 1 (Z.lor 5 8); sample_block_entry (Some 0%nat) 1 2 (Z.lor 3 8); sample_block_entry (Some 0%nat) 1 3 (Z.lor 3 8);
   sample_block_entry (Some 2%nat) 2 4 (Z.lor (Z.lor 3 8) 32)].

Definition sample_chain_state {E} (e : E) : CChainState E :=
  MkCChainState (Manager sample_tree ∅ (Some 3%nat) ∅) {[3%nat]} [Some 0%nat] {[0%nat; 1%nat; 2%nat; 3%nat]} [] None 4 (-1) (zeros WIDTH) e.

Definition sample_addresses : BlockAddresses := {| address := Z.of_nat |}.

Lemma sample_addresses_inj : Inj (=) (=) (@address sample_addresses).
Proof. intros x y H. by apply Nat2Z.inj. Qed.

Lemma sample_tree_cases (P : nat -> CBlockIndex -> Prop) :
  P 0%nat (sample_block_entry None 0 1 (Z.lor 5 8)) -> P 1%nat (sample_block_entry (Some 0%nat) 1 2 (Z.lor 3 8)) -> P 2%nat (sample_block_entry (Some 0%nat) 1 3 (Z.lor 3 8)) ->
  P 3%nat (sample_block_entry (Some 2%nat) 2 4 (Z.lor (Z.lor 3 8) 32)) -> forall p n, sample_tree !! p = Some n -> P p n.
Proof. intros H0 H1 H2 H3 [| [| [| [| p]]]] n; cbn; [by intros [= <-] .. | done]. Qed.

Lemma sample_tree_ok : heap_ok sample_tree.
Proof.
  unfold heap_ok. apply sample_tree_cases; unfold node_ok; cbn; [done | | |].
  all: split; [lia |]; split; [| by left]; eexists; split; [reflexivity |]; cbn; lia.
Qed.

Lemma sample_tree_works : works_wf sample_tree.
Proof. unfold works_wf. apply sample_tree_cases; apply of_uint64_spec; lia. Qed.

Lemma sample_tree_linked p : linked sample_tree p.
Proof. intros q m _. revert q m. apply sample_tree_cases; cbn; lia. Qed.

Lemma sample_sel_ok {E} (e : E) : sel_ok (sample_chain_state e).
Proof.
  split.
  - exact sample_tree_ok.
  - exact sample_tree_works.
  - right. exists 0%nat. split; [by eexists | reflexivity].
  - intros p Hp. cbn [sample_chain_state setBlockIndexCandidates] in Hp. split; [| apply sample_tree_linked].
    apply elem_of_union in Hp as [[[Hp | Hp]%elem_of_union | Hp]%elem_of_union | Hp]; apply elem_of_singleton in Hp as ->; by eexists.
  - done.
Qed.

(** [FindMostWorkChain] ends and returns the best of the candidates, in the order of
    work, arrival and address, whose blocks off the active chain have their data and have
    not failed; it returns none exactly when no candidate is of use, and it gives up no
    candidate that is. It marks only descendants of failed blocks. *)
Theorem FindMostWorkChain_spec {E : Type} `{A : BlockAddresses} `{Hinj : !Inj (=) (=) address} (st : CChainState E) : sel_ok st ->
  exists r st', FindMostWorkChain st = Ret (r, st') /\ most_work st r st'.
Proof. intros Hok. by apply FindMostWorkChain_loop_run. Qed.

Lemma FindMostWorkChain_spec_witness :
  let A := sample_addresses in exists r st', FindMostWorkChain (sample_chain_state tt) = Ret (r, st') /\ most_work (sample_chain_state tt) r st' /\ r = Some 2%nat.
Proof.
  intros A. destruct (FindMostWorkChain_spec (Hinj := sample_addresses_inj) (sample_chain_state tt) (sample_sel_ok tt)) as (r & st' & Er & Hr).
  exists r, st'. split; [exact Er |]. split; [exact Hr |]. vm_compute in Er. injection Er. intros _ H. symmetry. exact H.
Defined.
