(* ===== verification/ActivateProps.v ===== *)
(** * The tip becomes the best block

    [ActivateBestChain] of [BestChain], when the verdict on a block depends on the block
    alone and no corruption is reported: it ends, and unless the system fails the tip is the
    best of all the blocks in the index whose branch is complete and has not failed. Where
    corruption is reported it does not end. *)

From stdpp Require Import gmap.
From S2P Require Import Prelude Common Serialize Transaction Block ArithUint256 ArithProps Chain ChainProps BlockIndexInv Pow TxVerify AcceptHeader.
From S2P Require Import BestChain BestChainProps.

Open Scope Z_scope.
Open Scope outcome_scope.

(** ** The promise of the operations on the tip *)

(** [Inv] is a condition on coins, files and memory pool under which the operations behave:
    they keep it; whether a block can be connected to its parent is then a fact about the
    block, [valid]; an invalid block is not reported as possibly corrupted; and connecting
    changes the position of the undo data and the validity level of the entry at most. A
    state in which the stored blocks are those that were checked when they were received
    is of this kind. An error of the system ends the condition. *)
Record tip_laws {E : Type} {T : TipOps E} (Inv : E -> Prop) (valid : nat -> bool) : Prop := {
  tl_connect : forall e p n r u e', Inv e -> connect_block e p n = (r, u, e') ->
    match r with
    | CONNECT_OK => Inv e' /\ valid p = true
    | CONNECT_INVALID corruption => Inv e' /\ valid p = false /\ corruption = false
    | CONNECT_ERROR => True
    end;
  tl_entry : forall e p n r n' e', Inv e -> connect_block e p n = (r, Some n', e') ->
    same_node n n' /\ flag (nStatus n') BLOCK_FAILED_MASK = flag (nStatus n) BLOCK_FAILED_MASK /\
    flag (nStatus n') BLOCK_HAVE_DATA = flag (nStatus n) BLOCK_HAVE_DATA;
  tl_disconnect : forall e p n e', Inv e -> disconnect_block e p n = (true, e') -> Inv e'
}.

(** ** Facts about the index *)

(** The heaps agree on links, work, failures and data. *)
Record same_status (h h' : list CBlockIndex) : Prop := {
  ss_core : same_core h h';
  ss_failed : forall x, failed_at h' x <-> failed_at h x;
  ss_data : forall x, data_at h' x <-> data_at h x
}.

#[export] Instance same_status_equivalence : Equivalence same_status.
Proof.
  split; [intros h; by split | intros h h' [C F D]; split; [by symmetry | by intros x; rewrite F | by intros x; rewrite D] |].
  intros h1 h2 h3 [C1 F1 D1] [C2 F2 D2]. split; [by transitivity h2 | by intros x; rewrite F2 | by intros x; rewrite D2].
Qed.

(** No block of the branch has failed, and all have their data. *)
Definition clean (h : list CBlockIndex) (p : nat) : Prop := forall x, anc h x p -> ~ failed_at h x /\ data_at h x.

Lemma clean_down h p q : clean h p -> anc h q p -> clean h q.
Proof. intros Hc Ha x Hx. apply Hc. by apply (anc_trans h x q p). Qed.

Lemma same_clean h h' p : same_status h h' -> clean h' p <-> clean h p.
Proof.
  intros [C F D]. unfold clean. split; intros Hc x Hx; [rewrite <- F, <- D | rewrite F, D]; apply Hc; by apply (core_anc h h' C).
Qed.

Lemma linked_core h h' p : same_core h h' -> linked h' p <-> linked h p.
Proof. intros C. split; apply core_linked; [by symmetry | done]. Qed.

(** The chain with a given tip. *)
Definition at_tip (h : list CBlockIndex) (t : option nat) : list (option nat) := match t with Some t => branch h t | None => [] end.

Section Tips.
Context (h : list CBlockIndex) (Hok : heap_ok h).

Lemma Tip_branch t : is_Some (h !! t) -> chain_Tip (branch h t) = Some t.
Proof.
  intros [n Hn]. unfold chain_Tip. rewrite (branch_length h t n Hn). cbn [Nat.sub]. rewrite Nat.sub_0_r, (branch_lookup h t n) by (done || lia).
  by rewrite Nat.sub_diag.
Qed.

Lemma chain_at_tip c : chain_ok h c -> c = at_tip h (chain_Tip c) /\ forall t, chain_Tip c = Some t -> is_Some (h !! t).
Proof. intros [-> | (t & Ht & ->)]; [done |]. rewrite (Tip_branch t Ht). split; [done |]. by intros ? [= <-]. Qed.

Lemma Tip_at_tip t : (forall x, t = Some x -> is_Some (h !! x)) -> chain_Tip (at_tip h t) = t.
Proof. destruct t as [t |]; [| done]. intros H. by apply Tip_branch, H. Qed.

Lemma at_tip_ok t : (forall x, t = Some x -> is_Some (h !! x)) -> chain_ok h (at_tip h t).
Proof. destruct t as [t |]; [| by left]. intros H. right. exists t. split; [by apply H | done]. Qed.

Lemma in_chain_tip t q : is_Some (h !! t) -> is_Some (h !! q) -> in_chain h (branch h t) q <-> anc h q t.
Proof.
  intros [n Hn] [m Hm]. unfold in_chain. destruct (chain_Contains_branch h Hok q m t n Hm Hn) as (b & -> & Hb). rewrite <- Hb. split; [by intros [= ->] | by intros ->].
Qed.

Lemma FindFork_nil p n : h !! p = Some n -> FindFork h [] (Some p) = Ret None.
Proof.
  intros Hp. unfold FindFork. cbn [deref]. rewrite Hp. cbn [obind]. pose proof (node_height _ _ _ (Hok _ _ Hp)). unfold chain_Height, Zlen. cbn [length].
  rewrite Z.gtb_ltb, (proj2 (Z.ltb_lt _ _)) by lia. rewrite (GetAncestor_run h Hok p n _ Hp), Z.gtb_ltb. change (Z.of_nat 0 - 1) with (-1).
  rewrite (proj2 (Z.ltb_ge (nHeight n) (-1))) by lia. cbn [orb]. change (-1 <? 0) with true. cbn [obind]. by destruct (Z.to_nat (nHeight n + 1)).
Qed.

(** The block where the branch of [p] leaves the chain, if it meets it. *)
Lemma FindFork_tip t p : (forall x, t = Some x -> is_Some (h !! x)) -> is_Some (h !! p) ->
  exists f, FindFork h (at_tip h t) (Some p) = Ret f /\ (forall x, f = Some x -> anc h x p) /\
    (forall x, f = Some x -> exists y, t = Some y /\ anc h x y) /\ (forall q y, t = Some y -> anc h q p -> anc h q y -> exists x, f = Some x /\ anc h q x).
Proof.
  intros Ht [n Hn]. destruct t as [t |].
  - destruct (Ht t eq_refl) as [m Hm]. destruct (FindFork_run h Hok p n t m Hn Hm) as (f & E & Hf). exists f. split; [done |]. destruct f as [f |]; cbn in Hf.
    + destruct Hf as (H1 & H2 & H3). split; [by intros ? [= <-] |]. split; [intros ? [= <-]; by exists t |]. intros q y [= <-] Hq Hqt. exists f. split; [done | by apply H3].
    + split; [done |]. split; [done |]. intros q y [= <-] Hq Hqt. by destruct (Hf q Hq).
  - exists None. split; [by apply (FindFork_nil p n) |]. done.
Qed.

Lemma FindFork_anc t p : is_Some (h !! t) -> is_Some (h !! p) -> anc h t p -> FindFork h (branch h t) (Some p) = Ret (Some t).
Proof.
  intros [m Hm] [n Hn] Ha. destruct (FindFork_run h Hok p n t m Hn Hm) as (f & -> & Hf). f_equal.
  apply (fork_point_unique h p t); [done | by exists n | done |]. split; [done |]. split; [apply anc_refl |]. by intros c _ Hc.
Qed.
End Tips.

(** ** The invariant *)

Section Activate.
Context {E : Type} `{A : BlockAddresses} `{Hinj : !Inj (=) (=) address} {T : TipOps E} (Inv : E -> Prop) (valid : nat -> bool) (L : tip_laws Inv valid).
Implicit Types st : CChainState E.

Definition sound_node (h : list CBlockIndex) (q : nat) : Prop :=
  ~ failed_at h q /\ data_at h q /\ valid q = true /\ exists n, h !! q = Some n /\ (nChainTx n <> 0 \/ nHeight n = 0).

(** Every block of the branch is valid and complete. *)
Definition sound (h : list CBlockIndex) (b : nat) : Prop := forall x, anc h x b -> sound_node h x.

Record act_ok st : Prop := {
  ao_sel : sel_ok st;
  ao_env : Inv (cc_env st);
  ao_grow : forall p n q m, cc_blocks st !! p = Some n -> pprev n = Some q -> cc_blocks st !! q = Some m -> uval (nChainWork m) < uval (nChainWork n);
  ao_height : forall p n, cc_blocks st !! p = Some n -> nHeight n + 32 <= INT_MAX;
  ao_genesis : forall p n, cc_blocks st !! p = Some n -> pprev n = None -> valid p = true;
  ao_chain : forall t, chain_Tip (chainActive st) = Some t -> sound (cc_blocks st) t
}.

(** Every complete and clean block that is not worse than [b] is a candidate. *)
Definition complete st (b : option nat) : Prop :=
  forall q, is_Some (cc_blocks st !! q) -> linked (cc_blocks st) q -> clean (cc_blocks st) q ->
    (forall x, b = Some x -> ~ worse (cc_blocks st) q x) -> q ∈ setBlockIndexCandidates st.

(** [b] is the best tip there has been. *)
Definition bound st (b : option nat) : Prop := complete st b /\ forall x, b = Some x -> is_Some (cc_blocks st !! x) /\ sound (cc_blocks st) x.

Lemma sound_clean h b : sound h b -> clean h b.
Proof. intros H x Hx. destruct (H x Hx) as (? & ? & _). done. Qed.

Lemma sound_linked h b : sound h b -> linked h b.
Proof. intros H q m Hq Hm. destruct (H q Hq) as (_ & _ & _ & n & Hn & ?). congruence. Qed.

(** On the chain every block is clean, so that usable means clean. *)
Lemma usable_clean st p : act_ok st -> is_Some (cc_blocks st !! p) -> usable (cc_blocks st) (chainActive st) p <-> clean (cc_blocks st) p.
Proof.
  intros Hok Hp. pose proof (ao_sel st Hok) as Hs. split; [| intros Hc q Hq _; by apply Hc]. intros Hu q Hq.
  destruct (in_chain_dec _ (so_heap st Hs) (chainActive st) q (so_chain st Hs)) as [Hin | [_ Hin]]; [by apply (anc_valid _ (so_heap st Hs) q p) | | by apply Hu].
  destruct (chain_at_tip _ (chainActive st) (so_chain st Hs)) as [Ec Ht]. rewrite Ec in Hin. destruct (chain_Tip (chainActive st)) as [t |] eqn:Et.
  - apply in_chain_tip in Hin; [| apply Hs | by apply Ht | by apply (anc_valid _ (so_heap st Hs) q p)]. destruct (ao_chain st Hok t Et q Hin) as (? & ? & _). done.
  - destruct (Contains_run _ (so_heap st Hs) [] q ltac:(by left) (anc_valid _ (so_heap st Hs) q p Hp Hq)) as (b & Eb & Hb). unfold in_chain in Hin. cbn [at_tip] in Hin.
    rewrite Eb in Hin. injection Hin as ->. destruct (proj1 Hb eq_refl) as (t & [n Hn] & El & _). apply (f_equal length) in El. by rewrite (branch_length _ t n Hn) in El.
Qed.

(** An ancestor has less work. *)
Lemma anc_atmost st q p : act_ok st -> is_Some (cc_blocks st !! p) -> anc (cc_blocks st) q p -> atmost (cc_blocks st) q p.
Proof.
  intros Hok. pose proof (ao_sel st Hok) as Hs. intros [n Hn] [k Hk]. revert p n Hn Hk. induction k as [| k IH]; intros p n Hn Hk; [injection Hk as ->; by left |].
  cbn [back] in Hk. rewrite Hn in Hk. destruct (pprev n) as [r |] eqn:Er; [| done]. pose proof (so_heap st Hs p n Hn) as Hnode. unfold node_ok in Hnode. rewrite Er in Hnode.
  destruct Hnode as (_ & (m & Hm & _) & _). apply (atmost_trans _ (so_wf st Hs) q r p); [by apply (IH r m) |]. right. unfold worse.
  destruct (work_less_run _ (so_wf st Hs) r p m n Hm Hn) as (b & -> & Hb). f_equal. apply Hb. left. by apply (ao_grow st Hok p n r m).
Qed.

Lemma not_worse_anc st q p : act_ok st -> is_Some (cc_blocks st !! p) -> anc (cc_blocks st) q p -> ~ worse (cc_blocks st) p q.
Proof.
  intros Hok Hp Ha Hw. pose proof (so_wf st (ao_sel st Hok)) as Hwf. destruct (anc_atmost st q p Hok Hp Ha) as [-> | H]; [by apply (worse_irrefl _ Hwf p Hp) |].
  apply (worse_irrefl _ Hwf p Hp). by apply (worse_trans _ Hwf p q p).
Qed.

Lemma sound_core h h' b : same_core h h' -> (forall y, data_at h y -> data_at h' y) -> (forall y, anc h y b -> failed_at h' y -> failed_at h y) -> sound h b -> sound h' b.
Proof.
  intros C D F Hs x Hx. apply (core_anc h h' C) in Hx. destruct (Hs x Hx) as (H1 & H2 & H3 & n & Hn & H4). split; [by intros ?%F |]. split; [auto |]. split; [done |].
  destruct (same_lookup h h' x n C Hn) as (n' & Hn' & Hsn). exists n'. by rewrite (sn_tx _ _ Hsn), (sn_height _ _ Hsn).
Qed.

Lemma sound_status h h' b : same_status h h' -> sound h b -> sound h' b.
Proof. intros [C F D]. apply sound_core; [done | intros y; by rewrite D | intros y _; by rewrite F]. Qed.

(** The invariant survives changes that keep the links, lose candidates and leave a sound
    tip. *)
Lemma act_ok_core st st' : act_ok st -> Inv (cc_env st') -> same_core (cc_blocks st) (cc_blocks st') -> chain_ok (cc_blocks st) (chainActive st') ->
  setBlockIndexCandidates st' ⊆ setBlockIndexCandidates st -> (forall b, pindexBestInvalid st' = Some b -> is_Some (cc_blocks st !! b)) ->
  (forall t, chain_Tip (chainActive st') = Some t -> sound (cc_blocks st') t) -> act_ok st'.
Proof.
  intros [H1 _ H2 H3 H4 H5] He C Hc Hsub Hi Ht. split.
  - by apply (sel_ok_core st).
  - done.
  - intros p n' q m' Hp Epr Hq. destruct (same_lookup_r _ _ p n' C Hp) as (n & Hn & Sn). destruct (same_lookup_r _ _ q m' C Hq) as (m & Hm & Sm).
    rewrite (sn_work _ _ Sn), (sn_work _ _ Sm). rewrite (sn_prev _ _ Sn) in Epr. by apply (H2 p n q m).
  - intros p n' Hp. destruct (same_lookup_r _ _ p n' C Hp) as (n & Hn & Sn). rewrite (sn_height _ _ Sn). by apply (H3 p).
  - intros p n' Hp Epr. destruct (same_lookup_r _ _ p n' C Hp) as (n & Hn & Sn). rewrite (sn_prev _ _ Sn) in Epr. by apply (H4 p n).
  - done.
Qed.

(** ** Disconnecting *)

Lemma with_chain_env_id st c : chainActive st = c -> with_chain (with_env st (cc_env st)) c = st.
Proof. intros <-. by destruct st. Qed.

Lemma DisconnectTip_run st t n : heap_ok (cc_blocks st) -> chainActive st = branch (cc_blocks st) t -> cc_blocks st !! t = Some n ->
  exists ok e, DisconnectTip st = Ret (ok, if ok : bool then with_chain (with_env st e) (at_tip (cc_blocks st) (pprev n)) else with_env st e) /\
    (Inv (cc_env st) -> ok = true -> Inv e).
Proof.
  intros Hok Hc Hn. unfold DisconnectTip. rewrite Hc, (Tip_branch _ t) by (by exists n). cbn [deref]. rewrite Hn. cbn [obind].
  destruct (disconnect_block (cc_env st) t n) as [ok e] eqn:Ed. exists ok, e. split; [| intros Hi ->; by apply (tl_disconnect _ _ L _ _ _ _ Hi Ed)].
  destruct ok; cbn [negb]; [| done].
  pose proof (Hok t n Hn) as Hnode. unfold node_ok in Hnode. destruct (pprev n) as [q |]; [| done]. destruct Hnode as (_ & (m & Hm & _) & _).
  change (cc_blocks (with_env st e)) with (cc_blocks st). change (chainActive (with_env st e)) with (chainActive st). rewrite Hc.
  rewrite (SetTip_run _ Hok _ q m Hm) by (right; exists t; split; [by exists n | done]). done.
Qed.

Lemma disconnect_to_run fuel : forall st t f, heap_ok (cc_blocks st) -> chainActive st = at_tip (cc_blocks st) t ->
  (forall y, t = Some y -> exists n, cc_blocks st !! y = Some n /\ nHeight n < Z.of_nat fuel) ->
  (forall x, f = Some x -> exists y, t = Some y /\ anc (cc_blocks st) x y) ->
  exists ok st', disconnect_to fuel st f = Ret (ok, st') /\
    (ok = true -> exists e, st' = with_chain (with_env st e) (at_tip (cc_blocks st) f) /\ (Inv (cc_env st) -> Inv e)).
Proof.
  induction fuel as [| fuel IH]; intros st t f Hok Hc Ht Hf.
  { destruct t as [y |]; [destruct (Ht y eq_refl) as (n & Hn & Hl); pose proof (node_height _ _ _ (Hok y n Hn)); lia |].
    exists true, st. cbn [disconnect_to]. rewrite Hc. split; [done |]. intros _. exists (cc_env st). split; [symmetry | done]. apply with_chain_env_id. destruct f as [x |]; [| done].
    by destruct (Hf x eq_refl) as (? & ? & _). }
  cbn [disconnect_to]. destruct t as [y |].
  2: { rewrite Hc. exists true, st. split; [done |]. intros _. exists (cc_env st). split; [symmetry | done]. apply with_chain_env_id. destruct f as [x |]; [| done]. by destruct (Hf x eq_refl) as (? & ? & _). }
  destruct (Ht y eq_refl) as (n & Hn & Hl). rewrite Hc. cbn [at_tip]. rewrite (Tip_branch _ y) by (by exists n). case_bool_decide as Ef.
  { exists true, st. split; [done |]. intros _. exists (cc_env st). split; [symmetry | done]. apply with_chain_env_id. by rewrite <- Ef. }
  destruct (DisconnectTip_run st y n Hok Hc Hn) as (ok & e & -> & He). cbn [obind fst snd]. destruct ok; [| eexists _, _; split; [done | done]].
  destruct (IH (with_chain (with_env st e) (at_tip (cc_blocks st) (pprev n))) (pprev n) f Hok ltac:(done)) as (ok & st' & Er & Hst).
  - intros q Eq. pose proof (Hok y n Hn) as Hnode. unfold node_ok in Hnode. rewrite Eq in Hnode. destruct Hnode as (_ & (m & Hm & Hh & _) & _). exists m. split; [done | lia].
  - intros x ->. destruct (Hf x eq_refl) as (y' & [= <-] & Ha). destruct (anc_cases _ x y n Hn Ha) as [-> | (q & Eq & Hq)]; [done |]. by exists q.
  - exists ok, st'. split; [done |]. intros Hokt. destruct (Hst Hokt) as (e' & -> & He'). exists e'. split; [done |]. intros Hi. by apply He', He.
Qed.

(** ** Connecting *)

Lemma with_node_lookup st p n : cc_blocks (with_node st p n) = <[p := n]> (cc_blocks st).
Proof. done. Qed.

Lemma update_status h p n n' : h !! p = Some n -> same_node n n' -> flag (nStatus n') BLOCK_FAILED_MASK = flag (nStatus n) BLOCK_FAILED_MASK ->
  flag (nStatus n') BLOCK_HAVE_DATA = flag (nStatus n) BLOCK_HAVE_DATA -> same_status h (<[p := n']> h).
Proof.
  intros Hp Hs Hf Hd. split; [by apply (same_insert h p n) | |].
  - intros x. rewrite (failed_insert h p n) by done. destruct (decide (x = p)) as [-> |]; [| done]. by rewrite (failed_lookup h p n Hp), Hf.
  - intros x. rewrite (data_insert h p n) by done. destruct (decide (x = p)) as [-> |]; [| done]. by rewrite (data_lookup h p n Hp), Hd.
Qed.

(** [h'] is [h] with the block [x] failed. *)
Record fails (h : list CBlockIndex) (x : nat) (h' : list CBlockIndex) : Prop := {
  fl_core : same_core h h';
  fl_data : forall y, data_at h' y <-> data_at h y;
  fl_failed : forall y, failed_at h' y <-> failed_at h y \/ y = x
}.

(** The three ends of [ConnectTip]. *)
Definition connected st (x : nat) (r : connect_result) st' : Prop :=
  match r with
  | CONNECT_OK => Inv (cc_env st') /\ valid x = true /\ same_status (cc_blocks st) (cc_blocks st') /\ chainActive st' = branch (cc_blocks st) x /\
      setBlockIndexCandidates st' = setBlockIndexCandidates st /\ pindexBestInvalid st' = pindexBestInvalid st
  | CONNECT_INVALID corruption => corruption = false /\ Inv (cc_env st') /\ valid x = false /\ fails (cc_blocks st) x (cc_blocks st') /\ chainActive st' = chainActive st /\
      setBlockIndexCandidates st' = setBlockIndexCandidates st ∖ {[x]} /\ forall b, pindexBestInvalid st' = Some b -> is_Some (cc_blocks st !! b)
  | CONNECT_ERROR => True
  end.

(** An invalid block is marked. *)
Lemma InvalidBlockFound_run st x n : sel_ok st -> cc_blocks st !! x = Some n -> is_Some (chain_Tip (chainActive st)) ->
  exists st', InvalidBlockFound st x false = Ret st' /\ cc_env st' = cc_env st /\ fails (cc_blocks st) x (cc_blocks st') /\ chainActive st' = chainActive st /\
    setBlockIndexCandidates st' = setBlockIndexCandidates st ∖ {[x]} /\ forall b, pindexBestInvalid st' = Some b -> is_Some (cc_blocks st !! b).
Proof.
  intros Hs Hn Htip. unfold InvalidBlockFound. cbn [deref]. rewrite Hn. cbn [obind].
  set (st0 := with_node st x (set_nStatus n (Z.lor (nStatus n) BLOCK_FAILED_VALID))).
  set (st1 := erase (mark_dirty (with_failed st0 ({[x]} ∪ cc_failed_blocks st0)) x) x).
  assert (F1 : fails (cc_blocks st) x (cc_blocks st1)).
  { change (cc_blocks st1) with (<[x := set_nStatus n (Z.lor (nStatus n) BLOCK_FAILED_VALID)]> (cc_blocks st)). split; [by apply (same_insert _ x n) | |].
    - intros y. rewrite (data_insert _ x n) by done. destruct (decide (y = x)) as [-> |]; [| done]. rewrite (data_lookup _ x n Hn). cbn [set_nStatus nStatus]. by rewrite flag_lor_other.
    - intros y. rewrite (failed_insert _ x n) by done. destruct (decide (y = x)) as [-> |]; [| naive_solver]. cbn [set_nStatus nStatus]. rewrite flag_lor_mask by done. naive_solver. }
  assert (Hok1 : sel_ok st1) by (apply (sel_ok_core st); [done | apply F1 | apply Hs | cbn [st1 erase with_candidates setBlockIndexCandidates]; apply subseteq_difference_l; done | apply Hs]).
  destruct (note_invalid_run st1 x Hok1) as (b & Eb & Hb); [apply (core_is_Some (cc_blocks st)); [apply F1 | by exists n] |].
  unfold InvalidChainFound. rewrite Eb. cbn [obind]. change (chainActive (with_best_invalid st1 (Some b))) with (chainActive st). rewrite bool_decide_true by done.
  cbn [cassert obind]. eexists. split; [done |]. split; [done |]. split; [done |]. split; [done |]. split; [done |].
  cbn [with_best_invalid pindexBestInvalid]. intros ? [= <-]. destruct Hb as [nb Hb]. destruct (same_lookup_r _ _ b nb (fl_core _ _ _ F1) Hb) as (? & ? & _). by eexists.
Qed.

Lemma fails_status h h1 x h' : same_status h h1 -> fails h1 x h' -> fails h x h'.
Proof. intros [C F D] [C' D' F']. split; [by transitivity h1 | intros y; by rewrite D', D | intros y; by rewrite F', F]. Qed.

Lemma ConnectTip_run st x n : act_ok st -> cc_blocks st !! x = Some n -> pprev n = chain_Tip (chainActive st) ->
  exists r st', ConnectTip st x = Ret (r, st') /\ connected st x r st'.
Proof.
  intros Hok Hn Hprev. pose proof (ao_sel st Hok) as Hs. unfold ConnectTip. cbn [deref]. rewrite Hn. cbn [obind]. rewrite bool_decide_true by done. cbn [cassert obind].
  destruct (connect_block (cc_env st) x n) as [[r u] e] eqn:Ec. pose proof (tl_connect _ _ L _ _ _ _ _ _ (ao_env st Hok) Ec) as Hv.
  set (st1 := match u with Some n0 => mark_dirty (with_node (with_env st e) x n0) x | None => with_env st e end).
  assert (H1 : same_status (cc_blocks st) (cc_blocks st1) /\ cc_env st1 = e /\ chainActive st1 = chainActive st /\ setBlockIndexCandidates st1 = setBlockIndexCandidates st /\
    pindexBestInvalid st1 = pindexBestInvalid st).
  { subst st1. destruct u as [n' |]; [| by split]. destruct (tl_entry _ _ L _ _ _ _ _ _ (ao_env st Hok) Ec) as (Hsn & Hf & Hd). split; [| done]. by apply (update_status _ x n). }
  destruct H1 as (S1 & V1 & C1 & D1 & I1). pose proof (ss_core _ _ S1) as Hcore. destruct (same_lookup _ _ x n Hcore Hn) as (n1 & Hn1 & _). clearbody st1. destruct r as [| corruption |].
  - rewrite (SetTip_run (cc_blocks st1) (core_heap_ok _ _ Hcore (so_heap st Hs)) _ x n1 Hn1) by (rewrite C1; by apply (core_chain_ok (cc_blocks st)), Hs). cbn [obind].
    eexists _, _. split; [done |]. cbn [connected cc_env with_chain]. rewrite V1. split; [apply Hv |]. split; [apply Hv |]. split; [done |]. cbn [chainActive with_chain setBlockIndexCandidates pindexBestInvalid].
    by rewrite (core_branch (cc_blocks st) _ Hcore).
  - destruct Hv as (Hi & Hv & ->).
    assert (Hs1 : sel_ok st1) by (apply (sel_ok_core st); [done | done | rewrite C1; apply Hs | by rewrite D1 | rewrite I1; apply Hs]).
    destruct (InvalidBlockFound_run st1 x n1 Hs1 Hn1) as (st' & -> & V2 & F2 & C2 & D2 & I2).
    { rewrite C1. destruct (chain_Tip (chainActive st)) as [t |]; [by exists t |]. pose proof (ao_genesis st Hok x n Hn Hprev). congruence. }
    cbn [obind]. eexists _, st'. split; [done |]. split; [done |]. rewrite V2, V1. split; [done |]. split; [done |]. split; [by apply (fails_status _ (cc_blocks st1)) |].
    split; [congruence |]. split; [congruence |]. intros b Hb. apply (core_is_Some (cc_blocks st1)); [by symmetry | by apply I2].
  - by eexists _, _.
Qed.
(** ** Changes of the bound *)

Definition evolves st st' : Prop := act_ok st' /\ same_core (cc_blocks st) (cc_blocks st') /\ forall b, bound st b -> exists b', bound st' b'.

Lemma evolves_refl st : act_ok st -> evolves st st.
Proof. intros Hok. split; [done |]. split; [reflexivity |]. intros b Hb. by exists b. Qed.

Lemma evolves_trans st1 st2 st3 : evolves st1 st2 -> evolves st2 st3 -> evolves st1 st3.
Proof. intros (_ & C1 & B1) (H2 & C2 & B2). split; [done |]. split; [by transitivity (cc_blocks st2) |]. intros b (b' & Hb')%B1. by apply (B2 b'). Qed.

Lemma worse_core h h' p q : same_core h h' -> worse h' p q <-> worse h p q.
Proof. intros C. unfold worse. by rewrite (core_work_less h h' C). Qed.

Lemma bound_status st st' b : same_status (cc_blocks st) (cc_blocks st') -> setBlockIndexCandidates st' = setBlockIndexCandidates st -> bound st b -> bound st' b.
Proof.
  intros Hs Hc [Hcomp Hb]. pose proof (ss_core _ _ Hs) as C. split.
  - intros q Hq Hl Hcl Hw. rewrite Hc. apply Hcomp; [apply (core_is_Some (cc_blocks st')); [by symmetry | done] | by apply (linked_core _ _ q C) | by apply (same_clean _ _ q Hs) |].
    intros x Hx. rewrite <- (worse_core _ _ q x C). by apply Hw.
  - intros x Hx. destruct (Hb x Hx). split; [by apply (core_is_Some (cc_blocks st)) | by apply (sound_status (cc_blocks st))].
Qed.

(** Pruning against a sound tip moves the bound up to it. *)
Lemma bound_prune st t s b : act_ok st -> is_Some (cc_blocks st !! t) -> sound (cc_blocks st) t ->
  (forall x, x ∈ s <-> x ∈ setBlockIndexCandidates st /\ ~ worse (cc_blocks st) x t) -> bound st b -> exists b', bound (with_candidates st s) b'.
Proof.
  intros Hok Ht Hst Hs [Hcomp Hb]. pose proof (so_wf st (ao_sel st Hok)) as Hwf.
  assert (Hcase : (exists x, b = Some x /\ worse (cc_blocks st) t x) \/ forall x, b = Some x -> atmost (cc_blocks st) x t).
  { destruct b as [x |]; [| by right]. destruct (Hb x eq_refl) as [Hx _]. destruct (worse_total _ Hwf t x Ht Hx) as [-> | [? | ?]]; [| left; by exists x |]; right; intros ? [= <-]; [by left | by right]. }
  destruct Hcase as [(x & -> & Hx) | Hle].
  - exists (Some x). split; [| done]. intros q Hq Hl Hcl Hw. apply Hs. split; [by apply Hcomp |]. intros Hqt. apply (Hw x eq_refl). by apply (worse_trans _ Hwf q t x).
  - exists (Some t). split; [| by intros ? [= <-]]. intros q Hq Hl Hcl Hw. apply Hs. specialize (Hw t eq_refl). split; [| done]. apply Hcomp; [done | done | done |].
    intros x -> Hqx. destruct (Hle x eq_refl) as [-> | Hxt]; [done |]. apply Hw. by apply (worse_trans _ Hwf q x t).
Qed.
(** A block that turns out to be invalid is on no sound branch. *)
Lemma fails_sound h x h' b : fails h x h' -> valid x = false -> sound h b -> sound h' b.
Proof.
  intros [C D F] Hv Hs. apply (sound_core h); [done | intros y; by rewrite D | | done]. intros y Hy [? | ->]%F; [done |]. destruct (Hs x Hy) as (_ & _ & ? & _). congruence.
Qed.

Lemma evolves_fails st x st' : act_ok st -> Inv (cc_env st') -> valid x = false -> fails (cc_blocks st) x (cc_blocks st') -> chainActive st' = chainActive st ->
  setBlockIndexCandidates st' = setBlockIndexCandidates st ∖ {[x]} -> (forall b, pindexBestInvalid st' = Some b -> is_Some (cc_blocks st !! b)) -> evolves st st'.
Proof.
  intros Hok He Hv Hf Hc Hcand Hi. pose proof (fl_core _ _ _ Hf) as C. split; [| split; [done |]].
  - apply (act_ok_core st); [done | done | done | rewrite Hc; apply Hok | rewrite Hcand; set_solver | done |].
    intros t Ht. rewrite Hc in Ht. apply (fails_sound (cc_blocks st) x); [done | done | by apply Hok].
  - intros b [Hcomp Hb]. exists b. split.
    + intros q Hq Hl Hcl Hw. rewrite Hcand. assert (Hq' : q ∈ setBlockIndexCandidates st).
      { apply Hcomp; [apply (core_is_Some (cc_blocks st')); [by symmetry | done] | by apply (linked_core _ _ q C) | |].
        - intros y Hy. apply (core_anc _ _ C) in Hy. destruct (Hcl y Hy) as [H1 H2]. split; [intros ?; apply H1, Hf; by left | by apply Hf].
        - intros y Hy. rewrite <- (worse_core _ _ q y C). by apply Hw. }
      apply elem_of_difference. split; [done |]. intros ->%elem_of_singleton. destruct (Hcl x (anc_refl _ x)) as [H1 _]. apply H1, Hf. by right.
    + intros y Hy. destruct (Hb y Hy). split; [by apply (core_is_Some (cc_blocks st)) | by apply (fails_sound (cc_blocks st) x)].
Qed.

(** ** Paths upwards *)

(** The blocks of [l] follow [f], each the child of the one before. *)
Fixpoint consec (h : list CBlockIndex) (f : option nat) (l : list nat) : Prop :=
  match l with
  | [] => True
  | x :: l => (exists n, h !! x = Some n /\ pprev n = f) /\ consec h (Some x) l
  end.

Fixpoint end_of (f : option nat) (l : list nat) : option nat := match l with [] => f | x :: l => end_of (Some x) l end.

Lemma consec_snoc h f l x : consec h f (l ++ [x]) <-> consec h f l /\ exists n, h !! x = Some n /\ pprev n = end_of f l.
Proof. revert f. induction l as [| y l IH]; intros f; cbn [app consec end_of]; [tauto |]. rewrite IH. tauto. Qed.

Lemma end_of_snoc f l x : end_of f (l ++ [x]) = Some x.
Proof. revert f. induction l as [| y l IH]; intros f; [done | apply IH]. Qed.

Lemma consec_core h h' f l : same_core h h' -> consec h f l -> consec h' f l.
Proof.
  intros C. revert f. induction l as [| x l IH]; intros f; [done |]. intros [(n & Hn & Hp) Hl]. split; [| auto].
  destruct (same_lookup h h' x n C Hn) as (n' & Hn' & Hs). exists n'. by rewrite (sn_prev _ _ Hs).
Qed.

(** [hf] is the height of [f], which [o] descends from. *)
Definition above (h : list CBlockIndex) (f : option nat) (hf : Z) (o : option nat) : Prop :=
  (forall y, o = Some y -> is_Some (h !! y)) /\
  match f with
  | Some x => exists y m, o = Some y /\ h !! x = Some m /\ nHeight m = hf /\ anc h x y
  | None => hf = -1
  end.

Lemma path_down_run h fuel f hf : heap_ok h -> forall o, above h f hf o -> (forall y n, o = Some y -> h !! y = Some n -> nHeight n < Z.of_nat fuel) ->
  exists l, path_down fuel h hf o = Ret l /\ consec h f (reverse l) /\ end_of f (reverse l) = o /\ forall z, z ∈ l -> exists y, o = Some y /\ anc h z y.
Proof.
  intros Hok. induction fuel as [| fuel IH]; intros o [Hv Ha] Hfuel; (destruct o as [y |]; [destruct (Hv y eq_refl) as [n Hn]; specialize (Hfuel y n eq_refl Hn); pose proof (node_height _ _ _ (Hok y n Hn)) |
    exists []; split; [done |]; split; [done |]; split; [destruct f; [destruct Ha as (? & ? & ? & _); congruence | done] | intros z []%not_elem_of_nil]]); [lia |].
  cbn [path_down deref]. rewrite Hn. cbn [obind]. destruct (nHeight n =? hf) eqn:Eh; bool_to_prop.
  - exists []. split; [done |]. split; [done |]. split; [| by intros z []%not_elem_of_nil]. cbn. destruct f as [x |]; [| lia].
    destruct Ha as (y' & m & [= <-] & Hm & Hh & Hx). f_equal. apply (anc_same_height h Hok x y m n); [done | done | lia | done].
  - destruct (IH (pprev n)) as (l & El & Hc & He & Hz).
    + pose proof (Hok y n Hn) as Hnode. unfold node_ok in Hnode. split; [intros q Eq; rewrite Eq in Hnode; destruct Hnode as (_ & (m & Hm & _) & _); by exists m |].
      destruct f as [x |]; [| done]. destruct Ha as (y' & m & [= <-] & Hm & Hh & Hx). destruct (anc_cases h x y n Hn Hx) as [-> | (q & Eq & Hq)]; [congruence |]. by exists q, m.
    + intros q m Eq Hm. pose proof (Hok y n Hn) as Hnode. unfold node_ok in Hnode. rewrite Eq in Hnode. destruct Hnode as (_ & (m' & Hm' & Hh & _) & _).
      assert (m = m') as -> by congruence. lia.
    + rewrite El. cbn [obind]. exists (y :: l). split; [done |]. rewrite reverse_cons. split; [apply consec_snoc; split; [done |]; exists n; by rewrite He |].
      split; [apply end_of_snoc |]. intros z [-> | Hzl]%elem_of_cons; [exists y; split; [done | apply anc_refl] |]. destruct (Hz z Hzl) as (q & Eq & Hq). exists y. split; [done |].
      apply (anc_trans h z q y Hq). by apply (anc_prev h y n).
Qed.
(** ** Connecting a list *)

Definition more_failed (h h' : list CBlockIndex) : Prop :=
  (forall y, failed_at h y -> failed_at h' y) /\ exists x, is_Some (h !! x) /\ ~ failed_at h x /\ failed_at h' x.

(** How a list of blocks ends on the way to [p]; [top] is the block that the whole list
    leads to and [l] are the blocks that may be the tip before. *)
Definition list_end st (p : nat) (top : option nat) (l : list nat) (e : connect_end) st' : Prop :=
  match e with
  | END_OF_LIST => evolves st st' /\ same_status (cc_blocks st) (cc_blocks st') /\ p ∈ setBlockIndexCandidates st' /\ chainActive st' = at_tip (cc_blocks st) top
  | BETTER_TIP => evolves st st' /\ same_status (cc_blocks st) (cc_blocks st') /\ p ∈ setBlockIndexCandidates st' /\
      exists x, x ∈ l /\ chainActive st' = branch (cc_blocks st) x
  | INVALID_FOUND => evolves st st' /\ more_failed (cc_blocks st) (cc_blocks st') /\ is_Some (chain_Tip (chainActive st'))
  | SYSTEM_ERROR => True
  end.

(** The next block of the way becomes the tip and the candidates are pruned. *)
Lemma connect_one st x n p st1 : act_ok st -> cc_blocks st !! x = Some n -> pprev n = chain_Tip (chainActive st) -> anc (cc_blocks st) x p ->
  p ∈ setBlockIndexCandidates st -> clean (cc_blocks st) p -> connected st x CONNECT_OK st1 ->
  exists s, PruneBlockIndexCandidates st1 = Ret (with_candidates st1 s) /\ evolves st (with_candidates st1 s) /\ p ∈ s.
Proof.
  intros Hok Hn Hprev Ha Hp Hcl (He & Hv & Hs & Hc & Hcand & Hi). pose proof (ao_sel st Hok) as Hsel. destruct (so_cands st Hsel p Hp) as [Hpv Hl]. pose proof (ss_core _ _ Hs) as C.
  assert (Hsx : sound (cc_blocks st) x).
  { intros y Hy. destruct (Hcl y (anc_trans _ y x p Hy Ha)) as [Hf Hd]. destruct (anc_cases _ y x n Hn Hy) as [-> | (q & Eq & Hq)].
    - split; [done |]. split; [done |]. split; [done |]. exists n. split; [done | by apply (Hl x)].
    - rewrite Hprev in Eq. by apply (ao_chain st Hok q Eq). }
  assert (Hx1 : is_Some (cc_blocks st1 !! x)) by (apply (core_is_Some _ _ C); by exists n).
  assert (Ht1 : chain_Tip (chainActive st1) = Some x) by (rewrite Hc; apply Tip_branch; by exists n).
  assert (Hsx1 : sound (cc_blocks st1) x) by (by apply (sound_status (cc_blocks st))).
  assert (Hok1 : act_ok st1).
  { apply (act_ok_core st); [done | done | done | rewrite Hc; right; exists x; split; [by exists n | done] | by rewrite Hcand | rewrite Hi; apply Hsel |]. rewrite Ht1. by intros ? [= <-]. }
  destruct (prune_run st1 x p (ao_sel st1 Hok1) Ht1 Hx1) as (s & Es & Hss).
  { by rewrite Hcand. }
  { apply not_worse_anc; [done | by apply (core_is_Some _ _ C) | by apply (core_anc _ _ C)]. }
  exists s. split; [done |]. split.
  - split; [| split; [done |]].
    + apply (act_ok_core st1); [done | apply Hok1 | reflexivity | apply Hok1 | intros y Hy; by apply Hss | apply Hok1 | apply Hok1].
    + intros b Hb. apply (bound_prune st1 x s b); [done | done | done | done |]. by apply (bound_status st).
  - apply Hss. rewrite Hcand. split; [done |]. apply not_worse_anc; [done | by apply (core_is_Some _ _ C) | by apply (core_anc _ _ C)].
Qed.

(** What follows a change that keeps the status. *)
Lemma list_end_after st st1 p top l l' e st' : evolves st st1 -> same_status (cc_blocks st) (cc_blocks st1) -> l ⊆ l' ->
  list_end st1 p top l e st' -> list_end st p top l' e st'.
Proof.
  intros Hev Hs Hsub He. pose proof (ss_core _ _ Hs) as C. destruct e; cbn [list_end] in *.
  - destruct He as (H1 & H2 & H3 & H4). split; [by apply (evolves_trans _ st1) |]. split; [by transitivity (cc_blocks st1) |]. split; [done |].
    rewrite H4. destruct top; [apply (core_branch _ _ C) | done].
  - destruct He as (H1 & H2 & H3 & y & Hy & H4). split; [by apply (evolves_trans _ st1) |]. split; [by transitivity (cc_blocks st1) |]. split; [done |].
    exists y. split; [by apply Hsub |]. rewrite H4. apply (core_branch _ _ C).
  - destruct He as (H1 & (H2 & y & Hy & Hny & Hfy) & H3). split; [by apply (evolves_trans _ st1) |]. split; [| done]. split; [intros z Hz; apply H2; by apply Hs |].
    exists y. split; [apply (core_is_Some (cc_blocks st1)); [by symmetry | done] |]. split; [intros Hz; apply Hny; by apply Hs | done].
  - done.
Qed.

Lemma connect_list_run p old back l : forall st f, act_ok st -> chainActive st = at_tip (cc_blocks st) f -> (forall x, f = Some x -> is_Some (cc_blocks st !! x)) ->
  consec (cc_blocks st) f l -> (forall x, x ∈ l -> anc (cc_blocks st) x p) -> p ∈ setBlockIndexCandidates st -> clean (cc_blocks st) p ->
  (forall o, old = Some o -> is_Some (cc_blocks st !! o)) -> is_Some (cc_blocks st !! back) ->
  exists e st', connect_list st old back l = Ret (e, st') /\ list_end st p (end_of f l) l e st'.
Proof.
  induction l as [| x l IH]; intros st f Hok Hc Hf Hcon Hanc Hp Hcl Hold Hback; cbn [connect_list end_of].
  { exists END_OF_LIST, st. split; [done |]. split; [by apply evolves_refl |]. by split. }
  destruct Hcon as [(n & Hn & Hprev) Hcon]. assert (Htip : pprev n = chain_Tip (chainActive st)) by (by rewrite Hc, Tip_at_tip).
  pose proof (Hanc x ltac:(by left)) as Hax. destruct (ConnectTip_run st x n Hok Hn Htip) as (r & st1 & Er & Hr). rewrite Er. cbn [obind]. destruct r as [| corruption |].
  - destruct (connect_one st x n p st1 Hok Hn Htip Hax Hp Hcl Hr) as (s & Es & Hev & Hps). rewrite Es. cbn [obind]. destruct Hr as (_ & _ & Hs & Hc1 & _ & _). pose proof (ss_core _ _ Hs) as C.
    set (st2 := with_candidates st1 s) in *.
    assert (Hbetter : exists b : bool, match old with None => Ret true | Some old => let? n := deref (cc_blocks st2) (chain_Tip (chainActive st2)) in
      let? m := deref (cc_blocks st2) (Some old) in Ret (CompareTo (nChainWork n) (nChainWork m) >? 0) end = Ret b).
    { destruct old as [o |]; [| by exists true]. change (chainActive st2) with (chainActive st1). rewrite Hc1, Tip_branch by (by exists n).
      destruct (core_is_Some _ _ C x ltac:(by exists n)) as [n1 Hn1]. destruct (core_is_Some _ _ C o (Hold o eq_refl)) as [m1 Hm1].
      change (cc_blocks st2) with (cc_blocks st1). cbn [deref]. rewrite Hn1, Hm1. cbn [obind]. by eexists. }
    destruct Hbetter as [b ->]. cbn [obind]. destruct b.
    { exists BETTER_TIP, st2. split; [done |]. split; [done |]. split; [done |]. split; [done |]. exists x. split; [by left | done]. }
    destruct (IH st2 (Some x)) as (e & st' & Ee & He).
    + apply Hev.
    + change (chainActive st2) with (chainActive st1). rewrite Hc1. symmetry. apply (core_branch _ _ C).
    + intros ? [= <-]. apply (core_is_Some _ _ C). by exists n.
    + by apply (consec_core (cc_blocks st)).
    + intros y Hy. apply (core_anc _ _ C). apply Hanc. by right.
    + done.
    + by apply (same_clean _ _ p Hs).
    + intros o Ho. by apply (core_is_Some _ _ C), Hold.
    + by apply (core_is_Some _ _ C).
    + exists e, st'. split; [done |]. apply (list_end_after _ st2 p _ l); [done | done | | done]. intros y Hy. by right.
  - destruct Hr as (-> & He & Hv & Hfl & Hc1 & Hcand & Hi). pose proof (evolves_fails st x st1 Hok He Hv Hfl Hc1 Hcand Hi) as Hev.
    destruct (note_invalid_run st1 back (ao_sel st1 (proj1 Hev))) as (b & Eb & Hb); [by apply (core_is_Some (cc_blocks st)); [apply Hfl |] |].
    unfold InvalidChainFound. rewrite Eb. cbn [obind]. change (chainActive (with_best_invalid st1 (Some b))) with (chainActive st1). rewrite Hc1.
    assert (Htp : is_Some (chain_Tip (chainActive st))) by (destruct (chain_Tip (chainActive st)) as [t |]; [by exists t | pose proof (ao_genesis st Hok x n Hn Htip); congruence]).
    rewrite bool_decide_true.
    + cbn [cassert obind]. eexists _, _. split; [done |]. split.
      * apply (evolves_trans _ st1); [done |]. split; [| split; [reflexivity |]].
        -- apply (act_ok_core st1); [apply Hev | done | reflexivity | apply Hev | done | by intros ? [= <-] | apply Hev].
        -- intros b' Hb'. exists b'. destruct Hb' as [H1 H2]. by split.
      * split; [| cbn [with_best_invalid chainActive]; by rewrite Hc1]. split; [intros y Hy; apply Hfl; by left |]. exists x. split; [by exists n |].
        split; [by apply Hcl | apply Hfl; by right].
    + done.
  - by exists SYSTEM_ERROR, st1.
Qed.
(** ** Connecting up to a block *)

Lemma consec_heights h l : heap_ok h -> forall f hf, above h f hf f \/ f = None /\ hf = -1 -> consec h f l -> forall x, x ∈ l -> exists m, h !! x = Some m /\ hf < nHeight m.
Proof.
  intros Hok. induction l as [| y l IH]; intros f hf Hf; [by intros _ x []%not_elem_of_nil |]. intros [(n & Hn & Hp) Hc] x Hx.
  assert (Hy : hf < nHeight n).
  { pose proof (Hok y n Hn) as Hnode. pose proof (node_height _ _ _ Hnode). unfold node_ok in Hnode. destruct Hf as [[_ Hf] | [-> ->]]; [| lia].
    destruct f as [z |]; [| lia]. destruct Hf as (z' & m & [= <-] & Hm & Hh & _). rewrite Hp in Hnode. destruct Hnode as (_ & (m' & Hm' & Hh' & _) & _).
    assert (m = m') as -> by congruence. lia. }
  apply elem_of_cons in Hx as [-> | Hx]; [by exists n |]. destruct (IH (Some y) (nHeight n)) with (x := x) as (m & Hm & Hlt); [| done | done |].
  - left. split; [intros ? [= <-]; by exists n |]. exists y, n. split; [done |]. split; [done |]. split; [done | apply anc_refl].
  - exists m. split; [done | lia].
Qed.

(** The way to [p] from the height [hf]. *)
Definition way_end st (p : nat) (hf : Z) (e : connect_end) st' : Prop :=
  exists l, (forall x, x ∈ l -> anc (cc_blocks st) x p /\ exists m, cc_blocks st !! x = Some m /\ hf < nHeight m) /\ list_end st p (Some p) l e st'.

Lemma above_core h h' f hf o : same_core h h' -> above h f hf o -> above h' f hf o.
Proof.
  intros C [Hv Ha]. split; [intros y Hy; by apply (core_is_Some h h' C), Hv |]. destruct f as [x |]; [| done]. destruct Ha as (y & m & Ho & Hm & Hh & Hx).
  destruct (same_lookup h h' x m C Hm) as (m' & Hm' & Sm). exists y, m'. rewrite (sn_height _ _ Sm), (core_anc h h' C). done.
Qed.

Lemma above_height h f hf p n : heap_ok h -> h !! p = Some n -> above h f hf (Some p) -> -1 <= hf <= nHeight n /\ (hf = nHeight n -> f = Some p).
Proof.
  intros Hok Hn [_ Hab]. pose proof (node_height _ _ _ (Hok p n Hn)). destruct f as [x |]; [| lia]. destruct Hab as (y & m & [= <-] & Hm & <- & Ha).
  destruct (anc_height h Hok x p n Hn Ha) as (m' & Hm' & ? & _). assert (m = m') as -> by congruence. split; [lia |]. intros E1. f_equal.
  by apply (anc_same_height h Hok x p m' n).
Qed.

(** The blocks of a round. *)
Lemma round_path h f hf p n target : heap_ok h -> h !! p = Some n -> above h f hf (Some p) -> hf < target <= nHeight n ->
  exists top l, GetAncestor h p target = Ret (Some top) /\ path_down (S (steps h (Some top))) h hf (Some top) = Ret l /\ consec h f (reverse l) /\
    end_of f (reverse l) = Some top /\ (forall z, z ∈ l -> anc h z p) /\ is_Some (h !! default 0%nat (list.last l)) /\ above h (Some top) target (Some p).
Proof.
  intros Hok Hn Hab Ht. destruct (above_height h f hf p n Hok Hn Hab) as [Hhf _]. rewrite (GetAncestor_run h Hok p n _ Hn).
  rewrite Z.gtb_ltb, (proj2 (Z.ltb_ge (nHeight n) target)), (proj2 (Z.ltb_ge target 0)) by lia. cbn [orb].
  destruct (back_some h Hok (Z.to_nat (nHeight n - target)) p n Hn ltac:(lia)) as (top & mt & Hback & Hmt & Hh). rewrite Hback. exists top.
  assert (Hatop : anc h top p) by (by eexists).
  assert (Habt : above h f hf (Some top)).
  { split; [intros ? [= <-]; by exists mt |]. destruct Hab as [_ Hab]. destruct f as [x |]; [| done]. destruct Hab as (y & m & [= <-] & Hm & Hhx & Ha). exists top, m.
    split; [done |]. split; [done |]. split; [done |]. apply (anc_linear h Hok x top p n m mt); [done | done | done | done | done | lia]. }
  destruct (path_down_run h (S (steps h (Some top))) f hf Hok (Some top) Habt) as (l & El & Hcon & Hend & Hz).
  { intros y n' [= <-] Hy. rewrite (steps_lookup h top n' Hy). pose proof (node_height _ _ _ (Hok top n' Hy)). lia. }
  exists l. split; [done |]. split; [done |]. split; [done |]. split; [done |].
  assert (Hzp : forall z, z ∈ l -> anc h z p) by (intros z Hzl; destruct (Hz z Hzl) as (y & [= <-] & Hy); by apply (anc_trans h z top p)). split; [done |]. split.
  - destruct (list.last l) as [z |] eqn:El2; cbn [default].
    + apply (anc_valid h Hok z p); [by exists n |]. apply Hzp. by apply last_Some_elem_of.
    + apply last_None in El2 as ->. cbn in Hend. subst f. destruct Hab as [_ (y & m & [= <-] & Hm & Hhx & _)]. assert (m = mt) as -> by congruence. lia.
  - split; [intros ? [= <-]; by exists n |]. exists p, mt. split; [done |]. split; [done |]. split; [lia | done].
Qed.

Lemma connect_rounds_run p old fuel : forall st n f hf, act_ok st -> chainActive st = at_tip (cc_blocks st) f -> cc_blocks st !! p = Some n ->
  above (cc_blocks st) f hf (Some p) -> p ∈ setBlockIndexCandidates st -> clean (cc_blocks st) p -> (forall o, old = Some o -> is_Some (cc_blocks st !! o)) ->
  nHeight n - hf <= Z.of_nat fuel -> exists e st', connect_rounds fuel st old p hf = Ret (e, st') /\ way_end st p hf e st'.
Proof.
  induction fuel as [| fuel IH]; intros st n f hf Hok Hc Hn Hab Hp Hcl Hold Hfuel; pose proof (ao_sel st Hok) as Hs; pose proof (so_heap st Hs) as Hheap;
    destruct (above_height _ f hf p n Hheap Hn Hab) as [Hhf Htop]; cbn [connect_rounds deref]; rewrite Hn; cbn [obind]; destruct (hf =? nHeight n) eqn:Eh; bool_to_prop; try lia.
  1, 2: exists END_OF_LIST, st; split; [done |]; exists []; split; [by intros x []%not_elem_of_nil |]; split; [by apply evolves_refl |]; split; [done |]; split; [done |];
    by rewrite Hc, (Htop Eh).
  pose proof (ao_height st Hok p n Hn) as Hmax. unfold int_add. rewrite (proj2 (Z.leb_le INT_MIN (hf + 32))), (proj2 (Z.leb_le (hf + 32) INT_MAX)) by (unfold INT_MIN; lia). cbn [andb obind].
  destruct (round_path _ f hf p n (Z.min (hf + 32) (nHeight n)) Hheap Hn Hab ltac:(lia)) as (top & l & -> & El & Hcon & Hend & Hz & Hback & Hab'). cbn [obind]. rewrite El. cbn [obind].
  assert (Hfv : forall x, f = Some x -> is_Some (cc_blocks st !! x)).
  { intros x ->. destruct Hab as [_ (y & m & _ & Hm & _)]. by exists m. }
  destruct (connect_list_run p old (default 0%nat (list.last l)) (reverse l) st f) as (e & st1 & Ee & He); [done | done | done | done | intros x Hx; apply Hz; by rewrite elem_of_reverse in Hx | done | done | done | done |].
  rewrite Ee. cbn [obind fst snd]. rewrite Hend in He.
  assert (Hlow : forall x, x ∈ reverse l -> anc (cc_blocks st) x p /\ exists m, cc_blocks st !! x = Some m /\ hf < nHeight m).
  { intros x Hx. split; [apply Hz; by apply elem_of_reverse |]. apply (consec_heights _ (reverse l) Hheap f hf); [| done | done].
    destruct f as [y |]; [left | right; split; [done | apply Hab]]. destruct Hab as [_ (y' & m & _ & Hm & Hh & _)]. split; [intros ? [= <-]; by exists m |]. exists y, m.
    split; [done |]. split; [done |]. split; [done | apply anc_refl]. }
  destruct e; [| eexists _, _; split; [done |]; by exists (reverse l) ..].
  destruct He as (Hev & Hss & Hp1 & Hc1). pose proof (ss_core _ _ Hss) as C. destruct (same_lookup _ _ p n C Hn) as (n1 & Hn1 & Sn).
  destruct (IH st1 n1 (Some top) (Z.min (hf + 32) (nHeight n))) as (e & st' & Ee' & l' & Hl' & He').
  - apply Hev.
  - rewrite Hc1. cbn [at_tip]. symmetry. apply (core_branch _ _ C).
  - done.
  - by apply (above_core (cc_blocks st)).
  - done.
  - by apply (same_clean _ _ p Hss).
  - intros o Ho. by apply (core_is_Some _ _ C), Hold.
  - rewrite (sn_height _ _ Sn). lia.
  - exists e, st'. split; [done |]. exists l'. split; [| by apply (list_end_after _ st1 p _ l')]. intros x Hx. destruct (Hl' x Hx) as (Hax & m' & Hm' & Hlt).
    split; [by apply (core_anc _ _ C) |]. destruct (same_lookup_r _ _ x m' C Hm') as (m & Hm & Sm). exists m. split; [done |]. rewrite (sn_height _ _ Sm) in Hlt. lia.
Qed.
(** ** A step *)

Lemma sound_down h b q : sound h b -> anc h q b -> sound h q.
Proof. intros Hs Ha x Hx. apply Hs. by apply (anc_trans h x q b). Qed.

Lemma evolves_disconnect st f e : act_ok st -> Inv e -> (forall x, f = Some x -> exists y, chain_Tip (chainActive st) = Some y /\ anc (cc_blocks st) x y) ->
  evolves st (with_chain (with_env st e) (at_tip (cc_blocks st) f)).
Proof.
  intros Hok He Hf. pose proof (ao_sel st Hok) as Hs. destruct (chain_at_tip _ _ (so_chain st Hs)) as [_ Htv].
  assert (Hfv : forall x, f = Some x -> is_Some (cc_blocks st !! x)).
  { intros x Hx. destruct (Hf x Hx) as (y & Hy & Ha). apply (anc_valid _ (so_heap st Hs) x y); [by apply Htv | done]. }
  split; [| split; [reflexivity |]].
  - apply (act_ok_core st); [done | done | reflexivity | by apply at_tip_ok | done | apply Hs |]. cbn [with_chain chainActive]. rewrite Tip_at_tip by done. intros t Ht.
    destruct (Hf t Ht) as (y & Hy & Ha). apply (sound_down _ y); [by apply Hok | done].
  - intros b [H1 H2]. exists b. by split.
Qed.

(** What a step towards [p] achieves, the branch of [p] leaving the chain at the height
    [hf]. *)
Definition stepped st (p : nat) (hf : Z) (fInvalidFound : bool) st' : Prop :=
  evolves st st' /\
  if fInvalidFound then more_failed (cc_blocks st) (cc_blocks st') /\ is_Some (chain_Tip (chainActive st'))
  else same_status (cc_blocks st) (cc_blocks st') /\ p ∈ setBlockIndexCandidates st' /\
    exists t m, chainActive st' = branch (cc_blocks st) t /\ cc_blocks st !! t = Some m /\ anc (cc_blocks st) t p /\ (t = p \/ hf < nHeight m).

Lemma ActivateBestChainStep_run st p n : act_ok st -> cc_blocks st !! p = Some n -> p ∈ setBlockIndexCandidates st -> clean (cc_blocks st) p ->
  exists f hf ok fInvalidFound st', FindFork (cc_blocks st) (chainActive st) (Some p) = Ret f /\ above (cc_blocks st) f hf (Some p) /\
    ActivateBestChainStep st p = Ret (ok, fInvalidFound, st') /\ (ok = true -> stepped st p hf fInvalidFound st').
Proof.
  intros Hok Hn Hp Hcl. pose proof (ao_sel st Hok) as Hs. pose proof (so_heap st Hs) as Hheap. destruct (chain_at_tip _ _ (so_chain st Hs)) as [Ec Htv].
  destruct (FindFork_tip _ Hheap (chain_Tip (chainActive st)) p Htv ltac:(by exists n)) as (f & Ef & Hfp & Hft & _). rewrite <- Ec in Ef.
  assert (Hfv : forall x, f = Some x -> is_Some (cc_blocks st !! x)) by (intros x Hx; apply (anc_valid _ Hheap x p); [by exists n | by apply Hfp]).
  assert (Hh : exists hf, above (cc_blocks st) f hf (Some p) /\ match f with Some f => let? n := deref (cc_blocks st) (Some f) in Ret (nHeight n) | None => Ret (-1) end = Ret hf).
  { destruct f as [x |]; [| exists (-1); split; [| done]; split; [intros ? [= <-]; by exists n | done]]. destruct (Hfv x eq_refl) as [m Hm]. exists (nHeight m). cbn [deref]. rewrite Hm.
    split; [| done]. split; [intros ? [= <-]; by exists n |]. exists p, m. split; [done |]. split; [done |]. split; [done | by apply Hfp]. }
  destruct Hh as (hf & Hab & Eh). exists f, hf. unfold ActivateBestChainStep. rewrite Ef. cbn [obind].
  destruct (disconnect_to_run (length (chainActive st)) st (chain_Tip (chainActive st)) f Hheap Ec) as (ok & st1 & -> & Hd).
  { intros y Hy. destruct (Htv y Hy) as [m Hm]. exists m. split; [done |]. rewrite Ec, Hy. cbn [at_tip]. rewrite (branch_length _ y m Hm). pose proof (node_height _ _ _ (Hheap y m Hm)). lia. }
  { done. }
  cbn [obind fst snd]. destruct ok; cbn [negb]; [| eexists _, _, _; split; [done |]; split; [done |]; split; [done |]; done].
  destruct (Hd eq_refl) as (e & -> & He). set (st1 := with_chain (with_env st e) (at_tip (cc_blocks st) f)). change (cc_blocks st1) with (cc_blocks st). rewrite Eh. cbn [obind].
  pose proof (evolves_disconnect st f e Hok (He (ao_env st Hok)) Hft) as Hev. fold st1 in Hev. destruct (above_height _ f hf p n Hheap Hn Hab) as [Hhf _].
  destruct (connect_rounds_run p (chain_Tip (chainActive st)) (S (steps (cc_blocks st) (Some p))) st1 n f hf) as (r & st2 & Er & l & Hl & Hend); [apply Hev | done.. | |].
  { rewrite (steps_lookup _ p n Hn). lia. }
  rewrite Er. cbn [obind fst snd]. apply (list_end_after st st1 p (Some p) l l) in Hend; [| done | done | done].
  destruct r; (eexists _, _, _; split; [done |]; split; [done |]; split; [done |]); intros Hokt; try done; cbn [list_end] in Hend.
  - destruct Hend as (H1 & H2 & H3 & H4). split; [done |]. split; [done |]. split; [done |]. exists p, n. split; [done |]. split; [done |]. split; [apply anc_refl | by left].
  - destruct Hend as (H1 & H2 & H3 & x & Hx & H4). destruct (Hl x Hx) as (Hax & m & Hm & Hlt). split; [done |]. split; [done |]. split; [done |]. exists x, m.
    split; [done |]. split; [done |]. split; [done | by right].
Qed.
(** ** The search, again *)

(** [p] is the best of the complete and clean blocks. *)
Definition best_block (h : list CBlockIndex) (p : nat) : Prop := forall q, is_Some (h !! q) -> linked h q -> clean h q -> atmost h q p.

Lemma best_status h h' p : same_status h h' -> best_block h p -> best_block h' p.
Proof.
  intros Hs Hb q Hq Hl Hc. pose proof (ss_core _ _ Hs) as C. destruct (Hb q) as [-> | Hw]; [apply (core_is_Some h'); [by symmetry | done] | by apply (linked_core h h' q C) | by apply (same_clean h h' q Hs) | by left |].
  right. by apply (worse_core h h' q p C).
Qed.

Lemma evolves_trimmed st st' : act_ok st -> trimmed st st' -> sel_ok st' -> evolves st st'.
Proof.
  intros Hok Htr Hs'. pose proof (tr_marks _ _ Htr) as Hm. pose proof (mk_core _ _ _ Hm) as C. pose proof (tr_chain _ _ Htr) as Hc.
  assert (Hsound : forall b, sound (cc_blocks st) b -> sound (cc_blocks st') b).
  { intros b Hb. apply (sound_core (cc_blocks st)); [done | intros y; by apply Hm | | done]. intros y Hy [? | (t & Ht & _ & Hf)]%(mk_new _ _ _ Hm); [done |].
    by destruct (Hb t (anc_trans _ t y b Ht Hy)) as (? & _). }
  assert (Hok' : act_ok st').
  { apply (act_ok_core st); [done | rewrite (tr_env _ _ Htr); apply Hok | done | rewrite Hc; apply Hok | apply Htr | |].
    - intros b Hb. apply (core_is_Some (cc_blocks st')); [by symmetry | by apply (so_invalid st' Hs')].
    - intros t Ht. apply Hsound, Hok. by rewrite <- Hc. }
  split; [done |]. split; [done |]. intros b [Hcomp Hb]. exists b. split.
  - intros q Hq Hl Hcl Hw. assert (Hq0 : is_Some (cc_blocks st !! q)) by (apply (core_is_Some (cc_blocks st')); [by symmetry | done]).
    apply (usable_clean st' q Hok' Hq) in Hcl. rewrite Hc, (marks_usable (cc_blocks st)) in Hcl by done.
    destruct (decide (q ∈ setBlockIndexCandidates st')) as [? | Hn]; [done |]. exfalso. apply (tr_gone _ _ Htr q); [| done | done].
    apply Hcomp; [done | by apply (linked_core _ _ q C) | by apply (usable_clean st q Hok Hq0) |]. intros x Hx. rewrite <- (worse_core _ _ q x C). by apply Hw.
  - intros x Hx. destruct (Hb x Hx). split; [by apply (core_is_Some (cc_blocks st)) | by apply Hsound].
Qed.

Lemma Find_run st b : act_ok st -> bound st b -> exists r st', FindMostWorkChain st = Ret (r, st') /\ evolves st st' /\ chainActive st' = chainActive st /\
  (forall y, failed_at (cc_blocks st) y -> failed_at (cc_blocks st') y) /\
  match r with
  | Some p => p ∈ setBlockIndexCandidates st' /\ clean (cc_blocks st') p /\ best_block (cc_blocks st') p
  | None => forall q, is_Some (cc_blocks st' !! q) -> linked (cc_blocks st') q -> ~ clean (cc_blocks st') q
  end.
Proof.
  intros Hok [Hcomp Hb]. pose proof (ao_sel st Hok) as Hs. pose proof (so_wf st Hs) as Hwf.
  destruct (FindMostWorkChain_loop_run (size (setBlockIndexCandidates st)) st Hs ltac:(done)) as (r & st' & Er & Htr & Hs' & Hr). exists r, st'. split; [done |].
  pose proof (evolves_trimmed st st' Hok Htr Hs') as Hev. split; [done |]. pose proof (tr_chain _ _ Htr) as Hc. split; [done |]. pose proof (tr_marks _ _ Htr) as Hm. split; [apply Hm |].
  pose proof (mk_core _ _ _ Hm) as C.
  assert (Hclean : forall q, is_Some (cc_blocks st' !! q) -> clean (cc_blocks st') q <-> usable (cc_blocks st) (chainActive st) q).
  { intros q Hq. rewrite <- (usable_clean st' q (proj1 Hev) Hq), Hc. by apply marks_usable. }
  assert (Hbc : forall x, b = Some x -> x ∈ setBlockIndexCandidates st /\ usable (cc_blocks st) (chainActive st) x).
  { intros x Hx. destruct (Hb x Hx) as [Hxv Hsx]. split; [| apply (usable_clean st x Hok Hxv); by apply sound_clean]. apply Hcomp; [done | by apply sound_linked | by apply sound_clean |].
    intros y Hy. assert (y = x) as -> by congruence. by apply worse_irrefl. }
  assert (Hin : forall q, is_Some (cc_blocks st' !! q) -> linked (cc_blocks st') q -> clean (cc_blocks st') q -> (forall x, b = Some x -> ~ worse (cc_blocks st) q x) -> q ∈ setBlockIndexCandidates st).
  { intros q Hq Hl Hcl Hw. assert (Hq0 : is_Some (cc_blocks st !! q)) by (apply (core_is_Some (cc_blocks st')); [by symmetry | done]). apply Hcomp; [done | by apply (linked_core _ _ q C) | | done].
    apply (usable_clean st q Hok Hq0). by apply Hclean. }
  destruct r as [p |].
  - destruct Hr as (Hp & Hu & Hmax). split; [done |]. assert (Hpv : is_Some (cc_blocks st' !! p)) by (by apply (so_cands st' Hs')). split; [by apply Hclean |].
    intros q Hq Hl Hcl. pose proof (proj1 (Hclean q Hq) Hcl) as Hqu.
    assert (Hat : atmost (cc_blocks st) q p); [| destruct Hat as [-> | Hw]; [by left | right; by apply (worse_core _ _ q p C)]].
    destruct b as [x |]; [| apply Hmax; [by apply Hin | done]]. destruct (Hbc x eq_refl) as [Hx Hxu]. destruct (Hb x eq_refl) as [Hxv _].
    assert (Hq0 : is_Some (cc_blocks st !! q)) by (apply (core_is_Some (cc_blocks st')); [by symmetry | done]).
    destruct (worse_total _ Hwf q x Hq0 Hxv) as [-> | [Hqx | Hxq]]; [by apply Hmax | |].
    + apply (atmost_trans _ Hwf q x p); [by right | by apply Hmax].
    + apply Hmax; [apply Hin; [done | done | done |] | done]. intros ? [= <-] Hqx. apply (worse_irrefl _ Hwf q Hq0). by apply (worse_trans _ Hwf q x q).
  - assert (Hno : forall q, q ∈ setBlockIndexCandidates st -> ~ usable (cc_blocks st) (chainActive st) q) by (intros q Hq; apply (tr_gone _ _ Htr q Hq); rewrite Hr; set_solver).
    intros q Hq Hl Hcl. destruct b as [x |]; [destruct (Hbc x eq_refl) as [Hx Hxu]; by apply (Hno x) |]. apply (Hno q); [by apply Hin | by apply Hclean].
Qed.
(** ** The loop *)

#[local] Instance failed_at_dec h x : Decision (failed_at h x).
Proof.
  destruct (h !! x) as [n |] eqn:E1; [| right; intros (n & Hn & _); congruence].
  destruct (flag (nStatus n) BLOCK_FAILED_MASK) eqn:Ef; [left; by exists n | right; intros (m & Hm & ?); congruence].
Defined.

Lemma core_length h h' : same_core h h' -> length h = length h'.
Proof. intros C. by eapply Forall2_length. Qed.

(** The number of blocks that have not failed. *)
Definition live (h : list CBlockIndex) : nat := size (filter (fun x => ~ failed_at h x) (list_to_set (seq 0 (length h)) : gset nat)).

Lemma live_le h h' : same_core h h' -> (forall y, failed_at h y -> failed_at h' y) -> (live h' <= live h)%nat.
Proof. intros C F. unfold live. apply subseteq_size. rewrite (core_length _ _ C). intros x. rewrite !elem_of_filter. intros [H1 H2]. split; [intros ?; by apply H1, F | done]. Qed.

Lemma live_lt h h' : same_core h h' -> more_failed h h' -> (live h' < live h)%nat.
Proof.
  intros C [F (x & [n Hn] & Hx & Hx')]. unfold live. apply subset_size. rewrite (core_length _ _ C). split.
  - intros y. rewrite !elem_of_filter. intros [H1 H2]. split; [intros ?; by apply H1, F | done].
  - intros Hsub. assert (Hin : x ∈ (filter (fun x => ~ failed_at h' x) (list_to_set (seq 0 (length h')) : gset nat))); [| by apply elem_of_filter in Hin as [? _]].
    apply Hsub, elem_of_filter. split; [done |]. apply elem_of_list_to_set, elem_of_seq. apply lookup_lt_Some in Hn. rewrite (core_length _ _ C) in Hn. lia.
Qed.

(** The tip is the best block, if there is one. *)
Definition best_tip st : Prop :=
  forall q, is_Some (cc_blocks st !! q) -> linked (cc_blocks st) q -> clean (cc_blocks st) q -> exists t, chain_Tip (chainActive st) = Some t /\ atmost (cc_blocks st) q t.

(** Rounds that are enough before a block is chosen. *)
Definition enough (h : list CBlockIndex) : Z := Z.of_nat (live h) * (Z.of_nat (length h) + 2) + Z.of_nat (length h) + 1.

(** [p] has been chosen and [d] is its distance from the chain. *)
Definition chosen st (p : nat) (d : Z) : Prop :=
  p ∈ setBlockIndexCandidates st /\ clean (cc_blocks st) p /\ best_block (cc_blocks st) p /\
  exists n f hf, cc_blocks st !! p = Some n /\ FindFork (cc_blocks st) (chainActive st) (Some p) = Ret f /\ above (cc_blocks st) f hf (Some p) /\ nHeight n - hf <= d.

Definition ends_well st (r : outcome (bool * CChainState E)) : Prop :=
  exists ok st', r = Ret (ok, st') /\ (ok = true -> evolves st st' /\ best_tip st').

Lemma ends_well_after st st1 r : evolves st st1 -> ends_well st1 r -> ends_well st r.
Proof. intros Hev (ok & st' & -> & H). exists ok, st'. split; [done |]. intros Hok. destruct (H Hok). split; [by apply (evolves_trans _ st1) | done]. Qed.

(** One round towards a chosen block, and what is left to do. *)
Lemma ActivateBestChain_round st p d : act_ok st -> chosen st p d -> chain_Tip (chainActive st) <> Some p ->
  exists ok inv st', ActivateBestChainStep st p = Ret (ok, inv, st') /\ (ok = true -> evolves st st' /\
    if inv : bool then (live (cc_blocks st') < live (cc_blocks st))%nat /\ is_Some (chain_Tip (chainActive st'))
    else (live (cc_blocks st') <= live (cc_blocks st))%nat /\ (chain_Tip (chainActive st') = Some p /\ best_tip st' \/ 1 <= d /\ chosen st' p (d - 1))).
Proof.
  intros Hok (Hp & Hcl & Hbest & n & f & hf & Hn & Ef & Hab & Hd) Hne.
  destruct (ActivateBestChainStep_run st p n Hok Hn Hp Hcl) as (f' & hf' & ok & inv & st' & Ef' & Hab' & Es & Hst). rewrite Ef in Ef'. injection Ef' as <-.
  assert (hf' = hf) as -> by (destruct Hab as [_ Hab], Hab' as [_ Hab']; destruct f; [destruct Hab as (? & ? & _ & ? & ? & _), Hab' as (? & ? & _ & ? & ? & _); congruence | congruence]).
  exists ok, inv, st'. split; [done |]. intros Hokt. destruct (Hst Hokt) as [Hev Hcase]. split; [done |]. destruct Hev as (Hok' & C & _). destruct inv.
  { destruct Hcase as [Hmf ?]. split; [by apply live_lt | done]. }
  destruct Hcase as (Hss & Hp' & t & m & Hc' & Hm & Ha & Hprog). split; [apply live_le; [done | intros y; by apply Hss] |].
  destruct (same_lookup _ _ p n C Hn) as (n' & Hn' & Sn). destruct (same_lookup _ _ t m C Hm) as (m' & Hm' & Sm). pose proof (best_status _ _ p Hss Hbest) as Hbest'.
  assert (Htip : chain_Tip (chainActive st') = Some t) by (rewrite Hc'; apply Tip_branch; by exists m).
  destruct (decide (t = p)) as [-> | Htp].
  { left. split; [done |]. intros q H1 H2 H3. exists p. split; [done | by apply Hbest']. }
  right. destruct Hprog as [? | Hlt]; [done |]. pose proof (so_heap st (ao_sel st Hok)) as Hheap.
  assert (Hht : nHeight m < nHeight n).
  { destruct (anc_height _ Hheap t p n Hn Ha) as (m2 & Hm2 & Hb & _). assert (m = m2) as <- by congruence. destruct (Z.eq_dec (nHeight m) (nHeight n)) as [Eh |]; [| lia].
    exfalso. apply Htp. by apply (anc_same_height _ Hheap t p m n). }
  split; [lia |]. split; [done |]. split; [by apply (same_clean _ _ p Hss) |]. split; [done |]. exists n', (Some t), (nHeight m). split; [done |].
  split; [rewrite Hc', <- (core_branch _ _ C); apply (FindFork_anc _ (core_heap_ok _ _ C Hheap)); [by exists m' | by exists n' | by apply (core_anc _ _ C)] |].
  split; [| rewrite (sn_height _ _ Sn); lia]. split; [intros ? [= <-]; by exists n' |]. exists p, m'. split; [done |]. split; [done |]. split; [apply Sm | by apply (core_anc _ _ C)].
Qed.
Lemma found_chosen st p n : act_ok st -> cc_blocks st !! p = Some n -> p ∈ setBlockIndexCandidates st -> clean (cc_blocks st) p -> best_block (cc_blocks st) p ->
  chosen st p (Z.of_nat (length (cc_blocks st))).
Proof.
  intros Hok Hn Hp Hcl Hb. pose proof (ao_sel st Hok) as Hs. pose proof (so_heap st Hs) as Hheap.
  destruct (ActivateBestChainStep_run st p n Hok Hn Hp Hcl) as (f & hf & _ & _ & _ & Ef & Hab & _). split; [done |]. split; [done |]. split; [done |]. exists n, f, hf.
  split; [done |]. split; [done |]. split; [done |]. destruct (above_height _ f hf p n Hheap Hn Hab) as [? _]. pose proof (height_bound _ p n Hheap Hn). apply lookup_lt_Some in Hn. lia.
Qed.

(** With this fuel the loop ends, before and after the choice of a block. *)
Definition terminates (fuel : nat) : Prop := forall st, act_ok st -> (exists b, bound st b) ->
  (enough (cc_blocks st) <= Z.of_nat fuel -> ends_well st (ActivateBestChain fuel st None)) /\
  (forall p d, chosen st p d -> Z.of_nat (live (cc_blocks st)) * (Z.of_nat (length (cc_blocks st)) + 2) + d <= Z.of_nat fuel -> ends_well st (ActivateBestChain fuel st (Some p))).

Lemma ActivateBestChain_unfold fuel st mw : ActivateBestChain fuel st mw =
  let? r := match mw with Some p => Ret (Some p, st) | None => FindMostWorkChain st end in
  match r.1 with
  | None => Ret (true, r.2)
  | Some p =>
    if bool_decide (chain_Tip (chainActive r.2) = Some p) then Ret (true, r.2)
    else
      let? s := ActivateBestChainStep r.2 p in
      let '(ok, fInvalidFound, st) := s in
      if negb ok then Ret (false, st)
      else
        let mw := if fInvalidFound : bool then None else Some p in
        if bool_decide (chain_Tip (chainActive st) = mw) then Ret (true, st)
        else match fuel with O => Undef | S fuel => ActivateBestChain fuel st mw end
  end.
Proof. by destruct fuel. Qed.

Lemma ActivateBestChain_chosen fuel st p d : act_ok st -> (exists b, bound st b) -> chosen st p d ->
  Z.of_nat (live (cc_blocks st)) * (Z.of_nat (length (cc_blocks st)) + 2) + d <= Z.of_nat fuel -> (forall k, fuel = S k -> terminates k) ->
  ends_well st (ActivateBestChain fuel st (Some p)).
Proof.
  intros Hok [b Hb] Hch Hfuel IH. rewrite ActivateBestChain_unfold. cbn [obind fst snd]. case_bool_decide as Etip.
  { exists true, st. split; [done |]. intros _. split; [by apply evolves_refl |]. intros q H1 H2 H3. exists p. split; [done |]. by apply Hch. }
  destruct (ActivateBestChain_round st p d Hok Hch Etip) as (ok & inv & st' & -> & Hr). cbn [obind]. destruct ok; cbn [negb]; [| by exists false, st'].
  destruct (Hr eq_refl) as [Hev Hcase]. pose proof (core_length _ _ (proj1 (proj2 Hev))) as El. pose proof (proj2 (proj2 Hev) b Hb) as Hb'.
  assert (Hd : 0 <= d) by (destruct Hch as (_ & _ & _ & n & f & hf & Hn & _ & Hab & ?); destruct (above_height _ f hf p n (so_heap st (ao_sel st Hok)) Hn Hab); lia).
  destruct inv.
  - destruct Hcase as [Hlive [t Ht]]. rewrite Ht. cbn [bool_decide]. rewrite bool_decide_false by done. destruct fuel as [| fuel]; [nia |].
    apply (ends_well_after _ st'); [done |]. apply (IH fuel eq_refl st' (proj1 Hev) Hb'). unfold enough. rewrite <- El. nia.
  - destruct Hcase as [Hlive [[Ht Hbt] | [Hd1 Hch']]].
    + rewrite bool_decide_true by done. exists true, st'. split; [done |]. intros _. done.
    + case_bool_decide as Et.
      * exists true, st'. split; [done |]. intros _. split; [done |]. intros q H1 H2 H3. exists p. split; [done |]. by apply Hch'.
      * destruct fuel as [| fuel]; [nia |]. apply (ends_well_after _ st'); [done |]. apply (proj2 (IH fuel eq_refl st' (proj1 Hev) Hb') p (d - 1) Hch'). rewrite <- El. nia.
Qed.

Lemma ActivateBestChain_run fuel : terminates fuel.
Proof.
  induction fuel as [| fuel IH]; intros st Hok Hb; (split; [| intros p d Hch Hf; apply (ActivateBestChain_chosen _ st p d); try done; by intros k [= <-]]); intros Hfuel.
  { unfold enough in Hfuel. nia. }
  destruct Hb as [b Hb]. destruct (Find_run st b Hok Hb) as (r & st' & Er & Hev & Hc & Hfl & Hr). rewrite ActivateBestChain_unfold, Er. cbn [obind fst snd].
  pose proof (live_le _ _ (proj1 (proj2 Hev)) Hfl) as Hlive. pose proof (core_length _ _ (proj1 (proj2 Hev))) as El. unfold enough in Hfuel.
  destruct r as [p |]; [| exists true, st'; split; [done |]; intros _; split; [done |]; intros q H1 H2 H3; by destruct (Hr q H1 H2)].
  destruct Hr as (Hp & Hcl & Hbest). destruct (so_cands st' (ao_sel st' (proj1 Hev)) p Hp) as [[n Hn] _]. apply (ends_well_after _ st'); [done |].
  pose proof (ActivateBestChain_chosen (S fuel) st' p _ (proj1 Hev) (proj2 (proj2 Hev) b Hb) (found_chosen st' p n (proj1 Hev) Hn Hp Hcl Hbest)) as Hrun.
  rewrite ActivateBestChain_unfold in Hrun. cbn [obind fst snd] in Hrun. apply Hrun; [rewrite <- El; nia | by intros k [= <-]].
Qed.
Lemma tip_bound st : act_ok st -> complete st (chain_Tip (chainActive st)) -> bound st (chain_Tip (chainActive st)).
Proof. intros Hok Hc. split; [done |]. intros t Ht. split; [by apply (chain_at_tip _ _ (so_chain st (ao_sel st Hok))) | by apply Hok]. Qed.
End Activate.

(** ** Theorems *)

(** C4. Suppose that from the present state of coins and files on, connecting a block gives
    each block a fixed verdict and reports no corruption ([tip_laws]). Then
    [ActivateBestChain] ends. Unless the system fails, it leaves the invariant intact, and the
    tip is then the best of all the blocks in the index whose branch has been received
    completely and has no failed block, whichever blocks have turned out invalid on the
    way; every block of the active chain is valid. *)
Theorem ActivateBestChain_best {E : Type} `{A : BlockAddresses} `{Hinj : !Inj (=) (=) address} {T : TipOps E} (Inv : E -> Prop) (valid : nat -> bool)
    (st : CChainState E) fuel :
  tip_laws Inv valid -> act_ok Inv valid st -> complete st (chain_Tip (chainActive st)) -> enough (cc_blocks st) <= Z.of_nat fuel ->
  exists ok st', ActivateBestChain fuel st None = Ret (ok, st') /\
    (ok = true -> act_ok Inv valid st' /\ best_tip st' /\ (forall t q, chain_Tip (chainActive st') = Some t -> anc (cc_blocks st') q t -> valid q = true)).
Proof.
  intros L Hok Hcomp Hfuel. destruct (proj1 (ActivateBestChain_run Inv valid L fuel st Hok (ex_intro _ (chain_Tip (chainActive st)) (tip_bound Inv valid st Hok Hcomp))) Hfuel) as (ok & st' & E1 & H1).
  exists ok, st'. split; [done |]. intros Hokt. destruct (H1 Hokt) as [(Hok' & _) Hbest]. split; [done |]. split; [done |]. intros t q Ht Hq.
  by destruct (ao_chain _ _ st' Hok' t Ht q Hq) as (_ & _ & ? & _).
Qed.

(** In the sample the environment is whether the stored blocks are intact: if they are, all
    blocks but the second can be connected, and their entries are completed; if not, every
    block is reported as possibly corrupted. *)
Definition sample_tip_ops : TipOps bool := {|
  connect_block intact p n :=
    if negb intact then (CONNECT_INVALID true, None, intact)
    else if Nat.eqb p 2 then (CONNECT_INVALID false, None, intact)
    else (CONNECT_OK, Some (set_nStatus n (Z.lor (nStatus n) 4)), intact);
  disconnect_block intact _ _ := (true, intact)
|}.

Lemma sample_tip_laws : tip_laws (T := sample_tip_ops) (fun intact => intact = true) (fun p => negb (Nat.eqb p 2)).
Proof.
  split; cbn [connect_block disconnect_block sample_tip_ops].
  - intros e p n r u e' -> H. cbn [negb] in H. destruct (Nat.eqb p 2); by injection H as <- _ <-.
  - intros e p n r n' e' -> H. cbn [negb] in H. destruct (Nat.eqb p 2); [done |]. injection H as _ <- _. split; [by split |].
    split; cbn [set_nStatus nStatus]; by rewrite flag_lor_other.
  - intros e p n e' -> H. by injection H.
Qed.

Lemma sample_act_ok : act_ok (fun intact => intact = true) (fun p => negb (Nat.eqb p 2)) (sample_chain_state true).
Proof.
  split.
  - apply sample_sel_ok.
  - done.
  - change (cc_blocks (sample_chain_state true)) with sample_tree. intros p n q m Hp Hprev Hq. revert p n Hp Hprev.
    refine (sample_tree_cases (fun _ n => pprev n = Some q -> uval (nChainWork m) < uval (nChainWork n)) _ _ _ _); cbn [sample_block_entry pprev]; [done | intros [= <-]; injection Hq as <-; vm_compute; reflexivity ..].
  - change (cc_blocks (sample_chain_state true)) with sample_tree. refine (sample_tree_cases (fun _ n => nHeight n + 32 <= INT_MAX) _ _ _ _); vm_compute; discriminate.
  - change (cc_blocks (sample_chain_state true)) with sample_tree. refine (sample_tree_cases (fun p n => pprev n = None -> negb (Nat.eqb p 2) = true) _ _ _ _); done.
  - intros t [= <-] x [[| k] Hk]; [| by destruct k]. injection Hk as <-. split; [| split; [| split; [done |]]].
    + intros (n & [= <-] & ?). done.
    + eexists. split; [reflexivity |]. reflexivity.
    + eexists. split; [reflexivity |]. left. cbn. lia.
Qed.

Lemma ActivateBestChain_best_witness :
  let A := sample_addresses in let T := sample_tip_ops in
  exists st', ActivateBestChain 40 (sample_chain_state true) None = Ret (true, st') /\ chain_Tip (chainActive st') = Some 1%nat /\ best_tip st'.
Proof.
  intros A T. destruct (ActivateBestChain_best (Hinj := sample_addresses_inj) _ _ (sample_chain_state true) 40 sample_tip_laws sample_act_ok) as (ok & st' & Er & H).
  - intros q [n Hn] _ _ _. change (cc_blocks (sample_chain_state true)) with sample_tree in Hn. cbn [sample_chain_state setBlockIndexCandidates]. revert q n Hn.
    refine (sample_tree_cases (fun q _ => q ∈ ({[0%nat; 1%nat; 2%nat; 3%nat]} : gset nat)) _ _ _ _); set_solver.
  - vm_compute. discriminate.
  - assert (Ho : ok = true /\ chain_Tip (chainActive st') = Some 1%nat) by (vm_compute in Er; injection Er as <- <-; split; reflexivity).
    destruct Ho as [-> Ht]. exists st'. split; [exact Er |]. split; [exact Ht |]. exact (proj1 (proj2 (H eq_refl))).
Defined.

(** C35. A block that is connected next and is reported as possibly corrupted is neither
    marked nor removed from the candidates, so that [ActivateBestChain] chooses it again
    and again: it does not end, whatever the number of rounds. *)
Theorem ActivateBestChain_corruption_loops {E : Type} `{A : BlockAddresses} {T : TipOps E} (st : CChainState E) p n t :
  heap_ok (cc_blocks st) -> cc_blocks st !! p = Some n -> pprev n = Some t -> chainActive st = branch (cc_blocks st) t -> nHeight n + 31 <= INT_MAX ->
  FindMostWorkChain st = Ret (Some p, st) -> connect_block (cc_env st) p n = (CONNECT_INVALID true, None, cc_env st) ->
  forall fuel, ActivateBestChain fuel st None = Undef.
Proof.
  intros Hok Hn Hprev Hc Hmax Hfind Hcon fuel. pose proof (Hok p n Hn) as Hnode. unfold node_ok in Hnode. rewrite Hprev in Hnode. destruct Hnode as (Hlt & (m & Hm & Hh & Hm0) & _).
  assert (Htip : chain_Tip (chainActive st) = Some t) by (rewrite Hc; apply Tip_branch; by exists m).
  assert (Hstep : ActivateBestChainStep st p = Ret (true, true, st)); [| induction fuel as [| fuel IH]; rewrite ActivateBestChain_unfold, Hfind; cbn [obind fst snd];
    rewrite Htip, bool_decide_false by (intros [= ->]; lia); rewrite Hstep; cbn [obind negb]; rewrite Htip, bool_decide_false by done; done].
  assert (Hfork : FindFork (cc_blocks st) (chainActive st) (Some p) = Ret (Some t)) by (rewrite Hc; apply (FindFork_anc _ Hok t p); [by exists m | by exists n | by apply (anc_prev _ p n)]).
  assert (Hdisc : disconnect_to (length (chainActive st)) st (Some t) = Ret (true, st)) by (destruct (length (chainActive st)); cbn [disconnect_to]; by rewrite Htip, bool_decide_true).
  assert (Hsame : with_env st (cc_env st) = st) by (by destruct st).
  assert (Hlist : connect_list st (Some t) p [p] = Ret (INVALID_FOUND, st)).
  { cbn [connect_list]. unfold ConnectTip. cbn [deref]. rewrite Hn. cbn [obind]. rewrite bool_decide_true by congruence. cbn [cassert obind]. rewrite Hcon, Hsame. done. }
  assert (Hpath : path_down (S (steps (cc_blocks st) (Some p))) (cc_blocks st) (nHeight m) (Some p) = Ret [p]).
  { cbn [path_down deref]. rewrite Hn. cbn [obind]. rewrite (proj2 (Z.eqb_neq _ _)) by lia. rewrite Hprev. destruct (steps _ _); cbn [path_down deref]; rewrite Hm; cbn [obind]; by rewrite Z.eqb_refl. }
  unfold ActivateBestChainStep. rewrite Htip, Hfork. cbn [obind]. rewrite Hdisc. cbn [obind fst snd negb]. cbn [deref]. rewrite Hm. cbn [obind connect_rounds deref]. rewrite Hn. cbn [obind].
  rewrite (proj2 (Z.eqb_neq _ _)) by lia. unfold int_add. rewrite (proj2 (Z.leb_le INT_MIN (nHeight m + 32))), (proj2 (Z.leb_le (nHeight m + 32) INT_MAX)) by (unfold INT_MIN; lia). cbn [andb obind].
  replace (Z.min (nHeight m + 32) (nHeight n)) with (nHeight n) by lia. rewrite (GetAncestor_run _ Hok p n _ Hn), Z.gtb_ltb, Z.ltb_irrefl, (proj2 (Z.ltb_ge (nHeight n) 0)) by lia.
  rewrite Z.sub_diag. cbn [orb obind]. change (back (cc_blocks st) (Z.to_nat 0) p) with (Some p). rewrite Hpath. cbn [obind]. change (default 0%nat (list.last [p])) with p. change (reverse [p]) with [p]. by rewrite Hlist.
Qed.

(** Every block is reported as possibly corrupted. *)
Definition corrupt_tip_ops : TipOps unit := {|
  connect_block _ _ _ := (CONNECT_INVALID true, None, tt);
  disconnect_block _ _ _ := (true, tt)
|}.

(** The state of the sample after the failed candidate is gone. *)
Definition corrupt_state : CChainState unit :=
  MkCChainState (Manager sample_tree ∅ (Some 3%nat) ∅) {[3%nat]} [Some 0%nat] {[0%nat; 1%nat; 2%nat]} [] None 4 (-1) (zeros WIDTH) tt.

Lemma ActivateBestChain_corruption_loops_witness :
  let A := sample_addresses in let T := corrupt_tip_ops in ActivateBestChain 1000 corrupt_state None = Undef.
Proof.
  intros A T. apply (ActivateBestChain_corruption_loops corrupt_state 2%nat (sample_block_entry (Some 0%nat) 1 3 (Z.lor 3 8)) 0%nat).
  - exact sample_tree_ok.
  - reflexivity.
  - reflexivity.
  - reflexivity.
  - vm_compute. discriminate.
  - vm_compute. reflexivity.
  - reflexivity.
Defined.
