(* ===== verification/CheckQueue.v ===== *)
(** * The queue of script checks

    [src/checkqueue.h]: the master adds checks to a queue that worker threads empty, and
    joins them in [Wait] until all the checks are done. A critical section is one step;
    [cond.wait] ends one and being notified starts another. Interleavings are the paths of
    the step relation. *)

From S2P Require Import Prelude.

Open Scope Z_scope.

Section CheckQueue.
Context {T : Type} (check : T -> bool).

(** The back of the vector is the end of the list. *)
Record CCheckQueue := MkCheckQueue {
  queue : list T;
  nIdle : Z;
  nTotal : Z;
  fAllOk : bool;
  nTodo : Z;
  nBatchSize : Z
}.

Definition CCheckQueue_new (nBatchSizeIn : Z) : CCheckQueue := MkCheckQueue [] 0 0 true 0 nBatchSizeIn.

(** How a critical section ends: [Wait] returns, the thread waits, or it has a batch. *)
Inductive section_end :=
| RETURN (fRet : bool)
| WAIT
| WORK (vChecks : list T) (fOk : bool).

(** The clean-up of the previous run, and whether the master is notified. *)
Definition loop_cleanup (q : CCheckQueue) (fMaster : bool) (nNow : Z) (fOk : bool) : CCheckQueue * bool :=
  if nNow =? 0 then (MkCheckQueue (queue q) (nIdle q) (nTotal q + 1) (fAllOk q) (nTodo q) (nBatchSize q), false)
  else
    let todo := uint32 (nTodo q - nNow) in
    (MkCheckQueue (queue q) (nIdle q) (nTotal q) (fAllOk q && fOk) todo (nBatchSize q), (todo =? 0) && negb fMaster).

(** [nNow] *)
Definition batch_size (q : CCheckQueue) : Z :=
  Z.max 1 (Z.min (nBatchSize q) (uint32 (Zlen (queue q)) / uint32 (nTotal q + nIdle q + 1))).

(** From the test of the queue to the end of the critical section. *)
Definition loop_take (q : CCheckQueue) (fMaster : bool) : section_end * CCheckQueue :=
  if bool_decide (queue q = []) then
    if fMaster && (nTodo q =? 0) then
      (RETURN (fAllOk q), MkCheckQueue (queue q) (nIdle q) (nTotal q - 1) true (nTodo q) (nBatchSize q))
    else (WAIT, MkCheckQueue (queue q) (nIdle q + 1) (nTotal q) (fAllOk q) (nTodo q) (nBatchSize q))
  else
    let k := (length (queue q) - Z.to_nat (batch_size q))%nat in
    (WORK (reverse (drop k (queue q))) (fAllOk q),
     MkCheckQueue (take k (queue q)) (nIdle q) (nTotal q) (fAllOk q) (nTodo q) (nBatchSize q)).

(** After [cond.wait]. *)
Definition loop_woken (q : CCheckQueue) : CCheckQueue :=
  MkCheckQueue (queue q) (nIdle q - 1) (nTotal q) (fAllOk q) (nTodo q) (nBatchSize q).

Definition Add (q : CCheckQueue) (vChecks : list T) : CCheckQueue :=
  MkCheckQueue (queue q ++ vChecks) (nIdle q) (nTotal q) (fAllOk q) (uint32 (nTodo q + Zlen vChecks)) (nBatchSize q).

(** ** Threads *)

(** Where a thread is in [Loop]: at its start, in [cond.wait], notified but without the
    lock, or executing its batch, of which [todo] is left. *)
Inductive thread :=
| START
| BLOCKED
| NOTIFIED
| WORKING (todo : list T) (nNow : Z) (fOk : bool).

(** The master is in [Wait] or not. *)
Record pool := Pool {
  shared : CCheckQueue;
  master : option thread;
  workers : list thread
}.

Definition notify (t : thread) : thread := match t with BLOCKED => NOTIFIED | _ => t end.

(** The critical section that a thread executes next, if it has one. *)
Definition critical (fMaster : bool) (q : CCheckQueue) (t : thread) : option (section_end * CCheckQueue * bool) :=
  match t with
  | START => let '(q, n) := loop_cleanup q fMaster 0 true in Some (loop_take q fMaster, n)
  | NOTIFIED => Some (loop_take (loop_woken q) fMaster, false)
  | WORKING [] nNow fOk => let '(q, n) := loop_cleanup q fMaster nNow fOk in Some (loop_take q fMaster, n)
  | _ => None
  end.

(** One check of the batch. *)
Definition execute (t : thread) : option thread :=
  match t with
  | WORKING (c :: l) nNow fOk => Some (WORKING l nNow (if fOk then check c else fOk))
  | _ => None
  end.

(** What the master observes of a step. *)
Inductive event := Silent | Added (vChecks : list T) | Returned (fRet : bool).

(** A thread that has a batch or waits. *)
Definition after (e : section_end) : option thread :=
  match e with
  | RETURN _ => None
  | WAIT => Some BLOCKED
  | WORK vChecks fOk => Some (WORKING vChecks (Zlen vChecks) fOk)
  end.

Definition returned (e : section_end) : event := match e with RETURN b => Returned b | _ => Silent end.

(** [notify_one] or [notify_all] on [condWorker]: which of the waiting threads is
    notified is not determined. *)
Inductive notified : nat -> list thread -> list thread -> Prop :=
| notify_none ws : notified 0 ws ws
| notify_one_none ws : BLOCKED ∉ ws -> notified 1 ws ws
| notify_one ws i : ws !! i = Some BLOCKED -> notified 1 ws (<[i := NOTIFIED]> ws)
| notify_all n ws : (1 < n)%nat -> notified n ws (notify <$> ws).

(** The steps of the threads. *)
Inductive step : pool -> event -> pool -> Prop :=
| step_worker q m ws i t e q' n t' :
    ws !! i = Some t -> critical false q t = Some (e, q', n) -> after e = Some t' ->
    step (Pool q m ws) Silent (Pool q' (if n then notify <$> m else m) (<[i := t']> ws))
| step_worker_check q m ws i t t' :
    ws !! i = Some t -> execute t = Some t' -> step (Pool q m ws) Silent (Pool q m (<[i := t']> ws))
| step_master q ws t e q' n :
    critical true q t = Some (e, q', n) -> step (Pool q (Some t) ws) (returned e) (Pool q' (after e) ws)
| step_master_check q ws t t' :
    execute t = Some t' -> step (Pool q (Some t) ws) Silent (Pool q (Some t') ws).

(** The other moves: the master outside [Wait] adds checks or calls [Wait], a worker
    thread is created, and a wait may end without a notification. *)
Inductive move : pool -> event -> pool -> Prop :=
| move_step p e p' : step p e p' -> move p e p'
| move_add q ws ws' l : notified (length l) ws ws' -> move (Pool q None ws) (Added l) (Pool (Add q l) None ws')
| move_wait q ws : move (Pool q None ws) Silent (Pool q (Some START) ws)
| move_thread q m ws : move (Pool q m ws) Silent (Pool q m (ws ++ [START]))
| move_spurious_worker q m ws i : ws !! i = Some BLOCKED -> move (Pool q m ws) Silent (Pool q m (<[i := NOTIFIED]> ws))
| move_spurious_master q ws : move (Pool q (Some BLOCKED) ws) Silent (Pool q (Some NOTIFIED) ws).

(** The checks added since [Wait] last returned. *)
Definition pending (l : list T) (e : event) : list T := match e with Silent => l | Added l' => l ++ l' | Returned _ => [] end.

(** The runs of a new queue, with fewer than 2^32 checks at a time and fewer than 2^30
    threads. *)
Inductive reachable (n : Z) : list T -> pool -> Prop :=
| reach_new : reachable n [] (Pool (CCheckQueue_new n) None [])
| reach_move l p e p' :
    reachable n l p -> move p e p' -> Zlen (pending l e) < 2 ^ 32 -> Zlen (workers p') < 2 ^ 30 ->
    reachable n (pending l e) p'.
End CheckQueue.

Arguments CCheckQueue : clear implicits.
Arguments section_end : clear implicits.
Arguments thread : clear implicits.
Arguments pool : clear implicits.
Arguments event : clear implicits.

(** ** The invariant *)

Section Invariant.
Context {T : Type} (check : T -> bool).
Implicit Types (q : CCheckQueue T) (t : thread T) (ts ws : list (thread T)) (l : list T).

(** The sum of a weight over the threads. *)
Definition total (f : thread T -> Z) ts : Z := foldr (fun t a => f t + a) 0 ts.

(** The checks of the batch that a thread has not reported. *)
Definition unreported t : Z := match t with WORKING _ n _ => n | _ => 0 end.

Definition idle t : Z := match t with BLOCKED | NOTIFIED => 1 | _ => 0 end.

Definition started t : Z := match t with START => 0 | _ => 1 end.

(** The checks that a thread has still to execute. *)
Definition remaining t : list T := match t with WORKING todo _ _ => todo | _ => [] end.

Definition failing t : bool := match t with WORKING _ _ fOk => negb fOk | _ => false end.

Definition batch_ok t : Prop := match t with WORKING todo n _ => Zlen todo <= n /\ 1 <= n | _ => True end.

Definition threads (p : pool T) : list (thread T) := match master p with Some t => t :: workers p | None => workers p end.

(** The counters are what their names say, and a failed check is still to be executed, or
    has been noticed. *)
Record core_ok l q ts : Prop := {
  co_todo : nTodo q = Zlen (queue q) + total unreported ts;
  co_bound : nTodo q <= Zlen l;
  co_idle : nIdle q = total idle ts;
  co_total : nTotal q = total started ts;
  co_batch : Forall batch_ok ts;
  co_queue : Forall (fun c => c ∈ l) (queue q);
  co_remaining : Forall (fun t => Forall (fun c => c ∈ l) (remaining t)) ts;
  co_failed : fAllOk q = false \/ Exists (fun t => failing t = true) ts -> exists c, c ∈ l /\ check c = false;
  co_noticed : forall c, c ∈ l -> check c = false ->
    c ∈ queue q \/ Exists (fun t => c ∈ remaining t \/ failing t = true) ts \/ fAllOk q = false
}.

(** A master that waits will be notified. *)
Record pool_ok l (p : pool T) : Prop := {
  po_core : core_ok l (shared p) (threads p);
  po_wake : master p = Some BLOCKED -> queue (shared p) = [] /\ nTodo (shared p) <> 0;
  po_size : Zlen l < 2 ^ 32;
  po_threads : Zlen (workers p) < 2 ^ 30
}.

#[export] Instance total_perm (f : thread T -> Z) : Proper ((≡ₚ) ==> (=)) (total f).
Proof. unfold total. apply foldr_permutation_proper; [apply _ | by intros ? ? ? -> | intros; lia]. Qed.

Lemma Exists_perm (P : thread T -> Prop) ts ts' : ts ≡ₚ ts' -> Exists P ts -> Exists P ts'.
Proof. intros Hp. rewrite !Exists_exists. setoid_rewrite Hp. done. Qed.

Lemma core_ok_perm_1 l q ts ts' : ts ≡ₚ ts' -> core_ok l q ts -> core_ok l q ts'.
Proof.
  intros Hp [H1 ? H2 H3 H4 ? H5 H6 H7]. rewrite Hp in H1, H2, H3, H4, H5. split; try done.
  - intros [? | He]; apply H6; [by left | right; by apply (Exists_perm _ ts')].
  - intros c Hc Hf. destruct (H7 c Hc Hf) as [? | [He | ?]]; [by left | right; left; by apply (Exists_perm _ ts) | right; by right].
Qed.

#[export] Instance core_ok_perm l q : Proper ((≡ₚ) ==> iff) (core_ok l q).
Proof. intros ts ts' Hp. split; by apply core_ok_perm_1. Qed.

Lemma total_notify (f : thread T -> Z) ts : (forall t, f (notify t) = f t) -> total f (notify <$> ts) = total f ts.
Proof. intros Hf. induction ts as [| t ts IH]; [done |]. cbn. rewrite Hf. f_equal. exact IH. Qed.

Lemma Forall_notify (P : thread T -> Prop) ts : (forall t, P (notify t) <-> P t) -> Forall P (notify <$> ts) <-> Forall P ts.
Proof. intros HP. rewrite Forall_fmap, !Forall_forall. unfold compose. by setoid_rewrite HP. Qed.

Lemma Exists_notify (P : thread T -> Prop) ts : (forall t, P (notify t) <-> P t) -> Exists P (notify <$> ts) <-> Exists P ts.
Proof. intros HP. rewrite Exists_fmap, !Exists_exists. unfold compose. by setoid_rewrite HP. Qed.

(** A notification changes none of the accounts. *)
Lemma core_ok_notify l q ts : core_ok l q (notify <$> ts) <-> core_ok l q ts.
Proof.
  split; intros [H1 ? H2 H3 H4 ? H5 H6 H7];
    rewrite ?total_notify in H1, H2, H3 by (by intros []); rewrite ?Forall_notify in H4, H5 by (by intros []);
    (split; rewrite ?total_notify, ?Forall_notify by (by intros []); try done).
  - rewrite Exists_notify in H6 by (by intros []). done.
  - intros c Hc Hf. specialize (H7 c Hc Hf). by rewrite Exists_notify in H7 by (by intros []).
  - rewrite Exists_notify by (by intros []). done.
  - intros c Hc Hf. rewrite Exists_notify by (by intros []). auto.
Qed.

Lemma core_ok_similar l q ts ts' : notify <$> ts = notify <$> ts' -> core_ok l q ts -> core_ok l q ts'.
Proof. intros E H. apply core_ok_notify. rewrite <- E. by apply core_ok_notify. Qed.

(** The queue without the thread that has the lock. *)
Definition leave q : CCheckQueue T := MkCheckQueue (queue q) (nIdle q) (nTotal q - 1) (fAllOk q) (nTodo q) (nBatchSize q).

Lemma leave_enter q : leave (MkCheckQueue (queue q) (nIdle q) (nTotal q + 1) (fAllOk q) (nTodo q) (nBatchSize q)) = q.
Proof. destruct q. unfold leave. cbn. f_equal. lia. Qed.

Lemma total_nonneg (f : thread T -> Z) ts : Forall (fun t => 0 <= f t) ts -> 0 <= total f ts.
Proof. induction 1; cbn; [lia |]. unfold total in *. lia. Qed.

Lemma total_le (f : thread T -> Z) ts : (forall t, f t <= 1) -> total f ts <= Zlen ts.
Proof. intros Hf. unfold Zlen. induction ts as [| t ts IH]; cbn; [lia |]. specialize (Hf t). unfold total in *. lia. Qed.

Lemma unreported_nonneg ts : Forall batch_ok ts -> Forall (fun t => 0 <= unreported t) ts.
Proof. apply Forall_impl. intros []; cbn; lia. Qed.

(** Nobody has a batch when nothing is unreported. *)
Lemma no_batch ts : Forall batch_ok ts -> total unreported ts = 0 -> Forall (fun t => remaining t = [] /\ failing t = false) ts.
Proof.
  induction 1 as [| t ts Ht Hts IH]; [done |]. cbn. intros E. pose proof (total_nonneg _ _ (unreported_nonneg ts Hts)) as Hn. unfold total in *.
  destruct t; cbn in *; (constructor; [| apply IH; lia]); try done. lia.
Qed.

Lemma execute_ok l q t t' ts : core_ok l q (t :: ts) -> execute check t = Some t' -> core_ok l q (t' :: ts).
Proof.
  intros [H1 ? H2 H3 H4 ? H5 H6 H7] E. destruct t as [| | | [| c todo] n ok]; try done. injection E as <-.
  apply Forall_cons_1 in H4 as [Hb ?]. apply Forall_cons_1 in H5 as [Hr ?]. cbn in Hb, Hr. apply Forall_cons_1 in Hr as [Hc Hr]. unfold Zlen in Hb. cbn in Hb. split; try done.
  - constructor; [| done]. cbn. unfold Zlen. lia.
  - by constructor.
  - intros [? | He]; [apply H6; by left |]. apply Exists_cons in He as [He | He]; [| apply H6; right; by constructor 2].
    destruct ok; [| apply H6; right; by constructor 1]. exists c. split; [done |]. cbn in He. by destruct (check c).
  - intros x Hx Hf. destruct (H7 x Hx Hf) as [? | [He | ?]]; [by left | | right; by right]. right. left.
    apply Exists_cons in He as [[He | He] | He]; [| | by constructor 2].
    + cbn in He. apply elem_of_cons in He as [-> | He]; [| constructor 1; by left]. constructor 1. right. cbn. destruct ok; [by rewrite Hf | done].
    + constructor 1. right. cbn in *. by destruct ok.
Qed.

Lemma woken_ok l q ts : core_ok l q (NOTIFIED :: ts) -> core_ok l (leave (loop_woken q)) ts.
Proof.
  intros [H1 ? H2 H3 H4 ? H5 H6 H7]. apply Forall_cons_1 in H4 as [_ ?]. apply Forall_cons_1 in H5 as [_ ?]. unfold total in *. cbn in *. split; cbn; unfold total; try done; try lia.
  - intros [? | ?]; apply H6; [by left | right; by constructor 2].
  - intros c Hc Hf. destruct (H7 c Hc Hf) as [? | [He | ?]]; [by left | | right; by right]. right. left. by apply Exists_cons in He as [[He | He] | He]; [apply elem_of_nil in He | |].
Qed.

Lemma cleanup_ok l q ts f n ok : core_ok l q (WORKING [] n ok :: ts) -> Zlen l < 2 ^ 32 ->
  exists q', loop_cleanup q f n ok = (q', (nTodo q' =? 0) && negb f) /\ core_ok l (leave q') ts /\ queue q' = queue q.
Proof.
  intros [H1 Hl H2 H3 H4 ? H5 H6 H7] Hsize. apply Forall_cons_1 in H4 as [Hb Hts]. apply Forall_cons_1 in H5 as [_ ?]. cbn in Hb.
  pose proof (total_nonneg _ _ (unreported_nonneg ts Hts)) as Hn. pose proof (Zlen_nonneg (queue q)). unfold total in *. cbn in *. unfold loop_cleanup.
  rewrite (proj2 (Z.eqb_neq n 0)) by lia.
  exists (MkCheckQueue (queue q) (nIdle q) (nTotal q) (fAllOk q && ok) (uint32 (nTodo q - n)) (nBatchSize q)). split; [reflexivity |]. split; [| done]. rewrite uint32_id by lia. split; cbn; unfold total; try done; try lia.
  - intros [He | He]; apply H6; [| right; by constructor 2]. apply andb_false_iff in He as [-> | ->]; [by left | right; by constructor 1].
  - intros c Hc Hf. destruct (H7 c Hc Hf) as [? | [He | He]]; [by left | | rewrite He; right; by right].
    apply Exists_cons in He as [[He | He] | He]; [by apply elem_of_nil in He | | right; by left]. cbn in He. right. right. destruct ok; [done |]. by rewrite andb_false_r.
Qed.

(** [Wait] returns whether all the checks succeed, and is ready for new ones. *)
Lemma return_ok l q ts : core_ok l q ts -> queue q = [] -> nTodo q = 0 -> fAllOk q = forallb check l /\
  core_ok [] (MkCheckQueue (queue q) (nIdle q) (nTotal q) true (nTodo q) (nBatchSize q)) ts.
Proof.
  intros [H1 ? H2 H3 H4 ? H5 H6 H7] Hq Ht. rewrite Hq, Ht in H1. change (Zlen []) with 0 in H1. assert (Hno := no_batch ts H4 ltac:(lia)). rewrite Forall_forall in Hno. split.
  - destruct (fAllOk q) eqn:E.
    + symmetry. apply forallb_forall. intros c Hc. apply list_elem_of_In in Hc. destruct (check c) eqn:Ec; [done |].
      destruct (H7 c Hc Ec) as [Hin | [He | ?]]; [rewrite Hq in Hin; by apply elem_of_nil in Hin | | done].
      apply Exists_exists in He as (t & Hin & He). destruct (Hno t Hin) as [Hr Hfl]. rewrite Hr, Hfl in He. destruct He as [He | ?]; [by apply elem_of_nil in He | done].
    + destruct H6 as (c & Hc & Ec); [by left |]. symmetry. apply not_true_is_false. intros Hall. apply list_elem_of_In in Hc. rewrite forallb_forall in Hall. specialize (Hall c Hc). congruence.
  - split; cbn; try done; try lia.
    + rewrite Hq, Ht. change (Zlen []) with 0. lia.
    + unfold Zlen. cbn. lia.
    + by rewrite Hq.
    + apply Forall_forall. intros t Hin. by rewrite (proj1 (Hno t Hin)).
    + intros [? | He]; [done |]. apply Exists_exists in He as (t & Hin & He). destruct (Hno t Hin) as [_ Hfl]. congruence.
    + intros c Hc. by apply elem_of_nil in Hc.
Qed.

(** A batch is neither empty nor larger than the queue. *)
Lemma batch_size_ok l q ts : core_ok l q ts -> queue q <> [] -> Zlen l < 2 ^ 32 -> Zlen ts < 2 ^ 30 + 1 ->
  0 < uint32 (nTotal q + 1 + nIdle q + 1) /\ 1 <= batch_size (MkCheckQueue (queue q) (nIdle q) (nTotal q + 1) (fAllOk q) (nTodo q) (nBatchSize q)) <= Zlen (queue q).
Proof.
  intros [H1 Hl H2 H3 H4 ? H5 H6 H7] Hq Hsize Hts. pose proof (total_nonneg _ _ (unreported_nonneg ts H4)) as Hn.
  assert (0 <= nIdle q <= Zlen ts) by (rewrite H2; split; [apply total_nonneg, Forall_true; by intros [] | apply total_le; by intros []]).
  assert (0 <= nTotal q <= Zlen ts) by (rewrite H3; split; [apply total_nonneg, Forall_true; by intros [] | apply total_le; by intros []]).
  assert (1 <= Zlen (queue q)) by (unfold Zlen; destruct (queue q); [done | cbn; lia]). unfold batch_size. cbn. rewrite !uint32_id by lia. split; [lia |].
  split; [lia |]. apply Z.max_lub; [done |]. etransitivity; [apply Z.le_min_r |]. apply Z.div_le_upper_bound; nia.
Qed.

Lemma wait_ok l q ts : core_ok l (leave q) ts -> core_ok l (MkCheckQueue (queue q) (nIdle q + 1) (nTotal q) (fAllOk q) (nTodo q) (nBatchSize q)) (BLOCKED :: ts).
Proof.
  intros [H1 ? H2 H3 H4 ? H5 H6 H7]. cbn in *. unfold total in *. split; cbn; unfold total; try done; try lia; try (by constructor).
  - intros [? | He]; apply H6; [by left |]. right. by apply Exists_cons in He as [|].
  - intros c Hc Hf. destruct (H7 c Hc Hf) as [? | [He | ?]]; [by left | | right; by right]. right. left. by constructor 2.
Qed.

Lemma work_ok l q ts k : core_ok l (leave q) ts -> (k < length (queue q))%nat ->
  core_ok l (MkCheckQueue (take k (queue q)) (nIdle q) (nTotal q) (fAllOk q) (nTodo q) (nBatchSize q))
    (WORKING (reverse (drop k (queue q))) (Zlen (reverse (drop k (queue q)))) (fAllOk q) :: ts).
Proof.
  intros [H1 ? H2 H3 H4 Hq H5 H6 H7] Hk. cbn in *. unfold total in *.
  assert (Hin : forall c, c ∈ queue q <-> c ∈ take k (queue q) \/ c ∈ reverse (drop k (queue q))).
  { intros c. by rewrite elem_of_reverse, <- elem_of_app, take_drop. }
  rewrite list.Forall_forall in Hq. split; cbn; unfold total; try done; try lia.
  - unfold Zlen in *. rewrite length_reverse, length_drop, length_take. lia.
  - constructor; [| done]. cbn. unfold Zlen. rewrite length_reverse, length_drop. lia.
  - apply list.Forall_forall. intros c Hc. apply Hq, Hin. by left.
  - constructor; [| done]. apply list.Forall_forall. intros c Hc. apply Hq, Hin. by right.
  - intros [? | He]; apply H6; [by left |]. apply Exists_cons in He as [He | He]; [left; cbn in He; by destruct (fAllOk q) | by right].
  - intros c Hc Hf. destruct (H7 c Hc Hf) as [Hc' | [He | ?]]; [| right; left; by constructor 2 | right; by right].
    apply Hin in Hc' as [? | ?]; [by left |]. right. left. constructor 1. by left.
Qed.

(** What a critical section leaves behind. *)
Definition section_ok (fMaster : bool) l q (e : section_end T) (q' : CCheckQueue T) ts : Prop :=
  match e with
  | RETURN b => fMaster = true /\ b = forallb check l /\ core_ok [] q' ts
  | WAIT => core_ok l q' (BLOCKED :: ts) /\ queue q' = [] /\ queue q = [] /\ (fMaster = true -> nTodo q' <> 0)
  | WORK v ok => core_ok l q' (WORKING v (Zlen v) ok :: ts) /\ 1 <= Zlen v /\ Zlen (queue q') + Zlen v = Zlen (queue q)
  end /\ nTodo q' = nTodo q.

Lemma take_ok l q ts f e q' : core_ok l (leave q) ts -> Zlen l < 2 ^ 32 -> Zlen ts < 2 ^ 30 + 1 -> loop_take q f = (e, q') -> section_ok f l q e q' ts.
Proof.
  intros Hok Hl Hts. unfold loop_take. case_bool_decide as Hq; [destruct (f && (nTodo q =? 0)) eqn:Ef |]; intros [= <- <-]; (split; [| done]).
  - apply andb_true_iff in Ef as [-> Ez]. apply Z.eqb_eq in Ez. destruct (return_ok l (leave q) ts Hok Hq Ez) as [Hb Hc]. done.
  - split; [by apply wait_ok |]. cbn. split; [done |]. split; [done |]. intros ->. cbn in Ef. by apply Z.eqb_neq.
  - destruct (batch_size_ok l (leave q) ts Hok Hq Hl Hts) as [_ Hb]. cbn in Hb. replace (nTotal q - 1 + 1) with (nTotal q) in Hb by lia.
    change (MkCheckQueue _ _ _ _ _ _) with (MkCheckQueue (queue q) (nIdle q) (nTotal q) (fAllOk q) (nTodo q) (nBatchSize q)) in Hb.
    replace (MkCheckQueue (queue q) (nIdle q) (nTotal q) (fAllOk q) (nTodo q) (nBatchSize q)) with q in Hb by (by destruct q).
    unfold Zlen in *. split; [apply work_ok; [done | lia] |]. rewrite length_reverse, length_drop. cbn. rewrite length_take. lia.
Qed.

Lemma start_ok l q ts : core_ok l q (START :: ts) <-> core_ok l q ts.
Proof.
  split; intros [H1 ? H2 H3 H4 ? H5 H6 H7].
  - apply Forall_cons_1 in H4 as [_ ?]. apply Forall_cons_1 in H5 as [_ ?]. split; try done.
    + intros [? | He]; apply H6; [by left | right; by constructor 2].
    + intros x Hx Hf. destruct (H7 x Hx Hf) as [? | [He | ?]]; [by left | | right; by right]. right. left. by apply Exists_cons in He as [[He | He] | He]; [apply elem_of_nil in He | |].
  - split; try done; try (by constructor).
    + intros [? | He]; apply H6; [by left |]. right. by apply Exists_cons in He as [|].
    + intros c Hc Hf. destruct (H7 c Hc Hf) as [? | [? | ?]]; auto.
Qed.

Lemma critical_ok l q t ts f e q' n : core_ok l q (t :: ts) -> Zlen l < 2 ^ 32 -> Zlen ts < 2 ^ 30 + 1 -> critical f q t = Some (e, q', n) ->
  exists q1, section_ok f l q1 e q' ts /\ queue q1 = queue q /\ (n = true -> nTodo q' = 0) /\ (nTodo q' = 0 -> nTodo q = 0 \/ n = negb f).
Proof.
  intros Hok Hl Hts. destruct t as [| | | [| c todo] k ok]; cbn [critical]; try done.
  - cbn [loop_cleanup Z.eqb]. destruct (loop_take _ f) as [e1 q2] eqn:Et. intros [= <- <- <-].
    pose proof (take_ok l _ ts f e1 q2 (eq_ind_r (fun q => core_ok l q ts) (proj1 (start_ok l q ts) Hok) (leave_enter q)) Hl Hts Et) as Hs.
    eexists. split; [exact Hs |]. split; [done |]. split; [done |]. intros Hz. left. rewrite (proj2 Hs) in Hz. done.
  - destruct (loop_take _ f) as [e1 q2] eqn:Et. intros [= <- <- <-]. pose proof (take_ok l _ ts f e1 q2 (woken_ok l q ts Hok) Hl Hts Et) as Hs.
    eexists. split; [exact Hs |]. split; [done |]. split; [done |]. intros Hz. left. rewrite (proj2 Hs) in Hz. done.
  - destruct (cleanup_ok l q ts f k ok Hok Hl) as (q1 & Ec & Hq1 & Eq). rewrite Ec. destruct (loop_take q1 f) as [e1 q2] eqn:Et. intros [= <- <- <-].
    pose proof (take_ok l q1 ts f e1 q2 Hq1 Hl Hts Et) as Hs. exists q1. split; [done |]. split; [done |]. rewrite (proj2 Hs). split.
    + intros [Hz _]%andb_true_iff. by apply Z.eqb_eq.
    + intros ->. by right.
Qed.

(** The other threads, when one is looked at. *)
Lemma worker_focus q m ws i t : ws !! i = Some t -> exists ts, threads (Pool q m ws) ≡ₚ t :: ts /\
  (forall t' q', threads (Pool q' m (<[i := t']> ws)) ≡ₚ t' :: ts) /\ Zlen ts < Zlen ws + 1.
Proof.
  intros Hi. pose proof (lookup_lt_Some _ _ _ Hi) as Hlt. pose proof (take_drop_middle ws i t Hi) as Ews.
  exists (option_list m ++ take i ws ++ drop (S i) ws). split; [| split].
  - rewrite <- Ews at 1. unfold threads. cbn. destruct m; cbn; rewrite <- Permutation_middle; [constructor | reflexivity].
  - intros t' q'. rewrite insert_take_drop by done. unfold threads. cbn. destruct m; cbn; rewrite <- Permutation_middle; [constructor | reflexivity].
  - unfold Zlen. rewrite !length_app, length_take, length_drop. destruct m; cbn; lia.
Qed.

Lemma threads_notify b q m ws : notify <$> threads (Pool q m ws) = notify <$> threads (Pool q (if b : bool then notify <$> m else m) ws).
Proof. destruct b, m as [[] |]; done. Qed.

(** ** Progress *)

Definition weight t : Z := match t with BLOCKED => 0 | START | NOTIFIED => 1 | WORKING todo _ _ => 2 + Zlen todo end.

(** A bound on the number of steps until [Wait] returns. *)
Definition effort (p : pool T) : Z := 5 * Zlen (queue (shared p)) + total weight (threads p).

Lemma weight_nonneg t : 0 <= weight t.
Proof. destruct t as [| | | todo ? ?]; cbn; try lia. pose proof (Zlen_nonneg todo). lia. Qed.

Lemma total_cons (f : thread T -> Z) t ts : total f (t :: ts) = f t + total f ts.
Proof. done. Qed.

Lemma total_notify_master b q m ws : total weight (threads (Pool q (if b : bool then notify <$> m else m) ws)) <= total weight (threads (Pool q m ws)) + (if b then 1 else 0).
Proof. destruct b, m as [[] |]; unfold threads; cbn [master workers fmap option_fmap option_map notify]; rewrite ?total_cons; cbn [weight]; lia. Qed.

Lemma critical_weight f q t e q' n t' l ts q1 : section_ok f l q1 e q' ts -> queue q1 = queue q -> critical f q t = Some (e, q', n) -> after e = Some t' ->
  5 * Zlen (queue q') + weight t' + (if n then 1 else 0) < 5 * Zlen (queue q) + weight t.
Proof.
  intros Hs Hq Hc Ha. assert (Ht : 1 <= weight t /\ (n = true -> 2 <= weight t)).
  { destruct t as [| | | [| c todo] k ok]; cbn [critical loop_cleanup Z.eqb] in Hc; try discriminate Hc.
    - injection Hc as _ <-. done.
    - injection Hc as _ <-. done.
    - cbn. change (Zlen []) with 0. lia. }
  assert (n = true -> 2 <= weight t) by tauto. destruct e; cbn in Ha; [done | injection Ha as <- ..]; destruct Hs as [Hs _].
  - destruct Hs as (_ & E1 & E2 & _). rewrite E1, <- Hq, E2. cbn. destruct n; [pose proof (proj2 Ht eq_refl) |]; lia.
  - destruct Hs as (_ & E1 & E2). rewrite <- Hq. cbn. destruct n; lia.
Qed.

Lemma step_worker_ok l q m ws i t e q' n t' : pool_ok l (Pool q m ws) -> ws !! i = Some t -> critical false q t = Some (e, q', n) -> after e = Some t' ->
  let p' := Pool q' (if n then notify <$> m else m) (<[i := t']> ws) in pool_ok l p' /\ effort p' < effort (Pool q m ws).
Proof.
  intros [Hc Hw Hl Ht] Hi Ec Ea p'. cbn in Hw, Ht, Hc. destruct (worker_focus q m ws i t Hi) as (ts & P1 & P2 & Hts). rewrite P1 in Hc.
  destruct (critical_ok l q t ts false e q' n Hc Hl ltac:(lia) Ec) as (q1 & Hs & Hq & Hn & Hz). pose proof (critical_weight _ _ _ _ _ _ _ _ _ _ Hs Hq Ec Ea) as Hwt. split; [split; cbn |].
  - apply (core_ok_similar _ _ _ _ (threads_notify n q' m (<[i := t']> ws))). rewrite P2. destruct e; cbn in Ea; [done | injection Ea as <-; apply Hs ..].
  - intros Hm. destruct n; [by destruct m as [[] |] |]. destruct (Hw Hm) as [Hq0 Ht0]. rewrite <- Hq in Hq0. split; [| intros E0; by destruct (Hz E0)].
    destruct e; cbn in Ea; [done | apply Hs |]. destruct Hs as [(_ & H1 & H2) _]. rewrite Hq0 in H2. pose proof (Zlen_nonneg (queue q')). change (Zlen []) with 0 in H2. lia.
  - done.
  - unfold Zlen in *. by rewrite length_insert.
  - unfold effort, p'. cbn [shared]. pose proof (total_notify_master n q' m (<[i := t']> ws)) as Hle. rewrite (total_perm weight _ _ (P2 t' q')) in Hle. rewrite (total_perm weight _ _ P1), !total_cons in *. lia.
Qed.

Lemma step_master_ok l q ws t e q' n : pool_ok l (Pool q (Some t) ws) -> critical true q t = Some (e, q', n) ->
  let p' := Pool q' (after e) ws in pool_ok (pending l (returned e)) p' /\ (forall b, returned e = Returned b -> b = forallb check l) /\
  (returned e = Silent -> effort p' < effort (Pool q (Some t) ws) /\ after e <> None).
Proof.
  intros [Hc Hw Hl Ht] Ec p'. cbn in Hw, Ht, Hc. unfold threads in Hc. cbn in Hc. destruct (critical_ok l q t ws true e q' n Hc Hl ltac:(lia) Ec) as (q1 & Hs & Hq & Hn & Hz).
  destruct e as [b | | v ok]; cbn.
  - destruct Hs as [(_ & -> & Hs) _]. split; [split; try done; cbn; lia |]. split; [by intros ? [= <-] | done].
  - pose proof (critical_weight _ _ _ _ _ _ _ _ _ _ Hs Hq Ec eq_refl) as Hwt. destruct Hs as [(Hs & H1 & H2 & H3) _]. split; [split; try done; by split; [| apply H3] |]. split; [done |]. intros _. split; [| done].
    unfold effort, p', threads. cbn [shared master workers after]. rewrite !total_cons. destruct n; lia.
  - pose proof (critical_weight _ _ _ _ _ _ _ _ _ _ Hs Hq Ec eq_refl) as Hwt. destruct Hs as [(Hs & H1 & H2) _]. split; [split; try done |]. split; [done |]. intros _. split; [| done].
    unfold effort, p', threads. cbn [shared master workers after]. rewrite !total_cons. destruct n; lia.
Qed.

Lemma execute_weight t t' : execute check t = Some t' -> weight t' < weight t /\ t' <> BLOCKED.
Proof. destruct t as [| | | [| c todo] k ok]; try done. intros [= <-]. cbn. unfold Zlen. cbn. split; [lia | done]. Qed.

Lemma step_ok l p e p' : pool_ok l p -> step check p e p' ->
  pool_ok (pending l e) p' /\ (forall b, e = Returned b -> b = forallb check l) /\
  (e = Silent -> effort p' < effort p /\ (master p <> None -> master p' <> None)) /\ (e = Silent \/ exists b, e = Returned b).
Proof.
  intros Hok Hstep. destruct Hstep as [q m ws i t e q' n t' Hi Ec Ea | q m ws i t t' Hi Ee | q ws t e q' n Ec | q ws t t' Ee].
  - destruct (step_worker_ok l q m ws i t e q' n t' Hok Hi Ec Ea) as [H1 H2]. split; [done |]. split; [done |]. split; [| by left]. intros _. split; [done |]. by destruct n, m.
  - destruct (execute_weight t t' Ee) as [Hw _]. destruct (worker_focus q m ws i t Hi) as (ts & P1 & P2 & Hts). destruct Hok as [Hc Hw' Hl Ht]. cbn in Hc, Hw', Ht.
    split; [split; try done |]; [| | split; [done |]; split; [intros _; split; [| done] | by left]].
    + cbn. rewrite P2. rewrite P1 in Hc. by apply (execute_ok _ _ t).
    + cbn. unfold Zlen in *. by rewrite length_insert.
    + unfold effort. rewrite (total_perm weight _ _ (P2 t' q)), (total_perm weight _ _ P1), !total_cons. cbn [shared]. lia.
  - destruct (step_master_ok l q ws t e q' n Hok Ec) as (H1 & H2 & H3). split; [done |]. split; [done |]. split; [| destruct e; [right; by eexists | by left ..]].
    intros E. destruct (H3 E) as [? ?]. done.
  - destruct (execute_weight t t' Ee) as [Hw Hb]. destruct Hok as [Hc Hw' Hl Ht]. cbn in Hc, Hw', Ht. unfold threads in Hc. cbn in Hc.
    split; [split; try done |]; [| | split; [done |]; split; [intros _; split; [| done] | by left]].
    + by apply (execute_ok _ _ t).
    + by intros [= ->].
    + unfold effort, threads. cbn [shared master workers]. rewrite !total_cons. lia.
Qed.

Lemma notified_similar n ws ws' : notified n ws ws' -> notify <$> ws = notify <$> ws' /\ length ws' = length ws.
Proof.
  intros []; try done.
  - split; [| by rewrite length_insert]. rewrite list_fmap_insert. symmetry. apply list_insert_id. by rewrite list_lookup_fmap, H.
  - split; [| by rewrite length_fmap]. rewrite <- list_fmap_compose. apply list_fmap_ext. intros ? [] ?; done.
Qed.

Lemma add_ok l q ts l' : core_ok l q ts -> Zlen (l ++ l') < 2 ^ 32 -> core_ok (l ++ l') (Add q l') ts.
Proof.
  intros [H1 ? H2 H3 H4 Hq H5 H6 H7] Hl. pose proof (total_nonneg _ _ (unreported_nonneg ts H4)). pose proof (Zlen_nonneg (queue q)). rewrite Zlen_app in Hl. pose proof (Zlen_nonneg l').
  split; cbn; rewrite ?uint32_id by lia; rewrite ?Zlen_app; try done; try lia.
  - apply Forall_app. split; [revert Hq; apply Forall_impl | apply list.Forall_forall]; intros c; rewrite elem_of_app; auto.
  - revert H5. apply Forall_impl. intros t. apply Forall_impl. intros c. rewrite elem_of_app. auto.
  - intros He. destruct (H6 He) as (c & Hc & Hf). exists c. rewrite elem_of_app. auto.
  - intros c Hc Hf. rewrite elem_of_app in *. destruct Hc as [Hc | Hc]; [destruct (H7 c Hc Hf); auto | auto].
Qed.

Lemma move_ok l p e p' : pool_ok l p -> move check p e p' -> Zlen (pending l e) < 2 ^ 32 -> Zlen (workers p') < 2 ^ 30 -> pool_ok (pending l e) p'.
Proof.
  intros Hok Hmove Hl Ht. destruct Hmove as [p e p' Hs | q ws ws' l' Hn | q ws | q m ws | q m ws i Hi | q ws]; [by destruct (step_ok l p e p' Hok Hs) | ..]; destruct Hok as [Hc Hw _ _]; cbn in *; unfold threads in *; cbn in *; split; try done.
  - apply add_ok; [| done]. by apply (core_ok_similar _ _ ws), Hc; apply (notified_similar _ _ _ Hn).
  - by apply start_ok.
  - unfold threads. cbn [shared master workers]. destruct m as [t |]; rewrite (Permutation_app_comm ws [START]); cbn [app]; [rewrite (Permutation_swap START t ws) |]; by apply start_ok.
  - unfold threads. cbn [shared master workers]. destruct (notified_similar 1 ws _ (notify_one ws i Hi)) as [E _]. eapply core_ok_similar, Hc. destruct m; cbn; [f_equal |]; exact E.
  - by apply (core_ok_similar _ _ (BLOCKED :: ws)).
Qed.

Lemma reachable_ok n l p : reachable check n l p -> pool_ok l p.
Proof.
  induction 1 as [| l p e p' Hr IH Hm Hl Ht]; [| by apply (move_ok l p)]. split; cbn; [split | ..]; cbn; unfold Zlen; cbn; try done; try lia.
  - intros [? | He]; [done | by apply Exists_nil in He].
  - intros c Hc. by apply elem_of_nil in Hc.
Qed.

(** A thread that has a batch can go on. *)
Lemma working_steps q m ws i todo n ok : ws !! i = Some (WORKING todo n ok) -> exists p', step check (Pool q m ws) Silent p'.
Proof.
  intros Hi. destruct todo as [| c todo]; [| eexists; by eapply step_worker_check].
  destruct (loop_cleanup q false n ok) as [q1 b] eqn:Ec. destruct (loop_take q1 false) as [e q2] eqn:Et.
  assert (Ha : exists t, after e = Some t) by (unfold loop_take in Et; case_bool_decide; injection Et as <- _; by eexists). destruct Ha as [t Ha].
  eexists. eapply (step_worker _ _ _ _ _ _ e q2 b t Hi); [| done]. cbn. rewrite Ec. by rewrite Et.
Qed.

(** As long as the master is in [Wait], some thread can go on. *)
Lemma wait_steps l p : pool_ok l p -> master p <> None -> exists e p', step check p e p'.
Proof.
  intros [Hc Hw _ _] Hm. destruct p as [q [t |] ws]; [| done]. cbn in *. unfold threads in Hc. cbn in Hc. destruct (critical true q t) as [[[e q'] n] |] eqn:Ec; [exists (returned e); eexists; by eapply step_master |].
  destruct (execute check t) as [t' |] eqn:Ee; [eexists _, _; by eapply step_master_check |].
  assert (t = BLOCKED) as -> by (destruct t as [| | | [| c todo] k ok]; try done; cbn in Ec; by destruct (loop_cleanup _ _ _ _)).
  destruct (Hw eq_refl) as [Hq Hz]. destruct Hc as [H1 _ _ _ Hb _ _ _ _]. rewrite Hq in H1. rewrite total_cons in H1. change (Zlen []) with 0 in H1. cbn [unreported] in H1.
  assert (Hex : exists i todo n ok, ws !! i = Some (WORKING todo n ok)).
  { assert (Hne : total unreported ws <> 0) by lia. clear -Hne. induction ws as [| t ws IH]; [done |]. rewrite total_cons in Hne.
    destruct t as [| | | todo n ok]; [| | | by exists 0%nat, todo, n, ok]; (destruct IH as (i & ? & ? & ? & ?); [cbn [unreported] in Hne; lia | by eexists (S i), _, _, _]). }
  destruct Hex as (i & todo & n & ok & Hi). eexists. by eapply working_steps.
Qed.
End Invariant.

(** ** Theorems *)

(** The steps of the threads while [Wait] does not return. *)
Inductive runs {T : Type} (check : T -> bool) : nat -> pool T -> pool T -> Prop :=
| runs_nil p : runs check 0 p p
| runs_step n p p' p'' : runs check n p p' -> step check p' Silent p'' -> runs check (S n) p p''.

(** C11. Whatever the interleaving of the threads, [Wait] returns exactly whether every check
    added since it last returned succeeds, although checks are skipped once one has failed
    and a batch is reported only after it has been executed. *)
Theorem Wait_correct {T : Type} (check : T -> bool) n l p p' b : reachable check n l p -> move check p (Returned b) p' -> b = forallb check l.
Proof.
  intros Hr Hm. inversion Hm as [p1 e1 p2 Hs | | | | |]. subst. destruct (step_ok check l p (Returned b) p' (reachable_ok check n l p Hr) Hs) as (_ & Hb & _). by apply Hb.
Qed.

(** C12. No wake-up is lost: while the master is in [Wait] some thread can always go on,
    without a spurious wake-up, and after at most [effort p] steps of the threads, in any
    order, the next one is the return of [Wait] with the right result. *)
Theorem Wait_returns {T : Type} (check : T -> bool) n l p : reachable check n l p -> master p <> None ->
  forall k p', runs check k p p' -> Z.of_nat k <= effort p /\ exists e p'', step check p' e p'' /\ (e = Silent \/ e = Returned (forallb check l)).
Proof.
  intros Hr%reachable_ok Hm k p' Hruns. assert (Hinv : pool_ok check l p' /\ master p' <> None /\ effort p' + Z.of_nat k <= effort p).
  { induction Hruns as [p | k p p' p'' Hruns IH Hs]; [split; [done | split; [done | lia]] |]. destruct (IH Hr Hm) as (Hok & Hm' & He).
    destruct (step_ok check l p' Silent p'' Hok Hs) as (Hok' & _ & Hdec & _). destruct (Hdec eq_refl) as [? ?]. split; [done |]. split; [auto | lia]. }
  destruct Hinv as (Hok & Hm' & He). split.
  - pose proof (Zlen_nonneg (queue (shared p'))). assert (0 <= total weight (threads p')) by (apply total_nonneg, Forall_true, weight_nonneg). unfold effort at 1 in He. lia.
  - destruct (wait_steps check l p' Hok Hm') as (e & p'' & Hs). exists e, p''. split; [done |]. destruct (step_ok check l p' e p'' Hok Hs) as (_ & Hb & _ & [-> | [b ->]]); [by left |]. right. by rewrite (Hb b eq_refl).
Qed.

(** A pool with one worker that waits for the master. *)
Lemma sample_pool_reachable : reachable Z.even 128 [2; 3] (Pool (MkCheckQueue [2; 3] 1 1 true 2 128) (Some START) [NOTIFIED]).
Proof.
  assert (R1 : reachable Z.even 128 [] (Pool (CCheckQueue_new 128) None [START])) by (by apply (reach_move _ _ _ _ Silent _ (reach_new _ _) (move_thread _ _ _ _))).
  assert (R2 : reachable Z.even 128 [] (Pool (MkCheckQueue [] 1 1 true 0 128) None [BLOCKED])).
  { refine (reach_move _ _ _ _ Silent _ R1 (move_step _ _ _ _ _) _ _); [| done ..]. exact (step_worker Z.even (CCheckQueue_new 128) None [START] 0%nat START WAIT (MkCheckQueue [] 1 1 true 0 128) false BLOCKED eq_refl eq_refl eq_refl). }
  assert (R3 : reachable Z.even 128 [2; 3] (Pool (MkCheckQueue [2; 3] 1 1 true 2 128) None [NOTIFIED])).
  { refine (reach_move _ _ _ _ (Added [2; 3]) _ R2 (move_add _ _ _ [NOTIFIED] _ _) _ _); [| done ..]. apply (notify_all 2 [BLOCKED]). lia. }
  by refine (reach_move _ _ _ _ Silent _ R3 (move_wait _ _ _) _ _).
Qed.

Lemma Wait_returns_witness : exists e p'', step Z.even (Pool (MkCheckQueue [2; 3] 1 1 true 2 128) (Some START) [NOTIFIED]) e p'' /\ (e = Silent \/ e = Returned false).
Proof.
  destruct (Wait_returns Z.even 128 [2; 3] _ sample_pool_reachable ltac:(done) 0 _ (runs_nil _ _)) as [_ (e & p'' & Hs & He)]. exists e, p''. split; [exact Hs | exact He].
Defined.

(** The master executes both checks alone. *)
Lemma sample_pool_executed : reachable Z.even 128 [2; 3] (Pool (MkCheckQueue [] 1 2 false 1 128) (Some (WORKING [] 1 false)) [NOTIFIED]).
Proof.
  assert (R1 : reachable Z.even 128 [2; 3] (Pool (MkCheckQueue [2] 1 2 true 2 128) (Some (WORKING [3] 1 true)) [NOTIFIED])).
  { refine (reach_move _ _ _ _ Silent _ sample_pool_reachable (move_step _ _ _ _ _) _ _); [| done ..]. by apply (step_master _ _ _ START (WORK [3] true) _ false). }
  assert (R2 : reachable Z.even 128 [2; 3] (Pool (MkCheckQueue [2] 1 2 true 2 128) (Some (WORKING [] 1 false)) [NOTIFIED])).
  { refine (reach_move _ _ _ _ Silent _ R1 (move_step _ _ _ _ _) _ _); [| done ..]. by apply step_master_check. }
  assert (R3 : reachable Z.even 128 [2; 3] (Pool (MkCheckQueue [] 1 2 false 1 128) (Some (WORKING [2] 1 false)) [NOTIFIED])).
  { refine (reach_move _ _ _ _ Silent _ R2 (move_step _ _ _ _ _) _ _); [| done ..]. by apply (step_master _ _ _ (WORKING [] 1 false) (WORK [2] false) _ false). }
  refine (reach_move _ _ _ _ Silent _ R3 (move_step _ _ _ _ _) _ _); [| done ..]. by apply step_master_check.
Qed.

Lemma Wait_correct_witness : exists p', move Z.even (Pool (MkCheckQueue [] 1 2 false 1 128) (Some (WORKING [] 1 false)) [NOTIFIED]) (Returned false) p' /\ false = forallb Z.even [2; 3].
Proof.
  assert (Hm : move Z.even (Pool (MkCheckQueue [] 1 2 false 1 128) (Some (WORKING [] 1 false)) [NOTIFIED]) (Returned false) (Pool (MkCheckQueue [] 1 1 true 0 128) None [NOTIFIED])).
  { apply move_step. exact (step_master Z.even (MkCheckQueue [] 1 2 false 1 128) [NOTIFIED] (WORKING [] 1 false) (RETURN false) (MkCheckQueue [] 1 1 true 0 128) false eq_refl). }
  eexists. split; [exact Hm |]. exact (Wait_correct Z.even 128 [2; 3] _ _ false sample_pool_executed Hm).
Defined.
