(* ===== verification/NetAddr.v ===== *)
(** * Network addresses

    The classification of addresses in [src/netaddress.cpp]: the reserved ranges, the
    network and the group of an address, and the subnets of the list of banned nodes. *)

From S2P Require Import Prelude Common Serialize.

Open Scope Z_scope.

(** [ip] has 16 bytes in network order. [scopeId] plays no part in comparisons. *)
Record CNetAddr := MkNetAddr { ip : list Z; scopeId : Z }.

Definition pchIPv4 : list Z := [0; 0; 0; 0; 0; 0; 0; 0; 0; 0; 0xff; 0xff].

Definition pchOnionCat : list Z := [0xFD; 0x87; 0xD8; 0x7E; 0xEB; 0x43].

Definition g_internal_prefix : list Z := [0xFD; 0x6B; 0x88; 0xC0; 0x87; 0x24].

(** [memcmp(ip, l, sizeof(l)) == 0] *)
Definition ip_starts (a : CNetAddr) (l : list Z) : bool := bool_decide (take (length l) (ip a) = l).

Definition GetByte (a : CNetAddr) (n : Z) : Z := byte_at (ip a) (15 - n).

(** ** Ranges *)

Definition IsIPv4 (a : CNetAddr) : bool := ip_starts a pchIPv4.

Definition IsTor (a : CNetAddr) : bool := ip_starts a pchOnionCat.

Definition IsInternal (a : CNetAddr) : bool := ip_starts a g_internal_prefix.

Definition IsIPv6 (a : CNetAddr) : bool := negb (IsIPv4 a) && negb (IsTor a) && negb (IsInternal a).

Definition IsRFC1918 (a : CNetAddr) : bool :=
  IsIPv4 a && ((GetByte a 3 =? 10) || ((GetByte a 3 =? 192) && (GetByte a 2 =? 168))
               || ((GetByte a 3 =? 172) && ((GetByte a 2 >=? 16) && (GetByte a 2 <=? 31)))).

Definition IsRFC2544 (a : CNetAddr) : bool := IsIPv4 a && (GetByte a 3 =? 198) && ((GetByte a 2 =? 18) || (GetByte a 2 =? 19)).

Definition IsRFC3927 (a : CNetAddr) : bool := IsIPv4 a && ((GetByte a 3 =? 169) && (GetByte a 2 =? 254)).

Definition IsRFC6598 (a : CNetAddr) : bool := IsIPv4 a && (GetByte a 3 =? 100) && (GetByte a 2 >=? 64) && (GetByte a 2 <=? 127).

Definition IsRFC5737 (a : CNetAddr) : bool :=
  IsIPv4 a && (((GetByte a 3 =? 192) && (GetByte a 2 =? 0) && (GetByte a 1 =? 2))
               || ((GetByte a 3 =? 198) && (GetByte a 2 =? 51) && (GetByte a 1 =? 100))
               || ((GetByte a 3 =? 203) && (GetByte a 2 =? 0) && (GetByte a 1 =? 113))).

Definition IsRFC3849 (a : CNetAddr) : bool := (GetByte a 15 =? 0x20) && (GetByte a 14 =? 0x01) && (GetByte a 13 =? 0x0D) && (GetByte a 12 =? 0xB8).

Definition IsRFC3964 (a : CNetAddr) : bool := (GetByte a 15 =? 0x20) && (GetByte a 14 =? 0x02).

Definition IsRFC6052 (a : CNetAddr) : bool := ip_starts a [0; 0x64; 0xFF; 0x9B; 0; 0; 0; 0; 0; 0; 0; 0].

Definition IsRFC4380 (a : CNetAddr) : bool := (GetByte a 15 =? 0x20) && (GetByte a 14 =? 0x01) && (GetByte a 13 =? 0) && (GetByte a 12 =? 0).

Definition IsRFC4862 (a : CNetAddr) : bool := ip_starts a [0xFE; 0x80; 0; 0; 0; 0; 0; 0].

Definition IsRFC4193 (a : CNetAddr) : bool := Z.land (GetByte a 15) 0xFE =? 0xFC.

Definition IsRFC6145 (a : CNetAddr) : bool := ip_starts a [0; 0; 0; 0; 0; 0; 0; 0; 0xFF; 0xFF; 0; 0].

Definition IsRFC4843 (a : CNetAddr) : bool :=
  (GetByte a 15 =? 0x20) && (GetByte a 14 =? 0x01) && (GetByte a 13 =? 0x00) && (Z.land (GetByte a 12) 0xF0 =? 0x10).

Definition IsLocal (a : CNetAddr) : bool :=
  if IsIPv4 a && ((GetByte a 3 =? 127) || (GetByte a 3 =? 0)) then true
  else ip_starts a [0; 0; 0; 0; 0; 0; 0; 0; 0; 0; 0; 0; 0; 0; 0; 1].

(** The last four bytes are those of [INADDR_NONE] or of 0. *)
Definition IsValid (a : CNetAddr) : bool :=
  if ip_starts a (drop 3 pchIPv4) then false
  else if ip_starts a (replicate 16 0) then false
  else if IsRFC3849 a then false
  else if IsInternal a then false
  else if IsIPv4 a && bool_decide (take 4 (drop 12 (ip a)) = replicate 4 255) then false
  else if IsIPv4 a && bool_decide (take 4 (drop 12 (ip a)) = replicate 4 0) then false
  else true.

Definition IsRoutable (a : CNetAddr) : bool :=
  IsValid a && negb (IsRFC1918 a || IsRFC2544 a || IsRFC3927 a || IsRFC4862 a || IsRFC6598 a || IsRFC5737 a
                     || (IsRFC4193 a && negb (IsTor a)) || IsRFC4843 a || IsLocal a || IsInternal a).

(** ** Networks and groups *)

Inductive Network := NET_UNROUTABLE | NET_IPV4 | NET_IPV6 | NET_TOR | NET_INTERNAL.

(** The value of the enumeration. *)
Definition Network_value (n : Network) : Z :=
  match n with NET_UNROUTABLE => 0 | NET_IPV4 => 1 | NET_IPV6 => 2 | NET_TOR => 3 | NET_INTERNAL => 4 end.

Definition GetNetwork (a : CNetAddr) : Network :=
  if IsInternal a then NET_INTERNAL
  else if negb (IsRoutable a) then NET_UNROUTABLE
  else if IsIPv4 a then NET_IPV4
  else if IsTor a then NET_TOR
  else NET_IPV6.

(** The bytes from [nStartByte] on, [nBits] of them, the rest of the last byte set. *)
Fixpoint group_bits (fuel : nat) (a : CNetAddr) (nStartByte nBits : Z) : list Z :=
  match fuel with
  | O => []
  | S fuel =>
    if nBits >=? 8 then GetByte a (15 - nStartByte) :: group_bits fuel a (nStartByte + 1) (nBits - 8)
    else if nBits >? 0 then [Z.lor (GetByte a (15 - nStartByte)) (Z.shiftl 1 (8 - nBits) - 1)]
    else []
  end.

(** The class 255 of local addresses is overwritten by the tests that follow: they are
    unroutable. *)
Definition GetGroup (a : CNetAddr) : list Z :=
  let '(nClass, nBits) := if IsLocal a then (255, 0) else (Network_value NET_IPV6, 16) in
  let push nClass nStartByte nBits := nClass :: group_bits 17 a nStartByte nBits in
  if IsInternal a then push (Network_value NET_INTERNAL) 6 ((16 - 6) * 8)
  else if negb (IsRoutable a) then push (Network_value NET_UNROUTABLE) 0 0
  else if IsIPv4 a || IsRFC6145 a || IsRFC6052 a then push (Network_value NET_IPV4) 12 nBits
  else if IsRFC3964 a then push (Network_value NET_IPV4) 2 nBits
  else if IsRFC4380 a then [Network_value NET_IPV4; Z.lxor (GetByte a 3) 0xFF; Z.lxor (GetByte a 2) 0xFF]
  else if IsTor a then push (Network_value NET_TOR) 6 4
  else if (GetByte a 15 =? 0x20) && (GetByte a 14 =? 0x01) && (GetByte a 13 =? 0x04) && (GetByte a 12 =? 0x70) then push nClass 0 36
  else push nClass 0 32.

(** ** Reachability *)

(** [GetExtNetwork]: one of the networks, [NET_UNKNOWN] or [NET_TEREDO]. *)
Inductive ExtNetwork := EXT (n : Network) | NET_UNKNOWN | NET_TEREDO.

Definition GetExtNetwork (a : option CNetAddr) : ExtNetwork :=
  match a with
  | None => NET_UNKNOWN
  | Some a => if IsRFC4380 a then NET_TEREDO else EXT (GetNetwork a)
  end.

Inductive Reachability :=
| REACH_UNREACHABLE | REACH_DEFAULT | REACH_TEREDO | REACH_IPV6_WEAK | REACH_IPV4 | REACH_IPV6_STRONG | REACH_PRIVATE.

Definition GetReachabilityFrom (a : CNetAddr) (paddrPartner : option CNetAddr) : Reachability :=
  if negb (IsRoutable a) || IsInternal a then REACH_UNREACHABLE
  else
    let ourNet := GetExtNetwork (Some a) in
    let fTunnel := IsRFC3964 a || IsRFC6052 a || IsRFC6145 a in
    match GetExtNetwork paddrPartner with
    | EXT NET_IPV4 => match ourNet with EXT NET_IPV4 => REACH_IPV4 | _ => REACH_DEFAULT end
    | EXT NET_IPV6 =>
      match ourNet with
      | NET_TEREDO => REACH_TEREDO
      | EXT NET_IPV4 => REACH_IPV4
      | EXT NET_IPV6 => if fTunnel then REACH_IPV6_WEAK else REACH_IPV6_STRONG
      | _ => REACH_DEFAULT
      end
    | EXT NET_TOR => match ourNet with EXT NET_IPV4 => REACH_IPV4 | EXT NET_TOR => REACH_PRIVATE | _ => REACH_DEFAULT end
    | NET_TEREDO => match ourNet with NET_TEREDO => REACH_TEREDO | EXT NET_IPV6 => REACH_IPV6_WEAK | EXT NET_IPV4 => REACH_IPV4 | _ => REACH_DEFAULT end
    | _ =>
      match ourNet with
      | NET_TEREDO => REACH_TEREDO
      | EXT NET_IPV6 => REACH_IPV6_WEAK
      | EXT NET_IPV4 => REACH_IPV4
      | EXT NET_TOR => REACH_PRIVATE
      | _ => REACH_DEFAULT
      end
    end.

(** ** Services *)

(** An address with a port. *)
Record CService := MkService { netaddr : CNetAddr; port : Z }.

Definition netaddr_eqb (a b : CNetAddr) : bool := bool_decide (ip a = ip b).

Definition service_eqb (a b : CService) : bool := netaddr_eqb (netaddr a) (netaddr b) && (port a =? port b).

Definition GetKey (s : CService) : list Z := ip (netaddr s) ++ [port s / 0x100; Z.land (port s) 0x0FF].

(** ** Subnets *)

Record CSubNet := MkSubNet { network : CNetAddr; netmask : list Z; valid : bool }.

(** [network.ip[x] &= netmask[x]] for all [x]. *)
Definition normalize (a : CNetAddr) (mask : list Z) : CNetAddr := MkNetAddr (zip_with Z.land (ip a) mask) (scopeId a).

(** [netmask[n>>3] &= ~(1<<(7-(n&7)))] *)
Definition clear_bit (mask : list Z) (n : Z) : list Z :=
  alter (fun b => Z.land b (uint8 (Z.lnot (Z.shiftl 1 (7 - Z.land n 7))))) (Z.to_nat (Z.shiftr n 3)) mask.

(** Bits [n..127] are cleared. *)
Definition clear_bits (mask : list Z) (n : Z) : list Z := foldl clear_bit mask (seqZ n (128 - n)).

Definition CSubNet_mask (addr : CNetAddr) (mask : Z) : CSubNet :=
  let netmask := replicate 16 255 in
  let astartofs := if IsIPv4 addr then 12 else 0 in
  if (mask >=? 0) && (mask <=? 128 - astartofs * 8) then
    let netmask := clear_bits netmask (mask + astartofs * 8) in
    MkSubNet (normalize addr netmask) netmask true
  else MkSubNet (normalize addr netmask) netmask false.

Definition CSubNet_netmask (addr mask : CNetAddr) : CSubNet :=
  let astartofs := if IsIPv4 addr then 12%nat else 0%nat in
  let netmask := replicate astartofs 255 ++ drop astartofs (ip mask) in
  MkSubNet (normalize addr netmask) netmask true.

Definition CSubNet_single (addr : CNetAddr) : CSubNet := MkSubNet addr (replicate 16 255) (IsValid addr).

Definition Match (s : CSubNet) (addr : CNetAddr) : bool :=
  if negb (valid s) || negb (IsValid addr) then false
  else bool_decide (zip_with Z.land (ip addr) (netmask s) = ip (network s)).

Definition NetmaskBits (x : Z) : Z :=
  if x =? 0x00 then 0 else if x =? 0x80 then 1 else if x =? 0xc0 then 2 else if x =? 0xe0 then 3 else if x =? 0xf0 then 4
  else if x =? 0xf8 then 5 else if x =? 0xfc then 6 else if x =? 0xfe then 7 else if x =? 0xff then 8 else -1.

(** The part of [ToString] that finds the length of the prefix, if the mask is one. *)
Fixpoint cidr_length (mask : list Z) : option Z :=
  match mask with
  | [] => Some 0
  | b :: mask =>
    if b =? 0xff then (fun n => n + 8) <$> cidr_length mask
    else if NetmaskBits b <? 0 then None
    else if bool_decide (Forall (fun x => x = 0) mask) then Some (NetmaskBits b) else None
  end.

Definition subnet_cidr (s : CSubNet) : option Z := cidr_length (drop (if IsIPv4 (network s) then 12 else 0) (netmask s)).

(** ** Prefixes *)

Definition wf_ip (a : CNetAddr) : Prop := length (ip a) = 16%nat /\ bytes_ok (ip a).

(** Bit [k] of an address, from the most significant one on. *)
Definition ip_bit (l : list Z) (k : Z) : bool := Z.testbit (byte_at l (k / 8)) (7 - k mod 8).

Definition prefix_mask (n : Z) : list Z := clear_bits (replicate 16 255) n.

Lemma prefix_mask_bit n k : 0 <= n <= 128 -> 0 <= k < 128 -> ip_bit (prefix_mask n) k = (k <? n).
Proof.
  intros Hn Hk. assert (H := all_below (fun n => let m := prefix_mask n in forallb (fun k => eqb (ip_bit m k) (k <? n)) (seqZ 0 128)) 129 ltac:(vm_compute; reflexivity) n ltac:(lia)).
  cbv beta zeta in H. apply eqb_prop. exact (all_below (fun k => eqb (ip_bit (prefix_mask n) k) (k <? n)) 128 H k Hk).
Qed.

Lemma prefix_mask_length n : 0 <= n <= 128 -> length (prefix_mask n) = 16%nat.
Proof.
  intros Hn. apply Nat.eqb_eq. exact (all_below (fun n => length (prefix_mask n) =? 16)%nat 129 ltac:(vm_compute; reflexivity) n ltac:(lia)).
Qed.

Definition cidr_is (l : list Z) (n : Z) : bool := match cidr_length l with Some m => m =? n | None => false end.

Lemma cidr_is_true l n : cidr_is l n = true -> cidr_length l = Some n.
Proof. unfold cidr_is. destruct (cidr_length l); [| done]. by intros ->%Z.eqb_eq. Qed.

Lemma prefix_mask_cidr n : (0 <= n <= 128 -> cidr_length (prefix_mask n) = Some n) /\ (96 <= n <= 128 -> cidr_length (drop 12 (prefix_mask n)) = Some (n - 96)).
Proof.
  split; intros Hn; apply cidr_is_true.
  - exact (all_below (fun n => cidr_is (prefix_mask n) n) 129 ltac:(vm_compute; reflexivity) n ltac:(lia)).
  - assert (H := all_below (fun n => (n <? 96) || cidr_is (drop 12 (prefix_mask n)) (n - 96)) 129 ltac:(vm_compute; reflexivity) n ltac:(lia)).
    cbv beta in H. by rewrite (proj2 (Z.ltb_ge n 96)) in H by lia.
Qed.

(** The bits of a masked address. *)
Lemma masked_bit l m k : length l = 16%nat -> length m = 16%nat -> 0 <= k < 128 -> ip_bit (zip_with Z.land l m) k = ip_bit l k && ip_bit m k.
Proof.
  intros Hl Hm Hk. unfold ip_bit, byte_at. rewrite lookup_zip_with.
  assert (Hx : (Z.to_nat (k / 8) < 16)%nat) by (pose proof (Z.div_lt_upper_bound k 8 16); pose proof (Z.div_pos k 8); lia).
  destruct (lookup_lt_is_Some_2 l (Z.to_nat (k / 8)) ltac:(lia)) as [x ->]. destruct (lookup_lt_is_Some_2 m (Z.to_nat (k / 8)) ltac:(lia)) as [y ->]. cbn. apply Z.land_spec.
Qed.

Lemma byte_bits a b : is_byte a -> is_byte b -> (forall j, 0 <= j < 8 -> Z.testbit a j = Z.testbit b j) -> a = b.
Proof.
  unfold is_byte. intros Ha Hb H. apply Z.bits_inj'. intros j Hj. destruct (Z.lt_ge_cases j 8); [apply H; lia |].
  rewrite <- (Z.mod_small a (2 ^ 8)), <- (Z.mod_small b (2 ^ 8)) by lia. by rewrite !Z.mod_pow2_bits_high by lia.
Qed.

(** Sixteen bytes are determined by their bits. *)
Lemma ip_bits_inj l m : length l = 16%nat -> length m = 16%nat -> bytes_ok l -> bytes_ok m -> (forall k, 0 <= k < 128 -> ip_bit l k = ip_bit m k) -> l = m.
Proof.
  intros Hl Hm Bl Bm H. apply list_eq_same_length with (n := 16%nat); [done.. |]. intros i x y Hi Hx Hy. unfold bytes_ok in *. rewrite list.Forall_lookup in Bl, Bm.
  apply byte_bits; [by apply (Bl i) | by apply (Bm i) |]. intros j Hj. specialize (H (8 * Z.of_nat i + (7 - j)) ltac:(lia)). unfold ip_bit, byte_at in H.
  replace ((8 * Z.of_nat i + (7 - j)) / 8) with (Z.of_nat i) in H by (apply Z.div_unique with (7 - j); lia).
  replace ((8 * Z.of_nat i + (7 - j)) mod 8) with (7 - j) in H by (apply Z.mod_unique with (Z.of_nat i); lia).
  rewrite Nat2Z.id, Hx, Hy in H. cbn in H. by replace (7 - (7 - j)) with j in H by lia.
Qed.

Lemma land_byte a b : is_byte a -> is_byte (Z.land a b).
Proof.
  unfold is_byte. intros Ha. assert (E : Z.land a b = Z.land a b mod 2 ^ 8).
  { rewrite <- Z.land_ones, <- Z.land_assoc, (Z.land_comm b), Z.land_assoc by lia. f_equal. rewrite Z.land_ones by lia. rewrite Z.mod_small by lia. done. }
  rewrite E. apply Z.mod_pos_bound. lia.
Qed.

Lemma masked_bytes l m : bytes_ok l -> bytes_ok (zip_with Z.land l m).
Proof. revert m. induction l as [| x l IH]; intros [| y m]; cbn; try by constructor. intros [? ?]%Forall_cons_1. constructor; [by apply land_byte | by apply IH]. Qed.

Lemma masked_eq l l' m : length l = 16%nat -> length l' = 16%nat -> length m = 16%nat -> bytes_ok l -> bytes_ok l' ->
  zip_with Z.land l m = zip_with Z.land l' m <-> forall k, 0 <= k < 128 -> ip_bit m k = true -> ip_bit l k = ip_bit l' k.
Proof.
  intros Hl Hl' Hm Bl Bl'. split.
  - intros E k Hk Hb. pose proof (f_equal (fun l => ip_bit l k) E) as H. cbv beta in H. rewrite !masked_bit, Hb, !andb_true_r in H by done. done.
  - intros H. apply ip_bits_inj; try by apply masked_bytes; rewrite ?length_zip_with; try lia.
    1, 2: rewrite length_zip_with; lia.
    intros k Hk. rewrite !masked_bit by done. destruct (ip_bit m k) eqn:E; [by rewrite (H k Hk E) | by rewrite !andb_false_r].
Qed.

Lemma prefix_mask_start n : 96 <= n <= 128 -> take 12 (prefix_mask n) = replicate 12 255.
Proof.
  intros Hn. assert (H := all_below (fun n => (n <? 96) || forallb (Z.eqb 255) (take 12 (prefix_mask n)) && (length (take 12 (prefix_mask n)) =? 12)%nat) 129 ltac:(vm_compute; reflexivity) n ltac:(lia)).
  cbv beta in H. rewrite (proj2 (Z.ltb_ge n 96)) in H by lia. apply andb_true_iff in H as [H Hl]. apply Nat.eqb_eq in Hl. rewrite forallb_forall in H.
  symmetry. apply replicate_as_elem_of. split; [done |]. intros x Hx%list_elem_of_In. symmetry. by apply Z.eqb_eq, H.
Qed.

Lemma masked_255 l : bytes_ok l -> zip_with Z.land l (replicate (length l) 255) = l.
Proof. induction 1 as [| x l Hx _ IH]; [done |]. cbn. rewrite IH. f_equal. change 255 with (Z.ones 8). unfold is_byte in Hx. rewrite Z.land_ones, Z.mod_small by lia. done. Qed.

(** Whether an address is an IPv4 address does not change. *)
Lemma normalize_IPv4 a n : wf_ip a -> 0 <= n <= 128 -> (IsIPv4 a = true -> 96 <= n) -> IsIPv4 (normalize a (prefix_mask n)) = IsIPv4 a.
Proof.
  intros [Hl Hb] Hn H4. pose proof (prefix_mask_length n Hn) as Hm. unfold IsIPv4, ip_starts, normalize. cbn [ip]. change (length pchIPv4) with 12%nat.
  destruct (Z.lt_ge_cases n 96) as [Hlt | Hge].
  - rewrite (bool_decide_false (take 12 (ip a) = pchIPv4)) by (intros E; enough (96 <= n) by lia; apply H4; unfold IsIPv4, ip_starts; by apply bool_decide_true).
    apply bool_decide_false. intros E. pose proof (masked_bit (ip a) (prefix_mask n) 95 Hl Hm ltac:(lia)) as Hbit. rewrite prefix_mask_bit, (proj2 (Z.ltb_ge 95 n)), andb_false_r in Hbit by lia.
    unfold ip_bit, byte_at in Hbit. change (Z.to_nat (95 / 8)) with 11%nat in Hbit. rewrite <- (lookup_take_lt _ 12) in Hbit by lia. rewrite E in Hbit. discriminate Hbit.
  - apply bool_decide_ext. enough (E : take 12 (zip_with Z.land (ip a) (prefix_mask n)) = take 12 (ip a)) by (by rewrite E).
    rewrite zip_with_take, prefix_mask_start by lia. rewrite <- (masked_255 (take 12 (ip a))) at 2 by (by apply Forall_take). do 2 f_equal. rewrite length_take. lia.
Qed.

(** A subnet made from an address and a prefix length matches exactly the valid
    addresses that agree with it in the leading bits, counted from the IPv4 part for an
    IPv4 address, and no address when the length is out of range; the length is read back
    from its mask. *)
Theorem CSubNet_prefix addr mask a : wf_ip addr -> wf_ip a ->
  let start := if IsIPv4 addr then 96 else 0 in
  (Match (CSubNet_mask addr mask) a = true <->
    IsValid a = true /\ 0 <= mask <= 128 - start /\ forall k, 0 <= k < start + mask -> ip_bit (ip a) k = ip_bit (ip addr) k) /\
  (0 <= mask <= 128 - start -> subnet_cidr (CSubNet_mask addr mask) = Some mask).
Proof.
  intros Hw [Hla Hba] start. unfold CSubNet_mask. replace ((if IsIPv4 addr then 12 else 0) * 8) with start by (unfold start; by destruct (IsIPv4 addr)).
  fold (prefix_mask (mask + start)). destruct ((mask >=? 0) && (mask <=? 128 - start)) eqn:Er; cbv zeta.
  - assert (Hr : 0 <= mask <= 128 - start) by (bool_to_prop; lia). assert (Hs : start = 96 \/ start = 0) by (unfold start; destruct (IsIPv4 addr); auto).
    assert (Hn : 0 <= mask + start <= 128) by lia. pose proof (prefix_mask_length _ Hn) as Hm. destruct Hw as [Hl Hb]. split.
    + unfold Match. cbn [valid netmask network normalize ip negb orb]. destruct (IsValid a); cbn [negb]; [| split; [done | by intros [? _]]].
      rewrite bool_decide_eq_true, masked_eq by done. split.
      * intros H. split; [done |]. split; [done |]. intros k Hk. apply H; [lia |]. rewrite prefix_mask_bit by lia. apply Z.ltb_lt. lia.
      * intros (_ & _ & H) k Hk Hbit. apply H. rewrite prefix_mask_bit in Hbit by lia. apply Z.ltb_lt in Hbit. lia.
    + intros _. unfold subnet_cidr. cbn [network netmask]. rewrite normalize_IPv4 by (done || (intros E; unfold start in *; rewrite E in *; lia)).
      unfold start in *. destruct (IsIPv4 addr).
      * rewrite (proj2 (prefix_mask_cidr _)) by lia. f_equal. lia.
      * rewrite drop_0, (proj1 (prefix_mask_cidr _)) by lia. f_equal. lia.
  - assert (Hr : ~ (0 <= mask <= 128 - start)) by (intros ?; apply not_true_iff_false in Er; apply Er; apply andb_true_iff; split; [apply Z.geb_le | apply Z.leb_le]; lia).
    split; [| done]. unfold Match. cbn. split; [done | by intros (_ & ? & _)].
Qed.

Lemma CSubNet_prefix_witness :
  let addr := MkNetAddr (pchIPv4 ++ [1; 2; 3; 0]) 0 in let a := MkNetAddr (pchIPv4 ++ [1; 2; 3; 77]) 0 in
  Match (CSubNet_mask addr 24) a = true /\ subnet_cidr (CSubNet_mask addr 24) = Some 24.
Proof.
  intros addr a. assert (Ha : wf_ip addr) by (split; [reflexivity | repeat (constructor; [unfold is_byte; lia |]); constructor]). assert (Hb : wf_ip a) by (split; [reflexivity | repeat (constructor; [unfold is_byte; lia |]); constructor]).
  destruct (CSubNet_prefix addr 24 a Ha Hb) as [H1 H2]. split; [| apply H2; vm_compute; split; discriminate]. apply H1. split; [reflexivity |]. split; [vm_compute; split; discriminate |].
  intros k Hk. apply eqb_prop. exact (all_below (fun k => eqb (ip_bit (ip a) k) (ip_bit (ip addr) k)) 120 ltac:(reflexivity) k Hk).
Defined.
