(* ===== verification/AddrMan.v ===== *)
(** * The address manager

    [src/addrman.h] and [src/addrman.cpp]: the tables of addresses that a node knows, of
    those that it has not tried yet and of those that worked, and the operations on them.
    Random numbers and the present time are arguments. The choice of an address to connect
    to, which works with floating-point chances, and the file format are not modelled. *)

From stdpp Require Import gmap sorting.
From S2P Require Import Prelude Common Serialize Hash NetAddr.

Open Scope Z_scope.
Open Scope outcome_scope.

Definition ADDRMAN_TRIED_BUCKETS_PER_GROUP : Z := 8.

Definition ADDRMAN_NEW_BUCKETS_PER_SOURCE_GROUP : Z := 64.

Definition ADDRMAN_NEW_BUCKETS_PER_ADDRESS : Z := 8.

Definition ADDRMAN_HORIZON_DAYS : Z := 30.

Definition ADDRMAN_RETRIES : Z := 3.

Definition ADDRMAN_MAX_FAILURES : Z := 10.

Definition ADDRMAN_MIN_FAIL_DAYS : Z := 7.

Definition ADDRMAN_GETADDR_MAX_PCT : Z := 23.

Definition ADDRMAN_GETADDR_MAX : Z := 2500.

Definition ADDRMAN_TRIED_BUCKET_COUNT : Z := 2 ^ 8.

Definition ADDRMAN_NEW_BUCKET_COUNT : Z := 2 ^ 10.

Definition ADDRMAN_BUCKET_SIZE : Z := 2 ^ 6.

(** The value of an [int64_t] expression. *)
Definition int64_value (x : Z) : outcome Z := if (INT64_MIN <=? x) && (x <=? INT64_MAX) then Ret x else Undef.

(** ** Entries *)

(** [CAddress]: a service, its flags and the time at which it was seen. *)
Record CAddress := MkAddress { service : CService; nServices : Z; nTime : Z }.

Record CAddrInfo := MkAddrInfo {
  address : CAddress;
  source : CNetAddr;
  nLastTry : Z;
  nLastCountAttempt : Z;
  nLastSuccess : Z;
  nAttempts : Z;
  nRefCount : Z;
  fInTried : bool;
  nRandomPos : Z
}.

Definition CAddrInfo_new (addrIn : CAddress) (addrSource : CNetAddr) : CAddrInfo := MkAddrInfo addrIn addrSource 0 0 0 0 0 false (-1).

(** [(CHashWriter << ...).GetHash().GetCheapHash()] *)
Definition cheap_hash (data : list Z) : Z := ReadLE64 (Hash data).

Definition GetTriedBucket (s : CService) (nKey : list Z) : Z :=
  let hash1 := cheap_hash (nKey ++ Serialize_bytes (GetKey s)) in
  let hash2 := cheap_hash (nKey ++ Serialize_bytes (GetGroup (netaddr s)) ++ ser_writedata64 (hash1 mod ADDRMAN_TRIED_BUCKETS_PER_GROUP)) in
  hash2 mod ADDRMAN_TRIED_BUCKET_COUNT.

Definition GetNewBucket (s : CService) (nKey : list Z) (src : CNetAddr) : Z :=
  let vchSourceGroupKey := GetGroup src in
  let hash1 := cheap_hash (nKey ++ Serialize_bytes (GetGroup (netaddr s)) ++ Serialize_bytes vchSourceGroupKey) in
  let hash2 := cheap_hash (nKey ++ Serialize_bytes vchSourceGroupKey ++ ser_writedata64 (hash1 mod ADDRMAN_NEW_BUCKETS_PER_SOURCE_GROUP)) in
  hash2 mod ADDRMAN_NEW_BUCKET_COUNT.

(** The letters are ['N'] and ['K']. *)
Definition GetBucketPosition (s : CService) (nKey : list Z) (fNew : bool) (nBucket : Z) : Z :=
  let hash1 := cheap_hash (nKey ++ ser_writedata8 (if fNew then 78 else 75) ++ ser_writedata32 nBucket ++ Serialize_bytes (GetKey s)) in
  hash1 mod ADDRMAN_BUCKET_SIZE.

Definition info_service (i : CAddrInfo) : CService := service (address i).

Definition info_ip (i : CAddrInfo) : list Z := ip (netaddr (info_service i)).

Definition IsTerrible (i : CAddrInfo) (nNow : Z) : outcome bool :=
  let? recent := if nLastTry i =? 0 then Ret false else let? t := int64_value (nNow - 60) in Ret (nLastTry i >=? t) in
  if recent : bool then Ret false
  else
    let? soon := int64_value (nNow + 10 * 60) in
    if nTime (address i) >? soon then Ret true
    else
      let? old := if nTime (address i) =? 0 then Ret true else let? d := int64_value (nNow - nTime (address i)) in Ret (d >? ADDRMAN_HORIZON_DAYS * 24 * 60 * 60) in
      if old : bool then Ret true
      else if (nLastSuccess i =? 0) && (nAttempts i >=? ADDRMAN_RETRIES) then Ret true
      else let? d := int64_value (nNow - nLastSuccess i) in
        Ret ((d >? ADDRMAN_MIN_FAIL_DAYS * 24 * 60 * 60) && (nAttempts i >=? ADDRMAN_MAX_FAILURES)).

(** Updates of the fields of an entry. *)
Definition set_random_pos (i : CAddrInfo) (p : Z) : CAddrInfo :=
  MkAddrInfo (address i) (source i) (nLastTry i) (nLastCountAttempt i) (nLastSuccess i) (nAttempts i) (nRefCount i) (fInTried i) p.

Definition set_ref_count (i : CAddrInfo) (n : Z) : CAddrInfo :=
  MkAddrInfo (address i) (source i) (nLastTry i) (nLastCountAttempt i) (nLastSuccess i) (nAttempts i) n (fInTried i) (nRandomPos i).

Definition set_in_tried (i : CAddrInfo) (b : bool) : CAddrInfo :=
  MkAddrInfo (address i) (source i) (nLastTry i) (nLastCountAttempt i) (nLastSuccess i) (nAttempts i) (nRefCount i) b (nRandomPos i).

Definition set_address (i : CAddrInfo) (a : CAddress) : CAddrInfo :=
  MkAddrInfo a (source i) (nLastTry i) (nLastCountAttempt i) (nLastSuccess i) (nAttempts i) (nRefCount i) (fInTried i) (nRandomPos i).

Definition set_tries (i : CAddrInfo) (try count success attempts : Z) : CAddrInfo :=
  MkAddrInfo (address i) (source i) try count success attempts (nRefCount i) (fInTried i) (nRandomPos i).

Definition set_time (a : CAddress) (t : Z) : CAddress := MkAddress (service a) (nServices a) t.

Definition set_services (a : CAddress) (f : Z) : CAddress := MkAddress (service a) f (nTime a).

(** ** The tables *)

(** A table of buckets: the positions that hold -1 are absent. *)
Abbreviation table := (gmap (Z * Z) Z).

(** [mapAddr] compares addresses by their bytes. *)
Record CAddrMan := MkAddrMan {
  nKey : list Z;
  nIdCount : Z;
  mapInfo : gmap Z CAddrInfo;
  mapAddr : gmap (list Z) Z;
  vRandom : list Z;
  nTried : Z;
  vvTried : table;
  nNew : Z;
  vvNew : table;
  nLastGood : Z
}.

Definition Clear (key : list Z) : CAddrMan := MkAddrMan key 0 ∅ ∅ [] 0 ∅ 0 ∅ 1.

Definition slot (t : table) (bucket pos : Z) : Z := default (-1) (t !! (bucket, pos)).

Definition with_infos (s : CAddrMan) (m : gmap Z CAddrInfo) : CAddrMan :=
  MkAddrMan (nKey s) (nIdCount s) m (mapAddr s) (vRandom s) (nTried s) (vvTried s) (nNew s) (vvNew s) (nLastGood s).

Definition with_new (s : CAddrMan) (n : Z) (t : table) : CAddrMan :=
  MkAddrMan (nKey s) (nIdCount s) (mapInfo s) (mapAddr s) (vRandom s) (nTried s) (vvTried s) n t (nLastGood s).

Definition with_tried (s : CAddrMan) (n : Z) (t : table) : CAddrMan :=
  MkAddrMan (nKey s) (nIdCount s) (mapInfo s) (mapAddr s) (vRandom s) n t (nNew s) (vvNew s) (nLastGood s).

Definition with_random (s : CAddrMan) (v : list Z) : CAddrMan :=
  MkAddrMan (nKey s) (nIdCount s) (mapInfo s) (mapAddr s) v (nTried s) (vvTried s) (nNew s) (vvNew s) (nLastGood s).

Definition set_info (s : CAddrMan) (nId : Z) (i : CAddrInfo) : CAddrMan := with_infos s (<[nId := i]> (mapInfo s)).

(** The entry, by reference, whose presence is asserted or known. *)
Definition info_at (s : CAddrMan) (nId : Z) : outcome CAddrInfo := match mapInfo s !! nId with Some i => Ret i | None => Abort end.

Definition Find (s : CAddrMan) (addr : CNetAddr) : option (Z * CAddrInfo) :=
  match mapAddr s !! ip addr with
  | None => None
  | Some nId => match mapInfo s !! nId with Some i => Some (nId, i) | None => None end
  end.

Definition Create (s : CAddrMan) (addr : CAddress) (addrSource : CNetAddr) : outcome (Z * CAddrMan) :=
  let nId := nIdCount s in
  if nIdCount s =? INT_MAX then Undef
  else
    let i := set_random_pos (CAddrInfo_new addr addrSource) (int32 (Zlen (vRandom s))) in
    Ret (nId, MkAddrMan (nKey s) (nIdCount s + 1) (<[nId := i]> (mapInfo s)) (<[ip (netaddr (service addr)) := nId]> (mapAddr s))
                (vRandom s ++ [nId]) (nTried s) (vvTried s) (nNew s) (vvNew s) (nLastGood s)).

(** The positions are [unsigned int]s. *)
Definition SwapRandom (s : CAddrMan) (nRndPos1 nRndPos2 : Z) : outcome CAddrMan :=
  if nRndPos1 =? nRndPos2 then Ret s
  else
    match vRandom s !! Z.to_nat nRndPos1, vRandom s !! Z.to_nat nRndPos2 with
    | Some nId1, Some nId2 =>
      let? i1 := info_at s nId1 in
      let? i2 := info_at s nId2 in
      let s := set_info s nId1 (set_random_pos i1 (int32 nRndPos2)) in
      let? i2 := info_at s nId2 in
      let s := set_info s nId2 (set_random_pos i2 (int32 nRndPos1)) in
      Ret (with_random s (<[Z.to_nat nRndPos2 := nId1]> (<[Z.to_nat nRndPos1 := nId2]> (vRandom s))))
    | _, _ => Abort
    end.

Definition Delete (s : CAddrMan) (nId : Z) : outcome CAddrMan :=
  let? info := info_at s nId in
  let? _ := cassert (negb (fInTried info)) in
  let? _ := cassert (nRefCount info =? 0) in
  let? s := SwapRandom s (uint32 (nRandomPos info)) (uint32 (Zlen (vRandom s) - 1)) in
  let s := with_random s (take (length (vRandom s) - 1) (vRandom s)) in
  Ret (MkAddrMan (nKey s) (nIdCount s) (delete nId (mapInfo s)) (delete (info_ip info) (mapAddr s))
         (vRandom s) (nTried s) (vvTried s) (nNew s - 1) (vvNew s) (nLastGood s)).

Definition ClearNew (s : CAddrMan) (nUBucket nUBucketPos : Z) : outcome CAddrMan :=
  let nIdDelete := slot (vvNew s) nUBucket nUBucketPos in
  if nIdDelete =? -1 then Ret s
  else
    let? infoDelete := info_at s nIdDelete in
    let? _ := cassert (nRefCount infoDelete >? 0) in
    let infoDelete := set_ref_count infoDelete (nRefCount infoDelete - 1) in
    let s := set_info s nIdDelete infoDelete in
    let s := with_new s (nNew s) (delete (nUBucket, nUBucketPos) (vvNew s)) in
    if nRefCount infoDelete =? 0 then Delete s nIdDelete else Ret s.

(** One bucket of the loop that removes an entry from the new table. *)
Definition leave_bucket (nId : Z) (s : outcome CAddrMan) (bucket : Z) : outcome CAddrMan :=
  let? s := s in
  let? info := info_at s nId in
  let pos := GetBucketPosition (info_service info) (nKey s) true bucket in
  if slot (vvNew s) bucket pos =? nId then
    Ret (set_info (with_new s (nNew s) (delete (bucket, pos) (vvNew s))) nId (set_ref_count info (nRefCount info - 1)))
  else Ret s.

(** An entry without references enters the new table at a position, deleting what is there. *)
Definition reenter (s : CAddrMan) (nIdEvict nUBucket nUBucketPos : Z) : outcome CAddrMan :=
  let? s := ClearNew s nUBucket nUBucketPos in
  let? _ := cassert (slot (vvNew s) nUBucket nUBucketPos =? -1) in
  let? infoOld := info_at s nIdEvict in
  Ret (with_new (set_info s nIdEvict (set_ref_count infoOld 1)) (nNew s + 1) (<[(nUBucket, nUBucketPos) := nIdEvict]> (vvNew s))).

(** The entry of a tried position goes back to the new table. *)
Definition evict (s : CAddrMan) (nKBucket nKBucketPos : Z) : outcome CAddrMan :=
  let nIdEvict := slot (vvTried s) nKBucket nKBucketPos in
  if nIdEvict =? -1 then Ret s
  else
    let? infoOld := info_at s nIdEvict in
    let s := set_info s nIdEvict (set_in_tried infoOld false) in
    let s := with_tried s (nTried s - 1) (delete (nKBucket, nKBucketPos) (vvTried s)) in
    let nUBucket := GetNewBucket (info_service infoOld) (nKey s) (source infoOld) in
    reenter s nIdEvict nUBucket (GetBucketPosition (info_service infoOld) (nKey s) true nUBucket).

Definition MakeTried (s : CAddrMan) (nId : Z) : outcome CAddrMan :=
  let? s := foldl (leave_bucket nId) (Ret s) (seqZ 0 ADDRMAN_NEW_BUCKET_COUNT) in
  let s := with_new s (nNew s - 1) (vvNew s) in
  let? info := info_at s nId in
  let? _ := cassert (nRefCount info =? 0) in
  let nKBucket := GetTriedBucket (info_service info) (nKey s) in
  let nKBucketPos := GetBucketPosition (info_service info) (nKey s) false nKBucket in
  let? s := evict s nKBucket nKBucketPos in
  let? _ := cassert (slot (vvTried s) nKBucket nKBucketPos =? -1) in
  let? info := info_at s nId in
  Ret (set_info (with_tried s (nTried s + 1) (<[(nKBucket, nKBucketPos) := nId]> (vvTried s))) nId (set_in_tried info true)).

(** ** Operations *)

(** The buckets from [nRnd] on, cyclically. *)
Fixpoint find_bucket (s : CAddrMan) (info : CAddrInfo) (nId nRnd : Z) (l : list Z) : option Z :=
  match l with
  | [] => None
  | n :: l =>
    let nB := uint32 (n + nRnd) mod ADDRMAN_NEW_BUCKET_COUNT in
    if slot (vvNew s) nB (GetBucketPosition (info_service info) (nKey s) true nB) =? nId then Some nB else find_bucket s info nId nRnd l
  end.

(** [nRnd] is the random number of the call. *)
Definition Good_ (s : CAddrMan) (addr : CService) (time nRnd : Z) : outcome CAddrMan :=
  let s := MkAddrMan (nKey s) (nIdCount s) (mapInfo s) (mapAddr s) (vRandom s) (nTried s) (vvTried s) (nNew s) (vvNew s) time in
  match Find s (netaddr addr) with
  | None => Ret s
  | Some (nId, info) =>
    if negb (service_eqb (info_service info) addr) then Ret s
    else
      let info := set_tries info time (nLastCountAttempt info) time 0 in
      let s := set_info s nId info in
      if fInTried info then Ret s
      else
        match find_bucket s info nId nRnd (seqZ 0 ADDRMAN_NEW_BUCKET_COUNT) with
        | None => Ret s
        | Some _ => MakeTried s nId
        end
  end.

(** The new time and flags of an entry that is announced again. *)
Definition update_announced (info : CAddrInfo) (addr : CAddress) (nTimePenalty now : Z) : outcome CAddrInfo :=
  let? age := int64_value (now - nTime addr) in
  let nUpdateInterval := if age <? 24 * 60 * 60 then 60 * 60 else 24 * 60 * 60 in
  let? update := if nTime addr =? 0 then Ret false
                 else if nTime (address info) =? 0 then Ret true
                 else let? t := int64_value (nTime addr - nUpdateInterval) in
                      let? t := int64_value (t - nTimePenalty) in Ret (nTime (address info) <? t) in
  let? info := if update : bool then
                 let? t := int64_value (nTime addr - nTimePenalty) in
                 Ret (set_address info (set_time (address info) (uint32 (Z.max 0 t))))
               else Ret info in
  Ret (set_address info (set_services (address info) (Z.lor (nServices (address info)) (nServices addr)))).

(** The entry takes a place in the new table, if it may. *)
Definition enter_new (s : CAddrMan) (nId : Z) (src : CNetAddr) (now : Z) : outcome CAddrMan :=
  let? info := info_at s nId in
  let nUBucket := GetNewBucket (info_service info) (nKey s) src in
  let nUBucketPos := GetBucketPosition (info_service info) (nKey s) true nUBucket in
  let nIdExisting := slot (vvNew s) nUBucket nUBucketPos in
  if nIdExisting =? nId then Ret s
  else
    let? fInsert := if nIdExisting =? -1 then Ret true
                    else
                      let? infoExisting := info_at s nIdExisting in
                      let? terrible := IsTerrible infoExisting now in
                      Ret (terrible || ((nRefCount infoExisting >? 1) && (nRefCount info =? 0))) in
    if fInsert : bool then
      let? s := ClearNew s nUBucket nUBucketPos in
      let? info := info_at s nId in
      Ret (with_new (set_info s nId (set_ref_count info (nRefCount info + 1))) (nNew s) (<[(nUBucket, nUBucketPos) := nId]> (vvNew s)))
    else if nRefCount info =? 0 then Delete s nId
    else Ret s.

(** [nRnd] is the random number of the stochastic test. *)
Definition Add_ (s : CAddrMan) (addr : CAddress) (src : CNetAddr) (nTimePenalty now nRnd : Z) : outcome (bool * CAddrMan) :=
  if negb (IsRoutable (netaddr (service addr))) then Ret (false, s)
  else
    let nTimePenalty := if netaddr_eqb (netaddr (service addr)) src then 0 else nTimePenalty in
    match Find s (netaddr (service addr)) with
    | Some (nId, info) =>
      let? info := update_announced info addr nTimePenalty now in
      let s := set_info s nId info in
      if (nTime addr =? 0) || (negb (nTime (address info) =? 0) && (nTime addr <=? nTime (address info))) then Ret (false, s)
      else if fInTried info then Ret (false, s)
      else if nRefCount info =? ADDRMAN_NEW_BUCKETS_PER_ADDRESS then Ret (false, s)
      else if (2 ^ nRefCount info >? 1) && negb (nRnd =? 0) then Ret (false, s)
      else let? s := enter_new s nId src now in Ret (false, s)
    | None =>
      let? r := Create s addr src in
      let '(nId, s) := r in
      let? info := info_at s nId in
      let? t := int64_value (nTime (address info) - nTimePenalty) in
      let s := set_info s nId (set_address info (set_time (address info) (uint32 (Z.max 0 t)))) in
      let s := with_new s (nNew s + 1) (vvNew s) in
      let? s := enter_new s nId src now in Ret (true, s)
    end.

(** An update of the entry of a service, if it is known with this port. *)
Definition update_service (s : CAddrMan) (addr : CService) (f : CAddrInfo -> outcome CAddrInfo) : outcome CAddrMan :=
  match Find s (netaddr addr) with
  | None => Ret s
  | Some (nId, info) =>
    if negb (service_eqb (info_service info) addr) then Ret s
    else let? info := f info in Ret (set_info s nId info)
  end.

Definition Attempt_ (s : CAddrMan) (addr : CService) (fCountFailure : bool) (time : Z) : outcome CAddrMan :=
  update_service s addr (fun info =>
    if fCountFailure && (nLastCountAttempt info <? nLastGood s) then
      if nAttempts info =? INT_MAX then Undef else Ret (set_tries info time time (nLastSuccess info) (nAttempts info + 1))
    else Ret (set_tries info time (nLastCountAttempt info) (nLastSuccess info) (nAttempts info))).

Definition Connected_ (s : CAddrMan) (addr : CService) (time : Z) : outcome CAddrMan :=
  update_service s addr (fun info =>
    let? d := int64_value (time - nTime (address info)) in
    Ret (if d >? 20 * 60 then set_address info (set_time (address info) (uint32 time)) else info)).

Definition SetServices_ (s : CAddrMan) (addr : CService) (flags : Z) : outcome CAddrMan :=
  update_service s addr (fun info => Ret (set_address info (set_services (address info) flags))).

(** The positions from [n] on; [rnd n] is the random number drawn at [n]. *)
Fixpoint getaddr_loop (s : CAddrMan) (nNodes now : Z) (rnd : Z -> Z) (vAddr : list CAddress) (l : list Z) : outcome (list CAddress * CAddrMan) :=
  match l with
  | [] => Ret (vAddr, s)
  | n :: l =>
    if Zlen vAddr >=? nNodes then Ret (vAddr, s)
    else
      let? s := SwapRandom s n (uint32 (rnd n + n)) in
      match vRandom s !! Z.to_nat n with
      | None => Undef
      | Some nId =>
        let? ai := info_at s nId in
        let? terrible := IsTerrible ai now in
        getaddr_loop s nNodes now rnd (if terrible : bool then vAddr else vAddr ++ [address ai]) l
      end
  end.

Definition GetAddr_ (s : CAddrMan) (now : Z) (rnd : Z -> Z) : outcome (list CAddress * CAddrMan) :=
  let nNodes := Z.min (uint32 (uint64 (ADDRMAN_GETADDR_MAX_PCT * Zlen (vRandom s)) / 100)) ADDRMAN_GETADDR_MAX in
  getaddr_loop s nNodes now rnd [] (seqZ 0 (Zlen (vRandom s))).

(** ** The consistency check *)

Definition id_le (a b : Z * CAddrInfo) : Prop := a.1 <= b.1.

#[export] Instance id_le_dec : RelDecision id_le.
Proof. intros a b. unfold id_le. apply _. Defined.

(** The entries in the order of their identifiers. *)
Definition infos (s : CAddrMan) : list (Z * CAddrInfo) := merge_sort id_le (map_to_list (mapInfo s)).

(** The tried entries and the reference counts of the others, or an error. *)
Fixpoint check_infos (s : CAddrMan) (l : list (Z * CAddrInfo)) (setTried : gset Z) (mapNew : gmap Z Z) : Z + gset Z * gmap Z Z :=
  match l with
  | [] => inr (setTried, mapNew)
  | (n, info) :: l =>
    if fInTried info && (nLastSuccess info =? 0) then inl (-1)
    else if fInTried info && negb (nRefCount info =? 0) then inl (-2)
    else if negb (fInTried info) && ((nRefCount info <? 0) || (nRefCount info >? ADDRMAN_NEW_BUCKETS_PER_ADDRESS)) then inl (-3)
    else if negb (fInTried info) && (nRefCount info =? 0) then inl (-4)
    else if negb (default 0 (mapAddr s !! info_ip info) =? n) then inl (-5)
    else if (nRandomPos info <? 0) || negb (bool_decide (vRandom s !! Z.to_nat (nRandomPos info) = Some n)) then inl (-14)
    else if nLastTry info <? 0 then inl (-6)
    else if nLastSuccess info <? 0 then inl (-8)
    else if fInTried info then check_infos s l ({[n]} ∪ setTried) mapNew
    else check_infos s l setTried (<[n := nRefCount info]> mapNew)
  end.

(** The positions of a table in the order of the loops. *)
Definition positions (buckets : Z) : list (Z * Z) := n ← seqZ 0 buckets; (fun i => (n, i)) <$> seqZ 0 ADDRMAN_BUCKET_SIZE.

Fixpoint check_tried (s : CAddrMan) (l : list (Z * Z)) (setTried : gset Z) : Z + gset Z :=
  match l with
  | [] => inr setTried
  | (n, i) :: l =>
    let nId := slot (vvTried s) n i in
    if nId =? -1 then check_tried s l setTried
    else if bool_decide (nId ∉ setTried) then inl (-11)
    else
      match mapInfo s !! nId with
      | None => inl (-17)
      | Some info =>
        if negb (GetTriedBucket (info_service info) (nKey s) =? n) then inl (-17)
        else if negb (GetBucketPosition (info_service info) (nKey s) false n =? i) then inl (-18)
        else check_tried s l (setTried ∖ {[nId]})
      end
  end.

Fixpoint check_new (s : CAddrMan) (l : list (Z * Z)) (mapNew : gmap Z Z) : Z + gmap Z Z :=
  match l with
  | [] => inr mapNew
  | (n, i) :: l =>
    let nId := slot (vvNew s) n i in
    if nId =? -1 then check_new s l mapNew
    else
      match mapNew !! nId, mapInfo s !! nId with
      | Some count, Some info =>
        if negb (GetBucketPosition (info_service info) (nKey s) true n =? i) then inl (-19)
        else check_new s l (if count - 1 =? 0 then delete nId mapNew else <[nId := count - 1]> mapNew)
      | None, _ => inl (-12)
      | Some _, None => inl (-19)
      end
  end.

Definition Check_ (s : CAddrMan) : Z :=
  if negb (Zlen (vRandom s) =? nTried s + nNew s) then -7
  else
    match check_infos s (infos s) ∅ ∅ with
    | inl e => e
    | inr (setTried, mapNew) =>
      if negb (Z.of_nat (size setTried) =? nTried s) then -9
      else if negb (Z.of_nat (size mapNew) =? nNew s) then -10
      else
        match check_tried s (positions ADDRMAN_TRIED_BUCKET_COUNT) setTried with
        | inl e => e
        | inr setTried =>
          match check_new s (positions ADDRMAN_NEW_BUCKET_COUNT) mapNew with
          | inl e => e
          | inr mapNew =>
            if negb (bool_decide (setTried = ∅)) then -13
            else if negb (bool_decide (mapNew = ∅)) then -15
            else if bool_decide (nKey s = replicate 32 0) then -16
            else 0
          end
        end
    end.
