(* ===== verification/AddrManProps.v ===== *)
(** * The address manager stays consistent

    The invariant of the tables of [AddrMan], with every operation keeping it, and the
    consistency check of the code, which finds no error. *)

From stdpp Require Import gmap sorting.
From S2P Require Import Prelude Common Serialize Hash NetAddr AddrMan.

Open Scope Z_scope.
Open Scope outcome_scope.

(** ** Counting *)

Section Count.
Context {K A : Type} `{Countable K} (P : A -> bool).
Implicit Types m : gmap K A.

(** The number of entries that satisfy [P]. *)
Definition cnt m : Z := Z.of_nat (size (filter (fun kv => P kv.2 = true) m)).

Lemma cnt_new m k x : m !! k = None -> cnt (<[k := x]> m) = cnt m + Z.b2z (P x).
Proof.
  intros Hk. unfold cnt. destruct (P x) eqn:E.
  - rewrite map_filter_insert_True by done. rewrite map_size_insert_None by (apply map_lookup_filter_None; by left). cbn. lia.
  - rewrite map_filter_insert_not' by (cbn; congruence). cbn. lia.
Qed.

Lemma cnt_delete m k x : m !! k = Some x -> cnt (delete k m) = cnt m - Z.b2z (P x).
Proof.
  intros Hk. pose proof (cnt_new (delete k m) k x (lookup_delete_eq m k)) as E. rewrite insert_delete_id in E by done. lia.
Qed.

Lemma cnt_replace m k x y : m !! k = Some x -> cnt (<[k := y]> m) = cnt m - Z.b2z (P x) + Z.b2z (P y).
Proof. intros Hk. rewrite <- insert_delete_eq, cnt_new by apply lookup_delete_eq. by rewrite (cnt_delete m k x). Qed.

Lemma cnt_nonneg m : 0 <= cnt m.
Proof. unfold cnt. lia. Qed.

Lemma cnt_zero m k x : cnt m = 0 -> m !! k = Some x -> P x = false.
Proof. intros E Hk. pose proof (cnt_delete m k x Hk) as Hd. pose proof (cnt_nonneg (delete k m)). destruct (P x); [cbn in Hd; lia | done]. Qed.

Lemma cnt_pos m : 1 <= cnt m -> exists k x, m !! k = Some x /\ P x = true.
Proof.
  unfold cnt. intros Hm. destruct (map_to_list (filter (fun kv => P kv.2 = true) m)) as [| [k x] l] eqn:E.
  - apply map_to_list_empty_iff in E. rewrite E, map_size_empty in Hm. lia.
  - assert (Hk : filter (fun kv => P kv.2 = true) m !! k = Some x) by (apply elem_of_map_to_list; rewrite E; by left). apply map_lookup_filter_Some in Hk as [? ?]. by exists k, x.
Qed.
End Count.

(** ** The invariant *)

(** The references to an entry in the new table. *)
Definition refs (t : table) (nId : Z) : Z := cnt (Z.eqb nId) t.

Definition tried_at (s : CAddrMan) (i : CAddrInfo) : Z * Z :=
  let b := GetTriedBucket (info_service i) (nKey s) in (b, GetBucketPosition (info_service i) (nKey s) false b).

Definition untried (i : CAddrInfo) : bool := negb (fInTried i).

(** The statistics of an entry are in range; [k] bounds the counters. *)
Record stats_ok (k : Z) (i : CAddrInfo) : Prop := {
  st_try : 0 <= nLastTry i;
  st_success : 0 <= nLastSuccess i <= INT64_MAX;
  st_attempts : nAttempts i <= k;
  st_time : 0 <= nTime (address i) < 2 ^ 32
}.

(** An entry that is in [X] may be without a reference for a moment. *)
Record info_ok (X : gset Z) (k : Z) (s : CAddrMan) (nId : Z) (i : CAddrInfo) : Prop := {
  io_id : 0 <= nId < nIdCount s;
  io_addr : mapAddr s !! info_ip i = Some nId;
  io_pos : 0 <= nRandomPos i /\ vRandom s !! Z.to_nat (nRandomPos i) = Some nId;
  io_stats : stats_ok k i;
  io_refs : nRefCount i = refs (vvNew s) nId;
  io_tried : fInTried i = true -> nLastSuccess i <> 0 /\ nRefCount i = 0 /\ vvTried s !! tried_at s i = Some nId;
  io_new : fInTried i = false -> (nId ∈ X \/ 1 <= nRefCount i) /\ nRefCount i <= ADDRMAN_NEW_BUCKETS_PER_ADDRESS
}.

(** [d] is the difference between the number of untried entries and [nNew]. *)
Record wf (X : gset Z) (d k : Z) (s : CAddrMan) : Prop := {
  wf_info : forall nId i, mapInfo s !! nId = Some i -> info_ok X k s nId i;
  wf_addr : forall a nId, mapAddr s !! a = Some nId -> exists i, mapInfo s !! nId = Some i /\ info_ip i = a;
  wf_random : forall n nId, vRandom s !! n = Some nId -> exists i, mapInfo s !! nId = Some i /\ nRandomPos i = Z.of_nat n;
  wf_tried : forall bp nId, vvTried s !! bp = Some nId -> exists i, mapInfo s !! nId = Some i /\ fInTried i = true /\ bp = tried_at s i;
  wf_new : forall b p nId, vvNew s !! (b, p) = Some nId -> exists i, mapInfo s !! nId = Some i /\ fInTried i = false /\
    0 <= b < ADDRMAN_NEW_BUCKET_COUNT /\ p = GetBucketPosition (info_service i) (nKey s) true b;
  wf_nTried : nTried s = cnt fInTried (mapInfo s);
  wf_nNew : nNew s + d = cnt untried (mapInfo s);
  wf_size : Zlen (vRandom s) = Z.of_nat (size (mapInfo s));
  wf_ids : Zlen (vRandom s) <= nIdCount s <= k;
  wf_key : nKey s <> replicate 32 0
}.

Lemma GetNewBucket_range a key src : 0 <= GetNewBucket a key src < ADDRMAN_NEW_BUCKET_COUNT.
Proof. apply Z.mod_pos_bound. done. Qed.

Lemma GetTriedBucket_range a key : 0 <= GetTriedBucket a key < ADDRMAN_TRIED_BUCKET_COUNT.
Proof. apply Z.mod_pos_bound. done. Qed.

Lemma GetBucketPosition_range a key fNew b : 0 <= GetBucketPosition a key fNew b < ADDRMAN_BUCKET_SIZE.
Proof. apply Z.mod_pos_bound. done. Qed.

#[local] Opaque GetTriedBucket GetNewBucket GetBucketPosition.

(** ** Steps *)

Section Steps.
Context (k : Z) (Hk : k <= INT_MAX).
Implicit Types (X : gset Z) (d : Z) (s : CAddrMan).

(** A change of one entry and of its places in the tables. *)
Lemma change_ok X X' d d' s nId i i' tt nn tn nt g : wf X d k s -> mapInfo s !! nId = Some i ->
  info_service i' = info_service i -> nRandomPos i' = nRandomPos i -> stats_ok k i' -> (forall n, n <> nId -> n ∈ X -> n ∈ X') ->
  (forall n, n <> nId -> refs tn n = refs (vvNew s) n) -> nRefCount i' = refs tn nId ->
  (forall bp n, n <> nId -> tn !! bp = Some n -> vvNew s !! bp = Some n) ->
  (forall b p, tn !! (b, p) = Some nId -> fInTried i' = false /\ 0 <= b < ADDRMAN_NEW_BUCKET_COUNT /\ p = GetBucketPosition (info_service i) (nKey s) true b) ->
  (forall bp n, n <> nId -> tt !! bp = Some n <-> vvTried s !! bp = Some n) ->
  (forall bp, tt !! bp = Some nId -> fInTried i' = true /\ bp = tried_at s i) ->
  (fInTried i' = true -> nLastSuccess i' <> 0 /\ nRefCount i' = 0 /\ tt !! tried_at s i = Some nId) ->
  (fInTried i' = false -> (nId ∈ X' \/ 1 <= nRefCount i') /\ nRefCount i' <= ADDRMAN_NEW_BUCKETS_PER_ADDRESS) ->
  nt = nTried s - Z.b2z (fInTried i) + Z.b2z (fInTried i') -> nn + d' = nNew s + d - Z.b2z (untried i) + Z.b2z (untried i') ->
  wf X' d' k (MkAddrMan (nKey s) (nIdCount s) (<[nId := i']> (mapInfo s)) (mapAddr s) (vRandom s) nt tt nn tn g).
Proof.
  intros Hw Hi E1 E4 Hs HX Hr1 Hr2 Hn1 Hn2 Ht1 Ht2 Ht3 Hnew Ent Enn. assert (Eip : info_ip i' = info_ip i) by (unfold info_ip; by rewrite E1).
  set (s' := MkAddrMan _ _ _ _ _ _ _ _ _ _). assert (Eat : forall x y, info_service x = info_service y -> tried_at s' x = tried_at s y) by (intros x y E; unfold tried_at; cbn; by rewrite E).
  assert (Hlook : forall n x, mapInfo s !! n = Some x -> exists y, mapInfo s' !! n = Some y /\ info_service y = info_service x /\ nRandomPos y = nRandomPos x /\ (n <> nId -> y = x)).
  { intros n x Hx. cbn. destruct (decide (n = nId)) as [-> | Hne]; [rewrite lookup_insert_eq; exists i'; simplify_eq; done | rewrite lookup_insert_ne by done; by exists x]. }
  assert (Hid : mapInfo s' !! nId = Some i') by apply lookup_insert_eq.
  destruct Hw as [W1 W2 W3 W4 W5 W6 W7 W8 W9 W10]. split; try done.
  - intros n x Hx. destruct (decide (n = nId)) as [-> | Hne].
    + rewrite Hid in Hx. injection Hx as <-. destruct (W1 nId i Hi) as [A1 A2 A3 A4 A5 A6 A7]. split; cbn; rewrite ?Eip, ?E4; try done. by rewrite (Eat i' i E1).
    + cbn in Hx. rewrite lookup_insert_ne in Hx by done. destruct (W1 n x Hx) as [A1 A2 A3 A4 A5 A6 A7]. split; try done.
      * cbn. by rewrite Hr1.
      * intros Hf. destruct (A6 Hf) as (? & ? & ?). split; [done |]. split; [done |]. rewrite (Eat x x eq_refl). by apply Ht1.
      * intros Hf. destruct (A7 Hf) as ([Hin | ?] & ?); (split; [| done]); [left; by apply HX | by right].
  - intros a n Hn. destruct (W2 a n Hn) as (x & Hx & <-). destruct (Hlook n x Hx) as (y & Hy & F1 & _). exists y. split; [done |]. unfold info_ip. by rewrite F1.
  - intros p n Hn. destruct (W3 p n Hn) as (x & Hx & <-). destruct (Hlook n x Hx) as (y & Hy & F). exists y. split; [done |]. apply F.
  - intros bp n Hn. destruct (decide (n = nId)) as [-> | Hne].
    + destruct (Ht2 bp Hn) as [? ->]. exists i'. split; [done |]. split; [done |]. by rewrite (Eat i' i).
    + destruct (W4 bp n (proj1 (Ht1 bp n Hne) Hn)) as (x & Hx & Hf & ->). exists x. cbn. rewrite lookup_insert_ne by done. by rewrite (Eat x x).
  - intros b p n Hn. destruct (decide (n = nId)) as [-> | Hne].
    + destruct (Hn2 b p Hn) as (? & ? & ->). exists i'. split; [done |]. cbn. by rewrite E1.
    + destruct (W5 b p n (Hn1 (b, p) n Hne Hn)) as (x & Hx & Hf & Hb & ->). exists x. cbn. rewrite lookup_insert_ne by done. done.
  - cbn. rewrite Ent, W6, (cnt_replace _ _ _ i) by done. lia.
  - cbn. rewrite Enn, (cnt_replace _ _ _ i) by done. lia.
  - cbn. rewrite W8, map_size_insert_Some; done.
Qed.

Lemma refs_delete t bp m n : t !! bp = Some m -> refs (delete bp t) n = refs t n - Z.b2z (n =? m).
Proof. intros Hb. unfold refs. by rewrite (cnt_delete _ _ _ m). Qed.

Lemma refs_insert t bp m n : t !! bp = None -> refs (<[bp := m]> t) n = refs t n + Z.b2z (n =? m).
Proof. intros Hb. unfold refs. by rewrite cnt_new. Qed.

(** The statistics of an entry change. *)
Lemma set_info_ok X d s nId i i' g : wf X d k s -> mapInfo s !! nId = Some i -> info_service i' = info_service i -> fInTried i' = fInTried i ->
  nRefCount i' = nRefCount i -> nRandomPos i' = nRandomPos i -> stats_ok k i' -> (fInTried i = true -> nLastSuccess i' <> 0) ->
  wf X d k (MkAddrMan (nKey s) (nIdCount s) (<[nId := i']> (mapInfo s)) (mapAddr s) (vRandom s) (nTried s) (vvTried s) (nNew s) (vvNew s) g).
Proof.
  intros Hw Hi E1 E2 E3 E4 Hs Ht. destruct (wf_info _ _ _ _ Hw nId i Hi) as [A1 A2 A3 A4 A5 A6 A7].
  apply (change_ok X X d d s nId i i'); unfold untried; rewrite ?E1, ?E2, ?E3; try done; try lia.
  - intros b p Hn. destruct (wf_new _ _ _ _ Hw b p nId Hn) as (x & Hx & ? & ? & ->). by simplify_eq.
  - intros bp Hn. destruct (wf_tried _ _ _ _ Hw bp nId Hn) as (x & Hx & ? & ->). by simplify_eq.
  - intros Hf. destruct (A6 Hf) as (? & ? & ?). split; [by apply Ht | done].
Qed.

(** A reference is removed from the new table. *)
Definition drop_ref s (nId : Z) (i : CAddrInfo) (bp : Z * Z) : CAddrMan :=
  set_info (with_new s (nNew s) (delete bp (vvNew s))) nId (set_ref_count i (nRefCount i - 1)).

Lemma drop_ref_ok X d s nId i bp : wf X d k s -> mapInfo s !! nId = Some i -> vvNew s !! bp = Some nId ->
  wf ({[nId]} ∪ X) d k (drop_ref s nId i bp) /\ fInTried i = false /\ 1 <= nRefCount i.
Proof.
  intros Hw Hi Hb. destruct (wf_info _ _ _ _ Hw nId i Hi) as [A1 A2 A3 A4 A5 A6 A7]. destruct bp as [b p]. destruct (wf_new _ _ _ _ Hw b p nId Hb) as (x & Hx & Hf & _). simplify_eq.
  assert (Hd : forall n, refs (delete (b, p) (vvNew s)) n = refs (vvNew s) n - Z.b2z (n =? nId)) by (intros; by apply refs_delete).
  assert (Hpos : 1 <= nRefCount i) by (pose proof (Hd nId) as E; rewrite Z.eqb_refl in E; cbn in E; pose proof (cnt_nonneg (Z.eqb nId) (delete (b, p) (vvNew s))); unfold refs in *; lia).
  split; [| done]. apply (change_ok X _ d d s nId i _ (vvTried s) (nNew s) (delete (b, p) (vvNew s)) (nTried s) (nLastGood s)); cbn [set_ref_count info_service address nRandomPos nRefCount fInTried nLastSuccess]; try done.
  - by destruct A4; split.
  - intros n _ ?. apply elem_of_union. by right.
  - intros n Hne. rewrite Hd, (proj2 (Z.eqb_neq n nId)) by done. cbn. lia.
  - rewrite Hd, Z.eqb_refl, A5. done.
  - intros bp n Hne Hn. by apply lookup_delete_Some in Hn as [_ ?].
  - intros b' p' Hn. apply lookup_delete_Some in Hn as [_ Hn]. destruct (wf_new _ _ _ _ Hw b' p' nId Hn) as (x & Hx & ? & ? & ->). by simplify_eq.
  - intros bp Hn. destruct (wf_tried _ _ _ _ Hw bp nId Hn) as (x & Hx & ? & ->). by simplify_eq.
  - congruence.
  - intros _. split; [left; by apply elem_of_union_l, elem_of_singleton |]. destruct (A7 Hf). lia.
  - lia.
  - unfold untried. cbn. lia.
Qed.

(** A reference is added to the new table. *)
Lemma add_ref_ok X d d' s nId i b p nn : wf X d k s -> mapInfo s !! nId = Some i -> vvNew s !! (b, p) = None -> fInTried i = false ->
  nRefCount i < ADDRMAN_NEW_BUCKETS_PER_ADDRESS -> 0 <= b < ADDRMAN_NEW_BUCKET_COUNT -> p = GetBucketPosition (info_service i) (nKey s) true b -> nn + d' = nNew s + d ->
  wf (X ∖ {[nId]}) d' k (with_new (set_info s nId (set_ref_count i (nRefCount i + 1))) nn (<[(b, p) := nId]> (vvNew s))).
Proof.
  intros Hw Hi Hb Hf Hr Hrange Hp Enn. destruct (wf_info _ _ _ _ Hw nId i Hi) as [A1 A2 A3 A4 A5 A6 A7].
  assert (Hd : forall n, refs (<[(b, p) := nId]> (vvNew s)) n = refs (vvNew s) n + Z.b2z (n =? nId)) by (intros; by apply refs_insert).
  apply (change_ok X _ d d' s nId i _ (vvTried s) nn (<[(b, p) := nId]> (vvNew s)) (nTried s) (nLastGood s)); cbn [set_ref_count info_service address nRandomPos nRefCount fInTried nLastSuccess]; try done.
  - by destruct A4; split.
  - intros n Hne ?. apply elem_of_difference. split; [done |]. by rewrite elem_of_singleton.
  - intros n Hne. rewrite Hd, (proj2 (Z.eqb_neq n nId)) by done. cbn. lia.
  - rewrite Hd, Z.eqb_refl, A5. done.
  - intros bp n Hne Hn. apply lookup_insert_Some in Hn as [[_ ?] | [_ ?]]; [congruence | done].
  - intros b' p' Hn. apply lookup_insert_Some in Hn as [[[= <- <-] _] | [_ Hn]]; [done |]. destruct (wf_new _ _ _ _ Hw b' p' nId Hn) as (x & Hx & ? & ? & ->). by simplify_eq.
  - intros bp Hn. destruct (wf_tried _ _ _ _ Hw bp nId Hn) as (x & Hx & ? & ->). by simplify_eq.
  - congruence.
  - intros _. split; [right |]; [| lia]. pose proof (cnt_nonneg (Z.eqb nId) (vvNew s)). unfold refs in A5. lia.
  - lia.
  - unfold untried. cbn. lia.
Qed.

(** An entry leaves the tried table. *)
Lemma unmark_ok X d s nId i bp : wf X d k s -> mapInfo s !! nId = Some i -> vvTried s !! bp = Some nId ->
  wf ({[nId]} ∪ X) (d + 1) k (with_tried (set_info s nId (set_in_tried i false)) (nTried s - 1) (delete bp (vvTried s))) /\ nRefCount i = 0 /\ refs (vvNew s) nId = 0.
Proof.
  intros Hw Hi Hb. destruct (wf_info _ _ _ _ Hw nId i Hi) as [A1 A2 A3 A4 A5 A6 A7]. destruct (wf_tried _ _ _ _ Hw bp nId Hb) as (x & Hx & Hf & ->). simplify_eq.
  destruct (A6 Hf) as (? & Hr & ?). split; [| lia].
  apply (change_ok X _ d (d + 1) s nId i _ (delete (tried_at s i) (vvTried s)) (nNew s) (vvNew s) (nTried s - 1) (nLastGood s)); cbn [set_in_tried info_service address nRandomPos nRefCount fInTried nLastSuccess]; try done.
  - by destruct A4; split.
  - intros n _ ?. apply elem_of_union. by right.
  - intros b p Hn. destruct (wf_new _ _ _ _ Hw b p nId Hn) as (x & Hx & ? & _). congruence.
  - intros bp n Hne. rewrite lookup_delete_Some. split; [by intros [_ ?] |]. intros Hn. split; [| done]. intros <-. congruence.
  - intros bp Hn. apply lookup_delete_Some in Hn as [Hne Hn]. destruct (wf_tried _ _ _ _ Hw bp nId Hn) as (x & Hx & _ & ->). congruence.
  - intros _. split; [left; by apply elem_of_union_l, elem_of_singleton |]. unfold ADDRMAN_NEW_BUCKETS_PER_ADDRESS. lia.
  - rewrite Hf. cbn. lia.
  - unfold untried. rewrite Hf. cbn. lia.
Qed.

(** An entry enters the tried table. *)
Lemma mark_ok X d s nId i : wf X d k s -> mapInfo s !! nId = Some i -> fInTried i = false -> nRefCount i = 0 -> nLastSuccess i <> 0 -> vvTried s !! tried_at s i = None ->
  wf (X ∖ {[nId]}) (d - 1) k (set_info (with_tried s (nTried s + 1) (<[tried_at s i := nId]> (vvTried s))) nId (set_in_tried i true)).
Proof.
  intros Hw Hi Hf Hr Hs Hb. destruct (wf_info _ _ _ _ Hw nId i Hi) as [A1 A2 A3 A4 A5 A6 A7].
  apply (change_ok X _ d (d - 1) s nId i _ (<[tried_at s i := nId]> (vvTried s)) (nNew s) (vvNew s) (nTried s + 1) (nLastGood s)); cbn [set_in_tried info_service address nRandomPos nRefCount fInTried nLastSuccess]; try done.
  - by destruct A4; split.
  - intros n Hne ?. apply elem_of_difference. split; [done |]. by rewrite elem_of_singleton.
  - intros b p Hn. exfalso. enough (E : (nId =? nId) = false) by (by rewrite Z.eqb_refl in E). apply (cnt_zero (Z.eqb nId) (vvNew s) (b, p)); [unfold refs in A5; lia | done].
  - intros bp n Hne. rewrite lookup_insert_Some. split; [intros [[_ ?] | [_ ?]]; congruence |]. intros Hn. right. split; [| done]. intros <-. congruence.
  - intros bp Hn. apply lookup_insert_Some in Hn as [[<- _] | [_ Hn]]; [done |]. destruct (wf_tried _ _ _ _ Hw bp nId Hn) as (x & Hx & _ & ->). by simplify_eq.
  - intros _. split; [done |]. split; [done |]. apply lookup_insert_eq.
  - rewrite Hf. cbn. lia.
  - unfold untried. rewrite Hf. cbn. lia.
Qed.

(** ** Random order *)

Lemma length_bound X d s : wf X d k s -> Zlen (vRandom s) <= INT_MAX.
Proof. intros Hw. destruct (wf_ids _ _ _ _ Hw). lia. Qed.

Lemma swap_lookup (l : list Z) n1 n2 x1 x2 m : l !! n1 = Some x1 -> l !! n2 = Some x2 -> n1 <> n2 ->
  <[n2 := x1]> (<[n1 := x2]> l) !! m = if decide (m = n1) then Some x2 else if decide (m = n2) then Some x1 else l !! m.
Proof.
  intros H1 H2 Hne. pose proof (lookup_lt_Some _ _ _ H1). pose proof (lookup_lt_Some _ _ _ H2). destruct (decide (m = n1)) as [-> | Hm1].
  - rewrite list_lookup_insert_ne by done. by rewrite list_lookup_insert_eq by lia.
  - destruct (decide (m = n2)) as [-> | Hm2]; [rewrite list_lookup_insert_eq by (rewrite length_insert; lia); done |]. by rewrite !list_lookup_insert_ne by done.
Qed.

(** Entries that differ in their position at most. *)
Definition erase_pos (i : CAddrInfo) : CAddrInfo := set_random_pos i 0.

Definition moved (m m' : gmap Z CAddrInfo) : Prop := erase_pos <$> m' = erase_pos <$> m.

Lemma erase_pos_eq x y : erase_pos y = erase_pos x -> y = set_random_pos x (nRandomPos y).
Proof. destruct x, y. unfold erase_pos, set_random_pos. cbn. intros [= -> -> -> -> -> -> -> ->]. done. Qed.

Lemma moved_lookup m m' n x : moved m m' -> m !! n = Some x -> exists p, m' !! n = Some (set_random_pos x p).
Proof.
  intros E Hx. pose proof (f_equal (fun m => m !! n) E) as En. cbv beta in En. rewrite !lookup_fmap, Hx in En. destruct (m' !! n) as [y |]; [| done].
  injection En as En. exists (nRandomPos y). by rewrite <- (erase_pos_eq x y) by (by unfold erase_pos, set_random_pos; f_equal).
Qed.

Lemma moved_sym m m' : moved m m' -> moved m' m.
Proof. unfold moved. congruence. Qed.

Lemma cnt_moved (P : CAddrInfo -> bool) m m' : (forall i, P (erase_pos i) = P i) -> moved m m' -> cnt P m' = cnt P m.
Proof.
  intros HP E. assert (H : forall m : gmap Z CAddrInfo, cnt P (erase_pos <$> m) = cnt P m); [| by rewrite <- (H m), <- (H m'), E].
  intros m0. unfold cnt. rewrite map_filter_fmap, map_size_fmap. do 2 f_equal. apply map_filter_ext. intros n x _. cbn. by rewrite HP.
Qed.

(** The positions of the entries change. *)
Lemma moved_ok X d s m v : wf X d k s -> moved (mapInfo s) m -> length v = length (vRandom s) ->
  (forall n x, m !! n = Some x -> 0 <= nRandomPos x /\ v !! Z.to_nat (nRandomPos x) = Some n) ->
  (forall n nId, v !! n = Some nId -> exists x, m !! nId = Some x /\ nRandomPos x = Z.of_nat n) -> wf X d k (with_random (with_infos s m) v).
Proof.
  intros Hw Hm Hl Hpos Hv. destruct Hw as [W1 W2 W3 W4 W5 W6 W7 W8 W9 W10].
  assert (Hlook : forall n x, mapInfo s !! n = Some x -> exists p, m !! n = Some (set_random_pos x p)) by (intros n x; by apply moved_lookup).
  split; cbn; try done.
  - intros n y Hy. destruct (moved_lookup _ _ n y (moved_sym _ _ Hm) Hy) as [p Hx]. destruct (W1 n _ Hx) as [A1 A2 A3 A4 A5 A6 A7]. split; try done; [by apply Hpos | by destruct A4; split].
  - intros a n Hn. destruct (W2 a n Hn) as (x & Hx & <-). destruct (Hlook n x Hx) as [p Hp]. by eexists.
  - intros bp n Hn. destruct (W4 bp n Hn) as (x & Hx & Hf & ->). destruct (Hlook n x Hx) as [p Hp]. by eexists.
  - intros b p n Hn. destruct (W5 b p n Hn) as (x & Hx & Hf & Hb & ->). destruct (Hlook n x Hx) as [p Hp]. by eexists.
  - by rewrite (cnt_moved _ (mapInfo s)).
  - by rewrite (cnt_moved _ (mapInfo s)).
  - unfold Zlen in *. rewrite Hl, W8. f_equal. rewrite <- (map_size_fmap erase_pos m), <- (map_size_fmap erase_pos (mapInfo s)). by rewrite Hm.
  - unfold Zlen in *. by rewrite Hl.
Qed.

Lemma SwapRandom_ok X d s p1 p2 : wf X d k s -> 0 <= p1 < Zlen (vRandom s) -> 0 <= p2 < Zlen (vRandom s) ->
  exists v m, SwapRandom s p1 p2 = Ret (with_random (with_infos s m) v) /\ wf X d k (with_random (with_infos s m) v) /\
    length v = length (vRandom s) /\ v !! Z.to_nat p2 = vRandom s !! Z.to_nat p1 /\ v !! Z.to_nat p1 = vRandom s !! Z.to_nat p2 /\ moved (mapInfo s) m.
Proof.
  intros Hw H1 H2. unfold SwapRandom. destruct (p1 =? p2) eqn:E; bool_to_prop.
  { subst p2. exists (vRandom s), (mapInfo s). assert (Es : with_random (with_infos s (mapInfo s)) (vRandom s) = s) by (by destruct s). rewrite Es. by split. }
  unfold Zlen in *. destruct (lookup_lt_is_Some_2 (vRandom s) (Z.to_nat p1) ltac:(lia)) as [id1 L1]. destruct (lookup_lt_is_Some_2 (vRandom s) (Z.to_nat p2) ltac:(lia)) as [id2 L2]. rewrite L1, L2.
  destruct (wf_random _ _ _ _ Hw _ _ L1) as (i1 & M1 & R1). destruct (wf_random _ _ _ _ Hw _ _ L2) as (i2 & M2 & R2). assert (Hne : id1 <> id2) by (intros ->; simplify_eq; lia).
  unfold info_at. rewrite M1, M2. cbn [obind]. cbn [set_info with_infos mapInfo]. rewrite lookup_insert_ne by done. rewrite M2. cbn [obind]. eexists _, _. split; [reflexivity |].
  pose proof (length_bound X d s Hw) as Hlen. unfold Zlen in Hlen. rewrite !int32_id by (unfold INT_MAX in *; lia).
  set (m := <[id2 := _]> _). set (v := <[_ := _]> _). assert (Hv : forall n, v !! n = if decide (n = Z.to_nat p1) then Some id2 else if decide (n = Z.to_nat p2) then Some id1 else vRandom s !! n) by (intros n; apply swap_lookup; [done | done | lia]).
  assert (Hm : forall n, m !! n = if decide (n = id2) then Some (set_random_pos i2 p1) else if decide (n = id1) then Some (set_random_pos i1 p2) else mapInfo s !! n).
  { intros n. unfold m. cbn. destruct (decide (n = id2)) as [-> | ?]; [by rewrite lookup_insert_eq |]. rewrite lookup_insert_ne by done. destruct (decide (n = id1)) as [-> | ?]; [by rewrite lookup_insert_eq | by rewrite lookup_insert_ne]. }
  assert (Hmoved : moved (mapInfo s) m).
  { apply map_eq. intros n. rewrite !lookup_fmap, Hm. destruct (decide (n = id2)) as [-> |]; [by rewrite M2 |]. destruct (decide (n = id1)) as [-> |]; [by rewrite M1 | done]. }
  split; [| split; [unfold v; cbn; by rewrite !length_insert | split; [rewrite Hv, decide_False by lia; rewrite decide_True by done; done | split; [rewrite Hv, decide_True by done; done |]]]].
  - apply moved_ok; try done.
    + unfold v. cbn. by rewrite !length_insert.
    + intros n x. rewrite Hm. destruct (decide (n = id2)) as [-> |]; [intros [= <-]; cbn; split; [lia |]; by rewrite Hv, decide_True |].
      destruct (decide (n = id1)) as [-> | ?]; [intros [= <-]; cbn; split; [lia |]; by rewrite Hv, decide_False, decide_True by lia |].
      intros Hx. destruct (io_pos _ _ _ _ _ (wf_info _ _ _ _ Hw n x Hx)) as [? Hp]. split; [done |]. rewrite Hv, !decide_False; [done | intros E'; rewrite E' in Hp; congruence ..].
    + intros n id. rewrite Hv. destruct (decide (n = Z.to_nat p1)) as [-> |]; [intros [= <-]; rewrite Hm, decide_True by done; eexists; split; [done | cbn; lia] |].
      destruct (decide (n = Z.to_nat p2)) as [-> |]; [intros [= <-]; rewrite Hm, decide_False, decide_True by done; eexists; split; [done | cbn; lia] |].
      intros Hn. destruct (wf_random _ _ _ _ Hw _ _ Hn) as (x & Hx & Rx). exists x. split; [| done]. rewrite Hm, !decide_False; [done | intros ->; simplify_eq; lia ..].
  - done.
Qed.

(** ** Removing entries *)

(** An entry without references at the last position is removed. *)
Lemma remove_ok X d s nId i : wf X d k s -> mapInfo s !! nId = Some i -> fInTried i = false -> nRefCount i = 0 -> nRandomPos i = Zlen (vRandom s) - 1 ->
  wf (X ∖ {[nId]}) d k (MkAddrMan (nKey s) (nIdCount s) (delete nId (mapInfo s)) (delete (info_ip i) (mapAddr s))
    (take (length (vRandom s) - 1) (vRandom s)) (nTried s) (vvTried s) (nNew s - 1) (vvNew s) (nLastGood s)).
Proof.
  intros Hw Hi Hf Hr Hp. pose proof (wf_info _ _ _ _ Hw nId i Hi) as [A1 A2 A3 A4 A5 A6 A7]. destruct Hw as [W1 W2 W3 W4 W5 W6 W7 W8 W9 W10].
  assert (Hkeep : forall n x, mapInfo s !! n = Some x -> n <> nId -> delete nId (mapInfo s) !! n = Some x) by (intros; by rewrite lookup_delete_ne).
  assert (Hsize := map_size_delete_Some _ _ (mk_is_Some _ _ Hi)). assert (Hpos : 1 <= Zlen (vRandom s)) by (destruct A3 as [? Hl]; apply lookup_lt_Some in Hl; unfold Zlen; lia).
  assert (Hlast : forall n, n <> nId -> forall p, 0 <= p -> vRandom s !! Z.to_nat p = Some n -> (Z.to_nat p < length (vRandom s) - 1)%nat).
  { intros n Hne p Hp0 Hn. pose proof (lookup_lt_Some _ _ _ Hn). unfold Zlen in *. destruct (decide (p = nRandomPos i)) as [-> | ?]; [destruct A3; congruence | lia]. }
  split; cbn; try done.
  - intros n x Hx. apply lookup_delete_Some in Hx as [Hne Hx]. destruct (W1 n x Hx) as [B1 B2 [B3 B3'] B4 B5 B6 B7]. split; cbn; try done.
    + rewrite lookup_delete_ne; [done |]. intros E. rewrite E in A2. congruence.
    + split; [done |]. rewrite lookup_take_lt; [done |]. apply (Hlast n); done.
    + intros Hfx. destruct (B7 Hfx) as [[? | ?] ?]; (split; [| done]); [left; apply elem_of_difference; split; [done | by rewrite elem_of_singleton] | by right].
  - intros a n Hn. apply lookup_delete_Some in Hn as [Hne Hn]. destruct (W2 a n Hn) as (x & Hx & <-). exists x. split; [| done]. apply Hkeep; [done |]. intros ->. congruence.
  - intros p n Hn. apply lookup_take_Some in Hn as [Hn Hlt]. destruct (W3 p n Hn) as (x & Hx & Rx). exists x. split; [| done]. apply Hkeep; [done |]. intros ->. simplify_eq. unfold Zlen in *. lia.
  - intros bp n Hn. destruct (W4 bp n Hn) as (x & Hx & Hfx & ->). exists x. split; [| done]. apply Hkeep; [done |]. intros ->. congruence.
  - intros b p n Hn. destruct (W5 b p n Hn) as (x & Hx & Hfx & Hb & ->). exists x. split; [| done]. apply Hkeep; [done |]. intros ->. simplify_eq.
    enough (E : (nId =? nId) = false) by (by rewrite Z.eqb_refl in E). apply (cnt_zero (Z.eqb nId) (vvNew s) _ _ ltac:(unfold refs in A5; lia) Hn).
  - rewrite (cnt_delete _ _ _ i) by done. rewrite Hf. cbn. lia.
  - rewrite (cnt_delete _ _ _ i) by done. unfold untried at 2. rewrite Hf. cbn. lia.
  - unfold Zlen in *. rewrite length_take. lia.
  - unfold Zlen in *. rewrite length_take. lia.
Qed.

(** What [Delete] and [ClearNew] do to the entries they do not remove. *)
Lemma Delete_ok X d s nId i : wf X d k s -> mapInfo s !! nId = Some i -> fInTried i = false -> nRefCount i = 0 ->
  exists s', Delete s nId = Ret s' /\ wf (X ∖ {[nId]}) d k s' /\ vvNew s' = vvNew s /\ vvTried s' = vvTried s /\ nKey s' = nKey s /\ nNew s' = nNew s - 1 /\
    nIdCount s' = nIdCount s /\ (forall n x, n <> nId -> mapInfo s !! n = Some x -> exists p, mapInfo s' !! n = Some (set_random_pos x p)).
Proof.
  intros Hw Hi Hf Hr. unfold Delete, info_at. rewrite Hi. cbn [obind]. rewrite Hf, Hr. cbn [negb cassert obind Z.eqb].
  destruct (wf_info _ _ _ _ Hw nId i Hi) as [A1 A2 [A3 A3'] A4 A5 A6 A7]. pose proof (lookup_lt_Some _ _ _ A3') as Hlt. pose proof (length_bound X d s Hw) as Hlen. unfold Zlen, INT_MAX in *.
  rewrite !uint32_id by lia. destruct (SwapRandom_ok X d s (nRandomPos i) (Z.of_nat (length (vRandom s)) - 1) Hw ltac:(unfold Zlen; lia) ltac:(unfold Zlen; lia)) as (v & m & -> & Hw' & Hl & Hv1 & Hv2 & Hm).
  cbn [obind]. eexists. split; [reflexivity |]. destruct (moved_lookup _ _ nId i Hm Hi) as [p Hp].
  assert (Ep : p = Zlen v - 1).
  { rewrite A3' in Hv1. destruct (wf_random _ _ _ _ Hw' _ nId Hv1) as (x & Hx & Rx). cbn in Hx. rewrite Hp in Hx. injection Hx as <-. cbn in Rx. unfold Zlen. rewrite Hl. lia. }
  split; [apply (remove_ok X d _ nId (set_random_pos i p) Hw' Hp Hf Hr Ep) |]. split_and!; try done.
  intros n x Hne Hx. destruct (moved_lookup _ _ n x Hm Hx) as [q Hq]. exists q. cbn. by rewrite lookup_delete_ne.
Qed.

Lemma wf_weaken X X' d s : wf X d k s -> (forall n x, n ∈ X -> mapInfo s !! n = Some x -> fInTried x = false -> n ∈ X' \/ 1 <= nRefCount x) -> wf X' d k s.
Proof.
  intros [W1 W2 W3 W4 W5 W6 W7 W8 W9 W10] HX. split; try done. intros n x Hx. destruct (W1 n x Hx) as [A1 A2 A3 A4 A5 A6 A7]. split; try done.
  intros Hf. destruct (A7 Hf) as [[Hin | ?] ?]; (split; [| done]); [by apply (HX n x) | by right].
Qed.

Lemma slot_new X d s b p : wf X d k s -> slot (vvNew s) b p = -1 /\ vvNew s !! (b, p) = None \/
  exists nId i, slot (vvNew s) b p = nId /\ vvNew s !! (b, p) = Some nId /\ mapInfo s !! nId = Some i /\ 0 <= nId.
Proof.
  intros Hw. unfold slot. destruct (vvNew s !! (b, p)) as [nId |] eqn:E; [| by left]. right. destruct (wf_new _ _ _ _ Hw b p nId E) as (i & Hi & _). exists nId, i.
  split; [done |]. split; [done |]. split; [done |]. by destruct (io_id _ _ _ _ _ (wf_info _ _ _ _ Hw nId i Hi)).
Qed.

Lemma ClearNew_ok X d s b p : wf X d k s -> (forall n, n ∈ X -> refs (vvNew s) n = 0) ->
  exists s', ClearNew s b p = Ret s' /\ wf X d k s' /\ vvNew s' = delete (b, p) (vvNew s) /\ vvTried s' = vvTried s /\ nKey s' = nKey s /\ nIdCount s' = nIdCount s /\
    (forall n x, vvNew s !! (b, p) <> Some n -> mapInfo s !! n = Some x -> exists q, mapInfo s' !! n = Some (set_random_pos x q)).
Proof.
  intros Hw HX. unfold ClearNew. destruct (slot_new X d s b p Hw) as [[-> Hn] | (nId & i & -> & Hb & Hi & Hid)].
  { cbn [Z.eqb Z.opp Pos.eqb]. exists s. split; [done |]. split; [done |]. split; [by rewrite delete_id |]. do 3 (split; [done |]). intros n x _ Hx. exists (nRandomPos x). rewrite Hx. by destruct x. }
  rewrite (proj2 (Z.eqb_neq nId (-1))) by lia. unfold info_at. rewrite Hi. cbn [obind]. destruct (drop_ref_ok X d s nId i (b, p) Hw Hi Hb) as (Hw1 & Hf & Hr).
  rewrite Z.gtb_ltb, (proj2 (Z.ltb_lt 0 _)) by lia. cbn [cassert obind]. change (with_new (set_info s _ _) _ _) with (drop_ref s nId i (b, p)).
  assert (Hi1 : mapInfo (drop_ref s nId i (b, p)) !! nId = Some (set_ref_count i (nRefCount i - 1))) by apply lookup_insert_eq.
  assert (Hother : forall n x, n <> nId -> mapInfo s !! n = Some x -> mapInfo (drop_ref s nId i (b, p)) !! n = Some x) by (intros; cbn; by rewrite lookup_insert_ne).
  assert (HnX : nId ∉ X) by (intros Hin; destruct (wf_info _ _ _ _ Hw nId i Hi); specialize (HX nId Hin); lia).
  cbn [set_ref_count nRefCount]. destruct (nRefCount i - 1 =? 0) eqn:Ez; bool_to_prop.
  - destruct (Delete_ok _ d _ nId _ Hw1 Hi1 Hf Ez) as (s' & -> & Hw2 & E1 & E2 & E3 & E4 & E5 & Hm). exists s'. split; [done |]. split; [| do 4 (split; [done |])].
    + apply (wf_weaken _ _ _ _ Hw2). intros n x Hin _ _. left. apply elem_of_difference in Hin as [[Hin | Hin]%elem_of_union Hne]; [done | done].
    + intros n x Hne Hx. apply Hm; [congruence |]. apply Hother; [congruence | done].
  - eexists. split; [reflexivity |]. split; [| do 4 (split; [done |])].
    + apply (wf_weaken _ _ _ _ Hw1). intros n x Hin Hx _. apply elem_of_union in Hin as [->%elem_of_singleton | Hin]; [| by left]. right. rewrite Hi1 in Hx. injection Hx as <-. cbn. lia.
    + intros n x Hne Hx. exists (nRandomPos x). rewrite (Hother n x); [by destruct x | congruence | done].
Qed.

(** ** Moving to the tried table *)

Lemma leave_bucket_ok X d s nId i b : wf X d k s -> mapInfo s !! nId = Some i -> fInTried i = false -> nId ∈ X ->
  exists s' i', leave_bucket nId (Ret s) b = Ret s' /\ wf X d k s' /\ mapInfo s' !! nId = Some i' /\ info_service i' = info_service i /\ fInTried i' = false /\
    nLastSuccess i' = nLastSuccess i /\ nKey s' = nKey s /\ vvNew s' !! (b, GetBucketPosition (info_service i) (nKey s) true b) <> Some nId /\
    (forall bp, vvNew s' !! bp = Some nId -> vvNew s !! bp = Some nId) /\ nNew s' = nNew s.
Proof.
  intros Hw Hi Hf Hin. unfold leave_bucket. cbn [obind]. unfold info_at. rewrite Hi. cbn [obind]. set (p := GetBucketPosition _ _ _ _). destruct (slot_new X d s b p Hw) as [[-> Hn] | (m & j & -> & Hb & Hj & Hid)].
  - rewrite (proj2 (Z.eqb_neq (-1) nId)) by (destruct (wf_info _ _ _ _ Hw nId i Hi); lia). exists s, i. split_and!; try done. congruence.
  - destruct (m =? nId) eqn:E; bool_to_prop; [subst m | exists s, i; split_and!; try done; congruence].
    destruct (drop_ref_ok X d s nId i (b, p) Hw Hi Hb) as (Hw1 & _ & Hr). eexists _, _. split; [reflexivity |]. split; [apply (wf_weaken _ _ _ _ Hw1); intros n x Hn _ _; left; apply elem_of_union in Hn as [->%elem_of_singleton | ?]; done |].
    split; [apply lookup_insert_eq |]. split_and!; try done; cbn.
    + by rewrite lookup_delete_eq.
    + intros bp Hbp. by apply lookup_delete_Some in Hbp as [_ ?].
Qed.

Lemma leave_buckets_ok X d nId l : forall s i, wf X d k s -> mapInfo s !! nId = Some i -> fInTried i = false -> nId ∈ X ->
  exists s' i', foldl (leave_bucket nId) (Ret s) l = Ret s' /\ wf X d k s' /\ mapInfo s' !! nId = Some i' /\ info_service i' = info_service i /\ fInTried i' = false /\
    nLastSuccess i' = nLastSuccess i /\ nKey s' = nKey s /\ (forall b, b ∈ l -> vvNew s' !! (b, GetBucketPosition (info_service i) (nKey s) true b) <> Some nId) /\
    (forall bp, vvNew s' !! bp = Some nId -> vvNew s !! bp = Some nId) /\ nNew s' = nNew s.
Proof.
  induction l as [| b l IH]; intros s i Hw Hi Hf Hin; cbn [foldl].
  { exists s, i. split_and!; try done. intros b Hb. by apply elem_of_nil in Hb. }
  destruct (leave_bucket_ok X d s nId i b Hw Hi Hf Hin) as (s1 & i1 & -> & Hw1 & Hi1 & E1 & Hf1 & L1 & K1 & N1 & B1 & C1).
  destruct (IH s1 i1 Hw1 Hi1 Hf1 Hin) as (s2 & i2 & -> & Hw2 & Hi2 & E2 & Hf2 & L2 & K2 & N2 & B2 & C2). exists s2, i2. split_and!; try done; try congruence; [| auto].
  intros b' [-> | Hb]%elem_of_cons; [auto |]. rewrite <- E1, <- K1. by apply N2.
Qed.

(** Nothing in the new table refers to the entry any more. *)
Lemma left_all X d nId s i : wf X d k s -> mapInfo s !! nId = Some i -> fInTried i = false -> nId ∈ X ->
  exists s' i', foldl (leave_bucket nId) (Ret s) (seqZ 0 ADDRMAN_NEW_BUCKET_COUNT) = Ret s' /\ wf X d k s' /\ mapInfo s' !! nId = Some i' /\ fInTried i' = false /\
    nLastSuccess i' = nLastSuccess i /\ nRefCount i' = 0 /\ refs (vvNew s') nId = 0.
Proof.
  intros Hw Hi Hf Hin. pose proof (fun b => elem_of_seqZ 0 ADDRMAN_NEW_BUCKET_COUNT b) as Hseq. revert Hseq. generalize (seqZ 0 ADDRMAN_NEW_BUCKET_COUNT). intros l Hseq.
  destruct (leave_buckets_ok X d nId l s i Hw Hi Hf Hin) as (s' & i' & E & Hw' & Hi' & E' & Hf' & L' & K' & N' & _).
  exists s', i'. assert (Hz : refs (vvNew s') nId = 0); [| split_and!; try done; by rewrite (io_refs _ _ _ _ _ (wf_info _ _ _ _ Hw' nId i' Hi'))].
  pose proof (cnt_nonneg (Z.eqb nId) (vvNew s')). unfold refs in *. destruct (Z.eq_dec (cnt (Z.eqb nId) (vvNew s')) 0) as [| Hne]; [done |]. exfalso.
  destruct (cnt_pos (Z.eqb nId) (vvNew s') ltac:(lia)) as ([b p] & x & Hx & ->%Z.eqb_eq). destruct (wf_new _ _ _ _ Hw' b p _ Hx) as (j & Hj & _ & Hb & ->).
  rewrite Hi' in Hj. injection Hj as <-. rewrite E', K' in Hx. apply (N' b); [apply Hseq; lia | exact Hx].
Qed.

Lemma no_slot t nId bp : refs t nId = 0 -> t !! bp <> Some nId.
Proof. intros Hz E. enough (F : (nId =? nId) = false) by (by rewrite Z.eqb_refl in F). by apply (cnt_zero (Z.eqb nId) t bp). Qed.

Lemma reenter_ok X d s e j ub up nId i : wf X (d + 1) k s -> (forall n, n ∈ X -> refs (vvNew s) n = 0) -> e ∈ X -> nId ∈ X -> nId <> e ->
  mapInfo s !! e = Some j -> mapInfo s !! nId = Some i -> fInTried j = false -> nRefCount j = 0 ->
  0 <= ub < ADDRMAN_NEW_BUCKET_COUNT -> up = GetBucketPosition (info_service j) (nKey s) true ub ->
  exists s', reenter s e ub up = Ret s' /\ wf (X ∖ {[e]}) d k s' /\ vvTried s' = vvTried s /\ nKey s' = nKey s /\ exists q, mapInfo s' !! nId = Some (set_random_pos i q).
Proof.
  intros Hw HX He Hin Hne Hj Hi Hf Hr Hub Hup. unfold reenter. destruct (ClearNew_ok X _ s ub up Hw HX) as (s2 & E2 & Hw2 & N2 & T2 & K2 & _ & M2).
  destruct (M2 e j (no_slot _ _ _ (HX e He)) Hj) as [q Hq]. destruct (M2 nId i (no_slot _ _ _ (HX nId Hin)) Hi) as [q' Hq']. rewrite E2. cbn [obind].
  assert (Hempty : vvNew s2 !! (ub, up) = None) by (rewrite N2; apply lookup_delete_eq). assert (Es2 : slot (vvNew s2) ub up = -1) by (unfold slot; by rewrite Hempty).
  rewrite Es2. cbn [cassert Z.eqb Z.opp Pos.eqb obind]. unfold info_at. rewrite Hq. cbn [obind]. eexists. split; [reflexivity |]. split; [| split; [exact T2 | split; [exact K2 |]]].
  - pose proof (add_ref_ok X (d + 1) d s2 e (set_random_pos j q) ub up (nNew s2 + 1) Hw2 Hq Hempty Hf) as Ha. rewrite K2 in Ha. cbn [set_random_pos nRefCount] in Ha. rewrite Hr in Ha.
    apply Ha; [reflexivity | exact Hub | exact Hup | lia].
  - exists q'. cbn. by rewrite lookup_insert_ne.
Qed.

Lemma evict_ok X d s b p nId i : wf X d k s -> (forall n, n ∈ X -> refs (vvNew s) n = 0) -> nId ∈ X -> mapInfo s !! nId = Some i -> fInTried i = false ->
  exists s', evict s b p = Ret s' /\ wf X d k s' /\ vvTried s' !! (b, p) = None /\ nKey s' = nKey s /\ exists q, mapInfo s' !! nId = Some (set_random_pos i q).
Proof.
  intros Hw HX Hin Hi Hf. unfold evict. assert (Es : slot (vvTried s) b p = default (-1) (vvTried s !! (b, p))) by done. destruct (vvTried s !! (b, p)) as [e |] eqn:Eb; cbn in Es; rewrite Es.
  2: { cbn [Z.eqb Z.opp Pos.eqb]. exists s. split; [done |]. split; [done |]. split; [done |]. split; [done |]. exists (nRandomPos i). rewrite Hi. by destruct i. }
  destruct (wf_tried _ _ _ _ Hw (b, p) e Eb) as (j & Hj & Hfj & _). destruct (wf_info _ _ _ _ Hw e j Hj) as [He _ _ _ _ _ _]. rewrite (proj2 (Z.eqb_neq e (-1))) by lia.
  unfold info_at. rewrite Hj. cbn [obind]. assert (Hne : nId <> e) by (intros ->; congruence). destruct (unmark_ok X d s e j (b, p) Hw Hj Eb) as (Hw1 & Hrj & Hze).
  cbn [set_info with_infos nTried vvTried]. set (s1 := with_tried _ _ _) in *. assert (Kk : nKey s1 = nKey s) by done. assert (HX1 : forall n, n ∈ {[e]} ∪ X -> refs (vvNew s1) n = 0).
  { intros n [->%elem_of_singleton | Hn]%elem_of_union; [exact Hze | by apply HX]. }
  destruct (reenter_ok _ d s1 e (set_in_tried j false) (GetNewBucket (info_service j) (nKey s1) (source j)) _ nId i Hw1 HX1
    (elem_of_union_l _ _ _ (proj2 (elem_of_singleton _ _) eq_refl)) (elem_of_union_r _ _ _ Hin) Hne (lookup_insert_eq _ _ _) (eq_trans (lookup_insert_ne _ _ _ _ (not_eq_sym Hne)) Hi) eq_refl Hrj
    (GetNewBucket_range _ _ _) eq_refl) as (s2 & E2 & Hw2 & T2 & K2 & Hq).
  change (info_service (set_in_tried j false)) with (info_service j) in E2. exists s2. split; [exact E2 |]. split; [| split; [rewrite T2; apply lookup_delete_eq | split; [by rewrite K2 | exact Hq]]].
  apply (wf_weaken _ _ _ _ Hw2). intros n x Hn _ _. left. apply elem_of_difference in Hn as [[Hn | Hn]%elem_of_union Hne']; done.
Qed.

Lemma wf_new_count X d d' s n : wf X d k s -> n + d' = nNew s + d -> wf X d' k (with_new s n (vvNew s)).
Proof. intros [W1 W2 W3 W4 W5 W6 W7 W8 W9 W10] E. split; try done; [| cbn; lia]. intros m x Hx. by destruct (W1 m x Hx). Qed.

Lemma MakeTried_ok s nId i : wf ∅ 0 k s -> mapInfo s !! nId = Some i -> fInTried i = false -> nLastSuccess i <> 0 -> exists s', MakeTried s nId = Ret s' /\ wf ∅ 0 k s'.
Proof.
  intros Hw Hi Hf Hs. unfold MakeTried. assert (Hw0 : wf {[nId]} 0 k s) by (apply (wf_weaken _ _ _ _ Hw); set_solver).
  destruct (left_all {[nId]} 0 nId s i Hw0 Hi Hf ltac:(set_solver)) as (s1 & i1 & -> & Hw1 & Hi1 & Hf1 & L1 & R1 & Z1). cbn [obind]. set (s2 := with_new _ _ _).
  assert (Hw2 : wf {[nId]} 1 k s2) by (apply (wf_new_count _ _ _ _ _ Hw1); lia). assert (Hi2 : mapInfo s2 !! nId = Some i1) by exact Hi1. unfold info_at at 1. rewrite Hi2. cbn [obind].
  rewrite R1. cbn [cassert Z.eqb obind]. set (b := GetTriedBucket _ _). set (p := GetBucketPosition _ _ _ _).
  destruct (evict_ok {[nId]} 1 s2 b p nId i1 Hw2) as (s3 & -> & Hw3 & T3 & K3 & q & Hq); [by intros n ->%elem_of_singleton | set_solver | done | done |]. cbn [obind].
  assert (Es : slot (vvTried s3) b p = -1) by (unfold slot; by rewrite T3). rewrite Es. cbn [cassert Z.eqb Z.opp Pos.eqb obind]. unfold info_at. rewrite Hq. cbn [obind]. eexists. split; [reflexivity |].
  assert (Ebp : tried_at s3 (set_random_pos i1 q) = (b, p)) by (unfold tried_at; rewrite K3; reflexivity). rewrite <- Ebp in T3 |- *.
  pose proof (mark_ok {[nId]} 1 s3 nId (set_random_pos i1 q) Hw3 Hq Hf1 R1 ltac:(cbn; congruence) T3) as Hw4. apply (wf_weaken _ _ _ _ Hw4). intros n x Hn _ _. set_solver.
Qed.

(** ** Entering the new table *)

Lemma int64_value_ret x : INT64_MIN <= x <= INT64_MAX -> int64_value x = Ret x.
Proof. intros H. unfold int64_value. by rewrite (proj2 (Z.leb_le _ _)), (proj2 (Z.leb_le _ _)) by lia. Qed.

Lemma IsTerrible_ret i now : stats_ok k i -> 0 <= now <= 2 ^ 62 -> exists b, IsTerrible i now = Ret b.
Proof.
  intros [S1 [S2 S2'] S3 S4] Hnow. unfold INT64_MAX in *. unfold IsTerrible. rewrite !int64_value_ret by (unfold INT64_MIN, INT64_MAX; lia). cbn [obind].
  destruct (nLastTry i =? 0); cbn [obind]; [| destruct (_ >=? _); [by eexists |]]; (destruct (_ >? _); [by eexists |]);
    (destruct (nTime (address i) =? 0); cbn [obind]; [by eexists |]); (destruct (_ >? _); [by eexists |]); (destruct (_ && _); by eexists).
Qed.

Lemma enter_new_ok X s nId i src now : wf X 0 k s -> (forall n, n ∈ X -> n = nId) -> (nId ∈ X -> nRefCount i = 0) -> mapInfo s !! nId = Some i -> fInTried i = false ->
  nRefCount i < ADDRMAN_NEW_BUCKETS_PER_ADDRESS -> 0 <= now <= 2 ^ 62 -> exists s', enter_new s nId src now = Ret s' /\ wf ∅ 0 k s'.
Proof.
  intros Hw HX HnX Hi Hf Hr Hnow. pose proof (wf_info _ _ _ _ Hw nId i Hi) as [A1 A2 A3 A4 A5 A6 A7]. unfold enter_new, info_at at 1. rewrite Hi. cbn [obind].
  pose proof (GetNewBucket_range (info_service i) (nKey s) src) as Hub. revert Hub. generalize (GetNewBucket (info_service i) (nKey s) src). intros ub Hub.
  remember (GetBucketPosition (info_service i) (nKey s) true ub) as up eqn:Hup.
  assert (Hkeep : 1 <= nRefCount i -> wf ∅ 0 k s) by (intros; apply (wf_weaken _ _ _ _ Hw); intros n x Hn Hx _; right; rewrite (HX n Hn) in Hx; by simplify_eq).
  assert (HXr : forall n, n ∈ X -> refs (vvNew s) n = 0) by (intros n Hn; pose proof (HX n Hn) as ->; rewrite <- A5; auto).
  assert (Hno : vvNew s !! (ub, up) <> Some nId -> exists s', (let? s := ClearNew s ub up in let? info := info_at s nId in
    Ret (with_new (set_info s nId (set_ref_count info (nRefCount info + 1))) (nNew s) (<[(ub, up) := nId]> (vvNew s)))) = Ret s' /\ wf ∅ 0 k s').
  { intros Hne. destruct (ClearNew_ok X 0 s ub up Hw HXr) as (s1 & -> & Hw1 & N1 & _ & K1 & _ & M1). destruct (M1 nId i Hne Hi) as [q Hq]. cbn [obind]. unfold info_at. rewrite Hq. cbn [obind]. eexists. split; [reflexivity |].
    pose proof (add_ref_ok X 0 0 s1 nId _ ub up (nNew s1) Hw1 Hq ltac:(rewrite N1; apply lookup_delete_eq) Hf Hr Hub ltac:(rewrite K1; exact Hup) eq_refl) as Hw2.
    apply (wf_weaken _ _ _ _ Hw2). intros n x [Hn Hn']%elem_of_difference _ _. exfalso. apply Hn', elem_of_singleton, HX, Hn. }
  destruct (slot_new X 0 s ub up Hw) as [[-> Hn] | (m & j & -> & Hb & Hj & Hid)].
  { rewrite (proj2 (Z.eqb_neq (-1) nId)) by lia. cbn [obind Z.eqb Z.opp Pos.eqb]. apply Hno. congruence. }
  destruct (m =? nId) eqn:Em; bool_to_prop.
  { subst m. exists s. split; [done |]. apply Hkeep. rewrite A5. destruct (Z.le_gt_cases 1 (refs (vvNew s) nId)) as [| Hlt]; [done |].
    pose proof (cnt_nonneg (Z.eqb nId) (vvNew s)). exfalso. apply (no_slot (vvNew s) nId (ub, up)); [unfold refs in *; lia | done]. }
  rewrite (proj2 (Z.eqb_neq m (-1))) by lia. unfold info_at at 1. rewrite Hj. cbn [obind]. destruct (IsTerrible_ret j now) as [b ->]; [by destruct (wf_info _ _ _ _ Hw m j Hj) | done |]. cbn [obind].
  destruct (b || _); [apply Hno; congruence |]. destruct (nRefCount i =? 0) eqn:Ez; bool_to_prop.
  - destruct (Delete_ok X 0 s nId i Hw Hi Hf Ez) as (s' & -> & Hw' & _). exists s'. split; [done |]. apply (wf_weaken _ _ _ _ Hw'). intros n x [Hn Hn']%elem_of_difference _ _. exfalso. apply Hn', elem_of_singleton, HX, Hn.
  - exists s. split; [done |]. apply Hkeep. pose proof (cnt_nonneg (Z.eqb nId) (vvNew s)). unfold refs in A5. lia.
Qed.
End Steps.

(** ** Operations *)

Lemma stats_mono k k' i : k <= k' -> stats_ok k i -> stats_ok k' i.
Proof. intros Hk [S1 S2 S3 S4]. split; try done. lia. Qed.

Lemma wf_mono k k' X d s : k <= k' -> wf X d k s -> wf X d k' s.
Proof.
  intros Hk [W1 W2 W3 W4 W5 W6 W7 W8 W9 W10]. split; try done; [| lia]. intros n x Hx. destruct (W1 n x Hx) as [A1 A2 A3 A4 A5 A6 A7]. split; try done. by apply (stats_mono k).
Qed.

Lemma Find_Some k X d s a nId i : wf X d k s -> Find s a = Some (nId, i) -> mapInfo s !! nId = Some i.
Proof. intros Hw. unfold Find. destruct (mapAddr s !! ip a) as [m |]; [| done]. destruct (mapInfo s !! m) eqn:E; [| done]. by intros [= <- <-]. Qed.

Lemma Find_None k X d s a : wf X d k s -> Find s a = None -> mapAddr s !! ip a = None.
Proof.
  intros Hw. unfold Find. destruct (mapAddr s !! ip a) as [m |] eqn:E; [| done]. destruct (wf_addr _ _ _ _ Hw _ _ E) as (i & -> & _). done.
Qed.

Lemma Create_ok k s addr src : k < INT_MAX -> wf ∅ 0 k s -> mapAddr s !! ip (netaddr (service addr)) = None -> 0 <= nTime addr < 2 ^ 32 ->
  exists nId i s', Create s addr src = Ret (nId, s') /\ mapInfo s' !! nId = Some i /\ wf {[nId]} 1 (k + 1) s' /\ fInTried i = false /\ nRefCount i = 0 /\ address i = addr /\ stats_ok (k + 1) i.
Proof.
  intros Hk Hw Hip Ht. destruct (wf_mono k (k + 1) _ _ _ ltac:(lia) Hw) as [W1 W2 W3 W4 W5 W6 W7 W8 W9 W10]. destruct (wf_ids _ _ _ _ Hw) as [Hlen Hids]. unfold Create.
  rewrite (proj2 (Z.eqb_neq (nIdCount s) INT_MAX)) by lia. pose proof (Zlen_nonneg (vRandom s)) as Hz. rewrite int32_id by (unfold INT_MAX in Hk; lia).
  set (i := set_random_pos (CAddrInfo_new addr src) (Zlen (vRandom s))). set (nId := nIdCount s). eexists nId, i, _. split; [reflexivity |]. split; [apply lookup_insert_eq |].
  assert (Hfresh : mapInfo s !! nId = None) by (destruct (mapInfo s !! nId) as [j |] eqn:E; [| done]; destruct (W1 nId j E); unfold nId in *; lia).
  assert (Hne : forall n x, mapInfo s !! n = Some x -> n <> nId) by (intros n x Hx ->; congruence).
  assert (Hst : stats_ok (k + 1) i) by (split; cbn; unfold INT64_MAX; lia).
  assert (Hrefs : refs (vvNew s) nId = 0).
  { pose proof (cnt_nonneg (Z.eqb nId) (vvNew s)). unfold refs. destruct (Z.eq_dec (cnt (Z.eqb nId) (vvNew s)) 0) as [| Hp]; [done |]. exfalso.
    destruct (cnt_pos (Z.eqb nId) (vvNew s) ltac:(lia)) as ([b p] & x & Hx & <-%Z.eqb_eq). destruct (W5 b p _ Hx) as (j & Hj & _). congruence. }
  split; [| done]. split; cbn; try done.
  - intros n x Hx. apply lookup_insert_Some in Hx as [[<- <-] | [Hn Hx]].
    + split; cbn; try done.
      * unfold nId. lia.
      * unfold info_ip. cbn. apply lookup_insert_eq.
      * split; [done |]. unfold Zlen. rewrite Nat2Z.id. by apply list_lookup_middle.
      * intros _. split; [left; by apply elem_of_singleton | unfold ADDRMAN_NEW_BUCKETS_PER_ADDRESS; lia].
    + destruct (W1 n x Hx) as [A1 A2 [A3 A3'] A4 A5 A6 A7]. split; cbn; try done; try lia.
      * rewrite lookup_insert_ne; [done |]. intros E. rewrite E in Hip. congruence.
      * split; [done |]. by apply lookup_app_l_Some.
      * intros Hf. destruct (A7 Hf) as [[Hn' | ?] ?]; [by apply not_elem_of_empty in Hn' | auto].
  - intros a n Hn. apply lookup_insert_Some in Hn as [[<- <-] | [_ Hn]]; [exists i; split; [apply lookup_insert_eq | done] |].
    destruct (W2 a n Hn) as (x & Hx & <-). exists x. rewrite lookup_insert_ne by (apply not_eq_sym; by apply (Hne n x)). done.
  - intros p n Hn. apply lookup_app_Some in Hn as [Hn | [Hp Hn]].
    + destruct (W3 p n Hn) as (x & Hx & Rx). exists x. rewrite lookup_insert_ne by (apply not_eq_sym; by apply (Hne n x)). done.
    + apply list_lookup_singleton_Some in Hn as [Hp' <-]. exists i. rewrite lookup_insert_eq. split; [done |]. cbn. unfold Zlen. lia.
  - intros bp n Hn. destruct (W4 bp n Hn) as (x & Hx & Hf & ->). exists x. rewrite lookup_insert_ne by (apply not_eq_sym; by apply (Hne n x)). done.
  - intros b p n Hn. destruct (W5 b p n Hn) as (x & Hx & Hf & Hb & ->). exists x. rewrite lookup_insert_ne by (apply not_eq_sym; by apply (Hne n x)). done.
  - rewrite cnt_new by done. cbn. lia.
  - rewrite cnt_new by done. cbn. lia.
  - rewrite map_size_insert_None by done. rewrite Zlen_app. cbn. unfold Zlen in *. cbn. lia.
  - rewrite Zlen_app. unfold Zlen at 2. cbn. lia.
Qed.

(** The times that the callers pass. *)
Definition time_ok (t : Z) : Prop := 0 < t <= 2 ^ 62.

Lemma wf_last_good k X d s g : wf X d k s ->
  wf X d k (MkAddrMan (nKey s) (nIdCount s) (mapInfo s) (mapAddr s) (vRandom s) (nTried s) (vvTried s) (nNew s) (vvNew s) g).
Proof. intros [W1 W2 W3 W4 W5 W6 W7 W8 W9 W10]. split; try done. intros n x Hx. by destruct (W1 n x Hx). Qed.

Lemma Good_ok k s addr time nRnd : k <= INT_MAX -> 0 <= k -> wf ∅ 0 k s -> time_ok time -> exists s', Good_ s addr time nRnd = Ret s' /\ wf ∅ 0 k s'.
Proof.
  intros Hk Hk0 Hw0 Ht. unfold time_ok in Ht. pose proof (wf_last_good k ∅ 0 s time Hw0) as Hw. revert Hw. unfold Good_. generalize (MkAddrMan (nKey s) (nIdCount s) (mapInfo s) (mapAddr s) (vRandom s) (nTried s) (vvTried s) (nNew s) (vvNew s) time).
  clear s Hw0. intros s Hw. destruct (Find s (netaddr addr)) as [[nId i] |] eqn:Ef; [| by exists s]. pose proof (Find_Some _ _ _ _ _ _ _ Hw Ef) as Hi. destruct (service_eqb _ _); cbn [negb]; [| by exists s].
  set (i' := set_tries _ _ _ _ _). assert (Hw' : wf ∅ 0 k (set_info s nId i')).
  { apply (set_info_ok k ∅ 0 s nId i i' (nLastGood s)); try done; [| cbn; lia]. destruct (io_stats _ _ _ _ _ (wf_info _ _ _ _ Hw nId i Hi)) as [S1 S2 S3 S4]. split; cbn; unfold INT64_MAX; try done; lia. }
  destruct (fInTried i') eqn:Hf; [by eexists |]. destruct (find_bucket _ _ _ _ _); [| by eexists].
  apply (MakeTried_ok k Hk _ nId i' Hw'); [apply lookup_insert_eq | done | cbn; lia].
Qed.

Lemma update_announced_ret k i addr penalty now : stats_ok k i -> 0 <= nTime addr < 2 ^ 32 -> 0 <= penalty <= 2 ^ 62 -> 0 <= now <= 2 ^ 62 ->
  exists i', update_announced i addr penalty now = Ret i' /\ stats_ok k i' /\ info_service i' = info_service i /\ fInTried i' = fInTried i /\ nRefCount i' = nRefCount i /\
    nRandomPos i' = nRandomPos i /\ nLastSuccess i' = nLastSuccess i.
Proof.
  intros [S1 S2 S3 S4] Ht Hp Hnow. unfold update_announced. rewrite int64_value_ret by (unfold INT64_MIN, INT64_MAX; lia). cbn [obind].
  set (iv := if _ <? _ then _ else _). assert (Hiv : 0 <= iv <= 86400) by (unfold iv; destruct (_ <? _); lia).
  rewrite (int64_value_ret (nTime addr - iv)) by (unfold INT64_MIN, INT64_MAX; lia). cbn [obind]. rewrite (int64_value_ret (nTime addr - iv - penalty)) by (unfold INT64_MIN, INT64_MAX; lia). cbn [obind].
  assert (Hu : exists u : bool, (if nTime addr =? 0 then Ret false else if nTime (address i) =? 0 then Ret true else Ret (nTime (address i) <? nTime addr - iv - penalty)) = Ret u)
    by (destruct (_ =? _); [by eexists | destruct (_ =? _); by eexists]). destruct Hu as [u ->]. cbn [obind].
  rewrite int64_value_ret by (unfold INT64_MIN, INT64_MAX; lia). destruct u; cbn [obind]; (eexists; split; [reflexivity |]); (split; [split; cbn; try done; apply uint32_range || lia | done]).
Qed.

Lemma Add_ok k s addr src penalty now nRnd : k < INT_MAX -> wf ∅ 0 k s -> 0 <= nTime addr < 2 ^ 32 -> 0 <= penalty <= 2 ^ 62 -> 0 <= now <= 2 ^ 62 ->
  exists b s', Add_ s addr src penalty now nRnd = Ret (b, s') /\ wf ∅ 0 (k + 1) s'.
Proof.
  intros Hk Hw Ht Hp Hnow. pose proof (wf_mono k (k + 1) _ _ _ ltac:(lia) Hw) as Hw1. unfold Add_. destruct (IsRoutable _); cbn [negb]; [| by exists false, s].
  set (pen := if netaddr_eqb _ _ then 0 else penalty). assert (Hpen : 0 <= pen <= 2 ^ 62) by (unfold pen; destruct (netaddr_eqb _ _); lia). clearbody pen.
  destruct (Find s (netaddr (service addr))) as [[nId i] |] eqn:Ef.
  - pose proof (Find_Some _ _ _ _ _ _ _ Hw Ef) as Hi. pose proof (wf_info _ _ _ _ Hw1 nId i Hi) as [A1 A2 A3 A4 A5 A6 A7].
    destruct (update_announced_ret (k + 1) i addr pen now A4 Ht Hpen Hnow) as (i' & -> & S' & E1 & E2 & E3 & E4 & E5). cbn [obind].
    assert (Hw2 : wf ∅ 0 (k + 1) (set_info s nId i')) by (apply (set_info_ok (k + 1) ∅ 0 s nId i i' (nLastGood s)); try done; rewrite E5; intros Hf; by destruct (A6 Hf)).
    destruct (_ || _); [by eexists _, _ |]. destruct (fInTried i') eqn:Hf; [by eexists _, _ |]. destruct (nRefCount i' =? _) eqn:Er; [by eexists _, _ |]. destruct (_ && _); [by eexists _, _ |].
    destruct (enter_new_ok (k + 1) ltac:(lia) ∅ (set_info s nId i') nId i' src now Hw2) as (s' & -> & Hw'); try done; [apply lookup_insert_eq | | by eexists _, _].
    destruct (A7 (eq_sym E2)). apply Z.eqb_neq in Er. rewrite E3 in *. lia.
  - destruct (Create_ok k s addr src Hk Hw (Find_None _ _ _ _ _ Hw Ef) Ht) as (nId & i & s1 & -> & Hi & Hw2 & Hf & Hr & Ha & Hs). cbn [obind]. unfold info_at. rewrite Hi. cbn [obind]. rewrite Ha.
    rewrite int64_value_ret by (unfold INT64_MIN, INT64_MAX; lia). cbn [obind]. set (i' := set_address _ _).
    assert (Hw3 : wf {[nId]} 1 (k + 1) (set_info s1 nId i')).
    { apply (set_info_ok (k + 1) {[nId]} 1 s1 nId i i' (nLastGood s1)); try done; [unfold info_service; cbn; by rewrite Ha | | rewrite Hf; done]. destruct Hs. split; cbn; try done. apply uint32_range. }
    pose proof (wf_new_count (k + 1) _ 1 0 _ (nNew (set_info s1 nId i') + 1) Hw3 ltac:(lia)) as Hw4.
    destruct (enter_new_ok (k + 1) ltac:(lia) {[nId]} _ nId i' src now Hw4) as (s' & -> & Hw'); try done; [by intros n ->%elem_of_singleton | apply lookup_insert_eq | cbn; rewrite Hr; done | by eexists _, _].
Qed.

(** An update of one entry keeps its place. *)
Lemma update_service_ok k k' s addr f : wf ∅ 0 k s -> k <= k' ->
  (forall i, stats_ok k i -> exists i', f i = Ret i' /\ stats_ok k' i' /\ info_service i' = info_service i /\ fInTried i' = fInTried i /\ nRefCount i' = nRefCount i /\
    nRandomPos i' = nRandomPos i /\ nLastSuccess i' = nLastSuccess i) -> exists s', update_service s addr f = Ret s' /\ wf ∅ 0 k' s'.
Proof.
  intros Hw Hkk Hf. pose proof (wf_mono k k' _ _ _ Hkk Hw) as Hw'. unfold update_service. destruct (Find s (netaddr addr)) as [[nId i] |] eqn:Ef; [| by exists s].
  pose proof (Find_Some _ _ _ _ _ _ _ Hw Ef) as Hi. destruct (service_eqb _ _); cbn [negb]; [| by exists s]. destruct (wf_info _ _ _ _ Hw nId i Hi) as [A1 A2 A3 A4 A5 A6 A7].
  destruct (Hf i A4) as (i' & -> & S' & E1 & E2 & E3 & E4 & E5). cbn [obind]. eexists. split; [reflexivity |].
  apply (set_info_ok k' ∅ 0 s nId i i' (nLastGood s)); try done. rewrite E5. intros Hft. by destruct (A6 Hft).
Qed.

Lemma Attempt_ok k s addr b time : k < INT_MAX -> wf ∅ 0 k s -> time_ok time -> exists s', Attempt_ s addr b time = Ret s' /\ wf ∅ 0 (k + 1) s'.
Proof.
  intros Hk Hw Ht. unfold time_ok in Ht. apply (update_service_ok k); [done | lia |]. intros i [S1 S2 S3 S4]. destruct (_ && _).
  - rewrite (proj2 (Z.eqb_neq _ _)) by lia. eexists. split; [reflexivity |]. split; [split; cbn; try done; lia | done].
  - eexists. split; [reflexivity |]. split; [split; cbn; try done; lia | done].
Qed.

Lemma Connected_ok k s addr time : wf ∅ 0 k s -> time_ok time -> exists s', Connected_ s addr time = Ret s' /\ wf ∅ 0 k s'.
Proof.
  intros Hw Ht. unfold time_ok in Ht. apply (update_service_ok k); [done | lia |]. intros i [S1 S2 S3 S4]. rewrite int64_value_ret by (unfold INT64_MIN, INT64_MAX; lia). cbn [obind].
  eexists. split; [reflexivity |]. destruct (_ >? _); [| done]. split; [split; cbn; try done; apply uint32_range | done].
Qed.

Lemma SetServices_ok k s addr flags : wf ∅ 0 k s -> exists s', SetServices_ s addr flags = Ret s' /\ wf ∅ 0 k s'.
Proof. intros Hw. apply (update_service_ok k); [done | lia |]. intros i [S1 S2 S3 S4]. eexists. split; [reflexivity |]. by split. Qed.

Lemma getaddr_loop_ok k nNodes now rnd l : k <= INT_MAX -> 0 <= now <= 2 ^ 62 -> forall s vAddr, wf ∅ 0 k s ->
  (forall n, n ∈ l -> 0 <= n < Zlen (vRandom s)) -> (forall n, n ∈ l -> 0 <= rnd n < Zlen (vRandom s) - n) ->
  exists v s', getaddr_loop s nNodes now rnd vAddr l = Ret (v, s') /\ wf ∅ 0 k s'.
Proof.
  intros Hk Hnow. induction l as [| n l IH]; intros s vAddr Hw Hl Hr; cbn [getaddr_loop]; [by eexists _, _ |]. destruct (_ >=? _); [by eexists _, _ |].
  specialize (Hl n ltac:(by left)) as Hn. specialize (Hr n ltac:(by left)) as Hrn. pose proof (length_bound k Hk ∅ 0 s Hw) as Hlen. unfold INT_MAX in Hlen. rewrite uint32_id by lia.
  destruct (SwapRandom_ok k Hk ∅ 0 s n (rnd n + n) Hw Hn ltac:(lia)) as (v & m & -> & Hw' & Ev & _). cbn [obind]. set (s' := with_random _ _) in *.
  assert (El : Zlen (vRandom s') = Zlen (vRandom s)) by (unfold Zlen; cbn; by rewrite Ev). destruct (lookup_lt_is_Some_2 (vRandom s') (Z.to_nat n)) as [nId Hid]; [unfold Zlen in *; lia |].
  rewrite Hid. destruct (wf_random _ _ _ _ Hw' _ _ Hid) as (i & Hi & _). unfold info_at. rewrite Hi. cbn [obind].
  destruct (IsTerrible_ret k i now) as [b ->]; [by destruct (wf_info _ _ _ _ Hw' nId i Hi) | done |]. cbn [obind]. apply IH; [done | ..]; rewrite El; intros x Hx; [apply Hl | apply Hr]; by right.
Qed.

Lemma GetAddr_ok k s now rnd : k <= INT_MAX -> 0 <= now <= 2 ^ 62 -> wf ∅ 0 k s -> (forall n, 0 <= n < Zlen (vRandom s) -> 0 <= rnd n < Zlen (vRandom s) - n) ->
  exists v s', GetAddr_ s now rnd = Ret (v, s') /\ wf ∅ 0 k s'.
Proof. intros Hk Hnow Hw Hr. unfold GetAddr_. apply (getaddr_loop_ok k); try done; intros n Hn%elem_of_seqZ; [lia | apply Hr; lia]. Qed.
