(* ===== verification/AddrManCheck.v ===== *)
(** * The consistency check of the address manager finds no error

    [Check_] on a state that satisfies the invariant, and the theorem on all the histories
    of an address manager. *)

From stdpp Require Import gmap sorting.
From S2P Require Import Prelude Common Serialize Hash NetAddr AddrMan AddrManProps.

Open Scope Z_scope.
Open Scope outcome_scope.

#[local] Opaque GetTriedBucket GetNewBucket GetBucketPosition.

Lemma cnt_split {K A} `{Countable K} (P : A -> bool) (m : gmap K A) : cnt P m + cnt (fun x => negb (P x)) m = Z.of_nat (size m).
Proof.
  induction m as [| k x m Hk IH] using map_ind; [by rewrite map_size_empty |]. rewrite !cnt_new, map_size_insert_None by done. destruct (P x); cbn; lia.
Qed.

(** ** Positions *)

Lemma elem_of_positions n b p : (b, p) ∈ positions n <-> 0 <= b < n /\ 0 <= p < ADDRMAN_BUCKET_SIZE.
Proof.
  unfold positions. rewrite list_elem_of_bind. split.
  - intros (x & Hy & Hx). apply list_elem_of_fmap in Hy as (y & [= -> ->] & Hy). apply elem_of_seqZ in Hx, Hy. lia.
  - intros [Hb Hp]. exists b. split; [| apply elem_of_seqZ; lia]. apply list_elem_of_fmap. exists p. split; [done |]. apply elem_of_seqZ. lia.
Qed.

Lemma NoDup_positions n : NoDup (positions n).
Proof.
  unfold positions. apply NoDup_bind.
  - intros x1 x2 [y1 y2] _ _ H1 H2. apply list_elem_of_fmap in H1 as (? & [= -> ->] & _). by apply list_elem_of_fmap in H2 as (? & [= -> _] & _).
  - intros x _. apply NoDup_fmap_2; [by intros ? ? [= ->] | apply NoDup_seqZ].
  - apply NoDup_seqZ.
Qed.

(** The positions of a list that hold an identifier. *)
Definition held (t : table) (nId : Z) (l : list (Z * Z)) : Z := Z.of_nat (length (filter (fun bp => t !! bp = Some nId) l)).

Lemma held_refs t nId l : NoDup l -> (forall bp, t !! bp = Some nId -> bp ∈ l) -> held t nId l = refs t nId.
Proof.
  intros Hl Hin. unfold held, refs, cnt. f_equal. rewrite <- (size_dom (D := gset (Z * Z))). unfold size, set_size. cbn. apply Permutation_length, NoDup_Permutation.
  - by apply list.NoDup_filter.
  - apply NoDup_elements.
  - intros bp. rewrite list_elem_of_filter, elem_of_elements, elem_of_dom. split.
    + intros [Hbp _]. exists nId. apply map_lookup_filter_Some. split; [done |]. cbn. apply Z.eqb_refl.
    + intros [x Hx]. apply map_lookup_filter_Some in Hx as [Hx ->%Z.eqb_eq]. auto.
Qed.

Lemma slot_value (t : table) b p x : default (-1) (t !! (b, p)) = x -> slot t b p = x.
Proof. done. Qed.

(** ** The loops *)

Section Check.
Context (k : Z) (s : CAddrMan) (Hw : wf ∅ 0 k s).

Definition tried_ids : gset Z := dom (filter (fun kv => fInTried kv.2 = true) (mapInfo s)).

Definition new_counts : gmap Z Z := nRefCount <$> filter (fun kv => untried kv.2 = true) (mapInfo s).

Lemma check_entry_ok n i l T M : mapInfo s !! n = Some i ->
  check_infos s ((n, i) :: l) T M = if fInTried i then check_infos s l ({[n]} ∪ T) M else check_infos s l T (<[n := nRefCount i]> M).
Proof.
  intros Hi. destruct (wf_info _ _ _ _ Hw n i Hi) as [A1 A2 [A3 A3'] [S1 S2 S3 S4] A5 A6 A7]. cbn [check_infos]. rewrite A2. cbn [default from_option]. rewrite Z.eqb_refl, (proj2 (Z.ltb_ge (nRandomPos i) 0)) by done.
  rewrite bool_decide_true, (proj2 (Z.ltb_ge (nLastTry i) 0)), (proj2 (Z.ltb_ge (nLastSuccess i) 0)) by (done || lia). cbn [negb orb]. destruct (fInTried i) eqn:Hf; cbn [andb negb].
  - destruct (A6 eq_refl) as (Hs & Hr & _). rewrite (proj2 (Z.eqb_neq _ _) Hs), Hr. done.
  - destruct (A7 eq_refl) as ([Hin | Hr] & Hr'); [by apply not_elem_of_empty in Hin |]. rewrite (proj2 (Z.ltb_ge (nRefCount i) 0)), (proj2 (Z.eqb_neq (nRefCount i) 0)) by lia.
    rewrite Z.gtb_ltb, (proj2 (Z.ltb_ge _ _)) by done. done.
Qed.

Lemma check_infos_run l : forall T M, (forall n i, (n, i) ∈ l -> mapInfo s !! n = Some i) -> NoDup l.*1 ->
  exists T' M', check_infos s l T M = inr (T', M') /\
    (forall n, n ∈ T' <-> n ∈ T \/ exists i, (n, i) ∈ l /\ fInTried i = true) /\
    (forall n c, M' !! n = Some c <-> (exists i, (n, i) ∈ l /\ fInTried i = false /\ nRefCount i = c) \/ M !! n = Some c /\ ~ (exists i, (n, i) ∈ l /\ fInTried i = false)).
Proof.
  induction l as [| [m j] l IH]; intros T M Hl Hnd.
  { exists T, M. split; [done |]. split; [intros n; split; [auto |]; intros [? | (i & Hin & _)]; [done | by apply elem_of_nil in Hin] |].
    intros n c. split; [intros; right; split; [done |]; intros (i & Hin & _); by apply elem_of_nil in Hin |]. intros [(i & Hin & _) | [? _]]; [by apply elem_of_nil in Hin | done]. }
  apply list.NoDup_cons in Hnd as [Hm Hnd]. rewrite (check_entry_ok m j) by (apply Hl; by left). assert (Hm' : forall i, (m, i) ∉ l) by (intros i Hi; apply Hm, list_elem_of_fmap; by exists (m, i)).
  destruct (fInTried j) eqn:Hf.
  - destruct (IH ({[m]} ∪ T) M ltac:(intros; apply Hl; by right) Hnd) as (T' & M' & E & HT & HM). exists T', M'. split; [done |]. split.
    + intros n. rewrite HT, elem_of_union, elem_of_singleton. setoid_rewrite elem_of_cons. split; [intros [[-> | ?] | (i & ? & ?)]; eauto 6 |]. intros [? | (i & [[= -> ->] | ?] & ?)]; eauto.
    + intros n c. rewrite HM. setoid_rewrite elem_of_cons. split; (intros [(i & Hi & Hfi & Hc) | [Hn Hno]]; [left | right]).
      * eauto 6.
      * split; [done |]. intros (i & [[= -> ->] | ?] & ?); [congruence | eauto].
      * exists i. destruct Hi as [[= -> ->] | ?]; [congruence | done].
      * split; [done |]. intros (i & ? & ?). eauto 6.
  - destruct (IH T (<[m := nRefCount j]> M) ltac:(intros; apply Hl; by right) Hnd) as (T' & M' & E & HT & HM). exists T', M'. split; [done |]. split.
    + intros n. rewrite HT. setoid_rewrite elem_of_cons. split; [intros [? | (i & ? & ?)]; eauto 6 |]. intros [? | (i & [[= -> ->] | ?] & ?)]; [auto | congruence | eauto].
    + intros n c. rewrite HM, lookup_insert_Some. setoid_rewrite elem_of_cons. split.
      * intros [(i & ? & ? & ?) | [[[<- <-] | [Hne Hn]] Hno]]; [eauto 7 | left; exists j; auto | right; split; [done |]]. intros (i & [[= -> ->] | ?] & ?); [done | eauto].
      * intros [(i & [[= -> ->] | Hi] & Hfi & <-) | [Hn Hno]]; [right; split; [auto |]; intros (i' & Hi' & _); by apply (Hm' i') | left; eauto | right].
        split; [right; split; [intros <-; apply Hno; eauto 6 | done] | intros (i & ? & ?); apply Hno; eauto 6].
Qed.

Lemma check_infos_ok : check_infos s (infos s) ∅ ∅ = inr (tried_ids, new_counts).
Proof.
  assert (Hp : infos s ≡ₚ map_to_list (mapInfo s)) by apply merge_sort_Permutation.
  assert (Hin : forall n i, (n, i) ∈ infos s <-> mapInfo s !! n = Some i) by (intros; rewrite Hp; apply elem_of_map_to_list).
  assert (Hnd : NoDup (infos s).*1) by (rewrite Hp; apply NoDup_fst_map_to_list).
  destruct (check_infos_run (infos s) ∅ ∅) as (T & M & -> & HT & HM); [by intros n i; apply Hin | done |]. f_equal. f_equal.
  - apply set_eq. intros n. rewrite HT. unfold tried_ids. rewrite elem_of_dom. setoid_rewrite Hin. split.
    + intros [Hn | (i & Hi & Hf)]; [by apply not_elem_of_empty in Hn |]. exists i. by apply map_lookup_filter_Some.
    + intros [i [Hi Hf]%map_lookup_filter_Some]. right. by exists i.
  - apply map_eq. intros n. apply option_eq. intros c. rewrite HM. setoid_rewrite Hin. unfold new_counts. rewrite lookup_fmap_Some. split.
    + intros [(i & Hi & Hf & Hc) | [Hn _]]; [| by rewrite lookup_empty in Hn]. exists i. split; [done |]. apply map_lookup_filter_Some. split; [done |]. cbn. unfold untried. by rewrite Hf.
    + intros (i & Hc & [Hi Hf]%map_lookup_filter_Some). left. exists i. split; [done |]. split; [| done]. cbn in Hf. unfold untried in Hf. by destruct (fInTried i).
Qed.

Lemma elem_of_tried_ids n : n ∈ tried_ids <-> exists i, mapInfo s !! n = Some i /\ fInTried i = true.
Proof.
  unfold tried_ids. rewrite elem_of_dom. split; [intros [i [? ?]%map_lookup_filter_Some]; by exists i |]. intros (i & ? & ?). exists i. by apply map_lookup_filter_Some.
Qed.

Lemma check_tried_run l : forall T, NoDup l -> (forall n, n ∈ T <-> exists bp, bp ∈ l /\ vvTried s !! bp = Some n) -> check_tried s l T = inr ∅.
Proof.
  induction l as [| [b p] l IH]; intros T Hnd HT; cbn [check_tried].
  { f_equal. apply set_eq. intros n. rewrite HT. split; [intros (bp & Hbp & _); by apply elem_of_nil in Hbp | intros Hn; by apply not_elem_of_empty in Hn]. }
  apply list.NoDup_cons in Hnd as [Hnot Hnd]. destruct (vvTried s !! (b, p)) as [m |] eqn:Em; [rewrite (slot_value _ b p m) by (by rewrite Em) | rewrite (slot_value _ b p (-1)) by (by rewrite Em)].
  - destruct (wf_tried _ _ _ _ Hw _ m Em) as (i & Hi & Hf & Ebp). injection Ebp as Eb Ep. destruct (wf_info _ _ _ _ Hw m i Hi) as [A1 _ _ _ _ _ _]. rewrite (proj2 (Z.eqb_neq m (-1))) by lia.
    rewrite bool_decide_false by (intros Hm; apply Hm, HT; exists (b, p); split; [by left | done]). rewrite <- Eb in Ep. rewrite Hi, <- Eb, Z.eqb_refl, <- Ep, Z.eqb_refl. cbn [negb]. apply IH; [done |].
    intros n. rewrite elem_of_difference, HT, elem_of_singleton. setoid_rewrite elem_of_cons. split.
    + intros [(bp & [-> | Hbp] & Hn) Hne]; [congruence | by exists bp].
    + intros (bp & Hbp & Hn). split; [exists bp; auto |]. intros ->. destruct (wf_tried _ _ _ _ Hw _ m Hn) as (i' & Hi' & _ & ->). rewrite Hi in Hi'. injection Hi' as <-. apply Hnot. unfold tried_at in Hbp. by rewrite <- Eb, <- Ep in Hbp.
  - cbn [Z.eqb Z.opp Pos.eqb]. apply IH; [done |]. intros n. rewrite HT. setoid_rewrite elem_of_cons. split; [intros (bp & [-> | ?] & ?); [congruence | eauto] | intros (bp & ? & ?); eauto].
Qed.

Lemma check_tried_ok : check_tried s (positions ADDRMAN_TRIED_BUCKET_COUNT) tried_ids = inr ∅.
Proof.
  apply check_tried_run; [apply NoDup_positions |]. intros n. rewrite elem_of_tried_ids. split.
  - intros (i & Hi & Hf). destruct (io_tried _ _ _ _ _ (wf_info _ _ _ _ Hw n i Hi) Hf) as (_ & _ & Ht). exists (tried_at s i). split; [| done].
    unfold tried_at. apply elem_of_positions. split; [apply GetTriedBucket_range | apply GetBucketPosition_range].
  - intros (bp & _ & Hn). destruct (wf_tried _ _ _ _ Hw _ n Hn) as (i & ? & ? & _). by exists i.
Qed.

Lemma held_cons n bp l : held (vvNew s) n (bp :: l) = held (vvNew s) n l + (if decide (vvNew s !! bp = Some n) then 1 else 0).
Proof. unfold held. rewrite filter_cons. destruct (decide _); cbn; lia. Qed.

Lemma check_new_run l : forall M, (forall n c, M !! n = Some c <-> c = held (vvNew s) n l /\ c <> 0) -> check_new s l M = inr ∅.
Proof.
  induction l as [| [b p] l IH]; intros M HM; cbn [check_new].
  { f_equal. apply map_eq. intros n. rewrite lookup_empty. destruct (M !! n) as [c |] eqn:E; [| done]. apply HM in E as [-> Hc]. done. }
  destruct (vvNew s !! (b, p)) as [m |] eqn:Em; [rewrite (slot_value _ b p m) by (by rewrite Em) | rewrite (slot_value _ b p (-1)) by (by rewrite Em)].
  - destruct (wf_new _ _ _ _ Hw b p m Em) as (i & Hi & Hf & Hb & Ep). destruct (wf_info _ _ _ _ Hw m i Hi) as [A1 _ _ _ _ _ _]. rewrite (proj2 (Z.eqb_neq m (-1))) by lia.
    assert (Hheld : held (vvNew s) m ((b, p) :: l) = held (vvNew s) m l + 1) by (by rewrite held_cons, decide_True). assert (Hpos : 0 <= held (vvNew s) m l) by (unfold held; lia).
    assert (HMm : M !! m = Some (held (vvNew s) m l + 1)) by (apply HM; rewrite Hheld; split; [done | lia]). rewrite HMm, Hi, <- Ep, Z.eqb_refl. cbn [negb]. replace (held (vvNew s) m l + 1 - 1) with (held (vvNew s) m l) by lia. apply IH. intros n c.
    assert (Hother : n <> m -> M !! n = Some c <-> c = held (vvNew s) n l /\ c <> 0) by (intros Hne; rewrite HM, held_cons, decide_False by congruence; by rewrite Z.add_0_r).
    destruct (_ =? 0) eqn:Ez; bool_to_prop; [rewrite lookup_delete_Some | rewrite lookup_insert_Some]; (destruct (decide (n = m)) as [-> | Hne]; [| specialize (Hother Hne); clear -Hother Hne; naive_solver]); split.
    + by intros [? _].
    + intros [-> ?]. congruence.
    + intros [[_ <-] | [? _]]; [done | done].
    + intros [-> ?]. by left.
  - cbn [Z.eqb Z.opp Pos.eqb]. apply IH. intros n c. rewrite HM, held_cons, decide_False by congruence. by rewrite Z.add_0_r.
Qed.

Lemma check_new_ok : check_new s (positions ADDRMAN_NEW_BUCKET_COUNT) new_counts = inr ∅.
Proof.
  apply check_new_run. intros n c. rewrite held_refs; [| apply NoDup_positions | intros [b p] Hbp; destruct (wf_new _ _ _ _ Hw b p n Hbp) as (i & _ & _ & Hb & ->); apply elem_of_positions; split; [done | apply GetBucketPosition_range]].
  unfold new_counts. rewrite lookup_fmap_Some. split.
  - intros (i & <- & [Hi Hf]%map_lookup_filter_Some). cbn in Hf. unfold untried in Hf. destruct (wf_info _ _ _ _ Hw n i Hi) as [_ _ _ _ A5 _ A7]. split; [done |].
    destruct A7 as [[Hin | ?] _]; [by destruct (fInTried i) | by apply not_elem_of_empty in Hin | lia].
  - intros [-> Hc]. pose proof (cnt_nonneg (Z.eqb n) (vvNew s)). destruct (cnt_pos (Z.eqb n) (vvNew s)) as ([b p] & x & Hx & <-%Z.eqb_eq); [unfold refs in Hc; lia |].
    destruct (wf_new _ _ _ _ Hw b p n Hx) as (i & Hi & Hf & _). exists i. split; [by destruct (wf_info _ _ _ _ Hw n i Hi) |]. apply map_lookup_filter_Some. split; [done |]. cbn. unfold untried. by rewrite Hf.
Qed.

Lemma Check_ok : Check_ s = 0.
Proof.
  pose proof (cnt_split fInTried (mapInfo s)) as Hsplit. fold untried in Hsplit. pose proof (wf_nTried _ _ _ _ Hw) as Ht. pose proof (wf_nNew _ _ _ _ Hw) as Hn. pose proof (wf_size _ _ _ _ Hw) as Hs.
  change (fun x => negb (fInTried x)) with untried in Hsplit. unfold Check_. rewrite (proj2 (Z.eqb_eq _ _)) by lia. cbn [negb]. rewrite check_infos_ok.
  assert (E1 : Z.of_nat (size tried_ids) = nTried s) by (unfold tried_ids; rewrite size_dom; by rewrite Ht). assert (E2 : Z.of_nat (size new_counts) = nNew s) by (unfold new_counts; rewrite map_size_fmap; unfold cnt in Hn; lia).
  rewrite E1, E2, !Z.eqb_refl. cbn [negb]. rewrite check_tried_ok, check_new_ok. rewrite !bool_decide_true by done. cbn [negb]. rewrite bool_decide_false; [done |]. apply Hw.
Qed.
End Check.

(** ** Histories *)

(** The calls of the public methods, with the random numbers and the time they see. *)
Inductive call :=
| Call_Add (addr : CAddress) (src : CNetAddr) (nTimePenalty now nRnd : Z)
| Call_Good (addr : CService) (time nRnd : Z)
| Call_Attempt (addr : CService) (fCountFailure : bool) (time : Z)
| Call_Connected (addr : CService) (time : Z)
| Call_SetServices (addr : CService) (flags : Z)
| Call_GetAddr (now : Z) (rnd : Z -> Z -> Z).

Definition run_call (s : CAddrMan) (c : call) : outcome CAddrMan :=
  match c with
  | Call_Add addr src nTimePenalty now nRnd => let? r := Add_ s addr src nTimePenalty now nRnd in Ret r.2
  | Call_Good addr time nRnd => Good_ s addr time nRnd
  | Call_Attempt addr b time => Attempt_ s addr b time
  | Call_Connected addr time => Connected_ s addr time
  | Call_SetServices addr flags => SetServices_ s addr flags
  | Call_GetAddr now rnd => let? r := GetAddr_ s now (rnd (Zlen (vRandom s))) in Ret r.2
  end.

(** Times are positive and far from overflow; [rnd size n] is below [size - n]. *)
Definition call_ok (c : call) : Prop :=
  match c with
  | Call_Add addr _ nTimePenalty now _ => 0 <= nTime addr < 2 ^ 32 /\ 0 <= nTimePenalty <= 2 ^ 62 /\ 0 <= now <= 2 ^ 62
  | Call_Good _ time _ | Call_Attempt _ _ time | Call_Connected _ time => time_ok time
  | Call_SetServices _ _ => True
  | Call_GetAddr now rnd => 0 <= now <= 2 ^ 62 /\ forall size n, 0 <= n < size -> 0 <= rnd size n < size - n
  end.

Fixpoint run_calls (s : CAddrMan) (l : list call) : outcome CAddrMan :=
  match l with
  | [] => Ret s
  | c :: l => let? s := run_call s c in run_calls s l
  end.

Lemma run_call_ok k s c : 0 <= k < INT_MAX -> wf ∅ 0 k s -> call_ok c -> exists s', run_call s c = Ret s' /\ wf ∅ 0 (k + 1) s'.
Proof.
  intros [Hk0 Hk] Hw Hc. assert (Hup : forall s', wf ∅ 0 k s' -> wf ∅ 0 (k + 1) s') by (intros s'; apply wf_mono; lia). destruct c as [addr src pen now r | addr t r | addr b t | addr t | addr f | now rnd]; cbn in *.
  - destruct Hc as (? & ? & ?). destruct (Add_ok k s addr src pen now r) as (b & s' & -> & ?); try done. by exists s'.
  - destruct (Good_ok k s addr t r) as (s' & -> & ?); try done; [lia |]. exists s'. auto.
  - destruct (Attempt_ok k s addr b t) as (s' & -> & ?); try done. exists s'. auto.
  - destruct (Connected_ok k s addr t) as (s' & -> & ?); try done. exists s'. auto.
  - destruct (SetServices_ok k s addr f) as (s' & -> & ?); try done. exists s'. auto.
  - destruct Hc as [? Hr]. destruct (GetAddr_ok k s now (rnd (Zlen (vRandom s)))) as (v & s' & -> & ?); try done; [lia | by apply Hr |]. exists s'. auto.
Qed.

Lemma run_calls_ok l : forall k s, 0 <= k -> k + Zlen l <= INT_MAX -> wf ∅ 0 k s -> Forall call_ok l -> exists s', run_calls s l = Ret s' /\ wf ∅ 0 (k + Zlen l) s'.
Proof.
  unfold Zlen. induction l as [| c l IH]; intros k s Hk0 Hk Hw Hl; cbn [run_calls length] in *; [exists s; by rewrite Z.add_0_r |].
  apply Forall_cons_1 in Hl as [Hc Hl]. destruct (run_call_ok k s c ltac:(lia) Hw Hc) as (s1 & -> & Hw1). cbn [obind]. destruct (IH (k + 1) s1 ltac:(lia) ltac:(lia) Hw1 Hl) as (s' & -> & Hw'). exists s'. split; [done |].
  by replace (k + Z.of_nat (S (length l))) with (k + 1 + Z.of_nat (length l)) by lia.
Qed.

Lemma Clear_ok key : key <> replicate 32 0 -> wf ∅ 0 0 (Clear key).
Proof. intros Hkey. split; cbn; try done. Qed.

(** C10. Whatever calls an address manager receives, in any order and with any random
    numbers, no assertion fails and no arithmetic overflows, and its consistency check
    then finds no error: the counters, the reference counts, the positions in the tables
    and in the random order agree. *)
Theorem AddrMan_consistent key l : key <> replicate 32 0 -> Forall call_ok l -> Zlen l <= INT_MAX -> exists s, run_calls (Clear key) l = Ret s /\ Check_ s = 0.
Proof.
  intros Hkey Hl Hlen. destruct (run_calls_ok l 0 (Clear key) ltac:(lia) Hlen (Clear_ok key Hkey) Hl) as (s & E & Hw). exists s. split; [done |]. by apply (Check_ok _ s Hw).
Qed.

Lemma AddrMan_consistent_witness :
  let a := MkService (MkNetAddr (pchIPv4 ++ [8; 8; 8; 8]) 0) 8333 in
  exists s, run_calls (Clear (replicate 32 1)) [Call_Add (MkAddress a 1 1500000000) (netaddr a) 0 1500000100 0; Call_Good a 1500000200 5; Call_GetAddr 1500000300 (fun _ _ => 0)] = Ret s /\ Check_ s = 0.
Proof.
  intros a. apply (AddrMan_consistent (replicate 32 1)); [discriminate | | discriminate].
  constructor; [cbn; lia |]. constructor; [unfold call_ok, time_ok; lia |]. constructor; [split; [lia | intros; lia] | constructor].
Defined.
