(* ===== verification/Compressor.v ===== *)
(** * The records of coins and undo data

    [src/compressor.h], [compressor.cpp], the serialization of a [Coin] in [coins.h] and
    [undo.h]: amounts and scripts are stored in a compressed form, in the database of
    coins and in the undo files. The test and the decompression of public keys, which are
    elliptic curve arithmetic, are a class. *)

From S2P Require Import Prelude Serialize Opcodes Script Transaction Coins.

Open Scope Z_scope.
Open Scope reader_scope.

(** [CPubKey::IsFullyValid] and [CPubKey::Decompress]. *)
Class PubKeyCodec := {
  IsFullyValid : list Z -> bool;
  PubKey_Decompress : list Z -> option (list Z)
}.

(** The point of a valid uncompressed key is found from its first coordinate and the
    parity of the second. *)
Class PubKeyLaws `{PubKeyCodec} := {
  decompress_valid : forall x y, Zlen x = 32 -> Zlen y = 32 -> bytes_ok x -> bytes_ok y -> IsFullyValid (4 :: x ++ y) = true ->
    PubKey_Decompress ((2 + Z.land (byte_at y 31) 1) :: x) = Some (4 :: x ++ y)
}.

(** ** Amounts *)

(** Trailing zeros are divided out, at most nine. *)
Fixpoint strip_zeros (fuel : nat) (n e : Z) : Z * Z :=
  match fuel with
  | O => (n, e)
  | S fuel => if n mod 10 =? 0 then strip_zeros fuel (n / 10) (e + 1) else (n, e)
  end.

Definition CompressAmount (n : Z) : Z :=
  if n =? 0 then 0
  else
    let '(n, e) := strip_zeros 9 n 0 in
    if e <? 9 then uint64 (1 + (n / 10 * 9 + n mod 10 - 1) * 10 + e)
    else uint64 (1 + (n - 1) * 10 + 9).

(** [n *= 10], [e] times. *)
Fixpoint add_zeros (e : nat) (n : Z) : Z := match e with O => n | S e => add_zeros e (uint64 (n * 10)) end.

Definition DecompressAmount (x : Z) : Z :=
  if x =? 0 then 0
  else
    let x := x - 1 in
    let e := x mod 10 in
    let x := x / 10 in
    let n := if e <? 9 then uint64 (x / 9 * 10 + (x mod 9 + 1)) else uint64 (x + 1) in
    add_zeros (Z.to_nat e) n.

(** ** Scripts *)

Definition nSpecialScripts : Z := 6.

Definition IsToKeyID (script : list Z) : option (list Z) :=
  if (Zlen script =? 25) && (byte_at script 0 =? OP_DUP) && (byte_at script 1 =? OP_HASH160) && (byte_at script 2 =? 20)
     && (byte_at script 23 =? OP_EQUALVERIFY) && (byte_at script 24 =? OP_CHECKSIG)
  then Some (take 20 (drop 3 script)) else None.

Definition IsToScriptID (script : list Z) : option (list Z) :=
  if (Zlen script =? 23) && (byte_at script 0 =? OP_HASH160) && (byte_at script 1 =? 20) && (byte_at script 22 =? OP_EQUAL)
  then Some (take 20 (drop 2 script)) else None.

Section Scripts.
Context `{PubKeyCodec}.

Definition IsToPubKey (script : list Z) : option (list Z) :=
  if (Zlen script =? 35) && (byte_at script 0 =? 33) && (byte_at script 34 =? OP_CHECKSIG) && ((byte_at script 1 =? 2) || (byte_at script 1 =? 3))
  then Some (take 33 (drop 1 script))
  else if (Zlen script =? 67) && (byte_at script 0 =? 65) && (byte_at script 66 =? OP_CHECKSIG) && (byte_at script 1 =? 4)
  then let pubkey := take 65 (drop 1 script) in if IsFullyValid pubkey then Some pubkey else None
  else None.

Definition Compress (script : list Z) : option (list Z) :=
  match IsToKeyID script with
  | Some keyID => Some (0 :: keyID)
  | None =>
    match IsToScriptID script with
    | Some scriptID => Some (1 :: scriptID)
    | None =>
      match IsToPubKey script with
      | Some pubkey =>
        let x := take 32 (drop 1 pubkey) in
        if (byte_at pubkey 0 =? 2) || (byte_at pubkey 0 =? 3) then Some (byte_at pubkey 0 :: x)
        else if byte_at pubkey 0 =? 4 then Some (Z.lor 4 (Z.land (byte_at pubkey 64) 1) :: x)
        else None
      | None => None
      end
    end
  end.

Definition GetSpecialSize (nSize : Z) : Z :=
  if (nSize =? 0) || (nSize =? 1) then 20
  else if (nSize =? 2) || (nSize =? 3) || (nSize =? 4) || (nSize =? 5) then 32
  else 0.

(** [None] leaves the script as it is. *)
Definition Decompress (nSize : Z) (vch : list Z) : option (list Z) :=
  if nSize =? 0 then Some ([OP_DUP; OP_HASH160; 20] ++ take 20 vch ++ [OP_EQUALVERIFY; OP_CHECKSIG])
  else if nSize =? 1 then Some ([OP_HASH160; 20] ++ take 20 vch ++ [OP_EQUAL])
  else if (nSize =? 2) || (nSize =? 3) then Some ([33; nSize] ++ take 32 vch ++ [OP_CHECKSIG])
  else if (nSize =? 4) || (nSize =? 5) then
    match PubKey_Decompress ((nSize - 2) :: take 32 vch) with
    | Some pubkey => Some ([65] ++ pubkey ++ [OP_CHECKSIG])
    | None => None
    end
  else None.

(** A variable-length integer of [w] bits; its buffer is large enough. *)
Definition Serialize_VarInt (w n : Z) : list Z := default [] (WriteVarInt w n).

Definition Serialize_script (script : list Z) : list Z :=
  match Compress script with
  | Some compr => compr
  | None => Serialize_VarInt 32 (uint32 (Zlen script + nSpecialScripts)) ++ script
  end.

(** Into an empty script. *)
Definition Unserialize_script : reader (list Z) :=
  let! nSize := ReadVarInt 32 in
  if nSize <? nSpecialScripts then
    let! vch := read (GetSpecialSize nSize) in read_ret (default [] (Decompress nSize vch))
  else
    let nSize := nSize - nSpecialScripts in
    let! script := read nSize in
    read_ret (if nSize >? MAX_SCRIPT_SIZE then [OP_RETURN] else script).

(** ** Outputs and coins *)

Definition Serialize_TxOutCompressor (out : CTxOut) : list Z :=
  Serialize_VarInt 64 (CompressAmount (uint64 (nValue out))) ++ Serialize_script (scriptPubKey out).

Definition Unserialize_TxOutCompressor : reader CTxOut :=
  let! nVal := ReadVarInt 64 in
  let! script := Unserialize_script in
  read_ret (TxOut (int64 (DecompressAmount nVal)) script).

(** What is written for a coin that is not spent. *)
Definition coin_bytes (c : Coin) : list Z :=
  Serialize_VarInt 32 (uint32 (coin_nHeight c * 2 + Z.b2z (fCoinBase c))) ++ Serialize_TxOutCompressor (coin_out c).

Definition Serialize_Coin (c : Coin) : outcome (list Z) :=
  let? _ := cassert (negb (IsSpent c)) in Ret (coin_bytes c).

Definition Unserialize_Coin : reader Coin :=
  let! code := ReadVarInt 32 in
  let! out := Unserialize_TxOutCompressor in
  read_ret (mkCoin out (flag code 1) (Z.shiftr code 1)).

(** ** Undo data *)

Definition Serialize_TxInUndo (c : Coin) : list Z :=
  Serialize_VarInt 32 (uint32 (coin_nHeight c * 2 + Z.b2z (fCoinBase c)))
    ++ (if coin_nHeight c >? 0 then ser_writedata8 0 else [])
    ++ Serialize_TxOutCompressor (coin_out c).

(** The dummy version is an [int]. *)
Definition Unserialize_TxInUndo : reader Coin :=
  let! nCode := ReadVarInt 32 in
  let! _ := (if nCode / 2 >? 0 then ReadVarInt 31 else read_ret 0) in
  let! out := Unserialize_TxOutCompressor in
  read_ret (mkCoin out (flag nCode 1) (nCode / 2)).

(** [32 * 1000 * 1000 / (WITNESS_SCALE_FACTOR * 41)] *)
Definition MAX_INPUTS_PER_BLOCK : Z := 32000000 / (4 * 41).

Definition Serialize_TxUndo (vprevout : list Coin) : list Z := WriteCompactSize (Zlen vprevout) ++ concat (Serialize_TxInUndo <$> vprevout).

Definition Unserialize_TxUndo : reader (list Coin) :=
  let! count := ReadCompactSize in
  if count >? MAX_INPUTS_PER_BLOCK then read_fail else Unserialize_items Unserialize_TxInUndo (Z.to_nat count).

Definition Serialize_BlockUndo (vtxundo : list (list Coin)) : list Z := Serialize_vector Serialize_TxUndo vtxundo.

Definition Unserialize_BlockUndo : reader (list (list Coin)) := Unserialize_vector Unserialize_TxUndo.
End Scripts.
