(* ===== verification/CompressorProps.v ===== *)
(** * Stored coins and undo data are read back

    The compressed records of [Compressor] are inverted by their readers. *)

From S2P Require Import Prelude Serialize Opcodes Script Transaction Coins Compressor.

Open Scope Z_scope.
Open Scope reader_scope.

(** ** Amounts *)

Lemma strip_zeros_spec fuel : forall n e m e', 0 < n -> strip_zeros fuel n e = (m, e') ->
  0 < m /\ e <= e' <= e + Z.of_nat fuel /\ n = m * 10 ^ (e' - e) /\ (e' < e + Z.of_nat fuel -> m mod 10 <> 0).
Proof.
  induction fuel as [| fuel IH]; intros n e m e' Hn; cbn [strip_zeros].
  { intros [= <- <-]. rewrite Z.sub_diag. lia. }
  destruct (n mod 10 =? 0) eqn:E; bool_to_prop; [| intros [= <- <-]; rewrite Z.sub_diag; lia]. intros Hs. pose proof (Z.div_mod n 10 ltac:(lia)) as Hdiv.
  destruct (IH (n / 10) (e + 1) m e' ltac:(lia) Hs) as (Hm & He & Hn' & Hlast). split; [done |]. split; [lia |]. split; [| intros; apply Hlast; lia].
  replace (e' - e) with (Z.succ (e' - (e + 1))) by lia. rewrite Z.pow_succ_r by lia. lia.
Qed.

Lemma add_zeros_value e : forall n, 0 <= n -> n * 10 ^ Z.of_nat e < 2 ^ 64 -> add_zeros e n = n * 10 ^ Z.of_nat e.
Proof.
  induction e as [| e IH]; intros n Hn Hb; cbn [add_zeros]; [cbn; lia |]. rewrite Nat2Z.inj_succ, Z.pow_succ_r in * by lia. assert (0 < 10 ^ Z.of_nat e) by (apply Z.pow_pos_nonneg; lia).
  rewrite uint64_id by nia. rewrite IH by lia. lia.
Qed.

Lemma amount_roundtrip n : 0 <= n < 2 ^ 60 -> DecompressAmount (CompressAmount n) = n /\ 0 <= CompressAmount n < 2 ^ 64.
Proof.
  intros Hn. unfold CompressAmount. destruct (n =? 0) eqn:E; bool_to_prop; [subst; done |]. destruct (strip_zeros 9 n 0) as [m e] eqn:Es.
  destruct (strip_zeros_spec 9 n 0 m e ltac:(lia) Es) as (Hm & He & Hnm & Hlast). rewrite Z.sub_0_r in Hnm. assert (Hp : 0 < 10 ^ e) by (apply Z.pow_pos_nonneg; lia).
  assert (Hmn : m <= n) by nia. pose proof (Z.div_mod m 10 ltac:(lia)). pose proof (Z.mod_pos_bound m 10 ltac:(lia)).
  assert (Hend : add_zeros (Z.to_nat e) m = n) by (rewrite add_zeros_value, Z2Nat.id by (rewrite ?Z2Nat.id; lia); done). unfold DecompressAmount. destruct (e <? 9) eqn:E9; bool_to_prop.
  - assert (m mod 10 <> 0) by (apply Hlast; lia). rewrite uint64_id by lia. split; [| lia]. rewrite (proj2 (Z.eqb_neq _ 0)) by lia. set (q := m / 10 * 9 + m mod 10 - 1) in *.
    replace (1 + q * 10 + e - 1) with (e + q * 10) by lia. rewrite Z.mod_add, Z.div_add, (Z.mod_small e), (Z.div_small e) by lia. rewrite (proj2 (Z.ltb_lt e 9)) by lia.
    replace (0 + q) with (m mod 10 - 1 + m / 10 * 9) by lia. rewrite Z.mod_add, Z.div_add, (Z.mod_small (m mod 10 - 1)), (Z.div_small (m mod 10 - 1)) by lia. rewrite uint64_id by lia.
    replace ((0 + m / 10) * 10 + (m mod 10 - 1 + 1)) with m by lia. exact Hend.
  - assert (e = 9) as -> by lia. rewrite uint64_id by lia. split; [| lia]. rewrite (proj2 (Z.eqb_neq _ 0)) by lia. replace (1 + (m - 1) * 10 + 9 - 1) with (9 + (m - 1) * 10) by lia.
    rewrite Z.mod_add, Z.div_add by lia. change (9 mod 10) with 9. change (9 / 10) with 0. cbn [Z.ltb Z.compare Pos.compare Pos.compare_cont]. rewrite uint64_id by lia. replace (0 + (m - 1) + 1) with m by lia. exact Hend.
Qed.

(** ** Scripts *)

Lemma drop_byte (l : list Z) (k : nat) : (k < length l)%nat -> drop k l = byte_at l (Z.of_nat k) :: drop (S k) l.
Proof. intros Hk. unfold byte_at. rewrite Nat2Z.id. destruct (lookup_lt_is_Some_2 l k Hk) as [x Hx]. rewrite Hx. by rewrite (drop_S l x k). Qed.

Lemma drop_split (l : list Z) (k n : nat) : drop k l = take n (drop k l) ++ drop (k + n) l.
Proof. rewrite <- drop_drop. by rewrite take_drop. Qed.

Lemma ReadVarInt_special b s : 0 <= b < nSpecialScripts -> ReadVarInt 32 (b :: s) = Some (b, s).
Proof. unfold nSpecialScripts. intros Hb. assert (b = 0 \/ b = 1 \/ b = 2 \/ b = 3 \/ b = 4 \/ b = 5) as [-> | [-> | [-> | [-> | [-> | ->]]]]] by lia; reflexivity. Qed.

Lemma read_special b v s : 0 <= b < nSpecialScripts -> Zlen v = GetSpecialSize b ->
  (let! nSize := ReadVarInt 32 in
   if nSize <? nSpecialScripts then let! vch := read (GetSpecialSize nSize) in read_ret (b, vch) else read_fail) ((b :: v) ++ s) = Some ((b, v), s).
Proof.
  intros Hb Hv. cbn [app]. erewrite bind_step by by apply ReadVarInt_special. rewrite (proj2 (Z.ltb_lt _ _)) by lia. by erewrite bind_step by by apply read_app.
Qed.

Section Scripts.
Context `{PubKeyLaws}.

Lemma Unserialize_special b v s : 0 <= b < nSpecialScripts -> Zlen v = GetSpecialSize b -> Unserialize_script ((b :: v) ++ s) = Some (default [] (Decompress b v), s).
Proof.
  intros Hb Hv. unfold Unserialize_script. cbn [app]. erewrite bind_step by by apply ReadVarInt_special. rewrite (proj2 (Z.ltb_lt _ _)) by lia. by erewrite bind_step by by apply read_app.
Qed.

(** The parts of a script of known length. *)
Lemma script_parts_3 script : length script = 25%nat ->
  script = [byte_at script 0; byte_at script 1; byte_at script 2] ++ take 20 (drop 3 script) ++ [byte_at script 23; byte_at script 24].
Proof.
  intros Hl. change script with (drop 0 script) at 1. rewrite (drop_byte script 0), (drop_byte script 1), (drop_byte script 2) by lia. rewrite (drop_split script 3 20) at 1.
  rewrite (drop_byte script (3 + 20)), (drop_byte script (S (3 + 20))), (drop_ge script (S (S (3 + 20)))) by lia. done.
Qed.

Lemma script_parts_2 script : length script = 23%nat -> script = [byte_at script 0; byte_at script 1] ++ take 20 (drop 2 script) ++ [byte_at script 22].
Proof.
  intros Hl. change script with (drop 0 script) at 1. rewrite (drop_byte script 0), (drop_byte script 1) by lia. rewrite (drop_split script 2 20) at 1.
  rewrite (drop_byte script (2 + 20)), (drop_ge script (S (2 + 20))) by lia. done.
Qed.

Lemma script_parts_1 script n : length script = (n + 2)%nat -> script = [byte_at script 0] ++ take n (drop 1 script) ++ [byte_at script (Z.of_nat (S n))].
Proof.
  intros Hl. change script with (drop 0 script) at 1. rewrite (drop_byte script 0) by lia. rewrite (drop_split script 1 n) at 1.
  rewrite (drop_byte script (1 + n)), (drop_ge script (S (1 + n))) by lia. done.
Qed.

(** A special script is determined by its code. *)
Definition special (script c : list Z) : Prop :=
  exists b v, c = b :: v /\ 0 <= b < nSpecialScripts /\ Zlen v = GetSpecialSize b /\ Decompress b v = Some script /\ bytes_ok v.

Lemma key_id_special script id : bytes_ok script -> IsToKeyID script = Some id -> special script (0 :: id).
Proof.
  intros Hok E. unfold IsToKeyID in E. destruct (_ && _) eqn:Ec in E; [| done]. injection E as <-. bool_to_prop. unfold Zlen in *. exists 0, (take 20 (drop 3 script)).
  split; [done |]. split; [done |]. split; [unfold Zlen; rewrite length_take, length_drop; change (GetSpecialSize 0) with 20; lia |]. split; [| by apply Forall_take, Forall_drop].
  unfold Decompress. cbn [Z.eqb]. rewrite take_take, Nat.min_id. f_equal. rewrite (script_parts_3 script) at 2 by lia. congruence.
Qed.

Lemma script_id_special script id : bytes_ok script -> IsToScriptID script = Some id -> special script (1 :: id).
Proof.
  intros Hok E. unfold IsToScriptID in E. destruct (_ && _) eqn:Ec in E; [| done]. injection E as <-. bool_to_prop. unfold Zlen in *. exists 1, (take 20 (drop 2 script)).
  split; [done |]. split; [done |]. split; [unfold Zlen; rewrite length_take, length_drop; change (GetSpecialSize 1) with 20; lia |]. split; [| by apply Forall_take, Forall_drop].
  unfold Decompress. cbn [Z.eqb]. rewrite take_take, Nat.min_id. f_equal. rewrite (script_parts_2 script) at 2 by lia. congruence.
Qed.

Lemma key_parts script n : length script = (n + 3)%nat -> exists b x, take (S n) (drop 1 script) = b :: x /\ b = byte_at script 1 /\ length x = n /\
  script = [byte_at script 0] ++ (b :: x) ++ [byte_at script (Z.of_nat (S (S n)))].
Proof.
  intros Hl. pose proof (script_parts_1 script (S n) ltac:(lia)) as Hs. rewrite (drop_byte script 1) in * by lia. cbn [take] in *. eexists _, _. split; [reflexivity |]. split; [done |].
  split; [rewrite length_take, length_drop; lia | exact Hs].
Qed.

Lemma IsToPubKey_shape script key : IsToPubKey script = Some key -> exists b x, key = b :: x /\
  ((b = 2 \/ b = 3) /\ length x = 32%nat /\ script = [33] ++ key ++ [OP_CHECKSIG] \/
   b = 4 /\ length x = 64%nat /\ script = [65] ++ key ++ [OP_CHECKSIG] /\ IsFullyValid key = true).
Proof.
  unfold IsToPubKey. destruct ((Zlen script =? 35) && _ && _ && _) eqn:Ec.
  - intros [= <-]. apply andb_true_iff in Ec as [Ec Eb]. bool_to_prop. unfold Zlen in *. destruct (key_parts script 32 ltac:(lia)) as (b & x & E & Hb & Hx & Hs). rewrite E. exists b, x. split; [done |]. left.
    split; [apply orb_true_iff in Eb as [? | ?]; bool_to_prop; lia |]. split; [done |]. change (Z.of_nat 34) with 34 in Hs. rewrite Hs at 1. congruence.
  - destruct ((Zlen script =? 67) && _ && _ && _) eqn:Ed; [| discriminate]. cbv zeta. destruct (IsFullyValid _) eqn:Ev; [| done]. intros [= <-]. bool_to_prop. unfold Zlen in *. destruct (key_parts script 64 ltac:(lia)) as (b & x & E & Hb & Hx & Hs). rewrite E in Ev. rewrite E.
    exists b, x. split; [done |]. right. split; [congruence |]. split; [done |]. split; [| done]. change (Z.of_nat 66) with 66 in Hs. rewrite Hs at 1. congruence.
Qed.

Lemma pub_key_special script key c : bytes_ok script -> IsToPubKey script = Some key ->
  (let x := take 32 (drop 1 key) in
   if (byte_at key 0 =? 2) || (byte_at key 0 =? 3) then Some (byte_at key 0 :: x)
   else if byte_at key 0 =? 4 then Some (Z.lor 4 (Z.land (byte_at key 64) 1) :: x) else None) = Some c -> special script c.
Proof.
  intros Hok (b & x & -> & Hk)%IsToPubKey_shape. change (byte_at (b :: x) 0) with b. change (drop 1 (b :: x)) with x. cbv zeta. destruct Hk as [(Hb & Hx & Hs) | (-> & Hx & Hs & Hv)].
  - rewrite take_ge by lia. assert (Hbt : (b =? 2) || (b =? 3) = true) by (destruct Hb as [-> | ->]; done). rewrite Hbt. intros [= <-]. exists b, x. split; [done |]. split; [unfold nSpecialScripts; lia |].
    split; [destruct Hb as [-> | ->]; [change (GetSpecialSize 2) with 32 | change (GetSpecialSize 3) with 32]; unfold Zlen; lia |]. split; [| rewrite Hs in Hok; apply Forall_app in Hok as [_ Hok]; apply Forall_app in Hok as [Hok _]; by apply Forall_cons_1 in Hok as [_ ?]].
    unfold Decompress. rewrite Hbt, (take_ge x 32), (proj2 (Z.eqb_neq b 0)), (proj2 (Z.eqb_neq b 1)) by lia. rewrite Hs at 1. done.
  - cbn [Z.eqb Pos.eqb orb]. intros [= <-]. set (y := drop 32 x). assert (Exy : x = take 32 x ++ y) by (unfold y; by rewrite take_drop).
    assert (Hxl : Zlen (take 32 x) = 32) by (unfold Zlen; rewrite length_take; lia). assert (Hyl : Zlen y = 32) by (unfold Zlen, y; rewrite length_drop; lia).
    assert (Hbx : bytes_ok x) by (rewrite Hs in Hok; apply Forall_app in Hok as [_ Hok]; apply Forall_app in Hok as [Hok _]; by apply Forall_cons_1 in Hok as [_ ?]).
    assert (Hlast : byte_at (4 :: x) 64 = byte_at y 31) by (unfold byte_at, y; rewrite lookup_drop; done). rewrite Hlast. set (p := Z.land (byte_at y 31) 1).
    assert (Hp : p = 0 \/ p = 1) by (pose proof (Z.land_ones (byte_at y 31) 1 ltac:(lia)) as Hl; change (Z.ones 1) with 1 in Hl; fold p in Hl; pose proof (Z.mod_pos_bound (byte_at y 31) (2 ^ 1) ltac:(lia)); change (2 ^ 1) with 2 in *; lia).
    assert (Hlor : Z.lor 4 p = 4 + p) by (destruct Hp as [-> | ->]; done). rewrite Hlor. exists (4 + p), (take 32 x). split; [done |]. split; [unfold nSpecialScripts; lia |].
    split; [destruct Hp as [-> | ->]; done |]. split; [| by apply Forall_take].
    pose proof (decompress_valid (take 32 x) y Hxl Hyl ltac:(by apply Forall_take) ltac:(by apply Forall_drop)) as Hd. rewrite <- Exy in Hd. fold p in Hd.
    unfold Decompress. rewrite (take_take x 32 32), Nat.min_id. replace (4 + p - 2) with (2 + p) by lia. rewrite (Hd Hv), Hs. destruct Hp as [-> | ->]; done.
Qed.

Lemma Compress_special script c : bytes_ok script -> Compress script = Some c -> special script c.
Proof.
  intros Hok. unfold Compress. destruct (IsToKeyID script) as [id |] eqn:E1; [intros [= <-]; by apply key_id_special |].
  destruct (IsToScriptID script) as [id |] eqn:E2; [intros [= <-]; by apply script_id_special |]. destruct (IsToPubKey script) as [key |] eqn:E3; [| done]. by apply pub_key_special.
Qed.

(** ** Records *)

Lemma VarInt_RoundTrip w : 7 <= w -> RoundTrip (fun n => 0 <= n < 2 ^ w) (Serialize_VarInt w) (ReadVarInt w).
Proof. intros Hw. split; [intros n s Hn | intros n Hn]; unfold Serialize_VarInt; [destruct (VarInt_roundtrip w n s Hw Hn) as (b & -> & _ & E) | destruct (VarInt_roundtrip w n [] Hw Hn) as (b & -> & E & _)]; exact E. Qed.

#[local] Instance VarInt32_RoundTrip : RoundTrip (fun n => 0 <= n < 2 ^ 32) (Serialize_VarInt 32) (ReadVarInt 32).
Proof. by apply VarInt_RoundTrip. Qed.

#[local] Instance VarInt64_RoundTrip : RoundTrip (fun n => 0 <= n < 2 ^ 64) (Serialize_VarInt 64) (ReadVarInt 64).
Proof. by apply VarInt_RoundTrip. Qed.

Definition wf_stored_script (script : list Z) : Prop := bytes_ok script /\ Zlen script <= MAX_SCRIPT_SIZE.

#[export] Instance script_RoundTrip : RoundTrip wf_stored_script Serialize_script Unserialize_script.
Proof.
  split.
  - intros script s [Hok Hl]. unfold Serialize_script. destruct (Compress script) as [c |] eqn:E.
    + destruct (Compress_special script c Hok E) as (b & v & -> & Hb & Hv & Hd & _). by rewrite Unserialize_special, Hd.
    + unfold MAX_SCRIPT_SIZE, nSpecialScripts in *. pose proof (Zlen_nonneg script). rewrite uint32_id by lia. rewrite <- app_assoc. unfold Unserialize_script. erewrite bind_step by (apply round_trip; lia).
      unfold nSpecialScripts. rewrite (proj2 (Z.ltb_ge _ _)) by lia. erewrite bind_step by (apply read_app; lia). by rewrite Z.gtb_ltb, (proj2 (Z.ltb_ge _ _)) by (unfold MAX_SCRIPT_SIZE; lia).
  - intros script [Hok Hl]. unfold Serialize_script. destruct (Compress script) as [c |] eqn:E.
    + destruct (Compress_special script c Hok E) as (b & v & -> & Hb & _ & _ & Hv). constructor; [unfold is_byte, nSpecialScripts in *; lia | done].
    + apply bytes_ok_app. split; [apply (round_trip_ok (RoundTrip := VarInt32_RoundTrip)); apply uint32_range | done].
Qed.

Definition wf_stored_output (out : CTxOut) : Prop := 0 <= nValue out < 2 ^ 60 /\ wf_stored_script (scriptPubKey out).

#[export] Instance TxOutCompressor_RoundTrip : RoundTrip wf_stored_output Serialize_TxOutCompressor Unserialize_TxOutCompressor.
Proof.
  split.
  - intros [v sc] s [Hv Hs]. cbn [nValue scriptPubKey] in *. unfold Serialize_TxOutCompressor, Unserialize_TxOutCompressor. cbn [nValue scriptPubKey]. rewrite uint64_id by lia. destruct (amount_roundtrip v Hv) as [Ha Hr].
    rewrite <- app_assoc. erewrite bind_step by by apply round_trip. erewrite bind_step by by apply round_trip. unfold read_ret. rewrite Ha. by rewrite int64_id by lia.
  - intros [v sc] [Hv Hs]. cbn [nValue scriptPubKey] in *. unfold Serialize_TxOutCompressor. cbn [nValue scriptPubKey]. rewrite uint64_id by lia. apply bytes_ok_app.
    split; [apply (round_trip_ok (RoundTrip := VarInt64_RoundTrip)), amount_roundtrip, Hv | by apply (round_trip_ok (RoundTrip := script_RoundTrip))].
Qed.

Definition wf_stored_coin (c : Coin) : Prop := 0 <= coin_nHeight c < 2 ^ 30 /\ wf_stored_output (coin_out c).

(** Height and coinbase flag in one number. *)
Lemma coin_code h (b : bool) : 0 <= h < 2 ^ 30 -> let code := uint32 (h * 2 + Z.b2z b) in 0 <= code < 2 ^ 32 /\ code / 2 = h /\ Z.shiftr code 1 = h /\ flag code 1 = b.
Proof.
  intros Hh. cbv zeta. assert (0 <= Z.b2z b < 2) by (destruct b; cbn; lia). rewrite uint32_id by lia. split; [lia |].
  assert (E : (h * 2 + Z.b2z b) / 2 = h) by (rewrite Z.add_comm, Z.div_add, Z.div_small by lia; lia). split; [done |]. split; [by rewrite Z.shiftr_div_pow2 by lia |].
  change 1 with (2 ^ 0) at 1. rewrite flag_pow2 by lia. rewrite Z.bit0_odd, Z.add_comm, Z.mul_comm, Z.odd_add_mul_2. by destruct b.
Qed.

#[export] Instance Coin_RoundTrip : RoundTrip wf_stored_coin coin_bytes Unserialize_Coin.
Proof.
  split.
  - intros [out cb h] s [Hh Ho]. cbn [coin_out coin_nHeight] in *. unfold coin_bytes, Unserialize_Coin. cbn [coin_out coin_nHeight fCoinBase]. destruct (coin_code h cb Hh) as (Hc & _ & E2 & E3). rewrite <- app_assoc.
    erewrite bind_step by by apply round_trip. erewrite bind_step by by apply round_trip. unfold read_ret. by rewrite E2, E3.
  - intros [out cb h] [Hh Ho]. unfold coin_bytes. cbn [coin_out coin_nHeight fCoinBase] in *. apply bytes_ok_app.
    split; [apply (round_trip_ok (RoundTrip := VarInt32_RoundTrip)), coin_code, Hh | by apply (round_trip_ok (RoundTrip := TxOutCompressor_RoundTrip))].
Qed.

#[export] Instance TxInUndo_RoundTrip : RoundTrip wf_stored_coin Serialize_TxInUndo Unserialize_TxInUndo.
Proof.
  split.
  - intros [out cb h] s [Hh Ho]. cbn [coin_out coin_nHeight] in *. unfold Serialize_TxInUndo, Unserialize_TxInUndo. cbn [coin_out coin_nHeight fCoinBase]. destruct (coin_code h cb Hh) as (Hc & E1 & _ & E3). rewrite <- !app_assoc.
    erewrite bind_step by by apply round_trip. rewrite E1. change (ser_writedata8 0) with [0]. destruct (h >? 0); cbn [app]; (erewrite bind_step by reflexivity); (erewrite bind_step by by apply round_trip); unfold read_ret; by rewrite E3.
  - intros [out cb h] [Hh Ho]. unfold Serialize_TxInUndo. cbn [coin_out coin_nHeight fCoinBase] in *. rewrite !bytes_ok_app.
    split; [apply (round_trip_ok (RoundTrip := VarInt32_RoundTrip)), coin_code, Hh |]. split; [| by apply (round_trip_ok (RoundTrip := TxOutCompressor_RoundTrip))]. destruct (h >? 0); [by apply bytes_ok_1 | constructor].
Qed.

Definition wf_undo (l : list Coin) : Prop := Forall wf_stored_coin l /\ Zlen l <= MAX_INPUTS_PER_BLOCK.

#[export] Instance TxUndo_RoundTrip : RoundTrip wf_undo Serialize_TxUndo Unserialize_TxUndo.
Proof.
  assert (Hmax : MAX_INPUTS_PER_BLOCK <= MAX_SIZE) by done. split.
  - intros l s [Hl Hn]. unfold Serialize_TxUndo, Unserialize_TxUndo. rewrite <- app_assoc. pose proof (Zlen_nonneg l). erewrite bind_step by (apply ReadCompactSize_Write; lia).
    rewrite Z.gtb_ltb, (proj2 (Z.ltb_ge _ _)) by done. unfold Zlen. rewrite Nat2Z.id. by apply Unserialize_items_app.
  - intros l [Hl Hn]. apply bytes_ok_app. split; [apply WriteCompactSize_ok | by apply concat_ok].
Qed.
End Scripts.

(** A coin with an amount is not spent. *)
Lemma stored_coin_written `{PubKeyCodec} c : wf_stored_coin c -> Serialize_Coin c = Ret (coin_bytes c).
Proof.
  intros (_ & Hv & _). unfold Serialize_Coin, IsSpent, CTxOut_IsNull. by rewrite (proj2 (Z.eqb_neq _ _)) by lia.
Qed.

(** C26. A coin that is stored in the database is read back as it was: the amount, the
    script, the height and the coinbase flag; and so is the undo data of a block, whatever
    follows it in the file. *)
Theorem stored_coins_roundtrip `{PubKeyLaws} (c : Coin) (undo : list (list Coin)) s :
  wf_stored_coin c -> Forall wf_undo undo -> Zlen undo <= MAX_SIZE ->
  (exists b, Serialize_Coin c = Ret b /\ Unserialize_Coin (b ++ s) = Some (c, s)) /\ Unserialize_BlockUndo (Serialize_BlockUndo undo ++ s) = Some (undo, s).
Proof. intros Hc Hu Hn. split; [exists (coin_bytes c); split; [by apply stored_coin_written | by apply round_trip] |]. apply (round_trip (RoundTrip := vector_RoundTrip)). done. Qed.

(** Keys whose second coordinate is 0 or 1. *)
Definition sample_codec : PubKeyCodec := {|
  IsFullyValid k := bool_decide (drop 33 k = replicate 31 0 ++ [Z.land (byte_at k 64) 1]);
  PubKey_Decompress k := match k with b :: x => Some (4 :: x ++ replicate 31 0 ++ [b - 2]) | [] => None end
|}.

Lemma sample_codec_laws : @PubKeyLaws sample_codec.
Proof.
  split. intros x y Hx Hy _ _ Hv. cbn in *. apply bool_decide_eq_true_1 in Hv. unfold Zlen in *. rewrite drop_app_length' in Hv by lia.
  assert (E : byte_at (4 :: x ++ y) 64 = byte_at y 31) by (unfold byte_at; change ((4 :: x ++ y) !! Z.to_nat 64) with ((x ++ y) !! 63%nat); rewrite lookup_app_r by lia; by replace (63 - length x)%nat with (Z.to_nat 31) by lia).
  rewrite E in Hv. rewrite Hv at 2. replace (2 + Z.land (byte_at y 31) 1 - 2) with (Z.land (byte_at y 31) 1) by lia. done.
Qed.

Lemma stored_coins_roundtrip_witness :
  let H := sample_codec in let c := mkCoin (TxOut 5000000000 ([118; 169; 20] ++ replicate 20 7 ++ [136; 172])) true 120000 in
  (exists b, Serialize_Coin c = Ret b /\ Unserialize_Coin (b ++ [9]) = Some (c, [9])) /\ Unserialize_BlockUndo (Serialize_BlockUndo [[c]] ++ [9]) = Some ([[c]], [9]).
Proof.
  intros H c. assert (Hc : wf_stored_coin c) by (split; [cbn; lia |]; split; [cbn; lia |]; split; [repeat (constructor; [unfold is_byte; lia |]); constructor | vm_compute; discriminate]).
  apply (@stored_coins_roundtrip sample_codec sample_codec_laws c [[c]] [9] Hc); [| vm_compute; discriminate]. constructor; [| constructor]. split; [by repeat constructor | vm_compute; discriminate].
Defined.
