(* ===== verification/Base58.v ===== *)
(** * Base-58 encodings

    The first part of [src/base58.cpp]: [EncodeBase58] and [DecodeBase58], which convert
    between bases 256 and 58 in an array whose size is computed in advance, and the
    encodings with a checksum. A character is its code, from 0 to 255; [isspace] is that of
    the C locale. The [int] sizes are integers without a bound: they agree with the code for
    inputs below about 1.5 gigabytes. *)

From Stdlib Require Import String Ascii.
From S2P Require Import Prelude Sha256 Hash.

Open Scope Z_scope.
Open Scope outcome_scope.

(** The codes of the characters of a string literal. *)
Definition chars (s : string) : list Z := (fun c => Z.of_N (N_of_ascii c)) <$> list_ascii_of_string s.

Definition pszBase58 : list Z := chars "123456789ABCDEFGHJKLMNPQRSTUVWXYZabcdefghijkmnopqrstuvwxyz".

Definition isspace (c : Z) : bool := (c =? 32) || (9 <=? c) && (c <=? 13).

(** A loop that skips the elements with a property, and the number of its steps. *)
Fixpoint skip (p : Z -> bool) (l : list Z) : list Z :=
  match l with
  | x :: l' => if p x then skip p l' else l
  | [] => []
  end.

Definition skipped (p : Z -> bool) (l : list Z) : nat := (List.length l - List.length (skip p l))%nat.

(** The inner loop of the conversions, [b = b * from + carry] in base [to], over the array
    in the order of its reverse iterator: the array, the carry and [i] when it ends. *)
Fixpoint carry_loop (from to : Z) (it : list Z) (carry i len : Z) : list Z * Z * Z :=
  match it with
  | [] => ([], carry, i)
  | d :: it' =>
    if negb (carry =? 0) || (i <? len) then
      let carry := carry + from * d in
      let '(r, c, i) := carry_loop from to it' (carry / to) (i + 1) len in (carry mod to :: r, c, i)
    else (it, carry, i)
  end.

(** One digit of the outer loops. *)
Definition convert_digit (from to : Z) (b : list Z) (len d : Z) : outcome (list Z * Z) :=
  let '(b, carry, i) := carry_loop from to b d 0 len in
  let? _ := cassert (carry =? 0) in Ret (b, i).

Fixpoint convert_digits (from to : Z) (b : list Z) (len : Z) (l : list Z) : outcome (list Z * Z) :=
  match l with
  | [] => Ret (b, len)
  | d :: l => let? (b, len) := convert_digit from to b len d in convert_digits from to b len l
  end.

(** The digits in use, the most significant first, without leading zeroes. *)
Definition result_digits (b : list Z) (len : Z) : list Z := skip (Z.eqb 0) (reverse (take (Z.to_nat len) b)).

Definition EncodeBase58 (vch : list Z) : outcome (list Z) :=
  let zeroes := skipped (Z.eqb 0) vch in
  let rest := skip (Z.eqb 0) vch in
  let size := Zlen rest * 138 / 100 + 1 in
  let? (b58, len) := convert_digits 256 58 (replicate (Z.to_nat size) 0) 0 rest in
  Ret (replicate zeroes (byte_at pszBase58 0) ++ (byte_at pszBase58 <$> result_digits b58 len)).

(** [strchr(pszBase58, c) - pszBase58] *)
Fixpoint strchr_pos (s : list Z) (c : Z) : option Z :=
  match s with
  | [] => None
  | x :: s => if x =? c then Some 0 else match strchr_pos s c with Some i => Some (i + 1) | None => None end
  end.

(** The loop on the characters; [None] when it returns false. *)
Fixpoint decode_chars (b : list Z) (len : Z) (psz : list Z) : outcome (option (list Z * Z * list Z)) :=
  match psz with
  | [] => Ret (Some (b, len, []))
  | c :: rest =>
    if isspace c then Ret (Some (b, len, psz))
    else
      match strchr_pos pszBase58 c with
      | None => Ret None
      | Some d => let? (b, len) := convert_digit 58 256 b len d in decode_chars b len rest
      end
  end.

(** The characters of a string before its first NUL. *)
Fixpoint c_str (s : list Z) : list Z :=
  match s with
  | [] => []
  | c :: s => if c =? 0 then [] else c :: c_str s
  end.

Definition DecodeBase58 (str : list Z) : outcome (option (list Z)) :=
  let psz := skip isspace (c_str str) in
  let zeroes := skipped (Z.eqb 49) psz in
  let psz := skip (Z.eqb 49) psz in
  let size := Zlen psz * 733 / 1000 + 1 in
  let? r := decode_chars (replicate (Z.to_nat size) 0) 0 psz in
  match r with
  | None => Ret None
  | Some (b256, len, psz) =>
    if bool_decide (skip isspace psz = []) then Ret (Some (replicate zeroes 0 ++ result_digits b256 len)) else Ret None
  end.

Definition EncodeBase58Check (vchIn : list Z) : outcome (list Z) := EncodeBase58 (vchIn ++ take 4 (Hash vchIn)).

Definition DecodeBase58Check (str : list Z) : outcome (option (list Z)) :=
  let? r := DecodeBase58 str in
  match r with
  | None => Ret None
  | Some vch =>
    if Zlen vch <? 4 then Ret None
    else
      let n := (List.length vch - 4)%nat in
      if bool_decide (take 4 (Hash (take n vch)) = drop n vch) then Ret (Some (take n vch)) else Ret None
  end.
