(* ===== verification/Base58Props.v ===== *)
(** * Base 58 is a bijection

    The arrays of the conversions are large enough, so that no assertion fails, and
    encoding and decoding are inverse to each other. *)

From Stdlib Require Import String.
From S2P Require Import Prelude Sha256 Hash Base58.

Open Scope Z_scope.
Open Scope outcome_scope.

(** ** Digits *)

Definition digits_ok (b : Z) (l : list Z) : Prop := Forall (fun d => 0 <= d < b) l.

(** The value of digits, the least significant first. *)
Fixpoint lval (b : Z) (l : list Z) : Z := match l with [] => 0 | d :: l => d + b * lval b l end.

(** The value of digits after [v], the most significant first. *)
Definition beval (b v : Z) (l : list Z) : Z := foldl (fun a d => a * b + d) v l.

Lemma lval_bound b l : 0 < b -> digits_ok b l -> 0 <= lval b l < b ^ Z.of_nat (length l).
Proof.
  intros Hb. induction 1 as [| d l Hd _ IH]; [cbn; lia |]. cbn [lval length]. rewrite Nat2Z.inj_succ, Z.pow_succ_r by lia. nia.
Qed.

Lemma lval_app b l k : lval b (l ++ k) = lval b l + b ^ Z.of_nat (length l) * lval b k.
Proof.
  induction l as [| d l IH]; [cbn [app lval length]; change (b ^ Z.of_nat 0) with 1; lia |]. cbn [app lval length]. rewrite IH, Nat2Z.inj_succ, Z.pow_succ_r by lia. lia.
Qed.

Lemma lval_zeroes b l : Forall (eq 0) l -> lval b l = 0.
Proof. induction 1 as [| d l <- _ IH]; [done |]. cbn [lval]. lia. Qed.

Lemma beval_reverse b l : beval b 0 (reverse l) = lval b l.
Proof.
  unfold beval. induction l as [| d l IH]; [done |]. rewrite reverse_cons, foldl_app. cbn [foldl]. rewrite IH. cbn [lval]. lia.
Qed.

Lemma beval_linear b l : forall v, beval b v l = v * b ^ Z.of_nat (length l) + beval b 0 l.
Proof.
  unfold beval. induction l as [| d l IH]; intros v; cbn [foldl length]; [change (b ^ Z.of_nat 0) with 1; lia |].
  rewrite (IH (v * b + d)), (IH (0 * b + d)), Nat2Z.inj_succ, Z.pow_succ_r by lia. lia.
Qed.

(** ** The conversion *)

Section Convert.
Context (from to : Z) (Hfrom : 1 < from) (Hto : 1 < to).

Lemma carry_loop_spec it : forall carry i len r c i',
  digits_ok to it -> 0 <= carry -> Forall (eq 0) (drop (Z.to_nat (len - i)) it) -> carry_loop from to it carry i len = (r, c, i') ->
  length r = length it /\ digits_ok to r /\ 0 <= c /\ lval to r + c * to ^ Z.of_nat (length it) = from * lval to it + carry /\
  i <= i' <= i + Zlen it /\ Forall (eq 0) (drop (Z.to_nat (i' - i)) r).
Proof.
  unfold Zlen. induction it as [| d it IH]; intros carry i len r c i' Hd Hc Hz E; cbn [carry_loop] in E.
  - injection E as <- <- <-. cbn [lval length]. change (to ^ Z.of_nat 0) with 1. rewrite drop_nil. split_and!; first [done | lia | constructor].
  - apply Forall_cons_1 in Hd as [Hd Hds]. destruct (negb (carry =? 0) || (i <? len)) eqn:Econd.
    + destruct (carry_loop from to it ((carry + from * d) / to) (i + 1) len) as [[r' c'] j] eqn:E'. injection E as <- <- <-.
      assert (Hz' : Forall (eq 0) (drop (Z.to_nat (len - (i + 1))) it)).
      { destruct (Z.lt_ge_cases i len); [by replace (Z.to_nat (len - i)) with (S (Z.to_nat (len - (i + 1)))) in Hz by lia |].
        replace (Z.to_nat (len - (i + 1))) with 0%nat by lia. replace (Z.to_nat (len - i)) with 0%nat in Hz by lia. by apply Forall_cons_1 in Hz as [_ ?]. }
      pose proof (Z.div_mod (carry + from * d) to ltac:(lia)) as Hdm. pose proof (Z.mod_pos_bound (carry + from * d) to ltac:(lia)) as Hm.
      assert (Hq : 0 <= (carry + from * d) / to) by (apply Z.div_pos; nia). destruct (IH _ _ _ _ _ _ Hds Hq Hz' E') as (Hl & Hr & Hc' & Hv & Hi & Hz2).
      cbn [lval length]. rewrite Hl, Nat2Z.inj_succ, Z.pow_succ_r by lia. split; [done |]. split; [by constructor |]. split; [done |]. split; [nia |]. split; [lia |].
      by replace (Z.to_nat (j - i)) with (S (Z.to_nat (j - (i + 1)))) by lia.
    + injection E as <- <- <-. apply orb_false_iff in Econd as [Ec Ei]. bool_to_prop. subst carry. replace (Z.to_nat (len - i)) with 0%nat in Hz by lia. rewrite Z.sub_diag.
      rewrite (lval_zeroes to (d :: it)) by done. split; [done |]. split; [by constructor |]. split; [done |]. split; [lia |]. split; [lia | done].
Qed.

(** An array of [size] digits, of which the first [len] are in use. *)
Definition array_ok (size : nat) (b : list Z) (len : Z) : Prop :=
  length b = size /\ digits_ok to b /\ 0 <= len <= Z.of_nat size /\ Forall (eq 0) (drop (Z.to_nat len) b).

Lemma convert_digit_spec size b len d : array_ok size b len -> 0 <= d < from -> (lval to b + 1) * from <= to ^ Z.of_nat size ->
  exists b' len', convert_digit from to b len d = Ret (b', len') /\ array_ok size b' len' /\ lval to b' = lval to b * from + d.
Proof.
  intros (Hl & Hb & Hlen & Hz) Hd Hbound. unfold convert_digit. destruct (carry_loop from to b d 0 len) as [[r c] i] eqn:E.
  destruct (carry_loop_spec b d 0 len r c i Hb ltac:(lia) ltac:(by rewrite Z.sub_0_r) E) as (Hlr & Hr & Hc & Hv & Hi & Hz'). rewrite Hl in Hv.
  pose proof (lval_bound to r ltac:(lia) Hr). assert (Hc0 : c = 0) by nia. subst c. cbn [cassert Z.eqb obind]. exists r, i.
  split; [done |]. split; [| lia]. rewrite Z.sub_0_r in Hz'. unfold Zlen in Hi. repeat split; try done; lia.
Qed.

Lemma convert_digits_spec size l : forall b len, array_ok size b len -> digits_ok from l -> (lval to b + 1) * from ^ Z.of_nat (length l) <= to ^ Z.of_nat size ->
  exists b' len', convert_digits from to b len l = Ret (b', len') /\ array_ok size b' len' /\ lval to b' = beval from (lval to b) l.
Proof.
  induction l as [| d l IH]; intros b len Hok Hl Hbound; [by exists b, len |]. apply Forall_cons_1 in Hl as [Hd Hl]. cbn [length] in Hbound. rewrite Nat2Z.inj_succ, Z.pow_succ_r in Hbound by lia.
  pose proof (Z.pow_pos_nonneg from (Z.of_nat (length l)) ltac:(lia) ltac:(lia)). pose proof (lval_bound to b ltac:(lia) (proj1 (proj2 Hok))).
  destruct (convert_digit_spec size b len d Hok Hd ltac:(nia)) as (b1 & len1 & E1 & Hok1 & Hv1). cbn [convert_digits]. rewrite E1. cbn [obind].
  destruct (IH b1 len1 Hok1 Hl ltac:(nia)) as (b2 & len2 & E2 & Hok2 & Hv2). exists b2, len2. split; [done |]. split; [done |]. rewrite Hv2, Hv1. done.
Qed.
End Convert.

(** ** Canonical digits *)

(** Digits without a leading zero. *)
Definition canonical (b : Z) (l : list Z) : Prop := digits_ok b l /\ head l <> Some 0.

Lemma skip_suffix p l : exists k, l = k ++ skip p l /\ Forall (fun x => p x = true) k /\ length k = skipped p l.
Proof.
  unfold skipped. induction l as [| x l (k & E & Hk & _)]; [by exists [] |]. cbn [skip]. destruct (p x) eqn:Ex; [| exists []; by rewrite Nat.sub_diag].
  exists (x :: k). split; [cbn [app]; by rewrite <- E |]. split; [by constructor |]. apply (f_equal length) in E. rewrite length_app in E. cbn [length]. lia.
Qed.

Lemma skip_head p l x : head (skip p l) = Some x -> p x = false.
Proof. induction l as [| y l IH]; [done |]. cbn [skip]. destruct (p y) eqn:Ey; [done |]. by intros [= <-]. Qed.

Lemma skip_app p k l : Forall (fun x => p x = true) k -> (forall x, head l = Some x -> p x = false) -> skip p (k ++ l) = l /\ skipped p (k ++ l) = length k.
Proof.
  intros Hk Hl. assert (E : skip p (k ++ l) = l).
  { induction Hk as [| x k Hx _ IH]; cbn [app skip]; [| by rewrite Hx]. destruct l as [| y l]; [done |]. cbn [skip]. by rewrite (Hl y eq_refl). }
  split; [done |]. unfold skipped. rewrite E, length_app. lia.
Qed.

Lemma Forall_eq_replicate (l : list Z) x : Forall (fun y => (x =? y) = true) l -> l = replicate (length l) x.
Proof. induction 1 as [| y l Hy _ IH]; [done |]. apply Z.eqb_eq in Hy as <-. cbn [length replicate]. by f_equal. Qed.

Lemma skip_canonical b l : digits_ok b l -> l = replicate (skipped (Z.eqb 0) l) 0 ++ skip (Z.eqb 0) l /\ canonical b (skip (Z.eqb 0) l) /\ beval b 0 (skip (Z.eqb 0) l) = beval b 0 l.
Proof.
  intros Hl. destruct (skip_suffix (Z.eqb 0) l) as (k & E & Hk & Hlen). apply Forall_eq_replicate in Hk. rewrite Hlen in Hk. subst k. split; [done |]. split.
  - split; [unfold digits_ok in Hl; rewrite E in Hl; by apply Forall_app in Hl as [_ ?] | intros H0%skip_head; done].
  - rewrite E at 2. unfold beval. rewrite foldl_app. f_equal. generalize (skipped (Z.eqb 0) l). intros n. induction n as [| n IH]; [done |]. cbn [replicate foldl]. by rewrite Z.mul_0_l.
Qed.

Lemma lval_pos b l : 1 < b -> digits_ok b l -> list.last l <> Some 0 -> l <> [] -> 0 < lval b l.
Proof.
  intros Hb Hl Hlast Hne. induction Hl as [| d l Hd Hl IH]; [done |]. cbn [lval]. destruct l as [| e l]; [cbn [lval]; assert (d <> 0) by (intros ->; by apply Hlast); lia |].
  assert (0 < lval b (e :: l)) by (by apply IH). nia.
Qed.

Lemma lval_inj b l : 1 < b -> forall k, digits_ok b l -> digits_ok b k -> list.last l <> Some 0 -> list.last k <> Some 0 -> lval b l = lval b k -> l = k.
Proof.
  intros Hb. induction l as [| d l IH]; intros k Hl Hk Hll Hlk E.
  - destruct k; [done |]. pose proof (lval_pos b _ Hb Hk Hlk ltac:(done)). rewrite <- E in *. cbn in *. lia.
  - destruct k as [| e k]; [pose proof (lval_pos b _ Hb Hl Hll ltac:(done)); rewrite E in *; cbn in *; lia |]. cbn [lval] in E. apply Forall_cons_1 in Hl as [Hd Hl], Hk as [He Hk].
    assert (Ed : d = e) by (apply (f_equal (fun x => x mod b)) in E; rewrite !(Z.mul_comm b), !Z.mod_add, !Z.mod_small in E by lia; done). subst e. f_equal.
    assert (Hlast : forall (m : list Z), list.last (d :: m) <> Some 0 -> list.last m <> Some 0) by (intros [| ? ?] H; [done | exact H]).
    apply IH; [done | done | by apply Hlast | by apply Hlast | nia].
Qed.

Lemma canonical_inj b l k : 1 < b -> canonical b l -> canonical b k -> beval b 0 l = beval b 0 k -> l = k.
Proof.
  intros Hb [Hl Hhl] [Hk Hhk] E. rewrite <- (reverse_involutive l), <- (reverse_involutive k) in E. rewrite !beval_reverse in E.
  apply (inj reverse). apply (lval_inj b); try done; try (by apply Forall_reverse); by rewrite last_reverse.
Qed.

Lemma result_digits_spec to size b len : 1 < to -> array_ok to size b len -> canonical to (result_digits b len) /\ beval to 0 (result_digits b len) = lval to b.
Proof.
  intros Hto (Hl & Hb & Hlen & Hz). unfold result_digits. destruct (skip_canonical to (reverse (take (Z.to_nat len) b))) as (_ & Hc & ->); [by apply Forall_reverse, Forall_take |].
  split; [done |]. rewrite beval_reverse. rewrite <- (take_drop (Z.to_nat len) b) at 2. rewrite lval_app, (lval_zeroes to (drop _ _)) by done. lia.
Qed.

(** Digits are converted to the canonical digits of their value. *)
Lemma convert_spec from to size l : 1 < from -> 1 < to -> digits_ok from l -> from ^ Z.of_nat (length l) <= to ^ Z.of_nat size ->
  exists b len, convert_digits from to (replicate size 0) 0 l = Ret (b, len) /\ canonical to (result_digits b len) /\ beval to 0 (result_digits b len) = beval from 0 l.
Proof.
  intros Hf Ht Hl Hbound. assert (Hz : Forall (eq 0) (replicate size 0)) by (by apply Forall_replicate). assert (Hv : lval to (replicate size 0) = 0) by (by apply lval_zeroes).
  assert (Hok : array_ok to size (replicate size 0) 0) by (split; [apply length_replicate |]; split; [apply Forall_replicate; lia |]; split; [lia | done]).
  destruct (convert_digits_spec from to Hf Ht size l _ _ Hok Hl ltac:(rewrite Hv; lia)) as (b & len & E & Hok' & Hval). exists b, len. split; [done |].
  rewrite Hv in Hval. rewrite <- Hval. by apply (result_digits_spec to size).
Qed.

(** ** The sizes of the arrays *)

Lemma pow_ratio a b p q n m : 0 < a -> 1 < b -> 0 <= p -> 0 < q -> 0 <= n -> 0 <= m -> a ^ q <= b ^ p -> p * n <= q * m -> a ^ n <= b ^ m.
Proof.
  intros Ha Hb Hp Hq Hn Hm Hratio Hle. apply Z.nlt_ge. intros Hlt. assert (Hnn : 0 <= b ^ m) by (apply Z.pow_nonneg; lia). pose proof (Z.pow_lt_mono_l (b ^ m) (a ^ n) q Hq (conj Hnn Hlt)) as Hlt'. clear Hlt. rename Hlt' into Hlt.
  rewrite <- !Z.pow_mul_r in Hlt by lia. apply Z.lt_nge in Hlt. apply Hlt. rewrite (Z.mul_comm n), (Z.mul_comm m), Z.pow_mul_r by lia. transitivity ((b ^ p) ^ n).
  - apply Z.pow_le_mono_l. split; [apply Z.pow_nonneg; lia | done].
  - rewrite <- Z.pow_mul_r by lia. apply Z.pow_le_mono_r; lia.
Qed.

Lemma encode_size n : 0 <= n -> 256 ^ n <= 58 ^ (n * 138 / 100 + 1).
Proof. intros Hn. assert (256 ^ 50 <= 58 ^ 69) by (vm_compute; discriminate). apply (pow_ratio 256 58 69 50); try done; Z.to_euclidean_division_equations; lia. Qed.

Lemma decode_size n : 0 <= n -> 58 ^ n <= 256 ^ (n * 733 / 1000 + 1).
Proof. intros Hn. assert (58 ^ 71 <= 256 ^ 52) by (vm_compute; discriminate). apply (pow_ratio 58 256 52 71); try done; Z.to_euclidean_division_equations; lia. Qed.

(** ** Characters *)

Definition char58 (d : Z) : Z := byte_at pszBase58 d.

Lemma char58_spec d : 0 <= d < 58 -> strchr_pos pszBase58 (char58 d) = Some d /\ isspace (char58 d) = false /\ char58 d <> 0 /\ (49 =? char58 d) = (0 =? d).
Proof.
  intros Hd. pose (ok := fun d => match strchr_pos pszBase58 (char58 d) with Some e => e =? d | None => false end && negb (isspace (char58 d)) && negb (char58 d =? 0) && eqb (49 =? char58 d) (0 =? d)).
  assert (H := all_below ok 58 ltac:(vm_compute; reflexivity) d Hd). unfold ok in H. rewrite !andb_true_iff in H. destruct H as [[[H1 H2] H3] H4].
  destruct (strchr_pos pszBase58 (char58 d)) as [e |]; [| done]. apply Z.eqb_eq in H1 as ->. bool_to_prop. apply eqb_prop in H4. done.
Qed.

Lemma strchr_pos_spec s c d : strchr_pos s c = Some d -> 0 <= d < Zlen s /\ byte_at s d = c.
Proof.
  unfold Zlen. revert d. induction s as [| x s IH]; intros d; cbn [strchr_pos length]; [done |]. destruct (Z.eqb_spec x c) as [-> | _]; [intros [= <-]; split; [lia | done] |].
  destruct (strchr_pos s c) as [i |]; [| done]. intros [= <-]. destruct (IH i eq_refl) as [Hi <-]. split; [lia |]. unfold byte_at. by replace (Z.to_nat (i + 1)) with (S (Z.to_nat i)) by lia.
Qed.

Lemma decode_chars_digits l : forall b len, digits_ok 58 l -> decode_chars b len (char58 <$> l) = let? (b, len) := convert_digits 58 256 b len l in Ret (Some (b, len, [])).
Proof.
  induction l as [| d l IH]; intros b len Hl; [done |]. apply Forall_cons_1 in Hl as [Hd Hl]. destruct (char58_spec d Hd) as (E & Hs & _). rewrite fmap_cons. cbn [decode_chars convert_digits]. rewrite Hs, E.
  destruct (convert_digit 58 256 b len d) as [[b' len'] | | |]; [| done ..]. cbn [obind]. by apply IH.
Qed.

Lemma c_str_id s : Forall (fun c => c <> 0) s -> c_str s = s.
Proof. induction 1 as [| c s Hc _ IH]; [done |]. cbn [c_str]. by rewrite (proj2 (Z.eqb_neq c 0)), IH by done. Qed.

Lemma skip_none p l : Forall (fun c => p c = false) l -> skip p l = l.
Proof. destruct 1 as [| c l Hc _]; [done |]. cbn [skip]. by rewrite Hc. Qed.

(** ** Encoding and decoding *)

Lemma EncodeBase58_spec zeroes l : canonical 256 l -> exists m, canonical 58 m /\ beval 58 0 m = beval 256 0 l /\ EncodeBase58 (replicate zeroes 0 ++ l) = Ret (char58 <$> replicate zeroes 0 ++ m).
Proof.
  intros [Hl Hh]. unfold EncodeBase58. destruct (skip_app (Z.eqb 0) (replicate zeroes 0) l) as [-> ->]; [by apply Forall_replicate | intros x Hx; apply Z.eqb_neq; intros <-; done |].
  rewrite length_replicate. unfold Zlen. pose proof (encode_size (Z.of_nat (length l)) ltac:(lia)) as Hsize. set (size := Z.of_nat (length l) * 138 / 100 + 1) in *.
  assert (0 <= size) by (unfold size; Z.to_euclidean_division_equations; lia).
  destruct (convert_spec 256 58 (Z.to_nat size) l ltac:(lia) ltac:(lia) Hl ltac:(rewrite Z2Nat.id by lia; done)) as (b & len & -> & Hc & Hv). cbn [obind].
  exists (result_digits b len). split; [done |]. split; [done |]. rewrite fmap_app. do 2 f_equal. by rewrite fmap_replicate.
Qed.

Lemma DecodeBase58_spec zeroes m : canonical 58 m -> exists l, canonical 256 l /\ beval 256 0 l = beval 58 0 m /\ DecodeBase58 (char58 <$> replicate zeroes 0 ++ m) = Ret (Some (replicate zeroes 0 ++ l)).
Proof.
  intros [Hm Hh]. unfold DecodeBase58. assert (Hall : digits_ok 58 (replicate zeroes 0 ++ m)) by (apply Forall_app; split; [apply Forall_replicate; lia | done]).
  rewrite c_str_id by (apply Forall_fmap; apply (list.Forall_impl _ _ _ Hall); intros d Hd; by apply char58_spec). rewrite (skip_none isspace) by (apply Forall_fmap; apply (list.Forall_impl _ _ _ Hall); intros d Hd; by apply char58_spec).
  rewrite fmap_app. destruct (skip_app (Z.eqb 49) (char58 <$> replicate zeroes 0) (char58 <$> m)) as [-> ->].
  { apply Forall_fmap, Forall_replicate. done. }
  { destruct Hm as [| d m Hd]; [done |]. intros x [= <-]. destruct (char58_spec d Hd) as (_ & _ & _ & ->). apply Z.eqb_neq. intros <-. done. }
  unfold Zlen. rewrite !length_fmap, length_replicate. pose proof (decode_size (Z.of_nat (length m)) ltac:(lia)) as Hsize. set (size := Z.of_nat (length m) * 733 / 1000 + 1) in *.
  assert (0 <= size) by (unfold size; Z.to_euclidean_division_equations; lia). rewrite decode_chars_digits by done.
  destruct (convert_spec 58 256 (Z.to_nat size) m ltac:(lia) ltac:(lia) Hm ltac:(rewrite Z2Nat.id by lia; done)) as (b & len & -> & Hc & Hv). cbn [obind skip].
  exists (result_digits b len). split; [done |]. split; [done |]. by rewrite bool_decide_true.
Qed.

(** No assertion fails on any characters. *)
Lemma decode_chars_total size psz : forall b len, array_ok 256 size b len -> (lval 256 b + 1) * 58 ^ Zlen psz <= 256 ^ Z.of_nat size -> exists r, decode_chars b len psz = Ret r.
Proof.
  unfold Zlen. induction psz as [| c psz IH]; intros b len Hok Hbound; cbn [decode_chars]; [by eexists |]. destruct (isspace c); [by eexists |].
  destruct (strchr_pos pszBase58 c) as [d |] eqn:Ed; [| by eexists]. destruct (strchr_pos_spec _ _ _ Ed) as [Hd _]. change (Zlen pszBase58) with 58 in Hd.
  cbn [length] in Hbound. rewrite Nat2Z.inj_succ, Z.pow_succ_r in Hbound by lia. pose proof (Z.pow_pos_nonneg 58 (Z.of_nat (length psz)) ltac:(lia) ltac:(lia)).
  pose proof (lval_bound 256 b ltac:(lia) (proj1 (proj2 Hok))). destruct (convert_digit_spec 58 256 ltac:(lia) ltac:(lia) size b len d Hok Hd ltac:(nia)) as (b' & len' & -> & Hok' & Hv). cbn [obind].
  apply IH; [done |]. rewrite Hv. nia.
Qed.

Lemma DecodeBase58_total str : exists r, DecodeBase58 str = Ret r.
Proof.
  unfold DecodeBase58. set (psz := skip (Z.eqb 49) (skip isspace (c_str str))). pose proof (decode_size (Zlen psz) (Zlen_nonneg psz)) as Hsize.
  set (size := Zlen psz * 733 / 1000 + 1) in *. assert (0 <= size) by (unfold size; pose proof (Zlen_nonneg psz); Z.to_euclidean_division_equations; lia).
  destruct (decode_chars_total (Z.to_nat size) psz (replicate (Z.to_nat size) 0) 0) as [[[[b len] rest] |] ->].
  - split; [apply length_replicate |]. split; [apply Forall_replicate; lia |]. split; [lia |]. by apply Forall_replicate.
  - rewrite lval_zeroes by (by apply Forall_replicate). rewrite Z2Nat.id by lia. lia.
  - cbn [obind]. destruct (bool_decide _); by eexists.
  - cbn [obind]. by eexists.
Qed.

Lemma base58_encode_decode v : bytes_ok v -> exists s, EncodeBase58 v = Ret s /\ Forall (.∈ pszBase58) s /\ DecodeBase58 s = Ret (Some v).
Proof.
  intros Hv. destruct (skip_canonical 256 v Hv) as (E & Hc & _). set (l := skip (Z.eqb 0) v) in *. set (z := skipped (Z.eqb 0) v) in *. rewrite E.
  destruct (EncodeBase58_spec z l Hc) as (m & Hm & Hval & ->). exists (char58 <$> replicate z 0 ++ m). split; [done |]. split.
  - apply Forall_fmap, Forall_app. split; [apply Forall_replicate; by left |]. apply (list.Forall_impl _ _ _ (proj1 Hm)). intros d Hd. unfold compose, char58, byte_at.
    destruct (lookup_lt_is_Some_2 pszBase58 (Z.to_nat d)) as [c Hc']; [change (length pszBase58) with 58%nat; lia |]. rewrite Hc'. by apply list_elem_of_lookup_2 in Hc'.
  - destruct (DecodeBase58_spec z m Hm) as (l' & Hl' & Hval' & ->). do 3 f_equal. apply (canonical_inj 256); try done. congruence.
Qed.

Lemma base58_decode_encode s : Forall (.∈ pszBase58) s -> exists v, DecodeBase58 s = Ret (Some v) /\ bytes_ok v /\ EncodeBase58 v = Ret s.
Proof.
  intros Hs. assert (Hd : exists ds, digits_ok 58 ds /\ s = char58 <$> ds).
  { induction Hs as [| c s Hc _ (ds & Hds & ->)]; [by exists []; split; [constructor |] |]. apply list_elem_of_lookup_1 in Hc as [i Hi]. exists (Z.of_nat i :: ds).
    apply lookup_lt_Some in Hi as Hlt. change (length pszBase58) with 58%nat in Hlt. split; [constructor; [lia | done] |]. rewrite fmap_cons. f_equal. unfold char58, byte_at. by rewrite Nat2Z.id, Hi. }
  destruct Hd as (ds & Hds & ->). destruct (skip_canonical 58 ds Hds) as (E & Hc & _). set (m := skip (Z.eqb 0) ds) in *. set (z := skipped (Z.eqb 0) ds) in *. rewrite E.
  destruct (DecodeBase58_spec z m Hc) as (l & Hl & Hval & ->). exists (replicate z 0 ++ l). split; [done |]. split; [apply Forall_app; split; [apply Forall_replicate; unfold is_byte; lia | apply Hl] |].
  destruct (EncodeBase58_spec z l Hl) as (m' & Hm' & Hval' & ->). do 3 f_equal. apply (canonical_inj 58); try done. congruence.
Qed.

(** C24. Base 58 is a bijection between byte vectors and strings over its alphabet: each
    function inverts the other, with the leading zeroes; and no assertion fails, since the
    arrays are large enough, on any string either. *)
Theorem base58_bijection v s t : bytes_ok v -> Forall (.∈ pszBase58) s ->
  (exists str, EncodeBase58 v = Ret str /\ Forall (.∈ pszBase58) str /\ DecodeBase58 str = Ret (Some v)) /\
  (exists vch, DecodeBase58 s = Ret (Some vch) /\ bytes_ok vch /\ EncodeBase58 vch = Ret s) /\
  (exists r, DecodeBase58 t = Ret r).
Proof. intros Hv Hs. split; [by apply base58_encode_decode |]. split; [by apply base58_decode_encode | apply DecodeBase58_total]. Qed.

Lemma base58_bijection_witness : (exists str, EncodeBase58 [0; 0; 255; 1] = Ret str /\ DecodeBase58 str = Ret (Some [0; 0; 255; 1])) /\ (exists vch, DecodeBase58 (chars "11Z2b"%string) = Ret (Some vch) /\ EncodeBase58 vch = Ret (chars "11Z2b"%string)).
Proof.
  destruct (base58_bijection [0; 0; 255; 1] (chars "11Z2b"%string) []) as ((str & H1 & _ & H2) & (vch & H3 & _ & H4) & _).
  - repeat (constructor; [unfold is_byte; lia |]). constructor.
  - apply (bool_decide_unpack _). vm_compute. exact I.
  - split; [by exists str | by exists vch].
Defined.
