(* ===== verification/Bech32.v ===== *)
(** * Bech32

    [src/bech32.cpp]: strings of 5-bit values with a human-readable part and a checksum
    that is the remainder of a polynomial over a field of 32 elements. *)

From Stdlib Require Import String.
From S2P Require Import Prelude Sha256 Hash Base58.

Open Scope Z_scope.
Open Scope outcome_scope.

Definition CHARSET : list Z := chars "qpzry9x8gf2tvdw0s3jn54khce6mua7l".

Definition CHARSET_REV : list Z := [
  -1; -1; -1; -1; -1; -1; -1; -1; -1; -1; -1; -1; -1; -1; -1; -1;
  -1; -1; -1; -1; -1; -1; -1; -1; -1; -1; -1; -1; -1; -1; -1; -1;
  -1; -1; -1; -1; -1; -1; -1; -1; -1; -1; -1; -1; -1; -1; -1; -1;
  15; -1; 10; 17; 21; 20; 26; 30;  7;  5; -1; -1; -1; -1; -1; -1;
  -1; 29; -1; 24; 13; 25;  9;  8; 23; -1; 18; 22; 31; 27; 19; -1;
   1;  0;  3; 16; 11; 28; 12; 14;  6;  4;  2; -1; -1; -1; -1; -1;
  -1; 29; -1; 24; 13; 25;  9;  8; 23; -1; 18; 22; 31; 27; 19; -1;
   1;  0;  3; 16; 11; 28; 12; 14;  6;  4;  2; -1; -1; -1; -1; -1].

(** One value of the loop of [PolyMod]. *)
Definition polymod_step (c v_i : Z) : Z :=
  let c0 := uint8 (Z.shiftr c 25) in
  let c := Z.lxor (Z.shiftl (Z.land c 0x1ffffff) 5) v_i in
  let c := if flag c0 1 then Z.lxor c 0x3b6a57b2 else c in
  let c := if flag c0 2 then Z.lxor c 0x26508e6d else c in
  let c := if flag c0 4 then Z.lxor c 0x1ea119fa else c in
  let c := if flag c0 8 then Z.lxor c 0x3d4233dd else c in
  if flag c0 16 then Z.lxor c 0x2a1462b3 else c.

Definition PolyMod (v : list Z) : Z := foldl polymod_step 1 v.

Definition LowerCase (c : Z) : Z := if (c >=? 65) && (c <=? 90) then c - 65 + 97 else c.

Definition ExpandHRP (hrp : list Z) : list Z := ((fun c => Z.shiftr c 5) <$> hrp) ++ [0] ++ ((fun c => Z.land c 0x1f) <$> hrp).

Definition VerifyChecksum (hrp values : list Z) : bool := PolyMod (ExpandHRP hrp ++ values) =? 1.

Definition CreateChecksum (hrp values : list Z) : list Z :=
  let enc := ExpandHRP hrp ++ values ++ replicate 6 0 in
  let md := Z.lxor (PolyMod enc) 1 in
  (fun i => Z.land (Z.shiftr md (5 * (5 - i))) 31) <$> seqZ 0 6.

(** [CHARSET[c]], which is followed by a NUL. *)
Fixpoint charset_all (l : list Z) : outcome (list Z) :=
  match l with
  | [] => Ret []
  | c :: l => let? x := index (CHARSET ++ [0]) c in let? r := charset_all l in Ret (x :: r)
  end.

Definition Encode (hrp values : list Z) : outcome (list Z) :=
  let checksum := CreateChecksum hrp values in
  let combined := values ++ checksum in
  let? s := charset_all combined in
  Ret (hrp ++ [49] ++ s).

(** The last position of a character. *)
Fixpoint rfind (str : list Z) (c : Z) : option nat :=
  match str with
  | [] => None
  | x :: str => match rfind str c with Some i => Some (S i) | None => if x =? c then Some O else None end
  end.

(** The loop that turns characters into values; [None] when it returns. *)
Fixpoint decode_values (l : list Z) : option (list Z) :=
  match l with
  | [] => Some []
  | c :: l =>
    let rev := if (c <? 33) || (c >? 126) then -1 else byte_at CHARSET_REV c in
    if rev =? -1 then None else match decode_values l with Some r => Some (rev :: r) | None => None end
  end.

(** The human-readable part and the values; both are empty when it fails. *)
Definition Decode (str : list Z) : list Z * list Z :=
  if existsb (fun c => (c <? 33) || (c >? 126)) str then ([], [])
  else
    let lower := existsb (fun c => (c >=? 97) && (c <=? 122)) str in
    let upper := existsb (fun c => (c >=? 65) && (c <=? 90)) str in
    if lower && upper then ([], [])
    else
      match rfind str 49 with
      | None => ([], [])
      | Some pos =>
        if (Zlen str >? 90) || (Z.of_nat pos =? 0) || (Z.of_nat pos + 7 >? Zlen str) then ([], [])
        else
          match decode_values (drop (pos + 1) str) with
          | None => ([], [])
          | Some values =>
            let hrp := LowerCase <$> take pos str in
            if negb (VerifyChecksum hrp values) then ([], []) else (hrp, take (List.length values - 6) values)
          end
      end.
