(* ===== verification/Bech32Props.v ===== *)
(** * The checksum of Bech32

    The checksum is linear for exclusive or, which gives the validity of the checksums
    that [CreateChecksum] makes and the detection of errors: the errors inside a window of
    six characters, and up to three wrong characters anywhere. *)

From Stdlib Require Import Btauto.
From stdpp Require Import sorting.
From S2P Require Import Prelude Base58 Base58Props Bech32.

Open Scope Z_scope.
Open Scope outcome_scope.

(** ** Linearity *)

Ltac lxor_solve := apply Z.bits_inj'; intros ? ?; rewrite ?Z.lxor_spec, ?Z.bits_0; btauto.

Definition select (x i k : Z) : Z := if Z.testbit x i then k else 0.

(** The multiple of the generator that one step subtracts. *)
Definition reduction (x : Z) : Z :=
  Z.lxor (Z.lxor (Z.lxor (Z.lxor (select x 0 0x3b6a57b2) (select x 1 0x26508e6d)) (select x 2 0x1ea119fa)) (select x 3 0x3d4233dd)) (select x 4 0x2a1462b3).

Lemma polymod_step_eq c v : polymod_step c v = Z.lxor (Z.lxor (Z.shiftl (Z.land c 0x1ffffff) 5) v) (reduction (Z.shiftr c 25)).
Proof.
  unfold polymod_step. assert (Hf : forall i, 0 <= i < 8 -> flag (uint8 (Z.shiftr c 25)) (2 ^ i) = Z.testbit (Z.shiftr c 25) i).
  { intros i Hi. rewrite flag_pow2 by lia. unfold uint8. change 256 with (2 ^ 8). apply Z.mod_pow2_bits_low. lia. }
  pose proof (Hf 0 ltac:(lia)) as H0. pose proof (Hf 1 ltac:(lia)) as H1. pose proof (Hf 2 ltac:(lia)) as H2. pose proof (Hf 3 ltac:(lia)) as H3. pose proof (Hf 4 ltac:(lia)) as H4.
  change (2 ^ 0) with 1 in H0. change (2 ^ 1) with 2 in H1. change (2 ^ 2) with 4 in H2. change (2 ^ 3) with 8 in H3. change (2 ^ 4) with 16 in H4. rewrite H0, H1, H2, H3, H4. unfold reduction, select. generalize (Z.lxor (Z.shiftl (Z.land c 0x1ffffff) 5) v). intros a.
  destruct (Z.testbit _ 0), (Z.testbit _ 1), (Z.testbit _ 2), (Z.testbit _ 3), (Z.testbit _ 4); rewrite ?Z.lxor_0_l, ?Z.lxor_0_r, ?Z.lxor_assoc; reflexivity.
Qed.

Lemma select_lxor x y i k : select (Z.lxor x y) i k = Z.lxor (select x i k) (select y i k).
Proof. unfold select. rewrite Z.lxor_spec. destruct (Z.testbit x i), (Z.testbit y i); cbn [xorb]; by rewrite ?Z.lxor_nilpotent, ?Z.lxor_0_l, ?Z.lxor_0_r. Qed.

Lemma reduction_lxor x y : reduction (Z.lxor x y) = Z.lxor (reduction x) (reduction y).
Proof. unfold reduction. rewrite !select_lxor. lxor_solve. Qed.

Lemma polymod_step_lxor c d v w : polymod_step (Z.lxor c d) (Z.lxor v w) = Z.lxor (polymod_step c v) (polymod_step d w).
Proof.
  rewrite !polymod_step_eq, Z.shiftr_lxor, reduction_lxor. generalize (reduction (Z.shiftr c 25)) (reduction (Z.shiftr d 25)). intros a b.
  assert (E : Z.land (Z.lxor c d) 0x1ffffff = Z.lxor (Z.land c 0x1ffffff) (Z.land d 0x1ffffff)) by (apply Z.bits_inj'; intros; rewrite ?Z.lxor_spec, !Z.land_spec, Z.lxor_spec; btauto).
  rewrite E, Z.shiftl_lxor. lxor_solve.
Qed.

Lemma polymod_lxor l : forall m c d, length l = length m -> foldl polymod_step (Z.lxor c d) (zip_with Z.lxor l m) = Z.lxor (foldl polymod_step c l) (foldl polymod_step d m).
Proof.
  induction l as [| v l IH]; intros [| w m] c d Hl; try done. cbn [zip_with foldl]. rewrite polymod_step_lxor. apply IH. by injection Hl.
Qed.

(** ** Remainders *)

Definition rem_ok (c : Z) : Prop := 0 <= c < 2 ^ 30.

Lemma reduction_ok x : rem_ok (reduction x).
Proof. unfold rem_ok, reduction. repeat (apply lxor_bound; [lia | |]); unfold select; destruct (Z.testbit x _); lia. Qed.

Lemma polymod_step_ok c v : 0 <= v < 256 -> rem_ok (polymod_step c v).
Proof.
  intros Hv. rewrite polymod_step_eq. apply lxor_bound; [lia | | apply reduction_ok]. apply lxor_bound; [lia | | lia].
  change 0x1ffffff with (2 ^ 25 - 1). rewrite land_mask, Z.shiftl_mul_pow2 by lia. pose proof (Z.mod_pos_bound c (2 ^ 25)). lia.
Qed.

Lemma polymod_ok l : forall c, rem_ok c -> bytes_ok l -> rem_ok (foldl polymod_step c l).
Proof. induction l as [| v l IH]; intros c Hc Hl; [done |]. apply Forall_cons_1 in Hl as [Hv Hl]. apply IH; [by apply polymod_step_ok | done]. Qed.

(** A small remainder is shifted. *)
Lemma polymod_step_small c v : 0 <= c < 2 ^ 25 -> 0 <= v < 32 -> polymod_step c v = c * 32 + v.
Proof.
  intros Hc Hv. rewrite polymod_step_eq. rewrite (Z.shiftr_div_pow2 c 25), Z.div_small by lia. change (reduction 0) with 0. rewrite Z.lxor_0_r. change 0x1ffffff with (2 ^ 25 - 1). rewrite land_mask, Z.mod_small by lia.
  assert (Hl : Z.land (Z.shiftl c 5) v = 0).
  { apply Z.bits_inj'. intros i Hi. rewrite Z.land_spec, Z.bits_0, Z.shiftl_spec by lia. destruct (Z.lt_ge_cases i 5); [by rewrite Z.testbit_neg_r by lia |].
    replace v with (v mod 2 ^ 5) by (by apply Z.mod_small). by rewrite (Z.mod_pow2_bits_high v), andb_false_r by lia. }
  rewrite <- Z.add_nocarry_lxor by done. rewrite Z.shiftl_mul_pow2 by lia. lia.
Qed.

(** ** Valid checksums *)

Lemma lxor_self_list l : zip_with Z.lxor l l = replicate (length l) 0.
Proof. induction l as [| x l IH]; [done |]. cbn [zip_with length replicate]. by rewrite Z.lxor_nilpotent, IH. Qed.

Lemma lxor_zeroes_list l n : length l = n -> zip_with Z.lxor (replicate n 0) l = l.
Proof. intros <-. induction l as [| x l IH]; [done |]. cbn [zip_with length replicate]. by rewrite Z.lxor_0_l, IH. Qed.

Lemma polymod_zeroes n : foldl polymod_step 0 (replicate n 0) = 0.
Proof. induction n as [| n IH]; [done |]. exact IH. Qed.

(** The remainders of two lists after the same prefix differ by that of their difference. *)
Lemma polymod_difference e l m : length l = length m -> Z.lxor (PolyMod (e ++ l)) (PolyMod (e ++ m)) = foldl polymod_step 0 (zip_with Z.lxor l m).
Proof.
  intros Hl. unfold PolyMod. rewrite <- polymod_lxor by (rewrite !length_app; lia). change (Z.lxor 1 1) with 0. rewrite zip_with_app by done. by rewrite lxor_self_list, foldl_app, polymod_zeroes.
Qed.

Lemma polymod_digits l : forall c, 0 <= c -> digits_ok 32 l -> (c + 1) * 32 ^ Z.of_nat (length l) <= 2 ^ 30 -> foldl polymod_step c l = beval 32 c l.
Proof.
  induction l as [| v l IH]; intros c Hc Hl Hb; [done |]. apply Forall_cons_1 in Hl as [Hv Hl]. cbn [length] in Hb. rewrite Nat2Z.inj_succ, Z.pow_succ_r in Hb by lia.
  pose proof (Z.pow_pos_nonneg 32 (Z.of_nat (length l)) ltac:(lia) ltac:(lia)). cbn [foldl]. rewrite polymod_step_small by (try nia; lia). unfold beval. cbn [foldl]. apply IH; [lia | done | nia].
Qed.

Definition checksum_digits (x : Z) : list Z := (fun i => Z.land (Z.shiftr x (5 * (5 - i))) 31) <$> seqZ 0 6.

Lemma land_31 x : Z.land x 31 = x mod 32.
Proof. change 31 with (2 ^ 5 - 1). by rewrite land_mask. Qed.

Lemma checksum_digits_ok x : digits_ok 32 (checksum_digits x).
Proof. apply Forall_fmap, list.Forall_forall. intros i _. unfold compose. rewrite land_31. apply Z.mod_pos_bound. lia. Qed.

Lemma checksum_digits_value x : rem_ok x -> foldl polymod_step 0 (checksum_digits x) = x.
Proof.
  intros Hx. rewrite polymod_digits; [| lia | apply checksum_digits_ok | done]. unfold checksum_digits, rem_ok in *. change (seqZ 0 6) with [0; 1; 2; 3; 4; 5]. cbn [fmap list_fmap]. rewrite !land_31, !Z.shiftr_div_pow2 by lia.
  unfold beval. cbn [foldl]. change (2 ^ (5 * (5 - 0))) with 33554432. change (2 ^ (5 * (5 - 1))) with 1048576. change (2 ^ (5 * (5 - 2))) with 32768. change (2 ^ (5 * (5 - 3))) with 1024. change (2 ^ (5 * (5 - 4))) with 32. change (2 ^ (5 * (5 - 5))) with 1.
  change (2 ^ 30) with 1073741824 in Hx. Z.to_euclidean_division_equations. lia.
Qed.

Lemma checksum_valid hrp values : bytes_ok (ExpandHRP hrp) -> bytes_ok values -> VerifyChecksum hrp (values ++ CreateChecksum hrp values) = true.
Proof.
  intros He Hv. unfold VerifyChecksum, CreateChecksum. fold (checksum_digits (Z.lxor (PolyMod (ExpandHRP hrp ++ values ++ replicate 6 0)) 1)). rewrite !app_assoc.
  assert (He0 : bytes_ok ((ExpandHRP hrp ++ values) ++ replicate 6 0)) by (rewrite !bytes_ok_app; split; [done |]; apply Forall_replicate; unfold is_byte; lia).
  pose proof (polymod_ok _ 1 ltac:(split; lia) He0) as Hok. fold (PolyMod ((ExpandHRP hrp ++ values) ++ replicate 6 0)) in Hok. set (p := PolyMod ((ExpandHRP hrp ++ values) ++ replicate 6 0)) in *.
  pose proof (polymod_difference (ExpandHRP hrp ++ values) (replicate 6 0) (checksum_digits (Z.lxor p 1)) eq_refl) as E. fold p in E. rewrite lxor_zeroes_list, checksum_digits_value in E; [| apply lxor_bound; [lia | done | lia] | done].
  apply Z.eqb_eq. apply (f_equal (Z.lxor p)) in E. rewrite <- !Z.lxor_assoc, Z.lxor_nilpotent, !Z.lxor_0_l in E. exact E.
Qed.

(** ** Detection of errors *)

Lemma polymod_step_kernel c : rem_ok c -> polymod_step c 0 = 0 -> c = 0.
Proof.
  intros Hc E. rewrite polymod_step_eq, Z.lxor_0_r in E. apply Z.lxor_eq in E. unfold rem_ok in Hc.
  assert (Hx : 0 <= Z.shiftr c 25 < 32) by (rewrite Z.shiftr_div_pow2 by lia; split; [apply Z.div_pos; lia | apply Z.div_lt_upper_bound; lia]).
  assert (Hr := all_below (fun x => (x =? 0) || negb (reduction x mod 32 =? 0)) 32 ltac:(vm_compute; reflexivity) _ Hx). cbv beta in Hr.
  rewrite <- E, Z.shiftl_mul_pow2 in Hr by lia. change (2 ^ 5) with 32 in Hr. rewrite Z.mod_mul in Hr by lia. cbn [Z.eqb negb] in Hr. rewrite orb_false_r in Hr. apply Z.eqb_eq in Hr.
  rewrite Hr in E. change (reduction 0) with 0 in E. rewrite Z.shiftr_div_pow2 in Hr by lia. apply Z.div_small_iff in Hr; [| lia]. rewrite Z.shiftl_mul_pow2 in E by lia. change 0x1ffffff with (2 ^ 25 - 1) in E. rewrite land_mask, Z.mod_small in E by lia. lia.
Qed.

(** The remainder after [n] more zeroes. *)
Definition shift (n : nat) (c : Z) : Z := foldl polymod_step c (replicate n 0).

Lemma shift_ok n c : rem_ok c -> rem_ok (shift n c).
Proof. intros Hc. apply polymod_ok; [done |]. apply Forall_replicate. unfold is_byte. lia. Qed.

Lemma shift_kernel n : forall c, rem_ok c -> shift n c = 0 -> c = 0.
Proof.
  induction n as [| n IH]; intros c Hc E; [done |]. change (shift n (polymod_step c 0) = 0) in E. apply IH in E; [by apply polymod_step_kernel | apply polymod_step_ok; lia].
Qed.

Lemma shift_shift n m c : shift n (shift m c) = shift (m + n) c.
Proof. unfold shift. by rewrite <- foldl_app, <- replicate_add. Qed.

Lemma shift_lxor n c d : shift n (Z.lxor c d) = Z.lxor (shift n c) (shift n d).
Proof. unfold shift. rewrite <- polymod_lxor by done. by rewrite lxor_self_list, length_replicate. Qed.

Lemma polymod_shift c l : foldl polymod_step c l = Z.lxor (shift (length l) c) (foldl polymod_step 0 l).
Proof. unfold shift. rewrite <- polymod_lxor by apply length_replicate. by rewrite Z.lxor_0_r, lxor_zeroes_list. Qed.

(** The number of values that differ from zero. *)
Definition weight (l : list Z) : nat := length (filter (fun x => x <> 0) l).

Lemma weight_0 l : weight l = 0%nat -> l = replicate (length l) 0.
Proof.
  unfold weight. induction l as [| x l IH]; [done |]. rewrite filter_cons. destruct (decide (x <> 0)) as [H | H]; [done |]. intros E. cbn [length replicate]. f_equal; [lia | by apply IH].
Qed.

Lemma weight_zeroes l : Forall (eq 0) l -> weight l = 0%nat.
Proof. unfold weight. induction 1 as [| x l <- _ IH]; [done |]. rewrite filter_cons_False by (by intros []). done. Qed.

Lemma weight_S l k : weight l = S k -> exists a e m, l = replicate a 0 ++ e :: m /\ e <> 0 /\ weight m = k.
Proof.
  unfold weight. induction l as [| x l IH]; [done |]. rewrite filter_cons. destruct (decide (x <> 0)) as [H | H]; cbn [length]; [intros [= E]; by exists 0%nat, x, l |].
  intros E. destruct (IH E) as (a & e & m & -> & He & Hm). exists (S a), e, m. split; [| done]. cbn [replicate app]. f_equal. lia.
Qed.

(** The remainder of a list that starts with an error. *)
Lemma polymod_first a e m : 0 <= e < 32 -> foldl polymod_step 0 (replicate a 0 ++ e :: m) = Z.lxor (shift (length m) e) (foldl polymod_step 0 m).
Proof. intros He. rewrite foldl_app, polymod_zeroes. cbn [foldl]. rewrite polymod_step_small by lia. apply polymod_shift. Qed.

(** *** Scalars

    The code is linear over the field of 32 elements: [times_a] multiplies the values packed
    in a remainder by the generator of the field. *)

Definition times_a (c : Z) : Z :=
  let h := Z.land (Z.shiftr c 4) 0x02108421 in Z.lxor (Z.shiftl (Z.land c 0x1ef7bdef) 1) (Z.lxor h (Z.shiftl h 3)).

Lemma land_lxor a b m : Z.land (Z.lxor a b) m = Z.lxor (Z.land a m) (Z.land b m).
Proof. apply Z.bits_inj'. intros n Hn. rewrite ?Z.land_spec, ?Z.lxor_spec, ?Z.land_spec. btauto. Qed.

Lemma times_a_lxor c d : times_a (Z.lxor c d) = Z.lxor (times_a c) (times_a d).
Proof. unfold times_a. rewrite !Z.shiftr_lxor, !land_lxor, !Z.shiftl_lxor. lxor_solve. Qed.

(** Linear functions that agree on the single bits are equal. *)
Lemma linear_ext (f g : Z -> Z) (n : nat) : (forall c d, f (Z.lxor c d) = Z.lxor (f c) (f d)) -> (forall c d, g (Z.lxor c d) = Z.lxor (g c) (g d)) ->
  forallb (fun i => f (2 ^ i) =? g (2 ^ i)) (seqZ 0 (Z.of_nat n)) = true -> forall c, 0 <= c < 2 ^ Z.of_nat n -> f c = g c.
Proof.
  intros Hf Hg Hb. pose proof (all_below _ _ Hb) as Hbit. clear Hb. cbv beta in Hbit. assert (H0 : f 0 = g 0).
  { pose proof (Hf 0 0) as Ef. pose proof (Hg 0 0) as Eg. rewrite (Z.lxor_nilpotent (f 0)) in Ef. rewrite (Z.lxor_nilpotent (g 0)) in Eg. change (Z.lxor 0 0) with 0 in Ef, Eg. congruence. }
  induction n as [| n IH]; intros c Hc; [by replace c with 0 by (change (2 ^ Z.of_nat 0) with 1 in Hc; lia) |]. rewrite Nat2Z.inj_succ in Hc. rewrite Z.pow_succ_r in Hc by lia.
  assert (IH' : forall c, 0 <= c < 2 ^ Z.of_nat n -> f c = g c) by (apply IH; intros k Hk; apply Hbit; lia). destruct (Z.lt_ge_cases c (2 ^ Z.of_nat n)); [apply IH'; lia |].
  assert (E : c = Z.lxor (c - 2 ^ Z.of_nat n) (2 ^ Z.of_nat n)).
  { rewrite <- Z.add_nocarry_lxor; [lia |]. apply Z.bits_inj'. intros i Hi. rewrite Z.land_spec, Z.bits_0, Z.pow2_bits_eqb by lia. destruct (Z.eqb_spec (Z.of_nat n) i) as [<- |]; [| apply andb_false_r].
    rewrite andb_true_r. rewrite <- (Z.mod_small (c - 2 ^ Z.of_nat n) (2 ^ Z.of_nat n)) by lia. apply Z.mod_pow2_bits_high. lia. }
  rewrite E, Hf, Hg, IH' by lia. f_equal. apply Z.eqb_eq, Hbit. lia.
Qed.

Lemma times_a_step c : rem_ok c -> polymod_step (times_a c) 0 = times_a (polymod_step c 0).
Proof.
  apply (linear_ext (fun c => polymod_step (times_a c) 0) (fun c => times_a (polymod_step c 0)) 30); [| | vm_compute; reflexivity].
  - intros x y. by rewrite times_a_lxor, <- polymod_step_lxor.
  - intros x y. by rewrite <- times_a_lxor, <- polymod_step_lxor.
Qed.

Lemma times_a_shift n : forall c, rem_ok c -> shift n (times_a c) = times_a (shift n c).
Proof.
  induction n as [| n IH]; intros c Hc; [done |]. change (shift n (polymod_step (times_a c) 0) = times_a (shift n (polymod_step c 0))). rewrite times_a_step by done. apply IH, polymod_step_ok. lia.
Qed.

Definition is_error (e : Z) : Prop := 1 <= e < 32.

Lemma times_a_error e : is_error e -> is_error (times_a e).
Proof.
  intros He. pose proof (all_below (fun e => (e =? 0) || (1 <=? times_a e) && (times_a e <? 32)) 32 ltac:(vm_compute; reflexivity) e ltac:(unfold is_error in He; lia)) as H. cbv beta in H. unfold is_error in *.
  apply orb_true_iff in H as [H | H]; bool_to_prop; lia.
Qed.

Lemma iter_error k e : is_error e -> is_error (Nat.iter k times_a e).
Proof. intros He. induction k as [| k IH]; [done |]. by apply times_a_error. Qed.

Lemma error_inverse e : is_error e -> exists k, Nat.iter k times_a e = 1.
Proof.
  intros He. pose proof (all_below (fun e => (e =? 0) || existsb (fun k => Nat.iter k times_a e =? 1) (seq 0 31)) 32 ltac:(vm_compute; reflexivity) e ltac:(unfold is_error in He; lia)) as H. cbv beta in H.
  unfold is_error in He. rewrite (proj2 (Z.eqb_neq e 0)) in H by lia. cbn [orb] in H. apply existsb_exists in H as (k & _ & Hk%Z.eqb_eq). by exists k.
Qed.

Lemma iter_shift k n e : is_error e -> Nat.iter k times_a (shift n e) = shift n (Nat.iter k times_a e).
Proof.
  intros He. induction k as [| k IH]; [done |]. cbn [Nat.iter nat_rect]. change (times_a (Nat.iter k times_a (shift n e)) = shift n (times_a (Nat.iter k times_a e))). rewrite IH, times_a_shift; [done |].
  pose proof (iter_error k e He) as H. unfold is_error, rem_ok in *. lia.
Qed.

Lemma iter_lxor k c d : Nat.iter k times_a (Z.lxor c d) = Z.lxor (Nat.iter k times_a c) (Nat.iter k times_a d).
Proof. induction k as [| k IH]; [done |]. change (times_a (Nat.iter k times_a (Z.lxor c d)) = Z.lxor (times_a (Nat.iter k times_a c)) (times_a (Nat.iter k times_a d))). by rewrite IH, times_a_lxor. Qed.

(** The multiples of the single errors by the powers of the indeterminate, row by row. *)
Fixpoint error_rows (n : nat) (r : list Z) : list (list Z) :=
  match n with
  | O => []
  | S n => let r := (fun c => polymod_step c 0) <$> r in r :: error_rows n r
  end.

Fixpoint increasing (l : list Z) : bool :=
  match l with
  | x :: (y :: _) as l' => (x <? y) && increasing l'
  | _ => true
  end.

(** The distances up to 88. *)
Definition rows88 : list (list Z) := error_rows 88 (seqZ 1 31).

Lemma error_rows_lookup n : forall r k, (k < n)%nat -> error_rows n r !! k = Some (shift (S k) <$> r).
Proof.
  induction n as [| n IH]; intros r k Hk; [lia |]. destruct k as [| k]; [done |]. cbn [error_rows lookup list_lookup]. change (error_rows n ((fun c => polymod_step c 0) <$> r) !! k = Some (shift (S (S k)) <$> r)).
  rewrite IH by lia. f_equal. rewrite <- list_fmap_compose. done.
Qed.

Lemma increasing_NoDup l : increasing l = true -> NoDup l.
Proof.
  assert (H : forall l x, increasing (x :: l) = true -> Forall (Z.lt x) l /\ increasing l = true).
  { clear l. intros l. induction l as [| y l IH]; intros x Hx; [done |]. apply andb_true_iff in Hx as [Hx%Z.ltb_lt Hl]. destruct (IH y Hl) as [Hy _]. split; [| done].
    constructor; [done |]. apply (list.Forall_impl _ _ _ Hy). lia. }
  induction l as [| x l IH]; intros Hl; [constructor |]. destruct (H l x Hl) as [Hx Hl']. constructor; [| by apply IH]. intros Hin. rewrite list.Forall_forall in Hx. specialize (Hx x Hin). lia.
Qed.

Lemma NoDup_rows (q : Z -> Z) rows : forall i j r r' x y, NoDup (q <$> concat rows) -> (i < j)%nat -> rows !! i = Some r -> rows !! j = Some r' -> x ∈ r -> y ∈ r' -> q x <> q y.
Proof.
  induction rows as [| r0 rows IH]; intros i j r r' x y Hnd Hij Hi Hj Hx Hy; [done |]. destruct j as [| j]; [lia |]. cbn [concat] in Hnd. rewrite fmap_app in Hnd. apply list.NoDup_app in Hnd as (_ & Hd & Hnd). cbn in Hj. destruct i as [| i].
  - injection Hi as ->. intros E. apply (Hd (q x)); [by apply list_elem_of_fmap_2 |]. rewrite E. apply list_elem_of_fmap_2, list_elem_of_In, in_concat. exists r'. split; apply list_elem_of_In; [by eapply list_elem_of_lookup_2 | done].
  - apply (IH i j r r' x y); try done. lia.
Qed.

(** No two of them agree above the last value, and none is zero there. *)
Lemma rows88_increasing : increasing (merge_sort Z.le (0 :: ((fun c => c / 32) <$> concat rows88))) = true.
Proof. vm_compute. reflexivity. Qed.

Lemma rows88_lookup k : (k < 88)%nat -> rows88 !! k = Some (shift (S k) <$> seqZ 1 31).
Proof. apply error_rows_lookup. Qed.

#[local] Opaque rows88.

Lemma rows88_NoDup : NoDup (0 :: ((fun c => c / 32) <$> concat rows88)).
Proof. pose proof (increasing_NoDup _ rows88_increasing) as H. by rewrite merge_sort_Permutation in H. Qed.

Lemma rows88_row n e : (1 <= n <= 88)%nat -> is_error e -> exists r, rows88 !! (n - 1)%nat = Some r /\ shift n e ∈ r.
Proof.
  intros Hn He. exists (shift n <$> seqZ 1 31). split; [rewrite rows88_lookup by lia; by replace (S (n - 1)) with n by lia |]. apply list_elem_of_fmap_2, elem_of_seqZ. unfold is_error in He. lia.
Qed.

(** Single errors at different distances stay apart. *)
Lemma errors_distinct n m e f : (1 <= n <= 88)%nat -> (1 <= m < n)%nat -> is_error e -> is_error f -> shift n e / 32 <> shift m f / 32.
Proof.
  intros Hn Hm He Hf E. destruct (rows88_row n e Hn He) as (r & Hr & Hxr), (rows88_row m f ltac:(lia) Hf) as (r' & Hr' & Hxr'). pose proof rows88_NoDup as [_ Hnd]%list.NoDup_cons.
  by apply (NoDup_rows (fun c => c / 32) rows88 (m - 1) (n - 1) r' r (shift m f) (shift n e)); try done; lia.
Qed.

Lemma errors_high n e : (1 <= n <= 88)%nat -> is_error e -> 32 <= shift n e.
Proof.
  intros Hn He. destruct (rows88_row n e Hn He) as (r & Hr & Hxr). pose proof rows88_NoDup as [H0 _]%list.NoDup_cons. unfold is_error in He. destruct (shift_ok n e ltac:(unfold rem_ok; lia)) as [Hpos _].
  apply Z.nlt_ge. intros Hlt. apply H0. replace 0 with (shift n e / 32) by (apply Z.div_small; lia).
  apply (list_elem_of_fmap_2 (fun c => c / 32)), list_elem_of_In, in_concat. exists r. split; apply list_elem_of_In; [by eapply list_elem_of_lookup_2 | done].
Qed.

(** *** Four errors

    With one error scaled to 1, the sum of two errors is looked up among the single ones. *)

Inductive tree := Leaf | Node (l : tree) (b : bool) (r : tree).

Fixpoint tree_mem (p : positive) (t : tree) : bool :=
  match t with
  | Leaf => false
  | Node l b r => match p with xH => b | xO p => tree_mem p l | xI p => tree_mem p r end
  end.

Fixpoint tree_add (p : positive) (t : tree) : tree :=
  let '(l, b, r) := match t with Leaf => (Leaf, false, Leaf) | Node l b r => (l, b, r) end in
  match p with
  | xH => Node l true r
  | xO p => Node (tree_add p l) b r
  | xI p => Node l b (tree_add p r)
  end.

Definition in_tree (t : tree) (c : Z) : bool := match c with Zpos p => tree_mem p t | _ => false end.

Definition quotients (rows : list (list Z)) : list (list Z) := map (map (fun c => c / 32)) rows.

Definition quotients88 : list (list Z) := Eval vm_compute in quotients rows88.

Definition tree88 : tree := Eval vm_compute in foldr (fun c t => tree_add (Z.to_pos c) t) Leaf (concat quotients88).

Lemma quotients88_eq : quotients88 = quotients rows88.
Proof. vm_compute. reflexivity. Qed.

Lemma tree88_all : forallb (forallb (in_tree tree88)) quotients88 = true.
Proof. vm_compute. reflexivity. Qed.

(** The first entry of a row and the entries of the rows before it. *)
Fixpoint no_pair (t : tree) (rows : list (list Z)) : bool :=
  match rows with
  | [] => true
  | r :: rows =>
    forallb (fun r' => match r' with c :: _ => forallb (fun d => negb (in_tree t (Z.lxor c d))) r | [] => true end) rows && no_pair t rows
  end.

Lemma no_pair88 : no_pair tree88 quotients88 = true.
Proof. vm_compute. reflexivity. Qed.

#[local] Opaque tree88 quotients88.

Lemma no_pair_spec t rows : forall i j r c r' d, no_pair t rows = true -> (i < j)%nat -> rows !! i = Some r -> rows !! j = Some (c :: r') -> d ∈ r -> in_tree t (Z.lxor c d) = false.
Proof.
  induction rows as [| r0 rows IH]; intros i j r c r' d Hn Hij Hi Hj Hd; [done |]. apply andb_true_iff in Hn as [H0 Hn]. destruct j as [| j]; [lia |]. cbn in Hj. destruct i as [| i]; [| apply (IH i j r c r' d); try done; lia].
  injection Hi as ->. rewrite forallb_forall in H0. specialize (H0 (c :: r') ltac:(by eapply list_elem_of_In, list_elem_of_lookup_2)). cbv beta iota in H0. rewrite forallb_forall in H0. specialize (H0 d ltac:(by apply list_elem_of_In)). by apply negb_true_iff in H0.
Qed.

Lemma quotients88_row n : (1 <= n <= 88)%nat -> quotients88 !! (n - 1)%nat = Some (map (fun c => c / 32) (shift n <$> seqZ 1 31)).
Proof.
  intros Hn. rewrite quotients88_eq. change (quotients rows88) with (map (fun c => c / 32) <$> rows88). rewrite list_lookup_fmap, rows88_lookup by lia. by replace (S (n - 1)) with n by lia.
Qed.

Lemma lxor_div_32 a b : Z.lxor a b / 32 = Z.lxor (a / 32) (b / 32).
Proof. change 32 with (2 ^ 5). rewrite <- !Z.shiftr_div_pow2 by lia. apply Z.shiftr_lxor. Qed.

(** Values whose sum is a single value agree above it. *)
Lemma lxor_small a b : 0 <= Z.lxor a b < 32 -> a / 32 = b / 32.
Proof. intros H. apply Z.lxor_eq. rewrite <- lxor_div_32. by apply Z.div_small. Qed.

Lemma errors_three n m k f g : (1 <= k < m)%nat -> (m < n <= 88)%nat -> is_error f -> is_error g -> Z.lxor (shift n 1) (shift m f) / 32 <> shift k g / 32.
Proof.
  intros Hk Hm Hf Hg E. rewrite lxor_div_32 in E. unfold is_error in *. pose proof (quotients88_row n ltac:(lia)) as Hn. change (seqZ 1 31) with (1 :: seqZ 2 30) in Hn. rewrite fmap_cons in Hn. cbn [map] in Hn.
  assert (Hin : forall d x, 1 <= x < 32 -> shift d x / 32 ∈ map (fun c => c / 32) (shift d <$> seqZ 1 31)) by (intros d x Hx; apply (list_elem_of_fmap_2 (fun c => c / 32)), list_elem_of_fmap_2, elem_of_seqZ; lia).
  pose proof (no_pair_spec tree88 quotients88 (m - 1) (n - 1) _ _ _ (shift m f / 32) no_pair88 ltac:(lia) (quotients88_row m ltac:(lia)) Hn (Hin m f Hf)) as Hno.
  rewrite E in Hno. pose proof tree88_all as Hall. rewrite forallb_forall in Hall. specialize (Hall _ ltac:(eapply list_elem_of_In, list_elem_of_lookup_2, (quotients88_row k); lia)).
  rewrite forallb_forall in Hall. specialize (Hall (shift k g / 32) ltac:(by apply list_elem_of_In, Hin)). congruence.
Qed.

Lemma errors_four n m k e f g h : (1 <= k < m)%nat -> (m < n <= 88)%nat -> is_error e -> is_error f -> is_error g -> is_error h -> Z.lxor (Z.lxor (shift n e) (shift m f)) (shift k g) <> h.
Proof.
  intros Hk Hm He Hf Hg Hh E. destruct (error_inverse e He) as [j Hj]. apply (f_equal (Nat.iter j times_a)) in E. rewrite !iter_lxor, !iter_shift, Hj in E by done.
  pose proof (iter_error j h Hh) as Hh'. rewrite <- E in Hh'. unfold is_error in Hh'. revert Hh'. intros Hh'. apply (errors_three n m k (Nat.iter j times_a f) (Nat.iter j times_a g)); try done; [by apply iter_error .. |]. apply lxor_small. lia.
Qed.

(** The first error of a list. *)
Lemma first_error l k : digits_ok 32 l -> weight l = S k ->
  exists e m, is_error e /\ digits_ok 32 m /\ weight m = k /\ (length m < length l)%nat /\ foldl polymod_step 0 l = Z.lxor (shift (length m) e) (foldl polymod_step 0 m).
Proof.
  intros Hl Hw. destruct (weight_S l k Hw) as (a & e & m & -> & He & Hm). apply Forall_app in Hl as [_ [He' Hm']%Forall_cons_1]. exists e, m. split; [unfold is_error; lia |]. split; [done |]. split; [done |].
  split; [rewrite length_app; cbn [length]; lia |]. by apply polymod_first.
Qed.

Lemma no_error l : weight l = 0%nat -> foldl polymod_step 0 l = 0.
Proof. intros ->%weight_0. apply polymod_zeroes. Qed.

(** What comes after the last error does not matter. *)
Lemma last_error (b : nat) c h : rem_ok c -> is_error h -> shift b (Z.lxor c h) = 0 -> c = h.
Proof.
  intros Hc Hh E. apply shift_kernel in E; [by apply Z.lxor_eq |]. apply lxor_bound; [lia | done |]. unfold is_error in Hh. lia.
Qed.

Lemma shift_error_ok n e : is_error e -> rem_ok (shift n e).
Proof. intros He. apply shift_ok. unfold is_error, rem_ok in *. lia. Qed.

Lemma shift_split n m c : (m <= n)%nat -> shift n c = shift m (shift (n - m) c).
Proof. intros H. rewrite shift_shift. f_equal. lia. Qed.

(** A list with one to four errors within 89 values has a remainder. *)
Lemma errors_detected l : digits_ok 32 l -> (1 <= weight l <= 4)%nat -> (length l <= 89)%nat -> foldl polymod_step 0 l <> 0.
Proof.
  intros Hl Hw Hlen E. destruct (weight l) as [| w] eqn:Ew; [lia |]. destruct (first_error l w Hl Ew) as (e & l1 & He & Hl1 & Hw1 & Hn1 & E1). rewrite E1 in E. clear E1.
  destruct w as [| w]; [rewrite no_error, Z.lxor_0_r in E by done; apply shift_kernel in E; unfold is_error, rem_ok in *; lia |].
  destruct (first_error l1 w Hl1 Hw1) as (f & l2 & Hf & Hl2 & Hw2 & Hn2 & E2). rewrite E2 in E. clear E2. destruct w as [| w].
  { rewrite no_error, Z.lxor_0_r in E by done. rewrite (shift_split _ (length l2)), <- shift_lxor in E by lia. apply last_error in E; [| by apply shift_error_ok | done].
    pose proof (errors_high (length l1 - length l2) e ltac:(lia) He). unfold is_error in Hf. lia. }
  destruct (first_error l2 w Hl2 Hw2) as (g & l3 & Hg & Hl3 & Hw3 & Hn3 & E3). rewrite E3 in E. clear E3. destruct w as [| w].
  { rewrite no_error, Z.lxor_0_r in E by done. rewrite (shift_split (length l1) (length l3)), (shift_split (length l2) (length l3)), <- Z.lxor_assoc, <- !shift_lxor in E by lia.
    apply last_error in E; [| by apply lxor_bound; [lia | apply shift_error_ok ..] | done]. apply (errors_distinct (length l1 - length l3) (length l2 - length l3) e f); try done; try lia. apply lxor_small. rewrite E. unfold is_error in Hg. lia. }
  assert (w = 0%nat) as -> by lia. destruct (first_error l3 0 Hl3 Hw3) as (h & l4 & Hh & Hl4 & Hw4 & Hn4 & E4). rewrite E4, no_error, Z.lxor_0_r in E by done. clear E4.
  rewrite (shift_split (length l1) (length l4)), (shift_split (length l2) (length l4)), (shift_split (length l3) (length l4)), <- !Z.lxor_assoc, <- !shift_lxor in E by lia.
  apply last_error in E; [| by repeat (apply lxor_bound; [lia | |]); apply shift_error_ok | done].
  by apply (errors_four (length l1 - length l4) (length l2 - length l4) (length l3 - length l4) e f g h); try done; lia.
Qed.

(** Errors within six values have a remainder. *)
Lemma burst_detected a w b : digits_ok 32 w -> (length w <= 6)%nat -> (1 <= weight w)%nat -> foldl polymod_step 0 (replicate a 0 ++ w ++ replicate b 0) <> 0.
Proof.
  intros Hw Hl Hne E. rewrite !foldl_app, polymod_zeroes in E. fold (shift b (foldl polymod_step 0 w)) in E. assert (Hb : 32 ^ Z.of_nat (length w) <= 2 ^ 30) by (change (2 ^ 30) with (32 ^ 6); apply Z.pow_le_mono_r; lia).
  apply shift_kernel in E; [| apply polymod_ok; [unfold rem_ok; lia |]; apply (list.Forall_impl _ _ _ Hw); unfold is_byte; lia]. rewrite polymod_digits in E by (done || lia).
  rewrite <- (reverse_involutive w), beval_reverse in E. assert (Hz : Forall (eq 0) (reverse w)).
  { assert (Hr : digits_ok 32 (reverse w)) by (by apply Forall_reverse). clear - E Hr. induction Hr as [| x l Hx Hl IH]; [constructor |]. cbn [lval] in E. pose proof (lval_bound 32 l ltac:(lia) Hl). constructor; [lia | apply IH; lia]. }
  apply Forall_reverse in Hz. rewrite reverse_involutive in Hz. rewrite weight_zeroes in Hne by done. lia.
Qed.

(** The number of positions at which two lists differ. *)
Definition differences (l m : list Z) : nat := length (filter (fun p => p.1 <> p.2) (zip l m)).

Lemma differences_weight l : forall m, differences l m = weight (zip_with Z.lxor l m).
Proof.
  unfold differences, weight. induction l as [| x l IH]; intros [| y m]; try done. cbn [zip zip_with]. rewrite !filter_cons. specialize (IH m). cbn [fst snd].
  destruct (decide (x <> y)) as [H | H], (decide (Z.lxor x y <> 0)) as [H' | H']; cbn [length]; try by rewrite IH.
  - exfalso. apply H'. intros E. apply H. by apply Z.lxor_eq.
  - exfalso. apply H. intros ->. apply H'. apply Z.lxor_nilpotent.
Qed.

Lemma lxor_digits l : forall m, digits_ok 32 l -> digits_ok 32 m -> digits_ok 32 (zip_with Z.lxor l m).
Proof.
  induction l as [| x l IH]; intros [| y m] Hl Hm; try constructor; apply Forall_cons_1 in Hl as [Hx Hl], Hm as [Hy Hm]; [by apply (lxor_bound _ _ 5) | by apply IH].
Qed.

Lemma differences_0 l : forall m, length l = length m -> differences l m = 0%nat -> l = m.
Proof.
  unfold differences. induction l as [| x l IH]; intros [| y m] Hl Hd; try done. cbn [zip zip_with] in Hd. rewrite filter_cons in Hd. cbn [fst snd] in Hd. destruct (decide (x <> y)) as [H | H]; [done |].
  f_equal; [lia | apply IH; [by injection Hl | done]].
Qed.

(** Two lists of values with valid checksums have the same remainder. *)
Lemma valid_difference hrp v v' : length v = length v' -> VerifyChecksum hrp v = true -> VerifyChecksum hrp v' = true -> foldl polymod_step 0 (zip_with Z.lxor v v') = 0.
Proof. intros Hl Hv%Z.eqb_eq Hv'%Z.eqb_eq. rewrite <- (polymod_difference (ExpandHRP hrp)) by done. by rewrite Hv, Hv'. Qed.

(** C23. The checksum of Bech32 detects errors: two lists of values that are valid with the
    same human-readable part are equal if they differ in at most four of up to 89 values,
    or only within six consecutive values of lists of any length. *)
Theorem bech32_detects_errors hrp v v' : digits_ok 32 v -> digits_ok 32 v' -> length v = length v' -> VerifyChecksum hrp v = true -> VerifyChecksum hrp v' = true ->
  (length v <= 89)%nat /\ (differences v v' <= 4)%nat \/
  (exists a w w' b, v = a ++ w ++ b /\ v' = a ++ w' ++ b /\ (length w <= 6)%nat) ->
  v = v'.
Proof.
  intros Hv Hv' Hl Hc Hc' H. pose proof (valid_difference hrp v v' Hl Hc Hc') as E. apply differences_0; [done |]. rewrite differences_weight in *. destruct H as [[Hlen Hd] | (a & w & w' & b & -> & -> & Hw)].
  - destruct (Nat.eq_dec (weight (zip_with Z.lxor v v')) 0) as [| Hne]; [done |]. exfalso. apply (errors_detected (zip_with Z.lxor v v')); [by apply lxor_digits | lia | rewrite length_zip_with; lia | done].
  - rewrite !length_app in Hl. apply Forall_app in Hv as [_ [Hw1 _]%Forall_app]. apply Forall_app in Hv' as [_ [Hw2 _]%Forall_app].
    rewrite !zip_with_app, !lxor_self_list in * by lia. destruct (Nat.eq_dec (weight (zip_with Z.lxor w w')) 0) as [E0 | Hne].
    + apply weight_0 in E0. rewrite E0. apply weight_zeroes. repeat (apply Forall_app; split); by apply Forall_replicate.
    + exfalso. apply (burst_detected (length a) (zip_with Z.lxor w w') (length b)); [by apply lxor_digits | rewrite length_zip_with; lia | lia | done].
Qed.

Lemma bech32_detects_errors_witness :
  let v := [1; 2; 3; 26; 29; 26; 11; 28; 25] in VerifyChecksum [98; 99] v = true /\ VerifyChecksum [98; 99] [1; 2; 4; 26; 29; 26; 11; 28; 25] = false /\ v = v.
Proof.
  intros v. split; [reflexivity |]. split; [reflexivity |].
  assert (Hv : digits_ok 32 v) by (repeat (constructor; [lia |]); constructor).
  apply (bech32_detects_errors [98; 99] v v Hv Hv eq_refl); [reflexivity | reflexivity |]. left. split; vm_compute; lia.
Defined.
