(* ===== verification/Scalar.v ===== *)
(** * Scalars modulo the order of the curve

    [src/secp256k1/src/scalar_4x64_impl.h] and the inverse of [scalar_impl.h]: numbers
    modulo the order of secp256k1 in four limbs of 64 bits, with the portable C code of the
    parts that also exist in assembly. [VERIFY_CHECK] has no effect outside tests. *)

From S2P Require Import Prelude.

Open Scope Z_scope.

Definition uint128 (x : Z) : Z := x mod 2 ^ 128.

(** [~x] on 64 bits. *)
Definition not64 (x : Z) : Z := uint64 (Z.lnot x).

Definition SECP256K1_N_0 : Z := 0xBFD25E8CD0364141.
Definition SECP256K1_N_1 : Z := 0xBAAEDCE6AF48A03B.
Definition SECP256K1_N_2 : Z := 0xFFFFFFFFFFFFFFFE.
Definition SECP256K1_N_3 : Z := 0xFFFFFFFFFFFFFFFF.

Definition SECP256K1_N_C_0 : Z := uint64 (not64 SECP256K1_N_0 + 1).
Definition SECP256K1_N_C_1 : Z := not64 SECP256K1_N_1.
Definition SECP256K1_N_C_2 : Z := 1.

Definition SECP256K1_N_H_0 : Z := 0xDFE92F46681B20A0.
Definition SECP256K1_N_H_1 : Z := 0x5D576E7357A4501D.
Definition SECP256K1_N_H_2 : Z := 0xFFFFFFFFFFFFFFFF.
Definition SECP256K1_N_H_3 : Z := 0x7FFFFFFFFFFFFFFF.

Record secp256k1_scalar := Scalar { d0 : Z; d1 : Z; d2 : Z; d3 : Z }.

Definition scalar_limb (a : secp256k1_scalar) (i : Z) : Z := if i =? 0 then d0 a else if i =? 1 then d1 a else if i =? 2 then d2 a else d3 a.

Definition MASK64 : Z := 0xFFFFFFFFFFFFFFFF.

Definition secp256k1_scalar_clear : secp256k1_scalar := Scalar 0 0 0 0.

Definition secp256k1_scalar_set_int (v : Z) : secp256k1_scalar := Scalar v 0 0 0.

Definition secp256k1_scalar_get_bits (a : secp256k1_scalar) (offset count : Z) : Z :=
  Z.land (Z.shiftr (scalar_limb a (Z.shiftr offset 6)) (Z.land offset 0x3F)) (uint64 (Z.shiftl 1 count) - 1).

Definition secp256k1_scalar_get_bits_var (a : secp256k1_scalar) (offset count : Z) : Z :=
  if Z.shiftr (offset + count - 1) 6 =? Z.shiftr offset 6 then secp256k1_scalar_get_bits a offset count
  else
    Z.land (Z.lor (Z.shiftr (scalar_limb a (Z.shiftr offset 6)) (Z.land offset 0x3F)) (uint64 (Z.shiftl (scalar_limb a (Z.shiftr offset 6 + 1)) (64 - Z.land offset 0x3F))))
      (uint64 (Z.shiftl 1 count) - 1).

Definition secp256k1_scalar_check_overflow (a : secp256k1_scalar) : bool :=
  let no := d3 a <? SECP256K1_N_3 in
  let no := no || (d2 a <? SECP256K1_N_2) in
  let yes := (d2 a >? SECP256K1_N_2) && negb no in
  let no := no || (d1 a <? SECP256K1_N_1) in
  let yes := yes || (d1 a >? SECP256K1_N_1) && negb no in
  yes || (d0 a >=? SECP256K1_N_0) && negb no.

Definition secp256k1_scalar_reduce (r : secp256k1_scalar) (overflow : Z) : secp256k1_scalar :=
  let t := uint128 (d0 r + uint64 (overflow * SECP256K1_N_C_0)) in
  let r0 := Z.land t MASK64 in let t := Z.shiftr t 64 in
  let t := uint128 (t + (d1 r + uint64 (overflow * SECP256K1_N_C_1))) in
  let r1 := Z.land t MASK64 in let t := Z.shiftr t 64 in
  let t := uint128 (t + (d2 r + uint64 (overflow * SECP256K1_N_C_2))) in
  let r2 := Z.land t MASK64 in let t := Z.shiftr t 64 in
  let t := uint128 (t + d3 r) in
  Scalar r0 r1 r2 (Z.land t MASK64).

(** The sum and whether it overflowed. *)
Definition secp256k1_scalar_add (a b : secp256k1_scalar) : secp256k1_scalar * Z :=
  let t := uint128 (d0 a + d0 b) in
  let r0 := Z.land t MASK64 in let t := Z.shiftr t 64 in
  let t := uint128 (t + (d1 a + d1 b)) in
  let r1 := Z.land t MASK64 in let t := Z.shiftr t 64 in
  let t := uint128 (t + (d2 a + d2 b)) in
  let r2 := Z.land t MASK64 in let t := Z.shiftr t 64 in
  let t := uint128 (t + (d3 a + d3 b)) in
  let r3 := Z.land t MASK64 in let t := Z.shiftr t 64 in
  let r := Scalar r0 r1 r2 r3 in
  let overflow := t + Z.b2z (secp256k1_scalar_check_overflow r) in
  (secp256k1_scalar_reduce r overflow, overflow).

Definition secp256k1_scalar_cadd_bit (r : secp256k1_scalar) (bit flag : Z) : secp256k1_scalar :=
  let bit := uint32 (bit + Z.land (uint32 (flag - 1)) 0x100) in
  let add := fun i => Z.shiftl (Z.b2z (Z.shiftr bit 6 =? i)) (Z.land bit 0x3F) in
  let t := uint128 (d0 r + add 0) in
  let r0 := Z.land t MASK64 in let t := Z.shiftr t 64 in
  let t := uint128 (t + (d1 r + add 1)) in
  let r1 := Z.land t MASK64 in let t := Z.shiftr t 64 in
  let t := uint128 (t + (d2 r + add 2)) in
  let r2 := Z.land t MASK64 in let t := Z.shiftr t 64 in
  let t := uint128 (t + (d3 r + add 3)) in
  Scalar r0 r1 r2 (Z.land t MASK64).

(** The eight bytes from [i] on, the most significant first. *)
Definition load64 (b : list Z) (i : Z) : Z :=
  Z.lor (Z.lor (Z.lor (Z.lor (Z.lor (Z.lor (Z.lor (byte_at b (i + 7)) (Z.shiftl (byte_at b (i + 6)) 8)) (Z.shiftl (byte_at b (i + 5)) 16)) (Z.shiftl (byte_at b (i + 4)) 24))
    (Z.shiftl (byte_at b (i + 3)) 32)) (Z.shiftl (byte_at b (i + 2)) 40)) (Z.shiftl (byte_at b (i + 1)) 48)) (Z.shiftl (byte_at b i) 56).

(** The scalar and whether it overflowed. *)
Definition secp256k1_scalar_set_b32 (b32 : list Z) : secp256k1_scalar * bool :=
  let r := Scalar (load64 b32 24) (load64 b32 16) (load64 b32 8) (load64 b32 0) in
  let over := secp256k1_scalar_check_overflow r in
  (secp256k1_scalar_reduce r (Z.b2z over), over).

Definition store64 (x : Z) : list Z := (fun s => uint8 (Z.shiftr x s)) <$> [56; 48; 40; 32; 24; 16; 8; 0].

Definition secp256k1_scalar_get_b32 (a : secp256k1_scalar) : list Z := store64 (d3 a) ++ store64 (d2 a) ++ store64 (d1 a) ++ store64 (d0 a).

Definition secp256k1_scalar_is_zero (a : secp256k1_scalar) : bool := Z.lor (Z.lor (Z.lor (d0 a) (d1 a)) (d2 a)) (d3 a) =? 0.

Definition secp256k1_scalar_negate (a : secp256k1_scalar) : secp256k1_scalar :=
  let nonzero := if secp256k1_scalar_is_zero a then 0 else MASK64 in
  let t := uint128 (not64 (d0 a) + SECP256K1_N_0 + 1) in
  let r0 := Z.land t nonzero in let t := Z.shiftr t 64 in
  let t := uint128 (t + (not64 (d1 a) + SECP256K1_N_1)) in
  let r1 := Z.land t nonzero in let t := Z.shiftr t 64 in
  let t := uint128 (t + (not64 (d2 a) + SECP256K1_N_2)) in
  let r2 := Z.land t nonzero in let t := Z.shiftr t 64 in
  let t := uint128 (t + (not64 (d3 a) + SECP256K1_N_3)) in
  Scalar r0 r1 r2 (Z.land t nonzero).

Definition secp256k1_scalar_is_one (a : secp256k1_scalar) : bool := Z.lor (Z.lor (Z.lor (Z.lxor (d0 a) 1) (d1 a)) (d2 a)) (d3 a) =? 0.

Definition secp256k1_scalar_is_high (a : secp256k1_scalar) : bool :=
  let no := d3 a <? SECP256K1_N_H_3 in
  let yes := (d3 a >? SECP256K1_N_H_3) && negb no in
  let no := no || (d2 a <? SECP256K1_N_H_2) && negb yes in
  let no := no || (d1 a <? SECP256K1_N_H_1) && negb yes in
  let yes := yes || (d1 a >? SECP256K1_N_H_1) && negb no in
  yes || (d0 a >? SECP256K1_N_H_0) && negb no.

(** The scalar and the sign. *)
Definition secp256k1_scalar_cond_negate (r : secp256k1_scalar) (flag : bool) : secp256k1_scalar * Z :=
  let mask := uint64 (Z.b2z (negb flag) - 1) in
  let nonzero := uint64 (Z.b2z (secp256k1_scalar_is_zero r) - 1) in
  let t := uint128 (Z.lxor (d0 r) mask + Z.land (uint64 (SECP256K1_N_0 + 1)) mask) in
  let r0 := Z.land t nonzero in let t := Z.shiftr t 64 in
  let t := uint128 (t + (Z.lxor (d1 r) mask + Z.land SECP256K1_N_1 mask)) in
  let r1 := Z.land t nonzero in let t := Z.shiftr t 64 in
  let t := uint128 (t + (Z.lxor (d2 r) mask + Z.land SECP256K1_N_2 mask)) in
  let r2 := Z.land t nonzero in let t := Z.shiftr t 64 in
  let t := uint128 (t + (Z.lxor (d3 r) mask + Z.land SECP256K1_N_3 mask)) in
  (Scalar r0 r1 r2 (Z.land t nonzero), 2 * Z.b2z (mask =? 0) - 1).

(** ** Products

    The macros update an accumulator [(c0, c1, c2)], whose last part has [w] bits. *)

Record acc := Acc { c0 : Z; c1 : Z; c2 : Z }.

Section Macros.
Context (w : Z).

(** [c2 += b] *)
Definition carry2 (x : Z) (b : bool) : Z := (x + Z.b2z b) mod 2 ^ w.

Definition muladd (a b : Z) (s : acc) : acc :=
  let t := uint128 (a * b) in
  let th := uint64 (Z.shiftr t 64) in
  let tl := uint64 t in
  let c0 := uint64 (c0 s + tl) in
  let th := uint64 (th + Z.b2z (c0 <? tl)) in
  let c1 := uint64 (c1 s + th) in
  Acc c0 c1 (carry2 (c2 s) (c1 <? th)).

Definition muladd_fast (a b : Z) (s : acc) : acc :=
  let t := uint128 (a * b) in
  let th := uint64 (Z.shiftr t 64) in
  let tl := uint64 t in
  let c0 := uint64 (c0 s + tl) in
  let th := uint64 (th + Z.b2z (c0 <? tl)) in
  Acc c0 (uint64 (c1 s + th)) (c2 s).

Definition muladd2 (a b : Z) (s : acc) : acc :=
  let t := uint128 (a * b) in
  let th := uint64 (Z.shiftr t 64) in
  let tl := uint64 t in
  let th2 := uint64 (th + th) in
  let c2 := carry2 (c2 s) (th2 <? th) in
  let tl2 := uint64 (tl + tl) in
  let th2 := uint64 (th2 + Z.b2z (tl2 <? tl)) in
  let c0 := uint64 (c0 s + tl2) in
  let th2 := uint64 (th2 + Z.b2z (c0 <? tl2)) in
  let c2 := carry2 c2 ((c0 <? tl2) && (th2 =? 0)) in
  let c1 := uint64 (c1 s + th2) in
  Acc c0 c1 (carry2 c2 (c1 <? th2)).

Definition sumadd (a : Z) (s : acc) : acc :=
  let c0 := uint64 (c0 s + a) in
  let over := Z.b2z (c0 <? a) in
  let c1 := uint64 (c1 s + over) in
  Acc c0 c1 (carry2 (c2 s) (c1 <? over)).

Definition sumadd_fast (a : Z) (s : acc) : acc :=
  let c0 := uint64 (c0 s + a) in
  Acc c0 (uint64 (c1 s + Z.b2z (c0 <? a))) (c2 s).
End Macros.

Definition extract (s : acc) : Z * acc := (c0 s, Acc (c1 s) (c2 s) 0).

Definition extract_fast (s : acc) : Z * acc := (c0 s, Acc (c1 s) 0 (c2 s)).

Definition secp256k1_scalar_mul_512 (a b : secp256k1_scalar) : list Z :=
  let s := Acc 0 0 0 in
  let s := muladd_fast (d0 a) (d0 b) s in
  let '(l0, s) := extract_fast s in
  let s := muladd 32 (d0 a) (d1 b) s in
  let s := muladd 32 (d1 a) (d0 b) s in
  let '(l1, s) := extract s in
  let s := muladd 32 (d0 a) (d2 b) s in
  let s := muladd 32 (d1 a) (d1 b) s in
  let s := muladd 32 (d2 a) (d0 b) s in
  let '(l2, s) := extract s in
  let s := muladd 32 (d0 a) (d3 b) s in
  let s := muladd 32 (d1 a) (d2 b) s in
  let s := muladd 32 (d2 a) (d1 b) s in
  let s := muladd 32 (d3 a) (d0 b) s in
  let '(l3, s) := extract s in
  let s := muladd 32 (d1 a) (d3 b) s in
  let s := muladd 32 (d2 a) (d2 b) s in
  let s := muladd 32 (d3 a) (d1 b) s in
  let '(l4, s) := extract s in
  let s := muladd 32 (d2 a) (d3 b) s in
  let s := muladd 32 (d3 a) (d2 b) s in
  let '(l5, s) := extract s in
  let s := muladd_fast (d3 a) (d3 b) s in
  let '(l6, s) := extract_fast s in
  [l0; l1; l2; l3; l4; l5; l6; c0 s].

Definition secp256k1_scalar_sqr_512 (a : secp256k1_scalar) : list Z :=
  let s := Acc 0 0 0 in
  let s := muladd_fast (d0 a) (d0 a) s in
  let '(l0, s) := extract_fast s in
  let s := muladd2 32 (d0 a) (d1 a) s in
  let '(l1, s) := extract s in
  let s := muladd2 32 (d0 a) (d2 a) s in
  let s := muladd 32 (d1 a) (d1 a) s in
  let '(l2, s) := extract s in
  let s := muladd2 32 (d0 a) (d3 a) s in
  let s := muladd2 32 (d1 a) (d2 a) s in
  let '(l3, s) := extract s in
  let s := muladd2 32 (d1 a) (d3 a) s in
  let s := muladd 32 (d2 a) (d2 a) s in
  let '(l4, s) := extract s in
  let s := muladd2 32 (d2 a) (d3 a) s in
  let '(l5, s) := extract s in
  let s := muladd_fast (d3 a) (d3 a) s in
  let '(l6, s) := extract_fast s in
  [l0; l1; l2; l3; l4; l5; l6; c0 s].

(** The first reduction, to 385 bits. *)
Definition reduce_385 (l : list Z) : list Z :=
  let n0 := byte_at l 4 in let n1 := byte_at l 5 in let n2 := byte_at l 6 in let n3 := byte_at l 7 in
  let s := Acc (byte_at l 0) 0 0 in
  let s := muladd_fast n0 SECP256K1_N_C_0 s in
  let '(m0, s) := extract_fast s in
  let s := sumadd_fast (byte_at l 1) s in
  let s := muladd 64 n1 SECP256K1_N_C_0 s in
  let s := muladd 64 n0 SECP256K1_N_C_1 s in
  let '(m1, s) := extract s in
  let s := sumadd 64 (byte_at l 2) s in
  let s := muladd 64 n2 SECP256K1_N_C_0 s in
  let s := muladd 64 n1 SECP256K1_N_C_1 s in
  let s := sumadd 64 n0 s in
  let '(m2, s) := extract s in
  let s := sumadd 64 (byte_at l 3) s in
  let s := muladd 64 n3 SECP256K1_N_C_0 s in
  let s := muladd 64 n2 SECP256K1_N_C_1 s in
  let s := sumadd 64 n1 s in
  let '(m3, s) := extract s in
  let s := muladd 64 n3 SECP256K1_N_C_1 s in
  let s := sumadd 64 n2 s in
  let '(m4, s) := extract s in
  let s := sumadd_fast n3 s in
  let '(m5, s) := extract_fast s in
  [m0; m1; m2; m3; m4; m5; uint32 (c0 s)].

(** The second reduction, to 258 bits. *)
Definition reduce_258 (m : list Z) : list Z :=
  let m4 := byte_at m 4 in let m5 := byte_at m 5 in let m6 := byte_at m 6 in
  let s := Acc (byte_at m 0) 0 0 in
  let s := muladd_fast m4 SECP256K1_N_C_0 s in
  let '(p0, s) := extract_fast s in
  let s := sumadd_fast (byte_at m 1) s in
  let s := muladd 64 m5 SECP256K1_N_C_0 s in
  let s := muladd 64 m4 SECP256K1_N_C_1 s in
  let '(p1, s) := extract s in
  let s := sumadd 64 (byte_at m 2) s in
  let s := muladd 64 m6 SECP256K1_N_C_0 s in
  let s := muladd 64 m5 SECP256K1_N_C_1 s in
  let s := sumadd 64 m4 s in
  let '(p2, s) := extract s in
  let s := sumadd_fast (byte_at m 3) s in
  let s := muladd_fast m6 SECP256K1_N_C_1 s in
  let s := sumadd_fast m5 s in
  let '(p3, s) := extract_fast s in
  [p0; p1; p2; p3; uint32 (c0 s + m6)].

(** The third one, to 256 bits and a carry. *)
Definition reduce_256 (p : list Z) : secp256k1_scalar * Z :=
  let p4 := byte_at p 4 in
  let c := uint128 (byte_at p 0 + uint128 (SECP256K1_N_C_0 * p4)) in
  let r0 := Z.land c MASK64 in let c := Z.shiftr c 64 in
  let c := uint128 (c + uint128 (byte_at p 1 + uint128 (SECP256K1_N_C_1 * p4))) in
  let r1 := Z.land c MASK64 in let c := Z.shiftr c 64 in
  let c := uint128 (c + uint128 (byte_at p 2 + p4)) in
  let r2 := Z.land c MASK64 in let c := Z.shiftr c 64 in
  let c := uint128 (c + byte_at p 3) in
  let r3 := Z.land c MASK64 in let c := Z.shiftr c 64 in
  (Scalar r0 r1 r2 r3, c).

Definition secp256k1_scalar_reduce_512 (l : list Z) : secp256k1_scalar :=
  let '(r, c) := reduce_256 (reduce_258 (reduce_385 l)) in
  secp256k1_scalar_reduce r (uint32 (c + Z.b2z (secp256k1_scalar_check_overflow r))).

Definition secp256k1_scalar_mul (a b : secp256k1_scalar) : secp256k1_scalar := secp256k1_scalar_reduce_512 (secp256k1_scalar_mul_512 a b).

Definition secp256k1_scalar_sqr (a : secp256k1_scalar) : secp256k1_scalar := secp256k1_scalar_reduce_512 (secp256k1_scalar_sqr_512 a).

(** The bits shifted out and the rest. *)
Definition secp256k1_scalar_shr_int (r : secp256k1_scalar) (n : Z) : Z * secp256k1_scalar :=
  let low := fun x y => uint64 (Z.shiftr x n + uint64 (Z.shiftl y (64 - n))) in
  (Z.land (d0 r) (Z.shiftl 1 n - 1), Scalar (low (d0 r) (d1 r)) (low (d1 r) (d2 r)) (low (d2 r) (d3 r)) (Z.shiftr (d3 r) n)).

Definition secp256k1_scalar_eq (a b : secp256k1_scalar) : bool :=
  Z.lor (Z.lor (Z.lor (Z.lxor (d0 a) (d0 b)) (Z.lxor (d1 a) (d1 b))) (Z.lxor (d2 a) (d2 b))) (Z.lxor (d3 a) (d3 b)) =? 0.

Definition secp256k1_scalar_is_even (a : secp256k1_scalar) : bool := Z.land (d0 a) 1 =? 0.

(** One limb of the shifted product. *)
Definition shifted_limb (l : list Z) (shift i bound : Z) : Z :=
  let shiftlimbs := Z.shiftr shift 6 in
  let shiftlow := Z.land shift 0x3F in
  if shift <? bound then
    Z.lor (Z.shiftr (byte_at l (i + shiftlimbs)) shiftlow)
      (if (shift <? bound - 64) && negb (shiftlow =? 0) then uint64 (Z.shiftl (byte_at l (i + 1 + shiftlimbs)) (64 - shiftlow)) else 0)
  else 0.

Definition secp256k1_scalar_mul_shift_var (a b : secp256k1_scalar) (shift : Z) : secp256k1_scalar :=
  let l := secp256k1_scalar_mul_512 a b in
  let r3 := if shift <? 320 then Z.shiftr (byte_at l (3 + Z.shiftr shift 6)) (Z.land shift 0x3F) else 0 in
  let r := Scalar (shifted_limb l shift 0 512) (shifted_limb l shift 1 448) (shifted_limb l shift 2 384) r3 in
  secp256k1_scalar_cadd_bit r 0 (Z.land (Z.shiftr (byte_at l (Z.shiftr (shift - 1) 6)) (Z.land (shift - 1) 0x3f)) 1).

(** ** The inverse, by exponentiation *)

(** A loop of squarings. *)
Definition scalar_sqr_n (n : nat) (t : secp256k1_scalar) : secp256k1_scalar := Nat.iter n secp256k1_scalar_sqr t.

Definition secp256k1_scalar_inverse (x : secp256k1_scalar) : secp256k1_scalar :=
  let mul := secp256k1_scalar_mul in
  let u2 := secp256k1_scalar_sqr x in
  let x2 := mul u2 x in
  let u5 := mul u2 x2 in
  let x3 := mul u5 u2 in
  let u9 := mul x3 u2 in
  let u11 := mul u9 u2 in
  let u13 := mul u11 u2 in
  let x6 := mul (scalar_sqr_n 2 u13) u11 in
  let x8 := mul (scalar_sqr_n 2 x6) x2 in
  let x14 := mul (scalar_sqr_n (1 + 5) x8) x6 in
  let x28 := mul (scalar_sqr_n (1 + 13) x14) x14 in
  let x56 := mul (scalar_sqr_n (1 + 27) x28) x28 in
  let x112 := mul (scalar_sqr_n (1 + 55) x56) x56 in
  let x126 := mul (scalar_sqr_n (1 + 13) x112) x14 in
  let t := x126 in
  let t := mul (scalar_sqr_n 3 t) u5 in
  let t := mul (scalar_sqr_n 4 t) x3 in
  let t := mul (scalar_sqr_n 4 t) u5 in
  let t := mul (scalar_sqr_n 5 t) u11 in
  let t := mul (scalar_sqr_n 4 t) u11 in
  let t := mul (scalar_sqr_n 4 t) x3 in
  let t := mul (scalar_sqr_n 5 t) x3 in
  let t := mul (scalar_sqr_n 6 t) u13 in
  let t := mul (scalar_sqr_n 4 t) u5 in
  let t := mul (scalar_sqr_n 3 t) x3 in
  let t := mul (scalar_sqr_n 5 t) u9 in
  let t := mul (scalar_sqr_n 6 t) u5 in
  let t := mul (scalar_sqr_n 10 t) x3 in
  let t := mul (scalar_sqr_n 4 t) x3 in
  let t := mul (scalar_sqr_n 9 t) x8 in
  let t := mul (scalar_sqr_n 5 t) u9 in
  let t := mul (scalar_sqr_n 6 t) u11 in
  let t := mul (scalar_sqr_n 4 t) u13 in
  let t := mul (scalar_sqr_n 5 t) x2 in
  let t := mul (scalar_sqr_n 6 t) u13 in
  let t := mul (scalar_sqr_n 10 t) u13 in
  let t := mul (scalar_sqr_n 4 t) u9 in
  let t := mul (scalar_sqr_n 6 t) x in
  mul (scalar_sqr_n 8 t) x6.

Definition secp256k1_scalar_inverse_var (x : secp256k1_scalar) : secp256k1_scalar := secp256k1_scalar_inverse x.
