(* ===== verification/Primality.v ===== *)
(** * Primes

    Pocklington's criterion, with the powers computed by folding at a power of two, and the
    primality of the modulus of the field and of the order of the group, on which the
    inverses of libsecp256k1 rely. *)

From S2P Require Import Prelude.
From Stdlib Require Import Zdivisibility.
From Stdlib Require ZmodInv.

Open Scope Z_scope.

(** ** Divisors *)

Lemma prime_divisor n : 1 < n -> exists r, Z.prime r /\ (r | n).
Proof.
  intros Hn. assert (H : 0 <= n) by lia. revert Hn. pattern n. apply Zlt_0_ind; [| done]. clear n H. intros n IH _ Hn. destruct (decide (Exists (fun d => n mod d = 0) (seqZ 2 (n - 2)))) as [He | He].
  - apply list.Exists_exists in He as (d & Hd%elem_of_seqZ & Hdiv). apply Z.mod_divide in Hdiv; [| lia]. destruct (IH d ltac:(lia) ltac:(lia)) as (r & Hr & Hrd). exists r. split; [done |]. by transitivity d.
  - exists n. split; [| reflexivity]. split; [done |]. intros d Hd Hdiv. apply He. apply list.Exists_exists. exists d. split; [apply elem_of_seqZ; lia |]. by apply Z.mod_divide; [lia |].
Qed.

(** A number whose prime divisors are above its square root is prime. *)
Lemma prime_by_divisors n : 1 < n -> (forall r, Z.prime r -> (r | n) -> n < r * r) -> Z.prime n.
Proof.
  intros Hn H. split; [done |]. intros d Hd [k E]. assert (Hk : 1 < k < n) by nia. assert (Hs : exists m, 1 < m /\ (m | n) /\ m * m <= n).
  { destruct (Z.le_gt_cases d k); [exists d | exists k]; (split; [lia |]; split; [| nia]); [by exists k | exists d; lia]. }
  destruct Hs as (m & Hm & Hdiv & Hsq). destruct (prime_divisor m Hm) as (r & Hr & Hrm). pose proof (Z.prime_ge_2 r Hr). pose proof (Z.divide_pos_le r m ltac:(lia) Hrm). assert (n < r * r) by (apply H; [done | by transitivity m]). nia.
Qed.

(** Trial division up to a bound. *)
Fixpoint no_divisor (fuel : nat) (d n : Z) : bool :=
  match fuel with
  | O => true
  | S fuel => negb (n mod d =? 0) && no_divisor fuel (d + 1) n
  end.

Lemma no_divisor_spec fuel : forall d n, no_divisor fuel d n = true -> forall k, d <= k < d + Z.of_nat fuel -> 0 < k -> ~ (k | n).
Proof.
  induction fuel as [| fuel IH]; intros d n H k Hk Hk0; [lia |]. apply andb_prop in H as [Hd H]. destruct (decide (k = d)) as [-> | Hkd]; [| apply (IH _ _ H); lia].
  intros Hdiv. apply Z.mod_divide in Hdiv; [| lia]. by rewrite Hdiv in Hd.
Qed.

Lemma prime_by_trial fuel n : 1 < n -> no_divisor fuel 2 n = true -> n < (2 + Z.of_nat fuel) * (2 + Z.of_nat fuel) -> Z.prime n.
Proof.
  intros Hn Ht Hf. apply prime_by_divisors; [done |]. intros r Hr Hdiv. pose proof (Z.prime_ge_2 r Hr). destruct (Z.lt_ge_cases r (2 + Z.of_nat fuel)) as [Hlt | Hge]; [| nia]. exfalso. by apply (no_divisor_spec fuel 2 n Ht r); [lia | lia |].
Qed.

(** ** Pocklington's criterion *)

Definition product (l : list Z) : Z := foldr Z.mul 1 l.

Lemma product_cons x l : product (x :: l) = x * product l.
Proof. reflexivity. Qed.

Lemma product_app l m : product (l ++ m) = product l * product m.
Proof. induction l as [| x l IH]; [by rewrite Z.mul_1_l |]. cbn [app]. rewrite !product_cons, IH. lia. Qed.

Lemma product_snoc l x : product (l ++ [x]) = product l * x.
Proof. rewrite product_app. cbn [product foldr]. lia. Qed.

(** Distinct primes divide a number together. *)
Lemma product_divides qs m : NoDup qs -> Forall Z.prime qs -> (forall q, q ∈ qs -> (q | m)) -> (product qs | m).
Proof.
  induction qs as [| q qs IH]; intros Hnd Hp Hd; [exists m; cbn; lia |]. apply list.NoDup_cons in Hnd as [Hq Hnd]. apply Forall_cons_1 in Hp as [Hpq Hp]. rewrite product_cons. destruct (Hd q ltac:(by left)) as [k ->]. rewrite (Z.mul_comm k). apply Z.mul_divide_mono_l.
  apply Z.gauss with q; [rewrite Z.mul_comm; apply IH; [done | done | intros x Hx; apply Hd; by right] |]. rewrite Z.gcd_comm. apply Z.coprime_prime_l; [done |]. clear Hd k IH. intros Hdiv.
  induction qs as [| x qs IH]; [apply Z.divide_1_r in Hdiv; pose proof (Z.prime_ge_2 q Hpq); lia |]. apply Forall_cons_1 in Hp as [Hx Hp]. apply list.NoDup_cons in Hnd as [_ Hnd]. rewrite product_cons in Hdiv. apply Z.divide_prime_mul in Hdiv as [Hdiv | Hdiv]; [| | done].
  - apply Z.divide_prime_prime in Hdiv; [| done | done]. subst. apply Hq. by left.
  - apply IH; [| done | done | done]. intros H. apply Hq. by right.
Qed.

Lemma pow_one b e n : 1 < n -> b mod n = 1 -> 0 <= e -> b ^ e mod n = 1.
Proof. intros Hn Hb He. rewrite <- Z.mod_pow_l, Hb, Z.pow_1_l by done. apply Z.mod_small. lia. Qed.

(** Two coprime exponents at which a power is one. *)
Lemma power_coprime b q m r : 1 < r -> 0 < m -> 0 < q -> Z.coprime q m -> b ^ q mod r = 1 -> b ^ m mod r = 1 -> b mod r = 1.
Proof.
  intros Hr Hm Hq Hc Eq Em. apply Z.Bezout_coprime in Hc as (u & v & E). set (k := u mod m + m). pose proof (Z.mod_pos_bound u m Hm) as Hu. assert (Hw : exists w, 0 <= w /\ k * q = 1 + w * m).
  { exists (q - v - q * (u / m)). assert (Ek : k * q = 1 + (q - v - q * (u / m)) * m) by (unfold k; pose proof (Z.div_mod u m ltac:(lia)); nia). split; [| done]. assert (0 < k * q) by (unfold k; nia). nia. }
  destruct Hw as (w & Hw & Ek). assert (E1 : b ^ (k * q) mod r = 1). { rewrite Z.mul_comm, Z.pow_mul_r by (unfold k; lia). apply pow_one; [done | done | unfold k; lia]. }
  rewrite Ek, Z.pow_add_r, Z.pow_1_r, (Z.mul_comm w), Z.pow_mul_r, Z.mul_mod, pow_one, Z.mul_1_r, Z.mod_mod in E1 by lia. exact E1.
Qed.

Lemma mod_divisor x n r : 1 < n -> 1 < r -> (r | n) -> x mod n = 1 -> x mod r = 1.
Proof. intros Hn Hr Hd E. rewrite <- (Z.mod_mod_divide x n r Hd), E. apply Z.mod_small. lia. Qed.

Theorem pocklington n a qs : 1 < n -> NoDup qs -> Forall Z.prime qs -> (forall q, q ∈ qs -> (q | n - 1)) -> n < product qs * product qs ->
  a ^ (n - 1) mod n = 1 -> (forall q, q ∈ qs -> Z.gcd (a ^ ((n - 1) / q) - 1) n = 1) -> Z.prime n.
Proof.
  intros Hn Hnd Hqs Hdiv Hlt Ea Hgcd. apply prime_by_divisors; [done |]. intros r Hr Hrn. pose proof (Z.prime_ge_2 r Hr) as Hr2. assert (Hra : a ^ (n - 1) mod r = 1) by (apply (mod_divisor _ n); (done || lia)).
  assert (Ha : a mod r <> 0). { intros E0. rewrite <- Z.mod_pow_l, E0, Z.pow_0_l, Z.mod_0_l in Hra by lia. discriminate. }
  assert (HF : (product qs | r - 1)).
  { apply product_divides; [done | done |]. intros q Hq. assert (Hpq : Z.prime q) by (by eapply list.Forall_forall in Hqs). pose proof (Z.prime_ge_2 q Hpq). destruct (Z.eq_dec ((r - 1) mod q) 0) as [E | E]; [by apply Z.mod_divide; [lia |] |]. exfalso.
    assert (Hc : Z.coprime q (r - 1)) by (apply Z.coprime_prime_l; [done |]; intros Hd; apply E; by apply Z.mod_divide; [lia |]). destruct (Hdiv q Hq) as [e Ee]. assert (Hdq : (n - 1) / q = e) by (rewrite Ee; apply Z.div_mul; lia). specialize (Hgcd q Hq). rewrite Hdq in Hgcd.
    assert (He : 0 < e) by nia. set (b := a ^ e) in *. assert (Hb : b mod r = 1).
    { apply (power_coprime b q (r - 1)); [lia | lia | lia | done | |]; unfold b; rewrite <- Z.pow_mul_r by lia; [by rewrite <- Ee |]. rewrite Z.mul_comm, Z.pow_mul_r by lia. apply pow_one; [lia | | lia]. by apply ZmodInv.Z.fermat_nz. }
    assert (Hr1 : (r | 1)). { rewrite <- Hgcd. apply Z.gcd_greatest; [| done]. apply Z.mod_divide; [lia |]. rewrite <- (Z.mod_small 1 r) in Hb by lia. by apply Z.cong_iff_0. }
    apply Z.divide_1_r in Hr1. lia. }
  apply Z.divide_pos_le in HF; [| lia]. assert (0 <= product qs) by (clear -Hqs; induction Hqs as [| q qs Hq _ IH]; [cbn; lia |]; rewrite product_cons; pose proof (Z.prime_ge_2 q Hq); nia). nia.
Qed.

(** ** Powers by folding *)

Section Folding.
(** A reduction that keeps the residue modulo [n]. *)
Context (n : Z) (red : Z -> Z) (red_ok : forall x, red x mod n = x mod n).

Fixpoint power_red (a : Z) (e : positive) : Z :=
  match e with
  | xH => a
  | xO e => let x := power_red a e in red (x * x)
  | xI e => let x := power_red a e in red (red (x * x) * a)
  end.

Lemma power_red_spec a e : n <> 0 -> power_red a e mod n = a ^ Z.pos e mod n.
Proof using red_ok.
  intros Hn. induction e as [e IH | e IH |]; cbn [power_red]; [| | by rewrite Z.pow_1_r].
  - rewrite red_ok, <- Z.mul_mod_idemp_l, red_ok, (Z.mul_mod (power_red a e)), IH, <- Z.mul_mod, Z.mul_mod_idemp_l by done. replace (Z.pos e~1) with (Z.pos e + Z.pos e + 1) by lia. by rewrite !Z.pow_add_r, Z.pow_1_r by lia.
  - rewrite red_ok, Z.mul_mod, IH, <- Z.mul_mod by done. replace (Z.pos e~0) with (Z.pos e + Z.pos e) by lia. by rewrite Z.pow_add_r by lia.
Qed.
End Folding.

(** One fold at the bit [k]: the part above counts [c] times. *)
Definition fold_at (k c x : Z) : Z := Z.shiftr x k * c + Z.land x (Z.ones k).

(** A number [2 ^ k - c] and its divisors: two folds keep a product in about [k] bits. *)
Lemma fold_at_ok n k c x : n <> 0 -> 0 <= k -> (n | 2 ^ k - c) -> fold_at k c x mod n = x mod n.
Proof.
  intros Hn Hk [d E]. unfold fold_at. rewrite Z.shiftr_div_pow2, Z.land_ones by done. pose proof (Z.div_mod x (2 ^ k) ltac:(apply Z.pow_nonzero; lia)) as Ex. set (q := x / 2 ^ k) in *. set (r := x mod 2 ^ k) in *. clearbody q r. rewrite Ex.
  replace (2 ^ k * q + r) with (q * c + r + q * d * n) by nia. by rewrite Z.mod_add.
Qed.

(** The certificate of a prime: a base, the primes that divide its predecessor, and the
    reduction used for the powers, which share the power at the cofactor. *)
Definition check_pocklington (n a : Z) (qs : list Z) (red : Z -> Z) : bool :=
  let f := product qs in
  let b := power_red red a (Z.to_pos ((n - 1) / f)) in
  let power e := power_red red b (Z.to_pos e) mod n in
  (1 <? n) && (n <? f * f) && (0 <? f) && ((n - 1) mod f =? 0) && (power f =? 1) && forallb (fun q => (0 <? q) && (f mod q =? 0) && (Z.gcd (power (f / q) - 1) n =? 1)) qs.

Lemma check_pocklington_spec n a qs red : (forall x, red x mod n = x mod n) -> NoDup qs -> Forall Z.prime qs -> check_pocklington n a qs red = true -> Z.prime n.
Proof.
  intros Hred Hnd Hp Hc. unfold check_pocklington in Hc. set (f := product qs) in *. rewrite !andb_true_iff, !Z.ltb_lt, !Z.eqb_eq, forallb_forall in Hc. destruct Hc as (((((Hn & Hlt) & Hf) & Hd) & E1) & Hqs).
  apply Z.mod_divide in Hd as [c Ec]; [| lia]. rewrite Ec, Z.div_mul in E1, Hqs by lia. set (b := power_red red a (Z.to_pos c)) in *. assert (Hc : 0 < c) by nia.
  assert (Hpow : forall e, 0 < e -> power_red red b (Z.to_pos e) mod n = a ^ (c * e) mod n).
  { intros e He. rewrite (power_red_spec n red Hred), Z2Pos.id, <- Z.mod_pow_l by lia. unfold b. rewrite (power_red_spec n red Hred), Z2Pos.id, Z.mod_pow_l by lia. by rewrite <- Z.pow_mul_r by lia. }
  assert (Hq : forall q, q ∈ qs -> (q | n - 1) /\ Z.gcd (a ^ ((n - 1) / q) - 1) n = 1).
  { intros q Hq. specialize (Hqs q). rewrite <- list_elem_of_In, !andb_true_iff, Z.ltb_lt, !Z.eqb_eq in Hqs. destruct (Hqs Hq) as ((Hq0 & Hd) & Hg). apply Z.mod_divide in Hd as [e Ee]; [| lia]. rewrite Ee, Z.div_mul in Hg by lia.
    assert (Ed : n - 1 = c * e * q) by lia. split; [by exists (c * e) |]. rewrite Ed, Z.div_mul by lia. rewrite Hpow in Hg by nia. rewrite <- Z.gcd_mod_l in Hg |- *. by rewrite Zminus_mod_idemp_l in Hg. }
  apply (pocklington n a qs); [done | done | done | intros q Hin; by apply Hq | done | | intros q Hin; by apply Hq]. by rewrite Ec, <- Hpow.
Qed.

(** ** The modulus of the field and the order of the group *)

Ltac trial fuel := apply (prime_by_trial fuel); vm_compute; reflexivity.

(** A certificate above primes that are known, with the reduction of its powers. *)
Ltac certified qs red :=
  apply (check_pocklington_spec _ 2 qs red);
  [| apply (bool_decide_unpack _); vm_compute; exact I | repeat (apply Forall_cons_2; [assumption |]); constructor | vm_compute; reflexivity].

Ltac certified_mod qs := lazymatch goal with |- Z.prime ?n => certified qs (fun x => x mod n); intros x; by apply Z.mod_mod end.

Lemma prime_128 : Z.prime 255515944373312847190720520512484175977.
Proof.
  assert (Z.prime 53) by trial 6%nat. assert (Z.prime 29) by trial 6%nat. assert (Z.prime 7) by trial 2%nat. assert (Z.prime 107590001) by certified_mod [53; 29; 7].
  assert (Z.prime 7240687) by trial 2700%nat. assert (Z.prime 96557) by trial 320%nat. certified_mod [107590001; 7240687; 96557].
Qed.

(** The powers modulo the prime of 237 bits are taken modulo the predecessor of the field's
    modulus, its multiple, which is close to a power of two. *)
Lemma prime_237 : Z.prime 205115282021455665897114700593932402728804164701536103180137503955397371.
Proof.
  pose proof prime_128. certified [255515944373312847190720520512484175977] (fun x => fold_at 256 4294968274 (fold_at 256 4294968274 x)).
  intros x. rewrite !fold_at_ok; [done | done | done | | done | done |]; by exists 564522.
Qed.

Theorem field_modulus_prime : Z.prime 0xFFFFFFFFFFFFFFFFFFFFFFFFFFFFFFFFFFFFFFFFFFFFFFFFFFFFFFFEFFFFFC2F.
Proof.
  pose proof prime_237. certified [205115282021455665897114700593932402728804164701536103180137503955397371] (fun x => fold_at 256 4294968273 (fold_at 256 4294968273 x)).
  intros x. rewrite !fold_at_ok; [done | done | done | | done | done |]; by exists 1.
Qed.

Lemma prime_109 : Z.prime 341948486974166000522343609283189.
Proof.
  assert (Z.prime 59) by trial 6%nat. assert (Z.prime 28181) by trial 180%nat. assert (Z.prime 545358713) by certified_mod [28181; 59]. assert (Z.prime 1627771) by trial 1300%nat. assert (Z.prime 297159362677) by certified_mod [1627771].
  assert (Z.prime 29047611873442575647497758179) by certified_mod [297159362677; 545358713]. certified_mod [29047611873442575647497758179].
Qed.

Lemma prime_57 : Z.prime 107361793816595537.
Proof. assert (Z.prime 4681609) by trial 2200%nat. assert (Z.prime 85831) by trial 300%nat. certified_mod [4681609; 85831]. Qed.

Theorem group_order_prime : Z.prime 0xFFFFFFFFFFFFFFFFFFFFFFFFFFFFFFFEBAAEDCE6AF48A03BBFD25E8CD0364141.
Proof.
  pose proof prime_109. pose proof prime_57. certified [341948486974166000522343609283189; 107361793816595537] (fun x => let fold := fold_at 256 432420386565659656852420866394968145599 in fold (fold (fold x))).
  intros x. cbv zeta. rewrite !fold_at_ok; [done | done | done | | done | done | | done | done |]; by exists 1.
Qed.
