(* ===== verification/ScalarProps.v ===== *)
(** * Scalar arithmetic is arithmetic modulo the order

    Every operation on four limbs computes the operation on the numbers they represent,
    modulo the order of the group, without an overflow of its carries. *)

From S2P Require Import Prelude Primality Scalar.
From Stdlib Require ZmodInv.

Open Scope Z_scope.

(** ** Limbs *)

(** The base of the limbs. *)
Abbreviation W := 18446744073709551616.

Definition limb (x : Z) : Prop := 0 <= x < W.

Definition scalar_wf (a : secp256k1_scalar) : Prop := limb (d0 a) /\ limb (d1 a) /\ limb (d2 a) /\ limb (d3 a).

Definition sval (a : secp256k1_scalar) : Z := d0 a + W * (d1 a + W * (d2 a + W * d3 a)).

(** The order of the group. *)
Definition order : Z := 0xFFFFFFFFFFFFFFFFFFFFFFFFFFFFFFFEBAAEDCE6AF48A03BBFD25E8CD0364141.

Lemma land_MASK64 x : Z.land x MASK64 = x mod W.
Proof. exact (land_mask x 64 ltac:(lia)). Qed.

Lemma shiftr_64 x : Z.shiftr x 64 = x / W.
Proof. exact (Z.shiftr_div_pow2 x 64 ltac:(lia)). Qed.

Lemma uint64_W x : uint64 x = x mod W.
Proof. reflexivity. Qed.

Lemma uint128_id x : 0 <= x < W * W -> uint128 x = x.
Proof. apply Z.mod_small. Qed.

Lemma scalar_bound a : scalar_wf a -> 0 <= sval a < W * W * W * W.
Proof. intros (H0 & H1 & H2 & H3). unfold limb, sval in *. lia. Qed.

(** ** Sums *)

(** The quotient and the remainder of a limb sum as variables. *)
Ltac split_limb x q r :=
  let E := fresh "E" in let B := fresh "B" in
  pose proof (Z.div_mod x W ltac:(lia)) as E; pose proof (Z.mod_pos_bound x W ltac:(lia)) as B; set (q := x / W) in *; set (r := x mod W) in *; clearbody q r.

(** A chain of four sums with carries. *)
Definition chain4 (x0 x1 x2 x3 : Z) : secp256k1_scalar * Z :=
  let t := uint128 x0 in
  let r0 := Z.land t MASK64 in let t := Z.shiftr t 64 in
  let t := uint128 (t + x1) in
  let r1 := Z.land t MASK64 in let t := Z.shiftr t 64 in
  let t := uint128 (t + x2) in
  let r2 := Z.land t MASK64 in let t := Z.shiftr t 64 in
  let t := uint128 (t + x3) in
  (Scalar r0 r1 r2 (Z.land t MASK64), Z.shiftr t 64).

Lemma chain4_spec x0 x1 x2 x3 r c : chain4 x0 x1 x2 x3 = (r, c) -> 0 <= x0 < W * 1024 -> 0 <= x1 < W * 1024 -> 0 <= x2 < W * 1024 -> 0 <= x3 < W * 1024 ->
  scalar_wf r /\ 0 <= c /\ sval r + W * W * W * W * c = x0 + W * (x1 + W * (x2 + W * x3)).
Proof.
  intros Ec H0 H1 H2 H3. unfold chain4 in Ec. rewrite !shiftr_64, !land_MASK64 in Ec. injection Ec as <- <-. unfold scalar_wf, limb, sval. cbn [d0 d1 d2 d3].
  rewrite (uint128_id x0) by lia. split_limb x0 q0 r0. rewrite (uint128_id (q0 + x1)) by lia. split_limb (q0 + x1) q1 r1.
  rewrite (uint128_id (q1 + x2)) by lia. split_limb (q1 + x2) q2 r2. rewrite (uint128_id (q2 + x3)) by lia. split_limb (q2 + x3) q3 r3. lia.
Qed.

Lemma check_overflow_spec a : scalar_wf a -> secp256k1_scalar_check_overflow a = (order <=? sval a).
Proof.
  intros (H0 & H1 & H2 & H3). unfold limb, secp256k1_scalar_check_overflow, sval, order, SECP256K1_N_0, SECP256K1_N_1, SECP256K1_N_2, SECP256K1_N_3 in *. rewrite !Z.gtb_ltb, !Z.geb_leb.
  repeat match goal with |- context [?x <? ?y] => destruct (Z.ltb_spec x y) | |- context [?x <=? ?y] => destruct (Z.leb_spec x y) end; cbn; try reflexivity; exfalso; lia.
Qed.

(** Adding the complement of the order. *)
Lemma reduce_spec a o : scalar_wf a -> o = 0 \/ o = 1 ->
  scalar_wf (secp256k1_scalar_reduce a o) /\ sval (secp256k1_scalar_reduce a o) = (sval a + o * (W * W * W * W - order)) mod (W * W * W * W).
Proof.
  intros Ha Ho.
  assert (E : secp256k1_scalar_reduce a o = (chain4 (d0 a + uint64 (o * SECP256K1_N_C_0)) (d1 a + uint64 (o * SECP256K1_N_C_1)) (d2 a + uint64 (o * SECP256K1_N_C_2)) (d3 a)).1) by reflexivity. rewrite E. clear E.
  assert (EC : uint64 (o * SECP256K1_N_C_0) = o * 4624529908474429119 /\ uint64 (o * SECP256K1_N_C_1) = o * 4994812053365940164 /\ uint64 (o * SECP256K1_N_C_2) = o) by (destruct Ho as [-> | ->]; vm_compute; done).
  destruct EC as (-> & -> & ->). destruct Ha as (H0 & H1 & H2 & H3). unfold limb in *.
  destruct (chain4 _ _ _ _) as [r c] eqn:Ec. destruct (chain4_spec _ _ _ _ _ _ Ec) as (Hr & Hc & Hv); [lia .. |]. cbn [fst]. split; [done |]. pose proof (scalar_bound r Hr).
  apply (Z.mod_unique _ _ c); [lia |]. unfold sval at 1. unfold order. lia.
Qed.

(** The reduction by a carry and the test of the limbs. *)
Lemma reduce_carry a c S : scalar_wf a -> 0 <= c -> sval a + W * W * W * W * c = S -> 0 <= S < 2 * order ->
  let o := c + Z.b2z (secp256k1_scalar_check_overflow a) in
  (o = 0 \/ o = 1) /\ o = Z.b2z (order <=? S) /\ scalar_wf (secp256k1_scalar_reduce a o) /\ sval (secp256k1_scalar_reduce a o) = S mod order.
Proof.
  intros Ha Hc E HS o. pose proof (scalar_bound a Ha) as Hb. assert (Ho : o = Z.b2z (order <=? S)).
  { unfold o. rewrite check_overflow_spec by done. unfold order in *. destruct (Z.leb_spec 0xFFFFFFFFFFFFFFFFFFFFFFFFFFFFFFFEBAAEDCE6AF48A03BBFD25E8CD0364141 (sval a)), (Z.leb_spec 0xFFFFFFFFFFFFFFFFFFFFFFFFFFFFFFFEBAAEDCE6AF48A03BBFD25E8CD0364141 S); cbn [Z.b2z]; lia. }
  assert (Ho' : o = 0 \/ o = 1) by (rewrite Ho; destruct (order <=? S); auto). split; [done |]. split; [done |]. destruct (reduce_spec a o Ha Ho') as [Hw Hv]. split; [done |]. rewrite Hv, Ho. destruct (Z.leb_spec order S) as [Hle | Hlt]; cbn [Z.b2z].
  - symmetry. transitivity (S - order); [symmetry; apply (Z.mod_unique _ _ 1); unfold order in *; lia |]. apply (Z.mod_unique _ _ (1 - c)); unfold order in *; lia.
  - rewrite (Z.mod_small S order) by lia. assert (c = 0) by (unfold order in *; lia). rewrite Z.mod_small; lia.
Qed.

Definition reduced (a : secp256k1_scalar) : Prop := scalar_wf a /\ sval a < order.

Lemma reduced_bound a : reduced a -> 0 <= sval a < order.
Proof. intros [Ha Hb]. pose proof (scalar_bound a Ha). lia. Qed.

Lemma order_pos : 0 < order.
Proof. done. Qed.

Lemma reduced_intro a x : scalar_wf a -> sval a = x mod order -> reduced a.
Proof. intros Ha E. split; [done |]. rewrite E. apply Z.mod_pos_bound, order_pos. Qed.

Lemma add_spec a b : reduced a -> reduced b ->
  let '(r, o) := secp256k1_scalar_add a b in reduced r /\ sval r = (sval a + sval b) mod order /\ o = Z.b2z (order <=? sval a + sval b).
Proof.
  intros Ha Hb. pose proof (reduced_bound a Ha). pose proof (reduced_bound b Hb). destruct Ha as [(A0 & A1 & A2 & A3) _], Hb as [(B0 & B1 & B2 & B3) _]. unfold limb in *.
  assert (E : secp256k1_scalar_add a b = let '(r, c) := chain4 (d0 a + d0 b) (d1 a + d1 b) (d2 a + d2 b) (d3 a + d3 b) in
    (secp256k1_scalar_reduce r (c + Z.b2z (secp256k1_scalar_check_overflow r)), c + Z.b2z (secp256k1_scalar_check_overflow r))) by reflexivity. rewrite E. clear E.
  destruct (chain4 _ _ _ _) as [r c] eqn:Ec. destruct (chain4_spec _ _ _ _ _ _ Ec) as (Hr & Hc & Hv); [lia .. |].
  destruct (reduce_carry r c (sval a + sval b) Hr Hc ltac:(rewrite Hv; unfold sval; lia) ltac:(lia)) as (_ & Ho & Hw & Hv'). split; [by apply (reduced_intro _ (sval a + sval b)) | done].
Qed.

(** ** The accumulator *)

(** The comparison that detects the carry of a sum. *)
Lemma add_carry x y : limb x -> limb y -> limb (uint64 (x + y)) /\ x + y = uint64 (x + y) + W * Z.b2z (uint64 (x + y) <? y).
Proof.
  unfold limb. intros Hx Hy. rewrite uint64_W. pose proof (Z.mod_pos_bound (x + y) W ltac:(lia)) as B. split; [done |]. destruct (Z.lt_ge_cases (x + y) W) as [H | H].
  - rewrite Z.mod_small by lia. rewrite (proj2 (Z.ltb_ge _ _)) by lia. cbn. lia.
  - replace ((x + y) mod W) with (x + y - W) by (apply (Z.mod_unique _ _ 1); lia). rewrite (proj2 (Z.ltb_lt _ _)) by lia. cbn. lia.
Qed.

Definition aval (s : acc) : Z := c0 s + W * (c1 s + W * c2 s).

Definition acc_wf (w : Z) (s : acc) : Prop := limb (c0 s) /\ limb (c1 s) /\ 0 <= c2 s < 2 ^ w.

Lemma b2z_bound b : 0 <= Z.b2z b <= 1.
Proof. destruct b; cbn; lia. Qed.

Lemma carry2_id w x b : 0 <= x -> x + Z.b2z b < 2 ^ w -> carry2 w x b = x + Z.b2z b.
Proof. intros Hx H. pose proof (b2z_bound b). apply Z.mod_small. lia. Qed.

(** The halves of a product. *)
Lemma product_halves a b : limb a -> limb b -> let t := uint128 (a * b) in
  limb (uint64 t) /\ 0 <= uint64 (Z.shiftr t 64) <= W - 2 /\ a * b = uint64 t + W * uint64 (Z.shiftr t 64).
Proof.
  intros Ha Hb. cbv zeta. unfold limb in *. assert (Hab : 0 <= a * b <= (W - 1) * (W - 1)) by nia. rewrite uint128_id by lia. rewrite shiftr_64, !uint64_W. set (p := a * b) in *. clearbody p.
  pose proof (Z.div_mod p W ltac:(lia)) as E. pose proof (Z.mod_pos_bound p W ltac:(lia)) as B. rewrite (Z.mod_small (p / W)) by lia. split; [done |]. split; [lia | lia].
Qed.

Ltac carry_of x y b :=
  let L := fresh "L" in let E := fresh "E" in let B := fresh "B" in
  destruct (add_carry x y ltac:(unfold limb in *; lia) ltac:(unfold limb in *; lia)) as [L E];
  pose proof (b2z_bound (uint64 (x + y) <? y)) as B; set (b := uint64 (x + y) <? y) in *.

Lemma muladd_spec w a b s : limb a -> limb b -> 0 <= w -> acc_wf w s -> aval s + a * b < W * W * 2 ^ w ->
  acc_wf w (muladd w a b s) /\ aval (muladd w a b s) = aval s + a * b.
Proof.
  intros Ha Hb Hw (H0 & H1 & H2) Hlt. unfold muladd. destruct (product_halves a b Ha Hb) as (Ltl & Lth & Et). set (tl := uint64 (uint128 (a * b))) in *. set (th := uint64 (Z.shiftr (uint128 (a * b)) 64)) in *. clearbody tl th. rewrite Et in *. clear Et.
  carry_of (c0 s) tl k0. rewrite (uint64_id (th + Z.b2z k0)) by lia. carry_of (c1 s) (th + Z.b2z k0) k1. unfold aval, acc_wf in *. cbn [c0 c1 c2]. set (p := 2 ^ w) in *.
  assert (Hc : carry2 w (c2 s) k1 = c2 s + Z.b2z k1) by (apply carry2_id; [lia | fold p; unfold limb in *; nia]). rewrite Hc. unfold limb in *. split; [split_and!; nia |]. nia.
Qed.

Lemma muladd_fast_spec w a b s : limb a -> limb b -> acc_wf w s -> c0 s + W * c1 s + a * b < W * W ->
  acc_wf w (muladd_fast a b s) /\ aval (muladd_fast a b s) = aval s + a * b /\ c2 (muladd_fast a b s) = c2 s.
Proof.
  intros Ha Hb (H0 & H1 & H2) Hlt. unfold muladd_fast. destruct (product_halves a b Ha Hb) as (Ltl & Lth & Et). set (tl := uint64 (uint128 (a * b))) in *. set (th := uint64 (Z.shiftr (uint128 (a * b)) 64)) in *. clearbody tl th. rewrite Et in *. clear Et.
  carry_of (c0 s) tl k0. rewrite (uint64_id (th + Z.b2z k0)) by lia. unfold aval, acc_wf in *. cbn [c0 c1 c2]. unfold limb in *. rewrite (uint64_id (c1 s + (th + Z.b2z k0))) by lia. split; [split_and!; lia |]. lia.
Qed.

Lemma sumadd_spec w a s : limb a -> 0 <= w -> acc_wf w s -> aval s + a < W * W * 2 ^ w -> acc_wf w (sumadd w a s) /\ aval (sumadd w a s) = aval s + a.
Proof.
  intros Ha Hw (H0 & H1 & H2) Hlt. unfold sumadd. carry_of (c0 s) a k0. carry_of (c1 s) (Z.b2z k0) k1. unfold aval, acc_wf in *. cbn [c0 c1 c2]. set (p := 2 ^ w) in *.
  assert (Hc : carry2 w (c2 s) k1 = c2 s + Z.b2z k1) by (apply carry2_id; [lia | fold p; unfold limb in *; nia]). rewrite Hc. unfold limb in *. split; [split_and!; nia |]. nia.
Qed.

Lemma sumadd_fast_spec w a s : limb a -> acc_wf w s -> c0 s + W * c1 s + a < W * W ->
  acc_wf w (sumadd_fast a s) /\ aval (sumadd_fast a s) = aval s + a /\ c2 (sumadd_fast a s) = c2 s.
Proof.
  intros Ha (H0 & H1 & H2) Hlt. unfold sumadd_fast. carry_of (c0 s) a k0. unfold aval, acc_wf in *. cbn [c0 c1 c2]. unfold limb in *. rewrite (uint64_id (c1 s + Z.b2z k0)) by lia. split; [split_and!; lia |]. lia.
Qed.

Lemma muladd2_spec w a b s : limb a -> limb b -> 0 <= w -> acc_wf w s -> aval s + 2 * (a * b) < W * W * 2 ^ w ->
  acc_wf w (muladd2 w a b s) /\ aval (muladd2 w a b s) = aval s + 2 * (a * b).
Proof.
  intros Ha Hb Hw (H0 & H1 & H2) Hlt. unfold muladd2. destruct (product_halves a b Ha Hb) as (Ltl & Lth & Et). set (tl := uint64 (uint128 (a * b))) in *. set (th := uint64 (Z.shiftr (uint128 (a * b)) 64)) in *. clearbody tl th. rewrite Et in *. clear Et.
  carry_of th th k1. set (th2 := uint64 (th + th)) in *. carry_of tl tl k2. set (tl2 := uint64 (tl + tl)) in *. assert (Hth2 : th2 <= W - 2) by (clearbody k1 k2; destruct k1, k2; cbn [Z.b2z] in *; unfold limb in *; lia).
  rewrite (uint64_id (th2 + Z.b2z k2)) by (unfold limb in *; lia). carry_of (c0 s) tl2 k3. set (th3 := th2 + Z.b2z k2) in *. assert (Eth3 : th3 = th2 + Z.b2z k2) by done.
  assert (E4 : exists k, uint64 (th3 + Z.b2z k3) = th3 + Z.b2z k3 - W * Z.b2z k /\ k3 && (uint64 (th3 + Z.b2z k3) =? 0) = k).
  { rewrite uint64_W. destruct (Z.eq_dec (th3 + Z.b2z k3) W) as [EW | EW].
    - exists true. rewrite EW, Z.mod_same by lia. split; [done |]. assert (Z.b2z k3 = 1) by (unfold limb in *; lia). by destruct k3.
    - exists false. rewrite Z.mod_small by (unfold limb in *; lia). split; [cbn; lia |]. destruct k3; [| done]. cbn [andb Z.b2z] in *. apply Z.eqb_neq. unfold limb in *. lia. }
  destruct E4 as (k4 & E4 & ->). pose proof (b2z_bound k4) as B4. set (th4 := uint64 (th3 + Z.b2z k3)) in *. assert (L4 : limb th4) by (unfold limb, th4; rewrite uint64_W; apply Z.mod_pos_bound; lia). carry_of (c1 s) th4 k5. unfold aval, acc_wf in *. cbn [c0 c1 c2]. set (p := 2 ^ w) in *.
  assert (Hsum : c2 s + Z.b2z k1 + Z.b2z k4 + Z.b2z k5 < p) by (unfold limb in *; clearbody k1 k2 k3 k5 th2 tl2 th3 th4 p; nia).
  rewrite (carry2_id w (c2 s) k1) by (fold p; lia). rewrite (carry2_id w (c2 s + Z.b2z k1) k4) by (fold p; lia). rewrite (carry2_id w _ k5) by (fold p; lia). unfold limb in *. split; [split_and!; lia |]. lia.
Qed.

Lemma extract_spec w s : 0 <= w <= 64 -> acc_wf w s -> limb (extract s).1 /\ acc_wf w (extract s).2 /\ aval s = (extract s).1 + W * aval (extract s).2 /\ c2 (extract s).2 = 0.
Proof.
  intros Hw (H0 & H1 & H2). unfold aval, acc_wf, limb in *. cbn [extract fst snd c0 c1 c2]. pose proof (Z.pow_le_mono_r 2 w 64 ltac:(lia) ltac:(lia)). change (2 ^ 64) with W in *. split; [done |]. split; [split_and!; lia |]. lia.
Qed.

Lemma extract_fast_spec w s : acc_wf w s -> c2 s = 0 -> limb (extract_fast s).1 /\ acc_wf w (extract_fast s).2 /\ aval s = (extract_fast s).1 + W * aval (extract_fast s).2 /\ c2 (extract_fast s).2 = 0 /\ c1 (extract_fast s).2 = 0.
Proof. intros (H0 & H1 & H2) E. unfold aval, acc_wf, limb in *. cbn [extract_fast fst snd c0 c1 c2]. split; [done |]. split; [split_and!; lia |]. lia. Qed.

(** ** Products of 512 bits *)

Fixpoint limbs_val (l : list Z) : Z := match l with [] => 0 | d :: l => d + W * limbs_val l end.

(** An accumulator with an upper bound of its value. *)
Definition acc_le (w : Z) (s : acc) (B : Z) : Prop := acc_wf w s /\ aval s <= B.

Definition MAX_PRODUCT : Z := (W - 1) * (W - 1).

Lemma product_bound a b : limb a -> limb b -> 0 <= a * b <= MAX_PRODUCT.
Proof. unfold limb, MAX_PRODUCT. nia. Qed.

Lemma width32 : 0 <= 32 <= 64.
Proof. lia. Qed.

Lemma width64 : 0 <= 64 <= 64.
Proof. lia. Qed.

Section Bounds.
Context (w : Z) (Hw : 0 <= w <= 64).

Lemma muladd_le a b s B : acc_le w s B -> limb a -> limb b -> (B + MAX_PRODUCT <? W * W * 2 ^ w) = true ->
  acc_le w (muladd w a b s) (B + MAX_PRODUCT) /\ aval (muladd w a b s) = aval s + a * b.
Proof using Hw.
  intros [Hs HB] Ha Hb Hlt%Z.ltb_lt. pose proof (product_bound a b Ha Hb). destruct (muladd_spec w a b s Ha Hb ltac:(lia) Hs ltac:(lia)) as [Hs' E]. split; [split; [done | lia] | done].
Qed.

Lemma muladd2_le a b s B : acc_le w s B -> limb a -> limb b -> (B + 2 * MAX_PRODUCT <? W * W * 2 ^ w) = true ->
  acc_le w (muladd2 w a b s) (B + 2 * MAX_PRODUCT) /\ aval (muladd2 w a b s) = aval s + 2 * (a * b).
Proof using Hw.
  intros [Hs HB] Ha Hb Hlt%Z.ltb_lt. pose proof (product_bound a b Ha Hb). destruct (muladd2_spec w a b s Ha Hb ltac:(lia) Hs ltac:(lia)) as [Hs' E]. split; [split; [done | lia] | done].
Qed.

Lemma sumadd_le a s B : acc_le w s B -> limb a -> (B + W <? W * W * 2 ^ w) = true -> acc_le w (sumadd w a s) (B + W) /\ aval (sumadd w a s) = aval s + a.
Proof using Hw.
  intros [Hs HB] Ha Hlt%Z.ltb_lt. unfold limb in Ha. destruct (sumadd_spec w a s Ha ltac:(lia) Hs ltac:(lia)) as [Hs' E]. split; [split; [done | lia] | done].
Qed.

(** The fast forms do not reach the last part. *)
Lemma low_part s B : acc_le w s B -> c0 s + W * c1 s <= B.
Proof using Hw. intros [(H0 & H1 & H2) HB]. unfold aval in HB. lia. Qed.

Lemma muladd_fast_le a b s B : acc_le w s B -> limb a -> limb b -> (B + MAX_PRODUCT <? W * W) = true ->
  acc_le w (muladd_fast a b s) (B + MAX_PRODUCT) /\ aval (muladd_fast a b s) = aval s + a * b.
Proof using Hw.
  intros Hs Ha Hb Hlt%Z.ltb_lt. pose proof (product_bound a b Ha Hb). pose proof (low_part s B Hs). destruct Hs as [Hs HB]. destruct (muladd_fast_spec w a b s Ha Hb Hs ltac:(lia)) as (Hs' & E & _). split; [split; [done | lia] | done].
Qed.

Lemma muladd_fast_bit_le a b s B : acc_le w s B -> 0 <= a <= 1 -> limb b -> (B + W <? W * W) = true ->
  acc_le w (muladd_fast a b s) (B + W) /\ aval (muladd_fast a b s) = aval s + a * b.
Proof using Hw.
  intros Hs Ha Hb Hlt%Z.ltb_lt. assert (La : limb a) by (unfold limb; lia). assert (Hab : 0 <= a * b <= W) by (unfold limb in Hb; nia). pose proof (low_part s B Hs). destruct Hs as [Hs HB].
  destruct (muladd_fast_spec w a b s La Hb Hs ltac:(lia)) as (Hs' & E & _). split; [split; [done | lia] | done].
Qed.

Lemma sumadd_fast_le a s B : acc_le w s B -> limb a -> (B + W <? W * W) = true -> acc_le w (sumadd_fast a s) (B + W) /\ aval (sumadd_fast a s) = aval s + a.
Proof using Hw.
  intros Hs Ha Hlt%Z.ltb_lt. pose proof (low_part s B Hs). destruct Hs as [Hs HB]. unfold limb in Ha. destruct (sumadd_fast_spec w a s Ha Hs ltac:(lia)) as (Hs' & E & _). split; [split; [done | lia] | done].
Qed.

Lemma extract_le s B : acc_le w s B -> limb (extract s).1 /\ acc_le w (extract s).2 (B / W) /\ aval s = (extract s).1 + W * aval (extract s).2.
Proof using Hw.
  intros [Hs HB]. destruct (extract_spec w s Hw Hs) as (Hl & Hs' & E & _). split; [done |]. split; [| done]. split; [done |]. apply Z.div_le_lower_bound; [lia |]. unfold limb in Hl. lia.
Qed.

Lemma extract_fast_le s B : acc_le w s B -> (B <? W * W) = true -> limb (extract_fast s).1 /\ acc_le w (extract_fast s).2 (B / W) /\ aval s = (extract_fast s).1 + W * aval (extract_fast s).2.
Proof using Hw.
  intros [Hs HB] Hlt%Z.ltb_lt. assert (E2 : c2 s = 0) by (destruct Hs as (H0 & H1 & H2); unfold aval, limb in *; lia). destruct (extract_fast_spec w s Hs E2) as (Hl & Hs' & E & _). split; [done |]. split; [| done].
  split; [done |]. apply Z.div_le_lower_bound; [lia |]. unfold limb in Hl. lia.
Qed.

Lemma acc_start x : limb x -> acc_le w (Acc x 0 0) W /\ aval (Acc x 0 0) = x.
Proof using Hw. intros Hx. pose proof (Z.pow_pos_nonneg 2 w ltac:(lia) ltac:(lia)). unfold acc_le, acc_wf, aval, limb in *. cbn [c0 c1 c2]. split; [split; [split_and!; lia | lia] | lia]. Qed.
End Bounds.

(** One macro of a straight-line computation: its result becomes a variable with its value
    and a bound. *)
Ltac acc_result H s' x := set (s' := x) in *; clearbody s'; destruct H as [? ?].

Ltac acc_step w Hw :=
  let H := fresh "H" in let s' := fresh "s" in
  match goal with
  | K : acc_le _ ?s ?B |- context [muladd w ?a ?b ?s] => pose proof (muladd_le w Hw a b s B K ltac:(assumption) ltac:(assumption) eq_refl) as H; acc_result H s' (muladd w a b s); clear K
  | K : acc_le _ ?s ?B |- context [muladd2 w ?a ?b ?s] => pose proof (muladd2_le w Hw a b s B K ltac:(assumption) ltac:(assumption) eq_refl) as H; acc_result H s' (muladd2 w a b s); clear K
  | K : acc_le _ ?s ?B |- context [sumadd w ?a ?s] => pose proof (sumadd_le w Hw a s B K ltac:(assumption) eq_refl) as H; acc_result H s' (sumadd w a s); clear K
  | K : acc_le _ ?s ?B |- context [muladd_fast ?a ?b ?s] => pose proof (muladd_fast_le w Hw a b s B K ltac:(assumption) ltac:(assumption) eq_refl) as H; acc_result H s' (muladd_fast a b s); clear K
  | K : acc_le _ ?s ?B |- context [sumadd_fast ?a ?s] => pose proof (sumadd_fast_le w Hw a s B K ltac:(assumption) eq_refl) as H; acc_result H s' (sumadd_fast a s); clear K
  | K : acc_le _ ?s ?B |- context [extract ?s] => pose proof (extract_le w Hw s B K) as H; let l := fresh "l" in destruct (extract s) as [l s']; cbn [fst snd] in H; destruct H as (? & ? & ?); clear K
  | K : acc_le _ ?s ?B |- context [extract_fast ?s] => pose proof (extract_fast_le w Hw s B K eq_refl) as H; let l := fresh "l" in destruct (extract_fast s) as [l s']; cbn [fst snd] in H; destruct H as (? & ? & ?); clear K
  end.

(** The accumulator when a single part is left. *)
Lemma acc_single w s B : acc_le w s B -> B < W -> limb (c0 s) /\ aval s = c0 s.
Proof. intros [(H0 & H1 & H2) HB] Hlt. unfold aval, limb in *. lia. Qed.

Ltac acc_end w := match goal with K : acc_le _ ?s ?B |- context [c0 ?s] => destruct (acc_single w s B K ltac:(reflexivity)) as [? ?] end.

Lemma limbs_bound4 a b c d : limb a -> limb b -> limb c -> limb d -> 0 <= limbs_val [a; b; c; d] < W * W * W * W.
Proof. unfold limb. cbn [limbs_val]. lia. Qed.

Lemma mul_512_spec a b : scalar_wf a -> scalar_wf b ->
  let l := secp256k1_scalar_mul_512 a b in Forall limb l /\ length l = 8%nat /\ limbs_val l = sval a * sval b.
Proof.
  destruct a as [a0 a1 a2 a3], b as [b0 b1 b2 b3]. intros (A0 & A1 & A2 & A3) (B0 & B1 & B2 & B3). cbn [d0 d1 d2 d3] in *. unfold secp256k1_scalar_mul_512. cbn [d0 d1 d2 d3].
  destruct (acc_start 32 width32 0 ltac:(done)) as [K E]. set (s := Acc 0 0 0) in *. clearbody s. 
  repeat acc_step 32 width32. acc_end 32. split; [repeat (apply Forall_cons_2; [assumption |]); constructor |]. split; [done |]. unfold sval. cbn [d0 d1 d2 d3 limbs_val]. lia.
Qed.

Lemma sqr_512_spec a : scalar_wf a ->
  let l := secp256k1_scalar_sqr_512 a in Forall limb l /\ length l = 8%nat /\ limbs_val l = sval a * sval a.
Proof.
  destruct a as [a0 a1 a2 a3]. intros (A0 & A1 & A2 & A3). cbn [d0 d1 d2 d3] in *. unfold secp256k1_scalar_sqr_512. cbn [d0 d1 d2 d3].
  destruct (acc_start 32 width32 0 ltac:(done)) as [K E]. set (s := Acc 0 0 0) in *. clearbody s.
  repeat acc_step 32 width32. acc_end 32. split; [repeat (apply Forall_cons_2; [assumption |]); constructor |]. split; [done |]. unfold sval. cbn [d0 d1 d2 d3 limbs_val]. lia.
Qed.

(** ** The reduction *)

(** The complement of the order. *)
Definition COMPLEMENT : Z := W * W * W * W - order.

Lemma complement_limbs : COMPLEMENT = SECP256K1_N_C_0 + W * (SECP256K1_N_C_1 + W) /\ limb SECP256K1_N_C_0 /\ limb SECP256K1_N_C_1.
Proof. by vm_compute. Qed.

#[local] Opaque SECP256K1_N_C_0 SECP256K1_N_C_1.

Lemma reduce_385_spec l0 l1 l2 l3 n0 n1 n2 n3 : Forall limb [l0; l1; l2; l3; n0; n1; n2; n3] ->
  exists m0 m1 m2 m3 m4 m5 m6, reduce_385 [l0; l1; l2; l3; n0; n1; n2; n3] = [m0; m1; m2; m3; m4; m5; m6] /\ Forall limb [m0; m1; m2; m3; m4; m5] /\ 0 <= m6 <= 1 /\
  limbs_val [m0; m1; m2; m3; m4; m5; m6] = limbs_val [l0; l1; l2; l3] + limbs_val [n0; n1; n2; n3] * COMPLEMENT.
Proof.
  intros Hl. repeat match goal with H : Forall limb (_ :: _) |- _ => apply Forall_cons_1 in H as [? H] end. clear Hl. unfold reduce_385.
  change (byte_at [l0; l1; l2; l3; n0; n1; n2; n3] 0) with l0. change (byte_at [l0; l1; l2; l3; n0; n1; n2; n3] 1) with l1. change (byte_at [l0; l1; l2; l3; n0; n1; n2; n3] 2) with l2. change (byte_at [l0; l1; l2; l3; n0; n1; n2; n3] 3) with l3.
  change (byte_at [l0; l1; l2; l3; n0; n1; n2; n3] 4) with n0. change (byte_at [l0; l1; l2; l3; n0; n1; n2; n3] 5) with n1. change (byte_at [l0; l1; l2; l3; n0; n1; n2; n3] 6) with n2. change (byte_at [l0; l1; l2; l3; n0; n1; n2; n3] 7) with n3. cbv zeta.
  destruct complement_limbs as (EC & HC0 & HC1). destruct (acc_start 64 width64 l0 ltac:(assumption)) as [K E]. set (s := Acc l0 0 0) in *. clearbody s.
  repeat acc_step 64 width64.
  acc_end 64. set (m6 := c0 s20) in *. clearbody m6.
  assert (Htot : limbs_val [l; l4; l5; l6; l7; l8; m6] = limbs_val [l0; l1; l2; l3] + limbs_val [n0; n1; n2; n3] * COMPLEMENT) by (rewrite EC; cbn [limbs_val]; lia).
  assert (Hm6 : 0 <= m6 <= 1).
  { pose proof (limbs_bound4 l0 l1 l2 l3 ltac:(assumption) ltac:(assumption) ltac:(assumption) ltac:(assumption)). pose proof (limbs_bound4 n0 n1 n2 n3 ltac:(assumption) ltac:(assumption) ltac:(assumption) ltac:(assumption)).
    set (x := limbs_val [l0; l1; l2; l3]) in *. set (y := limbs_val [n0; n1; n2; n3]) in *. clearbody x y. cbn [limbs_val] in Htot. unfold COMPLEMENT, order, limb in *. lia. }
  rewrite uint32_id by lia. exists l, l4, l5, l6, l7, l8, m6. split; [done |]. split; [repeat (apply Forall_cons_2; [assumption |]); constructor |]. done.
Qed.

Lemma reduce_258_spec m0 m1 m2 m3 m4 m5 m6 : Forall limb [m0; m1; m2; m3; m4; m5] -> 0 <= m6 <= 1 -> limbs_val [m0; m1; m2; m3; m4; m5; m6] < W * W * W * W * (1 + COMPLEMENT) ->
  exists p0 p1 p2 p3 p4, reduce_258 [m0; m1; m2; m3; m4; m5; m6] = [p0; p1; p2; p3; p4] /\ Forall limb [p0; p1; p2; p3] /\ 0 <= p4 <= 2 /\
  limbs_val [p0; p1; p2; p3; p4] = limbs_val [m0; m1; m2; m3] + limbs_val [m4; m5; m6] * COMPLEMENT.
Proof.
  intros Hl Hm6 Hlt. repeat match goal with H : Forall limb (_ :: _) |- _ => apply Forall_cons_1 in H as [? H] end. clear Hl. unfold reduce_258. assert (limb m6) by (unfold limb; lia).
  change (byte_at [m0; m1; m2; m3; m4; m5; m6] 0) with m0. change (byte_at [m0; m1; m2; m3; m4; m5; m6] 1) with m1. change (byte_at [m0; m1; m2; m3; m4; m5; m6] 2) with m2. change (byte_at [m0; m1; m2; m3; m4; m5; m6] 3) with m3.
  change (byte_at [m0; m1; m2; m3; m4; m5; m6] 4) with m4. change (byte_at [m0; m1; m2; m3; m4; m5; m6] 5) with m5. change (byte_at [m0; m1; m2; m3; m4; m5; m6] 6) with m6. cbv zeta.
  destruct complement_limbs as (EC & HC0 & HC1). destruct (acc_start 64 width64 m0 ltac:(assumption)) as [K E]. set (s := Acc m0 0 0) in *. clearbody s.
  repeat acc_step 64 width64. match goal with K : acc_le _ ?s ?B |- context [muladd_fast m6 SECP256K1_N_C_1 ?s] => pose proof (muladd_fast_bit_le 64 width64 m6 SECP256K1_N_C_1 s B K Hm6 HC1 eq_refl) as H'; acc_result H' s' (muladd_fast m6 SECP256K1_N_C_1 s); clear K end.
  repeat acc_step 64 width64. acc_end 64. set (c := c0 s13) in *. clearbody c.
  assert (Htot : limbs_val [l; l0; l1; l2; c + m6] = limbs_val [m0; m1; m2; m3] + limbs_val [m4; m5; m6] * COMPLEMENT) by (rewrite EC; cbn [limbs_val]; lia).
  assert (Hp4 : 0 <= c + m6 <= 2).
  { pose proof (limbs_bound4 m0 m1 m2 m3 ltac:(assumption) ltac:(assumption) ltac:(assumption) ltac:(assumption)). cbn [limbs_val] in *. set (x := m0 + W * (m1 + W * (m2 + W * (m3 + W * 0)))) in *. set (y := m4 + W * (m5 + W * (m6 + W * 0))) in *.
    assert (Hy : x + W * W * W * W * y < W * W * W * W * (1 + COMPLEMENT)) by (unfold x, y; lia). clearbody x y. unfold COMPLEMENT, order, limb in *. lia. }
  rewrite uint32_id by lia. exists l, l0, l1, l2, (c + m6). split; [done |]. split; [repeat (apply Forall_cons_2; [assumption |]); constructor |]. done.
Qed.

Lemma reduce_256_spec p0 p1 p2 p3 p4 r c : Forall limb [p0; p1; p2; p3] -> 0 <= p4 <= 2 -> reduce_256 [p0; p1; p2; p3; p4] = (r, c) ->
  scalar_wf r /\ 0 <= c /\ sval r + W * W * W * W * c = limbs_val [p0; p1; p2; p3] + p4 * COMPLEMENT.
Proof.
  intros Hl Hp4 E. repeat match goal with H : Forall limb (_ :: _) |- _ => apply Forall_cons_1 in H as [? H] end. clear Hl. destruct complement_limbs as (EC & HC0 & HC1). unfold limb in *.
  assert (E' : reduce_256 [p0; p1; p2; p3; p4] = chain4 (p0 + uint128 (SECP256K1_N_C_0 * p4)) (uint128 (p1 + uint128 (SECP256K1_N_C_1 * p4))) (uint128 (p2 + p4)) p3) by reflexivity. rewrite E' in E. clear E'.
  rewrite (uint128_id (SECP256K1_N_C_0 * p4)), (uint128_id (SECP256K1_N_C_1 * p4)), (uint128_id (p1 + _)), (uint128_id (p2 + p4)) in E by nia.
  destruct (chain4_spec _ _ _ _ _ _ E) as (Hr & Hc & Hv); [nia .. |]. split; [done |]. split; [done |]. rewrite Hv, EC. cbn [limbs_val]. lia.
Qed.

Lemma reduce_512_spec l : Forall limb l -> length l = 8%nat -> reduced (secp256k1_scalar_reduce_512 l) /\ sval (secp256k1_scalar_reduce_512 l) = limbs_val l mod order.
Proof.
  intros Hl Hn. do 8 (destruct l as [| ? l]; [done |]). destruct l; [| done]. rename z into l0, z0 into l1, z1 into l2, z2 into l3, z3 into n0, z4 into n1, z5 into n2, z6 into n3. unfold secp256k1_scalar_reduce_512.
  destruct (reduce_385_spec _ _ _ _ _ _ _ _ Hl) as (m0 & m1 & m2 & m3 & m4 & m5 & m6 & -> & Hm & Hm6 & Em).
  pose proof (proj1 (Forall_app _ [l0; l1; l2; l3] [n0; n1; n2; n3]) Hl) as [Hl4 Hn4]. assert (Bl : 0 <= limbs_val [l0; l1; l2; l3] < W * W * W * W) by (repeat match goal with H : Forall limb (_ :: _) |- _ => apply Forall_cons_1 in H as [? H] end; by apply limbs_bound4).
  assert (Bn : 0 <= limbs_val [n0; n1; n2; n3] < W * W * W * W) by (repeat match goal with H : Forall limb (_ :: _) |- _ => apply Forall_cons_1 in H as [? H] end; by apply limbs_bound4).
  destruct (reduce_258_spec m0 m1 m2 m3 m4 m5 m6 Hm Hm6) as (p0 & p1 & p2 & p3 & p4 & -> & Hp & Hp4 & Ep); [rewrite Em; unfold COMPLEMENT, order in *; nia |].
  destruct (reduce_256 [p0; p1; p2; p3; p4]) as [r c] eqn:Er. destruct (reduce_256_spec _ _ _ _ _ _ _ Hp Hp4 Er) as (Hr & Hc & Es).
  assert (Bp : 0 <= limbs_val [p0; p1; p2; p3] < W * W * W * W) by (repeat match goal with H : Forall limb (_ :: _) |- _ => apply Forall_cons_1 in H as [? H] end; by apply limbs_bound4).
  set (S := limbs_val [p0; p1; p2; p3] + p4 * COMPLEMENT) in *. assert (HS : 0 <= S < 2 * order) by (unfold S, COMPLEMENT, order in *; lia).
  destruct (reduce_carry r c S Hr Hc Es HS) as (Ho & _ & Hw & Hv). rewrite uint32_id by lia. assert (Emod : S mod order = limbs_val [l0; l1; l2; l3; n0; n1; n2; n3] mod order).
  { rewrite <- (Z_mod_plus_full S (limbs_val [n0; n1; n2; n3] + limbs_val [m4; m5; m6] + p4) order). f_equal. unfold S. clear - Em Ep. cbn [limbs_val] in *. unfold COMPLEMENT, order in *. lia. }
  split; [| by rewrite <- Emod]. by apply (reduced_intro _ S).
Qed.

(** ** Operations *)

Lemma mul_spec a b : scalar_wf a -> scalar_wf b -> reduced (secp256k1_scalar_mul a b) /\ sval (secp256k1_scalar_mul a b) = (sval a * sval b) mod order.
Proof. intros Ha Hb. unfold secp256k1_scalar_mul. destruct (mul_512_spec a b Ha Hb) as (Hl & Hn & <-). by apply reduce_512_spec. Qed.

Lemma sqr_spec a : scalar_wf a -> reduced (secp256k1_scalar_sqr a) /\ sval (secp256k1_scalar_sqr a) = (sval a * sval a) mod order.
Proof. intros Ha. unfold secp256k1_scalar_sqr. destruct (sqr_512_spec a Ha) as (Hl & Hn & <-). by apply reduce_512_spec. Qed.

Lemma scalar_is_zero_spec a : scalar_wf a -> secp256k1_scalar_is_zero a = (sval a =? 0).
Proof.
  intros (H0 & H1 & H2 & H3). unfold secp256k1_scalar_is_zero, limb, sval in *. apply eq_bool_prop_intro. rewrite !Is_true_true, !Z.eqb_eq, !Z.lor_eq_0_iff. split; [intros [[[-> ->] ->] ->]; lia | intros E; lia].
Qed.

Lemma not64_spec x : limb x -> not64 x = W - 1 - x.
Proof. unfold limb, not64, Z.lnot. intros Hx. rewrite uint64_W. symmetry. apply (Z.mod_unique _ _ (-1)); lia. Qed.

Lemma negate_spec a : reduced a -> reduced (secp256k1_scalar_negate a) /\ sval (secp256k1_scalar_negate a) = (- sval a) mod order.
Proof.
  intros Ha. pose proof (reduced_bound a Ha) as Hb. destruct Ha as [Hw Hlt]. unfold secp256k1_scalar_negate. rewrite scalar_is_zero_spec by done. destruct (Z.eqb_spec (sval a) 0) as [E | E].
  - rewrite !Z.land_0_r, E. split; [by split; [unfold scalar_wf, limb; cbn [d0 d1 d2 d3]; lia | unfold sval; cbn [d0 d1 d2 d3]; reflexivity] | reflexivity].
  - destruct Hw as (H0 & H1 & H2 & H3).
    assert (Er : exists c, chain4 (not64 (d0 a) + SECP256K1_N_0 + 1) (not64 (d1 a) + SECP256K1_N_1) (not64 (d2 a) + SECP256K1_N_2) (not64 (d3 a) + SECP256K1_N_3) = (secp256k1_scalar_negate a, c)).
    { eexists. unfold secp256k1_scalar_negate. rewrite scalar_is_zero_spec by done. rewrite (proj2 (Z.eqb_neq _ _) E). reflexivity. }
    destruct Er as [c Er]. unfold secp256k1_scalar_negate in Er. rewrite scalar_is_zero_spec, (proj2 (Z.eqb_neq _ _) E) in Er by done. rewrite !not64_spec in * by done. unfold limb, SECP256K1_N_0, SECP256K1_N_1, SECP256K1_N_2, SECP256K1_N_3 in *.
    destruct (chain4_spec _ _ _ _ _ _ Er) as (Hr & Hc & Hv); [lia .. |]. set (r := Scalar _ _ _ _) in *. clearbody r. pose proof (scalar_bound r Hr) as Hbr.
    assert (Ev : sval r = order - sval a) by (assert (Sa : sval a = d0 a + W * (d1 a + W * (d2 a + W * d3 a))) by reflexivity; unfold order in *; lia).
    assert (Em : sval r = (- sval a) mod order) by (rewrite Ev; apply (Z.mod_unique _ _ (-1)); lia). split; [by apply (reduced_intro _ (- sval a)) | done].
Qed.

Lemma lxor_eq_0 x y : Z.lxor x y = 0 <-> x = y.
Proof. split; [apply Z.lxor_eq | intros ->; apply Z.lxor_nilpotent]. Qed.

Lemma sval_inj a b : scalar_wf a -> scalar_wf b -> sval a = sval b -> a = b.
Proof.
  destruct a as [a0 a1 a2 a3], b as [b0 b1 b2 b3]. intros (A0 & A1 & A2 & A3) (B0 & B1 & B2 & B3). unfold sval, limb in *. cbn [d0 d1 d2 d3] in *. intros E. assert (a0 = b0) as -> by lia. assert (a1 = b1) as -> by lia. assert (a2 = b2) as -> by lia. assert (a3 = b3) as -> by lia. done.
Qed.

Lemma eq_spec a b : scalar_wf a -> scalar_wf b -> secp256k1_scalar_eq a b = (sval a =? sval b).
Proof.
  intros Ha Hb. unfold secp256k1_scalar_eq. apply eq_bool_prop_intro. rewrite !Is_true_true, !Z.eqb_eq, !Z.lor_eq_0_iff, !lxor_eq_0. split.
  - intros [[[E0 E1] E2] E3]. unfold sval. congruence.
  - intros E. by rewrite (sval_inj a b Ha Hb E).
Qed.

Lemma is_one_spec a : scalar_wf a -> secp256k1_scalar_is_one a = (sval a =? 1).
Proof.
  intros (H0 & H1 & H2 & H3). unfold secp256k1_scalar_is_one, limb, sval in *. apply eq_bool_prop_intro. rewrite !Is_true_true, !Z.eqb_eq, !Z.lor_eq_0_iff, lxor_eq_0. split; [intros [[[-> ->] ->] ->]; lia | intros E; lia].
Qed.

Lemma is_high_spec a : scalar_wf a -> secp256k1_scalar_is_high a = (order / 2 <? sval a).
Proof.
  intros (H0 & H1 & H2 & H3). change (order / 2) with 0x7FFFFFFFFFFFFFFFFFFFFFFFFFFFFFFF5D576E7357A4501DDFE92F46681B20A0. unfold limb, secp256k1_scalar_is_high, sval, SECP256K1_N_H_0, SECP256K1_N_H_1, SECP256K1_N_H_2, SECP256K1_N_H_3 in *. rewrite !Z.gtb_ltb.
  repeat match goal with |- context [?x <? ?y] => destruct (Z.ltb_spec x y) end; cbn; try reflexivity; exfalso; lia.
Qed.

Lemma is_even_spec a : secp256k1_scalar_is_even a = Z.even (sval a).
Proof.
  unfold secp256k1_scalar_is_even, sval. change 1 with (2 ^ 1 - 1) at 1. rewrite land_mask by lia. change (2 ^ 1) with 2. rewrite Zmod_even. rewrite Z.even_add_mul_even by (by exists 9223372036854775808). by destruct (Z.even (d0 a)).
Qed.

(** *** Bytes *)

Lemma load64_spec b i : 0 <= i -> bytes_ok b -> (Z.to_nat i + 8 <= length b)%nat -> load64 b i = be_decode (take 8 (drop (Z.to_nat i) b)).
Proof.
  intros Hi Hb Hl. assert (Hat : forall k, 0 <= k < 8 -> is_byte (byte_at b (i + k)) /\ drop (Z.to_nat i) b !! Z.to_nat k = Some (byte_at b (i + k))).
  { intros k Hk. unfold byte_at. destruct (lookup_lt_is_Some_2 b (Z.to_nat (i + k))) as [x Ex]; [lia |]. rewrite Ex. split; [by apply (Forall_lookup_1 is_byte b (Z.to_nat (i + k))) |]. rewrite lookup_drop. by replace (Z.to_nat i + Z.to_nat k)%nat with (Z.to_nat (i + k)) by lia. }
  assert (E : take 8 (drop (Z.to_nat i) b) = [byte_at b i; byte_at b (i + 1); byte_at b (i + 2); byte_at b (i + 3); byte_at b (i + 4); byte_at b (i + 5); byte_at b (i + 6); byte_at b (i + 7)]).
  { apply list_eq. intros k. destruct (decide (k < 8)%nat) as [Hk | Hk]; [| rewrite lookup_take_ge by lia; symmetry; apply lookup_ge_None_2; cbn; lia]. rewrite lookup_take_lt by done.
    pose proof (proj2 (Hat (Z.of_nat k) ltac:(lia))) as Ek. rewrite Nat2Z.id in Ek. rewrite Ek. do 8 (destruct k as [| k]; [cbn; rewrite ?Z.add_0_r; reflexivity |]). lia. }
  rewrite E. unfold be_decode. cbn [reverse rev_append]. unfold load64. pose proof (proj1 (Hat 0 ltac:(lia))) as B0. rewrite Z.add_0_r in B0. pose proof (proj1 (Hat 1 ltac:(lia))) as B1. pose proof (proj1 (Hat 2 ltac:(lia))) as B2. pose proof (proj1 (Hat 3 ltac:(lia))) as B3.
  pose proof (proj1 (Hat 4 ltac:(lia))) as B4. pose proof (proj1 (Hat 5 ltac:(lia))) as B5. pose proof (proj1 (Hat 6 ltac:(lia))) as B6. pose proof (proj1 (Hat 7 ltac:(lia))) as B7. clear Hat E. unfold is_byte in *.
  set (b0 := byte_at b i) in *. set (b1 := byte_at b (i + 1)) in *. set (b2 := byte_at b (i + 2)) in *. set (b3 := byte_at b (i + 3)) in *. set (b4 := byte_at b (i + 4)) in *. set (b5 := byte_at b (i + 5)) in *. set (b6 := byte_at b (i + 6)) in *. set (b7 := byte_at b (i + 7)) in *. clearbody b0 b1 b2 b3 b4 b5 b6 b7.
  rewrite (lor_shiftl_add b7 b6 8), (lor_shiftl_add _ b5 16), (lor_shiftl_add _ b4 24), (lor_shiftl_add _ b3 32), (lor_shiftl_add _ b2 40), (lor_shiftl_add _ b1 48), (lor_shiftl_add _ b0 56) by lia. change (reverse [b0; b1; b2; b3; b4; b5; b6; b7]) with [b7; b6; b5; b4; b3; b2; b1; b0]. cbn [le_decode]. lia.
Qed.

Lemma be_decode_app l m : be_decode (l ++ m) = be_decode m + 256 ^ Z.of_nat (length m) * be_decode l.
Proof. unfold be_decode. by rewrite reverse_app, le_decode_app, length_reverse. Qed.

Lemma be_decode_bound l : bytes_ok l -> 0 <= be_decode l < 256 ^ Z.of_nat (length l).
Proof. intros Hl. unfold be_decode. rewrite <- (length_reverse l). apply le_decode_bound. by apply Forall_reverse. Qed.

Lemma set_b32_spec b : bytes_ok b -> length b = 32%nat ->
  let '(r, over) := secp256k1_scalar_set_b32 b in reduced r /\ sval r = be_decode b mod order /\ over = (order <=? be_decode b).
Proof.
  intros Hb Hl. unfold secp256k1_scalar_set_b32. rewrite !load64_spec by (done || (rewrite Hl; lia)). change (Z.to_nat 24) with 24%nat. change (Z.to_nat 16) with 16%nat. change (Z.to_nat 8) with 8%nat. change (Z.to_nat 0) with 0%nat.
  set (x0 := take 8 (drop 24 b)). set (x1 := take 8 (drop 16 b)). set (x2 := take 8 (drop 8 b)). set (x3 := take 8 (drop 0 b)).
  assert (Eb : b = x3 ++ x2 ++ x1 ++ x0).
  { unfold x0, x1, x2, x3. rewrite drop_0, (take_ge (drop 24 b)) by (rewrite length_drop; lia). rewrite <- (take_drop 8 b) at 1. f_equal. rewrite <- (take_drop 8 (drop 8 b)) at 1. f_equal. rewrite drop_drop. change (8 + 8)%nat with 16%nat. rewrite <- (take_drop 8 (drop 16 b)) at 1. f_equal. by rewrite drop_drop. }
  assert (Hx : forall k, bytes_ok (take 8 (drop k b))) by (intros k; by apply Forall_take, Forall_drop). assert (Hlen : forall k, (k + 8 <= 32)%nat -> length (take 8 (drop k b)) = 8%nat) by (intros k Hk; rewrite length_take, length_drop; lia).
  assert (Hlimb : forall k, (k + 8 <= 32)%nat -> limb (be_decode (take 8 (drop k b)))) by (intros k Hk; pose proof (be_decode_bound _ (Hx k)) as B; rewrite Hlen in B by done; exact B).
  set (r := Scalar (be_decode x0) (be_decode x1) (be_decode x2) (be_decode x3)). assert (Hr : scalar_wf r) by (repeat split; apply Hlimb; lia).
  assert (Ev : sval r = be_decode b). { rewrite Eb, !be_decode_app, !length_app. unfold r, sval. cbn [d0 d1 d2 d3]. unfold x0, x1, x2, x3. rewrite !Hlen by lia. change (256 ^ Z.of_nat 8) with W. change (256 ^ Z.of_nat (8 + 8)) with (W * W). change (256 ^ Z.of_nat (8 + (8 + 8))) with (W * W * W). lia. }
  pose proof (scalar_bound r Hr) as Hb'. destruct (reduce_carry r 0 (be_decode b) Hr ltac:(lia) ltac:(rewrite <- Ev; lia) ltac:(rewrite <- Ev; unfold order; lia)) as (_ & _ & Hw & Hv). rewrite Z.add_0_l in Hw, Hv.
  split; [by apply (reduced_intro _ (be_decode b)) |]. split; [done |]. rewrite check_overflow_spec by done. by rewrite Ev.
Qed.

Lemma store64_spec x : store64 x = be_encode 8 x.
Proof.
  unfold store64, be_encode. cbn [fmap list_fmap le_encode]. rewrite !Z.shiftr_div_pow2 by lia. rewrite !Z.div_div by lia. change (2 ^ 0) with 1. rewrite Z.div_1_r. reflexivity.
Qed.

Lemma get_b32_spec a : scalar_wf a -> secp256k1_scalar_get_b32 a = be_encode 32 (sval a).
Proof.
  intros (H0 & H1 & H2 & H3). unfold secp256k1_scalar_get_b32. rewrite !store64_spec. unfold be_encode. rewrite <- !reverse_app, <- !app_assoc. f_equal. unfold limb in *.
  change 32%nat with (8 + (8 + (8 + 8)))%nat. rewrite !le_encode_add. change (256 ^ Z.of_nat 8) with W.
  assert (Hlow : forall x y, 0 <= x < W -> le_encode 8 (x + W * y) = le_encode 8 x /\ (x + W * y) / W = y).
  { intros x y Hx. split; [| rewrite Z.mul_comm, Z.div_add by lia; rewrite Z.div_small by lia; lia]. rewrite <- (le_encode_decode (le_encode 8 x)) by apply le_encode_ok. rewrite length_le_encode, le_decode_encode. change (256 ^ Z.of_nat 8) with W.
    rewrite <- (le_encode_decode (le_encode 8 (x + W * y))) by apply le_encode_ok. rewrite length_le_encode, le_decode_encode. change (256 ^ Z.of_nat 8) with W. f_equal. rewrite Z.mul_comm. apply Z_mod_plus_full. }
  unfold sval. rewrite (proj2 (Hlow (d0 a) _ H0)), (proj1 (Hlow (d0 a) _ H0)), (proj2 (Hlow (d1 a) _ H1)), (proj1 (Hlow (d1 a) _ H1)), (proj2 (Hlow (d2 a) _ H2)), (proj1 (Hlow (d2 a) _ H2)). done.
Qed.

(** *** Negation under a flag *)

Lemma lxor_mask x : limb x -> Z.lxor x MASK64 = W - 1 - x.
Proof.
  unfold limb. intros Hx. change MASK64 with (Z.ones 64). rewrite <- not64_spec by done. unfold not64, uint64. rewrite <- Z.land_ones by lia. apply Z.bits_inj'. intros i Hi. rewrite Z.lxor_spec, Z.land_spec, Z.lnot_spec by lia.
  destruct (Z.lt_ge_cases i 64) as [Hlt | Hge]; [rewrite Z.ones_spec_low by lia; by destruct (Z.testbit x i) |]. rewrite Z.ones_spec_high by lia. rewrite andb_false_r, xorb_false_r. rewrite <- (Z.mod_small x (2 ^ 64)) by done. by apply Z.mod_pow2_bits_high.
Qed.

Lemma cond_negate_spec a flag : reduced a -> secp256k1_scalar_cond_negate a flag = (if flag then secp256k1_scalar_negate a else a, if flag then -1 else 1).
Proof.
  intros Ha. pose proof Ha as [Hw _]. destruct Hw as (H0 & H1 & H2 & H3). unfold secp256k1_scalar_cond_negate. assert (En : uint64 (Z.b2z (secp256k1_scalar_is_zero a) - 1) = if secp256k1_scalar_is_zero a then 0 else MASK64) by (by destruct (secp256k1_scalar_is_zero a)).
  rewrite En. destruct flag; cbn [negb Z.b2z].
  - change (uint64 (0 - 1)) with MASK64. rewrite !lxor_mask, <- !not64_spec by done. change (Z.land (uint64 (SECP256K1_N_0 + 1)) MASK64) with (SECP256K1_N_0 + 1). rewrite (Z.add_assoc (not64 (d0 a))). reflexivity.
  - change (uint64 (1 - 1)) with 0. rewrite !Z.lxor_0_r, !Z.land_0_r, !Z.add_0_r. f_equal. unfold limb in *.
    rewrite (uint128_id (d0 a)) by lia. rewrite (shiftr_64 (d0 a)), Z.div_small, Z.add_0_l by lia. rewrite (uint128_id (d1 a)) by lia. rewrite (shiftr_64 (d1 a)), Z.div_small, Z.add_0_l by lia.
    rewrite (uint128_id (d2 a)) by lia. rewrite (shiftr_64 (d2 a)), Z.div_small, Z.add_0_l by lia. rewrite (uint128_id (d3 a)) by lia. rewrite scalar_is_zero_spec by (split_and!; done). destruct (Z.eqb_spec (sval a) 0) as [E | E].
    + rewrite !Z.land_0_r. apply sval_inj; [unfold scalar_wf, limb; cbn [d0 d1 d2 d3]; lia | by split_and! |]. by rewrite E.
    + rewrite !land_MASK64, !Z.mod_small by lia. by destruct a.
Qed.

(** *** The inverse *)

(** A scalar that is a power of [x]. *)
Definition power_of (x e : Z) (s : secp256k1_scalar) : Prop := 0 <= e /\ reduced s /\ sval s = x ^ e mod order.

Section Power.
Context (x : Z).

Lemma power_mul e f s t : power_of x e s -> power_of x f t -> power_of x (e + f) (secp256k1_scalar_mul s t).
Proof.
  intros (He & [Hs _] & Es) (Hf & [Ht _] & Et). destruct (mul_spec s t Hs Ht) as [Hr Er]. split; [lia |]. split; [done |]. rewrite Er, Es, Et, <- Z.mul_mod by done. by rewrite Z.pow_add_r.
Qed.

Lemma power_sqr e s : power_of x e s -> power_of x (2 * e) (secp256k1_scalar_sqr s).
Proof.
  intros (He & [Hs _] & Es). destruct (sqr_spec s Hs) as [Hr Er]. split; [lia |]. split; [done |]. rewrite Er, Es, <- Z.mul_mod, <- Z.pow_add_r by done. do 2 f_equal. lia.
Qed.

Lemma power_sqr_n n e s : power_of x e s -> power_of x (2 ^ Z.of_nat n * e) (scalar_sqr_n n s).
Proof.
  intros Hs. induction n as [| n IH]; [by rewrite Z.mul_1_l |]. change (scalar_sqr_n (S n) s) with (secp256k1_scalar_sqr (scalar_sqr_n n s)). rewrite Nat2Z.inj_succ, Z.pow_succ_r, <- Z.mul_assoc by lia. by apply power_sqr.
Qed.

Lemma power_let e E s (f : secp256k1_scalar -> secp256k1_scalar) : power_of x e s -> (forall y, power_of x e y -> power_of x E (f y)) -> power_of x E (let y := s in f y).
Proof. auto. Qed.
End Power.

Ltac power_of_term := lazymatch goal with
  | |- power_of _ _ (secp256k1_scalar_mul _ _) => eapply power_mul; power_of_term
  | |- power_of _ _ (secp256k1_scalar_sqr _) => eapply power_sqr; power_of_term
  | |- power_of _ _ (scalar_sqr_n _ _) => eapply power_sqr_n; power_of_term
  | _ => eassumption
  end.

Ltac power_step :=
  match goal with |- power_of ?x ?E (let y := ?s in @?f y) => refine (power_let x _ E s f _ _); [power_of_term | cbv beta] end;
  let y := fresh "y" in let H := fresh "H" in intros y H;
  match type of H with power_of _ ?e _ => let e' := eval vm_compute in e in change e with e' in H end.

Lemma inverse_spec x : reduced x -> power_of (sval x) (order - 2) (secp256k1_scalar_inverse x).
Proof.
  intros Hx. assert (P1 : power_of (sval x) 1 x) by (split; [lia |]; split; [done |]; rewrite Z.pow_1_r, Z.mod_small by (by apply reduced_bound); done). set (v := sval x) in *. clearbody v. cbv delta [secp256k1_scalar_inverse] beta.
  match goal with |- power_of _ _ (let m := _ in @?f m) => change (power_of v (order - 2) (f secp256k1_scalar_mul)); cbv beta end.
  repeat power_step. match goal with |- power_of _ ?e (secp256k1_scalar_mul ?s ?t) => assert (H' : exists e', power_of v e' (secp256k1_scalar_mul s t) /\ e' = e) end.
  { eexists. split; [power_of_term |]. vm_compute. reflexivity. }
  destruct H' as (e' & H' & <-). exact H'.
Qed.

(** *** Bits *)

Lemma testbit_limb x y i : limb x -> 0 <= i -> Z.testbit (x + W * y) i = if i <? 64 then Z.testbit x i else Z.testbit y (i - 64).
Proof.
  unfold limb. intros Hx Hi. replace (x + W * y) with (Z.lor x (Z.shiftl y 64)) by (rewrite lor_shiftl_add by lia; lia). rewrite Z.lor_spec, Z.shiftl_spec by lia. destruct (Z.ltb_spec i 64); [rewrite (Z.testbit_neg_r y) by lia; apply orb_false_r |].
  rewrite <- (Z.mod_small x (2 ^ 64)) by done. by rewrite Z.mod_pow2_bits_high by lia.
Qed.

Lemma sval_testbit a i : scalar_wf a -> 0 <= i < 256 -> Z.testbit (sval a) i = Z.testbit (scalar_limb a (Z.shiftr i 6)) (Z.land i 0x3F).
Proof.
  intros (H0 & H1 & H2 & H3) Hi. rewrite Z.shiftr_div_pow2 by lia. change 0x3F with (2 ^ 6 - 1). rewrite land_mask by lia. change (2 ^ 6) with 64. unfold sval. rewrite testbit_limb by (done || lia). unfold scalar_limb.
  pose proof (Z.div_mod i 64 ltac:(lia)) as E. pose proof (Z.mod_pos_bound i 64 ltac:(lia)). set (q := i / 64) in *. set (r := i mod 64) in *. clearbody q r. assert (Hq : q = 0 \/ q = 1 \/ q = 2 \/ q = 3) by lia. subst i.
  destruct Hq as [-> | [-> | [-> | ->]]]; cbn [Z.eqb Pos.eqb].
  - by rewrite (proj2 (Z.ltb_lt _ _)) by lia.
  - rewrite (proj2 (Z.ltb_ge _ _)) by lia. rewrite testbit_limb by (done || lia). rewrite (proj2 (Z.ltb_lt _ _)) by lia. f_equal. lia.
  - rewrite (proj2 (Z.ltb_ge _ _)) by lia. rewrite testbit_limb by (done || lia). rewrite (proj2 (Z.ltb_ge _ _)) by lia. rewrite testbit_limb by (done || lia). rewrite (proj2 (Z.ltb_lt _ _)) by lia. f_equal. lia.
  - rewrite (proj2 (Z.ltb_ge _ _)) by lia. rewrite testbit_limb by (done || lia). rewrite (proj2 (Z.ltb_ge _ _)) by lia. rewrite testbit_limb by (done || lia). rewrite (proj2 (Z.ltb_ge _ _)) by lia. f_equal. lia.
Qed.

Lemma scalar_limb_wf a i : scalar_wf a -> limb (scalar_limb a i).
Proof. intros (H0 & H1 & H2 & H3). unfold scalar_limb. by repeat case_match. Qed.

(** A window of bits, inside one limb or across two. *)
Lemma get_bits_var_spec a o c : scalar_wf a -> 0 <= o -> 0 < c < 32 -> o + c <= 256 -> secp256k1_scalar_get_bits_var a o c = (sval a / 2 ^ o) mod 2 ^ c.
Proof.
  intros Ha Ho Hc Hoc. assert (Em : uint64 (Z.shiftl 1 c) - 1 = Z.ones c) by (rewrite Z.shiftl_1_l, uint64_id, Z.ones_equiv by (split; [lia |]; apply Z.pow_lt_mono_r; lia); lia).
  rewrite <- Z.land_ones by lia. rewrite <- Z.shiftr_div_pow2 by lia. pose proof (Z.div_mod o 64 ltac:(lia)) as E. pose proof (Z.mod_pos_bound o 64 ltac:(lia)) as Hr.
  assert (Ed : forall k, Z.shiftr k 6 = k / 64) by (intros k; by rewrite Z.shiftr_div_pow2 by lia). assert (El : forall k, Z.land k 0x3F = k mod 64) by (intros k; exact (land_mask k 6 ltac:(lia))).
  unfold secp256k1_scalar_get_bits_var, secp256k1_scalar_get_bits. rewrite Em, !Ed, !El. apply Z.bits_inj'. intros i Hi. rewrite (Z.land_spec (Z.shiftr (sval a) o)), Z.shiftr_spec by lia.
  destruct (Z.lt_ge_cases i c) as [Hic | Hic]; [| rewrite Z.ones_spec_high by lia; rewrite andb_false_r; destruct (_ =? _); rewrite Z.land_spec, Z.ones_spec_high, andb_false_r by lia; done].
  rewrite (Z.ones_spec_low c i), andb_true_r, sval_testbit, Ed, El by (done || lia). destruct (Z.eqb_spec ((o + c - 1) / 64) (o / 64)) as [Es | Es]; rewrite Z.land_spec, Z.ones_spec_low, andb_true_r by lia.
  - rewrite Z.shiftr_spec by lia. assert (Eq : (i + o) / 64 = o / 64) by (Z.to_euclidean_division_equations; lia). rewrite Eq. f_equal. Z.to_euclidean_division_equations; lia.
  - rewrite Z.lor_spec, Z.shiftr_spec by lia. destruct (Z.lt_ge_cases (i + o mod 64) 64) as [Hlow | Hhigh].
    + assert (Eq : (i + o) / 64 = o / 64 /\ (i + o) mod 64 = i + o mod 64) by (Z.to_euclidean_division_equations; lia). destruct Eq as [-> ->]. unfold uint64. rewrite Z.mod_pow2_bits_low, Z.shiftl_spec_low by lia. by rewrite orb_false_r.
    + assert (Eq : (i + o) / 64 = o / 64 + 1 /\ (i + o) mod 64 = i + o mod 64 - 64) by (Z.to_euclidean_division_equations; lia). destruct Eq as [-> ->]. unfold uint64. rewrite Z.mod_pow2_bits_low, Z.shiftl_spec by lia.
      pose proof (scalar_limb_wf a (o / 64) Ha) as Hl. unfold limb in Hl. rewrite <- (Z.mod_small (scalar_limb a (o / 64)) (2 ^ 64)) by done. rewrite (Z.mod_pow2_bits_high (scalar_limb a (o / 64)) 64) by lia. cbn [orb]. f_equal. lia.
Qed.

(** *** A bit under a flag and the right shift *)

Lemma cadd_bit_spec r bit flag : scalar_wf r -> 0 <= bit < 256 -> sval r + Z.b2z flag * 2 ^ bit < W * W * W * W ->
  scalar_wf (secp256k1_scalar_cadd_bit r bit (Z.b2z flag)) /\ sval (secp256k1_scalar_cadd_bit r bit (Z.b2z flag)) = sval r + Z.b2z flag * 2 ^ bit.
Proof.
  intros (H0 & H1 & H2 & H3) Hbit Hlt. set (b := uint32 (bit + Z.land (uint32 (Z.b2z flag - 1)) 0x100)). assert (Eb : b = if flag then bit else bit + 256).
  { unfold b. destruct flag; cbn [Z.b2z]; [change (Z.land (uint32 (1 - 1)) 0x100) with 0 | change (Z.land (uint32 (0 - 1)) 0x100) with 256]; rewrite uint32_id by lia; lia. }
  set (add := fun i => Z.shiftl (Z.b2z (Z.shiftr b 6 =? i)) (Z.land b 0x3F)). assert (E : secp256k1_scalar_cadd_bit r bit (Z.b2z flag) = (chain4 (d0 r + add 0) (d1 r + add 1) (d2 r + add 2) (d3 r + add 3)).1) by reflexivity. rewrite E. clear E.
  assert (Ea : forall i, add i = if b / 64 =? i then 2 ^ (b mod 64) else 0).
  { intros i. unfold add. rewrite Z.shiftr_div_pow2 by lia. change (Z.land b 0x3F) with (Z.land b (2 ^ 6 - 1)). rewrite land_mask by lia. change (2 ^ 6) with 64. destruct (b / 64 =? i); cbn [Z.b2z]; [| apply Z.shiftl_0_l]. apply Z.shiftl_1_l. }
  assert (Hp : 0 < 2 ^ (b mod 64) <= W / 2) by (pose proof (Z.mod_pos_bound b 64 ltac:(lia)); split; [apply Z.pow_pos_nonneg; lia | change (W / 2) with (2 ^ 63); apply Z.pow_le_mono_r; lia]).
  assert (Hadd : forall i, 0 <= add i <= W / 2) by (intros i; rewrite Ea; destruct (_ =? _); lia). change (W / 2) with 9223372036854775808 in *.
  assert (Es : add 0 + W * (add 1 + W * (add 2 + W * add 3)) = Z.b2z flag * 2 ^ bit).
  { rewrite !Ea. destruct flag; cbn [Z.b2z]; rewrite Eb in *.
    - pose proof (Z.div_mod bit 64 ltac:(lia)) as Ed. pose proof (Z.mod_pos_bound bit 64 ltac:(lia)). assert (Hq : bit / 64 = 0 \/ bit / 64 = 1 \/ bit / 64 = 2 \/ bit / 64 = 3) by lia. assert (Ep : 2 ^ bit = 2 ^ (64 * (bit / 64)) * 2 ^ (bit mod 64)) by (rewrite <- Z.pow_add_r by lia; f_equal; lia). rewrite Ep. clear Ea Hadd Ep Ed Hlt Eb. destruct Hq as [-> | [-> | [-> | ->]]]; cbn [Z.eqb Pos.eqb]; lia.
    - replace ((bit + 256) / 64) with (bit / 64 + 4) by (rewrite <- (Z.div_add bit 4 64) by lia; reflexivity). assert (0 <= bit / 64) by (apply Z.div_pos; lia). rewrite !(proj2 (Z.eqb_neq _ _)) by lia. lia. }
  unfold limb in *. destruct (chain4 _ _ _ _) as [s c] eqn:Ec. pose proof (Hadd 0). pose proof (Hadd 1). pose proof (Hadd 2). pose proof (Hadd 3). clear Ea Hadd. destruct (chain4_spec _ _ _ _ _ _ Ec) as (Hs & Hc & Hv); [lia .. |]. cbn [fst]. split; [done |].
  pose proof (scalar_bound s Hs). unfold sval at 2. unfold sval at 1 in Hlt. nia.
Qed.

Lemma shr_int_spec r n : scalar_wf r -> 0 < n < 16 -> let '(low, s) := secp256k1_scalar_shr_int r n in low = sval r mod 2 ^ n /\ scalar_wf s /\ sval s = sval r / 2 ^ n.
Proof.
  intros (H0 & H1 & H2 & H3) Hn. unfold secp256k1_scalar_shr_int, limb in *. set (k := 2 ^ n). set (j := 2 ^ (64 - n)). assert (Ekj : j * k = W) by (unfold k, j; rewrite <- Z.pow_add_r by lia; by replace (64 - n + n) with 64 by lia).
  assert (Hk : 0 < k) by (apply Z.pow_pos_nonneg; lia). assert (Hj : 0 < j) by (apply Z.pow_pos_nonneg; lia).
  assert (Elow : forall x y, 0 <= x < W -> 0 <= y < W -> uint64 (Z.shiftr x n + uint64 (Z.shiftl y (64 - n))) = x / k + (y mod k) * j).
  { intros x y Hx Hy. rewrite Z.shiftr_div_pow2 by lia. fold k. unfold uint64 at 2. replace (Z.shiftl y (64 - n) mod 2 ^ 64) with ((y mod k) * j); [| rewrite Z.shiftl_mul_pow2 by lia; fold j; change (2 ^ 64) with W; rewrite <- Ekj, (Z.mul_comm j k); rewrite Z.mul_mod_distr_r by lia; done].
    apply uint64_id. pose proof (Z.mod_pos_bound y k Hk). assert (0 <= x / k < j) by (split; [apply Z.div_pos; lia | apply Z.div_lt_upper_bound; lia]). change (2 ^ 64) with W. nia. }
  rewrite !Elow by done. rewrite Z.shiftl_1_l. fold k. replace (Z.land (d0 r) (k - 1)) with (d0 r mod k) by (unfold k; by rewrite land_mask by lia). rewrite Z.shiftr_div_pow2 by lia. fold k.
  assert (Hq : forall x, 0 <= x < W -> 0 <= x / k < j /\ 0 <= x mod k < k /\ x = k * (x / k) + x mod k).
  { intros x Hx. split; [split; [apply Z.div_pos; lia | apply Z.div_lt_upper_bound; lia] |]. split; [by apply Z.mod_pos_bound | apply Z.div_mod; lia]. }
  destruct (Hq (d0 r) H0) as (Q0 & R0 & E0), (Hq (d1 r) H1) as (Q1 & R1 & E1), (Hq (d2 r) H2) as (Q2 & R2 & E2), (Hq (d3 r) H3) as (Q3 & R3 & E3). clear Hq Elow.
  assert (Hl : forall q x, 0 <= q < j -> 0 <= x < k -> 0 <= q + x * j < W) by (intros q x Hq Hx; rewrite <- Ekj; nia).
  unfold sval at 1 3. set (q0 := d0 r / k) in *. set (q1 := d1 r / k) in *. set (q2 := d2 r / k) in *. set (q3 := d3 r / k) in *. set (r0 := d0 r mod k) in *. set (r1 := d1 r mod k) in *. set (r2 := d2 r mod k) in *. set (r3 := d3 r mod k) in *.
  clearbody q0 q1 q2 q3 r0 r1 r2 r3. set (s := Scalar _ _ _ _). assert (Hs : d0 r + W * (d1 r + W * (d2 r + W * d3 r)) = r0 + sval s * k) by (rewrite E0, E1, E2, E3; unfold s, sval; cbn [d0 d1 d2 d3]; rewrite <- Ekj; ring). rewrite Hs, Z.mod_add, Z.div_add, Z.mod_small, Z.div_small by lia.
  split; [done |]. split; [| lia]. unfold s, scalar_wf, limb. cbn [d0 d1 d2 d3]. split_and!; try (by apply Hl); nia.
Qed.

(** ** Theorem *)

Lemma order_nonzero : order <> 0.
Proof. done. Qed.

Lemma pow_pred x n : 2 <= n -> x * x ^ (n - 2) = x ^ (n - 1).
Proof. intros Hn. rewrite <- Z.pow_succ_r by lia. f_equal. lia. Qed.

(** C15. The operations of libsecp256k1 on scalars in four limbs are those of the integers
    modulo the order of the group: sums with their overflow flag, products and squares
    through 512 bits, negation, the inverse of every scalar that is not zero, the
    comparisons, the windows of bits, the shift, and the bytes, which are read back. *)
Theorem scalar_arithmetic a b : reduced a -> reduced b ->
  (let '(r, o) := secp256k1_scalar_add a b in reduced r /\ sval r = (sval a + sval b) mod order /\ o = Z.b2z (order <=? sval a + sval b)) /\
  (reduced (secp256k1_scalar_mul a b) /\ sval (secp256k1_scalar_mul a b) = (sval a * sval b) mod order) /\
  (reduced (secp256k1_scalar_sqr a) /\ sval (secp256k1_scalar_sqr a) = (sval a * sval a) mod order) /\
  (reduced (secp256k1_scalar_negate a) /\ sval (secp256k1_scalar_negate a) = (- sval a) mod order) /\
  (reduced (secp256k1_scalar_inverse a) /\ (sval a <> 0 -> (sval a * sval (secp256k1_scalar_inverse a)) mod order = 1)) /\
  (forall flag, secp256k1_scalar_cond_negate a flag = (if flag then secp256k1_scalar_negate a else a, if flag then -1 else 1)) /\
  (secp256k1_scalar_is_zero a = (sval a =? 0) /\ secp256k1_scalar_is_one a = (sval a =? 1) /\ secp256k1_scalar_eq a b = (sval a =? sval b) /\
    secp256k1_scalar_is_high a = (order / 2 <? sval a) /\ secp256k1_scalar_is_even a = Z.even (sval a)) /\
  (forall o c, 0 <= o -> 0 < c < 32 -> o + c <= 256 -> secp256k1_scalar_get_bits_var a o c = (sval a / 2 ^ o) mod 2 ^ c) /\
  (forall n, 0 < n < 16 -> let '(low, s) := secp256k1_scalar_shr_int a n in low = sval a mod 2 ^ n /\ scalar_wf s /\ sval s = sval a / 2 ^ n) /\
  (forall bit flag, 0 <= bit < 256 -> sval a + Z.b2z flag * 2 ^ bit < 2 ^ 256 -> sval (secp256k1_scalar_cadd_bit a bit (Z.b2z flag)) = sval a + Z.b2z flag * 2 ^ bit) /\
  secp256k1_scalar_set_b32 (secp256k1_scalar_get_b32 a) = (a, false).
Proof.
  intros Ha Hb. pose proof Ha as [Hw _]. pose proof Hb as [Hw' _]. split; [by apply add_spec |]. split; [by apply mul_spec |]. split; [by apply sqr_spec |]. split; [by apply negate_spec |]. split.
  { destruct (inverse_spec a Ha) as (_ & Hr & E). split; [done |]. intros Hz. rewrite E, Z.mul_mod_idemp_r by exact order_nonzero. rewrite (pow_pred (sval a) order) by (apply Z.leb_le; reflexivity). apply (ZmodInv.Z.fermat_nz order (sval a) group_order_prime). rewrite Z.mod_small by (by apply reduced_bound). exact Hz. }
  split; [intros flag; by apply cond_negate_spec |]. split; [split_and!; [by apply scalar_is_zero_spec | by apply is_one_spec | by apply eq_spec | by apply is_high_spec | apply is_even_spec] |]. split; [intros o c; by apply get_bits_var_spec |]. split; [intros n; by apply shr_int_spec |]. split; [intros bit flag Hbit Hlt; exact (proj2 (cadd_bit_spec a bit flag Hw Hbit Hlt)) |].
  rewrite get_b32_spec by done. pose proof (set_b32_spec (be_encode 32 (sval a)) (be_encode_ok _ _) (length_be_encode _ _)) as H. destruct (secp256k1_scalar_set_b32 _) as [r o]. destruct H as (Hr & Hv & ->).
  pose proof (reduced_bound a Ha). rewrite be_decode_encode, (Z.mod_small (sval a)) in * by (unfold order in *; lia). rewrite Z.mod_small in Hv by lia. f_equal; [apply sval_inj; [apply Hr | done | done] | apply Z.leb_gt; lia].
Qed.

Lemma scalar_arithmetic_witness : let a := Scalar 5 0 0 SECP256K1_N_3 in let b := Scalar 7 1 0 1 in
  sval (secp256k1_scalar_mul a b) = (sval a * sval b) mod order /\ secp256k1_scalar_set_b32 (secp256k1_scalar_get_b32 a) = (a, false).
Proof.
  intros a b. assert (Ha : reduced a) by (split; [repeat split; vm_compute; discriminate | reflexivity]). assert (Hb : reduced b) by (split; [repeat split; vm_compute; discriminate | reflexivity]).
  destruct (scalar_arithmetic a b Ha Hb) as (_ & (_ & H1) & _ & _ & _ & _ & _ & _ & _ & _ & H2). split; [exact H1 | exact H2].
Defined.
