(* ===== verification/Field.v ===== *)
(** * Field elements

    [src/secp256k1/src/field_5x52_impl.h], the portable [field_5x52_int128_impl.h] and
    [field_impl.h]: numbers modulo the prime of secp256k1 in five limbs of 52 bits, which
    may hold more bits between two normalizations. *)

From S2P Require Import Prelude Scalar.

Open Scope Z_scope.

Record secp256k1_fe := Fe { n0 : Z; n1 : Z; n2 : Z; n3 : Z; n4 : Z }.

Definition M52 : Z := 0xFFFFFFFFFFFFF.
Definition M48 : Z := 0x0FFFFFFFFFFFF.

(** The first pass of the normalizations. *)
Definition fe_first_pass (r : secp256k1_fe) : secp256k1_fe :=
  let x := Z.shiftr (n4 r) 48 in
  let t4 := Z.land (n4 r) M48 in
  let t0 := uint64 (n0 r + uint64 (x * 0x1000003D1)) in
  let t1 := uint64 (n1 r + Z.shiftr t0 52) in let t0 := Z.land t0 M52 in
  let t2 := uint64 (n2 r + Z.shiftr t1 52) in let t1 := Z.land t1 M52 in
  let t3 := uint64 (n3 r + Z.shiftr t2 52) in let t2 := Z.land t2 M52 in
  let t4 := uint64 (t4 + Z.shiftr t3 52) in let t3 := Z.land t3 M52 in
  Fe t0 t1 t2 t3 t4.

(** The final reduction, by [x] times the prime. *)
Definition fe_final_pass (t : secp256k1_fe) (x : Z) : secp256k1_fe :=
  let t0 := uint64 (n0 t + uint64 (x * 0x1000003D1)) in
  let t1 := uint64 (n1 t + Z.shiftr t0 52) in let t0 := Z.land t0 M52 in
  let t2 := uint64 (n2 t + Z.shiftr t1 52) in let t1 := Z.land t1 M52 in
  let t3 := uint64 (n3 t + Z.shiftr t2 52) in let t2 := Z.land t2 M52 in
  let t4 := uint64 (n4 t + Z.shiftr t3 52) in let t3 := Z.land t3 M52 in
  Fe t0 t1 t2 t3 (Z.land t4 M48).

(** Whether a value after the first pass is at least the prime. *)
Definition fe_overflows (t : secp256k1_fe) : Z :=
  let m := Z.land (Z.land (n1 t) (n2 t)) (n3 t) in
  Z.lor (Z.shiftr (n4 t) 48) (Z.b2z ((n4 t =? M48) && (m =? M52) && (n0 t >=? 0xFFFFEFFFFFC2F))).

Definition secp256k1_fe_normalize (r : secp256k1_fe) : secp256k1_fe :=
  let t := fe_first_pass r in fe_final_pass t (fe_overflows t).

Definition secp256k1_fe_normalize_weak (r : secp256k1_fe) : secp256k1_fe := fe_first_pass r.

Definition secp256k1_fe_normalize_var (r : secp256k1_fe) : secp256k1_fe :=
  let t := fe_first_pass r in
  if negb (fe_overflows t =? 0) then fe_final_pass t 1 else t.

Definition secp256k1_fe_normalizes_to_zero (r : secp256k1_fe) : bool :=
  let t := fe_first_pass r in
  let z0 := Z.lor (Z.lor (Z.lor (Z.lor (n0 t) (n1 t)) (n2 t)) (n3 t)) (n4 t) in
  let z1 := Z.land (Z.land (Z.land (Z.land (Z.lxor (n0 t) 0x1000003D0) (n1 t)) (n2 t)) (n3 t)) (Z.lxor (n4 t) 0xF000000000000) in
  (z0 =? 0) || (z1 =? M52).

Definition secp256k1_fe_normalizes_to_zero_var (r : secp256k1_fe) : bool :=
  let x := Z.shiftr (n4 r) 48 in
  let t0 := uint64 (n0 r + uint64 (x * 0x1000003D1)) in
  let z0 := Z.land t0 M52 in
  let z1 := Z.lxor z0 0x1000003D0 in
  if negb (z0 =? 0) && negb (z1 =? M52) then false
  else
    let t4 := Z.land (n4 r) M48 in
    let t1 := uint64 (n1 r + Z.shiftr t0 52) in
    let t2 := uint64 (n2 r + Z.shiftr t1 52) in let t1 := Z.land t1 M52 in let z0 := Z.lor z0 t1 in let z1 := Z.land z1 t1 in
    let t3 := uint64 (n3 r + Z.shiftr t2 52) in let t2 := Z.land t2 M52 in let z0 := Z.lor z0 t2 in let z1 := Z.land z1 t2 in
    let t4 := uint64 (t4 + Z.shiftr t3 52) in let t3 := Z.land t3 M52 in let z0 := Z.lor z0 t3 in let z1 := Z.land z1 t3 in
    let z0 := Z.lor z0 t4 in let z1 := Z.land z1 (Z.lxor t4 0xF000000000000) in
    (z0 =? 0) || (z1 =? M52).

Definition secp256k1_fe_set_int (a : Z) : secp256k1_fe := Fe (uint64 a) 0 0 0 0.

Definition secp256k1_fe_is_zero (a : secp256k1_fe) : bool := Z.lor (Z.lor (Z.lor (Z.lor (n0 a) (n1 a)) (n2 a)) (n3 a)) (n4 a) =? 0.

Definition secp256k1_fe_is_odd (a : secp256k1_fe) : bool := negb (Z.land (n0 a) 1 =? 0).

Definition secp256k1_fe_clear : secp256k1_fe := Fe 0 0 0 0 0.

(** From the most significant limb on. *)
Fixpoint limbs_cmp (l m : list Z) : Z :=
  match l, m with
  | x :: l, y :: m => if x >? y then 1 else if x <? y then -1 else limbs_cmp l m
  | _, _ => 0
  end.

Definition secp256k1_fe_cmp_var (a b : secp256k1_fe) : Z := limbs_cmp [n4 a; n3 a; n2 a; n1 a; n0 a] [n4 b; n3 b; n2 b; n1 b; n0 b].

(** [x | y << s], where [y << s] is a 64-bit shift. *)
Definition or_shift (x y s : Z) : Z := Z.lor x (uint64 (Z.shiftl y s)).

Definition secp256k1_fe_set_b32 (a : list Z) : secp256k1_fe * bool :=
  let at_ := byte_at a in
  let r0 := or_shift (or_shift (or_shift (or_shift (or_shift (or_shift (at_ 31) (at_ 30) 8) (at_ 29) 16) (at_ 28) 24) (at_ 27) 32) (at_ 26) 40) (Z.land (at_ 25) 0xF) 48 in
  let r1 := or_shift (or_shift (or_shift (or_shift (or_shift (or_shift (Z.land (Z.shiftr (at_ 25) 4) 0xF) (at_ 24) 4) (at_ 23) 12) (at_ 22) 20) (at_ 21) 28) (at_ 20) 36) (at_ 19) 44 in
  let r2 := or_shift (or_shift (or_shift (or_shift (or_shift (or_shift (at_ 18) (at_ 17) 8) (at_ 16) 16) (at_ 15) 24) (at_ 14) 32) (at_ 13) 40) (Z.land (at_ 12) 0xF) 48 in
  let r3 := or_shift (or_shift (or_shift (or_shift (or_shift (or_shift (Z.land (Z.shiftr (at_ 12) 4) 0xF) (at_ 11) 4) (at_ 10) 12) (at_ 9) 20) (at_ 8) 28) (at_ 7) 36) (at_ 6) 44 in
  let r4 := or_shift (or_shift (or_shift (or_shift (or_shift (at_ 5) (at_ 4) 8) (at_ 3) 16) (at_ 2) 24) (at_ 1) 32) (at_ 0) 40 in
  (Fe r0 r1 r2 r3 r4, negb ((r4 =? M48) && (Z.land (Z.land r3 r2) r1 =? M52) && (r0 >=? 0xFFFFEFFFFFC2F))).

(** [(x >> s) & 0xFF] *)
Definition byte_of (x s : Z) : Z := Z.land (Z.shiftr x s) 0xFF.

Definition secp256k1_fe_get_b32 (a : secp256k1_fe) : list Z :=
  [byte_of (n4 a) 40; byte_of (n4 a) 32; byte_of (n4 a) 24; byte_of (n4 a) 16; byte_of (n4 a) 8; byte_of (n4 a) 0;
   byte_of (n3 a) 44; byte_of (n3 a) 36; byte_of (n3 a) 28; byte_of (n3 a) 20; byte_of (n3 a) 12; byte_of (n3 a) 4;
   Z.lor (Z.land (Z.shiftr (n2 a) 48) 0xF) (Z.shiftl (Z.land (n3 a) 0xF) 4);
   byte_of (n2 a) 40; byte_of (n2 a) 32; byte_of (n2 a) 24; byte_of (n2 a) 16; byte_of (n2 a) 8; byte_of (n2 a) 0;
   byte_of (n1 a) 44; byte_of (n1 a) 36; byte_of (n1 a) 28; byte_of (n1 a) 20; byte_of (n1 a) 12; byte_of (n1 a) 4;
   Z.lor (Z.land (Z.shiftr (n0 a) 48) 0xF) (Z.shiftl (Z.land (n1 a) 0xF) 4);
   byte_of (n0 a) 40; byte_of (n0 a) 32; byte_of (n0 a) 24; byte_of (n0 a) 16; byte_of (n0 a) 8; byte_of (n0 a) 0].

Definition secp256k1_fe_negate (a : secp256k1_fe) (m : Z) : secp256k1_fe :=
  Fe (uint64 (0xFFFFEFFFFFC2F * 2 * (m + 1) - n0 a)) (uint64 (M52 * 2 * (m + 1) - n1 a)) (uint64 (M52 * 2 * (m + 1) - n2 a))
    (uint64 (M52 * 2 * (m + 1) - n3 a)) (uint64 (M48 * 2 * (m + 1) - n4 a)).

Definition secp256k1_fe_mul_int (r : secp256k1_fe) (a : Z) : secp256k1_fe :=
  Fe (uint64 (n0 r * a)) (uint64 (n1 r * a)) (uint64 (n2 r * a)) (uint64 (n3 r * a)) (uint64 (n4 r * a)).

Definition secp256k1_fe_add (r a : secp256k1_fe) : secp256k1_fe :=
  Fe (uint64 (n0 r + n0 a)) (uint64 (n1 r + n1 a)) (uint64 (n2 r + n2 a)) (uint64 (n3 r + n3 a)) (uint64 (n4 r + n4 a)).

(** ** Products *)

Definition FE_R : Z := 0x1000003D10.

Definition secp256k1_fe_mul_inner (a b : secp256k1_fe) : secp256k1_fe :=
  let a0 := n0 a in let a1 := n1 a in let a2 := n2 a in let a3 := n3 a in let a4 := n4 a in
  let d := uint128 (a0 * n3 b + a1 * n2 b + a2 * n1 b + a3 * n0 b) in
  let c := uint128 (a4 * n4 b) in
  let d := uint128 (d + uint128 (Z.land c M52 * FE_R)) in let c := Z.shiftr c 52 in
  let t3 := uint64 (Z.land d M52) in let d := Z.shiftr d 52 in
  let d := uint128 (d + uint128 (a0 * n4 b + a1 * n3 b + a2 * n2 b + a3 * n1 b + a4 * n0 b)) in
  let d := uint128 (d + uint128 (c * FE_R)) in
  let t4 := uint64 (Z.land d M52) in let d := Z.shiftr d 52 in
  let tx := Z.shiftr t4 48 in let t4 := Z.land t4 (Z.shiftr M52 4) in
  let c := uint128 (a0 * n0 b) in
  let d := uint128 (d + uint128 (a1 * n4 b + a2 * n3 b + a3 * n2 b + a4 * n1 b)) in
  let u0 := uint64 (Z.land d M52) in let d := Z.shiftr d 52 in
  let u0 := Z.lor (uint64 (Z.shiftl u0 4)) tx in
  let c := uint128 (c + uint128 (u0 * Z.shiftr FE_R 4)) in
  let r0 := uint64 (Z.land c M52) in let c := Z.shiftr c 52 in
  let c := uint128 (c + uint128 (a0 * n1 b + a1 * n0 b)) in
  let d := uint128 (d + uint128 (a2 * n4 b + a3 * n3 b + a4 * n2 b)) in
  let c := uint128 (c + uint128 (Z.land d M52 * FE_R)) in let d := Z.shiftr d 52 in
  let r1 := uint64 (Z.land c M52) in let c := Z.shiftr c 52 in
  let c := uint128 (c + uint128 (a0 * n2 b + a1 * n1 b + a2 * n0 b)) in
  let d := uint128 (d + uint128 (a3 * n4 b + a4 * n3 b)) in
  let c := uint128 (c + uint128 (Z.land d M52 * FE_R)) in let d := Z.shiftr d 52 in
  let r2 := uint64 (Z.land c M52) in let c := Z.shiftr c 52 in
  let c := uint128 (c + uint128 (d * FE_R + t3)) in
  let r3 := uint64 (Z.land c M52) in let c := Z.shiftr c 52 in
  let c := uint128 (c + t4) in
  Fe r0 r1 r2 r3 (uint64 c).

Definition secp256k1_fe_sqr_inner (a : secp256k1_fe) : secp256k1_fe :=
  let a0 := n0 a in let a1 := n1 a in let a2 := n2 a in let a3 := n3 a in let a4 := n4 a in
  let d := uint128 (uint64 (a0 * 2) * a3 + uint64 (a1 * 2) * a2) in
  let c := uint128 (a4 * a4) in
  let d := uint128 (d + uint128 (Z.land c M52 * FE_R)) in let c := Z.shiftr c 52 in
  let t3 := int64 (Z.land d M52) in let d := Z.shiftr d 52 in
  let a4 := uint64 (a4 * 2) in
  let d := uint128 (d + uint128 (a0 * a4 + uint64 (a1 * 2) * a3 + a2 * a2)) in
  let d := uint128 (d + uint128 (c * FE_R)) in
  let t4 := int64 (Z.land d M52) in let d := Z.shiftr d 52 in
  let tx := Z.shiftr t4 48 in let t4 := Z.land t4 (Z.shiftr M52 4) in
  let c := uint128 (a0 * a0) in
  let d := uint128 (d + uint128 (a1 * a4 + uint64 (a2 * 2) * a3)) in
  let u0 := int64 (Z.land d M52) in let d := Z.shiftr d 52 in
  let u0 := Z.lor (Z.shiftl u0 4) tx in
  let c := uint128 (c + uint128 (u0 * Z.shiftr FE_R 4)) in
  let r0 := uint64 (Z.land c M52) in let c := Z.shiftr c 52 in
  let a0 := uint64 (a0 * 2) in
  let c := uint128 (c + uint128 (a0 * a1)) in
  let d := uint128 (d + uint128 (a2 * a4 + a3 * a3)) in
  let c := uint128 (c + uint128 (Z.land d M52 * FE_R)) in let d := Z.shiftr d 52 in
  let r1 := uint64 (Z.land c M52) in let c := Z.shiftr c 52 in
  let c := uint128 (c + uint128 (a0 * a2 + a1 * a1)) in
  let d := uint128 (d + uint128 (a3 * a4)) in
  let c := uint128 (c + uint128 (Z.land d M52 * FE_R)) in let d := Z.shiftr d 52 in
  let r2 := uint64 (Z.land c M52) in let c := Z.shiftr c 52 in
  let c := uint128 (c + uint128 (d * FE_R + t3)) in
  let r3 := uint64 (Z.land c M52) in let c := Z.shiftr c 52 in
  let c := uint128 (c + t4) in
  Fe r0 r1 r2 r3 (uint64 c).

Definition secp256k1_fe_mul (a b : secp256k1_fe) : secp256k1_fe := secp256k1_fe_mul_inner a b.

Definition secp256k1_fe_sqr (a : secp256k1_fe) : secp256k1_fe := secp256k1_fe_sqr_inner a.

(** One limb of a conditional move. *)
Definition cmov64 (r a flag : Z) : Z :=
  let mask0 := uint64 (flag + not64 0) in
  let mask1 := not64 mask0 in
  Z.lor (Z.land r mask0) (Z.land a mask1).

Definition secp256k1_fe_cmov (r a : secp256k1_fe) (flag : Z) : secp256k1_fe :=
  Fe (cmov64 (n0 r) (n0 a) flag) (cmov64 (n1 r) (n1 a) flag) (cmov64 (n2 r) (n2 a) flag) (cmov64 (n3 r) (n3 a) flag) (cmov64 (n4 r) (n4 a) flag).

(** ** Storage *)

Record secp256k1_fe_storage := FeStorage { s0 : Z; s1 : Z; s2 : Z; s3 : Z }.

Definition secp256k1_fe_storage_cmov (r a : secp256k1_fe_storage) (flag : Z) : secp256k1_fe_storage :=
  FeStorage (cmov64 (s0 r) (s0 a) flag) (cmov64 (s1 r) (s1 a) flag) (cmov64 (s2 r) (s2 a) flag) (cmov64 (s3 r) (s3 a) flag).

Definition secp256k1_fe_to_storage (a : secp256k1_fe) : secp256k1_fe_storage :=
  FeStorage (or_shift (n0 a) (n1 a) 52) (or_shift (Z.shiftr (n1 a) 12) (n2 a) 40) (or_shift (Z.shiftr (n2 a) 24) (n3 a) 28) (or_shift (Z.shiftr (n3 a) 36) (n4 a) 16).

Definition secp256k1_fe_from_storage (a : secp256k1_fe_storage) : secp256k1_fe :=
  Fe (Z.land (s0 a) M52)
    (Z.lor (Z.shiftr (s0 a) 52) (Z.land (uint64 (Z.shiftl (s1 a) 12)) M52))
    (Z.lor (Z.shiftr (s1 a) 40) (Z.land (uint64 (Z.shiftl (s2 a) 24)) M52))
    (Z.lor (Z.shiftr (s2 a) 28) (Z.land (uint64 (Z.shiftl (s3 a) 36)) M52))
    (Z.shiftr (s3 a) 16).

(** ** Comparisons, inverse and square root *)

Definition secp256k1_fe_equal (a b : secp256k1_fe) : bool := secp256k1_fe_normalizes_to_zero (secp256k1_fe_add (secp256k1_fe_negate a 1) b).

Definition secp256k1_fe_equal_var (a b : secp256k1_fe) : bool := secp256k1_fe_normalizes_to_zero_var (secp256k1_fe_add (secp256k1_fe_negate a 1) b).

(** A loop of squarings. *)
Definition fe_sqr_n (n : nat) (t : secp256k1_fe) : secp256k1_fe := Nat.iter n secp256k1_fe_sqr t.

(** The blocks of ones that the two chains share: [x2], [x22] and [x223]. *)
Definition fe_blocks (a : secp256k1_fe) : secp256k1_fe * secp256k1_fe * secp256k1_fe :=
  let mul := secp256k1_fe_mul in
  let x2 := mul (secp256k1_fe_sqr a) a in
  let x3 := mul (secp256k1_fe_sqr x2) a in
  let x6 := mul (fe_sqr_n 3 x3) x3 in
  let x9 := mul (fe_sqr_n 3 x6) x3 in
  let x11 := mul (fe_sqr_n 2 x9) x2 in
  let x22 := mul (fe_sqr_n 11 x11) x11 in
  let x44 := mul (fe_sqr_n 22 x22) x22 in
  let x88 := mul (fe_sqr_n 44 x44) x44 in
  let x176 := mul (fe_sqr_n 88 x88) x88 in
  let x220 := mul (fe_sqr_n 44 x176) x44 in
  let x223 := mul (fe_sqr_n 3 x220) x3 in
  (x2, x22, x223).

(** The candidate and whether it is a square root. *)
Definition secp256k1_fe_sqrt (a : secp256k1_fe) : secp256k1_fe * bool :=
  let '(x2, x22, x223) := fe_blocks a in
  let t1 := secp256k1_fe_mul (fe_sqr_n 23 x223) x22 in
  let t1 := secp256k1_fe_mul (fe_sqr_n 6 t1) x2 in
  let r := secp256k1_fe_sqr (secp256k1_fe_sqr t1) in
  (r, secp256k1_fe_equal (secp256k1_fe_sqr r) a).

Definition secp256k1_fe_inv (a : secp256k1_fe) : secp256k1_fe :=
  let '(x2, x22, x223) := fe_blocks a in
  let t1 := secp256k1_fe_mul (fe_sqr_n 23 x223) x22 in
  let t1 := secp256k1_fe_mul (fe_sqr_n 5 t1) a in
  let t1 := secp256k1_fe_mul (fe_sqr_n 3 t1) x2 in
  secp256k1_fe_mul a (fe_sqr_n 2 t1).

Definition secp256k1_fe_inv_var (a : secp256k1_fe) : secp256k1_fe := secp256k1_fe_inv a.

Definition secp256k1_fe_is_quad_var (a : secp256k1_fe) : bool := (secp256k1_fe_sqrt a).2.

(** The products of the prefixes. *)
Fixpoint prefix_products (p : secp256k1_fe) (a : list secp256k1_fe) : list secp256k1_fe :=
  match a with
  | [] => []
  | x :: a => let p := secp256k1_fe_mul p x in p :: prefix_products p a
  end.

(** The second loop, from the last element on: [r] holds the products of the prefixes
    before each element, in reverse order, and [u] the inverse of the product so far. *)
Fixpoint inverses_back (u : secp256k1_fe) (r a : list secp256k1_fe) (acc : list secp256k1_fe) : list secp256k1_fe :=
  match r, a with
  | p :: r, x :: a => inverses_back (secp256k1_fe_mul u x) r a (secp256k1_fe_mul p u :: acc)
  | _, _ => u :: acc
  end.

Definition secp256k1_fe_inv_all_var (a : list secp256k1_fe) : list secp256k1_fe :=
  match a with
  | [] => []
  | x :: rest =>
    let r := x :: prefix_products x rest in
    match reverse r with
    | last :: before => inverses_back (secp256k1_fe_inv_var last) before (reverse rest) []
    | [] => []
    end
  end.
