(* ===== verification/FieldProps.v ===== *)
(** * Field arithmetic is arithmetic modulo the prime

    Every operation on five limbs computes the operation on the numbers they represent,
    modulo the prime of the field, for the magnitudes the library allows. *)

From S2P Require Import Prelude Scalar ScalarProps Field.

Open Scope Z_scope.

(** ** Values and magnitudes *)

(** The base of the limbs. *)
Abbreviation X := 4503599627370496.

Definition prime : Z := 0xFFFFFFFFFFFFFFFFFFFFFFFFFFFFFFFFFFFFFFFFFFFFFFFFFFFFFFFEFFFFFC2F.

Definition fval (a : secp256k1_fe) : Z := n0 a + X * (n1 a + X * (n2 a + X * (n3 a + X * n4 a))).

(** The limbs that [secp256k1_fe_verify] allows an element of magnitude [m]. *)
Definition magnitude (m : Z) (a : secp256k1_fe) : Prop :=
  0 <= n0 a <= M52 * 2 * m /\ 0 <= n1 a <= M52 * 2 * m /\ 0 <= n2 a <= M52 * 2 * m /\ 0 <= n3 a <= M52 * 2 * m /\ 0 <= n4 a <= M48 * 2 * m.

(** The same number modulo the prime. *)
Definition feq (x y : Z) : Prop := x mod prime = y mod prime.

#[export] Instance feq_equiv : Equivalence feq.
Proof. split; unfold feq; [intros x | intros x y | intros x y z]; congruence. Qed.

#[export] Instance feq_mul_proper : Proper (feq ==> feq ==> feq) Z.mul.
Proof. unfold feq. intros x y E u v F. by rewrite (Z.mul_mod x u), (Z.mul_mod y v), E, F by done. Qed.

#[export] Instance feq_add_proper : Proper (feq ==> feq ==> feq) Z.add.
Proof. unfold feq. intros x y E u v F. by rewrite (Z.add_mod x u), (Z.add_mod y v), E, F by done. Qed.

#[export] Instance feq_opp_proper : Proper (feq ==> feq) Z.opp.
Proof. intros x y E. replace (- x) with (-1 * x) by lia. replace (- y) with (-1 * y) by lia. by rewrite E. Qed.

#[export] Instance feq_pow_proper : Proper (feq ==> eq ==> feq) Z.pow.
Proof. unfold feq. intros x y E e _ <-. by rewrite <- (Z.mod_pow_l x), E, Z.mod_pow_l. Qed.

Lemma feq_add_multiple x y k : x = y + k * prime -> feq x y.
Proof. intros ->. unfold feq. by rewrite Z.mod_add by done. Qed.

(** The low limb and the rest of a number. *)
Lemma split52 c : c = X * Z.shiftr c 52 + Z.land c M52 /\ 0 <= Z.land c M52 < X.
Proof.
  change M52 with (Z.ones 52). rewrite Z.land_ones, Z.shiftr_div_pow2 by lia. change (2 ^ 52) with X. split; [apply Z.div_mod; lia | apply Z.mod_pos_bound; lia].
Qed.

Lemma split48 c : c = 281474976710656 * Z.shiftr c 48 + Z.land c M48 /\ 0 <= Z.land c M48 < 281474976710656.
Proof.
  change M48 with (Z.ones 48). rewrite Z.land_ones, Z.shiftr_div_pow2 by lia. change (2 ^ 48) with 281474976710656. split; [apply Z.div_mod; lia | apply Z.mod_pos_bound; lia].
Qed.

(** ** Stepping through straight-line code *)

Lemma let_intro {A B} (Q : B -> Prop) (s : A) (f : A -> B) : (forall y, y = s -> Q (f y)) -> Q (let y := s in f y).
Proof. intros H. by apply H. Qed.

(** The next binding as a variable with its equation. *)
Ltac let_as y E := lazymatch goal with |- ?Q (let x := ?s in @?f x) => refine (let_intro Q s f _); intros y E; cbv beta end.

(** A binding of a variable. *)
Ltac let_var := let y := fresh "y" in let E := fresh "E" in let_as y E; subst y.

(** A binding whose machine arithmetic does not overflow. *)
Ltac no_wrap E :=
  repeat match type of E with
    | context [uint128 ?x] => lazymatch x with context [uint128 _] => fail | context [uint64 _] => fail | _ => rewrite (uint128_id x) in E by lia end
    | context [uint64 ?x] => lazymatch x with context [uint64 _] => fail | _ => rewrite (uint64_id x) in E by lia end
    | context [int64 ?x] => rewrite (int64_id x) in E by lia
    end.

Ltac sum_as y := let E := fresh "E" in let_as y E; no_wrap E.

(** The low limb and the rest of [c] as variables. *)
Ltac split_as c m q :=
  let E := fresh "E" in let B := fresh "B" in
  destruct (split52 c) as [E B]; set (m := Z.land c M52) in *; set (q := Z.shiftr c 52) in *; clearbody m q.

(** The four bits of [tx] below the shifted [u0]. *)
Lemma lor_nibble u t : 0 <= t < 16 -> 0 <= u -> Z.lor (Z.shiftl u 4) t = 16 * u + t.
Proof. intros Ht Hu. rewrite Z.lor_comm, lor_shiftl_add by lia. lia. Qed.

(** ** Products *)

(** The top limb of a product is cut at 48 bits. *)
Lemma split_top t : 0 <= t < X -> t = 281474976710656 * Z.shiftr t 48 + Z.land t (Z.shiftr M52 4) /\ 0 <= Z.land t (Z.shiftr M52 4) < 281474976710656 /\ 0 <= Z.shiftr t 48 < 16.
Proof. intros Ht. change (Z.shiftr M52 4) with M48. destruct (split48 t) as [E B]. lia. Qed.

(** A result of magnitude 1 for the number [S]. *)
Definition reduces (S : Z) (r : secp256k1_fe) : Prop := magnitude 1 r /\ exists k, S = fval r + k * prime.

(** A sum of products of limbs as a variable with its bound. *)
Lemma limb_product x y B C : 0 <= x <= B -> 0 <= y <= C -> 0 <= x * y <= B * C.
Proof. nia. Qed.

(** The columns of the product of two elements of magnitude 8. *)
Lemma columns a b : magnitude 8 a -> magnitude 8 b -> exists p0 p1 p2 p3 p4 p5 p6 p7 p8,
  p0 = n0 a * n0 b /\ p1 = n0 a * n1 b + n1 a * n0 b /\ p2 = n0 a * n2 b + n1 a * n1 b + n2 a * n0 b /\ p3 = n0 a * n3 b + n1 a * n2 b + n2 a * n1 b + n3 a * n0 b /\
  p4 = n0 a * n4 b + n1 a * n3 b + n2 a * n2 b + n3 a * n1 b + n4 a * n0 b /\ p5 = n1 a * n4 b + n2 a * n3 b + n3 a * n2 b + n4 a * n1 b /\
  p6 = n2 a * n4 b + n3 a * n3 b + n4 a * n2 b /\ p7 = n3 a * n4 b + n4 a * n3 b /\ p8 = n4 a * n4 b /\
  (0 <= p0 < 2 ^ 112 /\ 0 <= p1 < 2 ^ 113 /\ 0 <= p2 < 2 ^ 114 /\ 0 <= p3 < 2 ^ 114 /\ 0 <= p4 < 2 ^ 115 /\ 0 <= p5 < 2 ^ 114 /\ 0 <= p6 < 2 ^ 113 /\ 0 <= p7 < 2 ^ 109 /\ 0 <= p8 < 2 ^ 104) /\
  fval a * fval b = p0 + X * (p1 + X * (p2 + X * (p3 + X * (p4 + X * (p5 + X * (p6 + X * (p7 + X * p8))))))).
Proof.
  destruct a as [a0 a1 a2 a3 a4], b as [b0 b1 b2 b3 b4]. intros (A0 & A1 & A2 & A3 & A4) (B0 & B1 & B2 & B3 & B4). cbn [n0 n1 n2 n3 n4] in *.
  do 9 eexists. do 9 (split; [reflexivity |]). split; [| unfold fval; cbn [n0 n1 n2 n3 n4]; ring].
  assert (HM : M52 * 2 * 8 = 72057594037927920 /\ M48 * 2 * 8 = 4503599627370480) by done. destruct HM as [EM1 EM2]. rewrite EM1, EM2 in *. clear EM1 EM2.
  split_and!; nia.
Qed.

Lemma pow_104_115 : 2 ^ 104 = 20282409603651670423947251286016 /\ 2 ^ 109 = 649037107316853453566312041152512 /\ 2 ^ 112 = 5192296858534827628530496329220096 /\
  2 ^ 113 = 10384593717069655257060992658440192 /\ 2 ^ 114 = 20769187434139310514121985316880384 /\ 2 ^ 115 = 41538374868278621028243970633760768.
Proof. done. Qed.

Ltac column_bounds := destruct pow_104_115 as (Q1 & Q2 & Q3 & Q4 & Q5 & Q6); rewrite Q1, Q2, Q3, Q4, Q5, Q6 in *; clear Q1 Q2 Q3 Q4 Q5 Q6.

(** A low limb that is bound to a name. *)
Ltac limb_as c m q := split_as c m q; let y := fresh "y" in sum_as y; subst y; let_var.

(** The reduction of the columns, which the product and the square share; the square
    doubles two of the limbs on its way. *)
Ltac column_steps double4 double0 :=
  let dA := fresh "dA" in let cA := fresh "cA" in let m8 := fresh "m8" in let q8 := fresh "q8" in let dB := fresh "dB" in let t3 := fresh "t3" in let qB := fresh "qB" in
  let dC := fresh "dC" in let dD := fresh "dD" in let t4 := fresh "t4" in let qD := fresh "qD" in let t4' := fresh "t4'" in let tx := fresh "tx" in let cB := fresh "cB" in
  let dE := fresh "dE" in let u0 := fresh "u0" in let qE := fresh "qE" in let cC := fresh "cC" in let r0 := fresh "r0" in let qC := fresh "qC" in let cD := fresh "cD" in
  let dF := fresh "dF" in let m6 := fresh "m6" in let q6 := fresh "q6" in let cE := fresh "cE" in let r1 := fresh "r1" in let qF := fresh "qF" in let cF := fresh "cF" in
  let dG := fresh "dG" in let m7 := fresh "m7" in let q7 := fresh "q7" in let cG := fresh "cG" in let r2 := fresh "r2" in let qG := fresh "qG" in let cH := fresh "cH" in
  let r3 := fresh "r3" in let qH := fresh "qH" in let cI := fresh "cI" in
  sum_as dA; sum_as cA; split_as cA m8 q8; sum_as dB; let_var; limb_as dB t3 qB; double4; sum_as dC; sum_as dD; limb_as dD t4 qD;
  let E := fresh "E" in let B := fresh "B" in let B' := fresh "B" in
  destruct (split_top t4 ltac:(lia)) as (E & B & B'); set (t4' := Z.land t4 (Z.shiftr M52 4)) in *; set (tx := Z.shiftr t4 48) in *; clearbody t4' tx; do 2 let_var;
  sum_as cB; sum_as dE; limb_as dE u0 qE;
  let y := fresh "y" in let Ey := fresh "E" in
  let_as y Ey; try rewrite (uint64_id (Z.shiftl u0 4)) in Ey by (rewrite Z.shiftl_mul_pow2 by lia; lia); rewrite lor_nibble in Ey by lia; subst y;
  sum_as cC; limb_as cC r0 qC; double0; sum_as cD; sum_as dF; split_as dF m6 q6; sum_as cE; let_var; limb_as cE r1 qF; sum_as cF; sum_as dG; split_as dG m7 q7; sum_as cG; let_var; limb_as cG r2 qG;
  sum_as cH; limb_as cH r3 qH; sum_as cI; rewrite (uint64_id cI) by lia;
  split; [unfold magnitude, M52, M48; cbn [n0 n1 n2 n3 n4]; split_and!; lia |];
  exists (16 * (m8 * (X * X * X) + q8 * (X * X * X * X) + m6 * X + m7 * (X * X) + q7 * (X * X * X)) + (16 * u0 + tx)); unfold fval, prime; cbn [n0 n1 n2 n3 n4]; lia.

Lemma mul_inner_spec a b : magnitude 8 a -> magnitude 8 b -> reduces (fval a * fval b) (secp256k1_fe_mul_inner a b).
Proof.
  intros Ha Hb. destruct (columns a b Ha Hb) as (p0 & p1 & p2 & p3 & p4 & p5 & p6 & p7 & p8 & E0 & E1 & E2 & E3 & E4 & E5 & E6 & E7 & E8 & (H0 & H1 & H2 & H3 & H4 & H5 & H6 & H7 & H8) & ES).
  rewrite ES. clear ES Ha Hb. column_bounds. cbv beta iota delta [secp256k1_fe_mul_inner FE_R]. change (Z.shiftr 0x1000003D10 4) with 0x1000003D1. do 5 let_var.
  rewrite <- E0, <- E1, <- E2, <- E3, <- E4, <- E5, <- E6, <- E7, <- E8. clear E0 E1 E2 E3 E4 E5 E6 E7 E8.
  column_steps idtac idtac.
Qed.

Lemma sqr_inner_spec a : magnitude 8 a -> reduces (fval a * fval a) (secp256k1_fe_sqr_inner a).
Proof.
  intros Ha. destruct (columns a a Ha Ha) as (p0 & p1 & p2 & p3 & p4 & p5 & p6 & p7 & p8 & E0 & E1 & E2 & E3 & E4 & E5 & E6 & E7 & E8 & (H0 & H1 & H2 & H3 & H4 & H5 & H6 & H7 & H8) & ES).
  rewrite ES. clear ES. column_bounds. cbv beta iota delta [secp256k1_fe_sqr_inner FE_R]. change (Z.shiftr 0x1000003D10 4) with 0x1000003D1. do 5 let_var.
  destruct Ha as (A0 & A1 & A2 & A3 & A4). unfold M52, M48 in A0, A1, A2, A3, A4. rewrite !(uint64_id (_ a * 2)) by lia.
  replace (n0 a * 2 * n3 a + n1 a * 2 * n2 a) with p3 by lia. rewrite <- E0, <- E8.
  column_steps
    ltac:(let_var;
      replace (n0 a * (n4 a * 2) + n1 a * 2 * n3 a + n2 a * n2 a) with p4 by lia; replace (n1 a * (n4 a * 2) + n2 a * 2 * n3 a) with p5 by lia;
      replace (n2 a * (n4 a * 2) + n3 a * n3 a) with p6 by lia; replace (n3 a * (n4 a * 2)) with p7 by lia; clear E0 E3 E4 E5 E6 E7 E8)
    ltac:(let_var;
      replace (n0 a * 2 * n1 a) with p1 by lia; replace (n0 a * 2 * n2 a + n1 a * n1 a) with p2 by lia; clear E1 E2 A0 A1 A2 A3 A4).
Qed.

(** ** Normalization *)

(** An element whose low limbs are reduced. *)
Definition carried (r : secp256k1_fe) : Prop := 0 <= n0 r < X /\ 0 <= n1 r < X /\ 0 <= n2 r < X /\ 0 <= n3 r < X.

Definition normalized (r : secp256k1_fe) : Prop := carried r /\ 0 <= n4 r < 281474976710656 /\ fval r < prime.

(** The outcome of the first pass for a number. *)
Definition first_pass_of (S : Z) (r : secp256k1_fe) : Prop := carried r /\ 0 <= n4 r < 281474976710656 + 8192 /\ exists k, S = fval r + k * prime.

(** The carries of a pass, from the sum of the low limb on. *)
Ltac carry_steps :=
  let t0 := fresh "t0" in let t1 := fresh "t1" in let t2 := fresh "t2" in let t3 := fresh "t3" in let t4 := fresh "t4" in
  let m0 := fresh "m0" in let m1 := fresh "m1" in let m2 := fresh "m2" in let m3 := fresh "m3" in
  let q0 := fresh "q0" in let q1 := fresh "q1" in let q2 := fresh "q2" in let q3 := fresh "q3" in
  sum_as t0; split_as t0 m0 q0; sum_as t1; let_var; split_as t1 m1 q1; sum_as t2; let_var; split_as t2 m2 q2; sum_as t3; let_var; split_as t3 m3 q3; sum_as t4; let_var.

Lemma first_pass_spec m a : 0 <= m <= 1024 -> magnitude m a -> first_pass_of (fval a) (fe_first_pass a).
Proof.
  intros Hm (A0 & A1 & A2 & A3 & A4). unfold M52, M48 in A0, A1, A2, A3, A4. cbv beta iota delta [fe_first_pass].
  destruct (split48 (n4 a)) as [E B]. set (x := Z.shiftr (n4 a) 48) in *. set (h := Z.land (n4 a) M48) in *. clearbody x h. do 2 let_var.
  carry_steps. split; [unfold carried; cbn [n0 n1 n2 n3]; lia |]. split; [cbn [n4]; lia |]. exists x. unfold fval, prime. cbn [n0 n1 n2 n3 n4]. lia.
Qed.

(** The masks of the comparison with the prime. *)
Lemma land_full a b : 0 <= a < X -> 0 <= b < X -> (Z.land a b =? M52) = (a =? M52) && (b =? M52).
Proof.
  intros Ha Hb. destruct (Z.eqb_spec (Z.land a b) M52) as [E | E].
  - assert (H : forall x y, 0 <= x < X -> Z.land x y = M52 -> x = M52).
    { intros x y Hx Exy. assert (Z.land x M52 = M52) by (rewrite <- Exy, Z.land_assoc, Z.land_diag; done). rewrite <- H. change M52 with (Z.ones 52). rewrite Z.land_ones by lia. symmetry. apply Z.mod_small. exact Hx. }
    rewrite (H a b Ha E), (H b a Hb ltac:(by rewrite Z.land_comm)). done.
  - destruct (Z.eqb_spec a M52) as [-> |]; [| done]. destruct (Z.eqb_spec b M52) as [-> |]; [| done]. exfalso. apply E. done.
Qed.

Lemma land_range a b : 0 <= a < X -> 0 <= Z.land a b < X.
Proof.
  intros Ha. assert (E : Z.land a b = Z.land b a) by apply Z.land_comm. assert (E' : Z.land a b = Z.land (Z.land a b) (Z.ones 52)).
  { rewrite <- Z.land_assoc, (Z.land_comm b), Z.land_assoc. f_equal. rewrite Z.land_ones by lia. symmetry. by apply Z.mod_small. }
  rewrite E', Z.land_ones by lia. apply Z.mod_pos_bound. lia.
Qed.

Lemma overflows_spec t : carried t -> 0 <= n4 t < 281474976710656 + 8192 -> fe_overflows t = Z.b2z (prime <=? fval t).
Proof.
  intros (H0 & H1 & H2 & H3) H4. unfold fe_overflows. rewrite !land_full by (try apply land_range; lia). rewrite Z.geb_leb. destruct (split48 (n4 t)) as [E B]. set (q := Z.shiftr (n4 t) 48) in *. set (l := Z.land (n4 t) M48) in *. clearbody q l.
  assert (Hq : q = 0 \/ q = 1) by lia. unfold prime, fval, M48, M52.
  repeat match goal with |- context [?x =? ?y] => destruct (Z.eqb_spec x y) | |- context [?x <=? ?y] => destruct (Z.leb_spec x y) end; destruct Hq as [-> | ->]; cbn; try reflexivity; exfalso; lia.
Qed.

Lemma final_pass_spec t x : carried t -> 0 <= n4 t < 281474976710656 + 8192 -> x = Z.b2z (prime <=? fval t) ->
  normalized (fe_final_pass t x) /\ fval (fe_final_pass t x) = fval t - x * prime.
Proof.
  intros (H0 & H1 & H2 & H3) H4 Hx. assert (Hx' : (x = 0 /\ fval t < prime) \/ (x = 1 /\ prime <= fval t)) by (subst x; destruct (Z.leb_spec prime (fval t)); cbn; lia). clear Hx.
  set (Q r := normalized r /\ fval r = fval t - x * prime). change (Q (fe_final_pass t x)). cbv beta iota delta [fe_final_pass].
  carry_steps. destruct (split48 t4) as [E48 B48]. set (h := Z.land t4 M48) in *. set (c := Z.shiftr t4 48) in *. clearbody h c. unfold Q, normalized, carried, fval, prime in *. cbn [n0 n1 n2 n3 n4]. assert (c = x) by lia. split_and!; lia.
Qed.

Lemma first_pass_value m a : 0 <= m <= 1024 -> magnitude m a ->
  let t := fe_first_pass a in carried t /\ 0 <= n4 t < 281474976710656 + 8192 /\ feq (fval t) (fval a) /\ 0 <= fval t < 2 * prime.
Proof.
  intros Hm Ha t. destruct (first_pass_spec m a Hm Ha) as (Hc & H4 & k & E). split; [done |]. split; [done |]. split; [symmetry; by apply (feq_add_multiple _ _ k) |].
  fold t in Hc, H4. destruct Hc as (H0 & H1 & H2 & H3). unfold fval, prime. lia.
Qed.

Lemma normalized_mod t x : 0 <= fval t < 2 * prime -> x = Z.b2z (prime <=? fval t) -> fval t - x * prime = fval t mod prime.
Proof.
  intros Ht ->. destruct (Z.leb_spec prime (fval t)) as [H | H]; cbn [Z.b2z].
  - apply (Z.mod_unique _ _ 1); [left; unfold prime in *; lia | lia].
  - rewrite Z.mod_small by lia. lia.
Qed.

Lemma normalize_spec m a : 0 <= m <= 1024 -> magnitude m a -> normalized (secp256k1_fe_normalize a) /\ fval (secp256k1_fe_normalize a) = fval a mod prime.
Proof.
  intros Hm Ha. destruct (first_pass_value m a Hm Ha) as (Hc & H4 & Hq & Hb). unfold secp256k1_fe_normalize. set (t := fe_first_pass a) in *. pose proof (overflows_spec t Hc H4) as Ho.
  destruct (final_pass_spec t _ Hc H4 Ho) as [Hn Hv]. split; [done |]. rewrite Hv, normalized_mod by done. exact Hq.
Qed.

Lemma normalize_var_eq m a : 0 <= m <= 1024 -> magnitude m a -> secp256k1_fe_normalize_var a = secp256k1_fe_normalize a.
Proof.
  intros Hm Ha. destruct (first_pass_value m a Hm Ha) as (Hc & H4 & Hq & Hb). unfold secp256k1_fe_normalize, secp256k1_fe_normalize_var. set (t := fe_first_pass a) in *. pose proof (overflows_spec t Hc H4) as Ho. rewrite Ho.
  destruct (Z.leb_spec prime (fval t)) as [H | H]; cbn [Z.b2z Z.eqb negb]; [done |].
  destruct (final_pass_spec t 0 Hc H4) as [[(N0 & N1 & N2 & N3) [N4 Hlt]] Hv]; [by rewrite (proj2 (Z.leb_gt _ _)) |]. set (r := fe_final_pass t 0) in *. clearbody r t. destruct r as [x0 x1 x2 x3 x4], t as [y0 y1 y2 y3 y4], Hc as (C0 & C1 & C2 & C3). unfold fval in Hv. cbn [n0 n1 n2 n3 n4] in *. f_equal; lia.
Qed.

Lemma weak_spec m a : 0 <= m <= 1024 -> magnitude m a -> magnitude 1 (secp256k1_fe_normalize_weak a) /\ feq (fval (secp256k1_fe_normalize_weak a)) (fval a).
Proof.
  intros Hm Ha. destruct (first_pass_value m a Hm Ha) as ((H0 & H1 & H2 & H3) & H4 & Hq & _). split; [| exact Hq]. unfold secp256k1_fe_normalize_weak, magnitude, M52, M48. lia.
Qed.

(** The two raw values of zero. *)
Lemma zero_test t : carried t -> 0 <= n4 t < 281474976710656 + 8192 ->
  (Z.lor (Z.lor (Z.lor (Z.lor (n0 t) (n1 t)) (n2 t)) (n3 t)) (n4 t) =? 0) = (fval t =? 0).
Proof.
  intros (H0 & H1 & H2 & H3) H4. apply Bool.eq_iff_eq_true. rewrite !Z.eqb_eq, !Z.lor_eq_0_iff. unfold fval. lia.
Qed.

Lemma lxor_full a c : 0 <= a < X -> 0 <= c < X -> 0 <= Z.lxor a c < X /\ (Z.lxor a c =? M52) = (a =? Z.lxor M52 c).
Proof.
  intros Ha Hc. split; [exact (lxor_bound a c 52 ltac:(lia) Ha Hc) |]. apply Bool.eq_iff_eq_true. rewrite !Z.eqb_eq. split; intros H.
  - by rewrite <- H, Z.lxor_assoc, (Z.lxor_nilpotent c), Z.lxor_0_r.
  - by rewrite H, Z.lxor_assoc, (Z.lxor_nilpotent c), Z.lxor_0_r.
Qed.

Lemma prime_test t : carried t -> 0 <= n4 t < 281474976710656 + 8192 ->
  (Z.land (Z.land (Z.land (Z.land (Z.lxor (n0 t) 0x1000003D0) (n1 t)) (n2 t)) (n3 t)) (Z.lxor (n4 t) 0xF000000000000) =? M52) = (fval t =? prime).
Proof.
  intros (H0 & H1 & H2 & H3) H4. destruct (lxor_full (n0 t) 0x1000003D0 H0 ltac:(lia)) as [R0 E0]. destruct (lxor_full (n4 t) 0xF000000000000 ltac:(lia) ltac:(lia)) as [R4 E4].
  rewrite !land_full by (repeat apply land_range; lia). rewrite E0, E4. change (Z.lxor M52 0x1000003D0) with 0xFFFFEFFFFFC2F. change (Z.lxor M52 0xF000000000000) with M48.
  apply Bool.eq_iff_eq_true. rewrite !andb_true_iff, !Z.eqb_eq. unfold fval, prime, M52, M48. lia.
Qed.

Lemma normalizes_to_zero_spec m a : 0 <= m <= 1024 -> magnitude m a -> secp256k1_fe_normalizes_to_zero a = (fval a mod prime =? 0).
Proof.
  intros Hm Ha. destruct (first_pass_value m a Hm Ha) as (Hc & H4 & Hq & Hb). unfold secp256k1_fe_normalizes_to_zero. rewrite zero_test, prime_test by done. set (t := fe_first_pass a) in *.
  rewrite <- Hq, <- (normalized_mod t _ Hb eq_refl). apply Bool.eq_iff_eq_true. rewrite orb_true_iff, !Z.eqb_eq. destruct (Z.leb_spec prime (fval t)); cbn [Z.b2z]; unfold prime in *; lia.
Qed.

(** The early return leaves out only values that are not zero. *)
Lemma normalizes_to_zero_var_eq m a : 0 <= m <= 1024 -> magnitude m a -> secp256k1_fe_normalizes_to_zero_var a = secp256k1_fe_normalizes_to_zero a.
Proof.
  intros Hm Ha. unfold secp256k1_fe_normalizes_to_zero_var. cbv zeta. 
  set (t0 := uint64 (n0 a + uint64 (Z.shiftr (n4 a) 48 * 0x1000003D1))). assert (E0 : Z.land t0 M52 = n0 (fe_first_pass a)) by reflexivity.
  destruct (negb (Z.land t0 M52 =? 0) && negb (Z.lxor (Z.land t0 M52) 0x1000003D0 =? M52)) eqn:Eb; [| reflexivity].
  apply andb_prop in Eb as [Ez Ep]. rewrite E0 in Ez, Ep. destruct (first_pass_value m a Hm Ha) as (Hc & H4 & _ & _). unfold secp256k1_fe_normalizes_to_zero. cbv zeta. symmetry. set (t := fe_first_pass a) in *. clearbody t. clear E0. apply orb_false_iff. split.
  - apply Z.eqb_neq. rewrite !Z.lor_eq_0_iff. intros ((((H & _) & _) & _) & _). by rewrite H in Ez.
  - destruct Hc as (H0 & H1 & H2 & H3). destruct (lxor_full (n0 t) 0x1000003D0 H0 ltac:(lia)) as [R0 _]. destruct (lxor_full (n4 t) 0xF000000000000 ltac:(lia) ltac:(lia)) as [R4 _].
    rewrite !land_full by (repeat apply land_range; lia). apply negb_true_iff in Ep. by rewrite Ep.
Qed.

(** ** Sums and multiples *)

Lemma add_limbs m m' a b : 0 <= m -> 0 <= m' -> m + m' <= 2048 -> magnitude m a -> magnitude m' b ->
  magnitude (m + m') (secp256k1_fe_add a b) /\ fval (secp256k1_fe_add a b) = fval a + fval b.
Proof.
  intros Hm Hm' Hs (A0 & A1 & A2 & A3 & A4) (B0 & B1 & B2 & B3 & B4). unfold secp256k1_fe_add, magnitude, fval, M52, M48 in *. cbn [n0 n1 n2 n3 n4]. rewrite !uint64_id by lia. lia.
Qed.

Lemma negate_limbs m a : 0 <= m <= 1023 -> magnitude m a -> magnitude (m + 1) (secp256k1_fe_negate a m) /\ fval (secp256k1_fe_negate a m) = 2 * (m + 1) * prime - fval a.
Proof.
  intros Hm (A0 & A1 & A2 & A3 & A4). unfold secp256k1_fe_negate, magnitude, fval, prime, M52, M48 in *. cbn [n0 n1 n2 n3 n4]. rewrite !uint64_id by lia. lia.
Qed.

Lemma mul_int_limbs m a k : 0 <= m -> 0 <= k -> m * k <= 2048 -> magnitude m a -> magnitude (m * k) (secp256k1_fe_mul_int a k) /\ fval (secp256k1_fe_mul_int a k) = k * fval a.
Proof.
  intros Hm Hk Hmk (A0 & A1 & A2 & A3 & A4). assert (Hx : forall x B, 0 <= x <= B * 2 * m -> 0 <= x * k <= B * 2 * (m * k)) by (intros x B Hx; nia). apply (Hx _ M52) in A0 as A0', A1 as A1', A2 as A2', A3 as A3'. apply (Hx _ M48) in A4 as A4'.
  unfold secp256k1_fe_mul_int, magnitude, fval, M52, M48 in *. cbn [n0 n1 n2 n3 n4]. rewrite !uint64_id by lia. split; [lia | ring].
Qed.
