(* ===== verification/FieldSpec.v ===== *)
(** * Field elements: bytes, storage, comparisons, roots and inverses

    The encodings of normalized elements and the powers that the addition chains of the
    inverse and the square root compute. *)

From S2P Require Import Prelude Primality Scalar ScalarProps Field FieldProps.
From Stdlib Require ZmodInv.

Open Scope Z_scope.

(** ** Bytes *)

Lemma or_shift_add x y s : 0 <= s < 64 -> 0 <= x < 2 ^ s -> 0 <= y < 2 ^ (64 - s) -> or_shift x y s = x + y * 2 ^ s.
Proof.
  intros Hs Hx Hy. unfold or_shift. assert (E : uint64 (Z.shiftl y s) = Z.shiftl y s).
  { apply uint64_id. rewrite Z.shiftl_mul_pow2 by lia. replace (2 ^ 64) with (2 ^ (64 - s) * 2 ^ s) by (rewrite <- Z.pow_add_r by lia; f_equal; lia). pose proof (Z.pow_pos_nonneg 2 s ltac:(lia) ltac:(lia)). nia. }
  rewrite E. apply lor_shiftl_add; lia.
Qed.

Lemma nibbles b : is_byte b -> b = Z.land b 0xF + 16 * Z.land (Z.shiftr b 4) 0xF /\ 0 <= Z.land b 0xF < 16 /\ 0 <= Z.land (Z.shiftr b 4) 0xF < 16.
Proof.
  intros Hb. unfold is_byte in Hb. change 0xF with (2 ^ 4 - 1). rewrite !land_mask, Z.shiftr_div_pow2 by lia. change (2 ^ 4) with 16. Z.to_euclidean_division_equations; lia.
Qed.

Ltac or_shifts := repeat match goal with |- context [or_shift ?x ?y ?s] => lazymatch x with context [or_shift _ _ _] => fail | _ => rewrite (or_shift_add x y s) by lia end end.

Lemma limb_low a b c d e f g : is_byte a -> is_byte b -> is_byte c -> is_byte d -> is_byte e -> is_byte f -> 0 <= g < 16 ->
  or_shift (or_shift (or_shift (or_shift (or_shift (or_shift a b 8) c 16) d 24) e 32) f 40) g 48 = a + 2 ^ 8 * b + 2 ^ 16 * c + 2 ^ 24 * d + 2 ^ 32 * e + 2 ^ 40 * f + 2 ^ 48 * g.
Proof. unfold is_byte. intros. or_shifts. lia. Qed.

Lemma limb_high a b c d e f g : 0 <= a < 16 -> is_byte b -> is_byte c -> is_byte d -> is_byte e -> is_byte f -> is_byte g ->
  or_shift (or_shift (or_shift (or_shift (or_shift (or_shift a b 4) c 12) d 20) e 28) f 36) g 44 = a + 2 ^ 4 * b + 2 ^ 12 * c + 2 ^ 20 * d + 2 ^ 28 * e + 2 ^ 36 * f + 2 ^ 44 * g.
Proof. unfold is_byte. intros. or_shifts. lia. Qed.

Lemma limb_top a b c d e f : is_byte a -> is_byte b -> is_byte c -> is_byte d -> is_byte e -> is_byte f ->
  or_shift (or_shift (or_shift (or_shift (or_shift a b 8) c 16) d 24) e 32) f 40 = a + 2 ^ 8 * b + 2 ^ 16 * c + 2 ^ 24 * d + 2 ^ 32 * e + 2 ^ 40 * f.
Proof. unfold is_byte. intros. or_shifts. lia. Qed.

(** The test of the bytes is the one of the normalization. *)
Lemma below_prime r : carried r -> 0 <= n4 r < 281474976710656 ->
  negb ((n4 r =? M48) && (Z.land (Z.land (n3 r) (n2 r)) (n1 r) =? M52) && (n0 r >=? 0xFFFFEFFFFFC2F)) = (fval r <? prime).
Proof.
  intros (H0 & H1 & H2 & H3) H4. rewrite !land_full by (try apply land_range; lia). rewrite Z.geb_leb. unfold prime, fval, M48, M52.
  repeat match goal with |- context [?x =? ?y] => destruct (Z.eqb_spec x y) | |- context [?x <=? ?y] => destruct (Z.leb_spec x y) | |- context [?x <? ?y] => destruct (Z.ltb_spec x y) end; cbn; try reflexivity; exfalso; lia.
Qed.

Lemma set_b32_limbs b : bytes_ok b -> length b = 32%nat ->
  let '(r, ok) := secp256k1_fe_set_b32 b in carried r /\ 0 <= n4 r < 281474976710656 /\ fval r = be_decode b /\ ok = (be_decode b <? prime).
Proof.
  intros Hb Hl. do 32 (destruct b as [| ? b]; [discriminate |]). destruct b; [| discriminate]. clear Hl.
  unfold bytes_ok in Hb. repeat match goal with H : Forall is_byte (_ :: _) |- _ => apply Forall_cons_1 in H as [? H] end. clear Hb.
  assert (Hr : forall r v, carried r /\ 0 <= n4 r < 281474976710656 /\ fval r = v ->
    let '(r, ok) := (r, negb ((n4 r =? M48) && (Z.land (Z.land (n3 r) (n2 r)) (n1 r) =? M52) && (n0 r >=? 0xFFFFEFFFFFC2F))) in carried r /\ 0 <= n4 r < 281474976710656 /\ fval r = v /\ ok = (v <? prime)).
  { intros r v (Hc & Hn4 & E). split; [done |]. split; [done |]. split; [done |]. rewrite <- E. by apply below_prime. }
  refine (Hr (Fe _ _ _ _ _) _ _). clear Hr. cbv [byte_at lookup list_lookup default Z.to_nat Pos.to_nat Pos.iter_op Nat.add id].
  destruct (nibbles z24 ltac:(assumption)) as (E24 & L24 & U24). destruct (nibbles z11 ltac:(assumption)) as (E11 & L11 & U11). set (l24 := Z.land z24 15) in *. set (u24 := Z.land (Z.shiftr z24 4) 15) in *. set (l11 := Z.land z11 15) in *. set (u11 := Z.land (Z.shiftr z11 4) 15) in *. clearbody l24 u24 l11 u11.
  rewrite !limb_low, !limb_high, limb_top by assumption. unfold carried, fval, be_decode, is_byte in *. cbn [n0 n1 n2 n3 n4 reverse rev_append le_decode]. lia.
Qed.

Lemma byte_of_spec x s : 0 <= s -> byte_of x s = x / 2 ^ s mod 256.
Proof. intros Hs. unfold byte_of. change 0xFF with (2 ^ 8 - 1). by rewrite land_mask, Z.shiftr_div_pow2 by lia. Qed.

Lemma byte_of_byte x s : 0 <= s -> is_byte (byte_of x s).
Proof. intros Hs. rewrite byte_of_spec by done. unfold is_byte. pose proof (Z.mod_pos_bound (x / 2 ^ s) 256). lia. Qed.

(** The bytes of a limb from a bit on. *)
Lemma byte_of_step x s s' : 0 <= s -> s' = s + 8 -> x / 2 ^ s = byte_of x s + 256 * (x / 2 ^ s').
Proof. intros Hs ->. rewrite byte_of_spec, Z.pow_add_r, <- Z.div_div by lia. change (2 ^ 8) with 256. pose proof (Z.div_mod (x / 2 ^ s) 256). lia. Qed.

Lemma low_nibble x : Z.land x 0xF = x mod 16.
Proof. exact (land_mask x 4 ltac:(lia)). Qed.

Lemma bytes_low n : 0 <= n < X -> 0 <= Z.land (Z.shiftr n 48) 0xF < 16 /\
  n = byte_of n 0 + 2 ^ 8 * byte_of n 8 + 2 ^ 16 * byte_of n 16 + 2 ^ 24 * byte_of n 24 + 2 ^ 32 * byte_of n 32 + 2 ^ 40 * byte_of n 40 + 2 ^ 48 * Z.land (Z.shiftr n 48) 0xF.
Proof.
  intros Hn. rewrite low_nibble, Z.shiftr_div_pow2 by lia. pose proof (byte_of_step n 0 8 ltac:(lia) eq_refl). pose proof (byte_of_step n 8 16 ltac:(lia) eq_refl). pose proof (byte_of_step n 16 24 ltac:(lia) eq_refl). pose proof (byte_of_step n 24 32 ltac:(lia) eq_refl).
  pose proof (byte_of_step n 32 40 ltac:(lia) eq_refl). pose proof (byte_of_step n 40 48 ltac:(lia) eq_refl). assert (Hq : 0 <= n / 2 ^ 48 < 16) by (split; [apply Z.div_pos | apply Z.div_lt_upper_bound]; lia). rewrite (Z.mod_small (n / 2 ^ 48)) by done. change (2 ^ 0) with 1 in *. rewrite Z.div_1_r in *. lia.
Qed.

Lemma bytes_high n : 0 <= n < X -> 0 <= Z.land n 0xF < 16 /\
  n = Z.land n 0xF + 2 ^ 4 * byte_of n 4 + 2 ^ 12 * byte_of n 12 + 2 ^ 20 * byte_of n 20 + 2 ^ 28 * byte_of n 28 + 2 ^ 36 * byte_of n 36 + 2 ^ 44 * byte_of n 44.
Proof.
  intros Hn. rewrite low_nibble. pose proof (byte_of_step n 4 12 ltac:(lia) eq_refl). pose proof (byte_of_step n 12 20 ltac:(lia) eq_refl). pose proof (byte_of_step n 20 28 ltac:(lia) eq_refl).
  pose proof (byte_of_step n 28 36 ltac:(lia) eq_refl). pose proof (byte_of_step n 36 44 ltac:(lia) eq_refl). pose proof (byte_of_step n 44 52 ltac:(lia) eq_refl). assert (Hq : n / 2 ^ 52 = 0) by (apply Z.div_small; done). rewrite Hq in *.
  change (2 ^ 4) with 16 in *. pose proof (Z.div_mod n 16 ltac:(lia)). pose proof (Z.mod_pos_bound n 16 ltac:(lia)). lia.
Qed.

Lemma bytes_top n : 0 <= n < 281474976710656 -> n = byte_of n 0 + 2 ^ 8 * byte_of n 8 + 2 ^ 16 * byte_of n 16 + 2 ^ 24 * byte_of n 24 + 2 ^ 32 * byte_of n 32 + 2 ^ 40 * byte_of n 40.
Proof. intros Hn. destruct (bytes_low n ltac:(lia)) as [H E]. rewrite low_nibble, Z.shiftr_div_pow2, (Z.div_small n) in E by lia. rewrite E at 1. rewrite Z.mod_0_l; lia. Qed.

Lemma get_b32_normalized a : normalized a -> secp256k1_fe_get_b32 a = be_encode 32 (fval a).
Proof.
  intros ((H0 & H1 & H2 & H3) & H4 & _). assert (Hd : bytes_ok (secp256k1_fe_get_b32 a) /\ be_decode (secp256k1_fe_get_b32 a) = fval a).
  2: { destruct Hd as [Hok <-]. unfold be_encode, be_decode. change 32%nat with (length (secp256k1_fe_get_b32 a)). rewrite <- (length_reverse (secp256k1_fe_get_b32 a)), le_encode_decode, reverse_involutive; [done | by apply Forall_reverse]. }
  destruct (bytes_low _ H0) as [R0 E0], (bytes_high _ H1) as [R1 E1], (bytes_low _ H2) as [R2 E2], (bytes_high _ H3) as [R3 E3]. pose proof (bytes_top _ H4) as E4. unfold secp256k1_fe_get_b32. rewrite !lor_shiftl_add by lia. split.
  - unfold bytes_ok. repeat (apply Forall_cons_2; [lazymatch goal with |- is_byte (byte_of _ _) => apply byte_of_byte; done | _ => unfold is_byte; lia end |]). constructor.
  - unfold fval. unfold be_decode. cbn [reverse rev_append le_decode]. lia.
Qed.

(** The bytes of a normalized element are read back. *)
Lemma b32_roundtrip a : normalized a -> secp256k1_fe_set_b32 (secp256k1_fe_get_b32 a) = (a, true).
Proof.
  intros Ha. rewrite get_b32_normalized by done. pose proof (set_b32_limbs (be_encode 32 (fval a)) (be_encode_ok _ _) (length_be_encode _ _)) as H. destruct (secp256k1_fe_set_b32 _) as [r ok]. destruct H as ((R0 & R1 & R2 & R3) & R4 & Hv & ->).
  destruct Ha as ((H0 & H1 & H2 & H3) & H4 & Hlt). assert (Hnn : 0 <= fval a < prime) by (split; [unfold fval; lia | done]). rewrite be_decode_encode, (Z.mod_small (fval a)) in * by (unfold prime in *; lia). rewrite (proj2 (Z.ltb_lt _ _)) by lia. f_equal.
  destruct a as [x0 x1 x2 x3 x4], r as [y0 y1 y2 y3 y4]. unfold fval in Hv. cbn [n0 n1 n2 n3 n4] in *. f_equal; lia.
Qed.

(** ** Storage *)

(** A shift out of a word keeps the low bits. *)
Lemma shiftl_wrap y s w : 0 <= s <= w -> Z.shiftl y s mod 2 ^ w = Z.shiftl (y mod 2 ^ (w - s)) s.
Proof.
  intros Hs. rewrite !Z.shiftl_mul_pow2 by lia. replace (2 ^ w) with (2 ^ (w - s) * 2 ^ s) by (rewrite <- Z.pow_add_r by lia; f_equal; lia). apply Z.mul_mod_distr_r; apply Z.pow_nonzero; lia.
Qed.

Lemma or_shift_wrap x y s : 0 <= s < 64 -> 0 <= x < 2 ^ s -> or_shift x y s = x + (y mod 2 ^ (64 - s)) * 2 ^ s.
Proof. intros Hs Hx. unfold or_shift, uint64. rewrite shiftl_wrap by lia. apply lor_shiftl_add; lia. Qed.

Lemma or_masked x y s : 0 <= s <= 52 -> 0 <= x < 2 ^ s -> Z.lor x (Z.land (uint64 (Z.shiftl y s)) M52) = x + (y mod 2 ^ (52 - s)) * 2 ^ s.
Proof.
  intros Hs Hx. change M52 with (Z.ones 52). rewrite Z.land_ones by lia. unfold uint64. rewrite Z.mod_mod_divide by (exists (2 ^ 12); done). rewrite shiftl_wrap by lia. apply lor_shiftl_add; lia.
Qed.

(** A limb cut in two parts. *)
Lemma cut_limb n s t : 0 <= s -> 0 <= t -> 0 <= n < 2 ^ (s + t) -> n = n mod 2 ^ s + n / 2 ^ s * 2 ^ s /\ 0 <= n mod 2 ^ s < 2 ^ s /\ 0 <= n / 2 ^ s < 2 ^ t.
Proof.
  intros Hs Ht Hn. pose proof (Z.pow_pos_nonneg 2 s ltac:(lia) Hs). pose proof (Z.div_mod n (2 ^ s) ltac:(lia)). pose proof (Z.mod_pos_bound n (2 ^ s) ltac:(lia)). split; [lia |]. split; [done |]. split; [apply Z.div_pos; lia | apply Z.div_lt_upper_bound; [lia |]; rewrite <- Z.pow_add_r by lia; lia].
Qed.

(** A word joined from two parts is cut again. *)
Lemma join_cut x y s : 0 <= s -> 0 <= x < 2 ^ s -> (x + y * 2 ^ s) / 2 ^ s = y /\ (x + y * 2 ^ s) mod 2 ^ s = x.
Proof. intros Hs Hx. pose proof (Z.pow_pos_nonneg 2 s ltac:(lia) Hs). rewrite Z.div_add, Z.div_small, Z.mod_add, Z.mod_small by lia. lia. Qed.

Lemma storage_roundtrip a : carried a -> 0 <= n4 a < 281474976710656 -> secp256k1_fe_from_storage (secp256k1_fe_to_storage a) = a.
Proof.
  intros (H0 & H1 & H2 & H3) H4. destruct a as [x0 x1 x2 x3 x4]. unfold secp256k1_fe_to_storage, secp256k1_fe_from_storage. cbn [s0 s1 s2 s3 n0 n1 n2 n3 n4] in *. rewrite !Z.shiftr_div_pow2 by lia.
  destruct (cut_limb x1 12 40 ltac:(lia) ltac:(lia) H1) as (E1 & L1 & U1), (cut_limb x2 24 28 ltac:(lia) ltac:(lia) H2) as (E2 & L2 & U2), (cut_limb x3 36 16 ltac:(lia) ltac:(lia) H3) as (E3 & L3 & U3).
  rewrite (or_shift_wrap x0 x1 52), (or_shift_wrap (x1 / 2 ^ 12) x2 40), (or_shift_wrap (x2 / 2 ^ 24) x3 28), (or_shift_wrap (x3 / 2 ^ 36) x4 16) by lia. cbn [Z.sub Z.opp Z.add Z.pos_sub Pos.pred_double Z.pred_double Z.succ_double Z.double].
  change (64 - 52) with 12. change (64 - 40) with 24. change (64 - 28) with 36. change (64 - 16) with 48. rewrite (Z.mod_small x4) by lia.
  destruct (join_cut x0 (x1 mod 2 ^ 12) 52 ltac:(lia) H0) as [D0 M0], (join_cut _ (x2 mod 2 ^ 24) 40 ltac:(lia) U1) as [D1 M1], (join_cut _ (x3 mod 2 ^ 36) 28 ltac:(lia) U2) as [D2 M2], (join_cut _ x4 16 ltac:(lia) U3) as [D3 M3].
  rewrite D0, D1, D2, D3. rewrite !or_masked by lia. change (52 - 12) with 40. change (52 - 24) with 28. change (52 - 36) with 16. rewrite M1, M2, M3. change M52 with (2 ^ 52 - 1). rewrite land_mask, M0 by lia. f_equal; lia.
Qed.

(** ** Comparisons *)

Definition compare_sign (x y : Z) : Z := if x >? y then 1 else if x <? y then -1 else 0.

Lemma cmp_var_spec a b : normalized a -> normalized b -> secp256k1_fe_cmp_var a b = compare_sign (fval a) (fval b).
Proof.
  intros ((A0 & A1 & A2 & A3) & A4 & _) ((B0 & B1 & B2 & B3) & B4 & _). unfold secp256k1_fe_cmp_var, compare_sign, fval. cbn [limbs_cmp]. rewrite !Z.gtb_ltb.
  repeat match goal with |- context [?x <? ?y] => destruct (Z.ltb_spec x y) end; try reflexivity; exfalso; lia.
Qed.

Lemma is_odd_spec a : secp256k1_fe_is_odd a = Z.odd (fval a).
Proof.
  unfold secp256k1_fe_is_odd, fval. change 1 with (2 ^ 1 - 1) at 1. rewrite land_mask by lia. change (2 ^ 1) with 2. rewrite Zmod_odd, Z.odd_add_mul_even by (by exists 2251799813685248). by destruct (Z.odd (n0 a)).
Qed.

Lemma equal_spec m a b : 0 <= m <= 1000 -> magnitude 1 a -> magnitude m b ->
  secp256k1_fe_equal a b = (fval a mod prime =? fval b mod prime) /\ secp256k1_fe_equal_var a b = secp256k1_fe_equal a b.
Proof.
  intros Hm Ha Hb. destruct (negate_limbs 1 a ltac:(lia) Ha) as [Hn En]. destruct (add_limbs (1 + 1) m _ b ltac:(lia) ltac:(lia) ltac:(lia) Hn Hb) as [Hs Es]. unfold secp256k1_fe_equal, secp256k1_fe_equal_var.
  split; [| by apply (normalizes_to_zero_var_eq (1 + 1 + m)); [lia |]]. rewrite (normalizes_to_zero_spec (1 + 1 + m)) by (done || lia). rewrite Es, En. apply Bool.eq_iff_eq_true. rewrite !Z.eqb_eq.
  replace (2 * (1 + 1) * prime - fval a + fval b) with (fval b - fval a + 4 * prime) by lia. rewrite Z.mod_add by done. rewrite <- Z.cong_iff_0. split; by intros ->.
Qed.

(** ** Conditional moves *)

Lemma cmov64_spec r a flag : limb r -> limb a -> cmov64 r a (Z.b2z flag) = if flag then a else r.
Proof.
  intros Hr Ha. unfold cmov64. destruct flag; cbn [Z.b2z].
  - change (uint64 (1 + not64 0)) with 0. change (not64 0) with MASK64. rewrite Z.land_0_r, Z.lor_0_l, land_MASK64. by apply Z.mod_small.
  - change (uint64 (0 + not64 0)) with MASK64. change (not64 MASK64) with 0. rewrite Z.land_0_r, Z.lor_0_r, land_MASK64. by apply Z.mod_small.
Qed.

Lemma cmov_spec m r a flag : 0 <= m <= 2048 -> magnitude m r -> magnitude m a -> secp256k1_fe_cmov r a (Z.b2z flag) = if flag then a else r.
Proof.
  intros Hm (R0 & R1 & R2 & R3 & R4) (A0 & A1 & A2 & A3 & A4). unfold secp256k1_fe_cmov. rewrite !cmov64_spec by (unfold limb, M52, M48 in *; lia). destruct r, a. by destruct flag.
Qed.

Lemma storage_cmov_spec r a flag : Forall limb [s0 r; s1 r; s2 r; s3 r] -> Forall limb [s0 a; s1 a; s2 a; s3 a] -> secp256k1_fe_storage_cmov r a (Z.b2z flag) = if flag then a else r.
Proof.
  intros Hr Ha. repeat match goal with H : Forall limb (_ :: _) |- _ => apply Forall_cons_1 in H as [? H] end. unfold secp256k1_fe_storage_cmov. rewrite !cmov64_spec by assumption. destruct r, a. by destruct flag.
Qed.

(** ** Powers *)

Lemma magnitude_mono m m' a : m <= m' -> magnitude m a -> magnitude m' a.
Proof. intros Hm (H0 & H1 & H2 & H3 & H4). unfold magnitude, M52, M48 in *. lia. Qed.

Lemma fe_mul_spec a b : magnitude 8 a -> magnitude 8 b -> magnitude 1 (secp256k1_fe_mul a b) /\ feq (fval (secp256k1_fe_mul a b)) (fval a * fval b).
Proof. intros Ha Hb. destruct (mul_inner_spec a b Ha Hb) as (Hr & k & E). split; [done |]. symmetry. by apply (feq_add_multiple _ _ k). Qed.

Lemma fe_sqr_spec a : magnitude 8 a -> magnitude 1 (secp256k1_fe_sqr a) /\ feq (fval (secp256k1_fe_sqr a)) (fval a * fval a).
Proof. intros Ha. destruct (sqr_inner_spec a Ha) as (Hr & k & E). split; [done |]. symmetry. by apply (feq_add_multiple _ _ k). Qed.

(** An element that is a power of [x]. *)
Definition fe_power (x e : Z) (s : secp256k1_fe) : Prop := 0 <= e /\ magnitude 8 s /\ feq (fval s) (x ^ e).

Section Power.
Context (x : Z).

Lemma fe_power_mul e f s t : fe_power x e s -> fe_power x f t -> fe_power x (e + f) (secp256k1_fe_mul s t).
Proof.
  intros (He & Hs & Es) (Hf & Ht & Et). destruct (fe_mul_spec s t Hs Ht) as [Hr Er]. split; [lia |]. split; [by apply (magnitude_mono 1); [lia |] |]. rewrite Z.pow_add_r by done. by rewrite Er, Es, Et.
Qed.

Lemma fe_power_sqr e s : fe_power x e s -> fe_power x (2 * e) (secp256k1_fe_sqr s).
Proof.
  intros (He & Hs & Es). destruct (fe_sqr_spec s Hs) as [Hr Er]. split; [lia |]. split; [by apply (magnitude_mono 1); [lia |] |]. replace (2 * e) with (e + e) by lia. rewrite Z.pow_add_r by done. by rewrite Er, Es.
Qed.

Lemma fe_power_sqr_n n e s : fe_power x e s -> fe_power x (2 ^ Z.of_nat n * e) (fe_sqr_n n s).
Proof.
  intros Hs. induction n as [| n IH]; [by rewrite Z.mul_1_l |]. change (fe_sqr_n (S n) s) with (secp256k1_fe_sqr (fe_sqr_n n s)). rewrite Nat2Z.inj_succ, Z.pow_succ_r, <- Z.mul_assoc by lia. by apply fe_power_sqr.
Qed.
End Power.

Ltac fe_power_term := lazymatch goal with
  | |- fe_power _ _ (secp256k1_fe_mul _ _) => eapply fe_power_mul; fe_power_term
  | |- fe_power _ _ (secp256k1_fe_sqr _) => eapply fe_power_sqr; fe_power_term
  | |- fe_power _ _ (fe_sqr_n _ _) => eapply fe_power_sqr_n; fe_power_term
  | _ => eassumption
  end.

Lemma fe_power_let {B} (Q : B -> Prop) x e s (f : secp256k1_fe -> B) : fe_power x e s -> (forall y, fe_power x e y -> Q (f y)) -> Q (let y := s in f y).
Proof. intros Hs H. by apply H. Qed.

(** The exponent of a chain in closed form. *)
Lemma fe_power_exponent x e e' s : fe_power x e s -> e = e' -> fe_power x e' s.
Proof. by intros H <-. Qed.

(** The next element of a chain, as a power of [v] with a closed exponent. *)
Ltac chain_step v :=
  lazymatch goal with |- ?Q (let y := ?s in @?f y) => refine (fe_power_let Q v _ s f _ _); [fe_power_term | cbv beta] end;
  let y := fresh "y" in let H := fresh "H" in intros y H;
  match type of H with fe_power _ ?e _ => let e' := eval vm_compute in e in change e with e' in H end.

Lemma fe_power_1 a : magnitude 8 a -> fe_power (fval a) 1 a.
Proof. intros Ha. split; [lia |]. split; [done |]. by rewrite Z.pow_1_r. Qed.

Definition blocks_of (v : Z) (t : secp256k1_fe * secp256k1_fe * secp256k1_fe) : Prop :=
  fe_power v 3 t.1.1 /\ fe_power v (2 ^ 22 - 1) t.1.2 /\ fe_power v (2 ^ 223 - 1) t.2.

Lemma blocks_spec a : magnitude 8 a -> blocks_of (fval a) (fe_blocks a).
Proof.
  intros Ha. pose proof (fe_power_1 a Ha) as P1. set (v := fval a) in *. clearbody v. cbv delta [fe_blocks] beta.
  match goal with |- ?Q (let m := _ in @?f m) => change (Q (f secp256k1_fe_mul)); cbv beta end. repeat chain_step v. split; [| split]; (eapply fe_power_exponent; [eassumption |]; vm_compute; reflexivity).
Qed.

Lemma inv_spec a : magnitude 8 a -> magnitude 1 (secp256k1_fe_inv a) /\ fe_power (fval a) (prime - 2) (secp256k1_fe_inv a).
Proof.
  intros Ha. pose proof (blocks_spec a Ha) as Hb. pose proof (fe_power_1 a Ha) as P1. cbv delta [secp256k1_fe_inv] beta. destruct (fe_blocks a) as [[x2 x22] x223]. destruct Hb as (B2 & B22 & B223). cbn [fst snd] in B2, B22, B223. cbv iota.
  set (Q r := magnitude 1 r /\ fe_power (fval a) (prime - 2) r). match goal with |- ?G => lazymatch G with magnitude 1 ?r /\ _ => change (Q r) end end. set (v := fval a) in *.
  chain_step v. chain_step v. chain_step v. split.
  - apply fe_mul_spec; [done |]. match goal with H : fe_power _ _ ?y |- magnitude 8 (fe_sqr_n 2 ?y) => destruct (fe_power_sqr_n v 2 _ _ H) as (_ & ? & _); assumption end.
  - eapply fe_power_exponent; [fe_power_term |]. vm_compute. reflexivity.
Qed.

#[local] Opaque prime.

Lemma sqrt_spec a : magnitude 8 a -> let '(r, ok) := secp256k1_fe_sqrt a in
  magnitude 1 r /\ fe_power (fval a) ((prime + 1) / 4) r /\ ok = (fval r * fval r mod prime =? fval a mod prime).
Proof.
  intros Ha. pose proof (blocks_spec a Ha) as Hb. cbv delta [secp256k1_fe_sqrt] beta. destruct (fe_blocks a) as [[x2 x22] x223]. destruct Hb as (B2 & B22 & B223). cbn [fst snd] in B2, B22, B223. cbv iota.
  set (Q (t : secp256k1_fe * bool) := let '(r, ok) := t in magnitude 1 r /\ fe_power (fval a) ((prime + 1) / 4) r /\ ok = (fval r * fval r mod prime =? fval a mod prime)).
  match goal with |- match ?t with _ => _ end => change (Q t) end. set (v := fval a) in *. chain_step v. chain_step v.
  match goal with |- ?Q (let r := ?s in @?f r) => change (Q (f s)); cbv beta end. match goal with H : fe_power _ _ ?y |- context [secp256k1_fe_sqr ?y] => rename H into Hy; set (t := y) in *; clearbody t end.
  pose proof (fe_power_sqr v _ _ Hy) as Hs. pose proof (fe_power_sqr v _ _ Hs) as Hr. destruct (fe_sqr_spec _ (proj1 (proj2 Hs))) as [Mr _]. set (r := secp256k1_fe_sqr (secp256k1_fe_sqr t)) in *. clearbody r.
  destruct (fe_sqr_spec r (proj1 (proj2 Hr))) as [Mq Eq]. split; [done |]. split; [eapply fe_power_exponent; [exact Hr |]; vm_compute; reflexivity |].
  rewrite (proj1 (equal_spec 8 _ a ltac:(lia) Mq Ha)). unfold feq in Eq. by rewrite Eq.
Qed.

Lemma feq_fermat x : feq (x ^ prime) x.
Proof. exact (ZmodInv.Z.fermat prime x field_modulus_prime). Qed.

(** The square root is found for every square. *)
Lemma sqrt_complete a y : magnitude 8 a -> feq (y * y) (fval a) -> (secp256k1_fe_sqrt a).2 = true.
Proof.
  intros Ha Hy. pose proof (sqrt_spec a Ha) as H. destruct (secp256k1_fe_sqrt a) as [r ok]. destruct H as (_ & (He & _ & Er) & ->). cbn [snd]. apply Z.eqb_eq. change (feq (fval r * fval r) (fval a)).
  assert (Ee : (prime + 1) / 4 + (prime + 1) / 4 + ((prime + 1) / 4 + (prime + 1) / 4) = Z.succ prime /\ 0 <= prime) by (split; [vm_compute; reflexivity | by apply Z.leb_le]). destruct Ee as [Ee Hp]. set (e := (prime + 1) / 4) in *. clearbody e.
  assert (Er' : feq (fval r) (y ^ (e + e))) by (rewrite Z.pow_add_r, <- Z.pow_mul_l by lia; by rewrite Hy).
  rewrite Er', <- Z.pow_add_r, Ee, Z.pow_succ_r by lia. by rewrite feq_fermat.
Qed.

Lemma inv_power a : magnitude 8 a -> feq (fval a * fval (secp256k1_fe_inv a)) (fval a ^ (prime - 1)).
Proof.
  intros Ha. destruct (inv_spec a Ha) as [_ (_ & _ & E)]. rewrite <- (pow_pred (fval a) prime) by (by apply Z.leb_le). apply feq_mul_proper; [reflexivity | exact E].
Qed.

Lemma nonzero_power x : ~ feq x 0 -> feq (x ^ (prime - 1)) 1.
Proof. intros Hx. exact (ZmodInv.Z.fermat_nz prime x field_modulus_prime Hx). Qed.

Lemma fe_inverse a : magnitude 8 a -> ~ feq (fval a) 0 -> feq (fval a * fval (secp256k1_fe_inv a)) 1.
Proof. intros Ha Hz. rewrite inv_power by done. by apply nonzero_power. Qed.

(** ** The inverses of a list *)

(** The products of the prefixes, each with the elements it covers. *)
Lemma prefix_products_spec a : forall p v, magnitude 8 p -> feq (fval p) v -> Forall (magnitude 8) a ->
  length (prefix_products p a) = length a /\
  forall i q, prefix_products p a !! i = Some q -> magnitude 8 q /\ feq (fval q) (v * product (fval <$> take (S i) a)).
Proof.
  induction a as [| x a IH]; intros p v Hp Ep Ha; [done |]. apply Forall_cons_1 in Ha as [Hx Ha]. cbn [prefix_products length]. destruct (fe_mul_spec p x Hp Hx) as [Mq Eq]. apply (magnitude_mono 1 8) in Mq; [| lia].
  destruct (IH (secp256k1_fe_mul p x) (v * fval x) Mq ltac:(by rewrite Eq, Ep) Ha) as [Hl Hi]. split; [by rewrite Hl |]. intros [| i] q Hq; cbn in Hq.
  - injection Hq as <-. split; [done |]. cbn [take fmap list_fmap product foldr]. rewrite Eq, Ep. by rewrite Z.mul_1_r.
  - destruct (Hi i q Hq) as [Mq' Eq']. split; [done |]. rewrite Eq'. cbn [take fmap list_fmap]. change (product (fval x :: (fval <$> take (S i) a))) with (fval x * product (fval <$> take (S i) a)). by rewrite Z.mul_assoc.
Qed.

(** The second loop: every result times its element is the factor [u] times the product of
    all the elements. *)
Lemma inverses_back_spec x0 l : forall ps u acc, magnitude 8 u -> magnitude 8 x0 -> Forall (magnitude 8) l -> length ps = length l ->
  (forall i p, ps !! i = Some p -> magnitude 8 p /\ feq (fval p) (product (fval <$> take (S i) (x0 :: l)))) ->
  exists out, inverses_back u (reverse ps) (reverse l) acc = out ++ acc /\ length out = S (length l) /\
    forall k x r, (x0 :: l) !! k = Some x -> out !! k = Some r -> magnitude 8 r /\ feq (fval x * fval r) (fval u * product (fval <$> x0 :: l)).
Proof.
  induction l as [| x l IH] using rev_ind; intros ps u acc Hu H0 Hl Hlen Hps.
  - destruct ps; [| discriminate]. exists [u]. split; [done |]. split; [done |]. intros [| k] y r Hy Hr; [| discriminate]. injection Hy as <-. injection Hr as <-. split; [done |]. cbn [fmap list_fmap product foldr]. by rewrite Z.mul_1_r, Z.mul_comm.
  - destruct (exists_last (l := ps)) as [ps' [p ->]]; [intros ->; rewrite length_app in Hlen; cbn in Hlen; lia |]. rewrite !length_app in Hlen. cbn [length] in Hlen. apply Forall_app in Hl as [Hl [Hx _]%Forall_cons_1].
    assert (Ep : length ps' = length l) by lia. destruct (Hps (length ps') p) as [Mp Fp]; [by rewrite lookup_app_r, Nat.sub_diag |]. rewrite Ep in Fp. cbn [take] in Fp. rewrite take_app_length in Fp.
    destruct (fe_mul_spec u x Hu Hx) as [Mu Fu]. destruct (fe_mul_spec p u Mp Hu) as [Mr Fr]. rewrite !reverse_snoc. cbn [inverses_back].
    destruct (IH ps' (secp256k1_fe_mul u x) (secp256k1_fe_mul p u :: acc)) as (out & Eo & Lo & Ho); [by apply (magnitude_mono 1 8); [lia |] | done | done | done | |].
    { intros i q Hq. destruct (Hps i q) as [Mq Fq]; [by apply lookup_app_l_Some |]. split; [done |]. rewrite Fq. cbn [take]. rewrite take_app_le; [done |]. apply lookup_lt_Some in Hq. lia. }
    exists (out ++ [secp256k1_fe_mul p u]). split; [by rewrite Eo, <- app_assoc |]. split; [rewrite !length_app, Lo; cbn; lia |]. intros k y r Hy Hr. rewrite app_comm_cons, fmap_app. cbn [fmap list_fmap]. rewrite product_snoc.
    destruct (decide (k < S (length l))%nat) as [Hk | Hk].
    + rewrite app_comm_cons, lookup_app_l in Hy by (cbn; lia). rewrite lookup_app_l in Hr by lia. destruct (Ho k y r Hy Hr) as [Mr' Fr']. split; [done |]. rewrite Fr', Fu. cbn [fmap list_fmap]. unfold feq. f_equal. ring.
    + assert (k = S (length l)) as -> by (apply lookup_lt_Some in Hr; rewrite length_app, Lo in Hr; cbn in Hr; lia). rewrite app_comm_cons, lookup_app_r in Hy by (cbn; lia). rewrite lookup_app_r in Hr by lia. rewrite Lo, Nat.sub_diag in Hr. cbn [length] in Hy. rewrite Nat.sub_diag in Hy.
      injection Hy as <-. injection Hr as <-. split; [by apply (magnitude_mono 1 8); [lia |] |]. rewrite Fr, Fp. cbn [fmap list_fmap]. unfold feq. f_equal. ring.
Qed.

Lemma inv_all_spec a : Forall (magnitude 8) a -> length (secp256k1_fe_inv_all_var a) = length a /\
  forall k x r, a !! k = Some x -> secp256k1_fe_inv_all_var a !! k = Some r -> magnitude 8 r /\ feq (fval x * fval r) (product (fval <$> a) ^ (prime - 1)).
Proof.
  destruct a as [| x0 l]; [done |]. intros [H0 Hl]%Forall_cons_1. destruct (prefix_products_spec l x0 (fval x0) H0 ltac:(done) Hl) as [Lp Hp]. cbn [secp256k1_fe_inv_all_var].
  assert (Hps : forall i p, (x0 :: prefix_products x0 l) !! i = Some p -> magnitude 8 p /\ feq (fval p) (product (fval <$> take (S i) (x0 :: l)))).
  { intros [| i] p Hi; [injection Hi as <-; split; [done |]; cbn [take fmap list_fmap product foldr]; by rewrite Z.mul_1_r |]. exact (Hp i p Hi). }
  destruct (exists_last (l := x0 :: prefix_products x0 l)) as [ps [z Ez]]; [done |]. rewrite Ez in Hps. rewrite Ez, reverse_snoc. assert (Lps : length ps = length l) by (apply (f_equal length) in Ez; rewrite length_app in Ez; cbn in Ez; lia).
  destruct (Hps (length ps) z) as [Mz Fz]; [by rewrite lookup_app_r, Nat.sub_diag |]. rewrite take_ge in Fz by (cbn; lia). pose proof (inv_power z Mz) as Fu. destruct (inv_spec z Mz) as [Mu _]. unfold secp256k1_fe_inv_var.
  destruct (inverses_back_spec x0 l ps (secp256k1_fe_inv z) [] ltac:(by apply (magnitude_mono 1 8); [lia |]) H0 Hl Lps) as (out & -> & Lo & Ho); [intros i p Hi; apply Hps; by apply lookup_app_l_Some |].
  rewrite app_nil_r. split; [done |]. intros k x r Hx Hr. destruct (Ho k x r Hx Hr) as [Mr Fr]. split; [done |]. rewrite Fr. set (P := product _) in *. clearbody P. rewrite Z.mul_comm. rewrite <- Fz at 1. etransitivity; [exact Fu |]. by apply feq_pow_proper.
Qed.

(** ** Theorem *)

Lemma magnitude_wf a : normalized a -> magnitude 1 a.
Proof. intros ((H0 & H1 & H2 & H3) & H4 & _). unfold magnitude, M52, M48. lia. Qed.

(** C14. The operations of libsecp256k1 on field elements in five limbs of 52 bits are those
    of the integers modulo the prime, for all the magnitudes that the callers may reach:
    products and squares, sums, negation and small multiples with their magnitudes, the
    normalizations, the tests for zero and equality; the inverse inverts every element that
    is not zero, the square root finds a root exactly when there is one, and normalized
    elements survive their bytes and their storage form. *)
Theorem field_arithmetic a b : magnitude 8 a -> magnitude 8 b ->
  (magnitude 1 (secp256k1_fe_mul a b) /\ feq (fval (secp256k1_fe_mul a b)) (fval a * fval b)) /\
  (magnitude 1 (secp256k1_fe_sqr a) /\ feq (fval (secp256k1_fe_sqr a)) (fval a * fval a)) /\
  (magnitude 16 (secp256k1_fe_add a b) /\ fval (secp256k1_fe_add a b) = fval a + fval b) /\
  (magnitude 9 (secp256k1_fe_negate a 8) /\ feq (fval (secp256k1_fe_negate a 8)) (- fval a)) /\
  (forall k, 0 <= k <= 256 -> magnitude (8 * k) (secp256k1_fe_mul_int a k) /\ fval (secp256k1_fe_mul_int a k) = k * fval a) /\
  (normalized (secp256k1_fe_normalize a) /\ fval (secp256k1_fe_normalize a) = fval a mod prime /\ secp256k1_fe_normalize_var a = secp256k1_fe_normalize a) /\
  (magnitude 1 (secp256k1_fe_normalize_weak a) /\ feq (fval (secp256k1_fe_normalize_weak a)) (fval a)) /\
  (secp256k1_fe_normalizes_to_zero a = (fval a mod prime =? 0) /\ secp256k1_fe_normalizes_to_zero_var a = (fval a mod prime =? 0)) /\
  (~ feq (fval a) 0 -> feq (fval a * fval (secp256k1_fe_inv a)) 1) /\
  (let '(r, ok) := secp256k1_fe_sqrt a in
    (ok = true -> feq (fval r * fval r) (fval a)) /\ (forall y, feq (y * y) (fval a) -> ok = true)) /\
  (let n := secp256k1_fe_normalize a in
    secp256k1_fe_set_b32 (secp256k1_fe_get_b32 n) = (n, true) /\ secp256k1_fe_from_storage (secp256k1_fe_to_storage n) = n /\
    secp256k1_fe_is_zero n = (fval a mod prime =? 0) /\ secp256k1_fe_is_odd n = Z.odd (fval a mod prime) /\
    secp256k1_fe_cmp_var n (secp256k1_fe_normalize b) = compare_sign (fval a mod prime) (fval b mod prime) /\
    secp256k1_fe_equal n b = (fval a mod prime =? fval b mod prime)).
Proof.
  intros Ha Hb. split; [by apply fe_mul_spec |]. split; [by apply fe_sqr_spec |]. split; [by apply (add_limbs 8 8) |]. split.
  { destruct (negate_limbs 8 a ltac:(lia) Ha) as [Hm E]. split; [done |]. apply (feq_add_multiple _ _ 18). rewrite E. lia. }
  split; [intros k Hk; apply mul_int_limbs; (done || lia) |]. destruct (normalize_spec 8 a ltac:(lia) Ha) as [Hn En]. split; [split; [done |]; split; [done | by apply (normalize_var_eq 8)] |]. split; [by apply (weak_spec 8) |].
  split; [rewrite (normalizes_to_zero_var_eq 8), (normalizes_to_zero_spec 8) by (done || lia); done |]. split; [by apply fe_inverse |].
  split. { pose proof (sqrt_spec a Ha) as H. pose proof (sqrt_complete a) as Hc. destruct (secp256k1_fe_sqrt a) as [r ok]. destruct H as (_ & _ & Eok). split; [intros ->; by apply Z.eqb_eq | intros y Hy; exact (Hc y Ha Hy)]. }
  cbv zeta. destruct (normalize_spec 8 b ltac:(lia) Hb) as [Hn' En']. rewrite <- En, <- En'. split; [by apply b32_roundtrip |]. pose proof Hn as (Hc & H4 & _). split; [by apply storage_roundtrip |]. split; [unfold secp256k1_fe_is_zero; by apply zero_test; [| lia] |]. split; [apply is_odd_spec |].
  split; [by apply cmp_var_spec |]. rewrite (proj1 (equal_spec 8 _ b ltac:(lia) (magnitude_wf _ Hn) Hb)). by rewrite En, En', Z.mod_mod by done.
Qed.

Lemma field_arithmetic_witness : let a := Fe 3 0 0 0 M48 in feq (fval (secp256k1_fe_mul a a)) (fval a * fval a) /\ secp256k1_fe_normalizes_to_zero a = (fval a mod prime =? 0).
Proof.
  intros a. assert (Ha : magnitude 8 a) by (repeat split; vm_compute; discriminate). destruct (field_arithmetic a a Ha Ha) as ((_ & H1) & _ & _ & _ & _ & _ & _ & (H2 & _) & _). split; [exact H1 | exact H2].
Defined.
