(* ===== verification/Group.v ===== *)
(** * Points of the curve

    [src/secp256k1/src/group_impl.h] and the structures of [group.h]: the operations on
    affine and Jacobian points. Functions return what the code writes through its pointers;
    a target that a branch leaves alone is an argument. *)

From S2P Require Import Prelude Scalar Field.

Open Scope Z_scope.

Record secp256k1_ge := Ge { ge_x : secp256k1_fe; ge_y : secp256k1_fe; ge_infinity : bool }.

Record secp256k1_gej := Gej { gej_x : secp256k1_fe; gej_y : secp256k1_fe; gej_z : secp256k1_fe; gej_infinity : bool }.

Record secp256k1_ge_storage := GeStorage { st_x : secp256k1_fe_storage; st_y : secp256k1_fe_storage }.

Definition SECP256K1_FE_CONST (d7 d6 d5 d4 d3 d2 d1 d0 : Z) : secp256k1_fe :=
  Fe (Z.lor d0 (Z.shiftl (Z.land d1 0xFFFFF) 32))
    (Z.lor (Z.lor (Z.shiftr d1 20) (Z.shiftl d2 12)) (Z.shiftl (Z.land d3 0xFF) 44))
    (Z.lor (Z.shiftr d3 8) (Z.shiftl (Z.land d4 0xFFFFFFF) 24))
    (Z.lor (Z.lor (Z.shiftr d4 28) (Z.shiftl d5 4)) (Z.shiftl (Z.land d6 0xFFFF) 36))
    (Z.lor (Z.shiftr d6 16) (Z.shiftl d7 16)).

Definition secp256k1_ge_const_g : secp256k1_ge :=
  Ge (SECP256K1_FE_CONST 0x79BE667E 0xF9DCBBAC 0x55A06295 0xCE870B07 0x029BFCDB 0x2DCE28D9 0x59F2815B 0x16F81798)
    (SECP256K1_FE_CONST 0x483ADA77 0x26A3C465 0x5DA4FBFC 0x0E1108A8 0xFD17B448 0xA6855419 0x9C47D08F 0xFB10D4B8) false.

Definition CURVE_B : Z := 7.

(** ** Conversions *)

Definition secp256k1_ge_set_gej_zinv (a : secp256k1_gej) (zi : secp256k1_fe) : secp256k1_ge :=
  let zi2 := secp256k1_fe_sqr zi in
  let zi3 := secp256k1_fe_mul zi2 zi in
  Ge (secp256k1_fe_mul (gej_x a) zi2) (secp256k1_fe_mul (gej_y a) zi3) (gej_infinity a).

Definition secp256k1_ge_set_xy (x y : secp256k1_fe) : secp256k1_ge := Ge x y false.

Definition secp256k1_ge_is_infinity (a : secp256k1_ge) : bool := ge_infinity a.

Definition secp256k1_ge_neg (a : secp256k1_ge) : secp256k1_ge :=
  Ge (ge_x a) (secp256k1_fe_negate (secp256k1_fe_normalize_weak (ge_y a)) 1) (ge_infinity a).

(** The affine point and the rescaled argument. *)
Definition secp256k1_ge_set_gej (a : secp256k1_gej) : secp256k1_ge * secp256k1_gej :=
  let z := secp256k1_fe_inv (gej_z a) in
  let z2 := secp256k1_fe_sqr z in
  let z3 := secp256k1_fe_mul z z2 in
  let x := secp256k1_fe_mul (gej_x a) z2 in
  let y := secp256k1_fe_mul (gej_y a) z3 in
  (Ge x y (gej_infinity a), Gej x y (secp256k1_fe_set_int 1) (gej_infinity a)).

Definition secp256k1_ge_set_gej_var (r : secp256k1_ge) (a : secp256k1_gej) : secp256k1_ge * secp256k1_gej :=
  if gej_infinity a then (Ge (ge_x r) (ge_y r) true, a)
  else
    let z := secp256k1_fe_inv_var (gej_z a) in
    let z2 := secp256k1_fe_sqr z in
    let z3 := secp256k1_fe_mul z z2 in
    let x := secp256k1_fe_mul (gej_x a) z2 in
    let y := secp256k1_fe_mul (gej_y a) z3 in
    (Ge x y false, Gej x y (secp256k1_fe_set_int 1) false).

(** The second loop, with the inverses that are left. *)
Fixpoint set_all_gej (r : list secp256k1_ge) (a : list secp256k1_gej) (azi : list secp256k1_fe) : list secp256k1_ge :=
  match r, a with
  | p :: r, j :: a =>
    if gej_infinity j then Ge (ge_x p) (ge_y p) true :: set_all_gej r a azi
    else match azi with
      | zi :: azi => secp256k1_ge_set_gej_zinv j zi :: set_all_gej r a azi
      | [] => []
      end
  | _, _ => []
  end.

Definition secp256k1_ge_set_all_gej_var (r : list secp256k1_ge) (a : list secp256k1_gej) : list secp256k1_ge :=
  let az := gej_z <$> filter (fun j => gej_infinity j = false) a in
  set_all_gej r a (secp256k1_fe_inv_all_var az).

(** The loop towards the front; the lists are reversed. *)
Fixpoint set_table_back (zi : secp256k1_fe) (zr : list secp256k1_fe) (a : list secp256k1_gej) (acc : list secp256k1_ge) : list secp256k1_ge :=
  match zr, a with
  | ratio :: zr, j :: a => let zi := secp256k1_fe_mul zi ratio in set_table_back zi zr a (secp256k1_ge_set_gej_zinv j zi :: acc)
  | _, _ => acc
  end.

Definition secp256k1_ge_set_table_gej_var (a : list secp256k1_gej) (zr : list secp256k1_fe) : list secp256k1_ge :=
  match reverse a with
  | [] => []
  | last :: before =>
    let zi := secp256k1_fe_inv (gej_z last) in
    set_table_back zi (reverse zr) before [secp256k1_ge_set_gej_zinv last zi]
  end.

(** The points scaled to the denominator of the last one, and that denominator. *)
Definition secp256k1_ge_globalz_set_table_gej (globalz : secp256k1_fe) (a : list secp256k1_gej) (zr : list secp256k1_fe) : list secp256k1_ge * secp256k1_fe :=
  match reverse a, reverse zr with
  | last :: before, zs :: zr =>
    let r := Ge (gej_x last) (gej_y last) false in
    match before with
    | [] => ([r], gej_z last)
    | j :: before => (set_table_back zs zr before [secp256k1_ge_set_gej_zinv j zs; r], gej_z last)
    end
  | _, _ => ([], globalz)
  end.

Definition secp256k1_gej_set_infinity : secp256k1_gej := Gej secp256k1_fe_clear secp256k1_fe_clear secp256k1_fe_clear true.

Definition secp256k1_gej_clear : secp256k1_gej := Gej secp256k1_fe_clear secp256k1_fe_clear secp256k1_fe_clear false.

Definition secp256k1_ge_clear : secp256k1_ge := Ge secp256k1_fe_clear secp256k1_fe_clear false.

(** The point and whether the coordinate has one. *)
Definition secp256k1_ge_set_xquad (x : secp256k1_fe) : secp256k1_ge * bool :=
  let x2 := secp256k1_fe_sqr x in
  let x3 := secp256k1_fe_mul x x2 in
  let c := secp256k1_fe_set_int CURVE_B in
  let c := secp256k1_fe_add c x3 in
  let '(y, ret) := secp256k1_fe_sqrt c in
  (Ge x y false, ret).

Definition secp256k1_ge_set_xo_var (x : secp256k1_fe) (odd : bool) : secp256k1_ge * bool :=
  let '(r, ret) := secp256k1_ge_set_xquad x in
  if negb ret then (r, false)
  else
    let y := secp256k1_fe_normalize_var (ge_y r) in
    let y := if Bool.eqb (secp256k1_fe_is_odd y) odd then y else secp256k1_fe_negate y 1 in
    (Ge (ge_x r) y (ge_infinity r), true).

Definition secp256k1_gej_set_ge (a : secp256k1_ge) : secp256k1_gej := Gej (ge_x a) (ge_y a) (secp256k1_fe_set_int 1) (ge_infinity a).

(** ** Tests *)

Definition secp256k1_gej_eq_x_var (x : secp256k1_fe) (a : secp256k1_gej) : bool :=
  let r := secp256k1_fe_mul (secp256k1_fe_sqr (gej_z a)) x in
  let r2 := secp256k1_fe_normalize_weak (gej_x a) in
  secp256k1_fe_equal_var r r2.

Definition secp256k1_gej_neg (a : secp256k1_gej) : secp256k1_gej :=
  Gej (gej_x a) (secp256k1_fe_negate (secp256k1_fe_normalize_weak (gej_y a)) 1) (gej_z a) (gej_infinity a).

Definition secp256k1_gej_is_infinity (a : secp256k1_gej) : bool := gej_infinity a.

Definition secp256k1_gej_is_valid_var (a : secp256k1_gej) : bool :=
  if gej_infinity a then false
  else
    let y2 := secp256k1_fe_sqr (gej_y a) in
    let x3 := secp256k1_fe_mul (secp256k1_fe_sqr (gej_x a)) (gej_x a) in
    let z2 := secp256k1_fe_sqr (gej_z a) in
    let z6 := secp256k1_fe_mul (secp256k1_fe_sqr z2) z2 in
    let z6 := secp256k1_fe_mul_int z6 CURVE_B in
    let x3 := secp256k1_fe_add x3 z6 in
    let x3 := secp256k1_fe_normalize_weak x3 in
    secp256k1_fe_equal_var y2 x3.

Definition secp256k1_ge_is_valid_var (a : secp256k1_ge) : bool :=
  if ge_infinity a then false
  else
    let y2 := secp256k1_fe_sqr (ge_y a) in
    let x3 := secp256k1_fe_mul (secp256k1_fe_sqr (ge_x a)) (ge_x a) in
    let c := secp256k1_fe_set_int CURVE_B in
    let x3 := secp256k1_fe_add x3 c in
    let x3 := secp256k1_fe_normalize_weak x3 in
    secp256k1_fe_equal_var y2 x3.

Definition secp256k1_gej_has_quad_y_var (a : secp256k1_gej) : bool :=
  if gej_infinity a then false else secp256k1_fe_is_quad_var (secp256k1_fe_mul (gej_y a) (gej_z a)).

(** ** Doubling and addition

    The last component is what the code writes to [rzr] when it is given: the ratio of the
    denominators of the result and of [a]. *)

Definition secp256k1_gej_double_var (r a : secp256k1_gej) : secp256k1_gej * secp256k1_fe :=
  if gej_infinity a then (Gej (gej_x r) (gej_y r) (gej_z r) true, secp256k1_fe_set_int 1)
  else
    let rzr := secp256k1_fe_normalize_weak (gej_y a) in
    let rzr := secp256k1_fe_mul_int rzr 2 in
    let z := secp256k1_fe_mul (gej_z a) (gej_y a) in
    let z := secp256k1_fe_mul_int z 2 in
    let t1 := secp256k1_fe_sqr (gej_x a) in
    let t1 := secp256k1_fe_mul_int t1 3 in
    let t2 := secp256k1_fe_sqr t1 in
    let t3 := secp256k1_fe_sqr (gej_y a) in
    let t3 := secp256k1_fe_mul_int t3 2 in
    let t4 := secp256k1_fe_sqr t3 in
    let t4 := secp256k1_fe_mul_int t4 2 in
    let t3 := secp256k1_fe_mul t3 (gej_x a) in
    let x := secp256k1_fe_mul_int t3 4 in
    let x := secp256k1_fe_negate x 4 in
    let x := secp256k1_fe_add x t2 in
    let t2 := secp256k1_fe_negate t2 1 in
    let t3 := secp256k1_fe_mul_int t3 6 in
    let t3 := secp256k1_fe_add t3 t2 in
    let y := secp256k1_fe_mul t1 t3 in
    let t2 := secp256k1_fe_negate t4 2 in
    let y := secp256k1_fe_add y t2 in
    (Gej x y z false, rzr).

Definition secp256k1_gej_double_nonzero (r a : secp256k1_gej) : secp256k1_gej * secp256k1_fe := secp256k1_gej_double_var r a.

(** The end that the three variable-time additions share: the new abscissa and ordinate from
    [u1], [s1], [h] and [i]. *)
Definition add_finish (u1 s1 h i : secp256k1_fe) : secp256k1_fe * secp256k1_fe :=
  let i2 := secp256k1_fe_sqr i in
  let h2 := secp256k1_fe_sqr h in
  let h3 := secp256k1_fe_mul h h2 in
  let t := secp256k1_fe_mul u1 h2 in
  let x := secp256k1_fe_mul_int t 2 in
  let x := secp256k1_fe_add x h3 in
  let x := secp256k1_fe_negate x 3 in
  let x := secp256k1_fe_add x i2 in
  let y := secp256k1_fe_negate x 5 in
  let y := secp256k1_fe_add y t in
  let y := secp256k1_fe_mul y i in
  let h3 := secp256k1_fe_mul h3 s1 in
  let h3 := secp256k1_fe_negate h3 1 in
  let y := secp256k1_fe_add y h3 in
  (x, y).

Definition secp256k1_gej_add_var (r a b : secp256k1_gej) (rzr : secp256k1_fe) : secp256k1_gej * secp256k1_fe :=
  if gej_infinity a then (b, rzr)
  else if gej_infinity b then (a, secp256k1_fe_set_int 1)
  else
    let z22 := secp256k1_fe_sqr (gej_z b) in
    let z12 := secp256k1_fe_sqr (gej_z a) in
    let u1 := secp256k1_fe_mul (gej_x a) z22 in
    let u2 := secp256k1_fe_mul (gej_x b) z12 in
    let s1 := secp256k1_fe_mul (secp256k1_fe_mul (gej_y a) z22) (gej_z b) in
    let s2 := secp256k1_fe_mul (secp256k1_fe_mul (gej_y b) z12) (gej_z a) in
    let h := secp256k1_fe_add (secp256k1_fe_negate u1 1) u2 in
    let i := secp256k1_fe_add (secp256k1_fe_negate s1 1) s2 in
    if secp256k1_fe_normalizes_to_zero_var h then
      if secp256k1_fe_normalizes_to_zero_var i then secp256k1_gej_double_var (Gej (gej_x r) (gej_y r) (gej_z r) false) a
      else (Gej (gej_x r) (gej_y r) (gej_z r) true, secp256k1_fe_set_int 0)
    else
      let hz := secp256k1_fe_mul h (gej_z b) in
      let z := secp256k1_fe_mul (gej_z a) hz in
      let '(x, y) := add_finish u1 s1 h i in
      (Gej x y z false, hz).

Definition secp256k1_gej_add_ge_var (r a : secp256k1_gej) (b : secp256k1_ge) (rzr : secp256k1_fe) : secp256k1_gej * secp256k1_fe :=
  if gej_infinity a then (secp256k1_gej_set_ge b, rzr)
  else if ge_infinity b then (a, secp256k1_fe_set_int 1)
  else
    let z12 := secp256k1_fe_sqr (gej_z a) in
    let u1 := secp256k1_fe_normalize_weak (gej_x a) in
    let u2 := secp256k1_fe_mul (ge_x b) z12 in
    let s1 := secp256k1_fe_normalize_weak (gej_y a) in
    let s2 := secp256k1_fe_mul (secp256k1_fe_mul (ge_y b) z12) (gej_z a) in
    let h := secp256k1_fe_add (secp256k1_fe_negate u1 1) u2 in
    let i := secp256k1_fe_add (secp256k1_fe_negate s1 1) s2 in
    if secp256k1_fe_normalizes_to_zero_var h then
      if secp256k1_fe_normalizes_to_zero_var i then secp256k1_gej_double_var (Gej (gej_x r) (gej_y r) (gej_z r) false) a
      else (Gej (gej_x r) (gej_y r) (gej_z r) true, secp256k1_fe_set_int 0)
    else
      let z := secp256k1_fe_mul (gej_z a) h in
      let '(x, y) := add_finish u1 s1 h i in
      (Gej x y z false, h).

(** The addition of [(bx, by, 1 / bzinv)]. *)
Definition secp256k1_gej_add_zinv_var (r a : secp256k1_gej) (b : secp256k1_ge) (bzinv : secp256k1_fe) : secp256k1_gej :=
  if ge_infinity b then a
  else if gej_infinity a then
    let bzinv2 := secp256k1_fe_sqr bzinv in
    let bzinv3 := secp256k1_fe_mul bzinv2 bzinv in
    Gej (secp256k1_fe_mul (ge_x b) bzinv2) (secp256k1_fe_mul (ge_y b) bzinv3) (secp256k1_fe_set_int 1) (ge_infinity b)
  else
    let az := secp256k1_fe_mul (gej_z a) bzinv in
    let z12 := secp256k1_fe_sqr az in
    let u1 := secp256k1_fe_normalize_weak (gej_x a) in
    let u2 := secp256k1_fe_mul (ge_x b) z12 in
    let s1 := secp256k1_fe_normalize_weak (gej_y a) in
    let s2 := secp256k1_fe_mul (secp256k1_fe_mul (ge_y b) z12) az in
    let h := secp256k1_fe_add (secp256k1_fe_negate u1 1) u2 in
    let i := secp256k1_fe_add (secp256k1_fe_negate s1 1) s2 in
    if secp256k1_fe_normalizes_to_zero_var h then
      if secp256k1_fe_normalizes_to_zero_var i then (secp256k1_gej_double_var (Gej (gej_x r) (gej_y r) (gej_z r) false) a).1
      else Gej (gej_x r) (gej_y r) (gej_z r) true
    else
      let z := secp256k1_fe_mul (gej_z a) h in
      let '(x, y) := add_finish u1 s1 h i in
      Gej x y z false.

Definition fe_1 : secp256k1_fe := SECP256K1_FE_CONST 0 0 0 0 0 0 0 1.

(** The addition in constant time. *)
Definition secp256k1_gej_add_ge (a : secp256k1_gej) (b : secp256k1_ge) : secp256k1_gej :=
  let zz := secp256k1_fe_sqr (gej_z a) in
  let u1 := secp256k1_fe_normalize_weak (gej_x a) in
  let u2 := secp256k1_fe_mul (ge_x b) zz in
  let s1 := secp256k1_fe_normalize_weak (gej_y a) in
  let s2 := secp256k1_fe_mul (ge_y b) zz in
  let s2 := secp256k1_fe_mul s2 (gej_z a) in
  let t := secp256k1_fe_add u1 u2 in
  let m := secp256k1_fe_add s1 s2 in
  let rr := secp256k1_fe_sqr t in
  let m_alt := secp256k1_fe_negate u2 1 in
  let tt := secp256k1_fe_mul u1 m_alt in
  let rr := secp256k1_fe_add rr tt in
  let degenerate := secp256k1_fe_normalizes_to_zero m && secp256k1_fe_normalizes_to_zero rr in
  let rr_alt := secp256k1_fe_mul_int s1 2 in
  let m_alt := secp256k1_fe_add m_alt u1 in
  let rr_alt := secp256k1_fe_cmov rr_alt rr (Z.b2z (negb degenerate)) in
  let m_alt := secp256k1_fe_cmov m_alt m (Z.b2z (negb degenerate)) in
  let n := secp256k1_fe_sqr m_alt in
  let q := secp256k1_fe_mul n t in
  let n := secp256k1_fe_sqr n in
  let n := secp256k1_fe_cmov n m (Z.b2z degenerate) in
  let t := secp256k1_fe_sqr rr_alt in
  let z := secp256k1_fe_mul (gej_z a) m_alt in
  let infinity := secp256k1_fe_normalizes_to_zero z && negb (gej_infinity a) in
  let z := secp256k1_fe_mul_int z 2 in
  let q := secp256k1_fe_negate q 1 in
  let t := secp256k1_fe_add t q in
  let t := secp256k1_fe_normalize_weak t in
  let x := t in
  let t := secp256k1_fe_mul_int t 2 in
  let t := secp256k1_fe_add t q in
  let t := secp256k1_fe_mul t rr_alt in
  let t := secp256k1_fe_add t n in
  let y := secp256k1_fe_negate t 3 in
  let y := secp256k1_fe_normalize_weak y in
  let x := secp256k1_fe_mul_int x 4 in
  let y := secp256k1_fe_mul_int y 4 in
  let x := secp256k1_fe_cmov x (ge_x b) (Z.b2z (gej_infinity a)) in
  let y := secp256k1_fe_cmov y (ge_y b) (Z.b2z (gej_infinity a)) in
  let z := secp256k1_fe_cmov z fe_1 (Z.b2z (gej_infinity a)) in
  Gej x y z infinity.

Definition secp256k1_gej_rescale (r : secp256k1_gej) (s : secp256k1_fe) : secp256k1_gej :=
  let zz := secp256k1_fe_sqr s in
  Gej (secp256k1_fe_mul (gej_x r) zz) (secp256k1_fe_mul (secp256k1_fe_mul (gej_y r) zz) s) (secp256k1_fe_mul (gej_z r) s) (gej_infinity r).

(** ** Storage *)

Definition secp256k1_ge_to_storage (a : secp256k1_ge) : secp256k1_ge_storage :=
  GeStorage (secp256k1_fe_to_storage (secp256k1_fe_normalize (ge_x a))) (secp256k1_fe_to_storage (secp256k1_fe_normalize (ge_y a))).

Definition secp256k1_ge_from_storage (a : secp256k1_ge_storage) : secp256k1_ge :=
  Ge (secp256k1_fe_from_storage (st_x a)) (secp256k1_fe_from_storage (st_y a)) false.

Definition secp256k1_ge_storage_cmov (r a : secp256k1_ge_storage) (flag : Z) : secp256k1_ge_storage :=
  GeStorage (secp256k1_fe_storage_cmov (st_x r) (st_x a) flag) (secp256k1_fe_storage_cmov (st_y r) (st_y a) flag).
