(* ===== verification/GroupProps.v ===== *)
(** * The group law

    The formulas on Jacobian coordinates compute the chords and tangents of the curve
    [y^2 = x^3 + 7] over the field, whatever the branch. *)

From S2P Require Import Prelude Primality Scalar ScalarProps Field FieldProps FieldSpec Group.

Open Scope Z_scope.

(** ** Elements with a known value *)

(** An element of magnitude [m] whose value is [e]. *)
Definition fe_is (m e : Z) (a : secp256k1_fe) : Prop := 0 <= m /\ magnitude m a /\ feq (fval a) e.

Lemma is_self m a : 0 <= m -> magnitude m a -> fe_is m (fval a) a.
Proof. done. Qed.

Lemma is_mul m m' e f a b : fe_is m e a -> fe_is m' f b -> (m <=? 8) = true -> (m' <=? 8) = true -> fe_is 1 (e * f) (secp256k1_fe_mul a b).
Proof.
  intros (Hm & Ha & Ea) (Hm' & Hb & Eb) L%Z.leb_le L'%Z.leb_le. destruct (fe_mul_spec a b) as [H E]; [by apply (magnitude_mono m) | by apply (magnitude_mono m') |]. split; [lia |]. split; [done |]. by rewrite E, Ea, Eb.
Qed.

Lemma is_sqr m e a : fe_is m e a -> (m <=? 8) = true -> fe_is 1 (e * e) (secp256k1_fe_sqr a).
Proof. intros (Hm & Ha & Ea) L%Z.leb_le. destruct (fe_sqr_spec a) as [H E]; [by apply (magnitude_mono m) |]. split; [lia |]. split; [done |]. by rewrite E, Ea. Qed.

Lemma is_add m m' e f a b : fe_is m e a -> fe_is m' f b -> (m + m' <=? 2048) = true -> fe_is (m + m') (e + f) (secp256k1_fe_add a b).
Proof. intros (Hm & Ha & Ea) (Hm' & Hb & Eb) L%Z.leb_le. destruct (add_limbs m m' a b Hm Hm' L Ha Hb) as [H E]. split; [lia |]. split; [done |]. by rewrite E, Ea, Eb. Qed.

Lemma is_negate m k e a : fe_is m e a -> (m <=? k) && (k <=? 1023) = true -> fe_is (k + 1) (- e) (secp256k1_fe_negate a k).
Proof.
  intros (Hm & Ha & Ea) L. apply andb_prop in L as [L1%Z.leb_le L2%Z.leb_le]. destruct (negate_limbs k a ltac:(lia)) as [H E]; [by apply (magnitude_mono m) |]. split; [lia |]. split; [done |].
  rewrite <- Ea. apply (feq_add_multiple _ _ (2 * (k + 1))). rewrite E. lia.
Qed.

Lemma is_mul_int m k e a : fe_is m e a -> (0 <=? k) && (m * k <=? 2048) = true -> fe_is (m * k) (k * e) (secp256k1_fe_mul_int a k).
Proof. intros (Hm & Ha & Ea) L. apply andb_prop in L as [L1%Z.leb_le L2%Z.leb_le]. destruct (mul_int_limbs m a k Hm L1 L2 Ha) as [H E]. split; [lia |]. split; [done |]. by rewrite E, Ea. Qed.

Lemma is_weak m e a : fe_is m e a -> (m <=? 1024) = true -> fe_is 1 e (secp256k1_fe_normalize_weak a).
Proof. intros (Hm & Ha & Ea) L%Z.leb_le. destruct (weak_spec m a ltac:(lia) Ha) as [H E]. split; [lia |]. split; [done |]. by rewrite E, Ea. Qed.

Lemma is_set_int k : (0 <=? k) && (k <=? 0x7FFFFFFF) = true -> fe_is 1 k (secp256k1_fe_set_int k).
Proof.
  intros L. apply andb_prop in L as [L1%Z.leb_le L2%Z.leb_le]. split; [lia |]. unfold secp256k1_fe_set_int. rewrite uint64_id by lia. split; [unfold magnitude, M52, M48; cbn [n0 n1 n2 n3 n4]; lia |]. unfold fval. cbn [n0 n1 n2 n3 n4]. by rewrite Z.add_0_r.
Qed.

Lemma is_zero_var m e a : fe_is m e a -> (m <=? 1024) = true -> secp256k1_fe_normalizes_to_zero_var a = (e mod prime =? 0) /\ secp256k1_fe_normalizes_to_zero a = (e mod prime =? 0).
Proof. intros (Hm & Ha & Ea) L%Z.leb_le. rewrite (normalizes_to_zero_var_eq m), (normalizes_to_zero_spec m) by (done || lia). by rewrite Ea. Qed.

Lemma is_let {B} (Q : B -> Prop) m e s (f : secp256k1_fe -> B) : fe_is m e s -> (forall y, fe_is m e y -> Q (f y)) -> Q (let y := s in f y).
Proof. intros Hs H. by apply H. Qed.

(** The value of a term, from the values of its variables. *)
Ltac is_term := lazymatch goal with
  | |- fe_is _ _ (secp256k1_fe_mul _ _) => eapply is_mul; [is_term | is_term | reflexivity | reflexivity]
  | |- fe_is _ _ (secp256k1_fe_sqr _) => eapply is_sqr; [is_term | reflexivity]
  | |- fe_is _ _ (secp256k1_fe_add _ _) => eapply is_add; [is_term | is_term | reflexivity]
  | |- fe_is _ _ (secp256k1_fe_negate _ _) => eapply is_negate; [is_term | reflexivity]
  | |- fe_is _ _ (secp256k1_fe_mul_int _ _) => eapply is_mul_int; [is_term | reflexivity]
  | |- fe_is _ _ (secp256k1_fe_normalize_weak _) => eapply is_weak; [is_term | reflexivity]
  | |- fe_is _ _ (secp256k1_fe_set_int _) => eapply is_set_int; reflexivity
  | _ => eassumption
  end.

(** The next binding of an element. *)
Ltac is_step := lazymatch goal with |- ?Q (let y := ?s in @?f y) => refine (is_let Q _ _ s f _ _); [is_term | cbv beta] end;
  let y := fresh "y" in let H := fresh "H" in intros y H;
  match type of H with fe_is ?m _ _ => let m' := eval cbv in m in change m with m' in H end.

(** ** The curve *)

Definition affine : Type := option (Z * Z).

Definition on_curve (P : affine) : Prop :=
  match P with None => True | Some (x, y) => feq (y * y) (x * x * x + CURVE_B) end.

(** The slope of the chord or of the tangent. *)
Definition slope (l x1 y1 x2 y2 : Z) : Prop :=
  (~ feq x1 x2 /\ feq (l * (x2 - x1)) (y2 - y1)) \/ (feq x1 x2 /\ feq y1 y2 /\ ~ feq y1 0 /\ feq (l * (2 * y1)) (3 * (x1 * x1))).

(** The group law. *)
Inductive ec_add : affine -> affine -> affine -> Prop :=
| ec_add_none_l Q : ec_add None Q Q
| ec_add_none_r P : ec_add P None P
| ec_add_opposite x1 y1 x2 y2 : feq x1 x2 -> feq (y1 + y2) 0 -> ec_add (Some (x1, y1)) (Some (x2, y2)) None
| ec_add_line l x1 y1 x2 y2 x3 y3 : slope l x1 y1 x2 y2 -> feq x3 (l * l - x1 - x2) -> feq y3 (l * (x1 - x3) - y1) -> ec_add (Some (x1, y1)) (Some (x2, y2)) (Some (x3, y3)).

(** Jacobian and affine elements that represent a point. *)
Definition jac_is (a : secp256k1_gej) (P : affine) : Prop :=
  match P with
  | None => gej_infinity a = true
  | Some (x, y) => gej_infinity a = false /\ exists z, ~ feq z 0 /\ fe_is 8 z (gej_z a) /\ fe_is 8 (x * z * z) (gej_x a) /\ fe_is 8 (y * z * z * z) (gej_y a)
  end.

Definition ge_is (a : secp256k1_ge) (P : affine) : Prop :=
  match P with
  | None => ge_infinity a = true
  | Some (x, y) => ge_infinity a = false /\ fe_is 8 x (ge_x a) /\ fe_is 8 y (ge_y a)
  end.

(** *** The field *)

(** Equal polynomials. *)
Ltac feq_ring := unfold feq; f_equal; ring.

#[local] Opaque prime.

Lemma feq_sub x y : feq (x - y) 0 <-> feq x y.
Proof. unfold feq. rewrite (Z.mod_0_l prime) by done. symmetry. apply Z.cong_iff_0. Qed.

#[export] Instance feq_sub_proper : Proper (feq ==> feq ==> feq) Z.sub.
Proof. intros x y E u v F. unfold Z.sub. by rewrite E, F. Qed.

Lemma feq_inverse x : ~ feq x 0 -> exists w, feq (x * w) 1.
Proof.
  intros Hx. exists (x ^ (prime - 2)). pose proof (pow_pred x prime ltac:(by apply Z.leb_le)) as E. rewrite E. by apply nonzero_power.
Qed.

Lemma feq_cancel x u v : ~ feq x 0 -> feq (x * u) (x * v) -> feq u v.
Proof. intros Hx E. destruct (feq_inverse x Hx) as [w Hw]. transitivity (x * w * u); [rewrite Hw; feq_ring |]. transitivity (w * (x * v)); [rewrite <- E; feq_ring |]. transitivity (x * w * v); [feq_ring |]. rewrite Hw. feq_ring. Qed.

Lemma feq_integral x y : feq (x * y) 0 -> feq x 0 \/ feq y 0.
Proof. intros E. destruct (decide (x mod prime = 0 mod prime)) as [| Hx]; [by left |]. right. apply (feq_cancel x); [done |]. rewrite E. feq_ring. Qed.

Lemma nonzero_mul x y : ~ feq x 0 -> ~ feq y 0 -> ~ feq (x * y) 0.
Proof. intros Hx Hy [H | H]%feq_integral; done. Qed.

Lemma nonzero_2 : ~ feq 2 0.
Proof. intros H. vm_compute in H. discriminate. Qed.

(** Squares are equal for equal and opposite numbers only. *)
Lemma equal_squares x y : feq (x * x) (y * y) -> feq x y \/ feq (x + y) 0.
Proof. intros E. assert (H : feq ((x - y) * (x + y)) 0). { transitivity (x * x - y * y); [feq_ring | by apply feq_sub]. } apply feq_integral in H as [H | H]; [left; by apply feq_sub | by right]. Qed.

(** The curve has no point with the ordinate zero, since [-7] is not a cube. *)
Lemma no_cube_root : (power_red (fun x => fold_at 256 4294968273 (fold_at 256 4294968273 x)) 7 (Z.to_pos ((prime - 1) / 3)) mod prime =? 1) = false.
Proof. vm_compute. reflexivity. Qed.

Lemma ordinate_nonzero x y : on_curve (Some (x, y)) -> ~ feq y 0.
Proof.
  cbn [on_curve]. unfold CURVE_B. intros Hc Hy. rewrite Hy in Hc. assert (H7 : feq 7 ((- x) * (- x) * (- x))). { apply feq_sub. transitivity (x * x * x + 7); [feq_ring |]. rewrite <- Hc. feq_ring. }
  assert (Hx : ~ feq (- x) 0). { intros Hx. rewrite Hx in H7. vm_compute in H7. discriminate. }
  pose proof no_cube_root as Hn. apply Z.eqb_neq in Hn. apply Hn. rewrite (power_red_spec prime); [| intros z; rewrite !fold_at_ok; [done | done | done | | done | done |]; by exists 1 | done].
  assert (E3 : Z.pos (Z.to_pos ((prime - 1) / 3)) * 3 = prime - 1) by (vm_compute; reflexivity). set (e := Z.pos (Z.to_pos ((prime - 1) / 3))) in *. assert (He : 0 <= e) by done. clearbody e.
  change (feq (7 ^ e) 1). rewrite H7. rewrite !Z.pow_mul_l, <- !Z.pow_add_r by lia. replace (e + e + e) with (prime - 1) by lia. by apply nonzero_power.
Qed.

(** *** The sum of two points lies on the curve *)

Lemma ec_add_on_curve P Q R : ec_add P Q R -> on_curve P -> on_curve Q -> on_curve R.
Proof.
  intros [Q' | P' | x1 y1 x2 y2 _ _ | l x1 y1 x2 y2 x3 y3 Hl E3 F3]; try done. cbn [on_curve]. unfold CURVE_B. intros C1 C2. set (f := fun x => x * x * x + 7 - (l * (x - x1) + y1) * (l * (x - x1) + y1)).
  assert (Hf : feq (f (l * l - x1 - x2)) 0).
  { assert (F1 : feq (f x1) 0). { unfold f. transitivity (x1 * x1 * x1 + 7 - y1 * y1); [feq_ring |]. rewrite C1. feq_ring. } destruct Hl as [[Hx Hl] | (Hx & Hy & Hy0 & Hl)].
    - assert (F2 : feq (f x2) 0). { unfold f. rewrite Hl. transitivity (x2 * x2 * x2 + 7 - y2 * y2); [feq_ring |]. rewrite C2. feq_ring. } apply (feq_cancel (x1 - x2)); [by rewrite feq_sub |].
      transitivity ((l * l - x1 - x2 - x2) * f x1 - (l * l - x1 - x2 - x1) * f x2); [unfold f; feq_ring |]. rewrite F1, F2. feq_ring.
    - transitivity (f x1 + (l * l - x1 - x1 - x1) * (3 * (x1 * x1) - l * (2 * y1))); [unfold f; rewrite <- Hx; feq_ring |]. rewrite F1, Hl. feq_ring. }
  rewrite F3, E3. apply feq_sub. transitivity (- f (l * l - x1 - x2)); [unfold f; feq_ring |]. rewrite Hf. feq_ring.
Qed.

(** *** Doubling *)

Lemma is_weaken m m' e e' a : fe_is m e a -> (m <=? m') = true -> feq e e' -> fe_is m' e' a.
Proof. intros (Hm & Ha & Ea) L%Z.leb_le E. split; [lia |]. split; [by apply (magnitude_mono m) | by rewrite Ea]. Qed.

(** A value up to the laws of rings. *)
Ltac is_ring := lazymatch goal with H : fe_is ?m ?e ?a |- fe_is ?m' ?e' ?a => apply (is_weaken m m' e e' a H eq_refl); feq_ring end.

(** The values of the doubled coordinates. *)
Definition doubled (x y z : Z) (t : secp256k1_gej * secp256k1_fe) : Prop :=
  gej_infinity t.1 = false /\ fe_is 8 (2 * y) t.2 /\ fe_is 8 (2 * y * z) (gej_z t.1) /\
  fe_is 8 (3 * (x * x) * (3 * (x * x)) - 8 * x * y * y) (gej_x t.1) /\ fe_is 8 (3 * (x * x) * (12 * x * y * y - 3 * (x * x) * (3 * (x * x))) - 8 * y * y * y * y) (gej_y t.1).

Lemma double_values r a x y z : gej_infinity a = false -> fe_is 8 z (gej_z a) -> fe_is 8 x (gej_x a) -> fe_is 8 y (gej_y a) -> doubled x y z (secp256k1_gej_double_var r a).
Proof. intros Hi Hz Hx Hy. cbv delta [secp256k1_gej_double_var] beta. rewrite Hi. repeat is_step. split; [done |]. cbn [fst snd gej_x gej_y gej_z]. split_and!; is_ring. Qed.

(** The ratio that a caller keeps is the one of the denominators. *)
Definition ratio_is (rzr : secp256k1_fe) (a r : secp256k1_gej) : Prop := feq (fval (gej_z r)) (fval (gej_z a) * fval rzr).

Lemma double_spec r a x y : jac_is a (Some (x, y)) -> on_curve (Some (x, y)) ->
  let '(s, rzr) := secp256k1_gej_double_var r a in exists R, ec_add (Some (x, y)) (Some (x, y)) (Some R) /\ jac_is s (Some R) /\ ratio_is rzr a s.
Proof.
  intros (Hi & z & Hz & Iz & Ix & Iy) Hc. pose proof (double_values r a _ _ _ Hi Iz Ix Iy) as H. destruct (secp256k1_gej_double_var r a) as [s rzr]. destruct H as (Hi' & Hr & Hz' & Hx' & Hy'). cbn [fst snd] in *.
  pose proof (ordinate_nonzero x y Hc) as Hy0. destruct (feq_inverse (2 * y) (nonzero_mul _ _ nonzero_2 Hy0)) as [w Hw]. set (l := 3 * (x * x) * w). assert (Hl : feq (l * (2 * y)) (3 * (x * x))). { unfold l. transitivity (3 * (x * x) * (2 * y * w)); [feq_ring |]. rewrite Hw. feq_ring. }
  clearbody l. set (x3 := l * l - x - x). exists (x3, l * (x - x3) - y). split; [apply (ec_add_line l); [right; done | done | done] |]. split.
  - split; [done |]. exists (2 * (y * z * z * z) * z). split; [repeat apply nonzero_mul; first [done | apply nonzero_2] |]. split; [done |]. split.
    + apply (is_weaken 8 8 _ _ _ Hx' eq_refl). transitivity (3 * (x * x) * (3 * (x * x)) * (z * z * z * z * z * z * z * z) - 8 * x * y * y * (z * z * z * z * z * z * z * z)); [feq_ring |]. rewrite <- Hl. unfold x3. feq_ring.
    + apply (is_weaken 8 8 _ _ _ Hy' eq_refl). set (q := z * z * z * z * z * z * z * z * z * z * z * z). transitivity (3 * (x * x) * (12 * x * y * y - 3 * (x * x) * (3 * (x * x))) * q - 8 * y * y * y * y * q); [unfold q; feq_ring |]. rewrite <- Hl. unfold x3, q. feq_ring.
  - unfold ratio_is. destruct Hr as (_ & _ & ->), Hz' as (_ & _ & ->), Iz as (_ & _ & ->). feq_ring.
Qed.

(** *** Addition *)

Definition finished (u s h i : Z) (t : secp256k1_fe * secp256k1_fe) : Prop :=
  fe_is 8 (i * i - h * h * h - 2 * u * h * h) t.1 /\ fe_is 8 ((u * h * h - (i * i - h * h * h - 2 * u * h * h)) * i - h * h * h * s) t.2.

Lemma add_finish_values u s h i u1 s1 h1 i1 : fe_is 1 u u1 -> fe_is 1 s s1 -> fe_is 3 h h1 -> fe_is 3 i i1 -> finished u s h i (add_finish u1 s1 h1 i1).
Proof. intros Hu Hs Hh Hi. cbv delta [add_finish] beta. repeat is_step. split; cbn [fst snd]; is_ring. Qed.

(** What the variable-time additions compute before their branches: both points brought to
    the denominator [k]. *)
Record brought (k x1 y1 x2 y2 : Z) (u1 s1 h i : secp256k1_fe) : Prop := Brought {
  brought_k : ~ feq k 0;
  brought_u : fe_is 1 (x1 * k * k) u1;
  brought_s : fe_is 1 (y1 * k * k * k) s1;
  brought_h : fe_is 3 ((x2 - x1) * k * k) h;
  brought_i : fe_is 3 ((y2 - y1) * k * k * k) i }.

Lemma zero_scaled d k : ~ feq k 0 -> feq (d * k) 0 <-> feq d 0.
Proof. intros Hk. split; [intros [H | H]%feq_integral; done | intros ->; feq_ring]. Qed.

Section Brought.
Context (k x1 y1 x2 y2 : Z) (u1 s1 h i : secp256k1_fe) (B : brought k x1 y1 x2 y2 u1 s1 h i).

Lemma brought_same_x : secp256k1_fe_normalizes_to_zero_var h = true <-> feq x1 x2.
Proof using B.
  destruct B as [Hk _ _ Hh _]. rewrite (proj1 (is_zero_var _ _ _ Hh eq_refl)), Z.eqb_eq, <- (Z.mod_0_l prime) by done. change (feq ((x2 - x1) * k * k) 0 <-> feq x1 x2). rewrite !zero_scaled, feq_sub by done. split; by symmetry.
Qed.

Lemma brought_same_y : secp256k1_fe_normalizes_to_zero_var i = true <-> feq y1 y2.
Proof using B.
  destruct B as [Hk _ _ _ Hi]. rewrite (proj1 (is_zero_var _ _ _ Hi eq_refl)), Z.eqb_eq, <- (Z.mod_0_l prime) by done. change (feq ((y2 - y1) * k * k * k) 0 <-> feq y1 y2). rewrite !zero_scaled, feq_sub by done. split; by symmetry.
Qed.

(** Distinct abscissas: the chord. *)
Lemma add_chord z zv : ~ feq x1 x2 -> fe_is 8 zv z -> feq zv ((x2 - x1) * k * k * k) ->
  let '(x, y) := add_finish u1 s1 h i in exists R, ec_add (Some (x1, y1)) (Some (x2, y2)) (Some R) /\ jac_is (Gej x y z false) (Some R).
Proof using B.
  intros Hx Hz Ez. destruct B as [Hk Hu Hs Hh Hi]. pose proof (add_finish_values _ _ _ _ _ _ _ _ Hu Hs Hh Hi) as H. destruct (add_finish u1 s1 h i) as [x y]. destruct H as [Ix Iy]. cbn [fst snd] in *.
  assert (Hd : ~ feq (x2 - x1) 0) by (rewrite feq_sub; intros E; by apply Hx). destruct (feq_inverse _ Hd) as [w Hw]. set (l := (y2 - y1) * w). assert (Hl : feq (l * (x2 - x1)) (y2 - y1)). { unfold l. transitivity ((y2 - y1) * ((x2 - x1) * w)); [feq_ring |]. rewrite Hw. feq_ring. }
  clearbody l. set (x3 := l * l - x1 - x2). exists (x3, l * (x1 - x3) - y1). split; [apply (ec_add_line l); [left; done | done | done] |]. split; [done |]. exists ((x2 - x1) * k * k * k). split; [repeat apply nonzero_mul; done |]. cbn [gej_x gej_y gej_z].
  split; [by apply (is_weaken 8 8 zv) |]. split; [apply (is_weaken 8 8 _ _ _ Ix eq_refl) | apply (is_weaken 8 8 _ _ _ Iy eq_refl)]; rewrite <- Hl; unfold x3; feq_ring.
Qed.
End Brought.

(** The two points are equal or opposite. *)
Lemma same_abscissa x1 y1 x2 y2 : on_curve (Some (x1, y1)) -> on_curve (Some (x2, y2)) -> feq x1 x2 -> ~ feq y1 y2 -> ec_add (Some (x1, y1)) (Some (x2, y2)) None.
Proof. cbn [on_curve]. intros C1 C2 Hx Hy. apply ec_add_opposite; [done |]. rewrite <- Hx, <- C1 in C2. apply equal_squares in C2 as [H | H]; [by destruct Hy |]. by rewrite Z.add_comm. Qed.

Lemma ec_add_same x1 y1 x2 y2 R : feq x1 x2 -> feq y1 y2 -> ec_add (Some (x1, y1)) (Some (x1, y1)) (Some R) -> ~ feq y1 0 -> ec_add (Some (x1, y1)) (Some (x2, y2)) (Some R).
Proof.
  intros Hx Hy H Hy0. inversion H as [| | | l a b c d x3 y3 Hl E3 F3 Ea Eb Ec]; subst. apply (ec_add_line l); [| by rewrite <- Hx | done]. right. destruct Hl as [[Hne _] | (_ & _ & _ & Hl)]; [by destruct Hne |]. done.
Qed.

Lemma is_eq m e e' a : fe_is m e a -> feq e e' -> fe_is m e' a.
Proof. intros (Hm & Ha & Ea) E. split; [done |]. split; [done |]. by rewrite Ea. Qed.

(** A result of an addition, with the ratio of the denominators when [a] is finite. *)
Definition sum_of (a : secp256k1_gej) (P Q : affine) (t : secp256k1_gej * secp256k1_fe) : Prop :=
  exists R, ec_add P Q R /\ jac_is t.1 R /\ (gej_infinity a = false -> gej_infinity t.1 = false -> ratio_is t.2 a t.1).

(** The branches of the additions, from the points at a common denominator. *)
Lemma add_branches r a k x1 y1 x2 y2 u1 s1 h i z zv rzr0 rzr1 : jac_is a (Some (x1, y1)) -> on_curve (Some (x1, y1)) -> on_curve (Some (x2, y2)) ->
  brought k x1 y1 x2 y2 u1 s1 h i -> fe_is 8 zv z -> feq zv ((x2 - x1) * k * k * k) -> feq zv (fval (gej_z a) * fval rzr1) ->
  sum_of a (Some (x1, y1)) (Some (x2, y2))
    (if secp256k1_fe_normalizes_to_zero_var h then
       if secp256k1_fe_normalizes_to_zero_var i then secp256k1_gej_double_var r a else (Gej (gej_x r) (gej_y r) (gej_z r) true, rzr0)
     else let '(x, y) := add_finish u1 s1 h i in (Gej x y z false, rzr1)).
Proof.
  intros Ha C1 C2 B Hz Ez Er. destruct (secp256k1_fe_normalizes_to_zero_var h) eqn:Eh.
  - apply (brought_same_x _ _ _ _ _ _ _ _ _ B) in Eh. destruct (secp256k1_fe_normalizes_to_zero_var i) eqn:Ei.
    + apply (brought_same_y _ _ _ _ _ _ _ _ _ B) in Ei. pose proof (double_spec r a x1 y1 Ha C1) as H. destruct (secp256k1_gej_double_var r a) as [s rzr]. destruct H as (R & HR & Hs & Hr). exists (Some R). split; [| done]. apply ec_add_same; [done | done | done | by apply (ordinate_nonzero x1)].
    + exists None. split; [| done]. apply same_abscissa; [done | done | done |]. intros E. apply (brought_same_y _ _ _ _ _ _ _ _ _ B) in E. congruence.
  - assert (Hx : ~ feq x1 x2) by (intros E; apply (brought_same_x _ _ _ _ _ _ _ _ _ B) in E; congruence). pose proof (add_chord _ _ _ _ _ _ _ _ _ B z zv Hx Hz Ez) as H. destruct (add_finish u1 s1 h i) as [x y]. destruct H as (R & HR & Hs). exists (Some R). split; [done |]. split; [done |].
    intros _ _. unfold ratio_is. cbn [fst snd gej_z]. destruct Hz as (_ & _ & ->). exact Er.
Qed.

Lemma sum_none_r a P rzr : jac_is a P -> fe_is 1 1 rzr -> sum_of a P None (a, rzr).
Proof. intros Ha (_ & _ & Hr). exists P. split; [constructor |]. split; [done |]. intros _ _. unfold ratio_is. cbn [fst snd]. rewrite Hr. feq_ring. Qed.

Lemma sum_none_l a b Q rzr : gej_infinity a = true -> jac_is b Q -> sum_of a None Q (b, rzr).
Proof. intros Ha Hb. exists Q. split; [constructor |]. split; [done |]. congruence. Qed.

Lemma add_var_spec r a b rzr P Q : jac_is a P -> jac_is b Q -> on_curve P -> on_curve Q -> sum_of a P Q (secp256k1_gej_add_var r a b rzr).
Proof.
  intros Ha Hb C1 C2. destruct P as [[x1 y1] |]; [| unfold secp256k1_gej_add_var; rewrite Ha; by apply sum_none_l]. pose proof Ha as (Hi & z1 & N1 & Z1 & X1 & Y1).
  destruct Q as [[x2 y2] |]; [| unfold secp256k1_gej_add_var; rewrite Hi, Hb; apply sum_none_r; [done | by apply is_set_int]]. destruct Hb as (Hi2 & z2 & N2 & Z2 & X2 & Y2). cbv delta [secp256k1_gej_add_var] beta. rewrite Hi, Hi2. do 8 is_step.
  match goal with |- sum_of _ _ _ (if secp256k1_fe_normalizes_to_zero_var ?h then _ else _) => set (hz := secp256k1_fe_mul h (gej_z b)); assert (Hhz : fe_is 8 ((x2 - x1) * z1 * z2 * z1 * z2 * z2) hz) by (eapply is_weaken; [unfold hz; is_term | reflexivity | feq_ring]) end.
  eapply (add_branches (Gej (gej_x r) (gej_y r) (gej_z r) false) a (z1 * z2) x1 y1 x2 y2 _ _ _ _ (secp256k1_fe_mul (gej_z a) hz) (z1 * ((x2 - x1) * z1 * z2 * z1 * z2 * z2)) _ hz); [done | done | done | | | feq_ring |].
  - split; [by apply nonzero_mul | is_ring ..].
  - eapply is_weaken; [is_term | reflexivity | reflexivity].
  - destruct Z1 as (_ & _ & ->), Hhz as (_ & _ & ->). reflexivity.
Qed.

Lemma add_ge_var_spec r a b rzr P Q : jac_is a P -> ge_is b Q -> on_curve P -> on_curve Q -> sum_of a P Q (secp256k1_gej_add_ge_var r a b rzr).
Proof.
  intros Ha Hb C1 C2. destruct P as [[x1 y1] |].
  - pose proof Ha as (Hi & z1 & N1 & Z1 & X1 & Y1). destruct Q as [[x2 y2] |]; [| unfold secp256k1_gej_add_ge_var; rewrite Hi, Hb; apply sum_none_r; [done | by apply is_set_int]]. destruct Hb as (Hi2 & X2 & Y2). cbv delta [secp256k1_gej_add_ge_var] beta. rewrite Hi, Hi2. do 7 is_step.
    match goal with |- sum_of _ _ _ (if secp256k1_fe_normalizes_to_zero_var ?h then _ else _) => assert (Hh : fe_is 3 ((x2 - x1) * z1 * z1) h) by is_ring; eapply (add_branches (Gej (gej_x r) (gej_y r) (gej_z r) false) a z1 x1 y1 x2 y2 _ _ h _ (secp256k1_fe_mul (gej_z a) h) (z1 * ((x2 - x1) * z1 * z1)) _ h) end; [done | done | done | | | feq_ring |].
    + split; [done | is_ring ..].
    + eapply is_weaken; [is_term | reflexivity | reflexivity].
    + destruct Z1 as (_ & _ & ->), Hh as (_ & _ & ->). reflexivity.
  - unfold secp256k1_gej_add_ge_var. rewrite Ha. apply sum_none_l; [done |]. destruct Q as [[x2 y2] |]; [| done]. destruct Hb as (Hi2 & X2 & Y2). split; [done |]. exists 1. split; [intros H; vm_compute in H; discriminate |]. cbn [gej_x gej_y gej_z secp256k1_gej_set_ge]. split; [apply (is_weaken 1 8 1 1); [by apply is_set_int | done | done] |]. split; is_ring.
Qed.

Lemma nonzero_1 : ~ feq 1 0.
Proof. intros H. vm_compute in H. discriminate. Qed.

(** The affine point with the denominator [1 / bzinv]. *)
Definition zinv_is (b : secp256k1_ge) (bzinv : secp256k1_fe) (Q : affine) : Prop :=
  match Q with
  | None => ge_infinity b = true
  | Some (x, y) => ge_infinity b = false /\ exists bx b_y w, fe_is 8 w bzinv /\ fe_is 8 bx (ge_x b) /\ fe_is 8 b_y (ge_y b) /\ feq (bx * w * w) x /\ feq (b_y * w * w * w) y
  end.

Lemma add_zinv_var_spec r a b bzinv P Q : jac_is a P -> zinv_is b bzinv Q -> on_curve P -> on_curve Q ->
  exists R, ec_add P Q R /\ jac_is (secp256k1_gej_add_zinv_var r a b bzinv) R.
Proof.
  intros Ha Hb C1 C2. destruct Q as [[x2 y2] |]; [| unfold secp256k1_gej_add_zinv_var; rewrite Hb; exists P; split; [constructor | done]]. destruct Hb as (Hi2 & bx & b_y & w & W & X2 & Y2 & E2 & F2). destruct P as [[x1 y1] |].
  - pose proof Ha as (Hi & z1 & N1 & Z1 & X1 & Y1). cbv delta [secp256k1_gej_add_zinv_var] beta. rewrite Hi, Hi2. 
    set (T (s : secp256k1_gej) := exists R, ec_add (Some (x1, y1)) (Some (x2, y2)) R /\ jac_is s R). match goal with |- exists R, _ /\ jac_is ?t R => change (T t) end. do 8 is_step.
    match goal with |- T (if secp256k1_fe_normalizes_to_zero_var ?h then if secp256k1_fe_normalizes_to_zero_var ?i then _ else _ else _) =>
      assert (Hh : fe_is 3 ((x2 - x1) * z1 * z1) h) by (eapply is_weaken; [eassumption | reflexivity |]; rewrite <- E2; feq_ring);
      assert (Hy : fe_is 3 ((y2 - y1) * z1 * z1 * z1) i) by (eapply is_weaken; [eassumption | reflexivity |]; rewrite <- F2; feq_ring) end.
    match goal with |- T (if secp256k1_fe_normalizes_to_zero_var ?h then if secp256k1_fe_normalizes_to_zero_var ?i then _ else _ else let z := _ in let '(x, y) := add_finish ?u ?s _ _ in _) =>
      assert (Hs : sum_of a (Some (x1, y1)) (Some (x2, y2)) (if secp256k1_fe_normalizes_to_zero_var h then if secp256k1_fe_normalizes_to_zero_var i then secp256k1_gej_double_var (Gej (gej_x r) (gej_y r) (gej_z r) false) a
        else (Gej (gej_x r) (gej_y r) (gej_z r) true, h) else let '(x, y) := add_finish u s h i in (Gej x y (secp256k1_fe_mul (gej_z a) h) false, h))) end.
    { eapply (add_branches (Gej (gej_x r) (gej_y r) (gej_z r) false) a z1 x1 y1 x2 y2 _ _ _ _ _ (z1 * ((x2 - x1) * z1 * z1))); [done | done | done | | | feq_ring |].
      - split; [done | is_ring | is_ring | done | done].
      - eapply is_weaken; [is_term | reflexivity | reflexivity].
      - destruct Z1 as (_ & _ & ->), Hh as (_ & _ & ->). reflexivity. }
    destruct Hs as (R & HR & Hs & _). exists R. split; [done |]. revert Hs. repeat case_match; cbn [fst]; done.
  - unfold secp256k1_gej_add_zinv_var. rewrite Hi2, Ha. exists (Some (x2, y2)). split; [constructor |]. split; [done |]. exists 1. cbn [gej_x gej_y gej_z]. split; [apply nonzero_1 |]. split; [by apply (is_weaken 1 8 1 1); [apply is_set_int | |] |].
    split; (eapply is_weaken; [is_term | reflexivity |]); [rewrite <- E2 | rewrite <- F2]; feq_ring.
Qed.

(** *** The addition in constant time *)

Lemma is_cmov m m' e f r a (flag : bool) : fe_is m e r -> fe_is m' f a -> (Z.max m m' <=? 2048) = true -> fe_is (Z.max m m') (if flag then f else e) (secp256k1_fe_cmov r a (Z.b2z flag)).
Proof.
  intros (Hm & Hr & Er) (Hm' & Ha & Ea) L%Z.leb_le. rewrite (cmov_spec (Z.max m m')); [| lia | by apply (magnitude_mono m); [lia |] | by apply (magnitude_mono m'); [lia |]].
  destruct flag; (split; [lia |]; split; [| done]); [apply (magnitude_mono m') | apply (magnitude_mono m)]; (lia || done).
Qed.

(** The values of the result: [p / u] is the slope at the denominator of [a], and [n] the last
    term of the ordinate. *)
Definition unified (inf : bool) (x y z bx b_y : Z) (s : secp256k1_gej) : Prop :=
  let u2 := bx * (z * z) in let s2 := b_y * (z * z) * z in let t := x + u2 in let m := y + s2 in
  let rr := t * t + x * - u2 in
  let deg := (m mod prime =? 0) && (rr mod prime =? 0) in
  let p := if negb deg then rr else 2 * y in
  let u := if negb deg then m else - u2 + x in
  let n := if deg then m else u * u * (u * u) in
  gej_infinity s = ((z * u) mod prime =? 0) && negb inf /\
  fe_is 8 (if inf then bx else 4 * (p * p - u * u * t)) (gej_x s) /\
  fe_is 8 (if inf then b_y else - 4 * ((2 * (p * p - u * u * t) - u * u * t) * p + n)) (gej_y s) /\
  fe_is 8 (if inf then 1 else 2 * (z * u)) (gej_z s).

Lemma is_fe_1 : fe_is 1 1 fe_1.
Proof. split; [lia |]. split; [unfold magnitude; vm_compute; intuition discriminate | vm_compute; reflexivity]. Qed.

Lemma bool_let {B} (Q : B -> Prop) (s : bool) (f : bool -> B) : (forall y, y = s -> Q (f y)) -> Q (let y := s in f y).
Proof. intros H. by apply H. Qed.

(** The next binding of an element, a conditional move included. *)
Ltac cmov_step := lazymatch goal with |- ?Q (let y := secp256k1_fe_cmov ?r ?a (Z.b2z ?c) in @?f y) =>
    refine (is_let Q _ _ _ f (is_cmov _ _ _ _ r a c _ _ _) _); [eassumption | eassumption | reflexivity | cbv beta] end;
  let y := fresh "y" in let H := fresh "H" in intros y H;
  match type of H with fe_is ?m _ _ => let m' := eval cbv in m in change m with m' in H end.

Ltac bool_step d E := lazymatch goal with |- ?Q (let d := ?s in @?f d) => refine (bool_let Q s f _) end; intros d E; cbv beta.

Lemma add_ge_values a b x y z bx b_y : fe_is 8 z (gej_z a) -> fe_is 8 x (gej_x a) -> fe_is 8 y (gej_y a) -> fe_is 8 bx (ge_x b) -> fe_is 8 b_y (ge_y b) ->
  unified (gej_infinity a) x y z bx b_y (secp256k1_gej_add_ge a b).
Proof.
  intros Hz Hx Hy Hbx Hby. pose proof is_fe_1 as H1. cbv delta [secp256k1_gej_add_ge] beta. set (inf := gej_infinity a). do 12 is_step. bool_step deg Ed.
  rewrite (proj2 (is_zero_var _ _ y7 ltac:(eassumption) eq_refl)), (proj2 (is_zero_var _ _ y11 ltac:(eassumption) eq_refl)) in Ed. do 2 is_step. do 2 cmov_step.
  do 3 is_step. cmov_step. do 2 is_step. bool_step fin Ef. rewrite (proj2 (is_zero_var _ _ _ ltac:(eassumption) eq_refl)) in Ef. do 13 is_step. do 3 cmov_step.
  unfold unified. cbv zeta. rewrite <- Ed. split; [exact Ef |]. cbn [gej_x gej_y gej_z]. clear Ed Ef. destruct inf, deg; cbn [negb] in *; split_and!; is_ring.
Qed.

(** The result from the slope [l], for both ways of computing it. *)
Lemma unified_line l x1 y1 x2 y2 z p u n : feq (l * (x2 - x1)) (y2 - y1) -> feq p (l * u * z) -> feq n ((y1 + y2) * z * z * z * u * u * u) ->
  let t := x1 * z * z + x2 * (z * z) in let x3 := l * l - x1 - x2 in let w := 2 * (z * u) in
  feq (4 * (p * p - u * u * t)) (x3 * w * w) /\ feq (- 4 * ((2 * (p * p - u * u * t) - u * u * t) * p + n)) ((l * (x1 - x3) - y1) * w * w * w).
Proof.
  intros Hl Hp Hn. cbv zeta. rewrite Hp, Hn. split; [feq_ring |]. apply feq_sub. transitivity (4 * (u * u * u * (z * z * z)) * (l * (x2 - x1) - (y2 - y1))); [feq_ring |]. rewrite Hl. feq_ring.
Qed.

(** Equal cubes of the abscissas when the ordinates are equal or opposite. *)
Lemma cubes x1 y1 x2 y2 : on_curve (Some (x1, y1)) -> on_curve (Some (x2, y2)) -> feq ((x2 - x1) * (x1 * x1 + x1 * x2 + x2 * x2)) ((y2 - y1) * (y1 + y2)).
Proof. cbn [on_curve]. intros C1 C2. transitivity (y2 * y2 - y1 * y1); [rewrite C1, C2; feq_ring | feq_ring]. Qed.

(** The slope where the ordinates are not opposite. *)
Lemma unified_slope x1 y1 x2 y2 : on_curve (Some (x1, y1)) -> on_curve (Some (x2, y2)) -> ~ feq (y1 + y2) 0 ->
  exists l, slope l x1 y1 x2 y2 /\ feq (l * (x2 - x1)) (y2 - y1) /\ feq (l * (y1 + y2)) (x1 * x1 + x1 * x2 + x2 * x2).
Proof.
  intros C1 C2 Hm. destruct (feq_inverse _ Hm) as [w Hw]. set (l := (x1 * x1 + x1 * x2 + x2 * x2) * w). assert (Hl : feq (l * (y1 + y2)) (x1 * x1 + x1 * x2 + x2 * x2)). { unfold l. transitivity ((x1 * x1 + x1 * x2 + x2 * x2) * ((y1 + y2) * w)); [feq_ring |]. rewrite Hw. feq_ring. }
  clearbody l. assert (Hs : feq (l * (x2 - x1)) (y2 - y1)). { apply (feq_cancel (y1 + y2)); [done |]. transitivity ((x2 - x1) * (l * (y1 + y2))); [feq_ring |]. rewrite Hl, (cubes x1 y1 x2 y2 C1 C2). feq_ring. }
  exists l. split; [| done]. destruct (decide (x1 mod prime = x2 mod prime)) as [Ex | Ex]; [right | by left]. change (feq x1 x2) in Ex. assert (Ey : feq y1 y2). { symmetry. apply feq_sub. rewrite <- Hs, Ex. feq_ring. }
  split; [done |]. split; [done |]. split; [intros H0; apply Hm; rewrite <- Ey, H0; feq_ring |]. transitivity (l * (y1 + y2)); [rewrite <- Ey; feq_ring |]. rewrite Hl, <- Ex. feq_ring.
Qed.

Definition gej_ok (a : secp256k1_gej) : Prop := magnitude 8 (gej_x a) /\ magnitude 8 (gej_y a) /\ magnitude 8 (gej_z a).

Lemma jac_ok a P : jac_is a (Some P) -> gej_ok a.
Proof. destruct P as [x y]. intros (_ & z & _ & (_ & Hz & _) & (_ & Hx & _) & (_ & Hy & _)). done. Qed.

(** The case of the slope [R / M]. *)
Lemma unified_regular x1 y1 x2 y2 z s : on_curve (Some (x1, y1)) -> on_curve (Some (x2, y2)) -> ~ feq z 0 ->
  let m := y1 * z * z * z + y2 * (z * z) * z in let t := x1 * z * z + x2 * (z * z) in let rr := t * t + x1 * z * z * - (x2 * (z * z)) in
  ~ (feq m 0 /\ feq rr 0) -> gej_infinity s = ((z * m) mod prime =? 0) && true ->
  fe_is 8 (4 * (rr * rr - m * m * t)) (gej_x s) -> fe_is 8 (- 4 * ((2 * (rr * rr - m * m * t) - m * m * t) * rr + m * m * (m * m))) (gej_y s) -> fe_is 8 (2 * (z * m)) (gej_z s) ->
  exists R, ec_add (Some (x1, y1)) (Some (x2, y2)) R /\ jac_is s R.
Proof.
  intros C1 C2 Hz m t rr Hdeg Hi Hx Hy Hzs. assert (Em : feq m ((y1 + y2) * z * z * z)) by (unfold m; feq_ring). assert (Er : feq rr ((x1 * x1 + x1 * x2 + x2 * x2) * z * z * z * z)) by (unfold rr, t; feq_ring). rewrite andb_true_r in Hi.
  destruct (decide ((y1 + y2) mod prime = 0 mod prime)) as [E0 | E0]; [change (feq (y1 + y2) 0) in E0 | change (~ feq (y1 + y2) 0) in E0].
  - exists None. assert (M0 : feq m 0) by (rewrite Em, E0; feq_ring). split; [| cbn [jac_is]; rewrite Hi; apply Z.eqb_eq; change (feq (z * m) 0); rewrite M0; feq_ring]. apply ec_add_opposite; [| done].
    pose proof (cubes x1 y1 x2 y2 C1 C2) as Hc. rewrite E0, Z.mul_0_r in Hc. apply feq_integral in Hc as [Hc | Hc]; [symmetry; by apply feq_sub |]. exfalso. apply Hdeg. split; [done |]. rewrite Er, Hc. feq_ring.
  - destruct (unified_slope x1 y1 x2 y2 C1 C2 E0) as (l & Hl & Hs & Hlm). assert (Hp : feq rr (l * m * z)) by (rewrite Er, Em, <- Hlm; feq_ring). assert (Hn : feq (m * m * (m * m)) ((y1 + y2) * z * z * z * m * m * m)) by (rewrite Em; feq_ring).
    destruct (unified_line l x1 y1 x2 y2 z rr m _ Hs Hp Hn) as [L1 L2]. set (x3 := l * l - x1 - x2) in *. exists (Some (x3, l * (x1 - x3) - y1)). split; [apply (ec_add_line l); done |].
    assert (Nm : ~ feq m 0) by (rewrite Em; repeat apply nonzero_mul; done). split; [rewrite Hi; apply Z.eqb_neq; by apply nonzero_mul |].
    exists (2 * (z * m)). split; [repeat apply nonzero_mul; first [done | apply nonzero_2] |]. split; [done |]. split; [by apply (is_eq 8 _ _ _ Hx) | by apply (is_eq 8 _ _ _ Hy)].
Qed.

(** The case of the alternative slope. *)
Lemma unified_degenerate x1 y1 x2 y2 z s : on_curve (Some (x1, y1)) -> on_curve (Some (x2, y2)) -> ~ feq z 0 ->
  let m := y1 * z * z * z + y2 * (z * z) * z in let t := x1 * z * z + x2 * (z * z) in let p := 2 * (y1 * z * z * z) in let u := - (x2 * (z * z)) + x1 * z * z in
  feq m 0 -> gej_infinity s = ((z * u) mod prime =? 0) && true ->
  fe_is 8 (4 * (p * p - u * u * t)) (gej_x s) -> fe_is 8 (- 4 * ((2 * (p * p - u * u * t) - u * u * t) * p + m)) (gej_y s) -> fe_is 8 (2 * (z * u)) (gej_z s) ->
  exists R, ec_add (Some (x1, y1)) (Some (x2, y2)) R /\ jac_is s R.
Proof.
  intros C1 C2 Hz m t p u Hm Hi Hx Hy Hzs. assert (Eu : feq u ((x1 - x2) * z * z)) by (unfold u; feq_ring). assert (E0 : feq (y1 + y2) 0). { rewrite <- (zero_scaled _ z Hz), <- (zero_scaled _ z Hz), <- (zero_scaled _ z Hz). transitivity m; [unfold m; feq_ring | exact Hm]. } rewrite andb_true_r in Hi.
  destruct (decide (x1 mod prime = x2 mod prime)) as [Ex | Ex]; [change (feq x1 x2) in Ex | change (~ feq x1 x2) in Ex].
  - exists None. split; [by apply ec_add_opposite |]. cbn [jac_is]. rewrite Hi. apply Z.eqb_eq. change (feq (z * u) 0). rewrite Eu, Ex. feq_ring.
  - assert (Hd : ~ feq (x1 - x2) 0) by (by rewrite feq_sub). destruct (feq_inverse _ Hd) as [w Hw]. set (l := 2 * y1 * w). assert (Hl : feq (l * (x1 - x2)) (2 * y1)). { unfold l. transitivity (2 * y1 * ((x1 - x2) * w)); [feq_ring |]. rewrite Hw. feq_ring. } clearbody l.
    assert (Hs : feq (l * (x2 - x1)) (y2 - y1)). { transitivity (y1 + y2 - l * (x1 - x2) - (y1 + y2)); [feq_ring |]. rewrite Hl. apply feq_sub. transitivity (- (y1 + y2)); [feq_ring |]. rewrite E0. feq_ring. }
    assert (Hp : feq p (l * u * z)). { rewrite Eu. transitivity (l * (x1 - x2) * z * z * z); [rewrite Hl; unfold p; feq_ring | feq_ring]. } assert (Hn : feq m ((y1 + y2) * z * z * z * u * u * u)) by (rewrite Hm, E0; feq_ring).
    destruct (unified_line l x1 y1 x2 y2 z p u m Hs Hp Hn) as [L1 L2]. set (x3 := l * l - x1 - x2) in *. exists (Some (x3, l * (x1 - x3) - y1)). split; [apply (ec_add_line l); [by left | done | done] |].
    assert (Nu : ~ feq u 0) by (rewrite Eu; repeat apply nonzero_mul; done). split; [rewrite Hi; apply Z.eqb_neq; by apply nonzero_mul |].
    exists (2 * (z * u)). split; [repeat apply nonzero_mul; first [done | apply nonzero_2] |]. split; [done |]. split; [by apply (is_eq 8 _ _ _ Hx) | by apply (is_eq 8 _ _ _ Hy)].
Qed.

Lemma add_ge_spec a b P x2 y2 : gej_ok a -> jac_is a P -> ge_is b (Some (x2, y2)) -> on_curve P -> on_curve (Some (x2, y2)) ->
  exists R, ec_add P (Some (x2, y2)) R /\ jac_is (secp256k1_gej_add_ge a b) R.
Proof.
  intros (Ox & Oy & Oz) Ha (_ & X2 & Y2) C1 C2. destruct P as [[x1 y1] |].
  - destruct Ha as (Hi & z & Nz & Z1 & X1 & Y1). pose proof (add_ge_values a b _ _ _ _ _ Z1 X1 Y1 X2 Y2) as H. rewrite Hi in H. unfold unified in H. cbv zeta in H. destruct H as (Hf & Hx & Hy & Hz).
    destruct (((y1 * z * z * z + y2 * (z * z) * z) mod prime =? 0) && _) eqn:Ed; cbn [negb] in *.
    + apply andb_prop in Ed as [Em%Z.eqb_eq _]. by apply (unified_degenerate x1 y1 x2 y2 z).
    + apply (unified_regular x1 y1 x2 y2 z); [done | done | done | | done | done | done | done]. intros [Em Er]. unfold feq in Em, Er. rewrite (Z.mod_0_l prime) in Em, Er by done. rewrite (proj2 (Z.eqb_eq _ _) Em), (proj2 (Z.eqb_eq _ _) Er) in Ed. discriminate.
  - pose proof (add_ge_values a b _ _ _ _ _ (is_self 8 _ ltac:(lia) Oz) (is_self 8 _ ltac:(lia) Ox) (is_self 8 _ ltac:(lia) Oy) X2 Y2) as H. cbn [jac_is] in Ha. rewrite Ha in H. unfold unified in H. cbv zeta in H. rewrite !andb_false_r in H. destruct H as (Hf & Hx & Hy & Hz).
    exists (Some (x2, y2)). split; [constructor |]. split; [done |]. exists 1. split; [apply nonzero_1 |]. split; [done |]. split; is_ring.
Qed.

(** *** Negation, conversions and tests *)

Definition ec_opp (P : affine) : affine := match P with None => None | Some (x, y) => Some (x, - y) end.

Lemma gej_neg_spec a P : jac_is a P -> jac_is (secp256k1_gej_neg a) (ec_opp P).
Proof.
  destruct P as [[x y] |]; [| done]. intros (Hi & z & Nz & Hz & Hx & Hy). split; [done |]. exists z. split; [done |]. split; [done |]. split; [done |]. cbn [secp256k1_gej_neg gej_y]. eapply is_weaken; [is_term | reflexivity | feq_ring].
Qed.

Lemma ge_neg_spec a P : ge_is a P -> ge_is (secp256k1_ge_neg a) (ec_opp P).
Proof. destruct P as [[x y] |]; [| done]. intros (Hi & Hx & Hy). split; [done |]. split; [done |]. cbn [secp256k1_ge_neg ge_y]. eapply is_weaken; [is_term | reflexivity | reflexivity]. Qed.

Lemma jac_set_ge b P : ge_is b P -> jac_is (secp256k1_gej_set_ge b) P.
Proof.
  destruct P as [[x y] |]; [| done]. intros (Hi & Hx & Hy). split; [done |]. exists 1. split; [apply nonzero_1 |]. cbn [secp256k1_gej_set_ge gej_x gej_y gej_z]. split; [apply (is_weaken 1 8 1 1); [by apply is_set_int | done | done] |]. split; is_ring.
Qed.

Lemma is_inv e a : fe_is 8 e a -> ~ feq e 0 -> exists w, feq (e * w) 1 /\ fe_is 1 w (secp256k1_fe_inv a).
Proof.
  intros (_ & Ha & Ea) Hz. exists (fval (secp256k1_fe_inv a)). destruct (inv_spec a Ha) as [Hm _]. split; [| by apply is_self]. rewrite <- Ea. apply fe_inverse; [done |]. by rewrite Ea.
Qed.

(** The coordinates divided by the powers of the denominator. *)
Lemma set_gej_zinv_spec a zi x y z w : gej_infinity a = false -> fe_is 8 (x * z * z) (gej_x a) -> fe_is 8 (y * z * z * z) (gej_y a) -> fe_is 8 w zi -> feq (z * w) 1 -> ge_is (secp256k1_ge_set_gej_zinv a zi) (Some (x, y)).
Proof.
  intros Hi Hx Hy Hw E. split; [done |]. cbn [secp256k1_ge_set_gej_zinv ge_x ge_y]. split; (eapply is_weaken; [is_term | reflexivity |]).
  - transitivity (x * (z * w) * (z * w)); [feq_ring |]. rewrite E. feq_ring.
  - transitivity (y * (z * w) * (z * w) * (z * w)); [feq_ring |]. rewrite E. feq_ring.
Qed.

Lemma set_gej_spec r a P : jac_is a P -> ge_is (secp256k1_ge_set_gej_var r a).1 P /\ jac_is (secp256k1_ge_set_gej_var r a).2 P.
Proof.
  destruct P as [[x y] |]; cbn [jac_is]; [| intros Ha; unfold secp256k1_ge_set_gej_var; by rewrite Ha]. intros (Hi & z & Nz & Hz & Hx & Hy). unfold secp256k1_ge_set_gej_var, secp256k1_fe_inv_var. rewrite Hi. destruct (is_inv z _ Hz Nz) as (w & Hw & Hiw). cbn [fst snd].
  set (zi := secp256k1_fe_inv (gej_z a)) in *. clearbody zi. assert (Hg : ge_is (Ge (secp256k1_fe_mul (gej_x a) (secp256k1_fe_sqr zi)) (secp256k1_fe_mul (gej_y a) (secp256k1_fe_mul zi (secp256k1_fe_sqr zi))) false) (Some (x, y))).
  { split; [done |]. cbn [ge_x ge_y]. split; (eapply is_weaken; [is_term | reflexivity |]); [transitivity (x * (z * w) * (z * w)) | transitivity (y * (z * w) * (z * w) * (z * w))]; first [feq_ring | rewrite Hw; feq_ring]. }
  split; [exact Hg |]. exact (jac_set_ge _ _ Hg).
Qed.

Lemma ge_is_valid_spec a x y : ge_is a (Some (x, y)) -> secp256k1_ge_is_valid_var a = true <-> on_curve (Some (x, y)).
Proof.
  intros (Hi & Hx & Hy). unfold secp256k1_ge_is_valid_var. rewrite Hi. cbv zeta. cbn [on_curve].
  assert (Hl : fe_is 1 (y * y) (secp256k1_fe_sqr (ge_y a))) by is_term. assert (Hr : fe_is 1 (x * x * x + CURVE_B) (secp256k1_fe_normalize_weak (secp256k1_fe_add (secp256k1_fe_mul (secp256k1_fe_sqr (ge_x a)) (ge_x a)) (secp256k1_fe_set_int CURVE_B)))) by is_term.
  destruct Hl as (_ & Ml & El), Hr as (_ & Mr & Er). destruct (equal_spec 1 _ _ ltac:(lia) Ml Mr) as [Eq ->]. rewrite Eq, Z.eqb_eq. change (feq (fval (secp256k1_fe_sqr (ge_y a))) (fval (secp256k1_fe_normalize_weak (secp256k1_fe_add (secp256k1_fe_mul (secp256k1_fe_sqr (ge_x a)) (ge_x a)) (secp256k1_fe_set_int CURVE_B)))) <-> feq (y * y) (x * x * x + CURVE_B)).
  by rewrite El, Er.
Qed.

(** Whether the abscissa of a Jacobian point is [x]. *)
Lemma gej_eq_x_spec fx a v x y : fe_is 8 v fx -> jac_is a (Some (x, y)) -> secp256k1_gej_eq_x_var fx a = true <-> feq v x.
Proof.
  intros Hv (Hi & z & Nz & Hz & Hx & Hy). unfold secp256k1_gej_eq_x_var. cbv zeta. assert (Hl : fe_is 1 (z * z * v) (secp256k1_fe_mul (secp256k1_fe_sqr (gej_z a)) fx)) by is_term. assert (Hr : fe_is 1 (x * z * z) (secp256k1_fe_normalize_weak (gej_x a))) by is_term.
  destruct Hl as (_ & Ml & El), Hr as (_ & Mr & Er). destruct (equal_spec 1 _ _ ltac:(lia) Ml Mr) as [Eq ->]. rewrite Eq, Z.eqb_eq. change (feq (fval (secp256k1_fe_mul (secp256k1_fe_sqr (gej_z a)) fx)) (fval (secp256k1_fe_normalize_weak (gej_x a))) <-> feq v x).
  rewrite El, Er. split; [intros E; apply (feq_cancel (z * z)); [by apply nonzero_mul |]; rewrite E; feq_ring | intros ->; feq_ring].
Qed.

Lemma rescale_spec a s v P : jac_is a P -> fe_is 8 v s -> ~ feq v 0 -> jac_is (secp256k1_gej_rescale a s) P.
Proof.
  destruct P as [[x y] |]; [| done]. intros (Hi & z & Nz & Hz & Hx & Hy) Hv Nv. split; [done |]. exists (z * v). split; [by apply nonzero_mul |]. cbn [secp256k1_gej_rescale gej_x gej_y gej_z]. split_and!; (eapply is_weaken; [is_term | reflexivity | feq_ring]).
Qed.

(** *** Points from an abscissa *)

Lemma set_xquad_spec fx x : fe_is 8 x fx -> let '(r, ret) := secp256k1_ge_set_xquad fx in
  (ret = true <-> exists y, on_curve (Some (x, y))) /\ exists y, ge_is r (Some (x, y)) /\ fe_is 1 y (ge_y r) /\ (ret = true -> on_curve (Some (x, y))).
Proof.
  intros Hx. unfold secp256k1_ge_set_xquad. cbv zeta. assert (Hc : fe_is 2 (CURVE_B + x * (x * x)) (secp256k1_fe_add (secp256k1_fe_set_int CURVE_B) (secp256k1_fe_mul fx (secp256k1_fe_sqr fx)))) by (eapply is_weaken; [is_term | reflexivity | reflexivity]).
  set (c := secp256k1_fe_add _ _) in *. clearbody c. destruct Hc as (_ & Mc & Ec). apply (magnitude_mono 2 8) in Mc; [| lia]. pose proof (sqrt_spec c Mc) as Hs. pose proof (sqrt_complete c) as Hcomp. destruct (secp256k1_fe_sqrt c) as [y ret]. destruct Hs as (My & _ & Eret). cbn [snd] in Hcomp.
  assert (Hret : ret = true -> on_curve (Some (x, fval y))). { intros ->. symmetry in Eret. apply Z.eqb_eq in Eret. cbn [on_curve]. transitivity (fval c); [exact Eret |]. rewrite Ec. feq_ring. }
  split; [split; [intros H; exists (fval y); auto |]; intros [v Hv]; apply (Hcomp v Mc); cbn [on_curve] in Hv; rewrite Hv, Ec; feq_ring |]. exists (fval y). pose proof (is_self 1 y ltac:(lia) My) as Iy.
  split; [| done]. split; [done |]. split; [done |]. cbn [ge_y]. by apply (is_weaken 1 8 _ _ _ Iy).
Qed.

(** The parity of the two ordinates of an abscissa. *)
Lemma odd_opposite y : ~ feq y 0 -> Z.odd (- y mod prime) = negb (Z.odd (y mod prime)).
Proof.
  intros Hy. unfold feq in Hy. rewrite (Z.mod_0_l prime) in Hy by done. rewrite Z.mod_opp_l_nz by done. rewrite Z.odd_sub. replace (Z.odd prime) with true by (vm_compute; reflexivity). by destruct (Z.odd (y mod prime)).
Qed.

Lemma set_xo_var_spec fx x odd : fe_is 8 x fx -> let '(r, ret) := secp256k1_ge_set_xo_var fx odd in
  (ret = true <-> exists y, on_curve (Some (x, y))) /\ (ret = true -> exists y, ge_is r (Some (x, y)) /\ on_curve (Some (x, y)) /\ Z.odd (y mod prime) = odd).
Proof.
  intros Hx. unfold secp256k1_ge_set_xo_var. pose proof (set_xquad_spec fx x Hx) as H. destruct (secp256k1_ge_set_xquad fx) as [r ret]. destruct H as (Hret & y & (Hi & Hrx & _) & Hry & Hc). destruct ret; cbn [negb]; [| done].
  split; [done |]. intros _. destruct Hry as (_ & My & Ey). specialize (Hc eq_refl). destruct (normalize_spec 1 (ge_y r) ltac:(lia) My) as [Hn En]. rewrite (normalize_var_eq 1) by (done || lia). set (n := secp256k1_fe_normalize (ge_y r)) in *. clearbody n. rewrite is_odd_spec.
  assert (Fn : feq (fval n) y) by (rewrite <- Ey; unfold feq; rewrite En; by rewrite Z.mod_mod). assert (In : fe_is 1 y n) by (split; [lia |]; split; [by apply magnitude_wf | done]). assert (Eo : Z.odd (fval n) = Z.odd (y mod prime)). { rewrite <- Fn, (Z.mod_small (fval n)); [done |]. rewrite En. by apply Z.mod_pos_bound. }
  rewrite Eo. destruct (Bool.eqb (Z.odd (y mod prime)) odd) eqn:Eb.
  - exists y. split; [split; [done |]; split; [done |]; cbn [ge_y]; by apply (is_weaken 1 8 _ _ _ In) |]. split; [done |]. by apply Bool.eqb_prop.
  - exists (- y). split; [split; [done |]; split; [done |]; cbn [ge_y]; eapply is_weaken; [is_term | reflexivity | reflexivity] |]. split; [cbn [on_curve] in *; rewrite <- Hc; feq_ring |].
    rewrite odd_opposite by (by apply (ordinate_nonzero x)). apply Bool.eqb_false_iff in Eb. destruct (Z.odd (y mod prime)), odd; done.
Qed.

(** *** All the points of a list at once *)

Definition inverse_of (z w : secp256k1_fe) : Prop := magnitude 8 w /\ feq (fval z * fval w) 1.

Lemma product_nonzero l : Forall (fun z => ~ feq z 0) l -> ~ feq (product l) 0.
Proof. induction 1 as [| z l Hz _ IH]; [apply nonzero_1 |]. by apply nonzero_mul. Qed.

Lemma inv_all_inverses az : Forall (fun z => magnitude 8 z /\ ~ feq (fval z) 0) az -> Forall2 inverse_of az (secp256k1_fe_inv_all_var az).
Proof.
  intros H. assert (Hm : Forall (magnitude 8) az) by (eapply list.Forall_impl; [exact H | by intros ? [? ?]]). assert (Hz : Forall (fun z => ~ feq (fval z) 0) az) by (eapply list.Forall_impl; [exact H | by intros ? [? ?]]). destruct (inv_all_spec az Hm) as [Hl Hi]. apply Forall2_same_length_lookup_2; [done |]. intros k z w Ez Ew. destruct (Hi k z w Ez Ew) as [Hw E]. split; [done |]. rewrite E. apply nonzero_power. apply product_nonzero. by apply Forall_fmap.
Qed.

Lemma set_all_gej_spec a : forall r Ps azi, Forall2 jac_is a Ps -> length r = length a -> Forall2 inverse_of (gej_z <$> filter (fun j => gej_infinity j = false) a) azi -> Forall2 ge_is (set_all_gej r a azi) Ps.
Proof.
  induction a as [| j a IH]; intros r Ps azi Ha Hr Hz; inversion Ha as [| ? P ? Ps' Hj Ha' E1 E2]; subst; [by destruct r |]. destruct r as [| p r]; [discriminate |]. injection Hr as Hr. cbn [set_all_gej]. destruct P as [[x y] |].
  - destruct Hj as (Hi & z & Nz & Iz & Ix & Iy). rewrite Hi. rewrite filter_cons_True in Hz by done. inversion Hz as [| ? w ? azi' [Mw Ew] Hz' E1 E2]; subst. constructor; [| by apply IH]. apply (set_gej_zinv_spec j w x y z (fval w)); [done | done | done | by apply is_self |]. destruct Iz as (_ & _ & Ez). by rewrite <- Ez.
  - cbn [jac_is] in Hj. rewrite Hj. rewrite filter_cons_False in Hz by (rewrite Hj; discriminate). constructor; [done | by apply IH].
Qed.

Lemma set_all_gej_var_spec r a Ps : Forall2 jac_is a Ps -> length r = length a -> Forall2 ge_is (secp256k1_ge_set_all_gej_var r a) Ps.
Proof.
  intros Ha Hr. apply set_all_gej_spec; [done | done |]. apply inv_all_inverses. apply Forall_fmap. apply list.Forall_forall. intros j [Hj Hin]%list_elem_of_filter. apply list_elem_of_lookup in Hin as [k Hk]. destruct (Forall2_lookup_l _ _ _ _ _ Ha Hk) as ([[x y] |] & _ & HP); [| cbn in HP; congruence].
  destruct HP as (_ & z & Nz & (_ & Mz & Ez) & _). split; [done |]. cbn. by rewrite Ez.
Qed.

(** ** Theorems *)

(** C13. The additions of libsecp256k1 on Jacobian coordinates compute the group law of the
    curve [y^2 = x^3 + 7], given by chords and tangents over the field: whatever the branch,
    the unified formulas in constant time and their degenerate case included, the result
    represents the sum of the points, which lies on the curve again. *)
Theorem group_law r a b c P Q : jac_is a P -> jac_is b Q -> ge_is c Q -> on_curve P -> on_curve Q ->
  (exists R, ec_add P P R /\ on_curve R /\ jac_is (secp256k1_gej_double_var r a).1 R) /\
  (exists R, ec_add P Q R /\ on_curve R /\ jac_is (secp256k1_gej_add_var r a b secp256k1_fe_clear).1 R) /\
  (exists R, ec_add P Q R /\ on_curve R /\ jac_is (secp256k1_gej_add_ge_var r a c secp256k1_fe_clear).1 R) /\
  (forall w, zinv_is c w Q -> exists R, ec_add P Q R /\ on_curve R /\ jac_is (secp256k1_gej_add_zinv_var r a c w) R) /\
  (gej_ok a -> secp256k1_ge_is_infinity c = false -> exists R, ec_add P Q R /\ on_curve R /\ jac_is (secp256k1_gej_add_ge a c) R) /\
  ec_add P (ec_opp P) None /\ jac_is (secp256k1_gej_neg a) (ec_opp P).
Proof.
  intros Ha Hb Hc C1 C2. assert (Hon : forall P Q s, on_curve P -> on_curve Q -> (exists R, ec_add P Q R /\ jac_is s R) -> exists R, ec_add P Q R /\ on_curve R /\ jac_is s R) by (intros P' Q' s H1 H2 (R & HR & Hs); exists R; split; [done |]; split; [by apply (ec_add_on_curve P' Q') | done]).
  split; [apply Hon; [done | done |] |].
  { destruct P as [[x y] |]; [| exists None; split; [constructor |]; unfold secp256k1_gej_double_var; by rewrite Ha]. pose proof (double_spec r a x y Ha C1) as H. destruct (secp256k1_gej_double_var r a) as [s rzr]. destruct H as (R & HR & Hs & _). by exists (Some R). }
  split; [apply Hon; [done | done |]; destruct (add_var_spec r a b secp256k1_fe_clear P Q Ha Hb C1 C2) as (R & HR & Hs & _); by exists R |].
  split; [apply Hon; [done | done |]; destruct (add_ge_var_spec r a c secp256k1_fe_clear P Q Ha Hc C1 C2) as (R & HR & Hs & _); by exists R |]. split; [intros w Hw; apply Hon; [done | done |]; by apply add_zinv_var_spec |].
  split; [| split; [| by apply gej_neg_spec]].
  - intros Ho Hf. destruct Q as [[x2 y2] |]; [| unfold secp256k1_ge_is_infinity in Hf; cbn [ge_is] in Hc; congruence]. apply Hon; [done | done |]. by apply add_ge_spec.
  - destruct P as [[x y] |]; [| constructor]. apply ec_add_opposite; [done |]. feq_ring.
Qed.

Lemma generator_is : ge_is secp256k1_ge_const_g (Some (fval (ge_x secp256k1_ge_const_g), fval (ge_y secp256k1_ge_const_g))) /\ on_curve (Some (fval (ge_x secp256k1_ge_const_g), fval (ge_y secp256k1_ge_const_g))).
Proof.
  split; [| vm_compute; reflexivity]. assert (H : forall a, magnitude 8 a -> fe_is 8 (fval a) a) by (intros a Ha; by apply is_self). split; [done |]. split; apply H; unfold magnitude; vm_compute; intuition discriminate.
Qed.

Lemma group_law_witness : let g := secp256k1_ge_const_g in let G := Some (fval (ge_x g), fval (ge_y g)) in let j := secp256k1_gej_set_ge g in
  exists R, ec_add G G R /\ on_curve R /\ jac_is (secp256k1_gej_add_ge j g) R.
Proof.
  intros g G j. destruct generator_is as [Hg Cg]. pose proof (jac_set_ge g G Hg) as Hj. destruct (group_law j j j g G G Hj Hj Hg Cg Cg) as (_ & _ & _ & _ & H & _). apply H; [exact (jac_ok j _ Hj) | reflexivity].
Defined.

(** C25. Points keep their meaning through the changes of their representation: a Jacobian
    point made affine, alone or in a list with one inversion for all, rescaled, or compared
    with an abscissa; a point is on the curve exactly when the check says so; and an
    abscissa with a parity is decompressed exactly when the curve has such a point, to the
    point with that parity. *)
Theorem point_conversions a P s v fx x odd : jac_is a P -> fe_is 8 v s -> ~ feq v 0 -> fe_is 8 x fx ->
  (forall r, ge_is (secp256k1_ge_set_gej_var r a).1 P) /\
  jac_is (secp256k1_gej_rescale a s) P /\
  (forall u w, P = Some (u, w) -> secp256k1_gej_eq_x_var fx a = true <-> feq x u) /\
  (forall r l Ps, Forall2 jac_is l Ps -> length r = length l -> Forall2 ge_is (secp256k1_ge_set_all_gej_var r l) Ps) /\
  (forall c u w, ge_is c (Some (u, w)) -> secp256k1_ge_is_valid_var c = true <-> on_curve (Some (u, w))) /\
  (let '(r, ret) := secp256k1_ge_set_xo_var fx odd in
    (ret = true <-> exists y, on_curve (Some (x, y))) /\ (ret = true -> exists y, ge_is r (Some (x, y)) /\ on_curve (Some (x, y)) /\ Z.odd (y mod prime) = odd)).
Proof.
  intros Ha Hs Hv Hx. split; [intros r; by apply set_gej_spec |]. split; [by apply (rescale_spec a s v) |]. split; [intros u w ->; by apply (gej_eq_x_spec fx a x u w) |]. split; [apply set_all_gej_var_spec |]. split; [apply ge_is_valid_spec |]. by apply set_xo_var_spec.
Qed.

Lemma point_conversions_witness : let g := secp256k1_ge_const_g in jac_is (secp256k1_gej_rescale (secp256k1_gej_set_ge g) (secp256k1_fe_set_int 3)) (Some (fval (ge_x g), fval (ge_y g))) /\
  secp256k1_gej_eq_x_var (ge_x g) (secp256k1_gej_set_ge g) = true.
Proof.
  intros g. destruct generator_is as [Hg Cg]. pose proof (jac_set_ge g _ Hg) as Hj. destruct (point_conversions (secp256k1_gej_set_ge g) _ (secp256k1_fe_set_int 3) 3 (ge_x g) (fval (ge_x g)) true Hj) as (_ & H1 & H2 & _).
  - apply (is_weaken 1 8 3 3); [apply is_set_int; reflexivity | reflexivity | reflexivity].
  - intros H. vm_compute in H. discriminate.
  - apply Hg.
  - split; [exact H1 |]. apply (H2 _ _ eq_refl). reflexivity.
Defined.
